(* ===== verification/_CoqProject ===== *)
-Q . S2P
Prelude.v
RustStd.v
Core.v
Crypto.v
Format.v
ToyCrypto.v
Sql.v
Schema.v
Records.v
StoreInv.v
RecordsOk.v
PolicyStore.v
VaultStore.v
RotationStore.v
IdentityStore.v
Store.v
RecordsProps.v
Metadata.v
VaultCore.v
Initialization.v
Rotation.v
Authentication.v
Authorization.v
ServiceIdentity.v
AuthorizedVault.v
ToyVault.v
VaultAudit.v
VaultRuns.v
AppRuns.v
VaultProps.v
AuthzProps.v
PolicyGraph.v
PolicyChanges.v
InitializationProps.v
RotationProps.v
Archive.v
ArchiveProps.v
ArchiveRuns.v
VaultTree.v
Witnesses.v
AppWitnesses.v
ArchiveWitnesses.v
Portable.v
PortableTree.v
PortableProps.v
Logical.v
Backup.v
LogicalProps.v
BackupProps.v
RestoreProps.v
BackupRuns.v
BackupWitnesses.v
Passkeys.v
LoginProps.v
PasskeyProps.v
PasskeyRuns.v
PasskeyWitnesses.v
Migrations.v
MigrationsProps.v
MigrationsWitnesses.v
Http.v
BackupJobs.v
Server.v
Api.v
BackupApi.v
Router.v
HttpProps.v
ApiProps.v
BrowserProps.v
JobProps.v
JobReopen.v
DownloadProps.v
Recovery.v
RecoveryProps.v
RecoveryRuns.v
Operations.v
OperationsProps.v
ToyServer.v
ServerWitnesses.v
CliWitnesses.v
