(* ===== verification/Prelude.v ===== *)
(** SMCV, a self-hosted secrets vault: a verification of its core.

    The program (src/crates) is a stack of Rust crates.  [smcv-core] has the
    vocabulary of identifiers, actions and schedules; [smcv-crypto] the
    envelope encryption, commitments, tokens and the root-key file;
    [smcv-storage] the SQLite tables and every transaction over them;
    [smcv-app] the vault: its installation and key ring, secrets and
    namespaces, the chained audit log, owners, services, policies, the facade
    through which a principal makes requests, and backup and restore, which
    turn an installation into an encrypted archive and back.  [smcv-backup]
    frames those archives.  [smcv-server] serves the vault over HTTP, with
    sessions, rate limits and background backup jobs; [smcv-cli] has the
    administrative commands, among them a local web page that restores an
    archive and the scheduled backup with its retention.

    ** Files and the code they model

    - Prelude, RustStd: results and their notations, the [Prog] monad (state
      and error, where an error keeps the state reached), tactics and hint
      databases; fixed-width arrays, checked arithmetic and UTF-8 strings.
    - Core: smcv-core (authorization.rs, lifecycle.rs, secret.rs).
    - Crypto: smcv-crypto/src/lib.rs.  The primitives (AEAD, HMAC, SHA-256,
      random generator, base64, NFC) are the fields of the class [Crypto], and
      what is relied on of them the class [CryptoLaws]: opening what was sealed
      yields the plaintext, encodings round-trip, outputs have their width.
      Collision resistance is never assumed: the theorems that need it have a
      collision as an alternative of their conclusion.  ToyCrypto is an
      instance that evaluates, and shows the laws can hold.
    - Format: the canonical texts, fields separated by NUL, that are committed to.
    - Sql, Schema: a table as a list of rows with rowids, its CHECK
      constraints, unique indexes, foreign keys and triggers; transactions
      with rollback; the tables of smcv-storage/src/lib.rs.
    - Migrations, MigrationsProps: the life of a database file, the rest of
      smcv-storage/src/lib.rs: recognizing, configuring and migrating it, and
      its snapshots, over an [Opening] in which any statement can fail.
    - Records, PolicyStore, VaultStore, RotationStore, IdentityStore: the
      modules records.rs, authorization.rs and idempotency.rs, vault.rs,
      rotation.rs, identity.rs of smcv-storage, every read and every
      mutation.  StoreInv and RecordsOk prove their invariant; Store puts all
      mutations in one type [StoreOp] with one run function.
    - Metadata, VaultCore: smcv-app/src/vault_core.rs, over a [World] of
      database, key ring, root key, random draws and a schedule of what other
      connections do between two calls of this one.
    - Initialization, Rotation, Authentication, Authorization,
      ServiceIdentity, AuthorizedVault: the files of the same names in
      smcv-app/src (service_identity.rs, authorized_vault.rs).
    - VaultAudit, VaultRuns, AppRuns: the audit log under all operations of
      the application ([AppOp], [run_app]).  VaultProps, VaultTree,
      AuthzProps, PolicyGraph, PolicyChanges, InitializationProps and
      RotationProps: the theorems about the files they are named after.
    - Passkeys, PasskeyProps, PasskeyRuns: smcv-app/src/passkeys.rs over a
      [PasskeyWorld], the [World] with the pending ceremonies and a schedule of
      what other requests do to them.  webauthn-rs is the class [WebAuthn], with
      the laws [WebAuthnLaws].  LoginProps: the theorems about
      authentication.rs, with Argon2id as [PasswordHashing] and [PasswordLaws].
    - Archive, ArchiveProps, ArchiveRuns: smcv-backup/src/lib.rs, its writer
      and reader over a destination and a source of bytes.  Argon2id and the
      JSON of the manifests are the class [ArchiveFormats], with the laws
      [ArchiveLaws].
    - Portable, PortableTree, PortableProps: smcv-storage/src/portable.rs, the
      snapshot of all tables, its parents-first order of namespaces, and the
      import into the tables of a restore in progress.
    - Logical, LogicalProps: the records of smcv-app/src/backup.rs and the
      stream of tagged JSON frames they are written as (class [LogicalJson],
      laws [LogicalJsonLaws]).
    - Backup, BackupProps, RestoreProps, BackupRuns: the rest of
      smcv-app/src/backup.rs.  Creating a backup runs over a [Publishing] state
      (the staged archive, the destination and a schedule of file operations
      that fail), restoring over a [Host] state (the two target files and
      another such schedule).
    - Http, Server, Api, Router: smcv-server/src/lib.rs and web.rs.  Http has
      headers, cookies, bearer tokens, errors and the rate limiter; Server the
      state of a process ([Server], which contains the worlds above) and how a
      handler authenticates; Api a definition [api_x] per handler x; Router the
      closed catalog of routes and the layers around it, [serve].
    - BackupJobs, BackupApi: smcv-server/src/backup_jobs.rs, the registry of
      jobs in a directory where any file operation can fail or be the last of
      the process, its handlers and the worker that writes an archive.
    - HttpProps, ApiProps, BrowserProps: the theorems about the
      routes and the login; JobProps, JobReopen,
      DownloadProps: those about the jobs.
    - Recovery, RecoveryProps, RecoveryRuns: smcv-cli/src/recovery_web.rs.  Its
      handlers run side by side: a [Task] is a handler between two accesses to
      what they share, an [Event] starts one, lets one make a step or drops it.
      [moves] is the abstract step relation that every handler refines.
    - Operations, OperationsProps: smcv-cli/src/operations.rs, and how
      smcv-cli/src/main.rs reads keys.
    - The texts and JSON of other packages are the classes [HttpText] (laws
      [HttpTextLaws]), [ApiJson], [JobJson] (laws [JobJsonLaws]) and
      [RecoveryJson].
    - ToyVault, ToyServer, Witnesses, AppWitnesses, ArchiveWitnesses,
      BackupWitnesses, PasskeyWitnesses, MigrationsWitnesses, ServerWitnesses,
      CliWitnesses: a concrete vault, archive, snapshot,
      backup, passkey, server, recovery channel and directory at which every
      theorem with hypotheses is applied.

    ** What the theorems show

    - Audit (C1, [verify_audit_chain_exact], [anchored_history_unchanged],
      [allowed_decision_recorded]): whatever runs, in any interleaving, the log
      verifies; the verifier accepts exactly the well-linked logs; a past head
      fixes all the events before it, up to a collision; no request is allowed
      unrecorded.
    - Secrets ([created_secret_reads_back], [updated_secret_reads_back],
      [rotation_keeps_secrets]): what is stored is read back, after updates and
      after the rotation of keys.
    - Storage ([store_invariant], [operations_atomic_and_audited],
      [prepared_operations_serialize] and the others of Store and
      RecordsProps): the invariant of the database, atomicity, the audit
      event of each mutation, immutable versions, monotone revisions and the
      exact effect of conflict, purge and replay.
    - Authorization ([service_decision_exact],
      [service_reads_only_granted_secrets], [policy_graph_binds],
      [policy_change_keeps_graph]): the decision refines deny-by-default, and
      the stored policies are bound by one commitment every change maintains.
    - Installation and rotation ([initialization_resumes],
      [rotation_terminates], [resume_terminates]): interrupted initialization
      is completed by the next call with the same result; rotation ends.
    - Logging in ([enrolled_password_decides_login],
      [registered_passkey_logs_in], [passkey_ceremony_single_use]): which
      password or passkey opens a session, that a session is accepted exactly
      in its sliding window and never after logout, and that a challenge is
      answered at most once whatever runs beside it.
    - Database files ([database_opening_resumes],
      [foreign_database_untouched]): an opening that is cut short loses nothing
      and the next completes it, and no database of others is changed.
    - HTTP ([protected_routes_refuse], [login_reaches_browser],
      [attempts_rate_limited], [every_response_secured]): without a session or
      token, and for changes without the CSRF token, every protected route
      refuses and changes nothing; what a login answers is what the next request
      of the browser is accepted with; attempts are bounded and responses carry
      the security headers.
    - Backup jobs ([statuses_survive_faults], [reopening_recovers],
      [downloaded_archive_is_the_backup]): wherever the process stops, every
      status file is whole and the next start makes of the directory what an
      abstract recovery function says; a download is the archive of the vault.
    - Recovery channel ([recovery_restores_verified_once],
      [recovery_ceremony_completes]): in every interleaving at most one archive
      is restored, by the one who claimed the channel, as it was verified and
      confirmed; and the ceremony of the page ends in that restore.
    - Scheduled backups ([maintenance_keeps_latest], [printed_key_reads_back]):
      retention removes exactly the oldest verified copies beyond the number to
      keep; a generated key is read back from the file it was redirected to.
    - Formats (without a number: metadata, the headers of archives, associated
      data, tokens and sessions): round trips, injectivity, exact acceptance.
    - Namespaces ([move_keeps_forest]): the namespaces stay a forest.
    - Archives ([archive_round_trips], [accepted_archive_whole],
      [record_counter_exact]): a written archive opens
      under either of its keys to the bytes written; whatever the reader
      accepts is one complete sequence of records, none missing or reordered.
    - Snapshots ([snapshot_import_round_trips]): importing a snapshot into an
      empty store gives back the rows of every table.
    - Backup and restore ([restored_backup_reads_back],
      [restore_all_or_nothing], [backup_published_or_nothing],
      [logical_stream_round_trips]): a restored vault reads back every secret
      version that was backed up; whichever file operation fails, a restore
      leaves either a whole installation or none, and a backup either its
      complete archive or nothing.
    - Limits of the code: [largest_secrets_cannot_be_stored],
      [moved_subtree_exceeds_depth], [unnumbered_row_goes_unnoticed],
      [rotation_orphans_policy_metadata], [purged_grant_blocks_restore],
      [large_passkey_cannot_be_registered], [backup_deletion_ignores_csrf],
      [unparsed_upload_ends_recovery].

    A theorem whose doc comment starts with a number is one of the main
    properties; the others named here support or complement them.

    ** Fuel and bounds

    Loops that are not structural run on fuel, and lack of fuel is a result of
    its own ([None]) or is proved not to occur.  [resume_loop] takes one turn
    per batch and per stage, so batches allowed plus stages left plus one is
    enough ([resume_terminates]); [completion_loop] is given one turn per
    record of the old key ([rotation_terminates]).  Walks up the namespace
    tree have the bound of the code, MAX_NAMESPACE_DEPTH.  The pages of the
    audit verifier are bounded by the number of rows.  The archive's writer and
    reader and the decoder of the logical stream take at least one byte per
    turn, so a turn per byte and one more is enough; the ordering of namespaces
    has no more levels than rows.  Trimming a text takes a character per turn, so
    its length is enough ([strip_any]).  Integers are [Z] with
    the checked or saturating arithmetic of the source written out, and the
    column widths are CHECK constraints of the tables.

    ** Not modelled

    SQLite itself: what the SQL of a migration does is a parameter, and
    Initialization takes an opened database as its content.  Of the HTTP layer,
    what axum, tower and tokio do: matching paths, extracting and limiting
    bodies, deadlines and the bound on concurrent requests; a handler of the
    server runs between the calls of others ([World]'s schedule) but a handler's
    own steps are not interleaved with another handler's on the limiter and the
    jobs, which are used under locks.  The OpenAPI text, the static assets, the
    start-up of the server (smcv-server/src/operations.rs, main.rs) and the
    parsing and printing of the command line are input and output only; the
    commands call operations modelled here.  Zeroization, redacting Debug output
    and timing have no counterpart in a pure model. *)
From stdpp Require Import base tactics list numbers option strings sorting.
From Stdlib Require Import ZArith Lia.

Declare Scope smcv_scope.
Delimit Scope smcv_scope with smcv.
Open Scope Z_scope.

(** * Rust's [Result] *)

Inductive result (E A : Type) : Type :=
| Ok (a : A)
| Err (e : E).
Arguments Ok {E A} a.
Arguments Err {E A} e.

(** The [?] operator. *)
Definition result_bind {E A B} (m : result E A) (k : A -> result E B) : result E B :=
  match m with Ok a => k a | Err e => Err e end.

(** [Result::map_err]. *)
Definition map_err {E F A} (f : E -> F) (m : result E A) : result F A :=
  match m with Ok a => Ok a | Err e => Err (f e) end.

(** [Result::map]. *)
Definition result_map {E A B} (f : A -> B) (m : result E A) : result E B :=
  match m with Ok a => Ok (f a) | Err e => Err e end.

(** [Option::ok_or]. *)
Definition ok_or {E A} (e : E) (o : option A) : result E A :=
  match o with Some a => Ok a | None => Err e end.

(** [Option<Result>::transpose]. *)
Definition transpose {E A} (o : option (result E A)) : result E (option A) :=
  match o with
  | None => Ok None
  | Some (Ok a) => Ok (Some a)
  | Some (Err e) => Err e
  end.

Definition is_ok {E A} (m : result E A) : bool :=
  match m with Ok _ => true | Err _ => false end.

Notation "'let?' x ':=' c 'in' k" := (result_bind c (fun x => k))
  (at level 10, x pattern, c at level 100, k at level 200,
   format "'[v' 'let?'  x  ':='  c  'in' '/' k ']'") : smcv_scope.
Open Scope smcv_scope.

(** A loop that collects [Ok] values and stops at the first error: Rust's
    [for] with [?], and [collect::<Result<Vec<_>, _>>()]. *)
Fixpoint result_mapM {E A B} (f : A -> result E B) (l : list A) : result E (list B) :=
  match l with
  | [] => Ok []
  | a :: l' => let? b := f a in let? bs := result_mapM f l' in Ok (b :: bs)
  end.

(** A loop that only checks. *)
Fixpoint result_forM {E A} (f : A -> result E unit) (l : list A) : result E unit :=
  match l with
  | [] => Ok tt
  | a :: l' => let? _ := f a in result_forM f l'
  end.

(** * State-passing programs *)

(** [Tx S E A]: the body of a database transaction. An error carries no state
    because dropping an uncommitted transaction rolls it back. *)
Definition Tx (S E A : Type) : Type := S -> result E (A * S).

(** [Prog S E A]: code that runs over a state which survives errors. *)
Definition Prog (S E A : Type) : Type := S -> result E A * S.

Definition tx_ret {S E A} (a : A) : Tx S E A := fun s => Ok (a, s).
Definition tx_fail {S E A} (e : E) : Tx S E A := fun _ => Err e.
Definition tx_bind {S E A B} (m : Tx S E A) (k : A -> Tx S E B) : Tx S E B :=
  fun s => match m s with Ok (a, s') => k a s' | Err e => Err e end.
Definition tx_lift {S E A} (r : result E A) : Tx S E A :=
  fun s => match r with Ok a => Ok (a, s) | Err e => Err e end.
Definition tx_read {S E A} (f : S -> result E A) : Tx S E A :=
  fun s => match f s with Ok a => Ok (a, s) | Err e => Err e end.
Definition tx_modify {S E} (f : S -> S) : Tx S E unit := fun s => Ok (tt, f s).
(** [if bad { return Err(e) }] *)
Definition tx_reject {S E} (bad : bool) (e : E) : Tx S E unit :=
  fun s => if bad then Err e else Ok (tt, s).

Notation "'let!' x ':=' c 'in' k" := (tx_bind c (fun x => k))
  (at level 10, x pattern, c at level 100, k at level 200,
   format "'[v' 'let!'  x  ':='  c  'in' '/' k ']'") : smcv_scope.
Notation "c1 ;; c2" := (tx_bind c1 (fun _ => c2))
  (at level 100, c2 at level 200, right associativity) : smcv_scope.

Fixpoint tx_forM {S E A} (f : A -> Tx S E unit) (l : list A) : Tx S E unit :=
  match l with
  | [] => tx_ret tt
  | a :: l' => tx_bind (f a) (fun _ => tx_forM f l')
  end.

Definition prog_ret {S E A} (a : A) : Prog S E A := fun s => (Ok a, s).
Definition prog_fail {S E A} (e : E) : Prog S E A := fun s => (Err e, s).
Definition prog_bind {S E A B} (m : Prog S E A) (k : A -> Prog S E B) : Prog S E B :=
  fun s => match m s with (Ok a, s') => k a s' | (Err e, s') => (Err e, s') end.
Definition prog_lift {S E A} (r : result E A) : Prog S E A := fun s => (r, s).
Definition prog_read {S E A} (f : S -> result E A) : Prog S E A := fun s => (f s, s).
Definition prog_reject {S E} (bad : bool) (e : E) : Prog S E unit :=
  fun s => (if bad then Err e else Ok tt, s).
(** [result.map_err(f)?] on a call that runs over the state. *)
Definition prog_map_err {S E F A} (f : E -> F) (m : Prog S E A) : Prog S F A :=
  fun s => let (r, s') := m s in (map_err f r, s').

(** A program whose outcome, error or not, is examined. *)
Definition prog_try {S E F A} (m : Prog S E A) : Prog S F (result E A) :=
  fun s => let (r, s') := m s in (Ok r, s').

Notation "'do!' x ':=' c 'in' k" := (prog_bind c (fun x => k))
  (at level 10, x pattern, c at level 100, k at level 200,
   format "'[v' 'do!'  x  ':='  c  'in' '/' k ']'") : smcv_scope.

(** [for a in l { .. push(f(a)?) }] *)
Fixpoint prog_mapM {S E A B} (f : A -> Prog S E B) (l : list A) : Prog S E (list B) :=
  match l with
  | [] => prog_ret []
  | a :: l' => prog_bind (f a) (fun b => prog_bind (prog_mapM f l') (fun bs => prog_ret (b :: bs)))
  end.

(** Commit on success, roll back on error. *)
Definition transact {S E A} (m : Tx S E A) : Prog S E A :=
  fun s => match m s with Ok (a, s') => (Ok a, s') | Err e => (Err e, s) end.

(** * Inversion lemmas for the monads *)

Lemma result_bind_Ok {E A B} (m : result E A) (k : A -> result E B) b :
  result_bind m k = Ok b <-> exists a, m = Ok a /\ k a = Ok b.
Proof. destruct m; naive_solver. Qed.

Lemma map_err_Ok {E F A} (f : E -> F) (m : result E A) a :
  map_err f m = Ok a <-> m = Ok a.
Proof. destruct m; naive_solver. Qed.

Lemma result_map_Ok {E A B} (f : A -> B) (m : result E A) b :
  result_map f m = Ok b <-> exists a, m = Ok a /\ b = f a.
Proof. destruct m; naive_solver. Qed.

Lemma ok_or_Ok {E A} (e : E) (o : option A) a : ok_or e o = Ok a <-> o = Some a.
Proof. destruct o; naive_solver. Qed.

Lemma tx_bind_Ok {S E A B} (m : Tx S E A) (k : A -> Tx S E B) s r :
  tx_bind m k s = Ok r <-> exists a s', m s = Ok (a, s') /\ k a s' = Ok r.
Proof. unfold tx_bind. destruct (m s) as [[a s']|e]; naive_solver. Qed.

Lemma tx_reject_Ok {S E} bad (e : E) (s : S) u s' :
  tx_reject bad e s = Ok (u, s') <-> bad = false /\ s' = s.
Proof. unfold tx_reject. destruct bad, u; naive_solver. Qed.

Lemma tx_lift_Ok {S E A} (r : result E A) (s : S) a s' :
  tx_lift r s = Ok (a, s') <-> r = Ok a /\ s' = s.
Proof. unfold tx_lift. destruct r; naive_solver. Qed.

Lemma tx_read_Ok {S E A} (f : S -> result E A) (s : S) a s' :
  tx_read f s = Ok (a, s') <-> f s = Ok a /\ s' = s.
Proof. unfold tx_read. destruct (f s); naive_solver. Qed.

Lemma tx_modify_Ok {S E} (f : S -> S) (s : S) u s' :
  tx_modify (E:=E) f s = Ok (u, s') <-> s' = f s.
Proof. unfold tx_modify. destruct u; naive_solver. Qed.

Lemma tx_ret_Ok {S E A} (a : A) (s : S) b s' :
  tx_ret (E:=E) a s = Ok (b, s') <-> b = a /\ s' = s.
Proof. unfold tx_ret. naive_solver. Qed.

Lemma transact_Ok {S E A} (m : Tx S E A) s a s' :
  transact m s = (Ok a, s') <-> m s = Ok (a, s').
Proof. unfold transact. destruct (m s) as [[]|]; naive_solver. Qed.

Lemma transact_Err {S E A} (m : Tx S E A) s e s' :
  transact m s = (Err e, s') <-> m s = Err e /\ s' = s.
Proof. unfold transact. destruct (m s) as [[]|]; naive_solver. Qed.

Lemma prog_bind_Ok {S E A B} (m : Prog S E A) (k : A -> Prog S E B) s b s'' :
  prog_bind m k s = (Ok b, s'') <-> exists a s', m s = (Ok a, s') /\ k a s' = (Ok b, s'').
Proof. unfold prog_bind. destruct (m s) as [[a|e] s']; naive_solver. Qed.

Lemma prog_lift_Ok {S E A} (r : result E A) (s : S) a s' :
  prog_lift r s = (Ok a, s') <-> r = Ok a /\ s' = s.
Proof. unfold prog_lift. naive_solver. Qed.

Lemma prog_read_Ok {S E A} (f : S -> result E A) (s : S) a s' :
  prog_read f s = (Ok a, s') <-> f s = Ok a /\ s' = s.
Proof. unfold prog_read. split; [by intros [= -> ->] | by intros [-> ->]]. Qed.

Lemma prog_reject_Ok {S E} bad (e : E) (s : S) u s' :
  prog_reject bad e s = (Ok u, s') <-> bad = false /\ s' = s.
Proof. unfold prog_reject. destruct bad, u; naive_solver. Qed.

Lemma prog_ret_Ok {S E A} (a : A) (s : S) b s' :
  prog_ret (E:=E) a s = (Ok b, s') <-> b = a /\ s' = s.
Proof. unfold prog_ret. split; [by intros [= -> ->] | by intros [-> ->]]. Qed.

Lemma prog_map_err_Ok {S E F A} (f : E -> F) (m : Prog S E A) s a s' :
  prog_map_err f m s = (Ok a, s') <-> m s = (Ok a, s').
Proof. unfold prog_map_err. destruct (m s) as [[|] ?]; simpl; split; congruence. Qed.

Lemma result_mapM_Forall2 {E A B} (f : A -> result E B) l bs :
  result_mapM f l = Ok bs <-> Forall2 (fun a b => f a = Ok b) l bs.
Proof.
  revert bs. induction l as [|a l IH]; intros bs; simpl.
  { split; [intros [= <-]; constructor | by inversion 1]. }
  split.
  - intros H. apply result_bind_Ok in H as (b & Hb & H).
    apply result_bind_Ok in H as (bs' & Hbs & [= <-]). constructor; [done|]. by apply IH.
  - inversion 1 as [|? b ? bs' Hb Hbs]; subst. apply IH in Hbs. by rewrite Hb; simpl; rewrite Hbs.
Qed.

Lemma result_mapM_elem {E A B} (f : A -> result E B) l bs b :
  result_mapM f l = Ok bs -> b ∈ bs -> exists a, a ∈ l /\ f a = Ok b.
Proof.
  intros H%result_mapM_Forall2 Hb. induction H as [|a c l bs Hac H IH]; [by apply not_elem_of_nil in Hb|].
  apply elem_of_cons in Hb as [->|Hb]; [exists a; split; [by left|done]|].
  destruct (IH Hb) as (x & Hx & ?). exists x. split; [by right|done].
Qed.

Lemma result_forM_Forall {E A} (f : A -> result E unit) l :
  result_forM f l = Ok tt <-> Forall (fun a => f a = Ok tt) l.
Proof.
  induction l as [|a l IH]; simpl; [by split|].
  rewrite Forall_cons, <- IH. unfold result_bind.
  destruct (f a) as [[]|]; [|naive_solver]. split; [done|by intros [_ ?]].
Qed.

(** Decompose every successful monadic hypothesis. *)
Ltac minv_step :=
  match goal with
  | H : exists _, _ |- _ => destruct H
  | H : _ /\ _ |- _ => destruct H
  | H : result_bind _ _ = Ok _ |- _ => apply result_bind_Ok in H
  | H : map_err _ _ = Ok _ |- _ => apply map_err_Ok in H
  | H : ok_or _ _ = Ok _ |- _ => apply ok_or_Ok in H
  | H : tx_bind _ _ _ = Ok _ |- _ => apply tx_bind_Ok in H
  | H : tx_reject _ _ _ = Ok (_, _) |- _ => apply tx_reject_Ok in H
  | H : tx_lift _ _ = Ok (_, _) |- _ => apply tx_lift_Ok in H
  | H : tx_read _ _ = Ok (_, _) |- _ => apply tx_read_Ok in H
  | H : tx_modify _ _ = Ok (_, _) |- _ => apply tx_modify_Ok in H
  | H : tx_ret _ _ = Ok (_, _) |- _ => apply tx_ret_Ok in H
  | H : transact _ _ = (Ok _, _) |- _ => apply transact_Ok in H
  | H : prog_bind _ _ _ = (Ok _, _) |- _ => apply prog_bind_Ok in H
  | H : prog_lift _ _ = (Ok _, _) |- _ => apply prog_lift_Ok in H
  | H : prog_read _ _ = (Ok _, _) |- _ => apply prog_read_Ok in H
  | H : prog_reject _ _ _ = (Ok _, _) |- _ => apply prog_reject_Ok in H
  | H : prog_ret _ _ = (Ok _, _) |- _ => apply prog_ret_Ok in H
  | H : prog_map_err _ _ _ = (Ok _, _) |- _ => apply prog_map_err_Ok in H
  | H : Err _ = Ok _ |- _ => discriminate H
  | H : Ok _ = Err _ |- _ => discriminate H
  end.
Ltac minv := repeat (minv_step; cbv beta iota in *; simplify_eq).

(** Boolean guards of the source, as propositions. *)
Create Rewrite HintDb smcv_bool.
#[export] Hint Rewrite Bool.orb_false_iff Bool.andb_true_iff Bool.negb_true_iff
  Bool.negb_false_iff Z.eqb_eq Z.eqb_neq Z.ltb_lt Z.ltb_ge Z.leb_le Z.leb_gt
  bool_decide_eq_true bool_decide_eq_false : smcv_bool.
Ltac bprop := autorewrite with smcv_bool in *.

(** * Lists *)

Lemma app_eq_length {A} (l1 l1' l2 l2' : list A) :
  l1 ++ l2 = l1' ++ l2' -> length l1 = length l1' -> l1 = l1' /\ l2 = l2'.
Proof. intros H Hl. by apply app_inj_1. Qed.

Lemma cons_tail_inj {A} (x y : A) l l' : x :: l = y :: l' -> l = l'.
Proof. by intros [= _ ->]. Qed.

Definition zlen {A} (l : list A) : Z := Z.of_nat (length l).

Lemma zlen_app {A} (l1 l2 : list A) : zlen (l1 ++ l2) = zlen l1 + zlen l2.
Proof. unfold zlen. rewrite length_app. lia. Qed.
Lemma zlen_nonneg {A} (l : list A) : 0 <= zlen l.
Proof. unfold zlen. lia. Qed.
Lemma zlen_0 {A} (l : list A) : zlen l = 0 <-> l = [].
Proof. unfold zlen. destruct l; simpl; split; (done || lia). Qed.
