(* ===== verification/RustStd.v ===== *)
(** The parts of the Rust language and of its standard library that the
    modelled crates use: bytes, fixed-size arrays, fixed-width integers and
    their big-endian forms, checked arithmetic, UTF-8 strings, and slicing. *)
From Stdlib Require Import ZArith Lia Strings.Byte String.
From stdpp Require Import base tactics numbers option strings countable list.
From S2P Require Import Prelude.

(** * Bytes *)

Abbreviation byte := Byte.byte.
Abbreviation blob := (list byte).

#[export] Instance byte_eq_decision : EqDecision byte := Byte.byte_eq_dec.

Definition Z_of_byte (b : byte) : Z := Z.of_N (Byte.to_N b).
(** Truncation of an integer to [u8]. *)
Definition byte_of_Z (z : Z) : byte :=
  match Byte.of_N (Z.to_N (z mod 256)) with Some b => b | None => x00 end.

(** A [b"..."] literal. *)
Definition bstr (s : string) : blob := String.list_byte_of_string s.

Definition blob_eqb (a b : blob) : bool := bool_decide (a = b).

(** The byte order used by [Ord] on byte slices and by SQLite on BLOBs. *)
Fixpoint blob_ltb (a b : blob) : bool :=
  match a, b with
  | _, [] => false
  | [], _ :: _ => true
  | x :: a', y :: b' =>
      (Z_of_byte x <? Z_of_byte y) || ((Z_of_byte x =? Z_of_byte y) && blob_ltb a' b')
  end.
Definition blob_leb (a b : blob) : bool := negb (blob_ltb b a).

(** * Fixed-size arrays [[u8; N]] *)

Record array (n : nat) : Type := Array {
  arr : blob;
  arr_len : Nat.eqb (length arr) n = true }.
Arguments Array {n} arr arr_len.
Arguments arr {n} a.
Arguments arr_len {n} a.

(** [Vec<u8>::try_into::<[u8; N]>()] *)
Definition try_array (n : nat) (l : blob) : option (array n) :=
  match Nat.eqb (length l) n as b return Nat.eqb (length l) n = b -> option (array n) with
  | true => fun H => Some (Array l H)
  | false => fun _ => None
  end eq_refl.

(** [[0; N]] *)
Program Definition zeros (n : nat) : array n := Array (repeat x00 n) _.
Next Obligation. intros n. rewrite repeat_length. apply Nat.eqb_refl. Defined.

(** [uuid::Uuid]: sixteen bytes. *)
Abbreviation Uuid := (array 16).

(** * Integers *)

Definition i64_max : Z := 9223372036854775807.
Definition i64_min : Z := -9223372036854775808.
Definition u64_max : Z := 18446744073709551615.
Definition u32_max : Z := 4294967295.
Definition u16_max : Z := 65535.

Definition in_i64 (z : Z) : Prop := i64_min <= z <= i64_max.
Definition in_u64 (z : Z) : Prop := 0 <= z <= u64_max.
Definition in_u32 (z : Z) : Prop := 0 <= z <= u32_max.
Definition in_u16 (z : Z) : Prop := 0 <= z <= u16_max.

(** [u64::checked_add] and the like. *)
Definition checked_add (max a b : Z) : option Z := if a + b <=? max then Some (a + b) else None.

(** [uN::try_from] on an integer. *)
Definition try_from (max z : Z) : option Z := if (0 <=? z) && (z <=? max) then Some z else None.

(** [to_be_bytes] of an [n]-byte integer; a negative argument is encoded in
    two's complement. *)
Fixpoint be_encode (n : nat) (z : Z) : blob :=
  match n with
  | O => []
  | S n' => byte_of_Z (Z.shiftr z (8 * Z.of_nat n')) :: be_encode n' z
  end.
(** [from_be_bytes] *)
Definition be_decode (l : blob) : Z := fold_left (fun acc b => acc * 256 + Z_of_byte b) l 0.

Definition u8_be (z : Z) : blob := be_encode 1 z.
Definition u16_be (z : Z) : blob := be_encode 2 z.
Definition u32_be (z : Z) : blob := be_encode 4 z.
Definition u64_be (z : Z) : blob := be_encode 8 z.
Definition i64_be (z : Z) : blob := be_encode 8 z.

(** * Slices *)

(** [bytes.get(a..b)] with [b = a + n]. *)
Definition slice (l : blob) (off n : nat) : option blob :=
  if Nat.leb (off + n) (length l) then Some (take n (drop off l)) else None.

(** [bytes[i]] on an index known to be in range. *)
Definition byte_at (l : blob) (i : nat) : Z := from_option Z_of_byte 0 (l !! i).

(** [strip_prefix] *)
Fixpoint strip_prefix (p l : blob) : option blob :=
  match p, l with
  | [], _ => Some l
  | x :: p', y :: l' => if Byte.eqb x y then strip_prefix p' l' else None
  | _ :: _, [] => None
  end.

(** [split(c)]: the fields between separators, always at least one. *)
Fixpoint split (c : byte) (l : blob) : list blob :=
  match l with
  | [] => [[]]
  | x :: l' =>
      if Byte.eqb x c then [] :: split c l'
      else match split c l' with
           | [] => [[x]]
           | f :: fs => (x :: f) :: fs
           end
  end.

(** * UTF-8 *)

Definition cont (c lo hi : Z) : bool := (lo <=? c) && (c <=? hi).

(** The scalar values of a UTF-8 byte string, [None] when it is malformed:
    [String::from_utf8] followed by [chars]. *)
Fixpoint utf8_chars (bs : blob) : option (list Z) :=
  match bs with
  | [] => Some []
  | b0 :: r0 =>
    let c0 := Z_of_byte b0 in
    if c0 <? 128 then cons c0 <$> utf8_chars r0
    else match r0 with
    | [] => None
    | b1 :: r1 =>
      let c1 := Z_of_byte b1 in
      if cont c0 194 223 then
        if cont c1 128 191 then cons ((c0 - 192) * 64 + (c1 - 128)) <$> utf8_chars r1 else None
      else match r1 with
      | [] => None
      | b2 :: r2 =>
        let c2 := Z_of_byte b2 in
        if cont c0 224 239 then
          let lo := if c0 =? 224 then 160 else 128 in
          let hi := if c0 =? 237 then 159 else 191 in
          if cont c1 lo hi && cont c2 128 191
          then cons ((c0 - 224) * 4096 + (c1 - 128) * 64 + (c2 - 128)) <$> utf8_chars r2
          else None
        else match r2 with
        | [] => None
        | b3 :: r3 =>
          let c3 := Z_of_byte b3 in
          if cont c0 240 244 then
            let lo := if c0 =? 240 then 144 else 128 in
            let hi := if c0 =? 244 then 143 else 191 in
            if cont c1 lo hi && cont c2 128 191 && cont c3 128 191
            then cons ((c0 - 240) * 262144 + (c1 - 128) * 4096 + (c2 - 128) * 64 + (c3 - 128))
                   <$> utf8_chars r3
            else None
          else None
        end
      end
    end
  end.

Definition utf8_valid (bs : blob) : bool :=
  match utf8_chars bs with Some _ => true | None => false end.

(** [char::is_control]: general category Cc. *)
Definition is_control (c : Z) : bool := ((0 <=? c) && (c <=? 31)) || ((127 <=? c) && (c <=? 159)).

(** A Rust [String]: bytes known to be UTF-8. *)
Record rstring : Type := RString {
  rs_bytes : blob;
  rs_utf8 : utf8_valid rs_bytes = true }.

(** [String::from_utf8] *)
Definition string_from_utf8 (l : blob) : option rstring :=
  match utf8_valid l as b return utf8_valid l = b -> option rstring with
  | true => fun H => Some (RString l H)
  | false => fun _ => None
  end eq_refl.

Definition chars (s : rstring) : list Z := default [] (utf8_chars (rs_bytes s)).

(** [s.chars().any(char::is_control)] *)
Definition has_control (s : rstring) : bool := existsb is_control (chars s).

(** [str::len]: the number of bytes. *)
Definition rs_len (s : rstring) : Z := zlen (rs_bytes s).

(** * Lemmas *)

Lemma Z_of_byte_range b : 0 <= Z_of_byte b < 256.
Proof. unfold Z_of_byte. pose proof (Byte.to_N_bounded b). lia. Qed.

Lemma Z_of_byte_of_Z z : Z_of_byte (byte_of_Z z) = z mod 256.
Proof.
  unfold byte_of_Z, Z_of_byte. pose proof (Z.mod_pos_bound z 256 ltac:(lia)).
  destruct (Byte.of_N (Z.to_N (z mod 256))) as [b|] eqn:E.
  - apply Byte.to_of_N in E. rewrite E. lia.
  - apply Byte.of_N_None_iff in E. lia.
Qed.

Lemma byte_of_Z_of_byte b : byte_of_Z (Z_of_byte b) = b.
Proof.
  unfold byte_of_Z, Z_of_byte. pose proof (Byte.to_N_bounded b).
  rewrite Z.mod_small by lia. rewrite N2Z.id, Byte.of_to_N. done.
Qed.

Lemma Z_of_byte_inj a b : Z_of_byte a = Z_of_byte b -> a = b.
Proof. intros H. by rewrite <- (byte_of_Z_of_byte a), H, byte_of_Z_of_byte. Qed.

Lemma array_eq {n} (a b : array n) : arr a = arr b -> a = b.
Proof.
  destruct a as [la Ha], b as [lb Hb]; simpl. intros <-. f_equal. apply proof_irrel.
Qed.

Lemma array_length {n} (a : array n) : length (arr a) = n.
Proof. apply Nat.eqb_eq, (arr_len a). Qed.

#[export] Instance array_eq_decision n : EqDecision (array n).
Proof.
  intros a b. destruct (decide (arr a = arr b)) as [H|H].
  - left. by apply array_eq.
  - right. congruence.
Defined.

Lemma rstring_eq (a b : rstring) : rs_bytes a = rs_bytes b -> a = b.
Proof.
  destruct a as [la Ha], b as [lb Hb]; simpl. intros <-. f_equal. apply proof_irrel.
Qed.

Lemma try_array_Some n l a : try_array n l = Some a <-> arr a = l.
Proof.
  unfold try_array.
  enough (forall b (E : Nat.eqb (length l) n = b),
    (match b as b return Nat.eqb (length l) n = b -> option (array n) with
     | true => fun H => Some (Array l H) | false => fun _ => None end E) = Some a
    <-> arr a = l) as H by apply H.
  intros [] E; split.
  - by intros [= <-].
  - intros <-. f_equal. by apply array_eq.
  - done.
  - intros <-. rewrite (arr_len a) in E. done.
Qed.

Lemma try_array_arr n (a : array n) : try_array n (arr a) = Some a.
Proof. by apply try_array_Some. Qed.

Lemma try_array_None n l : try_array n l = None <-> length l <> n.
Proof.
  split.
  - intros H Hl. assert (E : Nat.eqb (length l) n = true) by by apply Nat.eqb_eq.
    pose proof (proj2 (try_array_Some n l (Array l E)) eq_refl). congruence.
  - intros Hl. destruct (try_array n l) eqn:E; [|done].
    apply try_array_Some in E as <-. by rewrite array_length in Hl.
Qed.

Lemma string_from_utf8_Some l s : string_from_utf8 l = Some s <-> rs_bytes s = l.
Proof.
  unfold string_from_utf8.
  enough (forall b (E : utf8_valid l = b),
    (match b as b return utf8_valid l = b -> option rstring with
     | true => fun H => Some (RString l H) | false => fun _ => None end E) = Some s
    <-> rs_bytes s = l) as H by apply H.
  intros [] E; split.
  - by intros [= <-].
  - intros <-. f_equal. by apply rstring_eq.
  - done.
  - intros <-. rewrite (rs_utf8 s) in E. done.
Qed.

Lemma length_be_encode n z : length (be_encode n z) = n.
Proof. induction n; simpl; congruence. Qed.

Lemma length_u8_be z : length (u8_be z) = 1%nat.
Proof. apply length_be_encode. Qed.
Lemma length_u16_be z : length (u16_be z) = 2%nat.
Proof. apply length_be_encode. Qed.
Lemma length_u32_be z : length (u32_be z) = 4%nat.
Proof. apply length_be_encode. Qed.
Lemma length_u64_be z : length (u64_be z) = 8%nat.
Proof. apply length_be_encode. Qed.
Lemma length_i64_be z : length (i64_be z) = 8%nat.
Proof. apply length_be_encode. Qed.

(** Lengths of the building blocks of every binary layout. *)
Create Rewrite HintDb smcv_len.
#[export] Hint Rewrite @length_app @array_length length_u8_be length_u16_be
  length_u32_be length_u64_be length_i64_be : smcv_len.

Lemma be_decode_acc l acc :
  fold_left (fun acc b => acc * 256 + Z_of_byte b) l acc
  = acc * 256 ^ zlen l + be_decode l.
Proof.
  unfold be_decode, zlen. revert acc. induction l as [|b l IH]; intros acc; cbn [fold_left length].
  - lia.
  - rewrite IH, (IH (0 * 256 + _)), Nat2Z.inj_succ, Z.pow_succ_r by lia. lia.
Qed.

Lemma be_decode_cons b l : be_decode (b :: l) = Z_of_byte b * 256 ^ zlen l + be_decode l.
Proof. unfold be_decode at 1. cbn [fold_left]. rewrite be_decode_acc. lia. Qed.

Lemma be_decode_range l : 0 <= be_decode l < 256 ^ zlen l.
Proof.
  induction l as [|b l IH]; [done|].
  rewrite be_decode_cons. pose proof (Z_of_byte_range b).
  unfold zlen in *. cbn [length]. rewrite Nat2Z.inj_succ, Z.pow_succ_r by lia. nia.
Qed.

Lemma pow2_bytes n : 2 ^ (8 * Z.of_nat n) = 256 ^ Z.of_nat n.
Proof. rewrite Z.pow_mul_r by lia. done. Qed.

Lemma be_decode_encode_mod n z : be_decode (be_encode n z) = z mod 256 ^ Z.of_nat n.
Proof.
  induction n as [|n IH]; [by rewrite Z.mod_1_r|].
  cbn [be_encode]. rewrite be_decode_cons, IH, Z_of_byte_of_Z.
  unfold zlen. rewrite length_be_encode, Z.shiftr_div_pow2 by lia.
  rewrite pow2_bytes.
  rewrite Nat2Z.inj_succ, Z.pow_succ_r, (Z.mul_comm 256), Z.rem_mul_r by lia. lia.
Qed.

Lemma be_decode_encode n z : 0 <= z < 256 ^ Z.of_nat n -> be_decode (be_encode n z) = z.
Proof. intros. rewrite be_decode_encode_mod. by apply Z.mod_small. Qed.

Lemma be_encode_mod n z : be_encode n (z mod 256 ^ Z.of_nat n) = be_encode n z.
Proof.
  enough (forall k, (n <= k)%nat -> be_encode n (z mod 256 ^ Z.of_nat k) = be_encode n z) by auto.
  induction n as [|n IH]; intros k Hk; [done|]. cbn [be_encode].
  f_equal; [|apply IH; lia].
  apply Z_of_byte_inj. rewrite !Z_of_byte_of_Z, !Z.shiftr_div_pow2 by lia.
  rewrite pow2_bytes.
  replace (256 ^ Z.of_nat k) with (256 ^ Z.of_nat n * (256 * 256 ^ (Z.of_nat k - Z.of_nat n - 1))).
  2:{ rewrite Z.mul_assoc, (Z.mul_comm _ 256), <- Z.pow_succ_r, <- Z.pow_add_r by lia. f_equal; lia. }
  pose proof (Z.pow_pos_nonneg 256 (Z.of_nat n)).
  pose proof (Z.pow_pos_nonneg 256 (Z.of_nat k - Z.of_nat n - 1)).
  rewrite Z.rem_mul_r, Z.rem_mul_r by lia.
  rewrite (Z.mul_comm (256 ^ Z.of_nat n)), Z.div_add, Z.div_small by (try apply Z.mod_pos_bound; lia).
  rewrite Z.add_0_l, (Z.mul_comm 256), Z.mod_add, Z.mod_mod by lia. done.
Qed.

Lemma be_encode_decode l : be_encode (length l) (be_decode l) = l.
Proof.
  induction l as [|b l IH]; [done|]. cbn [length be_encode].
  pose proof (be_decode_range l) as Hr. pose proof (Z_of_byte_range b).
  rewrite be_decode_cons. unfold zlen in *. f_equal.
  - apply Z_of_byte_inj. rewrite Z_of_byte_of_Z, Z.shiftr_div_pow2 by lia.
    rewrite pow2_bytes.
    rewrite Z.div_add_l, Z.div_small, Z.add_0_r, Z.mod_small by lia. done.
  - rewrite <- be_encode_mod, Z.add_comm, Z.mod_add, Z.mod_small by lia. done.
Qed.

Lemma be_encode_inj_unsigned n a b :
  0 <= a < 256 ^ Z.of_nat n -> 0 <= b < 256 ^ Z.of_nat n ->
  be_encode n a = be_encode n b -> a = b.
Proof. intros Ha Hb E. apply (f_equal be_decode) in E. by rewrite !be_decode_encode in E. Qed.

Lemma i64_be_inj a b : in_i64 a -> in_i64 b -> i64_be a = i64_be b -> a = b.
Proof.
  unfold in_i64, i64_min, i64_max, i64_be. intros Ha Hb E.
  apply (f_equal be_decode) in E. rewrite !be_decode_encode_mod in E.
  change (256 ^ Z.of_nat 8) with 18446744073709551616 in E.
  Z.to_euclidean_division_equations; lia.
Qed.

Lemma u64_be_inj a b : in_u64 a -> in_u64 b -> u64_be a = u64_be b -> a = b.
Proof.
  unfold in_u64, u64_max, u64_be. intros Ha Hb. apply (be_encode_inj_unsigned 8 a b);
    change (256 ^ Z.of_nat 8) with 18446744073709551616; lia.
Qed.

Lemma u32_be_inj a b : in_u32 a -> in_u32 b -> u32_be a = u32_be b -> a = b.
Proof.
  unfold in_u32, u32_max, u32_be. intros Ha Hb. apply (be_encode_inj_unsigned 4 a b);
    change (256 ^ Z.of_nat 4) with 4294967296; lia.
Qed.

Lemma u16_be_inj a b : in_u16 a -> in_u16 b -> u16_be a = u16_be b -> a = b.
Proof.
  unfold in_u16, u16_max, u16_be. intros Ha Hb. apply (be_encode_inj_unsigned 2 a b);
    change (256 ^ Z.of_nat 2) with 65536; lia.
Qed.

Lemma checked_add_Some max a b c : checked_add max a b = Some c <-> c = a + b /\ a + b <= max.
Proof. unfold checked_add. destruct (Z.leb_spec (a + b) max); naive_solver lia. Qed.

Lemma try_from_Some max z c : try_from max z = Some c <-> c = z /\ 0 <= z <= max.
Proof.
  unfold try_from. destruct (Z.leb_spec 0 z), (Z.leb_spec z max); simpl; naive_solver lia.
Qed.

Lemma strip_prefix_app p l : strip_prefix p (p ++ l) = Some l.
Proof.
  induction p as [|x p IH]; [done|]. simpl.
  replace (Byte.eqb x x) with true; [done|]. by destruct x.
Qed.

Lemma slice_app_l (a b : blob) n : length a = n -> slice (a ++ b) 0 n = Some a.
Proof.
  intros <-. unfold slice. rewrite length_app, (proj2 (Nat.leb_le _ _)) by lia.
  by rewrite drop_0, take_app_length.
Qed.

Lemma slice_app_r (a b : blob) off n :
  (length a <= off)%nat -> slice (a ++ b) off n = slice b (off - length a) n.
Proof.
  intros Ha. unfold slice. rewrite length_app.
  replace (Nat.leb (off + n) (length a + length b)) with (Nat.leb (off - length a + n) (length b)).
  2:{ destruct (Nat.leb_spec (off - length a + n) (length b)),
        (Nat.leb_spec (off + n) (length a + length b)); (done || lia). }
  by rewrite drop_app_ge.
Qed.

Lemma blob_ltb_irrefl a : blob_ltb a a = false.
Proof. induction a as [|x a IH]; [done|]. simpl. rewrite IH, Z.ltb_irrefl, Z.eqb_refl. done. Qed.

Lemma blob_ltb_trans a b c : blob_ltb a b = true -> blob_ltb b c = true -> blob_ltb a c = true.
Proof.
  revert b c. induction a as [|x a IH]; intros [|y b] [|z c]; simpl; try done.
  rewrite !orb_true_iff, !andb_true_iff, !Z.ltb_lt, !Z.eqb_eq.
  intros [?|[? ?]] [?|[? ?]]; [left; lia | left; lia | left; lia |].
  right. split; [lia|]. eauto.
Qed.

Lemma blob_ltb_total a b : blob_ltb a b = false -> blob_ltb b a = false -> a = b.
Proof.
  revert b. induction a as [|x a IH]; intros [|y b]; simpl; try done.
  rewrite !orb_false_iff, !andb_false_iff, !Z.ltb_ge, !Z.eqb_neq.
  intros [? [?|?]] [? [?|?]]; try lia. f_equal; [apply Z_of_byte_inj; lia | by apply IH].
Qed.

#[global] Arguments be_encode : simpl never.
#[global] Arguments be_decode : simpl never.
#[global] Arguments u8_be : simpl never.
#[global] Arguments u16_be : simpl never.
#[global] Arguments u32_be : simpl never.
#[global] Arguments u64_be : simpl never.
#[global] Arguments i64_be : simpl never.
#[global] Arguments bstr : simpl never.
#[global] Arguments byte_of_Z : simpl never.
#[global] Arguments zlen : simpl never.

Lemma byte_eqb_spec (x y : byte) : Byte.eqb x y = bool_decide (x = y).
Proof.
  case_bool_decide as H.
  - subst. by destruct y.
  - destruct (Byte.eqb x y) eqn:E; [|done]. by apply Byte.byte_dec_bl in E.
Qed.

Lemma strip_prefix_Some p l r : strip_prefix p l = Some r <-> l = p ++ r.
Proof.
  split; [|intros ->; apply strip_prefix_app].
  revert l. induction p as [|x p IH]; intros [|y l]; simpl; try (by intros [= ->]).
  rewrite byte_eqb_spec. case_bool_decide; [|done]. subst. intros ?%IH. by subst.
Qed.

Lemma split_no_sep c l : c ∉ l -> split c l = [l].
Proof.
  induction l as [|x l IH]; [done|]. rewrite not_elem_of_cons. intros [Hx Hl]. simpl.
  rewrite byte_eqb_spec, bool_decide_false, IH by done. done.
Qed.

Lemma split_app_sep c a b : c ∉ a -> split c (a ++ c :: b) = a :: split c b.
Proof.
  induction a as [|x a IH]; simpl; rewrite ?byte_eqb_spec.
  - intros _. by rewrite bool_decide_true.
  - rewrite not_elem_of_cons. intros [Hx Ha]. by rewrite bool_decide_false, IH.
Qed.

(** The fields put back together. *)
Fixpoint join (c : byte) (fs : list blob) : blob :=
  match fs with
  | [] => []
  | f :: fs' => match fs' with [] => f | _ :: _ => f ++ c :: join c fs' end
  end.

Lemma join_split c l : join c (split c l) = l.
Proof.
  induction l as [|x l IH]; [done|]. simpl. rewrite byte_eqb_spec.
  destruct (split c l) as [|f fs] eqn:E; [by destruct l; simpl in E; repeat case_match|].
  case_bool_decide; simpl in *; [by subst|].
  destruct fs; by rewrite <- IH.
Qed.

Lemma split_pair_inv c l a b : split c l = [a; b] -> l = a ++ c :: b.
Proof. intros H. by rewrite <- (join_split c l), H. Qed.
