(* ===== verification/Core.v ===== *)
(** Crate smcv-core: the closed action vocabulary, resource kinds, service
    grants, secret schedules and the protected-text constructor.

    Every opaque identifier of src/crates/smcv-core/src/ids.rs is a newtype
    over [Uuid]; the conversions [from_uuid] and [as_uuid] are the identity, so
    all of them are [Uuid] here. *)
From stdpp Require Import base tactics numbers option strings list.
From Stdlib Require Import ZArith Lia.
From S2P Require Import Prelude RustStd.

Abbreviation VaultId := Uuid.
Abbreviation InstallationId := Uuid.
Abbreviation NamespaceId := Uuid.
Abbreviation SecretId := Uuid.
Abbreviation PrincipalId := Uuid.
Abbreviation RequestId := Uuid.
Abbreviation ObjectId := Uuid.
Abbreviation AuditEventId := Uuid.
Abbreviation MaintenanceJobId := Uuid.
Abbreviation CredentialId := Uuid.
Abbreviation SessionId := Uuid.
Abbreviation PolicyId := Uuid.
Abbreviation GrantId := Uuid.

Inductive Action : Type :=
| NamespaceList | NamespaceCreate | NamespaceUpdate | NamespaceDelete
| SecretList | SecretMetadataRead | SecretValueRead | SecretCreate
| SecretUpdate | SecretArchive | SecretRestore | SecretHistoryRead
| SecretVersionRead | SecretPurge | IdentityRead | IdentityManage
| CredentialIssue | CredentialRevoke | PolicyRead | PolicyManage
| EffectiveAccessRead | AuditRead | BackupCreate | BackupInspect
| BackupRestore | KeyRotate | VaultConfigure | VaultLock.

#[export] Instance Action_eq_decision : EqDecision Action.
Proof. solve_decision. Defined.

(** [Action::as_str] *)
Definition action_as_str (a : Action) : string :=
  match a with
  | NamespaceList => "namespace:list"
  | NamespaceCreate => "namespace:create"
  | NamespaceUpdate => "namespace:update"
  | NamespaceDelete => "namespace:delete"
  | SecretList => "secret:list"
  | SecretMetadataRead => "secret:metadata-read"
  | SecretValueRead => "secret:value-read"
  | SecretCreate => "secret:create"
  | SecretUpdate => "secret:update"
  | SecretArchive => "secret:archive"
  | SecretRestore => "secret:restore"
  | SecretHistoryRead => "secret:history-read"
  | SecretVersionRead => "secret:version-read"
  | SecretPurge => "secret:purge"
  | IdentityRead => "identity:read"
  | IdentityManage => "identity:manage"
  | CredentialIssue => "credential:issue"
  | CredentialRevoke => "credential:revoke"
  | PolicyRead => "policy:read"
  | PolicyManage => "policy:manage"
  | EffectiveAccessRead => "effective-access:read"
  | AuditRead => "audit:read"
  | BackupCreate => "backup:create"
  | BackupInspect => "backup:inspect"
  | BackupRestore => "backup:restore"
  | KeyRotate => "key:rotate"
  | VaultConfigure => "vault:configure"
  | VaultLock => "vault:lock"
  end.

(** [Action::is_service_grantable] *)
Definition is_service_grantable (a : Action) : bool :=
  match a with
  | NamespaceList | SecretList | SecretMetadataRead | SecretValueRead
  | SecretCreate | SecretUpdate | SecretArchive | SecretRestore
  | SecretHistoryRead | SecretVersionRead => true
  | _ => false
  end.

(** [Action::ALL] *)
Definition action_all : list Action :=
  [NamespaceList; NamespaceCreate; NamespaceUpdate; NamespaceDelete;
   SecretList; SecretMetadataRead; SecretValueRead; SecretCreate;
   SecretUpdate; SecretArchive; SecretRestore; SecretHistoryRead;
   SecretVersionRead; SecretPurge; IdentityRead; IdentityManage;
   CredentialIssue; CredentialRevoke; PolicyRead; PolicyManage;
   EffectiveAccessRead; AuditRead; BackupCreate; BackupInspect;
   BackupRestore; KeyRotate; VaultConfigure; VaultLock].

(** [Action::from_str] *)
Definition action_from_str (value : string) : option Action :=
  List.find (fun a => String.eqb (action_as_str a) value) action_all.

Inductive ResourceKind : Type := KNamespace | KSecret.

#[export] Instance ResourceKind_eq_decision : EqDecision ResourceKind.
Proof. solve_decision. Defined.

(** [ResourceKind::as_str] *)
Definition resource_kind_as_str (k : ResourceKind) : string :=
  match k with KNamespace => "namespace" | KSecret => "secret" end.

Record GrantSpec : Type := {
  gs_policy_id : PolicyId;
  gs_action : Action;
  gs_resource_kind : ResourceKind;
  gs_resource_id : ObjectId;
  gs_include_descendants : bool }.

(** [GrantSpec::is_valid_for_service] *)
Definition is_valid_for_service (g : GrantSpec) : bool :=
  is_service_grantable (gs_action g)
  && (negb (gs_include_descendants g)
      || match gs_resource_kind g with KNamespace => true | KSecret => false end).

Record SecretSchedule : Type := {
  expires_at_unix_ms : option Z;
  rotation_due_at_unix_ms : option Z }.

#[export] Instance SecretSchedule_eq_decision : EqDecision SecretSchedule.
Proof. solve_decision. Defined.

(** [SecretSchedule::default] *)
Definition default_schedule : SecretSchedule :=
  {| expires_at_unix_ms := None; rotation_due_at_unix_ms := None |}.

(** [Option::is_none_or] and [Option::is_some_and] *)
Definition is_none_or {A} (o : option A) (p : A -> bool) : bool :=
  match o with None => true | Some a => p a end.
Definition is_some_and {A} (o : option A) (p : A -> bool) : bool :=
  match o with None => false | Some a => p a end.

(** [SecretSchedule::is_valid] *)
Definition schedule_is_valid (s : SecretSchedule) : bool :=
  is_none_or (expires_at_unix_ms s) (fun v => 0 <=? v)
  && is_none_or (rotation_due_at_unix_ms s) (fun v => 0 <=? v).

(** [ProtectedString::from_utf8] *)
Definition protected_from_utf8 (bytes : blob) : option rstring := string_from_utf8 bytes.

(** * Lemmas *)

Lemma action_all_complete a : a ∈ action_all.
Proof. apply list_elem_of_In. destruct a; simpl; tauto. Qed.

Lemma action_as_str_inj a b : action_as_str a = action_as_str b -> a = b.
Proof. destruct a, b; simpl; intros H; (reflexivity || discriminate H). Qed.

Lemma action_from_str_as_str a : action_from_str (action_as_str a) = Some a.
Proof. by destruct a. Qed.

Lemma action_from_str_Some s a : action_from_str s = Some a -> action_as_str a = s.
Proof. intros H. apply find_some in H as [_ H]. by apply String.eqb_eq. Qed.

(** The audit/API spelling of an action identifies it: printing and
    parsing are mutually inverse, and a text outside the vocabulary is rejected. *)
Theorem action_text_roundtrip (s : string) (a : Action) :
  action_from_str s = Some a <-> s = action_as_str a.
Proof.
  split; [by intros ->%action_from_str_Some | intros ->; apply action_from_str_as_str].
Qed.

Lemma owner_only_not_grantable a :
  is_service_grantable a = false ->
  forall g, gs_action g = a -> is_valid_for_service g = false.
Proof. intros H g Hg. unfold is_valid_for_service. by rewrite Hg, H. Qed.

Lemma is_valid_for_service_true g :
  is_valid_for_service g = true ->
  is_service_grantable (gs_action g) = true
  /\ (gs_include_descendants g = true -> gs_resource_kind g = KNamespace).
Proof.
  unfold is_valid_for_service. rewrite andb_true_iff, orb_true_iff, negb_true_iff.
  intros [? [H|H]]; split; try done; destruct (gs_resource_kind g); congruence.
Qed.
