(* ===== verification/Crypto.v ===== *)
(** Crate smcv-crypto: the canonical associated data, keyed commitments, blind
    indexes, root-key framing, application and session tokens, and the
    context-bound AEAD envelope.

    The cryptographic primitives (HMAC-SHA-256, SHA-256, XChaCha20-Poly1305),
    the operating-system random source, base64, hexadecimal and UUID text and
    Unicode normalization are third-party code: they are the operations of the class [Crypto], and what
    is relied on of them is stated in [CryptoLaws]. *)
From Stdlib Require Import ZArith Lia Strings.Byte String.
From stdpp Require Import base tactics numbers option strings list.
From S2P Require Import Prelude RustStd Core.

Class Crypto : Type := {
  (** [Hmac::<Sha256>]: key and the concatenation of all updates. *)
  hmac_sha256 : blob -> blob -> array 32;
  sha256 : blob -> array 32;
  (** [XChaCha20Poly1305::encrypt / decrypt]: key, nonce, associated data, text. *)
  aead_encrypt : array 32 -> array 24 -> blob -> blob -> option blob;
  aead_decrypt : array 32 -> array 24 -> blob -> blob -> option blob;
  (** [getrandom::fill]: the [d]-th draw of the process, of [n] bytes. *)
  getrandom : nat -> forall n : nat, option (array n);
  (** [Uuid::new_v4]: the identity made of the [d]-th draw. *)
  new_v4 : nat -> Uuid;
  (** [URL_SAFE_NO_PAD] *)
  b64_encode : blob -> blob;
  b64_decode : blob -> option blob;
  (** [UnicodeNormalization::nfc] *)
  nfc : rstring -> rstring;
  (** [hex::encode] *)
  hex_encode : blob -> blob;
  (** [Display] of [Uuid] *)
  uuid_text : Uuid -> blob }.

Class CryptoLaws {CR : Crypto} : Prop := {
  aead_open_sealed k n aad m c :
    aead_encrypt k n aad m = Some c -> aead_decrypt k n aad c = Some m;
  aead_tag_length k n aad m c :
    aead_encrypt k n aad m = Some c -> length c = (length m + 16)%nat;
  b64_decode_encode l : b64_decode (b64_encode l) = Some l;
  b64_no_dot l : x2e ∉ b64_encode l;
  b64_length l : zlen (b64_encode l) = (4 * zlen l + 2) / 3;
  hex_digits l : hex_encode l ⊆ bstr "0123456789abcdef";
  hex_inj l l' : hex_encode l = hex_encode l' -> l = l';
  uuid_digits u : uuid_text u ⊆ bstr "0123456789abcdef-";
  uuid_inj u u' : uuid_text u = uuid_text u' -> u = u';
  hex_length l : length (hex_encode l) = (2 * length l)%nat;
  uuid_length u : length (uuid_text u) = 36%nat }.

Inductive CryptoError : Type :=
| CRandomness | CIntegrity | CInvalidCredential | CKeyProvider | CInvalidProtectedInput.

Definition KEY_LENGTH : nat := 32.
Definition NONCE_LENGTH : nat := 24.
Definition ENVELOPE_VERSION : Z := 1.
Definition TOKEN_SECRET_LENGTH : nat := 32.
Definition TOKEN_LOOKUP_LENGTH : nat := 12.
Definition SESSION_LOOKUP_LENGTH : nat := 16.
Definition SESSION_SECRET_LENGTH : nat := 32.
Definition ROOT_KEY_FILE_LENGTH : Z := 72.

Definition AAD_DOMAIN : blob := bstr "SMCV-AAD".
Definition ROOT_KEY_MAGIC : blob := bstr "SMCVKEY1".

Abbreviation KeyMaterial := (array 32).

Inductive ObjectKind : Type :=
| OSecretVersion | OSecretMetadata | OWrappedDataKey | OVerifierKey
| OWrappedMetadataKey | OWrappedKeyEncryptionKey | OBlindIndexKey | OAuditKey
| ONamespaceMetadata | OWrappedNamespaceMetadataKey | OServiceIdentityMetadata
| OWrappedServiceIdentityMetadataKey | OPolicyMetadata | OWrappedPolicyMetadataKey.

(** The [repr(u8)] discriminant. *)
Definition object_kind_code (k : ObjectKind) : Z :=
  match k with
  | OSecretVersion => 1 | OSecretMetadata => 2 | OWrappedDataKey => 3
  | OVerifierKey => 4 | OWrappedMetadataKey => 5 | OWrappedKeyEncryptionKey => 6
  | OBlindIndexKey => 7 | OAuditKey => 8 | ONamespaceMetadata => 9
  | OWrappedNamespaceMetadataKey => 10 | OServiceIdentityMetadata => 11
  | OWrappedServiceIdentityMetadataKey => 12 | OPolicyMetadata => 13
  | OWrappedPolicyMetadataKey => 14
  end.

Record RecordContext : Type := {
  rc_vault_id : VaultId;
  rc_installation_id : InstallationId;
  rc_object_kind : ObjectKind;
  rc_object_id : ObjectId;
  rc_object_version : Z }.

(** [RecordContext::encode_aad] *)
Definition encode_aad (c : RecordContext) : blob :=
  AAD_DOMAIN ++ u16_be ENVELOPE_VERSION ++ arr (rc_vault_id c)
  ++ arr (rc_installation_id c) ++ u8_be (object_kind_code (rc_object_kind c))
  ++ arr (rc_object_id c) ++ u64_be (rc_object_version c).

(** [KeyMaterial::from_protected] *)
Definition key_from_protected (bytes : blob) : result CryptoError KeyMaterial :=
  ok_or CIntegrity (try_array KEY_LENGTH bytes).

(** ** Randomness: a program over the number of draws made so far *)

(** [getrandom::fill] *)
Definition fill {CR : Crypto} (n : nat) : Prog nat CryptoError (array n) :=
  fun d => (ok_or CRandomness (getrandom d n), S d).

(** [KeyMaterial::generate] *)
Definition key_generate {CR : Crypto} : Prog nat CryptoError KeyMaterial := fill KEY_LENGTH.

(** ** Root-key file *)

(** A path as [open] with [O_NOFOLLOW] sees it. *)
Record fs_file : Type := {
  file_is_regular : bool;
  file_mode : Z;
  file_content : blob }.

Record RootKeyRecord : Type := {
  rk_vault_id : VaultId;
  rk_installation_id : InstallationId;
  rk_key : KeyMaterial }.

(** [create_root_key_file]: [existing] is what the path holds, the second
    component of the result what it holds afterwards. *)
Definition create_root_key_file {CR : Crypto} (existing : option fs_file)
    (vault_id : VaultId) (installation_id : InstallationId)
  : Prog nat CryptoError (KeyMaterial * fs_file) :=
  do! key := key_generate in
  match existing with
  | Some _ => prog_fail CKeyProvider
  | None =>
      prog_ret (key, {| file_is_regular := true; file_mode := 384 (* 0o600 *);
                        file_content := ROOT_KEY_MAGIC ++ arr vault_id
                                        ++ arr installation_id ++ arr key |})
  end.

(** [load_root_key_file] *)
Definition load_root_key_file (path : option fs_file) : result CryptoError RootKeyRecord :=
  let? file := ok_or CKeyProvider path in
  if negb (file_is_regular file)
     || negb (zlen (file_content file) =? ROOT_KEY_FILE_LENGTH)
     || negb (Z.land (file_mode file) 63 (* 0o077 *) =? 0)
  then Err CKeyProvider
  else
    let bytes := file_content file in
    if negb (blob_eqb (take 8 bytes) ROOT_KEY_MAGIC) then Err CKeyProvider
    else
      let? vault_uuid := ok_or CKeyProvider (try_array 16 (take 16 (drop 8 bytes))) in
      let? installation_uuid := ok_or CKeyProvider (try_array 16 (take 16 (drop 24 bytes))) in
      let? key := ok_or CKeyProvider (try_array 32 (take 32 (drop 40 bytes))) in
      Ok {| rk_vault_id := vault_uuid; rk_installation_id := installation_uuid; rk_key := key |}.

(** ** State commitment *)

Definition STATE_DOMAIN : blob := bstr "SMCV-STATE-COMMITMENT" ++ [x00] ++ bstr "v1" ++ [x00].

(** The bytes fed to HMAC by [state_commitment]. *)
Definition state_message (canonical_state : blob) : blob :=
  STATE_DOMAIN ++ u16_be (zlen canonical_state) ++ canonical_state.

(** [state_commitment] *)
Definition state_commitment {CR : Crypto} (commitment_key : KeyMaterial) (canonical_state : blob)
  : result CryptoError (array 32) :=
  if (zlen canonical_state =? 0) || (4096 <? zlen canonical_state)
  then Err CInvalidProtectedInput
  else Ok (hmac_sha256 (arr commitment_key) (state_message canonical_state)).

(** ** Audit commitment *)

Record AuditCommitmentInput : Type := {
  ai_commitment_version : Z;
  ai_previous : array 32;
  ai_sequence : Z;
  ai_event_id : AuditEventId;
  ai_installation_id : InstallationId;
  ai_recovery_epoch : Z;
  ai_occurred_at_unix_ms : Z;
  ai_request_id : RequestId;
  ai_actor_principal_id : option PrincipalId;
  ai_credential_kind : option string;
  ai_credential_id : option ObjectId;
  ai_action : string;
  ai_target_kind : string;
  ai_target_id : option ObjectId;
  ai_outcome : string }.

(** [bounded_audit_text] *)
Definition bounded_audit_text (value : string) (max : Z) : result CryptoError Z :=
  let bytes := bstr value in
  if (zlen bytes =? 0) || (max <? zlen bytes)
     || negb (forallb (fun b => Z_of_byte b <? 128) bytes)
  then Err CInvalidProtectedInput
  else ok_or CInvalidProtectedInput (try_from u16_max (zlen bytes)).

(** [update_optional_id] *)
Definition optional_id_bytes (value : option Uuid) : blob :=
  match value with Some v => [x01] ++ arr v | None => [x00] end.

(** A text preceded by its length. *)
Definition text_bytes (value : string) : blob := u16_be (zlen (bstr value)) ++ bstr value.

Definition audit_domain (version : Z) : blob :=
  bstr "SMCV-AUDIT-COMMITMENT" ++ [x00]
  ++ (if version =? 1 then bstr "v1" else bstr "v2") ++ [x00].

Definition credential_bytes (version : Z) (kind : option string) (id : option ObjectId) : blob :=
  if version =? 2 then
    match kind with
    | Some kind => [x01] ++ text_bytes kind ++ optional_id_bytes id
    | None => [x00]
    end
  else [].

(** The bytes fed to HMAC by [audit_commitment]. *)
Definition audit_message (i : AuditCommitmentInput) : blob :=
  audit_domain (ai_commitment_version i) ++ arr (ai_previous i)
  ++ u64_be (ai_sequence i) ++ arr (ai_event_id i) ++ arr (ai_installation_id i)
  ++ u64_be (ai_recovery_epoch i) ++ i64_be (ai_occurred_at_unix_ms i)
  ++ arr (ai_request_id i) ++ optional_id_bytes (ai_actor_principal_id i)
  ++ credential_bytes (ai_commitment_version i) (ai_credential_kind i) (ai_credential_id i)
  ++ text_bytes (ai_action i) ++ text_bytes (ai_target_kind i)
  ++ optional_id_bytes (ai_target_id i) ++ text_bytes (ai_outcome i).

(** [audit_commitment] *)
Definition audit_commitment {CR : Crypto} (audit_key : KeyMaterial) (i : AuditCommitmentInput)
  : result CryptoError (array 32) :=
  let? _ := bounded_audit_text (ai_action i) 64 in
  let? _ := bounded_audit_text (ai_target_kind i) 32 in
  let? _ := bounded_audit_text (ai_outcome i) 16 in
  if negb ((ai_commitment_version i =? 1) || (ai_commitment_version i =? 2))
     || ((ai_commitment_version i =? 1)
         && (bool_decide (is_Some (ai_credential_kind i))
             || bool_decide (is_Some (ai_credential_id i))))
     || negb (Bool.eqb (bool_decide (is_Some (ai_credential_kind i)))
                       (bool_decide (is_Some (ai_credential_id i))))
  then Err CInvalidProtectedInput
  else
    let? _ := transpose ((fun v => bounded_audit_text v 16) <$> ai_credential_kind i) in
    Ok (hmac_sha256 (arr audit_key) (audit_message i)).

(** ** Blind index *)

Definition BLIND_DOMAIN : blob :=
  bstr "SMCV-BLIND-INDEX" ++ [x00] ++ bstr "v1" ++ [x00] ++ bstr "secret-name" ++ [x00].

Definition blind_message (namespace_id : NamespaceId) (normalized : blob) : blob :=
  BLIND_DOMAIN ++ arr namespace_id ++ u16_be (zlen normalized) ++ normalized.

(** [exact_name_index] *)
Definition exact_name_index {CR : Crypto} (blind_index_key : KeyMaterial)
    (namespace_id : NamespaceId) (name : rstring) : result CryptoError (array 32) :=
  let normalized := nfc name in
  if (rs_len normalized =? 0) || (256 <? rs_len normalized) || has_control normalized
  then Err CInvalidProtectedInput
  else Ok (hmac_sha256 (arr blind_index_key) (blind_message namespace_id (rs_bytes normalized))).

(** ** Tokens *)

Definition dot : byte := x2e.
Definition TOKEN_DOMAIN : blob := bstr "SMCV-TOKEN-VERIFIER" ++ [x00] ++ bstr "v1" ++ [x00].
Definition SESSION_DOMAIN : blob := bstr "SMCV-SESSION-VERIFIER" ++ [x00] ++ bstr "v1" ++ [x00].
Definition CSRF_DOMAIN : blob := bstr "SMCV-CSRF-VERIFIER" ++ [x00] ++ bstr "v1" ++ [x00].

(** [token_verifier] *)
Definition token_verifier {CR : Crypto} (verifier_key : KeyMaterial) (lookup secret : blob) : array 32 :=
  hmac_sha256 (arr verifier_key) (TOKEN_DOMAIN ++ lookup ++ secret).

(** [session_verifier] *)
Definition session_verifier {CR : Crypto} (verifier_key : KeyMaterial) (domain lookup secret : blob)
  : array 32 :=
  hmac_sha256 (arr verifier_key) (domain ++ lookup ++ secret).

Record IssuedToken : Type := {
  it_plaintext : blob;
  it_lookup_id : blob;
  it_verifier : array 32 }.

(** [issue_token] *)
Definition issue_token {CR : Crypto} (verifier_key : KeyMaterial) : Prog nat CryptoError IssuedToken :=
  do! lookup := fill TOKEN_LOOKUP_LENGTH in
  do! secret := fill TOKEN_SECRET_LENGTH in
  let lookup_id := b64_encode (arr lookup) in
  let encoded_secret := b64_encode (arr secret) in
  prog_ret {| it_plaintext := bstr "smcv_v1." ++ lookup_id ++ [dot] ++ encoded_secret;
              it_lookup_id := lookup_id;
              it_verifier := token_verifier verifier_key (arr lookup) (arr secret) |}.

(** [token_lookup_id] *)
Definition token_lookup_id {CR : Crypto} (presented : blob) : option (array 12) :=
  if 128 <? zlen presented then None
  else
    encoded ← strip_prefix (bstr "smcv_v1.") presented;
    match split dot encoded with
    | [] => None
    | lookup_text :: rest =>
        lookup ← b64_decode lookup_text;
        match rest with
        | [] => None
        | secret_text :: rest =>
            secret ← b64_decode secret_text;
            if negb (bool_decide (rest = []))
               || negb (Nat.eqb (length lookup) TOKEN_LOOKUP_LENGTH)
               || negb (Nat.eqb (length secret) TOKEN_SECRET_LENGTH)
            then None
            else try_array 12 lookup
        end
    end.

(** [verify_token] *)
Definition verify_token {CR : Crypto} (verifier_key : KeyMaterial) (presented : blob)
    (expected_lookup_id : blob) (expected_verifier : array 32) : result CryptoError bool :=
  if 128 <? zlen presented then Ok false
  else match strip_prefix (bstr "smcv_v1.") presented with
  | None => Ok false
  | Some encoded =>
    match split dot encoded with
    | [lookup_text; secret_text] =>
      match b64_decode lookup_text, b64_decode secret_text with
      | Some lookup, Some secret =>
        if negb (Nat.eqb (length lookup) TOKEN_LOOKUP_LENGTH)
           || negb (Nat.eqb (length secret) TOKEN_SECRET_LENGTH) then Ok false
        else if negb (blob_eqb lookup_text expected_lookup_id) then Ok false
        else Ok (bool_decide (token_verifier verifier_key lookup secret = expected_verifier))
      | _, _ => Ok false
      end
    | _ => Ok false
    end
  end.

Record IssuedSession : Type := {
  is_session_token : blob;
  is_csrf_token : blob;
  is_lookup_id : array 16;
  is_session_verifier : array 32;
  is_csrf_verifier : array 32 }.

(** [issue_session] *)
Definition issue_session {CR : Crypto} (verifier_key : KeyMaterial) : Prog nat CryptoError IssuedSession :=
  do! lookup := fill SESSION_LOOKUP_LENGTH in
  do! session_secret := fill SESSION_SECRET_LENGTH in
  do! csrf_secret := fill SESSION_SECRET_LENGTH in
  prog_ret
    {| is_session_token := bstr "smcvs_v1." ++ b64_encode (arr lookup) ++ [dot]
                           ++ b64_encode (arr session_secret);
       is_csrf_token := bstr "smcvc_v1." ++ b64_encode (arr csrf_secret);
       is_lookup_id := lookup;
       is_session_verifier :=
         session_verifier verifier_key SESSION_DOMAIN (arr lookup) (arr session_secret);
       is_csrf_verifier :=
         session_verifier verifier_key CSRF_DOMAIN (arr lookup) (arr csrf_secret) |}.

(** [decode_session_token] *)
Definition decode_session_token {CR : Crypto} (presented : blob) : option (blob * blob) :=
  if 96 <? zlen presented then None
  else
    encoded ← strip_prefix (bstr "smcvs_v1.") presented;
    match split dot encoded with
    | [] => None
    | lookup_text :: rest =>
        lookup ← b64_decode lookup_text;
        match rest with
        | [] => None
        | secret_text :: rest =>
            secret ← b64_decode secret_text;
            if negb (bool_decide (rest = []))
               || negb (Nat.eqb (length lookup) SESSION_LOOKUP_LENGTH)
               || negb (Nat.eqb (length secret) SESSION_SECRET_LENGTH)
            then None
            else Some (lookup, secret)
        end
    end.

(** [session_lookup_id] *)
Definition session_lookup_id {CR : Crypto} (presented : blob) : option (array 16) :=
  '(lookup, _) ← decode_session_token presented; try_array 16 lookup.

(** [verify_session] *)
Definition verify_session {CR : Crypto} (verifier_key : KeyMaterial) (presented : blob)
    (expected_lookup : array 16) (expected_verifier : array 32) : result CryptoError bool :=
  match decode_session_token presented with
  | None => Ok false
  | Some (lookup, secret) =>
      if negb (blob_eqb lookup (arr expected_lookup)) then Ok false
      else Ok (bool_decide (session_verifier verifier_key SESSION_DOMAIN lookup secret
                            = expected_verifier))
  end.

(** [verify_csrf] *)
Definition verify_csrf {CR : Crypto} (verifier_key : KeyMaterial) (presented : blob)
    (expected_lookup : array 16) (expected_verifier : array 32) : result CryptoError bool :=
  if 64 <? zlen presented then Ok false
  else match strip_prefix (bstr "smcvc_v1.") presented with
  | None => Ok false
  | Some encoded =>
    match b64_decode encoded with
    | None => Ok false
    | Some secret =>
        if negb (Nat.eqb (length secret) SESSION_SECRET_LENGTH) then Ok false
        else Ok (bool_decide (session_verifier verifier_key CSRF_DOMAIN (arr expected_lookup) secret
                              = expected_verifier))
    end
  end.

(** [idempotency_verifiers] *)
Definition idempotency_verifiers {CR : Crypto} (verifier_key : KeyMaterial) (key request : blob)
  : result CryptoError (array 32 * array 32) :=
  if (zlen key =? 0) || (128 <? zlen key) || (zlen request =? 0) || (1048576 <? zlen request)
  then Err CInvalidProtectedInput
  else Ok (hmac_sha256 (arr verifier_key) (bstr "SMCV-IDEMPOTENCY-KEY" ++ [x00] ++ bstr "v1" ++ [x00] ++ key),
           hmac_sha256 (arr verifier_key) (bstr "SMCV-IDEMPOTENCY-REQUEST" ++ [x00] ++ bstr "v1" ++ [x00] ++ request)).

(** ** AEAD envelope *)

Record SealedRecord : Type := {
  sr_nonce : array 24;
  sr_ciphertext : blob }.

(** [seal_with_nonce] *)
Definition seal_with_nonce {CR : Crypto} (key : KeyMaterial) (context : RecordContext)
    (plaintext : blob) (nonce : array 24) : result CryptoError SealedRecord :=
  let? ciphertext := ok_or CIntegrity (aead_encrypt key nonce (encode_aad context) plaintext) in
  Ok {| sr_nonce := nonce; sr_ciphertext := ciphertext |}.

(** [seal] *)
Definition seal {CR : Crypto} (key : KeyMaterial) (context : RecordContext) (plaintext : blob)
  : Prog nat CryptoError SealedRecord :=
  do! nonce := fill NONCE_LENGTH in
  prog_lift (seal_with_nonce key context plaintext nonce).

(** [open] *)
Definition open {CR : Crypto} (key : KeyMaterial) (context : RecordContext) (record : SealedRecord)
  : result CryptoError blob :=
  ok_or CIntegrity (aead_decrypt key (sr_nonce record) (encode_aad context) (sr_ciphertext record)).

(** * Lemmas *)

Lemma bstr_inj a b : bstr a = bstr b -> a = b.
Proof.
  unfold bstr. intros H. rewrite <- (String.string_of_list_byte_of_string a), H.
  apply String.string_of_list_byte_of_string.
Qed.

(** ** Unambiguous encodings

    [peels enc P]: a value encoded by [enc] can be split off the front of any
    byte string in one way only, for the values of [P]. *)
Definition peels {A} (enc : A -> blob) (P : A -> Prop) : Prop :=
  forall a b r s, P a -> P b -> enc a ++ r = enc b ++ s -> a = b /\ r = s.

Lemma peels_fixed {A} (enc : A -> blob) (P : A -> Prop) :
  (forall a b, P a -> P b -> length (enc a) = length (enc b)) ->
  (forall a b, P a -> P b -> enc a = enc b -> a = b) -> peels enc P.
Proof.
  intros Hl Hi a b r s Ha Hb H. apply app_eq_length in H as [H ->]; auto.
Qed.

Lemma peels_inj {A} (enc : A -> blob) (P : A -> Prop) a b :
  peels enc P -> P a -> P b -> enc a = enc b -> a = b.
Proof.
  intros H Ha Hb E. destruct (H a b [] []) as [? _]; try done. by rewrite !app_nil_r.
Qed.

Lemma peels_array n : peels (@arr n) (fun _ => True).
Proof. apply peels_fixed; [intros; by rewrite !array_length | intros; by apply array_eq]. Qed.

Lemma peels_u64 : peels u64_be in_u64.
Proof. apply peels_fixed; [intros; by autorewrite with smcv_len | apply u64_be_inj]. Qed.

Lemma peels_i64 : peels i64_be in_i64.
Proof. apply peels_fixed; [intros; by autorewrite with smcv_len | apply i64_be_inj]. Qed.

Lemma peels_u16 : peels u16_be in_u16.
Proof. apply peels_fixed; [intros; by autorewrite with smcv_len | apply u16_be_inj]. Qed.

Lemma peels_u32 : peels u32_be in_u32.
Proof. apply peels_fixed; [intros; by autorewrite with smcv_len | apply u32_be_inj]. Qed.

Lemma object_kind_code_inj a b : object_kind_code a = object_kind_code b -> a = b.
Proof. by destruct a, b. Qed.

Lemma peels_object_kind : peels (fun k => u8_be (object_kind_code k)) (fun _ => True).
Proof.
  apply peels_fixed; [intros; by autorewrite with smcv_len|].
  intros a b _ _ H. apply object_kind_code_inj.
  apply (be_encode_inj_unsigned 1); [destruct a | destruct b | exact H]; simpl; lia.
Qed.

Lemma peels_optional_id : peels optional_id_bytes (fun _ => True).
Proof.
  intros [a|] [b|] r s _ _; simpl; try (intros [=]; by split).
  intros H. apply cons_tail_inj, (peels_array 16) in H as [-> ->]; done.
Qed.

Lemma peels_length_prefixed : peels (fun l : blob => u16_be (zlen l) ++ l) (fun l => zlen l <= u16_max).
Proof.
  intros a b r s Ha Hb. rewrite <- !app_assoc. intros H.
  apply peels_u16 in H as [Hl H]; [|unfold in_u16; pose proof (zlen_nonneg a); lia
                                   |unfold in_u16; pose proof (zlen_nonneg b); lia].
  apply app_eq_length in H as [-> ->]; [done|]. unfold zlen in Hl. lia.
Qed.

Lemma peels_text : peels text_bytes (fun v => zlen (bstr v) <= u16_max).
Proof.
  intros a b r s Ha Hb H. apply (peels_length_prefixed (bstr a) (bstr b)) in H as [H ->]; try done.
  split; [by apply bstr_inj | done].
Qed.

(** Split one field off the front of both sides of an equation. *)
Ltac peel_with L H :=
  let E := fresh "E" in
  first [ apply L in H as [E H]; [ | done | done ]
        | apply L in H as [E H]; [ | assumption | assumption ] ].

(** The associated data of an envelope determines the vault, the
    installation, the kind, the identity and the version of the object. *)
Theorem encode_aad_injective (c d : RecordContext)
    (Hc : in_u64 (rc_object_version c)) (Hd : in_u64 (rc_object_version d)) :
  encode_aad c = encode_aad d -> c = d.
Proof.
  destruct c as [v i k o n], d as [v' i' k' o' n']; unfold encode_aad; simpl in *.
  intros H. apply (app_inv_head AAD_DOMAIN) in H.
  apply (app_inv_head (u16_be ENVELOPE_VERSION)) in H.
  apply (peels_array 16) in H as [-> H]; [|done..].
  apply (peels_array 16) in H as [-> H]; [|done..].
  apply (peels_object_kind k k') in H as [-> H]; [|done..].
  apply (peels_array 16) in H as [-> H]; [|done..].
  apply u64_be_inj in H as ->; done.
Qed.

Lemma encode_aad_length c : length (encode_aad c) = 67%nat.
Proof. unfold encode_aad. by autorewrite with smcv_len. Qed.

Lemma bounded_audit_text_Ok v max n :
  bounded_audit_text v max = Ok n -> n = zlen (bstr v) /\ 0 < zlen (bstr v) <= max /\ zlen (bstr v) <= u16_max.
Proof.
  unfold bounded_audit_text. case_match eqn:E; [done|]. bprop.
  intros H%ok_or_Ok%try_from_Some. pose proof (zlen_nonneg (bstr v)). lia.
Qed.

(** The types of the integer fields. *)
Definition audit_input_typed (i : AuditCommitmentInput) : Prop :=
  in_u64 (ai_sequence i) /\ in_u64 (ai_recovery_epoch i) /\ in_i64 (ai_occurred_at_unix_ms i).

(** What [audit_commitment] accepts. *)
Definition audit_input_accepted (i : AuditCommitmentInput) : Prop :=
  zlen (bstr (ai_action i)) <= u16_max /\ zlen (bstr (ai_target_kind i)) <= u16_max
  /\ zlen (bstr (ai_outcome i)) <= u16_max
  /\ ((ai_commitment_version i = 1 /\ ai_credential_kind i = None /\ ai_credential_id i = None)
      \/ (ai_commitment_version i = 2
          /\ (is_Some (ai_credential_kind i) <-> is_Some (ai_credential_id i))
          /\ (forall k, ai_credential_kind i = Some k -> zlen (bstr k) <= u16_max))).

Lemma audit_credential_guard v (k : option string) (o : option ObjectId) :
  negb ((v =? 1) || (v =? 2))
   || ((v =? 1) && (bool_decide (is_Some k) || bool_decide (is_Some o)))
   || negb (Bool.eqb (bool_decide (is_Some k)) (bool_decide (is_Some o))) = false ->
  (v = 1 /\ k = None /\ o = None) \/ (v = 2 /\ (is_Some k <-> is_Some o)).
Proof.
  destruct k as [k|], o as [o|]; repeat case_bool_decide; simpl; try (exfalso; by eauto using is_Some_None);
    destruct (Z.eqb_spec v 1), (Z.eqb_spec v 2); simpl; try done; naive_solver.
Qed.

Lemma audit_commitment_Ok {CR : Crypto} key i c :
  audit_commitment key i = Ok c ->
  audit_input_accepted i /\ c = hmac_sha256 (arr key) (audit_message i).
Proof.
  unfold audit_commitment. intros HC.
  apply result_bind_Ok in HC as (n1 & H1%bounded_audit_text_Ok & HC).
  apply result_bind_Ok in HC as (n2 & H2%bounded_audit_text_Ok & HC).
  apply result_bind_Ok in HC as (n3 & H3%bounded_audit_text_Ok & HC).
  match type of HC with (if ?g then _ else _) = _ => destruct g eqn:E; [done|] end.
  apply audit_credential_guard in E. apply result_bind_Ok in HC as (n4 & H4 & HC).
  injection HC as <-. split; [|done]. unfold audit_input_accepted.
  do 3 (split; [lia|]). destruct E as [E|[E Hs]]; [by left|right].
  do 2 (split; [done|]). intros k Hk. rewrite Hk in H4. simpl in H4.
  destruct (bounded_audit_text k 16) eqn:Eb; [|done]. apply bounded_audit_text_Ok in Eb. lia.
Qed.

Lemma audit_domain_split v w r s :
  (v = 1 \/ v = 2) -> (w = 1 \/ w = 2) ->
  audit_domain v ++ r = audit_domain w ++ s -> v = w /\ r = s.
Proof.
  intros [-> | ->] [-> | ->]; unfold audit_domain; simpl; intros [=]; done.
Qed.

Lemma credential_bytes_split v k k' o o' r s :
  (v = 1 /\ k = None /\ o = None \/ v = 2 /\ (is_Some k <-> is_Some o)
     /\ (forall t, k = Some t -> zlen (bstr t) <= u16_max)) ->
  (v = 1 /\ k' = None /\ o' = None \/ v = 2 /\ (is_Some k' <-> is_Some o')
     /\ (forall t, k' = Some t -> zlen (bstr t) <= u16_max)) ->
  credential_bytes v k o ++ r = credential_bytes v k' o' ++ s ->
  k = k' /\ o = o' /\ r = s.
Proof.
  unfold credential_bytes. intros [(-> & -> & ->)|(-> & Hk & Ht)] [(E & -> & ->)|(E & Hk' & Ht')];
    try done; simpl.
  destruct k as [k|], k' as [k'|]; simpl; try (intros [=]; done).
  - intros H. apply cons_tail_inj in H. rewrite <- !app_assoc in H.
    apply (peels_text k k') in H as [-> H]; [|by apply Ht|by apply Ht'].
    by apply peels_optional_id in H as [-> ->].
  - intros [= ->]. destruct o, o'; naive_solver.
Qed.

(** The canonical form of an audit event determines all of its fields. *)
Lemma audit_message_injective (i j : AuditCommitmentInput) :
  audit_input_typed i -> audit_input_typed j ->
  audit_input_accepted i -> audit_input_accepted j ->
  audit_message i = audit_message j -> i = j.
Proof.
  destruct i, j; unfold audit_input_typed, audit_input_accepted, audit_message; simpl.
  intros (?&?&?) (?&?&?) (?&?&?&Hv) (?&?&?&Hw) HM.
  apply audit_domain_split in HM as [<- HM]; [|naive_solver|naive_solver].
  apply (peels_array 32) in HM as [-> HM]; [|done..].
  apply peels_u64 in HM as [-> HM]; [|done..].
  do 2 (apply (peels_array 16) in HM as [-> HM]; [|done..]).
  apply peels_u64 in HM as [-> HM]; [|done..].
  apply peels_i64 in HM as [-> HM]; [|done..].
  apply (peels_array 16) in HM as [-> HM]; [|done..].
  apply peels_optional_id in HM as [-> HM]; [|done..].
  apply credential_bytes_split in HM as (-> & -> & HM); [|done..].
  apply (peels_text _ _) in HM as [-> HM]; [|done..].
  apply (peels_text _ _) in HM as [-> HM]; [|done..].
  apply peels_optional_id in HM as [-> HM]; [|done..].
  apply (peels_inj _ _ _ _ peels_text) in HM as ->; done.
Qed.

(** One commitment value authenticates one audit event: two accepted events
    with the same commitment under one key are equal in every field, or they
    exhibit a collision of HMAC-SHA-256. *)
Lemma audit_commitment_binds {CR : Crypto} (key : KeyMaterial) (i j : AuditCommitmentInput) (c : array 32)
    (Ti : audit_input_typed i) (Tj : audit_input_typed j)
    (Hi : audit_commitment key i = Ok c) (Hj : audit_commitment key j = Ok c) :
  i = j \/ (audit_message i <> audit_message j
            /\ hmac_sha256 (arr key) (audit_message i) = hmac_sha256 (arr key) (audit_message j)).
Proof.
  apply audit_commitment_Ok in Hi as [Ai ->], Hj as [Aj Hc].
  destruct (decide (audit_message i = audit_message j)) as [E|E]; [left|right; by split].
  by apply audit_message_injective.
Qed.

(** ** Domain separation *)

(** Every domain prefix under which a vault key is used with HMAC. *)
Definition hmac_domains : list blob :=
  [STATE_DOMAIN; audit_domain 1; audit_domain 2; BLIND_DOMAIN; TOKEN_DOMAIN; SESSION_DOMAIN;
   CSRF_DOMAIN; bstr "SMCV-IDEMPOTENCY-KEY" ++ [x00] ++ bstr "v1" ++ [x00];
   bstr "SMCV-IDEMPOTENCY-REQUEST" ++ [x00] ++ bstr "v1" ++ [x00]].

Fixpoint diverge (a b : blob) : bool :=
  match a, b with
  | x :: a', y :: b' => if Byte.eqb x y then diverge a' b' else true
  | _, _ => false
  end.

Lemma diverge_app a b r s : diverge a b = true -> a ++ r <> b ++ s.
Proof.
  revert b. induction a as [|x a IH]; intros [|y b]; simpl; try done.
  rewrite byte_eqb_spec. case_bool_decide; [|by intros _ [= ? _]].
  subst. intros H [= ?]. by eapply IH.
Qed.

(** No input of one keyed construction is an input of another: the
    domain prefixes used with a vault key diverge pairwise, whatever follows. *)
Theorem hmac_domains_separate (i j : nat) (d e r s : blob)
    (Hi : hmac_domains !! i = Some d) (Hj : hmac_domains !! j = Some e) (Hij : i <> j) :
  d ++ r <> e ++ s.
Proof.
  apply diverge_app. revert Hi Hj Hij.
  assert (forallb (fun i => forallb (fun j => Nat.eqb i j ||
    match hmac_domains !! i, hmac_domains !! j with Some d, Some e => diverge d e | _, _ => true end)
    (seq 0 9)) (seq 0 9) = true) as HB by by vm_compute.
  intros Hi Hj Hij.
  pose proof (lookup_lt_Some _ _ _ Hi) as Li. pose proof (lookup_lt_Some _ _ _ Hj) as Lj.
  change (length hmac_domains) with 9%nat in Li, Lj.
  rewrite forallb_forall in HB. specialize (HB i ltac:(apply in_seq; lia)).
  rewrite forallb_forall in HB. specialize (HB j ltac:(apply in_seq; lia)).
  rewrite (proj2 (Nat.eqb_neq i j) Hij), Hi, Hj in HB. done.
Qed.

(** ** Root-key file *)

(** What [create_root_key_file] writes. *)
Definition root_key_bytes (r : RootKeyRecord) : blob :=
  ROOT_KEY_MAGIC ++ arr (rk_vault_id r) ++ arr (rk_installation_id r) ++ arr (rk_key r).

Lemma root_key_fields (l : blob) :
  length l = 72%nat ->
  l = take 8 l ++ take 16 (drop 8 l) ++ take 16 (drop 24 l) ++ take 32 (drop 40 l).
Proof.
  intros H. rewrite (take_ge (drop 40 l)) by (rewrite length_drop; lia).
  replace (drop 40 l) with (drop 16 (drop 24 l)) by (by rewrite drop_drop).
  rewrite take_drop. replace (drop 24 l) with (drop 16 (drop 8 l)) by (by rewrite drop_drop).
  by rewrite !take_drop.
Qed.

Lemma root_key_file_parts (r : RootKeyRecord) :
  take 8 (root_key_bytes r) = ROOT_KEY_MAGIC
  /\ take 16 (drop 8 (root_key_bytes r)) = arr (rk_vault_id r)
  /\ take 16 (drop 24 (root_key_bytes r)) = arr (rk_installation_id r)
  /\ take 32 (drop 40 (root_key_bytes r)) = arr (rk_key r).
Proof.
  unfold root_key_bytes.
  set (v := arr (rk_vault_id r)). set (i := arr (rk_installation_id r)). set (k := arr (rk_key r)).
  assert (length v = 16%nat /\ length i = 16%nat /\ length k = 32%nat) as (Hv & Hi & Hk)
    by (unfold v, i, k; by rewrite !array_length).
  split; [done|]. change (drop 8 (ROOT_KEY_MAGIC ++ v ++ i ++ k)) with (v ++ i ++ k).
  change (drop 24 (ROOT_KEY_MAGIC ++ v ++ i ++ k)) with (drop 16 (v ++ i ++ k)).
  change (drop 40 (ROOT_KEY_MAGIC ++ v ++ i ++ k)) with (drop 32 (v ++ i ++ k)).
  rewrite !take_app_length', drop_app_length' by done.
  replace 32%nat with (length (v ++ i)) by (rewrite length_app; lia).
  rewrite (app_assoc v), drop_app_length, take_app_length' by done.
  split; [done|]. split; [done|]. rewrite take_ge; [done|]. rewrite length_app. lia.
Qed.

Lemma load_root_key_file_iff (f : fs_file) (r : RootKeyRecord) :
  load_root_key_file (Some f) = Ok r <->
  file_is_regular f = true /\ Z.land (file_mode f) 63 = 0 /\ file_content f = root_key_bytes r.
Proof.
  unfold load_root_key_file; cbn [ok_or result_bind]. split.
  - case_match eqn:E; [done|]. bprop. destruct E as [[Hr Hl] Hm].
    case_match eqn:Em; [done|]. bprop. unfold blob_eqb in Em. bprop. intros HL.
    apply result_bind_Ok in HL as (v & Hv%ok_or_Ok%try_array_Some & HL).
    apply result_bind_Ok in HL as (i & Hi%ok_or_Ok%try_array_Some & HL).
    apply result_bind_Ok in HL as (k & Hk%ok_or_Ok%try_array_Some & [= <-]).
    do 2 (split; [done|]). unfold root_key_bytes; cbn [rk_vault_id rk_installation_id rk_key].
    rewrite Hv, Hi, Hk, <- Em. apply root_key_fields.
    unfold zlen, ROOT_KEY_FILE_LENGTH in Hl. lia.
  - intros (Hr & Hm & Hc). rewrite Hr, Hm, Hc.
    destruct (root_key_file_parts r) as (-> & -> & -> & ->).
    replace (zlen (root_key_bytes r) =? ROOT_KEY_FILE_LENGTH) with true.
    2:{ symmetry. apply Z.eqb_eq. unfold root_key_bytes, zlen, ROOT_KEY_FILE_LENGTH.
        by autorewrite with smcv_len. }
    cbn [negb orb]. unfold blob_eqb. rewrite bool_decide_true by done. cbn [negb].
    rewrite !try_array_arr. by destruct r.
Qed.

Lemma create_root_key_file_loads {CR : Crypto} d vault inst key f d' :
  create_root_key_file None vault inst d = (Ok (key, f), d') ->
  load_root_key_file (Some f)
  = Ok {| rk_vault_id := vault; rk_installation_id := inst; rk_key := key |}.
Proof.
  unfold create_root_key_file. intros H. minv. by apply load_root_key_file_iff.
Qed.

(** A root-key file loads exactly when it is a regular file closed to
    group and others whose content is the canonical framing of the record
    returned; in particular what [create_root_key_file] wrote loads back. *)
Theorem load_root_key_file_spec (f : fs_file) (r : RootKeyRecord) :
  load_root_key_file (Some f) = Ok r <->
  file_is_regular f = true /\ Z.land (file_mode f) 63 = 0 /\ file_content f = root_key_bytes r.
Proof. apply load_root_key_file_iff. Qed.

(** ** Envelope *)

Section Envelope.
Context {CR : Crypto} {CL : CryptoLaws}.

Lemma open_seal_with_nonce key ctx m n r :
  seal_with_nonce key ctx m n = Ok r -> open key ctx r = Ok m /\ length (sr_ciphertext r) = (length m + 16)%nat.
Proof.
  unfold seal_with_nonce, open. intros H. minv.
  simpl. rewrite (aead_open_sealed _ _ _ _ _ H). split; [done|]. by eapply aead_tag_length.
Qed.

Lemma open_seal key ctx m d r d' :
  seal key ctx m d = (Ok r, d') -> open key ctx r = Ok m /\ length (sr_ciphertext r) = (length m + 16)%nat.
Proof. unfold seal. intros H. minv. by eapply open_seal_with_nonce. Qed.

Lemma token_text_fields (a b : blob) :
  split dot (b64_encode a ++ [dot] ++ b64_encode b) = [b64_encode a; b64_encode b].
Proof. simpl. rewrite split_app_sep, split_no_sep by apply b64_no_dot. done. Qed.

Lemma b64_array_length n (a : array n) : zlen (b64_encode (arr a)) = (4 * Z.of_nat n + 2) / 3.
Proof. rewrite b64_length. unfold zlen. by rewrite array_length. Qed.

(** An issued application credential is accepted against the stored
    lookup and verifier, and its lookup can be recovered from the text. *)
Theorem issued_token_verifies key d t d' (H : issue_token key d = (Ok t, d')) :
  verify_token key (it_plaintext t) (it_lookup_id t) (it_verifier t) = Ok true
  /\ exists lookup, token_lookup_id (it_plaintext t) = Some lookup
                    /\ b64_encode (arr lookup) = it_lookup_id t.
Proof.
  unfold issue_token in H.
  apply prog_bind_Ok in H as (lookup & d1 & _ & H).
  apply prog_bind_Ok in H as (secret & d2 & _ & H).
  apply prog_ret_Ok in H as [-> _]. cbn [it_plaintext it_lookup_id it_verifier].
  assert (zlen (bstr "smcv_v1." ++ b64_encode (arr lookup) ++ [dot] ++ b64_encode (arr secret)) = 68) as Hlen.
  { rewrite !zlen_app, !b64_array_length. done. }
  unfold verify_token, token_lookup_id. rewrite Hlen, strip_prefix_app. cbn [Z.ltb Z.compare Pos.compare Pos.compare_cont mbind option_bind].
  rewrite token_text_fields. cbn [mbind option_bind]. rewrite !b64_decode_encode. cbn [mbind option_bind].
  rewrite !array_length. cbn [Nat.eqb negb orb TOKEN_LOOKUP_LENGTH TOKEN_SECRET_LENGTH].
  unfold blob_eqb. rewrite !bool_decide_true by done. split; [done|].
  exists lookup. cbn. split; [by rewrite try_array_arr | done].
Qed.

(** Nothing but a well-formed text whose secret reproduces the stored
    verifier is accepted as an application credential. *)
Theorem verify_token_sound key presented lookup_id verifier
    (H : verify_token key presented lookup_id verifier = Ok true) :
  exists lookup secret secret_text,
    presented = bstr "smcv_v1." ++ lookup_id ++ dot :: secret_text
    /\ b64_decode lookup_id = Some lookup /\ length lookup = 12%nat
    /\ b64_decode secret_text = Some secret /\ length secret = 32%nat
    /\ hmac_sha256 (arr key) (TOKEN_DOMAIN ++ lookup ++ secret) = verifier.
Proof.
  unfold verify_token in H. case_match; [done|].
  destruct (strip_prefix (bstr "smcv_v1.") presented) as [enc|] eqn:Es; [|done].
  apply strip_prefix_Some in Es as ->.
  destruct (split dot enc) as [|lt [|st [|]]] eqn:Ef; try done.
  apply split_pair_inv in Ef as ->.
  destruct (b64_decode lt) as [lookup|] eqn:El; [|done].
  destruct (b64_decode st) as [secret|] eqn:Et; [|done].
  case_match eqn:E1; [done|]. case_match eqn:E2; [done|]. unfold blob_eqb in *. bprop.
  rewrite !Nat.eqb_eq in E1. injection H as H. bprop. subst lookup_id.
  exists lookup, secret, st. unfold token_verifier in H. naive_solver.
Qed.

(** An issued browser session and its CSRF token are accepted against
    the verifiers stored for its lookup. *)
Theorem issued_session_verifies key d s d' (H : issue_session key d = (Ok s, d')) :
  session_lookup_id (is_session_token s) = Some (is_lookup_id s)
  /\ verify_session key (is_session_token s) (is_lookup_id s) (is_session_verifier s) = Ok true
  /\ verify_csrf key (is_csrf_token s) (is_lookup_id s) (is_csrf_verifier s) = Ok true.
Proof.
  unfold issue_session in H.
  apply prog_bind_Ok in H as (lookup & d1 & _ & H).
  apply prog_bind_Ok in H as (secret & d2 & _ & H).
  apply prog_bind_Ok in H as (csrf & d3 & _ & H). apply prog_ret_Ok in H as [-> _].
  assert (decode_session_token (bstr "smcvs_v1." ++ b64_encode (arr lookup) ++ [dot] ++ b64_encode (arr secret))
          = Some (arr lookup, arr secret)) as Hdec.
  { unfold decode_session_token.
    assert (zlen (bstr "smcvs_v1." ++ b64_encode (arr lookup) ++ [dot] ++ b64_encode (arr secret)) = 75) as ->
      by (rewrite !zlen_app, !b64_array_length; done).
    rewrite strip_prefix_app. cbn [Z.ltb Z.compare Pos.compare Pos.compare_cont mbind option_bind].
    rewrite token_text_fields. cbn [mbind option_bind]. rewrite b64_decode_encode. cbn [mbind option_bind].
    rewrite b64_decode_encode. cbn [mbind option_bind]. by rewrite !array_length. }
  unfold session_lookup_id, verify_session, verify_csrf. cbn [is_session_token is_lookup_id is_session_verifier is_csrf_token is_csrf_verifier].
  rewrite Hdec. cbn [mbind option_bind]. rewrite try_array_arr. split; [done|].
  unfold blob_eqb. rewrite bool_decide_true by done. cbn [negb]. rewrite bool_decide_true by done.
  split; [done|].
  assert (zlen (bstr "smcvc_v1." ++ b64_encode (arr csrf)) = 52) as ->
    by (rewrite !zlen_app, !b64_array_length; done).
  rewrite strip_prefix_app, b64_decode_encode, array_length. cbn.
  by rewrite bool_decide_true.
Qed.
End Envelope.
