(* ===== verification/Format.v ===== *)
(** The canonical texts that [format!] builds for keyed state commitments:
    fields separated by NUL. A text whose fields hold no NUL determines them. *)
From Stdlib Require Import ZArith Lia Strings.Byte String.
From stdpp Require Import base tactics numbers option strings list pretty.
From S2P Require Import Prelude RustStd Core Crypto.

(** [Display] of an integer *)
Definition dec (z : Z) : blob := bstr (pretty z).
(** [Debug] of [Option<i64>] *)
Definition debug_opt (o : option Z) : blob :=
  match o with None => bstr "None" | Some z => bstr "Some(" ++ dec z ++ bstr ")" end.
(** [format!("{a}\0{b}\0...")] *)
Definition canonical_text (fields : list blob) : blob := join x00 fields.

(** * A text determines its fields *)

Definition no_nul (b : blob) : Prop := x00 ∉ b.

Lemma canonical_text_inj (fs gs : list blob) :
  fs <> [] -> gs <> [] -> Forall no_nul fs -> Forall no_nul gs ->
  canonical_text fs = canonical_text gs -> fs = gs.
Proof.
  assert (forall fs, fs <> [] -> Forall no_nul fs -> split x00 (join x00 fs) = fs) as H.
  { clear. induction fs as [|f [|g fs] IH]; [done|..]; intros _ HF.
    - inversion HF; subst. by apply split_no_sep.
    - inversion HF; subst. cbn [join]. rewrite split_app_sep by done. f_equal. by apply IH. }
  intros Hf Hg HF HG E. unfold canonical_text in E.
  by rewrite <- (H fs Hf HF), <- (H gs Hg HG), E.
Qed.

Lemma split_app c a b : split c (a ++ c :: b) = split c a ++ split c b.
Proof.
  induction a as [|x a IH]; cbn [app split]; rewrite byte_eqb_spec.
  - by rewrite bool_decide_true.
  - destruct (bool_decide (x = c)); rewrite IH; [done|]. destruct (split c a) eqn:E; [|done].
    exfalso. clear -E. destruct a as [|y a]; cbn in E; [done|]. case_match; [done|]. by case_match.
Qed.

Lemma split_length_pos c a : (1 <= length (split c a))%nat.
Proof. induction a as [|x a IH]; cbn; [lia|]. case_match; [cbn; lia|]. case_match; cbn in *; lia. Qed.

Lemma split_single c a : length (split c a) = 1%nat -> c ∉ a.
Proof.
  induction a as [|x a IH]; cbn; [intros _; apply not_elem_of_nil|]. rewrite byte_eqb_spec.
  destruct (bool_decide (x = c)) eqn:E; [cbn; pose proof (split_length_pos c a); lia|].
  apply bool_decide_eq_false in E. pose proof (split_length_pos c a).
  destruct (split c a); cbn in *; [lia|]. intros Hl. apply not_elem_of_cons. split; [congruence|]. apply IH. lia.
Qed.

(** A text of [n] fields without NUL is no text of [n] fields with one. *)
Lemma canonical_text_no_nul (fs gs : list blob) :
  length fs = length gs -> fs <> [] -> Forall no_nul fs -> canonical_text fs = canonical_text gs ->
  Forall no_nul gs.
Proof.
  assert (forall l, l <> [] -> (length l <= length (split x00 (join x00 l)))%nat
            /\ (length (split x00 (join x00 l)) = length l -> Forall no_nul l)) as H.
  { clear. induction l as [|f [|g l] IH]; [done|..]; intros _.
    - cbn [join length]. split; [apply split_length_pos|]. intros E. constructor; [by apply split_single|done].
    - change (join x00 (f :: g :: l)) with (f ++ x00 :: join x00 (g :: l)). rewrite split_app, length_app. destruct IH as [IH1 IH2]; [done|].
      pose proof (split_length_pos x00 f) as Hf. cbn [length] in *. split; [lia|]. intros E.
      constructor; [apply split_single; lia|]. apply IH2. lia. }
  intros Hl Hn HF E. assert (gs <> []) as Hg by (intros ->; by apply nil_length_inv in Hl).
  apply H; [done|]. unfold canonical_text in E. rewrite <- E, <- Hl.
  clear -HF Hn. induction fs as [|f [|g fs] IH]; [done|..]; inversion HF; subst.
  - cbn [join]. by rewrite split_no_sep.
  - change (join x00 (f :: g :: fs)) with (f ++ x00 :: join x00 (g :: fs)). rewrite split_app_sep by done. cbn [length]. by rewrite IH.
Qed.

Lemma dec_inj a b : dec a = dec b -> a = b.
Proof. intros E%bstr_inj. by apply (inj pretty). Qed.

Lemma bstr_app s t : bstr (s +:+ t) = bstr s ++ bstr t.
Proof. unfold bstr, String.list_byte_of_string. induction s as [|c s IH]; [done|]. simpl. by rewrite IH. Qed.

Lemma no_nul_app a b : no_nul (a ++ b) <-> no_nul a /\ no_nul b.
Proof. unfold no_nul. rewrite elem_of_app. tauto. Qed.

Lemma no_nul_sub a b : a ⊆ b -> no_nul b -> no_nul a.
Proof. unfold no_nul. intros HS Hb Ha. by apply Hb, HS. Qed.

Lemma no_nul_check b : forallb (fun x => negb (Byte.eqb x x00)) b = true -> no_nul b.
Proof.
  rewrite forallb_forall. unfold no_nul. intros H Hin%list_elem_of_In.
  by specialize (H _ Hin).
Qed.

Lemma no_nul_pretty_N_go (n : N) (s : string) : no_nul (bstr s) -> no_nul (bstr (pretty_N_go n s)).
Proof.
  revert s. induction n as [n IH] using (well_founded_induction N.lt_wf_0). intros s Hs.
  assert (n = 0 \/ 0 < n)%N as [->|Hn] by lia; [by rewrite pretty_N_go_0|].
  rewrite pretty_N_go_step by done. apply IH; [by apply N.div_lt|].
  revert Hs. unfold no_nul, bstr, String.list_byte_of_string. simpl. rewrite elem_of_cons.
  intros Hs [E|]; [|done]. revert E. unfold pretty_N_char. by repeat case_match.
Qed.

Lemma no_nul_pretty_N (n : N) : no_nul (bstr (pretty n)).
Proof.
  unfold pretty, pretty_N. case_decide; [by apply no_nul_check|].
  by apply no_nul_pretty_N_go, no_nul_check.
Qed.

Lemma no_nul_dec z : no_nul (dec z).
Proof.
  unfold dec. destruct z as [|p|p]; [by apply no_nul_check|..]; cbn [pretty pretty_Z].
  - apply no_nul_pretty_N.
  - rewrite bstr_app. apply no_nul_app. split; [by apply no_nul_check|apply no_nul_pretty_N].
Qed.

Lemma no_nul_debug_opt o : no_nul (debug_opt o).
Proof.
  destruct o as [z|]; cbn [debug_opt]; [|by apply no_nul_check].
  rewrite !no_nul_app. split_and!; [by apply no_nul_check|apply no_nul_dec|by apply no_nul_check].
Qed.

Lemma debug_opt_inj a b : debug_opt a = debug_opt b -> a = b.
Proof.
  destruct a as [a|], b as [b|]; cbn [debug_opt]; try done.
  intros E%(app_inv_head (bstr "Some("))%app_inv_tail%dec_inj. by subst.
Qed.

Section Laws.
Context {CR : Crypto} {CL : CryptoLaws}.

Lemma no_nul_hex l : no_nul (hex_encode l).
Proof. eapply no_nul_sub; [apply hex_digits|by apply no_nul_check]. Qed.

Lemma no_nul_uuid u : no_nul (uuid_text u).
Proof. eapply no_nul_sub; [apply uuid_digits|by apply no_nul_check]. Qed.

Lemma no_nul_action a : no_nul (bstr (action_as_str a)).
Proof. by destruct a; apply no_nul_check. Qed.

Lemma no_nul_resource_kind k : no_nul (bstr (resource_kind_as_str k)).
Proof. by destruct k; apply no_nul_check. Qed.
End Laws.

(** ** Lengths *)

Lemma length_pretty_N_go (k : nat) (n : N) (s : string) :
  (n < 10 ^ N.of_nat k)%N -> (length (bstr (pretty_N_go n s)) <= k + length (bstr s))%nat.
Proof.
  revert n s. induction k as [|k IH]; intros n s Hn.
  - cbn in Hn. assert (n = 0)%N as -> by lia. by rewrite pretty_N_go_0.
  - destruct (decide (n = 0)%N) as [->|Hz]; [rewrite pretty_N_go_0; lia|].
    rewrite pretty_N_go_step by lia. rewrite Nat2N.inj_succ, N.pow_succ_r' in Hn.
    etrans; [apply IH|]. { apply N.Div0.div_lt_upper_bound. lia. }
    unfold bstr, String.list_byte_of_string. simpl. lia.
Qed.

Lemma length_pretty_N (k : nat) (n : N) :
  (0 < k)%nat -> (n < 10 ^ N.of_nat k)%N -> (length (bstr (pretty n)) <= k)%nat.
Proof.
  intros Hk Hn. unfold pretty, pretty_N. case_decide; [done|].
  etrans; [by apply length_pretty_N_go|]. change (length (bstr "")) with 0%nat. lia.
Qed.

(** An i64 has at most 19 digits and a sign. *)
Lemma pretty_pos_length (p : positive) :
  Z.pos p <= 9223372036854775808 -> (length (bstr (pretty p)) <= 19)%nat.
Proof.
  intros Hp. apply (length_pretty_N 19 (N.pos p)); [lia|].
  change (10 ^ N.of_nat 19)%N with 10000000000000000000%N. lia.
Qed.

Lemma dec_length z : in_i64 z -> zlen (dec z) <= 20.
Proof.
  unfold in_i64, i64_min, i64_max, zlen, dec. intros Hz.
  destruct z as [|p|p]; [done|..]; cbn [pretty pretty_Z].
  - pose proof (pretty_pos_length p). lia.
  - rewrite bstr_app, length_app. change (length (bstr "-")) with 1%nat.
    pose proof (pretty_pos_length p). lia.
Qed.

Lemma debug_opt_length o : from_option in_i64 True o -> zlen (debug_opt o) <= 26.
Proof.
  destruct o as [z|]; cbn [debug_opt from_option]; [|done]. intros Hz%dec_length.
  rewrite !zlen_app. change (zlen (bstr "Some(")) with 5. change (zlen (bstr ")")) with 1. lia.
Qed.

Lemma zlen_canonical_text f fs :
  zlen (canonical_text (f :: fs)) = zlen f + foldr (fun g n => 1 + zlen g + n) 0 fs.
Proof.
  unfold canonical_text. revert f. induction fs as [|g fs IH]; intros f; [cbn; lia|].
  change (join x00 (f :: g :: fs)) with (f ++ x00 :: join x00 (g :: fs)).
  rewrite zlen_app. cbn [foldr]. specialize (IH g). unfold zlen in *. cbn [length]. lia.
Qed.

Create HintDb text.
#[export] Hint Resolve no_nul_dec no_nul_debug_opt no_nul_hex no_nul_uuid no_nul_action
  no_nul_resource_kind : text.
#[export] Hint Extern 1 (no_nul (bstr ?s)) => (apply no_nul_check; reflexivity) : text.

(** Split an equality of canonical texts into the equalities of their fields. *)
Ltac text_inj H :=
  apply canonical_text_inj in H;
  [|discriminate|discriminate|repeat constructor; auto with text|repeat constructor; auto with text].
