(* ===== verification/ToyCrypto.v ===== *)
(** A concrete executable instance of the [Crypto] class, with the proof of its
    laws. It is no cryptography: it shows that the assumptions made of the
    third-party code can hold together, and lets theorems be evaluated. *)
From Stdlib Require Import ZArith Lia Strings.Byte String.
From stdpp Require Import base tactics numbers option strings list.
From S2P Require Import Prelude RustStd Core Crypto.

Program Definition fixed (n : nat) (z : Z) : array n := Array (be_encode n z) _.
Next Obligation. intros. rewrite length_be_encode. apply Nat.eqb_refl. Defined.

(** A checksum of forty bits. *)
Definition toy_digest (m : blob) : Z :=
  fold_left (fun h b => Z.land (Z.shiftl h 8 + h + Z_of_byte b) (2 ^ 40 - 1)) m 5381.
Definition toy_hash (m : blob) : array 32 := fixed 32 (toy_digest m).
Definition toy_tag (k n aad m : blob) : blob := be_encode 16 (toy_digest (k ++ n ++ aad ++ m)).

Definition toy_encrypt (k : array 32) (n : array 24) (aad m : blob) : option blob :=
  Some (m ++ toy_tag (arr k) (arr n) aad m).
Definition toy_decrypt (k : array 32) (n : array 24) (aad c : blob) : option blob :=
  let m := take (length c - 16) c in
  if blob_eqb (drop (length c - 16) c) (toy_tag (arr k) (arr n) aad m) then Some m else None.

Definition b64_alphabet : blob :=
  bstr "ABCDEFGHIJKLMNOPQRSTUVWXYZabcdefghijklmnopqrstuvwxyz0123456789-_".
Definition b64_char (v : Z) : byte := default x00 (b64_alphabet !! Z.to_nat v).
Definition b64_value (b : byte) : option Z :=
  (fun p => Z.of_nat p.1) <$> list_find (fun x => x = b) b64_alphabet.

Fixpoint toy_b64_encode (l : blob) : blob :=
  match l with
  | [] => []
  | [a] => let n := Z_of_byte a * 65536 in [b64_char (n / 262144); b64_char (n / 4096 mod 64)]
  | [a; b] => let n := Z_of_byte a * 65536 + Z_of_byte b * 256 in
      [b64_char (n / 262144); b64_char (n / 4096 mod 64); b64_char (n / 64 mod 64)]
  | a :: b :: c :: r =>
      let n := Z_of_byte a * 65536 + Z_of_byte b * 256 + Z_of_byte c in
      b64_char (n / 262144) :: b64_char (n / 4096 mod 64) :: b64_char (n / 64 mod 64)
      :: b64_char (n mod 64) :: toy_b64_encode r
  end.

Fixpoint toy_b64_decode (l : blob) : option blob :=
  match l with
  | [] => Some []
  | [_] => None
  | [p; q] =>
      p ← b64_value p; q ← b64_value q;
      Some [byte_of_Z ((p * 262144 + q * 4096) / 65536)]
  | [p; q; r] =>
      p ← b64_value p; q ← b64_value q; r ← b64_value r;
      Some [byte_of_Z ((p * 262144 + q * 4096 + r * 64) / 65536);
            byte_of_Z ((p * 262144 + q * 4096 + r * 64) / 256)]
  | p :: q :: r :: s :: t =>
      p ← b64_value p; q ← b64_value q; r ← b64_value r; s ← b64_value s;
      rest ← toy_b64_decode t;
      Some (byte_of_Z ((p * 262144 + q * 4096 + r * 64 + s) / 65536)
            :: byte_of_Z ((p * 262144 + q * 4096 + r * 64 + s) / 256)
            :: byte_of_Z (p * 262144 + q * 4096 + r * 64 + s) :: rest)
  end.

Definition hex_alphabet : blob := bstr "0123456789abcdef".
Definition hex_char (v : Z) : byte := default x30 (hex_alphabet !! Z.to_nat v).
Fixpoint toy_hex (l : blob) : blob :=
  match l with
  | [] => []
  | b :: l' => hex_char (Z_of_byte b / 16) :: hex_char (Z_of_byte b mod 16) :: toy_hex l'
  end.
Definition toy_uuid_text (u : Uuid) : blob :=
  let h := toy_hex (arr u) in
  take 8 h ++ [x2d] ++ take 4 (drop 8 h) ++ [x2d] ++ take 4 (drop 12 h) ++ [x2d]
  ++ take 4 (drop 16 h) ++ [x2d] ++ drop 20 h.

Definition toy_crypto : Crypto := {|
  hmac_sha256 := fun k m => toy_hash (k ++ m);
  sha256 := toy_hash;
  aead_encrypt := toy_encrypt;
  aead_decrypt := toy_decrypt;
  getrandom := fun d n => Some (fixed n (Z.of_nat d + 1));
  new_v4 := fun d => fixed 16 (Z.of_nat d + 1);
  b64_encode := toy_b64_encode;
  b64_decode := toy_b64_decode;
  nfc := fun s => s;
  hex_encode := toy_hex;
  uuid_text := toy_uuid_text |}.

Lemma b64_char_checks :
  forallb (fun v => bool_decide (b64_value (b64_char v) = Some v) && negb (Byte.eqb (b64_char v) x2e))
    (Z.of_nat <$> seq 0 64) = true.
Proof. by vm_compute. Qed.

Lemma b64_char_ok v : 0 <= v < 64 -> b64_value (b64_char v) = Some v /\ b64_char v <> x2e.
Proof.
  intros Hv. pose proof b64_char_checks as H. rewrite forallb_forall in H.
  specialize (H v). rewrite andb_true_iff, negb_true_iff, byte_eqb_spec in H.
  rewrite bool_decide_eq_true, bool_decide_eq_false in H. apply H.
  apply list_elem_of_In, list_elem_of_fmap. exists (Z.to_nat v). split; [lia|].
  apply list_elem_of_In, in_seq. lia.
Qed.

Lemma blob_ind3 (P : blob -> Prop) :
  P [] -> (forall a, P [a]) -> (forall a b, P [a; b]) ->
  (forall a b c r, P r -> P (a :: b :: c :: r)) -> forall l, P l.
Proof.
  intros H0 H1 H2 H3 l. enough (forall n l, (length l <= n)%nat -> P l) by eauto.
  clear l. induction n as [|n IH]; intros [|a [|b [|c r]]]; simpl; intros; auto; try lia.
  apply H3, IH. lia.
Qed.

Ltac sextets :=
  repeat match goal with
  | |- context [b64_value (b64_char ?v)] =>
      rewrite (proj1 (b64_char_ok v ltac:(Z.to_euclidean_division_equations; lia)));
      cbn [mbind option_bind]
  end.
Ltac byte_bounds :=
  repeat match goal with a : byte |- _ =>
    lazymatch goal with H : 0 <= Z_of_byte a < 256 |- _ => fail | _ => idtac end;
    pose proof (Z_of_byte_range a) end.
Ltac byte_back :=
  repeat f_equal; apply Z_of_byte_inj; rewrite Z_of_byte_of_Z;
  Z.to_euclidean_division_equations; lia.

Lemma toy_b64_roundtrip l : toy_b64_decode (toy_b64_encode l) = Some l.
Proof.
  induction l as [|a|a b|a b c r IH] using blob_ind3; [done|..];
    cbn [toy_b64_encode toy_b64_decode]; byte_bounds; sextets; try (byte_back).
  rewrite IH. cbn [mbind option_bind]. byte_back.
Qed.

Lemma toy_b64_no_dot l : x2e ∉ toy_b64_encode l.
Proof.
  induction l as [|a|a b|a b c r IH] using blob_ind3;
    cbn [toy_b64_encode]; byte_bounds; rewrite ?not_elem_of_cons;
    repeat split; try done; try apply not_elem_of_nil;
    apply not_eq_sym, b64_char_ok; Z.to_euclidean_division_equations; lia.
Qed.

Lemma toy_b64_length l : zlen (toy_b64_encode l) = (4 * zlen l + 2) / 3.
Proof.
  unfold zlen. induction l as [|a|a b|a b c r IH] using blob_ind3;
    cbn [toy_b64_encode length]; try done.
  revert IH. generalize (length (toy_b64_encode r)). intros. Z.to_euclidean_division_equations; lia.
Qed.

Lemma hex_char_checks :
  forallb (fun v => bool_decide (list_find (fun x => x = hex_char v) hex_alphabet = Some (Z.to_nat v, hex_char v)))
    (Z.of_nat <$> seq 0 16) = true.
Proof. by vm_compute. Qed.

Lemma hex_char_find v : 0 <= v < 16 ->
  list_find (fun x => x = hex_char v) hex_alphabet = Some (Z.to_nat v, hex_char v).
Proof.
  intros Hv. pose proof hex_char_checks as H. rewrite forallb_forall in H.
  specialize (H v). rewrite bool_decide_eq_true in H. apply H.
  apply list_elem_of_In, list_elem_of_fmap. exists (Z.to_nat v). split; [lia|].
  apply list_elem_of_In, in_seq. lia.
Qed.

Lemma hex_char_inj v w : 0 <= v < 16 -> 0 <= w < 16 -> hex_char v = hex_char w -> v = w.
Proof.
  intros Hv Hw E. pose proof (hex_char_find v Hv) as F. rewrite E, (hex_char_find w Hw) in F.
  injection F. lia.
Qed.

Lemma hex_char_elem v : hex_char v ∈ hex_alphabet.
Proof.
  unfold hex_char. destruct (hex_alphabet !! Z.to_nat v) eqn:E; simpl; [by eapply list_elem_of_lookup_2|].
  by left.
Qed.

Lemma toy_hex_digits l : toy_hex l ⊆ hex_alphabet.
Proof.
  intros x. induction l as [|b l IH]; simpl; [by intros ?%elem_of_nil|].
  intros [->|[->|?]%elem_of_cons]%elem_of_cons; eauto using hex_char_elem.
Qed.

Lemma toy_hex_inj l l' : toy_hex l = toy_hex l' -> l = l'.
Proof.
  revert l'. induction l as [|b l IH]; intros [|b' l']; simpl; try done.
  intros [= H1 H2 H3]. f_equal; [|by apply IH].
  pose proof (Z_of_byte_range b). pose proof (Z_of_byte_range b').
  apply hex_char_inj in H1; [|Z.to_euclidean_division_equations; lia..].
  apply hex_char_inj in H2; [|Z.to_euclidean_division_equations; lia..].
  apply Z_of_byte_inj. Z.to_euclidean_division_equations; lia.
Qed.

Lemma length_toy_hex l : length (toy_hex l) = (2 * length l)%nat.
Proof. induction l; simpl; lia. Qed.

Lemma toy_uuid_digits u : toy_uuid_text u ⊆ bstr "0123456789abcdef-".
Proof.
  pose proof (toy_hex_digits (arr u)) as H.
  assert (hex_alphabet ⊆ bstr "0123456789abcdef-") as HS.
  { intros x Hx. apply (elem_of_app hex_alphabet [x2d] x). by left. }
  assert (x2d ∈ bstr "0123456789abcdef-") as HD by (apply (elem_of_app hex_alphabet [x2d]); right; by left).
  intros x. unfold toy_uuid_text. rewrite !elem_of_app, !list_elem_of_singleton.
  assert (forall n m y, y ∈ take n (drop m (toy_hex (arr u))) -> y ∈ toy_hex (arr u)) as HT.
  { intros n m y (i & Hi & _)%elem_of_take. rewrite lookup_drop in Hi. by eapply list_elem_of_lookup_2. }
  assert (forall y, y ∈ drop 20 (toy_hex (arr u)) -> y ∈ toy_hex (arr u)) as HE.
  { intros y [i Hi]%list_elem_of_lookup. rewrite lookup_drop in Hi. by eapply list_elem_of_lookup_2. }
  specialize (HT 8%nat 0%nat) as HT0. rewrite drop_0 in HT0.
  repeat (intros [Hx|Hx]; [|revert Hx]); intros; subst; eauto.
Qed.

Lemma hex_groups (h : blob) :
  h = take 8 h ++ take 4 (drop 8 h) ++ take 4 (drop 12 h) ++ take 4 (drop 16 h) ++ drop 20 h.
Proof.
  assert (forall n, take 4 (drop n h) ++ drop (4 + n) h = drop n h) as H
    by (intros n; rewrite <- (take_drop 4 (drop n h)) at 2; by rewrite drop_drop, Nat.add_comm).
  pose proof (H 16%nat) as H16. pose proof (H 12%nat) as H12. pose proof (H 8%nat) as H8.
  cbn [Nat.add] in H16, H12, H8. by rewrite H16, H12, H8, take_drop.
Qed.

Lemma toy_uuid_inj u u' : toy_uuid_text u = toy_uuid_text u' -> u = u'.
Proof.
  intros E. apply array_eq, toy_hex_inj. unfold toy_uuid_text in E.
  pose proof (length_toy_hex (arr u)) as L. pose proof (length_toy_hex (arr u')) as L'.
  rewrite !array_length in *. revert L L' E. generalize (toy_hex (arr u)), (toy_hex (arr u')).
  intros h h' L L' E.
  repeat (apply app_eq_length in E; [destruct E as [? E]|first [done|rewrite !length_take, ?length_drop; lia]]).
  rewrite (hex_groups h), (hex_groups h'). congruence.
Qed.

Lemma toy_laws : @CryptoLaws toy_crypto.
Proof.
  split.
  - intros k n aad m c [= <-]. cbn [aead_decrypt toy_crypto]. unfold toy_decrypt.
    assert (length (m ++ toy_tag (arr k) (arr n) aad m) - 16 = length m)%nat as ->
      by (rewrite length_app; unfold toy_tag; rewrite length_be_encode; lia).
    rewrite take_app_length, drop_app_length. unfold blob_eqb. by rewrite bool_decide_true.
  - intros k n aad m c [= <-]. rewrite length_app. unfold toy_tag. by rewrite length_be_encode.
  - apply toy_b64_roundtrip.
  - apply toy_b64_no_dot.
  - apply toy_b64_length.
  - apply toy_hex_digits.
  - apply toy_hex_inj.
  - apply toy_uuid_digits.
  - apply toy_uuid_inj.
  - apply length_toy_hex.
  - intros u. cbn [uuid_text toy_crypto]. unfold toy_uuid_text. pose proof (length_toy_hex (arr u)) as L.
    rewrite array_length in L. rewrite !length_app, !length_take, !length_drop. cbn [length]. lia.
Qed.

(** * Fixtures for evaluation *)

Definition uid (z : Z) : Uuid := fixed 16 z.
Definition toy_key : KeyMaterial := fixed 32 7.
