(* ===== verification/Sql.v ===== *)
(** The fragment of SQL the storage crate uses, over tables kept as lists of
    rows in rowid order. A fresh row takes the largest rowid plus one, as
    SQLite assigns it to a table without AUTOINCREMENT, so insertion appends.

    A [schema] holds the CHECK constraints, the UNIQUE indexes and the BEFORE
    UPDATE trigger of a table. [sql_insert], [sql_insert_or_ignore],
    [sql_update] and [sql_delete] are the statements; SELECT is [select] with
    [order_by] and [limit]. *)
From Stdlib Require Import ZArith Lia.
From stdpp Require Import base tactics numbers option strings list sorting.
From S2P Require Import Prelude RustStd.

Record rowed (A : Type) : Type := Rowed { rid : Z; row : A }.
Arguments Rowed {A} rid row.
Arguments rid {A} r.
Arguments row {A} r.

Abbreviation table A := (list (rowed A)).

(** A column value in an index. *)
Inductive sqlval : Type := VInt (z : Z) | VText (s : string) | VBlob (b : blob).

#[export] Instance sqlval_eq_decision : EqDecision sqlval.
Proof. solve_decision. Defined.

(** An entry of a UNIQUE index: [None] when a column is NULL or a partial
    index leaves the row out, since such rows never clash. *)
Abbreviation index_entry := (option (list sqlval)).

Record schema (A : Type) : Type := Schema {
  sc_check : A -> bool;
  sc_keys : A -> list index_entry;
  sc_update_raises : A -> A -> bool }.
Arguments Schema {A} _ _ _.
Arguments sc_check {A} _ _.
Arguments sc_keys {A} _ _.
Arguments sc_update_raises {A} _ _ _.

Definition entry_clash (x y : index_entry) : bool :=
  match x, y with Some k, Some k' => bool_decide (k = k') | _, _ => false end.

(** SQL's length(text): the number of characters. *)
Definition text_length (s : string) : Z :=
  zlen (List.filter (fun b => negb (cont (Z_of_byte b) 128 191)) (bstr s)).

Definition between (lo hi z : Z) : bool := (lo <=? z) && (z <=? hi).
Definition blob_len (n : Z) (b : blob) : bool := zlen b =? n.
Definition opt_check {A} (p : A -> bool) (o : option A) : bool :=
  match o with None => true | Some a => p a end.
Definition text_in (l : list string) (s : string) : bool := bool_decide (s ∈ l).

Section Sql.
Context {A : Type}.

Definition max_rowid (t : table A) : Z := foldr (fun r m => Z.max (rid r) m) 0 t.

Definition insert_row (a : A) (t : table A) : table A := t ++ [Rowed (max_rowid t + 1) a].

Definition rows (t : table A) : list A := row <$> t.

(** SELECT * WHERE p, in rowid order. *)
Definition select (p : A -> bool) (t : table A) : list A := List.filter p (rows t).

(** The first row of a query, if any: [query_row(..).optional()]. *)
Definition select_one (p : A -> bool) (t : table A) : option A := head (select p t).

(** SELECT count STAR WHERE p *)
Definition count (p : A -> bool) (t : table A) : Z := zlen (select p t).

(** The rows [q] selects, changed by [f]; [update_rows] selects by content. *)
Definition update_at (q : rowed A -> bool) (f : A -> A) (t : table A) : table A :=
  (fun r => if q r then Rowed (rid r) (f (row r)) else r) <$> t.
Definition update_rows (p : A -> bool) (f : A -> A) (t : table A) : table A :=
  update_at (fun r => p (row r)) f t.

Definition clash (sc : schema A) (a b : A) : bool :=
  existsb (fun xy => entry_clash xy.1 xy.2) (zip (sc_keys sc a) (sc_keys sc b)).

(** INSERT: [None] when a constraint fails and the statement aborts. *)
Definition sql_insert (sc : schema A) (a : A) (t : table A) : option (table A) :=
  if sc_check sc a && negb (existsb (clash sc a) (rows t)) then Some (insert_row a t) else None.

(** INSERT OR IGNORE: the number of rows inserted. *)
Definition sql_insert_or_ignore (sc : schema A) (a : A) (t : table A) : Z * table A :=
  match sql_insert sc a t with Some t' => (1, t') | None => (0, t) end.

(** UPDATE SET f WHERE p, row by row: the trigger, the CHECK constraints, then
    the UNIQUE indexes against the other rows. *)
Fixpoint update_from (sc : schema A) (q : rowed A -> bool) (f : A -> A) (done t : table A)
  : option (table A) :=
  match t with
  | [] => Some done
  | r :: t' =>
      if q r then
        let a := f (row r) in
        if sc_update_raises sc (row r) a || negb (sc_check sc a)
           || existsb (clash sc a) (rows (done ++ t'))
        then None
        else update_from sc q f (done ++ [Rowed (rid r) a]) t'
      else update_from sc q f (done ++ [r]) t'
  end.

(** The number of rows changed, and the new table. *)
Definition sql_update (sc : schema A) (p : A -> bool) (f : A -> A) (t : table A)
  : option (Z * table A) :=
  pair (count p t) <$> update_from sc (fun r => p (row r)) f [] t.

(** UPDATE SET f WHERE rowid = id AND p *)
Definition at_rowid (id : Z) (p : A -> bool) (r : rowed A) : bool := (rid r =? id) && p (row r).
Definition sql_update_rowid (sc : schema A) (id : Z) (p : A -> bool) (f : A -> A) (t : table A)
  : option (Z * table A) :=
  pair (zlen (List.filter (at_rowid id p) t)) <$> update_from sc (at_rowid id p) f [] t.

(** DELETE WHERE p *)
Definition sql_delete (p : A -> bool) (t : table A) : table A :=
  List.filter (fun r => negb (p (row r))) t.

(** ORDER BY: stable insertion sort on a boolean order. *)
Fixpoint sort_insert (le : A -> A -> bool) (a : A) (l : list A) : list A :=
  match l with
  | [] => [a]
  | b :: l' => if le a b then a :: b :: l' else b :: sort_insert le a l'
  end.
Definition order_by (le : A -> A -> bool) (l : list A) : list A := foldr (sort_insert le) [] l.

(** LIMIT n *)
Definition limit (n : Z) (l : list A) : list A := take (Z.to_nat n) l.

(** * The invariant every statement keeps *)

Definition no_clash (sc : schema A) (a b : A) : Prop := clash sc a b = false.

Record table_ok (sc : schema A) (t : table A) : Prop := {
  ok_check : Forall (fun a => sc_check sc a = true) (rows t);
  ok_unique : ForallOrdPairs (no_clash sc) (rows t);
  ok_rids : StronglySorted Z.lt (rid <$> t) }.

(** * Lemmas *)

Lemma rows_app t t' : rows (t ++ t') = rows t ++ rows t'.
Proof. apply fmap_app. Qed.

Lemma rows_insert a t : rows (insert_row a t) = rows t ++ [a].
Proof. apply rows_app. Qed.

Lemma rows_update p f t : rows (update_rows p f t) = (fun a => if p a then f a else a) <$> rows t.
Proof.
  unfold rows, update_rows, update_at. rewrite <- !list_fmap_compose. apply list_fmap_ext.
  intros i r _. simpl. by destruct (p (row r)).
Qed.

Lemma elem_of_rows_update_at q f t a :
  a ∈ rows (update_at q f t) <-> exists r, r ∈ t /\ a = if q r then f (row r) else row r.
Proof.
  unfold rows, update_at. rewrite <- list_fmap_compose, list_elem_of_fmap. simpl.
  split; intros (r & H1 & H2); exists r; split; try done; by destruct (q r).
Qed.

Lemma rows_delete p t : rows (sql_delete p t) = List.filter (fun a => negb (p a)) (rows t).
Proof.
  unfold rows, sql_delete. induction t as [|r t IH]; [done|]. rewrite fmap_cons. cbn [List.filter].
  destruct (negb (p (row r))); [rewrite fmap_cons; by f_equal | done].
Qed.

Lemma elem_of_rows_update p f t a :
  a ∈ rows (update_rows p f t) <-> exists b, b ∈ rows t /\ a = if p b then f b else b.
Proof. rewrite rows_update, list_elem_of_fmap. naive_solver. Qed.

Lemma elem_of_rows_delete p t a : a ∈ rows (sql_delete p t) <-> a ∈ rows t /\ p a = false.
Proof.
  rewrite rows_delete, !list_elem_of_In, filter_In, negb_true_iff. done.
Qed.

Lemma elem_of_rows_insert a b t : b ∈ rows (insert_row a t) <-> b ∈ rows t \/ b = a.
Proof. rewrite rows_insert, elem_of_app, list_elem_of_singleton. done. Qed.

Lemma elem_of_select p t a : a ∈ select p t <-> a ∈ rows t /\ p a = true.
Proof. unfold select. by rewrite !list_elem_of_In, filter_In. Qed.

Lemma select_one_Some p t a : select_one p t = Some a -> a ∈ rows t /\ p a = true.
Proof.
  unfold select_one. intros H. apply elem_of_select.
  destruct (select p t); simplify_eq/=. left.
Qed.

Lemma select_nil p t : select p t = [] <-> forall a, a ∈ rows t -> p a = false.
Proof.
  split.
  - intros H a Ha. destruct (p a) eqn:E; [|done].
    assert (a ∈ select p t) as Hs by by apply elem_of_select.
    rewrite H in Hs. by apply not_elem_of_nil in Hs.
  - intros H. destruct (select p t) as [|a l] eqn:E; [done|].
    assert (a ∈ select p t) as Hs by (rewrite E; left).
    apply elem_of_select in Hs as [Ha Hp]. by rewrite H in Hp.
Qed.

Lemma select_one_None p t : select_one p t = None <-> forall a, a ∈ rows t -> p a = false.
Proof. rewrite <- select_nil. unfold select_one. destruct (select p t); simpl; split; done. Qed.

Lemma count_nonneg p t : 0 <= count p t.
Proof. apply zlen_nonneg. Qed.

Lemma count_0 p t : count p t = 0 <-> forall a, a ∈ rows t -> p a = false.
Proof. rewrite <- select_nil. apply zlen_0. Qed.

Lemma count_pos p t : count p t <> 0 -> exists a, a ∈ rows t /\ p a = true.
Proof.
  unfold count, zlen. destruct (select p t) as [|a l] eqn:E; [done|].
  intros _. exists a. apply elem_of_select. rewrite E. left.
Qed.

Lemma select_insert p a t : select p (insert_row a t) = select p t ++ if p a then [a] else [].
Proof. unfold select. rewrite rows_insert, List.filter_app. simpl. by destruct (p a). Qed.

Lemma select_update_out p q f t :
  (forall a, a ∈ rows t -> p a = true -> q (f a) = q a) ->
  (forall a, a ∈ rows t -> p a = true -> q a = false) ->
  select q (update_rows p f t) = select q t.
Proof.
  intros Hq Hd. unfold select. rewrite rows_update. revert Hq Hd.
  induction (rows t) as [|b l IH]; intros Hq Hd; [done|]. rewrite fmap_cons. cbn [List.filter].
  rewrite IH by (intros; (apply Hq || apply Hd); [by right|done]).
  destruct (p b) eqn:E; [|done]. rewrite (Hq b), (Hd b) by (done || left). done.
Qed.

Lemma map_update {K} (key : A -> K) p f t :
  (forall a, a ∈ rows t -> p a = true -> key (f a) = key a) ->
  key <$> rows (update_rows p f t) = key <$> rows t.
Proof.
  intros H. rewrite rows_update, <- list_fmap_compose. apply list_fmap_ext.
  intros i a Ha%list_elem_of_lookup_2. simpl. destruct (p a) eqn:E; auto.
Qed.

Lemma entry_clash_sym x y : entry_clash x y = entry_clash y x.
Proof. destruct x, y; simpl; try done. by apply bool_decide_ext. Qed.

Lemma clash_sym sc a b : clash sc a b = clash sc b a.
Proof.
  unfold clash. generalize (sc_keys sc a), (sc_keys sc b).
  induction l as [|x l IH]; intros [|y l']; simpl; [done..|]. by rewrite entry_clash_sym, IH.
Qed.

Lemma clash_at sc a b i k :
  sc_keys sc a !! i = Some (Some k) -> sc_keys sc b !! i = Some (Some k) -> clash sc a b = true.
Proof.
  intros Ha Hb. apply existsb_exists. exists (Some k, Some k). split.
  - apply list_elem_of_In, list_elem_of_lookup. exists i. apply lookup_zip_Some. done.
  - simpl. by apply bool_decide_eq_true.
Qed.

Lemma pairs_elem (R : A -> A -> Prop) l a b :
  ForallOrdPairs R l -> a ∈ l -> b ∈ l -> a = b \/ R a b \/ R b a.
Proof.
  rewrite !list_elem_of_In. intros H Ha Hb.
  destruct (ForallOrdPairs_In H a b Ha Hb) as [?|[?|?]]; auto.
Qed.

(** Rows of a table that agree on a key are the same row. *)
Lemma unique_row sc t a b :
  table_ok sc t -> a ∈ rows t -> b ∈ rows t -> clash sc a b = true -> a = b.
Proof.
  intros H Ha Hb Hc. destruct (pairs_elem _ _ a b (ok_unique _ _ H) Ha Hb) as [?|[E|E]]; [done|..];
    unfold no_clash in E; [|rewrite clash_sym in E]; congruence.
Qed.

Lemma pairs_filter_single sc (p : A -> bool) l :
  ForallOrdPairs (no_clash sc) l ->
  (forall a b, a ∈ l -> b ∈ l -> p a = true -> p b = true -> clash sc a b = true) ->
  (length (List.filter p l) <= 1)%nat.
Proof.
  induction 1 as [|a l Ha Hl IH]; intros Hp; simpl; [lia|].
  assert (length (List.filter p l) <= 1)%nat by (apply IH; intros; apply Hp; by try right).
  destruct (p a) eqn:E; [|done]. simpl. destruct (List.filter p l) as [|b l'] eqn:El; [done|].
  assert (In b (List.filter p l)) as [Hb Hpb]%filter_In by (rewrite El; by left).
  rewrite Forall_forall in Ha. apply list_elem_of_In in Hb. specialize (Ha b Hb).
  unfold no_clash in Ha. rewrite Hp in Ha; [done|left|by right|done|done].
Qed.

(** A WHERE condition that fixes a key selects at most one row. *)
Lemma select_unique sc p t a :
  table_ok sc t -> (forall a b, a ∈ rows t -> b ∈ rows t -> p a = true -> p b = true -> clash sc a b = true) ->
  a ∈ rows t -> p a = true -> select p t = [a].
Proof.
  intros H Hp Ha Hpa. pose proof (pairs_filter_single sc p _ (ok_unique _ _ H) Hp) as Hl.
  assert (a ∈ select p t) as Hs by by apply elem_of_select.
  unfold select in *. destruct (List.filter p (rows t)) as [|b [|]]; simpl in *; [by apply not_elem_of_nil in Hs| |lia].
  apply list_elem_of_singleton in Hs. by subst.
Qed.

Lemma max_rowid_ge t r : r ∈ t -> rid r <= max_rowid t.
Proof.
  induction t as [|x t IH]; [by intros ?%not_elem_of_nil|]. simpl.
  intros [->|H]%elem_of_cons; [lia|]. specialize (IH H). lia.
Qed.

Lemma sorted_snoc (l : list Z) z :
  StronglySorted Z.lt l -> (forall x, x ∈ l -> x < z) -> StronglySorted Z.lt (l ++ [z]).
Proof.
  induction 1 as [|a l Hl IH Ha]; intros Hz; simpl; [repeat constructor|].
  constructor; [apply IH; intros; apply Hz; by right|].
  apply Forall_app. split; [done|]. constructor; [apply Hz; left|constructor].
Qed.

Lemma pairs_snoc (R : A -> A -> Prop) l a :
  ForallOrdPairs R l -> Forall (fun b => R b a) l -> ForallOrdPairs R (l ++ [a]).
Proof.
  induction 1 as [|b l Hb Hl IH]; intros HF; simpl; [repeat constructor|].
  inversion HF; subst. constructor; [|by apply IH]. apply Forall_app. split; [done|by constructor].
Qed.

Lemma sql_insert_Some sc a t t' :
  sql_insert sc a t = Some t' ->
  t' = insert_row a t /\ sc_check sc a = true /\ forall b, b ∈ rows t -> clash sc a b = false.
Proof.
  unfold sql_insert. case_match eqn:E; [|done]. intros [= <-].
  apply andb_true_iff in E as [? E]. split; [done|]. split; [done|].
  intros b Hb. apply negb_true_iff in E. destruct (clash sc a b) eqn:Ec; [|done].
  rewrite (proj2 (existsb_exists _ _)) in E; [done|]. exists b. by rewrite <- list_elem_of_In.
Qed.

Lemma sql_insert_None sc a t :
  sql_insert sc a t = None <-> sc_check sc a = false \/ exists b, b ∈ rows t /\ clash sc a b = true.
Proof.
  unfold sql_insert. destruct (sc_check sc a); simpl; [|split; auto].
  destruct (existsb (clash sc a) (rows t)) eqn:E; simpl; split; try done.
  - intros _. right. apply existsb_exists in E as (b & Hb & Hc). exists b. by rewrite list_elem_of_In.
  - intros [?|(b & Hb & Hc)]; [done|]. assert (existsb (clash sc a) (rows t) = true); [|congruence].
    apply existsb_exists. exists b. by rewrite <- list_elem_of_In.
Qed.

Lemma sql_insert_or_ignore_1 sc a t t' :
  sql_insert_or_ignore sc a t = (1, t') <-> sql_insert sc a t = Some t'.
Proof. unfold sql_insert_or_ignore. destruct (sql_insert sc a t); naive_solver. Qed.

Lemma sql_insert_ok sc a t t' : sql_insert sc a t = Some t' -> table_ok sc t -> table_ok sc t'.
Proof.
  intros (-> & Hc & Hu)%sql_insert_Some [H1 H2 H3]. split.
  - rewrite rows_insert. apply Forall_app. split; [done|by constructor].
  - rewrite rows_insert. apply pairs_snoc; [done|]. apply Forall_forall. intros b Hb.
    unfold no_clash. rewrite clash_sym. auto.
  - unfold insert_row. rewrite fmap_app. apply sorted_snoc; [done|].
    intros x (r & -> & Hr)%list_elem_of_fmap. simpl. pose proof (max_rowid_ge _ _ Hr). lia.
Qed.

Lemma update_from_spec sc q f d t t' :
  update_from sc q f d t = Some t' ->
  t' = d ++ update_at q f t
  /\ (forall r, r ∈ t -> q r = true ->
       sc_update_raises sc (row r) (f (row r)) = false /\ sc_check sc (f (row r)) = true)
  /\ (ForallOrdPairs (no_clash sc) (rows (d ++ t)) -> ForallOrdPairs (no_clash sc) (rows t')).
Proof.
  revert d. induction t as [|r t IH]; intros d; cbn [update_from].
  { intros [= <-]. change (update_at q f []) with (@nil (rowed A)). rewrite !app_nil_r. split; [done|].
    split; [by intros ? ?%not_elem_of_nil|]. done. }
  unfold update_at. rewrite fmap_cons. fold (update_at q f t). destruct (q r) eqn:Ep.
  - case_match eqn:E; [done|]. intros H. apply IH in H as (-> & Hc & Hu).
    rewrite !orb_false_iff, negb_false_iff in E. destruct E as [[Er Ec] Ex].
    split; [by rewrite <- app_assoc|]. split.
    + intros a Ha Hp. apply elem_of_cons in Ha as [->|Ha]; auto.
    + intros HP. apply Hu. revert HP. rewrite !rows_app, <- app_assoc. cbn [app rows fmap list_fmap row].
      fold (rows t). assert (Forall (fun b => clash sc (f (row r)) b = false) (rows d ++ rows t)) as HF.
      { rewrite rows_app in Ex. apply Forall_forall. intros b Hb.
        destruct (clash sc (f (row r)) b) eqn:Eb; [|done].
        rewrite (proj2 (existsb_exists _ _)) in Ex; [done|]. exists b. by rewrite <- list_elem_of_In. }
      clear -HF. revert HF. generalize (rows d), (rows t). intros l l' HF. induction l as [|b l IH]; simpl.
      * simpl in HF. inversion 1; subst. by constructor.
      * inversion 1 as [|?? Hb Hl]; subst. inversion HF; subst. constructor; [|auto].
        apply Forall_app in Hb as [Hb1 Hb2]. inversion Hb2; subst. apply Forall_app. split; [done|].
        constructor; [|done]. unfold no_clash. by rewrite clash_sym.
  - intros H. apply IH in H as (-> & Hc & Hu). split; [by rewrite <- app_assoc|]. split.
    + intros a Ha Hp. apply elem_of_cons in Ha as [->|Ha]; [congruence|auto].
    + intros HP. apply Hu. by rewrite <- app_assoc.
Qed.

Lemma rids_update_at q f t : rid <$> update_at q f t = rid <$> t.
Proof.
  unfold update_at. rewrite <- list_fmap_compose. apply list_fmap_ext.
  intros i r _. simpl. by destruct (q r).
Qed.

Lemma rids_update p f t : rid <$> update_rows p f t = rid <$> t.
Proof. apply rids_update_at. Qed.

Lemma update_from_ok sc q f t t' :
  update_from sc q f [] t = Some t' -> table_ok sc t -> table_ok sc t'.
Proof.
  intros (-> & Hc & Hu)%update_from_spec [H1 H2 H3]. cbn [app] in *. split.
  - apply Forall_forall. intros a (r & Hr & ->)%elem_of_rows_update_at.
    destruct (q r) eqn:E; [by apply Hc|]. rewrite Forall_forall in H1.
    apply H1. by apply list_elem_of_fmap_2.
  - auto.
  - by rewrite rids_update_at.
Qed.

Lemma sql_update_Some sc p f t n t' :
  sql_update sc p f t = Some (n, t') ->
  n = count p t /\ t' = update_rows p f t
  /\ forall a, a ∈ rows t -> p a = true -> sc_update_raises sc a (f a) = false /\ sc_check sc (f a) = true.
Proof.
  unfold sql_update. intros (t0 & Ht & [= -> ->])%fmap_Some.
  apply update_from_spec in Ht as (-> & Hc & _). split; [done|]. split; [done|].
  intros a (r & -> & Hr)%list_elem_of_fmap. by apply Hc.
Qed.

Lemma sql_update_ok sc p f t n t' : sql_update sc p f t = Some (n, t') -> table_ok sc t -> table_ok sc t'.
Proof. unfold sql_update. intros (t0 & Ht & [= -> ->])%fmap_Some. by eapply update_from_ok. Qed.

Lemma sql_update_rowid_Some sc id p f t n t' :
  sql_update_rowid sc id p f t = Some (n, t') ->
  n = zlen (List.filter (at_rowid id p) t) /\ t' = update_at (at_rowid id p) f t.
Proof.
  unfold sql_update_rowid. intros (t0 & Ht & [= -> ->])%fmap_Some.
  by apply update_from_spec in Ht as (-> & _).
Qed.

Lemma sql_update_rowid_ok sc id p f t n t' :
  sql_update_rowid sc id p f t = Some (n, t') -> table_ok sc t -> table_ok sc t'.
Proof. unfold sql_update_rowid. intros (t0 & Ht & [= -> ->])%fmap_Some. by eapply update_from_ok. Qed.

(** A statement that changes no column of an index or a constraint succeeds. *)
Lemma update_from_total sc q f t d :
  ForallOrdPairs (no_clash sc) (rows (d ++ t)) -> (forall r, r ∈ t -> q r = true ->
    sc_update_raises sc (row r) (f (row r)) = false /\ sc_check sc (f (row r)) = true
    /\ sc_keys sc (f (row r)) = sc_keys sc (row r)) ->
  update_from sc q f d t = Some (d ++ update_at q f t).
Proof.
  revert d. induction t as [|r t IH]; intros d Hd Hp; cbn [update_from].
  { by rewrite app_nil_r. }
  unfold update_at. rewrite fmap_cons. fold (update_at q f t).
  assert (forall b, b ∈ rows d \/ b ∈ rows t -> clash sc (row r) b = false) as Hclash.
  { revert Hd. rewrite rows_app. cbn [rows fmap list_fmap]. fold (rows t). clear.
    induction (rows d) as [|c l IHl]; simpl; inversion 1 as [|?? Hc Hl]; subst; intros b Hb.
    - destruct Hb as [?%not_elem_of_nil|Hb]; [done|]. rewrite Forall_forall in Hc. by apply Hc.
    - rewrite elem_of_cons in Hb. destruct Hb as [[->|Hb]|Hb]; [|by apply IHl; auto|by apply IHl; auto].
      rewrite clash_sym. rewrite Forall_forall in Hc. apply Hc. apply elem_of_app. right. left. }
  destruct (q r) eqn:Ep.
  - destruct (Hp r) as (-> & -> & Hk); [left|done|].
    assert (forall b, clash sc (f (row r)) b = clash sc (row r) b) as Hcl
      by (intros b; unfold clash; by rewrite Hk).
    replace (existsb _ _) with false.
    + cbn [orb negb]. rewrite IH, <- app_assoc; [done| |by intros; apply Hp; [right|]].
      revert Hd. rewrite !rows_app. rewrite <- app_assoc. cbn [app rows fmap list_fmap row]. fold (rows t).
      clear -Hcl. induction (rows d) as [|c l IHl]; simpl; inversion 1 as [|?? Hc Hl]; subst.
      * constructor; [|done]. eapply Forall_impl; [exact Hc|]. intros b. unfold no_clash. by rewrite Hcl.
      * constructor; [|auto]. apply Forall_app in Hc as [? Hc]. inversion Hc; subst.
        apply Forall_app. split; [done|]. constructor; [|done]. unfold no_clash. by rewrite clash_sym, Hcl, clash_sym.
    + symmetry. apply not_true_iff_false. intros (b & Hb & Hc)%existsb_exists.
      rewrite Hcl, Hclash in Hc; [done|]. rewrite rows_app in Hb. by apply list_elem_of_In, elem_of_app in Hb.
  - rewrite IH, <- app_assoc; [done| |by intros; apply Hp; [right|]]. by rewrite <- app_assoc.
Qed.

Lemma sql_update_total sc p f t :
  table_ok sc t -> (forall a, a ∈ rows t -> p a = true ->
    sc_update_raises sc a (f a) = false /\ sc_check sc (f a) = true /\ sc_keys sc (f a) = sc_keys sc a) ->
  sql_update sc p f t = Some (count p t, update_rows p f t).
Proof.
  intros [_ Hu _] Hp. unfold sql_update. rewrite (update_from_total _ _ _ _ []); [done|done|].
  intros r Hr. apply Hp. by apply list_elem_of_fmap_2.
Qed.

Lemma sql_update_rowid_total sc id p f t :
  table_ok sc t -> (forall a, a ∈ rows t -> p a = true ->
    sc_update_raises sc a (f a) = false /\ sc_check sc (f a) = true /\ sc_keys sc (f a) = sc_keys sc a) ->
  sql_update_rowid sc id p f t
  = Some (zlen (List.filter (at_rowid id p) t), update_at (at_rowid id p) f t).
Proof.
  intros [_ Hu _] Hp. unfold sql_update_rowid. rewrite (update_from_total _ _ _ _ []); [done|done|].
  intros r Hr Hq. apply Hp; [by apply list_elem_of_fmap_2|]. by apply andb_true_iff in Hq as [_ ?].
Qed.

Lemma sql_delete_ok sc p t : table_ok sc t -> table_ok sc (sql_delete p t).
Proof.
  intros [H1 H2 H3]. split.
  - apply Forall_forall. intros a [Ha _]%elem_of_rows_delete. rewrite Forall_forall in H1. auto.
  - rewrite rows_delete. clear -H2. induction H2 as [|a l Ha Hl IH]; simpl; [constructor|].
    case_match; [|done]. constructor; [|done]. apply Forall_forall. intros b Hb%list_elem_of_In.
    apply filter_In in Hb as [Hb%list_elem_of_In _]. rewrite Forall_forall in Ha. auto.
  - clear -H3. unfold sql_delete. induction t as [|r t IH]; cbn [List.filter]; [constructor|].
    rewrite fmap_cons in H3. inversion H3 as [|?? Hs HF]; subst. case_match; [|auto].
    rewrite fmap_cons. constructor; [auto|]. apply Forall_forall. intros x (y & -> & Hy)%list_elem_of_fmap.
    apply list_elem_of_In, filter_In in Hy as [Hy%list_elem_of_In _]. rewrite Forall_forall in HF.
    apply HF. by apply list_elem_of_fmap_2.
Qed.

Lemma table_ok_nil sc : table_ok sc [].
Proof. split; constructor. Qed.

Lemma table_ok_check sc t a : table_ok sc t -> a ∈ rows t -> sc_check sc a = true.
Proof. intros [H _ _] Ha. rewrite Forall_forall in H. auto. Qed.

Lemma sort_insert_perm le a l : sort_insert le a l ≡ₚ a :: l.
Proof.
  induction l as [|b l IH]; simpl; [done|]. destruct (le a b); [done|].
  by rewrite IH, Permutation_swap.
Qed.

Lemma order_by_perm le l : order_by le l ≡ₚ l.
Proof. induction l as [|a l IH]; simpl; [done|]. by rewrite sort_insert_perm, IH. Qed.

Lemma order_by_sorted le l :
  (forall a b, le a b = false -> le b a = true) ->
  (forall a b c, le a b = true -> le b c = true -> le a c = true) ->
  StronglySorted (fun a b => le a b = true) (order_by le l).
Proof.
  intros Htot Htrans. induction l as [|a l IH]; simpl; [constructor|].
  revert IH. generalize (order_by le l). clear l. intros l. induction 1 as [|b l Hl IH Hb]; simpl; [repeat constructor|].
  destruct (le a b) eqn:E.
  - constructor; [by constructor|]. constructor; [done|]. eapply Forall_impl; [exact Hb|]. simpl. eauto.
  - constructor; [done|]. rewrite sort_insert_perm. constructor; auto.
Qed.

Lemma elem_of_limit n l a : a ∈ limit n l -> a ∈ l.
Proof. intros (i & Hi & _)%elem_of_take. by eapply list_elem_of_lookup_2. Qed.

Lemma length_limit n l : 0 <= n -> zlen (limit n l) <= n.
Proof. intros. unfold limit, zlen. rewrite length_take. lia. Qed.

End Sql.

#[global] Arguments sql_delete : simpl never.
#[global] Arguments update_rows : simpl never.
#[global] Arguments update_at : simpl never.
#[global] Arguments insert_row : simpl never.
#[global] Arguments rows : simpl never.
#[global] Arguments select : simpl never.
#[global] Arguments select_one : simpl never.
#[global] Arguments count : simpl never.
#[global] Arguments sql_insert : simpl never.
#[global] Arguments sql_insert_or_ignore : simpl never.
#[global] Arguments sql_update : simpl never.
#[global] Arguments sql_update_rowid : simpl never.
