(* ===== verification/Schema.v ===== *)
(** The database of crate smcv-storage: one record per table, its CHECK
    constraints, UNIQUE indexes and BEFORE UPDATE triggers as a [schema], taken
    from the migrations of src/crates/smcv-storage/src/lib.rs, and the whole
    database as the record [Db].

    BLOB columns are byte lists of any length, TEXT columns are strings and
    INTEGER columns integers, so that the widths the code relies on come from
    the constraints and from the parsers, not from the types. Foreign keys are
    checked by the operations that can break them. *)
From Stdlib Require Import ZArith Lia String.
From stdpp Require Import base tactics numbers option strings list.
From S2P Require Import Prelude RustStd Sql.

(** [StorageError] of src/crates/smcv-storage/src/lib.rs; the payload of
    [Sqlite] is never inspected. *)
Inductive StorageError : Type :=
| Sqlite | Poisoned | DestinationExists | MigrationMismatch | StateConflict
| NotInitialized | InvalidData | UnsafePath | Conflict.

#[export] Instance StorageError_eq_decision : EqDecision StorageError.
Proof. solve_decision. Defined.

Definition no_trigger {A} (_ _ : A) : bool := false.
Definition key1 (v : sqlval) : index_entry := Some [v].
Definition key_if (cond : bool) (k : list sqlval) : index_entry := if cond then Some k else None.

(** ** Installation and keys *)

Record InstallationRow : Type := {
  inst_logical_vault_id : blob;
  inst_installation_id : blob;
  inst_recovery_epoch : Z;
  inst_initialized_at : Z;
  inst_activation_state : string;
  inst_active_kek_version : option Z;
  inst_security_semantics_version : Z }.

Definition installation_check (r : InstallationRow) : bool :=
  blob_len 16 (inst_logical_vault_id r) && blob_len 16 (inst_installation_id r)
  && (0 <=? inst_recovery_epoch r)
  && text_in ["initializing"; "ready"; "maintenance"; "failed"] (inst_activation_state r)
  && opt_check (fun v => 0 <? v) (inst_active_kek_version r)
  && (inst_security_semantics_version r =? 1).

Record KeyRow : Type := {
  key_kind : string;
  key_version : Z;
  key_object_id : blob;
  key_wrapping_kek_version : option Z;
  key_nonce : blob;
  key_wrapped_key : blob;
  key_state : string;
  key_created_at : Z }.

Definition keys_schema : schema KeyRow := Schema
  (fun r => text_in ["kek"; "blind_index"; "audit"; "token_verifier"] (key_kind r)
            && (0 <? key_version r) && blob_len 16 (key_object_id r)
            && opt_check (fun v => 0 <? v) (key_wrapping_kek_version r)
            && blob_len 24 (key_nonce r) && blob_len 48 (key_wrapped_key r)
            && text_in ["active"; "retiring"; "retired"] (key_state r))
  (fun r => [Some [VText (key_kind r); VInt (key_version r)];
             key_if (bool_decide (key_state r = "active")) [VText (key_kind r)]])
  no_trigger.

(** ** Namespaces, secrets and versions *)

Record NamespaceRow : Type := {
  ns_namespace_id : blob;
  ns_parent_namespace_id : option blob;
  ns_name_index : blob;
  ns_metadata_version : Z;
  ns_metadata_nonce : blob;
  ns_metadata_ciphertext : blob;
  ns_dek_nonce : blob;
  ns_wrapped_dek : blob;
  ns_kek_version : Z;
  ns_lifecycle_state : string;
  ns_revision : Z;
  ns_state_commitment : blob;
  ns_created_at : Z;
  ns_updated_at : Z }.

Definition metadata_bounds (b : blob) : bool := between 16 1048592 (zlen b).

Definition namespaces_schema : schema NamespaceRow := Schema
  (fun r => blob_len 16 (ns_namespace_id r) && blob_len 32 (ns_name_index r)
            && (0 <? ns_metadata_version r) && blob_len 24 (ns_metadata_nonce r)
            && metadata_bounds (ns_metadata_ciphertext r) && blob_len 24 (ns_dek_nonce r)
            && blob_len 48 (ns_wrapped_dek r) && (0 <? ns_kek_version r)
            && text_in ["active"; "archived"; "deleted"] (ns_lifecycle_state r)
            && (0 <? ns_revision r) && blob_len 32 (ns_state_commitment r))
  (fun r => [key1 (VBlob (ns_namespace_id r));
             (fun p => [VBlob p; VBlob (ns_name_index r)]) <$> ns_parent_namespace_id r;
             key_if (bool_decide (ns_parent_namespace_id r = None)) [VBlob (ns_name_index r)]])
  no_trigger.

Record SecretRow : Type := {
  sec_secret_id : blob;
  sec_namespace_id : blob;
  sec_name_index : blob;
  sec_metadata_version : Z;
  sec_metadata_nonce : blob;
  sec_metadata_ciphertext : blob;
  sec_metadata_dek_nonce : blob;
  sec_metadata_wrapped_dek : blob;
  sec_metadata_kek_version : Z;
  sec_lifecycle_state : string;
  sec_current_version : Z;
  sec_revision : Z;
  sec_state_commitment : blob;
  sec_created_at : Z;
  sec_updated_at : Z;
  sec_deleted_at : option Z }.

(** Trigger smcv_secrets_monotonic_versions. *)
Definition secrets_monotonic_versions (o n : SecretRow) : bool :=
  (sec_current_version n <? sec_current_version o)
  || (sec_metadata_version n <? sec_metadata_version o)
  || ((sec_revision n <=? sec_revision o)
      && (negb (blob_eqb (sec_namespace_id n) (sec_namespace_id o))
          || negb (blob_eqb (sec_name_index n) (sec_name_index o))
          || negb (sec_metadata_version n =? sec_metadata_version o)
          || negb (blob_eqb (sec_metadata_nonce n) (sec_metadata_nonce o))
          || negb (blob_eqb (sec_metadata_ciphertext n) (sec_metadata_ciphertext o))
          || negb (bool_decide (sec_lifecycle_state n = sec_lifecycle_state o))
          || negb (sec_current_version n =? sec_current_version o)
          || negb (sec_updated_at n =? sec_updated_at o)
          || negb (bool_decide (sec_deleted_at n = sec_deleted_at o)))).

Definition secrets_schema : schema SecretRow := Schema
  (fun r => blob_len 16 (sec_secret_id r) && blob_len 32 (sec_name_index r)
            && (0 <? sec_metadata_version r) && blob_len 24 (sec_metadata_nonce r)
            && metadata_bounds (sec_metadata_ciphertext r) && blob_len 24 (sec_metadata_dek_nonce r)
            && blob_len 48 (sec_metadata_wrapped_dek r) && (0 <? sec_metadata_kek_version r)
            && text_in ["active"; "archived"; "deleted"; "purged"] (sec_lifecycle_state r)
            && (0 <? sec_current_version r) && (0 <? sec_revision r)
            && blob_len 32 (sec_state_commitment r))
  (fun r => [key1 (VBlob (sec_secret_id r));
             Some [VBlob (sec_namespace_id r); VBlob (sec_name_index r)]])
  secrets_monotonic_versions.

Record VersionRow : Type := {
  sv_secret_id : blob;
  sv_version : Z;
  sv_envelope_version : Z;
  sv_algorithm_suite : Z;
  sv_kek_version : Z;
  sv_payload_nonce : blob;
  sv_payload_ciphertext : blob;
  sv_dek_nonce : blob;
  sv_wrapped_dek : blob;
  sv_expires_at : option Z;
  sv_rotation_due_at : option Z;
  sv_created_by : option blob;
  sv_created_at : Z }.

(** Trigger smcv_secret_versions_protect_update. *)
Definition secret_versions_protect_update (o n : VersionRow) : bool :=
  negb (blob_eqb (sv_secret_id o) (sv_secret_id n))
  || negb (sv_version o =? sv_version n)
  || negb (sv_envelope_version o =? sv_envelope_version n)
  || negb (sv_algorithm_suite o =? sv_algorithm_suite n)
  || negb (blob_eqb (sv_payload_nonce o) (sv_payload_nonce n))
  || negb (blob_eqb (sv_payload_ciphertext o) (sv_payload_ciphertext n))
  || negb (bool_decide (sv_expires_at o = sv_expires_at n))
  || negb (bool_decide (sv_rotation_due_at o = sv_rotation_due_at n))
  || negb (bool_decide (sv_created_by o = sv_created_by n))
  || negb (sv_created_at o =? sv_created_at n).

Definition versions_schema : schema VersionRow := Schema
  (fun r => (0 <? sv_version r) && (sv_envelope_version r =? 1) && (sv_algorithm_suite r =? 1)
            && (0 <? sv_kek_version r) && blob_len 24 (sv_payload_nonce r)
            && between 16 16777216 (zlen (sv_payload_ciphertext r))
            && blob_len 24 (sv_dek_nonce r) && blob_len 48 (sv_wrapped_dek r)
            && opt_check (fun v => 0 <=? v) (sv_expires_at r)
            && opt_check (fun v => 0 <=? v) (sv_rotation_due_at r)
            && opt_check (blob_len 16) (sv_created_by r))
  (fun r => [Some [VBlob (sv_secret_id r); VInt (sv_version r)]])
  secret_versions_protect_update.

Record TombstoneRow : Type := {
  tomb_secret_id : blob;
  tomb_namespace_id : blob;
  tomb_name_index : blob;
  tomb_last_version : Z;
  tomb_purged_at : Z;
  tomb_retention_cutoff : Z }.

Definition tombstones_schema : schema TombstoneRow := Schema
  (fun r => blob_len 16 (tomb_secret_id r) && blob_len 16 (tomb_namespace_id r)
            && blob_len 32 (tomb_name_index r) && (0 <? tomb_last_version r))
  (fun r => [key1 (VBlob (tomb_secret_id r))])
  no_trigger.

(** ** Audit events and maintenance jobs *)

Record AuditRow : Type := {
  au_sequence : Z;
  au_event_id : blob;
  au_installation_id : blob;
  au_recovery_epoch : Z;
  au_occurred_at : Z;
  au_request_id : blob;
  au_actor_principal_id : option blob;
  au_action : string;
  au_target_kind : string;
  au_target_id : option blob;
  au_outcome : string;
  au_previous_commitment : blob;
  au_commitment : blob;
  au_commitment_version : Z;
  au_credential_kind : option string;
  au_credential_id : option blob }.

(** The update trigger raises on every UPDATE. *)
Definition audit_schema : schema AuditRow := Schema
  (fun r => blob_len 16 (au_event_id r) && blob_len 16 (au_installation_id r)
            && (0 <=? au_recovery_epoch r) && blob_len 16 (au_request_id r)
            && opt_check (blob_len 16) (au_actor_principal_id r)
            && between 1 64 (text_length (au_action r))
            && between 1 32 (text_length (au_target_kind r))
            && opt_check (blob_len 16) (au_target_id r)
            && text_in ["allowed"; "denied"; "failed"] (au_outcome r)
            && blob_len 32 (au_previous_commitment r) && blob_len 32 (au_commitment r)
            && between 1 2 (au_commitment_version r)
            && opt_check (text_in ["session"; "application"]) (au_credential_kind r)
            && opt_check (blob_len 16) (au_credential_id r))
  (fun r => [key1 (VInt (au_sequence r)); key1 (VBlob (au_event_id r))])
  (fun _ _ => true).

Record JobRow : Type := {
  job_id : blob;
  job_kind : string;
  job_state : string;
  job_source_key_version : option Z;
  job_target_key_version : option Z;
  job_stage : option string;
  job_last_row_id : Z;
  job_last_object_id : option blob;
  job_lease_owner : option blob;
  job_lease_expires_at : option Z;
  job_updated_at : Z }.

Definition jobs_schema : schema JobRow := Schema
  (fun r => blob_len 16 (job_id r)
            && text_in ["kek_rotation"; "root_rotation"; "audit_verify"] (job_kind r)
            && text_in ["pending"; "running"; "paused"; "completed"; "failed"] (job_state r)
            && opt_check (text_in ["auxiliary"; "namespace_metadata"; "secret_metadata";
                                   "secret_versions"; "finalize"]) (job_stage r)
            && (0 <=? job_last_row_id r) && opt_check (blob_len 16) (job_last_object_id r)
            && opt_check (blob_len 16) (job_lease_owner r))
  (fun r => [key1 (VBlob (job_id r))])
  no_trigger.

(** ** Principals, authenticators, sessions, service identities, credentials *)

Record PrincipalRow : Type := {
  pr_principal_id : blob;
  pr_principal_kind : string;
  pr_state : string;
  pr_revision : Z;
  pr_state_commitment : blob;
  pr_created_at : Z;
  pr_updated_at : Z }.

Definition principals_schema : schema PrincipalRow := Schema
  (fun r => blob_len 16 (pr_principal_id r)
            && text_in ["owner"; "service"] (pr_principal_kind r)
            && text_in ["active"; "disabled"] (pr_state r) && (0 <? pr_revision r)
            && blob_len 32 (pr_state_commitment r))
  (fun r => [key1 (VBlob (pr_principal_id r));
             key_if (bool_decide (pr_principal_kind r = "owner")) [VText (pr_principal_kind r)]])
  no_trigger.

Record AuthenticatorRow : Type := {
  oa_authenticator_id : blob;
  oa_principal_id : blob;
  oa_authenticator_kind : string;
  oa_credential_lookup : option blob;
  oa_credential_data : option blob;
  oa_password_phc : option string;
  oa_state : string;
  oa_created_at : Z;
  oa_last_used_at : option Z;
  oa_revoked_at : option Z;
  oa_state_commitment : blob }.

Definition authenticators_schema : schema AuthenticatorRow := Schema
  (fun r => blob_len 16 (oa_authenticator_id r)
            && text_in ["password"; "passkey"; "recovery"] (oa_authenticator_kind r)
            && opt_check (fun b => between 1 1024 (zlen b)) (oa_credential_lookup r)
            && opt_check (fun b => between 1 65536 (zlen b)) (oa_credential_data r)
            && opt_check (fun s => between 32 1024 (text_length s)) (oa_password_phc r)
            && text_in ["active"; "revoked"] (oa_state r)
            && blob_len 32 (oa_state_commitment r)
            && ((bool_decide (oa_authenticator_kind r = "passkey")
                 && bool_decide (is_Some (oa_credential_lookup r))
                 && bool_decide (is_Some (oa_credential_data r))
                 && negb (bool_decide (is_Some (oa_password_phc r))))
                || (text_in ["password"; "recovery"] (oa_authenticator_kind r)
                    && negb (bool_decide (is_Some (oa_credential_lookup r)))
                    && negb (bool_decide (is_Some (oa_credential_data r)))
                    && bool_decide (is_Some (oa_password_phc r)))))
  (fun r => [key1 (VBlob (oa_authenticator_id r));
             (fun l => [VBlob l]) <$> oa_credential_lookup r])
  no_trigger.

Record SessionRow : Type := {
  ss_session_id : blob;
  ss_lookup_id : blob;
  ss_verifier : blob;
  ss_csrf_verifier : blob;
  ss_principal_id : blob;
  ss_authenticator_id : blob;
  ss_auth_method : string;
  ss_created_at : Z;
  ss_last_used_at : Z;
  ss_idle_expires_at : Z;
  ss_absolute_expires_at : Z;
  ss_recent_auth_at : Z;
  ss_revoked_at : option Z;
  ss_state_commitment : blob }.

Definition sessions_schema : schema SessionRow := Schema
  (fun r => blob_len 16 (ss_session_id r) && blob_len 16 (ss_lookup_id r)
            && blob_len 32 (ss_verifier r) && blob_len 32 (ss_csrf_verifier r)
            && text_in ["password"; "passkey"; "recovery"] (ss_auth_method r)
            && blob_len 32 (ss_state_commitment r)
            && (ss_idle_expires_at r <=? ss_absolute_expires_at r))
  (fun r => [key1 (VBlob (ss_session_id r)); key1 (VBlob (ss_lookup_id r))])
  no_trigger.

Record ServiceRow : Type := {
  si_principal_id : blob;
  si_metadata_version : Z;
  si_metadata_nonce : blob;
  si_metadata_ciphertext : blob;
  si_metadata_dek_nonce : blob;
  si_metadata_wrapped_dek : blob;
  si_metadata_kek_version : Z }.

Definition services_schema : schema ServiceRow := Schema
  (fun r => (0 <? si_metadata_version r) && blob_len 24 (si_metadata_nonce r)
            && metadata_bounds (si_metadata_ciphertext r) && blob_len 24 (si_metadata_dek_nonce r)
            && blob_len 48 (si_metadata_wrapped_dek r) && (0 <? si_metadata_kek_version r))
  (fun r => [key1 (VBlob (si_principal_id r))])
  no_trigger.

Record CredentialRow : Type := {
  ac_credential_id : blob;
  ac_principal_id : blob;
  ac_lookup_id : blob;
  ac_verifier : blob;
  ac_created_at : Z;
  ac_expires_at : option Z;
  ac_last_used_at : option Z;
  ac_revoked_at : option Z;
  ac_revision : Z;
  ac_state_commitment : blob }.

Definition credentials_schema : schema CredentialRow := Schema
  (fun r => blob_len 16 (ac_credential_id r) && blob_len 12 (ac_lookup_id r)
            && blob_len 32 (ac_verifier r) && (0 <? ac_revision r)
            && blob_len 32 (ac_state_commitment r)
            && opt_check (fun e => ac_created_at r <=? e) (ac_expires_at r))
  (fun r => [key1 (VBlob (ac_credential_id r)); key1 (VBlob (ac_lookup_id r))])
  no_trigger.

(** ** Policies, grants, bindings, idempotency *)

Record PolicyRow : Type := {
  pol_policy_id : blob;
  pol_revision : Z;
  pol_state : string;
  pol_metadata_version : Z;
  pol_metadata_nonce : blob;
  pol_metadata_ciphertext : blob;
  pol_metadata_dek_nonce : blob;
  pol_metadata_wrapped_dek : blob;
  pol_metadata_kek_version : Z;
  pol_state_commitment : blob;
  pol_created_at : Z;
  pol_updated_at : Z }.

Definition policies_schema : schema PolicyRow := Schema
  (fun r => blob_len 16 (pol_policy_id r) && (0 <? pol_revision r)
            && text_in ["active"; "archived"] (pol_state r) && (0 <? pol_metadata_version r)
            && blob_len 24 (pol_metadata_nonce r) && metadata_bounds (pol_metadata_ciphertext r)
            && blob_len 24 (pol_metadata_dek_nonce r) && blob_len 48 (pol_metadata_wrapped_dek r)
            && (0 <? pol_metadata_kek_version r) && blob_len 32 (pol_state_commitment r))
  (fun r => [key1 (VBlob (pol_policy_id r))])
  no_trigger.

Record GrantRow : Type := {
  gr_grant_id : blob;
  gr_policy_id : blob;
  gr_action : string;
  gr_resource_kind : string;
  gr_resource_id : blob;
  gr_include_descendants : Z;
  gr_created_by : blob;
  gr_created_at : Z;
  gr_state_commitment : blob }.

Definition grants_schema : schema GrantRow := Schema
  (fun r => blob_len 16 (gr_grant_id r) && between 1 64 (text_length (gr_action r))
            && text_in ["namespace"; "secret"] (gr_resource_kind r)
            && blob_len 16 (gr_resource_id r) && between 0 1 (gr_include_descendants r)
            && blob_len 32 (gr_state_commitment r)
            && ((gr_include_descendants r =? 0) || bool_decide (gr_resource_kind r = "namespace")))
  (fun r => [key1 (VBlob (gr_grant_id r));
             Some [VBlob (gr_policy_id r); VText (gr_action r); VText (gr_resource_kind r);
                   VBlob (gr_resource_id r); VInt (gr_include_descendants r)]])
  no_trigger.

Record BindingRow : Type := {
  bd_principal_id : blob;
  bd_policy_id : blob;
  bd_created_by : blob;
  bd_created_at : Z;
  bd_state_commitment : blob }.

Definition bindings_schema : schema BindingRow := Schema
  (fun r => blob_len 32 (bd_state_commitment r))
  (fun r => [Some [VBlob (bd_principal_id r); VBlob (bd_policy_id r)]])
  no_trigger.

Record IdempotencyRow : Type := {
  idem_principal_id : blob;
  idem_key_verifier : blob;
  idem_request_fingerprint : blob;
  idem_response_kind : string;
  idem_response_id : option blob;
  idem_created_at : Z;
  idem_expires_at : Z }.

Definition idempotency_schema : schema IdempotencyRow := Schema
  (fun r => blob_len 32 (idem_key_verifier r) && blob_len 32 (idem_request_fingerprint r)
            && between 1 32 (text_length (idem_response_kind r))
            && opt_check (blob_len 16) (idem_response_id r)
            && (idem_created_at r <? idem_expires_at r))
  (fun r => [Some [VBlob (idem_principal_id r); VBlob (idem_key_verifier r)]])
  no_trigger.

(** The whole database. [db_authz_revision] and [db_authz_commitment] are the one
    row of smcv_authorization_state; [db_restore_guard] is the table
    smcv_restore_activation_guard, absent or present with or without its row. *)
Record Db : Type := MkDb {
  db_installation : option InstallationRow;
  db_keys : table KeyRow;
  db_namespaces : table NamespaceRow;
  db_secrets : table SecretRow;
  db_versions : table VersionRow;
  db_tombstones : table TombstoneRow;
  db_audit : table AuditRow;
  db_jobs : table JobRow;
  db_purge_enabled : bool;
  db_principals : table PrincipalRow;
  db_authenticators : table AuthenticatorRow;
  db_sessions : table SessionRow;
  db_services : table ServiceRow;
  db_credentials : table CredentialRow;
  db_policies : table PolicyRow;
  db_grants : table GrantRow;
  db_bindings : table BindingRow;
  db_authz_revision : Z;
  db_authz_commitment : blob;
  db_idempotency : table IdempotencyRow;
  db_restore_guard : option bool }.

Definition set_installation (v : option InstallationRow) (d : Db) : Db :=
  MkDb v (db_keys d) (db_namespaces d) (db_secrets d) (db_versions d) (db_tombstones d)
    (db_audit d) (db_jobs d) (db_purge_enabled d) (db_principals d) (db_authenticators d)
    (db_sessions d) (db_services d) (db_credentials d) (db_policies d) (db_grants d)
    (db_bindings d) (db_authz_revision d) (db_authz_commitment d) (db_idempotency d)
    (db_restore_guard d).
Definition set_keys (v : table KeyRow) (d : Db) : Db :=
  MkDb (db_installation d) v (db_namespaces d) (db_secrets d) (db_versions d) (db_tombstones d)
    (db_audit d) (db_jobs d) (db_purge_enabled d) (db_principals d) (db_authenticators d)
    (db_sessions d) (db_services d) (db_credentials d) (db_policies d) (db_grants d)
    (db_bindings d) (db_authz_revision d) (db_authz_commitment d) (db_idempotency d)
    (db_restore_guard d).
Definition set_namespaces (v : table NamespaceRow) (d : Db) : Db :=
  MkDb (db_installation d) (db_keys d) v (db_secrets d) (db_versions d) (db_tombstones d)
    (db_audit d) (db_jobs d) (db_purge_enabled d) (db_principals d) (db_authenticators d)
    (db_sessions d) (db_services d) (db_credentials d) (db_policies d) (db_grants d)
    (db_bindings d) (db_authz_revision d) (db_authz_commitment d) (db_idempotency d)
    (db_restore_guard d).
Definition set_secrets (v : table SecretRow) (d : Db) : Db :=
  MkDb (db_installation d) (db_keys d) (db_namespaces d) v (db_versions d) (db_tombstones d)
    (db_audit d) (db_jobs d) (db_purge_enabled d) (db_principals d) (db_authenticators d)
    (db_sessions d) (db_services d) (db_credentials d) (db_policies d) (db_grants d)
    (db_bindings d) (db_authz_revision d) (db_authz_commitment d) (db_idempotency d)
    (db_restore_guard d).
Definition set_versions (v : table VersionRow) (d : Db) : Db :=
  MkDb (db_installation d) (db_keys d) (db_namespaces d) (db_secrets d) v (db_tombstones d)
    (db_audit d) (db_jobs d) (db_purge_enabled d) (db_principals d) (db_authenticators d)
    (db_sessions d) (db_services d) (db_credentials d) (db_policies d) (db_grants d)
    (db_bindings d) (db_authz_revision d) (db_authz_commitment d) (db_idempotency d)
    (db_restore_guard d).
Definition set_tombstones (v : table TombstoneRow) (d : Db) : Db :=
  MkDb (db_installation d) (db_keys d) (db_namespaces d) (db_secrets d) (db_versions d) v
    (db_audit d) (db_jobs d) (db_purge_enabled d) (db_principals d) (db_authenticators d)
    (db_sessions d) (db_services d) (db_credentials d) (db_policies d) (db_grants d)
    (db_bindings d) (db_authz_revision d) (db_authz_commitment d) (db_idempotency d)
    (db_restore_guard d).
Definition set_audit (v : table AuditRow) (d : Db) : Db :=
  MkDb (db_installation d) (db_keys d) (db_namespaces d) (db_secrets d) (db_versions d)
    (db_tombstones d) v (db_jobs d) (db_purge_enabled d) (db_principals d) (db_authenticators d)
    (db_sessions d) (db_services d) (db_credentials d) (db_policies d) (db_grants d)
    (db_bindings d) (db_authz_revision d) (db_authz_commitment d) (db_idempotency d)
    (db_restore_guard d).
Definition set_jobs (v : table JobRow) (d : Db) : Db :=
  MkDb (db_installation d) (db_keys d) (db_namespaces d) (db_secrets d) (db_versions d)
    (db_tombstones d) (db_audit d) v (db_purge_enabled d) (db_principals d) (db_authenticators d)
    (db_sessions d) (db_services d) (db_credentials d) (db_policies d) (db_grants d)
    (db_bindings d) (db_authz_revision d) (db_authz_commitment d) (db_idempotency d)
    (db_restore_guard d).
Definition set_purge_enabled (v : bool) (d : Db) : Db :=
  MkDb (db_installation d) (db_keys d) (db_namespaces d) (db_secrets d) (db_versions d)
    (db_tombstones d) (db_audit d) (db_jobs d) v (db_principals d) (db_authenticators d)
    (db_sessions d) (db_services d) (db_credentials d) (db_policies d) (db_grants d)
    (db_bindings d) (db_authz_revision d) (db_authz_commitment d) (db_idempotency d)
    (db_restore_guard d).
Definition set_principals (v : table PrincipalRow) (d : Db) : Db :=
  MkDb (db_installation d) (db_keys d) (db_namespaces d) (db_secrets d) (db_versions d)
    (db_tombstones d) (db_audit d) (db_jobs d) (db_purge_enabled d) v (db_authenticators d)
    (db_sessions d) (db_services d) (db_credentials d) (db_policies d) (db_grants d)
    (db_bindings d) (db_authz_revision d) (db_authz_commitment d) (db_idempotency d)
    (db_restore_guard d).
Definition set_authenticators (v : table AuthenticatorRow) (d : Db) : Db :=
  MkDb (db_installation d) (db_keys d) (db_namespaces d) (db_secrets d) (db_versions d)
    (db_tombstones d) (db_audit d) (db_jobs d) (db_purge_enabled d) (db_principals d) v
    (db_sessions d) (db_services d) (db_credentials d) (db_policies d) (db_grants d)
    (db_bindings d) (db_authz_revision d) (db_authz_commitment d) (db_idempotency d)
    (db_restore_guard d).
Definition set_sessions (v : table SessionRow) (d : Db) : Db :=
  MkDb (db_installation d) (db_keys d) (db_namespaces d) (db_secrets d) (db_versions d)
    (db_tombstones d) (db_audit d) (db_jobs d) (db_purge_enabled d) (db_principals d)
    (db_authenticators d) v (db_services d) (db_credentials d) (db_policies d) (db_grants d)
    (db_bindings d) (db_authz_revision d) (db_authz_commitment d) (db_idempotency d)
    (db_restore_guard d).
Definition set_services (v : table ServiceRow) (d : Db) : Db :=
  MkDb (db_installation d) (db_keys d) (db_namespaces d) (db_secrets d) (db_versions d)
    (db_tombstones d) (db_audit d) (db_jobs d) (db_purge_enabled d) (db_principals d)
    (db_authenticators d) (db_sessions d) v (db_credentials d) (db_policies d) (db_grants d)
    (db_bindings d) (db_authz_revision d) (db_authz_commitment d) (db_idempotency d)
    (db_restore_guard d).
Definition set_credentials (v : table CredentialRow) (d : Db) : Db :=
  MkDb (db_installation d) (db_keys d) (db_namespaces d) (db_secrets d) (db_versions d)
    (db_tombstones d) (db_audit d) (db_jobs d) (db_purge_enabled d) (db_principals d)
    (db_authenticators d) (db_sessions d) (db_services d) v (db_policies d) (db_grants d)
    (db_bindings d) (db_authz_revision d) (db_authz_commitment d) (db_idempotency d)
    (db_restore_guard d).
Definition set_policies (v : table PolicyRow) (d : Db) : Db :=
  MkDb (db_installation d) (db_keys d) (db_namespaces d) (db_secrets d) (db_versions d)
    (db_tombstones d) (db_audit d) (db_jobs d) (db_purge_enabled d) (db_principals d)
    (db_authenticators d) (db_sessions d) (db_services d) (db_credentials d) v (db_grants d)
    (db_bindings d) (db_authz_revision d) (db_authz_commitment d) (db_idempotency d)
    (db_restore_guard d).
Definition set_grants (v : table GrantRow) (d : Db) : Db :=
  MkDb (db_installation d) (db_keys d) (db_namespaces d) (db_secrets d) (db_versions d)
    (db_tombstones d) (db_audit d) (db_jobs d) (db_purge_enabled d) (db_principals d)
    (db_authenticators d) (db_sessions d) (db_services d) (db_credentials d) (db_policies d) v
    (db_bindings d) (db_authz_revision d) (db_authz_commitment d) (db_idempotency d)
    (db_restore_guard d).
Definition set_bindings (v : table BindingRow) (d : Db) : Db :=
  MkDb (db_installation d) (db_keys d) (db_namespaces d) (db_secrets d) (db_versions d)
    (db_tombstones d) (db_audit d) (db_jobs d) (db_purge_enabled d) (db_principals d)
    (db_authenticators d) (db_sessions d) (db_services d) (db_credentials d) (db_policies d)
    (db_grants d) v (db_authz_revision d) (db_authz_commitment d) (db_idempotency d)
    (db_restore_guard d).
Definition set_authz_revision (v : Z) (d : Db) : Db :=
  MkDb (db_installation d) (db_keys d) (db_namespaces d) (db_secrets d) (db_versions d)
    (db_tombstones d) (db_audit d) (db_jobs d) (db_purge_enabled d) (db_principals d)
    (db_authenticators d) (db_sessions d) (db_services d) (db_credentials d) (db_policies d)
    (db_grants d) (db_bindings d) v (db_authz_commitment d) (db_idempotency d)
    (db_restore_guard d).
Definition set_authz_commitment (v : blob) (d : Db) : Db :=
  MkDb (db_installation d) (db_keys d) (db_namespaces d) (db_secrets d) (db_versions d)
    (db_tombstones d) (db_audit d) (db_jobs d) (db_purge_enabled d) (db_principals d)
    (db_authenticators d) (db_sessions d) (db_services d) (db_credentials d) (db_policies d)
    (db_grants d) (db_bindings d) (db_authz_revision d) v (db_idempotency d) (db_restore_guard d).
Definition set_idempotency (v : table IdempotencyRow) (d : Db) : Db :=
  MkDb (db_installation d) (db_keys d) (db_namespaces d) (db_secrets d) (db_versions d)
    (db_tombstones d) (db_audit d) (db_jobs d) (db_purge_enabled d) (db_principals d)
    (db_authenticators d) (db_sessions d) (db_services d) (db_credentials d) (db_policies d)
    (db_grants d) (db_bindings d) (db_authz_revision d) (db_authz_commitment d) v
    (db_restore_guard d).
Definition set_restore_guard (v : option bool) (d : Db) : Db :=
  MkDb (db_installation d) (db_keys d) (db_namespaces d) (db_secrets d) (db_versions d)
    (db_tombstones d) (db_audit d) (db_jobs d) (db_purge_enabled d) (db_principals d)
    (db_authenticators d) (db_sessions d) (db_services d) (db_credentials d) (db_policies d)
    (db_grants d) (db_bindings d) (db_authz_revision d) (db_authz_commitment d) (db_idempotency d)
    v.

(** The database after all migrations, before any write. *)
Definition empty_db : Db :=
  MkDb None [] [] [] [] [] [] [] false [] [] [] [] [] [] [] [] 1 (repeat Byte.x00 32) [] None.

(** A statement of a transaction, aborting with [Sqlite] on a violated
    constraint. *)
Abbreviation StoreTx A := (Tx Db StorageError A).
Abbreviation Store A := (Prog Db StorageError A).

(** [transaction.execute] of an INSERT. *)
Definition tx_insert {A} (sc : schema A) (get : Db -> table A) (set : table A -> Db -> Db)
    (a : A) : StoreTx unit :=
  fun d => match sql_insert sc a (get d) with
           | Some t => Ok (tt, set t d)
           | None => Err Sqlite
           end.

(** [transaction.execute] of an INSERT OR IGNORE. *)
Definition tx_insert_or_ignore {A} (sc : schema A) (get : Db -> table A)
    (set : table A -> Db -> Db) (a : A) : StoreTx Z :=
  fun d => let '(n, t) := sql_insert_or_ignore sc a (get d) in Ok (n, set t d).

(** [transaction.execute] of an UPDATE. *)
Definition tx_update {A} (sc : schema A) (get : Db -> table A) (set : table A -> Db -> Db)
    (p : A -> bool) (f : A -> A) : StoreTx Z :=
  fun d => match sql_update sc p f (get d) with
           | Some (n, t) => Ok (n, set t d)
           | None => Err Sqlite
           end.

(** A FOREIGN KEY check of a statement. *)
Definition tx_require (holds : Db -> bool) : StoreTx unit :=
  fun d => if holds d then Ok (tt, d) else Err Sqlite.

(** ** Foreign keys *)

Definition namespace_exists (id : blob) (d : Db) : bool :=
  existsb (fun r => blob_eqb (ns_namespace_id r) id) (rows (db_namespaces d)).
Definition secret_exists (id : blob) (d : Db) : bool :=
  existsb (fun r => blob_eqb (sec_secret_id r) id) (rows (db_secrets d)).
Definition version_exists (id : blob) (v : Z) (d : Db) : bool :=
  existsb (fun r => blob_eqb (sv_secret_id r) id && (sv_version r =? v)) (rows (db_versions d)).
Definition principal_exists (id : blob) (d : Db) : bool :=
  existsb (fun r => blob_eqb (pr_principal_id r) id) (rows (db_principals d)).
Definition authenticator_exists (id : blob) (d : Db) : bool :=
  existsb (fun r => blob_eqb (oa_authenticator_id r) id) (rows (db_authenticators d)).
Definition policy_exists (id : blob) (d : Db) : bool :=
  existsb (fun r => blob_eqb (pol_policy_id r) id) (rows (db_policies d)).

(** COMMIT: the deferred foreign key from a secret to its current version. *)
Definition deferred_keys_hold (d : Db) : bool :=
  forallb (fun r => version_exists (sec_secret_id r) (sec_current_version r) d)
    (rows (db_secrets d)).
Definition tx_commit : StoreTx unit := tx_require deferred_keys_hold.

(** * The invariant of the database *)

Definition child_of_namespace (d : Db) : Prop :=
  (forall r p, r ∈ rows (db_namespaces d) -> ns_parent_namespace_id r = Some p -> namespace_exists p d = true)
  /\ (forall r, r ∈ rows (db_secrets d) -> namespace_exists (sec_namespace_id r) d = true)
  /\ (forall r, r ∈ rows (db_versions d) -> secret_exists (sv_secret_id r) d = true).

(** * Lemmas *)

Lemma tx_insert_Ok {A} (sc : schema A) get set a d u d' :
  tx_insert sc get set a d = Ok (u, d') <->
  exists t, sql_insert sc a (get d) = Some t /\ d' = set t d.
Proof. unfold tx_insert. destruct u. destruct (sql_insert _ _ _); naive_solver. Qed.

Lemma tx_insert_or_ignore_Ok {A} (sc : schema A) get set a d n d' :
  tx_insert_or_ignore sc get set a d = Ok (n, d') <->
  exists t, sql_insert_or_ignore sc a (get d) = (n, t) /\ d' = set t d.
Proof. unfold tx_insert_or_ignore. destruct (sql_insert_or_ignore _ _ _); naive_solver. Qed.

Lemma tx_update_Ok {A} (sc : schema A) get set p f d n d' :
  tx_update sc get set p f d = Ok (n, d') <->
  exists t, sql_update sc p f (get d) = Some (n, t) /\ d' = set t d.
Proof. unfold tx_update. destruct (sql_update _ _ _ _) as [[]|]; naive_solver. Qed.

Lemma tx_require_Ok holds d u d' :
  tx_require holds d = Ok (u, d') <-> holds d = true /\ d' = d.
Proof. unfold tx_require. destruct u, (holds d); naive_solver. Qed.

(** [minv] with the statements. *)
Ltac sinv :=
  unfold tx_commit in *;
  repeat (first
    [ minv_step
    | match goal with
      | H : tx_insert _ _ _ _ _ = Ok (_, _) |- _ => apply tx_insert_Ok in H
      | H : tx_insert_or_ignore _ _ _ _ _ = Ok (_, _) |- _ => apply tx_insert_or_ignore_Ok in H
      | H : tx_update _ _ _ _ _ _ = Ok (_, _) |- _ => apply tx_update_Ok in H
      | H : tx_require _ _ = Ok (_, _) |- _ => apply tx_require_Ok in H
      end ]; cbv beta iota in *; simplify_eq).
