(* ===== verification/Records.v ===== *)
(** src/crates/smcv-storage/src/records.rs: audit events, namespaces, secrets
    and their immutable versions. Every mutation runs in one transaction that
    first checks the audit-chain head it was prepared against and ends by
    appending exactly one audit event.

    The connection mutex serializes the operations; each is one step here. *)
From Stdlib Require Import ZArith Lia String.
From stdpp Require Import base tactics numbers option strings list.
From S2P Require Import Prelude RustStd Core Sql Schema.

Record EncryptedRecord : Type := {
  er_nonce : array 24;
  er_ciphertext : blob;
  er_dek_nonce : array 24;
  er_wrapped_dek : array 48;
  er_kek_version : Z }.

Record AuditHead : Type := { head_sequence : Z; head_commitment : array 32 }.

(** [AuditRecord] and [StoredAuditRecord]: the same fields, borrowed or owned. *)
Record AuditRecord : Type := {
  ar_commitment_version : Z;
  ar_sequence : Z;
  ar_event_id : AuditEventId;
  ar_installation_id : InstallationId;
  ar_recovery_epoch : Z;
  ar_occurred_at_unix_ms : Z;
  ar_request_id : RequestId;
  ar_actor_principal_id : option PrincipalId;
  ar_credential_kind : option string;
  ar_credential_id : option ObjectId;
  ar_action : string;
  ar_target_kind : string;
  ar_target_id : option ObjectId;
  ar_outcome : string;
  ar_previous_commitment : array 32;
  ar_commitment : array 32 }.

Record NamespaceInsert : Type := {
  ni_namespace_id : NamespaceId;
  ni_parent_namespace_id : option NamespaceId;
  ni_name_index : array 32;
  ni_metadata : EncryptedRecord;
  ni_state_commitment : array 32;
  ni_created_at_unix_ms : Z }.

Record NamespaceRecord : Type := {
  nr_namespace_id : NamespaceId;
  nr_parent_namespace_id : option NamespaceId;
  nr_name_index : array 32;
  nr_lifecycle_state : string;
  nr_revision : Z;
  nr_metadata_version : Z;
  nr_metadata : EncryptedRecord;
  nr_state_commitment : array 32 }.

Record SecretInsert : Type := {
  sn_secret_id : SecretId;
  sn_namespace_id : NamespaceId;
  sn_name_index : array 32;
  sn_metadata : EncryptedRecord;
  sn_payload : EncryptedRecord;
  sn_schedule : SecretSchedule;
  sn_state_commitment : array 32;
  sn_created_by_principal_id : option PrincipalId;
  sn_created_at_unix_ms : Z }.

Record SecretVersionInsert : Type := {
  vi_secret_id : SecretId;
  vi_expected_current_version : Z;
  vi_expected_revision : Z;
  vi_payload : EncryptedRecord;
  vi_schedule : SecretSchedule;
  vi_next_state_commitment : array 32;
  vi_created_by_principal_id : option PrincipalId;
  vi_created_at_unix_ms : Z }.

Record SecretLifecycleChange : Type := {
  lc_secret_id : SecretId;
  lc_expected_revision : Z;
  lc_from_state : string;
  lc_to_state : string;
  lc_changed_at_unix_ms : Z;
  lc_next_state_commitment : array 32 }.

Record SecretPurge : Type := {
  sp_secret_id : SecretId;
  sp_expected_revision : Z;
  sp_retention_cutoff_unix_ms : Z;
  sp_purged_at_unix_ms : Z }.

Record SecretRecord : Type := {
  sr_secret_id : SecretId;
  sr_namespace_id : NamespaceId;
  sr_name_index : array 32;
  sr_lifecycle_state : string;
  sr_current_version : Z;
  sr_revision : Z;
  sr_metadata_version : Z;
  sr_metadata : EncryptedRecord;
  sr_schedule : SecretSchedule;
  sr_state_commitment : array 32;
  sr_deleted_at_unix_ms : option Z }.

Record ScheduledSecret : Type := {
  sch_secret_id : SecretId;
  sch_version : Z;
  sch_schedule : SecretSchedule }.

Record SecretVersionRecord : Type := {
  svr_version : Z;
  svr_schedule : SecretSchedule;
  svr_created_by_principal_id : option PrincipalId;
  svr_created_at_unix_ms : Z }.

(** * Parsers of durable rows *)

(** [parse_uuid] *)
Definition parse_uuid (bytes : blob) : result StorageError Uuid :=
  ok_or InvalidData (try_array 16 bytes).

(** [try_into().map_err(|_| InvalidData)] *)
Definition parse_array (n : nat) (bytes : blob) : result StorageError (array n) :=
  ok_or InvalidData (try_array n bytes).

(** [uN::try_from(..).map_err(|_| InvalidData)] *)
Definition parse_uint (max z : Z) : result StorageError Z := ok_or InvalidData (try_from max z).

(** [.map(|bytes| parse_uuid(&bytes)).transpose()?] *)
Definition parse_opt_uuid (o : option blob) : result StorageError (option Uuid) :=
  transpose (parse_uuid <$> o).

(** [sql_i64] *)
Definition sql_i64 (value : Z) : result StorageError Z := ok_or Conflict (try_from i64_max value).

(** [parse_encrypted] *)
Definition parse_encrypted (nonce ciphertext dek_nonce wrapped_dek : blob) (kek_version : Z)
  : result StorageError EncryptedRecord :=
  if negb (between 16 16777216 (zlen ciphertext)) then Err InvalidData
  else
    let? nonce := parse_array 24 nonce in
    let? dek_nonce := parse_array 24 dek_nonce in
    let? wrapped_dek := parse_array 48 wrapped_dek in
    let? kek_version := parse_uint u32_max kek_version in
    Ok {| er_nonce := nonce; er_ciphertext := ciphertext; er_dek_nonce := dek_nonce;
          er_wrapped_dek := wrapped_dek; er_kek_version := kek_version |}.

(** [parse_audit] *)
Definition parse_audit (r : AuditRow) : result StorageError AuditRecord :=
  let? commitment_version := parse_uint 255 (au_commitment_version r) in
  let? sequence := parse_uint u64_max (au_sequence r) in
  let? event_id := parse_uuid (au_event_id r) in
  let? installation_id := parse_uuid (au_installation_id r) in
  let? recovery_epoch := parse_uint u64_max (au_recovery_epoch r) in
  let? request_id := parse_uuid (au_request_id r) in
  let? actor := parse_opt_uuid (au_actor_principal_id r) in
  let? credential := parse_opt_uuid (au_credential_id r) in
  let? target := parse_opt_uuid (au_target_id r) in
  let? previous := parse_array 32 (au_previous_commitment r) in
  let? commitment := parse_array 32 (au_commitment r) in
  Ok {| ar_commitment_version := commitment_version; ar_sequence := sequence;
        ar_event_id := event_id; ar_installation_id := installation_id;
        ar_recovery_epoch := recovery_epoch; ar_occurred_at_unix_ms := au_occurred_at r;
        ar_request_id := request_id; ar_actor_principal_id := actor;
        ar_credential_kind := au_credential_kind r; ar_credential_id := credential;
        ar_action := au_action r; ar_target_kind := au_target_kind r; ar_target_id := target;
        ar_outcome := au_outcome r; ar_previous_commitment := previous;
        ar_commitment := commitment |}.

(** The two correlated subqueries of [secret] and [secret_by_name_index]. *)
Definition current_schedule (d : Db) (r : SecretRow) : SecretSchedule :=
  match select_one (fun v => blob_eqb (sv_secret_id v) (sec_secret_id r)
                             && (sv_version v =? sec_current_version r)) (db_versions d) with
  | Some v => {| expires_at_unix_ms := sv_expires_at v;
                 rotation_due_at_unix_ms := sv_rotation_due_at v |}
  | None => default_schedule
  end.

(** [parse_secret] *)
Definition parse_secret (secret_id : SecretId) (r : SecretRow) (schedule : SecretSchedule)
  : result StorageError SecretRecord :=
  let? namespace := parse_uuid (sec_namespace_id r) in
  let? name_index := parse_array 32 (sec_name_index r) in
  let? current := parse_uint u64_max (sec_current_version r) in
  let? revision := parse_uint u64_max (sec_revision r) in
  let? metadata_version := parse_uint u64_max (sec_metadata_version r) in
  let? metadata := parse_encrypted (sec_metadata_nonce r) (sec_metadata_ciphertext r)
      (sec_metadata_dek_nonce r) (sec_metadata_wrapped_dek r) (sec_metadata_kek_version r) in
  let? state_commitment := parse_array 32 (sec_state_commitment r) in
  Ok {| sr_secret_id := secret_id; sr_namespace_id := namespace; sr_name_index := name_index;
        sr_lifecycle_state := sec_lifecycle_state r; sr_current_version := current;
        sr_revision := revision; sr_metadata_version := metadata_version;
        sr_metadata := metadata; sr_schedule := schedule;
        sr_state_commitment := state_commitment; sr_deleted_at_unix_ms := sec_deleted_at r |}.

(** * Reads *)

Definition find_namespace (d : Db) (id : blob) : option NamespaceRow :=
  select_one (fun r => blob_eqb (ns_namespace_id r) id) (db_namespaces d).
Definition find_secret (d : Db) (id : blob) : option SecretRow :=
  select_one (fun r => blob_eqb (sec_secret_id r) id) (db_secrets d).
Definition find_version (d : Db) (id : blob) (version : Z) : option VersionRow :=
  select_one (fun v => blob_eqb (sv_secret_id v) id && (sv_version v =? version)) (db_versions d).

(** [SqliteStore::namespace] *)
Definition namespace (d : Db) (namespace_id : NamespaceId) : result StorageError NamespaceRecord :=
  let? r := ok_or NotInitialized (find_namespace d (arr namespace_id)) in
  let? parent := parse_opt_uuid (ns_parent_namespace_id r) in
  let? name_index := parse_array 32 (ns_name_index r) in
  let? revision := parse_uint u64_max (ns_revision r) in
  let? metadata_version := parse_uint u64_max (ns_metadata_version r) in
  let? metadata := parse_encrypted (ns_metadata_nonce r) (ns_metadata_ciphertext r)
      (ns_dek_nonce r) (ns_wrapped_dek r) (ns_kek_version r) in
  let? state_commitment := parse_array 32 (ns_state_commitment r) in
  Ok {| nr_namespace_id := namespace_id; nr_parent_namespace_id := parent;
        nr_name_index := name_index; nr_lifecycle_state := ns_lifecycle_state r;
        nr_revision := revision; nr_metadata_version := metadata_version;
        nr_metadata := metadata; nr_state_commitment := state_commitment |}.

(** [id > ?] on an optional cursor, the nil UUID standing for none. *)
Definition after_cursor (after : option Uuid) (id : blob) : bool :=
  blob_ltb (match after with Some a => arr a | None => arr (zeros 16) end) id.

(** [SqliteStore::namespaces_after] *)
Definition namespaces_after (d : Db) (parent after : option NamespaceId) (lim : Z)
  : result StorageError (list NamespaceRecord) :=
  if lim =? 0 then Err InvalidData
  else
    let found := limit lim (order_by blob_leb
      (ns_namespace_id <$> select (fun r =>
         bool_decide (ns_parent_namespace_id r = arr <$> parent)
         && after_cursor after (ns_namespace_id r)
         && bool_decide (ns_lifecycle_state r = "active")) (db_namespaces d))) in
    let? ids := result_mapM parse_uuid found in
    result_mapM (namespace d) ids.

(** The recursive query [ancestors]: the namespace and its ancestors, at most
    [fuel] rows. *)
Fixpoint ancestors (d : Db) (fuel : nat) (id : blob) : list blob :=
  match fuel with
  | O => []
  | S fuel' =>
      match find_namespace d id with
      | None => []
      | Some r => ns_namespace_id r ::
          match ns_parent_namespace_id r with None => [] | Some p => ancestors d fuel' p end
      end
  end.

(** Rows up to depth 33 counted from one ([child.depth <= 32]), and up to depth
    32 counted from zero ([child.depth < 32]). *)
Definition ANCESTOR_ROWS : nat := 33.

(** [SqliteStore::namespace_depth] *)
Definition namespace_depth (d : Db) (namespace_id : NamespaceId) : result StorageError Z :=
  let found := ancestors d ANCESTOR_ROWS (arr namespace_id) in
  match found with
  | [] => Err NotInitialized
  | _ => parse_uint u16_max (zlen found)
  end.

(** [SqliteStore::namespace_ancestors_inclusive] *)
Definition namespace_ancestors_inclusive (d : Db) (namespace_id : NamespaceId)
  : result StorageError (list NamespaceId) :=
  let? found := result_mapM parse_uuid (ancestors d ANCESTOR_ROWS (arr namespace_id)) in
  match found with [] => Err NotInitialized | _ => Ok found end.

(** [audit_head_on]: ORDER BY sequence DESC LIMIT 1 *)
Definition audit_head (d : Db) : result StorageError AuditHead :=
  match head (order_by (fun a b => au_sequence b <=? au_sequence a) (rows (db_audit d))) with
  | Some r =>
      let? sequence := parse_uint u64_max (au_sequence r) in
      let? commitment := parse_array 32 (au_commitment r) in
      Ok {| head_sequence := sequence; head_commitment := commitment |}
  | None => Ok {| head_sequence := 0; head_commitment := zeros 32 |}
  end.

(** [SqliteStore::audit_records_after] *)
Definition audit_records_after (d : Db) (after_sequence lim : Z)
  : result StorageError (list AuditRecord) :=
  if (lim =? 0) || (1000 <? lim) then Err Conflict
  else
    let? after := sql_i64 after_sequence in
    result_mapM parse_audit
      (limit lim (order_by (fun a b => au_sequence a <=? au_sequence b)
        (select (fun r => after <? au_sequence r) (db_audit d)))).

(** [SqliteStore::secret] *)
Definition secret (d : Db) (secret_id : SecretId) : result StorageError SecretRecord :=
  let? r := ok_or NotInitialized (find_secret d (arr secret_id)) in
  parse_secret secret_id r (current_schedule d r).

(** [SqliteStore::secrets_in_lifecycle_after] *)
Definition secrets_in_lifecycle_after (d : Db) (namespace_id : NamespaceId)
    (lifecycle_state : string) (after : option SecretId) (lim : Z)
  : result StorageError (list SecretRecord) :=
  if lim =? 0 then Err InvalidData
  else if negb (text_in ["active"; "archived"; "deleted"] lifecycle_state) then Err InvalidData
  else
    let found := limit lim (order_by blob_leb
      (sec_secret_id <$> select (fun r =>
         blob_eqb (sec_namespace_id r) (arr namespace_id)
         && after_cursor after (sec_secret_id r)
         && bool_decide (sec_lifecycle_state r = lifecycle_state)) (db_secrets d))) in
    let? ids := result_mapM parse_uuid found in
    result_mapM (secret d) ids.

(** [SqliteStore::secrets_after] *)
Definition secrets_after (d : Db) (namespace_id : NamespaceId) (after : option SecretId) (lim : Z)
  : result StorageError (list SecretRecord) :=
  secrets_in_lifecycle_after d namespace_id "active" after lim.

(** [SqliteStore::secret_by_name_index] *)
Definition secret_by_name_index (d : Db) (namespace_id : NamespaceId) (name_index : array 32)
  : result StorageError (option SecretRecord) :=
  transpose ((fun r => let? secret_id := parse_uuid (sec_secret_id r) in
                       parse_secret secret_id r (current_schedule d r))
    <$> select_one (fun r => blob_eqb (sec_namespace_id r) (arr namespace_id)
                             && blob_eqb (sec_name_index r) (arr name_index)) (db_secrets d)).

(** [SqliteStore::encrypted_secret_version] *)
Definition encrypted_secret_version (d : Db) (secret_id : SecretId) (version : Z)
  : result StorageError EncryptedRecord :=
  let? version := sql_i64 version in
  let? v := ok_or NotInitialized (find_version d (arr secret_id) version) in
  parse_encrypted (sv_payload_nonce v) (sv_payload_ciphertext v) (sv_dek_nonce v)
    (sv_wrapped_dek v) (sv_kek_version v).

Definition version_record (v : VersionRow) : result StorageError SecretVersionRecord :=
  let? version := parse_uint u64_max (sv_version v) in
  let? actor := parse_opt_uuid (sv_created_by v) in
  Ok {| svr_version := version;
        svr_schedule := {| expires_at_unix_ms := sv_expires_at v;
                           rotation_due_at_unix_ms := sv_rotation_due_at v |};
        svr_created_by_principal_id := actor; svr_created_at_unix_ms := sv_created_at v |}.

(** [SqliteStore::secret_versions_after] *)
Definition secret_versions_after (d : Db) (secret_id : SecretId) (after_version lim : Z)
  : result StorageError (list SecretVersionRecord) :=
  if lim =? 0 then Err InvalidData
  else
    let? after := sql_i64 after_version in
    result_mapM version_record
      (limit lim (order_by (fun a b => sv_version a <=? sv_version b)
        (select (fun v => blob_eqb (sv_secret_id v) (arr secret_id) && (after <? sv_version v))
           (db_versions d)))).

(** The key of [scheduled_secrets_due]'s ORDER BY. *)
Definition due_at (v : VersionRow) : Z :=
  Z.min (default i64_max (sv_expires_at v)) (default i64_max (sv_rotation_due_at v)).
Definition is_due (now : Z) (v : VersionRow) : bool :=
  is_some_and (sv_expires_at v) (fun e => e <=? now)
  || is_some_and (sv_rotation_due_at v) (fun e => e <=? now).

(** [SqliteStore::scheduled_secrets_due] *)
Definition scheduled_secrets_due (d : Db) (now_unix_ms lim : Z)
  : result StorageError (list ScheduledSecret) :=
  if (now_unix_ms <? 0) || (lim =? 0) || (1000 <? lim) then Err Conflict
  else
    let joined := s ← select (fun s => bool_decide (sec_lifecycle_state s = "active")) (db_secrets d);
                  v ← select (fun v => blob_eqb (sv_secret_id v) (sec_secret_id s)
                                       && (sv_version v =? sec_current_version s)
                                       && is_due now_unix_ms v) (db_versions d);
                  [(s, v)] in
    result_mapM (fun sv : SecretRow * VersionRow =>
      let? secret_id := parse_uuid (sec_secret_id sv.1) in
      let? version := parse_uint u64_max (sv_version sv.2) in
      Ok {| sch_secret_id := secret_id; sch_version := version;
            sch_schedule := {| expires_at_unix_ms := sv_expires_at sv.2;
                               rotation_due_at_unix_ms := sv_rotation_due_at sv.2 |} |})
      (limit lim (order_by (fun a b : SecretRow * VersionRow =>
         (due_at a.2 <? due_at b.2)
         || ((due_at a.2 =? due_at b.2) && blob_leb (sec_secret_id a.1) (sec_secret_id b.1))) joined)).

(** * Mutations *)

(** [require_audit_head] *)
Definition require_audit_head (audit : AuditRecord) : StoreTx unit :=
  let! head := tx_read audit_head in
  tx_reject (negb (ar_sequence audit =? head_sequence head + 1)
             || negb (bool_decide (ar_previous_commitment audit = head_commitment head))) Conflict.

(** The row written by [insert_audit]. *)
Definition audit_row (a : AuditRecord) : AuditRow :=
  {| au_sequence := ar_sequence a; au_event_id := arr (ar_event_id a);
     au_installation_id := arr (ar_installation_id a); au_recovery_epoch := ar_recovery_epoch a;
     au_occurred_at := ar_occurred_at_unix_ms a; au_request_id := arr (ar_request_id a);
     au_actor_principal_id := arr <$> ar_actor_principal_id a; au_action := ar_action a;
     au_target_kind := ar_target_kind a; au_target_id := arr <$> ar_target_id a;
     au_outcome := ar_outcome a; au_previous_commitment := arr (ar_previous_commitment a);
     au_commitment := arr (ar_commitment a); au_commitment_version := ar_commitment_version a;
     au_credential_kind := ar_credential_kind a; au_credential_id := arr <$> ar_credential_id a |}.

(** [insert_audit] *)
Definition insert_audit (audit : AuditRecord) : StoreTx unit :=
  let! _ := tx_lift (sql_i64 (ar_sequence audit)) in
  let! _ := tx_lift (sql_i64 (ar_recovery_epoch audit)) in
  tx_insert audit_schema db_audit set_audit (audit_row audit).

(** [SqliteStore::append_audit] *)
Definition append_audit (audit : AuditRecord) : Store unit :=
  transact (require_audit_head audit ;; insert_audit audit ;; tx_commit).

(** The row written by [create_namespace]. *)
Definition namespace_row (n : NamespaceInsert) : NamespaceRow :=
  {| ns_namespace_id := arr (ni_namespace_id n);
     ns_parent_namespace_id := arr <$> ni_parent_namespace_id n;
     ns_name_index := arr (ni_name_index n); ns_metadata_version := 1;
     ns_metadata_nonce := arr (er_nonce (ni_metadata n));
     ns_metadata_ciphertext := er_ciphertext (ni_metadata n);
     ns_dek_nonce := arr (er_dek_nonce (ni_metadata n));
     ns_wrapped_dek := arr (er_wrapped_dek (ni_metadata n));
     ns_kek_version := er_kek_version (ni_metadata n);
     ns_lifecycle_state := "active"; ns_revision := 1;
     ns_state_commitment := arr (ni_state_commitment n);
     ns_created_at := ni_created_at_unix_ms n; ns_updated_at := ni_created_at_unix_ms n |}.

(** The parent of a namespace must exist once the statement is done; the row
    itself counts. *)
Definition parent_key_holds (parent : option NamespaceId) (d : Db) : bool :=
  match parent with None => true | Some p => namespace_exists (arr p) d end.

(** [SqliteStore::create_namespace] *)
Definition create_namespace (n : NamespaceInsert) (audit : AuditRecord) : Store unit :=
  transact (
    require_audit_head audit ;;
    let! changed := tx_insert_or_ignore namespaces_schema db_namespaces set_namespaces (namespace_row n) in
    tx_require (fun d => (changed =? 0) || parent_key_holds (ni_parent_namespace_id n) d) ;;
    tx_reject (negb (changed =? 1)) Conflict ;;
    insert_audit audit ;;
    tx_commit).

(** [SqliteStore::move_namespace] *)
Definition move_namespace (namespace_id : NamespaceId) (expected_revision : Z)
    (new_parent : option NamespaceId) (new_name_index next_state_commitment : array 32)
    (updated_at_unix_ms : Z) (audit : AuditRecord) : Store Z :=
  transact (
    let! next_revision := tx_lift (ok_or Conflict (checked_add u64_max expected_revision 1)) in
    require_audit_head audit ;;
    let! next_revision_sql := tx_lift (sql_i64 next_revision) in
    let! expected_sql := tx_lift (sql_i64 expected_revision) in
    let! changed := tx_update namespaces_schema db_namespaces set_namespaces
      (fun r => blob_eqb (ns_namespace_id r) (arr namespace_id)
                && (ns_revision r =? expected_sql)
                && bool_decide (ns_lifecycle_state r = "active"))
      (fun r => {| ns_namespace_id := ns_namespace_id r;
                   ns_parent_namespace_id := arr <$> new_parent;
                   ns_name_index := arr new_name_index;
                   ns_metadata_version := ns_metadata_version r;
                   ns_metadata_nonce := ns_metadata_nonce r;
                   ns_metadata_ciphertext := ns_metadata_ciphertext r;
                   ns_dek_nonce := ns_dek_nonce r; ns_wrapped_dek := ns_wrapped_dek r;
                   ns_kek_version := ns_kek_version r;
                   ns_lifecycle_state := ns_lifecycle_state r;
                   ns_revision := next_revision_sql;
                   ns_state_commitment := arr next_state_commitment;
                   ns_created_at := ns_created_at r; ns_updated_at := updated_at_unix_ms |}) in
    tx_require (fun d => (changed =? 0) || parent_key_holds new_parent d) ;;
    tx_reject (negb (changed =? 1)) Conflict ;;
    insert_audit audit ;;
    tx_commit ;;
    tx_ret next_revision).

(** The row written by [insert_version]. *)
Definition version_row (secret_id : SecretId) (version : Z) (payload : EncryptedRecord)
    (schedule : SecretSchedule) (actor : option PrincipalId) (created_at : Z) : VersionRow :=
  {| sv_secret_id := arr secret_id; sv_version := version; sv_envelope_version := 1;
     sv_algorithm_suite := 1; sv_kek_version := er_kek_version payload;
     sv_payload_nonce := arr (er_nonce payload); sv_payload_ciphertext := er_ciphertext payload;
     sv_dek_nonce := arr (er_dek_nonce payload); sv_wrapped_dek := arr (er_wrapped_dek payload);
     sv_expires_at := expires_at_unix_ms schedule;
     sv_rotation_due_at := rotation_due_at_unix_ms schedule;
     sv_created_by := arr <$> actor; sv_created_at := created_at |}.

(** [insert_version] *)
Definition insert_version (secret_id : SecretId) (version : Z) (payload : EncryptedRecord)
    (schedule : SecretSchedule) (actor : option PrincipalId) (created_at : Z) : StoreTx unit :=
  let! version := tx_lift (sql_i64 version) in
  tx_insert versions_schema db_versions set_versions
    (version_row secret_id version payload schedule actor created_at) ;;
  tx_require (secret_exists (arr secret_id)).

(** The row written by [create_secret]. *)
Definition secret_row (s : SecretInsert) : SecretRow :=
  {| sec_secret_id := arr (sn_secret_id s); sec_namespace_id := arr (sn_namespace_id s);
     sec_name_index := arr (sn_name_index s); sec_metadata_version := 1;
     sec_metadata_nonce := arr (er_nonce (sn_metadata s));
     sec_metadata_ciphertext := er_ciphertext (sn_metadata s);
     sec_metadata_dek_nonce := arr (er_dek_nonce (sn_metadata s));
     sec_metadata_wrapped_dek := arr (er_wrapped_dek (sn_metadata s));
     sec_metadata_kek_version := er_kek_version (sn_metadata s);
     sec_lifecycle_state := "active"; sec_current_version := 1; sec_revision := 1;
     sec_state_commitment := arr (sn_state_commitment s);
     sec_created_at := sn_created_at_unix_ms s; sec_updated_at := sn_created_at_unix_ms s;
     sec_deleted_at := None |}.

(** [SqliteStore::create_secret] *)
Definition create_secret (s : SecretInsert) (audit : AuditRecord) : Store unit :=
  transact (
    require_audit_head audit ;;
    let! changed := tx_insert_or_ignore secrets_schema db_secrets set_secrets (secret_row s) in
    tx_require (fun d => (changed =? 0) || namespace_exists (arr (sn_namespace_id s)) d) ;;
    tx_reject (negb (changed =? 1)) Conflict ;;
    insert_version (sn_secret_id s) 1 (sn_payload s) (sn_schedule s)
      (sn_created_by_principal_id s) (sn_created_at_unix_ms s) ;;
    insert_audit audit ;;
    tx_commit).

Definition set_version_pointer (version : Z) (commitment : blob) (updated_at : Z) (r : SecretRow)
  : SecretRow :=
  {| sec_secret_id := sec_secret_id r; sec_namespace_id := sec_namespace_id r;
     sec_name_index := sec_name_index r; sec_metadata_version := sec_metadata_version r;
     sec_metadata_nonce := sec_metadata_nonce r;
     sec_metadata_ciphertext := sec_metadata_ciphertext r;
     sec_metadata_dek_nonce := sec_metadata_dek_nonce r;
     sec_metadata_wrapped_dek := sec_metadata_wrapped_dek r;
     sec_metadata_kek_version := sec_metadata_kek_version r;
     sec_lifecycle_state := sec_lifecycle_state r; sec_current_version := version;
     sec_revision := sec_revision r + 1; sec_state_commitment := commitment;
     sec_created_at := sec_created_at r; sec_updated_at := updated_at;
     sec_deleted_at := sec_deleted_at r |}.

(** [SqliteStore::append_secret_version]. The sum [revision + 1] past the i64
    range becomes a REAL, which a STRICT integer column refuses. *)
Definition append_secret_version (v : SecretVersionInsert) (audit : AuditRecord) : Store Z :=
  transact (
    let! next_version := tx_lift (ok_or Conflict (checked_add u64_max (vi_expected_current_version v) 1)) in
    let! next_version_sql := tx_lift (sql_i64 next_version) in
    let! expected_current_sql := tx_lift (sql_i64 (vi_expected_current_version v)) in
    let! expected_revision_sql := tx_lift (sql_i64 (vi_expected_revision v)) in
    require_audit_head audit ;;
    let! current := tx_read (fun d => ok_or Conflict (find_secret d (arr (vi_secret_id v)))) in
    tx_reject (negb (sec_current_version current =? expected_current_sql)
               || negb (sec_revision current =? expected_revision_sql)
               || negb (bool_decide (sec_lifecycle_state current = "active"))) Conflict ;;
    insert_version (vi_secret_id v) next_version (vi_payload v) (vi_schedule v)
      (vi_created_by_principal_id v) (vi_created_at_unix_ms v) ;;
    tx_reject (i64_max <? expected_revision_sql + 1) Sqlite ;;
    let! changed := tx_update secrets_schema db_secrets set_secrets
      (fun r => blob_eqb (sec_secret_id r) (arr (vi_secret_id v))
                && (sec_current_version r =? expected_current_sql)
                && (sec_revision r =? expected_revision_sql)
                && bool_decide (sec_lifecycle_state r = "active"))
      (set_version_pointer next_version_sql (arr (vi_next_state_commitment v))
         (vi_created_at_unix_ms v)) in
    tx_reject (negb (changed =? 1)) Conflict ;;
    insert_audit audit ;;
    tx_commit ;;
    tx_ret next_version).

Definition set_lifecycle (state : string) (revision updated_at : Z) (deleted_at : option Z)
    (commitment : blob) (r : SecretRow) : SecretRow :=
  {| sec_secret_id := sec_secret_id r; sec_namespace_id := sec_namespace_id r;
     sec_name_index := sec_name_index r; sec_metadata_version := sec_metadata_version r;
     sec_metadata_nonce := sec_metadata_nonce r;
     sec_metadata_ciphertext := sec_metadata_ciphertext r;
     sec_metadata_dek_nonce := sec_metadata_dek_nonce r;
     sec_metadata_wrapped_dek := sec_metadata_wrapped_dek r;
     sec_metadata_kek_version := sec_metadata_kek_version r;
     sec_lifecycle_state := state; sec_current_version := sec_current_version r;
     sec_revision := revision; sec_state_commitment := commitment;
     sec_created_at := sec_created_at r; sec_updated_at := updated_at;
     sec_deleted_at := deleted_at |}.

(** [SqliteStore::change_secret_lifecycle] *)
Definition change_secret_lifecycle (c : SecretLifecycleChange) (audit : AuditRecord) : Store Z :=
  transact (
    let! expected_revision := tx_lift (sql_i64 (lc_expected_revision c)) in
    let! next_revision := tx_lift (ok_or Conflict (checked_add u64_max (lc_expected_revision c) 1)) in
    let! next_revision_sql := tx_lift (sql_i64 next_revision) in
    let deleted_at := if bool_decide (lc_to_state c = "deleted")
                      then Some (lc_changed_at_unix_ms c) else None in
    require_audit_head audit ;;
    let! changed := tx_update secrets_schema db_secrets set_secrets
      (fun r => blob_eqb (sec_secret_id r) (arr (lc_secret_id c))
                && (sec_revision r =? expected_revision)
                && bool_decide (sec_lifecycle_state r = lc_from_state c))
      (set_lifecycle (lc_to_state c) next_revision_sql (lc_changed_at_unix_ms c) deleted_at
         (arr (lc_next_state_commitment c))) in
    tx_reject (negb (changed =? 1)) Conflict ;;
    insert_audit audit ;;
    tx_commit ;;
    tx_ret next_revision).

(** DELETE on a table guarded by a smcv_mutation_guard trigger. *)
Definition tx_guarded_delete {A} (get : Db -> table A) (set : table A -> Db -> Db) (p : A -> bool)
  : StoreTx unit :=
  fun d => if negb (db_purge_enabled d) && negb (count p (get d) =? 0) then Err Sqlite
           else Ok (tt, set (sql_delete p (get d)) d).

(** [SqliteStore::purge_secret]. Foreign keys are deferred to the commit,
    except ON DELETE RESTRICT, which holds at the DELETE of the secret. *)
Definition purge_secret (p : SecretPurge) (audit : AuditRecord) : Store unit :=
  transact (
    let! expected_revision := tx_lift (sql_i64 (sp_expected_revision p)) in
    require_audit_head audit ;;
    let! r := tx_read (fun d => ok_or Conflict
      (select_one (fun r => blob_eqb (sec_secret_id r) (arr (sp_secret_id p))
                            && (sec_revision r =? expected_revision)
                            && bool_decide (sec_lifecycle_state r = "deleted")) (db_secrets d))) in
    let! deleted_at := tx_lift (ok_or Sqlite (sec_deleted_at r)) in
    tx_reject (sp_retention_cutoff_unix_ms p <? deleted_at) Conflict ;;
    tx_modify (set_purge_enabled true) ;;
    tx_insert tombstones_schema db_tombstones set_tombstones
      {| tomb_secret_id := arr (sp_secret_id p); tomb_namespace_id := sec_namespace_id r;
         tomb_name_index := sec_name_index r; tomb_last_version := sec_current_version r;
         tomb_purged_at := sp_purged_at_unix_ms p;
         tomb_retention_cutoff := sp_retention_cutoff_unix_ms p |} ;;
    tx_guarded_delete db_versions set_versions
      (fun v => blob_eqb (sv_secret_id v) (arr (sp_secret_id p))) ;;
    tx_require (fun d => negb (existsb (fun v => blob_eqb (sv_secret_id v) (arr (sp_secret_id p)))
                                 (rows (db_versions d)))) ;;
    tx_guarded_delete db_secrets set_secrets
      (fun r => blob_eqb (sec_secret_id r) (arr (sp_secret_id p))) ;;
    tx_modify (set_purge_enabled false) ;;
    insert_audit audit ;;
    tx_commit).
