(* ===== verification/StoreInv.v ===== *)
(** The invariant of the stored state, and the audit log as a hash chain.

    [db_ok] collects what every mutation of the storage crate keeps: the
    constraints of each table, the foreign keys, the closed lifecycle of
    secrets, dense version histories, and an audit log whose events number from
    one and each name the commitment of the one before. *)
From Stdlib Require Import ZArith Lia String.
From stdpp Require Import base tactics numbers option strings list sorting.
From S2P Require Import Prelude RustStd Core Sql Schema Records.

(** ** The audit chain *)

(** The end of a chain: the last sequence and the last commitment. *)
Fixpoint chain_end (seq : Z) (commitment : blob) (l : list AuditRow) : Z * blob :=
  match l with
  | [] => (seq, commitment)
  | r :: l' => chain_end (au_sequence r) (au_commitment r) l'
  end.

(** Each event follows its predecessor. *)
Fixpoint linked (seq : Z) (commitment : blob) (l : list AuditRow) : Prop :=
  match l with
  | [] => True
  | r :: l' => au_sequence r = seq + 1 /\ au_sequence r <= i64_max
               /\ au_previous_commitment r = commitment
               /\ linked (au_sequence r) (au_commitment r) l'
  end.

Definition chain_origin : blob := arr (zeros 32).
Definition audit_linked (d : Db) : Prop := linked 0 chain_origin (rows (db_audit d)).
Definition audit_end (d : Db) : Z * blob := chain_end 0 chain_origin (rows (db_audit d)).

(** ** The invariant *)

Record tables_ok (d : Db) : Prop := {
  ok_keys : table_ok keys_schema (db_keys d);
  ok_namespaces : table_ok namespaces_schema (db_namespaces d);
  ok_secrets : table_ok secrets_schema (db_secrets d);
  ok_versions : table_ok versions_schema (db_versions d);
  ok_tombstones : table_ok tombstones_schema (db_tombstones d);
  ok_audit_table : table_ok audit_schema (db_audit d);
  ok_jobs : table_ok jobs_schema (db_jobs d);
  ok_principals : table_ok principals_schema (db_principals d);
  ok_authenticators : table_ok authenticators_schema (db_authenticators d);
  ok_sessions : table_ok sessions_schema (db_sessions d);
  ok_services : table_ok services_schema (db_services d);
  ok_credentials : table_ok credentials_schema (db_credentials d);
  ok_policies : table_ok policies_schema (db_policies d);
  ok_grants : table_ok grants_schema (db_grants d);
  ok_bindings : table_ok bindings_schema (db_bindings d);
  ok_idempotency : table_ok idempotency_schema (db_idempotency d) }.

(** Lifecycle of a stored secret: never the state 'purged', and a deletion
    time exactly when it is deleted. *)
Definition lifecycle_ok (s : SecretRow) : Prop :=
  sec_lifecycle_state s ∈ ["active"; "archived"; "deleted"]
  /\ (is_Some (sec_deleted_at s) <-> sec_lifecycle_state s = "deleted").

(** The versions of a secret are exactly 1 to its current version. *)
Definition history_ok (versions : list VersionRow) (s : SecretRow) : Prop :=
  forall k, (exists v, v ∈ versions /\ sv_secret_id v = sec_secret_id s /\ sv_version v = k)
            <-> 1 <= k <= sec_current_version s.

Definition secret_width (s : SecretRow) : Prop :=
  sec_revision s <= i64_max /\ sec_current_version s <= i64_max
  /\ sec_metadata_version s <= i64_max /\ sec_metadata_kek_version s <= u32_max.

Record secrets_ok (namespaces : list NamespaceRow) (secrets : list SecretRow)
    (versions : list VersionRow) : Prop := {
  ok_in_namespace s : s ∈ secrets ->
    exists n, n ∈ namespaces /\ ns_namespace_id n = sec_namespace_id s;
  ok_has_secret v : v ∈ versions -> exists s, s ∈ secrets /\ sec_secret_id s = sv_secret_id v;
  ok_history s : s ∈ secrets -> history_ok versions s;
  ok_lifecycle s : s ∈ secrets -> lifecycle_ok s;
  ok_secret_width s : s ∈ secrets -> secret_width s;
  ok_version_width v : v ∈ versions -> sv_kek_version v <= u32_max }.

Record namespaces_ok (l : list NamespaceRow) : Prop := {
  ok_parent r p : r ∈ l -> ns_parent_namespace_id r = Some p ->
    exists n, n ∈ l /\ ns_namespace_id n = p;
  ok_namespace_width r : r ∈ l ->
    ns_revision r <= i64_max /\ ns_metadata_version r <= i64_max /\ ns_kek_version r <= u32_max }.

Record db_ok (d : Db) : Prop := {
  ok_tables : tables_ok d;
  ok_ns : namespaces_ok (rows (db_namespaces d));
  ok_sec : secrets_ok (rows (db_namespaces d)) (rows (db_secrets d)) (rows (db_versions d));
  ok_guard : db_purge_enabled d = false;
  ok_linked : audit_linked d }.

(** Integers a caller passes are in the range of their Rust type. *)
Definition er_typed (r : EncryptedRecord) : Prop := 0 <= er_kek_version r <= u32_max.

(** * Lemmas *)

Lemma chain_end_app seq c l r : chain_end seq c (l ++ [r]) = (au_sequence r, au_commitment r).
Proof. revert seq c. induction l as [|x l IH]; intros; simpl; auto. Qed.

Lemma linked_app seq c l r :
  linked seq c l -> au_sequence r = (chain_end seq c l).1 + 1 -> au_sequence r <= i64_max ->
  au_previous_commitment r = (chain_end seq c l).2 -> linked seq c (l ++ [r]).
Proof.
  revert seq c. induction l as [|x l IH]; intros seq c; simpl; [tauto|].
  intros (? & ? & ? & ?) ???. eauto.
Qed.

Lemma linked_seq seq c l : linked seq c l -> Forall (fun r => seq < au_sequence r <= i64_max) l.
Proof.
  revert seq c. induction l as [|x l IH]; intros seq c; simpl; [constructor|].
  intros (? & ? & _ & Hl). constructor; [lia|]. eapply Forall_impl; [by eapply IH|]. simpl. lia.
Qed.

Lemma linked_increasing seq c l :
  linked seq c l -> StronglySorted (fun a b => au_sequence a < au_sequence b) l.
Proof.
  revert seq c. induction l as [|x l IH]; intros seq c; simpl; [constructor|].
  intros (? & ? & _ & Hl). constructor; [by eapply IH|].
  eapply Forall_impl; [by eapply linked_seq|]. simpl. lia.
Qed.

Section Order.
Context {A : Type} (le : A -> A -> bool).

Lemma sort_insert_last a l : Forall (fun b => le a b = false) l -> sort_insert le a l = l ++ [a].
Proof. induction 1 as [|b l Hb Hl IH]; simpl; [done|]. by rewrite Hb, IH. Qed.

Lemma order_by_rev l :
  StronglySorted (fun a b => le a b = false) l -> order_by le l = rev l.
Proof.
  induction 1 as [|a l Hl IH Ha]; simpl; [done|]. change (foldr (sort_insert le) [] l) with (order_by le l).
  rewrite IH. apply sort_insert_last. by rewrite <- Permutation_rev.
Qed.

Lemma order_by_id l :
  StronglySorted (fun a b => le a b = true) l -> order_by le l = l.
Proof.
  induction 1 as [|a l Hl IH Ha]; simpl; [done|]. change (foldr (sort_insert le) [] l) with (order_by le l).
  rewrite IH. destruct Ha as [|b l Hb _]; simpl; [done|]. by rewrite Hb.
Qed.
End Order.

Lemma StronglySorted_impl {A} (R R' : A -> A -> Prop) l :
  (forall a b, R a b -> R' a b) -> StronglySorted R l -> StronglySorted R' l.
Proof. intros HR. induction 1; constructor; [done|]. eapply Forall_impl; eauto. Qed.

(** The head of the log is the end of the chain. *)
Lemma audit_head_end d :
  table_ok audit_schema (db_audit d) -> audit_linked d ->
  exists h, audit_head d = Ok h /\ audit_end d = (head_sequence h, arr (head_commitment h))
            /\ 0 <= head_sequence h <= i64_max.
Proof.
  unfold audit_linked, audit_end, audit_head. intros [HC _ _]. revert HC.
  generalize (rows (db_audit d)). intros l HC Hl.
  assert (order_by (fun a b => au_sequence b <=? au_sequence a) l = rev l) as ->.
  { apply order_by_rev. eapply StronglySorted_impl; [|by eapply linked_increasing].
    simpl. intros. apply Z.leb_gt. lia. }
  destruct (list_eq_nil_dec l) as [->|Hne].
  { simpl. eexists. split; [done|]. done. }
  destruct (exists_last Hne) as (l' & r & ->).
  rewrite rev_app_distr, chain_end_app. simpl.
  apply Forall_app in HC as [_ HC]. inversion HC as [|?? Hr _]; subst.
  assert (0 < au_sequence r <= i64_max) as Hseq.
  { pose proof (linked_seq _ _ _ Hl) as HF. apply Forall_app in HF as [_ HF]. by inversion HF. }
  assert (length (au_commitment r) = 32%nat) as H32.
  { cbn [audit_schema sc_check] in Hr. bprop. unfold blob_len, zlen in Hr. bprop. lia. }
  unfold parse_uint, try_from, parse_array.
  replace ((0 <=? au_sequence r) && (au_sequence r <=? u64_max)) with true.
  2:{ symmetry. apply andb_true_iff. rewrite !Z.leb_le. unfold i64_max, u64_max in *. lia. }
  destruct (try_array 32 (au_commitment r)) as [c|] eqn:E; [|by apply try_array_None in E].
  simpl. apply try_array_Some in E as E'. eexists. split; [done|]. simpl. rewrite E'. split; [done|lia].
Qed.

(** ** The two audit steps of a transaction *)

(** The event the transaction was prepared for extends the log. *)
Definition extends (d : Db) (a : AuditRecord) : Prop :=
  exists h, audit_head d = Ok h /\ ar_sequence a = head_sequence h + 1
            /\ ar_previous_commitment a = head_commitment h.

Lemma require_audit_head_Ok a d u d' :
  require_audit_head a d = Ok (u, d') <-> d' = d /\ extends d a.
Proof.
  unfold require_audit_head, extends. split.
  - intros H. minv. bprop. naive_solver.
  - intros (-> & h & Hh & Hs & Hc). unfold tx_bind, tx_read. rewrite Hh. unfold tx_reject.
    rewrite Hs, Hc, Z.eqb_refl, bool_decide_true by done. by destruct u.
Qed.

Lemma insert_audit_Ok a d u d' :
  insert_audit a d = Ok (u, d') <->
  ar_sequence a = Z.max 0 (Z.min i64_max (ar_sequence a))
  /\ ar_recovery_epoch a = Z.max 0 (Z.min i64_max (ar_recovery_epoch a))
  /\ exists t, sql_insert audit_schema (audit_row a) (db_audit d) = Some t /\ d' = set_audit t d.
Proof.
  unfold insert_audit, sql_i64, tx_bind, tx_lift. split.
  - destruct (try_from i64_max (ar_sequence a)) as [s|] eqn:Es; simpl; [|done].
    destruct (try_from i64_max (ar_recovery_epoch a)) as [e|] eqn:Ee; simpl; [|done].
    apply try_from_Some in Es as [-> ?], Ee as [-> ?].
    intros (t & ? & ->)%tx_insert_Ok. split_and!; [lia..|eauto].
  - intros (Hs & He & t & Ht & ->).
    assert (forall z, z = Z.max 0 (Z.min i64_max z) -> try_from i64_max z = Some z) as Hz.
    { intros z Hz. apply try_from_Some. unfold i64_max in *. lia. }
    rewrite (Hz _ Hs), (Hz _ He). cbn [ok_or]. apply tx_insert_Ok. eauto.
Qed.

(** ** Tables: a statement on one of them leaves the rest alone. *)

Create HintDb tables discriminated.
#[export] Hint Resolve sql_insert_ok sql_update_ok sql_delete_ok table_ok_nil : tables.
#[export] Hint Resolve ok_keys ok_namespaces ok_secrets ok_versions ok_tombstones ok_audit_table
  ok_jobs ok_principals ok_authenticators ok_sessions ok_services ok_credentials ok_policies
  ok_grants ok_bindings ok_idempotency ok_tables : tables.

Lemma tables_ok_empty : tables_ok empty_db.
Proof. split; apply table_ok_nil. Qed.

Lemma db_ok_empty : db_ok empty_db.
Proof.
  split; [apply tables_ok_empty|split|split|done|done];
    intros; match goal with H : _ ∈ _ |- _ => by apply not_elem_of_nil in H end.
Qed.

(** Appending the event of a transaction. *)
Lemma tables_ok_audit d t a :
  tables_ok d -> sql_insert audit_schema a (db_audit d) = Some t -> tables_ok (set_audit t d).
Proof. intros [] Ha. split; cbn; eauto with tables. Qed.

Lemma linked_insert d a t :
  table_ok audit_schema (db_audit d) -> audit_linked d -> extends d a ->
  ar_sequence a = Z.max 0 (Z.min i64_max (ar_sequence a)) ->
  sql_insert audit_schema (audit_row a) (db_audit d) = Some t ->
  linked 0 chain_origin (rows t).
Proof.
  intros Ht Hl (h & Hh & Hs & Hc) Hw (-> & _ & _)%sql_insert_Some.
  destruct (audit_head_end d Ht Hl) as (h' & Hh' & He & Hb). rewrite Hh in Hh'. simplify_eq.
  rewrite rows_insert. unfold audit_end in He. apply linked_app; rewrite ?He; cbn; [done|lia|lia|].
  by rewrite Hc.
Qed.
