(* ===== verification/RecordsOk.v ===== *)
(** What the mutations of Records.v keep and do: every one of them preserves
    [db_ok] and appends exactly its audit event. *)
From Stdlib Require Import ZArith Lia String.
From stdpp Require Import base tactics numbers option strings list sorting.
From S2P Require Import Prelude RustStd Core Sql Schema Records StoreInv.

(** ** Reflection of the existence tests *)

Lemma existsb_rows {A} (p : A -> bool) (l : list A) :
  existsb p l = true <-> exists a, a ∈ l /\ p a = true.
Proof. rewrite existsb_exists. by setoid_rewrite list_elem_of_In. Qed.

Lemma blob_eqb_true a b : blob_eqb a b = true <-> a = b.
Proof. apply bool_decide_eq_true. Qed.
Lemma blob_eqb_refl a : blob_eqb a a = true.
Proof. by apply blob_eqb_true. Qed.
Lemma blob_eqb_false a b : blob_eqb a b = false <-> a <> b.
Proof. apply bool_decide_eq_false. Qed.
#[export] Hint Rewrite blob_eqb_true blob_eqb_false : smcv_bool.

Lemma namespace_exists_true id d :
  namespace_exists id d = true <-> exists n, n ∈ rows (db_namespaces d) /\ ns_namespace_id n = id.
Proof. unfold namespace_exists. rewrite existsb_rows. by setoid_rewrite blob_eqb_true. Qed.

Lemma secret_exists_true id d :
  secret_exists id d = true <-> exists s, s ∈ rows (db_secrets d) /\ sec_secret_id s = id.
Proof. unfold secret_exists. rewrite existsb_rows. by setoid_rewrite blob_eqb_true. Qed.

(** ** Keys *)

Lemma secret_id_unique d a b :
  tables_ok d -> a ∈ rows (db_secrets d) -> b ∈ rows (db_secrets d) ->
  sec_secret_id a = sec_secret_id b -> a = b.
Proof.
  intros H Ha Hb E. eapply unique_row; [by apply ok_secrets|done..|].
  eapply (clash_at _ _ _ 0); simpl; by rewrite ?E.
Qed.

Lemma namespace_id_unique d a b :
  tables_ok d -> a ∈ rows (db_namespaces d) -> b ∈ rows (db_namespaces d) ->
  ns_namespace_id a = ns_namespace_id b -> a = b.
Proof.
  intros H Ha Hb E. eapply unique_row; [by apply ok_namespaces|done..|].
  eapply (clash_at _ _ _ 0); simpl; by rewrite ?E.
Qed.

Lemma version_key_unique d a b :
  tables_ok d -> a ∈ rows (db_versions d) -> b ∈ rows (db_versions d) ->
  sv_secret_id a = sv_secret_id b -> sv_version a = sv_version b -> a = b.
Proof.
  intros H Ha Hb E E'. eapply unique_row; [by apply ok_versions|done..|].
  eapply (clash_at _ _ _ 0); simpl; by rewrite ?E, ?E'.
Qed.

(** A lookup by a unique key finds the row that has it. *)
Lemma select_one_key {A} (p : A -> bool) (t : table A) a :
  a ∈ rows t -> p a = true -> (forall b, b ∈ rows t -> p b = true -> b = a) ->
  select_one p t = Some a.
Proof.
  intros Ha Hp Hu. unfold select_one. assert (a ∈ select p t) as Hs by by apply elem_of_select.
  destruct (select p t) as [|b l] eqn:E; [by apply not_elem_of_nil in Hs|]. simpl. f_equal.
  assert (b ∈ select p t) as [Hb Hpb]%elem_of_select by (rewrite E; left). auto.
Qed.

Lemma find_secret_Some d id s :
  tables_ok d -> find_secret d id = Some s <-> s ∈ rows (db_secrets d) /\ sec_secret_id s = id.
Proof.
  intros H. split.
  - intros [Hs E%blob_eqb_true]%select_one_Some. done.
  - intros [Hs <-]. apply select_one_key; [done|apply blob_eqb_refl|].
    intros b Hb E%blob_eqb_true. by eapply secret_id_unique.
Qed.

Lemma find_namespace_Some d id n :
  tables_ok d ->
  find_namespace d id = Some n <-> n ∈ rows (db_namespaces d) /\ ns_namespace_id n = id.
Proof.
  intros H. split.
  - intros [Hs E%blob_eqb_true]%select_one_Some. done.
  - intros [Hs <-]. apply select_one_key; [done|apply blob_eqb_refl|].
    intros b Hb E%blob_eqb_true. by eapply namespace_id_unique.
Qed.

Lemma find_version_Some d id k v :
  tables_ok d ->
  find_version d id k = Some v <->
  v ∈ rows (db_versions d) /\ sv_secret_id v = id /\ sv_version v = k.
Proof.
  intros H. split.
  - intros [Hs E]%select_one_Some. bprop. tauto.
  - intros (Hs & <- & <-). apply select_one_key; [done|by rewrite blob_eqb_refl, Z.eqb_refl|].
    intros b Hb E. bprop. destruct E. by eapply version_key_unique.
Qed.

(** ** The components of the invariant under the statements *)

Lemma namespaces_ok_insert (t : table NamespaceRow) n :
  namespaces_ok (rows t) ->
  (forall p, ns_parent_namespace_id n = Some p ->
     exists m, m ∈ rows (insert_row n t) /\ ns_namespace_id m = p) ->
  ns_revision n <= i64_max -> ns_metadata_version n <= i64_max -> ns_kek_version n <= u32_max ->
  namespaces_ok (rows (insert_row n t)).
Proof.
  intros [Hp Hw] Hn ???. split.
  - intros r p [Hr| ->]%elem_of_rows_insert E; [|auto].
    destruct (Hp r p Hr E) as (m & ? & ?). exists m. rewrite elem_of_rows_insert. auto.
  - intros r [Hr| ->]%elem_of_rows_insert; auto.
Qed.

Lemma namespaces_ok_update (t : table NamespaceRow) q f :
  namespaces_ok (rows t) -> (forall r, ns_namespace_id (f r) = ns_namespace_id r) ->
  (forall r p, r ∈ rows t -> q r = true -> ns_parent_namespace_id (f r) = Some p ->
     exists m, m ∈ rows t /\ ns_namespace_id m = p) ->
  (forall r, r ∈ rows t -> q r = true ->
     ns_revision (f r) <= i64_max /\ ns_metadata_version (f r) <= i64_max /\ ns_kek_version (f r) <= u32_max) ->
  namespaces_ok (rows (update_rows q f t)).
Proof.
  intros [Hp Hw] Hid Hf Hfw. split.
  - intros r p (b & Hb & ->)%elem_of_rows_update E.
    assert (exists m, m ∈ rows t /\ ns_namespace_id m = p) as (m & Hm & <-)
      by (destruct (q b) eqn:Eq; eauto).
    exists (if q m then f m else m). split; [apply elem_of_rows_update; eauto|].
    destruct (q m); auto.
  - intros r (b & Hb & ->)%elem_of_rows_update. destruct (q b) eqn:Eq; auto.
Qed.

Lemma secrets_ok_namespaces l l' secrets versions :
  secrets_ok l secrets versions ->
  (forall n, n ∈ l -> exists n', n' ∈ l' /\ ns_namespace_id n' = ns_namespace_id n) ->
  secrets_ok l' secrets versions.
Proof.
  intros [H1 H2 H3 H4 H5 H6] Hl. split; auto. intros s Hs.
  destruct (H1 s Hs) as (n & Hn & <-). auto.
Qed.

Lemma secrets_ok_insert l (ts : table SecretRow) (tv : table VersionRow) s v :
  secrets_ok l (rows ts) (rows tv) ->
  (exists n, n ∈ l /\ ns_namespace_id n = sec_namespace_id s) ->
  (forall s', s' ∈ rows ts -> sec_secret_id s' <> sec_secret_id s) ->
  sv_secret_id v = sec_secret_id s -> sv_version v = 1 -> sec_current_version s = 1 ->
  lifecycle_ok s -> secret_width s -> sv_kek_version v <= u32_max ->
  secrets_ok l (rows (insert_row s ts)) (rows (insert_row v tv)).
Proof.
  intros [H1 H2 H3 H4 H5 H6] Hn Hf Hv Hv1 Hc Hl Hw Hk. split.
  - intros s' [Hs| ->]%elem_of_rows_insert; auto.
  - intros v' [Hs| ->]%elem_of_rows_insert.
    + destruct (H2 v' Hs) as (s' & ? & ?). exists s'. rewrite elem_of_rows_insert. auto.
    + exists s. rewrite elem_of_rows_insert. auto.
  - intros s' Hs' k. setoid_rewrite elem_of_rows_insert.
    apply elem_of_rows_insert in Hs' as [Hs| ->].
    + rewrite <- (H3 s' Hs k). split; [|naive_solver].
      intros (v' & [?| ->] & E & ?); [eauto|]. exfalso. eapply Hf; [done|congruence].
    + rewrite Hc. split.
      * intros (v' & [Hv'| ->] & E & <-); [|lia]. exfalso.
        destruct (H2 v' Hv') as (s' & Hs' & E'). eapply Hf; [exact Hs'|congruence].
      * intros. exists v. split; [auto|]. split; [done|lia].
  - intros s' [Hs| ->]%elem_of_rows_insert; auto.
  - intros s' [Hs| ->]%elem_of_rows_insert; auto.
  - intros v' [Hs| ->]%elem_of_rows_insert; auto.
Qed.

(** A change of some rows that keeps identity, namespace and current version. *)
Lemma secrets_ok_update l (ts : table SecretRow) versions q f :
  secrets_ok l (rows ts) versions ->
  (forall s, s ∈ rows ts -> q s = true ->
     sec_secret_id (f s) = sec_secret_id s /\ sec_namespace_id (f s) = sec_namespace_id s
     /\ sec_current_version (f s) = sec_current_version s /\ lifecycle_ok (f s) /\ secret_width (f s)) ->
  secrets_ok l (rows (update_rows q f ts)) versions.
Proof.
  intros [H1 H2 H3 H4 H5 H6] Hf. split; auto.
  - intros s (b & Hb & ->)%elem_of_rows_update. destruct (q b) eqn:E; [|auto].
    destruct (Hf b Hb E) as (_ & -> & _). auto.
  - intros v Hv. destruct (H2 v Hv) as (s & Hs & <-). exists (if q s then f s else s).
    split; [apply elem_of_rows_update; eauto|]. destruct (q s) eqn:E; [|done]. by apply Hf.
  - intros s (b & Hb & ->)%elem_of_rows_update. destruct (q b) eqn:E; [|auto].
    destruct (Hf b Hb E) as (E1 & _ & E3 & _). unfold history_ok. rewrite E1, E3. by apply H3.
  - intros s (b & Hb & ->)%elem_of_rows_update. destruct (q b) eqn:E; [|auto]. by apply Hf.
  - intros s (b & Hb & ->)%elem_of_rows_update. destruct (q b) eqn:E; [|auto]. by apply Hf.
Qed.

(** A new version and the pointer moved to it. *)
Lemma secrets_ok_append l (ts : table SecretRow) (tv : table VersionRow) q f v :
  secrets_ok l (rows ts) (rows tv) ->
  (forall s s', s ∈ rows ts -> s' ∈ rows ts -> sec_secret_id s = sec_secret_id s' -> s = s') ->
  (forall s, s ∈ rows ts -> q s = true <-> sec_secret_id s = sv_secret_id v) ->
  (exists s, s ∈ rows ts /\ sec_secret_id s = sv_secret_id v) ->
  (forall s, s ∈ rows ts -> q s = true ->
     sec_secret_id (f s) = sec_secret_id s /\ sec_namespace_id (f s) = sec_namespace_id s
     /\ sv_version v = sec_current_version s + 1 /\ sec_current_version (f s) = sv_version v
     /\ lifecycle_ok (f s) /\ secret_width (f s)) ->
  sv_kek_version v <= u32_max -> (forall s, s ∈ rows ts -> 0 < sec_current_version s) ->
  secrets_ok l (rows (update_rows q f ts)) (rows (insert_row v tv)).
Proof.
  intros [H1 H2 H3 H4 H5 H6] Hu Hq Hex Hf Hk Hpos. split; auto.
  - intros s (b & Hb & ->)%elem_of_rows_update. destruct (q b) eqn:E; [|auto].
    destruct (Hf b Hb E) as (_ & -> & _). auto.
  - intros v' Hv'. assert (exists s, s ∈ rows ts /\ sec_secret_id s = sv_secret_id v') as (s & Hs & <-)
      by (apply elem_of_rows_insert in Hv' as [?| ->]; auto).
    exists (if q s then f s else s). split; [apply elem_of_rows_update; eauto|].
    destruct (q s) eqn:E; [|done]. by apply Hf.
  - intros s (b & Hb & ->)%elem_of_rows_update. specialize (Hpos b Hb). destruct (q b) eqn:E.
    + destruct (Hf b Hb E) as (E1 & _ & E3 & E4 & _). intros k.
      rewrite E1, E4, E3. setoid_rewrite elem_of_rows_insert. pose proof (H3 b Hb k) as Hk'.
      apply Hq in E; [|done]. split.
      * intros (v' & [?| ->] & ? & ?); [|lia]. assert (1 <= k <= sec_current_version b); [|lia].
        apply Hk'. eauto.
      * intros ?. destruct (decide (k = sec_current_version b + 1)) as [->|].
        -- exists v. auto.
        -- destruct (proj2 Hk') as (v' & ? & ? & ?); [lia|]. eauto.
    + intros k. setoid_rewrite elem_of_rows_insert. rewrite <- (H3 b Hb k). split; [|naive_solver].
      intros (v' & [?| ->] & E' & ?); [eauto|]. symmetry in E'. apply Hq in E'; [congruence|done].
  - intros s (b & Hb & ->)%elem_of_rows_update. destruct (q b) eqn:E; [|auto]. by apply Hf.
  - intros s (b & Hb & ->)%elem_of_rows_update. destruct (q b) eqn:E; [|auto]. by apply Hf.
  - intros v' [?| ->]%elem_of_rows_insert; auto.
Qed.

Lemma secrets_ok_delete l (ts : table SecretRow) (tv : table VersionRow) id :
  secrets_ok l (rows ts) (rows tv) ->
  secrets_ok l (rows (sql_delete (fun s => blob_eqb (sec_secret_id s) id) ts))
               (rows (sql_delete (fun v => blob_eqb (sv_secret_id v) id) tv)).
Proof.
  intros [H1 H2 H3 H4 H5 H6]. split.
  - intros s [Hs _]%elem_of_rows_delete. auto.
  - intros v [Hv Hne]%elem_of_rows_delete. destruct (H2 v Hv) as (s & Hs & E). exists s.
    rewrite elem_of_rows_delete, E. done.
  - intros s [Hs Hne]%elem_of_rows_delete k. rewrite <- (H3 s Hs k). split.
    + intros (v & [Hv _]%elem_of_rows_delete & ?). eauto.
    + intros (v & Hv & E & ?). exists v. rewrite elem_of_rows_delete, E. done.
  - intros s [Hs _]%elem_of_rows_delete. auto.
  - intros s [Hs _]%elem_of_rows_delete. auto.
  - intros v [Hv _]%elem_of_rows_delete. auto.
Qed.

(** ** Every mutation: one event appended, the invariant kept *)

(** On success the operation appends exactly the event [a], which extends the
    log it found. *)
Definition audited {A} (a : AuditRecord) (m : Store A) : Prop :=
  forall d x d', m d = (Ok x, d') ->
    extends d a /\ rows (db_audit d') = rows (db_audit d) ++ [audit_row a].

Definition preserves {A} (m : Store A) : Prop :=
  forall d x d', m d = (Ok x, d') -> db_ok d -> db_ok d'.

(** Decompose a successful transaction down to its statements. *)
Ltac txn :=
  repeat (sinv; repeat match goal with
    | H : require_audit_head _ _ = Ok (_, _) |- _ => apply require_audit_head_Ok in H
    | H : insert_audit _ _ = Ok (_, _) |- _ => apply insert_audit_Ok in H
    | H : sql_insert_or_ignore _ _ _ = (?n, _), H' : negb (?n =? 1) = false |- _ =>
        apply negb_false_iff, Z.eqb_eq in H'; subst n; apply sql_insert_or_ignore_1 in H
    end).

Lemma audit_rows_insert a t t' :
  sql_insert audit_schema a t = Some t' -> rows t' = rows t ++ [a].
Proof. intros (-> & _)%sql_insert_Some. apply rows_insert. Qed.

Lemma append_audit_audited a : audited a (append_audit a).
Proof.
  intros d x d' H. unfold append_audit in H. txn. split; [done|]. cbn. by apply audit_rows_insert.
Qed.

Lemma create_namespace_audited n a : audited a (create_namespace n a).
Proof.
  intros d x d' H. unfold create_namespace in H. txn. split; [done|]. cbn in *. by apply audit_rows_insert.
Qed.

Lemma move_namespace_audited id r p i c u a : audited a (move_namespace id r p i c u a).
Proof.
  intros d x d' H. unfold move_namespace in H. txn. split; [done|]. cbn in *. by apply audit_rows_insert.
Qed.

Lemma create_secret_audited s a : audited a (create_secret s a).
Proof.
  intros d x d' H. unfold create_secret, insert_version in H. txn. split; [done|]. cbn in *.
  by apply audit_rows_insert.
Qed.

Lemma append_secret_version_audited v a : audited a (append_secret_version v a).
Proof.
  intros d x d' H. unfold append_secret_version, insert_version in H. txn. split; [done|]. cbn in *.
  by apply audit_rows_insert.
Qed.

Lemma change_secret_lifecycle_audited c a : audited a (change_secret_lifecycle c a).
Proof.
  intros d x d' H. unfold change_secret_lifecycle in H. txn. split; [done|]. cbn in *.
  by apply audit_rows_insert.
Qed.

Lemma tx_guarded_delete_Ok {A} (get : Db -> table A) set p d u d' :
  tx_guarded_delete get set p d = Ok (u, d') ->
  d' = set (sql_delete p (get d)) d /\ (db_purge_enabled d = true \/ count p (get d) = 0).
Proof.
  unfold tx_guarded_delete. case_match eqn:E; [done|]. intros [= <- <-]. split; [done|].
  destruct (db_purge_enabled d); [by left|right]. simpl in E. by apply negb_false_iff, Z.eqb_eq in E.
Qed.

Ltac txn_purge :=
  repeat (txn; repeat match goal with
    | H : tx_guarded_delete _ _ _ _ = Ok (_, _) |- _ => apply tx_guarded_delete_Ok in H as [-> _]
    end).

Lemma purge_secret_audited p a : audited a (purge_secret p a).
Proof.
  intros d x d' H. unfold purge_secret in H. txn_purge. split; [done|]. cbn in *. by apply audit_rows_insert.
Qed.

Lemma extends_same d d' a : db_audit d' = db_audit d -> extends d a -> extends d' a.
Proof. unfold extends, audit_head. by intros ->. Qed.

Lemma insert_audit_preserves d a u d' :
  insert_audit a d = Ok (u, d') -> extends d a -> db_ok d -> db_ok d'.
Proof.
  intros (Hs & _ & t & Ht & ->)%insert_audit_Ok He [H1 H2 H3 H4 H5]. split; cbn; try done.
  - by eapply tables_ok_audit.
  - eapply linked_insert; eauto with tables.
Qed.

(** Decompose a successful transaction but for the insertion of its event. *)
Ltac txn0 :=
  repeat (sinv; repeat match goal with
    | H : require_audit_head _ _ = Ok (_, _) |- _ => apply require_audit_head_Ok in H
    | H : sql_insert_or_ignore _ _ _ = (?n, _), H' : negb (?n =? 1) = false |- _ =>
        apply negb_false_iff, Z.eqb_eq in H'; subst n; apply sql_insert_or_ignore_1 in H
    | H : tx_guarded_delete _ _ _ _ = Ok (_, _) |- _ => apply tx_guarded_delete_Ok in H as [-> _]
    end).
Ltac finish_audit :=
  match goal with H : insert_audit _ _ = Ok (_, ?d) |- db_ok ?d =>
    apply (insert_audit_preserves _ _ _ _ H); [by eapply extends_same; [|eassumption]|] end.

Lemma append_audit_preserves a : preserves (append_audit a).
Proof. intros d x d' H Hok. unfold append_audit in H. txn0. by finish_audit. Qed.

Lemma parent_key_holds_true p d :
  parent_key_holds p d = true ->
  forall q, arr <$> p = Some q -> exists n, n ∈ rows (db_namespaces d) /\ ns_namespace_id n = q.
Proof. destruct p as [p|]; simpl; [|done]. intros H q [= <-]. by apply namespace_exists_true. Qed.

Lemma create_namespace_preserves n a :
  er_typed (ni_metadata n) -> preserves (create_namespace n a).
Proof.
  intros Hty d x d' H Hok. unfold create_namespace in H. txn0. finish_audit.
  match goal with H : sql_insert _ _ _ = Some _ |- _ => rename H into Hins end.
  match goal with H : _ || parent_key_holds _ _ = true |- _ => rename H into Hp end.
  cbn in Hp. pose proof (parent_key_holds_true _ _ Hp) as Hp'. destruct Hok as [HT HN HS HG HL].
  apply sql_insert_Some in Hins as Hi. destruct Hi as (-> & Hc & Hf). cbn in *.
  split; cbn; try done.
  - destruct HT. split; cbn; eauto with tables.
  - apply namespaces_ok_insert; cbn; [done|by apply Hp'|done|done|unfold er_typed in *; lia].
  - eapply secrets_ok_namespaces; [done|]. intros m Hm. exists m. rewrite elem_of_rows_insert. auto.
Qed.

Lemma move_namespace_preserves id r p i c u a : preserves (move_namespace id r p i c u a).
Proof.
  intros d x d' H Hok. unfold move_namespace in H. txn0. finish_audit.
  match goal with H : negb (_ =? 1) = false |- _ => apply negb_false_iff, Z.eqb_eq in H; subst end.
  match goal with H : _ || parent_key_holds _ _ = true |- _ => cbn in H; rename H into Hp end.
  match goal with H : sql_update _ _ _ _ = Some _ |- _ => rename H into Hupd end.
  match goal with H : sql_i64 x0 = Ok _ |- _ => apply ok_or_Ok, try_from_Some in H as [-> ?] end.
  destruct Hok as [HT HN HS HG HL]. apply sql_update_Some in Hupd as Hu. destruct Hu as (_ & -> & _).
  pose proof (parent_key_holds_true _ _ Hp) as Hp'. cbn in *. split; cbn; try done.
  - destruct HT. split; cbn; eauto with tables.
  - apply namespaces_ok_update; cbn; [done|done| |].
    + intros _ q _ _ E. destruct (Hp' q E) as (m & (b & Hb & ->)%elem_of_rows_update & <-).
      exists b. split; [done|]. by destruct (_ && _).
    + intros b Hb _. destruct (ok_namespace_width _ HN b Hb) as (? & ? & ?). split; [lia|]. done.
  - eapply secrets_ok_namespaces; [done|]. intros m Hm. eexists. split; [apply elem_of_rows_update; eauto|].
    by destruct (_ && _).
Qed.

Lemma insert_version_Ok id k p sch actor at_ d u d' :
  insert_version id k p sch actor at_ d = Ok (u, d') ->
  0 <= k <= i64_max /\ secret_exists (arr id) d = true
  /\ sql_insert versions_schema (version_row id k p sch actor at_) (db_versions d)
     = Some (insert_row (version_row id k p sch actor at_) (db_versions d))
  /\ d' = set_versions (insert_row (version_row id k p sch actor at_) (db_versions d)) d.
Proof.
  unfold insert_version. intros H. sinv.
  match goal with H : sql_i64 _ = Ok _ |- _ => apply ok_or_Ok, try_from_Some in H as [-> ?] end.
  match goal with H : sql_insert _ _ _ = Some _ |- _ => apply sql_insert_Some in H as Hi; destruct Hi as (-> & _) end.
  done.
Qed.

Lemma secret_row_fresh d s :
  (forall b, b ∈ rows (db_secrets d) -> clash secrets_schema s b = false) ->
  forall b, b ∈ rows (db_secrets d) -> sec_secret_id b <> sec_secret_id s.
Proof.
  intros Hf b Hb E. specialize (Hf b Hb). rewrite (clash_at _ _ _ 0 [VBlob (sec_secret_id s)]) in Hf;
    simpl; by rewrite ?E.
Qed.

Lemma create_secret_preserves s a :
  er_typed (sn_metadata s) -> er_typed (sn_payload s) -> preserves (create_secret s a).
Proof.
  intros Hm Hp d x d' H Hok. unfold create_secret in H. txn0.
  match goal with H : insert_version _ _ _ _ _ _ _ = _ |- _ => apply insert_version_Ok in H as (_ & _ & Hv & ->) end.
  finish_audit.
  match goal with H : sql_insert secrets_schema _ _ = Some _ |- _ => rename H into Hins end.
  match goal with H : _ || namespace_exists _ _ = true |- _ => cbn in H; apply namespace_exists_true in H; rename H into Hn end.
  destruct Hok as [HT HN HS HG HL]. apply sql_insert_Some in Hins as Hi. destruct Hi as (-> & Hc & Hf). cbn in *.
  split; cbn; try done.
  - destruct HT. split; cbn; eauto with tables.
  - apply secrets_ok_insert; cbn; try done.
    + by apply (secret_row_fresh d (secret_row s)).
    + split; cbn; [left|]. split; [by intros []|done].
    + unfold secret_width, i64_max, er_typed in *. cbn. lia.
    + unfold er_typed in *. lia.
Qed.

Lemma secret_positive d s : tables_ok d -> s ∈ rows (db_secrets d) -> 0 < sec_current_version s.
Proof.
  intros H Hs. pose proof (table_ok_check _ _ _ (ok_secrets _ H) Hs) as Hc. cbn in Hc. bprop. tauto.
Qed.

Lemma append_secret_version_preserves v a :
  er_typed (vi_payload v) -> preserves (append_secret_version v a).
Proof.
  intros Hp d x d' H Hok. unfold append_secret_version in H. txn0.
  match goal with H : insert_version _ _ _ _ _ _ _ = _ |- _ => apply insert_version_Ok in H as (Hk & _ & Hv & ->) end.
  finish_audit.
  match goal with H : checked_add _ _ _ = Some _ |- _ => apply checked_add_Some in H as [-> ?] end.
  repeat match goal with H : sql_i64 _ = Ok _ |- _ => apply ok_or_Ok, try_from_Some in H as [-> ?] end.
  match goal with H : sql_update secrets_schema _ _ _ = Some _ |- _ => rename H into Hu end.
  match goal with H : find_secret _ _ = Some ?r |- _ => rename H into Hs; rename r into cur end.
  destruct Hok as [HT HN HS HG HL]. apply find_secret_Some in Hs as [Hs Eid]; [|done].
  bprop. apply sql_update_Some in Hu as Hu'. destruct Hu' as (_ & -> & _). cbn in *.
  destruct_and!. split; cbn; try done.
  - destruct HT. split; cbn; eauto with tables.
  - apply secrets_ok_append; cbn; try done.
    + intros. by eapply secret_id_unique.
    + intros s' Hs'. bprop. split; [tauto|]. intros E.
      assert (s' = cur) as -> by (eapply secret_id_unique; [done..|congruence]). tauto.
    + eauto.
    + intros s' Hs' E. bprop. destruct_and!. destruct (ok_lifecycle _ _ _ HS s' Hs') as [? ?].
      destruct (ok_secret_width _ _ _ HS s' Hs') as (? & ? & ? & ?).
      unfold secret_width, lifecycle_ok. cbn. repeat split; try done; lia || tauto.
    + unfold er_typed in *. lia.
    + intros. by eapply secret_positive.
Qed.

(** The transitions a caller may ask for stay inside the three stored states. *)
Definition to_state_ok (c : SecretLifecycleChange) : Prop :=
  lc_to_state c ∈ ["active"; "archived"; "deleted"].

Lemma change_secret_lifecycle_preserves c a :
  to_state_ok c -> preserves (change_secret_lifecycle c a).
Proof.
  intros Hto d x d' H Hok. unfold change_secret_lifecycle in H. txn0. finish_audit.
  repeat match goal with H : sql_i64 _ = Ok _ |- _ => apply ok_or_Ok, try_from_Some in H as [-> ?] end.
  match goal with H : sql_update secrets_schema _ _ _ = Some _ |- _ => rename H into Hu end.
  destruct Hok as [HT HN HS HG HL]. apply sql_update_Some in Hu as Hu'. destruct Hu' as (_ & -> & _). cbn in *.
  split; cbn; try done.
  - destruct HT. split; cbn; eauto with tables.
  - apply secrets_ok_update; [done|]. intros s Hs _. cbn.
    destruct (ok_secret_width _ _ _ HS s Hs) as (? & ? & ? & ?).
    do 3 (split; [done|]). unfold lifecycle_ok, secret_width. cbn. split; [|split; [lia|done]].
    split; [done|]. case_bool_decide; [by split|]. split; [by intros []|done].
Qed.

Lemma purge_secret_preserves p a : preserves (purge_secret p a).
Proof.
  intros d x d' H Hok. unfold purge_secret in H. txn0. finish_audit.
  match goal with H : sql_insert tombstones_schema _ _ = Some _ |- _ => rename H into Hi end.
  destruct Hok as [HT HN HS HG HL]. cbn in *. split; cbn; try done.
  - destruct HT. split; cbn; eauto with tables.
  - by apply secrets_ok_delete.
Qed.

(** ** The commit never fails *)

Lemma deferred_keys_ok d : db_ok d -> deferred_keys_hold d = true.
Proof.
  intros [HT _ HS _ _]. apply forallb_forall. intros s Hs%list_elem_of_In.
  destruct (proj2 (ok_history _ _ _ HS s Hs (sec_current_version s))) as (v & Hv & E1 & E2).
  { pose proof (secret_positive d s HT Hs). lia. }
  apply existsb_rows. exists v. rewrite E1, E2, blob_eqb_refl, Z.eqb_refl. done.
Qed.

Lemma deferred_keys_frame d d' :
  db_secrets d' = db_secrets d -> db_versions d' = db_versions d ->
  deferred_keys_hold d' = deferred_keys_hold d.
Proof. unfold deferred_keys_hold, version_exists. by intros -> ->. Qed.
