(* ===== verification/PolicyStore.v ===== *)
(** src/crates/smcv-storage/src/authorization.rs and idempotency.rs: policies,
    grants, bindings, the authenticated revision of the authorization graph,
    and idempotency reservations. *)
From Stdlib Require Import ZArith Lia String.
From stdpp Require Import base tactics numbers option strings list.
From S2P Require Import Prelude RustStd Core Sql Schema Records StoreInv RecordsOk.

Record PolicyRecord : Type := {
  po_policy_id : PolicyId;
  po_revision : Z;
  po_state : string;
  po_metadata_version : Z;
  po_metadata : EncryptedRecord;
  po_state_commitment : array 32;
  po_created_at_unix_ms : Z;
  po_updated_at_unix_ms : Z }.

Record PolicyInsert : Type := {
  pi_policy_id : PolicyId;
  pi_metadata : EncryptedRecord;
  pi_state_commitment : array 32;
  pi_created_at_unix_ms : Z }.

Record PolicyGrantRecord : Type := {
  pg_grant_id : GrantId;
  pg_policy_id : PolicyId;
  pg_action : Action;
  pg_resource_kind : ResourceKind;
  pg_resource_id : ObjectId;
  pg_include_descendants : bool;
  pg_created_by_principal_id : PrincipalId;
  pg_created_at_unix_ms : Z;
  pg_state_commitment : array 32 }.

Record PolicyBindingRecord : Type := {
  pb_principal_id : PrincipalId;
  pb_policy_id : PolicyId;
  pb_created_by_principal_id : PrincipalId;
  pb_created_at_unix_ms : Z;
  pb_state_commitment : array 32 }.

Record AuthorizationState : Type := {
  as_revision : Z;
  as_state_commitment : array 32 }.

Record AuthorizationSnapshot : Type := {
  snap_state : AuthorizationState;
  snap_policies : list PolicyRecord;
  snap_grants : list PolicyGrantRecord;
  snap_bindings : list PolicyBindingRecord }.

(** [parse_policy] *)
Definition parse_policy (r : PolicyRow) : result StorageError PolicyRecord :=
  let? policy_id := parse_uuid (pol_policy_id r) in
  let? revision := parse_uint u64_max (pol_revision r) in
  let? metadata_version := parse_uint u64_max (pol_metadata_version r) in
  let? nonce := parse_array 24 (pol_metadata_nonce r) in
  let? dek_nonce := parse_array 24 (pol_metadata_dek_nonce r) in
  let? wrapped_dek := parse_array 48 (pol_metadata_wrapped_dek r) in
  let? kek_version := parse_uint u32_max (pol_metadata_kek_version r) in
  let? state_commitment := parse_array 32 (pol_state_commitment r) in
  Ok {| po_policy_id := policy_id; po_revision := revision; po_state := pol_state r;
        po_metadata_version := metadata_version;
        po_metadata := {| er_nonce := nonce; er_ciphertext := pol_metadata_ciphertext r;
                          er_dek_nonce := dek_nonce; er_wrapped_dek := wrapped_dek;
                          er_kek_version := kek_version |};
        po_state_commitment := state_commitment;
        po_created_at_unix_ms := pol_created_at r; po_updated_at_unix_ms := pol_updated_at r |}.

(** [parse_grant] *)
Definition parse_grant (r : GrantRow) : result StorageError PolicyGrantRecord :=
  let? grant_id := parse_uuid (gr_grant_id r) in
  let? policy_id := parse_uuid (gr_policy_id r) in
  let? action := ok_or InvalidData (action_from_str (gr_action r)) in
  let? resource_kind := if String.eqb (gr_resource_kind r) "namespace" then Ok KNamespace
                        else if String.eqb (gr_resource_kind r) "secret" then Ok KSecret
                        else Err InvalidData in
  let? resource_id := parse_uuid (gr_resource_id r) in
  let? include_descendants := if gr_include_descendants r =? 0 then Ok false
                              else if gr_include_descendants r =? 1 then Ok true
                              else Err InvalidData in
  let? created_by := parse_uuid (gr_created_by r) in
  let? state_commitment := parse_array 32 (gr_state_commitment r) in
  Ok {| pg_grant_id := grant_id; pg_policy_id := policy_id; pg_action := action;
        pg_resource_kind := resource_kind; pg_resource_id := resource_id;
        pg_include_descendants := include_descendants;
        pg_created_by_principal_id := created_by; pg_created_at_unix_ms := gr_created_at r;
        pg_state_commitment := state_commitment |}.

(** [parse_binding] *)
Definition parse_binding (r : BindingRow) : result StorageError PolicyBindingRecord :=
  let? principal_id := parse_uuid (bd_principal_id r) in
  let? policy_id := parse_uuid (bd_policy_id r) in
  let? created_by := parse_uuid (bd_created_by r) in
  let? state_commitment := parse_array 32 (bd_state_commitment r) in
  Ok {| pb_principal_id := principal_id; pb_policy_id := policy_id;
        pb_created_by_principal_id := created_by; pb_created_at_unix_ms := bd_created_at r;
        pb_state_commitment := state_commitment |}.

(** ORDER BY on BLOB columns. *)
Definition by_blob {A} (key : A -> blob) (a b : A) : bool := blob_leb (key a) (key b).
Definition by_blob2 {A} (key1 key2 : A -> blob) (a b : A) : bool :=
  blob_ltb (key1 a) (key1 b) || (blob_eqb (key1 a) (key1 b) && blob_leb (key2 a) (key2 b)).

(** [SqliteStore::authorization_snapshot] *)
Definition authorization_snapshot (d : Db) : result StorageError AuthorizationSnapshot :=
  let? revision := parse_uint u64_max (db_authz_revision d) in
  let? commitment := parse_array 32 (db_authz_commitment d) in
  let? policies := result_mapM parse_policy (order_by (by_blob pol_policy_id) (rows (db_policies d))) in
  let? grants := result_mapM parse_grant (order_by (by_blob gr_grant_id) (rows (db_grants d))) in
  let? bindings := result_mapM parse_binding
    (order_by (by_blob2 bd_principal_id bd_policy_id) (rows (db_bindings d))) in
  Ok {| snap_state := {| as_revision := revision; as_state_commitment := commitment |};
        snap_policies := policies; snap_grants := grants; snap_bindings := bindings |}.

(** [advance_authorization_state] *)
Definition advance_authorization_state (expected_revision next_revision : Z) (commitment : array 32)
  : StoreTx unit :=
  let! next := tx_lift (sql_i64 next_revision) in
  let! expected := tx_lift (sql_i64 expected_revision) in
  let! current := tx_read (fun d => Ok (db_authz_revision d)) in
  tx_reject (negb (current =? expected)) Conflict ;;
  tx_reject (next <=? 0) Sqlite ;;
  tx_modify (fun d => set_authz_commitment (arr commitment) (set_authz_revision next d)).

(** The row written by [create_policy]. *)
Definition policy_row (p : PolicyInsert) : PolicyRow :=
  {| pol_policy_id := arr (pi_policy_id p); pol_revision := 1; pol_state := "active";
     pol_metadata_version := 1; pol_metadata_nonce := arr (er_nonce (pi_metadata p));
     pol_metadata_ciphertext := er_ciphertext (pi_metadata p);
     pol_metadata_dek_nonce := arr (er_dek_nonce (pi_metadata p));
     pol_metadata_wrapped_dek := arr (er_wrapped_dek (pi_metadata p));
     pol_metadata_kek_version := er_kek_version (pi_metadata p);
     pol_state_commitment := arr (pi_state_commitment p);
     pol_created_at := pi_created_at_unix_ms p; pol_updated_at := pi_created_at_unix_ms p |}.

(** [SqliteStore::create_policy] *)
Definition create_policy (p : PolicyInsert) (expected_revision : Z) (commitment : array 32)
    (audit : AuditRecord) : Store Z :=
  transact (
    let! next_revision := tx_lift (ok_or Conflict (checked_add u64_max expected_revision 1)) in
    require_audit_head audit ;;
    tx_insert policies_schema db_policies set_policies (policy_row p) ;;
    advance_authorization_state expected_revision next_revision commitment ;;
    insert_audit audit ;;
    tx_commit ;;
    tx_ret next_revision).

(** The row written by [add_policy_grant]. *)
Definition grant_row (g : PolicyGrantRecord) : GrantRow :=
  {| gr_grant_id := arr (pg_grant_id g); gr_policy_id := arr (pg_policy_id g);
     gr_action := action_as_str (pg_action g);
     gr_resource_kind := resource_kind_as_str (pg_resource_kind g);
     gr_resource_id := arr (pg_resource_id g);
     gr_include_descendants := if pg_include_descendants g then 1 else 0;
     gr_created_by := arr (pg_created_by_principal_id g);
     gr_created_at := pg_created_at_unix_ms g;
     gr_state_commitment := arr (pg_state_commitment g) |}.

(** [SqliteStore::add_policy_grant] *)
Definition add_policy_grant (g : PolicyGrantRecord) (expected_revision : Z) (commitment : array 32)
    (audit : AuditRecord) : Store Z :=
  transact (
    let! next_revision := tx_lift (ok_or Conflict (checked_add u64_max expected_revision 1)) in
    require_audit_head audit ;;
    let! active := tx_read (fun d => Ok (count (fun r =>
        blob_eqb (pol_policy_id r) (arr (pg_policy_id g))
        && bool_decide (pol_state r = "active")) (db_policies d))) in
    tx_reject (negb (active =? 1)) StateConflict ;;
    tx_insert grants_schema db_grants set_grants (grant_row g) ;;
    tx_require (fun d => policy_exists (arr (pg_policy_id g)) d
                         && principal_exists (arr (pg_created_by_principal_id g)) d) ;;
    advance_authorization_state expected_revision next_revision commitment ;;
    insert_audit audit ;;
    tx_commit ;;
    tx_ret next_revision).

Definition archive_policy_row (revision : Z) (commitment : blob) (updated_at : Z) (r : PolicyRow)
  : PolicyRow :=
  {| pol_policy_id := pol_policy_id r; pol_revision := revision; pol_state := "archived";
     pol_metadata_version := pol_metadata_version r; pol_metadata_nonce := pol_metadata_nonce r;
     pol_metadata_ciphertext := pol_metadata_ciphertext r;
     pol_metadata_dek_nonce := pol_metadata_dek_nonce r;
     pol_metadata_wrapped_dek := pol_metadata_wrapped_dek r;
     pol_metadata_kek_version := pol_metadata_kek_version r; pol_state_commitment := commitment;
     pol_created_at := pol_created_at r; pol_updated_at := updated_at |}.

(** [SqliteStore::archive_policy] *)
Definition archive_policy (policy_id : PolicyId) (expected_policy_revision : Z)
    (policy_commitment : array 32) (updated_at : Z) (expected_revision : Z)
    (commitment : array 32) (audit : AuditRecord) : Store (Z * Z) :=
  transact (
    let! next_policy := tx_lift (ok_or Conflict (checked_add u64_max expected_policy_revision 1)) in
    let! next_revision := tx_lift (ok_or Conflict (checked_add u64_max expected_revision 1)) in
    require_audit_head audit ;;
    let! next_policy_sql := tx_lift (sql_i64 next_policy) in
    let! expected_policy_sql := tx_lift (sql_i64 expected_policy_revision) in
    let! changed := tx_update policies_schema db_policies set_policies
      (fun r => blob_eqb (pol_policy_id r) (arr policy_id)
                && (pol_revision r =? expected_policy_sql)
                && bool_decide (pol_state r = "active"))
      (archive_policy_row next_policy_sql (arr policy_commitment) updated_at) in
    tx_reject (negb (changed =? 1)) Conflict ;;
    advance_authorization_state expected_revision next_revision commitment ;;
    insert_audit audit ;;
    tx_commit ;;
    tx_ret (next_policy, next_revision)).

(** The row written by [bind_policy]. *)
Definition binding_row (b : PolicyBindingRecord) : BindingRow :=
  {| bd_principal_id := arr (pb_principal_id b); bd_policy_id := arr (pb_policy_id b);
     bd_created_by := arr (pb_created_by_principal_id b);
     bd_created_at := pb_created_at_unix_ms b; bd_state_commitment := arr (pb_state_commitment b) |}.

(** [SqliteStore::bind_policy] *)
Definition bind_policy (b : PolicyBindingRecord) (expected_revision : Z) (commitment : array 32)
    (audit : AuditRecord) : Store Z :=
  transact (
    let! next_revision := tx_lift (ok_or Conflict (checked_add u64_max expected_revision 1)) in
    require_audit_head audit ;;
    let! active := tx_read (fun d => Ok (count (fun r =>
        blob_eqb (pr_principal_id r) (arr (pb_principal_id b))
        && bool_decide (pr_principal_kind r = "service")
        && bool_decide (pr_state r = "active")) (db_principals d))) in
    tx_reject (negb (active =? 1)) StateConflict ;;
    tx_insert bindings_schema db_bindings set_bindings (binding_row b) ;;
    tx_require (fun d => principal_exists (arr (pb_principal_id b)) d
                         && policy_exists (arr (pb_policy_id b)) d
                         && principal_exists (arr (pb_created_by_principal_id b)) d) ;;
    advance_authorization_state expected_revision next_revision commitment ;;
    insert_audit audit ;;
    tx_commit ;;
    tx_ret next_revision).

Record IdempotencyReservation : Type := {
  rsv_response_id : ObjectId;
  rsv_reused : bool }.

(** [SqliteStore::reserve_idempotency]. The stored identity of a reused
    reservation is parsed after the commit. *)
Definition reserve_idempotency (principal_id : PrincipalId)
    (key_verifier request_fingerprint : array 32) (response_kind : string)
    (proposed_response_id : ObjectId) (now expires_at : Z) : Store IdempotencyReservation :=
  do! stored := transact (
    tx_reject ((zlen (bstr response_kind) =? 0) || (32 <? zlen (bstr response_kind))
               || (expires_at <=? now)) Conflict ;;
    tx_modify (fun d => set_idempotency
      (sql_delete (fun r => idem_expires_at r <? now) (db_idempotency d)) d) ;;
    let! existing := tx_read (fun d => Ok (select_one
      (fun r => blob_eqb (idem_principal_id r) (arr principal_id)
                && blob_eqb (idem_key_verifier r) (arr key_verifier)) (db_idempotency d))) in
    match existing with
    | Some r =>
        let! response_id := tx_lift (ok_or InvalidData (idem_response_id r)) in
        tx_reject (negb (blob_eqb (idem_request_fingerprint r) (arr request_fingerprint))
                   || negb (bool_decide (idem_response_kind r = response_kind))) Conflict ;;
        tx_commit ;;
        tx_ret (Some response_id)
    | None =>
        tx_insert idempotency_schema db_idempotency set_idempotency
          {| idem_principal_id := arr principal_id; idem_key_verifier := arr key_verifier;
             idem_request_fingerprint := arr request_fingerprint;
             idem_response_kind := response_kind;
             idem_response_id := Some (arr proposed_response_id);
             idem_created_at := now; idem_expires_at := expires_at |} ;;
        tx_require (principal_exists (arr principal_id)) ;;
        tx_commit ;;
        tx_ret None
    end) in
  match stored with
  | Some bytes =>
      do! response_id := prog_lift (parse_uuid bytes) in
      prog_ret {| rsv_response_id := response_id; rsv_reused := true |}
  | None => prog_ret {| rsv_response_id := proposed_response_id; rsv_reused := false |}
  end.

(** * Every mutation keeps the invariant and appends its event *)

Lemma advance_authorization_state_Ok e n c d u d' :
  advance_authorization_state e n c d = Ok (u, d') ->
  db_authz_revision d = e /\ 0 < n <= i64_max
  /\ d' = set_authz_commitment (arr c) (set_authz_revision n d).
Proof.
  unfold advance_authorization_state. intros H. minv. bprop.
  repeat match goal with H : sql_i64 _ = Ok _ |- _ => apply ok_or_Ok, try_from_Some in H as [-> ?] end.
  split_and!; (done || lia).
Qed.

Ltac txn_policy :=
  repeat (txn0; repeat match goal with
    | H : advance_authorization_state _ _ _ _ = Ok (_, _) |- _ =>
        apply advance_authorization_state_Ok in H as (? & ? & ->)
    end).

Lemma db_ok_frame d d' :
  db_ok d -> tables_ok d' -> db_namespaces d' = db_namespaces d -> db_secrets d' = db_secrets d ->
  db_versions d' = db_versions d -> db_purge_enabled d' = db_purge_enabled d ->
  db_audit d' = db_audit d -> db_ok d'.
Proof.
  intros [H1 H2 H3 H4 H5] HT E1 E2 E3 E4 E5. split; rewrite ?E1, ?E2, ?E3, ?E4; try done.
  unfold audit_linked. by rewrite E5.
Qed.

(** Close a goal about an operation that touches none of the record tables. *)
Ltac frame_tables :=
  match goal with Hok : db_ok ?d |- db_ok _ =>
    eapply (db_ok_frame d); [exact Hok| |reflexivity..];
    destruct (ok_tables _ Hok); split; cbn in *; eauto with tables end.

Lemma create_policy_preserves p r c a : preserves (create_policy p r c a).
Proof. intros d x d' H Hok. unfold create_policy in H. txn_policy. finish_audit. frame_tables. Qed.
Lemma add_policy_grant_preserves g r c a : preserves (add_policy_grant g r c a).
Proof. intros d x d' H Hok. unfold add_policy_grant in H. txn_policy. finish_audit. frame_tables. Qed.
Lemma archive_policy_preserves i r c u e k a : preserves (archive_policy i r c u e k a).
Proof. intros d x d' H Hok. unfold archive_policy in H. txn_policy. finish_audit. frame_tables. Qed.
Lemma bind_policy_preserves b r c a : preserves (bind_policy b r c a).
Proof. intros d x d' H Hok. unfold bind_policy in H. txn_policy. finish_audit. frame_tables. Qed.

Ltac audited_op :=
  txn_policy; txn; (split; [done|]); cbn in *; by apply audit_rows_insert.

Lemma create_policy_audited p r c a : audited a (create_policy p r c a).
Proof. intros d x d' H. unfold create_policy in H. audited_op. Qed.
Lemma add_policy_grant_audited g r c a : audited a (add_policy_grant g r c a).
Proof. intros d x d' H. unfold add_policy_grant in H. audited_op. Qed.
Lemma archive_policy_audited i r c u e k a : audited a (archive_policy i r c u e k a).
Proof. intros d x d' H. unfold archive_policy in H. audited_op. Qed.
Lemma bind_policy_audited b r c a : audited a (bind_policy b r c a).
Proof. intros d x d' H. unfold bind_policy in H. audited_op. Qed.

Lemma parse_uuid_arr (u : Uuid) : parse_uuid (arr u) = Ok u.
Proof. unfold parse_uuid. by rewrite try_array_arr. Qed.
Lemma parse_array_arr {n} (u : array n) : parse_array n (arr u) = Ok u.
Proof. unfold parse_array. by rewrite try_array_arr. Qed.
Lemma parse_uint_Ok max z : 0 <= z <= max -> parse_uint max z = Ok z.
Proof. intros. unfold parse_uint. by rewrite (proj2 (try_from_Some max z z)). Qed.
Lemma sql_i64_Ok z : 0 <= z <= i64_max -> sql_i64 z = Ok z.
Proof. intros. unfold sql_i64. by rewrite (proj2 (try_from_Some i64_max z z)). Qed.

Lemma reserve_idempotency_safe p k f kind id now exp d r d' :
  reserve_idempotency p k f kind id now exp d = (r, d') -> db_ok d ->
  db_ok d' /\ db_audit d' = db_audit d.
Proof.
  unfold reserve_idempotency, prog_bind. intros H Hok.
  destruct (transact _ d) as [[stored|e] d1] eqn:Et.
  2:{ apply transact_Err in Et as [_ ->]. by simplify_eq. }
  assert (d' = d1) as ->.
  { destruct stored as [bytes|]; unfold prog_lift, prog_ret in H; [destruct (parse_uuid bytes)|];
      simpl in H; congruence. }
  clear H. apply transact_Ok in Et. sinv. case_match; sinv; (split; [|done]); frame_tables.
Qed.

(** A retry with the same principal, key and request inside the
    retention window gets the identity of the first response back, and the
    same key with another request is refused. *)
Theorem idempotency_replay p k f kind id now exp d rsv d1 f' kind' id' now' exp'
    (Hfirst : reserve_idempotency p k f kind id now exp d = (Ok rsv, d1))
    (Hok : db_ok d) (Hwin : now' <= exp) (Hfresh : rsv_reused rsv = false)
    (Hexp : now' < exp') (Hkind' : 1 <= zlen (bstr kind') <= 32) :
  exists d2, reserve_idempotency p k f' kind' id' now' exp' d1 =
    (if bool_decide (f' = f /\ kind' = kind)
     then Ok {| rsv_response_id := id; rsv_reused := true |} else Err Conflict, d2).
Proof.
  destruct (reserve_idempotency_safe _ _ _ _ _ _ _ _ _ _ Hfirst Hok) as [Hok1 _].
  unfold reserve_idempotency in Hfirst. apply prog_bind_Ok in Hfirst as (stored & d0 & Hf & Hret).
  destruct stored as [bytes|]; [exfalso; minv; done|].
  apply prog_ret_Ok in Hret as [_ ->]. apply transact_Ok in Hf. sinv. case_match; sinv.
  match goal with H : sql_insert idempotency_schema _ _ = Some _ |- _ => rename H into Hi end.
  match goal with H : db_ok ?x |- context [reserve_idempotency _ _ _ _ _ _ _ ?x] => set (d1 := x) in * end.
  set (w := Build_IdempotencyRow _ _ _ _ _ _ _) in *.
  assert (select_one (fun r => blob_eqb (idem_principal_id r) (arr p) && blob_eqb (idem_key_verifier r) (arr k))
            (sql_delete (fun r => idem_expires_at r <? now') (db_idempotency d1)) = Some w) as Hsel.
  { apply sql_insert_Some in Hi as (-> & _ & Hu). apply select_one_key.
    - rewrite elem_of_rows_delete. subst d1. cbn. rewrite elem_of_rows_insert. split; [by right|].
      apply Z.ltb_ge. done.
    - cbn. by rewrite !blob_eqb_refl.
    - intros b Hb Hpb. bprop. destruct Hpb as [E1 E2]. apply elem_of_rows_delete in Hb as [Hb _].
      subst d1. cbn in Hb. apply elem_of_rows_insert in Hb as [Hb|Hb]; [|done]. exfalso.
      specialize (Hu b Hb). rewrite (clash_at _ _ _ 0 [VBlob (arr p); VBlob (arr k)]) in Hu; [done|done|].
      simpl. by rewrite E1, E2. }
  unfold reserve_idempotency, prog_bind, transact, tx_bind, tx_reject.
  replace (_ || _ || _) with false.
  2:{ symmetry. rewrite !orb_false_iff, Z.eqb_neq, Z.ltb_ge, Z.leb_gt. lia. }
  unfold tx_modify, tx_read. cbn [db_idempotency set_idempotency]. rewrite Hsel. cbn [idem_response_id w ok_or tx_lift].
  cbn [idem_request_fingerprint idem_response_kind].
  destruct (decide (f' = f /\ kind' = kind)) as [[-> ->]|Hne].
  - rewrite blob_eqb_refl, !bool_decide_true by done. cbn [negb orb].
    unfold tx_commit, tx_require, tx_ret. rewrite (deferred_keys_frame d1), deferred_keys_ok by done.
    unfold prog_lift. rewrite parse_uuid_arr. eexists. reflexivity.
  - rewrite (bool_decide_false (f' = f /\ kind' = kind)) by done.
    replace (_ || _) with true; [eexists; reflexivity|]. symmetry. apply orb_true_iff. rewrite !negb_true_iff.
    destruct (decide (f' = f)) as [->|Hf]; [right; apply bool_decide_eq_false; naive_solver|left].
    apply blob_eqb_false. intros E%array_eq. congruence.
Qed.
