(* ===== verification/VaultStore.v ===== *)
(** src/crates/smcv-storage/src/vault.rs: the installation row, the registry of
    wrapped keys, and the bootstrap of an installation. *)
From Stdlib Require Import ZArith Lia String.
From stdpp Require Import base tactics numbers option strings list.
From S2P Require Import Prelude RustStd Core Sql Schema Records StoreInv RecordsOk PolicyStore.

Inductive ActivationState : Type := Initializing | Ready | Maintenance | Failed.
Inductive KeyKind : Type := KeyEncryption | BlindIndex | AuditKind | TokenVerifier.
Inductive KeyState : Type := KActive | KRetiring | KRetired.

#[export] Instance KeyKind_eq_decision : EqDecision KeyKind.
Proof. solve_decision. Defined.
#[export] Instance KeyState_eq_decision : EqDecision KeyState.
Proof. solve_decision. Defined.
#[export] Instance ActivationState_eq_decision : EqDecision ActivationState.
Proof. solve_decision. Defined.

(** [ActivationState::parse] *)
Definition activation_parse (value : string) : result StorageError ActivationState :=
  if String.eqb value "initializing" then Ok Initializing
  else if String.eqb value "ready" then Ok Ready
  else if String.eqb value "maintenance" then Ok Maintenance
  else if String.eqb value "failed" then Ok Failed
  else Err InvalidData.

(** [KeyState::parse] *)
Definition key_state_parse (value : string) : result StorageError KeyState :=
  if String.eqb value "active" then Ok KActive
  else if String.eqb value "retiring" then Ok KRetiring
  else if String.eqb value "retired" then Ok KRetired
  else Err InvalidData.

(** [KeyKind::as_str] *)
Definition key_kind_as_str (k : KeyKind) : string :=
  match k with
  | KeyEncryption => "kek"
  | BlindIndex => "blind_index"
  | AuditKind => "audit"
  | TokenVerifier => "token_verifier"
  end.

Record InstallationRecord : Type := {
  ir_vault_id : VaultId;
  ir_installation_id : InstallationId;
  ir_recovery_epoch : Z;
  ir_activation_state : ActivationState;
  ir_active_kek_version : option Z;
  ir_security_semantics_version : Z }.

Record WrappedKeyRecord : Type := {
  wk_kind : KeyKind;
  wk_version : Z;
  wk_object_id : ObjectId;
  wk_wrapping_kek_version : option Z;
  wk_nonce : array 24;
  wk_ciphertext : array 48 }.

Record RegisteredKey : Type := {
  rk_wrapped : WrappedKeyRecord;
  rk_state : KeyState }.

Record BootstrapRecord : Type := {
  br_vault_id : VaultId;
  br_installation_id : InstallationId;
  br_initialized_at_unix_ms : Z;
  br_key_encryption_key : WrappedKeyRecord;
  br_blind_index_key : WrappedKeyRecord;
  br_audit_key : WrappedKeyRecord;
  br_token_verifier_key : WrappedKeyRecord }.

Definition bootstrap_keys (b : BootstrapRecord) : list WrappedKeyRecord :=
  [br_key_encryption_key b; br_blind_index_key b; br_audit_key b; br_token_verifier_key b].

Inductive InitializationDisposition : Type := Begun | Resumed | AlreadyReady.

(** [parse_installation] *)
Definition parse_installation (r : InstallationRow) : result StorageError InstallationRecord :=
  let? vault := parse_uuid (inst_logical_vault_id r) in
  let? installation := parse_uuid (inst_installation_id r) in
  let? epoch := parse_uint u64_max (inst_recovery_epoch r) in
  let? state := activation_parse (inst_activation_state r) in
  let? active := transpose (parse_uint u32_max <$> inst_active_kek_version r) in
  let? semantics := parse_uint u32_max (inst_security_semantics_version r) in
  Ok {| ir_vault_id := vault; ir_installation_id := installation; ir_recovery_epoch := epoch;
        ir_activation_state := state; ir_active_kek_version := active;
        ir_security_semantics_version := semantics |}.

(** [SqliteStore::installation] *)
Definition installation (d : Db) : result StorageError (option InstallationRecord) :=
  transpose (parse_installation <$> db_installation d).

(** [parse_wrapped_key] *)
Definition parse_wrapped_key (kind : KeyKind) (version : Z) (r : KeyRow)
  : result StorageError WrappedKeyRecord :=
  let? object_id := parse_uuid (key_object_id r) in
  let? nonce := parse_array 24 (key_nonce r) in
  let? ciphertext := parse_array 48 (key_wrapped_key r) in
  let? wrapping := transpose (parse_uint u32_max <$> key_wrapping_kek_version r) in
  Ok {| wk_kind := kind; wk_version := version; wk_object_id := object_id;
        wk_wrapping_kek_version := wrapping; wk_nonce := nonce; wk_ciphertext := ciphertext |}.

(** [SqliteStore::wrapped_key] *)
Definition wrapped_key (d : Db) (kind : KeyKind) (version : Z)
  : result StorageError WrappedKeyRecord :=
  let? r := ok_or NotInitialized (select_one
    (fun r => bool_decide (key_kind r = key_kind_as_str kind) && (key_version r =? version))
    (db_keys d)) in
  parse_wrapped_key kind version r.

(** [SqliteStore::registered_keys] *)
Definition registered_keys (d : Db) (kind : KeyKind) : result StorageError (list RegisteredKey) :=
  result_mapM (fun r =>
    let? version := parse_uint u32_max (key_version r) in
    let? wrapped := parse_wrapped_key kind version r in
    let? state := key_state_parse (key_state r) in
    Ok {| rk_wrapped := wrapped; rk_state := state |})
    (order_by (fun a b => key_version a <=? key_version b)
      (select (fun r => bool_decide (key_kind r = key_kind_as_str kind)) (db_keys d))).

(** [validate_bootstrap] *)
Definition validate_bootstrap (b : BootstrapRecord) : result StorageError unit :=
  if negb (bool_decide (wk_kind (br_key_encryption_key b) = KeyEncryption))
     || negb (wk_version (br_key_encryption_key b) =? 1)
     || bool_decide (is_Some (wk_wrapping_kek_version (br_key_encryption_key b)))
     || negb (bool_decide (wk_kind (br_blind_index_key b) = BlindIndex))
     || negb (bool_decide (wk_kind (br_audit_key b) = AuditKind))
     || negb (bool_decide (wk_kind (br_token_verifier_key b) = TokenVerifier))
  then Err StateConflict
  else result_forM (fun k =>
         if negb (wk_version k =? 1) || negb (bool_decide (wk_wrapping_kek_version k = Some 1))
         then Err StateConflict else Ok tt)
       [br_blind_index_key b; br_audit_key b; br_token_verifier_key b].

(** [bootstrap_matches] *)
Definition key_differs (actual expected : WrappedKeyRecord) : bool :=
  negb (bool_decide (wk_object_id actual = wk_object_id expected))
  || negb (bool_decide (wk_wrapping_kek_version actual = wk_wrapping_kek_version expected))
  || negb (bool_decide (wk_nonce actual = wk_nonce expected))
  || negb (bool_decide (wk_ciphertext actual = wk_ciphertext expected)).

Fixpoint keys_match (d : Db) (l : list WrappedKeyRecord) : result StorageError bool :=
  match l with
  | [] => Ok true
  | expected :: l' =>
      let? actual := wrapped_key d (wk_kind expected) (wk_version expected) in
      if key_differs actual expected then Ok false else keys_match d l'
  end.
Definition bootstrap_matches (d : Db) (b : BootstrapRecord) : result StorageError bool :=
  keys_match d (bootstrap_keys b).

(** The row written by [insert_key]. *)
Definition key_row (k : WrappedKeyRecord) (created_at : Z) : KeyRow :=
  {| key_kind := key_kind_as_str (wk_kind k); key_version := wk_version k;
     key_object_id := arr (wk_object_id k);
     key_wrapping_kek_version := wk_wrapping_kek_version k; key_nonce := arr (wk_nonce k);
     key_wrapped_key := arr (wk_ciphertext k); key_state := "active"; key_created_at := created_at |}.

(** [insert_key] *)
Definition insert_key (k : WrappedKeyRecord) (created_at : Z) : StoreTx unit :=
  tx_insert keys_schema db_keys set_keys (key_row k created_at).

(** INSERT of the singleton installation row. *)
Definition insert_installation (r : InstallationRow) : StoreTx unit :=
  fun d => match db_installation d with
           | Some _ => Err Sqlite
           | None => if installation_check r then Ok (tt, set_installation (Some r) d) else Err Sqlite
           end.

(** CREATE TABLE smcv_restore_activation_guard, with its row. *)
Definition create_restore_guard : StoreTx unit :=
  fun d => match db_restore_guard d with
           | Some _ => Err Sqlite
           | None => Ok (tt, set_restore_guard (Some true) d)
           end.

(** [begin_initialization_kind] *)
Definition begin_initialization_kind (b : BootstrapRecord) (restore : bool)
  : Store InitializationDisposition :=
  do! _ := prog_lift (validate_bootstrap b) in
  do! existing := prog_read installation in
  match existing with
  | Some e =>
      do! differs := prog_read (fun d =>
        if negb (bool_decide (ir_vault_id e = br_vault_id b))
           || negb (bool_decide (ir_installation_id e = br_installation_id b))
        then Ok true else result_map negb (bootstrap_matches d b)) in
      do! _ := prog_reject differs StateConflict in
      match ir_activation_state e with
      | Initializing => prog_ret Resumed
      | Ready => prog_ret AlreadyReady
      | Maintenance | Failed => prog_fail StateConflict
      end
  | None =>
      transact (
        insert_installation
          {| inst_logical_vault_id := arr (br_vault_id b);
             inst_installation_id := arr (br_installation_id b);
             inst_recovery_epoch := 0; inst_initialized_at := br_initialized_at_unix_ms b;
             inst_activation_state := "initializing"; inst_active_kek_version := None;
             inst_security_semantics_version := 1 |} ;;
        tx_forM (fun k => insert_key k (br_initialized_at_unix_ms b)) (bootstrap_keys b) ;;
        (if restore then create_restore_guard else tx_ret tt) ;;
        tx_commit ;;
        tx_ret Begun)
  end.

(** [begin_initialization] and [begin_restore_initialization] *)
Definition begin_initialization (b : BootstrapRecord) : Store InitializationDisposition :=
  begin_initialization_kind b false.
Definition begin_restore_initialization (b : BootstrapRecord) : Store InitializationDisposition :=
  begin_initialization_kind b true.

(** UPDATE of the singleton installation row: the number of rows changed. *)
Definition update_installation (p : InstallationRow -> bool) (f : InstallationRow -> InstallationRow)
  : StoreTx Z :=
  fun d => match db_installation d with
           | Some r => if p r then (if installation_check (f r)
                                    then Ok (1, set_installation (Some (f r)) d) else Err Sqlite)
                       else Ok (0, d)
           | None => Ok (0, d)
           end.

Definition set_activation (state : string) (active : option Z) (r : InstallationRow) : InstallationRow :=
  {| inst_logical_vault_id := inst_logical_vault_id r;
     inst_installation_id := inst_installation_id r;
     inst_recovery_epoch := inst_recovery_epoch r; inst_initialized_at := inst_initialized_at r;
     inst_activation_state := state; inst_active_kek_version := active;
     inst_security_semantics_version := inst_security_semantics_version r |}.

(** The key rows an activation requires. *)
Definition required_key (kek_version : Z) (r : KeyRow) : bool :=
  bool_decide (key_state r = "active")
  && ((bool_decide (key_kind r = "kek") && (key_version r =? kek_version))
      || (text_in ["blind_index"; "audit"; "token_verifier"] (key_kind r)
          && bool_decide (key_wrapping_kek_version r = Some kek_version))).

(** [activate_initialization_kind] *)
Definition activate_initialization_kind (kek_version : Z) (restore : bool) : Store unit :=
  transact (
    let! guarded := tx_read (fun d => Ok (bool_decide (db_restore_guard d = Some true))) in
    tx_reject (negb (Bool.eqb restore guarded)) StateConflict ;;
    let! row := tx_read (fun d => ok_or NotInitialized (db_installation d)) in
    if String.eqb (inst_activation_state row) "ready" then
      let! active := tx_lift (ok_or Sqlite (inst_active_kek_version row)) in
      tx_reject (negb (active =? kek_version)) StateConflict
    else
      tx_reject (negb (String.eqb (inst_activation_state row) "initializing")) StateConflict ;;
      let! required := tx_read (fun d => Ok (count (required_key kek_version) (db_keys d))) in
      tx_reject (negb (required =? 4)) StateConflict ;;
      let! changed := update_installation
        (fun r => String.eqb (inst_activation_state r) "initializing")
        (set_activation "ready" (Some kek_version)) in
      tx_reject (negb (changed =? 1)) StateConflict ;;
      (if restore then tx_modify (set_restore_guard (Some false)) else tx_ret tt) ;;
      tx_commit).

(** [activate_initialization] and [activate_restored_initialization] *)
Definition activate_initialization (kek_version : Z) : Store unit :=
  activate_initialization_kind kek_version false.
Definition activate_restored_initialization (kek_version : Z) : Store unit :=
  activate_initialization_kind kek_version true.

(** * Preservation *)

Lemma update_installation_Ok p f d n d' :
  update_installation p f d = Ok (n, d') ->
  (n = 0 /\ d' = d) \/
  (n = 1 /\ exists r, db_installation d = Some r /\ p r = true /\ d' = set_installation (Some (f r)) d).
Proof. unfold update_installation. repeat case_match; naive_solver. Qed.

Lemma tx_forM_insert_keys l at_ d u d' :
  tx_forM (fun k => insert_key k at_) l d = Ok (u, d') ->
  exists t, d' = set_keys t d
    /\ (table_ok keys_schema (db_keys d) -> table_ok keys_schema t)
    /\ rows t = rows (db_keys d) ++ ((fun k => key_row k at_) <$> l).
Proof.
  revert d. induction l as [|k l IH]; intros d; simpl.
  - intros H. minv. exists (db_keys d). rewrite app_nil_r. by destruct d.
  - intros H. unfold insert_key at 1 in H. sinv.
    match goal with H : sql_insert _ _ _ = Some _ |- _ => rename H into Hi end.
    match goal with H : tx_forM _ _ _ = _ |- _ => apply IH in H as (t & -> & Ht & Hr) end.
    exists t. split; [done|]. cbn in *. split; [eauto with tables|].
    rewrite Hr. apply sql_insert_Some in Hi as (-> & _). rewrite rows_insert, <- app_assoc. done.
Qed.

(** The two setters of the bootstrap touch no table. *)
Lemma begin_initialization_kind_safe b restore d r d' :
  begin_initialization_kind b restore d = (r, d') -> db_ok d ->
  db_ok d' /\ db_audit d' = db_audit d.
Proof.
  unfold begin_initialization_kind, prog_bind, prog_lift, prog_read. intros H Hok.
  destruct (validate_bootstrap b); [|by simplify_eq].
  destruct (installation d) as [[e|]|]; [| |by simplify_eq].
  { destruct (if _ : bool then _ else _) as [x|]; [|by simplify_eq]. unfold prog_reject in H.
    destruct x; [by simplify_eq|]. destruct (ir_activation_state e); unfold prog_ret, prog_fail in H; by simplify_eq. }
  destruct r as [x|e]; [|by apply transact_Err in H as [_ ->]]. apply transact_Ok in H. sinv.
  match goal with H : insert_installation _ _ = _ |- _ => unfold insert_installation in H end.
  destruct (db_installation d); [done|]. destruct (installation_check _); simplify_eq.
  match goal with H : tx_forM _ _ _ = _ |- _ => apply tx_forM_insert_keys in H as (t & -> & Ht & _) end.
  unfold create_restore_guard, tx_ret in *. cbn in *. destruct restore; repeat case_match; simplify_eq;
    cbn in *; (split; [|done]); (eapply (db_ok_frame d); [done| |done..]);
    destruct (ok_tables _ Hok); split; cbn; eauto with tables.
Qed.

Lemma activate_initialization_kind_safe k restore d r d' :
  activate_initialization_kind k restore d = (r, d') -> db_ok d ->
  db_ok d' /\ db_audit d' = db_audit d.
Proof.
  unfold activate_initialization_kind. intros H Hok.
  destruct r as [x|e]; [|by apply transact_Err in H as [_ ->]]. apply transact_Ok in H. sinv.
  destruct (String.eqb _ "ready"); sinv; [done|].
  match goal with H : update_installation _ _ _ = _ |- _ => apply update_installation_Ok in H end.
  destruct_or!; destruct_and?; simplify_eq. repeat minv_step; simplify_eq.
  destruct restore; sinv; cbn in *; (split; [|done]);
    (eapply (db_ok_frame d); [done| |done..]); destruct (ok_tables _ Hok); split; cbn; eauto with tables.
Qed.
