(* ===== verification/RotationStore.v ===== *)
(** src/crates/smcv-storage/src/rotation.rs: resumable rotation of the
    key-encryption key as a checkpointed state machine over the stages of a
    maintenance job, and replacement of the root wrapping. *)
From Stdlib Require Import ZArith Lia String.
From stdpp Require Import base tactics numbers option strings list.
From S2P Require Import Prelude RustStd Core Sql Schema Records StoreInv RecordsOk PolicyStore VaultStore.

Inductive RotationStage : Type :=
| Auxiliary | StNamespaceMetadata | StSecretMetadata | StSecretVersions | Finalize.

#[export] Instance RotationStage_eq_decision : EqDecision RotationStage.
Proof. solve_decision. Defined.

(** [RotationStage::as_str] *)
Definition stage_as_str (s : RotationStage) : string :=
  match s with
  | Auxiliary => "auxiliary"
  | StNamespaceMetadata => "namespace_metadata"
  | StSecretMetadata => "secret_metadata"
  | StSecretVersions => "secret_versions"
  | Finalize => "finalize"
  end.

(** [RotationStage::parse] *)
Definition stage_parse (value : string) : result StorageError RotationStage :=
  if String.eqb value "auxiliary" then Ok Auxiliary
  else if String.eqb value "namespace_metadata" then Ok StNamespaceMetadata
  else if String.eqb value "secret_metadata" then Ok StSecretMetadata
  else if String.eqb value "secret_versions" then Ok StSecretVersions
  else if String.eqb value "finalize" then Ok Finalize
  else Err InvalidData.

(** [RotationStage::next] *)
Definition stage_next (s : RotationStage) : option RotationStage :=
  match s with
  | Auxiliary => Some StNamespaceMetadata
  | StNamespaceMetadata => Some StSecretMetadata
  | StSecretMetadata => Some StSecretVersions
  | StSecretVersions => Some Finalize
  | Finalize => None
  end.

Record KekRotationJob : Type := {
  kj_job_id : MaintenanceJobId;
  kj_source_key_version : Z;
  kj_target_key_version : Z;
  kj_stage : RotationStage;
  kj_last_row_id : Z }.

#[export] Instance KekRotationJob_eq_decision : EqDecision KekRotationJob.
Proof. solve_decision. Defined.

Inductive RewrapKind : Type :=
| RwBlindIndexKey | RwAuditKey | RwTokenVerifierKey
| RwNamespaceMetadata | RwSecretMetadata | RwSecretVersion.

Record RewrapItem : Type := {
  ri_row_id : Z;
  ri_kind : RewrapKind;
  ri_object_id : ObjectId;
  ri_object_version : Z;
  ri_nonce : array 24;
  ri_wrapped_key : array 48 }.

Record RewrappedItem : Type := {
  rw_source : RewrapItem;
  rw_nonce : array 24;
  rw_wrapped_key : array 48 }.

Record RootRewrappedKey : Type := {
  rr_version : Z;
  rr_object_id : ObjectId;
  rr_source_nonce : array 24;
  rr_source_wrapped_key : array 48;
  rr_target_nonce : array 24;
  rr_target_wrapped_key : array 48 }.

(** An UPDATE that replaces the wrapping of a key row. *)
Definition set_key_wrapping (nonce wrapped : blob) (wrapping : option Z) (r : KeyRow) : KeyRow :=
  {| key_kind := key_kind r; key_version := key_version r; key_object_id := key_object_id r;
     key_wrapping_kek_version := wrapping; key_nonce := nonce; key_wrapped_key := wrapped;
     key_state := key_state r; key_created_at := key_created_at r |}.
Definition set_key_state (state : string) (r : KeyRow) : KeyRow :=
  {| key_kind := key_kind r; key_version := key_version r; key_object_id := key_object_id r;
     key_wrapping_kek_version := key_wrapping_kek_version r; key_nonce := key_nonce r;
     key_wrapped_key := key_wrapped_key r; key_state := state; key_created_at := key_created_at r |}.

(** state IN ('pending', 'running', 'paused') *)
Definition unfinished (r : JobRow) : bool := text_in ["pending"; "running"; "paused"] (job_state r).

(** The WHERE clause of one root rewrap. *)
Definition root_source (k : RootRewrappedKey) (r : KeyRow) : bool :=
  bool_decide (key_kind r = "kek") && (key_version r =? rr_version k)
  && blob_eqb (key_object_id r) (arr (rr_object_id k))
  && bool_decide (key_wrapping_kek_version r = None)
  && negb (bool_decide (key_state r = "retired"))
  && blob_eqb (key_nonce r) (arr (rr_source_nonce k))
  && blob_eqb (key_wrapped_key r) (arr (rr_source_wrapped_key k)).

(** [SqliteStore::replace_root_wrappings] *)
Definition replace_root_wrappings (job : MaintenanceJobId) (keys : list RootRewrappedKey)
    (now : Z) (audit : AuditRecord) : Store unit :=
  transact (
    tx_reject (bool_decide (keys = [])) Conflict ;;
    require_audit_head audit ;;
    let! ready := tx_read (fun d => Ok (is_some_and (db_installation d)
      (fun r => String.eqb (inst_activation_state r) "ready"))) in
    let! maintenance := tx_read (fun d => Ok (count unfinished (db_jobs d))) in
    let! inventory := tx_read (fun d => Ok (count (fun r =>
      bool_decide (key_kind r = "kek") && negb (bool_decide (key_state r = "retired"))
      && bool_decide (key_wrapping_kek_version r = None)) (db_keys d))) in
    tx_reject (negb ready || negb (maintenance =? 0) || negb (inventory =? zlen keys)) StateConflict ;;
    tx_forM (fun k =>
      let! changed := tx_update keys_schema db_keys set_keys (root_source k)
        (fun r => set_key_wrapping (arr (rr_target_nonce k)) (arr (rr_target_wrapped_key k))
                    (key_wrapping_kek_version r) r) in
      tx_reject (negb (changed =? 1)) Conflict) keys ;;
    tx_insert jobs_schema db_jobs set_jobs
      {| job_id := arr job; job_kind := "root_rotation"; job_state := "completed";
         job_source_key_version := None; job_target_key_version := None; job_stage := None;
         job_last_row_id := 0; job_last_object_id := None; job_lease_owner := None;
         job_lease_expires_at := None; job_updated_at := now |} ;;
    insert_audit audit ;;
    tx_commit).

(** [u32::saturating_add] *)
Definition saturating_add_u32 (a b : Z) : Z := Z.min u32_max (a + b).

(** [SqliteStore::begin_kek_rotation] *)
Definition begin_kek_rotation (job : MaintenanceJobId) (source : Z) (new_key : WrappedKeyRecord)
    (now : Z) (audit : AuditRecord) : Store KekRotationJob :=
  transact (
    tx_reject (negb (bool_decide (wk_kind new_key = KeyEncryption))
               || negb (wk_version new_key =? saturating_add_u32 source 1)
               || bool_decide (is_Some (wk_wrapping_kek_version new_key))) StateConflict ;;
    require_audit_head audit ;;
    let! active := tx_read (fun d => Ok (
      r ← db_installation d;
      if String.eqb (inst_activation_state r) "ready" then inst_active_kek_version r else None)) in
    tx_reject (negb (bool_decide (active = Some source))) StateConflict ;;
    let! running := tx_read (fun d => Ok (count (fun r =>
      bool_decide (job_kind r = "kek_rotation") && unfinished r) (db_jobs d))) in
    tx_reject (negb (running =? 0)) StateConflict ;;
    let! changed := tx_update keys_schema db_keys set_keys
      (fun r => bool_decide (key_kind r = "kek") && (key_version r =? source)
                && bool_decide (key_state r = "active"))
      (set_key_state "retiring") in
    tx_reject (negb (changed =? 1)) StateConflict ;;
    insert_key new_key now ;;
    let! _ := update_installation (fun _ => true)
                (set_activation "maintenance" (Some (wk_version new_key))) in
    tx_insert jobs_schema db_jobs set_jobs
      {| job_id := arr job; job_kind := "kek_rotation"; job_state := "running";
         job_source_key_version := Some source;
         job_target_key_version := Some (wk_version new_key); job_stage := Some "auxiliary";
         job_last_row_id := 0; job_last_object_id := None; job_lease_owner := None;
         job_lease_expires_at := None; job_updated_at := now |} ;;
    insert_audit audit ;;
    tx_commit ;;
    tx_ret {| kj_job_id := job; kj_source_key_version := source;
              kj_target_key_version := wk_version new_key; kj_stage := Auxiliary;
              kj_last_row_id := 0 |}).

(** [parse_job]; a NULL column fails in the row accessor. *)
Definition parse_job (r : JobRow) : result StorageError KekRotationJob :=
  let? source := ok_or Sqlite (job_source_key_version r) in
  let? target := ok_or Sqlite (job_target_key_version r) in
  let? stage := ok_or Sqlite (job_stage r) in
  let? job := parse_uuid (job_id r) in
  let? source := parse_uint u32_max source in
  let? target := parse_uint u32_max target in
  let? stage := stage_parse stage in
  Ok {| kj_job_id := job; kj_source_key_version := source; kj_target_key_version := target;
        kj_stage := stage; kj_last_row_id := job_last_row_id r |}.

(** [SqliteStore::active_kek_rotation] *)
Definition active_kek_rotation (d : Db) : result StorageError (option KekRotationJob) :=
  transpose (parse_job <$> select_one (fun r =>
    bool_decide (job_kind r = "kek_rotation") && unfinished r) (db_jobs d)).

(** One row of a stage query: rowid, subtype, object, version, nonce, key. *)
Definition stage_row : Type := Z * string * blob * Z * blob * blob.

(** SELECT of the rows past a rowid that satisfy [p]. *)
Definition scan {A} (p : A -> bool) (after : Z) (out : Z -> A -> stage_row) (t : table A)
  : list stage_row :=
  (fun r => out (rid r) (row r)) <$> List.filter (fun r => p (row r) && (after <? rid r)) t.

(** [stage_query], without its LIMIT. *)
Definition stage_query (stage : RotationStage) (source after : Z) (d : Db) : list stage_row :=
  match stage with
  | Auxiliary =>
      scan (fun r => bool_decide (key_wrapping_kek_version r = Some source)
                     && negb (bool_decide (key_kind r = "kek"))) after
        (fun i r => (i, key_kind r, key_object_id r, key_version r, key_nonce r, key_wrapped_key r))
        (db_keys d)
  | StNamespaceMetadata =>
      scan (fun r => ns_kek_version r =? source) after
        (fun i r => (i, "namespace_metadata"%string, ns_namespace_id r, ns_metadata_version r,
                     ns_dek_nonce r, ns_wrapped_dek r)) (db_namespaces d)
  | StSecretMetadata =>
      scan (fun r => sec_metadata_kek_version r =? source) after
        (fun i r => (i, "secret_metadata"%string, sec_secret_id r, sec_metadata_version r,
                     sec_metadata_dek_nonce r, sec_metadata_wrapped_dek r)) (db_secrets d)
  | StSecretVersions =>
      scan (fun r => sv_kek_version r =? source) after
        (fun i r => (i, "secret_version"%string, sv_secret_id r, sv_version r,
                     sv_dek_nonce r, sv_wrapped_dek r)) (db_versions d)
  | Finalize => []
  end.

(** [parse_auxiliary_kind] and the other kind parsers. *)
Definition stage_kind (stage : RotationStage) (subtype : string) : result StorageError RewrapKind :=
  match stage with
  | Auxiliary =>
      if String.eqb subtype "blind_index" then Ok RwBlindIndexKey
      else if String.eqb subtype "audit" then Ok RwAuditKey
      else if String.eqb subtype "token_verifier" then Ok RwTokenVerifierKey
      else Err InvalidData
  | StNamespaceMetadata => Ok RwNamespaceMetadata
  | StSecretMetadata => Ok RwSecretMetadata
  | StSecretVersions => Ok RwSecretVersion
  | Finalize => Err StateConflict
  end.

Definition parse_item (stage : RotationStage) (r : stage_row) : result StorageError RewrapItem :=
  let '(i, subtype, object_id, version, nonce, wrapped) := r in
  let? kind := stage_kind stage subtype in
  let? object_id := parse_uuid object_id in
  let? version := parse_uint u64_max version in
  let? nonce := parse_array 24 nonce in
  let? wrapped := parse_array 48 wrapped in
  Ok {| ri_row_id := i; ri_kind := kind; ri_object_id := object_id; ri_object_version := version;
        ri_nonce := nonce; ri_wrapped_key := wrapped |}.

(** [SqliteStore::next_rewrap_batch] *)
Definition next_rewrap_batch (d : Db) (job : KekRotationJob) (lim : Z)
  : result StorageError (list RewrapItem) :=
  if (lim =? 0) || (256 <? lim) then Err Conflict
  else
    let? active := active_kek_rotation d in
    let? current := ok_or StateConflict active in
    if negb (bool_decide (current = job)) || bool_decide (kj_stage job = Finalize)
    then Err StateConflict
    else result_mapM (parse_item (kj_stage job))
           (limit lim (stage_query (kj_stage job) (kj_source_key_version job)
                         (kj_last_row_id job) d)).

(** The WHERE clause of [require_job]. *)
Definition job_matches (job : KekRotationJob) (r : JobRow) : bool :=
  blob_eqb (job_id r) (arr (kj_job_id job)) && bool_decide (job_state r = "running")
  && bool_decide (job_source_key_version r = Some (kj_source_key_version job))
  && bool_decide (job_target_key_version r = Some (kj_target_key_version job))
  && bool_decide (job_stage r = Some (stage_as_str (kj_stage job)))
  && (job_last_row_id r =? kj_last_row_id job).

(** [require_job] *)
Definition require_job (job : KekRotationJob) : StoreTx unit :=
  let! n := tx_read (fun d => Ok (count (job_matches job) (db_jobs d))) in
  tx_reject (negb (n =? 1)) Conflict.

(** UPDATE by rowid. *)
Definition tx_update_rowid {A} (sc : schema A) (get : Db -> table A) (set : table A -> Db -> Db)
    (id : Z) (p : A -> bool) (f : A -> A) : StoreTx Z :=
  fun d => match sql_update_rowid sc id p f (get d) with
           | Some (n, t) => Ok (n, set t d)
           | None => Err Sqlite
           end.

Definition rewrap_namespace (nonce wrapped : blob) (kek : Z) (r : NamespaceRow) : NamespaceRow :=
  {| ns_namespace_id := ns_namespace_id r; ns_parent_namespace_id := ns_parent_namespace_id r;
     ns_name_index := ns_name_index r; ns_metadata_version := ns_metadata_version r;
     ns_metadata_nonce := ns_metadata_nonce r; ns_metadata_ciphertext := ns_metadata_ciphertext r;
     ns_dek_nonce := nonce; ns_wrapped_dek := wrapped; ns_kek_version := kek;
     ns_lifecycle_state := ns_lifecycle_state r; ns_revision := ns_revision r;
     ns_state_commitment := ns_state_commitment r; ns_created_at := ns_created_at r;
     ns_updated_at := ns_updated_at r |}.
Definition rewrap_secret (nonce wrapped : blob) (kek : Z) (r : SecretRow) : SecretRow :=
  {| sec_secret_id := sec_secret_id r; sec_namespace_id := sec_namespace_id r;
     sec_name_index := sec_name_index r; sec_metadata_version := sec_metadata_version r;
     sec_metadata_nonce := sec_metadata_nonce r;
     sec_metadata_ciphertext := sec_metadata_ciphertext r;
     sec_metadata_dek_nonce := nonce; sec_metadata_wrapped_dek := wrapped;
     sec_metadata_kek_version := kek; sec_lifecycle_state := sec_lifecycle_state r;
     sec_current_version := sec_current_version r; sec_revision := sec_revision r;
     sec_state_commitment := sec_state_commitment r; sec_created_at := sec_created_at r;
     sec_updated_at := sec_updated_at r; sec_deleted_at := sec_deleted_at r |}.
Definition rewrap_version (nonce wrapped : blob) (kek : Z) (r : VersionRow) : VersionRow :=
  {| sv_secret_id := sv_secret_id r; sv_version := sv_version r;
     sv_envelope_version := sv_envelope_version r; sv_algorithm_suite := sv_algorithm_suite r;
     sv_kek_version := kek; sv_payload_nonce := sv_payload_nonce r;
     sv_payload_ciphertext := sv_payload_ciphertext r; sv_dek_nonce := nonce;
     sv_wrapped_dek := wrapped; sv_expires_at := sv_expires_at r;
     sv_rotation_due_at := sv_rotation_due_at r; sv_created_by := sv_created_by r;
     sv_created_at := sv_created_at r |}.

(** [update_rewrap] *)
Definition update_rewrap (job : KekRotationJob) (item : RewrappedItem) : StoreTx Z :=
  let nonce := arr (rw_nonce item) in
  let wrapped := arr (rw_wrapped_key item) in
  let target := kj_target_key_version job in
  let source := kj_source_key_version job in
  let id := ri_row_id (rw_source item) in
  match ri_kind (rw_source item) with
  | RwBlindIndexKey | RwAuditKey | RwTokenVerifierKey =>
      tx_update_rowid keys_schema db_keys set_keys id
        (fun r => bool_decide (key_wrapping_kek_version r = Some source))
        (set_key_wrapping nonce wrapped (Some target))
  | RwNamespaceMetadata =>
      tx_update_rowid namespaces_schema db_namespaces set_namespaces id
        (fun r => ns_kek_version r =? source) (rewrap_namespace nonce wrapped target)
  | RwSecretMetadata =>
      tx_update_rowid secrets_schema db_secrets set_secrets id
        (fun r => sec_metadata_kek_version r =? source) (rewrap_secret nonce wrapped target)
  | RwSecretVersion =>
      tx_update_rowid versions_schema db_versions set_versions id
        (fun r => sv_kek_version r =? source) (rewrap_version nonce wrapped target)
  end.

(** The loop of [apply_rewrap_batch]: [last] is the last row id processed. *)
Fixpoint rewrap_loop (job : KekRotationJob) (last : Z) (items : list RewrappedItem) : StoreTx Z :=
  match items with
  | [] => tx_ret last
  | item :: items' =>
      tx_reject (ri_row_id (rw_source item) <=? last) Conflict ;;
      let! changed := update_rewrap job item in
      tx_reject (negb (changed =? 1)) Conflict ;;
      rewrap_loop job (ri_row_id (rw_source item)) items'
  end.

Definition set_checkpoint (stage : option string) (last now : Z) (r : JobRow) : JobRow :=
  {| job_id := job_id r; job_kind := job_kind r; job_state := job_state r;
     job_source_key_version := job_source_key_version r;
     job_target_key_version := job_target_key_version r; job_stage := stage;
     job_last_row_id := last; job_last_object_id := job_last_object_id r;
     job_lease_owner := job_lease_owner r; job_lease_expires_at := job_lease_expires_at r;
     job_updated_at := now |}.

Definition checkpoint_matches (job : KekRotationJob) (r : JobRow) : bool :=
  blob_eqb (job_id r) (arr (kj_job_id job))
  && bool_decide (job_stage r = Some (stage_as_str (kj_stage job)))
  && (job_last_row_id r =? kj_last_row_id job).

(** [SqliteStore::apply_rewrap_batch] *)
Definition apply_rewrap_batch (job : KekRotationJob) (items : list RewrappedItem) (now : Z)
  : Store KekRotationJob :=
  transact (
    tx_reject ((zlen items =? 0) || (256 <? zlen items)) Conflict ;;
    require_job job ;;
    let! last := rewrap_loop job (kj_last_row_id job) items in
    let! changed := tx_update jobs_schema db_jobs set_jobs (checkpoint_matches job)
      (fun r => set_checkpoint (job_stage r) last now r) in
    tx_reject (negb (changed =? 1)) Conflict ;;
    tx_commit ;;
    tx_ret {| kj_job_id := kj_job_id job; kj_source_key_version := kj_source_key_version job;
              kj_target_key_version := kj_target_key_version job; kj_stage := kj_stage job;
              kj_last_row_id := last |}).

(** [SqliteStore::advance_rotation_stage] *)
Definition advance_rotation_stage (job : KekRotationJob) (now : Z) : Store KekRotationJob :=
  transact (
    let! next := tx_lift (ok_or StateConflict (stage_next (kj_stage job))) in
    let! remaining := tx_read (fun d => next_rewrap_batch d job 1) in
    tx_reject (negb (zlen remaining =? 0)) Conflict ;;
    let! changed := tx_update jobs_schema db_jobs set_jobs (checkpoint_matches job)
      (set_checkpoint (Some (stage_as_str next)) 0 now) in
    tx_reject (negb (changed =? 1)) Conflict ;;
    tx_ret {| kj_job_id := kj_job_id job; kj_source_key_version := kj_source_key_version job;
              kj_target_key_version := kj_target_key_version job; kj_stage := next;
              kj_last_row_id := 0 |}).

(** [source_inventory] *)
Definition source_inventory (version : Z) (d : Db) : Z :=
  count (fun r => bool_decide (key_wrapping_kek_version r = Some version)) (db_keys d)
  + count (fun r => ns_kek_version r =? version) (db_namespaces d)
  + count (fun r => sec_metadata_kek_version r =? version) (db_secrets d)
  + count (fun r => sv_kek_version r =? version) (db_versions d).

Definition complete_job (now : Z) (r : JobRow) : JobRow :=
  {| job_id := job_id r; job_kind := job_kind r; job_state := "completed";
     job_source_key_version := job_source_key_version r;
     job_target_key_version := job_target_key_version r; job_stage := job_stage r;
     job_last_row_id := job_last_row_id r; job_last_object_id := job_last_object_id r;
     job_lease_owner := job_lease_owner r; job_lease_expires_at := job_lease_expires_at r;
     job_updated_at := now |}.

(** [SqliteStore::finish_kek_rotation] *)
Definition finish_kek_rotation (job : KekRotationJob) (now : Z) (audit : AuditRecord) : Store unit :=
  transact (
    tx_reject (negb (bool_decide (kj_stage job = Finalize))) StateConflict ;;
    require_job job ;;
    require_audit_head audit ;;
    let! inventory := tx_read (fun d => Ok (source_inventory (kj_source_key_version job) d)) in
    tx_reject (negb (inventory =? 0)) Conflict ;;
    let! changed := tx_update keys_schema db_keys set_keys
      (fun r => bool_decide (key_kind r = "kek") && (key_version r =? kj_source_key_version job)
                && bool_decide (key_state r = "retiring"))
      (set_key_state "retired") in
    tx_reject (negb (changed =? 1)) Conflict ;;
    let! _ := tx_update jobs_schema db_jobs set_jobs
      (fun r => blob_eqb (job_id r) (arr (kj_job_id job))) (complete_job now) in
    let! changed := update_installation
      (fun r => String.eqb (inst_activation_state r) "maintenance"
                && bool_decide (inst_active_kek_version r = Some (kj_target_key_version job)))
      (fun r => set_activation "ready" (inst_active_kek_version r) r) in
    tx_reject (negb (changed =? 1)) Conflict ;;
    insert_audit audit ;;
    tx_commit).

(** * Preservation *)

Lemma tx_update_rowid_Ok {A} (sc : schema A) get set id p f d n d' :
  tx_update_rowid sc get set id p f d = Ok (n, d') <->
  exists t, sql_update_rowid sc id p f (get d) = Some (n, t) /\ d' = set t d.
Proof. unfold tx_update_rowid. destruct (sql_update_rowid _ _ _ _ _) as [[]|]; naive_solver. Qed.

(** Each row is kept or changed by [f] where [p] holds. *)
Definition pointwise {A} (p : A -> bool) (f : A -> A) (a b : A) : Prop :=
  b = a \/ (p a = true /\ b = f a).

Lemma update_at_pointwise {A} id p (f : A -> A) t :
  Forall2 (pointwise p f) (rows t) (rows (update_at (at_rowid id p) f t)).
Proof.
  unfold rows, update_at. induction t as [|r t IH]; [constructor|]. rewrite !fmap_cons.
  constructor; [|done]. unfold pointwise. destruct (at_rowid id p r) eqn:E; [|by left].
  apply andb_true_iff in E as [_ ?]. by right.
Qed.

Lemma Forall2_elem_r {A B} (R : A -> B -> Prop) l l' b :
  Forall2 R l l' -> b ∈ l' -> exists a, a ∈ l /\ R a b.
Proof.
  intros H (i & Hi)%list_elem_of_lookup. eapply Forall2_lookup_r in H as (a & Ha & ?); [|done].
  exists a. split; [by eapply list_elem_of_lookup_2|done].
Qed.
Lemma Forall2_elem_l {A B} (R : A -> B -> Prop) l l' a :
  Forall2 R l l' -> a ∈ l -> exists b, b ∈ l' /\ R a b.
Proof.
  intros H (i & Hi)%list_elem_of_lookup. eapply Forall2_lookup_l in H as (b & Hb & ?); [|done].
  exists b. split; [by eapply list_elem_of_lookup_2|done].
Qed.

Lemma namespaces_ok_rewrap l l' p n w k :
  0 <= k <= u32_max -> Forall2 (pointwise p (rewrap_namespace n w k)) l l' ->
  namespaces_ok l -> namespaces_ok l'.
Proof.
  intros Hk HF [H1 H2]. split.
  - intros r q Hr E. destruct (Forall2_elem_r _ _ _ _ HF Hr) as (a & Ha & Hab).
    assert (ns_parent_namespace_id a = Some q) as E' by (destruct Hab as [->|[_ ->]]; done).
    destruct (H1 a q Ha E') as (m & Hm & <-).
    destruct (Forall2_elem_l _ _ _ _ HF Hm) as (m' & Hm' & Hmm). exists m'. split; [done|].
    destruct Hmm as [->|[_ ->]]; done.
  - intros r Hr. destruct (Forall2_elem_r _ _ _ _ HF Hr) as (a & Ha & Hab).
    destruct (H2 a Ha) as (? & ? & ?). destruct Hab as [->|[_ ->]]; cbn; [done|]. repeat split; done || lia.
Qed.

Lemma secrets_ok_rewrap_ns l l' secrets versions p n w k :
  Forall2 (pointwise p (rewrap_namespace n w k)) l l' ->
  secrets_ok l secrets versions -> secrets_ok l' secrets versions.
Proof.
  intros HF HS. eapply secrets_ok_namespaces; [done|]. intros m Hm.
  destruct (Forall2_elem_l _ _ _ _ HF Hm) as (m' & Hm' & Hmm). exists m'. split; [done|].
  destruct Hmm as [->|[_ ->]]; done.
Qed.

Lemma secrets_ok_rewrap l s s' versions p n w k :
  0 <= k <= u32_max -> Forall2 (pointwise p (rewrap_secret n w k)) s s' ->
  secrets_ok l s versions -> secrets_ok l s' versions.
Proof.
  intros Hk HF [H1 H2 H3 H4 H5 H6]. split; [| | | | |done].
  - intros r Hr. destruct (Forall2_elem_r _ _ _ _ HF Hr) as (a & Ha & Hab).
    destruct Hab as [->|[_ ->]]; cbn; auto.
  - intros v Hv. destruct (H2 v Hv) as (a & Ha & <-).
    destruct (Forall2_elem_l _ _ _ _ HF Ha) as (b & Hb & Hab). exists b. split; [done|].
    destruct Hab as [->|[_ ->]]; done.
  - intros r Hr. destruct (Forall2_elem_r _ _ _ _ HF Hr) as (a & Ha & Hab).
    pose proof (H3 a Ha) as Hh. destruct Hab as [->|[_ ->]]; done.
  - intros r Hr. destruct (Forall2_elem_r _ _ _ _ HF Hr) as (a & Ha & Hab).
    pose proof (H4 a Ha) as Hh. destruct Hab as [->|[_ ->]]; done.
  - intros r Hr. destruct (Forall2_elem_r _ _ _ _ HF Hr) as (a & Ha & Hab).
    destruct (H5 a Ha) as (? & ? & ? & ?). destruct Hab as [->|[_ ->]]; cbn; repeat split; cbn; done || lia.
Qed.

Lemma secrets_ok_rewrap_versions l s v v' p n w k :
  0 <= k <= u32_max -> Forall2 (pointwise p (rewrap_version n w k)) v v' ->
  secrets_ok l s v -> secrets_ok l s v'.
Proof.
  intros Hk HF [H1 H2 H3 H4 H5 H6]. split; [done| | |done|done|].
  - intros r Hr. destruct (Forall2_elem_r _ _ _ _ HF Hr) as (a & Ha & Hab).
    destruct (H2 a Ha) as (x & ? & ?). exists x. split; [done|]. destruct Hab as [->|[_ ->]]; done.
  - intros r Hr j. rewrite <- (H3 r Hr j). split; intros (x & Hx & E1 & E2).
    + destruct (Forall2_elem_r _ _ _ _ HF Hx) as (a & Ha & Hab). exists a. split; [done|].
      destruct Hab as [->|[_ ->]]; done.
    + destruct (Forall2_elem_l _ _ _ _ HF Hx) as (b & Hb & Hab). exists b. split; [done|].
      destruct Hab as [->|[_ ->]]; done.
  - intros r Hr. destruct (Forall2_elem_r _ _ _ _ HF Hr) as (a & Ha & Hab).
    pose proof (H6 a Ha). destruct Hab as [->|[_ ->]]; cbn; [done|lia].
Qed.

#[export] Hint Resolve sql_update_rowid_ok : tables.

Lemma update_rewrap_preserves job item d n d' :
  0 <= kj_target_key_version job <= u32_max ->
  update_rewrap job item d = Ok (n, d') -> db_ok d -> db_ok d' /\ db_audit d' = db_audit d.
Proof.
  intros Hk H [HT HN HS HG HL]. unfold update_rewrap in H. cbv zeta in H.
  destruct (ri_kind (rw_source item));
    apply tx_update_rowid_Ok in H as (t & Ht & ->);
    pose proof Ht as (_ & E)%sql_update_rowid_Some;
    match type of E with t = update_at (at_rowid ?i ?p) ?f ?t0 => pose proof (update_at_pointwise i p f t0) as HF end;
    rewrite <- E in HF; (split; [|done]); split; cbn; try done;
    try (by eapply namespaces_ok_rewrap); try (by eapply secrets_ok_rewrap_ns);
    try (by eapply secrets_ok_rewrap); try (by eapply secrets_ok_rewrap_versions);
    destruct HT; split; cbn; eauto with tables.
Qed.

Lemma rewrap_loop_preserves job items last d n d' :
  0 <= kj_target_key_version job <= u32_max ->
  rewrap_loop job last items d = Ok (n, d') -> db_ok d -> db_ok d' /\ db_audit d' = db_audit d.
Proof.
  intros Hk. revert last d. induction items as [|item items IH]; intros last d H Hok; simpl in H.
  { minv. done. }
  sinv. match goal with H : update_rewrap _ _ _ = _ |- _ => apply update_rewrap_preserves in H as [? E]; [|done..] end.
  match goal with H : rewrap_loop _ _ _ _ = _ |- _ => apply IH in H as [? E']; [|done] end.
  split; [done|congruence].
Qed.

Lemma require_job_Ok job d u d' :
  require_job job d = Ok (u, d') -> d' = d /\ count (job_matches job) (db_jobs d) = 1.
Proof. unfold require_job. intros H. minv. by bprop. Qed.

Lemma apply_rewrap_batch_safe job items now d r d' :
  0 <= kj_target_key_version job <= u32_max ->
  apply_rewrap_batch job items now d = (r, d') -> db_ok d -> db_ok d' /\ db_audit d' = db_audit d.
Proof.
  intros Hk H Hok. unfold apply_rewrap_batch in H.
  destruct r as [x|e]; [|by apply transact_Err in H as [_ ->]]. sinv.
  match goal with H : require_job _ _ = _ |- _ => apply require_job_Ok in H as [-> _] end.
  match goal with H : rewrap_loop _ _ _ _ = _ |- _ => apply rewrap_loop_preserves in H as [Hok' E]; [|done..] end.
  split; [|done]. clear Hok. frame_tables.
Qed.

Lemma advance_rotation_stage_safe job now d r d' :
  advance_rotation_stage job now d = (r, d') -> db_ok d -> db_ok d' /\ db_audit d' = db_audit d.
Proof.
  intros H Hok. unfold advance_rotation_stage in H.
  destruct r as [x|e]; [|by apply transact_Err in H as [_ ->]]. sinv.
  split; [|done]. frame_tables.
Qed.

Lemma begin_kek_rotation_preserves j s k now a : preserves (begin_kek_rotation j s k now a).
Proof.
  intros d x d' H Hok. unfold begin_kek_rotation, insert_key in H. txn_policy.
  match goal with H : update_installation _ _ _ = _ |- _ => apply update_installation_Ok in H end.
  destruct_or!; destruct_and?; repeat minv_step; simplify_eq; finish_audit; frame_tables.
Qed.

Lemma begin_kek_rotation_audited j s k now a : audited a (begin_kek_rotation j s k now a).
Proof.
  intros d x d' H. unfold begin_kek_rotation, insert_key in H. txn_policy.
  match goal with H : update_installation _ _ _ = _ |- _ => apply update_installation_Ok in H end.
  destruct_or!; destruct_and?; repeat minv_step; simplify_eq; audited_op.
Qed.

Ltac txn_finish :=
  txn_policy;
  match goal with H : require_job _ _ = _ |- _ => apply require_job_Ok in H as [-> ?] end;
  txn_policy;
  match goal with H : update_installation _ _ _ = _ |- _ => apply update_installation_Ok in H end;
  destruct_or!; destruct_and?; repeat minv_step; simplify_eq.

Lemma finish_kek_rotation_preserves j now a : preserves (finish_kek_rotation j now a).
Proof. intros d x d' H Hok. unfold finish_kek_rotation in H. txn_finish; finish_audit; frame_tables. Qed.

Lemma finish_kek_rotation_audited j now a : audited a (finish_kek_rotation j now a).
Proof. intros d x d' H. unfold finish_kek_rotation in H. txn_finish; audited_op. Qed.

Lemma root_loop_keys (keys : list RootRewrappedKey) d u d' :
  tx_forM (fun k =>
      let! changed := tx_update keys_schema db_keys set_keys (root_source k)
        (fun r => set_key_wrapping (arr (rr_target_nonce k)) (arr (rr_target_wrapped_key k))
                    (key_wrapping_kek_version r) r) in
      tx_reject (negb (changed =? 1)) Conflict) keys d = Ok (u, d') ->
  exists t, d' = set_keys t d /\ (table_ok keys_schema (db_keys d) -> table_ok keys_schema t).
Proof.
  revert d. induction keys as [|k keys IH]; intros d H; simpl in H.
  - minv. exists (db_keys d). by destruct d.
  - sinv. match goal with H : tx_forM _ _ _ = _ |- _ => apply IH in H as (t & -> & Ht) end.
    exists t. split; [done|]. cbn in *. eauto with tables.
Qed.

Lemma replace_root_wrappings_preserves j keys now a : preserves (replace_root_wrappings j keys now a).
Proof.
  intros d x d' H Hok. unfold replace_root_wrappings in H. txn_policy.
  match goal with H : tx_forM _ _ _ = _ |- _ => apply root_loop_keys in H as (t & -> & Ht) end.
  finish_audit. frame_tables.
Qed.

Lemma replace_root_wrappings_audited j keys now a : audited a (replace_root_wrappings j keys now a).
Proof.
  intros d x d' H. unfold replace_root_wrappings in H. txn_policy.
  match goal with H : tx_forM _ _ _ = _ |- _ => apply root_loop_keys in H as (t & -> & Ht) end.
  audited_op.
Qed.
