(* ===== verification/IdentityStore.v ===== *)
(** src/crates/smcv-storage/src/identity.rs: principals, owner authenticators,
    browser sessions, service identities and application credentials. *)
From Stdlib Require Import ZArith Lia String.
From stdpp Require Import base tactics numbers option strings list.
From S2P Require Import Prelude RustStd Core Sql Schema Records StoreInv RecordsOk PolicyStore.

Abbreviation AuthenticatorId := Uuid.

Definition MAX_ACTIVE_SESSIONS_PER_PRINCIPAL : Z := 32.

Inductive PrincipalKind : Type := Owner | Service.
Inductive AuthenticatorKind : Type := Password | Passkey | Recovery.

#[export] Instance PrincipalKind_eq_decision : EqDecision PrincipalKind.
Proof. solve_decision. Defined.

(** [PrincipalKind::parse] *)
Definition principal_kind_parse (value : string) : result StorageError PrincipalKind :=
  if String.eqb value "owner" then Ok Owner
  else if String.eqb value "service" then Ok Service
  else Err InvalidData.

(** [AuthenticatorKind::parse] *)
Definition authenticator_kind_parse (value : string) : result StorageError AuthenticatorKind :=
  if String.eqb value "password" then Ok Password
  else if String.eqb value "passkey" then Ok Passkey
  else if String.eqb value "recovery" then Ok Recovery
  else Err InvalidData.

(** [AuthenticatorKind::as_str] *)
Definition authenticator_kind_as_str (k : AuthenticatorKind) : string :=
  match k with Password => "password" | Passkey => "passkey" | Recovery => "recovery" end.

Record PrincipalRecord : Type := {
  pc_principal_id : PrincipalId;
  pc_kind : PrincipalKind;
  pc_state : string;
  pc_revision : Z;
  pc_state_commitment : array 32 }.

Record OwnerAuthenticatorInsert : Type := {
  oi_authenticator_id : AuthenticatorId;
  oi_kind : AuthenticatorKind;
  oi_credential_lookup : option blob;
  oi_credential_data : option blob;
  oi_password_phc : option string;
  oi_state_commitment : array 32 }.

Record OwnerAuthenticatorRecord : Type := {
  or_authenticator_id : AuthenticatorId;
  or_principal_id : PrincipalId;
  or_kind : AuthenticatorKind;
  or_credential_lookup : option blob;
  or_credential_data : option blob;
  or_password_phc : option string;
  or_state : string;
  or_created_at_unix_ms : Z;
  or_last_used_at_unix_ms : option Z;
  or_revoked_at_unix_ms : option Z;
  or_state_commitment : array 32 }.

Record SessionInsert : Type := {
  sin_session_id : SessionId;
  sin_lookup_id : array 16;
  sin_verifier : array 32;
  sin_csrf_verifier : array 32;
  sin_principal_id : PrincipalId;
  sin_authenticator_id : AuthenticatorId;
  sin_auth_method : AuthenticatorKind;
  sin_created_at_unix_ms : Z;
  sin_idle_expires_at_unix_ms : Z;
  sin_absolute_expires_at_unix_ms : Z;
  sin_recent_auth_at_unix_ms : Z;
  sin_state_commitment : array 32;
  sin_expected_authenticator_state_commitment : array 32;
  sin_authenticator_state_commitment : array 32;
  sin_authenticator_credential_data : option blob }.

Record SessionRecord : Type := {
  ses_session_id : SessionId;
  ses_lookup_id : array 16;
  ses_verifier : array 32;
  ses_csrf_verifier : array 32;
  ses_principal_id : PrincipalId;
  ses_authenticator_id : AuthenticatorId;
  ses_auth_method : AuthenticatorKind;
  ses_created_at_unix_ms : Z;
  ses_last_used_at_unix_ms : Z;
  ses_idle_expires_at_unix_ms : Z;
  ses_absolute_expires_at_unix_ms : Z;
  ses_recent_auth_at_unix_ms : Z;
  ses_revoked_at_unix_ms : option Z;
  ses_state_commitment : array 32 }.

Record ApplicationCredentialInsert : Type := {
  ci_credential_id : CredentialId;
  ci_principal_id : PrincipalId;
  ci_lookup_id : array 12;
  ci_verifier : array 32;
  ci_created_at_unix_ms : Z;
  ci_expires_at_unix_ms : option Z;
  ci_state_commitment : array 32 }.

Record ApplicationCredentialRecord : Type := {
  cr_credential_id : CredentialId;
  cr_principal_id : PrincipalId;
  cr_lookup_id : array 12;
  cr_verifier : array 32;
  cr_created_at_unix_ms : Z;
  cr_expires_at_unix_ms : option Z;
  cr_last_used_at_unix_ms : option Z;
  cr_revoked_at_unix_ms : option Z;
  cr_revision : Z;
  cr_state_commitment : array 32 }.

Record ServiceIdentityInsert : Type := {
  sii_principal_id : PrincipalId;
  sii_principal_state_commitment : array 32;
  sii_metadata : EncryptedRecord;
  sii_created_at_unix_ms : Z }.

Record ServiceIdentityRecord : Type := {
  sid_principal : PrincipalRecord;
  sid_metadata_version : Z;
  sid_metadata : EncryptedRecord }.

(** ** Parsers *)

(** [parse_principal] *)
Definition parse_principal (r : PrincipalRow) : result StorageError PrincipalRecord :=
  let? principal_id := parse_uuid (pr_principal_id r) in
  let? kind := principal_kind_parse (pr_principal_kind r) in
  let? revision := parse_uint u64_max (pr_revision r) in
  let? commitment := parse_array 32 (pr_state_commitment r) in
  Ok {| pc_principal_id := principal_id; pc_kind := kind; pc_state := pr_state r;
        pc_revision := revision; pc_state_commitment := commitment |}.

(** [parse_authenticator] *)
Definition parse_authenticator (r : AuthenticatorRow) : result StorageError OwnerAuthenticatorRecord :=
  let? authenticator_id := parse_uuid (oa_authenticator_id r) in
  let? principal_id := parse_uuid (oa_principal_id r) in
  let? kind := authenticator_kind_parse (oa_authenticator_kind r) in
  let? commitment := parse_array 32 (oa_state_commitment r) in
  Ok {| or_authenticator_id := authenticator_id; or_principal_id := principal_id; or_kind := kind;
        or_credential_lookup := oa_credential_lookup r; or_credential_data := oa_credential_data r;
        or_password_phc := oa_password_phc r; or_state := oa_state r;
        or_created_at_unix_ms := oa_created_at r; or_last_used_at_unix_ms := oa_last_used_at r;
        or_revoked_at_unix_ms := oa_revoked_at r; or_state_commitment := commitment |}.

(** [parse_session] *)
Definition parse_session (r : SessionRow) : result StorageError SessionRecord :=
  let? session_id := parse_uuid (ss_session_id r) in
  let? lookup_id := parse_array 16 (ss_lookup_id r) in
  let? verifier := parse_array 32 (ss_verifier r) in
  let? csrf_verifier := parse_array 32 (ss_csrf_verifier r) in
  let? principal_id := parse_uuid (ss_principal_id r) in
  let? authenticator_id := parse_uuid (ss_authenticator_id r) in
  let? auth_method := authenticator_kind_parse (ss_auth_method r) in
  let? commitment := parse_array 32 (ss_state_commitment r) in
  Ok {| ses_session_id := session_id; ses_lookup_id := lookup_id; ses_verifier := verifier;
        ses_csrf_verifier := csrf_verifier; ses_principal_id := principal_id;
        ses_authenticator_id := authenticator_id; ses_auth_method := auth_method;
        ses_created_at_unix_ms := ss_created_at r; ses_last_used_at_unix_ms := ss_last_used_at r;
        ses_idle_expires_at_unix_ms := ss_idle_expires_at r;
        ses_absolute_expires_at_unix_ms := ss_absolute_expires_at r;
        ses_recent_auth_at_unix_ms := ss_recent_auth_at r;
        ses_revoked_at_unix_ms := ss_revoked_at r; ses_state_commitment := commitment |}.

(** [parse_application_credential] *)
Definition parse_application_credential (r : CredentialRow)
  : result StorageError ApplicationCredentialRecord :=
  let? credential_id := parse_uuid (ac_credential_id r) in
  let? principal_id := parse_uuid (ac_principal_id r) in
  let? lookup_id := parse_array 12 (ac_lookup_id r) in
  let? verifier := parse_array 32 (ac_verifier r) in
  let? revision := parse_uint u64_max (ac_revision r) in
  let? commitment := parse_array 32 (ac_state_commitment r) in
  Ok {| cr_credential_id := credential_id; cr_principal_id := principal_id;
        cr_lookup_id := lookup_id; cr_verifier := verifier;
        cr_created_at_unix_ms := ac_created_at r; cr_expires_at_unix_ms := ac_expires_at r;
        cr_last_used_at_unix_ms := ac_last_used_at r; cr_revoked_at_unix_ms := ac_revoked_at r;
        cr_revision := revision; cr_state_commitment := commitment |}.

(** ** Reads *)

(** [SqliteStore::principal] *)
Definition principal (d : Db) (principal_id : PrincipalId) : result StorageError PrincipalRecord :=
  let? r := ok_or NotInitialized (select_one
    (fun r => blob_eqb (pr_principal_id r) (arr principal_id)) (db_principals d)) in
  parse_principal r.

(** [SqliteStore::owner_principal] *)
Definition owner_principal (d : Db) : result StorageError (option PrincipalRecord) :=
  transpose (parse_principal <$> select_one
    (fun r => bool_decide (pr_principal_kind r = "owner")) (db_principals d)).

(** [SqliteStore::service_identity] *)
Definition service_identity (d : Db) (principal_id : PrincipalId)
  : result StorageError ServiceIdentityRecord :=
  let? p := principal d principal_id in
  if negb (bool_decide (pc_kind p = Service)) then Err InvalidData
  else
    let? r := ok_or NotInitialized (select_one
      (fun r => blob_eqb (si_principal_id r) (arr principal_id)) (db_services d)) in
    let? metadata_version := parse_uint u64_max (si_metadata_version r) in
    let? nonce := parse_array 24 (si_metadata_nonce r) in
    let? dek_nonce := parse_array 24 (si_metadata_dek_nonce r) in
    let? wrapped_dek := parse_array 48 (si_metadata_wrapped_dek r) in
    let? kek_version := parse_uint u32_max (si_metadata_kek_version r) in
    Ok {| sid_principal := p; sid_metadata_version := metadata_version;
          sid_metadata := {| er_nonce := nonce; er_ciphertext := si_metadata_ciphertext r;
                             er_dek_nonce := dek_nonce; er_wrapped_dek := wrapped_dek;
                             er_kek_version := kek_version |} |}.

(** [SqliteStore::service_identities_after] *)
Definition service_identities_after (d : Db) (after : option PrincipalId) (lim : Z)
  : result StorageError (list ServiceIdentityRecord) :=
  if lim =? 0 then Err InvalidData
  else
    let joined := limit lim (order_by blob_leb
      (si_principal_id <$> select (fun s => after_cursor after (si_principal_id s)
         && existsb (fun p => blob_eqb (pr_principal_id p) (si_principal_id s)
                              && bool_decide (pr_principal_kind p = "service"))
              (rows (db_principals d))) (db_services d))) in
    let? ids := result_mapM parse_uuid joined in
    result_mapM (service_identity d) ids.

(** [SqliteStore::owner_authenticators] *)
Definition owner_authenticators (d : Db) (kind : AuthenticatorKind)
  : result StorageError (list OwnerAuthenticatorRecord) :=
  result_mapM parse_authenticator
    (order_by (fun a b => (oa_created_at a <? oa_created_at b)
                          || ((oa_created_at a =? oa_created_at b)
                              && blob_leb (oa_authenticator_id a) (oa_authenticator_id b)))
      (select (fun r => bool_decide (oa_authenticator_kind r = authenticator_kind_as_str kind)
                        && bool_decide (oa_state r = "active")) (db_authenticators d))).

(** [SqliteStore::session_by_lookup] *)
Definition session_by_lookup (d : Db) (lookup_id : array 16) : result StorageError (option SessionRecord) :=
  transpose (parse_session <$> select_one
    (fun r => blob_eqb (ss_lookup_id r) (arr lookup_id)) (db_sessions d)).

(** [SqliteStore::session] *)
Definition session (d : Db) (session_id : SessionId) : result StorageError SessionRecord :=
  let? r := ok_or NotInitialized (select_one
    (fun r => blob_eqb (ss_session_id r) (arr session_id)) (db_sessions d)) in
  parse_session r.

(** [SqliteStore::application_credential_by_lookup] *)
Definition application_credential_by_lookup (d : Db) (lookup_id : array 12)
  : result StorageError (option ApplicationCredentialRecord) :=
  transpose (parse_application_credential <$> select_one
    (fun r => blob_eqb (ac_lookup_id r) (arr lookup_id)) (db_credentials d)).

(** [SqliteStore::application_credential] *)
Definition application_credential (d : Db) (credential_id : CredentialId)
  : result StorageError ApplicationCredentialRecord :=
  let? r := ok_or NotInitialized (select_one
    (fun r => blob_eqb (ac_credential_id r) (arr credential_id)) (db_credentials d)) in
  parse_application_credential r.

(** [SqliteStore::application_credentials_after] *)
Definition application_credentials_after (d : Db) (principal_id : PrincipalId)
    (after : option (Z * CredentialId)) (lim : Z)
  : result StorageError (list ApplicationCredentialRecord) :=
  if lim =? 0 then Err InvalidData
  else
    let '(after_created, after_id) :=
      match after with Some (c, i) => (c, arr i) | None => (i64_min, arr (zeros 16)) end in
    result_mapM parse_application_credential (limit lim
      (order_by (fun a b => (ac_created_at a <? ac_created_at b)
                            || ((ac_created_at a =? ac_created_at b)
                                && blob_leb (ac_credential_id a) (ac_credential_id b)))
        (select (fun r => blob_eqb (ac_principal_id r) (arr principal_id)
                          && ((after_created <? ac_created_at r)
                              || ((ac_created_at r =? after_created)
                                  && blob_ltb after_id (ac_credential_id r))))
           (db_credentials d)))).

(** ** Mutations *)

Definition new_principal_row (id : blob) (kind : string) (commitment : blob) (now : Z) : PrincipalRow :=
  {| pr_principal_id := id; pr_principal_kind := kind; pr_state := "active"; pr_revision := 1;
     pr_state_commitment := commitment; pr_created_at := now; pr_updated_at := now |}.

(** [SqliteStore::create_service_identity] *)
Definition create_service_identity (i : ServiceIdentityInsert) (audit : AuditRecord) : Store unit :=
  transact (
    require_audit_head audit ;;
    tx_insert principals_schema db_principals set_principals
      (new_principal_row (arr (sii_principal_id i)) "service"
         (arr (sii_principal_state_commitment i)) (sii_created_at_unix_ms i)) ;;
    tx_insert services_schema db_services set_services
      {| si_principal_id := arr (sii_principal_id i); si_metadata_version := 1;
         si_metadata_nonce := arr (er_nonce (sii_metadata i));
         si_metadata_ciphertext := er_ciphertext (sii_metadata i);
         si_metadata_dek_nonce := arr (er_dek_nonce (sii_metadata i));
         si_metadata_wrapped_dek := arr (er_wrapped_dek (sii_metadata i));
         si_metadata_kek_version := er_kek_version (sii_metadata i) |} ;;
    tx_require (principal_exists (arr (sii_principal_id i))) ;;
    insert_audit audit ;;
    tx_commit).

(** [validate_authenticator] *)
Definition validate_authenticator (a : OwnerAuthenticatorInsert) : result StorageError unit :=
  let some {A} (o : option A) := bool_decide (is_Some o) in
  let valid := match oi_kind a with
    | Passkey => some (oi_credential_lookup a) && some (oi_credential_data a)
                 && negb (some (oi_password_phc a))
    | Password | Recovery => negb (some (oi_credential_lookup a))
                             && negb (some (oi_credential_data a)) && some (oi_password_phc a)
    end in
  if negb valid then Err Conflict else Ok tt.

(** [insert_authenticator] *)
Definition insert_authenticator (principal_id : PrincipalId) (a : OwnerAuthenticatorInsert) (now : Z)
  : StoreTx unit :=
  tx_insert authenticators_schema db_authenticators set_authenticators
    {| oa_authenticator_id := arr (oi_authenticator_id a); oa_principal_id := arr principal_id;
       oa_authenticator_kind := authenticator_kind_as_str (oi_kind a);
       oa_credential_lookup := oi_credential_lookup a; oa_credential_data := oi_credential_data a;
       oa_password_phc := oi_password_phc a; oa_state := "active"; oa_created_at := now;
       oa_last_used_at := None; oa_revoked_at := None;
       oa_state_commitment := arr (oi_state_commitment a) |} ;;
  tx_require (principal_exists (arr principal_id)).

(** [SqliteStore::enroll_owner] *)
Definition enroll_owner (principal_id : PrincipalId) (principal_commitment authorization_commitment : array 32)
    (a : OwnerAuthenticatorInsert) (now : Z) (audit : AuditRecord) : Store unit :=
  transact (
    let! _ := tx_lift (validate_authenticator a) in
    require_audit_head audit ;;
    let! owners := tx_read (fun d => Ok (count
      (fun r => bool_decide (pr_principal_kind r = "owner")) (db_principals d))) in
    tx_reject (negb (owners =? 0)) Conflict ;;
    tx_insert principals_schema db_principals set_principals
      (new_principal_row (arr principal_id) "owner" (arr principal_commitment) now) ;;
    insert_authenticator principal_id a now ;;
    let! untouched := tx_read (fun d => Ok ((db_authz_revision d =? 1)
      && blob_eqb (db_authz_commitment d) (arr (zeros 32)))) in
    tx_reject (negb untouched) StateConflict ;;
    tx_modify (set_authz_commitment (arr authorization_commitment)) ;;
    insert_audit audit ;;
    tx_commit).

(** [SqliteStore::add_owner_authenticator] *)
Definition add_owner_authenticator (principal_id : PrincipalId) (a : OwnerAuthenticatorInsert) (now : Z)
    (audit : AuditRecord) : Store unit :=
  transact (
    let! _ := tx_lift (validate_authenticator a) in
    require_audit_head audit ;;
    let! owners := tx_read (fun d => Ok (count
      (fun r => blob_eqb (pr_principal_id r) (arr principal_id)
                && bool_decide (pr_principal_kind r = "owner")
                && bool_decide (pr_state r = "active")) (db_principals d))) in
    tx_reject (negb (owners =? 1)) StateConflict ;;
    insert_authenticator principal_id a now ;;
    insert_audit audit ;;
    tx_commit).

Definition use_authenticator (used_at : Z) (commitment : blob) (data : option blob)
    (r : AuthenticatorRow) : AuthenticatorRow :=
  {| oa_authenticator_id := oa_authenticator_id r; oa_principal_id := oa_principal_id r;
     oa_authenticator_kind := oa_authenticator_kind r;
     oa_credential_lookup := oa_credential_lookup r;
     oa_credential_data := match data with Some _ => data | None => oa_credential_data r end;
     oa_password_phc := oa_password_phc r; oa_state := oa_state r;
     oa_created_at := oa_created_at r; oa_last_used_at := Some used_at;
     oa_revoked_at := oa_revoked_at r; oa_state_commitment := commitment |}.

(** The row written by [create_session]. *)
Definition session_row (s : SessionInsert) : SessionRow :=
  {| ss_session_id := arr (sin_session_id s); ss_lookup_id := arr (sin_lookup_id s);
     ss_verifier := arr (sin_verifier s); ss_csrf_verifier := arr (sin_csrf_verifier s);
     ss_principal_id := arr (sin_principal_id s);
     ss_authenticator_id := arr (sin_authenticator_id s);
     ss_auth_method := authenticator_kind_as_str (sin_auth_method s);
     ss_created_at := sin_created_at_unix_ms s; ss_last_used_at := sin_created_at_unix_ms s;
     ss_idle_expires_at := sin_idle_expires_at_unix_ms s;
     ss_absolute_expires_at := sin_absolute_expires_at_unix_ms s;
     ss_recent_auth_at := sin_recent_auth_at_unix_ms s; ss_revoked_at := None;
     ss_state_commitment := arr (sin_state_commitment s) |}.

(** A session counted against the limit of its principal. *)
Definition session_live (principal : blob) (now : Z) (r : SessionRow) : bool :=
  blob_eqb (ss_principal_id r) principal && bool_decide (ss_revoked_at r = None)
  && (now <=? ss_absolute_expires_at r).

(** [SqliteStore::create_session] *)
Definition create_session (s : SessionInsert) (audit : AuditRecord) : Store unit :=
  transact (
    tx_reject ((sin_idle_expires_at_unix_ms s <=? sin_created_at_unix_ms s)
               || (sin_absolute_expires_at_unix_ms s <? sin_idle_expires_at_unix_ms s)) Conflict ;;
    require_audit_head audit ;;
    tx_modify (fun d => set_sessions (sql_delete (fun r =>
      bool_decide (is_Some (ss_revoked_at r))
      || (ss_absolute_expires_at r <? sin_created_at_unix_ms s)) (db_sessions d)) d) ;;
    let! active := tx_read (fun d => Ok (count
      (session_live (arr (sin_principal_id s)) (sin_created_at_unix_ms s)) (db_sessions d))) in
    tx_reject (MAX_ACTIVE_SESSIONS_PER_PRINCIPAL <=? active) StateConflict ;;
    tx_insert sessions_schema db_sessions set_sessions (session_row s) ;;
    tx_require (fun d => principal_exists (arr (sin_principal_id s)) d
                         && authenticator_exists (arr (sin_authenticator_id s)) d) ;;
    let! changed := tx_update authenticators_schema db_authenticators set_authenticators
      (fun r => blob_eqb (oa_authenticator_id r) (arr (sin_authenticator_id s))
                && blob_eqb (oa_principal_id r) (arr (sin_principal_id s))
                && bool_decide (oa_state r = "active") && bool_decide (oa_revoked_at r = None)
                && blob_eqb (oa_state_commitment r)
                     (arr (sin_expected_authenticator_state_commitment s)))
      (use_authenticator (sin_created_at_unix_ms s) (arr (sin_authenticator_state_commitment s))
         (sin_authenticator_credential_data s)) in
    tx_reject (negb (changed =? 1)) StateConflict ;;
    insert_audit audit ;;
    tx_commit).

Definition touch_session_row (now idle recent : Z) (commitment : blob) (r : SessionRow) : SessionRow :=
  {| ss_session_id := ss_session_id r; ss_lookup_id := ss_lookup_id r;
     ss_verifier := ss_verifier r; ss_csrf_verifier := ss_csrf_verifier r;
     ss_principal_id := ss_principal_id r; ss_authenticator_id := ss_authenticator_id r;
     ss_auth_method := ss_auth_method r; ss_created_at := ss_created_at r;
     ss_last_used_at := now; ss_idle_expires_at := idle;
     ss_absolute_expires_at := ss_absolute_expires_at r; ss_recent_auth_at := recent;
     ss_revoked_at := ss_revoked_at r; ss_state_commitment := commitment |}.

(** [SqliteStore::touch_session] *)
Definition touch_session (session_id : SessionId) (expected_last_used now idle recent : Z)
    (commitment : array 32) : Store unit :=
  transact (
    let! changed := tx_update sessions_schema db_sessions set_sessions
      (fun r => blob_eqb (ss_session_id r) (arr session_id)
                && (ss_last_used_at r =? expected_last_used)
                && bool_decide (ss_revoked_at r = None) && (now <=? ss_idle_expires_at r)
                && (now <=? ss_absolute_expires_at r) && (idle <=? ss_absolute_expires_at r))
      (touch_session_row now idle recent (arr commitment)) in
    tx_reject (negb (changed =? 1)) Conflict).

Definition revoke_session_row (at_ : Z) (commitment : blob) (r : SessionRow) : SessionRow :=
  {| ss_session_id := ss_session_id r; ss_lookup_id := ss_lookup_id r;
     ss_verifier := ss_verifier r; ss_csrf_verifier := ss_csrf_verifier r;
     ss_principal_id := ss_principal_id r; ss_authenticator_id := ss_authenticator_id r;
     ss_auth_method := ss_auth_method r; ss_created_at := ss_created_at r;
     ss_last_used_at := ss_last_used_at r; ss_idle_expires_at := ss_idle_expires_at r;
     ss_absolute_expires_at := ss_absolute_expires_at r; ss_recent_auth_at := ss_recent_auth_at r;
     ss_revoked_at := Some at_; ss_state_commitment := commitment |}.

(** [SqliteStore::revoke_session] *)
Definition revoke_session (session_id : SessionId) (expected_last_used revoked_at : Z)
    (commitment : array 32) (audit : AuditRecord) : Store unit :=
  transact (
    require_audit_head audit ;;
    let! changed := tx_update sessions_schema db_sessions set_sessions
      (fun r => blob_eqb (ss_session_id r) (arr session_id)
                && (ss_last_used_at r =? expected_last_used)
                && bool_decide (ss_revoked_at r = None))
      (revoke_session_row revoked_at (arr commitment)) in
    tx_reject (negb (changed =? 1)) Conflict ;;
    insert_audit audit ;;
    tx_commit).

(** The row written by [create_application_credential]. *)
Definition credential_row (c : ApplicationCredentialInsert) : CredentialRow :=
  {| ac_credential_id := arr (ci_credential_id c); ac_principal_id := arr (ci_principal_id c);
     ac_lookup_id := arr (ci_lookup_id c); ac_verifier := arr (ci_verifier c);
     ac_created_at := ci_created_at_unix_ms c; ac_expires_at := ci_expires_at_unix_ms c;
     ac_last_used_at := None; ac_revoked_at := None; ac_revision := 1;
     ac_state_commitment := arr (ci_state_commitment c) |}.

(** [SqliteStore::create_application_credential] *)
Definition create_application_credential (c : ApplicationCredentialInsert) (audit : AuditRecord)
  : Store unit :=
  transact (
    require_audit_head audit ;;
    tx_insert credentials_schema db_credentials set_credentials (credential_row c) ;;
    tx_require (principal_exists (arr (ci_principal_id c))) ;;
    insert_audit audit ;;
    tx_commit).

Definition update_credential_row (used revoked : option Z) (revision : Z) (commitment : blob)
    (r : CredentialRow) : CredentialRow :=
  {| ac_credential_id := ac_credential_id r; ac_principal_id := ac_principal_id r;
     ac_lookup_id := ac_lookup_id r; ac_verifier := ac_verifier r;
     ac_created_at := ac_created_at r; ac_expires_at := ac_expires_at r;
     ac_last_used_at := used; ac_revoked_at := revoked; ac_revision := revision;
     ac_state_commitment := commitment |}.

(** [SqliteStore::mark_application_credential_used] *)
Definition mark_application_credential_used (credential_id : CredentialId) (expected_revision now : Z)
    (commitment : array 32) : Store Z :=
  transact (
    let! next := tx_lift (ok_or Conflict (checked_add u64_max expected_revision 1)) in
    let! next_sql := tx_lift (sql_i64 next) in
    let! expected_sql := tx_lift (sql_i64 expected_revision) in
    let! changed := tx_update credentials_schema db_credentials set_credentials
      (fun r => blob_eqb (ac_credential_id r) (arr credential_id)
                && (ac_revision r =? expected_sql) && bool_decide (ac_revoked_at r = None)
                && opt_check (fun e => now <=? e) (ac_expires_at r))
      (fun r => update_credential_row (Some now) (ac_revoked_at r) next_sql (arr commitment) r) in
    tx_reject (negb (changed =? 1)) Conflict ;;
    tx_ret next).

(** [SqliteStore::revoke_application_credential] *)
Definition revoke_application_credential (credential_id : CredentialId)
    (expected_revision revoked_at : Z) (commitment : array 32) (audit : AuditRecord) : Store Z :=
  transact (
    let! next := tx_lift (ok_or Conflict (checked_add u64_max expected_revision 1)) in
    require_audit_head audit ;;
    let! next_sql := tx_lift (sql_i64 next) in
    let! expected_sql := tx_lift (sql_i64 expected_revision) in
    let! changed := tx_update credentials_schema db_credentials set_credentials
      (fun r => blob_eqb (ac_credential_id r) (arr credential_id)
                && (ac_revision r =? expected_sql) && bool_decide (ac_revoked_at r = None))
      (fun r => update_credential_row (ac_last_used_at r) (Some revoked_at) next_sql (arr commitment) r) in
    tx_reject (negb (changed =? 1)) Conflict ;;
    insert_audit audit ;;
    tx_commit ;;
    tx_ret next).

(** * Preservation *)

Lemma create_service_identity_preserves i a : preserves (create_service_identity i a).
Proof. intros d x d' H Hok. unfold create_service_identity in H. txn_policy. finish_audit. frame_tables. Qed.
Lemma enroll_owner_preserves p c e o n a : preserves (enroll_owner p c e o n a).
Proof.
  intros d x d' H Hok. unfold enroll_owner, insert_authenticator in H. txn_policy. finish_audit. frame_tables.
Qed.
Lemma add_owner_authenticator_preserves p o n a : preserves (add_owner_authenticator p o n a).
Proof.
  intros d x d' H Hok. unfold add_owner_authenticator, insert_authenticator in H. txn_policy.
  finish_audit. frame_tables.
Qed.
Lemma create_session_preserves s a : preserves (create_session s a).
Proof. intros d x d' H Hok. unfold create_session in H. txn_policy. finish_audit. frame_tables. Qed.
Lemma revoke_session_preserves i e r c a : preserves (revoke_session i e r c a).
Proof. intros d x d' H Hok. unfold revoke_session in H. txn_policy. finish_audit. frame_tables. Qed.
Lemma create_application_credential_preserves c a : preserves (create_application_credential c a).
Proof. intros d x d' H Hok. unfold create_application_credential in H. txn_policy. finish_audit. frame_tables. Qed.
Lemma revoke_application_credential_preserves i e r c a : preserves (revoke_application_credential i e r c a).
Proof. intros d x d' H Hok. unfold revoke_application_credential in H. txn_policy. finish_audit. frame_tables. Qed.

Lemma create_service_identity_audited i a : audited a (create_service_identity i a).
Proof. intros d x d' H. unfold create_service_identity in H. audited_op. Qed.
Lemma enroll_owner_audited p c e o n a : audited a (enroll_owner p c e o n a).
Proof. intros d x d' H. unfold enroll_owner, insert_authenticator in H. audited_op. Qed.
Lemma add_owner_authenticator_audited p o n a : audited a (add_owner_authenticator p o n a).
Proof. intros d x d' H. unfold add_owner_authenticator, insert_authenticator in H. audited_op. Qed.
Lemma create_session_audited s a : audited a (create_session s a).
Proof. intros d x d' H. unfold create_session in H. audited_op. Qed.
Lemma revoke_session_audited i e r c a : audited a (revoke_session i e r c a).
Proof. intros d x d' H. unfold revoke_session in H. audited_op. Qed.
Lemma create_application_credential_audited c a : audited a (create_application_credential c a).
Proof. intros d x d' H. unfold create_application_credential in H. audited_op. Qed.
Lemma revoke_application_credential_audited i e r c a : audited a (revoke_application_credential i e r c a).
Proof. intros d x d' H. unfold revoke_application_credential in H. audited_op. Qed.

Lemma touch_session_safe i e n x r c d o d' :
  touch_session i e n x r c d = (o, d') -> db_ok d -> db_ok d' /\ db_audit d' = db_audit d.
Proof.
  intros H Hok. unfold touch_session in H.
  destruct o as [u|u]; [|by apply transact_Err in H as [_ ->]]. sinv. split; [|done]. frame_tables.
Qed.
Lemma mark_application_credential_used_safe i e n c d o d' :
  mark_application_credential_used i e n c d = (o, d') -> db_ok d ->
  db_ok d' /\ db_audit d' = db_audit d.
Proof.
  intros H Hok. unfold mark_application_credential_used in H.
  destruct o as [u|u]; [|by apply transact_Err in H as [_ ->]]. sinv. split; [|done]. frame_tables.
Qed.
