(* ===== verification/Store.v ===== *)
(** Every mutation of the storage crate as one operation type, the runs of any
    sequence of them, and the guarantees that hold along such runs. *)
From Stdlib Require Import ZArith Lia String.
From stdpp Require Import base tactics numbers option strings list.
From S2P Require Import Prelude RustStd Core Sql Schema Records StoreInv RecordsOk PolicyStore VaultStore RotationStore IdentityStore.

Inductive StoreOp : Type :=
| OpAppendAudit (a : AuditRecord)
| OpCreateNamespace (n : NamespaceInsert) (a : AuditRecord)
| OpMoveNamespace (id : NamespaceId) (rev : Z) (parent : option NamespaceId)
    (index commitment : array 32) (at_ : Z) (a : AuditRecord)
| OpCreateSecret (s : SecretInsert) (a : AuditRecord)
| OpAppendVersion (v : SecretVersionInsert) (a : AuditRecord)
| OpChangeLifecycle (c : SecretLifecycleChange) (a : AuditRecord)
| OpPurge (p : SecretPurge) (a : AuditRecord)
| OpCreatePolicy (p : PolicyInsert) (rev : Z) (c : array 32) (a : AuditRecord)
| OpAddGrant (g : PolicyGrantRecord) (rev : Z) (c : array 32) (a : AuditRecord)
| OpArchivePolicy (id : PolicyId) (prev : Z) (pc : array 32) (at_ rev : Z) (c : array 32) (a : AuditRecord)
| OpBindPolicy (b : PolicyBindingRecord) (rev : Z) (c : array 32) (a : AuditRecord)
| OpReserveIdempotency (p : PrincipalId) (k f : array 32) (kind : string) (id : ObjectId) (now exp : Z)
| OpBeginInitialization (b : BootstrapRecord) (restore : bool)
| OpActivate (kek : Z) (restore : bool)
| OpReplaceRoot (j : MaintenanceJobId) (keys : list RootRewrappedKey) (now : Z) (a : AuditRecord)
| OpBeginRotation (j : MaintenanceJobId) (source : Z) (k : WrappedKeyRecord) (now : Z) (a : AuditRecord)
| OpApplyRewrap (j : KekRotationJob) (items : list RewrappedItem) (now : Z)
| OpAdvanceStage (j : KekRotationJob) (now : Z)
| OpFinishRotation (j : KekRotationJob) (now : Z) (a : AuditRecord)
| OpCreateService (i : ServiceIdentityInsert) (a : AuditRecord)
| OpEnrollOwner (p : PrincipalId) (pc ac : array 32) (o : OwnerAuthenticatorInsert) (now : Z) (a : AuditRecord)
| OpAddAuthenticator (p : PrincipalId) (o : OwnerAuthenticatorInsert) (now : Z) (a : AuditRecord)
| OpCreateSession (s : SessionInsert) (a : AuditRecord)
| OpTouchSession (id : SessionId) (used now idle recent : Z) (c : array 32)
| OpRevokeSession (id : SessionId) (used at_ : Z) (c : array 32) (a : AuditRecord)
| OpCreateCredential (c : ApplicationCredentialInsert) (a : AuditRecord)
| OpMarkCredential (id : CredentialId) (rev now : Z) (c : array 32)
| OpRevokeCredential (id : CredentialId) (rev at_ : Z) (c : array 32) (a : AuditRecord).

(** The outcome without the value returned. *)
Definition void {A} (m : Store A) : Store unit :=
  fun d => (result_map (fun _ => tt) (fst (m d)), snd (m d)).

Definition exec (op : StoreOp) : Store unit :=
  match op with
  | OpAppendAudit a => append_audit a
  | OpCreateNamespace n a => create_namespace n a
  | OpMoveNamespace id rev p i c u a => void (move_namespace id rev p i c u a)
  | OpCreateSecret s a => create_secret s a
  | OpAppendVersion v a => void (append_secret_version v a)
  | OpChangeLifecycle c a => void (change_secret_lifecycle c a)
  | OpPurge p a => purge_secret p a
  | OpCreatePolicy p r c a => void (create_policy p r c a)
  | OpAddGrant g r c a => void (add_policy_grant g r c a)
  | OpArchivePolicy i pr pc u r c a => void (archive_policy i pr pc u r c a)
  | OpBindPolicy b r c a => void (bind_policy b r c a)
  | OpReserveIdempotency p k f kind id now exp => void (reserve_idempotency p k f kind id now exp)
  | OpBeginInitialization b restore => void (begin_initialization_kind b restore)
  | OpActivate k restore => activate_initialization_kind k restore
  | OpReplaceRoot j keys now a => replace_root_wrappings j keys now a
  | OpBeginRotation j s k now a => void (begin_kek_rotation j s k now a)
  | OpApplyRewrap j items now => void (apply_rewrap_batch j items now)
  | OpAdvanceStage j now => void (advance_rotation_stage j now)
  | OpFinishRotation j now a => finish_kek_rotation j now a
  | OpCreateService i a => create_service_identity i a
  | OpEnrollOwner p pc ac o now a => enroll_owner p pc ac o now a
  | OpAddAuthenticator p o now a => add_owner_authenticator p o now a
  | OpCreateSession s a => create_session s a
  | OpTouchSession id used now idle recent c => touch_session id used now idle recent c
  | OpRevokeSession id used at_ c a => revoke_session id used at_ c a
  | OpCreateCredential c a => create_application_credential c a
  | OpMarkCredential id rev now c => void (mark_application_credential_used id rev now c)
  | OpRevokeCredential id rev at_ c a => void (revoke_application_credential id rev at_ c a)
  end.

(** The event an operation carries; four kinds of operation carry none. *)
Definition op_event (op : StoreOp) : option AuditRecord :=
  match op with
  | OpReserveIdempotency _ _ _ _ _ _ _ | OpBeginInitialization _ _ | OpActivate _ _
  | OpApplyRewrap _ _ _ | OpAdvanceStage _ _ | OpTouchSession _ _ _ _ _ _
  | OpMarkCredential _ _ _ _ => None
  | OpAppendAudit a | OpCreateNamespace _ a | OpMoveNamespace _ _ _ _ _ _ a | OpCreateSecret _ a
  | OpAppendVersion _ a | OpChangeLifecycle _ a | OpPurge _ a | OpCreatePolicy _ _ _ a
  | OpAddGrant _ _ _ a | OpArchivePolicy _ _ _ _ _ _ a | OpBindPolicy _ _ _ a
  | OpReplaceRoot _ _ _ a | OpBeginRotation _ _ _ _ a | OpFinishRotation _ _ a
  | OpCreateService _ a | OpEnrollOwner _ _ _ _ _ a | OpAddAuthenticator _ _ _ a
  | OpCreateSession _ a | OpRevokeSession _ _ _ _ a | OpCreateCredential _ a
  | OpRevokeCredential _ _ _ _ a => Some a
  end.

(** The arguments are in the range of their Rust types, and a lifecycle change
    names one of the three states the code passes. *)
Definition op_typed (op : StoreOp) : Prop :=
  match op with
  | OpCreateNamespace n _ => er_typed (ni_metadata n)
  | OpCreateSecret s _ => er_typed (sn_metadata s) /\ er_typed (sn_payload s)
  | OpAppendVersion v _ => er_typed (vi_payload v)
  | OpChangeLifecycle c _ => to_state_ok c
  | OpApplyRewrap j _ _ => 0 <= kj_target_key_version j <= u32_max
  | _ => True
  end.

(** The state after a sequence of operations, whatever their outcomes. *)
Fixpoint exec_all (ops : list StoreOp) (d : Db) : Db :=
  match ops with
  | [] => d
  | op :: ops' => exec_all ops' (snd (exec op d))
  end.

(** * Lemmas *)

Lemma void_spec {A} (m : Store A) d r d' :
  void m d = (r, d') -> exists x, m d = (x, d') /\ is_ok x = is_ok r
    /\ (forall e, r = Err e -> x = Err e).
Proof.
  unfold void. destruct (m d) as [x d1]. simpl. intros [= <- <-]. exists x.
  destruct x; simpl; naive_solver.
Qed.

(** What every operation guarantees of a state that satisfies the invariant. *)
Record op_good (op : StoreOp) (d : Db) (r : result StorageError unit) (d' : Db) : Prop := {
  good_ok : db_ok d';
  good_audit : rows (db_audit d') = rows (db_audit d)
                 ++ (if is_ok r then from_option (fun a => [audit_row a]) [] (op_event op) else []);
  good_extends a : is_ok r = true -> op_event op = Some a -> extends d a;
  good_atomic e : r = Err e -> d' = d }.

Lemma audited_good op {A} (m : Store A) a d x r d' :
  op_event op = Some a -> audited a m -> preserves m -> m d = (x, d') -> is_ok x = is_ok r ->
  (forall e, x = Err e -> d' = d) -> db_ok d -> op_good op d r d'.
Proof.
  intros He Ha Hp Hm Hr Hat Hok. destruct x as [x|e]; simpl in Hr; rewrite ?He.
  - destruct r; [|done]. destruct (Ha d x d' Hm) as [Hx Hrows]. split; rewrite ?He; simpl; try done.
    + by eapply Hp.
    + intros b _ [= <-]. done.
  - destruct r; [done|]. specialize (Hat e eq_refl). subst. split; rewrite ?He; simpl; try done. by rewrite app_nil_r.
Qed.

Lemma transact_atomic {S E A} (m : Tx S E A) s x s' e : transact m s = (x, s') -> x = Err e -> s' = s.
Proof. intros H ->. by apply transact_Err in H as [_ ?]. Qed.

Lemma quiet_good op d x r d' :
  op_event op = None -> db_ok d' -> db_audit d' = db_audit d -> is_ok x = is_ok r ->
  (forall e, x = Err e :> result StorageError unit -> d' = d) -> op_good op d r d'.
Proof.
  intros He Hok Ha Hr Hat. destruct r; split; rewrite ?He, ?Ha; simpl; rewrite ?app_nil_r; try done.
  intros e' _. destruct x; [done|]. eauto.
Qed.

Lemma idempotency_row_parses d r :
  db_ok d -> r ∈ rows (db_idempotency d) ->
  forall b, idem_response_id r = Some b -> exists u, parse_uuid b = Ok u.
Proof.
  intros [HT _ _ _ _] Hr b Hb. pose proof (table_ok_check _ _ _ (ok_idempotency _ HT) Hr) as Hc.
  cbn in Hc. bprop. destruct Hc as [[_ Hc] _]. rewrite Hb in Hc. simpl in Hc. unfold blob_len, zlen in Hc. bprop.
  unfold parse_uuid. destruct (try_array 16 b) as [u|] eqn:E; [by exists u|].
  apply try_array_None in E. lia.
Qed.

Lemma reserve_idempotency_atomic p k f kind id now exp d e d' :
  reserve_idempotency p k f kind id now exp d = (Err e, d') -> db_ok d -> d' = d.
Proof.
  unfold reserve_idempotency, prog_bind. intros H Hok.
  destruct (transact _ d) as [[stored|e'] d1] eqn:Et.
  2:{ apply transact_Err in Et as [_ ->]. by simplify_eq. }
  destruct stored as [bytes|]; [|done]. exfalso. apply transact_Ok in Et. sinv.
  destruct (select_one _ _) as [r|] eqn:Hs in *; sinv.
  apply select_one_Some in Hs as [[Hr _]%elem_of_rows_delete _].
  edestruct idempotency_row_parses as [u Hu]; [exact Hok|exact Hr|eassumption|].
  unfold prog_lift in H. by rewrite Hu in H.
Qed.

Lemma begin_initialization_kind_atomic b restore d e d' :
  begin_initialization_kind b restore d = (Err e, d') -> d' = d.
Proof.
  unfold begin_initialization_kind, prog_bind, prog_lift, prog_read. intros H.
  destruct (validate_bootstrap b); [|by simplify_eq].
  destruct (installation d) as [[i|]|]; [| |by simplify_eq].
  { destruct (if _ : bool then _ else _) as [x|]; [|by simplify_eq]. unfold prog_reject in H.
    destruct x; [by simplify_eq|]. destruct (ir_activation_state i); unfold prog_ret, prog_fail in H; by simplify_eq. }
  by apply transact_Err in H as [_ ?].
Qed.

Ltac use_audited A P :=
  eapply audited_good; [reflexivity|apply A|by apply P|eassumption|done| |done];
  intros ? ?; by eapply transact_atomic.

(** Two rules: an operation that carries an event, and one that does not. *)
Lemma exec_good op d r d' : exec op d = (r, d') -> op_typed op -> db_ok d -> op_good op d r d'.
Proof.
  intros H Ht Hok. destruct op; simpl in H, Ht;
    try (apply void_spec in H as (x & H & Hr & He)).
  - use_audited append_audit_audited append_audit_preserves.
  - use_audited create_namespace_audited create_namespace_preserves.
  - use_audited move_namespace_audited move_namespace_preserves.
  - destruct Ht. use_audited create_secret_audited create_secret_preserves.
  - use_audited append_secret_version_audited append_secret_version_preserves.
  - use_audited change_secret_lifecycle_audited change_secret_lifecycle_preserves.
  - use_audited purge_secret_audited purge_secret_preserves.
  - use_audited create_policy_audited create_policy_preserves.
  - use_audited add_policy_grant_audited add_policy_grant_preserves.
  - use_audited archive_policy_audited archive_policy_preserves.
  - use_audited bind_policy_audited bind_policy_preserves.
  - destruct (reserve_idempotency_safe _ _ _ _ _ _ _ _ _ _ H Hok). eapply (quiet_good _ _ r); try done.
    intros e ->. rewrite (He e eq_refl) in H. by eapply reserve_idempotency_atomic.
  - destruct (begin_initialization_kind_safe _ _ _ _ _ H Hok). eapply (quiet_good _ _ r); try done.
    intros e ->. rewrite (He e eq_refl) in H. by eapply begin_initialization_kind_atomic.
  - destruct (activate_initialization_kind_safe _ _ _ _ _ H Hok). eapply (quiet_good _ _ r); try done.
    intros e ->. by eapply transact_atomic.
  - use_audited replace_root_wrappings_audited replace_root_wrappings_preserves.
  - use_audited begin_kek_rotation_audited begin_kek_rotation_preserves.
  - destruct (apply_rewrap_batch_safe _ _ _ _ _ _ Ht H Hok). eapply (quiet_good _ _ r); try done.
    intros e ->. eapply transact_atomic; [exact H|by apply He].
  - destruct (advance_rotation_stage_safe _ _ _ _ _ H Hok). eapply (quiet_good _ _ r); try done.
    intros e ->. eapply transact_atomic; [exact H|by apply He].
  - use_audited finish_kek_rotation_audited finish_kek_rotation_preserves.
  - use_audited create_service_identity_audited create_service_identity_preserves.
  - use_audited enroll_owner_audited enroll_owner_preserves.
  - use_audited add_owner_authenticator_audited add_owner_authenticator_preserves.
  - use_audited create_session_audited create_session_preserves.
  - destruct (touch_session_safe _ _ _ _ _ _ _ _ _ H Hok). eapply (quiet_good _ _ r); try done.
    intros e ->. by eapply transact_atomic.
  - use_audited revoke_session_audited revoke_session_preserves.
  - use_audited create_application_credential_audited create_application_credential_preserves.
  - destruct (mark_application_credential_used_safe _ _ _ _ _ _ _ H Hok). eapply (quiet_good _ _ r); try done.
    intros e ->. eapply transact_atomic; [exact H|by apply He].
  - use_audited revoke_application_credential_audited revoke_application_credential_preserves.
Qed.

Lemma exec_all_ok ops d : Forall op_typed ops -> db_ok d -> db_ok (exec_all ops d).
Proof.
  revert d. induction ops as [|op ops IH]; intros d Ht Hok; simpl; [done|].
  inversion Ht; subst. apply IH; [done|]. destruct (exec op d) as [r d'] eqn:E.
  by eapply good_ok, exec_good.
Qed.

(** * Guarantees along every run *)


(** C29. One operation either fails and leaves the database exactly as it
    was, or succeeds and appends exactly the audit event it carries, which
    extends the head of the log it found. *)
Theorem operations_atomic_and_audited (op : StoreOp) (d : Db) (r : result StorageError unit) (d' : Db)
    (Hrun : exec op d = (r, d')) (Hty : op_typed op) (Hok : db_ok d) :
  match r with
  | Err _ => d' = d
  | Ok _ => match op_event op with
            | Some a => extends d a /\ rows (db_audit d') = rows (db_audit d) ++ [audit_row a]
            | None => rows (db_audit d') = rows (db_audit d)
            end
  end.
Proof.
  destruct (exec_good op d r d' Hrun Hty Hok) as [_ Ha He Hat]. destruct r as [u|e]; [|by eapply Hat].
  simpl in Ha. destruct (op_event op) as [a|]; simpl in Ha; [|by rewrite app_nil_r in Ha]. eauto.
Qed.

Lemma exec_all_audit ops d :
  Forall op_typed ops -> db_ok d ->
  exists evs, rows (db_audit (exec_all ops d)) = rows (db_audit d) ++ evs.
Proof.
  revert d. induction ops as [|op ops IH]; intros d Ht Hok; simpl; [exists []; by rewrite app_nil_r|].
  inversion Ht; subst. destruct (exec op d) as [r d'] eqn:E. simpl.
  destruct (exec_good op d r d' E) as [Hok' Ha _ _]; [done..|].
  destruct (IH d') as [evs Hevs]; [done..|]. eexists. rewrite Hevs, Ha, <- app_assoc. done.
Qed.

(** The audit log is append-only: along any run the log at an earlier
    moment is a prefix of the log later. *)
Theorem audit_append_only (ops1 ops2 : list StoreOp) (H1 : Forall op_typed ops1) (H2 : Forall op_typed ops2) :
  exists evs, rows (db_audit (exec_all ops2 (exec_all ops1 empty_db)))
              = rows (db_audit (exec_all ops1 empty_db)) ++ evs.
Proof. apply exec_all_audit; [done|]. apply exec_all_ok; [done|apply db_ok_empty]. Qed.

Lemma extends_once d d' a b :
  db_ok d -> db_ok d' -> extends d a -> extends d b ->
  rows (db_audit d') = rows (db_audit d) ++ [audit_row a] -> ~ extends d' b.
Proof.
  intros Hok Hok' (h & Hh & Hs & _) (h2 & Hh2 & Hs2 & _) Hr (h' & Hh' & Hs' & _).
  rewrite Hh in Hh2. simplify_eq.
  destruct (audit_head_end d') as (h'' & Hh'' & He & _); [eauto with tables|apply Hok'|].
  rewrite Hh' in Hh''. simplify_eq. unfold audit_end in He. rewrite Hr, chain_end_app in He.
  simpl in He. injection He as He _. lia.
Qed.

(** Of two audited operations prepared against the same head of the
    audit log, at most one commits: after the first, the second fails and
    changes nothing. *)
Theorem prepared_operations_serialize (op1 op2 : StoreOp) (d d1 : Db) (a1 a2 : AuditRecord)
    (Hok : db_ok d) (Hty1 : op_typed op1) (Hty2 : op_typed op2)
    (He1 : op_event op1 = Some a1) (He2 : op_event op2 = Some a2)
    (Hp2 : extends d a2) (Hrun : exec op1 d = (Ok tt, d1)) :
  exists e, exec op2 d1 = (Err e, d1).
Proof.
  destruct (exec_good op1 d (Ok tt) d1 Hrun) as [Hok1 Ha Hx _]; [done..|].
  rewrite He1 in Ha. simpl in Ha. specialize (Hx a1 eq_refl He1).
  destruct (exec op2 d1) as [[u|e] d2] eqn:E.
  - destruct (exec_good op2 d1 (Ok u) d2 E) as [_ _ Hx2 _]; [done..|].
    exfalso. eapply (extends_once d d1 a1 a2); eauto.
  - exists e. destruct (exec_good op2 d1 (Err e) d2 E) as [_ _ _ Hat]; [done..|]. by rewrite (Hat e eq_refl).
Qed.

(** ** History is immutable *)

(** Everything of a stored version but the wrapping of its data key. *)
Definition version_body (v : VersionRow) :=
  (sv_secret_id v, sv_version v, sv_envelope_version v, sv_algorithm_suite v,
   (sv_payload_nonce v, sv_payload_ciphertext v),
   (sv_expires_at v, sv_rotation_due_at v, sv_created_by v, sv_created_at v)).

(** The columns of a secret that a change of its revision must accompany. *)
Definition secret_body (s : SecretRow) :=
  (sec_namespace_id s, sec_name_index s, sec_metadata_version s,
   (sec_metadata_nonce s, sec_metadata_ciphertext s),
   (sec_lifecycle_state s, sec_current_version s, sec_deleted_at s, sec_state_commitment s)).

(** A later state of a secret. *)
Definition secret_later (s s' : SecretRow) : Prop :=
  sec_secret_id s' = sec_secret_id s /\ sec_current_version s <= sec_current_version s'
  /\ (sec_revision s < sec_revision s'
      \/ sec_revision s' = sec_revision s /\ secret_body s' = secret_body s).

Definition tombstoned (d : Db) (id : blob) : Prop :=
  exists t, t ∈ rows (db_tombstones d) /\ tomb_secret_id t = id.

Record evolves (d d' : Db) : Prop := {
  ev_versions v : v ∈ rows (db_versions d) ->
    (exists v', v' ∈ rows (db_versions d') /\ version_body v' = version_body v)
    \/ tombstoned d' (sv_secret_id v);
  ev_secrets s : s ∈ rows (db_secrets d) ->
    (exists s', s' ∈ rows (db_secrets d') /\ secret_later s s')
    \/ tombstoned d' (sec_secret_id s);
  ev_tombstones t : t ∈ rows (db_tombstones d) -> t ∈ rows (db_tombstones d') }.

Lemma secret_later_refl s : secret_later s s.
Proof. unfold secret_later. split; [done|]. split; [lia|]. by right. Qed.

Lemma secret_later_trans a b c : secret_later a b -> secret_later b c -> secret_later a c.
Proof.
  intros (E1 & ? & H1) (E2 & ? & H2). split; [congruence|]. split; [lia|].
  destruct H1 as [?|[? B1]], H2 as [?|[? B2]]; [left; lia|left; lia|left; lia|right].
  split; [lia|congruence].
Qed.

Lemma tombstoned_later d d' id : evolves d d' -> tombstoned d id -> tombstoned d' id.
Proof. intros H (t & Ht & E). exists t. split; [by apply (ev_tombstones _ _ H)|done]. Qed.

Lemma version_body_id v v' : version_body v' = version_body v -> sv_secret_id v' = sv_secret_id v.
Proof. unfold version_body. congruence. Qed.

#[export] Instance evolves_preorder : PreOrder evolves.
Proof.
  split.
  - intros d. split; eauto using secret_later_refl.
  - intros a b c H1 H2. split.
    + intros v Hv. destruct (ev_versions _ _ H1 v Hv) as [(v' & Hv' & E)|Ht];
        [|right; by eapply tombstoned_later].
      destruct (ev_versions _ _ H2 v' Hv') as [(v'' & Hv'' & E')|Ht].
      * left. exists v''. split; [done|congruence].
      * right. by rewrite <- (version_body_id _ _ E).
    + intros s Hs. destruct (ev_secrets _ _ H1 s Hs) as [(s' & Hs' & L)|Ht];
        [|right; by eapply tombstoned_later].
      destruct (ev_secrets _ _ H2 s' Hs') as [(s'' & Hs'' & L')|Ht].
      * left. exists s''. split; [done|]. by eapply secret_later_trans.
      * right. by rewrite <- (proj1 L).
    + intros t Ht. by apply (ev_tombstones _ _ H2), (ev_tombstones _ _ H1).
Qed.

Lemma evolves_frame d d' :
  db_versions d' = db_versions d -> db_secrets d' = db_secrets d ->
  db_tombstones d' = db_tombstones d -> evolves d d'.
Proof. intros E1 E2 E3. split; rewrite ?E1, ?E2, ?E3; eauto using secret_later_refl. Qed.

(** A table of secrets each of which is kept or moved on. *)
Lemma evolves_secrets d d' :
  db_versions d' = db_versions d -> db_tombstones d' = db_tombstones d ->
  (forall s, s ∈ rows (db_secrets d) -> exists s', s' ∈ rows (db_secrets d') /\ secret_later s s') ->
  evolves d d'.
Proof. intros E1 E2 Hs. split; rewrite ?E1, ?E2; eauto. Qed.

Lemma create_secret_evolves s a d x d' : create_secret s a d = (Ok x, d') -> evolves d d'.
Proof.
  intros H. unfold create_secret, insert_version in H. txn.
  repeat match goal with H : sql_insert _ _ _ = Some _ |- _ => apply sql_insert_Some in H as (-> & _) end.
  split; cbn; [intros v Hv; left|intros r Hr; left|done].
  - exists v. rewrite elem_of_rows_insert. auto.
  - exists r. rewrite elem_of_rows_insert. auto using secret_later_refl.
Qed.

Lemma append_secret_version_evolves v a d x d' :
  append_secret_version v a d = (Ok x, d') -> evolves d d'.
Proof.
  intros H. unfold append_secret_version, insert_version in H. txn.
  repeat match goal with H : sql_insert _ _ _ = Some _ |- _ => apply sql_insert_Some in H as (-> & _) end.
  match goal with H : sql_update _ _ _ _ = Some _ |- _ => apply sql_update_Some in H as (_ & -> & Hu) end.
  split; cbn in *; [intros r Hr; left|intros r Hr; left|done].
  - exists r. rewrite elem_of_rows_insert. auto.
  - eexists. split; [apply elem_of_rows_update; by eauto|]. destruct (_ && _) eqn:E; [|apply secret_later_refl].
    destruct (Hu r Hr E) as [Htr _]. unfold secrets_monotonic_versions in Htr. cbn in Htr.
    rewrite !orb_false_iff, !Z.ltb_ge in Htr. split; [done|]. cbn. split; [tauto|]. left. lia.
Qed.

Lemma change_secret_lifecycle_evolves c a d x d' :
  change_secret_lifecycle c a d = (Ok x, d') -> evolves d d'.
Proof.
  intros H. unfold change_secret_lifecycle in H. txn.
  match goal with H : sql_update _ _ _ _ = Some _ |- _ => apply sql_update_Some in H as (_ & -> & Hu) end.
  repeat match goal with H : sql_i64 _ = Ok _ |- _ => apply ok_or_Ok, try_from_Some in H as [-> ?] end.
  match goal with H : checked_add _ _ _ = Some _ |- _ => apply checked_add_Some in H as [-> ?] end.
  apply evolves_secrets; [done..|]. cbn. intros s Hs.
  eexists. split; [apply elem_of_rows_update; by eauto|]. destruct (_ && _) eqn:E; [|apply secret_later_refl].
  bprop. destruct_and!. split; [done|]. cbn. split; [lia|]. left. lia.
Qed.

Lemma purge_secret_evolves p a d x d' : purge_secret p a d = (Ok x, d') -> evolves d d'.
Proof.
  intros H. unfold purge_secret in H. txn_purge.
  match goal with H : sql_insert tombstones_schema ?w _ = Some _ |- _ =>
    apply sql_insert_Some in H as (-> & _); set (tomb := w) in * end.
  assert (forall id, id = arr (sp_secret_id p) ->
            exists t, t ∈ rows (insert_row tomb (db_tombstones d)) /\ tomb_secret_id t = id) as Htomb.
  { intros id ->. exists tomb. rewrite elem_of_rows_insert. auto. }
  split; cbn.
  - intros v Hv. destruct (decide (sv_secret_id v = arr (sp_secret_id p))) as [E|E]; [right; by apply Htomb|left].
    exists v. rewrite elem_of_rows_delete, blob_eqb_false. done.
  - intros s Hs. destruct (decide (sec_secret_id s = arr (sp_secret_id p))) as [E|E]; [right; by apply Htomb|left].
    exists s. rewrite elem_of_rows_delete, blob_eqb_false. eauto using secret_later_refl.
  - intros t Ht. rewrite elem_of_rows_insert. by left.
Qed.

Lemma update_rewrap_evolves job item d n d' : update_rewrap job item d = Ok (n, d') -> evolves d d'.
Proof.
  intros H. unfold update_rewrap in H. cbv zeta in H.
  destruct (ri_kind (rw_source item));
    apply tx_update_rowid_Ok in H as (t & Ht & ->); try (by apply evolves_frame);
    pose proof Ht as (_ & E)%sql_update_rowid_Some;
    match type of E with t = update_at (at_rowid ?i ?p) ?f ?t0 => pose proof (update_at_pointwise i p f t0) as HF end;
    rewrite <- E in HF.
  - apply evolves_secrets; [done..|]. intros s Hs.
    destruct (Forall2_elem_l _ _ _ _ HF Hs) as (s' & Hs' & Hpw). exists s'. split; [done|].
    destruct Hpw as [->|[_ ->]]; [apply secret_later_refl|]. split; [done|]. cbn. split; [lia|by right].
  - split; cbn; [|eauto using secret_later_refl|done]. intros v Hv. left.
    destruct (Forall2_elem_l _ _ _ _ HF Hv) as (v' & Hv' & Hpw). exists v'. split; [done|].
    destruct Hpw as [->|[_ ->]]; done.
Qed.

Lemma rewrap_loop_evolves job items last d n d' :
  rewrap_loop job last items d = Ok (n, d') -> evolves d d'.
Proof.
  revert last d. induction items as [|item items IH]; intros last d H; simpl in H.
  { minv. done. }
  sinv. etransitivity; [by eapply update_rewrap_evolves|]. by eapply IH.
Qed.

Lemma apply_rewrap_batch_evolves job items now d x d' :
  apply_rewrap_batch job items now d = (Ok x, d') -> evolves d d'.
Proof.
  intros H. unfold apply_rewrap_batch in H. sinv.
  match goal with H : require_job _ _ = _ |- _ => apply require_job_Ok in H as [-> _] end.
  match goal with H : rewrap_loop _ _ _ _ = _ |- _ => apply rewrap_loop_evolves in H end.
  etransitivity; [done|]. by apply evolves_frame.
Qed.

Lemma begin_initialization_kind_frame b restore d x d' :
  begin_initialization_kind b restore d = (Ok x, d') -> evolves d d'.
Proof.
  unfold begin_initialization_kind. intros H. minv.
  match goal with H : match ?o with Some _ => _ | None => _ end _ = _ |- _ => destruct o as [e|] end.
  - minv. destruct (ir_activation_state e); minv; done.
  - sinv. match goal with H : insert_installation _ _ = _ |- _ => unfold insert_installation in H end.
    destruct (db_installation d); [done|]. destruct (installation_check _); simplify_eq.
    match goal with H : tx_forM _ _ _ = _ |- _ => apply tx_forM_insert_keys in H as (t & -> & Ht & _) end.
    unfold create_restore_guard, tx_ret in *. cbn in *. destruct restore; repeat case_match; simplify_eq;
      by apply evolves_frame.
Qed.

Ltac frame_op := txn_policy; txn; by apply evolves_frame.

Lemma exec_evolves op d r d' : exec op d = (r, d') -> op_typed op -> db_ok d -> evolves d d'.
Proof.
  intros H Ht Hok. destruct r as [u|e].
  2:{ destruct (exec_good op d (Err e) d' H Ht Hok) as [_ _ _ Hat]. by rewrite (Hat e eq_refl). }
  destruct op; simpl in H; try (apply void_spec in H as ([x|] & H & Hr & _); [|done]);
    try (by eapply create_secret_evolves); try (by eapply append_secret_version_evolves);
    try (by eapply change_secret_lifecycle_evolves); try (by eapply purge_secret_evolves);
    try (by eapply apply_rewrap_batch_evolves); try (by eapply begin_initialization_kind_frame).
  - unfold append_audit in H. frame_op.
  - unfold create_namespace in H. frame_op.
  - unfold move_namespace in H. frame_op.
  - unfold create_policy in H. frame_op.
  - unfold add_policy_grant in H. frame_op.
  - unfold archive_policy in H. frame_op.
  - unfold bind_policy in H. frame_op.
  - unfold reserve_idempotency in H. sinv.
    repeat match goal with H : match ?o with Some _ => _ | None => _ end _ = _ |- _ => destruct o; sinv end;
      by apply evolves_frame.
  - unfold activate_initialization_kind in H. sinv. destruct (String.eqb _ "ready"); sinv; [done|].
    match goal with H : update_installation _ _ _ = _ |- _ => apply update_installation_Ok in H end.
    destruct_or!; destruct_and?; repeat minv_step; simplify_eq.
    destruct restore; sinv; by apply evolves_frame.
  - unfold replace_root_wrappings in H. txn_policy.
    match goal with H : tx_forM _ _ _ = _ |- _ => apply root_loop_keys in H as (t & -> & _) end. frame_op.
  - unfold begin_kek_rotation, insert_key in H. txn_policy.
    match goal with H : update_installation _ _ _ = _ |- _ => apply update_installation_Ok in H end.
    destruct_or!; destruct_and?; repeat minv_step; simplify_eq; frame_op.
  - unfold advance_rotation_stage in H. frame_op.
  - unfold finish_kek_rotation in H. txn_finish; frame_op.
  - unfold create_service_identity in H. frame_op.
  - unfold enroll_owner, insert_authenticator in H. frame_op.
  - unfold add_owner_authenticator, insert_authenticator in H. frame_op.
  - unfold create_session in H. frame_op.
  - unfold touch_session in H. frame_op.
  - unfold revoke_session in H. frame_op.
  - unfold create_application_credential in H. frame_op.
  - unfold mark_application_credential_used in H. frame_op.
  - unfold revoke_application_credential in H. frame_op.
Qed.

Lemma exec_all_evolves ops d : Forall op_typed ops -> db_ok d -> evolves d (exec_all ops d).
Proof.
  revert d. induction ops as [|op ops IH]; intros d Ht Hok; simpl; [done|].
  inversion Ht; subst. destruct (exec op d) as [r d'] eqn:E. simpl.
  transitivity d'; [by eapply exec_evolves|]. apply IH; [done|]. by eapply good_ok, exec_good.
Qed.

(** A stored secret version is never altered: along any run its
    payload, schedule, creator and time stay as written until its secret is
    purged, which leaves a tombstone forever. *)
Theorem versions_immutable (ops1 ops2 : list StoreOp) (v : VersionRow)
    (H1 : Forall op_typed ops1) (H2 : Forall op_typed ops2)
    (Hv : v ∈ rows (db_versions (exec_all ops1 empty_db))) :
  let d' := exec_all ops2 (exec_all ops1 empty_db) in
  (exists v', v' ∈ rows (db_versions d') /\ version_body v' = version_body v)
  \/ tombstoned d' (sv_secret_id v).
Proof.
  apply (ev_versions _ _ (exec_all_evolves ops2 _ H2 (exec_all_ok _ _ H1 db_ok_empty)) v Hv).
Qed.

(** Revision and current version of a secret only grow along a run,
    and no content of the secret changes without a larger revision. *)
Theorem secret_revision_monotone (ops1 ops2 : list StoreOp) (s : SecretRow)
    (H1 : Forall op_typed ops1) (H2 : Forall op_typed ops2)
    (Hs : s ∈ rows (db_secrets (exec_all ops1 empty_db))) :
  let d' := exec_all ops2 (exec_all ops1 empty_db) in
  (exists s', s' ∈ rows (db_secrets d') /\ secret_later s s') \/ tombstoned d' (sec_secret_id s).
Proof.
  apply (ev_secrets _ _ (exec_all_evolves ops2 _ H2 (exec_all_ok _ _ H1 db_ok_empty)) s Hs).
Qed.
