(* ===== verification/RecordsProps.v ===== *)
(** Functional behaviour of the record operations: what is written reads back,
    stale preconditions are refused, and purging removes exactly one deleted
    secret. *)
From Stdlib Require Import ZArith Lia String.
From stdpp Require Import base tactics numbers option strings list.
From S2P Require Import Prelude RustStd Core Sql Schema Records StoreInv RecordsOk PolicyStore.

(** ** Rows of a consistent database parse *)

Lemma parse_encrypted_Ok n c dn w k :
  length n = 24%nat -> 16 <= zlen c <= 16777216 -> length dn = 24%nat -> length w = 48%nat ->
  0 <= k <= u32_max ->
  exists r, parse_encrypted n c dn w k = Ok r
    /\ arr (er_nonce r) = n /\ er_ciphertext r = c /\ arr (er_dek_nonce r) = dn
    /\ arr (er_wrapped_dek r) = w /\ er_kek_version r = k.
Proof.
  intros Hn Hc Hd Hw Hk. unfold parse_encrypted, parse_array, between.
  rewrite (proj2 (Z.leb_le 16 (zlen c))), (proj2 (Z.leb_le (zlen c) 16777216)) by lia. cbn [andb negb].
  destruct (try_array 24 n) as [n'|] eqn:En; [|by apply try_array_None in En].
  destruct (try_array 24 dn) as [d'|] eqn:Ed; [|by apply try_array_None in Ed].
  destruct (try_array 48 w) as [w'|] eqn:Ew; [|by apply try_array_None in Ew].
  apply try_array_Some in En, Ed, Ew. cbn [ok_or result_bind]. rewrite parse_uint_Ok by done.
  eexists. split; [reflexivity|]. done.
Qed.

Lemma parse_encrypted_stored r :
  16 <= zlen (er_ciphertext r) <= 16777216 -> er_typed r ->
  parse_encrypted (arr (er_nonce r)) (er_ciphertext r) (arr (er_dek_nonce r)) (arr (er_wrapped_dek r))
    (er_kek_version r) = Ok r.
Proof.
  intros Hc Hk. destruct (parse_encrypted_Ok (arr (er_nonce r)) (er_ciphertext r) (arr (er_dek_nonce r))
    (arr (er_wrapped_dek r)) (er_kek_version r)) as (r' & -> & E1 & E2 & E3 & E4 & E5);
    [apply array_length|done|apply array_length|apply array_length|done|].
  apply array_eq in E1, E3, E4. destruct r, r'; simpl in *. by subst.
Qed.

Lemma parse_uuid_len b : length b = 16%nat -> exists u, parse_uuid b = Ok u /\ arr u = b.
Proof.
  intros H. unfold parse_uuid. destruct (try_array 16 b) as [u|] eqn:E; [|by apply try_array_None in E].
  exists u. by apply try_array_Some in E.
Qed.
Lemma parse_array_len n b : length b = n -> exists u, parse_array n b = Ok u /\ arr u = b.
Proof.
  intros H. unfold parse_array. destruct (try_array n b) as [u|] eqn:E; [|by apply try_array_None in E].
  exists u. by apply try_array_Some in E.
Qed.

Lemma blob_len_true n b : 0 <= n -> blob_len n b = true -> length b = Z.to_nat n.
Proof. unfold blob_len, zlen. intros ? H%Z.eqb_eq. lia. Qed.

(** Widths from the CHECK constraints. *)
Ltac widths :=
  repeat match goal with
  | H : blob_len ?n ?b = true |- _ =>
      apply blob_len_true in H; [|done]; cbn in H
  | H : metadata_bounds _ = true |- _ => unfold metadata_bounds in H
  | H : between _ _ _ = true |- _ => unfold between in H; apply andb_true_iff in H as [H ?H]
  | H : (_ <=? _) = true |- _ => apply Z.leb_le in H
  | H : (_ <? _) = true |- _ => apply Z.ltb_lt in H
  end.

Lemma namespace_row_widths d r :
  db_ok d -> r ∈ rows (db_namespaces d) ->
  length (ns_namespace_id r) = 16%nat /\ length (ns_name_index r) = 32%nat
  /\ length (ns_metadata_nonce r) = 24%nat /\ 16 <= zlen (ns_metadata_ciphertext r) <= 1048592
  /\ length (ns_dek_nonce r) = 24%nat /\ length (ns_wrapped_dek r) = 48%nat
  /\ length (ns_state_commitment r) = 32%nat
  /\ 0 < ns_revision r <= i64_max /\ 0 < ns_metadata_version r <= i64_max
  /\ 0 < ns_kek_version r <= u32_max.
Proof.
  intros [HT HN _ _ _] Hr. pose proof (table_ok_check _ _ _ (ok_namespaces _ HT) Hr) as Hc.
  destruct (ok_namespace_width _ HN r Hr) as (? & ? & ?).
  cbn in Hc. rewrite !andb_true_iff in Hc. destruct_and!. widths. done.
Qed.

Lemma secret_row_widths d r :
  db_ok d -> r ∈ rows (db_secrets d) ->
  length (sec_secret_id r) = 16%nat /\ length (sec_namespace_id r) = 16%nat
  /\ length (sec_name_index r) = 32%nat
  /\ length (sec_metadata_nonce r) = 24%nat /\ 16 <= zlen (sec_metadata_ciphertext r) <= 1048592
  /\ length (sec_metadata_dek_nonce r) = 24%nat /\ length (sec_metadata_wrapped_dek r) = 48%nat
  /\ length (sec_state_commitment r) = 32%nat
  /\ 0 < sec_revision r <= i64_max /\ 0 < sec_current_version r <= i64_max
  /\ 0 < sec_metadata_version r <= i64_max /\ 0 < sec_metadata_kek_version r <= u32_max.
Proof.
  intros Hok Hr. pose proof Hok as [HT _ HS _ _]. pose proof (table_ok_check _ _ _ (ok_secrets _ HT) Hr) as Hc.
  destruct (ok_secret_width _ _ _ HS r Hr) as (? & ? & ? & ?).
  destruct (ok_in_namespace _ _ _ HS r Hr) as (n & Hn & E).
  destruct (namespace_row_widths d n Hok Hn) as [Hlen _]. rewrite E in Hlen.
  cbn in Hc. rewrite !andb_true_iff in Hc. destruct_and!. widths. done.
Qed.

Lemma version_row_widths d v :
  db_ok d -> v ∈ rows (db_versions d) ->
  length (sv_payload_nonce v) = 24%nat /\ 16 <= zlen (sv_payload_ciphertext v) <= 16777216
  /\ length (sv_dek_nonce v) = 24%nat /\ length (sv_wrapped_dek v) = 48%nat
  /\ 0 < sv_kek_version v <= u32_max.
Proof.
  intros [HT _ HS _ _] Hv. pose proof (table_ok_check _ _ _ (ok_versions _ HT) Hv) as Hc.
  pose proof (ok_version_width _ _ _ HS v Hv).
  cbn in Hc. rewrite !andb_true_iff in Hc. destruct_and!. widths. done.
Qed.

Ltac i64_u64 := unfold i64_max, u64_max in *; lia.

Lemma parse_secret_Ok d id r sch :
  db_ok d -> r ∈ rows (db_secrets d) ->
  exists rec, parse_secret id r sch = Ok rec
    /\ arr (sr_namespace_id rec) = sec_namespace_id r /\ sr_lifecycle_state rec = sec_lifecycle_state r
    /\ sr_current_version rec = sec_current_version r /\ sr_revision rec = sec_revision r
    /\ sr_schedule rec = sch /\ sr_secret_id rec = id
    /\ sr_deleted_at_unix_ms rec = sec_deleted_at r
    /\ arr (sr_state_commitment rec) = sec_state_commitment r
    /\ arr (sr_name_index rec) = sec_name_index r
    /\ sr_metadata_version rec = sec_metadata_version r
    /\ er_kek_version (sr_metadata rec) = sec_metadata_kek_version r
    /\ er_ciphertext (sr_metadata rec) = sec_metadata_ciphertext r
    /\ arr (er_nonce (sr_metadata rec)) = sec_metadata_nonce r
    /\ arr (er_dek_nonce (sr_metadata rec)) = sec_metadata_dek_nonce r
    /\ arr (er_wrapped_dek (sr_metadata rec)) = sec_metadata_wrapped_dek r.
Proof.
  intros Hok Hr. destruct (secret_row_widths d r Hok Hr) as (W1 & W2 & W3 & W4 & W5 & W6 & W7 & W8 & W9 & W10 & W11 & W12).
  unfold parse_secret. destruct (parse_uuid_len _ W2) as (u & -> & Eu). cbn [result_bind].
  destruct (parse_array_len _ _ W3) as (ni & -> & Eni). cbn [result_bind].
  rewrite !parse_uint_Ok by i64_u64. cbn [result_bind].
  destruct (parse_encrypted_Ok _ (sec_metadata_ciphertext r) _ _ (sec_metadata_kek_version r) W4 ltac:(lia) W6 W7 ltac:(lia))
    as (m & -> & M1 & M2 & M3 & M4 & M5). cbn [result_bind].
  destruct (parse_array_len _ _ W8) as (sc & -> & Esc). cbn [result_bind].
  eexists. split; [reflexivity|]. cbn. by repeat split.
Qed.


(** ** What is written reads back *)

Lemma encrypted_secret_version_at d id k v :
  db_ok d -> v ∈ rows (db_versions d) -> sv_secret_id v = arr id -> sv_version v = k ->
  0 <= k <= i64_max ->
  encrypted_secret_version d id k
  = parse_encrypted (sv_payload_nonce v) (sv_payload_ciphertext v) (sv_dek_nonce v)
      (sv_wrapped_dek v) (sv_kek_version v).
Proof.
  intros Hok Hv E1 E2 Hk. unfold encrypted_secret_version. rewrite sql_i64_Ok by done. cbn [result_bind].
  rewrite (proj2 (find_version_Some d (arr id) k v (ok_tables _ Hok))) by done. done.
Qed.

Lemma current_schedule_at d r v :
  db_ok d -> v ∈ rows (db_versions d) -> sv_secret_id v = sec_secret_id r ->
  sv_version v = sec_current_version r ->
  current_schedule d r = {| expires_at_unix_ms := sv_expires_at v; rotation_due_at_unix_ms := sv_rotation_due_at v |}.
Proof.
  intros Hok Hv E1 E2. unfold current_schedule.
  change (select_one _ _) with (find_version d (sec_secret_id r) (sec_current_version r)).
  by rewrite (proj2 (find_version_Some d _ _ v (ok_tables _ Hok))).
Qed.

(** A version row of the sealed record [p] reads back as [p]. *)
Lemma version_reads_back d id k p sch actor at_ :
  db_ok d -> version_row id k p sch actor at_ ∈ rows (db_versions d) -> er_typed p ->
  0 <= k <= i64_max -> encrypted_secret_version d id k = Ok p.
Proof.
  intros Hok Hv Hp Hk. rewrite (encrypted_secret_version_at d id k (version_row id k p sch actor at_)) by done.
  destruct (version_row_widths d _ Hok Hv) as (_ & Hc & _). by apply parse_encrypted_stored.
Qed.

(** Creating a secret makes it readable at once: its record carries
    the given namespace, name index, metadata, schedule and commitment at
    version and revision 1 in state active, version 1 is the given payload, and
    the lookup by name index finds it. *)
Lemma create_secret_reads_back (s : SecretInsert) (a : AuditRecord) (d d' : Db)
    (Hok : db_ok d) (Hm : er_typed (sn_metadata s)) (Hp : er_typed (sn_payload s))
    (Hrun : create_secret s a d = (Ok tt, d')) :
  let rec := {| sr_secret_id := sn_secret_id s; sr_namespace_id := sn_namespace_id s;
                sr_name_index := sn_name_index s; sr_lifecycle_state := "active";
                sr_current_version := 1; sr_revision := 1; sr_metadata_version := 1;
                sr_metadata := sn_metadata s; sr_schedule := sn_schedule s;
                sr_state_commitment := sn_state_commitment s; sr_deleted_at_unix_ms := None |} in
  secret d' (sn_secret_id s) = Ok rec
  /\ encrypted_secret_version d' (sn_secret_id s) 1 = Ok (sn_payload s)
  /\ secret_by_name_index d' (sn_namespace_id s) (sn_name_index s) = Ok (Some rec).
Proof.
  pose proof (create_secret_preserves s a Hm Hp d tt d' Hrun Hok) as Hok'.
  unfold create_secret in Hrun. txn0.
  match goal with H : insert_version _ _ _ _ _ _ _ = _ |- _ => apply insert_version_Ok in H as (_ & _ & _ & ->) end.
  match goal with H : sql_insert secrets_schema _ _ = Some _ |- _ => apply sql_insert_Some in H as (-> & _) end.
  match goal with H : insert_audit _ _ = _ |- _ => apply insert_audit_Ok in H as (_ & _ & t & _ & ->) end.
  set (d' := set_audit _ _) in *. pose proof (ok_tables _ Hok') as HT'.
  set (v := version_row (sn_secret_id s) 1 (sn_payload s) (sn_schedule s)
              (sn_created_by_principal_id s) (sn_created_at_unix_ms s)) in *.
  assert (secret_row s ∈ rows (db_secrets d')) as Hs by (subst d'; cbn; rewrite elem_of_rows_insert; auto).
  assert (v ∈ rows (db_versions d')) as Hv by (subst d'; cbn; rewrite elem_of_rows_insert; auto).
  destruct (secret_row_widths d' _ Hok' Hs) as (_ & _ & _ & _ & W & _).
  assert (forall id, id = sn_secret_id s -> parse_secret id (secret_row s) (current_schedule d' (secret_row s))
    = Ok {| sr_secret_id := sn_secret_id s; sr_namespace_id := sn_namespace_id s;
            sr_name_index := sn_name_index s; sr_lifecycle_state := "active";
            sr_current_version := 1; sr_revision := 1; sr_metadata_version := 1;
            sr_metadata := sn_metadata s; sr_schedule := sn_schedule s;
            sr_state_commitment := sn_state_commitment s; sr_deleted_at_unix_ms := None |}) as Hparse.
  { intros id ->. rewrite (current_schedule_at d' _ v) by done. unfold parse_secret. cbn [secret_row sec_namespace_id
      sec_name_index sec_current_version sec_revision sec_metadata_version sec_metadata_nonce sec_metadata_ciphertext
      sec_metadata_dek_nonce sec_metadata_wrapped_dek sec_metadata_kek_version sec_state_commitment
      sec_lifecycle_state sec_deleted_at]. cbn in W.
    rewrite parse_uuid_arr, !parse_array_arr. cbn [result_bind]. rewrite !parse_uint_Ok by done. cbn [result_bind].
    rewrite parse_encrypted_stored by (done || lia). cbn. by destruct (sn_schedule s). }
  split; [|split].
  - unfold secret. rewrite (proj2 (find_secret_Some d' _ (secret_row s) HT')) by done. cbn [ok_or result_bind]. auto.
  - by apply (version_reads_back d' _ 1 _ (sn_schedule s) (sn_created_by_principal_id s) (sn_created_at_unix_ms s)).
  - unfold secret_by_name_index. rewrite (select_one_key _ _ (secret_row s)); [|done|cbn; by rewrite !blob_eqb_refl|].
    + cbn [fmap option_fmap option_map]. cbn [secret_row sec_secret_id]. rewrite parse_uuid_arr. cbn [result_bind].
      fold (secret_row s). rewrite Hparse by done. done.
    + intros b Hb E. bprop. destruct E as [E1 E2]. eapply unique_row; [apply ok_secrets; done|done|done|].
      eapply (clash_at _ _ _ 1); cbn; [by rewrite E1, E2|done].
Qed.

(** Appending a version advances version and revision by exactly one,
    stores the payload under the new number, and leaves every older version
    readable as before. *)
Lemma append_version_reads_back (v : SecretVersionInsert) (a : AuditRecord) (d d' : Db) (k : Z)
    (Hok : db_ok d) (Hp : er_typed (vi_payload v)) (Hrun : append_secret_version v a d = (Ok k, d')) :
  k = vi_expected_current_version v + 1
  /\ encrypted_secret_version d' (vi_secret_id v) k = Ok (vi_payload v)
  /\ (exists r r', secret d (vi_secret_id v) = Ok r /\ secret d' (vi_secret_id v) = Ok r'
      /\ sr_current_version r = vi_expected_current_version v /\ sr_revision r = vi_expected_revision v
      /\ sr_lifecycle_state r = "active" /\ sr_current_version r' = k
      /\ sr_revision r' = sr_revision r + 1 /\ sr_schedule r' = vi_schedule v
      /\ sr_state_commitment r' = vi_next_state_commitment v
      /\ sr_secret_id r' = vi_secret_id v /\ sr_lifecycle_state r' = "active"
      /\ sr_namespace_id r' = sr_namespace_id r /\ sr_name_index r' = sr_name_index r
      /\ sr_metadata_version r' = sr_metadata_version r)
  /\ forall id j, in_u64 j -> (id <> vi_secret_id v \/ j <> k) ->
     encrypted_secret_version d' id j = encrypted_secret_version d id j.
Proof.
  pose proof (append_secret_version_preserves v a Hp d k d' Hrun Hok) as Hok'.
  unfold append_secret_version in Hrun. txn0.
  match goal with H : insert_version _ _ _ _ _ _ _ = _ |- _ => apply insert_version_Ok in H as (Hk & _ & _ & ->) end.
  match goal with H : checked_add _ _ _ = Some _ |- _ => apply checked_add_Some in H as [-> ?] end.
  repeat match goal with H : sql_i64 _ = Ok _ |- _ => apply ok_or_Ok, try_from_Some in H as [-> ?] end.
  match goal with H : sql_update secrets_schema _ _ _ = Some _ |- _ => apply sql_update_Some in H as (_ & -> & _) end.
  match goal with H : insert_audit _ _ = _ |- _ => apply insert_audit_Ok in H as (_ & _ & t & _ & ->) end.
  match goal with H : find_secret _ _ = Some ?r |- _ => rename H into Hs; rename r into cur end.
  pose proof (ok_tables _ Hok) as HT. pose proof (ok_tables _ Hok') as HT'.
  apply find_secret_Some in Hs as [Hs Eid]; [|done]. bprop. destruct_and!.
  set (w := version_row _ _ _ _ _ _) in *. set (d' := set_audit _ _) in *.
  set (cur' := set_version_pointer (vi_expected_current_version v + 1) (arr (vi_next_state_commitment v)) (vi_created_at_unix_ms v) cur).
  assert (w ∈ rows (db_versions d')) as Hw by (subst d'; cbn; rewrite elem_of_rows_insert; auto).
  assert (cur' ∈ rows (db_secrets d')) as Hs'.
  { subst d'. cbn. apply elem_of_rows_update. exists cur. split; [done|].
    replace (_ && _) with true; [done|]. symmetry. rewrite !andb_true_iff, !Z.eqb_eq, blob_eqb_true, bool_decide_eq_true. done. }
  split; [done|]. split; [|split].
  - by apply (version_reads_back d' _ _ _ (vi_schedule v) (vi_created_by_principal_id v) (vi_created_at_unix_ms v)).
  - destruct (parse_secret_Ok d (vi_secret_id v) cur (current_schedule d cur) Hok Hs) as (r & Hr & R).
    destruct (parse_secret_Ok d' (vi_secret_id v) cur' (current_schedule d' cur') Hok' Hs') as (r' & Hr' & R').
    exists r, r'. unfold secret. rewrite (proj2 (find_secret_Some d _ cur HT)) by done.
    rewrite (proj2 (find_secret_Some d' _ cur' HT')) by done. cbn [ok_or result_bind].
    rewrite (current_schedule_at d' cur' w) in R' by done. cbn in R'. destruct_and!.
    repeat split; try done; try lia; try congruence.
    + by destruct (vi_schedule v).
    + by apply array_eq.
    + apply array_eq. congruence.
    + apply array_eq. congruence.
  - intros id j Hj Hne. unfold encrypted_secret_version. destruct (sql_i64 j) as [j'|] eqn:Ej; [|done].
    apply ok_or_Ok, try_from_Some in Ej as [-> ?]. cbn [result_bind]. f_equal. f_equal.
    unfold find_version, select_one. subst d'. cbn. rewrite select_insert.
    replace (_ && _) with false; [by rewrite app_nil_r|]. symmetry. apply andb_false_iff. cbn.
    rewrite blob_eqb_false, Z.eqb_neq. destruct Hne as [Hne|Hne]; [left|right; lia].
    intros E%array_eq. congruence.
Qed.

(** ** Preconditions *)

Lemma require_audit_head_run a d : extends d a -> require_audit_head a d = Ok (tt, d).
Proof. intros. by apply require_audit_head_Ok. Qed.

Lemma transact_run_err {S E A} (m : Tx S E A) s e : m s = Err e -> transact m s = (Err e, s).
Proof. unfold transact. by intros ->. Qed.

(** UPDATE with a condition no row satisfies. *)
Lemma tx_update_none {A} (sc : schema A) get set p f d :
  (forall a, a ∈ rows (get d) -> p a = false) -> table_ok sc (get d) ->
  tx_update sc get set p f d = Ok (0, set (update_rows p f (get d)) d).
Proof.
  intros Hp Ht. unfold tx_update. rewrite sql_update_total; [|done|].
  - by rewrite (proj2 (count_0 p (get d)) Hp).
  - intros a Ha E. by rewrite Hp in E.
Qed.

(** Optimistic concurrency: an append, a lifecycle change and a purge
    that expect a revision the secret no longer has are all refused as
    conflicts and change nothing. *)
Theorem stale_revision_conflicts (d : Db) (r : SecretRow) (id : SecretId) (e : Z) (a : AuditRecord)
    (v : SecretVersionInsert) (c : SecretLifecycleChange) (p : SecretPurge)
    (Hok : db_ok d) (Hx : extends d a) (Hr : find_secret d (arr id) = Some r) (Hne : sec_revision r <> e)
    (He : 0 <= e < i64_max)
    (Hv : vi_secret_id v = id) (Hve : vi_expected_revision v = e)
    (Hvc : 0 <= vi_expected_current_version v < i64_max)
    (Hc : lc_secret_id c = id) (Hce : lc_expected_revision c = e)
    (Hp : sp_secret_id p = id) (Hpe : sp_expected_revision p = e) :
  append_secret_version v a d = (Err Conflict, d)
  /\ change_secret_lifecycle c a d = (Err Conflict, d)
  /\ purge_secret p a d = (Err Conflict, d).
Proof.
  pose proof (ok_tables _ Hok) as HT. pose proof Hr as [Hs Eid]%find_secret_Some; [|done].
  assert (forall s, s ∈ rows (db_secrets d) -> sec_secret_id s = arr id -> sec_revision s <> e) as Hall.
  { intros s Hs' E. by replace s with r by (eapply secret_id_unique; [done..|congruence]). }
  split; [|split].
  - apply transact_run_err. unfold tx_bind, tx_lift. unfold checked_add. unfold i64_max, u64_max in *.
    rewrite (proj2 (Z.leb_le _ _)) by lia. cbn [ok_or]. rewrite !sql_i64_Ok by (unfold i64_max; lia).
    rewrite require_audit_head_run by done. unfold tx_read. rewrite Hv, Hr. cbn [ok_or]. unfold tx_reject.
    rewrite Hve, (proj2 (Z.eqb_neq (sec_revision r) e)) by done. cbn [negb]. by rewrite orb_true_r.
  - apply transact_run_err. unfold tx_bind, tx_lift. unfold checked_add, i64_max, u64_max in *. rewrite Hce.
    rewrite sql_i64_Ok by (unfold i64_max; lia). rewrite (proj2 (Z.leb_le _ _)) by lia. cbn [ok_or].
    rewrite sql_i64_Ok by (unfold i64_max; lia). rewrite require_audit_head_run by done.
    rewrite tx_update_none; [done| |by apply ok_secrets].
    intros s Hs'. rewrite Hc. destruct (blob_eqb (sec_secret_id s) (arr id)) eqn:E; [|done].
    apply blob_eqb_true in E. rewrite (proj2 (Z.eqb_neq _ _)) by auto. done.
  - apply transact_run_err. unfold tx_bind, tx_lift. unfold i64_max in *. rewrite Hpe.
    rewrite sql_i64_Ok by (unfold i64_max; lia). rewrite require_audit_head_run by done. unfold tx_read.
    rewrite (proj2 (select_one_None _ _)); [done|].
    intros s Hs'. rewrite Hp. destruct (blob_eqb (sec_secret_id s) (arr id)) eqn:E; [|done].
    apply blob_eqb_true in E. rewrite (proj2 (Z.eqb_neq _ _)) by auto. done.
Qed.

(** A purge succeeds only on a deleted secret at the exact revision
    whose deletion is no later than the cutoff; it then removes that secret with
    all of its versions, leaves a tombstone with its last version, and keeps
    every other secret, version and tombstone. *)
Theorem purge_secret_exact (p : SecretPurge) (a : AuditRecord) (d d' : Db)
    (Hok : db_ok d) (Hrun : purge_secret p a d = (Ok tt, d')) :
  let id := arr (sp_secret_id p) in
  (exists s t, find_secret d id = Some s /\ sec_lifecycle_state s = "deleted"
    /\ sec_revision s = sp_expected_revision p /\ sec_deleted_at s = Some t
    /\ t <= sp_retention_cutoff_unix_ms p
    /\ rows (db_tombstones d') = rows (db_tombstones d) ++
       [{| tomb_secret_id := id; tomb_namespace_id := sec_namespace_id s;
           tomb_name_index := sec_name_index s; tomb_last_version := sec_current_version s;
           tomb_purged_at := sp_purged_at_unix_ms p;
           tomb_retention_cutoff := sp_retention_cutoff_unix_ms p |}])
  /\ (forall s, s ∈ rows (db_secrets d') <-> s ∈ rows (db_secrets d) /\ sec_secret_id s <> id)
  /\ (forall v, v ∈ rows (db_versions d') <-> v ∈ rows (db_versions d) /\ sv_secret_id v <> id)
  /\ db_purge_enabled d' = false /\ db_namespaces d' = db_namespaces d.
Proof.
  pose proof (ok_tables _ Hok) as HT. unfold purge_secret in Hrun. txn_purge.
  match goal with H : sql_insert tombstones_schema _ _ = Some _ |- _ => apply sql_insert_Some in H as (-> & _) end.
  match goal with H : select_one _ _ = Some ?r |- _ => rename H into Hs; rename r into s end.
  match goal with H : sec_deleted_at s = Some ?t |- _ => rename H into Ht; rename t into t0 end.
  match goal with H : sql_i64 _ = Ok _ |- _ => apply ok_or_Ok, try_from_Some in H as [-> ?] end.
  apply select_one_Some in Hs as [Hs E]. bprop. destruct_and!. cbn zeta. split; [|split; [|split]].
  - exists s, t0. split; [by apply find_secret_Some|]. cbn. rewrite rows_insert. by repeat split.
  - intros x. cbn. by rewrite elem_of_rows_delete, blob_eqb_false.
  - intros x. cbn. by rewrite elem_of_rows_delete, blob_eqb_false.
  - done.
Qed.

(** The storage contract promises a conflict when the new parent
    already holds the name; what the statement gives is a database error: the
    UPDATE of [move_namespace] has no OR IGNORE, so the UNIQUE index aborts it. *)
Theorem move_onto_taken_name_is_database_error (d : Db) (n m : NamespaceRow) (id parent : NamespaceId)
    (index commitment : array 32) (at_ : Z) (a : AuditRecord)
    (Hok : db_ok d) (Hx : extends d a) (Hn : find_namespace d (arr id) = Some n)
    (Hact : ns_lifecycle_state n = "active") (Hrev : ns_revision n < i64_max)
    (Hm : m ∈ rows (db_namespaces d)) (Hne : ns_namespace_id m <> arr id)
    (Hpar : ns_parent_namespace_id m = Some (arr parent)) (Hidx : ns_name_index m = arr index) :
  move_namespace id (ns_revision n) (Some parent) index commitment at_ a d = (Err Sqlite, d).
Proof.
  pose proof (ok_tables _ Hok) as HT. pose proof Hn as [Hin Eid]%find_namespace_Some; [|done].
  destruct (namespace_row_widths d n Hok Hin) as (_ & _ & _ & _ & _ & _ & _ & [Hr0 _] & _).
  apply transact_run_err. unfold tx_bind, tx_lift, checked_add, i64_max, u64_max in *.
  rewrite (proj2 (Z.leb_le _ _)) by lia. cbn [ok_or]. rewrite require_audit_head_run by done.
  rewrite !sql_i64_Ok by (unfold i64_max; lia). unfold tx_update.
  match goal with |- match (match sql_update ?sc ?q ?g ?t with _ => _ end) with _ => _ end = _ =>
    destruct (sql_update sc q g t) as [[k t']|] eqn:Eu; [|done]; exfalso;
    pose proof (sql_update_ok _ _ _ _ _ _ Eu (ok_namespaces _ HT)) as Hok' ;
    apply sql_update_Some in Eu as (_ & -> & _);
    assert (g n ∈ rows (update_rows q g t)) as Hg; [|assert (m ∈ rows (update_rows q g t)) as Hm'] end.
  - apply elem_of_rows_update. exists n. split; [done|].
    by rewrite Eid, blob_eqb_refl, Z.eqb_refl, bool_decide_true.
  - apply elem_of_rows_update. exists m. split; [done|].
    by rewrite (proj2 (blob_eqb_false _ _) Hne).
  - pose proof (unique_row _ _ _ _ Hok' Hm' Hg) as E. rewrite E in Hne; [cbn in Hne; congruence|].
    eapply (clash_at _ _ _ 1); cbn; [by rewrite Hpar, Hidx|done].
Qed.
