(* ===== verification/Metadata.v ===== *)
(** The encrypted metadata document of src/crates/smcv-app/src/vault_core.rs:
    its validation and its binary codec. *)
From Stdlib Require Import ZArith Lia Strings.Byte String.
From stdpp Require Import base tactics numbers option strings list.
From S2P Require Import Prelude RustStd Core Crypto Schema.

(** [VaultError] *)
Inductive VaultError : Type := InvalidInput | NotFound | VConflict | Integrity | Unavailable.

(** [map_crypto] *)
Definition map_crypto (e : CryptoError) : VaultError :=
  match e with
  | CIntegrity => Integrity
  | CInvalidProtectedInput | CInvalidCredential => InvalidInput
  | CRandomness | CKeyProvider => Unavailable
  end.

(** [map_storage] *)
Definition map_storage (e : StorageError) : VaultError :=
  match e with
  | Conflict | StateConflict => VConflict
  | NotInitialized => NotFound
  | InvalidData => Integrity
  | Sqlite | Poisoned | DestinationExists | UnsafePath | MigrationMismatch => Unavailable
  end.

Definition METADATA_MAGIC : blob := bstr "SMCVMD02".
Definition MAX_NAME_BYTES : Z := 256.
Definition MAX_DESCRIPTION_BYTES : Z := 4096.
Definition MAX_USERNAME_BYTES : Z := 256.
Definition MAX_TAG_BYTES : Z := 64.
Definition MAX_TAGS : Z := 32.
Definition MAX_SECRET_BYTES : Z := 16 * 1024 * 1024.

(** [MetadataInput] and [DecryptedMetadata]: the same fields. *)
Record Metadata : Type := {
  md_name : rstring;
  md_description : option rstring;
  md_username : option rstring;
  md_tags : list rstring }.

(** [validate_metadata] *)
Definition validate_metadata (m : Metadata) : result VaultError unit :=
  if (rs_len (md_name m) =? 0) || (MAX_NAME_BYTES <? rs_len (md_name m)) || has_control (md_name m)
     || is_some_and (md_description m) (fun d => MAX_DESCRIPTION_BYTES <? rs_len d)
     || is_some_and (md_username m) (fun u => (MAX_USERNAME_BYTES <? rs_len u) || has_control u)
     || (MAX_TAGS <? zlen (md_tags m))
     || existsb (fun t => (rs_len t =? 0) || (MAX_TAG_BYTES <? rs_len t) || has_control t) (md_tags m)
  then Err InvalidInput else Ok tt.

(** [validate_secret] *)
Definition validate_secret (value : blob) : result VaultError unit :=
  if (zlen value =? 0) || (MAX_SECRET_BYTES <? zlen value) then Err InvalidInput else Ok tt.

Definition opt_bytes (o : option rstring) : blob := from_option rs_bytes [] o.
Definition tag_record (t : rstring) : blob := u16_be (rs_len t) ++ rs_bytes t.

(** [uN::try_from(len).map_err(|_| InvalidInput)] *)
Definition length_field (max len : Z) : result VaultError Z := ok_or InvalidInput (try_from max len).

(** [encode_metadata]; the capacity is computed with checked additions. *)
Definition encode_metadata (m : Metadata) (kind : Z) : result VaultError blob :=
  let? name_length := length_field u16_max (rs_len (md_name m)) in
  let? description_length :=
    match md_description m with Some d => length_field u32_max (rs_len d) | None => Ok u32_max end in
  let? username_length :=
    match md_username m with Some u => length_field u16_max (rs_len u) | None => Ok u16_max end in
  let? tag_count := length_field 255 (zlen (md_tags m)) in
  let tag_bytes := foldr (fun t n => 2 + rs_len t + n) 0 (md_tags m) in
  if u64_max <? 18 + rs_len (md_name m) + zlen (opt_bytes (md_description m))
                + zlen (opt_bytes (md_username m)) + tag_bytes then Err InvalidInput
  else
    let? _ := result_mapM (fun t => length_field u16_max (rs_len t)) (md_tags m) in
    Ok (METADATA_MAGIC ++ u8_be kind ++ u16_be name_length ++ u32_be description_length
        ++ u16_be username_length ++ u8_be tag_count ++ rs_bytes (md_name m)
        ++ opt_bytes (md_description m) ++ opt_bytes (md_username m)
        ++ concat (tag_record <$> md_tags m)).

(** [read_metadata_string]: the text and the cursor after it. *)
Definition read_metadata_string (bytes : blob) (cursor : nat) (length maximum : Z)
    (require_nonempty : bool) : result VaultError (rstring * nat) :=
  if (maximum <? length) || (require_nonempty && (length =? 0)) then Err Integrity
  else
    let? value := ok_or Integrity (slice bytes cursor (Z.to_nat length)) in
    let? s := ok_or Integrity (protected_from_utf8 value) in
    Ok (s, (cursor + Z.to_nat length)%nat).

Definition read_optional (bytes : blob) (cursor : nat) (length : option Z) (maximum : Z)
  : result VaultError (option rstring * nat) :=
  match length with
  | None => Ok (None, cursor)
  | Some n => let? (s, cursor) := read_metadata_string bytes cursor n maximum false in
              Ok (Some s, cursor)
  end.

(** The loop over the tags. *)
Fixpoint read_tags (bytes : blob) (cursor : nat) (count : nat) : result VaultError (list rstring * nat) :=
  match count with
  | O => Ok ([], cursor)
  | S count' =>
      let? length_bytes := ok_or Integrity (slice bytes cursor 2) in
      let? (t, cursor) := read_metadata_string bytes (cursor + 2) (be_decode length_bytes) MAX_TAG_BYTES true in
      let? (ts, cursor) := read_tags bytes cursor count' in
      Ok (t :: ts, cursor)
  end.

(** [decode_metadata] *)
Definition decode_metadata (bytes : blob) (expected_kind : Z) : result VaultError Metadata :=
  if (zlen bytes <? 18) || negb (blob_eqb (take 8 bytes) METADATA_MAGIC)
     || negb (byte_at bytes 8 =? expected_kind) then Err Integrity
  else
    let name_length := be_decode (take 2 (drop 9 bytes)) in
    let description_raw := be_decode (take 4 (drop 11 bytes)) in
    let description_length := if description_raw =? u32_max then None else Some description_raw in
    let username_raw := be_decode (take 2 (drop 15 bytes)) in
    let username_length := if username_raw =? u16_max then None else Some username_raw in
    let tag_count := byte_at bytes 17 in
    if is_some_and description_length (fun n => MAX_DESCRIPTION_BYTES <? n)
       || is_some_and username_length (fun n => MAX_USERNAME_BYTES <? n)
       || (MAX_TAGS <? tag_count) then Err Integrity
    else
      let? (name, cursor) := read_metadata_string bytes 18 name_length MAX_NAME_BYTES true in
      let? (description, cursor) := read_optional bytes cursor description_length MAX_DESCRIPTION_BYTES in
      let? (username, cursor) := read_optional bytes cursor username_length MAX_USERNAME_BYTES in
      let? (tags, cursor) := read_tags bytes cursor (Z.to_nat tag_count) in
      if negb (Nat.eqb cursor (length bytes)) || has_control name
         || is_some_and username has_control || existsb has_control tags
      then Err Integrity
      else Ok {| md_name := name; md_description := description; md_username := username; md_tags := tags |}.

(** * Lemmas *)

(** What a read consumed, as the text between two cursors. *)
Lemma take_slice (l : blob) cur n v :
  slice l cur n = Some v -> take (cur + n) l = take cur l ++ v /\ length v = n /\ (cur + n <= length l)%nat.
Proof.
  unfold slice. case_match eqn:E; [|done]. intros [= <-]. apply Nat.leb_le in E.
  split; [|split; [|done]].
  - by rewrite take_take_drop.
  - rewrite length_take, length_drop. lia.
Qed.

Lemma slice_app (pre v post : blob) : slice (pre ++ v ++ post) (length pre) (length v) = Some v.
Proof.
  unfold slice. rewrite !length_app, (proj2 (Nat.leb_le _ _)) by lia.
  by rewrite drop_app_length, take_app_length.
Qed.

Lemma read_string_Ok bytes cur n max ne s cur' :
  0 <= n -> read_metadata_string bytes cur n max ne = Ok (s, cur') ->
  rs_len s = n /\ n <= max /\ (ne = true -> n <> 0)
  /\ take cur' bytes = take cur bytes ++ rs_bytes s.
Proof.
  unfold read_metadata_string. intros Hn. case_match eqn:E; [done|].
  rewrite orb_false_iff, Z.ltb_ge in E. destruct E as [Emax Ene]. intros H. minv.
  match goal with H : slice _ _ _ = Some _ |- _ => apply take_slice in H as (Ht & Hl & _) end.
  match goal with H : protected_from_utf8 _ = Some _ |- _ => apply string_from_utf8_Some in H; subst end.
  split; [|split; [done|split; [|done]]].
  - unfold rs_len, zlen. rewrite Hl. lia.
  - intros ->. simpl in Ene. by apply Z.eqb_neq in Ene.
Qed.

Lemma read_string_app pre s post max ne :
  rs_len s <= max -> (ne = true -> rs_len s <> 0) ->
  read_metadata_string (pre ++ rs_bytes s ++ post) (length pre) (rs_len s) max ne
  = Ok (s, length (pre ++ rs_bytes s)).
Proof.
  intros Hm Hne. unfold read_metadata_string. rewrite (proj2 (Z.ltb_ge _ _)) by lia.
  replace (ne && (rs_len s =? 0)) with false.
  2:{ symmetry. destruct ne; [|done]. simpl. apply Z.eqb_neq. auto. }
  cbn [orb]. unfold rs_len, zlen. rewrite Nat2Z.id, slice_app. cbn [ok_or result_bind].
  unfold protected_from_utf8. rewrite (proj2 (string_from_utf8_Some _ s)) by done.
  cbn [ok_or result_bind]. by rewrite length_app.
Qed.

Lemma read_tags_Ok bytes cur n ts cur' :
  read_tags bytes cur n = Ok (ts, cur') ->
  length ts = n /\ Forall (fun t => 0 < rs_len t <= MAX_TAG_BYTES) ts
  /\ take cur' bytes = take cur bytes ++ concat (tag_record <$> ts).
Proof.
  revert cur ts. induction n as [|n IH]; intros cur ts H; simpl in H; minv.
  { injection H as <- <-. change (concat (tag_record <$> [])) with (@nil byte). by rewrite app_nil_r. }
  destruct x0 as [t c]. match goal with H : result_bind (read_tags _ _ _) _ = _ |- _ =>
    apply result_bind_Ok in H as ([ts0 c0] & Hrt & [= <- <-]) end.
  match goal with H : slice _ _ _ = Some _ |- _ => apply take_slice in H as (Ht & Hl & _) end.
  pose proof (be_decode_range x) as Hr.
  match goal with H : read_metadata_string _ _ _ _ _ = _ |- _ =>
    apply read_string_Ok in H as (Hlen & Hmax & Hne & Hcur); [|lia] end.
  apply IH in Hrt as (Hn & HF & Hts).
  split; [simpl; congruence|]. split.
  - constructor; [|done]. specialize (Hne eq_refl). lia.
  - rewrite Hts, Hcur, Ht, fmap_cons. cbn [concat]. unfold tag_record at 2, u16_be.
    rewrite Hlen. replace 2%nat with (length x) by done. rewrite be_encode_decode. by rewrite <- !app_assoc.
Qed.

Lemma read_tags_app pre ts post :
  Forall (fun t => 0 < rs_len t <= MAX_TAG_BYTES) ts ->
  read_tags (pre ++ concat (tag_record <$> ts) ++ post) (length pre) (length ts)
  = Ok (ts, length (pre ++ concat (tag_record <$> ts))).
Proof.
  intros HF. revert pre. induction HF as [|t ts Ht HF IH]; intros pre.
  { change (concat (tag_record <$> [])) with (@nil byte). by rewrite app_nil_r. }
  rewrite fmap_cons. cbn [concat length read_tags].
  set (tail := concat (tag_record <$> ts)) in *. change (tag_record t) with (u16_be (rs_len t) ++ rs_bytes t).
  set (h := u16_be (rs_len t)). assert (length h = 2%nat) as Hh by apply length_u16_be.
  assert (be_decode h = rs_len t) as Hd.
  { apply be_decode_encode. change (256 ^ Z.of_nat 2) with 65536. unfold MAX_TAG_BYTES in Ht. lia. }
  rewrite <- !app_assoc.
  pose proof (slice_app pre h (rs_bytes t ++ tail ++ post)) as Hs. rewrite Hh in Hs. rewrite Hs. cbn [ok_or result_bind].
  rewrite Hd, app_assoc. replace (length pre + 2)%nat with (length (pre ++ h)) by (rewrite length_app; lia).
  rewrite read_string_app by (intros; lia). cbn [result_bind].
  rewrite (app_assoc (pre ++ h)), IH. cbn [result_bind]. by rewrite <- !app_assoc.
Qed.

(** A validated document. *)
Record metadata_ok (m : Metadata) : Prop := {
  ok_name_len : 0 < rs_len (md_name m) <= MAX_NAME_BYTES;
  ok_name_ctl : has_control (md_name m) = false;
  ok_description d : md_description m = Some d -> rs_len d <= MAX_DESCRIPTION_BYTES;
  ok_username u : md_username m = Some u -> rs_len u <= MAX_USERNAME_BYTES /\ has_control u = false;
  ok_tag_count : zlen (md_tags m) <= MAX_TAGS;
  ok_tags : Forall (fun t => 0 < rs_len t <= MAX_TAG_BYTES /\ has_control t = false) (md_tags m) }.

Lemma existsb_false {A} (p : A -> bool) l : existsb p l = false <-> Forall (fun a => p a = false) l.
Proof.
  induction l as [|a l IH]; simpl; [by split|]. by rewrite orb_false_iff, IH, Forall_cons.
Qed.

Lemma rs_len_nonneg s : 0 <= rs_len s.
Proof. apply zlen_nonneg. Qed.

Lemma validate_metadata_ok m : validate_metadata m = Ok tt <-> metadata_ok m.
Proof.
  unfold validate_metadata. pose proof (rs_len_nonneg (md_name m)). split.
  - case_match eqn:E; [done|]. intros _. rewrite !orb_false_iff, existsb_false in E.
    destruct E as [[[[[[E1 E2] E3] E4] E5] E6] E7]. bprop. split; [lia|done| | |lia|].
    + intros d Hd. rewrite Hd in E4. simpl in E4. by apply Z.ltb_ge in E4.
    + intros u Hu. rewrite Hu in E5. simpl in E5. apply orb_false_iff in E5 as [E5%Z.ltb_ge ?]. done.
    + eapply Forall_impl; [exact E7|]. intros t Ht. simpl in Ht. bprop. pose proof (rs_len_nonneg t). destruct_and!. split; [lia|done].
  - intros [H1 H2 H3 H4 H5 H6]. replace (_ || _) with false; [done|]. symmetry.
    rewrite !orb_false_iff, existsb_false. split_and!; try done.
    + apply Z.eqb_neq. lia.
    + apply Z.ltb_ge. lia.
    + destruct (md_description m); [|done]. simpl. apply Z.ltb_ge. auto.
    + destruct (md_username m); [|done]. simpl. destruct (H4 _ eq_refl) as [? ->]. rewrite orb_false_r. by apply Z.ltb_ge.
    + by apply Z.ltb_ge.
    + eapply Forall_impl; [exact H6|]. intros t [? ->]. rewrite orb_false_r. apply orb_false_iff.
      rewrite Z.eqb_neq, Z.ltb_ge. lia.
Qed.

(** The bytes of a validated document. *)
Definition metadata_header (m : Metadata) (kind : Z) : blob :=
  METADATA_MAGIC ++ u8_be kind ++ u16_be (rs_len (md_name m))
  ++ u32_be (from_option rs_len u32_max (md_description m))
  ++ u16_be (from_option rs_len u16_max (md_username m)) ++ u8_be (zlen (md_tags m)).
Definition metadata_body (m : Metadata) : blob :=
  rs_bytes (md_name m) ++ opt_bytes (md_description m) ++ opt_bytes (md_username m)
  ++ concat (tag_record <$> md_tags m).

Lemma length_field_Ok max n : 0 <= n <= max -> length_field max n = Ok n.
Proof. intros. unfold length_field. by rewrite (proj2 (try_from_Some max n n)). Qed.

Lemma tag_bytes_bound ts :
  Forall (fun t => 0 < rs_len t <= MAX_TAG_BYTES) ts ->
  foldr (fun t n => 2 + rs_len t + n) 0 ts <= 66 * zlen ts.
Proof.
  unfold MAX_TAG_BYTES, zlen. induction 1 as [|t ts Ht HF IH]; cbn [foldr length]; [lia|].
  rewrite Nat2Z.inj_succ. lia.
Qed.

Lemma zlen_rs s : zlen (rs_bytes s) = rs_len s.
Proof. done. Qed.

Lemma encode_metadata_ok m kind :
  metadata_ok m -> encode_metadata m kind = Ok (metadata_header m kind ++ metadata_body m).
Proof.
  intros [H1 H2 H3 H4 H5 H6]. unfold MAX_NAME_BYTES, MAX_DESCRIPTION_BYTES, MAX_USERNAME_BYTES, MAX_TAGS in *.
  assert (Forall (fun t => 0 < rs_len t <= MAX_TAG_BYTES) (md_tags m)) as Ht
    by (eapply Forall_impl; [exact H6|]; naive_solver).
  pose proof (tag_bytes_bound _ Ht) as Hb. pose proof (zlen_nonneg (md_tags m)).
  unfold encode_metadata. rewrite (length_field_Ok u16_max (rs_len _)) by (unfold u16_max; lia). cbn [result_bind].
  assert (zlen (opt_bytes (md_description m)) <= 4096 /\
    match md_description m with Some d => length_field u32_max (rs_len d) | None => Ok u32_max end
    = Ok (from_option rs_len u32_max (md_description m))) as [Hd ->].
  { destruct (md_description m) as [t|]; cbn; [|done]. specialize (H3 _ eq_refl).
    pose proof (rs_len_nonneg t). rewrite zlen_rs. split; [done|]. apply length_field_Ok. unfold u32_max. lia. }
  cbn [result_bind].
  assert (zlen (opt_bytes (md_username m)) <= 256 /\
    match md_username m with Some d => length_field u16_max (rs_len d) | None => Ok u16_max end
    = Ok (from_option rs_len u16_max (md_username m))) as [Hu ->].
  { destruct (md_username m) as [t|]; cbn; [|done]. destruct (H4 _ eq_refl) as [? _].
    pose proof (rs_len_nonneg t). rewrite zlen_rs. split; [done|]. apply length_field_Ok. unfold u16_max. lia. }
  cbn [result_bind]. rewrite length_field_Ok by lia. cbn [result_bind].
  rewrite (proj2 (Z.ltb_ge _ _)) by (unfold u64_max; lia).
  assert (exists l, result_mapM (fun t => length_field u16_max (rs_len t)) (md_tags m) = Ok l) as [l ->].
  { exists (rs_len <$> md_tags m). apply result_mapM_Forall2, Forall2_fmap_r, Forall_Forall2_diag.
    eapply Forall_impl; [exact Ht|]. intros t ?. simpl in *. apply length_field_Ok.
    unfold MAX_TAG_BYTES, u16_max in *. lia. }
  cbn [result_bind]. unfold metadata_header, metadata_body. by rewrite <- !app_assoc.
Qed.

(** The eighteen header bytes, field by field. *)
Lemma header_fields (a b c d e f rest : blob) :
  length a = 8%nat -> length b = 1%nat -> length c = 2%nat -> length d = 4%nat -> length e = 2%nat ->
  length f = 1%nat ->
  let l := (a ++ b ++ c ++ d ++ e ++ f) ++ rest in
  take 8 l = a /\ byte_at l 8 = be_decode b /\ take 2 (drop 9 l) = c /\ take 4 (drop 11 l) = d
  /\ take 2 (drop 15 l) = e /\ byte_at l 17 = be_decode f.
Proof.
  intros Ha Hb Hc Hd He Hf.
  destruct b as [|b0 [|]]; try done. destruct f as [|f0 [|]]; try done.
  do 9 (destruct a as [|? a]; try done). do 3 (destruct c as [|? c]; try done).
  do 5 (destruct d as [|? d]; try done). do 3 (destruct e as [|? e]; try done).
Qed.

Lemma header_eta (l : blob) :
  18 <= zlen l ->
  take 18 l = take 8 l ++ u8_be (byte_at l 8) ++ take 2 (drop 9 l) ++ take 4 (drop 11 l)
              ++ take 2 (drop 15 l) ++ u8_be (byte_at l 17).
Proof.
  unfold zlen. intros H.
  do 18 (destruct l as [|? l]; [simpl in H; lia|]). unfold byte_at, u8_be, be_encode. cbn -[Z_of_byte].
  rewrite !Z.shiftr_0_r, !byte_of_Z_of_byte. done.
Qed.

Lemma metadata_header_length m kind : length (metadata_header m kind) = 18%nat.
Proof. unfold metadata_header. by autorewrite with smcv_len. Qed.

Lemma read_optional_Ok bytes cur n max o cur' :
  (forall k, n = Some k -> 0 <= k) -> read_optional bytes cur n max = Ok (o, cur') ->
  (rs_len <$> o) = n /\ (forall s, o = Some s -> rs_len s <= max)
  /\ take cur' bytes = take cur bytes ++ opt_bytes o.
Proof.
  intros Hn H. destruct n as [k|]; simpl in H.
  - apply result_bind_Ok in H as ([s c] & H & [= <- <-]). apply read_string_Ok in H as (? & ? & _ & ?); [|auto].
    simpl. split; [congruence|]. split; [|done]. intros ? [= <-]. lia.
  - injection H as <- <-. simpl. by rewrite app_nil_r.
Qed.

Lemma read_optional_app pre o post max :
  (forall s, o = Some s -> rs_len s <= max) ->
  read_optional (pre ++ opt_bytes o ++ post) (length pre) (rs_len <$> o) max
  = Ok (o, length (pre ++ opt_bytes o)).
Proof.
  intros Hm. destruct o as [s|]; simpl.
  - rewrite read_string_app; [done|auto|done].
  - by rewrite app_nil_r.
Qed.

Lemma be_encode_decode_len n l : length l = n -> be_encode n (be_decode l) = l.
Proof. intros <-. apply be_encode_decode. Qed.

Lemma decode_sound b kind m :
  decode_metadata b kind = Ok m -> metadata_ok m /\ b = metadata_header m kind ++ metadata_body m.
Proof.
  unfold decode_metadata. case_match eqn:E1; [done|]. rewrite !orb_false_iff, !negb_false_iff in E1.
  destruct E1 as [[Hlen Hmagic] Hkind]. bprop. apply bool_decide_eq_true in Hmagic. cbv zeta.
  case_match eqn:E2; [done|]. rewrite !orb_false_iff in E2. destruct E2 as [[Hdl Hul] Htc]. bprop.
  intros H. apply result_bind_Ok in H as ([name c1] & Hname & H).
  apply result_bind_Ok in H as ([desc c2] & Hdesc & H).
  apply result_bind_Ok in H as ([user c3] & Huser & H).
  apply result_bind_Ok in H as ([tags c4] & Htags & H).
  case_match eqn:E3; [done|]. injection H as <-. rewrite !orb_false_iff, !negb_false_iff in E3.
  destruct E3 as [[[Hc Hn] Hu] Ht]. apply Nat.eqb_eq in Hc. rewrite existsb_false in Ht.
  pose proof (be_decode_range (take 2 (drop 9 b))). pose proof (be_decode_range (take 4 (drop 11 b))).
  pose proof (be_decode_range (take 2 (drop 15 b))).
  apply read_string_Ok in Hname as (Nl & Nm & Nn & Nt); [|lia].
  apply read_optional_Ok in Hdesc as (Dl & Dm & Dt); [|intros k; destruct (be_decode (take 4 (drop 11 b)) =? u32_max); [done|]; intros [= <-]; lia].
  apply read_optional_Ok in Huser as (Ul & Um & Ut); [|intros k; destruct (be_decode (take 2 (drop 15 b)) =? u16_max); [done|]; intros [= <-]; lia].
  apply read_tags_Ok in Htags as (Tl & TF & Tt).
  assert (0 <= byte_at b 17) as Hb17.
  { unfold byte_at. destruct (b !! 17%nat); simpl; [apply Z_of_byte_range|done]. }
  specialize (Nn eq_refl). split.
  - split; cbn; [lia|done|auto| |unfold zlen; lia|].
    + intros u ->. simpl in Hu. auto.
    + rewrite Forall_forall in TF, Ht |- *. auto.
  - rewrite <- (take_ge b c4) at 1 by lia. rewrite Tt, Ut, Dt, Nt. unfold metadata_header, metadata_body. cbn.
    rewrite (header_eta b) by lia. rewrite Hmagic, <- Hkind, !Nl.
    assert (length b >= 18)%nat by (unfold zlen in Hlen; lia).
    assert (forall k n, (k + n <= length b)%nat -> length (take n (drop k b)) = n) as Hsub
      by (intros; rewrite length_take, length_drop; lia).
    replace (u32_be (from_option rs_len u32_max desc)) with (take 4 (drop 11 b)).
    2:{ replace (from_option rs_len u32_max desc) with (be_decode (take 4 (drop 11 b))).
        - unfold u32_be. rewrite be_encode_decode_len; [done|]. apply Hsub. lia.
        - clear -Dl. destruct (be_decode (take 4 (drop 11 b)) =? u32_max) eqn:Eb; destruct desc; simplify_eq/=; [lia|done]. }
    replace (u16_be (from_option rs_len u16_max user)) with (take 2 (drop 15 b)).
    2:{ replace (from_option rs_len u16_max user) with (be_decode (take 2 (drop 15 b))).
        - unfold u16_be. rewrite be_encode_decode_len; [done|]. apply Hsub. lia.
        - clear -Ul. destruct (be_decode (take 2 (drop 15 b)) =? u16_max) eqn:Eb; destruct user; simplify_eq/=; [lia|done]. }
    replace (u16_be (be_decode (take 2 (drop 9 b)))) with (take 2 (drop 9 b)).
    2:{ unfold u16_be. rewrite be_encode_decode_len; [done|]. apply Hsub. lia. }
    replace (zlen tags) with (byte_at b 17) by (unfold zlen; lia). by rewrite <- !app_assoc.
Qed.

Lemma be_decode_u8 z : 0 <= z < 256 -> be_decode (u8_be z) = z.
Proof. intros. by apply be_decode_encode. Qed.
Lemma be_decode_u16 z : 0 <= z <= u16_max -> be_decode (u16_be z) = z.
Proof. intros. apply be_decode_encode. change (256 ^ Z.of_nat 2) with 65536. unfold u16_max in *. lia. Qed.
Lemma be_decode_u32 z : 0 <= z <= u32_max -> be_decode (u32_be z) = z.
Proof. intros. apply be_decode_encode. change (256 ^ Z.of_nat 4) with 4294967296. unfold u32_max in *. lia. Qed.

(** An optional field is absent exactly when its length field is all ones. *)
Lemma optional_length (o : option rstring) max full :
  (forall s, o = Some s -> rs_len s <= max) -> max < full ->
  (if from_option rs_len full o =? full then None else Some (from_option rs_len full o)) = rs_len <$> o.
Proof.
  intros Ho Hf. destruct o as [s|]; simpl.
  - specialize (Ho _ eq_refl). rewrite (proj2 (Z.eqb_neq _ _)); [done|lia].
  - by rewrite Z.eqb_refl.
Qed.

Lemma optional_in_bound (o : option rstring) max :
  (forall s, o = Some s -> rs_len s <= max) -> is_some_and (rs_len <$> o) (fun n => max <? n) = false.
Proof. intros Ho. destruct o as [s|]; [|done]. simpl. apply Z.ltb_ge. auto. Qed.

Lemma from_option_range (o : option rstring) max full :
  (forall s, o = Some s -> rs_len s <= max) -> max <= full -> 0 <= full ->
  0 <= from_option rs_len full o <= full.
Proof.
  intros Ho ??. destruct o as [s|]; simpl; [|lia].
  specialize (Ho _ eq_refl). pose proof (rs_len_nonneg s). lia.
Qed.

Lemma decode_header m kind rest :
  metadata_ok m -> 0 <= kind < 256 ->
  let b := metadata_header m kind ++ rest in
  take 8 b = METADATA_MAGIC /\ byte_at b 8 = kind
  /\ be_decode (take 2 (drop 9 b)) = rs_len (md_name m)
  /\ be_decode (take 4 (drop 11 b)) = from_option rs_len u32_max (md_description m)
  /\ be_decode (take 2 (drop 15 b)) = from_option rs_len u16_max (md_username m)
  /\ byte_at b 17 = zlen (md_tags m).
Proof.
  intros [H1 H2 H3 H4 H5 H6] Hk b. pose proof (zlen_nonneg (md_tags m)).
  unfold MAX_NAME_BYTES, MAX_TAGS in *. subst b. unfold metadata_header.
  edestruct (header_fields METADATA_MAGIC (u8_be kind) (u16_be (rs_len (md_name m))) (u32_be (from_option rs_len u32_max (md_description m)))
    (u16_be (from_option rs_len u16_max (md_username m))) (u8_be (zlen (md_tags m))) rest)
    as (-> & -> & -> & -> & -> & ->); try done.
  rewrite !be_decode_u8, !be_decode_u16, be_decode_u32; try lia; try done.
  - eapply from_option_range; [exact H3|done..].
  - apply from_option_range with MAX_USERNAME_BYTES; [|done..]. intros s ?. by apply H4.
  - unfold u16_max. lia.
Qed.

Lemma decode_complete m kind :
  metadata_ok m -> 0 <= kind < 256 ->
  decode_metadata (metadata_header m kind ++ metadata_body m) kind = Ok m.
Proof.
  intros Hm Hk. pose proof (decode_header m kind (metadata_body m) Hm Hk) as Hh.
  destruct Hm as [H1 H2 H3 H4 H5 H6].
  assert (forall u, md_username m = Some u -> rs_len u <= MAX_USERNAME_BYTES) as H4' by (intros; by apply H4).
  pose proof (metadata_header_length m kind) as Hlen. pose proof (zlen_nonneg (md_tags m)).
  unfold decode_metadata. set (h := metadata_header m kind) in *. cbv zeta in Hh |- *.
  destruct Hh as (-> & -> & -> & -> & -> & ->).
  rewrite (optional_length _ MAX_DESCRIPTION_BYTES), (optional_length _ MAX_USERNAME_BYTES) by done.
  rewrite !optional_in_bound, Z.eqb_refl, !(proj2 (Z.ltb_ge _ _)) by (try done; unfold zlen; rewrite ?length_app; lia).
  replace (blob_eqb METADATA_MAGIC METADATA_MAGIC) with true by done. cbn [negb orb].
  unfold metadata_body. rewrite <- Hlen. unfold zlen. rewrite Nat2Z.id.
  rewrite read_string_app by (unfold MAX_NAME_BYTES in *; try done; lia). cbn [result_bind].
  rewrite (app_assoc h), read_optional_app by done. cbn [result_bind].
  rewrite (app_assoc (h ++ _)), read_optional_app by done. cbn [result_bind].
  rewrite (app_assoc ((h ++ _) ++ _)), <- (app_nil_r (concat _)), read_tags_app. 2:{ eapply Forall_impl; [exact H6|]; naive_solver. }
  cbn [result_bind]. rewrite app_nil_r, Nat.eqb_refl, H2.
  replace (is_some_and (md_username m) has_control) with false.
  2:{ destruct (md_username m) as [u|]; [|done]. symmetry. by apply H4. }
  replace (existsb has_control (md_tags m)) with false.
  2:{ symmetry. apply existsb_false. eapply Forall_impl; [exact H6|]; naive_solver. }
  by destruct m.
Qed.

Lemma decode_encoded m kind b u :
  0 <= kind < 256 -> validate_metadata m = Ok u -> encode_metadata m kind = Ok b ->
  decode_metadata b kind = Ok m.
Proof.
  intros Hk Hm He. destruct u. apply validate_metadata_ok in Hm.
  rewrite encode_metadata_ok in He by done. injection He as <-. by apply decode_complete.
Qed.

(** The metadata codec of the vault is canonical: for a record kind,
    the bytes that decode to a document are exactly the bytes the encoder
    writes for it, and the documents that can be decoded are exactly those that
    pass validation.  So every stored document reads back, no malformed or
    over-long document is accepted, and no document has two encodings. *)
Theorem metadata_codec_canonical (b : blob) (kind : Z) (m : Metadata) :
  0 <= kind < 256 ->
  decode_metadata b kind = Ok m <-> validate_metadata m = Ok tt /\ encode_metadata m kind = Ok b.
Proof.
  intros Hk. rewrite validate_metadata_ok. split.
  - intros [Hm ->]%decode_sound. split; [done|]. by apply encode_metadata_ok.
  - intros [Hm He]. eapply decode_encoded; [done| |done]. by apply validate_metadata_ok.
Qed.
