(* ===== verification/VaultCore.v ===== *)
(** src/crates/smcv-app/src/vault_core.rs and the key ring of
    src/crates/smcv-app/src/initialization.rs: the vault domain over encrypted
    storage.

    A vault operation is a program over [World]: the database, the random
    draws made so far, the key ring, the root key, and a schedule of the
    operations that other connections commit. Each storage call first lets the
    next entry of the schedule commit, so a statement for every schedule covers
    every interleaving of storage calls; the empty schedule is a vault used by
    one thread. Locks are not poisoned, because no code panics while it holds
    one. *)
From Stdlib Require Import ZArith Lia Strings.Byte String.
From stdpp Require Import base tactics numbers option strings list gmap.
From S2P Require Import Prelude RustStd Core Crypto Sql Schema Records VaultStore Store Metadata.

(** ** State *)

(** The immutable fields of [InitializedVault]. *)
Record InitializedVault : Type := {
  iv_vault_id : VaultId;
  iv_installation_id : InstallationId;
  iv_blind_index_key : KeyMaterial;
  iv_audit_key : KeyMaterial;
  iv_token_verifier_key : KeyMaterial }.

Record KeyRing : Type := {
  kr_active_version : Z;
  kr_keys : gmap Z KeyMaterial }.

Record World : Type := {
  w_db : Db;
  w_draws : nat;
  w_ring : KeyRing;
  w_root_key : KeyMaterial;
  w_schedule : list (list StoreOp) }.

Definition set_w_db (d : Db) (w : World) : World :=
  {| w_db := d; w_draws := w_draws w; w_ring := w_ring w; w_root_key := w_root_key w;
     w_schedule := w_schedule w |}.
Definition set_w_draws (n : nat) (w : World) : World :=
  {| w_db := w_db w; w_draws := n; w_ring := w_ring w; w_root_key := w_root_key w;
     w_schedule := w_schedule w |}.
Definition set_w_ring (r : KeyRing) (w : World) : World :=
  {| w_db := w_db w; w_draws := w_draws w; w_ring := r; w_root_key := w_root_key w;
     w_schedule := w_schedule w |}.
Definition set_w_root_key (k : KeyMaterial) (w : World) : World :=
  {| w_db := w_db w; w_draws := w_draws w; w_ring := w_ring w; w_root_key := k;
     w_schedule := w_schedule w |}.

Abbreviation Vault A := (Prog World VaultError A).

(** The operations other connections commit before the next storage call. *)
Definition interfere (w : World) : World :=
  match w_schedule w with
  | [] => w
  | ops :: later => {| w_db := exec_all ops (w_db w); w_draws := w_draws w; w_ring := w_ring w;
                       w_root_key := w_root_key w; w_schedule := later |}
  end.

(** A storage call, its outcome kept. *)
Definition call_raw {E A B} (m : Store A) (k : result StorageError A -> result E B) : Prog World E B :=
  fun w => let w := interfere w in let (r, d) := m (w_db w) in (k r, set_w_db d w).
(** [self.store.op(..).map_err(map_storage)] *)
Definition call {A} (m : Store A) : Vault A := call_raw m (map_err map_storage).
Definition ask {A} (f : Db -> result StorageError A) : Vault A := call (prog_read f).

(** A use of the random source. *)
Definition randomly {A} (m : Prog nat CryptoError A) : Vault A :=
  fun w => let (r, n) := m (w_draws w) in (map_err map_crypto r, set_w_draws n w).
(** [XId::random] *)
Definition random_id {CR : Crypto} : Vault Uuid :=
  fun w => (Ok (new_v4 (w_draws w)), set_w_draws (S (w_draws w)) w).

(** ** Inputs and results *)

(** [VaultOperationContext] *)
Record OperationContext : Type := {
  oc_request_id : RequestId;
  oc_actor_principal_id : option PrincipalId;
  oc_credential_kind : option string;
  oc_credential_id : option ObjectId;
  oc_now_unix_ms : Z }.

Record SecretCreated : Type := {
  scr_secret_id : SecretId;
  scr_version : Z;
  scr_revision : Z }.

Record NamespaceListItem : Type := {
  nli_namespace_id : NamespaceId;
  nli_metadata : Metadata;
  nli_revision : Z }.

Record SecretListItem : Type := {
  sli_secret_id : SecretId;
  sli_metadata : Metadata;
  sli_current_version : Z;
  sli_revision : Z;
  sli_lifecycle_state : string;
  sli_deleted_at_unix_ms : option Z }.

Record DueSecret : Type := {
  ds_secret_id : SecretId;
  ds_version : Z;
  ds_schedule : SecretSchedule;
  ds_expired : bool;
  ds_upstream_rotation_due : bool }.

Record AuditVerification : Type := {
  av_events_verified : Z;
  av_final_sequence : Z;
  av_final_commitment : array 32 }.

Record OwnerPurgeApproval : Type := { opa_retention_cutoff_unix_ms : Z }.

Definition MAX_NAMESPACE_DEPTH : Z := 32.

(** ** Key ring (initialization.rs) *)

(** [with_active_kek] *)
Definition active_kek (r : KeyRing) : option (Z * KeyMaterial) :=
  key ← kr_keys r !! kr_active_version r; Some (kr_active_version r, key).
(** [with_kek] *)
Definition kek (r : KeyRing) (version : Z) : option KeyMaterial := kr_keys r !! version.
(** [install_active_kek] *)
Definition install_active_kek (version : Z) (key : KeyMaterial) (r : KeyRing)
  : result StorageError KeyRing :=
  if bool_decide (is_Some (kr_keys r !! version)) || (version <=? kr_active_version r)
  then Err StateConflict
  else Ok {| kr_active_version := version; kr_keys := <[version := key]> (kr_keys r) |}.
(** [retire_kek] *)
Definition retire_kek (version : Z) (r : KeyRing) : result StorageError KeyRing :=
  if (version =? kr_active_version r) || bool_decide (kr_keys r !! version = None)
  then Err StateConflict
  else Ok {| kr_active_version := kr_active_version r; kr_keys := delete version (kr_keys r) |}.

(** [lifecycle_code] *)
Definition lifecycle_code (value : string) : result VaultError Z :=
  if bool_decide (value = "active") then Ok 1
  else if bool_decide (value = "archived") then Ok 2
  else if bool_decide (value = "deleted") then Ok 3
  else if bool_decide (value = "purged") then Ok 4
  else Err Integrity.

(** [append_optional_timestamp] *)
Definition optional_timestamp (value : option Z) : blob :=
  match value with
  | Some v => [x01] ++ i64_be v
  | None => [x00] ++ arr (zeros 8)
  end.

Definition NS_STATE_DOMAIN : blob := bstr "SMCV-NS-STATE" ++ [x00] ++ bstr "v1" ++ [x00].
Definition SECRET_STATE_DOMAIN : blob := bstr "SMCV-SECRET-STATE" ++ [x00] ++ bstr "v1" ++ [x00].

Section Operations.
Context {CR : Crypto} (self : InitializedVault).

(** ** State commitments *)

(** The canonical bytes of [namespace_state_commitment]. *)
Definition namespace_canonical (namespace_id : NamespaceId) (parent : option NamespaceId)
    (name_index : array 32) (code revision metadata_version : Z) : blob :=
  NS_STATE_DOMAIN ++ arr (iv_vault_id self) ++ arr (iv_installation_id self) ++ arr namespace_id
  ++ match parent with Some p => [x01] ++ arr p | None => [x00] ++ arr (zeros 16) end
  ++ arr name_index ++ u8_be code ++ u64_be revision ++ u64_be metadata_version.

(** [namespace_state_commitment] *)
Definition namespace_state_commitment (namespace_id : NamespaceId) (parent : option NamespaceId)
    (name_index : array 32) (lifecycle_state : string) (revision metadata_version : Z)
  : result VaultError (array 32) :=
  let? code := lifecycle_code lifecycle_state in
  map_err map_crypto (state_commitment (iv_audit_key self)
    (namespace_canonical namespace_id parent name_index code revision metadata_version)).

(** The canonical bytes of [secret_state_commitment]. *)
Definition secret_canonical (secret_id : SecretId) (namespace_id : NamespaceId)
    (name_index : array 32) (code current_version revision metadata_version : Z)
    (schedule : SecretSchedule) : blob :=
  SECRET_STATE_DOMAIN ++ arr (iv_vault_id self) ++ arr (iv_installation_id self) ++ arr secret_id
  ++ arr namespace_id ++ arr name_index ++ u8_be code ++ u64_be current_version ++ u64_be revision
  ++ u64_be metadata_version ++ optional_timestamp (expires_at_unix_ms schedule)
  ++ optional_timestamp (rotation_due_at_unix_ms schedule).

(** [secret_state_commitment] *)
Definition secret_state_commitment (secret_id : SecretId) (namespace_id : NamespaceId)
    (name_index : array 32) (lifecycle_state : string) (current_version revision metadata_version : Z)
    (schedule : SecretSchedule) : result VaultError (array 32) :=
  let? code := lifecycle_code lifecycle_state in
  map_err map_crypto (state_commitment (iv_audit_key self)
    (secret_canonical secret_id namespace_id name_index code current_version revision
       metadata_version schedule)).

(** [verify_secret_state] *)
Definition verify_secret_state (s : SecretRecord) : result VaultError unit :=
  let? expected := secret_state_commitment (sr_secret_id s) (sr_namespace_id s) (sr_name_index s)
      (sr_lifecycle_state s) (sr_current_version s) (sr_revision s) (sr_metadata_version s)
      (sr_schedule s) in
  if negb (bool_decide (expected = sr_state_commitment s)) then Err Integrity else Ok tt.

(** [verify_namespace_state] *)
Definition verify_namespace_state (n : NamespaceRecord) : result VaultError unit :=
  let? expected := namespace_state_commitment (nr_namespace_id n) (nr_parent_namespace_id n)
      (nr_name_index n) (nr_lifecycle_state n) (nr_revision n) (nr_metadata_version n) in
  if negb (bool_decide (expected = nr_state_commitment n)) then Err Integrity else Ok tt.

(** ** Envelope encryption *)

Definition context_of (kind : ObjectKind) (object_id : ObjectId) (version : Z) : RecordContext :=
  {| rc_vault_id := iv_vault_id self; rc_installation_id := iv_installation_id self;
     rc_object_kind := kind; rc_object_id := object_id; rc_object_version := version |}.

(** [encrypt_record]: a fresh data key seals the text, the active KEK seals
    the data key. *)
Definition encrypt_record (plaintext : blob) (object_kind wrapped_kind : ObjectKind)
    (object_id : ObjectId) (object_version : Z) : Vault EncryptedRecord :=
  do! dek := randomly key_generate in
  do! payload := randomly (seal dek (context_of object_kind object_id object_version) plaintext) in
  do! (kek_version, key) := prog_read (fun w => ok_or Unavailable (active_kek (w_ring w))) in
  do! wrapped := randomly (seal key (context_of wrapped_kind object_id object_version) (arr dek)) in
  do! wrapped_dek := prog_lift (ok_or Integrity (try_array 48 (sr_ciphertext wrapped))) in
  prog_ret {| er_nonce := sr_nonce payload; er_ciphertext := sr_ciphertext payload;
              er_dek_nonce := sr_nonce wrapped; er_wrapped_dek := wrapped_dek;
              er_kek_version := kek_version |}.

(** [decrypt_record] *)
Definition decrypt_record (ring : KeyRing) (e : EncryptedRecord) (object_kind wrapped_kind : ObjectKind)
    (object_id : ObjectId) (object_version : Z) : result VaultError blob :=
  let? key := ok_or Integrity (kek ring (er_kek_version e)) in
  let? dek_plaintext := map_err map_crypto
    (open key (context_of wrapped_kind object_id object_version)
       {| sr_nonce := er_dek_nonce e; sr_ciphertext := arr (er_wrapped_dek e) |}) in
  let? dek := map_err map_crypto (key_from_protected dek_plaintext) in
  map_err map_crypto (open dek (context_of object_kind object_id object_version)
    {| sr_nonce := er_nonce e; sr_ciphertext := er_ciphertext e |}).

Definition decrypt_with (e : EncryptedRecord) (object_kind wrapped_kind : ObjectKind)
    (object_id : ObjectId) (object_version : Z) : Vault blob :=
  prog_read (fun w => decrypt_record (w_ring w) e object_kind wrapped_kind object_id object_version).

(** [decrypt_metadata] *)
Definition decrypt_metadata (ring : KeyRing) (s : SecretRecord) : result VaultError Metadata :=
  let? plaintext := decrypt_record ring (sr_metadata s) OSecretMetadata OWrappedMetadataKey
      (sr_secret_id s) (sr_metadata_version s) in
  decode_metadata plaintext 2.

Definition decrypt_namespace (ring : KeyRing) (n : NamespaceRecord) : result VaultError Metadata :=
  let? plaintext := decrypt_record ring (nr_metadata n) ONamespaceMetadata
      OWrappedNamespaceMetadataKey (nr_namespace_id n) (nr_metadata_version n) in
  decode_metadata plaintext 1.

(** ** Audit events *)

(** The commitment input of an event. *)
Definition audit_input (a : AuditRecord) (previous : array 32) : AuditCommitmentInput :=
  {| ai_commitment_version := ar_commitment_version a; ai_previous := previous;
     ai_sequence := ar_sequence a; ai_event_id := ar_event_id a;
     ai_installation_id := ar_installation_id a; ai_recovery_epoch := ar_recovery_epoch a;
     ai_occurred_at_unix_ms := ar_occurred_at_unix_ms a; ai_request_id := ar_request_id a;
     ai_actor_principal_id := ar_actor_principal_id a; ai_credential_kind := ar_credential_kind a;
     ai_credential_id := ar_credential_id a; ai_action := ar_action a;
     ai_target_kind := ar_target_kind a; ai_target_id := ar_target_id a;
     ai_outcome := ar_outcome a |}.

(** [build_audit_outcome] *)
Definition build_audit_outcome (action target_kind : string) (target_id : option ObjectId)
    (outcome : string) (op : OperationContext) : Vault AuditRecord :=
  do! head := ask audit_head in
  do! sequence := prog_lift (ok_or VConflict (checked_add u64_max (head_sequence head) 1)) in
  do! found := ask installation in
  do! inst := prog_lift (ok_or Unavailable found) in
  do! event_id := random_id in
  let record commitment :=
    {| ar_commitment_version := 2; ar_sequence := sequence; ar_event_id := event_id;
       ar_installation_id := iv_installation_id self; ar_recovery_epoch := ir_recovery_epoch inst;
       ar_occurred_at_unix_ms := oc_now_unix_ms op; ar_request_id := oc_request_id op;
       ar_actor_principal_id := oc_actor_principal_id op;
       ar_credential_kind := oc_credential_kind op; ar_credential_id := oc_credential_id op;
       ar_action := action; ar_target_kind := target_kind; ar_target_id := target_id;
       ar_outcome := outcome; ar_previous_commitment := head_commitment head;
       ar_commitment := commitment |} in
  do! commitment := prog_lift (map_err map_crypto
    (audit_commitment (iv_audit_key self) (audit_input (record (zeros 32)) (head_commitment head)))) in
  prog_ret (record commitment).

(** [build_audit] *)
Definition build_audit (action target_kind : string) (target_id : option ObjectId)
    (op : OperationContext) : Vault AuditRecord :=
  build_audit_outcome action target_kind target_id "allowed" op.

(** ** Namespaces *)

Definition index_scope (parent : option NamespaceId) : NamespaceId :=
  default (iv_vault_id self) parent.

(** [create_namespace_with_id] *)
Definition create_namespace_with_id (namespace_id : NamespaceId) (parent : option NamespaceId)
    (metadata : Metadata) (op : OperationContext) : Vault NamespaceId :=
  do! _ := prog_lift (validate_metadata metadata) in
  do! _ := match parent with
           | None => prog_ret tt
           | Some p =>
               do! parent_state := ask (fun d => namespace d p) in
               do! _ := prog_lift (verify_namespace_state parent_state) in
               do! _ := prog_reject (negb (bool_decide (nr_lifecycle_state parent_state = "active"))) NotFound in
               do! depth := ask (fun d => namespace_depth d p) in
               prog_reject (MAX_NAMESPACE_DEPTH <=? depth) InvalidInput
           end in
  do! name_index := prog_lift (map_err map_crypto
    (exact_name_index (iv_blind_index_key self) (index_scope parent) (md_name metadata))) in
  do! plaintext := prog_lift (encode_metadata metadata 1) in
  do! encrypted := encrypt_record plaintext ONamespaceMetadata OWrappedNamespaceMetadataKey namespace_id 1 in
  do! commitment := prog_lift (namespace_state_commitment namespace_id parent name_index "active" 1 1) in
  do! audit := build_audit "namespace:create" "namespace" (Some namespace_id) op in
  do! _ := call (create_namespace
    {| ni_namespace_id := namespace_id; ni_parent_namespace_id := parent;
       ni_name_index := name_index; ni_metadata := encrypted; ni_state_commitment := commitment;
       ni_created_at_unix_ms := oc_now_unix_ms op |} audit) in
  prog_ret namespace_id.

(** [InitializedVault::create_namespace] *)
Definition vault_create_namespace (parent : option NamespaceId) (metadata : Metadata)
    (op : OperationContext) : Vault NamespaceId :=
  do! namespace_id := random_id in
  create_namespace_with_id namespace_id parent metadata op.

(** [move_namespace_core]; the depth and the ancestors of the new parent are
    read only when the tests before them let them. *)
Definition move_namespace_core (namespace_id : NamespaceId) (expected_revision : Z)
    (new_parent : option NamespaceId) (op : OperationContext) : Vault Z :=
  do! current := ask (fun d => namespace d namespace_id) in
  do! _ := prog_lift (verify_namespace_state current) in
  do! _ := prog_reject (negb (nr_revision current =? expected_revision)
                        || negb (bool_decide (nr_lifecycle_state current = "active"))) VConflict in
  do! _ := match new_parent with
           | None => prog_ret tt
           | Some p =>
               do! _ := prog_reject (bool_decide (p = namespace_id)) InvalidInput in
               do! parent_state := ask (fun d => namespace d p) in
               do! _ := prog_lift (verify_namespace_state parent_state) in
               do! _ := prog_reject (negb (bool_decide (nr_lifecycle_state parent_state = "active"))) InvalidInput in
               do! depth := ask (fun d => namespace_depth d p) in
               do! _ := prog_reject (MAX_NAMESPACE_DEPTH <=? depth) InvalidInput in
               do! above := ask (fun d => namespace_ancestors_inclusive d p) in
               prog_reject (bool_decide (namespace_id ∈ above)) InvalidInput
           end in
  do! plaintext := decrypt_with (nr_metadata current) ONamespaceMetadata OWrappedNamespaceMetadataKey
                     namespace_id (nr_metadata_version current) in
  do! metadata := prog_lift (decode_metadata plaintext 1) in
  do! name_index := prog_lift (map_err map_crypto
    (exact_name_index (iv_blind_index_key self) (index_scope new_parent) (md_name metadata))) in
  do! next_revision := prog_lift (ok_or VConflict (checked_add u64_max expected_revision 1)) in
  do! commitment := prog_lift (namespace_state_commitment namespace_id new_parent name_index "active"
                                 next_revision (nr_metadata_version current)) in
  do! audit := build_audit "namespace:move" "namespace" (Some namespace_id) op in
  call (move_namespace namespace_id expected_revision new_parent name_index commitment
          (oc_now_unix_ms op) audit).

(** ** Secrets *)

(** [create_secret_with_id_and_schedule] *)
Definition create_secret_with_id_and_schedule (secret_id : SecretId) (namespace_id : NamespaceId)
    (metadata : Metadata) (value : blob) (schedule : SecretSchedule) (op : OperationContext)
  : Vault SecretCreated :=
  do! _ := prog_lift (validate_metadata metadata) in
  do! _ := prog_lift (validate_secret value) in
  do! _ := prog_reject (negb (schedule_is_valid schedule)) InvalidInput in
  do! name_index := prog_lift (map_err map_crypto
    (exact_name_index (iv_blind_index_key self) namespace_id (md_name metadata))) in
  do! plaintext := prog_lift (encode_metadata metadata 2) in
  do! encrypted_metadata := encrypt_record plaintext OSecretMetadata OWrappedMetadataKey secret_id 1 in
  do! encrypted_payload := encrypt_record value OSecretVersion OWrappedDataKey secret_id 1 in
  do! commitment := prog_lift (secret_state_commitment secret_id namespace_id name_index "active" 1 1 1 schedule) in
  do! audit := build_audit "secret:create" "secret" (Some secret_id) op in
  do! _ := call (create_secret
    {| sn_secret_id := secret_id; sn_namespace_id := namespace_id; sn_name_index := name_index;
       sn_metadata := encrypted_metadata; sn_payload := encrypted_payload; sn_schedule := schedule;
       sn_state_commitment := commitment; sn_created_by_principal_id := oc_actor_principal_id op;
       sn_created_at_unix_ms := oc_now_unix_ms op |} audit) in
  prog_ret {| scr_secret_id := secret_id; scr_version := 1; scr_revision := 1 |}.

(** [create_secret_with_schedule] *)
Definition create_secret_with_schedule (namespace_id : NamespaceId) (metadata : Metadata) (value : blob)
    (schedule : SecretSchedule) (op : OperationContext) : Vault SecretCreated :=
  do! secret_id := random_id in
  create_secret_with_id_and_schedule secret_id namespace_id metadata value schedule op.

(** [InitializedVault::create_secret] *)
Definition vault_create_secret (namespace_id : NamespaceId) (metadata : Metadata) (value : blob)
    (op : OperationContext) : Vault SecretCreated :=
  create_secret_with_schedule namespace_id metadata value default_schedule op.

(** The loop of [update_secret_with_schedule]: a conflict that left the secret
    as expected is retried with a new audit event. *)
Fixpoint update_attempts (attempts : nat) (v : SecretVersionInsert) (op : OperationContext) : Vault Z :=
  match attempts with
  | O => prog_fail VConflict
  | S attempts' =>
      do! audit := build_audit "secret:update" "secret" (Some (vi_secret_id v)) op in
      do! result := call_raw (append_secret_version v audit)
        (fun r => Ok r) in
      match result with
      | Ok version => prog_ret version
      | Err Conflict =>
          do! current := ask (fun d => secret d (vi_secret_id v)) in
          do! _ := prog_reject (negb (sr_current_version current =? vi_expected_current_version v)
                                || negb (sr_revision current =? vi_expected_revision v)) VConflict in
          update_attempts attempts' v op
      | Err e => prog_fail (map_storage e)
      end
  end.

(** [update_secret_with_schedule] *)
Definition update_secret_with_schedule (secret_id : SecretId)
    (expected_current_version expected_revision : Z) (value : blob) (schedule : SecretSchedule)
    (op : OperationContext) : Vault Z :=
  do! _ := prog_lift (validate_secret value) in
  do! _ := prog_reject (negb (schedule_is_valid schedule)) InvalidInput in
  do! next_version := prog_lift (ok_or VConflict (checked_add u64_max expected_current_version 1)) in
  do! current := ask (fun d => secret d secret_id) in
  do! _ := prog_lift (verify_secret_state current) in
  do! _ := prog_reject (negb (sr_current_version current =? expected_current_version)
                        || negb (sr_revision current =? expected_revision)
                        || negb (bool_decide (sr_lifecycle_state current = "active"))) VConflict in
  do! next_revision := prog_lift (ok_or VConflict (checked_add u64_max expected_revision 1)) in
  do! commitment := prog_lift (secret_state_commitment secret_id (sr_namespace_id current)
    (sr_name_index current) "active" next_version next_revision (sr_metadata_version current) schedule) in
  do! encrypted := encrypt_record value OSecretVersion OWrappedDataKey secret_id next_version in
  update_attempts 2
    {| vi_secret_id := secret_id; vi_expected_current_version := expected_current_version;
       vi_expected_revision := expected_revision; vi_payload := encrypted; vi_schedule := schedule;
       vi_next_state_commitment := commitment;
       vi_created_by_principal_id := oc_actor_principal_id op;
       vi_created_at_unix_ms := oc_now_unix_ms op |} op.

(** [update_secret] *)
Definition update_secret (secret_id : SecretId) (expected_current_version expected_revision : Z)
    (value : blob) (op : OperationContext) : Vault Z :=
  update_secret_with_schedule secret_id expected_current_version expected_revision value
    default_schedule op.

(** [reveal_current_secret]: the audit event commits before the text is returned. *)
Definition reveal_current_secret (secret_id : SecretId) (op : OperationContext) : Vault blob :=
  do! state := ask (fun d => secret d secret_id) in
  do! _ := prog_lift (verify_secret_state state) in
  do! _ := prog_reject (negb (bool_decide (sr_lifecycle_state state = "active"))) NotFound in
  do! encrypted := ask (fun d => encrypted_secret_version d secret_id (sr_current_version state)) in
  do! plaintext := decrypt_with encrypted OSecretVersion OWrappedDataKey secret_id (sr_current_version state) in
  do! audit := build_audit "secret:value-read" "secret" (Some secret_id) op in
  do! _ := call (append_audit audit) in
  prog_ret plaintext.

(** [secret_version_history] *)
Definition secret_version_history (secret_id : SecretId) (after_version lim : Z)
  : Vault (list SecretVersionRecord) :=
  do! _ := prog_reject (negb (between 1 100 lim)) InvalidInput in
  do! state := ask (fun d => secret d secret_id) in
  do! _ := prog_lift (verify_secret_state state) in
  do! _ := prog_reject (bool_decide (sr_lifecycle_state state = "deleted")) NotFound in
  ask (fun d => secret_versions_after d secret_id after_version lim).

(** [reveal_secret_version] *)
Definition reveal_secret_version (secret_id : SecretId) (version : Z) (op : OperationContext) : Vault blob :=
  do! _ := prog_reject (version =? 0) InvalidInput in
  do! state := ask (fun d => secret d secret_id) in
  do! _ := prog_lift (verify_secret_state state) in
  do! _ := prog_reject (bool_decide (sr_lifecycle_state state = "deleted")
                        || (sr_current_version state <? version)) NotFound in
  do! encrypted := ask (fun d => encrypted_secret_version d secret_id version) in
  do! plaintext := decrypt_with encrypted OSecretVersion OWrappedDataKey secret_id version in
  do! audit := build_audit "secret:version-read" "secret" (Some secret_id) op in
  do! _ := call (append_audit audit) in
  prog_ret plaintext.

(** [find_secret_by_exact_name] *)
Definition find_secret_by_exact_name (namespace_id : NamespaceId) (name : rstring) : Vault SecretId :=
  do! index := prog_lift (map_err map_crypto
    (exact_name_index (iv_blind_index_key self) namespace_id name)) in
  do! found := ask (fun d => secret_by_name_index d namespace_id index) in
  do! candidate := prog_lift (ok_or NotFound found) in
  do! _ := prog_lift (verify_secret_state candidate) in
  do! _ := prog_reject (negb (bool_decide (sr_lifecycle_state candidate = "active"))) NotFound in
  do! metadata := prog_read (fun w => decrypt_metadata (w_ring w) candidate) in
  do! _ := prog_reject (negb (blob_eqb (rs_bytes (nfc name)) (rs_bytes (nfc (md_name metadata))))) NotFound in
  prog_ret (sr_secret_id candidate).

(** [read_secret_metadata] *)
Definition read_secret_metadata (secret_id : SecretId) : Vault Metadata :=
  do! candidate := ask (fun d => secret d secret_id) in
  do! _ := prog_lift (verify_secret_state candidate) in
  do! _ := prog_reject (negb (bool_decide (sr_lifecycle_state candidate = "active"))) NotFound in
  prog_read (fun w => decrypt_metadata (w_ring w) candidate).

(** [list_namespaces] *)
Definition list_namespaces (parent after : option NamespaceId) (lim : Z) : Vault (list NamespaceListItem) :=
  do! _ := prog_reject (negb (between 1 100 lim)) InvalidInput in
  do! records := ask (fun d => namespaces_after d parent after lim) in
  prog_mapM (fun r =>
    do! _ := prog_lift (verify_namespace_state r) in
    do! plaintext := decrypt_with (nr_metadata r) ONamespaceMetadata OWrappedNamespaceMetadataKey
                       (nr_namespace_id r) (nr_metadata_version r) in
    do! metadata := prog_lift (decode_metadata plaintext 1) in
    prog_ret {| nli_namespace_id := nr_namespace_id r; nli_metadata := metadata;
                nli_revision := nr_revision r |}) records.

(** [list_secrets_in_lifecycle] *)
Definition list_secrets_in_lifecycle (namespace_id : NamespaceId) (lifecycle_state : string)
    (after : option SecretId) (lim : Z) : Vault (list SecretListItem) :=
  do! _ := prog_reject (negb (between 1 100 lim)
                        || negb (text_in ["active"; "archived"; "deleted"] lifecycle_state)) InvalidInput in
  do! ns := ask (fun d => namespace d namespace_id) in
  do! _ := prog_lift (verify_namespace_state ns) in
  do! _ := prog_reject (negb (bool_decide (nr_lifecycle_state ns = "active"))) NotFound in
  do! records := ask (fun d => secrets_in_lifecycle_after d namespace_id lifecycle_state after lim) in
  prog_mapM (fun r =>
    do! _ := prog_lift (verify_secret_state r) in
    do! metadata := prog_read (fun w => decrypt_metadata (w_ring w) r) in
    prog_ret {| sli_secret_id := sr_secret_id r; sli_metadata := metadata;
                sli_current_version := sr_current_version r; sli_revision := sr_revision r;
                sli_lifecycle_state := sr_lifecycle_state r;
                sli_deleted_at_unix_ms := sr_deleted_at_unix_ms r |}) records.

(** [list_secrets] *)
Definition list_secrets (namespace_id : NamespaceId) (after : option SecretId) (lim : Z)
  : Vault (list SecretListItem) :=
  do! _ := prog_reject (negb (between 1 100 lim)) InvalidInput in
  do! ns := ask (fun d => namespace d namespace_id) in
  do! _ := prog_lift (verify_namespace_state ns) in
  do! _ := prog_reject (negb (bool_decide (nr_lifecycle_state ns = "active"))) NotFound in
  list_secrets_in_lifecycle namespace_id "active" after lim.

(** [secrets_due] *)
Definition secrets_due (now_unix_ms lim : Z) : Vault (list DueSecret) :=
  do! _ := prog_reject ((now_unix_ms <? 0) || (lim =? 0) || (1000 <? lim)) InvalidInput in
  do! records := ask (fun d => scheduled_secrets_due d now_unix_ms lim) in
  prog_mapM (fun r =>
    do! current := ask (fun d => secret d (sch_secret_id r)) in
    do! _ := prog_lift (verify_secret_state current) in
    do! _ := prog_reject (negb (sr_current_version current =? sch_version r)) Integrity in
    let reached t := is_some_and t (fun t => t <=? now_unix_ms) in
    prog_ret {| ds_secret_id := sch_secret_id r; ds_version := sch_version r;
                ds_schedule := sch_schedule r;
                ds_expired := reached (expires_at_unix_ms (sch_schedule r));
                ds_upstream_rotation_due := reached (rotation_due_at_unix_ms (sch_schedule r)) |}) records.

(** [change_lifecycle] *)
Definition change_lifecycle (secret_id : SecretId) (expected_revision : Z)
    (from_state to_state action : string) (op : OperationContext) : Vault Z :=
  do! current := ask (fun d => secret d secret_id) in
  do! _ := prog_lift (verify_secret_state current) in
  do! _ := prog_reject (negb (sr_revision current =? expected_revision)
                        || negb (bool_decide (sr_lifecycle_state current = from_state))) VConflict in
  do! next_revision := prog_lift (ok_or VConflict (checked_add u64_max expected_revision 1)) in
  do! commitment := prog_lift (secret_state_commitment secret_id (sr_namespace_id current)
    (sr_name_index current) to_state (sr_current_version current) next_revision
    (sr_metadata_version current) (sr_schedule current)) in
  do! audit := build_audit action "secret" (Some secret_id) op in
  call (change_secret_lifecycle
    {| lc_secret_id := secret_id; lc_expected_revision := expected_revision;
       lc_from_state := from_state; lc_to_state := to_state;
       lc_changed_at_unix_ms := oc_now_unix_ms op; lc_next_state_commitment := commitment |} audit).

(** [archive_secret], [restore_archived_secret], [delete_secret] *)
Definition archive_secret (secret_id : SecretId) (expected_revision : Z) (op : OperationContext) : Vault Z :=
  change_lifecycle secret_id expected_revision "active" "archived" "secret:archive" op.
Definition restore_archived_secret (secret_id : SecretId) (expected_revision : Z) (op : OperationContext) : Vault Z :=
  change_lifecycle secret_id expected_revision "archived" "active" "secret:restore" op.
Definition delete_secret (secret_id : SecretId) (expected_revision : Z) (op : OperationContext) : Vault Z :=
  change_lifecycle secret_id expected_revision "active" "deleted" "secret:delete" op.

(** [purge_secret_after_owner_approval] *)
Definition purge_secret_after_owner_approval (secret_id : SecretId) (expected_revision : Z)
    (approval : OwnerPurgeApproval) (op : OperationContext) : Vault unit :=
  do! current := ask (fun d => secret d secret_id) in
  do! _ := prog_lift (verify_secret_state current) in
  do! _ := prog_reject (negb (sr_revision current =? expected_revision)
                        || negb (bool_decide (sr_lifecycle_state current = "deleted"))) VConflict in
  do! audit := build_audit "secret:purge" "secret" (Some secret_id) op in
  call (purge_secret
    {| sp_secret_id := secret_id; sp_expected_revision := expected_revision;
       sp_retention_cutoff_unix_ms := opa_retention_cutoff_unix_ms approval;
       sp_purged_at_unix_ms := oc_now_unix_ms op |} audit).

(** ** Verification of the audit chain *)

(** One record of a page, against the sequence and commitment before it. *)
Definition verify_record (at_ : Z * array 32) (r : AuditRecord) : result VaultError (Z * array 32) :=
  let? expected_sequence := ok_or Integrity (checked_add u64_max at_.1 1) in
  if negb (ar_sequence r =? expected_sequence) || negb (bool_decide (ar_previous_commitment r = at_.2))
  then Err Integrity
  else
    let? expected := map_err map_crypto (audit_commitment (iv_audit_key self) (audit_input r at_.2)) in
    if negb (bool_decide (expected = ar_commitment r)) then Err Integrity
    else Ok (ar_sequence r, ar_commitment r).

(** [for record in page] *)
Fixpoint verify_page (at_ : Z * array 32) (page : list AuditRecord) : result VaultError (Z * array 32) :=
  match page with
  | [] => Ok at_
  | r :: page' => let? at_' := verify_record at_ r in verify_page at_' page'
  end.

(** The loop over pages of 1000 records. *)
Fixpoint verify_pages (fuel : nat) (at_ : Z * array 32) : Vault (Z * array 32) :=
  match fuel with
  | O => prog_fail Unavailable
  | S fuel' =>
      do! page := ask (fun d => audit_records_after d at_.1 1000) in
      if Nat.eqb (length page) 0 then prog_ret at_
      else
        do! at_' := prog_lift (verify_page at_ page) in
        if zlen page <? 1000 then prog_ret at_' else verify_pages fuel' at_'
  end.

(** Each page but the last advances past 1000 events, so there are fewer full
    pages than events in the log and in the schedule. *)
Definition verify_fuel (w : World) : nat :=
  S (length (rows (db_audit (w_db w))) + length (concat (w_schedule w))).

(** [verify_audit_chain] *)
Definition verify_audit_chain : Vault AuditVerification :=
  fun w => (
    do! at_ := verify_pages (verify_fuel w) (0, zeros 32) in
    do! head := ask audit_head in
    do! _ := prog_reject (negb (head_sequence head =? at_.1)
                          || negb (bool_decide (head_commitment head = at_.2))) VConflict in
    prog_ret {| av_events_verified := at_.1; av_final_sequence := at_.1;
                av_final_commitment := at_.2 |}) w.
End Operations.
