(* ===== verification/Initialization.v ===== *)
(** src/crates/smcv-app/src/initialization.rs: creating, resuming and reopening
    an installation.

    A program here runs over a [Host]: what the two configured paths hold (the
    database, whose file is opened and migrated by [SqliteStore::open], and the
    root-key file), the directories they lie in, and the random draws. A
    successful opening yields the fields of [InitializedVault], its key ring and
    its root key. *)
From Stdlib Require Import ZArith Lia Strings.Byte String.
From stdpp Require Import base tactics numbers option strings list gmap.
From S2P Require Import Prelude RustStd Core Crypto Sql Schema Records VaultStore RotationStore Store Metadata VaultCore.

Inductive InitializationError : Type :=
| IUnsafePath
| MissingRootKey
| Cryptography (e : CryptoError)
| IStorage (e : StorageError).

#[export] Instance CryptoError_eq_decision : EqDecision CryptoError.
Proof. solve_decision. Defined.
#[export] Instance InitializationError_eq_decision : EqDecision InitializationError.
Proof. solve_decision. Defined.

(** ** Paths *)

(** What [symlink_metadata] reports of a directory entry. *)
Record fs_dir : Type := {
  dir_is_dir : bool;
  dir_is_symlink : bool;
  dir_mode : Z }.

(** A configured path: its [parent()], what that parent is (if it exists) and
    canonicalizes to, and whether it could be created. *)
Record location : Type := {
  loc_path : string;
  loc_parent : option string;
  loc_dir : option fs_dir;
  loc_canonical : option string;
  loc_creatable : bool }.

Definition set_loc_dir (dir : fs_dir) (l : location) : location :=
  {| loc_path := loc_path l; loc_parent := loc_parent l; loc_dir := Some dir;
     loc_canonical := loc_canonical l; loc_creatable := loc_creatable l |}.

(** The directory [DirBuilder] makes, mode 0o700. *)
Definition made_dir : fs_dir := {| dir_is_dir := true; dir_is_symlink := false; dir_mode := 448 |}.

(** [prepare_parent]; the result is the location afterwards. *)
Definition prepare_parent (l : location) : result InitializationError location :=
  let? _ := ok_or IUnsafePath (loc_parent l) in
  let? l := match loc_dir l with
            | Some _ => Ok l
            | None => if loc_creatable l then Ok (set_loc_dir made_dir l) else Err IUnsafePath
            end in
  let? dir := ok_or IUnsafePath (loc_dir l) in
  if negb (dir_is_dir dir) || dir_is_symlink dir || negb (Z.land (dir_mode dir) 63 (* 0o077 *) =? 0)
  then Err IUnsafePath else Ok l.

(** [ensure_separate_parents] *)
Definition ensure_separate_parents (database root : location) : result InitializationError unit :=
  let? _ := ok_or IUnsafePath (loc_parent database) in
  let? database_parent := ok_or IUnsafePath (loc_canonical database) in
  let? _ := ok_or IUnsafePath (loc_parent root) in
  let? key_parent := ok_or IUnsafePath (loc_canonical root) in
  if String.eqb database_parent key_parent || String.eqb (loc_path database) (loc_path root)
  then Err IUnsafePath else Ok tt.

(** ** The host *)

Record Host : Type := {
  h_database : option Db;
  h_root_file : option fs_file;
  h_database_at : location;
  h_root_at : location;
  h_draws : nat }.

Definition set_h_database (d : Db) (h : Host) : Host :=
  {| h_database := Some d; h_root_file := h_root_file h; h_database_at := h_database_at h;
     h_root_at := h_root_at h; h_draws := h_draws h |}.
Definition set_h_root_file (f : fs_file) (h : Host) : Host :=
  {| h_database := h_database h; h_root_file := Some f; h_database_at := h_database_at h;
     h_root_at := h_root_at h; h_draws := h_draws h |}.
Definition set_h_locations (database root : location) (h : Host) : Host :=
  {| h_database := h_database h; h_root_file := h_root_file h; h_database_at := database;
     h_root_at := root; h_draws := h_draws h |}.
Definition set_h_draws (n : nat) (h : Host) : Host :=
  {| h_database := h_database h; h_root_file := h_root_file h; h_database_at := h_database_at h;
     h_root_at := h_root_at h; h_draws := n |}.

Abbreviation Setup A := (Prog Host InitializationError A).

(** The opened database; a new file holds the migrated, empty schema. *)
Definition h_db (h : Host) : Db := default empty_db (h_database h).

Definition open_store : Setup unit := fun h => (Ok tt, set_h_database (h_db h) h).
Definition on_store {A} (m : Store A) : Setup A :=
  fun h => let (r, d) := m (h_db h) in (map_err IStorage r, set_h_database d h).
Definition ask_store {A} (f : Db -> result StorageError A) : Setup A :=
  fun h => (map_err IStorage (f (h_db h)), h).
Definition draw {A} (m : Prog nat CryptoError A) : Setup A :=
  fun h => let (r, n) := m (h_draws h) in (map_err Cryptography r, set_h_draws n h).
Definition draw_id {CR : Crypto} : Setup Uuid :=
  fun h => (Ok (new_v4 (h_draws h)), set_h_draws (S (h_draws h)) h).
Definition conflict_if (b : bool) : result InitializationError unit :=
  if b then Err (IStorage StateConflict) else Ok tt.

(** The checks of both paths every entry point starts with. *)
Definition prepare_paths : Setup unit := fun h =>
  match prepare_parent (h_database_at h) with
  | Err e => (Err e, h)
  | Ok database =>
      let h := set_h_locations database (h_root_at h) h in
      match prepare_parent (h_root_at h) with
      | Err e => (Err e, h)
      | Ok root =>
          let h := set_h_locations database root h in
          (ensure_separate_parents database root, h)
      end
  end.

(** ** Wrapping keys *)

Record PortableVaultKeys : Type := {
  pk_blind_index : KeyMaterial;
  pk_audit : KeyMaterial;
  pk_token_verifier : KeyMaterial }.

Section Keys.
Context {CR : Crypto}.

Definition key_context (vault_id : VaultId) (installation_id : InstallationId) (kind : ObjectKind)
    (object_id : ObjectId) (version : Z) : RecordContext :=
  {| rc_vault_id := vault_id; rc_installation_id := installation_id; rc_object_kind := kind;
     rc_object_id := object_id; rc_object_version := version |}.

(** [wrap_key] *)
Definition wrap_key (wrapping_key plaintext_key : KeyMaterial) (vault_id : VaultId)
    (installation_id : InstallationId) (kind : KeyKind) (object_kind : ObjectKind)
    (wrapping_kek_version : option Z) : Setup WrappedKeyRecord :=
  do! object_id := draw_id in
  do! sealed := draw (seal wrapping_key (key_context vault_id installation_id object_kind object_id 1)
                        (arr plaintext_key)) in
  do! ciphertext := prog_lift (ok_or (Cryptography CIntegrity) (try_array 48 (sr_ciphertext sealed))) in
  prog_ret {| wk_kind := kind; wk_version := 1; wk_object_id := object_id;
              wk_wrapping_kek_version := wrapping_kek_version; wk_nonce := sr_nonce sealed;
              wk_ciphertext := ciphertext |}.

(** [unwrap_key] *)
Definition unwrap_key (wrapping_key : KeyMaterial) (vault_id : VaultId)
    (installation_id : InstallationId) (object_kind : ObjectKind) (record : WrappedKeyRecord)
  : result InitializationError KeyMaterial :=
  let? bytes := map_err Cryptography (open wrapping_key
    (key_context vault_id installation_id object_kind (wk_object_id record) (wk_version record))
    {| sr_nonce := wk_nonce record; sr_ciphertext := arr (wk_ciphertext record) |}) in
  map_err Cryptography (key_from_protected bytes).

(** [unwrap_registry_key] *)
Definition unwrap_registry_key (d : Db) (keks : gmap Z KeyMaterial) (vault_id : VaultId)
    (installation_id : InstallationId) (key_kind : KeyKind) (object_kind : ObjectKind)
  : result InitializationError KeyMaterial :=
  let? record := map_err IStorage (wrapped_key d key_kind 1) in
  let? version := ok_or (IStorage StateConflict) (wk_wrapping_kek_version record) in
  let? key := ok_or (IStorage StateConflict) (keks !! version) in
  unwrap_key key vault_id installation_id object_kind record.

(** [create_bootstrap_with_keys] *)
Definition create_bootstrap_with_keys (vault_id : VaultId) (installation_id : InstallationId)
    (root_key key : KeyMaterial) (keys : PortableVaultKeys) (now : Z) : Setup BootstrapRecord :=
  do! kek := wrap_key root_key key vault_id installation_id KeyEncryption OWrappedKeyEncryptionKey None in
  do! blind := wrap_key key (pk_blind_index keys) vault_id installation_id BlindIndex OBlindIndexKey (Some 1) in
  do! audit := wrap_key key (pk_audit keys) vault_id installation_id AuditKind OAuditKey (Some 1) in
  do! token := wrap_key key (pk_token_verifier keys) vault_id installation_id TokenVerifier OVerifierKey (Some 1) in
  prog_ret {| br_vault_id := vault_id; br_installation_id := installation_id;
              br_initialized_at_unix_ms := now; br_key_encryption_key := kek;
              br_blind_index_key := blind; br_audit_key := audit; br_token_verifier_key := token |}.

(** [create_bootstrap] *)
Definition create_bootstrap (vault_id : VaultId) (installation_id : InstallationId)
    (root_key : KeyMaterial) (now : Z) : Setup BootstrapRecord :=
  do! key := draw key_generate in
  do! blind := draw key_generate in
  do! audit := draw key_generate in
  do! token := draw key_generate in
  create_bootstrap_with_keys vault_id installation_id root_key key
    {| pk_blind_index := blind; pk_audit := audit; pk_token_verifier := token |} now.

(** ** Opening *)

Definition nonretired (keys : list RegisteredKey) : list RegisteredKey :=
  List.filter (fun k => negb (bool_decide (rk_state k = KRetired))) keys.

(** The one key that is not retired is active and has the version. *)
Definition sole_active (keys : list RegisteredKey) (version : Z) : bool :=
  match nonretired keys with
  | [k] => bool_decide (rk_state k = KActive) && (wk_version (rk_wrapped k) =? version)
  | _ => false
  end.

Definition some_key (state : KeyState) (version : Z) (keys : list RegisteredKey) : bool :=
  existsb (fun k => bool_decide (rk_state k = state) && (wk_version (rk_wrapped k) =? version)) keys.

(** [validate_kek_registry_state] *)
Definition validate_kek_registry_state (d : Db) (i : InstallationRecord) (keys : list RegisteredKey)
  : result InitializationError unit :=
  let active_version := default 1 (ir_active_kek_version i) in
  match ir_activation_state i with
  | Initializing =>
      conflict_if (bool_decide (is_Some (ir_active_kek_version i)) || negb (sole_active keys 1))
  | Ready =>
      if negb (sole_active keys active_version) then Err (IStorage StateConflict)
      else
        let? job := map_err IStorage (active_kek_rotation d) in
        conflict_if (bool_decide (is_Some job))
  | Maintenance =>
      let? found := map_err IStorage (active_kek_rotation d) in
      let? job := ok_or (IStorage StateConflict) found in
      conflict_if (negb (zlen (nonretired keys) =? 2)
                   || negb (some_key KActive (kj_target_key_version job) (nonretired keys))
                   || negb (some_key KRetiring (kj_source_key_version job) (nonretired keys))
                   || negb (active_version =? kj_target_key_version job))
  | Failed => Err (IStorage StateConflict)
  end.

(** The key-encryption keys that are not retired, unwrapped. *)
Fixpoint unwrap_keks (root_key : KeyMaterial) (vault_id : VaultId) (installation_id : InstallationId)
    (keys : list RegisteredKey) (keks : gmap Z KeyMaterial)
  : result InitializationError (gmap Z KeyMaterial) :=
  match keys with
  | [] => Ok keks
  | k :: keys' =>
      if bool_decide (rk_state k = KRetired)
      then unwrap_keks root_key vault_id installation_id keys' keks
      else
        let? key := unwrap_key root_key vault_id installation_id OWrappedKeyEncryptionKey (rk_wrapped k) in
        unwrap_keks root_key vault_id installation_id keys' (<[wk_version (rk_wrapped k) := key]> keks)
  end.

(** The fields of an [InitializedVault] together with its interior state. *)
Record Opened : Type := {
  op_vault : InitializedVault;
  op_ring : KeyRing;
  op_root_key : KeyMaterial }.

(** The identity and root key of the installation: from the root-key file, or
    new ones that are written to it. *)
Definition obtain_root (existing : option InstallationRecord)
  : Setup (VaultId * InstallationId * KeyMaterial) := fun h =>
  match h_root_file h with
  | Some _ =>
      (do! root := prog_lift (map_err Cryptography (load_root_key_file (h_root_file h))) in
       do! _ := prog_lift (conflict_if (is_some_and existing (fun e =>
         negb (bool_decide (ir_vault_id e = rk_vault_id root))
         || negb (bool_decide (ir_installation_id e = rk_installation_id root))))) in
       prog_ret (rk_vault_id root, rk_installation_id root, rk_key root)) h
  | None =>
      (do! vault_id := draw_id in
       do! installation_id := draw_id in
       do! (root_key, file) := draw (create_root_key_file (h_root_file h) vault_id installation_id) in
       do! _ := fun h => (Ok tt, set_h_root_file file h) in
       prog_ret (vault_id, installation_id, root_key)) h
  end.

(** From a bootstrapped database and a root key to the opened vault. *)
Definition open_installation (vault_id : VaultId) (installation_id : InstallationId)
    (root_key : KeyMaterial) : Setup Opened :=
  do! found := ask_store installation in
  do! state := prog_lift (ok_or (IStorage NotInitialized) found) in
  let active_version := default 1 (ir_active_kek_version state) in
  do! registered := ask_store (fun d => registered_keys d KeyEncryption) in
  do! _ := prog_read (fun h => validate_kek_registry_state (h_db h) state registered) in
  do! keks := prog_lift (unwrap_keks root_key vault_id installation_id registered ∅) in
  do! _ := prog_lift (conflict_if (bool_decide (keks !! active_version = None))) in
  do! blind := prog_read (fun h =>
    unwrap_registry_key (h_db h) keks vault_id installation_id BlindIndex OBlindIndexKey) in
  do! audit := prog_read (fun h =>
    unwrap_registry_key (h_db h) keks vault_id installation_id AuditKind OAuditKey) in
  do! token := prog_read (fun h =>
    unwrap_registry_key (h_db h) keks vault_id installation_id TokenVerifier OVerifierKey) in
  do! state := (if bool_decide (ir_activation_state state = Initializing) then
      do! _ := on_store (activate_initialization 1) in
      do! found := ask_store installation in
      prog_lift (ok_or (IStorage NotInitialized) found)
    else prog_ret state) in
  do! _ := prog_lift (conflict_if
    (negb (bool_decide (ir_activation_state state = Ready)
           || bool_decide (ir_activation_state state = Maintenance))
     || negb (bool_decide (ir_active_kek_version state = Some active_version)))) in
  prog_ret {| op_vault := {| iv_vault_id := vault_id; iv_installation_id := installation_id;
                             iv_blind_index_key := blind; iv_audit_key := audit;
                             iv_token_verifier_key := token |};
              op_ring := {| kr_active_version := active_version; kr_keys := keks |};
              op_root_key := root_key |}.

(** The bootstrap of a database that has none. *)
Definition ensure_bootstrap (vault_id : VaultId) (installation_id : InstallationId)
    (root_key : KeyMaterial) (now : Z) : Setup unit :=
  do! found := ask_store installation in
  match found with
  | Some _ => prog_ret tt
  | None =>
      do! bootstrap := create_bootstrap vault_id installation_id root_key now in
      do! _ := on_store (begin_initialization bootstrap) in
      prog_ret tt
  end.

(** [initialize_vault] *)
Definition initialize_vault (now : Z) : Setup Opened :=
  do! _ := prepare_paths in
  do! _ := open_store in
  do! existing := ask_store installation in
  do! _ := prog_read (fun h =>
    if bool_decide (is_Some existing) && bool_decide (h_root_file h = None)
    then Err MissingRootKey else Ok tt) in
  do! (vault_id, installation_id, root_key) := obtain_root existing in
  do! _ := ensure_bootstrap vault_id installation_id root_key now in
  open_installation vault_id installation_id root_key.

(** [initialize_restore_staging] *)
Definition initialize_restore_staging (vault_id : VaultId) (keys : PortableVaultKeys) (now : Z)
  : Setup Opened :=
  do! _ := prepare_paths in
  do! _ := prog_read (fun h => conflict_if (bool_decide (is_Some (h_root_file h))
                                            || match h_database h with Some _ => true | None => false end)) in
  do! installation_id := draw_id in
  do! (root_key, file) := draw (create_root_key_file None vault_id installation_id) in
  do! _ := fun h => (Ok tt, set_h_root_file file h) in
  do! key := draw key_generate in
  do! _ := open_store in
  do! bootstrap := create_bootstrap_with_keys vault_id installation_id root_key key keys now in
  do! disposition := on_store (begin_restore_initialization bootstrap) in
  do! _ := prog_lift (conflict_if (match disposition with Begun => false | _ => true end)) in
  prog_ret {| op_vault := {| iv_vault_id := vault_id; iv_installation_id := installation_id;
                             iv_blind_index_key := pk_blind_index keys; iv_audit_key := pk_audit keys;
                             iv_token_verifier_key := pk_token_verifier keys |};
              op_ring := {| kr_active_version := 1; kr_keys := {[1 := key]} |};
              op_root_key := root_key |}.

(** [verify_restore_staging_reopen] *)
Definition verify_restore_staging_reopen (expected_vault_id : VaultId)
    (expected_installation_id : InstallationId) : Setup unit :=
  do! _ := prepare_paths in
  do! _ := open_store in
  do! found := ask_store installation in
  do! i := prog_lift (ok_or (IStorage NotInitialized) found) in
  do! _ := prog_lift (conflict_if (negb (bool_decide (ir_activation_state i = Initializing))
    || negb (bool_decide (ir_vault_id i = expected_vault_id))
    || negb (bool_decide (ir_installation_id i = expected_installation_id))
    || bool_decide (is_Some (ir_active_kek_version i)))) in
  do! root := prog_read (fun h => map_err Cryptography (load_root_key_file (h_root_file h))) in
  do! _ := prog_lift (conflict_if (negb (bool_decide (rk_vault_id root = expected_vault_id))
    || negb (bool_decide (rk_installation_id root = expected_installation_id)))) in
  do! registered := ask_store (fun d => registered_keys d KeyEncryption) in
  do! _ := prog_read (fun h => validate_kek_registry_state (h_db h) i registered) in
  do! k := prog_lift (ok_or (IStorage StateConflict) (List.find (fun k =>
    bool_decide (rk_state k = KActive) && (wk_version (rk_wrapped k) =? 1)) registered)) in
  do! key := prog_lift (unwrap_key (rk_key root) expected_vault_id expected_installation_id
    OWrappedKeyEncryptionKey (rk_wrapped k)) in
  let unwrap kind object := prog_read (fun h =>
    unwrap_registry_key (h_db h) {[1 := key]} expected_vault_id expected_installation_id kind object) in
  do! _ := unwrap BlindIndex OBlindIndexKey in
  do! _ := unwrap AuditKind OAuditKey in
  do! _ := unwrap TokenVerifier OVerifierKey in
  prog_ret tt.
End Keys.

(** The vault in use, with nothing else connected. *)
Definition in_use (o : Opened) (h : Host) : World :=
  {| w_db := h_db h; w_draws := h_draws h; w_ring := op_ring o; w_root_key := op_root_key o;
     w_schedule := [] |}.
(** The host after the process ends. *)
Definition closed (w : World) (h : Host) : Host := set_h_draws (w_draws w) (set_h_database (w_db w) h).
