(* ===== verification/Rotation.v ===== *)
(** src/crates/smcv-app/src/rotation.rs: the driver of key-encryption-key
    rotation over the checkpointed storage job, and the replacement of the
    root-key provider. *)
From Stdlib Require Import ZArith Lia Strings.Byte String.
From stdpp Require Import base tactics numbers option strings list gmap.
From S2P Require Import Prelude RustStd Core Crypto Sql Schema Records VaultStore RotationStore Store Metadata VaultCore Initialization.

Record RotationProgress : Type := {
  rp_batches_committed : Z;
  rp_completed : bool }.

Record RootRotationOutcome : Type := {
  ro_replacement_verified : bool;
  ro_previous_provider_retained : bool }.

(** [wrapping_object_kind] *)
Definition wrapping_object_kind (k : RewrapKind) : ObjectKind :=
  match k with
  | RwBlindIndexKey => OBlindIndexKey
  | RwAuditKey => OAuditKey
  | RwTokenVerifierKey => OVerifierKey
  | RwNamespaceMetadata => OWrappedNamespaceMetadataKey
  | RwSecretMetadata => OWrappedMetadataKey
  | RwSecretVersion => OWrappedDataKey
  end.

(** [ensure_key_width] *)
Definition ensure_key_width (value : blob) : result VaultError unit :=
  if negb (zlen value =? 32) then Err Integrity else Ok tt.

(** An update of the key ring; a failure is reported as [Unavailable]. *)
Definition on_ring (f : KeyRing -> result StorageError KeyRing) : Vault unit := fun w =>
  match f (w_ring w) with
  | Ok r => (Ok tt, set_w_ring r w)
  | Err _ => (Err Unavailable, w)
  end.
(** [replace_root_key] *)
Definition replace_root_key (k : KeyMaterial) : Vault unit := fun w => (Ok tt, set_w_root_key k w).

Section Rotation.
Context {CR : Crypto} (self : InitializedVault).

(** [start_kek_rotation] *)
Definition start_kek_rotation (op : OperationContext) : Vault KekRotationJob :=
  do! running := ask active_kek_rotation in
  do! _ := prog_reject (bool_decide (is_Some running)) VConflict in
  do! (source_version, _) := prog_read (fun w => ok_or Unavailable (active_kek (w_ring w))) in
  do! target_version := prog_lift (ok_or VConflict (checked_add u32_max source_version 1)) in
  do! target_key := randomly key_generate in
  do! key_object_id := random_id in
  do! root_key := prog_read (fun w => Ok (w_root_key w)) in
  do! wrapped := randomly (seal root_key
    (context_of self OWrappedKeyEncryptionKey key_object_id target_version) (arr target_key)) in
  do! ciphertext := prog_lift (ok_or Integrity (try_array 48 (sr_ciphertext wrapped))) in
  do! audit := build_audit self "key:rotate-start" "key" (Some key_object_id) op in
  do! job_id := random_id in
  do! job := call (begin_kek_rotation job_id source_version
    {| wk_kind := KeyEncryption; wk_version := target_version; wk_object_id := key_object_id;
       wk_wrapping_kek_version := None; wk_nonce := sr_nonce wrapped; wk_ciphertext := ciphertext |}
    (oc_now_unix_ms op) audit) in
  do! _ := on_ring (install_active_kek target_version target_key) in
  prog_ret job.

(** [rewrap_item] *)
Definition rewrap_item (job : KekRotationJob) (source : RewrapItem) : Vault RewrappedItem :=
  let context := context_of self (wrapping_object_kind (ri_kind source)) (ri_object_id source)
                   (ri_object_version source) in
  do! plaintext := prog_read (fun w =>
    let? source_key := ok_or Integrity (kek (w_ring w) (kj_source_key_version job)) in
    map_err map_crypto (open source_key context
      {| sr_nonce := ri_nonce source; sr_ciphertext := arr (ri_wrapped_key source) |})) in
  do! _ := prog_lift (ensure_key_width plaintext) in
  do! target_key := prog_read (fun w => ok_or Integrity (kek (w_ring w) (kj_target_key_version job))) in
  do! sealed := randomly (seal target_key context plaintext) in
  do! wrapped_key := prog_lift (ok_or Integrity (try_array 48 (sr_ciphertext sealed))) in
  prog_ret {| rw_source := source; rw_nonce := sr_nonce sealed; rw_wrapped_key := wrapped_key |}.

(** The loop of [resume_kek_rotation]: [None] when the fuel runs out. *)
Fixpoint resume_loop (fuel : nat) (max_batches batch_size : Z) (op : OperationContext)
    (job : KekRotationJob) (batches_committed : Z) : Vault (option RotationProgress) :=
  match fuel with
  | O => prog_ret None
  | S fuel =>
      if bool_decide (kj_stage job = Finalize) then
        do! audit := build_audit self "key:rotate-complete" "key" None op in
        do! _ := call (finish_kek_rotation job (oc_now_unix_ms op) audit) in
        do! _ := on_ring (retire_kek (kj_source_key_version job)) in
        prog_ret (Some {| rp_batches_committed := batches_committed; rp_completed := true |})
      else if batches_committed =? max_batches then
        prog_ret (Some {| rp_batches_committed := batches_committed; rp_completed := false |})
      else
        do! source := ask (fun d => next_rewrap_batch d job batch_size) in
        match source with
        | [] =>
            do! job := call (advance_rotation_stage job (oc_now_unix_ms op)) in
            resume_loop fuel max_batches batch_size op job batches_committed
        | _ =>
            do! rewrapped := prog_mapM (rewrap_item job) source in
            do! job := call (apply_rewrap_batch job rewrapped (oc_now_unix_ms op)) in
            resume_loop fuel max_batches batch_size op job (batches_committed + 1)
        end
  end.

(** The stages that are left. *)
Definition stages_left (s : RotationStage) : nat :=
  match s with
  | Auxiliary => 4 | StNamespaceMetadata => 3 | StSecretMetadata => 2 | StSecretVersions => 1
  | Finalize => 0
  end.

(** [resume_kek_rotation]: every turn commits a batch or leaves a stage, so
    the fuel is enough, and [Unavailable] is never answered for its lack. *)
Definition resume_kek_rotation (max_batches batch_size : Z) (op : OperationContext)
  : Vault RotationProgress :=
  do! _ := prog_reject ((max_batches =? 0) || (batch_size =? 0) || (256 <? batch_size)) InvalidInput in
  do! found := ask active_kek_rotation in
  do! job := prog_lift (ok_or NotFound found) in
  do! progress := resume_loop (S (Z.to_nat max_batches + stages_left (kj_stage job)))
                    max_batches batch_size op job 0 in
  prog_lift (ok_or Unavailable progress).

(** The loop of [rotate_kek_to_completion]: [None] when the fuel runs out. *)
Fixpoint completion_loop (fuel : nat) (op : OperationContext) : Vault (option unit) :=
  match fuel with
  | O => prog_ret None
  | S fuel =>
      do! progress := resume_kek_rotation 64 64 op in
      if rp_completed progress then prog_ret (Some tt) else completion_loop fuel op
  end.

(** [rotate_kek_to_completion] with the turns its loop may take. *)
Definition rotate_kek_to_completion (fuel : nat) (op : OperationContext) : Vault (option unit) :=
  do! _ := start_kek_rotation op in
  completion_loop fuel op.

(** [rewrap_root_key] *)
Definition rewrap_root_key (replacement : KeyMaterial) (source : WrappedKeyRecord)
  : Vault RootRewrappedKey :=
  let context := context_of self OWrappedKeyEncryptionKey (wk_object_id source) (wk_version source) in
  do! key := prog_read (fun w => ok_or Integrity (kek (w_ring w) (wk_version source))) in
  do! wrapped := randomly (seal replacement context (arr key)) in
  do! target_wrapped_key := prog_lift (ok_or Integrity (try_array 48 (sr_ciphertext wrapped))) in
  do! verified := prog_lift (map_err map_crypto (open replacement context
    {| sr_nonce := sr_nonce wrapped; sr_ciphertext := arr target_wrapped_key |})) in
  do! _ := prog_lift (ensure_key_width verified) in
  prog_ret {| rr_version := wk_version source; rr_object_id := wk_object_id source;
              rr_source_nonce := wk_nonce source; rr_source_wrapped_key := wk_ciphertext source;
              rr_target_nonce := sr_nonce wrapped; rr_target_wrapped_key := target_wrapped_key |}.

(** [verify_root_wrappings] *)
Definition verify_root_wrappings (replacement : KeyMaterial) : Vault unit :=
  do! registry := ask (fun d => registered_keys d KeyEncryption) in
  prog_lift (result_forM (fun k =>
    let record := rk_wrapped k in
    let? plaintext := map_err map_crypto (open replacement
      (context_of self OWrappedKeyEncryptionKey (wk_object_id record) (wk_version record))
      {| sr_nonce := wk_nonce record; sr_ciphertext := arr (wk_ciphertext record) |}) in
    ensure_key_width plaintext) (nonretired registry)).

(** [rotate_root_provider]: [database] is where the open database lies,
    [replacement_at] and [existing] what the replacement path is and holds; the
    file that is written is part of the result. *)
Definition rotate_root_provider (database replacement_at : location) (existing : option fs_file)
    (op : OperationContext) : Vault (RootRotationOutcome * fs_file) :=
  do! replacement_at := prog_lift (map_err (fun _ => Unavailable) (prepare_parent replacement_at)) in
  do! _ := prog_lift (map_err (fun _ => Unavailable) (ensure_separate_parents database replacement_at)) in
  do! running := ask active_kek_rotation in
  do! _ := prog_reject (bool_decide (is_Some running)) VConflict in
  do! (replacement, file) := randomly (create_root_key_file existing (iv_vault_id self) (iv_installation_id self)) in
  do! registry := ask (fun d => registered_keys d KeyEncryption) in
  do! updates := prog_mapM (fun k => rewrap_root_key replacement (rk_wrapped k)) (nonretired registry) in
  do! audit := build_audit self "root-provider:rotate" "vault" None op in
  do! job_id := random_id in
  do! _ := call (replace_root_wrappings job_id updates (oc_now_unix_ms op) audit) in
  do! _ := verify_root_wrappings replacement in
  do! _ := replace_root_key replacement in
  prog_ret ({| ro_replacement_verified := true; ro_previous_provider_retained := true |}, file).
End Rotation.
