(* ===== verification/Authentication.v ===== *)
(** src/crates/smcv-app/src/authentication.rs: enrollment of the owner,
    password login, browser sessions and the keyed commitments of principals,
    authenticators and sessions.

    Argon2id and the PHC string format are third-party code: the operations of
    the class [PasswordHashing]. *)
From Stdlib Require Import ZArith Lia Strings.Byte String.
From stdpp Require Import base tactics numbers option strings list gmap.
From S2P Require Import Prelude RustStd Core Crypto Format Sql Schema Records VaultStore IdentityStore Store Metadata VaultCore.

Definition SESSION_IDLE_MS : Z := 30 * 60 * 1000.
Definition SESSION_ABSOLUTE_MS : Z := 12 * 60 * 60 * 1000.
Definition RECENT_AUTH_MS : Z := 5 * 60 * 1000.
Definition MIN_PASSWORD_BYTES : Z := 12.
Definition MAX_PASSWORD_BYTES : Z := 1024.

Inductive AuthenticationError : Type :=
| Rejected | AuInvalidInput | AuIntegrity | AuUnavailable.

#[export] Instance AuthenticationError_eq_decision : EqDecision AuthenticationError.
Proof. solve_decision. Defined.

(** What [PasswordHash::new] and [Params::try_from] find in a PHC string. *)
Record PasswordHash : Type := {
  ph_algorithm : string;
  ph_version : option Z;
  ph_params : option (Z * Z * Z * option Z);
  ph_has_salt : bool;
  ph_hash_length : option Z }.

Class PasswordHashing : Type := {
  (** [PasswordHash::new] *)
  phc_parse : string -> option PasswordHash;
  (** Argon2id, version 19, 64 MiB, 3 passes, 1 lane, 32 bytes, with the salt
      of the [d]-th draw, as a PHC string. *)
  argon2_hash : nat -> blob -> option string;
  (** [verify_password] against a parsed PHC string *)
  argon2_verify : blob -> string -> bool }.

Record BrowserSessionSecrets : Type := {
  bs_session_token : blob;
  bs_csrf_token : blob;
  bs_absolute_expires_at_unix_ms : Z }.

Record AuthenticatedOwner : Type := {
  ao_principal_id : PrincipalId;
  ao_session_id : SessionId;
  ao_authenticator_id : AuthenticatorId;
  ao_recent_auth_until_unix_ms : Z;
  ao_valid_from_unix_ms : Z;
  ao_valid_until_unix_ms : Z }.

(** [AuthenticatedOwner::is_valid_at] *)
Definition is_valid_at (o : AuthenticatedOwner) (now : Z) : bool :=
  (ao_valid_from_unix_ms o <=? now) && (now <=? ao_valid_until_unix_ms o).
(** [AuthenticatedOwner::is_recent_at] *)
Definition is_recent_at (o : AuthenticatedOwner) (now : Z) : bool :=
  (now <=? ao_recent_auth_until_unix_ms o) && is_valid_at o now.

(** [authentication::map_storage] *)
Definition auth_map_storage (e : StorageError) : AuthenticationError :=
  match e with
  | InvalidData | MigrationMismatch => AuIntegrity
  | Conflict | StateConflict => Rejected
  | _ => AuUnavailable
  end.

Abbreviation Auth A := (Prog World AuthenticationError A).

(** [self.store.op(..).map_err(map_storage)] *)
Definition auth_call {A} (m : Store A) : Auth A := call_raw m (map_err auth_map_storage).
Definition auth_ask {A} (f : Db -> result StorageError A) : Auth A := auth_call (prog_read f).

(** [validate_password] *)
Definition validate_password (password : rstring) : result AuthenticationError unit :=
  if negb ((MIN_PASSWORD_BYTES <=? rs_len password) && (rs_len password <=? MAX_PASSWORD_BYTES))
  then Err AuInvalidInput else Ok tt.

(** [checked_add] on i64 *)
Definition i64_checked_add (a b : Z) : option Z :=
  if (i64_min <=? a + b) && (a + b <=? i64_max) then Some (a + b) else None.

Section Commitments.
Context {CR : Crypto} (self : InitializedVault).

(** [state_commitment(..).map_err(|_| AuthenticationError::Integrity)] *)
Definition auth_commit (canonical : blob) : result AuthenticationError (array 32) :=
  map_err (fun _ => AuIntegrity) (state_commitment (iv_audit_key self) canonical).

(** [principal_commitment] *)
Definition principal_commitment (principal_id : PrincipalId) (kind state : string) (revision : Z)
  : result AuthenticationError (array 32) :=
  auth_commit (canonical_text
    [bstr "principal"; uuid_text principal_id; bstr kind; bstr state; dec revision]).

Definition principal_kind_text (k : PrincipalKind) : string :=
  match k with Owner => "owner" | Service => "service" end.

(** [verify_principal_commitment] *)
Definition verify_principal_commitment (p : PrincipalRecord) : result AuthenticationError unit :=
  let? expected := principal_commitment (pc_principal_id p) (principal_kind_text (pc_kind p))
                     (pc_state p) (pc_revision p) in
  if negb (bool_decide (expected = pc_state_commitment p)) then Err AuIntegrity else Ok tt.

(** [authenticator_commitment] *)
Definition authenticator_commitment (authenticator_id : AuthenticatorId) (principal_id : PrincipalId)
    (kind : AuthenticatorKind) (credential_lookup credential_data : option blob)
    (password_phc : option string) (state : string) (created_at : Z)
    (last_used_at revoked_at : option Z) : result AuthenticationError (array 32) :=
  auth_commit (canonical_text
    [bstr "authenticator"; uuid_text authenticator_id; uuid_text principal_id;
     bstr (authenticator_kind_as_str kind);
     default [] (hex_encode <$> credential_lookup); default [] (hex_encode <$> credential_data);
     bstr (default "" password_phc); bstr state; dec created_at;
     debug_opt last_used_at; debug_opt revoked_at]).

(** [verify_authenticator_commitment] *)
Definition verify_authenticator_commitment (a : OwnerAuthenticatorRecord)
  : result AuthenticationError unit :=
  let? expected := authenticator_commitment (or_authenticator_id a) (or_principal_id a) (or_kind a)
      (or_credential_lookup a) (or_credential_data a) (or_password_phc a) (or_state a)
      (or_created_at_unix_ms a) (or_last_used_at_unix_ms a) (or_revoked_at_unix_ms a) in
  if negb (bool_decide (expected = or_state_commitment a)) then Err AuIntegrity else Ok tt.

(** [session_commitment]; the length of the stored commitment is always 32. *)
Definition session_commitment (s : SessionRecord) (last_used_at idle_expires_at recent_auth_at : Z)
    (revoked_at : option Z) : result AuthenticationError (array 32) :=
  auth_commit (canonical_text
    [bstr "session"; uuid_text (ses_session_id s); hex_encode (arr (ses_lookup_id s));
     hex_encode (arr (ses_verifier s)); hex_encode (arr (ses_csrf_verifier s));
     uuid_text (ses_principal_id s); uuid_text (ses_authenticator_id s);
     bstr (authenticator_kind_as_str (ses_auth_method s)); dec (ses_created_at_unix_ms s);
     dec (ses_absolute_expires_at_unix_ms s); dec (zlen (arr (ses_state_commitment s)));
     dec last_used_at; dec idle_expires_at; dec (ses_absolute_expires_at_unix_ms s);
     dec recent_auth_at; debug_opt revoked_at]).

(** [verify_session_commitment] *)
Definition verify_session_commitment (s : SessionRecord) : result AuthenticationError unit :=
  let? expected := session_commitment s (ses_last_used_at_unix_ms s) (ses_idle_expires_at_unix_ms s)
      (ses_recent_auth_at_unix_ms s) (ses_revoked_at_unix_ms s) in
  if negb (bool_decide (expected = ses_state_commitment s)) then Err AuIntegrity else Ok tt.

(** [verify_owner_context_active] *)
Definition verify_owner_context_active (owner : AuthenticatedOwner) (now : Z) : Auth unit :=
  do! _ := prog_reject (negb (is_valid_at owner now)) Rejected in
  do! s := auth_ask (fun d => session d (ao_session_id owner)) in
  do! _ := prog_lift (verify_session_commitment s) in
  prog_reject (negb (bool_decide (ses_principal_id s = ao_principal_id owner))
               || bool_decide (is_Some (ses_revoked_at_unix_ms s))
               || (now <? ses_created_at_unix_ms s) || (now <? ses_last_used_at_unix_ms s)
               || (ses_idle_expires_at_unix_ms s <? now)
               || (ses_absolute_expires_at_unix_ms s <? now)) Rejected.

(** [self.build_audit(..).map_err(|_| AuthenticationError::Unavailable)] *)
Definition auth_audit (action target_kind : string) (target_id : option ObjectId)
    (op : OperationContext) : Auth AuditRecord :=
  prog_map_err (fun _ => AuUnavailable) (build_audit self action target_kind target_id op).

Definition auth_random_id : Auth Uuid := prog_map_err (fun _ => AuUnavailable) random_id.

(** The context of an operation no session or credential stands behind. *)
Definition local_operation (request_id : RequestId) (now : Z) : OperationContext :=
  {| oc_request_id := request_id; oc_actor_principal_id := None; oc_credential_kind := None;
     oc_credential_id := None; oc_now_unix_ms := now |}.
Definition session_operation (principal_id : PrincipalId) (session_id : SessionId)
    (request_id : RequestId) (now : Z) : OperationContext :=
  {| oc_request_id := request_id; oc_actor_principal_id := Some principal_id;
     oc_credential_kind := Some "session"; oc_credential_id := Some session_id;
     oc_now_unix_ms := now |}.

(** [create_browser_session] *)
Definition create_browser_session (owner : PrincipalRecord) (a : OwnerAuthenticatorRecord)
    (updated_credential_data : option blob) (request_id : RequestId) (now : Z)
  : Auth BrowserSessionSecrets :=
  do! _ := prog_reject ((now <? or_created_at_unix_ms a)
                        || is_some_and (or_last_used_at_unix_ms a) (fun last_used => now <? last_used))
             Rejected in
  do! issued := prog_map_err (fun _ => AuUnavailable)
                  (randomly (issue_session (iv_token_verifier_key self))) in
  do! session_id := auth_random_id in
  do! idle := prog_lift (ok_or AuUnavailable (i64_checked_add now SESSION_IDLE_MS)) in
  do! absolute := prog_lift (ok_or AuUnavailable (i64_checked_add now SESSION_ABSOLUTE_MS)) in
  let s := {| ses_session_id := session_id; ses_lookup_id := is_lookup_id issued;
              ses_verifier := is_session_verifier issued; ses_csrf_verifier := is_csrf_verifier issued;
              ses_principal_id := pc_principal_id owner;
              ses_authenticator_id := or_authenticator_id a; ses_auth_method := or_kind a;
              ses_created_at_unix_ms := now; ses_last_used_at_unix_ms := now;
              ses_idle_expires_at_unix_ms := idle; ses_absolute_expires_at_unix_ms := absolute;
              ses_recent_auth_at_unix_ms := now; ses_revoked_at_unix_ms := None;
              ses_state_commitment := zeros 32 |} in
  do! session_state := prog_lift (session_commitment s now idle now None) in
  do! authenticator_state := prog_lift (authenticator_commitment (or_authenticator_id a)
    (or_principal_id a) (or_kind a) (or_credential_lookup a)
    (match updated_credential_data with Some _ => updated_credential_data | None => or_credential_data a end)
    (or_password_phc a) (or_state a) (or_created_at_unix_ms a) (Some now) (or_revoked_at_unix_ms a)) in
  do! audit := auth_audit "session:create" "session" (Some session_id)
                 (session_operation (pc_principal_id owner) session_id request_id now) in
  do! _ := auth_call (create_session
    {| sin_session_id := session_id; sin_lookup_id := is_lookup_id issued;
       sin_verifier := is_session_verifier issued; sin_csrf_verifier := is_csrf_verifier issued;
       sin_principal_id := pc_principal_id owner; sin_authenticator_id := or_authenticator_id a;
       sin_auth_method := or_kind a; sin_created_at_unix_ms := now;
       sin_idle_expires_at_unix_ms := idle; sin_absolute_expires_at_unix_ms := absolute;
       sin_recent_auth_at_unix_ms := now; sin_state_commitment := session_state;
       sin_expected_authenticator_state_commitment := or_state_commitment a;
       sin_authenticator_state_commitment := authenticator_state;
       sin_authenticator_credential_data := updated_credential_data |} audit) in
  prog_ret {| bs_session_token := is_session_token issued; bs_csrf_token := is_csrf_token issued;
              bs_absolute_expires_at_unix_ms := absolute |}.

(** [authenticate_browser_session] *)
Definition authenticate_browser_session (session_token : blob) (csrf_token : option blob)
    (require_csrf : bool) (now : Z) : Auth AuthenticatedOwner :=
  do! lookup := prog_lift (ok_or Rejected (session_lookup_id session_token)) in
  do! found := auth_ask (fun d => session_by_lookup d lookup) in
  do! s := prog_lift (ok_or Rejected found) in
  do! _ := prog_lift (verify_session_commitment s) in
  do! _ := prog_reject (bool_decide (is_Some (ses_revoked_at_unix_ms s))
                        || (now <? ses_created_at_unix_ms s) || (now <? ses_last_used_at_unix_ms s)
                        || (ses_idle_expires_at_unix_ms s <? now)
                        || (ses_absolute_expires_at_unix_ms s <? now)) Rejected in
  do! genuine := prog_lift (map_err (fun _ => AuUnavailable)
    (verify_session (iv_token_verifier_key self) session_token lookup (ses_verifier s))) in
  do! _ := prog_reject (negb genuine) Rejected in
  do! _ := if require_csrf then
             do! csrf := prog_lift (ok_or Rejected csrf_token) in
             do! same := prog_lift (map_err (fun _ => AuUnavailable)
               (verify_csrf (iv_token_verifier_key self) csrf lookup (ses_csrf_verifier s))) in
             prog_reject (negb same) Rejected
           else prog_ret tt in
  do! owner := auth_ask (fun d => principal d (ses_principal_id s)) in
  do! _ := prog_lift (verify_principal_commitment owner) in
  do! _ := prog_reject (negb (bool_decide (pc_state owner = "active"))) Rejected in
  do! idle := prog_lift (ok_or Rejected (i64_checked_add now SESSION_IDLE_MS)) in
  let next_idle := Z.min idle (ses_absolute_expires_at_unix_ms s) in
  do! commitment := prog_lift (session_commitment s now next_idle (ses_recent_auth_at_unix_ms s) None) in
  do! _ := call_raw (touch_session (ses_session_id s) (ses_last_used_at_unix_ms s) now next_idle
                       (ses_recent_auth_at_unix_ms s) commitment) (map_err (fun _ => Rejected)) in
  do! recent := prog_lift (ok_or Rejected
    (i64_checked_add (ses_recent_auth_at_unix_ms s) RECENT_AUTH_MS)) in
  prog_ret {| ao_principal_id := ses_principal_id s; ao_session_id := ses_session_id s;
              ao_authenticator_id := ses_authenticator_id s; ao_recent_auth_until_unix_ms := recent;
              ao_valid_from_unix_ms := now; ao_valid_until_unix_ms := next_idle |}.

(** [logout_browser_session] *)
Definition logout_browser_session (owner : AuthenticatedOwner) (request_id : RequestId) (now : Z)
  : Auth unit :=
  do! _ := prog_reject (negb (is_valid_at owner now)) Rejected in
  do! s := auth_ask (fun d => session d (ao_session_id owner)) in
  do! _ := prog_lift (verify_session_commitment s) in
  do! _ := prog_reject (negb (bool_decide (ses_principal_id s = ao_principal_id owner))
                        || bool_decide (is_Some (ses_revoked_at_unix_ms s))) Rejected in
  do! commitment := prog_lift (session_commitment s (ses_last_used_at_unix_ms s)
    (ses_idle_expires_at_unix_ms s) (ses_recent_auth_at_unix_ms s) (Some now)) in
  do! audit := auth_audit "session:revoke" "session" (Some (ses_session_id s))
                 (session_operation (ao_principal_id owner) (ao_session_id owner) request_id now) in
  auth_call (revoke_session (ses_session_id s) (ses_last_used_at_unix_ms s) now commitment audit).
End Commitments.

Section Passwords.
Context {CR : Crypto} {PH : PasswordHashing} (self : InitializedVault).

(** [hash_password] *)
Definition hash_password (password : rstring) : Auth string :=
  fun w => (ok_or AuUnavailable (argon2_hash (w_draws w) (rs_bytes password)),
            set_w_draws (S (w_draws w)) w).

(** [validate_password_phc] *)
Definition validate_password_phc (phc : string) : result AuthenticationError unit :=
  let? parsed := ok_or AuIntegrity (phc_parse phc) in
  let? params := ok_or AuIntegrity (ph_params parsed) in
  let '(m_cost, t_cost, p_cost, output_len) := params in
  if negb (bool_decide (ph_algorithm parsed = "argon2id"))
     || negb (bool_decide (ph_version parsed = Some 19))
     || negb (m_cost =? 64 * 1024) || negb (t_cost =? 3) || negb (p_cost =? 1)
     || negb (bool_decide (output_len = Some 32)) || negb (ph_has_salt parsed)
     || is_none_or (ph_hash_length parsed) (fun n => negb (n =? 32))
  then Err AuIntegrity else Ok tt.

(** [verify_password_record] *)
Definition verify_password_record (record : OwnerAuthenticatorRecord) (password : rstring)
  : result AuthenticationError bool :=
  let? _ := verify_authenticator_commitment self record in
  let? phc := ok_or AuIntegrity (or_password_phc record) in
  let? _ := validate_password_phc phc in
  let? _ := ok_or AuIntegrity (phc_parse phc) in
  Ok (argon2_verify (rs_bytes password) phc).

(** [for candidate in authenticators] *)
Fixpoint match_password (candidates : list OwnerAuthenticatorRecord) (password : rstring)
  : result AuthenticationError (option OwnerAuthenticatorRecord) :=
  match candidates with
  | [] => Ok None
  | c :: rest =>
      let? matched := verify_password_record c password in
      if matched : bool then Ok (Some c) else match_password rest password
  end.

(** The password authenticator written by enrollment and recovery. *)
Definition password_authenticator (authenticator_id : AuthenticatorId) (phc : string)
    (commitment : array 32) : OwnerAuthenticatorInsert :=
  {| oi_authenticator_id := authenticator_id; oi_kind := Password; oi_credential_lookup := None;
     oi_credential_data := None; oi_password_phc := Some phc; oi_state_commitment := commitment |}.

(** [enroll_local_owner] *)
Definition enroll_local_owner (password : rstring) (request_id : RequestId) (now : Z)
  : Auth PrincipalId :=
  do! _ := prog_lift (validate_password password) in
  do! phc := hash_password password in
  do! principal_id := auth_random_id in
  do! authenticator_id := auth_random_id in
  do! principal_state := prog_lift (principal_commitment self principal_id "owner" "active" 1) in
  do! authenticator_state := prog_lift (authenticator_commitment self authenticator_id principal_id
    Password None None (Some phc) "active" now None None) in
  do! authorization := prog_lift (auth_commit self
    (canonical_text [bstr "authorization-graph"; bstr "v1"; bstr "revision"; bstr "1"; bstr "empty"])) in
  do! audit := auth_audit self "owner:enroll" "principal" (Some principal_id)
                 (local_operation request_id now) in
  do! _ := auth_call (enroll_owner principal_id principal_state authorization
    (password_authenticator authenticator_id phc authenticator_state) now audit) in
  prog_ret principal_id.

(** [recover_local_owner] *)
Definition recover_local_owner (password : rstring) (request_id : RequestId) (now : Z)
  : Auth PrincipalId :=
  do! _ := prog_lift (validate_password password) in
  do! found := auth_ask owner_principal in
  do! owner := prog_lift (ok_or Rejected found) in
  do! _ := prog_lift (verify_principal_commitment self owner) in
  do! _ := prog_reject (negb (bool_decide (pc_state owner = "active"))) Rejected in
  do! existing := auth_ask (fun d => owner_authenticators d Password) in
  do! _ := prog_reject (negb (Nat.eqb (length existing) 0)) Rejected in
  do! phc := hash_password password in
  do! authenticator_id := auth_random_id in
  do! commitment := prog_lift (authenticator_commitment self authenticator_id (pc_principal_id owner)
    Password None None (Some phc) "active" now None None) in
  do! audit := auth_audit self "owner:recover" "principal" (Some (pc_principal_id owner))
                 (local_operation request_id now) in
  do! _ := auth_call (add_owner_authenticator (pc_principal_id owner)
    (password_authenticator authenticator_id phc commitment) now audit) in
  prog_ret (pc_principal_id owner).

(** [login_with_password] *)
Definition login_with_password (password : rstring) (request_id : RequestId) (now : Z)
  : Auth BrowserSessionSecrets :=
  do! _ := prog_reject (MAX_PASSWORD_BYTES <? rs_len password) Rejected in
  do! found := auth_ask owner_principal in
  do! owner := prog_lift (ok_or Rejected found) in
  do! _ := prog_lift (verify_principal_commitment self owner) in
  do! _ := prog_reject (negb (bool_decide (pc_state owner = "active"))) Rejected in
  do! authenticators := auth_ask (fun d => owner_authenticators d Password) in
  do! matched := prog_lift (match_password authenticators password) in
  do! authenticator := prog_lift (ok_or Rejected matched) in
  create_browser_session self owner authenticator None request_id now.
End Passwords.
