(* ===== verification/Authorization.v ===== *)
(** src/crates/smcv-app/src/authorization.rs: the central authorization
    decision, the authenticated policy graph and its management, and confirmed
    namespace moves.

    The [authorization_gate] only orders requests of one process; here every
    storage call may be preceded by operations of others, gate or not. *)
From Stdlib Require Import ZArith Lia Strings.Byte String.
From stdpp Require Import base tactics numbers option strings list gmap.
From S2P Require Import Prelude RustStd Core Crypto Format Sql Schema Records PolicyStore VaultStore IdentityStore Store Metadata VaultCore Authentication.

Definition MAX_POLICY_LABEL_BYTES : Z := 128.
Definition MAX_AUTHORIZATION_RECORDS : Z := 10000.

(** [AuthenticatedService] of service_identity.rs *)
Record AuthenticatedService : Type := {
  asv_principal_id : PrincipalId;
  asv_credential_id : CredentialId }.

Inductive RequestPrincipal : Type :=
| RequestOwner (owner : AuthenticatedOwner)
| RequestService (service : AuthenticatedService).

(** [RequestPrincipal::principal_id] *)
Definition request_principal_id (p : RequestPrincipal) : PrincipalId :=
  match p with RequestOwner o => ao_principal_id o | RequestService s => asv_principal_id s end.
(** [RequestPrincipal::credential_attribution] *)
Definition credential_attribution (p : RequestPrincipal) : string * ObjectId :=
  match p with
  | RequestOwner o => ("session", ao_session_id o)
  | RequestService s => ("application", asv_credential_id s)
  end.

Record PolicyDetails : Type := {
  pd_policy_id : PolicyId;
  pd_label : rstring;
  pd_state : string;
  pd_revision : Z }.

Record PolicyGrantSummary : Type := {
  gsm_grant_id : GrantId;
  gsm_action : Action;
  gsm_resource_kind : ResourceKind;
  gsm_resource_id : ObjectId;
  gsm_include_descendants : bool }.

Record PolicyRuleSet : Type := {
  prs_authorization_revision : Z;
  prs_grants : list PolicyGrantSummary;
  prs_bindings : list PrincipalId }.

Record EffectiveAccessDelta : Type := {
  ead_principal_id : PrincipalId;
  ead_action : Action }.

#[export] Instance EffectiveAccessDelta_eq_decision : EqDecision EffectiveAccessDelta.
Proof. solve_decision. Defined.

Inductive AuthorizationError : Type :=
| Denied | RecentAuthenticationRequired | AzInvalidInput | AzIntegrity | AzUnavailable.

#[export] Instance AuthorizationError_eq_decision : EqDecision AuthorizationError.
Proof. solve_decision. Defined.

(** [map_authorization_storage] *)
Definition map_authorization_storage (e : StorageError) : AuthorizationError :=
  match auth_map_storage e with
  | AuIntegrity => AzIntegrity
  | Rejected => Denied
  | AuInvalidInput => AzInvalidInput
  | AuUnavailable => AzUnavailable
  end.

Abbreviation Authz A := (Prog World AuthorizationError A).

(** [self.store.op(..).map_err(map_authorization_storage)] *)
Definition az_call {A} (m : Store A) : Authz A := call_raw m (map_err map_authorization_storage).
Definition az_ask {A} (f : Db -> result StorageError A) : Authz A := az_call (prog_read f).
(** [self.store.op(..).map_err(|_| AuthorizationError::Denied)] *)
Definition ask_or_deny {A} (f : Db -> result StorageError A) : Authz A :=
  call_raw (prog_read f) (map_err (fun _ => Denied)).
Definition az_random_id {CR : Crypto} : Authz Uuid := prog_map_err (fun _ => AzUnavailable) random_id.

(** [action_requires_recent] *)
Definition action_requires_recent (a : Action) : bool :=
  match a with
  | SecretValueRead | SecretHistoryRead | SecretVersionRead | Core.SecretPurge | CredentialIssue
  | CredentialRevoke | PolicyManage | BackupCreate | BackupRestore | KeyRotate | VaultConfigure
  | VaultLock => true
  | _ => false
  end.

(** [require_recent] *)
Definition require_recent (owner : AuthenticatedOwner) (now : Z) : result AuthorizationError unit :=
  if is_recent_at owner now then Ok tt else Err RecentAuthenticationRequired.

(** [operation] *)
Definition operation (p : RequestPrincipal) (request_id : RequestId) (now : Z) : OperationContext :=
  {| oc_request_id := request_id; oc_actor_principal_id := Some (request_principal_id p);
     oc_credential_kind := Some (credential_attribution p).1;
     oc_credential_id := Some (credential_attribution p).2; oc_now_unix_ms := now |}.

(** [decode_policy_label] *)
Definition decode_policy_label (bytes : blob) : result AuthorizationError rstring :=
  if (zlen bytes <? 10) || negb (blob_eqb (take 8 bytes) (bstr "SMCVPL01")) then Err AzIntegrity
  else
    let length := be_decode (take 2 (drop 8 bytes)) in
    if (length =? 0) || (MAX_POLICY_LABEL_BYTES <? length) || negb (zlen bytes =? 10 + length)
    then Err AzIntegrity
    else ok_or AzIntegrity (protected_from_utf8 (drop 10 bytes)).

(** The label as [create_policy] encrypts it. *)
Definition encode_policy_label (label : rstring) : blob :=
  bstr "SMCVPL01" ++ u16_be (rs_len label) ++ rs_bytes label.

(** [graph_item] *)
Definition graph_item (tag : byte) (key : blob) (commitment : array 32) : blob :=
  [tag] ++ key ++ arr commitment.
Definition tag_P : byte := x50.
Definition tag_G : byte := x47.
Definition tag_B : byte := x42.

Definition policy_item (p : PolicyRecord) : blob :=
  graph_item tag_P (arr (po_policy_id p)) (po_state_commitment p).
Definition grant_item (g : PolicyGrantRecord) : blob :=
  graph_item tag_G (arr (pg_grant_id g)) (pg_state_commitment g).
Definition binding_key (principal_id : PrincipalId) (policy_id : PolicyId) : blob :=
  arr principal_id ++ arr policy_id.
Definition binding_item (b : PolicyBindingRecord) : blob :=
  graph_item tag_B (binding_key (pb_principal_id b) (pb_policy_id b)) (pb_state_commitment b).

(** [exclude.is_some_and(|(tag, key)| ...)] *)
Definition excluded (exclude : option (byte * blob)) (tag : byte) (key : blob) : bool :=
  is_some_and exclude (fun e => Byte.eqb e.1 tag && blob_eqb e.2 key).

(** The items [graph_commitment] hashes, before sorting. *)
Definition graph_items (s : AuthorizationSnapshot) (exclude : option (byte * blob))
    (extra : option blob) : list blob :=
  (policy_item <$> filter (fun p => excluded exclude tag_P (arr (po_policy_id p)) = false) (snap_policies s))
  ++ (grant_item <$> filter (fun g => excluded exclude tag_G (arr (pg_grant_id g)) = false) (snap_grants s))
  ++ (binding_item <$> filter (fun b =>
        excluded exclude tag_B (binding_key (pb_principal_id b) (pb_policy_id b)) = false) (snap_bindings s))
  ++ option_list extra.

(** The bytes fed to SHA-256: each item preceded by its length. *)
Definition graph_bytes (items : list blob) : result AuthorizationError blob :=
  let? parts := result_mapM (fun item =>
    let? n := ok_or AzUnavailable (try_from u32_max (zlen item)) in Ok (u32_be n ++ item)) items in
  Ok (concat parts).

(** [Vec::dedup] *)
Fixpoint dedup {A} `{EqDecision A} (l : list A) : list A :=
  match l with
  | [] => []
  | a :: l' =>
      match l' with
      | [] => [a]
      | b :: _ => if bool_decide (a = b) then dedup l' else a :: dedup l'
      end
  end.

(** The order of [delta.sort_by]. *)
Definition delta_le (a b : EffectiveAccessDelta) : bool :=
  let p := arr (ead_principal_id a) in let q := arr (ead_principal_id b) in
  blob_ltb p q
  || (blob_eqb p q && blob_leb (bstr (action_as_str (ead_action a))) (bstr (action_as_str (ead_action b)))).

Section Authorization.
Context {CR : Crypto} (self : InitializedVault).

(** ** Commitments *)

(** [commit] *)
Definition commit (canonical : blob) : result AuthorizationError (array 32) :=
  map_err (fun _ => AzIntegrity) (state_commitment (iv_audit_key self) canonical).

(** The digest of an envelope in [policy_commitment]. *)
Definition envelope_digest (e : EncryptedRecord) : array 32 :=
  sha256 (arr (er_nonce e) ++ er_ciphertext e ++ arr (er_dek_nonce e) ++ arr (er_wrapped_dek e)
          ++ u32_be (er_kek_version e)).

(** [policy_commitment] *)
Definition policy_commitment (policy_id : PolicyId) (revision : Z) (state : string)
    (metadata_version : Z) (metadata : EncryptedRecord) (created_at updated_at : Z)
  : result AuthorizationError (array 32) :=
  commit (canonical_text
    [bstr "policy"; uuid_text policy_id; dec revision; bstr state; dec metadata_version;
     hex_encode (arr (envelope_digest metadata)); dec created_at; dec updated_at]).

(** [grant_commitment] *)
Definition grant_commitment (grant_id : GrantId) (spec : GrantSpec) (actor : PrincipalId)
    (created_at : Z) : result AuthorizationError (array 32) :=
  commit (canonical_text
    [bstr "grant"; uuid_text grant_id; uuid_text (gs_policy_id spec);
     bstr (action_as_str (gs_action spec)); bstr (resource_kind_as_str (gs_resource_kind spec));
     uuid_text (gs_resource_id spec); dec (if gs_include_descendants spec then 1 else 0);
     uuid_text actor; dec created_at]).

(** [binding_commitment] *)
Definition binding_commitment (principal_id : PrincipalId) (policy_id : PolicyId)
    (actor : PrincipalId) (created_at : Z) : result AuthorizationError (array 32) :=
  commit (canonical_text
    [bstr "binding"; uuid_text principal_id; uuid_text policy_id; uuid_text actor; dec created_at]).

Definition GRAPH_EMPTY : blob :=
  canonical_text [bstr "authorization-graph"; bstr "v1"; bstr "revision"; bstr "1"; bstr "empty"].

(** [graph_commitment] *)
Definition graph_commitment (s : AuthorizationSnapshot) (revision : Z)
    (exclude : option (byte * blob)) (extra : option blob) : result AuthorizationError (array 32) :=
  let items := graph_items s exclude extra in
  if Nat.eqb (length items) 0 && (revision =? 1) then commit GRAPH_EMPTY
  else
    let? hashed := graph_bytes (order_by blob_leb items) in
    commit (canonical_text
      [bstr "authorization-graph"; bstr "v1"; bstr "revision"; dec revision;
       hex_encode (arr (sha256 hashed))]).

Definition grant_spec (g : PolicyGrantRecord) : GrantSpec :=
  {| gs_policy_id := pg_policy_id g; gs_action := pg_action g;
     gs_resource_kind := pg_resource_kind g; gs_resource_id := pg_resource_id g;
     gs_include_descendants := pg_include_descendants g |}.

(** The three loops of [verified_authorization_snapshot]. *)
Definition verify_policy (p : PolicyRecord) : result AuthorizationError unit :=
  let? c := policy_commitment (po_policy_id p) (po_revision p) (po_state p) (po_metadata_version p)
              (po_metadata p) (po_created_at_unix_ms p) (po_updated_at_unix_ms p) in
  if negb (bool_decide (c = po_state_commitment p)) then Err AzIntegrity else Ok tt.
Definition verify_grant (g : PolicyGrantRecord) : result AuthorizationError unit :=
  if negb (is_valid_for_service (grant_spec g)) then Err AzIntegrity
  else
    let? c := grant_commitment (pg_grant_id g) (grant_spec g) (pg_created_by_principal_id g)
                (pg_created_at_unix_ms g) in
    if negb (bool_decide (c = pg_state_commitment g)) then Err AzIntegrity else Ok tt.
Definition verify_binding (b : PolicyBindingRecord) : result AuthorizationError unit :=
  let? c := binding_commitment (pb_principal_id b) (pb_policy_id b) (pb_created_by_principal_id b)
              (pb_created_at_unix_ms b) in
  if negb (bool_decide (c = pb_state_commitment b)) then Err AzIntegrity else Ok tt.

(** The checks of [verified_authorization_snapshot]. *)
Definition verify_snapshot (s : AuthorizationSnapshot) : result AuthorizationError unit :=
  if MAX_AUTHORIZATION_RECORDS
     <? zlen (snap_policies s) + zlen (snap_grants s) + zlen (snap_bindings s)
  then Err AzUnavailable
  else
    let? _ := result_forM verify_policy (snap_policies s) in
    let? _ := result_forM verify_grant (snap_grants s) in
    let? _ := result_forM verify_binding (snap_bindings s) in
    let? c := graph_commitment s (as_revision (snap_state s)) None None in
    if negb (bool_decide (c = as_state_commitment (snap_state s))) then Err AzIntegrity else Ok tt.

(** [verified_authorization_snapshot] *)
Definition verified_authorization_snapshot : Authz AuthorizationSnapshot :=
  do! s := az_ask authorization_snapshot in
  do! _ := prog_lift (verify_snapshot s) in
  prog_ret s.

(** ** Decisions *)

(** [resource_namespace_ancestors] *)
Definition resource_namespace_ancestors (kind : ResourceKind) (resource_id : ObjectId)
  : Authz (list NamespaceId) :=
  do! namespace_id := match kind with
    | KNamespace => prog_ret resource_id
    | KSecret =>
        do! s := ask_or_deny (fun d => secret d resource_id) in
        do! _ := prog_lift (map_err (fun _ => AzIntegrity) (verify_secret_state self s)) in
        prog_ret (sr_namespace_id s)
    end in
  do! above := ask_or_deny (fun d => namespace_ancestors_inclusive d namespace_id) in
  do! _ := prog_mapM (fun a =>
    do! n := ask_or_deny (fun d => namespace d a) in
    prog_lift (map_err (fun _ => AzIntegrity) (verify_namespace_state self n))) above in
  prog_ret above.

Definition policy_active (s : AuthorizationSnapshot) (policy_id : PolicyId) : bool :=
  existsb (fun p => bool_decide (po_policy_id p = policy_id) && bool_decide (po_state p = "active"))
    (snap_policies s).

(** A grant that reaches a resource below [above]. *)
Definition grant_covers (above : list NamespaceId) (kind : ResourceKind) (resource_id : ObjectId)
    (g : PolicyGrantRecord) : bool :=
  (bool_decide (pg_resource_kind g = kind) && bool_decide (pg_resource_id g = resource_id))
  || (bool_decide (pg_resource_kind g = KNamespace)
      && existsb (fun a => bool_decide (pg_resource_id g = a)
           && (pg_include_descendants g
               || (bool_decide (kind = KNamespace) && bool_decide (resource_id = a)))) above).

(** [service_is_allowed] *)
Definition service_is_allowed (principal_id : PrincipalId) (action : Action) (kind : ResourceKind)
    (resource_id : ObjectId) : Authz bool :=
  do! s := verified_authorization_snapshot in
  let active_policies := filter (fun policy => policy_active s policy = true)
    (pb_policy_id <$> filter (fun b => pb_principal_id b = principal_id) (snap_bindings s)) in
  do! above := resource_namespace_ancestors kind resource_id in
  prog_ret (existsb (fun g => bool_decide (pg_action g = action)
                              && bool_decide (pg_policy_id g ∈ active_policies)
                              && grant_covers above kind resource_id g) (snap_grants s)).

(** [authorize]: the decision is audited before it is returned. *)
Definition authorize (p : RequestPrincipal) (action : Action) (kind : ResourceKind)
    (resource_id : ObjectId) (request_id : RequestId) (now : Z) : Authz unit :=
  do! decision := match p with
    | RequestOwner owner =>
        prog_ret (if negb (is_valid_at owner now) then Err Denied
                  else if action_requires_recent action && negb (is_recent_at owner now)
                  then Err RecentAuthenticationRequired else Ok tt)
    | RequestService service =>
        if is_service_grantable action then
          do! allowed := prog_try (service_is_allowed (asv_principal_id service) action kind resource_id) in
          match allowed with
          | Ok true => prog_ret (Ok tt)
          | Ok false | Err Denied => prog_ret (Err Denied)
          | Err e => prog_fail e
          end
        else prog_ret (Err Denied)
    end in
  do! audit := prog_map_err (fun _ => AzUnavailable)
    (build_audit_outcome self (action_as_str action) (resource_kind_as_str kind) (Some resource_id)
       (if is_ok decision then "allowed" else "denied") (operation p request_id now)) in
  do! _ := az_call (append_audit audit) in
  prog_lift decision.

(** [verify_grant_target] *)
Definition verify_grant_target (kind : ResourceKind) (resource_id : ObjectId) : Authz unit :=
  match kind with
  | KNamespace =>
      do! r := ask_or_deny (fun d => namespace d resource_id) in
      prog_lift (map_err (fun _ => AzIntegrity) (verify_namespace_state self r))
  | KSecret =>
      do! r := ask_or_deny (fun d => secret d resource_id) in
      prog_lift (map_err (fun _ => AzIntegrity) (verify_secret_state self r))
  end.

(** [verify_owner_context_active(..).map_err(|_| AuthorizationError::Denied)] *)
Definition require_owner_context (owner : AuthenticatedOwner) (now : Z) : Authz unit :=
  prog_map_err (fun _ => Denied) (verify_owner_context_active self owner now).

Definition az_audit (action target_kind : string) (target_id : option ObjectId)
    (op : OperationContext) : Authz AuditRecord :=
  prog_map_err (fun _ => AzUnavailable) (build_audit self action target_kind target_id op).

(** ** Policy management *)

(** The checks every policy mutation starts with. *)
Definition begin_policy_change (owner : AuthenticatedOwner) (request_id : RequestId) (now : Z)
  : Authz unit :=
  do! _ := require_owner_context owner now in
  do! _ := prog_lift (require_recent owner now) in
  authorize (RequestOwner owner) PolicyManage KNamespace (iv_vault_id self) request_id now.

(** [InitializedVault::create_policy] *)
Definition vault_create_policy (owner : AuthenticatedOwner) (label : rstring)
    (request_id : RequestId) (now : Z) : Authz PolicyId :=
  do! _ := begin_policy_change owner request_id now in
  do! _ := prog_reject ((rs_len label =? 0) || (MAX_POLICY_LABEL_BYTES <? rs_len label)) AzInvalidInput in
  do! s := verified_authorization_snapshot in
  do! policy_id := az_random_id in
  do! encrypted := prog_map_err (fun _ => AzUnavailable)
    (encrypt_record self (encode_policy_label label) OPolicyMetadata OWrappedPolicyMetadataKey policy_id 1) in
  do! commitment := prog_lift (policy_commitment policy_id 1 "active" 1 encrypted now now) in
  do! next_revision := prog_lift (ok_or AzUnavailable (checked_add u64_max (as_revision (snap_state s)) 1)) in
  do! graph := prog_lift (graph_commitment s next_revision None
    (Some (graph_item tag_P (arr policy_id) commitment))) in
  do! audit := az_audit "policy:create" "policy" (Some policy_id)
                 (operation (RequestOwner owner) request_id now) in
  do! _ := az_call (create_policy
    {| pi_policy_id := policy_id; pi_metadata := encrypted; pi_state_commitment := commitment;
       pi_created_at_unix_ms := now |} (as_revision (snap_state s)) graph audit) in
  prog_ret policy_id.

(** [InitializedVault::archive_policy] *)
Definition vault_archive_policy (owner : AuthenticatedOwner) (policy_id : PolicyId)
    (expected_policy_revision : Z) (request_id : RequestId) (now : Z) : Authz Z :=
  do! _ := begin_policy_change owner request_id now in
  do! s := verified_authorization_snapshot in
  do! p := prog_lift (ok_or Denied
    (List.find (fun p => bool_decide (po_policy_id p = policy_id)) (snap_policies s))) in
  do! _ := prog_reject (negb (po_revision p =? expected_policy_revision)
                        || negb (bool_decide (po_state p = "active"))) Denied in
  do! next_policy_revision := prog_lift (ok_or AzUnavailable (checked_add u64_max expected_policy_revision 1)) in
  do! commitment := prog_lift (policy_commitment policy_id next_policy_revision "archived"
    (po_metadata_version p) (po_metadata p) (po_created_at_unix_ms p) now) in
  do! next_revision := prog_lift (ok_or AzUnavailable (checked_add u64_max (as_revision (snap_state s)) 1)) in
  do! graph := prog_lift (graph_commitment s next_revision (Some (tag_P, arr policy_id))
    (Some (graph_item tag_P (arr policy_id) commitment))) in
  do! audit := az_audit "policy:archive" "policy" (Some policy_id)
                 (operation (RequestOwner owner) request_id now) in
  do! _ := az_call (archive_policy policy_id expected_policy_revision commitment now
                      (as_revision (snap_state s)) graph audit) in
  prog_ret next_policy_revision.

(** [InitializedVault::add_policy_grant] *)
Definition vault_add_policy_grant (owner : AuthenticatedOwner) (spec : GrantSpec)
    (request_id : RequestId) (now : Z) : Authz GrantId :=
  do! _ := begin_policy_change owner request_id now in
  do! _ := prog_reject (negb (is_valid_for_service spec)) AzInvalidInput in
  do! _ := verify_grant_target (gs_resource_kind spec) (gs_resource_id spec) in
  do! s := verified_authorization_snapshot in
  do! _ := prog_reject (negb (policy_active s (gs_policy_id spec))) Denied in
  do! grant_id := az_random_id in
  do! commitment := prog_lift (grant_commitment grant_id spec (ao_principal_id owner) now) in
  do! next_revision := prog_lift (ok_or AzUnavailable (checked_add u64_max (as_revision (snap_state s)) 1)) in
  do! graph := prog_lift (graph_commitment s next_revision None
    (Some (graph_item tag_G (arr grant_id) commitment))) in
  do! audit := az_audit "policy:grant-add" "policy" (Some (gs_policy_id spec))
                 (operation (RequestOwner owner) request_id now) in
  do! _ := az_call (add_policy_grant
    {| pg_grant_id := grant_id; pg_policy_id := gs_policy_id spec; pg_action := gs_action spec;
       pg_resource_kind := gs_resource_kind spec; pg_resource_id := gs_resource_id spec;
       pg_include_descendants := gs_include_descendants spec;
       pg_created_by_principal_id := ao_principal_id owner; pg_created_at_unix_ms := now;
       pg_state_commitment := commitment |} (as_revision (snap_state s)) graph audit) in
  prog_ret grant_id.

(** The service a policy is bound to or examined for. *)
Definition require_active_service (principal_id : PrincipalId) : Authz unit :=
  do! p := az_ask (fun d => principal d principal_id) in
  do! _ := prog_lift (map_err (fun _ => AzIntegrity) (verify_principal_commitment self p)) in
  prog_reject (negb (bool_decide (pc_kind p = Service)) || negb (bool_decide (pc_state p = "active"))) Denied.

(** [bind_policy_to_service] *)
Definition bind_policy_to_service (owner : AuthenticatedOwner) (service_principal_id : PrincipalId)
    (policy_id : PolicyId) (request_id : RequestId) (now : Z) : Authz unit :=
  do! _ := begin_policy_change owner request_id now in
  do! _ := require_active_service service_principal_id in
  do! s := verified_authorization_snapshot in
  do! _ := prog_reject (negb (policy_active s policy_id)) Denied in
  do! commitment := prog_lift (binding_commitment service_principal_id policy_id (ao_principal_id owner) now) in
  do! next_revision := prog_lift (ok_or AzUnavailable (checked_add u64_max (as_revision (snap_state s)) 1)) in
  do! graph := prog_lift (graph_commitment s next_revision None
    (Some (graph_item tag_B (binding_key service_principal_id policy_id) commitment))) in
  do! audit := az_audit "policy:bind" "principal" (Some service_principal_id)
                 (operation (RequestOwner owner) request_id now) in
  do! _ := az_call (bind_policy
    {| pb_principal_id := service_principal_id; pb_policy_id := policy_id;
       pb_created_by_principal_id := ao_principal_id owner; pb_created_at_unix_ms := now;
       pb_state_commitment := commitment |} (as_revision (snap_state s)) graph audit) in
  prog_ret tt.

(** The checks every policy query starts with. *)
Definition begin_policy_read (owner : AuthenticatedOwner) (action : Action) (request_id : RequestId)
    (now : Z) : Authz unit :=
  do! _ := require_owner_context owner now in
  authorize (RequestOwner owner) action KNamespace (iv_vault_id self) request_id now.

(** The policy with its decrypted label. *)
Definition policy_details (p : PolicyRecord) : Authz PolicyDetails :=
  do! plaintext := prog_map_err (fun _ => AzIntegrity)
    (decrypt_with self (po_metadata p) OPolicyMetadata OWrappedPolicyMetadataKey (po_policy_id p)
       (po_metadata_version p)) in
  do! label := prog_lift (decode_policy_label plaintext) in
  prog_ret {| pd_policy_id := po_policy_id p; pd_label := label; pd_state := po_state p;
              pd_revision := po_revision p |}.

(** [read_policy] *)
Definition read_policy (owner : AuthenticatedOwner) (policy_id : PolicyId) (request_id : RequestId)
    (now : Z) : Authz PolicyDetails :=
  do! _ := begin_policy_read owner PolicyRead request_id now in
  do! s := verified_authorization_snapshot in
  do! p := prog_lift (ok_or Denied
    (List.find (fun p => bool_decide (po_policy_id p = policy_id)) (snap_policies s))) in
  policy_details p.

(** [policies] *)
Definition policies (owner : AuthenticatedOwner) (after : option PolicyId) (lim : Z)
    (request_id : RequestId) (now : Z) : Authz (list PolicyDetails) :=
  do! _ := prog_reject (negb (between 1 100 lim)) AzInvalidInput in
  do! _ := begin_policy_read owner PolicyRead request_id now in
  do! s := verified_authorization_snapshot in
  prog_mapM policy_details
    (take (Z.to_nat lim) (filter (fun p => is_none_or after (fun a =>
       blob_ltb (arr a) (arr (po_policy_id p))) = true) (snap_policies s))).

(** [policy_rules] *)
Definition policy_rules (owner : AuthenticatedOwner) (policy_id : PolicyId) (request_id : RequestId)
    (now : Z) : Authz PolicyRuleSet :=
  do! _ := begin_policy_read owner PolicyRead request_id now in
  do! s := verified_authorization_snapshot in
  do! _ := prog_reject (negb (existsb (fun p => bool_decide (po_policy_id p = policy_id))
                               (snap_policies s))) Denied in
  prog_ret
    {| prs_authorization_revision := as_revision (snap_state s);
       prs_grants := (fun g => {| gsm_grant_id := pg_grant_id g; gsm_action := pg_action g;
                                  gsm_resource_kind := pg_resource_kind g;
                                  gsm_resource_id := pg_resource_id g;
                                  gsm_include_descendants := pg_include_descendants g |})
                     <$> filter (fun g => pg_policy_id g = policy_id) (snap_grants s);
       prs_bindings := pb_principal_id <$> filter (fun b => pb_policy_id b = policy_id) (snap_bindings s) |}.

(** The loop of [effective_service_actions]. *)
Fixpoint effective_actions (actions : list Action) (principal_id : PrincipalId) (kind : ResourceKind)
    (resource_id : ObjectId) : Authz (list Action) :=
  match actions with
  | [] => prog_ret []
  | action :: rest =>
      do! allowed := if is_service_grantable action
                     then service_is_allowed principal_id action kind resource_id
                     else prog_ret false in
      do! more := effective_actions rest principal_id kind resource_id in
      prog_ret (if allowed : bool then action :: more else more)
  end.

(** [effective_service_actions] *)
Definition effective_service_actions (owner : AuthenticatedOwner) (service_principal_id : PrincipalId)
    (kind : ResourceKind) (resource_id : ObjectId) (request_id : RequestId) (now : Z)
  : Authz (list Action) :=
  do! _ := begin_policy_read owner EffectiveAccessRead request_id now in
  do! _ := require_active_service service_principal_id in
  effective_actions action_all service_principal_id kind resource_id.

(** ** Confirmed namespace moves *)

(** The service and action pairs collected by [preview_namespace_move_core]. *)
Definition move_delta (s : AuthorizationSnapshot) (old_above new_above : list NamespaceId)
  : list EffectiveAccessDelta :=
  flat_map (fun b =>
    if policy_active s (pb_policy_id b) then
      (fun g => {| ead_principal_id := pb_principal_id b; ead_action := pg_action g |})
      <$> filter (fun g => pg_policy_id g = pb_policy_id b /\ pg_resource_kind g = KNamespace
                           /\ pg_include_descendants g = true
                           /\ (pg_resource_id g ∉ old_above) /\ (pg_resource_id g ∈ new_above))
            (snap_grants s)
    else []) (snap_bindings s).

(** [preview_namespace_move_core] *)
Definition preview_namespace_move_core (owner : AuthenticatedOwner) (namespace_id : NamespaceId)
    (new_parent : option NamespaceId) (now : Z) : Authz (list EffectiveAccessDelta) :=
  do! _ := prog_reject (negb (is_valid_at owner now)) Denied in
  do! old_above := resource_namespace_ancestors KNamespace namespace_id in
  do! parent_above := match new_parent with
    | None => prog_ret []
    | Some parent =>
        do! above := resource_namespace_ancestors KNamespace parent in
        do! _ := prog_reject (bool_decide (namespace_id ∈ above)) AzInvalidInput in
        prog_ret above
    end in
  do! s := verified_authorization_snapshot in
  prog_ret (dedup (order_by delta_le (move_delta s old_above (namespace_id :: parent_above)))).

(** [preview_namespace_move] *)
Definition preview_namespace_move (owner : AuthenticatedOwner) (namespace_id : NamespaceId)
    (new_parent : option NamespaceId) (request_id : RequestId) (now : Z)
  : Authz (list EffectiveAccessDelta) :=
  do! _ := require_owner_context owner now in
  do! _ := authorize (RequestOwner owner) EffectiveAccessRead KNamespace namespace_id request_id now in
  preview_namespace_move_core owner namespace_id new_parent now.

(** The error mapping of [move_namespace]. *)
Definition move_error (e : VaultError) : AuthorizationError :=
  match e with
  | Integrity => AzIntegrity
  | InvalidInput => AzInvalidInput
  | NotFound | VConflict => Denied
  | Unavailable => AzUnavailable
  end.

(** [InitializedVault::move_namespace] *)
Definition vault_move_namespace (owner : AuthenticatedOwner) (namespace_id : NamespaceId)
    (expected_revision : Z) (new_parent : option NamespaceId)
    (confirmed_delta : list EffectiveAccessDelta) (request_id : RequestId) (now : Z) : Authz Z :=
  do! _ := require_owner_context owner now in
  do! actual := preview_namespace_move_core owner namespace_id new_parent now in
  do! _ := prog_reject (negb (bool_decide (actual = confirmed_delta))) AzInvalidInput in
  do! _ := if Nat.eqb (length actual) 0 then prog_ret tt else prog_lift (require_recent owner now) in
  do! _ := authorize (RequestOwner owner) NamespaceUpdate KNamespace namespace_id request_id now in
  prog_map_err move_error
    (move_namespace_core self namespace_id expected_revision new_parent
       (operation (RequestOwner owner) request_id now)).
End Authorization.
