(* ===== verification/ServiceIdentity.v ===== *)
(** src/crates/smcv-app/src/service_identity.rs: workload identities, their
    encrypted labels, and application credentials. *)
From Stdlib Require Import ZArith Lia Strings.Byte String.
From stdpp Require Import base tactics numbers option strings list gmap.
From S2P Require Import Prelude RustStd Core Crypto Format Sql Schema Records PolicyStore VaultStore IdentityStore Store Metadata VaultCore Authentication Authorization.

Definition MAX_LABEL_BYTES : Z := 128.
Definition MAX_SERVICE_DESCRIPTION_BYTES : Z := 2048.

Record ServiceIdentityMetadata : Type := {
  sm_label : rstring;
  sm_description : option rstring }.

Record IssuedApplicationCredential : Type := {
  iac_credential_id : CredentialId;
  iac_plaintext : blob;
  iac_expires_at_unix_ms : option Z }.

Record ApplicationCredentialSummary : Type := {
  acs_credential_id : CredentialId;
  acs_created_at_unix_ms : Z;
  acs_expires_at_unix_ms : option Z;
  acs_last_used_at_unix_ms : option Z;
  acs_revoked_at_unix_ms : option Z;
  acs_revision : Z }.

Record ServiceIdentitySummary : Type := {
  sis_principal_id : PrincipalId;
  sis_metadata : ServiceIdentityMetadata;
  sis_state : string;
  sis_revision : Z }.

(** [map_authorization] *)
Definition map_authorization (e : AuthorizationError) : AuthenticationError :=
  match e with
  | Denied | RecentAuthenticationRequired => Rejected
  | AzInvalidInput => AuInvalidInput
  | AzIntegrity => AuIntegrity
  | AzUnavailable => AuUnavailable
  end.

(** [append_field] *)
Definition append_field (field : blob) : result AuthenticationError blob :=
  let? length := ok_or AuInvalidInput (try_from u16_max (zlen field)) in
  Ok (u16_be length ++ field).

(** [encode_service_metadata] *)
Definition encode_service_metadata (m : ServiceIdentityMetadata) : result AuthenticationError blob :=
  let label := rs_bytes (sm_label m) in
  let description := rs_bytes <$> sm_description m in
  if (zlen label =? 0) || (MAX_LABEL_BYTES <? zlen label)
     || is_some_and description (fun d => MAX_SERVICE_DESCRIPTION_BYTES <? zlen d)
  then Err AuInvalidInput
  else
    let? label_field := append_field label in
    let? description_field := append_field (default [] description) in
    Ok (bstr "SMCVSI01" ++ label_field ++ description_field).

(** [read_field]: the field at an offset and the offset after it. *)
Definition read_field (input : blob) (offset : nat) : result AuthenticationError (blob * nat) :=
  let? length_bytes := ok_or AuIntegrity (slice input offset 2) in
  let length := Z.to_nat (be_decode length_bytes) in
  let? value := ok_or AuIntegrity (slice input (offset + 2) length) in
  Ok (value, offset + 2 + length)%nat.

(** [decode_service_metadata] *)
Definition decode_service_metadata (bytes : blob) : result AuthenticationError ServiceIdentityMetadata :=
  if negb (blob_eqb (take 8 bytes) (bstr "SMCVSI01")) then Err AuIntegrity
  else
    let? (label, offset) := read_field bytes 8 in
    let? (description, offset) := read_field bytes offset in
    if negb (Nat.eqb offset (length bytes)) || Nat.eqb (length label) 0 then Err AuIntegrity
    else
      let? label := ok_or AuIntegrity (protected_from_utf8 label) in
      let? description :=
        if Nat.eqb (length description) 0 then Ok None
        else result_map Some (ok_or AuIntegrity (protected_from_utf8 description)) in
      Ok {| sm_label := label; sm_description := description |}.

Section ServiceIdentity.
Context {CR : Crypto} (self : InitializedVault).

(** [application_credential_commitment] *)
Definition application_credential_commitment (credential_id : CredentialId) (principal_id : PrincipalId)
    (lookup_id : array 12) (verifier : array 32) (created_at : Z)
    (expires_at last_used_at revoked_at : option Z) (revision : Z)
  : result AuthenticationError (array 32) :=
  auth_commit self (canonical_text
    [bstr "application-credential"; uuid_text credential_id; uuid_text principal_id;
     hex_encode (arr lookup_id); hex_encode (arr verifier); dec created_at; debug_opt expires_at;
     debug_opt last_used_at; debug_opt revoked_at; dec revision]).

(** [verify_application_credential_commitment] *)
Definition verify_application_credential_commitment (r : ApplicationCredentialRecord)
  : result AuthenticationError unit :=
  let? expected := application_credential_commitment (cr_credential_id r) (cr_principal_id r)
      (cr_lookup_id r) (cr_verifier r) (cr_created_at_unix_ms r) (cr_expires_at_unix_ms r)
      (cr_last_used_at_unix_ms r) (cr_revoked_at_unix_ms r) (cr_revision r) in
  if negb (bool_decide (expected = cr_state_commitment r)) then Err AuIntegrity else Ok tt.

(** A credential that is revoked, used in the future, or outside its life. *)
Definition credential_unusable (r : ApplicationCredentialRecord) (now : Z) : bool :=
  bool_decide (is_Some (cr_revoked_at_unix_ms r)) || (now <? cr_created_at_unix_ms r)
  || is_some_and (cr_last_used_at_unix_ms r) (fun last_used => now <? last_used)
  || is_some_and (cr_expires_at_unix_ms r) (fun expiry => expiry <? now).

(** [verify_service_context_active] *)
Definition verify_service_context_active (service : AuthenticatedService) (now : Z) : Auth unit :=
  do! r := auth_ask (fun d => application_credential d (asv_credential_id service)) in
  do! _ := prog_lift (verify_application_credential_commitment r) in
  do! _ := prog_reject (negb (bool_decide (cr_principal_id r = asv_principal_id service))
                        || credential_unusable r now) Rejected in
  do! p := auth_ask (fun d => principal d (cr_principal_id r)) in
  do! _ := prog_lift (verify_principal_commitment self p) in
  prog_reject (negb (bool_decide (pc_state p = "active"))) Rejected.

(** [authorize(.., self.vault_id, ..).map_err(map_authorization)] *)
Definition owner_authorize (owner : AuthenticatedOwner) (action : Action) (request_id : RequestId)
    (now : Z) : Auth unit :=
  prog_map_err map_authorization
    (authorize self (RequestOwner owner) action KNamespace (iv_vault_id self) request_id now).

(** [known_application_credential_lookup] *)
Definition known_application_credential_lookup (presented : blob)
  : Prog World AuthenticationError (option (array 12)) :=
  match token_lookup_id presented with
  | None => prog_ret None
  | Some lookup =>
      do! found := prog_try (auth_ask (fun d => application_credential_by_lookup d lookup)) in
      prog_ret match found with Ok (Some _) => Some lookup | _ => None end
  end.

(** [InitializedVault::create_service_identity] *)
Definition vault_create_service_identity (owner : AuthenticatedOwner) (metadata : ServiceIdentityMetadata)
    (request_id : RequestId) (now : Z) : Auth PrincipalId :=
  do! _ := verify_owner_context_active self owner now in
  do! _ := prog_reject (negb (is_recent_at owner now)) Rejected in
  do! _ := owner_authorize owner IdentityManage request_id now in
  do! plaintext := prog_lift (encode_service_metadata metadata) in
  do! principal_id := auth_random_id in
  do! encrypted := prog_map_err (fun _ => AuUnavailable)
    (encrypt_record self plaintext OServiceIdentityMetadata OWrappedServiceIdentityMetadataKey principal_id 1) in
  do! commitment := prog_lift (principal_commitment self principal_id "service" "active" 1) in
  do! audit := auth_audit self "identity:create" "principal" (Some principal_id)
                 (session_operation (ao_principal_id owner) (ao_session_id owner) request_id now) in
  do! _ := auth_call (create_service_identity
    {| sii_principal_id := principal_id; sii_principal_state_commitment := commitment;
       sii_metadata := encrypted; sii_created_at_unix_ms := now |} audit) in
  prog_ret principal_id.

(** The label and description of a stored identity. *)
Definition open_service_metadata (r : ServiceIdentityRecord) (principal_id : PrincipalId)
  : Auth ServiceIdentityMetadata :=
  do! _ := prog_lift (verify_principal_commitment self (sid_principal r)) in
  do! plaintext := prog_map_err (fun _ => AuIntegrity)
    (decrypt_with self (sid_metadata r) OServiceIdentityMetadata OWrappedServiceIdentityMetadataKey
       principal_id (sid_metadata_version r)) in
  prog_lift (decode_service_metadata plaintext).

(** [read_service_identity_metadata] *)
Definition read_service_identity_metadata (owner : AuthenticatedOwner) (principal_id : PrincipalId)
    (request_id : RequestId) (now : Z) : Auth ServiceIdentityMetadata :=
  do! _ := verify_owner_context_active self owner now in
  do! _ := owner_authorize owner IdentityRead request_id now in
  do! r := auth_ask (fun d => service_identity d principal_id) in
  open_service_metadata r principal_id.

(** [service_identities] *)
Definition service_identities (owner : AuthenticatedOwner) (after : option PrincipalId) (lim : Z)
    (request_id : RequestId) (now : Z) : Auth (list ServiceIdentitySummary) :=
  do! _ := prog_reject (negb (between 1 100 lim)) AuInvalidInput in
  do! _ := verify_owner_context_active self owner now in
  do! _ := owner_authorize owner IdentityRead request_id now in
  do! records := auth_ask (fun d => service_identities_after d after lim) in
  prog_mapM (fun r =>
    do! metadata := open_service_metadata r (pc_principal_id (sid_principal r)) in
    prog_ret {| sis_principal_id := pc_principal_id (sid_principal r); sis_metadata := metadata;
                sis_state := pc_state (sid_principal r);
                sis_revision := pc_revision (sid_principal r) |}) records.

(** [issue_application_credential] *)
Definition issue_application_credential (owner : AuthenticatedOwner) (service_principal_id : PrincipalId)
    (expires_at : option Z) (request_id : RequestId) (now : Z) : Auth IssuedApplicationCredential :=
  do! _ := verify_owner_context_active self owner now in
  do! _ := prog_reject (negb (is_recent_at owner now)
                        || is_some_and expires_at (fun expiry => expiry <=? now)) Rejected in
  do! _ := owner_authorize owner CredentialIssue request_id now in
  do! p := auth_ask (fun d => principal d service_principal_id) in
  do! _ := prog_lift (verify_principal_commitment self p) in
  do! _ := prog_reject (negb (bool_decide (pc_kind p = Service))
                        || negb (bool_decide (pc_state p = "active"))) Rejected in
  do! issued := prog_map_err (fun _ => AuUnavailable) (randomly (issue_token (iv_token_verifier_key self))) in
  do! lookup := prog_lift (ok_or AuIntegrity (bytes ← b64_decode (it_lookup_id issued); try_array 12 bytes)) in
  do! credential_id := auth_random_id in
  do! commitment := prog_lift (application_credential_commitment credential_id service_principal_id
    lookup (it_verifier issued) now expires_at None None 1) in
  do! audit := auth_audit self "credential:issue" "credential" (Some credential_id)
                 (session_operation (ao_principal_id owner) (ao_session_id owner) request_id now) in
  do! _ := auth_call (create_application_credential
    {| ci_credential_id := credential_id; ci_principal_id := service_principal_id;
       ci_lookup_id := lookup; ci_verifier := it_verifier issued; ci_created_at_unix_ms := now;
       ci_expires_at_unix_ms := expires_at; ci_state_commitment := commitment |} audit) in
  prog_ret {| iac_credential_id := credential_id; iac_plaintext := it_plaintext issued;
              iac_expires_at_unix_ms := expires_at |}.

(** The closure of [application_credentials] that turns the cursor into a key. *)
Definition credential_cursor (service_principal_id : PrincipalId) (credential_id : CredentialId) (d : Db)
  : result StorageError (Z * CredentialId) :=
  let? r := application_credential d credential_id in
  if negb (bool_decide (cr_principal_id r = service_principal_id)) then Err NotInitialized
  else
    let? _ := map_err (fun _ => InvalidData) (verify_application_credential_commitment r) in
    Ok (cr_created_at_unix_ms r, credential_id).

(** [application_credentials] *)
Definition application_credentials (owner : AuthenticatedOwner) (service_principal_id : PrincipalId)
    (after : option CredentialId) (lim : Z) (request_id : RequestId) (now : Z)
  : Auth (list ApplicationCredentialSummary) :=
  do! _ := prog_reject (negb (between 1 100 lim)) AuInvalidInput in
  do! _ := verify_owner_context_active self owner now in
  do! _ := owner_authorize owner IdentityRead request_id now in
  do! cursor := match after with
    | None => prog_ret None
    | Some id => do! c := auth_ask (credential_cursor service_principal_id id) in prog_ret (Some c)
    end in
  do! records := auth_ask (fun d => application_credentials_after d service_principal_id cursor lim) in
  prog_mapM (fun r =>
    do! _ := prog_lift (verify_application_credential_commitment r) in
    prog_ret {| acs_credential_id := cr_credential_id r; acs_created_at_unix_ms := cr_created_at_unix_ms r;
                acs_expires_at_unix_ms := cr_expires_at_unix_ms r;
                acs_last_used_at_unix_ms := cr_last_used_at_unix_ms r;
                acs_revoked_at_unix_ms := cr_revoked_at_unix_ms r;
                acs_revision := cr_revision r |}) records.

(** [audit_application_credential_denial] *)
Definition audit_application_credential_denial (r : ApplicationCredentialRecord) (request_id : RequestId)
    (now : Z) : Auth unit :=
  do! audit := prog_map_err (fun _ => AuUnavailable)
    (build_audit_outcome self "credential:authenticate" "credential" (Some (cr_credential_id r)) "denied"
       {| oc_request_id := request_id; oc_actor_principal_id := None;
          oc_credential_kind := Some "application"; oc_credential_id := Some (cr_credential_id r);
          oc_now_unix_ms := now |}) in
  auth_call (append_audit audit).

(** [authenticate_application_credential] *)
Definition authenticate_application_credential (presented : blob) (request_id : RequestId) (now : Z)
  : Auth AuthenticatedService :=
  do! lookup := prog_lift (ok_or Rejected (token_lookup_id presented)) in
  do! candidate := auth_ask (fun d => application_credential_by_lookup d lookup) in
  do! matches := prog_lift (map_err (fun _ => AuUnavailable)
    (verify_token (iv_token_verifier_key self) presented (b64_encode (arr lookup))
       (from_option cr_verifier (zeros 32) candidate))) in
  do! r := prog_lift (ok_or Rejected candidate) in
  do! _ := prog_lift (verify_application_credential_commitment r) in
  if negb matches || credential_unusable r now then
    do! _ := audit_application_credential_denial r request_id now in
    prog_fail Rejected
  else
    do! p := auth_ask (fun d => principal d (cr_principal_id r)) in
    do! _ := prog_lift (verify_principal_commitment self p) in
    if negb (bool_decide (pc_state p = "active")) || negb (bool_decide (pc_kind p = Service)) then
      do! _ := audit_application_credential_denial r request_id now in
      prog_fail Rejected
    else
      do! next_revision := prog_lift (ok_or Rejected (checked_add u64_max (cr_revision r) 1)) in
      do! commitment := prog_lift (application_credential_commitment (cr_credential_id r)
        (cr_principal_id r) (cr_lookup_id r) (cr_verifier r) (cr_created_at_unix_ms r)
        (cr_expires_at_unix_ms r) (Some now) None next_revision) in
      do! _ := call_raw (mark_application_credential_used (cr_credential_id r) (cr_revision r) now commitment)
                 (map_err (fun _ => Rejected)) in
      prog_ret {| asv_principal_id := cr_principal_id r; asv_credential_id := cr_credential_id r |}.

(** [InitializedVault::revoke_application_credential] *)
Definition vault_revoke_application_credential (owner : AuthenticatedOwner)
    (service_principal_id : PrincipalId) (credential_id : CredentialId) (expected_revision : Z)
    (request_id : RequestId) (now : Z) : Auth Z :=
  do! _ := verify_owner_context_active self owner now in
  do! _ := prog_reject (negb (is_recent_at owner now)) Rejected in
  do! _ := owner_authorize owner CredentialRevoke request_id now in
  do! r := auth_ask (fun d => application_credential d credential_id) in
  do! _ := prog_lift (verify_application_credential_commitment r) in
  do! _ := prog_reject (negb (bool_decide (cr_principal_id r = service_principal_id))
                        || negb (cr_revision r =? expected_revision)
                        || bool_decide (is_Some (cr_revoked_at_unix_ms r))) Rejected in
  do! next_revision := prog_lift (ok_or Rejected (checked_add u64_max expected_revision 1)) in
  do! commitment := prog_lift (application_credential_commitment (cr_credential_id r)
    (cr_principal_id r) (cr_lookup_id r) (cr_verifier r) (cr_created_at_unix_ms r)
    (cr_expires_at_unix_ms r) (cr_last_used_at_unix_ms r) (Some now) next_revision) in
  do! audit := auth_audit self "credential:revoke" "credential" (Some credential_id)
                 (session_operation (ao_principal_id owner) (ao_session_id owner) request_id now) in
  auth_call (revoke_application_credential credential_id expected_revision now commitment audit).
End ServiceIdentity.
