(* ===== verification/AuthorizedVault.v ===== *)
(** src/crates/smcv-app/src/authorized_vault.rs: the facade through which every
    request reaches the vault. Each operation makes the central authorization
    decision and only then runs the vault operation. *)
From Stdlib Require Import ZArith Lia Strings.Byte String.
From stdpp Require Import base tactics numbers option strings list gmap.
From S2P Require Import Prelude RustStd Core Crypto Format Sql Schema Records PolicyStore VaultStore IdentityStore Store Metadata VaultCore Authentication Authorization ServiceIdentity.

Inductive AuthorizedVaultError : Type :=
| AuthorizationFailed (e : AuthorizationError)
| VaultFailed (e : VaultError).

(** The request a facade was made for. *)
Record AuthorizedVault : Type := {
  av_principal : RequestPrincipal;
  av_request_id : RequestId;
  av_now_unix_ms : Z }.

Record IdempotencyInput : Type := {
  idi_key : blob;
  idi_canonical_request : blob }.

Abbreviation Facade A := (Prog World AuthorizedVaultError A).

Section Facade.
Context {CR : Crypto} (vault : InitializedVault).

(** [InitializedVault::authorized] *)
Definition authorized (p : RequestPrincipal) (request_id : RequestId) (now : Z)
  : Authz AuthorizedVault :=
  do! _ := prog_map_err (fun _ => Denied) (match p with
    | RequestOwner owner => verify_owner_context_active vault owner now
    | RequestService service => verify_service_context_active vault service now
    end) in
  prog_ret {| av_principal := p; av_request_id := request_id; av_now_unix_ms := now |}.

Context (self : AuthorizedVault).

(** [AuthorizedVault::operation] *)
Definition facade_operation : OperationContext :=
  operation (av_principal self) (av_request_id self) (av_now_unix_ms self).

(** [AuthorizedVault::authorize] *)
Definition facade_authorize (action : Action) (kind : ResourceKind) (resource_id : ObjectId) : Facade unit :=
  prog_map_err AuthorizationFailed
    (authorize vault (av_principal self) action kind resource_id (av_request_id self) (av_now_unix_ms self)).
(** [AuthorizedVault::authorize_secret] *)
Definition authorize_secret (action : Action) (secret_id : SecretId) : Facade unit :=
  facade_authorize action KSecret secret_id.

Definition then_vault {A} (m : Vault A) : Facade A := prog_map_err VaultFailed m.

Definition namespace_target (parent : option NamespaceId) : ObjectId :=
  default (iv_vault_id vault) parent.

(** [AuthorizedVault::reserve_idempotency] *)
Definition facade_reserve (input : IdempotencyInput) (response_kind : string)
  : Facade IdempotencyReservation :=
  do! verifiers := prog_lift (map_err (fun _ => VaultFailed InvalidInput)
    (idempotency_verifiers (iv_token_verifier_key vault) (idi_key input) (idi_canonical_request input))) in
  do! expires_at := prog_lift (ok_or (VaultFailed InvalidInput)
    (i64_checked_add (av_now_unix_ms self) (24 * 60 * 60 * 1000))) in
  do! proposed := prog_map_err VaultFailed random_id in
  call_raw (reserve_idempotency (request_principal_id (av_principal self)) verifiers.1 verifiers.2
              response_kind proposed (av_now_unix_ms self) expires_at)
    (map_err (fun e => VaultFailed match e with
                                   | Conflict => VConflict
                                   | InvalidData => Integrity
                                   | _ => Unavailable
                                   end)).

(** [self.vault.store.op(..).is_ok()] *)
Definition is_stored {A} (f : Db -> result StorageError A) : Facade bool :=
  call_raw (prog_read f) (fun r => Ok (is_ok r)).

(** ** Namespaces *)

Definition facade_list_namespaces (parent after : option NamespaceId) (lim : Z)
  : Facade (list NamespaceListItem) :=
  do! _ := facade_authorize NamespaceList KNamespace (namespace_target parent) in
  then_vault (list_namespaces vault parent after lim).

Definition facade_create_namespace (parent : option NamespaceId) (metadata : Metadata)
  : Facade NamespaceId :=
  do! _ := facade_authorize NamespaceCreate KNamespace (namespace_target parent) in
  then_vault (vault_create_namespace vault parent metadata facade_operation).

(** [create_namespace_idempotent] *)
Definition create_namespace_idempotent (parent : option NamespaceId) (metadata : Metadata)
    (idempotency : IdempotencyInput) : Facade NamespaceId :=
  do! _ := facade_authorize NamespaceCreate KNamespace (namespace_target parent) in
  do! reserved := facade_reserve idempotency "namespace" in
  let namespace_id := rsv_response_id reserved in
  do! done := if rsv_reused reserved then is_stored (fun d => namespace d namespace_id) else prog_ret false in
  if done : bool then prog_ret namespace_id
  else
    do! created := prog_try (create_namespace_with_id vault namespace_id parent metadata facade_operation) in
    match created with
    | Ok id => prog_ret id
    | Err VConflict =>
        do! done := if rsv_reused reserved then is_stored (fun d => namespace d namespace_id)
                    else prog_ret false in
        if done : bool then prog_ret namespace_id else prog_fail (VaultFailed VConflict)
    | Err e => prog_fail (VaultFailed e)
    end.

(** ** Secrets *)

Definition facade_list_secrets (namespace_id : NamespaceId) (after : option SecretId) (lim : Z)
  : Facade (list SecretListItem) :=
  do! _ := facade_authorize SecretList KNamespace namespace_id in
  then_vault (list_secrets vault namespace_id after lim).

Definition facade_list_secrets_in_lifecycle (namespace_id : NamespaceId) (lifecycle_state : string)
    (after : option SecretId) (lim : Z) : Facade (list SecretListItem) :=
  do! _ := facade_authorize SecretList KNamespace namespace_id in
  do! _ := prog_reject match av_principal self with RequestOwner _ => false | RequestService _ => true end
             (AuthorizationFailed Denied) in
  then_vault (list_secrets_in_lifecycle vault namespace_id lifecycle_state after lim).

Definition facade_create_secret (namespace_id : NamespaceId) (metadata : Metadata) (value : blob)
    (schedule : SecretSchedule) : Facade SecretCreated :=
  do! _ := facade_authorize SecretCreate KNamespace namespace_id in
  then_vault (create_secret_with_schedule vault namespace_id metadata value schedule facade_operation).

(** [create_secret_idempotent] *)
Definition create_secret_idempotent (namespace_id : NamespaceId) (metadata : Metadata) (value : blob)
    (schedule : SecretSchedule) (idempotency : IdempotencyInput) : Facade SecretCreated :=
  do! _ := facade_authorize SecretCreate KNamespace namespace_id in
  do! reserved := facade_reserve idempotency "secret" in
  let secret_id := rsv_response_id reserved in
  let stored := {| scr_secret_id := secret_id; scr_version := 1; scr_revision := 1 |} in
  do! done := if rsv_reused reserved then is_stored (fun d => secret d secret_id) else prog_ret false in
  if done : bool then prog_ret stored
  else
    do! created := prog_try (create_secret_with_id_and_schedule vault secret_id namespace_id metadata
                               value schedule facade_operation) in
    match created with
    | Ok c => prog_ret c
    | Err VConflict =>
        do! done := if rsv_reused reserved then is_stored (fun d => secret d secret_id) else prog_ret false in
        if done : bool then prog_ret stored else prog_fail (VaultFailed VConflict)
    | Err e => prog_fail (VaultFailed e)
    end.

Definition facade_update_secret (secret_id : SecretId) (expected_current_version expected_revision : Z)
    (value : blob) (schedule : SecretSchedule) : Facade Z :=
  do! _ := authorize_secret SecretUpdate secret_id in
  then_vault (update_secret_with_schedule vault secret_id expected_current_version expected_revision
                value schedule facade_operation).

Definition facade_reveal_current_secret (secret_id : SecretId) : Facade blob :=
  do! _ := authorize_secret SecretValueRead secret_id in
  then_vault (reveal_current_secret vault secret_id facade_operation).

Definition facade_secret_version_history (secret_id : SecretId) (after_version lim : Z)
  : Facade (list SecretVersionRecord) :=
  do! _ := authorize_secret SecretHistoryRead secret_id in
  then_vault (secret_version_history vault secret_id after_version lim).

Definition facade_reveal_secret_version (secret_id : SecretId) (version : Z) : Facade blob :=
  do! _ := authorize_secret SecretVersionRead secret_id in
  then_vault (reveal_secret_version vault secret_id version facade_operation).

Definition facade_read_secret_metadata (secret_id : SecretId) : Facade Metadata :=
  do! _ := authorize_secret SecretMetadataRead secret_id in
  then_vault (read_secret_metadata vault secret_id).

Definition facade_find_secret_by_exact_name (namespace_id : NamespaceId) (name : rstring)
  : Facade SecretId :=
  do! _ := facade_authorize SecretList KNamespace namespace_id in
  then_vault (find_secret_by_exact_name vault namespace_id name).

Definition facade_archive_secret (secret_id : SecretId) (expected_revision : Z) : Facade Z :=
  do! _ := authorize_secret SecretArchive secret_id in
  then_vault (archive_secret vault secret_id expected_revision facade_operation).

Definition facade_restore_archived_secret (secret_id : SecretId) (expected_revision : Z) : Facade Z :=
  do! _ := authorize_secret SecretRestore secret_id in
  then_vault (restore_archived_secret vault secret_id expected_revision facade_operation).

Definition facade_delete_secret (secret_id : SecretId) (expected_revision : Z) : Facade Z :=
  do! _ := authorize_secret Core.SecretPurge secret_id in
  then_vault (delete_secret vault secret_id expected_revision facade_operation).

Definition facade_purge_secret (secret_id : SecretId) (expected_revision retention_cutoff : Z)
  : Facade unit :=
  do! _ := authorize_secret Core.SecretPurge secret_id in
  then_vault (purge_secret_after_owner_approval vault secret_id expected_revision
                {| opa_retention_cutoff_unix_ms := retention_cutoff |} facade_operation).

Definition facade_secrets_due (lim : Z) : Facade (list DueSecret) :=
  do! _ := facade_authorize VaultConfigure KNamespace (iv_vault_id vault) in
  then_vault (secrets_due vault (av_now_unix_ms self) lim).

(** ** Audit log and backups *)

Definition facade_verify_audit_chain : Facade AuditVerification :=
  do! _ := facade_authorize AuditRead KNamespace (iv_vault_id vault) in
  then_vault (verify_audit_chain vault).

(** [audit_events] *)
Definition audit_events (after_sequence lim : Z) : Facade (list AuditRecord) :=
  do! _ := facade_authorize AuditRead KNamespace (iv_vault_id vault) in
  call_raw (prog_read (fun d => audit_records_after d after_sequence lim))
    (map_err (fun e => VaultFailed match e with
                                   | InvalidData => Integrity
                                   | Conflict => InvalidInput
                                   | _ => Unavailable
                                   end)).

Definition authorize_backup_create : Facade unit :=
  facade_authorize BackupCreate KNamespace (iv_vault_id vault).
Definition authorize_backup_inspect : Facade unit :=
  facade_authorize BackupInspect KNamespace (iv_vault_id vault).
End Facade.
