(* ===== verification/ToyVault.v ===== *)
(** A concrete vault over the toy cryptography: the inputs on which the theorems
    about the vault are exercised. *)
From Stdlib Require Import ZArith Lia Strings.Byte String.
From stdpp Require Import base tactics numbers option strings list gmap.
From S2P Require Import Prelude RustStd Core Crypto ToyCrypto Sql Schema Records VaultStore Store Metadata VaultCore Authentication.

#[local] Existing Instance toy_crypto.

Definition toy_vault : InitializedVault :=
  {| iv_vault_id := uid 1; iv_installation_id := uid 2; iv_blind_index_key := fixed 32 3;
     iv_audit_key := fixed 32 4; iv_token_verifier_key := fixed 32 5 |}.

(** A key of the vault, wrapped. *)
Definition toy_wrapped (kind : KeyKind) (object : ObjectKind) (id : Z) (wrapping : option Z)
    (key plain : KeyMaterial) : WrappedKeyRecord :=
  {| wk_kind := kind; wk_version := 1; wk_object_id := uid id; wk_wrapping_kek_version := wrapping;
     wk_nonce := fixed 24 id;
     wk_ciphertext := default (zeros 48) (try_array 48 (default [] (toy_encrypt key (fixed 24 id)
       (encode_aad (context_of toy_vault object (uid id) 1)) (arr plain)))) |}.

Definition toy_root : KeyMaterial := fixed 32 6.
Definition toy_bootstrap : BootstrapRecord :=
  {| br_vault_id := uid 1; br_installation_id := uid 2; br_initialized_at_unix_ms := 1000;
     br_key_encryption_key := toy_wrapped KeyEncryption OWrappedKeyEncryptionKey 11 None toy_root toy_key;
     br_blind_index_key := toy_wrapped BlindIndex OBlindIndexKey 12 (Some 1) toy_key (fixed 32 3);
     br_audit_key := toy_wrapped AuditKind OAuditKey 13 (Some 1) toy_key (fixed 32 4);
     br_token_verifier_key := toy_wrapped TokenVerifier OVerifierKey 14 (Some 1) toy_key (fixed 32 5) |}.

Definition toy_ops : list StoreOp := [OpBeginInitialization toy_bootstrap false; OpActivate 1 false].

(** An activated vault with one key-encryption key, the draws far from the
    small identities used below. *)
Definition toy_world : World :=
  {| w_db := exec_all toy_ops empty_db; w_draws := 1000;
     w_ring := {| kr_active_version := 1; kr_keys := {[ 1 := toy_key ]} |};
     w_root_key := toy_root; w_schedule := [] |}.

Definition toy_op (now : Z) : OperationContext :=
  {| oc_request_id := uid 77; oc_actor_principal_id := Some (uid 78); oc_credential_kind := None;
     oc_credential_id := None; oc_now_unix_ms := now |}.

(** A text of the source, as a Rust string. *)
Definition rs (s : string) : rstring :=
  match string_from_utf8 (bstr s) with Some r => r | None => RString [] eq_refl end.

Definition toy_metadata (name : string) : Metadata :=
  {| md_name := rs name; md_description := None; md_username := Some (rs "svc"); md_tags := [rs "prod"] |}.

(** Passwords in hexadecimal: no hashing, but the documented behaviour. *)
Definition toy_phc (password : blob) : string := String.string_of_list_byte (toy_hex password).
#[export] Instance toy_passwords : PasswordHashing := {|
  phc_parse := fun _ => Some {| ph_algorithm := "argon2id"; ph_version := Some 19;
                                ph_params := Some (65536, 3, 1, Some 32); ph_has_salt := true;
                                ph_hash_length := Some 32 |};
  argon2_hash := fun _ password => Some (toy_phc password);
  argon2_verify := fun password phc => bool_decide (toy_phc password = phc) |}.
