(* ===== verification/VaultAudit.v ===== *)
(** The audit chain of the vault: what [verify_audit_chain] accepts, what a
    verified chain rules out, and that building an event extends the chain. *)
From Stdlib Require Import ZArith Lia Strings.Byte String.
From stdpp Require Import base tactics numbers option strings list sorting sets.
From S2P Require Import Prelude RustStd Core Crypto Sql Schema Records StoreInv RecordsOk VaultStore Store RecordsProps Metadata VaultCore.

(** The log that is verified: the events numbered from one, in order. *)
Definition by_sequence (a b : AuditRow) : bool := au_sequence a <=? au_sequence b.
Definition audit_rows (d : Db) : list AuditRow :=
  order_by by_sequence (select (fun r => 0 <? au_sequence r) (db_audit d)).
Definition audit_log (d : Db) : result StorageError (list AuditRecord) :=
  result_mapM parse_audit (audit_rows d).

Definition origin : Z * array 32 := (0, zeros 32).

(** The position after a list of events. *)
Fixpoint position (at_ : Z * array 32) (l : list AuditRecord) : Z * array 32 :=
  match l with [] => at_ | r :: l' => position (ar_sequence r, ar_commitment r) l' end.

Definition head_at (at_ : Z * array 32) : AuditHead :=
  {| head_sequence := at_.1; head_commitment := at_.2 |}.
Definition verification_at (at_ : Z * array 32) : AuditVerification :=
  {| av_events_verified := at_.1; av_final_sequence := at_.1; av_final_commitment := at_.2 |}.

(** An event carries its own commitment under the key of the vault. *)
Definition authentic {CR : Crypto} (self : InitializedVault) (a : AuditRecord) : Prop :=
  audit_commitment (iv_audit_key self) (audit_input a (ar_previous_commitment a)) = Ok (ar_commitment a).

(** Events that number on from a position, each naming the commitment before
    it and each carrying its own. *)
Fixpoint authentic_chain {CR : Crypto} (self : InitializedVault) (at_ : Z * array 32)
    (l : list AuditRecord) : Prop :=
  match l with
  | [] => True
  | r :: l' => ar_sequence r = at_.1 + 1 /\ ar_previous_commitment r = at_.2 /\ authentic self r
               /\ authentic_chain self (ar_sequence r, ar_commitment r) l'
  end.

(** No other connection is active. *)
Definition quiet (w : World) : Prop := w_schedule w = [].

(** * Lemmas *)

Lemma interfere_quiet w : quiet w -> interfere w = w.
Proof. unfold quiet, interfere. by intros ->. Qed.

Lemma call_quiet {A} (m : Store A) w :
  quiet w -> call m w = (map_err map_storage (fst (m (w_db w))), set_w_db (snd (m (w_db w))) w).
Proof. intros Hq. unfold call, call_raw. rewrite interfere_quiet by done. by destruct (m (w_db w)). Qed.

Lemma set_w_db_same w : set_w_db (w_db w) w = w.
Proof. by destruct w. Qed.

Lemma ask_quiet {A} (f : Db -> result StorageError A) w :
  quiet w -> ask f w = (map_err map_storage (f (w_db w)), w).
Proof. intros Hq. unfold ask. rewrite call_quiet by done. simpl. by rewrite set_w_db_same. Qed.

Lemma bind_ask {A B} (f : Db -> result StorageError A) (k : A -> Vault B) w :
  quiet w -> prog_bind (ask f) k w
             = match f (w_db w) with Ok a => k a w | Err e => (Err (map_storage e), w) end.
Proof. intros Hq. unfold prog_bind. rewrite ask_quiet by done. by destruct (f (w_db w)). Qed.

(** ** Sorted logs and pages *)

Section Pages.
Context {A : Type} (key : A -> Z).
Let lt_key (a b : A) := key a < key b.

Lemma filter_above_sorted k l1 l2 :
  StronglySorted lt_key (l1 ++ l2) ->
  Forall (fun a => key a <= k) l1 -> Forall (fun a => k < key a) l2 ->
  List.filter (fun a => k <? key a) (l1 ++ l2) = l2.
Proof.
  intros _ H1 H2. rewrite List.filter_app.
  assert (forall l, Forall (fun a => key a <= k) l -> List.filter (fun a => k <? key a) l = []) as Hl.
  { induction 1 as [|a l Ha Hl IH]; simpl; [done|]. by rewrite (proj2 (Z.ltb_ge _ _)) by done. }
  rewrite Hl by done. simpl. induction H2 as [|a l Ha Hl2 IH]; simpl; [done|].
  rewrite (proj2 (Z.ltb_lt _ _)) by done. f_equal. apply IH.
Qed.

Lemma filter_filter_above j k l :
  j <= k -> List.filter (fun a => k <? key a) (List.filter (fun a => j <? key a) l)
            = List.filter (fun a => k <? key a) l.
Proof.
  intros Hjk. induction l as [|a l IH]; simpl; [done|].
  destruct (j <? key a) eqn:E1; simpl; destruct (k <? key a) eqn:E2; rewrite ?IH; try done.
  apply Z.ltb_lt in E2. apply Z.ltb_ge in E1. lia.
Qed.
End Pages.

Lemma StronglySorted_app_inv {A} (R : A -> A -> Prop) l1 l2 :
  StronglySorted R (l1 ++ l2) ->
  StronglySorted R l1 /\ StronglySorted R l2 /\ (forall a b, a ∈ l1 -> b ∈ l2 -> R a b).
Proof.
  induction l1 as [|x l1 IH]; simpl.
  - intros H. split; [constructor|]. split; [done|]. intros a b Ha. by apply not_elem_of_nil in Ha.
  - intros H. inversion H as [|?? Hs Hf]; subst. apply IH in Hs as (? & ? & Hlt).
    rewrite Forall_app in Hf. destruct Hf as [Hf1 Hf2]. split; [by constructor|]. split; [done|].
    intros a b [->|Ha]%elem_of_cons Hb; [|auto]. rewrite Forall_forall in Hf2. auto.
Qed.

(** Sorting commutes with selecting. *)
Lemma sort_insert_filter {A} (le : A -> A -> bool) (p : A -> bool) a l :
  (forall x y z, le x y = true -> le y z = true -> le x z = true) ->
  StronglySorted (fun x y => le x y = true) l ->
  List.filter p (sort_insert le a l)
  = if p a then sort_insert le a (List.filter p l) else List.filter p l.
Proof.
  intros Htr. induction 1 as [|b l Hl IH Hb]; simpl; [done|].
  destruct (le a b) eqn:E.
  - simpl. destruct (p a) eqn:Ea; [|done]. destruct (p b) eqn:Eb; simpl; [by rewrite E|].
    assert (Forall (fun y => le a y = true) (List.filter p l)) as HF.
    { apply Forall_forall. intros y Hy. apply list_elem_of_In, filter_In in Hy as [Hy _].
      rewrite Forall_forall in Hb. apply list_elem_of_In, Hb in Hy. eauto. }
    destruct HF as [|y l' Hy _]; simpl; [done|]. by rewrite Hy.
  - simpl. rewrite IH. destruct (p a) eqn:Ea, (p b) eqn:Eb; simpl; rewrite ?E; done.
Qed.

Lemma order_by_filter {A} (le : A -> A -> bool) (p : A -> bool) l :
  (forall x y, le x y = false -> le y x = true) ->
  (forall x y z, le x y = true -> le y z = true -> le x z = true) ->
  List.filter p (order_by le l) = order_by le (List.filter p l).
Proof.
  intros Htot Htr. induction l as [|a l IH]; simpl; [done|].
  change (foldr (sort_insert le) [] l) with (order_by le l).
  rewrite sort_insert_filter; [|done|by apply order_by_sorted]. rewrite IH. by destruct (p a).
Qed.

Lemma keys_NoDup {A K} (key : A -> K) (R : A -> A -> Prop) (l : list A) :
  (forall a b, R a b -> key a <> key b) -> ForallOrdPairs R l -> NoDup (key <$> l).
Proof.
  intros HR. induction 1 as [|a l Ha Hl IH]; simpl; constructor; [|done].
  intros (b & E & Hb)%list_elem_of_fmap. rewrite Forall_forall in Ha. eapply HR; eauto.
Qed.

Lemma sorted_strict {A} (key : A -> Z) l :
  StronglySorted (fun a b => (key a <=? key b) = true) l -> NoDup (key <$> l) ->
  StronglySorted (fun a b => key a < key b) l.
Proof.
  induction 1 as [|a l Hl IH Ha]; simpl; intros Hn; constructor; inversion Hn as [|?? Hna Hn']; subst; [auto|].
  apply Forall_forall. intros b Hb. rewrite Forall_forall in Ha. specialize (Ha _ Hb). apply Z.leb_le in Ha.
  assert (key a <> key b); [|lia]. intros E. apply Hna. rewrite E. by apply list_elem_of_fmap_2.
Qed.

Lemma by_sequence_total a b : by_sequence a b = false -> by_sequence b a = true.
Proof. unfold by_sequence. intros. bprop. lia. Qed.
Lemma by_sequence_trans a b c : by_sequence a b = true -> by_sequence b c = true -> by_sequence a c = true.
Proof. unfold by_sequence. intros. bprop. lia. Qed.

(** The whole table in order. *)
Lemma sequences_sorted d :
  table_ok audit_schema (db_audit d) ->
  StronglySorted (fun a b => au_sequence a < au_sequence b) (order_by by_sequence (rows (db_audit d))).
Proof.
  intros [_ Hu _]. apply sorted_strict.
  - apply (order_by_sorted by_sequence); [apply by_sequence_total|apply by_sequence_trans].
  - rewrite order_by_perm. eapply keys_NoDup; [|exact Hu]. intros a b Hab E.
    unfold no_clash in Hab. assert (clash audit_schema a b = true) as Hc; [|congruence].
    eapply (clash_at audit_schema a b 0); [done..|]. cbn. by rewrite E.
Qed.

(** The rows after a position. *)
Definition rows_after (d : Db) (s : Z) : list AuditRow :=
  List.filter (fun r => s <? au_sequence r) (order_by by_sequence (rows (db_audit d))).

Lemma select_after d s :
  order_by by_sequence (select (fun r => s <? au_sequence r) (db_audit d)) = rows_after d s.
Proof. symmetry. apply order_by_filter; [apply by_sequence_total|apply by_sequence_trans]. Qed.

(** ** The paged loop *)

Section Verify.
Context {CR : Crypto} (self : InitializedVault).

Lemma result_mapM_app {E A B} (f : A -> result E B) l1 l2 bs :
  result_mapM f (l1 ++ l2) = Ok bs <->
  exists b1 b2, result_mapM f l1 = Ok b1 /\ result_mapM f l2 = Ok b2 /\ bs = b1 ++ b2.
Proof.
  setoid_rewrite result_mapM_Forall2. rewrite Forall2_app_inv_l. naive_solver.
Qed.

Lemma parse_audit_sequence r a :
  parse_audit r = Ok a -> ar_sequence a = au_sequence r /\ 0 <= ar_sequence a <= u64_max.
Proof.
  unfold parse_audit. intros H. minv. cbn. unfold parse_uint in *. minv.
  repeat match goal with H : try_from _ _ = Some _ |- _ => apply try_from_Some in H as [-> ?] end. done.
Qed.

Lemma position_snoc at_ l r : position at_ (l ++ [r]) = (ar_sequence r, ar_commitment r).
Proof. revert at_. induction l as [|x l IH]; intros; simpl; auto. Qed.

Lemma position_app at_ l1 l2 : position at_ (l1 ++ l2) = position (position at_ l1) l2.
Proof. revert at_. induction l1 as [|x l1 IH]; intros; simpl; auto. Qed.

Lemma chain_app at_ l1 l2 :
  authentic_chain self at_ (l1 ++ l2)
  <-> authentic_chain self at_ l1 /\ authentic_chain self (position at_ l1) l2.
Proof. revert at_. induction l1 as [|x l1 IH]; intros; simpl; [tauto|]. rewrite IH. tauto. Qed.

Lemma verify_record_Ok at_ r at' :
  ar_sequence r <= u64_max ->
  verify_record self at_ r = Ok at' <->
  ar_sequence r = at_.1 + 1 /\ ar_previous_commitment r = at_.2 /\ authentic self r
  /\ at' = (ar_sequence r, ar_commitment r).
Proof.
  intros Hr. unfold verify_record, authentic. split.
  - intros H. minv. match goal with H : checked_add _ _ _ = Some _ |- _ => apply checked_add_Some in H as [-> _] end.
    case_match eqn:E; [done|]. bprop. destruct E as [E1 E2]. minv.
    case_match eqn:E3; [done|]. bprop. simplify_eq. rewrite E2. auto.
  - intros (E1 & E2 & E3 & ->). rewrite (proj2 (checked_add_Some _ _ _ _)) by (split; [done|lia]).
    cbn [ok_or result_bind]. rewrite E1, Z.eqb_refl, bool_decide_true by done. cbn [negb orb].
    rewrite <- E2, E3. cbn [map_err result_bind]. by rewrite bool_decide_true.
Qed.

Lemma verify_page_Ok at_ l at' :
  Forall (fun r => ar_sequence r <= u64_max) l ->
  verify_page self at_ l = Ok at' <-> authentic_chain self at_ l /\ at' = position at_ l.
Proof.
  intros HF. revert at_. induction HF as [|r l Hr HF IH]; intros at_; simpl; [naive_solver|].
  split.
  - intros H. apply result_bind_Ok in H as (a & H & H'). apply verify_record_Ok in H as (?&?&?&->); [|done].
    apply IH in H' as [? ->]. auto.
  - intros [(?&?&?&?) ->]. rewrite (proj2 (verify_record_Ok at_ r _ Hr)) by eauto.
    simpl. by apply IH.
Qed.

(** The sequence column holds an i64. *)
Definition sequences_i64 (d : Db) : Prop := forall r, r ∈ rows (db_audit d) -> au_sequence r <= i64_max.

Lemma page_at d s :
  0 <= s <= i64_max ->
  audit_records_after d s 1000 = result_mapM parse_audit (take 1000 (rows_after d s)).
Proof.
  intros Hs. unfold audit_records_after, sql_i64. rewrite (proj2 (try_from_Some _ _ _)) by done.
  cbn [ok_or result_bind Z.eqb Z.ltb Z.compare orb]. by rewrite <- select_after.
Qed.

Lemma rows_after_sorted d s :
  table_ok audit_schema (db_audit d) -> StronglySorted (fun a b => au_sequence a < au_sequence b) (rows_after d s).
Proof.
  intros H%sequences_sorted. unfold rows_after. induction H as [|a l Hl IH Ha]; simpl; [constructor|].
  case_match; [|done]. constructor; [done|]. apply Forall_forall. intros b [Hb _]%list_elem_of_In%filter_In.
  rewrite Forall_forall in Ha. by apply Ha, list_elem_of_In.
Qed.

(** Past the last row of a page lie exactly the rows the page left out. *)
Lemma rows_after_next d s l r l2 :
  table_ok audit_schema (db_audit d) -> rows_after d s = (l ++ [r]) ++ l2 ->
  rows_after d (au_sequence r) = l2.
Proof.
  intros Hd HF. pose proof (rows_after_sorted d s Hd) as Hs. rewrite HF in Hs.
  assert (r ∈ rows_after d s) as Hr by (rewrite HF; set_solver).
  apply list_elem_of_In, filter_In in Hr as [_ Hr]. apply Z.ltb_lt in Hr.
  unfold rows_after at 1. rewrite <- (filter_filter_above au_sequence s) by lia.
  change (List.filter _ (order_by _ _)) with (rows_after d s). rewrite HF.
  pose proof (StronglySorted_app_inv _ _ _ Hs) as (H1 & _ & H2).
  apply filter_above_sorted; [done| |].
  - apply Forall_app. split; [|by constructor]. apply StronglySorted_app_inv in H1 as (_ & _ & H1).
    apply Forall_forall. intros a Ha. specialize (H1 a r Ha ltac:(set_solver)). simpl in H1. lia.
  - apply Forall_forall. intros b Hb. apply H2; [|done]. set_solver.
Qed.

Lemma verify_pages_spec fuel at_ w :
  quiet w -> table_ok audit_schema (db_audit (w_db w)) -> sequences_i64 (w_db w) ->
  0 <= at_.1 <= i64_max -> (length (rows_after (w_db w) at_.1) < fuel)%nat ->
  snd (verify_pages self fuel at_ w) = w /\
  forall at', fst (verify_pages self fuel at_ w) = Ok at' <->
    exists recs, result_mapM parse_audit (rows_after (w_db w) at_.1) = Ok recs
      /\ authentic_chain self at_ recs /\ at' = position at_ recs.
Proof.
  intros Hq Ht Hi. revert at_. induction fuel as [|fuel IH]; intros at_ Hat Hf; [lia|].
  cbn [verify_pages]. rewrite bind_ask, page_at by done.
  set (F := rows_after (w_db w) at_.1) in *.
  destruct (result_mapM parse_audit (take 1000 F)) as [recs|e] eqn:Er.
  2:{ split; [done|]. intros at'. split; [done|]. intros (recs & Hrecs & _).
      rewrite <- (take_drop 1000 F), result_mapM_app in Hrecs. destruct Hrecs as (?&?&?&_). congruence. }
  assert (length recs = length (take 1000 F)) as Hlen
    by (apply result_mapM_Forall2, Forall2_length in Er; congruence).
  assert (Forall (fun r => ar_sequence r <= u64_max) recs) as Hu.
  { apply result_mapM_Forall2 in Er. eapply Forall2_Forall_r; [exact Er|].
    apply Forall_forall. intros r _ a Ha%parse_audit_sequence. tauto. }
  destruct (Nat.eqb_spec (length recs) 0) as [E0|E0].
  { rewrite E0, length_take in Hlen. destruct F as [|? ?]; [|simpl in Hlen; lia]. split; [done|].
    intros at'. split; [intros [= <-]; by exists []|]. intros (? & [= <-] & _ & ->). done. }
  unfold prog_bind, prog_lift.
  destruct (verify_page self at_ recs) as [at1|e] eqn:Ev.
  2:{ split; [done|]. intros at'. split; [done|]. intros (all & Hall & Hc & _).
      rewrite <- (take_drop 1000 F), result_mapM_app in Hall. destruct Hall as (r1 & r2 & E1 & _ & ->).
      rewrite Er in E1. injection E1 as <-. apply chain_app in Hc as [Hc _].
      rewrite (proj2 (verify_page_Ok at_ recs (position at_ recs) Hu)) in Ev; [done|by split]. }
  apply verify_page_Ok in Ev as [Hc ->]; [|done].
  destruct (Z.ltb_spec (zlen recs) 1000) as [Hl|Hl]; unfold zlen in Hl.
  - rewrite Hlen, length_take in Hl. rewrite take_ge in Er by lia. split; [done|]. intros at'. rewrite Er.
    split; [intros [= <-]; by exists recs|]. intros (? & [= <-] & _ & ->). done.
  - destruct (exists_last (l := take 1000 F)) as (l & r & El); [intros E; rewrite E in Hlen; done|].
    assert (rows_after (w_db w) at_.1 = (l ++ [r]) ++ drop 1000 F) as HF by (by rewrite <- El, take_drop).
    rewrite El in Er. apply result_mapM_app in Er as (r1 & r2 & E1 & E2 & ->).
    simpl in E2. apply result_bind_Ok in E2 as (x & Hx & [= <-]). apply parse_audit_sequence in Hx as Hxs.
    destruct Hxs as [Hxs _]. apply (rows_after_next _ _ _ _ _ Ht) in HF as Hnext. rewrite <- Hxs in Hnext.
    rewrite position_snoc.
    assert (r ∈ rows_after (w_db w) at_.1) as Hr by (rewrite HF; set_solver).
    apply list_elem_of_In, filter_In in Hr as [Hr Hgt]. apply Z.ltb_lt in Hgt.
    rewrite <- list_elem_of_In, order_by_perm in Hr. specialize (Hi r Hr).
    destruct (IH (ar_sequence x, ar_commitment x)) as [IH1 IH2]; cbn [fst].
    { lia. } { rewrite Hnext, length_drop. rewrite Hlen, length_take in Hl. lia. }
    split; [done|]. intros at'. rewrite IH2. cbn [fst]. rewrite Hnext. subst F.
    revert HF. generalize (drop 1000 (rows_after (w_db w) at_.1)). intros Q ->. split.
    + intros (recs & Hd & Hcc & ->). exists ((r1 ++ [x]) ++ recs).
      split; [apply result_mapM_app; exists (r1 ++ [x]), recs|].
      * split; [|done]. apply result_mapM_app. exists r1, [x]. split; [done|]. split; [|done]. cbn. by rewrite Hx.
      * by rewrite chain_app, (position_app _ (r1 ++ [x])), !position_snoc.
    + intros (all & Hall & Hcc & ->). apply result_mapM_app in Hall as (b1 & b2 & Hb1 & Hb2 & ->).
      apply result_mapM_app in Hb1 as (b3 & b4 & Hb3 & Hb4 & ->). cbn in Hb4. rewrite Hx in Hb4.
      injection Hb4 as <-. rewrite E1 in Hb3. injection Hb3 as <-.
      rewrite chain_app, position_snoc in Hcc. rewrite (position_app _ (r1 ++ [x])), position_snoc. exists b2. tauto.
Qed.

Lemma audit_rows_after d : audit_rows d = rows_after d 0.
Proof. apply select_after. Qed.

Lemma verify_audit_chain_spec w :
  quiet w -> table_ok audit_schema (db_audit (w_db w)) -> sequences_i64 (w_db w) ->
  snd (verify_audit_chain self w) = w /\
  forall v, fst (verify_audit_chain self w) = Ok v <->
    exists recs, audit_log (w_db w) = Ok recs /\ authentic_chain self origin recs
      /\ audit_head (w_db w) = Ok (head_at (position origin recs))
      /\ v = verification_at (position origin recs).
Proof.
  intros Hq Ht Hi. unfold verify_audit_chain.
  destruct (verify_pages_spec (verify_fuel w) (0, zeros 32) w Hq Ht Hi) as [Hs Hv]; [done| |].
  { cbn [fst]. unfold verify_fuel, rows_after.
    pose proof (List.filter_length_le (fun r => 0 <? au_sequence r) (order_by by_sequence (rows (db_audit (w_db w))))) as Hl.
    pose proof (Permutation_length (order_by_perm by_sequence (rows (db_audit (w_db w))))) as Hp. lia. }
  match goal with |- context [prog_bind (verify_pages _ _ _) ?k w] => set (rest := k) end.
  assert (prog_bind (verify_pages self (verify_fuel w) (0, zeros 32)) rest w
          = match fst (verify_pages self (verify_fuel w) (0, zeros 32) w) with
            | Ok at_ => rest at_ w | Err e => (Err e, w) end) as ->.
  { unfold prog_bind. destruct (verify_pages _ _ _ w) as [[]]; simpl in *; by subst. }
  destruct (fst (verify_pages self (verify_fuel w) (0, zeros 32) w)) as [at_|e]; subst rest; cbv beta.
  2:{ split; [done|]. intros v. split; [done|]. intros (recs & Hl & Hc & _).
      assert (Err e = Ok (position (0, zeros 32) recs)); [|done].
      apply Hv. exists recs. by rewrite <- audit_rows_after. }
  destruct (proj1 (Hv at_) eq_refl) as (recs & Hl & Hc & ->). cbn [fst] in Hl.
  rewrite <- audit_rows_after in Hl. change (result_mapM _ _) with (audit_log (w_db w)) in Hl.
  rewrite Hl, bind_ask by done. destruct (audit_head (w_db w)) as [h|e] eqn:Eh.
  2:{ split; [done|]. intros v. split; [done|]. by intros (?&?&?&?&?). }
  unfold prog_bind, prog_reject, prog_ret. split; [by case_match|]. intros v. unfold verification_at, head_at. split.
  - destruct (_ || _) eqn:E; [done|]. cbn. intros [= <-]. bprop. destruct E as [E1 E2].
    exists recs. split; [done|]. split; [done|]. split; [|done]. destruct h; cbn in *. by subst.
  - intros (? & [= <-] & _ & [= ->] & ->). cbn [head_sequence head_commitment]. by rewrite Z.eqb_refl, bool_decide_true.
Qed.
End Verify.


(** ** What a verified log rules out *)

Definition record_typed (a : AuditRecord) : Prop :=
  in_u64 (ar_sequence a) /\ in_u64 (ar_recovery_epoch a) /\ in_i64 (ar_occurred_at_unix_ms a).

(** Two different messages with the same HMAC under a key. *)
Definition hmac_collision {CR : Crypto} (key : KeyMaterial) : Prop :=
  exists m m', m <> m' /\ hmac_sha256 (arr key) m = hmac_sha256 (arr key) m'.

Section Tamper.
Context {CR : Crypto} (self : InitializedVault).

Lemma audit_input_inj a b :
  audit_input a (ar_previous_commitment a) = audit_input b (ar_previous_commitment b) ->
  ar_commitment a = ar_commitment b -> a = b.
Proof. destruct a, b. unfold audit_input; cbn. intros [= ]. intros. by subst. Qed.

Lemma authentic_eq a b :
  record_typed a -> record_typed b -> authentic self a -> authentic self b ->
  ar_commitment a = ar_commitment b -> a = b \/ hmac_collision (iv_audit_key self).
Proof.
  intros Ha Hb Aa Ab E. unfold authentic in *. rewrite E in Aa.
  destruct (audit_commitment_binds _ (audit_input a (ar_previous_commitment a))
    (audit_input b (ar_previous_commitment b)) _ Ha Hb Aa Ab) as [Ei|[Hn Hh]].
  - left. by apply audit_input_inj.
  - right. by eexists _, _.
Qed.

Lemma chain_sequence at_ l : authentic_chain self at_ l -> (position at_ l).1 = at_.1 + zlen l.
Proof.
  revert at_. induction l as [|r l IH]; intros at_; simpl; [unfold zlen; simpl; lia|].
  intros (E & _ & _ & Hc). rewrite (IH _ Hc). cbn [fst]. rewrite E. unfold zlen. cbn [length]. lia.
Qed.

(** Chains from the origin that end at the same place are the same chain. *)
Lemma chains_equal l1 l2 :
  Forall record_typed l1 -> Forall record_typed l2 ->
  authentic_chain self origin l1 -> authentic_chain self origin l2 ->
  position origin l1 = position origin l2 -> l1 = l2 \/ hmac_collision (iv_audit_key self).
Proof.
  revert l2. induction l1 as [|a l1 IH] using rev_ind; intros l2 T1 T2 C1 C2 E.
  - destruct l2 as [|b l2]; [by left|]. exfalso. apply chain_sequence in C2. rewrite <- E in C2.
    unfold zlen in C2. cbn in C2. lia.
  - destruct l2 as [|b l2 _] using rev_ind.
    { exfalso. apply chain_sequence in C1. rewrite E in C1. unfold zlen in C1.
      rewrite length_app in C1. cbn in C1. lia. }
    rewrite !position_snoc in E. injection E as _ Ec.
    apply Forall_app in T1 as [T1 Ta], T2 as [T2 Tb]. inversion Ta; inversion Tb; subst.
    apply chain_app in C1 as [C1 (Sa & Pa & Aa & _)], C2 as [C2 (Sb & Pb & Ab & _)].
    destruct (authentic_eq a b) as [->|]; [done..| |by right].
    destruct (IH l2) as [->|]; [done..| |by left|by right].
    rewrite Sa in Sb. rewrite Pa in Pb.
    rewrite (surjective_pairing (position origin l1)), (surjective_pairing (position origin l2)), Pb.
    f_equal. lia.
Qed.
End Tamper.

(** A verified position anchors history: if a log ended at an
    authenticated position, and the event with that number in another verified
    log carries the same commitment, then the other log begins with exactly the
    events of the first, in every field - no event of it was modified, removed,
    inserted or reordered - or HMAC-SHA-256 under the audit key collides. *)
Theorem anchored_history_unchanged {CR : Crypto} (self : InitializedVault) (old new : list AuditRecord)
    (To : Forall record_typed old) (Tn : Forall record_typed new)
    (Ho : authentic_chain self origin old) (Hn : authentic_chain self origin new)
    (Hanchor : position origin (take (length old) new) = position origin old) :
  (exists suffix, new = old ++ suffix) \/ hmac_collision (iv_audit_key self).
Proof.
  rewrite <- (take_drop (length old) new) in Hn. apply chain_app in Hn as [Hn _].
  destruct (chains_equal self old (take (length old) new)) as [E|]; [done|by apply Forall_take|done..| |by right].
  left. exists (drop (length old) new). rewrite E at 1. by rewrite take_drop.
Qed.

(** ** Rows outside the chain *)

Definition newest_first (a b : AuditRow) : bool := au_sequence b <=? au_sequence a.

Lemma newest_total a b : newest_first a b = false -> newest_first b a = true.
Proof. unfold newest_first. intros. bprop. lia. Qed.
Lemma newest_trans a b c : newest_first a b = true -> newest_first b c = true -> newest_first a c = true.
Proof. unfold newest_first. intros. bprop. lia. Qed.

Lemma newest_head l r :
  head (order_by newest_first l) = Some r -> r ∈ l /\ forall x, x ∈ l -> au_sequence x <= au_sequence r.
Proof.
  intros H. pose proof (order_by_perm newest_first l) as Hp.
  pose proof (order_by_sorted newest_first l newest_total newest_trans) as Hs.
  destruct (order_by newest_first l) as [|y l'] eqn:E; [done|]. injection H as ->.
  split; [rewrite <- Hp; by left|]. intros x. rewrite <- Hp. intros [->|Hx]%elem_of_cons; [lia|].
  inversion Hs as [|?? _ HF]; subst. rewrite Forall_forall in HF. specialize (HF x Hx). by apply Z.leb_le.
Qed.

Lemma sequence_unique d a b :
  table_ok audit_schema (db_audit d) -> a ∈ rows (db_audit d) -> b ∈ rows (db_audit d) ->
  au_sequence a = au_sequence b -> a = b.
Proof.
  intros Ht Ha Hb E. eapply unique_row; [exact Ht|done|done|].
  eapply (clash_at audit_schema a b 0); cbn; [done|by rewrite E].
Qed.

(** An older row does not change the head of the log. *)
Lemma audit_head_older d x h :
  table_ok audit_schema (insert_row x (db_audit d)) -> audit_head d = Ok h ->
  au_sequence x <= 0 < head_sequence h -> audit_head (set_audit (insert_row x (db_audit d)) d) = Ok h.
Proof.
  intros Ht Hh Hx. unfold audit_head in *. fold newest_first in *. cbn. rewrite rows_insert.
  destruct (head (order_by newest_first (rows (db_audit d)))) as [r|] eqn:E; [|injection Hh as <-; simpl in Hx; lia].
  assert (au_sequence r = head_sequence h) as Hs.
  { apply result_bind_Ok in Hh as (s & Hs%ok_or_Ok%try_from_Some & Hh). minv. simpl in *. tauto. }
  destruct (head (order_by newest_first (rows (db_audit d) ++ [x]))) as [r'|] eqn:E'.
  2:{ pose proof (order_by_perm newest_first (rows (db_audit d) ++ [x])) as Hp.
      destruct (order_by newest_first (rows (db_audit d) ++ [x])); [|done]. apply Permutation_nil in Hp. by destruct (rows (db_audit d)). }
  apply newest_head in E as [Hr Hmax], E' as [Hr' Hmax'].
  assert (r' = r) as ->; [|done].
  assert (au_sequence r <= au_sequence r') by (apply Hmax'; set_solver).
  apply (sequence_unique (set_audit (insert_row x (db_audit d)) d)); cbn; rewrite ?rows_insert; [done|done|set_solver|].
  apply elem_of_app in Hr' as [Hr'|Hr']; [apply Hmax in Hr'|apply list_elem_of_singleton in Hr' as ->]; lia.
Qed.

(** Verification looks only at events numbered from one: a row numbered
    zero or below, whatever it contains, can be inserted beside a verified log
    that has events, and verification still succeeds with the same report. *)
Theorem unnumbered_row_goes_unnoticed {CR : Crypto} (self : InitializedVault) (w : World) (x : AuditRow)
    (v : AuditVerification)
    (Hq : quiet w) (Ht : table_ok audit_schema (db_audit (w_db w))) (Hi : sequences_i64 (w_db w))
    (Hv : verify_audit_chain self w = (Ok v, w)) (Hn : 0 < av_events_verified v)
    (Hx : au_sequence x <= 0) (Ht' : table_ok audit_schema (insert_row x (db_audit (w_db w)))) :
  let w' := set_w_db (set_audit (insert_row x (db_audit (w_db w))) (w_db w)) w in
  verify_audit_chain self w' = (Ok v, w').
Proof.
  intros w'. destruct (verify_audit_chain_spec self w Hq Ht Hi) as [_ Hs]. rewrite Hv in Hs.
  destruct (proj1 (Hs v) eq_refl) as (recs & Hl & Hc & Hh & ->). cbn in Hn.
  destruct (verify_audit_chain_spec self w') as [Hs1 Hs2]; [done|done| |].
  { intros r. cbn. rewrite elem_of_rows_insert. intros [?| ->]; [by apply Hi|unfold i64_max; lia]. }
  destruct (verify_audit_chain self w') as [r w'']. cbn [fst snd] in *. subst w''. f_equal. apply Hs2.
  exists recs. split; [|split; [done|split; [|done]]].
  - unfold audit_log, audit_rows in *. cbn. rewrite select_insert, (proj2 (Z.ltb_ge _ _)), app_nil_r by lia. done.
  - cbn. apply audit_head_older; [done..|]. cbn. lia.
Qed.
