(* ===== verification/VaultRuns.v ===== *)
(** Every operation of the vault domain as one operation type, the runs of any
    sequence of them under interference, and the audit guarantee of such runs. *)
From Stdlib Require Import ZArith Lia Strings.Byte String.
From stdpp Require Import base tactics numbers option strings list gmap sets.
From S2P Require Import Prelude RustStd Core Crypto Sql Schema Records StoreInv RecordsOk VaultStore Store RecordsProps Metadata VaultCore VaultAudit.

Inductive VaultOp : Type :=
| VCreateNamespace (parent : option NamespaceId) (m : Metadata)
| VCreateNamespaceWithId (id : NamespaceId) (parent : option NamespaceId) (m : Metadata)
| VMoveNamespace (id : NamespaceId) (rev : Z) (parent : option NamespaceId)
| VCreateSecret (ns : NamespaceId) (m : Metadata) (value : blob) (s : SecretSchedule)
| VCreateSecretWithId (id : SecretId) (ns : NamespaceId) (m : Metadata) (value : blob) (s : SecretSchedule)
| VUpdateSecret (id : SecretId) (version rev : Z) (value : blob) (s : SecretSchedule)
| VReveal (id : SecretId)
| VRevealVersion (id : SecretId) (version : Z)
| VHistory (id : SecretId) (after lim : Z)
| VFindByName (ns : NamespaceId) (name : rstring)
| VReadMetadata (id : SecretId)
| VListNamespaces (parent after : option NamespaceId) (lim : Z)
| VListSecrets (ns : NamespaceId) (after : option SecretId) (lim : Z)
| VListLifecycle (ns : NamespaceId) (state : string) (after : option SecretId) (lim : Z)
| VSecretsDue (now lim : Z)
| VArchive (id : SecretId) (rev : Z)
| VRestore (id : SecretId) (rev : Z)
| VDelete (id : SecretId) (rev : Z)
| VPurge (id : SecretId) (rev : Z) (approval : OwnerPurgeApproval).

Definition ignore {A} (m : Vault A) : Vault unit := do! _ := m in prog_ret tt.

Section Runs.
Context {CR : Crypto} (self : InitializedVault).

Definition run_op (v : VaultOp) (op : OperationContext) : Vault unit :=
  match v with
  | VCreateNamespace parent m => ignore (vault_create_namespace self parent m op)
  | VCreateNamespaceWithId id parent m => ignore (create_namespace_with_id self id parent m op)
  | VMoveNamespace id rev parent => ignore (move_namespace_core self id rev parent op)
  | VCreateSecret ns m value s => ignore (create_secret_with_schedule self ns m value s op)
  | VCreateSecretWithId id ns m value s =>
      ignore (create_secret_with_id_and_schedule self id ns m value s op)
  | VUpdateSecret id version rev value s =>
      ignore (update_secret_with_schedule self id version rev value s op)
  | VReveal id => ignore (reveal_current_secret self id op)
  | VRevealVersion id version => ignore (reveal_secret_version self id version op)
  | VHistory id after lim => ignore (secret_version_history self id after lim)
  | VFindByName ns name => ignore (find_secret_by_exact_name self ns name)
  | VReadMetadata id => ignore (read_secret_metadata self id)
  | VListNamespaces parent after lim => ignore (list_namespaces self parent after lim)
  | VListSecrets ns after lim => ignore (list_secrets self ns after lim)
  | VListLifecycle ns state after lim => ignore (list_secrets_in_lifecycle self ns state after lim)
  | VSecretsDue now lim => ignore (secrets_due self now lim)
  | VArchive id rev => ignore (archive_secret self id rev op)
  | VRestore id rev => ignore (restore_archived_secret self id rev op)
  | VDelete id rev => ignore (delete_secret self id rev op)
  | VPurge id rev approval => ignore (purge_secret_after_owner_approval self id rev approval op)
  end.

(** The world after a sequence of operations, whatever their outcomes. *)
Fixpoint run_all (l : list (VaultOp * OperationContext)) (w : World) : World :=
  match l with
  | [] => w
  | (v, op) :: l' => run_all l' (snd (run_op v op w))
  end.

(** An event of this vault: its integers fit their types and it carries its
    own commitment. *)
Definition event_ok (a : AuditRecord) : Prop := record_typed a /\ authentic self a.

(** Every stored event is one of this vault. *)
Definition log_authentic (d : Db) : Prop :=
  forall r, r ∈ rows (db_audit d) -> exists a, parse_audit r = Ok a /\ event_ok a.

(** An operation of another connection of the same vault. *)
Definition peer_op (op : StoreOp) : Prop :=
  op_typed op /\ (forall a, op_event op = Some a -> event_ok a).

Record world_ok (w : World) : Prop := {
  wk_db : db_ok (w_db w);
  wk_log : log_authentic (w_db w);
  wk_peers : Forall (Forall peer_op) (w_schedule w);
  wk_ring : in_u32 (kr_active_version (w_ring w)) }.

(** * Lemmas *)

(** A program keeps the invariant, and what it returns satisfies [Q]. *)
Definition keeps {E A} (m : Prog World E A) (Q : A -> Prop) : Prop :=
  forall w, world_ok w -> world_ok (snd (m w)) /\ (forall a, fst (m w) = Ok a -> Q a).

Lemma keeps_bind {E A B} (m : Prog World E A) (k : A -> Prog World E B) Q R :
  keeps m Q -> (forall a, Q a -> keeps (k a) R) -> keeps (prog_bind m k) R.
Proof.
  intros Hm Hk w Hw. destruct (Hm w Hw) as [Hw' Hq]. unfold prog_bind.
  destruct (m w) as [[a|e] w']; simpl in *; [|done]. by apply Hk; auto.
Qed.

Lemma keeps_pure {E A} (m : Prog World E A) (Q : A -> Prop) :
  (forall w, snd (m w) = w) -> (forall w a, world_ok w -> fst (m w) = Ok a -> Q a) -> keeps m Q.
Proof. intros H1 H2 w Hw. rewrite H1. eauto. Qed.

Lemma keeps_any {E A} (m : Prog World E A) Q : keeps m Q -> keeps m (fun _ => True).
Proof. intros H w Hw. destruct (H w Hw). auto. Qed.

Lemma parse_audit_row a :
  record_typed a -> 1 <= ar_commitment_version a <= 2 -> parse_audit (audit_row a) = Ok a.
Proof.
  intros (H1 & H2 & _) Hv. unfold parse_audit, parse_uint, parse_uuid, parse_array, parse_opt_uuid, audit_row; cbn.
  rewrite !(proj2 (try_from_Some _ _ _)) by (split; [done|]; unfold in_u64 in *; lia).
  rewrite !try_array_arr. cbn [ok_or result_bind].
  assert (forall o : option Uuid, transpose ((fun b => ok_or InvalidData (try_array 16 b)) <$> (arr <$> o)) = Ok o) as Ho.
  { intros [u|]; [|done]. cbn. by rewrite try_array_arr. }
  unfold parse_uuid. rewrite !Ho. cbn [result_bind]. by destruct a.
Qed.

(** One operation, committed by this connection or another. *)
Lemma peer_step op d r d' :
  exec op d = (r, d') -> peer_op op -> db_ok d -> log_authentic d -> db_ok d' /\ log_authentic d'.
Proof.
  intros H [Ht Ha] Hok Hl. destruct (exec_good op d r d' H Ht Hok) as [Hok' Hrows _ _]. split; [done|].
  intros x. rewrite Hrows, elem_of_app. intros [Hx|Hx]; [auto|].
  destruct r as [u|e]; simpl in Hx; [|by apply not_elem_of_nil in Hx].
  destruct (op_event op) as [a|] eqn:Ea; simpl in Hx; [|by apply not_elem_of_nil in Hx].
  apply list_elem_of_singleton in Hx as ->. exists a. split; [|auto].
  apply parse_audit_row; [by apply Ha|].
  assert (audit_row a ∈ rows (db_audit d')) as Hin by (rewrite Hrows; set_solver).
  apply (table_ok_check audit_schema) in Hin; [|eauto with tables].
  cbn [audit_schema sc_check audit_row au_commitment_version] in Hin.
  unfold between in Hin. bprop. lia.
Qed.

Lemma peers_step ops d :
  Forall peer_op ops -> db_ok d -> log_authentic d ->
  db_ok (exec_all ops d) /\ log_authentic (exec_all ops d).
Proof.
  intros HF. revert d. induction HF as [|op ops Hop HF IH]; intros d Hok Hl; simpl; [done|].
  destruct (exec op d) as [r d'] eqn:E. simpl. destruct (peer_step op d r d' E) as [??]; [done..|]. auto.
Qed.

Lemma interfere_keeps w : world_ok w -> world_ok (interfere w).
Proof.
  intros [H1 H2 H3 H4]. unfold interfere. destruct (w_schedule w) as [|ops later] eqn:E; [split; by rewrite ?E|].
  inversion H3; subst. destruct (peers_step ops (w_db w)) as [??]; [done..|]. by split.
Qed.

Lemma keeps_call_raw {E A B} (m : Store A) (k : result StorageError A -> result E B) op w :
  (forall d, snd (m d) = snd (exec op d)) -> peer_op op -> world_ok w -> world_ok (snd (call_raw m k w)).
Proof.
  intros Hm Hop Hw. unfold call_raw. cbv zeta. apply interfere_keeps in Hw. revert Hw.
  generalize (interfere w). clear w. intros w [H1 H2 H3 H4].
  specialize (Hm (w_db w)). destruct (m (w_db w)) as [r d]. simpl in *. subst d.
  destruct (exec op (w_db w)) as [r' d'] eqn:Ex. simpl.
  destruct (peer_step op (w_db w) r' d' Ex) as [??]; [done..|]. by split.
Qed.

Lemma keeps_call {A} (m : Store A) op :
  (forall d, snd (m d) = snd (exec op d)) -> peer_op op -> keeps (call m) (fun _ => True).
Proof. intros Hm Hop w Hw. split; [|done]. by eapply keeps_call_raw. Qed.

Lemma keeps_ask {A} (f : Db -> result StorageError A) Q :
  (forall d a, f d = Ok a -> Q a) -> keeps (ask f) Q.
Proof.
  intros HQ w Hw. apply interfere_keeps in Hw. unfold ask, call, call_raw, prog_read.
  rewrite set_w_db_same. simpl. split; [done|]. intros a Ha%map_err_Ok. eauto.
Qed.

Lemma keeps_call_read {E A B} (f : Db -> result StorageError A) (k : result StorageError A -> result E B) :
  keeps (call_raw (prog_read f) k) (fun _ => True).
Proof.
  intros w Hw. apply interfere_keeps in Hw. unfold call_raw, prog_read. rewrite set_w_db_same. by simpl.
Qed.
Lemma keeps_map_err {E F A} (f : E -> F) (m : Prog World E A) Q : keeps m Q -> keeps (prog_map_err f m) Q.
Proof.
  intros H w Hw. destruct (H w Hw) as [H1 H2]. unfold prog_map_err. destruct (m w) as [r w']. simpl in *.
  split; [done|]. intros a Ha%map_err_Ok. auto.
Qed.
Lemma keeps_try {E F A} (m : Prog World E A) Q :
  keeps m Q -> keeps (E := F) (prog_try m) (fun r => forall a, r = Ok a -> Q a).
Proof.
  intros H w Hw. destruct (H w Hw) as [H1 H2]. unfold prog_try. destruct (m w) as [r w']. simpl in *.
  split; [done|]. intros ? [= <-]. auto.
Qed.

Lemma keeps_ask_any {A} (f : Db -> result StorageError A) : keeps (ask f) (fun _ => True).
Proof. by apply keeps_ask. Qed.
Lemma keeps_lift {E A} (r : result E A) : keeps (prog_lift r) (fun a => r = Ok a).
Proof. by apply keeps_pure. Qed.
Lemma keeps_read {E A} (f : World -> result E A) : keeps (prog_read f) (fun _ => True).
Proof. by apply keeps_pure. Qed.
Lemma keeps_reject {E} b (e : E) : keeps (prog_reject b e) (fun _ => b = false).
Proof. apply keeps_pure; [done|]. intros w a _. simpl. by destruct b. Qed.
Lemma keeps_ret {E A} (a : A) : keeps (E := E) (prog_ret a) (fun _ => True).
Proof. by apply keeps_pure. Qed.
Lemma keeps_fail {E A} (e : E) : keeps (prog_fail (A := A) e) (fun _ => True).
Proof. by apply keeps_pure. Qed.
Lemma set_draws_ok n w : world_ok w -> world_ok (set_w_draws n w).
Proof. intros []. by split. Qed.
Lemma keeps_randomly {A} (m : Prog nat CryptoError A) : keeps (randomly m) (fun _ => True).
Proof.
  intros w Hw. unfold randomly. destruct (m (w_draws w)) as [r n]. split; [|done]. by apply set_draws_ok.
Qed.
Lemma keeps_random_id : keeps random_id (fun _ => True).
Proof. intros w Hw. split; [|done]. by apply set_draws_ok. Qed.
Lemma keeps_mapM {E A B} (f : A -> Prog World E B) l :
  (forall a, keeps (f a) (fun _ => True)) -> keeps (prog_mapM f l) (fun _ => True).
Proof.
  intros Hf. induction l as [|a l IH]; simpl; [apply keeps_ret|].
  eapply keeps_bind; [apply Hf|]. intros b _. eapply keeps_bind; [apply IH|]. intros bs _. apply keeps_ret.
Qed.
Lemma keeps_ignore {A} (m : Vault A) Q : keeps m Q -> keeps (ignore m) (fun _ => True).
Proof. intros H. eapply keeps_bind; [exact H|]. intros a _. apply keeps_ret. Qed.
End Runs.

Create HintDb keeps discriminated.
#[export] Hint Resolve keeps_read | 10 : keeps.
#[export] Hint Resolve keeps_ask_any keeps_lift keeps_reject keeps_ret keeps_fail
  keeps_randomly keeps_random_id : keeps.

(** Walk through a program: each step by its own lemma. *)
Ltac keep_step :=
  lazymatch goal with
  | |- keeps _ (prog_bind _ _) _ => eapply keeps_bind; [keep_step | cbv beta; intros]
  | |- keeps _ (prog_mapM _ _) _ => apply keeps_mapM; intros
  | |- keeps _ (match ?o with _ => _ end) _ => destruct o
  | |- _ => solve [eauto with keeps]
  end.
Ltac keep := repeat keep_step.

Section Steps.
Context {CR : Crypto} (self : InitializedVault).

Lemma keeps_installation : keeps self (ask installation) (fun o => forall i, o = Some i -> in_u64 (ir_recovery_epoch i)).
Proof.
  apply keeps_ask. intros d o H i ->. unfold installation in H. destruct (db_installation d) as [r|]; [|done].
  cbn in H. destruct (parse_installation r) as [j|] eqn:E; [|done]. injection H as ->.
  unfold parse_installation in E. minv. cbn. unfold parse_uint in *. minv.
  repeat match goal with H : try_from _ _ = Some _ |- _ => apply try_from_Some in H as [-> ?] end. done.
Qed.

Lemma keeps_build_audit_outcome action kind target outcome op :
  in_i64 (oc_now_unix_ms op) ->
  keeps self (build_audit_outcome self action kind target outcome op) (event_ok self).
Proof.
  intros Ht. unfold build_audit_outcome.
  eapply keeps_bind; [apply (keeps_ask self _ (fun h => 0 <= head_sequence h))|].
  { intros d h H. unfold audit_head in H. destruct (head _); [|by injection H as <-]. minv. cbn.
    unfold parse_uint in *. minv.
    repeat match goal with H : try_from _ _ = Some _ |- _ => apply try_from_Some in H as [-> ?] end. lia. }
  intros h Hh. eapply keeps_bind; [apply keeps_lift|]. intros seq Hseq%ok_or_Ok%checked_add_Some.
  eapply keeps_bind; [apply keeps_installation|]. intros o Ho. eapply keeps_bind; [apply keeps_lift|].
  intros i Hi%ok_or_Ok. specialize (Ho _ Hi). eapply keeps_bind; [apply keeps_random_id|]. intros eid _.
  cbv zeta. eapply keeps_bind; [apply keeps_lift|]. intros c Hc%map_err_Ok. apply keeps_pure; [done|].
  intros w a _ [= <-]. split; [|done]. unfold record_typed; cbn. unfold in_u64 in *. naive_solver lia.
Qed.

Lemma keeps_build_audit action kind target op :
  in_i64 (oc_now_unix_ms op) -> keeps self (build_audit self action kind target op) (event_ok self).
Proof. apply keeps_build_audit_outcome. Qed.

Lemma keeps_active_kek :
  keeps self (prog_read (fun w => ok_or Unavailable (active_kek (w_ring w)))) (fun vk => in_u32 vk.1).
Proof.
  apply keeps_pure; [done|]. intros w [v k] [_ _ _ Hr] H. simpl in H. apply ok_or_Ok in H.
  unfold active_kek in H. destruct (_ !! _); [|done]. by injection H as <- <-.
Qed.

#[local] Hint Resolve keeps_active_kek | 0 : keeps.

Lemma keeps_encrypt_record text kind wrapped id version :
  keeps self (encrypt_record self text kind wrapped id version) er_typed.
Proof.
  unfold encrypt_record. keep. apply keeps_pure; [done|]. by intros w ? _ [= <-].
Qed.
End Steps.

#[export] Hint Resolve keeps_build_audit keeps_build_audit_outcome keeps_encrypt_record : keeps.

Section Operations.
Context {CR : Crypto} (self : InitializedVault).

(** The storage mutations the vault uses, as calls of a peer. *)
Lemma keeps_store {A} (m : Store A) op :
  (forall d, snd (m d) = snd (exec op d)) -> op_typed op ->
  (forall a, op_event op = Some a -> event_ok self a) -> keeps self (call m) (fun _ => True).
Proof. intros. by eapply keeps_call. Qed.

Lemma keeps_append_audit a : event_ok self a -> keeps self (call (append_audit a)) (fun _ => True).
Proof. intros Ha. apply (keeps_store _ (OpAppendAudit a)); [done..|]. by intros ? [= <-]. Qed.

Lemma keeps_create_namespace n a :
  er_typed (ni_metadata n) -> event_ok self a -> keeps self (call (create_namespace n a)) (fun _ => True).
Proof. intros Ht Ha. apply (keeps_store _ (OpCreateNamespace n a)); [done..|]. by intros ? [= <-]. Qed.

Lemma keeps_move_namespace id r p i c u a :
  event_ok self a -> keeps self (call (move_namespace id r p i c u a)) (fun _ => True).
Proof. intros Ha. apply (keeps_store _ (OpMoveNamespace id r p i c u a)); [done..|]. by intros ? [= <-]. Qed.

Lemma keeps_create_secret s a :
  er_typed (sn_metadata s) -> er_typed (sn_payload s) -> event_ok self a ->
  keeps self (call (create_secret s a)) (fun _ => True).
Proof. intros H1 H2 Ha. apply (keeps_store _ (OpCreateSecret s a)); [done..|]. by intros ? [= <-]. Qed.

Lemma keeps_change_lifecycle c a :
  to_state_ok c -> event_ok self a -> keeps self (call (change_secret_lifecycle c a)) (fun _ => True).
Proof. intros H1 Ha. apply (keeps_store _ (OpChangeLifecycle c a)); [done..|]. by intros ? [= <-]. Qed.

Lemma keeps_purge p a : event_ok self a -> keeps self (call (purge_secret p a)) (fun _ => True).
Proof. intros Ha. apply (keeps_store _ (OpPurge p a)); [done..|]. by intros ? [= <-]. Qed.

Lemma keeps_append_version v a (k : result StorageError Z -> result VaultError (result StorageError Z)) :
  er_typed (vi_payload v) -> event_ok self a ->
  keeps self (call_raw (append_secret_version v a) k) (fun _ => True).
Proof.
  intros H1 Ha w Hw. split; [|done]. apply (keeps_call_raw self _ _ (OpAppendVersion v a)); [done| |done].
  split; [done|]. by intros ? [= <-].
Qed.
End Operations.

#[export] Hint Resolve keeps_append_audit keeps_create_namespace keeps_move_namespace
  keeps_create_secret keeps_change_lifecycle keeps_purge keeps_append_version : keeps.

Section Runs.
Context {CR : Crypto} (self : InitializedVault) (op : OperationContext).
Hypothesis Ht : in_i64 (oc_now_unix_ms op).

Lemma keeps_create_namespace_with_id id parent m :
  keeps self (create_namespace_with_id self id parent m op) (fun _ => True).
Proof. unfold create_namespace_with_id. keep. Qed.

Lemma keeps_move_namespace_core id rev parent :
  keeps self (move_namespace_core self id rev parent op) (fun _ => True).
Proof. unfold move_namespace_core, decrypt_with. keep. Qed.

Lemma keeps_create_secret_with_id id ns m value s :
  keeps self (create_secret_with_id_and_schedule self id ns m value s op) (fun _ => True).
Proof. unfold create_secret_with_id_and_schedule. keep. Qed.

Lemma keeps_update_attempts n v :
  er_typed (vi_payload v) -> keeps self (update_attempts self n v op) (fun _ => True).
Proof.
  intros Hv. induction n as [|n IH]; simpl; [apply keeps_fail|]. keep.
Qed.
#[local] Hint Resolve keeps_update_attempts : keeps.

Lemma keeps_update_secret id version rev value s :
  keeps self (update_secret_with_schedule self id version rev value s op) (fun _ => True).
Proof. unfold update_secret_with_schedule. keep. Qed.

Lemma keeps_vault_change_lifecycle id rev from to action :
  to ∈ ["active"; "archived"; "deleted"] ->
  keeps self (change_lifecycle self id rev from to action op) (fun _ => True).
Proof. intros Hto. unfold change_lifecycle. keep. Qed.

Lemma keeps_list_lifecycle ns state after lim :
  keeps self (list_secrets_in_lifecycle self ns state after lim) (fun _ => True).
Proof. unfold list_secrets_in_lifecycle. keep. Qed.
#[local] Hint Resolve keeps_create_namespace_with_id keeps_move_namespace_core keeps_create_secret_with_id
  keeps_update_secret keeps_list_lifecycle : keeps.

Lemma keeps_run_op v : keeps self (run_op self v op) (fun _ => True).
Proof.
  destruct v; simpl; eapply keeps_ignore;
    unfold vault_create_namespace, create_secret_with_schedule, reveal_current_secret,
      reveal_secret_version, secret_version_history, find_secret_by_exact_name, read_secret_metadata,
      list_namespaces, list_secrets, secrets_due, purge_secret_after_owner_approval, decrypt_with;
    keep; apply keeps_vault_change_lifecycle; set_solver.
Qed.
End Runs.

Section Log.
Context {CR : Crypto} (self : InitializedVault).

Lemma run_all_ok l w :
  Forall (fun vo => in_i64 (oc_now_unix_ms vo.2)) l -> world_ok self w -> world_ok self (run_all self l w).
Proof.
  intros HF. revert w. induction HF as [|[v op] l Hop HF IH]; intros w Hw; simpl; [done|].
  apply IH. by apply keeps_run_op.
Qed.

(** The rows of a chained table are in order already. *)
Lemma audit_rows_linked d : db_ok d -> audit_rows d = rows (db_audit d).
Proof.
  intros Hok. unfold audit_rows. pose proof (ok_linked _ Hok) as Hl. unfold audit_linked in Hl.
  replace (select _ (db_audit d)) with (rows (db_audit d)).
  - apply order_by_id. eapply StronglySorted_impl; [|by eapply linked_increasing].
    unfold by_sequence. intros. apply Z.leb_le. lia.
  - unfold select. symmetry. apply linked_seq in Hl. induction Hl as [|r l Hr Hl IH]; simpl; [done|].
    rewrite (proj2 (Z.ltb_lt _ _)) by lia. by rewrite IH.
Qed.

Lemma parse_audit_links r a :
  parse_audit r = Ok a -> arr (ar_previous_commitment a) = au_previous_commitment r
    /\ arr (ar_commitment a) = au_commitment r.
Proof.
  unfold parse_audit. intros H. minv. cbn. unfold parse_array in *. minv.
  repeat match goal with H : try_array 32 _ = Some _ |- _ => apply try_array_Some in H end. done.
Qed.

Lemma authentic_log_chain seq c l :
  linked seq (arr c) l -> (forall r, r ∈ l -> exists a, parse_audit r = Ok a /\ event_ok self a) ->
  exists recs, result_mapM parse_audit l = Ok recs /\ authentic_chain self (seq, c) recs
    /\ Forall record_typed recs
    /\ ((position (seq, c) recs).1, arr (position (seq, c) recs).2) = chain_end seq (arr c) l.
Proof.
  revert seq c. induction l as [|r l IH]; intros seq c Hl Ha; [by exists []|].
  simpl in Hl. destruct Hl as (Hs & _ & Hp & Hl).
  destruct (Ha r) as (a & Hr & Ht & Haa); [set_solver|].
  destruct (parse_audit_sequence _ _ Hr) as [Hsq _]. destruct (parse_audit_links _ _ Hr) as [Ep Ec].
  rewrite <- Ec in Hl. destruct (IH _ _ Hl) as (recs & Hm & Hc & HT & He); [set_solver|].
  exists (a :: recs). simpl. rewrite Hr, Hm. simpl. rewrite Hsq, <- Ec. split_and!; try done; [|by constructor].
  apply array_eq. by rewrite Ep.
Qed.

Lemma audit_chain_of_ok d :
  db_ok d -> log_authentic self d ->
  exists recs, audit_log d = Ok recs /\ authentic_chain self origin recs /\ Forall record_typed recs
    /\ audit_head d = Ok (head_at (position origin recs)) /\ (position origin recs).1 = zlen (rows (db_audit d)).
Proof.
  intros Hok Hl. destruct (authentic_log_chain 0 (zeros 32) (rows (db_audit d))) as (recs & Hm & Hc & HT & He);
    [apply Hok|done|].
  exists recs. unfold audit_log. rewrite audit_rows_linked by done. split; [done|]. split; [done|]. split; [done|].
  destruct (audit_head_end d) as (h & Hh & Hend & _); [eauto with tables|apply Hok|].
  split.
  - rewrite Hh. f_equal. unfold audit_end, chain_origin in Hend. rewrite Hend in He. destruct h. cbn in He |- *.
    injection He as E1 E2. unfold head_at, origin. f_equal; [done|]. by apply array_eq.
  - unfold origin. rewrite (chain_sequence _ _ _ Hc). apply result_mapM_Forall2, Forall2_length in Hm. unfold zlen. cbn. lia.
Qed.
End Log.

(** The same world with no other connection left. *)
Definition quiesce (w : World) : World :=
  {| w_db := w_db w; w_draws := w_draws w; w_ring := w_ring w; w_root_key := w_root_key w; w_schedule := [] |}.

(** A vault that satisfies the invariant verifies. *)
Lemma world_ok_verifies {CR : Crypto} (self : InitializedVault) (w : World) :
  world_ok self w ->
  exists v, verify_audit_chain self (quiesce w) = (Ok v, quiesce w)
            /\ av_events_verified v = zlen (rows (db_audit (w_db w))).
Proof.
  intros [Hok Hlog _ _].
  destruct (audit_chain_of_ok self _ Hok Hlog) as (recs & Hr & Hc & _ & Hh & Hn).
  exists (verification_at (position origin recs)). split; [|done].
  destruct (verify_audit_chain_spec self (quiesce w)) as [Hs Hv]; [done|cbn; eauto with tables| |].
  { intros r Hin. pose proof (ok_linked _ Hok) as Hlk. apply linked_seq in Hlk. rewrite Forall_forall in Hlk.
    by apply Hlk. }
  destruct (verify_audit_chain self (quiesce w)) as [r w'']. simpl in *. subst w''. f_equal. apply Hv. eauto.
Qed.
