(* ===== verification/AppRuns.v ===== *)
(** Every operation the application crate offers as one operation type, the
    runs of any sequence of them under interference, and the audit guarantee of
    such runs. *)
From Stdlib Require Import ZArith Lia Strings.Byte String.
From stdpp Require Import base tactics numbers option strings list gmap sets.
From S2P Require Import Prelude RustStd Core Crypto Sql Schema Records StoreInv PolicyStore VaultStore IdentityStore Store Metadata VaultCore Authentication Authorization ServiceIdentity AuthorizedVault VaultAudit VaultRuns.

(** The operations of an [AuthorizedVault]. *)
Inductive FacadeOp : Type :=
| FListNamespaces (parent after : option NamespaceId) (lim : Z)
| FListSecrets (ns : NamespaceId) (after : option SecretId) (lim : Z)
| FListLifecycle (ns : NamespaceId) (state : string) (after : option SecretId) (lim : Z)
| FCreateNamespace (parent : option NamespaceId) (m : Metadata)
| FCreateNamespaceIdempotent (parent : option NamespaceId) (m : Metadata) (i : IdempotencyInput)
| FCreateSecret (ns : NamespaceId) (m : Metadata) (value : blob) (s : SecretSchedule)
| FCreateSecretIdempotent (ns : NamespaceId) (m : Metadata) (value : blob) (s : SecretSchedule) (i : IdempotencyInput)
| FUpdateSecret (id : SecretId) (version rev : Z) (value : blob) (s : SecretSchedule)
| FReveal (id : SecretId)
| FHistory (id : SecretId) (after lim : Z)
| FRevealVersion (id : SecretId) (version : Z)
| FReadMetadata (id : SecretId)
| FFindByName (ns : NamespaceId) (name : rstring)
| FArchive (id : SecretId) (rev : Z)
| FRestore (id : SecretId) (rev : Z)
| FDelete (id : SecretId) (rev : Z)
| FPurge (id : SecretId) (rev cutoff : Z)
| FSecretsDue (lim : Z)
| FVerifyAudit
| FAuditEvents (after lim : Z)
| FBackupCreate
| FBackupInspect.

Inductive AppOp : Type :=
| AEnrollOwner (password : rstring)
| ARecoverOwner (password : rstring)
| ALogin (password : rstring)
| AAuthenticateSession (token : blob) (csrf : option blob) (require_csrf : bool)
| ALogout (owner : AuthenticatedOwner)
| ACreateService (owner : AuthenticatedOwner) (m : ServiceIdentityMetadata)
| AReadService (owner : AuthenticatedOwner) (id : PrincipalId)
| AListServices (owner : AuthenticatedOwner) (after : option PrincipalId) (lim : Z)
| AIssueCredential (owner : AuthenticatedOwner) (id : PrincipalId) (expires : option Z)
| AListCredentials (owner : AuthenticatedOwner) (id : PrincipalId) (after : option CredentialId) (lim : Z)
| AAuthenticateCredential (token : blob)
| ARevokeCredential (owner : AuthenticatedOwner) (id : PrincipalId) (cid : CredentialId) (rev : Z)
| ACreatePolicy (owner : AuthenticatedOwner) (label : rstring)
| AArchivePolicy (owner : AuthenticatedOwner) (id : PolicyId) (rev : Z)
| AAddGrant (owner : AuthenticatedOwner) (spec : GrantSpec)
| ABindPolicy (owner : AuthenticatedOwner) (service : PrincipalId) (id : PolicyId)
| AReadPolicy (owner : AuthenticatedOwner) (id : PolicyId)
| AListPolicies (owner : AuthenticatedOwner) (after : option PolicyId) (lim : Z)
| APolicyRules (owner : AuthenticatedOwner) (id : PolicyId)
| AEffectiveActions (owner : AuthenticatedOwner) (service : PrincipalId) (kind : ResourceKind) (id : ObjectId)
| APreviewMove (owner : AuthenticatedOwner) (id : NamespaceId) (parent : option NamespaceId)
| AMoveNamespace (owner : AuthenticatedOwner) (id : NamespaceId) (rev : Z) (parent : option NamespaceId)
    (delta : list EffectiveAccessDelta)
| AFacade (p : RequestPrincipal) (f : FacadeOp).

(** The world an operation leaves, whatever its outcome. *)
Definition leaves {E A} (m : Prog World E A) (w : World) : World := snd (m w).

Section Run.
Context {CR : Crypto} {PH : PasswordHashing} (self : InitializedVault).

Definition run_facade (f : FacadeOp) (av : AuthorizedVault) : World -> World :=
  match f with
  | FListNamespaces parent after lim => leaves (facade_list_namespaces self av parent after lim)
  | FListSecrets ns after lim => leaves (facade_list_secrets self av ns after lim)
  | FListLifecycle ns state after lim => leaves (facade_list_secrets_in_lifecycle self av ns state after lim)
  | FCreateNamespace parent m => leaves (facade_create_namespace self av parent m)
  | FCreateNamespaceIdempotent parent m i => leaves (create_namespace_idempotent self av parent m i)
  | FCreateSecret ns m value s => leaves (facade_create_secret self av ns m value s)
  | FCreateSecretIdempotent ns m value s i => leaves (create_secret_idempotent self av ns m value s i)
  | FUpdateSecret id version rev value s => leaves (facade_update_secret self av id version rev value s)
  | FReveal id => leaves (facade_reveal_current_secret self av id)
  | FHistory id after lim => leaves (facade_secret_version_history self av id after lim)
  | FRevealVersion id version => leaves (facade_reveal_secret_version self av id version)
  | FReadMetadata id => leaves (facade_read_secret_metadata self av id)
  | FFindByName ns name => leaves (facade_find_secret_by_exact_name self av ns name)
  | FArchive id rev => leaves (facade_archive_secret self av id rev)
  | FRestore id rev => leaves (facade_restore_archived_secret self av id rev)
  | FDelete id rev => leaves (facade_delete_secret self av id rev)
  | FPurge id rev cutoff => leaves (facade_purge_secret self av id rev cutoff)
  | FSecretsDue lim => leaves (facade_secrets_due self av lim)
  | FVerifyAudit => leaves (facade_verify_audit_chain self av)
  | FAuditEvents after lim => leaves (audit_events self av after lim)
  | FBackupCreate => leaves (authorize_backup_create self av)
  | FBackupInspect => leaves (authorize_backup_inspect self av)
  end.

Definition run_app (a : AppOp) (request : RequestId) (now : Z) (w : World) : World :=
  match a with
  | AEnrollOwner password => leaves (enroll_local_owner self password request now) w
  | ARecoverOwner password => leaves (recover_local_owner self password request now) w
  | ALogin password => leaves (login_with_password self password request now) w
  | AAuthenticateSession token csrf r => leaves (authenticate_browser_session self token csrf r now) w
  | ALogout owner => leaves (logout_browser_session self owner request now) w
  | ACreateService owner m => leaves (vault_create_service_identity self owner m request now) w
  | AReadService owner id => leaves (read_service_identity_metadata self owner id request now) w
  | AListServices owner after lim => leaves (service_identities self owner after lim request now) w
  | AIssueCredential owner id expires => leaves (issue_application_credential self owner id expires request now) w
  | AListCredentials owner id after lim =>
      leaves (application_credentials self owner id after lim request now) w
  | AAuthenticateCredential token => leaves (authenticate_application_credential self token request now) w
  | ARevokeCredential owner id cid rev =>
      leaves (vault_revoke_application_credential self owner id cid rev request now) w
  | ACreatePolicy owner label => leaves (vault_create_policy self owner label request now) w
  | AArchivePolicy owner id rev => leaves (vault_archive_policy self owner id rev request now) w
  | AAddGrant owner spec => leaves (vault_add_policy_grant self owner spec request now) w
  | ABindPolicy owner service id => leaves (bind_policy_to_service self owner service id request now) w
  | AReadPolicy owner id => leaves (read_policy self owner id request now) w
  | AListPolicies owner after lim => leaves (policies self owner after lim request now) w
  | APolicyRules owner id => leaves (policy_rules self owner id request now) w
  | AEffectiveActions owner service kind id =>
      leaves (effective_service_actions self owner service kind id request now) w
  | APreviewMove owner id parent => leaves (preview_namespace_move self owner id parent request now) w
  | AMoveNamespace owner id rev parent delta =>
      leaves (vault_move_namespace self owner id rev parent delta request now) w
  | AFacade p f =>
      match authorized self p request now w with
      | (Ok av, w') => run_facade f av w'
      | (Err _, w') => w'
      end
  end.

Fixpoint run_apps (l : list (AppOp * RequestId * Z)) (w : World) : World :=
  match l with
  | [] => w
  | (a, request, now) :: l' => run_apps l' (run_app a request now w)
  end.
End Run.

(** * Every operation keeps the invariant *)

Lemma keeps_call_op {CR : Crypto} (self : InitializedVault) {E A B} (m : Store A)
    (k : result StorageError A -> result E B) op :
  (forall d, snd (m d) = snd (exec op d)) -> op_typed op ->
  (forall a, op_event op = Some a -> event_ok self a) -> keeps self (call_raw m k) (fun _ => True).
Proof. intros Hm Ht Ha w Hw. split; [|done]. by eapply keeps_call_raw. Qed.

(** A storage call, as the operation it is. *)
Ltac stored :=
  let by_op op := solve [apply (keeps_call_op _ _ _ op); [done|done|]; by intros ? [= <-]] in
  lazymatch goal with |- keeps _ (call_raw ?m _) _ =>
    lazymatch m with
    | append_audit ?a => by_op constr:(OpAppendAudit a)
    | create_policy ?p ?r ?c ?a => by_op constr:(OpCreatePolicy p r c a)
    | add_policy_grant ?g ?r ?c ?a => by_op constr:(OpAddGrant g r c a)
    | archive_policy ?i ?pr ?pc ?u ?r ?c ?a => by_op constr:(OpArchivePolicy i pr pc u r c a)
    | bind_policy ?b ?r ?c ?a => by_op constr:(OpBindPolicy b r c a)
    | reserve_idempotency ?p ?k ?f ?kind ?id ?now ?e => by_op constr:(OpReserveIdempotency p k f kind id now e)
    | create_service_identity ?i ?a => by_op constr:(OpCreateService i a)
    | enroll_owner ?p ?pc ?ac ?o ?now ?a => by_op constr:(OpEnrollOwner p pc ac o now a)
    | add_owner_authenticator ?p ?o ?now ?a => by_op constr:(OpAddAuthenticator p o now a)
    | create_session ?s ?a => by_op constr:(OpCreateSession s a)
    | touch_session ?i ?u ?n ?d ?r ?c => by_op constr:(OpTouchSession i u n d r c)
    | revoke_session ?i ?u ?at_ ?c ?a => by_op constr:(OpRevokeSession i u at_ c a)
    | create_application_credential ?c ?a => by_op constr:(OpCreateCredential c a)
    | mark_application_credential_used ?i ?r ?n ?c => by_op constr:(OpMarkCredential i r n c)
    | revoke_application_credential ?i ?r ?at_ ?c ?a => by_op constr:(OpRevokeCredential i r at_ c a)
    end
  end.

Ltac app_step :=
  lazymatch goal with
  | |- keeps _ (prog_bind (match _ with _ => _ end) _) _ =>
      eapply (keeps_bind _ _ _ (fun _ => True)); [app_step | cbv beta; intros]
  | |- keeps _ (prog_bind _ _) _ => eapply keeps_bind; [app_step | cbv beta; intros]
  | |- keeps _ (prog_map_err _ _) _ => apply keeps_map_err; app_step
  | |- keeps _ (prog_try _) _ => eapply keeps_try; app_step
  | |- keeps _ (prog_mapM _ _) _ => apply keeps_mapM; intros
  | |- keeps _ (match ?o with _ => _ end) _ => destruct o
  | |- keeps _ (call_raw (prog_read _) _) _ => apply keeps_call_read
  | |- keeps _ (call_raw _ _) _ => stored
  | |- _ => solve [eauto with keeps | eapply keeps_any; eauto with keeps]
  end.
Ltac app_keep :=
  unfold auth_ask, auth_call, az_ask, az_call, ask_or_deny, is_stored, auth_audit, az_audit,
    auth_random_id, az_random_id, decrypt_with;
  repeat (app_step; cbv beta zeta iota).

Section Keeps.
Context {CR : Crypto} {PH : PasswordHashing} (self : InitializedVault) (request : RequestId) (now : Z).
Hypothesis Hnow : in_i64 now.

Lemma keeps_owner_context owner : keeps self (verify_owner_context_active self owner now) (fun _ => True).
Proof. unfold verify_owner_context_active. app_keep. Qed.
#[local] Hint Resolve keeps_owner_context : keeps.

Lemma keeps_operation p : in_i64 (oc_now_unix_ms (operation p request now)).
Proof. done. Qed.
#[local] Hint Resolve keeps_operation : keeps.

Lemma keeps_snapshot : keeps self (verified_authorization_snapshot self) (fun _ => True).
Proof. unfold verified_authorization_snapshot. app_keep. Qed.
#[local] Hint Resolve keeps_snapshot : keeps.

Lemma keeps_ancestors kind id : keeps self (resource_namespace_ancestors self kind id) (fun _ => True).
Proof. unfold resource_namespace_ancestors. app_keep. Qed.
#[local] Hint Resolve keeps_ancestors : keeps.

Lemma keeps_service_is_allowed p a kind id : keeps self (service_is_allowed self p a kind id) (fun _ => True).
Proof. unfold service_is_allowed. app_keep. Qed.
#[local] Hint Resolve keeps_service_is_allowed : keeps.

Lemma keeps_authorize p a kind id : keeps self (authorize self p a kind id request now) (fun _ => True).
Proof. unfold authorize. app_keep. Qed.
#[local] Hint Resolve keeps_authorize : keeps.

Lemma keeps_begin_change owner : keeps self (begin_policy_change self owner request now) (fun _ => True).
Proof. unfold begin_policy_change, require_owner_context. app_keep. Qed.
Lemma keeps_begin_read owner a : keeps self (begin_policy_read self owner a request now) (fun _ => True).
Proof. unfold begin_policy_read, require_owner_context. app_keep. Qed.
Lemma keeps_owner_authorize owner a : keeps self (owner_authorize self owner a request now) (fun _ => True).
Proof. unfold owner_authorize. app_keep. Qed.
Lemma keeps_active_service id : keeps self (require_active_service self id) (fun _ => True).
Proof. unfold require_active_service. app_keep. Qed.
Lemma keeps_grant_target kind id : keeps self (verify_grant_target self kind id) (fun _ => True).
Proof. unfold verify_grant_target. app_keep. Qed.
Lemma keeps_policy_details p : keeps self (policy_details self p) (fun _ => True).
Proof. unfold policy_details. app_keep. Qed.
#[local] Hint Resolve keeps_begin_change keeps_begin_read keeps_owner_authorize keeps_active_service
  keeps_grant_target keeps_policy_details : keeps.

Lemma keeps_effective_actions l p kind id : keeps self (effective_actions self l p kind id) (fun _ => True).
Proof. induction l as [|a l IH]; simpl; app_keep. Qed.
Lemma keeps_preview_core owner id parent :
  keeps self (preview_namespace_move_core self owner id parent now) (fun _ => True).
Proof. unfold preview_namespace_move_core. app_keep. Qed.
Lemma keeps_browser_session owner a data :
  keeps self (create_browser_session self owner a data request now) (fun _ => True).
Proof. unfold create_browser_session. app_keep. Qed.
Lemma keeps_hash_password p : keeps self (hash_password p) (fun _ => True).
Proof. intros w Hw. split; [|done]. by apply set_draws_ok. Qed.
Lemma keeps_open_service r id : keeps self (open_service_metadata self r id) (fun _ => True).
Proof. unfold open_service_metadata. app_keep. Qed.
Lemma keeps_credential_denial r :
  keeps self (audit_application_credential_denial self r request now) (fun _ => True).
Proof. unfold audit_application_credential_denial. app_keep. Qed.
Lemma keeps_move_core owner id rev parent :
  keeps self (move_namespace_core self id rev parent (operation owner request now)) (fun _ => True).
Proof. by apply keeps_move_namespace_core. Qed.
#[local] Hint Resolve keeps_effective_actions keeps_preview_core keeps_browser_session keeps_hash_password
  keeps_open_service keeps_credential_denial keeps_move_core : keeps.

Lemma keeps_service_context service :
  keeps self (verify_service_context_active self service now) (fun _ => True).
Proof. unfold verify_service_context_active. app_keep. Qed.
#[local] Hint Resolve keeps_service_context : keeps.

Lemma keeps_leaves {E A} (m : Prog World E A) Q w : keeps self m Q -> world_ok self w -> world_ok self (leaves m w).
Proof. intros H Hw. by apply H. Qed.

Lemma keeps_verify_pages fuel at_ : keeps self (verify_pages self fuel at_) (fun _ => True).
Proof. revert at_. induction fuel as [|n IH]; intros at_; simpl; app_keep. Qed.
Lemma keeps_verify_chain : keeps self (verify_audit_chain self) (fun _ => True).
Proof.
  intros w Hw. unfold verify_audit_chain. generalize (verify_fuel w). intros n. revert w Hw.
  change (keeps self (do! at_ := verify_pages self n (0, zeros 32) in
    do! head := ask audit_head in
    do! _ := prog_reject (negb (head_sequence head =? at_.1)
                          || negb (bool_decide (head_commitment head = at_.2))) VConflict in
    prog_ret {| av_events_verified := at_.1; av_final_sequence := at_.1;
                av_final_commitment := at_.2 |}) (fun _ => True)).
  pose proof (keeps_verify_pages n (0, zeros 32)). app_keep.
Qed.

(** The operations of the vault domain, as they are called by the facade. *)
Lemma keeps_vault_op {A} (m : Vault A) (v : VaultOp) op :
  run_op self v op = ignore m -> in_i64 (oc_now_unix_ms op) -> keeps self m (fun _ => True).
Proof.
  intros Hm Hop w Hw. split; [|done]. destruct (keeps_run_op self op Hop v w Hw) as [H _].
  rewrite Hm in H. unfold ignore, prog_bind, prog_ret in H. by destruct (m w) as [[|] ?].
Qed.

(** An operation of the vault domain, by its constructor. *)
Ltac domain_op :=
  lazymatch goal with |- keeps _ ?m _ =>
    let op v := apply (keeps_vault_op m v (local_operation request now)); [reflexivity|exact Hnow] in
    let opc v c := apply (keeps_vault_op m v c); [reflexivity|exact Hnow] in
    lazymatch m with
    | list_namespaces _ ?p ?a ?l => op constr:(VListNamespaces p a l)
    | list_secrets _ ?n ?a ?l => op constr:(VListSecrets n a l)
    | list_secrets_in_lifecycle _ ?n ?s ?a ?l => op constr:(VListLifecycle n s a l)
    | secret_version_history _ ?i ?a ?l => op constr:(VHistory i a l)
    | read_secret_metadata _ ?i => op constr:(VReadMetadata i)
    | find_secret_by_exact_name _ ?n ?x => op constr:(VFindByName n x)
    | secrets_due _ ?n ?l => op constr:(VSecretsDue n l)
    | vault_create_namespace _ ?p ?m ?c => opc constr:(VCreateNamespace p m) c
    | create_namespace_with_id _ ?i ?p ?m ?c => opc constr:(VCreateNamespaceWithId i p m) c
    | create_secret_with_schedule _ ?n ?m ?v ?s ?c => opc constr:(VCreateSecret n m v s) c
    | create_secret_with_id_and_schedule _ ?i ?n ?m ?v ?s ?c => opc constr:(VCreateSecretWithId i n m v s) c
    | update_secret_with_schedule _ ?i ?v ?r ?x ?s ?c => opc constr:(VUpdateSecret i v r x s) c
    | reveal_current_secret _ ?i ?c => opc constr:(VReveal i) c
    | reveal_secret_version _ ?i ?v ?c => opc constr:(VRevealVersion i v) c
    | archive_secret _ ?i ?r ?c => opc constr:(VArchive i r) c
    | restore_archived_secret _ ?i ?r ?c => opc constr:(VRestore i r) c
    | delete_secret _ ?i ?r ?c => opc constr:(VDelete i r) c
    | purge_secret_after_owner_approval _ ?i ?r ?a ?c => opc constr:(VPurge i r a) c
    end
  end.
#[local] Hint Extern 2 (keeps _ _ _) => domain_op : keeps.
#[local] Hint Resolve keeps_verify_chain : keeps.

Lemma run_facade_ok p f w :
  world_ok self w ->
  world_ok self (run_facade self f {| av_principal := p; av_request_id := request; av_now_unix_ms := now |} w).
Proof.
  intros Hw. destruct f; unfold run_facade; eapply keeps_leaves; try exact Hw;
    unfold facade_list_namespaces, facade_list_secrets, facade_list_secrets_in_lifecycle,
      facade_create_namespace, create_namespace_idempotent, facade_create_secret, create_secret_idempotent,
      facade_update_secret, facade_reveal_current_secret, facade_secret_version_history,
      facade_reveal_secret_version, facade_read_secret_metadata, facade_find_secret_by_exact_name,
      facade_archive_secret, facade_restore_archived_secret, facade_delete_secret, facade_purge_secret,
      facade_secrets_due, facade_verify_audit_chain, audit_events, authorize_backup_create,
      authorize_backup_inspect, authorize_secret, facade_authorize, then_vault, facade_reserve;
    app_keep.
Qed.

Lemma run_app_ok a w : world_ok self w -> world_ok self (run_app self a request now w).
Proof.
  intros Hw. destruct a; unfold run_app; [eapply keeps_leaves; try exact Hw..|].
  all: unfold enroll_local_owner, recover_local_owner, login_with_password, authenticate_browser_session,
    logout_browser_session, vault_create_service_identity, read_service_identity_metadata,
    service_identities, issue_application_credential, application_credentials,
    authenticate_application_credential, vault_revoke_application_credential, vault_create_policy,
    vault_archive_policy, vault_add_policy_grant, bind_policy_to_service, read_policy, policies,
    policy_rules, effective_service_actions, preview_namespace_move, vault_move_namespace,
    require_owner_context.
  1-22: app_keep.
  assert (keeps self (authorized self p request now)
    (fun av => av = {| av_principal := p; av_request_id := request; av_now_unix_ms := now |})) as H.
  { unfold authorized. eapply keeps_bind with (Q := fun _ => True); [app_keep|].
    intros _ _. apply keeps_pure; [done|]. by intros ? ? _ [= <-]. }
  destruct (H w Hw) as [H1 H2]. destruct (authorized self p request now w) as [[av|e] w']; simpl in *; [|done].
  rewrite (H2 av eq_refl). by apply run_facade_ok.
Qed.
End Keeps.

Lemma run_apps_ok {CR : Crypto} {PH : PasswordHashing} (self : InitializedVault) l w :
  Forall (fun x => in_i64 x.2) l -> world_ok self w -> world_ok self (run_apps self l w).
Proof.
  intros HF. revert w. induction HF as [|[[a request] now] l Hop HF IH]; intros w Hw; simpl; [done|].
  apply IH. by apply run_app_ok.
Qed.

