(* ===== verification/VaultProps.v ===== *)
(** What the vault domain promises its callers: the keyed commitments over secrets
    and namespaces bind their state, what is written reads back, and the bounds
    the code enforces. *)
From Stdlib Require Import ZArith Lia Strings.Byte String.
From stdpp Require Import base tactics numbers option strings list gmap sets.
From S2P Require Import Prelude RustStd Core Crypto Sql Schema Records StoreInv RecordsOk VaultStore Store RecordsProps Metadata VaultCore VaultAudit VaultRuns.

(** The state a commitment covers. *)
Inductive CommittedState : Type :=
| NamespaceState (id : NamespaceId) (parent : option NamespaceId) (index : array 32)
    (lifecycle : string) (revision metadata_version : Z)
| SecretState (id : SecretId) (ns : NamespaceId) (index : array 32) (lifecycle : string)
    (version revision metadata_version : Z) (schedule : SecretSchedule).

Definition secret_state (r : SecretRecord) : CommittedState :=
  SecretState (sr_secret_id r) (sr_namespace_id r) (sr_name_index r) (sr_lifecycle_state r)
    (sr_current_version r) (sr_revision r) (sr_metadata_version r) (sr_schedule r).
Definition namespace_state (n : NamespaceRecord) : CommittedState :=
  NamespaceState (nr_namespace_id n) (nr_parent_namespace_id n) (nr_name_index n)
    (nr_lifecycle_state n) (nr_revision n) (nr_metadata_version n).

Definition commit_state {CR : Crypto} (self : InitializedVault) (s : CommittedState)
  : result VaultError (array 32) :=
  match s with
  | NamespaceState id p i l r m => namespace_state_commitment self id p i l r m
  | SecretState id ns i l v r m sch => secret_state_commitment self id ns i l v r m sch
  end.

Definition timestamp_typed (o : option Z) : Prop := forall t, o = Some t -> in_i64 t.
Definition state_typed (s : CommittedState) : Prop :=
  match s with
  | NamespaceState _ _ _ _ r m => in_u64 r /\ in_u64 m
  | SecretState _ _ _ _ v r m sch => in_u64 v /\ in_u64 r /\ in_u64 m
      /\ timestamp_typed (expires_at_unix_ms sch) /\ timestamp_typed (rotation_due_at_unix_ms sch)
  end.

(** * Lemmas *)

Lemma lifecycle_code_inj a b c : lifecycle_code a = Ok c -> lifecycle_code b = Ok c -> a = b.
Proof. unfold lifecycle_code. repeat case_bool_decide; congruence. Qed.

Lemma lifecycle_code_range a c : lifecycle_code a = Ok c -> 0 <= c < 256.
Proof. unfold lifecycle_code. repeat case_bool_decide; intros [= <-]; lia. Qed.

Lemma peels_u8 : peels u8_be (fun c => 0 <= c < 256).
Proof.
  apply peels_fixed; [intros; by autorewrite with smcv_len|].
  intros a b Ha Hb. by apply (be_encode_inj_unsigned 1).
Qed.

Lemma peels_timestamp : peels optional_timestamp timestamp_typed.
Proof.
  intros [a|] [b|] r s Ha Hb; unfold optional_timestamp; rewrite <- ?app_assoc; cbn [app];
    intros H; try discriminate H; apply cons_tail_inj in H.
  - apply peels_i64 in H as [-> ->]; auto.
  - by apply app_inv_head in H.
Qed.

Lemma peels_parent :
  peels (fun p : option NamespaceId =>
           match p with Some p => [x01] ++ arr p | None => [x00] ++ arr (zeros 16) end) (fun _ => True).
Proof.
  intros [a|] [b|] r s _ _; rewrite <- ?app_assoc; cbn [app]; intros H; try discriminate H; apply cons_tail_inj in H.
  - apply (peels_array 16) in H as [-> ->]; done.
  - by apply app_inv_head in H.
Qed.

Section Binding.
Context {CR : Crypto} (self : InitializedVault).

(** The canonical bytes of a state, when its lifecycle has a code. *)
Definition canonical (s : CommittedState) (code : Z) : blob :=
  match s with
  | NamespaceState id p i _ r m => namespace_canonical self id p i code r m
  | SecretState id ns i _ v r m sch => secret_canonical self id ns i code v r m sch
  end.
Definition state_lifecycle (s : CommittedState) : string :=
  match s with NamespaceState _ _ _ l _ _ => l | SecretState _ _ _ l _ _ _ _ => l end.

Lemma state_commitment_Ok key b c :
  state_commitment key b = Ok c -> c = hmac_sha256 (arr key) (state_message b) /\ zlen b <= 4096.
Proof. unfold state_commitment. case_match eqn:E; [done|]. intros [= <-]. bprop. split; [done|lia]. Qed.

Lemma commit_state_Ok s c :
  commit_state self s = Ok c ->
  exists code, lifecycle_code (state_lifecycle s) = Ok code
    /\ c = hmac_sha256 (arr (iv_audit_key self)) (state_message (canonical s code))
    /\ zlen (canonical s code) <= 4096.
Proof.
  destruct s; cbn; unfold namespace_state_commitment, secret_state_commitment; intros H; minv;
    match goal with H : state_commitment _ _ = _ |- _ => apply state_commitment_Ok in H as [-> ?] end; eauto.
Qed.

Lemma state_message_inj a b : zlen a <= 4096 -> zlen b <= 4096 -> state_message a = state_message b -> a = b.
Proof.
  intros Ha Hb H. apply app_inv_head in H.
  apply (peels_inj _ _ a b peels_length_prefixed) in H; [done|unfold u16_max; lia..].
Qed.

Lemma canonical_inj s s' c c' :
  state_typed s -> state_typed s' -> 0 <= c < 256 -> 0 <= c' < 256 ->
  canonical s c = canonical s' c' -> c = c' /\ (state_lifecycle s = state_lifecycle s' -> s = s').
Proof.
  destruct s as [id p i l r m|id ns i l v r m sch], s' as [id' p' i' l' r' m'|id' ns' i' l' v' r' m' sch'];
    cbn [canonical state_lifecycle state_typed]; unfold namespace_canonical, secret_canonical; intros T T' Hc Hc' H;
    try discriminate H.
  - destruct T, T'. do 3 apply app_inv_head in H.
    apply (peels_array 16) in H as [-> H]; [|done..].
    apply peels_parent in H as [-> H]; [|done..].
    apply (peels_array 32) in H as [-> H]; [|done..].
    apply peels_u8 in H as [-> H]; [|done..].
    apply peels_u64 in H as [-> H]; [|done..].
    apply u64_be_inj in H as ->; [|done..]. split; [done|]. by intros ->.
  - destruct T as (?&?&?&?&?), T' as (?&?&?&?&?). do 3 apply app_inv_head in H.
    do 2 (apply (peels_array 16) in H as [-> H]; [|done..]).
    apply (peels_array 32) in H as [-> H]; [|done..].
    apply peels_u8 in H as [-> H]; [|done..].
    do 3 (apply peels_u64 in H as [-> H]; [|done..]).
    apply peels_timestamp in H as [E1 H]; [|done..].
    apply (peels_inj _ _ _ _ peels_timestamp) in H; [|done..].
    split; [done|]. intros ->. f_equal. destruct sch, sch'; cbn in *. congruence.
Qed.
End Binding.

(** A state commitment binds the whole state: two states of secrets or
    namespaces of one vault with the same commitment agree in kind, identity,
    parent, name index, lifecycle, versions, revision and schedule, or
    HMAC-SHA-256 under the audit key collides. So a row whose state columns
    were altered, or copied from another row, does not verify. *)
Theorem state_commitment_binds {CR : Crypto} (self : InitializedVault) (s s' : CommittedState) (c : array 32)
    (T : state_typed s) (T' : state_typed s')
    (H : commit_state self s = Ok c) (H' : commit_state self s' = Ok c) :
  s = s' \/ hmac_collision (iv_audit_key self).
Proof.
  apply commit_state_Ok in H as (k & Hk & Hc & Hl), H' as (k' & Hk' & Hc' & Hl').
  destruct (decide (state_message (canonical self s k) = state_message (canonical self s' k'))) as [E|E].
  - apply state_message_inj in E; [|done..]. left.
    apply canonical_inj in E as [<- E]; eauto using lifecycle_code_range.
    apply E. by eapply lifecycle_code_inj.
  - right. exists (state_message (canonical self s k)), (state_message (canonical self s' k')). split; [done|congruence].
Qed.

Section Envelope.
Context {CR : Crypto} {CL : CryptoLaws} (self : InitializedVault).

Lemma randomly_Ok {A} (m : Prog nat CryptoError A) w a w' :
  randomly m w = (Ok a, w') <-> exists n, m (w_draws w) = (Ok a, n) /\ w' = set_w_draws n w.
Proof.
  unfold randomly. destruct (m (w_draws w)) as [[x|e] n]; simpl; split.
  - intros [= <- <-]. eauto.
  - by intros (? & [= <- <-] & ->).
  - done.
  - by intros (? & ? & _).
Qed.

(** An encrypted record opens, under the same key ring, to its plaintext. *)
Lemma encrypt_record_Ok text kind wrapped id version w e w' :
  encrypt_record self text kind wrapped id version w = (Ok e, w') ->
  (exists n, w' = set_w_draws n w)
  /\ decrypt_record self (w_ring w) e kind wrapped id version = Ok text
  /\ er_kek_version e = kr_active_version (w_ring w)
  /\ length (er_ciphertext e) = (length text + 16)%nat.
Proof.
  intros H. unfold encrypt_record in H. minv.
  repeat match goal with H : randomly _ _ = _ |- _ => apply randomly_Ok in H as (? & ? & ->) end.
  match goal with H : (let '(_, _) := ?p in _) _ = _ |- _ => destruct p as [kv key] end. minv.
  repeat match goal with H : randomly _ _ = _ |- _ => apply randomly_Ok in H as (? & ? & ->) end.
  repeat match goal with H : seal _ _ _ _ = _ |- _ => apply open_seal in H as [??] end.
  match goal with H : try_array 48 _ = Some _ |- _ => apply try_array_Some in H end.
  match goal with H : active_kek _ = Some _ |- _ => unfold active_kek in H end.
  cbn in *. destruct (kr_keys (w_ring w) !! kr_active_version (w_ring w)) as [k|] eqn:Ek; simplify_eq/=.
  split; [by eexists|]. split; [|done].
  unfold decrypt_record, kek; cbn. rewrite Ek. cbn [ok_or result_bind].
  match goal with H : arr _ = sr_ciphertext ?x |- _ => rewrite H; destruct x as [nw cw]; cbn in * end.
  match goal with H : open key _ _ = Ok _ |- _ => rewrite H end. cbn [map_err result_bind].
  unfold key_from_protected, KEY_LENGTH. rewrite try_array_arr. cbn [ok_or map_err result_bind].
  match goal with H : open ?x _ ?r = Ok text |- _ => destruct r; cbn in *; by rewrite H end.
Qed.
End Envelope.

Lemma active_typed e r : er_kek_version e = kr_active_version r -> in_u32 (kr_active_version r) -> er_typed e.
Proof. unfold er_typed. by intros ->. Qed.

(** ** Successful runs on a quiet vault *)

Lemma call_Ok {A} (m : Store A) w a w' :
  quiet w -> call m w = (Ok a, w') -> exists d, m (w_db w) = (Ok a, d) /\ w' = set_w_db d w.
Proof.
  intros Hq. rewrite call_quiet by done. destruct (m (w_db w)) as [[x|e] d]; simpl; [|done].
  intros [= <- <-]. eauto.
Qed.

Lemma ask_Ok {A} (f : Db -> result StorageError A) w a w' :
  quiet w -> ask f w = (Ok a, w') -> f (w_db w) = Ok a /\ w' = w.
Proof. intros Hq. rewrite ask_quiet by done. intros [= H <-]. by apply map_err_Ok in H. Qed.

Lemma random_id_Ok {CR : Crypto} w a w' :
  random_id w = (Ok a, w') -> a = new_v4 (w_draws w) /\ w' = set_w_draws (S (w_draws w)) w.
Proof. by intros [= <- <-]. Qed.

Ltac quietly := first [assumption | done].
Ltac vinv :=
  repeat first
    [ progress minv
    | match goal with
      | H : call _ _ = (Ok _, _) |- _ => apply call_Ok in H as (? & ? & ->); [|quietly]
      | H : ask _ _ = (Ok _, _) |- _ => apply ask_Ok in H as (? & ->); [|quietly]
      | H : randomly _ _ = (Ok _, _) |- _ => apply randomly_Ok in H as (? & ? & ->)
      | H : random_id _ = (Ok _, _) |- _ => apply random_id_Ok in H as [-> ->]
      end ].

Section Quiet.
Context {CR : Crypto} {CL : CryptoLaws} (self : InitializedVault).

Lemma build_audit_Ok action kind target op w a w' :
  quiet w -> build_audit self action kind target op w = (Ok a, w') -> exists n, w' = set_w_draws n w.
Proof. intros Hq H. unfold build_audit, build_audit_outcome in H. vinv. eauto. Qed.

(** Reading the current value of a secret whose state and payload are good
    comes down to recording the event. *)
Lemma reveal_current_run w id op r e p :
  quiet w -> secret (w_db w) id = Ok r -> verify_secret_state self r = Ok tt ->
  sr_lifecycle_state r = "active" -> encrypted_secret_version (w_db w) id (sr_current_version r) = Ok e ->
  decrypt_record self (w_ring w) e OSecretVersion OWrappedDataKey id (sr_current_version r) = Ok p ->
  reveal_current_secret self id op w
  = (do! audit := build_audit self "secret:value-read" "secret" (Some id) op in
     do! _ := call (append_audit audit) in prog_ret p) w.
Proof.
  intros Hq Hr Hv Ha He Hp. unfold reveal_current_secret. rewrite bind_ask, Hr by done.
  unfold prog_bind at 1, prog_lift. rewrite Hv. unfold prog_bind at 1, prog_reject.
  rewrite Ha, bool_decide_true by done. cbn [negb]. rewrite bind_ask, He by done.
  unfold prog_bind at 1, decrypt_with, prog_read. by rewrite Hp.
Qed.

Lemma reveal_version_run w id k op r e p :
  quiet w -> k <> 0 -> secret (w_db w) id = Ok r -> verify_secret_state self r = Ok tt ->
  sr_lifecycle_state r <> "deleted" -> k <= sr_current_version r ->
  encrypted_secret_version (w_db w) id k = Ok e ->
  decrypt_record self (w_ring w) e OSecretVersion OWrappedDataKey id k = Ok p ->
  reveal_secret_version self id k op w
  = (do! audit := build_audit self "secret:version-read" "secret" (Some id) op in
     do! _ := call (append_audit audit) in prog_ret p) w.
Proof.
  intros Hq Hk Hr Hv Ha Hle He Hp. unfold reveal_secret_version, prog_bind at 1, prog_reject.
  rewrite (proj2 (Z.eqb_neq _ _)) by done. rewrite bind_ask, Hr by done.
  unfold prog_bind at 1, prog_lift. rewrite Hv. unfold prog_bind at 1.
  rewrite bool_decide_false, (proj2 (Z.ltb_ge _ _)) by done. cbn [orb]. rewrite bind_ask, He by done.
  unfold prog_bind at 1, decrypt_with, prog_read. by rewrite Hp.
Qed.

Lemma verify_secret_state_Ok r :
  secret_state_commitment self (sr_secret_id r) (sr_namespace_id r) (sr_name_index r)
    (sr_lifecycle_state r) (sr_current_version r) (sr_revision r) (sr_metadata_version r)
    (sr_schedule r) = Ok (sr_state_commitment r) <-> verify_secret_state self r = Ok tt.
Proof.
  unfold verify_secret_state. split.
  - intros ->. cbn. by rewrite bool_decide_true.
  - intros H. minv. match goal with H : (if ?b then _ else _) = _ |- _ => destruct b eqn:E; [done|] end.
    bprop. congruence.
Qed.

Lemma decrypt_metadata_run ring r m b :
  decrypt_record self ring (sr_metadata r) OSecretMetadata OWrappedMetadataKey (sr_secret_id r)
    (sr_metadata_version r) = Ok b ->
  decode_metadata b 2 = Ok m -> decrypt_metadata self ring r = Ok m.
Proof. intros Hd Hm. unfold decrypt_metadata. rewrite Hd. done. Qed.

Lemma read_metadata_run w id r m :
  quiet w -> secret (w_db w) id = Ok r -> verify_secret_state self r = Ok tt ->
  sr_lifecycle_state r = "active" -> decrypt_metadata self (w_ring w) r = Ok m ->
  read_secret_metadata self id w = (Ok m, w).
Proof.
  intros Hq Hr Hv Ha Hd. unfold read_secret_metadata. rewrite bind_ask, Hr by done.
  unfold prog_bind, prog_lift, prog_reject, prog_read. by rewrite Hv, Ha, bool_decide_true, Hd.
Qed.

Lemma find_by_name_run w ns name i r m :
  quiet w -> exact_name_index (iv_blind_index_key self) ns name = Ok i ->
  secret_by_name_index (w_db w) ns i = Ok (Some r) -> verify_secret_state self r = Ok tt ->
  sr_lifecycle_state r = "active" -> decrypt_metadata self (w_ring w) r = Ok m -> nfc name = nfc (md_name m) ->
  find_secret_by_exact_name self ns name w = (Ok (sr_secret_id r), w).
Proof.
  intros Hq Hi Hr Hv Ha Hd Hn. unfold find_secret_by_exact_name, prog_bind at 1, prog_lift. rewrite Hi.
  cbn [map_err]. rewrite bind_ask, Hr by done.
  unfold prog_bind, prog_lift, prog_reject, prog_read, prog_ret. cbn [ok_or].
  by rewrite Hv, Ha, bool_decide_true, Hd, Hn, blob_eqb_refl.
Qed.

(** The index of a name depends on its normal form only. *)
Lemma exact_name_index_nfc key ns a b : nfc a = nfc b -> exact_name_index key ns a = exact_name_index key ns b.
Proof. unfold exact_name_index. by intros ->. Qed.
End Quiet.

(** C2. A created secret reads back: after a successful creation on a
    quiescent vault, revealing the secret yields exactly the value stored and
    only recording the read can fail, the metadata read is the metadata given,
    and looking the secret up by any canonically equivalent spelling of its
    name finds it. *)
Theorem created_secret_reads_back {CR : Crypto} {CL : CryptoLaws} (self : InitializedVault)
    (id : SecretId) (ns : NamespaceId) (m : Metadata) (value : blob) (sch : SecretSchedule)
    (op : OperationContext) (w w' : World) (c : SecretCreated)
    (Hq : quiet w) (Hok : db_ok (w_db w)) (Hring : in_u32 (kr_active_version (w_ring w)))
    (Hrun : create_secret_with_id_and_schedule self id ns m value sch op w = (Ok c, w')) :
  (forall op2, reveal_current_secret self id op2 w'
     = (do! audit := build_audit self "secret:value-read" "secret" (Some id) op2 in
        do! _ := call (append_audit audit) in prog_ret value) w')
  /\ read_secret_metadata self id w' = (Ok m, w')
  /\ (forall name, nfc name = nfc (md_name m) ->
        find_secret_by_exact_name self ns name w' = (Ok id, w')).
Proof.
  unfold create_secret_with_id_and_schedule in Hrun. vinv.
  repeat match goal with H : encrypt_record _ _ _ _ _ _ _ = _ |- _ =>
    apply encrypt_record_Ok in H as ([? ->] & ? & ? & ?) end.
  vinv.
  match goal with H : build_audit _ _ _ _ _ _ = _ |- _ => apply build_audit_Ok in H as [? ->]; [|done] end.
  vinv.
  match goal with H : create_secret ?ins ?a _ = (Ok ?u, ?d) |- _ =>
    destruct u; apply create_secret_reads_back in H as (Hsec & Hver & Hname); [|done|by eapply active_typed..] end.
  cbn in Hsec, Hver, Hname. set (w' := set_w_db _ _).
  match type of Hsec with _ = Ok ?r => set (rec := r) in * end.
  assert (verify_secret_state self rec = Ok tt) as Hv by (by apply verify_secret_state_Ok).
  assert (decrypt_metadata self (w_ring w') rec = Ok m) as Hd.
  { eapply decrypt_metadata_run; [done|]. by eapply decode_encoded. }
  split; [|split].
  - intros op2. by eapply (reveal_current_run self w' id op2 rec).
  - by eapply read_metadata_run.
  - intros name Hn. eapply (find_by_name_run self w' ns name _ rec); try done.
    by rewrite (exact_name_index_nfc _ _ _ _ Hn).
Qed.

Section Update.
Context {CR : Crypto} {CL : CryptoLaws} (self : InitializedVault).

Lemma update_attempts_Ok n v op w k w' :
  quiet w -> update_attempts self n v op w = (Ok k, w') ->
  exists a d draws, append_secret_version v a (w_db w) = (Ok k, d)
    /\ w' = set_w_db d (set_w_draws draws w).
Proof.
  intros Hq. revert w Hq. induction n as [|n IH]; intros w Hq H; simpl in H; [done|].
  apply prog_bind_Ok in H as (a & w1 & Ha & H). apply build_audit_Ok in Ha as [draws ->]; [|done].
  unfold prog_bind at 1, call_raw in H. rewrite interfere_quiet in H by done. cbv zeta in H.
  destruct (append_secret_version v a (w_db (set_w_draws draws w))) as [r d] eqn:E.
  destruct r as [x|e].
  { injection H as <- <-. eauto. }
  apply transact_atomic with (e := e) in E as Ed; [|done]. subst d. rewrite set_w_db_same in H.
  destruct e; try done. vinv. match goal with H : update_attempts _ _ _ _ _ = _ |- _ =>
    apply IH in H as (a2 & d & n2 & Hap & ->); [|done] end.
  exists a2, d, n2. by split.
Qed.
End Update.

(** An updated secret reads back and its history survives: a successful
    update on a quiescent vault returns the next version number, revealing the
    secret then yields exactly the new value, revealing any older version
    yields what it did before, and only recording the read can fail. *)
Theorem updated_secret_reads_back {CR : Crypto} {CL : CryptoLaws} (self : InitializedVault)
    (id : SecretId) (version revision k : Z) (value : blob) (sch : SecretSchedule)
    (op : OperationContext) (w w' : World)
    (Hq : quiet w) (Hok : db_ok (w_db w)) (Hring : in_u32 (kr_active_version (w_ring w)))
    (Hv : 0 <= version)
    (Hrun : update_secret_with_schedule self id version revision value sch op w = (Ok k, w')) :
  k = version + 1
  /\ (forall op2, reveal_current_secret self id op2 w'
        = (do! audit := build_audit self "secret:value-read" "secret" (Some id) op2 in
           do! _ := call (append_audit audit) in prog_ret value) w')
  /\ (forall op2 j e old, 1 <= j <= version ->
        encrypted_secret_version (w_db w) id j = Ok e ->
        decrypt_record self (w_ring w) e OSecretVersion OWrappedDataKey id j = Ok old ->
        reveal_secret_version self id j op2 w'
        = (do! audit := build_audit self "secret:version-read" "secret" (Some id) op2 in
           do! _ := call (append_audit audit) in prog_ret old) w').
Proof.
  unfold update_secret_with_schedule in Hrun. vinv.
  match goal with H : encrypt_record _ _ _ _ _ _ _ = _ |- _ => apply encrypt_record_Ok in H as ([draws ->] & Hd & Hk & _) end.
  match goal with H : update_attempts _ _ _ _ _ = _ |- _ => apply update_attempts_Ok in H as (a & d & n2 & Happ & ->); [|done] end.
  apply append_version_reads_back in Happ as (Ek & Hnew & (r & r' & Hr & Hr' & R) & Hother); [|done|by eapply active_typed].
  cbn in Ek, Hnew, Hr, Hr', R, Hother. set (w' := set_w_db _ _).
  repeat match goal with H : checked_add _ _ _ = Some _ |- _ => apply checked_add_Some in H as [-> ?] end.
  match goal with H : secret (w_db w) id = Ok ?x |- _ => assert (x = r) as -> by congruence end.
  destruct_and!. subst k.
  assert (verify_secret_state self r' = Ok tt) as Hvs.
  { apply verify_secret_state_Ok. bprop. congruence. }
  split; [done|]. split.
  - intros op2. eapply (reveal_current_run self w' id op2 r'); try done; replace (sr_current_version r') with (version + 1); done.
  - intros op2 j e old Hj He Hold. eapply (reveal_version_run self w' id j op2 r' e); try done; [lia|congruence|lia|].
    rewrite Hother; [done| |right; lia]. bprop. unfold in_u64, u64_max in *. lia.
Qed.

(** ** The bound on secret values *)

Section Oversize.
Context {CR : Crypto} {CL : CryptoLaws} (self : InitializedVault).

Lemma call_raw_Ok {E A B} (m : Store A) (k : result StorageError A -> result E B) w b w' :
  call_raw m k w = (Ok b, w') -> exists d r d', m d = (r, d') /\ k r = Ok b.
Proof.
  unfold call_raw. cbv zeta. destruct (m (w_db (interfere w))) as [r d] eqn:Em. intros [= H _]. eauto 6.
Qed.

Lemma inserted_payload_fits id k p sch actor at_ d u d' :
  insert_version id k p sch actor at_ d = Ok (u, d') -> zlen (er_ciphertext p) <= 16777216.
Proof.
  intros (_ & _ & H & _)%insert_version_Ok. apply sql_insert_Some in H as (_ & Hc & _).
  cbn [versions_schema sc_check version_row sv_payload_ciphertext] in Hc. unfold between in Hc. bprop. lia.
Qed.

Lemma create_secret_payload s a d u d' :
  create_secret s a d = (Ok u, d') -> zlen (er_ciphertext (sn_payload s)) <= 16777216.
Proof.
  unfold create_secret. intros H. txn0.
  match goal with H : insert_version _ _ _ _ _ _ _ = _ |- _ => by apply inserted_payload_fits in H end.
Qed.

Lemma append_version_payload v a d u d' :
  append_secret_version v a d = (Ok u, d') -> zlen (er_ciphertext (vi_payload v)) <= 16777216.
Proof.
  unfold append_secret_version. intros H. txn0.
  match goal with H : insert_version _ _ _ _ _ _ _ = _ |- _ => by apply inserted_payload_fits in H end.
Qed.

Lemma update_attempts_payload n v op w k w' :
  update_attempts self n v op w = (Ok k, w') -> zlen (er_ciphertext (vi_payload v)) <= 16777216.
Proof.
  revert w. induction n as [|n IH]; intros w H; simpl in H; [done|]. minv.
  match goal with H : call_raw _ _ _ = _ |- _ => apply call_raw_Ok in H as (d & r & d' & Hap & [= <-]) end.
  destruct r as [z|e]; [by apply append_version_payload in Hap|].
  destruct e; try done. minv. eauto.
Qed.
End Oversize.

(** C36. The documented bound on values is not the bound the store keeps: a
    value of the last sixteen lengths up to [MAX_SECRET_BYTES] passes
    validation, but creating a secret with it or updating a secret to it fails
    on every vault and under every interleaving, because the stored ciphertext
    is the value and a sixteen-byte tag. *)
Theorem largest_secrets_cannot_be_stored {CR : Crypto} {CL : CryptoLaws} (self : InitializedVault) (value : blob)
    (Hlen : MAX_SECRET_BYTES - 16 < zlen value <= MAX_SECRET_BYTES) :
  validate_secret value = Ok tt
  /\ (forall id ns m sch op w,
        is_ok (fst (create_secret_with_id_and_schedule self id ns m value sch op w)) = false)
  /\ (forall id version revision sch op w,
        is_ok (fst (update_secret_with_schedule self id version revision value sch op w)) = false).
Proof.
  assert (forall e, length (er_ciphertext e) = (length value + 16)%nat -> ~ zlen (er_ciphertext e) <= 16777216) as Hbig.
  { unfold zlen, MAX_SECRET_BYTES in *. lia. }
  split; [|split].
  - unfold validate_secret. rewrite (proj2 (Z.eqb_neq _ _)), (proj2 (Z.ltb_ge _ _)); [done|lia|].
    unfold MAX_SECRET_BYTES in *. lia.
  - intros. destruct (create_secret_with_id_and_schedule _ _ _ _ _ _ _ _) as [[c|e] w'] eqn:H; [|done].
    unfold create_secret_with_id_and_schedule in H. minv.
    match goal with H : encrypt_record _ value _ _ _ _ _ = _ |- _ => apply encrypt_record_Ok in H as (_ & _ & _ & He) end.
    match goal with H : call (create_secret _ _) _ = _ |- _ => apply call_raw_Ok in H as (d & r & d' & Hc & Hr) end.
    apply map_err_Ok in Hr as ->. apply create_secret_payload in Hc. by apply Hbig in He.
  - intros. destruct (update_secret_with_schedule _ _ _ _ _ _ _ _) as [[c|e] w'] eqn:H; [|done].
    unfold update_secret_with_schedule in H. minv.
    match goal with H : encrypt_record _ value _ _ _ _ _ = _ |- _ => apply encrypt_record_Ok in H as (_ & _ & _ & He) end.
    match goal with H : update_attempts _ _ _ _ _ = _ |- _ => apply update_attempts_payload in H as Hc end.
    by apply Hbig in He.
Qed.
