(* ===== verification/AuthzProps.v ===== *)
(** The authorization decision: what a service needs to be allowed, and that
    every decision is on record before it takes effect. *)
From Stdlib Require Import ZArith Lia Strings.Byte String.
From stdpp Require Import base tactics numbers option strings list gmap sets.
From S2P Require Import Prelude RustStd Core Crypto Format Sql Schema Records StoreInv RecordsOk PolicyStore VaultStore IdentityStore Store RecordsProps Metadata VaultCore Authentication Authorization ServiceIdentity AuthorizedVault VaultAudit VaultRuns VaultProps.

(** ** Runs of storage calls *)

Lemma call_raw_quiet {E A B} (m : Store A) (k : result StorageError A -> result E B) w :
  quiet w -> call_raw m k w = (k (fst (m (w_db w))), set_w_db (snd (m (w_db w))) w).
Proof. intros Hq. unfold call_raw. rewrite interfere_quiet by done. by destruct (m (w_db w)). Qed.

Lemma call_read_quiet {E A B} (f : Db -> result StorageError A) (k : result StorageError A -> result E B) w :
  quiet w -> call_raw (prog_read f) k w = (k (f (w_db w)), w).
Proof. intros Hq. rewrite call_raw_quiet by done. simpl. by rewrite set_w_db_same. Qed.

Lemma call_raw_quiet_Ok {E A} (m : Store A) (e : StorageError -> E) w a w' :
  quiet w -> call_raw m (map_err e) w = (Ok a, w') ->
  exists d, m (w_db w) = (Ok a, d) /\ w' = set_w_db d w.
Proof.
  intros Hq. rewrite call_raw_quiet by done. destruct (m (w_db w)) as [[x|x] d]; simpl; [|done].
  intros [= <- <-]. eauto.
Qed.

Lemma call_read_Ok {E A} (f : Db -> result StorageError A) (e : StorageError -> E) w a w' :
  quiet w -> call_raw (prog_read f) (map_err e) w = (Ok a, w') -> f (w_db w) = Ok a /\ w' = w.
Proof. intros Hq. rewrite call_read_quiet by done. intros [= H <-]. by apply map_err_Ok in H. Qed.

(** Whatever else ran in between, a committed append is the last event. *)
Lemma append_audit_last {E} (a : AuditRecord) (e : StorageError -> E) w u w' :
  call_raw (append_audit a) (map_err e) w = (Ok u, w') ->
  exists l, rows (db_audit (w_db w')) = l ++ [audit_row a].
Proof.
  unfold call_raw. cbv zeta. destruct (append_audit a (w_db (interfere w))) as [[x|x] d] eqn:E0; simpl; [|done].
  intros [= _ <-]. apply append_audit_audited in E0 as [_ H]. eauto.
Qed.

(** The event of a decision carries the request. *)
Definition records_decision (ev : AuditRecord) (p : RequestPrincipal) (action : Action)
    (kind : ResourceKind) (resource_id : ObjectId) (request_id : RequestId) (now : Z)
    (outcome : string) : Prop :=
  ar_action ev = action_as_str action /\ ar_target_kind ev = resource_kind_as_str kind
  /\ ar_target_id ev = Some resource_id /\ ar_outcome ev = outcome
  /\ ar_actor_principal_id ev = Some (request_principal_id p)
  /\ ar_credential_kind ev = Some (credential_attribution p).1
  /\ ar_credential_id ev = Some (credential_attribution p).2
  /\ ar_request_id ev = request_id /\ ar_occurred_at_unix_ms ev = now.

Lemma build_audit_outcome_fields {CR : Crypto} self action kind target outcome op w a w' :
  build_audit_outcome self action kind target outcome op w = (Ok a, w') ->
  ar_action a = action /\ ar_target_kind a = kind /\ ar_target_id a = target /\ ar_outcome a = outcome
  /\ ar_actor_principal_id a = oc_actor_principal_id op /\ ar_credential_kind a = oc_credential_kind op
  /\ ar_credential_id a = oc_credential_id op /\ ar_request_id a = oc_request_id op
  /\ ar_occurred_at_unix_ms a = oc_now_unix_ms op.
Proof. intros H. unfold build_audit_outcome in H. minv. done. Qed.

(** What the owner needs for an action. *)
Definition owner_may (owner : AuthenticatedOwner) (action : Action) (now : Z) : Prop :=
  is_valid_at owner now = true /\ (action_requires_recent action = true -> is_recent_at owner now = true).

(** C28. No permission without a record: whenever the central decision allows
    a request, the last event of the committed log is the allowance of exactly
    this request, with its principal, credential, action, resource and time;
    the action is one a service can be granted if the principal is a service,
    and an owner has a live session, recent where the action demands it. This
    holds for every interleaving with other connections. *)
Theorem allowed_decision_recorded {CR : Crypto} (self : InitializedVault) (p : RequestPrincipal)
    (action : Action) (kind : ResourceKind) (resource_id : ObjectId) (request_id : RequestId) (now : Z)
    (w w' : World) (H : authorize self p action kind resource_id request_id now w = (Ok tt, w')) :
  (exists log ev, rows (db_audit (w_db w')) = log ++ [audit_row ev]
     /\ records_decision ev p action kind resource_id request_id now "allowed")
  /\ match p with
     | RequestService _ => is_service_grantable action = true
     | RequestOwner owner => owner_may owner action now
     end.
Proof.
  unfold authorize in H. apply prog_bind_Ok in H as (decision & w1 & Hd & H). minv.
  split.
  - unfold az_call in *.
    match goal with H : call_raw (append_audit _) _ _ = _ |- _ => apply append_audit_last in H as [l Hl] end.
    match goal with H : build_audit_outcome _ _ _ _ _ _ _ = _ |- _ =>
      apply build_audit_outcome_fields in H end.
    exists l. eexists. split; [done|]. unfold records_decision, operation in *. cbn in *. naive_solver.
  - destruct p as [owner|service]; minv.
    + destruct (is_valid_at owner now) eqn:E1; [|done]. cbn in *.
      split; [done|]. intros Hr. rewrite Hr in *. cbn in *. by destruct (is_recent_at owner now).
    + by destruct (is_service_grantable action).
Qed.

(** ** Programs that only read *)

Definition reads {E A} (m : Prog World E A) : Prop := forall w, quiet w -> snd (m w) = w.

Lemma reads_bind {E A B} (m : Prog World E A) (k : A -> Prog World E B) :
  reads m -> (forall a, reads (k a)) -> reads (prog_bind m k).
Proof.
  intros Hm Hk w Hq. unfold prog_bind. specialize (Hm w Hq). destruct (m w) as [[a|e] w']; simpl in *; subst; [|done].
  by apply Hk.
Qed.
Lemma reads_call {E A B} (f : Db -> result StorageError A) (k : result StorageError A -> result E B) :
  reads (call_raw (prog_read f) k).
Proof. intros w Hq. by rewrite call_read_quiet. Qed.
Lemma reads_lift {E A} (r : result E A) : reads (prog_lift r).
Proof. done. Qed.
Lemma reads_ret {E A} (a : A) : reads (E := E) (prog_ret a).
Proof. done. Qed.
Lemma reads_reject {E} b (e : E) : reads (prog_reject b e).
Proof. done. Qed.
Lemma reads_map_err {E F A} (f : E -> F) (m : Prog World E A) : reads m -> reads (prog_map_err f m).
Proof. intros Hm w Hq. specialize (Hm w Hq). unfold prog_map_err. by destruct (m w). Qed.
Lemma reads_mapM {E A B} (f : A -> Prog World E B) l : (forall a, reads (f a)) -> reads (prog_mapM f l).
Proof. intros Hf. induction l as [|a l IH]; simpl; [done|]. apply reads_bind; [done|]. intros b. by apply reads_bind. Qed.

Create HintDb reads discriminated.
#[export] Hint Resolve reads_call reads_lift reads_ret reads_reject reads_mapM : reads.
Ltac read_only :=
  repeat lazymatch goal with
  | |- reads (prog_bind _ _) => apply reads_bind; [|intros]
  | |- reads (prog_map_err _ _) => apply reads_map_err
  | |- reads (match ?o with _ => _ end) => destruct o
  | |- reads (prog_mapM _ _) => apply reads_mapM; intros
  | |- _ => solve [eauto with reads]
  end.

Lemma bind_reads {E A B} (m : Prog World E A) (k : A -> Prog World E B) w a :
  reads m -> quiet w -> fst (m w) = Ok a -> prog_bind m k w = k a w.
Proof. intros Hm Hq H. specialize (Hm w Hq). unfold prog_bind. destruct (m w). simpl in *. by subst. Qed.

Lemma bind_reads_Err {E A B} (m : Prog World E A) (k : A -> Prog World E B) w e :
  reads m -> quiet w -> fst (m w) = Err e -> prog_bind m k w = (Err e, w).
Proof. intros Hm Hq H. specialize (Hm w Hq). unfold prog_bind. destruct (m w). simpl in *. by subst. Qed.

Lemma try_reads {E F A} (m : Prog World E A) w :
  reads m -> quiet w -> prog_try (F := F) m w = (Ok (fst (m w)), w).
Proof. intros Hm Hq. specialize (Hm w Hq). unfold prog_try. destruct (m w). simpl in *. by subst. Qed.

Section Decision.
Context {CR : Crypto} (self : InitializedVault).

Lemma reads_snapshot : reads (verified_authorization_snapshot self).
Proof. unfold verified_authorization_snapshot, az_ask, az_call. read_only. Qed.
Lemma reads_ancestors kind id : reads (resource_namespace_ancestors self kind id).
Proof. unfold resource_namespace_ancestors, ask_or_deny. read_only. Qed.
Lemma reads_service_is_allowed p a kind id : reads (service_is_allowed self p a kind id).
Proof. apply reads_bind; [apply reads_snapshot|]. intros s. apply reads_bind; [apply reads_ancestors|]. done. Qed.

(** ** The policy a decision implements *)

(** A grant reaches a resource that lies below the namespaces [above]. *)
Inductive reaches (above : list NamespaceId) (kind : ResourceKind) (id : ObjectId)
    (g : PolicyGrantRecord) : Prop :=
| reaches_itself : pg_resource_kind g = kind -> pg_resource_id g = id -> reaches above kind id g
| reaches_below : pg_resource_kind g = KNamespace -> pg_include_descendants g = true ->
    pg_resource_id g ∈ above -> reaches above kind id g.

(** Deny by default: an action is permitted only by a grant of an active policy
    bound to the service. *)
Definition permits (s : AuthorizationSnapshot) (above : list NamespaceId) (service : PrincipalId)
    (action : Action) (kind : ResourceKind) (id : ObjectId) : Prop :=
  is_service_grantable action = true
  /\ exists b p g, b ∈ snap_bindings s /\ p ∈ snap_policies s /\ g ∈ snap_grants s
       /\ pb_principal_id b = service /\ po_policy_id p = pb_policy_id b /\ po_state p = "active"
       /\ pg_policy_id g = pb_policy_id b /\ pg_action g = action /\ reaches above kind id g.

Lemma grant_covers_spec above kind id g : grant_covers above kind id g = true <-> reaches above kind id g.
Proof.
  unfold grant_covers. rewrite orb_true_iff, !andb_true_iff, !bool_decide_eq_true, existsb_exists. split.
  - intros [[H1 H2]|[H1 (a & Ha%list_elem_of_In & Hc)]]; [by constructor 1|].
    rewrite andb_true_iff, orb_true_iff, andb_true_iff, !bool_decide_eq_true in Hc.
    destruct Hc as [<- [Hc|[Hk Hid]]]; [by constructor 2|constructor 1; congruence].
  - intros [H1 H2|H1 H2 H3]; [by left|right]. split; [done|]. exists (pg_resource_id g).
    split; [by apply list_elem_of_In|]. by rewrite bool_decide_true, H2.
Qed.

Lemma policy_active_spec s id :
  policy_active s id = true <-> exists p, p ∈ snap_policies s /\ po_policy_id p = id /\ po_state p = "active".
Proof.
  unfold policy_active. rewrite existsb_exists.
  split; intros (p & Hp & H); exists p; rewrite list_elem_of_In in *;
    rewrite andb_true_iff, !bool_decide_eq_true in *; tauto.
Qed.

Lemma service_is_allowed_run p action kind id w s above :
  quiet w -> fst (verified_authorization_snapshot self w) = Ok s ->
  fst (resource_namespace_ancestors self kind id w) = Ok above -> is_service_grantable action = true ->
  exists allowed, fst (service_is_allowed self p action kind id w) = Ok allowed
    /\ (allowed = true <-> permits s above p action kind id).
Proof.
  intros Hq Hs Ha Hg. unfold service_is_allowed. rewrite (bind_reads _ _ _ s) by (done || apply reads_snapshot).
  rewrite (bind_reads _ _ _ above) by (done || apply reads_ancestors). eexists. split; [done|].
  rewrite existsb_exists. unfold permits. split.
  - intros (g & Hin%list_elem_of_In & H). split; [done|].
    rewrite !andb_true_iff, !bool_decide_eq_true, grant_covers_spec, list_elem_of_filter, list_elem_of_fmap in H.
    destruct H as [[H1 [H2 (b & Hb & Hbin)]] H3]. apply list_elem_of_filter in Hbin as [Hbp Hbin].
    apply policy_active_spec in H2 as (pol & ? & ? & ?). exists b, pol, g. split_and!; congruence || done.
  - intros (_ & b & pol & g & Hb & Hp & Hin & H1 & H2 & H3 & H4 & H5 & H6). exists g.
    split; [by apply list_elem_of_In|].
    rewrite !andb_true_iff, !bool_decide_eq_true, grant_covers_spec, list_elem_of_filter, list_elem_of_fmap.
    split_and!; try done; [apply policy_active_spec; exists pol; split_and!; congruence || done|].
    exists b. split; [done|]. by apply list_elem_of_filter.
Qed.
End Decision.

(** The answer to a request, recorded before it is given. *)
Definition record_and_answer {CR : Crypto} (self : InitializedVault) (p : RequestPrincipal)
    (action : Action) (kind : ResourceKind) (id : ObjectId) (request : RequestId) (now : Z)
    (decision : result AuthorizationError unit) : Authz unit :=
  do! audit := prog_map_err (fun _ => AzUnavailable)
    (build_audit_outcome self (action_as_str action) (resource_kind_as_str kind) (Some id)
       (if is_ok decision then "allowed" else "denied") (operation p request now)) in
  do! _ := az_call (append_audit audit) in
  prog_lift decision.

(** C3. A service is allowed exactly what the policy graph permits: over an
    authenticated snapshot, the decision is positive if and only if the action
    can be granted to services and an active policy bound to the service grants
    it on the resource itself or, with descendants, on a namespace above it. A
    resource that does not exist is answered like one that is not granted, and
    either answer is recorded first. *)
Theorem service_decision_exact {CR : Crypto} (self : InitializedVault) (service : AuthenticatedService)
    (action : Action) (kind : ResourceKind) (id : ObjectId) (request : RequestId) (now : Z) (w : World)
    (s : AuthorizationSnapshot) (Hq : quiet w)
    (Hs : fst (verified_authorization_snapshot self w) = Ok s)
    (Ha : forall e, fst (resource_namespace_ancestors self kind id w) = Err e -> e = Denied) :
  exists allowed : bool,
    (allowed = true <-> exists above, fst (resource_namespace_ancestors self kind id w) = Ok above
                          /\ permits s above (asv_principal_id service) action kind id)
    /\ authorize self (RequestService service) action kind id request now w
       = record_and_answer self (RequestService service) action kind id request now
           (if allowed then Ok tt else Err Denied) w.
Proof.
  unfold authorize. destruct (is_service_grantable action) eqn:Hg.
  - destruct (fst (resource_namespace_ancestors self kind id w)) as [above|e] eqn:Hab.
    + destruct (service_is_allowed_run self (asv_principal_id service) action kind id w s above)
        as (allowed & Hr & Hp); [done..|]. exists allowed. split; [naive_solver|].
      unfold prog_bind at 1 2. rewrite try_reads, Hr by (done || apply reads_service_is_allowed).
      by destruct allowed.
    + rewrite (Ha e eq_refl) in Hab. exists false. split; [naive_solver|].
      unfold prog_bind at 1 2. rewrite try_reads by (done || apply reads_service_is_allowed).
      unfold service_is_allowed. rewrite (bind_reads _ _ _ s) by (done || apply reads_snapshot).
      by rewrite (bind_reads_Err _ _ _ Denied) by (done || apply reads_ancestors).
  - exists false. split; [|done]. split; [done|]. intros (above & _ & Hp & _). congruence.
Qed.

(** ** A service reading a secret *)

Section Facade.
Context {CR : Crypto} (self : InitializedVault).

Lemma append_audit_rows {E} (a : AuditRecord) (e : StorageError -> E) w u w' :
  quiet w -> call_raw (append_audit a) (map_err e) w = (Ok u, w') ->
  quiet w' /\ rows (db_audit (w_db w')) = rows (db_audit (w_db w)) ++ [audit_row a].
Proof. intros Hq H. apply call_raw_quiet_Ok in H as (d & H & ->); [|done]. by apply append_audit_audited in H as [_ ?]. Qed.

Lemma build_audit_outcome_Ok action kind target outcome op w a w' :
  quiet w -> build_audit_outcome self action kind target outcome op w = (Ok a, w') ->
  exists n, w' = set_w_draws n w.
Proof. intros Hq H. unfold build_audit_outcome in H. vinv. eauto. Qed.

(** An answer leaves the event of the request, and nothing else, behind. *)
Lemma record_and_answer_Ok p action kind id request now decision w w' :
  quiet w -> record_and_answer self p action kind id request now decision w = (Ok tt, w') ->
  decision = Ok tt /\ quiet w' /\ exists ev, rows (db_audit (w_db w')) = rows (db_audit (w_db w)) ++ [audit_row ev]
    /\ records_decision ev p action kind id request now "allowed".
Proof.
  intros Hq H. unfold record_and_answer, az_call in H. minv. split; [done|].
  match goal with H : build_audit_outcome _ _ _ _ _ _ _ = _ |- _ =>
    pose proof (build_audit_outcome_fields _ _ _ _ _ _ _ _ _ H);
    apply build_audit_outcome_Ok in H as [n ->]; [|done] end.
  match goal with H : call_raw (append_audit _) _ _ = _ |- _ => apply append_audit_rows in H as [? ?]; [|done] end.
  split; [done|]. eexists. split; [done|]. done.
Qed.

(** A service that is allowed has an authenticated snapshot that permits it. *)
Lemma authorize_service_Ok service action kind id request now w w' :
  quiet w -> authorize self (RequestService service) action kind id request now w = (Ok tt, w') ->
  exists s above, fst (verified_authorization_snapshot self w) = Ok s
    /\ fst (resource_namespace_ancestors self kind id w) = Ok above
    /\ permits s above (asv_principal_id service) action kind id
    /\ record_and_answer self (RequestService service) action kind id request now (Ok tt) w = (Ok tt, w').
Proof.
  intros Hq H. unfold authorize in H. apply prog_bind_Ok in H as (decision & w1 & Hd & H).
  destruct (is_service_grantable action) eqn:Hg; [|minv; done].
  unfold prog_bind at 1 in Hd. rewrite try_reads in Hd by (done || apply reads_service_is_allowed).
  destruct (fst (service_is_allowed self (asv_principal_id service) action kind id w)) as [[]|e] eqn:Hr;
    [| minv; done | destruct e; minv; done].
  injection Hd as <- <-. pose proof Hr as Hr'. unfold service_is_allowed in Hr'.
  destruct (fst (verified_authorization_snapshot self w)) as [s|e] eqn:Hs;
    [|rewrite (bind_reads_Err _ _ _ e) in Hr' by (done || apply reads_snapshot); done].
  rewrite (bind_reads _ _ _ s) in Hr' by (done || apply reads_snapshot).
  destruct (fst (resource_namespace_ancestors self kind id w)) as [above|e] eqn:Ha;
    [|rewrite (bind_reads_Err _ _ _ e) in Hr' by (done || apply reads_ancestors); done].
  exists s, above. split_and!; try done.
  destruct (service_is_allowed_run self (asv_principal_id service) action kind id w s above) as (b & Hb & Hp);
    [done..|]. rewrite Hr in Hb. injection Hb as <-. by apply Hp.
Qed.

(** The credential behind a service request is live. *)
Definition service_live (d : Db) (service : AuthenticatedService) (now : Z) : Prop :=
  exists r p, application_credential d (asv_credential_id service) = Ok r
    /\ cr_principal_id r = asv_principal_id service /\ cr_revoked_at_unix_ms r = None
    /\ (forall expiry, cr_expires_at_unix_ms r = Some expiry -> now <= expiry)
    /\ principal d (asv_principal_id service) = Ok p /\ pc_state p = "active".

Lemma service_context_Ok service now w u w' :
  quiet w -> verify_service_context_active self service now w = (Ok u, w') -> w' = w /\ service_live (w_db w) service now.
Proof.
  intros Hq H. unfold verify_service_context_active, auth_ask, auth_call in H. minv.
  repeat match goal with H : call_raw (prog_read _) _ _ = _ |- _ => apply call_read_Ok in H as [? ->]; [|done] end.
  unfold credential_unusable in *. bprop. destruct_and!. split; [done|].
  match goal with H1 : application_credential _ _ = Ok ?r, H2 : principal _ _ = Ok ?p |- _ => exists r, p end.
  split_and!; try done; try congruence.
  - destruct (cr_revoked_at_unix_ms _) eqn:E; [|done]. naive_solver.
  - intros expiry E. rewrite E in *. cbn in *. bprop. lia.
Qed.

End Facade.

(** C4. A service reads only what it was granted. When a request of a service
    passes the facade and reveals the current value of a secret, the credential
    is neither revoked nor expired and its principal is active, the
    authenticated policy graph permits reading that secret's value, and the log
    has grown by the allowance and the reading, both attributed to the request. *)
Theorem service_reads_only_granted_secrets {CR : Crypto} (self : InitializedVault)
    (service : AuthenticatedService) (request : RequestId) (now : Z) (id : SecretId) (w w1 w2 : World)
    (av : AuthorizedVault) (value : blob) (Hq : quiet w)
    (Hav : authorized self (RequestService service) request now w = (Ok av, w1))
    (Hr : facade_reveal_current_secret self av id w1 = (Ok value, w2)) :
  service_live (w_db w) service now
  /\ (exists s above, fst (verified_authorization_snapshot self w) = Ok s
        /\ fst (resource_namespace_ancestors self KSecret id w) = Ok above
        /\ permits s above (asv_principal_id service) SecretValueRead KSecret id)
  /\ exists e1 e2, rows (db_audit (w_db w2)) = rows (db_audit (w_db w)) ++ [audit_row e1; audit_row e2]
        /\ records_decision e1 (RequestService service) SecretValueRead KSecret id request now "allowed"
        /\ records_decision e2 (RequestService service) SecretValueRead KSecret id request now "allowed".
Proof.
  unfold authorized in Hav. minv.
  match goal with H : verify_service_context_active _ _ _ _ = _ |- _ =>
    apply service_context_Ok in H as [-> Hlive]; [|done] end.
  split; [done|]. unfold facade_reveal_current_secret, authorize_secret, facade_authorize, then_vault in Hr. minv.
  match goal with x : unit |- _ => destruct x end. cbn [av_principal av_request_id av_now_unix_ms] in *.
  match goal with H : authorize _ _ _ _ _ _ _ _ = _ |- _ =>
    apply authorize_service_Ok in H as (s & above & Hs & Ha & Hp & H); [|done] end.
  split; [eauto|]. match goal with H : record_and_answer _ _ _ _ _ _ _ _ _ = _ |- _ =>
    apply record_and_answer_Ok in H as (_ & Hq1 & e1 & Hrows & He1); [|done] end.
  unfold reveal_current_secret, build_audit, decrypt_with in *. vinv.
  match goal with H : build_audit_outcome _ _ _ _ _ _ _ = (Ok ?e, _) |- _ =>
    rename e into e2; pose proof (build_audit_outcome_fields _ _ _ _ _ _ _ _ _ H);
    apply build_audit_outcome_Ok in H as [n ->]; [|done] end.
  vinv. match goal with H : append_audit _ _ = _ |- _ => apply append_audit_audited in H as [_ Hrows2] end.
  exists e1, e2. cbn in *. split; [|split; [done|done]].
  by rewrite Hrows2, Hrows, <- app_assoc.
Qed.
