(* ===== verification/PolicyGraph.v ===== *)
(** The authenticated policy graph: its commitment determines every policy,
    grant and binding, and every change of the graph keeps it authenticated. *)
From Stdlib Require Import ZArith Lia Strings.Byte String.
From stdpp Require Import base tactics numbers option strings list gmap sets sorting.
From S2P Require Import Prelude RustStd Core Crypto Format Sql Schema Records StoreInv RecordsOk PolicyStore VaultStore IdentityStore Store RecordsProps Metadata VaultCore Authentication Authorization VaultAudit VaultRuns VaultProps AuthzProps.

(** ** Sorting *)

Lemma blob_leb_total a b : blob_leb a b = false -> blob_leb b a = true.
Proof.
  unfold blob_leb. rewrite negb_false_iff, negb_true_iff. intros H.
  destruct (blob_ltb a b) eqn:E; [|done]. pose proof (blob_ltb_trans _ _ _ E H) as F.
  by rewrite blob_ltb_irrefl in F.
Qed.
Lemma blob_leb_antisym a b : blob_leb a b = true -> blob_leb b a = true -> a = b.
Proof. unfold blob_leb. rewrite !negb_true_iff. intros. by apply blob_ltb_total. Qed.
Lemma blob_leb_trans a b c : blob_leb a b = true -> blob_leb b c = true -> blob_leb a c = true.
Proof.
  intros H1 H2. destruct (blob_leb a c) eqn:E; [done|]. apply blob_leb_total in E as F.
  assert (a = b) as ->; [|congruence]. apply blob_leb_antisym; [done|].
  unfold blob_leb in *. rewrite !negb_true_iff in *. rewrite negb_false_iff in E.
  destruct (blob_ltb a b) eqn:E1; [|done].
  pose proof (blob_ltb_trans _ _ _ E E1). congruence.
Qed.

(** A permutation of the items sorts to the same list. *)
Lemma order_by_blob_perm l l' : l ≡ₚ l' -> order_by blob_leb l = order_by blob_leb l'.
Proof.
  intros Hp. apply (StronglySorted_unique_strong (fun a b => blob_leb a b = true)).
  - intros a b _ _. apply blob_leb_antisym.
  - apply order_by_sorted; [apply blob_leb_total|apply blob_leb_trans].
  - apply order_by_sorted; [apply blob_leb_total|apply blob_leb_trans].
  - by rewrite !order_by_perm.
Qed.

(** ** Framing *)

Definition framed (item : blob) : blob := u32_be (zlen item) ++ item.

Lemma graph_bytes_Ok items b :
  graph_bytes items = Ok b <-> Forall (fun i => zlen i <= u32_max) items /\ b = concat (framed <$> items).
Proof.
  unfold graph_bytes. rewrite result_bind_Ok. split.
  - intros (parts & H & [= <-]). apply result_mapM_Forall2 in H.
    induction H as [|i p items parts Hi H [IH1 IH2]]; [by split|]. minv.
    match goal with H : try_from _ _ = Some _ |- _ => apply try_from_Some in H as [-> ?] end.
    split; [constructor; [lia|done]|]. simpl. by rewrite IH2.
  - intros [HF ->]. exists (framed <$> items). split; [|done]. apply result_mapM_Forall2.
    induction HF as [|i items Hi HF IH]; simpl; constructor; [|done].
    rewrite (proj2 (try_from_Some u32_max (zlen i) (zlen i))); [done|]. split; [done|]. pose proof (zlen_nonneg i). lia.
Qed.

Lemma framed_inj l l' :
  Forall (fun i => zlen i <= u32_max) l -> Forall (fun i => zlen i <= u32_max) l' ->
  concat (framed <$> l) = concat (framed <$> l') -> l = l'.
Proof.
  intros HF. revert l'. induction HF as [|i l Hi HF IH]; intros [|i' l'] HF' E;
    cbn [fmap list_fmap concat] in E; try done.
  inversion HF'; subst. unfold framed in E. rewrite <- !app_assoc in E.
    apply app_eq_length in E as [E1 E]; [|by rewrite !length_u32_be].
    apply u32_be_inj in E1; [|pose proof (zlen_nonneg i); pose proof (zlen_nonneg i'); unfold in_u32; lia..].
    apply app_eq_length in E as [-> E]; [|unfold zlen in E1; lia]. f_equal. by apply IH.
Qed.

(** ** What a commitment determines *)

(** Two different messages with the same SHA-256. *)
Definition sha256_collision {CR : Crypto} : Prop := exists m m', m <> m' /\ sha256 m = sha256 m'.

Section Binds.
Context {CR : Crypto} {CL : CryptoLaws} (self : InitializedVault).

Definition collision : Prop := hmac_collision (iv_audit_key self) \/ sha256_collision.

Lemma commit_inj a b c : commit self a = Ok c -> commit self b = Ok c -> a = b \/ collision.
Proof.
  unfold commit, state_commitment. intros Ha Hb. apply map_err_Ok in Ha, Hb.
  destruct ((zlen a =? 0) || (4096 <? zlen a)) eqn:Ea; [done|].
  destruct ((zlen b =? 0) || (4096 <? zlen b)) eqn:Eb; [done|]. injection Ha as Ha. injection Hb as Hb.
  destruct (decide (state_message a = state_message b)) as [E|E].
  - left. unfold state_message in E. apply app_inv_head in E. apply app_eq_length in E; [tauto|].
    by rewrite !length_u16_be.
  - right. left. exists (state_message a), (state_message b). split; [done|congruence].
Qed.

Lemma sha256_eq a b : sha256 a = sha256 b -> a = b \/ collision.
Proof.
  intros H. destruct (decide (a = b)) as [|Hn]; [by left|]. right. right. by exists a, b.
Qed.

(** The fields of a record fit their types, as the parsers ensure. *)
Definition policy_typed (p : PolicyRecord) : Prop :=
  no_nul (bstr (po_state p)) /\ in_u32 (er_kek_version (po_metadata p)).

Lemma envelope_digest_inj e e' :
  in_u32 (er_kek_version e) -> in_u32 (er_kek_version e') ->
  envelope_digest e = envelope_digest e' -> e = e' \/ collision.
Proof.
  intros H1 H2 H. apply sha256_eq in H as [H|]; [left|by right].
  destruct e as [n c dn wd k], e' as [n' c' dn' wd' k']; cbn in *.
  apply app_eq_length in H as [Hn H]; [|by rewrite !array_length].
  assert (length c = length c') as Hc.
  { apply (f_equal length) in H. rewrite !length_app, !array_length, !length_u32_be in H. lia. }
  apply app_eq_length in H as [-> H]; [|done]. apply app_eq_length in H as [Hd H]; [|by rewrite !array_length].
  apply app_eq_length in H as [Hw H]; [|by rewrite !array_length]. apply u32_be_inj in H; [|done..].
  apply array_eq in Hn, Hd, Hw. by subst.
Qed.

(** A verified record is determined by its commitment. *)
Lemma verify_policy_inj p q :
  policy_typed p -> in_u32 (er_kek_version (po_metadata q)) -> verify_policy self p = Ok tt -> verify_policy self q = Ok tt ->
  po_state_commitment p = po_state_commitment q -> p = q \/ collision.
Proof.
  intros [Hp1 Hp2] Hq2 Hp Hq E. unfold verify_policy in *. minv.
  repeat match goal with H : (if ?b then _ else _) = Ok _ |- _ => destruct b eqn:?; [done|] end. bprop. subst.
  unfold policy_commitment in *. rewrite E in *.
  match goal with H : commit _ _ = Ok _, H' : commit _ _ = Ok _ |- _ =>
    destruct (commit_inj _ _ _ H H') as [Et|]; [|by right] end.
  assert (no_nul (bstr (po_state q))) as Hq1.
  { pose proof Et as HF. apply canonical_text_no_nul in HF; [|done|done|repeat constructor; auto with text].
    rewrite !Forall_cons in HF. tauto. }
  text_inj Et. injection Et as Ei Er Es Em Eh Ec Eu.
  apply uuid_inj in Ei. apply dec_inj in Er, Em, Ec, Eu. apply bstr_inj in Es. apply hex_inj, array_eq in Eh.
  destruct (envelope_digest_inj _ _ Hp2 Hq2 Eh) as [Ee|]; [|by right].
  left. destruct p, q; cbn in *; by subst.
Qed.

Lemma verify_grant_inj g h :
  verify_grant self g = Ok tt -> verify_grant self h = Ok tt ->
  pg_state_commitment g = pg_state_commitment h -> g = h \/ collision.
Proof.
  intros Hg Hh E. unfold verify_grant in *.
  destruct (is_valid_for_service (grant_spec g)); [|done]. destruct (is_valid_for_service (grant_spec h)); [|done].
  cbn [negb] in *. minv.
  repeat match goal with H : (if ?b then _ else _) = Ok _ |- _ => destruct b eqn:?; [done|] end. bprop. subst.
  unfold grant_commitment in *. rewrite E in *.
  match goal with H : commit _ _ = Ok _, H' : commit _ _ = Ok _ |- _ =>
    destruct (commit_inj _ _ _ H H') as [Et|]; [|by right] end.
  text_inj Et. injection Et as Ei Ep Ea Ek Er Ed Ec Et. cbn in *.
  apply uuid_inj in Ei, Ep, Er, Ec. apply dec_inj in Ed, Et. apply bstr_inj in Ea, Ek.
  assert (pg_action g = pg_action h) by (by destruct (pg_action g), (pg_action h)).
  assert (pg_resource_kind g = pg_resource_kind h) by (by destruct (pg_resource_kind g), (pg_resource_kind h)).
  assert (pg_include_descendants g = pg_include_descendants h)
    by (by destruct (pg_include_descendants g), (pg_include_descendants h)).
  left. destruct g, h; cbn in *; by subst.
Qed.

Lemma verify_binding_inj a b :
  verify_binding self a = Ok tt -> verify_binding self b = Ok tt ->
  pb_state_commitment a = pb_state_commitment b -> a = b \/ collision.
Proof.
  intros Ha Hb E. unfold verify_binding in *. minv.
  repeat match goal with H : (if ?b then _ else _) = Ok _ |- _ => destruct b eqn:?; [done|] end. bprop. subst.
  unfold binding_commitment in *. rewrite E in *.
  match goal with H : commit _ _ = Ok _, H' : commit _ _ = Ok _ |- _ =>
    destruct (commit_inj _ _ _ H H') as [Et|]; [|by right] end.
  text_inj Et. injection Et as Ei Ep Ea Ec. apply uuid_inj in Ei, Ep, Ea. apply dec_inj in Ec.
  left. destruct a, b; cbn in *; by subst.
Qed.

(** Equal images under a map that is injective but for a collision. *)
Lemma fmap_perm_inj {A B} (f : A -> B) (C : Prop) l l' :
  (forall x y, x ∈ l -> y ∈ l' -> f x = f y -> x = y \/ C) ->
  f <$> l ≡ₚ f <$> l' -> l ≡ₚ l' \/ C.
Proof.
  revert l'. induction l as [|x l IH]; intros l' Hf Hp.
  { left. apply Permutation_nil in Hp. by apply fmap_nil_inv in Hp as ->. }
  assert (f x ∈ f <$> l') as Hin by (rewrite <- Hp; by left).
  apply list_elem_of_fmap in Hin as (y & Hxy & Hy). destruct (Hf x y ltac:(by left) Hy Hxy) as [->|]; [|by right].
  apply elem_of_Permutation in Hy as [l'' Hl']. rewrite Hl' in Hp. cbn in Hp.
  apply Permutation_cons_inv in Hp. assert (l ≡ₚ l'' \/ C) as [IH'|]; [|left; by rewrite Hl', IH'|by right].
  apply IH; [|done]. intros a b Ha Hb. apply Hf; [by right|]. rewrite Hl'. by right.
Qed.

(** The part of the items that starts with a tag. *)
Definition tagged (tag : byte) (item : blob) : bool :=
  match item with b :: _ => Byte.eqb b tag | [] => false end.

Lemma filter_tag_all {A} (f : A -> blob) tag l :
  (forall a, tagged tag (f a) = true) -> List.filter (tagged tag) (f <$> l) = f <$> l.
Proof. intros H. induction l as [|a l IH]; [done|]. cbn. by rewrite H, IH. Qed.
Lemma filter_tag_none {A} (f : A -> blob) tag l :
  (forall a, tagged tag (f a) = false) -> List.filter (tagged tag) (f <$> l) = [].
Proof. intros H. induction l as [|a l IH]; [done|]. cbn. by rewrite H, IH. Qed.

Lemma Permutation_filterb {A} (p : A -> bool) (l l' : list A) :
  l ≡ₚ l' -> List.filter p l ≡ₚ List.filter p l'.
Proof.
  induction 1 as [|x l l' _ IH|x y l|l l' l'' _ IH1 _ IH2]; cbn; [done|..|by etrans].
  - by destruct (p x); rewrite ?IH.
  - destruct (p x), (p y); (reflexivity || apply Permutation_swap).
Qed.

(** All the items of a snapshot. *)
Definition items_of (s : AuthorizationSnapshot) : list blob :=
  (policy_item <$> snap_policies s) ++ (grant_item <$> snap_grants s) ++ (binding_item <$> snap_bindings s).

Lemma graph_items_all s : graph_items s None None = items_of s.
Proof.
  unfold graph_items, items_of, excluded. cbn [is_some_and option_list]. rewrite app_nil_r.
  assert (forall (A : Type) (l : list A), filter (fun _ => false = false) l = l) as H.
  { intros A l. induction l as [|a l IH]; [done|]. rewrite filter_cons_True by done. by rewrite IH. }
  by rewrite !H.
Qed.

Lemma items_perm s s' :
  items_of s ≡ₚ items_of s' ->
  policy_item <$> snap_policies s ≡ₚ policy_item <$> snap_policies s'
  /\ grant_item <$> snap_grants s ≡ₚ grant_item <$> snap_grants s'
  /\ binding_item <$> snap_bindings s ≡ₚ binding_item <$> snap_bindings s'.
Proof.
  intros Hp. unfold items_of in Hp.
  split_and!; [pose proof (Permutation_filterb (tagged tag_P) _ _ Hp) as H
              |pose proof (Permutation_filterb (tagged tag_G) _ _ Hp) as H
              |pose proof (Permutation_filterb (tagged tag_B) _ _ Hp) as H];
    rewrite !List.filter_app in H;
    rewrite ?(filter_tag_all policy_item), ?(filter_tag_all grant_item), ?(filter_tag_all binding_item),
      ?(filter_tag_none policy_item), ?(filter_tag_none grant_item), ?(filter_tag_none binding_item) in H
      by done; cbn in H; by rewrite ?app_nil_r in H.
Qed.

Lemma length_graph_item tag key c : length (graph_item tag key c) = (33 + length key)%nat.
Proof. unfold graph_item. rewrite !length_app, array_length. cbn. lia. Qed.

Lemma graph_item_inj tag k k' c c' : length k = length k' -> graph_item tag k c = graph_item tag k' c' -> k = k' /\ c = c'.
Proof.
  unfold graph_item. intros Hk [= H]. apply app_eq_length in H as [-> H]; [|done]. by apply array_eq in H.
Qed.

Lemma hex_not_empty l : bstr "empty" <> hex_encode l.
Proof.
  intros E. pose proof (hex_digits l x6d) as Hx. rewrite <- E in Hx.
  assert (x6d ∈ bstr "0123456789abcdef") as H by (apply Hx; right; by left).
  revert H. by apply (bool_decide_unpack (x6d ∉ _)).
Qed.

Lemma graph_commitment_inj s s' r r' c :
  graph_commitment self s r None None = Ok c -> graph_commitment self s' r' None None = Ok c ->
  (r = r' /\ items_of s ≡ₚ items_of s') \/ collision.
Proof.
  unfold graph_commitment. rewrite !graph_items_all.
  destruct (Nat.eqb (length (items_of s)) 0 && (r =? 1)) eqn:E1,
    (Nat.eqb (length (items_of s')) 0 && (r' =? 1)) eqn:E2; rewrite ?andb_true_iff, ?Nat.eqb_eq, ?Z.eqb_eq in *;
    intros H1 H2; minv; repeat match goal with H : graph_bytes _ = Ok _ |- _ => apply graph_bytes_Ok in H as [? ->] end;
    match goal with H : commit _ _ = Ok c, H' : commit _ _ = Ok c |- _ =>
      destruct (commit_inj _ _ _ H H') as [E|]; [|by right] end.
  - left. split; [done|]. repeat match goal with H : length _ = 0%nat |- _ => apply nil_length_inv in H; rewrite H end.
    done.
  - exfalso. unfold GRAPH_EMPTY in E. text_inj E. apply (f_equal (fun l => nth 4 l [])) in E. by apply hex_not_empty in E.
  - exfalso. unfold GRAPH_EMPTY in E. text_inj E. apply (f_equal (fun l => nth 4 l [])) in E. by apply eq_sym, hex_not_empty in E.
  - text_inj E. injection E as Er Eh. apply dec_inj in Er. apply hex_inj, array_eq in Eh.
    apply sha256_eq in Eh as [Eh|]; [|by right]. apply framed_inj in Eh; [|done..].
    left. split; [done|]. by rewrite <- (order_by_perm blob_leb (items_of s)), Eh, order_by_perm.
Qed.

Lemma verify_snapshot_Ok s :
  verify_snapshot self s = Ok tt <->
  zlen (snap_policies s) + zlen (snap_grants s) + zlen (snap_bindings s) <= MAX_AUTHORIZATION_RECORDS
  /\ Forall (fun p => verify_policy self p = Ok tt) (snap_policies s)
  /\ Forall (fun g => verify_grant self g = Ok tt) (snap_grants s)
  /\ Forall (fun b => verify_binding self b = Ok tt) (snap_bindings s)
  /\ graph_commitment self s (as_revision (snap_state s)) None None = Ok (as_state_commitment (snap_state s)).
Proof.
  unfold verify_snapshot. rewrite <- !result_forM_Forall. destruct (_ <? _) eqn:E; bprop.
  { split; [done|]. intros [? _]. lia. }
  unfold result_bind.
  destruct (result_forM (verify_policy self) _) as [[]|]; [|by split; [|intros (_ & ? & _)]].
  destruct (result_forM (verify_grant self) _) as [[]|]; [|by split; [|intros (_ & _ & ? & _)]].
  destruct (result_forM (verify_binding self) _) as [[]|]; [|by split; [|intros (_ & _ & _ & ? & _)]].
  destruct (graph_commitment _ _ _ _ _) as [c|]; [|by split; [|intros (_ & _ & _ & _ & ?)]].
  destruct (bool_decide (c = _)) eqn:Ec; cbn [negb]; bprop.
  - subst. by split.
  - split; [done|]. intros (_ & _ & _ & _ & [= ->]). done.
Qed.
End Binds.

Lemma parse_policy_typed r p :
  parse_policy r = Ok p -> in_u32 (er_kek_version (po_metadata p)) /\ po_state p = pol_state r.
Proof.
  unfold parse_policy, parse_uint. intros H. minv. cbn.
  repeat match goal with H : try_from _ _ = Some _ |- _ => apply try_from_Some in H as [-> ?] end. done.
Qed.

Lemma snapshot_policies d s p :
  authorization_snapshot d = Ok s -> p ∈ snap_policies s ->
  exists r, r ∈ rows (db_policies d) /\ parse_policy r = Ok p.
Proof.
  unfold authorization_snapshot. intros H Hp. minv. cbn in Hp.
  match goal with H : result_mapM parse_policy _ = Ok _ |- _ =>
    destruct (result_mapM_elem _ _ _ _ H Hp) as (r & Hr & ?) end.
  exists r. split; [|done]. by rewrite order_by_perm in Hr.
Qed.

Lemma snapshot_policies_typed d s :
  tables_ok d -> authorization_snapshot d = Ok s -> Forall policy_typed (snap_policies s).
Proof.
  intros Hok H. apply Forall_forall. intros p Hp. destruct (snapshot_policies d s p H Hp) as (r & Hr & Hpr).
  destruct (parse_policy_typed _ _ Hpr) as [Hk Hs]. split; [|done]. rewrite Hs.
  apply (table_ok_check policies_schema) in Hr; [|eauto with tables].
  cbn [policies_schema sc_check] in Hr. unfold text_in in Hr. bprop. destruct_and!.
  match goal with H : pol_state r ∈ _ |- _ => apply list_elem_of_In in H as [<-|[<-|[]]] end; by apply no_nul_check.
Qed.

(** C26. The one commitment stored for the authorization graph fixes all of it:
    if the graph of a database and the graph read from any other contents of
    the database file both verify and carry the same commitment, they have the
    same revision and the same policies, grants and bindings, unless a
    collision of HMAC-SHA-256 or SHA-256 has been found. *)
Theorem policy_graph_binds {CR : Crypto} {CL : CryptoLaws} (self : InitializedVault) (d d' : Db)
    (s s' : AuthorizationSnapshot) (Hok : db_ok d)
    (Hs : authorization_snapshot d = Ok s) (Hs' : authorization_snapshot d' = Ok s')
    (Hv : verify_snapshot self s = Ok tt) (Hv' : verify_snapshot self s' = Ok tt)
    (Hc : as_state_commitment (snap_state s) = as_state_commitment (snap_state s')) :
  (as_revision (snap_state s) = as_revision (snap_state s')
   /\ snap_policies s ≡ₚ snap_policies s' /\ snap_grants s ≡ₚ snap_grants s'
   /\ snap_bindings s ≡ₚ snap_bindings s')
  \/ collision self.
Proof.
  apply verify_snapshot_Ok in Hv as (_ & Fp & Fg & Fb & Hg), Hv' as (_ & Fp' & Fg' & Fb' & Hg').
  rewrite Hc in Hg. destruct (graph_commitment_inj self _ _ _ _ _ Hg Hg') as [[Hr Hi]|]; [|by right].
  apply items_perm in Hi as (Hp & Hgr & Hb).
  pose proof (snapshot_policies_typed d s (ok_tables _ Hok) Hs) as Ht.
  repeat match goal with H : Forall _ _ |- _ => rewrite Forall_forall in H end.
  assert (snap_policies s ≡ₚ snap_policies s' \/ collision self) as [?|]; [ | |by right].
  { apply (fmap_perm_inj policy_item); [|done]. intros x y Hx Hy [_ E]%graph_item_inj; [|by rewrite !array_length].
    apply verify_policy_inj; auto.
    destruct (snapshot_policies d' s' y Hs' Hy) as (r & _ & [? _]%parse_policy_typed). done. }
  assert (snap_grants s ≡ₚ snap_grants s' \/ collision self) as [?|]; [ | |by right].
  { apply (fmap_perm_inj grant_item); [|done]. intros x y Hx Hy [_ E]%graph_item_inj; [|by rewrite !array_length]. apply verify_grant_inj; auto. }
  assert (snap_bindings s ≡ₚ snap_bindings s' \/ collision self) as [?|]; [ | |by right].
  { apply (fmap_perm_inj binding_item); [|done]. intros x y Hx Hy [_ E]%graph_item_inj; [|unfold binding_key; by rewrite !length_app, !array_length].
    apply verify_binding_inj; auto. }
  by left.
Qed.
