(* ===== verification/PolicyChanges.v ===== *)
(** Every change of the policy graph keeps the graph authenticated and does to
    it exactly what was asked. *)
From Stdlib Require Import ZArith Lia Strings.Byte String.
From stdpp Require Import base tactics numbers option strings list gmap sets sorting.
From S2P Require Import Prelude RustStd Core Crypto Format Sql Schema Records StoreInv RecordsOk PolicyStore VaultStore IdentityStore Store RecordsProps Metadata VaultCore Authentication Authorization VaultAudit VaultRuns VaultProps AuthzProps PolicyGraph.

(** ** Reading the graph *)

Lemma mapM_perm {E A B} (f : A -> result E B) l l' bs :
  l ≡ₚ l' -> result_mapM f l = Ok bs -> exists bs', result_mapM f l' = Ok bs' /\ bs ≡ₚ bs'.
Proof.
  intros Hp H%result_mapM_Forall2. destruct (Permutation_Forall2 Hp H) as (bs' & Hb & H').
  exists bs'. split; [by apply result_mapM_Forall2|done].
Qed.

(** The rows of a graph and what they hold, in any order. *)
Record graph_rows (d : Db) (s : AuthorizationSnapshot) (pr : list PolicyRow) (gr : list GrantRow)
    (br : list BindingRow) : Prop := {
  gw_revision : db_authz_revision d = as_revision (snap_state s) /\ in_u64 (as_revision (snap_state s));
  gw_commitment : db_authz_commitment d = arr (as_state_commitment (snap_state s));
  gw_policies : exists ps, result_mapM parse_policy pr = Ok ps /\ ps ≡ₚ snap_policies s;
  gw_grants : exists gs, result_mapM parse_grant gr = Ok gs /\ gs ≡ₚ snap_grants s;
  gw_bindings : exists bs, result_mapM parse_binding br = Ok bs /\ bs ≡ₚ snap_bindings s }.

Lemma snapshot_rows d s :
  authorization_snapshot d = Ok s ->
  graph_rows d s (rows (db_policies d)) (rows (db_grants d)) (rows (db_bindings d)).
Proof.
  unfold authorization_snapshot, parse_uint, parse_array. intros H. minv.
  repeat match goal with H : try_from _ _ = Some _ |- _ => apply try_from_Some in H as [-> ?] end.
  match goal with H : try_array _ _ = Some _ |- _ => apply try_array_Some in H end.
  assert (forall A B (f : A -> result StorageError B) le l bs, result_mapM f (order_by le l) = Ok bs ->
            exists bs', result_mapM f l = Ok bs' /\ bs' ≡ₚ bs) as Hsort.
  { intros A B f le l bs Hm. destruct (mapM_perm f _ _ _ (order_by_perm le l) Hm) as (bs' & ? & Hb).
    exists bs'. by rewrite Hb. }
  split; cbn; eauto.
Qed.

Lemma rows_snapshot d s pr gr br :
  graph_rows d s pr gr br -> rows (db_policies d) ≡ₚ pr -> rows (db_grants d) ≡ₚ gr ->
  rows (db_bindings d) ≡ₚ br ->
  exists s', authorization_snapshot d = Ok s' /\ snap_state s' = snap_state s
    /\ snap_policies s' ≡ₚ snap_policies s /\ snap_grants s' ≡ₚ snap_grants s
    /\ snap_bindings s' ≡ₚ snap_bindings s.
Proof.
  intros [[Hr Hu] Hc (ps & Hp & Ep) (gs & Hg & Eg) (bs & Hb & Eb)] Pp Pg Pb.
  assert (forall A B (f : A -> result StorageError B) le l l' bs, l ≡ₚ l' -> result_mapM f l' = Ok bs ->
            exists bs', result_mapM f (order_by le l) = Ok bs' /\ bs' ≡ₚ bs) as Hsort.
  { intros A B f le l l' cs Hl Hm. destruct (mapM_perm f l' (order_by le l) cs) as (bs' & ? & Hcs);
      [by rewrite order_by_perm|done|]. exists bs'. by rewrite Hcs. }
  destruct (Hsort _ _ _ (by_blob pol_policy_id) _ _ _ Pp Hp) as (ps' & Hp' & Ep').
  destruct (Hsort _ _ _ (by_blob gr_grant_id) _ _ _ Pg Hg) as (gs' & Hg' & Eg').
  destruct (Hsort _ _ _ (by_blob2 bd_principal_id bd_policy_id) _ _ _ Pb Hb) as (bs' & Hb' & Eb').
  eexists. split.
  - unfold authorization_snapshot, parse_uint, parse_array. rewrite Hr, Hc.
    rewrite (proj2 (try_from_Some _ _ _) (conj eq_refl Hu)), try_array_arr. cbn [ok_or result_bind].
    rewrite Hp', Hg', Hb'. reflexivity.
  - cbn. split_and!; [by destruct (snap_state s)|by rewrite Ep'|by rewrite Eg'|by rewrite Eb'].
Qed.

(** ** The rows that are written read back *)

Definition policy_of (p : PolicyInsert) : PolicyRecord :=
  {| po_policy_id := pi_policy_id p; po_revision := 1; po_state := "active"; po_metadata_version := 1;
     po_metadata := pi_metadata p; po_state_commitment := pi_state_commitment p;
     po_created_at_unix_ms := pi_created_at_unix_ms p; po_updated_at_unix_ms := pi_created_at_unix_ms p |}.

Ltac parse_back :=
  unfold parse_uuid, parse_array, parse_uint; cbn; rewrite ?try_array_arr; cbn [ok_or result_bind].

Lemma parse_policy_row p : er_typed (pi_metadata p) -> parse_policy (policy_row p) = Ok (policy_of p).
Proof.
  intros Ht. unfold parse_policy, policy_row. parse_back.
  rewrite (proj2 (try_from_Some _ _ _) (conj eq_refl Ht)). cbn. unfold policy_of. by destruct (pi_metadata p).
Qed.

Lemma parse_grant_row g : parse_grant (grant_row g) = Ok g.
Proof.
  unfold parse_grant, grant_row.
  cbn [gr_grant_id gr_policy_id gr_action gr_resource_kind gr_resource_id gr_include_descendants gr_created_by
       gr_created_at gr_state_commitment].
  unfold parse_uuid, parse_array. rewrite !try_array_arr. cbn [ok_or result_bind]. rewrite action_from_str_as_str. cbn [ok_or result_bind].
  by destruct g as [? ? ? [] ? [] ? ? ?].
Qed.

Lemma parse_binding_row b : parse_binding (binding_row b) = Ok b.
Proof. unfold parse_binding, binding_row. parse_back. by destruct b. Qed.

(** ** What the storage operations do to the graph *)

(** Everything of a database the graph consists of, but for the audit log. *)
Definition graph_written (d' d : Db) (pr : list PolicyRow) (gr : list GrantRow) (br : list BindingRow)
    (revision : Z) (commitment : array 32) : Prop :=
  rows (db_policies d') ≡ₚ pr /\ rows (db_grants d') ≡ₚ gr /\ rows (db_bindings d') ≡ₚ br
  /\ db_authz_revision d' = revision /\ db_authz_commitment d' = arr commitment.

Ltac written :=
  txn_policy; txn;
  repeat match goal with
    | H : checked_add _ _ _ = Some _ |- _ => apply checked_add_Some in H as [-> ?]
    | H : sql_i64 _ = Ok _ |- _ => apply ok_or_Ok, try_from_Some in H as [-> ?]
    | H : sql_insert policies_schema _ _ = Some _ |- _ => apply sql_insert_Some in H as (-> & ? & _)
    | H : sql_insert grants_schema _ _ = Some _ |- _ => apply sql_insert_Some in H as (-> & ? & _)
    | H : sql_insert bindings_schema _ _ = Some _ |- _ => apply sql_insert_Some in H as (-> & ? & _)
    end.

Lemma create_policy_written p r c a d n d' :
  create_policy p r c a d = (Ok n, d') ->
  db_authz_revision d = r /\ 0 < r + 1 <= i64_max
  /\ graph_written d' d (policy_row p :: rows (db_policies d)) (rows (db_grants d)) (rows (db_bindings d)) (r + 1) c.
Proof.
  intros H. unfold create_policy in H. written. split; [done|]. split; [done|].
  unfold graph_written; cbn. split_and!; try done. rewrite rows_insert. by rewrite Permutation_app_comm.
Qed.

Lemma add_policy_grant_written g r c a d n d' :
  add_policy_grant g r c a d = (Ok n, d') ->
  db_authz_revision d = r /\ 0 < r + 1 <= i64_max
  /\ graph_written d' d (rows (db_policies d)) (grant_row g :: rows (db_grants d)) (rows (db_bindings d)) (r + 1) c.
Proof.
  intros H. unfold add_policy_grant in H. written. split; [done|]. split; [done|].
  unfold graph_written; cbn. split_and!; try done. rewrite rows_insert. by rewrite Permutation_app_comm.
Qed.

Lemma bind_policy_written b r c a d n d' :
  bind_policy b r c a d = (Ok n, d') ->
  db_authz_revision d = r /\ 0 < r + 1 <= i64_max
  /\ graph_written d' d (rows (db_policies d)) (rows (db_grants d)) (binding_row b :: rows (db_bindings d)) (r + 1) c.
Proof.
  intros H. unfold bind_policy in H. written. split; [done|]. split; [done|].
  unfold graph_written; cbn. split_and!; try done. rewrite rows_insert. by rewrite Permutation_app_comm.
Qed.

(** An update that changes one row. *)
Lemma update_one {A} (p : A -> bool) (f : A -> A) t :
  count p t = 1 -> exists a rest, rows t ≡ₚ a :: rest /\ (p a = true) /\ Forall (fun b => p b = false) rest
                     /\ rows (update_rows p f t) ≡ₚ f a :: rest.
Proof.
  unfold count, select. rewrite rows_update. generalize (rows t). clear t. intros l.
  induction l as [|x l IH]; cbn; [done|]. destruct (p x) eqn:E.
  - intros Hl. exists x, l. assert (Forall (fun b => p b = false) l) as HF.
    { apply Forall_forall. intros b Hb. destruct (p b) eqn:Eb; [|done]. exfalso.
      assert (In b (List.filter p l)) as Hin by (apply filter_In; split; [by apply list_elem_of_In|done]).
      unfold zlen in Hl. cbn in Hl. destruct (List.filter p l); [done|]. cbn in Hl. lia. }
    split_and!; try done. assert ((fun a => if p a then f a else a) <$> l = l) as ->; [|done].
    clear -HF. induction HF as [|b l Hb HF IH]; [done|]. cbn. by rewrite Hb, IH.
  - intros (a & rest & H1 & H2 & H3 & H4)%IH. exists a, (x :: rest).
    split_and!; [rewrite H1; by constructor|done|by constructor|]. rewrite H4. by constructor.
Qed.

Lemma archive_policy_written i pr pc u r c a d n d' :
  archive_policy i pr pc u r c a d = (Ok n, d') ->
  db_authz_revision d = r /\ 0 < r + 1 <= i64_max /\ 0 <= pr + 1 <= i64_max
  /\ exists row rest, rows (db_policies d) ≡ₚ row :: rest /\ (row ∉ rest) /\ pol_policy_id row = arr i
     /\ graph_written d' d (archive_policy_row (pr + 1) (arr pc) u row :: rest) (rows (db_grants d))
          (rows (db_bindings d)) (r + 1) c.
Proof.
  intros H. unfold archive_policy in H. written. bprop.
  match goal with H : sql_update _ _ _ _ = Some _ |- _ => apply sql_update_Some in H as (Hn & -> & _) end.
  match goal with |- context [update_rows ?p ?f ?t] => destruct (update_one p f t) as (row & rest & Hrows & Hsel & Hrest & Hupd) end.
  { by rewrite <- Hn. }
  assert (row ∉ rest).
  { intros Hin. rewrite Forall_forall in Hrest. specialize (Hrest _ Hin). cbn in *. congruence. }
  bprop. destruct_and!. split_and!; try done; try lia. exists row, rest. cbn in *. by split_and!.
Qed.

Lemma policy_id_unique d a b :
  tables_ok d -> a ∈ rows (db_policies d) -> b ∈ rows (db_policies d) ->
  pol_policy_id a = pol_policy_id b -> a = b.
Proof.
  intros H Ha Hb E. eapply (unique_row policies_schema); [by apply ok_policies|done..|].
  eapply (clash_at _ _ _ 0); simpl; by rewrite ?E.
Qed.

(** ** The commitment of the changed graph *)

Section Changes.
Context {CR : Crypto} {CL : CryptoLaws} (self : InitializedVault).

Lemma graph_commitment_perm s s' r exclude extra :
  graph_items s exclude extra ≡ₚ items_of s' ->
  graph_commitment self s r exclude extra = graph_commitment self s' r None None.
Proof.
  intros H. unfold graph_commitment. rewrite graph_items_all, (order_by_blob_perm _ _ H).
  by rewrite (Permutation_length H).
Qed.

(** The number of records a graph has. *)
Definition graph_size (s : AuthorizationSnapshot) : Z :=
  zlen (snap_policies s) + zlen (snap_grants s) + zlen (snap_bindings s).

Lemma verify_changed s :
  Forall (fun p => verify_policy self p = Ok tt) (snap_policies s) ->
  Forall (fun g => verify_grant self g = Ok tt) (snap_grants s) ->
  Forall (fun b => verify_binding self b = Ok tt) (snap_bindings s) ->
  graph_commitment self s (as_revision (snap_state s)) None None = Ok (as_state_commitment (snap_state s)) ->
  verify_snapshot self s = if MAX_AUTHORIZATION_RECORDS <? graph_size s then Err AzUnavailable else Ok tt.
Proof.
  intros Hp Hg Hb Hc. destruct (MAX_AUTHORIZATION_RECORDS <? graph_size s) eqn:E.
  - unfold verify_snapshot. unfold graph_size in E. by rewrite E.
  - apply verify_snapshot_Ok. unfold graph_size in E. bprop. split_and!; done || lia.
Qed.

(** The same graph in another order of its records. *)
Definition same_graph (s s' : AuthorizationSnapshot) : Prop :=
  snap_state s = snap_state s' /\ snap_policies s ≡ₚ snap_policies s' /\ snap_grants s ≡ₚ snap_grants s'
  /\ snap_bindings s ≡ₚ snap_bindings s'.

Lemma items_of_same s s' : same_graph s s' -> items_of s ≡ₚ items_of s'.
Proof. intros (_ & Hp & Hg & Hb). unfold items_of. by rewrite Hp, Hg, Hb. Qed.

(** A graph that is written with the commitment of its items reads back and verifies. *)
Lemma changed_graph_reads d d' s0 s pr gr br c exclude extra :
  graph_rows d' s pr gr br ->
  graph_written d' d pr gr br (as_revision (snap_state s)) c ->
  c = as_state_commitment (snap_state s) ->
  graph_commitment self s0 (as_revision (snap_state s)) exclude extra = Ok c ->
  graph_items s0 exclude extra ≡ₚ items_of s ->
  Forall (fun p => verify_policy self p = Ok tt) (snap_policies s) ->
  Forall (fun g => verify_grant self g = Ok tt) (snap_grants s) ->
  Forall (fun b => verify_binding self b = Ok tt) (snap_bindings s) ->
  exists s', authorization_snapshot d' = Ok s' /\ same_graph s' s
    /\ verify_snapshot self s' = if MAX_AUTHORIZATION_RECORDS <? graph_size s' then Err AzUnavailable else Ok tt.
Proof.
  intros Hr (Wp & Wg & Wb & _ & _) -> Hc Hi Fp Fg Fb.
  destruct (rows_snapshot d' s pr gr br Hr Wp Wg Wb) as (s' & Hs' & Hst & Pp & Pg & Pb).
  exists s'. assert (same_graph s' s) as Hsame by done. split_and!; [done..|].
  apply verify_changed; [by rewrite Pp|by rewrite Pg|by rewrite Pb|].
  rewrite Hst, <- Hc. symmetry. apply graph_commitment_perm. by rewrite Hi, items_of_same.
Qed.

(** ** The changes *)

Inductive PolicyChange : Type :=
| CreatePolicy (label : rstring)
| ArchivePolicy (policy : PolicyId) (expected_revision : Z)
| AddGrant (spec : GrantSpec)
| BindPolicy (service : PrincipalId) (policy : PolicyId).

Definition run_change (owner : AuthenticatedOwner) (c : PolicyChange) (request : RequestId) (now : Z)
  : Authz unit :=
  match c with
  | CreatePolicy label => do! _ := vault_create_policy self owner label request now in prog_ret tt
  | ArchivePolicy p r => do! _ := vault_archive_policy self owner p r request now in prog_ret tt
  | AddGrant spec => do! _ := vault_add_policy_grant self owner spec request now in prog_ret tt
  | BindPolicy service p => bind_policy_to_service self owner service p request now
  end.

(** [p'] is [p], archived. *)
Definition archived_from (p p' : PolicyRecord) (now : Z) : Prop :=
  po_policy_id p' = po_policy_id p /\ po_revision p' = po_revision p + 1 /\ po_state p' = "archived"
  /\ po_metadata_version p' = po_metadata_version p /\ po_metadata p' = po_metadata p
  /\ po_created_at_unix_ms p' = po_created_at_unix_ms p /\ po_updated_at_unix_ms p' = now.

(** What a change asks of the graph. *)
Definition graph_after (owner : AuthenticatedOwner) (c : PolicyChange) (now : Z)
    (s s' : AuthorizationSnapshot) : Prop :=
  as_revision (snap_state s') = as_revision (snap_state s) + 1
  /\ match c with
     | CreatePolicy _ =>
         (exists p, snap_policies s' ≡ₚ p :: snap_policies s /\ po_revision p = 1 /\ po_state p = "active"
            /\ po_created_at_unix_ms p = now)
         /\ snap_grants s' ≡ₚ snap_grants s /\ snap_bindings s' ≡ₚ snap_bindings s
     | ArchivePolicy id revision =>
         (exists p p' rest, snap_policies s ≡ₚ p :: rest /\ snap_policies s' ≡ₚ p' :: rest
            /\ po_policy_id p = id /\ po_revision p = revision /\ po_state p = "active"
            /\ archived_from p p' now)
         /\ snap_grants s' ≡ₚ snap_grants s /\ snap_bindings s' ≡ₚ snap_bindings s
     | AddGrant spec =>
         (exists g, snap_grants s' ≡ₚ g :: snap_grants s /\ grant_spec g = spec
            /\ pg_created_by_principal_id g = ao_principal_id owner /\ pg_created_at_unix_ms g = now)
         /\ snap_policies s' ≡ₚ snap_policies s /\ snap_bindings s' ≡ₚ snap_bindings s
     | BindPolicy service id =>
         (exists b, snap_bindings s' ≡ₚ b :: snap_bindings s /\ pb_principal_id b = service
            /\ pb_policy_id b = id /\ pb_created_by_principal_id b = ao_principal_id owner
            /\ pb_created_at_unix_ms b = now)
         /\ snap_policies s' ≡ₚ snap_policies s /\ snap_grants s' ≡ₚ snap_grants s
     end.

Lemma begin_policy_change_Ok owner request now w u w' :
  quiet w -> begin_policy_change self owner request now w = (Ok u, w') ->
  quiet w' /\ w_ring w' = w_ring w /\ exists t, w_db w' = set_audit t (w_db w).
Proof.
  intros Hq H. unfold begin_policy_change, require_owner_context in H. minv.
  match goal with H : verify_owner_context_active _ _ _ _ = _ |- _ =>
    unfold verify_owner_context_active, auth_ask, auth_call in H end. minv.
  match goal with H : call_raw (prog_read _) _ _ = _ |- _ => apply call_read_Ok in H as [_ ->]; [|done] end.
  unfold authorize, az_call in *. minv.
  match goal with H : build_audit_outcome _ _ _ _ _ _ _ = _ |- _ => apply build_audit_outcome_Ok in H as [n ->]; [|done] end.
  match goal with H : call_raw (append_audit _) _ _ = _ |- _ => apply call_raw_quiet_Ok in H as (d & H & ->); [|done] end.
  unfold append_audit in *. txn. cbn. eauto.
Qed.

Lemma verified_snapshot_Ok w s w' :
  quiet w -> verified_authorization_snapshot self w = (Ok s, w') ->
  w' = w /\ authorization_snapshot (w_db w) = Ok s /\ verify_snapshot self s = Ok tt.
Proof.
  intros Hq H. unfold verified_authorization_snapshot, az_ask, az_call in H. minv.
  match goal with H : call_raw (prog_read _) _ _ = _ |- _ => apply call_read_Ok in H as [? ->]; [|done] end.
  match goal with u : unit |- _ => by destruct u end.
Qed.

(** What a change establishes of the graph that is stored afterwards. *)
Definition change_result (owner : AuthenticatedOwner) (c : PolicyChange) (now : Z) (d d' : Db) : Prop :=
  exists s s', authorization_snapshot d = Ok s /\ verify_snapshot self s = Ok tt
    /\ authorization_snapshot d' = Ok s' /\ graph_after owner c now s s'
    /\ verify_snapshot self s' = if MAX_AUTHORIZATION_RECORDS <? graph_size s' then Err AzUnavailable else Ok tt.

(** The graph with its records replaced and the next revision. *)
Definition graph_with (s : AuthorizationSnapshot) (c : array 32) (ps : list PolicyRecord)
    (gs : list PolicyGrantRecord) (bs : list PolicyBindingRecord) : AuthorizationSnapshot :=
  {| snap_state := {| as_revision := as_revision (snap_state s) + 1; as_state_commitment := c |};
     snap_policies := ps; snap_grants := gs; snap_bindings := bs |}.

Lemma graph_items_extra s extra : graph_items s None (Some extra) ≡ₚ extra :: items_of s.
Proof.
  rewrite <- graph_items_all. unfold graph_items. cbn [option_list]. rewrite app_nil_r, !app_assoc.
  symmetry. apply Permutation_cons_append.
Qed.

Ltac change_begins :=
  minv; match goal with H : begin_policy_change _ _ _ _ _ = _ |- _ =>
    apply begin_policy_change_Ok in H as (Hq1 & Hring & taudit & Hdb); [|done] end.
Ltac change_reads L :=
  match goal with H : _ ?w = (Ok _, ?w') |- _ =>
    let E := fresh in pose proof (f_equal snd H) as E; rewrite L in E by done; cbn in E; subst w'; clear H end.
Ltac change_runs :=
  unfold az_random_id, az_audit, az_call in *; minv;
  repeat match goal with
    | H : verified_authorization_snapshot _ _ = _ |- _ => apply verified_snapshot_Ok in H as (-> & ? & ?); [|done]
    | H : random_id _ = (Ok _, _) |- _ => apply random_id_Ok in H as [-> ->]
    | H : encrypt_record _ _ _ _ _ _ _ = _ |- _ => apply encrypt_record_Ok in H as ((? & ->) & _ & ? & _)
    | H : build_audit _ _ _ _ _ _ = _ |- _ => apply build_audit_Ok in H as [? ->]; [|done]
    | H : call_raw _ (map_err _) _ = (Ok _, _) |- _ => apply call_raw_quiet_Ok in H as (? & ? & ->); [|done]
    end;
  repeat match goal with H : checked_add _ _ _ = Some _ |- _ => apply checked_add_Some in H as [-> ?] end;
  cbn [w_db set_w_db set_w_draws w_ring] in *.

(** The new rows of a graph parse, in some order, to its new records. *)
Definition parses_to {R A} (parse : R -> result StorageError A) (rs : list R) (l : list A) : Prop :=
  exists l', result_mapM parse rs = Ok l' /\ l' ≡ₚ l.

Lemma parses_cons {R A} (parse : R -> result StorageError A) r a rs l :
  parse r = Ok a -> parses_to parse rs l -> parses_to parse (r :: rs) (a :: l).
Proof. intros Ha (l' & Hl & Hp). exists (a :: l'). cbn. rewrite Ha. cbn. rewrite Hl. split; [done|]. by rewrite Hp. Qed.

Lemma change_stored owner c now d0 d d' s gc pr gr br ps gs bs exclude extra :
  authorization_snapshot d0 = Ok s -> verify_snapshot self s = Ok tt ->
  in_u64 (as_revision (snap_state s) + 1) ->
  graph_written d' d pr gr br (as_revision (snap_state s) + 1) gc ->
  graph_commitment self s (as_revision (snap_state s) + 1) exclude extra = Ok gc ->
  parses_to parse_policy pr ps -> parses_to parse_grant gr gs -> parses_to parse_binding br bs ->
  graph_items s exclude extra ≡ₚ items_of (graph_with s gc ps gs bs) ->
  Forall (fun p => verify_policy self p = Ok tt) ps -> Forall (fun g => verify_grant self g = Ok tt) gs ->
  Forall (fun b => verify_binding self b = Ok tt) bs ->
  (forall s', same_graph s' (graph_with s gc ps gs bs) -> graph_after owner c now s s') ->
  change_result owner c now d0 d'.
Proof.
  intros Hs Hv Hu Hw Hc Hp Hg Hb Hi Fp Fg Fb Ha.
  destruct (changed_graph_reads d d' s (graph_with s gc ps gs bs) pr gr br gc exclude extra)
    as (s' & Hs' & Hsame & Hv'); try done.
  - destruct Hw as (_ & _ & _ & Hr & Hcm). by split.
  - exists s, s'. split_and!; try done. by apply Ha.
Qed.

Ltac verified_parts :=
  match goal with H : verify_snapshot _ _ = Ok _ |- _ =>
    pose proof (proj1 (verify_snapshot_Ok self _) H) as (_ & Fp & Fg & Fb & _) end;
  match goal with H : authorization_snapshot _ = Ok _ |- _ =>
    destruct (snapshot_rows _ _ H) as [[_ Hu] _ Gp Gg Gb] end.

Lemma create_policy_changes owner label request now w id w' :
  quiet w -> in_u32 (kr_active_version (w_ring w)) ->
  vault_create_policy self owner label request now w = (Ok id, w') ->
  change_result owner (CreatePolicy label) now (w_db w) (w_db w').
Proof.
  intros Hq Hk H. unfold vault_create_policy in H. change_begins. change_runs. verified_parts.
  match goal with H : create_policy ?p _ ?gc _ _ = _ |- _ => apply create_policy_written in H as (_ & _ & Hw);
    set (pol := policy_of p); rename gc into gc0 end.
  rewrite Hdb in *. cbn [db_policies db_grants db_bindings set_audit] in *.
  match goal with H : authorization_snapshot _ = Ok ?s |- _ =>
    apply (change_stored owner _ now (w_db w) _ _ s gc0 _ _ _ (pol :: snap_policies s) (snap_grants s)
             (snap_bindings s) _ _ H ltac:(done) ltac:(unfold in_u64 in *; lia) Hw ltac:(done)) end; try done.
  - apply parses_cons; [apply parse_policy_row|done]. cbn. eapply active_typed; [done|by rewrite Hring].
  - by rewrite graph_items_extra.
  - constructor; [|done]. unfold verify_policy. cbn. 
    match goal with H : policy_commitment _ _ _ _ _ _ _ _ = Ok _ |- _ => rewrite H end. cbn. by rewrite bool_decide_true.
  - intros s' (Hst & Hp & Hg & Hb). split; [by rewrite Hst|]. split; [|done]. exists pol. by rewrite Hp.
Qed.

Lemma verify_grant_target_reads kind id : reads (verify_grant_target self kind id).
Proof. unfold verify_grant_target, ask_or_deny. read_only. Qed.
Lemma require_active_service_reads id : reads (require_active_service self id).
Proof. unfold require_active_service, az_ask, az_call. read_only. Qed.

Lemma add_grant_changes owner spec request now w id w' :
  quiet w -> vault_add_policy_grant self owner spec request now w = (Ok id, w') ->
  change_result owner (AddGrant spec) now (w_db w) (w_db w').
Proof.
  intros Hq H. unfold vault_add_policy_grant in H. change_begins. change_reads verify_grant_target_reads.
  change_runs. verified_parts.
  match goal with H : add_policy_grant ?p _ ?gc _ _ = _ |- _ => apply add_policy_grant_written in H as (_ & _ & Hw);
    set (g := p) in *; rename gc into gc0 end.
  rewrite Hdb in *. cbn [db_policies db_grants db_bindings set_audit] in *.
  match goal with H : authorization_snapshot _ = Ok ?s |- _ =>
    apply (change_stored owner _ now (w_db w) _ _ s gc0 _ _ _ (snap_policies s) (g :: snap_grants s)
             (snap_bindings s) _ _ H ltac:(done) ltac:(unfold in_u64 in *; lia) Hw ltac:(done)) end; try done.
  - apply parses_cons; [apply parse_grant_row|done].
  - rewrite graph_items_extra. unfold items_of. cbn. by rewrite Permutation_middle.
  - constructor; [|done]. unfold verify_grant. bprop.
    assert (grant_spec g = spec) as -> by by destruct spec.
    match goal with H : is_valid_for_service _ = true |- _ => rewrite H end. cbn.
    match goal with H : grant_commitment _ _ _ _ _ = Ok _ |- _ => rewrite H end. cbn. by rewrite bool_decide_true.
  - intros s' (Hst & Hp & Hg & Hb). split; [by rewrite Hst|]. split; [|done]. exists g. rewrite Hg. by destruct spec.
Qed.

Lemma bind_changes owner service policy request now w u w' :
  quiet w -> bind_policy_to_service self owner service policy request now w = (Ok u, w') ->
  change_result owner (BindPolicy service policy) now (w_db w) (w_db w').
Proof.
  intros Hq H. unfold bind_policy_to_service in H. change_begins. change_reads require_active_service_reads.
  change_runs. verified_parts.
  match goal with H : bind_policy ?p _ ?gc _ _ = _ |- _ => apply bind_policy_written in H as (_ & _ & Hw);
    set (b := p) in *; rename gc into gc0 end.
  rewrite Hdb in *. cbn [db_policies db_grants db_bindings set_audit] in *.
  match goal with H : authorization_snapshot _ = Ok ?s |- _ =>
    apply (change_stored owner _ now (w_db w) _ _ s gc0 _ _ _ (snap_policies s) (snap_grants s)
             (b :: snap_bindings s) _ _ H ltac:(done) ltac:(unfold in_u64 in *; lia) Hw ltac:(done)) end; try done.
  - apply parses_cons; [apply parse_binding_row|done].
  - rewrite graph_items_extra. unfold items_of. cbn. by rewrite !app_assoc, Permutation_middle.
  - constructor; [|done]. unfold verify_binding. cbn.
    match goal with H : binding_commitment _ _ _ _ _ = Ok _ |- _ => rewrite H end. cbn. by rewrite bool_decide_true.
  - intros s' (Hst & Hp & Hg & Hb). split; [by rewrite Hst|]. split; [|done]. exists b. by rewrite Hb.
Qed.

Lemma parses_cons_inv {R A} (parse : R -> result StorageError A) r rs rs' l :
  rs ≡ₚ r :: rs' -> parses_to parse rs l ->
  exists a l', parse r = Ok a /\ parses_to parse rs' l' /\ l ≡ₚ a :: l'.
Proof.
  intros Hp (k & Hk & Hl). destruct (mapM_perm _ _ _ _ Hp Hk) as (k' & Hk' & Hkk).
  cbn in Hk'. destruct (parse r) as [a|]; cbn in Hk'; [|done].
  destruct (result_mapM parse rs') as [l'|] eqn:E; cbn in Hk'; [|done]. injection Hk' as <-.
  exists a, l'. split; [done|]. split; [by exists l'|]. by rewrite <- Hl, Hkk.
Qed.

Lemma parses_elem {R A} (parse : R -> result StorageError A) rs l a :
  parses_to parse rs l -> a ∈ l -> exists r, r ∈ rs /\ parse r = Ok a.
Proof. intros (k & Hk & Hl) Ha. rewrite <- Hl in Ha. by eapply result_mapM_elem. Qed.

Lemma parse_policy_id r p : parse_policy r = Ok p -> pol_policy_id r = arr (po_policy_id p).
Proof.
  intros H. unfold parse_policy, parse_uuid, parse_array in H. minv. cbn.
  match goal with H : try_array 16 _ = Some _ |- _ => apply try_array_Some in H end. done.
Qed.

(** A policy as it is after being archived. *)
Definition archived_policy (p : PolicyRecord) (commitment : array 32) (now : Z) : PolicyRecord :=
  {| po_policy_id := po_policy_id p; po_revision := po_revision p + 1; po_state := "archived";
     po_metadata_version := po_metadata_version p; po_metadata := po_metadata p;
     po_state_commitment := commitment; po_created_at_unix_ms := po_created_at_unix_ms p;
     po_updated_at_unix_ms := now |}.

Lemma parse_archived row p commitment now :
  parse_policy row = Ok p -> in_u64 (po_revision p + 1) ->
  parse_policy (archive_policy_row (po_revision p + 1) (arr commitment) now row) = Ok (archived_policy p commitment now).
Proof.
  intros H Hu. unfold parse_policy, parse_uuid, parse_array, parse_uint in *. minv.
  cbn [archive_policy_row pol_policy_id pol_revision pol_metadata_version pol_metadata_nonce pol_metadata_dek_nonce
       pol_metadata_wrapped_dek pol_metadata_kek_version pol_state_commitment po_revision] in *.
  repeat match goal with
    | H : try_array _ _ = Some _ |- _ => rewrite H
    | H : try_from _ (pol_metadata_version _) = Some _ |- _ => rewrite H
    | H : try_from _ (pol_metadata_kek_version _) = Some _ |- _ => rewrite H
    end.
  rewrite (proj2 (try_from_Some _ _ _) (conj eq_refl Hu)), try_array_arr. done.
Qed.

(** Archiving replaces the one policy of the identifier. *)
Lemma archived_policies d s row rest id p :
  tables_ok d -> parses_to parse_policy (rows (db_policies d)) (snap_policies s) ->
  rows (db_policies d) ≡ₚ row :: rest -> row ∉ rest -> pol_policy_id row = arr id ->
  p ∈ snap_policies s -> po_policy_id p = id ->
  parse_policy row = Ok p
  /\ exists ps, parses_to parse_policy rest ps /\ snap_policies s ≡ₚ p :: ps
       /\ Forall (fun q => po_policy_id q <> id) ps.
Proof.
  intros Hok Hparse Hrows Hnew Hid Hp Hpid.
  destruct (parses_cons_inv _ _ _ _ _ Hrows Hparse) as (p1 & ps & Hp1 & Hps & Hperm).
  assert (Forall (fun q => po_policy_id q <> id) ps) as Hother.
  { apply Forall_forall. intros q Hq Hqid. destruct (parses_elem _ _ _ _ Hps Hq) as (r & Hr & Hrq).
    apply parse_policy_id in Hrq. rewrite Hqid, <- Hid in Hrq. apply Hnew.
    rewrite (policy_id_unique d row r); [done|done|rewrite Hrows; by left|rewrite Hrows; by right|done]. }
  rewrite Hperm in Hp. apply elem_of_cons in Hp as [->|Hp]; [by eauto 10|].
  rewrite Forall_forall in Hother. by apply Hother in Hp.
Qed.

Lemma graph_items_replace s p ps extra :
  snap_policies s ≡ₚ p :: ps -> Forall (fun q => po_policy_id q <> po_policy_id p) ps ->
  graph_items s (Some (tag_P, arr (po_policy_id p))) (Some extra)
  ≡ₚ extra :: (policy_item <$> ps) ++ (grant_item <$> snap_grants s) ++ (binding_item <$> snap_bindings s).
Proof.
  intros Hp Hne. unfold graph_items, excluded. cbn [option_list is_some_and fst snd].
  assert (forall (A : Type) (l : list A), filter (fun _ => false = false) l = l) as Hall.
  { intros A l. induction l as [|a l IH]; [done|]. rewrite filter_cons_True by done. by rewrite IH. }
  rewrite Hp. rewrite filter_cons_False by (rewrite blob_eqb_refl; done).
  assert (filter (fun q => (tag_P =? tag_P)%byte && blob_eqb (arr (po_policy_id p)) (arr (po_policy_id q)) = false) ps = ps) as ->.
  { clear Hp. induction Hne as [|q ps Hq Hne IH]; [done|]. rewrite filter_cons_True; [by rewrite IH|].
    apply not_true_iff_false. intros [_ E]%andb_true_iff. apply blob_eqb_true, array_eq in E. congruence. }
  change (tag_P =? tag_G)%byte with false. change (tag_P =? tag_B)%byte with false. cbn [andb]. rewrite !Hall.
  rewrite !app_assoc. symmetry. apply Permutation_cons_append.
Qed.

Lemma archive_changes owner id revision request now w n w' :
  quiet w -> tables_ok (w_db w) -> vault_archive_policy self owner id revision request now w = (Ok n, w') ->
  change_result owner (ArchivePolicy id revision) now (w_db w) (w_db w').
Proof.
  intros Hq Hok H. unfold vault_archive_policy in H. change_begins. change_runs. verified_parts.
  match goal with H : archive_policy _ _ ?pc _ _ ?gc _ _ = _ |- _ =>
    apply archive_policy_written in H as (_ & _ & Hrev & row & rest & Hrows & Hnew & Hid & Hw);
    rename gc into gc0; rename pc into pc0 end.
  rewrite Hdb in *. cbn [db_policies db_grants db_bindings set_audit] in *.
  match goal with H : List.find _ _ = Some ?p |- _ =>
    apply find_some in H as [Hin%list_elem_of_In Hfound]; rename p into p0 end. bprop.
  match goal with H : authorization_snapshot _ = Ok ?s |- _ => rename s into s0; rename H into Hs0 end.
  destruct (archived_policies _ s0 row rest id p0 Hok Gp Hrows Hnew Hid Hin Hfound) as (Hrow & ps & Hps & Hperm & Hne).
  destruct_and!. subst id revision. set (p1 := archived_policy p0 pc0 now).
  apply (change_stored owner _ now (w_db w) _ _ s0 gc0 _ _ _ (p1 :: ps) (snap_grants s0)
             (snap_bindings s0) _ _ Hs0 ltac:(done) ltac:(unfold in_u64 in *; lia) Hw ltac:(done)); try done.
  - apply parses_cons; [|done]. apply parse_archived; [done|]. unfold in_u64, i64_max, u64_max in *. lia.
  - by rewrite (graph_items_replace s0 p0 ps).
  - rewrite Hperm in Fp. constructor; [|by inversion Fp]. unfold verify_policy. cbn.
    match goal with H : policy_commitment _ _ _ _ _ _ _ _ = Ok _ |- _ => rewrite H end. cbn. by rewrite bool_decide_true.
  - intros s' (Hst & Hp & Hg & Hb). split; [by rewrite Hst|]. split; [|done]. exists p0, p1, ps.
    by rewrite Hp.
Qed.
End Changes.

(** C27. Every change of the policy graph does exactly what was asked, and
    leaves the graph authenticated. Creating or archiving a policy, adding a
    grant or binding a policy succeeds only on a graph that verifies; the stored
    graph then has the next revision and differs by that one record only, with
    the identity, grant, time and author the request named; and it verifies
    again unless it now has more than [MAX_AUTHORIZATION_RECORDS] records, in
    which case every later verification answers that the service is
    unavailable. *)
Theorem policy_change_keeps_graph {CR : Crypto} {CL : CryptoLaws} (self : InitializedVault)
    (owner : AuthenticatedOwner) (c : PolicyChange) (request : RequestId) (now : Z) (w w' : World)
    (Hq : quiet w) (Hok : db_ok (w_db w)) (Hk : in_u32 (kr_active_version (w_ring w)))
    (H : run_change self owner c request now w = (Ok tt, w')) :
  exists s s', authorization_snapshot (w_db w) = Ok s /\ verify_snapshot self s = Ok tt
    /\ authorization_snapshot (w_db w') = Ok s' /\ graph_after owner c now s s'
    /\ verify_snapshot self s' = if MAX_AUTHORIZATION_RECORDS <? graph_size s' then Err AzUnavailable else Ok tt.
Proof.
  destruct c as [label|id r|spec|service id]; cbn [run_change] in H; minv.
  - by eapply create_policy_changes.
  - eapply archive_changes; [done|by apply ok_tables|done].
  - by eapply add_grant_changes.
  - by eapply bind_changes.
Qed.
