(* ===== verification/InitializationProps.v ===== *)
(** Initialization resumes where it was interrupted, succeeds once its bootstrap
    is committed, and reopening returns the same vault. *)
From Stdlib Require Import ZArith Lia Strings.Byte String.
From stdpp Require Import base tactics numbers option strings list gmap.
From S2P Require Import Prelude RustStd Core Crypto Sql Schema Records StoreInv RecordsOk PolicyStore VaultStore RotationStore Store Metadata VaultCore Initialization.

(** ** The steps of an initialization *)

Section Steps.
Context {CR : Crypto}.

(** Up to the root-key file. *)
Definition reach_root : Setup (VaultId * InstallationId * KeyMaterial) :=
  do! _ := prepare_paths in
  do! _ := open_store in
  do! existing := ask_store installation in
  do! _ := prog_read (fun h =>
    if bool_decide (is_Some existing) && bool_decide (h_root_file h = None)
    then Err MissingRootKey else Ok tt) in
  obtain_root existing.

(** Up to the committed bootstrap. *)
Definition reach_bootstrap (now : Z) : Setup (VaultId * InstallationId * KeyMaterial) :=
  do! (v, i, r) := reach_root in
  do! _ := ensure_bootstrap v i r now in
  prog_ret (v, i, r).

Lemma initialize_from_root now h :
  initialize_vault now h
  = (do! (v, i, r) := reach_root in do! _ := ensure_bootstrap v i r now in open_installation v i r) h.
Proof.
  unfold initialize_vault, reach_root, prog_bind.
  destruct (prepare_paths h) as [[[]|] h1]; [|done]. destruct (open_store h1) as [[[]|] h2]; [|done].
  destruct (ask_store installation h2) as [[e|] h3]; [|done].
  match goal with |- context [prog_read ?f h3] => destruct (prog_read f h3) as [[[]|] h4] end; [|done].
  destruct (obtain_root e h4) as [[[[v i] r]|] h5]; done.
Qed.

Lemma initialize_from_bootstrap now h :
  initialize_vault now h = (do! (v, i, r) := reach_bootstrap now in open_installation v i r) h.
Proof.
  rewrite initialize_from_root. unfold reach_bootstrap, prog_bind.
  destruct (reach_root h) as [[[[v i] r]|] h1]; [|done]. by destruct (ensure_bootstrap v i r now h1) as [[[]|] h2].
Qed.

(** ** Hosts that have their root key *)

(** Both paths are usable, the database is open, and the root-key file names
    the installation the database knows of, if any. *)
Record settled_host (v : VaultId) (i : InstallationId) (r : KeyMaterial) (h : Host) : Prop := {
  sh_database_at : prepare_parent (h_database_at h) = Ok (h_database_at h);
  sh_root_at : prepare_parent (h_root_at h) = Ok (h_root_at h);
  sh_separate : ensure_separate_parents (h_database_at h) (h_root_at h) = Ok tt;
  sh_open : is_Some (h_database h);
  sh_root : load_root_key_file (h_root_file h)
            = Ok {| rk_vault_id := v; rk_installation_id := i; rk_key := r |};
  sh_found : exists found, installation (h_db h) = Ok found
    /\ forall e, found = Some e -> ir_vault_id e = v /\ ir_installation_id e = i }.

Lemma load_root_exists f r : load_root_key_file f = Ok r -> is_Some f.
Proof. destruct f; [by eexists|done]. Qed.

Lemma prepare_parent_again l l' : prepare_parent l = Ok l' -> prepare_parent l' = Ok l'.
Proof.
  unfold prepare_parent. destruct (loc_parent l) as [p|] eqn:Ep; [|done]. cbn [ok_or result_bind].
  destruct (loc_dir l) as [dir|] eqn:Ed; cbn [result_bind].
  - rewrite Ed. cbn [ok_or result_bind]. destruct (_ || _) eqn:Ec; [done|]. intros [= <-].
    rewrite Ep, Ed. cbn [ok_or result_bind]. rewrite Ed. cbn [ok_or result_bind]. by rewrite Ec.
  - destruct (loc_creatable l); [|done]. cbn. intros [= <-]. cbn. by rewrite Ep.
Qed.

Lemma set_locations_same h : set_h_locations (h_database_at h) (h_root_at h) h = h.
Proof. by destruct h. Qed.
Lemma set_database_same h : is_Some (h_database h) -> set_h_database (h_db h) h = h.
Proof. intros [d Hd]. destruct h. cbn in *. by subst. Qed.

Lemma settled_reaches v i r h : settled_host v i r h -> reach_root h = (Ok (v, i, r), h).
Proof.
  intros [H1 H2 H3 Hd H4 (found & Hf & He)]. unfold reach_root, prog_bind, prepare_paths.
  rewrite H1. cbn [h_root_at set_h_locations]. rewrite H2, H3.
  change (set_h_locations ?a ?b (set_h_locations ?c ?d h)) with (set_h_locations a b h). rewrite set_locations_same.
  unfold open_store. rewrite set_database_same by done. unfold ask_store. rewrite Hf. cbn [map_err].
  destruct (load_root_exists _ _ H4) as [f Ef]. unfold prog_read. rewrite Ef, (bool_decide_false (Some f = None)) by done.
  rewrite andb_false_r. unfold obtain_root. rewrite Ef. unfold prog_bind, prog_lift. rewrite <- Ef, H4. cbn.
  unfold conflict_if. destruct found as [e|]; cbn; [|done]. destruct (He e eq_refl) as [-> ->].
  by rewrite !bool_decide_true.
Qed.

Lemma obtain_root_Ok existing h v i r h' :
  obtain_root existing h = (Ok (v, i, r), h') ->
  load_root_key_file (h_root_file h') = Ok {| rk_vault_id := v; rk_installation_id := i; rk_key := r |}
  /\ h_database h' = h_database h /\ h_database_at h' = h_database_at h /\ h_root_at h' = h_root_at h
  /\ (is_Some (h_root_file h) -> forall e, existing = Some e -> ir_vault_id e = v /\ ir_installation_id e = i).
Proof.
  unfold obtain_root. destruct (h_root_file h) as [f|] eqn:Ef; intros H.
  - minv. unfold conflict_if in *. match goal with H : load_root_key_file _ = Ok ?x |- _ => destruct x end. cbn in *.
    rewrite Ef. split_and!; try done. intros _ e ->. cbn in *.
    match goal with H : (if ?b then _ else _) = Ok _ |- _ => destruct b eqn:Eb; [done|] end. bprop. done.
  - unfold draw_id, draw in H. unfold prog_bind in H.
    cbn [set_h_draws h_draws] in H.
    match type of H with context [create_root_key_file ?x ?a ?b ?n] =>
      destruct (create_root_key_file x a b n) as [[[k f]|e] n'] eqn:Ec end; cbn in H; [|done].
    injection H as <- <- <- <-. apply create_root_key_file_loads in Ec. cbn. by split_and!.
Qed.

Lemma reach_root_settled h v i r h1 : reach_root h = (Ok (v, i, r), h1) -> settled_host v i r h1.
Proof.
  unfold reach_root. intros H. apply prog_bind_Ok in H as ([] & ha & Hp & H).
  unfold prepare_paths in Hp. destruct (prepare_parent (h_database_at h)) as [da|] eqn:Eda; [|done].
  cbn in Hp. destruct (prepare_parent (h_root_at h)) as [ra|] eqn:Era; [|done]. injection Hp as Hsep <-.
  minv. unfold open_store, ask_store in *. simplify_eq.
  match goal with H : obtain_root _ _ = _ |- _ => apply obtain_root_Ok in H as (Hl & Hdb & Hda & Hra & Hex) end.
  cbn in *. split.
  - rewrite Hda. by eapply prepare_parent_again.
  - rewrite Hra. by eapply prepare_parent_again.
  - by rewrite Hda, Hra.
  - rewrite Hdb. by eexists.
  - done.
  - unfold h_db in *. rewrite Hdb. cbn in *.
    match goal with H : map_err IStorage _ = Ok ?x |- _ => apply map_err_Ok in H; exists x; split; [done|] end.
    intros e ->. apply Hex; [|done]. apply not_eq_None_Some. intros E. rewrite E in *.
    rewrite (bool_decide_true (None = None)) in * by done. done.
Qed.

(** ** The bootstrap *)

(** A program that only draws. *)
Definition draws_only {A} (m : Setup A) : Prop := forall h a h', m h = (Ok a, h') -> exists n, h' = set_h_draws n h.

Lemma draws_bind {A B} (m : Setup A) (k : A -> Setup B) :
  draws_only m -> (forall a, draws_only (k a)) -> draws_only (prog_bind m k).
Proof.
  intros Hm Hk h b h' H. apply prog_bind_Ok in H as (a & h1 & Ha & Hb).
  apply Hm in Ha as [n ->]. apply Hk in Hb as [n' ->]. by eexists.
Qed.
Lemma draws_draw {A} (m : Prog nat CryptoError A) : draws_only (draw m).
Proof. intros h a h'. unfold draw. destruct (m (h_draws h)) as [[x|] n]; [|done]. intros [= _ <-]. by eexists. Qed.
Lemma draws_id : draws_only draw_id.
Proof. intros h a h' [= _ <-]. by eexists. Qed.
Lemma draws_ret {A} (a : A) : draws_only (prog_ret a).
Proof. intros h b h' [= _ <-]. exists (h_draws h). by destruct h. Qed.
Lemma draws_lift {A} (x : result InitializationError A) : draws_only (prog_lift x).
Proof. intros h b h' [= _ <-]. exists (h_draws h). by destruct h. Qed.

Lemma wrap_key_draws wk pk v i kind object wv : draws_only (wrap_key wk pk v i kind object wv).
Proof. unfold wrap_key. repeat (apply draws_bind; [auto using draws_id, draws_draw, draws_lift|intros]). apply draws_ret. Qed.

Lemma create_bootstrap_with_keys_draws v i r key keys now : draws_only (create_bootstrap_with_keys v i r key keys now).
Proof.
  unfold create_bootstrap_with_keys.
  repeat (apply draws_bind; [auto using wrap_key_draws|intros]). apply draws_ret.
Qed.

Lemma create_bootstrap_draws v i r now : draws_only (create_bootstrap v i r now).
Proof.
  unfold create_bootstrap.
  do 4 (apply draws_bind; [apply draws_draw|intros]). apply create_bootstrap_with_keys_draws.
Qed.

Lemma create_bootstrap_with_keys_ids v i r key keys now h b h' :
  create_bootstrap_with_keys v i r key keys now h = (Ok b, h') -> br_vault_id b = v /\ br_installation_id b = i.
Proof. unfold create_bootstrap_with_keys. intros H. by minv. Qed.

Lemma create_bootstrap_ids v i r now h b h' :
  create_bootstrap v i r now h = (Ok b, h') -> br_vault_id b = v /\ br_installation_id b = i.
Proof. unfold create_bootstrap. intros H. minv. by eapply create_bootstrap_with_keys_ids. Qed.

(** The installation row a bootstrap writes. *)
Definition bootstrap_row (b : BootstrapRecord) : InstallationRow :=
  {| inst_logical_vault_id := arr (br_vault_id b); inst_installation_id := arr (br_installation_id b);
     inst_recovery_epoch := 0; inst_initialized_at := br_initialized_at_unix_ms b;
     inst_activation_state := "initializing"; inst_active_kek_version := None;
     inst_security_semantics_version := 1 |}.

Lemma begin_initialization_fresh b d x d' :
  installation d = Ok None -> begin_initialization b d = (Ok x, d') ->
  exists t, d' = set_keys t (set_installation (Some (bootstrap_row b)) d)
    /\ rows t = rows (db_keys d) ++ ((fun k => key_row k (br_initialized_at_unix_ms b)) <$> bootstrap_keys b).
Proof.
  intros Hn H. unfold begin_initialization, begin_initialization_kind, prog_bind, prog_lift, prog_read in H.
  destruct (validate_bootstrap b); [|done]. rewrite Hn in H. apply transact_Ok in H. minv.
  match goal with H : insert_installation _ _ = _ |- _ => unfold insert_installation in H end.
  destruct (db_installation d); [done|]. destruct (installation_check _); [|done]. simplify_eq.
  match goal with H : tx_forM _ _ _ = _ |- _ => apply tx_forM_insert_keys in H as (t & -> & _ & Hrows) end.
  cbn in Hrows. sinv. by exists t.
Qed.

(** The installation as it is read with an activation state. *)
Definition installation_of (b : BootstrapRecord) (state : ActivationState) (active : option Z) : InstallationRecord :=
  {| ir_vault_id := br_vault_id b; ir_installation_id := br_installation_id b; ir_recovery_epoch := 0;
     ir_activation_state := state; ir_active_kek_version := active; ir_security_semantics_version := 1 |}.

Lemma bootstrap_row_reads b d :
  (db_installation d = Some (bootstrap_row b) -> installation d = Ok (Some (installation_of b Initializing None)))
  /\ (db_installation d = Some (set_activation "ready" (Some 1) (bootstrap_row b)) ->
      installation d = Ok (Some (installation_of b Ready (Some 1)))).
Proof.
  unfold installation. split; intros ->; cbn [fmap option_fmap option_map transpose]; unfold parse_installation;
    cbn [bootstrap_row set_activation inst_logical_vault_id inst_installation_id]; by rewrite !parse_uuid_arr.
Qed.

Lemma ensure_bootstrap_settled v i r now h1 h2 :
  settled_host v i r h1 -> ensure_bootstrap v i r now h1 = (Ok tt, h2) ->
  settled_host v i r h2 /\ exists e, installation (h_db h2) = Ok (Some e).
Proof.
  intros Hs H. unfold ensure_bootstrap in H. apply prog_bind_Ok in H as (found & ha & Hf & H).
  unfold ask_store in Hf. injection Hf as Hf <-. apply map_err_Ok in Hf.
  destruct found as [e|]; [minv; eauto|].
  apply prog_bind_Ok in H as (b & hb & Hb & H). pose proof (create_bootstrap_ids _ _ _ _ _ _ _ Hb) as [Ev Ei].
  apply create_bootstrap_draws in Hb as [n ->]. apply prog_bind_Ok in H as (x & hc & Hc & H). minv.
  unfold on_store in Hc. change (h_db (set_h_draws n h1)) with (h_db h1) in Hc.
  destruct (begin_initialization b (h_db h1)) as [[y|] d'] eqn:Eb; [|done]. injection Hc as _ <-.
  apply begin_initialization_fresh in Eb as (t & -> & _); [|done]. destruct Hs as [H1 H2 H3 H4 H5 _].
  pose proof (proj1 (bootstrap_row_reads b (set_keys t (set_installation (Some (bootstrap_row b)) (h_db h1)))) eq_refl) as Hi.
  split; [split; cbn; try done|by eexists]. eexists. split; [exact Hi|]. intros e [= <-]. by subst.
Qed.

Lemma reach_bootstrap_settled now h v i r h2 :
  reach_bootstrap now h = (Ok (v, i, r), h2) ->
  settled_host v i r h2 /\ exists e, installation (h_db h2) = Ok (Some e).
Proof.
  unfold reach_bootstrap. intros H. apply prog_bind_Ok in H as ([[v' i'] r'] & h1 & Hr & H).
  apply reach_root_settled in Hr. apply prog_bind_Ok in H as ([] & h2' & He & H). minv.
  by eapply ensure_bootstrap_settled.
Qed.

(** A bootstrapped host is opened without another bootstrap. *)
Lemma settled_opens now v i r h e :
  settled_host v i r h -> installation (h_db h) = Ok (Some e) -> initialize_vault now h = open_installation v i r h.
Proof.
  intros Hs He. rewrite initialize_from_root. unfold prog_bind at 1. rewrite (settled_reaches v i r h Hs).
  unfold ensure_bootstrap, prog_bind at 1 2, ask_store. by rewrite He.
Qed.

(** ** The opened vault *)

Context {CL : CryptoLaws}.

Lemma wrap_key_unwraps wk pk v i kind object wv h x h' :
  wrap_key wk pk v i kind object wv h = (Ok x, h') ->
  unwrap_key wk v i object x = Ok pk /\ wk_kind x = kind /\ wk_version x = 1 /\ wk_wrapping_kek_version x = wv.
Proof.
  unfold wrap_key. intros H. minv. unfold draw_id, draw in *. simplify_eq.
  match goal with H : (let (r, n) := ?m in _) = _ |- _ => destruct m as [[sealed|] n] eqn:Es; [|done] end. simplify_eq/=.
  match goal with H : try_array 48 _ = Some _ |- _ => apply try_array_Some in H end.
  apply open_seal in Es as [Ho _]. split; [|done]. unfold unwrap_key. cbn.
  match goal with s : SealedRecord |- _ => destruct s end. cbn in *. subst. rewrite Ho. cbn. unfold key_from_protected, KEY_LENGTH. by rewrite try_array_arr.
Qed.

(** A registry whose one live key-encryption key is version 1 and unwraps, as
    do the three keys under it. *)
Record good_registry (v : VaultId) (i : InstallationId) (root key : KeyMaterial) (keys : PortableVaultKeys)
    (d : Db) : Prop := {
  gr_kek : exists K, registered_keys d KeyEncryption = Ok [{| rk_wrapped := K; rk_state := KActive |}]
    /\ wk_version K = 1 /\ unwrap_key root v i OWrappedKeyEncryptionKey K = Ok key;
  gr_blind : unwrap_registry_key d {[1 := key]} v i BlindIndex OBlindIndexKey = Ok (pk_blind_index keys);
  gr_audit : unwrap_registry_key d {[1 := key]} v i AuditKind OAuditKey = Ok (pk_audit keys);
  gr_token : unwrap_registry_key d {[1 := key]} v i TokenVerifier OVerifierKey = Ok (pk_token_verifier keys);
  gr_idle : active_kek_rotation d = Ok None }.

Definition opened_with (v : VaultId) (i : InstallationId) (root key : KeyMaterial) (keys : PortableVaultKeys) : Opened :=
  {| op_vault := {| iv_vault_id := v; iv_installation_id := i; iv_blind_index_key := pk_blind_index keys;
                    iv_audit_key := pk_audit keys; iv_token_verifier_key := pk_token_verifier keys |};
     op_ring := {| kr_active_version := 1; kr_keys := {[1 := key]} |}; op_root_key := root |}.

Lemma open_good v i root key keys h e d' e' :
  good_registry v i root key keys (h_db h) -> installation (h_db h) = Ok (Some e) ->
  (ir_activation_state e = Ready /\ ir_active_kek_version e = Some 1 /\ e' = e /\ set_h_database d' h = h)
  \/ (ir_activation_state e = Initializing /\ ir_active_kek_version e = None
      /\ activate_initialization 1 (h_db h) = (Ok tt, d') /\ installation d' = Ok (Some e')
      /\ ir_activation_state e' = Ready /\ ir_active_kek_version e' = Some 1) ->
  open_installation v i root h = (Ok (opened_with v i root key keys), set_h_database d' h).
Proof.
  intros [(K & HK & HK1 & Hkey) Hb Ha Ht Hidle] He Hcase.
  assert (default 1 (ir_active_kek_version e) = 1) as Hv by (destruct Hcase as [(_ & -> & _)|(_ & -> & _)]; done).
  assert (validate_kek_registry_state (h_db h) e [{| rk_wrapped := K; rk_state := KActive |}] = Ok tt) as Hval.
  { unfold validate_kek_registry_state. rewrite Hv.
    assert (sole_active [{| rk_wrapped := K; rk_state := KActive |}] 1 = true) as ->.
    { unfold sole_active, nonretired. cbn [List.filter rk_state]. rewrite bool_decide_false by done. cbn. by rewrite HK1. }
    rewrite Hidle. by destruct Hcase as [(-> & _)|(-> & -> & _)]. }
  unfold open_installation, prog_bind at 1, ask_store at 1. rewrite He. cbn [map_err].
  unfold prog_bind at 1, prog_lift at 1. cbn [ok_or]. rewrite Hv.
  unfold prog_bind at 1, ask_store at 1. rewrite HK. cbn [map_err].
  unfold prog_bind at 1, prog_read at 1. rewrite Hval.
  unfold prog_bind at 1, prog_lift at 1. cbn [unwrap_keks rk_state rk_wrapped]. rewrite bool_decide_false by done.
  rewrite Hkey. cbn [result_bind]. rewrite HK1. change (<[1:=key]> ∅) with ({[1 := key]} : gmap Z KeyMaterial).
  unfold prog_bind at 1, prog_lift at 1. rewrite lookup_singleton_eq, bool_decide_false by done. cbn [conflict_if].
  unfold prog_bind at 1, prog_read at 1. rewrite Hb. unfold prog_bind at 1, prog_read at 1. rewrite Ha.
  unfold prog_bind at 1, prog_read at 1. rewrite Ht.
  destruct Hcase as [(H1 & H2 & -> & Hsame)|(H1 & H2 & Hact & Hi & H3 & H4)].
  - rewrite H1, bool_decide_false by done. unfold prog_bind, prog_ret, prog_lift.
    rewrite H1, H2, !bool_decide_true by done. cbn. by rewrite Hsame.
  - rewrite H1, (bool_decide_true (Initializing = Initializing)) by done. unfold prog_bind at 1 2, on_store.
    rewrite Hact. cbn [map_err]. unfold prog_bind at 1, ask_store. change (h_db (set_h_database d' h)) with d'.
    rewrite Hi. cbn [map_err]. unfold prog_lift, prog_bind. cbn [ok_or].
    rewrite H3, H4, !bool_decide_true by done. done.
Qed.

(** ** A fresh installation *)

(** The wrapped keys of a bootstrap are [key], under the root key, and [keys]
    under it. *)
Record bootstrap_wraps (v : VaultId) (i : InstallationId) (root key : KeyMaterial) (keys : PortableVaultKeys)
    (b : BootstrapRecord) : Prop := {
  bw_key : unwrap_key root v i OWrappedKeyEncryptionKey (br_key_encryption_key b) = Ok key;
  bw_blind : unwrap_key key v i OBlindIndexKey (br_blind_index_key b) = Ok (pk_blind_index keys);
  bw_audit : unwrap_key key v i OAuditKey (br_audit_key b) = Ok (pk_audit keys);
  bw_token : unwrap_key key v i OVerifierKey (br_token_verifier_key b) = Ok (pk_token_verifier keys);
  bw_version : Forall (fun x => wk_version x = 1) (bootstrap_keys b);
  bw_kinds : wk_kind <$> bootstrap_keys b = [KeyEncryption; BlindIndex; AuditKind; TokenVerifier];
  bw_wrapping : wk_wrapping_kek_version <$> bootstrap_keys b = [None; Some 1; Some 1; Some 1] }.

Lemma create_bootstrap_with_keys_Ok v i root key keys now h b h' :
  create_bootstrap_with_keys v i root key keys now h = (Ok b, h') -> bootstrap_wraps v i root key keys b.
Proof.
  unfold create_bootstrap_with_keys. intros H. minv.
  repeat match goal with H : wrap_key _ _ _ _ _ _ _ _ = _ |- _ => apply wrap_key_unwraps in H as (? & ? & ? & ?) end.
  split; cbn in *; try done; [by repeat constructor|congruence|congruence].
Qed.

Lemma create_bootstrap_Ok v i root now h b h' :
  create_bootstrap v i root now h = (Ok b, h') -> exists key keys, bootstrap_wraps v i root key keys b.
Proof. unfold create_bootstrap. intros H. minv. eauto using create_bootstrap_with_keys_Ok. Qed.

Lemma key_row_parses x now : in_u32 (wk_version x) -> (forall v, wk_wrapping_kek_version x = Some v -> in_u32 v) ->
  parse_wrapped_key (wk_kind x) (wk_version x) (key_row x now) = Ok x.
Proof.
  intros Hv Hw. unfold parse_wrapped_key, key_row.
  cbn [key_object_id key_nonce key_wrapped_key key_wrapping_kek_version]. rewrite parse_uuid_arr, !parse_array_arr. cbn [result_bind].
  destruct x as [kind version oid [v|] nonce c]; cbn; [|done].
  by rewrite parse_uint_Ok by by apply Hw.
Qed.

(** The registry of a bootstrapped database. *)
Lemma fresh_registry v i root key keys b d :
  bootstrap_wraps v i root key keys b ->
  rows (db_keys d) = (fun k => key_row k (br_initialized_at_unix_ms b)) <$> bootstrap_keys b -> db_jobs d = [] ->
  good_registry v i root key keys d.
Proof.
  intros [HK HB HA HT Hvs Hkinds Hws] Hrows Hjobs. destruct b as [? ? ? K B A T]. unfold bootstrap_keys in Hvs. cbn in *.
  injection Hkinds as EK EB EA ET. injection Hws as WK WB WA WT.
  repeat match goal with H : Forall _ (_ :: _) |- _ => apply Forall_cons_1 in H as [? H] end.
  assert (forall kind object x plain, In x [B; A; T] -> wk_kind x = kind ->
     select_one (fun r => bool_decide (key_kind r = key_kind_as_str kind) && (key_version r =? 1)) (db_keys d)
       = Some (key_row x br_initialized_at_unix_ms) ->
     unwrap_key key v i object x = Ok plain ->
     unwrap_registry_key d {[1 := key]} v i kind object = Ok plain) as Hreg.
  { intros kind object x plain Hx Hk Hsel Hun. unfold unwrap_registry_key, wrapped_key. rewrite Hsel. cbn [ok_or result_bind].
    assert (wk_version x = 1 /\ wk_wrapping_kek_version x = Some 1) as [Hx1 Hxw] by (destruct Hx as [<-|[<-|[<-|[]]]]; done).
    assert (parse_wrapped_key kind 1 (key_row x br_initialized_at_unix_ms) = Ok x) as ->.
    { rewrite <- Hk. rewrite <- Hx1 at 1. apply key_row_parses; [by rewrite Hx1|]. intros ? E. rewrite Hxw in E. by injection E as <-. }
    cbn [map_err result_bind]. rewrite Hxw. cbn [ok_or result_bind]. rewrite lookup_singleton_eq. done. }
  split; [|eapply (Hreg _ _ B)|eapply (Hreg _ _ A)|eapply (Hreg _ _ T)|by unfold active_kek_rotation, select_one, select; rewrite Hjobs];
    try done; try (cbn; tauto);
    try (unfold select_one, select; rewrite Hrows; cbn [List.filter key_row key_kind key_version];
         rewrite ?EK, ?EB, ?EA, ?ET; cbn [key_kind_as_str];
         repeat match goal with H : wk_version _ = 1 |- _ => rewrite H end; done).
  exists K. split; [|done].
  assert (select (fun r => bool_decide (key_kind r = "kek")) (db_keys d) = [key_row K br_initialized_at_unix_ms]) as Hsel.
  { unfold select. rewrite Hrows. cbn [List.filter key_row key_kind]. by rewrite EK, EB, EA, ET. }
  unfold registered_keys. change (key_kind_as_str KeyEncryption) with "kek". rewrite Hsel.
  assert (parse_wrapped_key KeyEncryption 1 (key_row K br_initialized_at_unix_ms) = Ok K) as HKp.
  { rewrite <- EK. rewrite <- H at 1. apply key_row_parses; [by rewrite H|]. intros ? E. by rewrite WK in E. }
  cbn [order_by foldr sort_insert result_mapM]. change (key_version (key_row K br_initialized_at_unix_ms)) with (wk_version K).
  rewrite H. change (parse_uint u32_max 1) with (Ok (E := StorageError) 1). cbn [result_bind]. by rewrite HKp.
Qed.

Lemma activate_fresh d row :
  db_installation d = Some row -> inst_activation_state row = "initializing" -> db_restore_guard d = None ->
  count (required_key 1) (db_keys d) = 4 -> installation_check (set_activation "ready" (Some 1) row) = true ->
  deferred_keys_hold d = true ->
  activate_initialization 1 d = (Ok tt, set_installation (Some (set_activation "ready" (Some 1) row)) d).
Proof.
  intros Hi Hs Hg Hc Hck Hd. unfold activate_initialization, activate_initialization_kind, transact.
  unfold tx_bind, tx_read, tx_reject, tx_lift, update_installation, tx_ret, tx_commit, tx_require.
  rewrite Hg, (bool_decide_false (None = Some true)) by done. cbn. rewrite Hi. cbn. rewrite Hs. cbn. rewrite Hc. cbn.
  rewrite Hi, Hs. cbn. rewrite Hck. cbn.
  change (deferred_keys_hold (set_installation ?x d)) with (deferred_keys_hold d). by rewrite Hd.
Qed.

Lemma reach_root_db h v i r h1 : reach_root h = (Ok (v, i, r), h1) -> h_db h1 = h_db h.
Proof.
  unfold reach_root. intros H. apply prog_bind_Ok in H as ([] & ha & Hp & H).
  assert (h_db ha = h_db h) as Ha.
  { unfold prepare_paths in Hp. destruct (prepare_parent (h_database_at h)); [|done].
    cbn in Hp. destruct (prepare_parent (h_root_at h)); [|done]. by injection Hp as _ <-. }
  minv. unfold open_store, ask_store in *. simplify_eq.
  match goal with H : obtain_root _ _ = _ |- _ => apply obtain_root_Ok in H as (_ & Hdb & _) end.
  unfold h_db at 1. rewrite Hdb. cbn. done.
Qed.

Lemma required_keys b : (exists v i root now h h', create_bootstrap v i root now h = (Ok b, h')) ->
  forall d, rows (db_keys d) = (fun k => key_row k (br_initialized_at_unix_ms b)) <$> bootstrap_keys b ->
  count (required_key 1) (db_keys d) = 4.
Proof.
  intros (v & i & root & now & h & h' & Hb) d Hrows.
  apply create_bootstrap_Ok in Hb as (key & keys & [_ _ _ _ Hvs Hkinds Hws]).
  unfold count, select. rewrite Hrows. destruct b as [? ? ? K B A T]. unfold bootstrap_keys in *. cbn in Hkinds, Hws, Hvs.
  injection Hkinds as EK EB EA ET. injection Hws as WK WB WA WT. apply Forall_cons_1 in Hvs as [VK _].
  cbn [fmap list_fmap bootstrap_keys br_key_encryption_key br_blind_index_key br_audit_key br_token_verifier_key List.filter].
  unfold required_key. cbn [key_row key_state key_kind key_version key_wrapping_kek_version].
  by rewrite EK, EB, EA, ET, VK, WB, WA, WT.
Qed.

(** Once the bootstrap of a fresh installation is committed, it opens, and
    opening it again returns the same vault and changes nothing. *)
Lemma fresh_opens now h v i r h2 :
  h_db h = empty_db -> reach_bootstrap now h = (Ok (v, i, r), h2) ->
  exists o h3, op_root_key o = r /\ iv_vault_id (op_vault o) = v /\ iv_installation_id (op_vault o) = i
    /\ open_installation v i r h2 = (Ok o, h3) /\ forall later, initialize_vault later h3 = (Ok o, h3).
Proof.
  intros Hempty H. pose proof (reach_bootstrap_settled now h v i r h2 H) as [Hs2 _].
  unfold reach_bootstrap in H. apply prog_bind_Ok in H as ([[v' i'] r'] & h1 & Hr & H).
  apply prog_bind_Ok in H as ([] & h2' & He & H). apply prog_ret_Ok in H as [[= <- <- <-] ->].
  pose proof (reach_root_db _ _ _ _ _ Hr) as Hd1. rewrite Hempty in Hd1.
  unfold ensure_bootstrap, ask_store in He. apply prog_bind_Ok in He as (found & ha & Hf & He).
  injection Hf as Hf <-. rewrite Hd1 in Hf. cbn in Hf. injection Hf as <-.
  apply prog_bind_Ok in He as (b & hb & Hb & He). pose proof (create_bootstrap_draws _ _ _ _ _ _ _ Hb) as [n ->].
  apply prog_bind_Ok in He as (x & hc & Hc & He). apply prog_ret_Ok in He as [_ ->].
  unfold on_store in Hc. change (h_db (set_h_draws n h1)) with (h_db h1) in Hc. rewrite Hd1 in Hc.
  destruct (begin_initialization b empty_db) as [[y|] d2] eqn:Eb; [|done]. injection Hc as _ <-.
  apply begin_initialization_fresh in Eb as (t & Ed2 & Hrows); [|done]. cbn in Hrows.
  destruct (create_bootstrap_Ok _ _ _ _ _ _ _ Hb) as (key & keys & Hw).
  pose proof (fresh_registry v i r key keys b d2 Hw ltac:(by subst) ltac:(by subst)) as Hg.
  set (d3 := set_installation (Some (set_activation "ready" (Some 1) (bootstrap_row b))) d2).
  exists (opened_with v i r key keys), (set_h_database d3 (set_h_database d2 (set_h_draws n h1))).
  do 3 (split; [done|]).
  assert (open_installation v i r (set_h_database d2 (set_h_draws n h1))
          = (Ok (opened_with v i r key keys), set_h_database d3 (set_h_database d2 (set_h_draws n h1)))) as Hopen.
  { apply (open_good _ _ _ _ _ _ (installation_of b Initializing None) d3 (installation_of b Ready (Some 1)));
      [exact Hg|exact (proj1 (bootstrap_row_reads b d2) ltac:(by rewrite Ed2))|]. right. split_and!; [done|done| | |done|done].
    - apply activate_fresh; try (by subst). + by apply (required_keys b); [eauto 10|subst].
      + unfold installation_check. cbn [bootstrap_row set_activation inst_logical_vault_id inst_installation_id].
        unfold blob_len, zlen. by rewrite !array_length.
    - exact (proj2 (bootstrap_row_reads b d3) eq_refl). }
  split; [done|]. intros later.
  assert (good_registry v i r key keys d3) as Hg3 by (destruct Hg; by split).
  assert (installation d3 = Ok (Some (installation_of b Ready (Some 1)))) as Hi3
    by exact (proj2 (bootstrap_row_reads b d3) eq_refl).
  pose proof (create_bootstrap_ids _ _ _ _ _ _ _ Hb) as [Ev Ei].
  rewrite (settled_opens later v i r _ (installation_of b Ready (Some 1))); [|destruct Hs2; split; try done|exact Hi3].
  - rewrite (open_good v i r key keys _ (installation_of b Ready (Some 1)) d3 (installation_of b Ready (Some 1)));
      [done|exact Hg3|exact Hi3|by left].
  - eexists. split; [exact Hi3|]. by intros e [= <-].
Qed.
End Steps.

(** C6. Initialization survives interruption at every point. After the
    root-key file is written, running it again bootstraps under that same
    identity and root key; after the bootstrap is committed, running it again
    opens exactly that bootstrap, and draws no new key. On a host that started
    with no database, that opening succeeds, and every later one returns the
    same identity, keys and key ring and leaves the host as it is. *)
Theorem initialization_resumes {CR : Crypto} {CL : CryptoLaws} (h h1 h2 : Host) (now later : Z)
    (v : VaultId) (i : InstallationId) (r : KeyMaterial)
    (H1 : reach_root h = (Ok (v, i, r), h1)) (H2 : reach_bootstrap now h = (Ok (v, i, r), h2)) :
  initialize_vault later h1
  = (do! _ := ensure_bootstrap v i r later in open_installation v i r) h1
  /\ initialize_vault later h2 = open_installation v i r h2
  /\ (h_db h = empty_db -> exists o h3, op_root_key o = r /\ iv_vault_id (op_vault o) = v
        /\ iv_installation_id (op_vault o) = i /\ initialize_vault now h = (Ok o, h3)
        /\ initialize_vault later h2 = (Ok o, h3) /\ initialize_vault later h3 = (Ok o, h3)).
Proof.
  split_and!.
  - rewrite initialize_from_root. unfold prog_bind at 1. by rewrite (settled_reaches v i r h1 (reach_root_settled _ _ _ _ _ H1)).
  - destruct (reach_bootstrap_settled _ _ _ _ _ _ H2) as [Hs [e He]]. by eapply settled_opens.
  - intros Hempty. destruct (fresh_opens now h v i r h2 Hempty H2) as (o & h3 & Er & Ev & Ei & Ho & Hl).
    exists o, h3. split_and!; try done.
    + rewrite initialize_from_bootstrap. unfold prog_bind. by rewrite H2.
    + destruct (reach_bootstrap_settled _ _ _ _ _ _ H2) as [Hs [e He]]. by erewrite settled_opens.
Qed.
