(* ===== verification/RotationProps.v ===== *)
(** Rotation of the key-encryption key: it terminates, what was readable before
    is readable after, and what it leaves behind. *)
From Stdlib Require Import ZArith Lia Strings.Byte String.
From stdpp Require Import base tactics numbers option strings list gmap sets.
From S2P Require Import Prelude RustStd Core Crypto Format Sql Schema Records StoreInv RecordsOk PolicyStore VaultStore RotationStore IdentityStore Store RecordsProps Metadata VaultCore Initialization Rotation Authentication Authorization ServiceIdentity VaultAudit VaultRuns VaultProps AuthzProps.

(** ** The loop of a resumption *)

Lemma advance_stage job now d j d' :
  advance_rotation_stage job now d = (Ok j, d') -> stage_next (kj_stage job) = Some (kj_stage j).
Proof. intros H. unfold advance_rotation_stage in H. by txn. Qed.

Lemma apply_stage job items now d j d' :
  apply_rewrap_batch job items now d = (Ok j, d') -> kj_stage j = kj_stage job.
Proof. intros H. unfold apply_rewrap_batch in H. by txn. Qed.

Lemma stages_left_next s s' : stage_next s = Some s' -> stages_left s = S (stages_left s').
Proof. destruct s; simpl; by intros [= <-]. Qed.

Lemma call_result {A} (m : Store A) w a w' :
  call m w = (Ok a, w') -> exists d d', m d = (Ok a, d').
Proof.
  unfold call, call_raw. cbv zeta. destruct (m (w_db (interfere w))) as [[x|e] d] eqn:E; simpl; [|done].
  intros [= <- _]. eauto.
Qed.

Section Loop.
Context {CR : Crypto} (self : InitializedVault) (max_batches batch_size : Z) (op : OperationContext).

(** A program that answers the same with more fuel, and never for its lack. *)
Definition settled {A} (m m' : Vault (option A)) : Prop :=
  forall w, m w = m' w /\ fst (m w) <> Ok None.

Lemma settled_bind {A B} (m : Vault A) (k k' : A -> Vault (option B)) :
  (forall a w w', m w = (Ok a, w') -> settled (k a) (k' a)) ->
  settled (prog_bind m k) (prog_bind m k').
Proof.
  intros Hk w. unfold prog_bind. destruct (m w) as [[a|e] w'] eqn:E; [|done]. by eapply Hk.
Qed.

Lemma resume_loop_settled fuel extra job b :
  0 <= b <= max_batches -> (S (Z.to_nat (max_batches - b) + stages_left (kj_stage job)) <= fuel)%nat ->
  settled (resume_loop self fuel max_batches batch_size op job b)
    (resume_loop self (fuel + extra) max_batches batch_size op job b).
Proof.
  revert job b. induction fuel as [|fuel IH]; intros job b Hb Hf; [lia|].
  cbn [resume_loop Nat.add]. destruct (bool_decide (kj_stage job = Finalize)) eqn:Efin; bprop.
  { intros w. split; [done|]. unfold prog_bind. by repeat case_match. }
  destruct (b =? max_batches) eqn:Eb; bprop; [done|].
  apply settled_bind. intros [|item source] _ _ _.
  - apply settled_bind. intros j w1 w2 (d & d' & Hj%advance_stage%stages_left_next)%call_result. apply IH; lia.
  - apply settled_bind. intros rewrapped _ _ _. apply settled_bind.
    intros j w1 w2 (d & d' & Hj%apply_stage)%call_result. rewrite <- Hj in Hf. apply IH; lia.
Qed.
End Loop.

(** A resumption of a rotation terminates: whatever other connections
    commit in between, its loop ends within one turn per allowed batch and one
    per stage that is left, so more turns change nothing. *)
Theorem resume_terminates {CR : Crypto} (self : InitializedVault) (max_batches batch_size : Z)
    (op : OperationContext) (job : KekRotationJob) (extra : nat) (w : World) (H : 0 <= max_batches) :
  let turns := S (Z.to_nat max_batches + stages_left (kj_stage job)) in
  resume_loop self (turns + extra) max_batches batch_size op job 0 w
  = resume_loop self turns max_batches batch_size op job 0 w
  /\ fst (resume_loop self turns max_batches batch_size op job 0 w) <> Ok None.
Proof.
  intros turns. destruct (resume_loop_settled self max_batches batch_size op turns extra job 0) with (w := w) as [H1 H2];
    [lia|unfold turns; rewrite Z.sub_0_r; lia|]. by rewrite H1 in *.
Qed.

(** ** Data keys and their wrappings *)

(** The version, nonce and ciphertext of a wrapped key, as columns hold them. *)
Definition wrapping : Type := Z * blob * blob.

Section Wrapping.
Context {CR : Crypto} (self : InitializedVault) (ring : KeyRing).

(** The key a wrapping protects, under the keys of a ring. *)
Definition unwrapped (context : RecordContext) (x : wrapping) : option blob :=
  key ← kek ring x.1.1;
  nonce ← try_array 24 x.1.2;
  match open key context {| sr_nonce := nonce; sr_ciphertext := x.2 |} with Ok b => Some b | Err _ => None end.

(** The wrapping [y] replaces [x]: it is the same, or well formed and protects
    the same key. *)
Definition kept_wrapping (context : RecordContext) (x y : wrapping) : Prop :=
  y = x \/ exists (n : array 24) (w : array 48) v, y = (v, arr n, arr w) /\ in_u32 v
    /\ is_Some (unwrapped context x) /\ unwrapped context y = unwrapped context x.

Lemma kept_wrapping_refl context x : kept_wrapping context x x.
Proof. by left. Qed.
Lemma kept_wrapping_trans context x y z :
  kept_wrapping context x y -> kept_wrapping context y z -> kept_wrapping context x z.
Proof.
  intros [->|(n & w & v & Ey & Hv & Hx & Hy)] Hz; [done|].
  destruct Hz as [->|(n' & w' & v' & Ez & Hv' & Hy' & Hz)]; [right; eauto 10|].
  right. exists n', w', v'. split_and!; [done..|]. by rewrite Hz.
Qed.

Lemma kept_parses context n c dn w k dn' w' k' e :
  kept_wrapping context (k, dn, w) (k', dn', w') -> parse_encrypted n c dn w k = Ok e ->
  exists e', parse_encrypted n c dn' w' k' = Ok e' /\ er_nonce e' = er_nonce e
    /\ er_ciphertext e' = er_ciphertext e /\ er_kek_version e' = k'
    /\ kept_wrapping context (er_kek_version e, arr (er_dek_nonce e), arr (er_wrapped_dek e))
         (er_kek_version e', arr (er_dek_nonce e'), arr (er_wrapped_dek e')).
Proof.
  unfold parse_encrypted, parse_array, parse_uint. intros Hk H. destruct (negb _) eqn:Ec; [done|]. minv.
  repeat match goal with
    | H : try_array _ _ = Some _ |- _ => apply try_array_Some in H; subst
    | H : try_from _ _ = Some _ |- _ => apply try_from_Some in H as [-> Hk0]
    end. cbn in *.
  rewrite try_array_arr. cbn [ok_or result_bind]. destruct Hk as [[= -> -> ->]|(n' & w1 & v & [= -> -> ->] & Hv & Hx & Hy)].
  - rewrite !try_array_arr, (proj2 (try_from_Some _ _ _) (conj eq_refl Hk0)). eexists. split; [done|]. cbn. by repeat split; [..|left].
  - rewrite !try_array_arr, (proj2 (try_from_Some _ _ _) (conj eq_refl Hv)). eexists. split; [done|]. cbn.
    repeat split. right. eauto 10.
Qed.

Lemma decrypt_unwrapped e kind wrapped id v :
  decrypt_record self ring e kind wrapped id v
  = match unwrapped (context_of self wrapped id v) (er_kek_version e, arr (er_dek_nonce e), arr (er_wrapped_dek e)) with
    | Some bytes =>
        let? dek := map_err map_crypto (key_from_protected bytes) in
        map_err map_crypto (open dek (context_of self kind id v)
          {| sr_nonce := er_nonce e; sr_ciphertext := er_ciphertext e |})
    | None => decrypt_record self ring e kind wrapped id v
    end.
Proof.
  unfold unwrapped, decrypt_record. cbn [fst snd]. destruct (kek ring (er_kek_version e)) as [key|]; [|done]. cbn [mbind option_bind].
  rewrite try_array_arr. cbn. by destruct (open key _ _).
Qed.

(** Whatever decrypts before its key is rewrapped decrypts after, to the same text. *)
Lemma kept_decrypts e e' kind wrapped id v p :
  kept_wrapping (context_of self wrapped id v) (er_kek_version e, arr (er_dek_nonce e), arr (er_wrapped_dek e))
    (er_kek_version e', arr (er_dek_nonce e'), arr (er_wrapped_dek e')) ->
  er_nonce e' = er_nonce e -> er_ciphertext e' = er_ciphertext e ->
  decrypt_record self ring e kind wrapped id v = Ok p -> decrypt_record self ring e' kind wrapped id v = Ok p.
Proof.
  intros Hk Hn Hc. rewrite (decrypt_unwrapped e), (decrypt_unwrapped e'), Hn, Hc.
  destruct Hk as [E|(n & w & k & _ & _ & [bytes Hx] & Hy)]; [|by rewrite Hy, Hx].
  rewrite E. injection E as E1 E2%array_eq E3%array_eq. unfold decrypt_record. by rewrite E1, E2, E3, Hn, Hc.
Qed.
End Wrapping.

(** ** Tables under rotation *)

(** Two tables with the same row identifiers whose rows are related in order. *)
Definition along {A} (R : A -> A -> Prop) (t t' : table A) : Prop :=
  Forall2 (fun a b => rid a = rid b /\ R (row a) (row b)) t t'.

Lemma along_refl {A} (R : A -> A -> Prop) t : (forall a, R a a) -> along R t t.
Proof. intros HR. unfold along. induction t; constructor; auto. Qed.
Lemma along_trans {A} (R : A -> A -> Prop) t t' t'' :
  (forall a b c, R a b -> R b c -> R a c) -> along R t t' -> along R t' t'' -> along R t t''.
Proof.
  intros HR H. revert t''. induction H as [|x y t t' [Hr Hxy] H IH]; intros t'' H'; inversion H' as [|? z ? t3 [Hr' ?] ?]; subst.
  - constructor.
  - constructor; [|by apply IH]. split; [congruence|eauto].
Qed.

Lemma along_update {A} (R : A -> A -> Prop) id p (f : A -> A) t :
  (forall a, R a a) -> (forall e, e ∈ t -> at_rowid id p e = true -> R (row e) (f (row e))) ->
  along R t (update_at (at_rowid id p) f t).
Proof.
  intros HR Hf. unfold along, update_at. induction t as [|e t IH]; [constructor|]. rewrite fmap_cons. constructor.
  - destruct (at_rowid id p e) eqn:E; cbn; split; auto. apply Hf; [by left|done].
  - apply IH. intros x Hx. apply Hf. by right.
Qed.

Lemma along_select {A} (R : A -> A -> Prop) (p : A -> bool) t t' :
  along R t t' -> (forall a b, R a b -> p b = p a) -> option_Forall2 R (select_one p t) (select_one p t').
Proof.
  intros H Hp. unfold select_one, select, rows. induction H as [|x y t t' [_ Hxy] H IH]; cbn; [constructor|].
  rewrite (Hp _ _ Hxy). destruct (p (row x)); [by constructor|done].
Qed.

Lemma along_found {A} (R : A -> A -> Prop) (p : A -> bool) t t' a :
  select_one p t = Some a -> along R t t' -> (forall a b, R a b -> p b = p a) ->
  exists b, select_one p t' = Some b /\ R a b.
Proof.
  intros Ha Ht Hp. pose proof (along_select R p t t' Ht Hp) as H. rewrite Ha in H. inversion H; subst. eauto.
Qed.

Section Rows.
Context {CR : Crypto} (self : InitializedVault) (ring : KeyRing).

Definition kept_namespace (a b : NamespaceRow) : Prop :=
  b = rewrap_namespace (ns_dek_nonce b) (ns_wrapped_dek b) (ns_kek_version b) a
  /\ forall id : NamespaceId, ns_namespace_id a = arr id ->
     kept_wrapping ring (context_of self OWrappedNamespaceMetadataKey id (ns_metadata_version a))
       (ns_kek_version a, ns_dek_nonce a, ns_wrapped_dek a) (ns_kek_version b, ns_dek_nonce b, ns_wrapped_dek b).
Definition kept_secret (a b : SecretRow) : Prop :=
  b = rewrap_secret (sec_metadata_dek_nonce b) (sec_metadata_wrapped_dek b) (sec_metadata_kek_version b) a
  /\ forall id : SecretId, sec_secret_id a = arr id ->
     kept_wrapping ring (context_of self OWrappedMetadataKey id (sec_metadata_version a))
       (sec_metadata_kek_version a, sec_metadata_dek_nonce a, sec_metadata_wrapped_dek a)
       (sec_metadata_kek_version b, sec_metadata_dek_nonce b, sec_metadata_wrapped_dek b).
Definition kept_version (a b : VersionRow) : Prop :=
  b = rewrap_version (sv_dek_nonce b) (sv_wrapped_dek b) (sv_kek_version b) a
  /\ forall id : SecretId, sv_secret_id a = arr id ->
     kept_wrapping ring (context_of self OWrappedDataKey id (sv_version a))
       (sv_kek_version a, sv_dek_nonce a, sv_wrapped_dek a) (sv_kek_version b, sv_dek_nonce b, sv_wrapped_dek b).

Lemma kept_namespace_refl a : kept_namespace a a.
Proof. split; [by destruct a|]. intros. apply kept_wrapping_refl. Qed.
Lemma kept_secret_refl a : kept_secret a a.
Proof. split; [by destruct a|]. intros. apply kept_wrapping_refl. Qed.
Lemma kept_version_refl a : kept_version a a.
Proof. split; [by destruct a|]. intros. apply kept_wrapping_refl. Qed.

Ltac kept_trans :=
  intros [E1 H1] [E2 H2]; split; [rewrite E2 at 1; by rewrite E1|];
  intros id Hid; eapply kept_wrapping_trans; [by apply H1|]; rewrite E1 in H2; cbn in H2; rewrite E1; cbn; by apply H2.
Lemma kept_namespace_trans a b c : kept_namespace a b -> kept_namespace b c -> kept_namespace a c.
Proof. kept_trans. Qed.
Lemma kept_secret_trans a b c : kept_secret a b -> kept_secret b c -> kept_secret a c.
Proof. kept_trans. Qed.
Lemma kept_version_trans a b c : kept_version a b -> kept_version b c -> kept_version a c.
Proof. kept_trans. Qed.

(** Everything a rotation leaves as it was, and how it changes the rest. *)
Record kept (d d' : Db) : Prop := {
  kd_namespaces : along kept_namespace (db_namespaces d) (db_namespaces d');
  kd_secrets : along kept_secret (db_secrets d) (db_secrets d');
  kd_versions : along kept_version (db_versions d) (db_versions d');
  kd_policies : db_policies d' = db_policies d;
  kd_services : db_services d' = db_services d }.

Lemma kept_refl d : kept d d.
Proof.
  split; try done; apply along_refl; auto using kept_namespace_refl, kept_secret_refl, kept_version_refl.
Qed.
Lemma kept_trans' d d' d'' : kept d d' -> kept d' d'' -> kept d d''.
Proof.
  intros [N S V P Q] [N' S' V' P' Q']. split; [..|congruence|congruence];
    eapply along_trans; eauto using kept_namespace_trans, kept_secret_trans, kept_version_trans.
Qed.
End Rows.

(** ** One batch *)

Lemma rid_unique {A} (sc : schema A) t e e' : table_ok sc t -> e ∈ t -> e' ∈ t -> rid e = rid e' -> e = e'.
Proof.
  intros [_ _ H]. clear sc. induction t as [|x t IH]; intros He He' Er; [by apply not_elem_of_nil in He|].
  rewrite fmap_cons in H. inversion H as [|?? Hs HF]; subst. rewrite Forall_forall in HF.
  apply elem_of_cons in He as [->|He], He' as [->|He']; auto; exfalso.
  - pose proof (HF (rid e') (list_elem_of_fmap_2 rid _ _ He')). lia.
  - pose proof (HF (rid e) (list_elem_of_fmap_2 rid _ _ He)). lia.
Qed.

Lemma update_at_other {A} id p (f : A -> A) t e :
  e ∈ update_at (at_rowid id p) f t -> rid e <> id -> e ∈ t.
Proof.
  unfold update_at. intros (x & -> & Hx)%list_elem_of_fmap Hr. destruct (at_rowid id p x) eqn:E; [|done].
  unfold at_rowid in E. apply andb_true_iff in E as [E%Z.eqb_eq _]. by cbn in Hr.
Qed.

Section Batch.
Context {CR : Crypto} {CL : CryptoLaws} (self : InitializedVault).

(** The row of an item holds what the item says. *)
Definition item_at (d : Db) (i : RewrapItem) : Prop :=
  match ri_kind i with
  | RwNamespaceMetadata => forall e, e ∈ db_namespaces d -> rid e = ri_row_id i ->
      ns_namespace_id (row e) = arr (ri_object_id i) /\ ns_metadata_version (row e) = ri_object_version i
      /\ ns_dek_nonce (row e) = arr (ri_nonce i) /\ ns_wrapped_dek (row e) = arr (ri_wrapped_key i)
  | RwSecretMetadata => forall e, e ∈ db_secrets d -> rid e = ri_row_id i ->
      sec_secret_id (row e) = arr (ri_object_id i) /\ sec_metadata_version (row e) = ri_object_version i
      /\ sec_metadata_dek_nonce (row e) = arr (ri_nonce i) /\ sec_metadata_wrapped_dek (row e) = arr (ri_wrapped_key i)
  | RwSecretVersion => forall e, e ∈ db_versions d -> rid e = ri_row_id i ->
      sv_secret_id (row e) = arr (ri_object_id i) /\ sv_version (row e) = ri_object_version i
      /\ sv_dek_nonce (row e) = arr (ri_nonce i) /\ sv_wrapped_dek (row e) = arr (ri_wrapped_key i)
  | RwBlindIndexKey | RwAuditKey | RwTokenVerifierKey => True
  end.

(** The key of an item is wrapped for the target of the job. *)
Definition rewrapped_ok (ring : KeyRing) (job : KekRotationJob) (item : RewrappedItem) : Prop :=
  let i := rw_source item in
  let context := context_of self (wrapping_object_kind (ri_kind i)) (ri_object_id i) (ri_object_version i) in
  is_Some (unwrapped ring context (kj_source_key_version job, arr (ri_nonce i), arr (ri_wrapped_key i)))
  /\ unwrapped ring context (kj_target_key_version job, arr (rw_nonce item), arr (rw_wrapped_key item))
     = unwrapped ring context (kj_source_key_version job, arr (ri_nonce i), arr (ri_wrapped_key i)).

Lemma rewrap_item_Ok job i w item w' :
  rewrap_item self job i w = (Ok item, w') ->
  rw_source item = i /\ rewrapped_ok (w_ring w) job item /\ exists n, w' = set_w_draws n w.
Proof.
  intros H. unfold rewrap_item in H. cbv zeta in H. vinv.
  match goal with H : seal _ _ _ _ = _ |- _ => apply open_seal in H as [Ho _] end.
  match goal with H : try_array 48 _ = Some _ |- _ => apply try_array_Some in H as Hw end.
  split; [done|]. split; [|by eexists]. unfold rewrapped_ok, unwrapped. cbn.
  unfold kek in *. cbn in *.
  repeat match goal with H : kr_keys _ !! _ = Some _ |- _ => rewrite H end. cbn.
  rewrite !try_array_arr. cbn. rewrite Hw.
  match goal with s : SealedRecord |- _ => destruct s end. cbn in *.
  repeat match goal with H : open _ _ _ = Ok _ |- _ => rewrite H end. split; [by eexists|done].
Qed.

(** A change of one table keeps the others. *)
Ltac kept_rest := split; cbn; try done; try (by apply along_refl; auto using kept_namespace_refl, kept_secret_refl, kept_version_refl).

Lemma update_rewrap_kept ring job item d n d' :
  in_u32 (kj_target_key_version job) -> item_at d (rw_source item) -> rewrapped_ok ring job item ->
  update_rewrap job item d = Ok (n, d') -> kept self ring d d'.
Proof.
  intros Ht Hi [Hs Hr] H. unfold update_rewrap in H. cbv zeta in H. unfold item_at in Hi.
  destruct (ri_kind (rw_source item)) eqn:Ek; apply tx_update_rowid_Ok in H as (t & Hu%sql_update_rowid_Some & ->);
    destruct Hu as [_ ->]; kept_rest; cbn in *;
    (apply along_update; [auto using kept_namespace_refl, kept_secret_refl, kept_version_refl|]);
    intros e He [Er%Z.eqb_eq Ev%Z.eqb_eq]%andb_true_iff; destruct (Hi e He Er) as (E1 & E2 & E3 & E4);
    (split; [done|]); intros id Hid; right; cbn; rewrite Ev, E2, E3, E4;
    rewrite E1 in Hid; apply array_eq in Hid as <-; eauto 10.
Qed.

Lemma item_at_later job item d n d' i :
  update_rewrap job item d = Ok (n, d') -> ri_row_id (rw_source item) < ri_row_id i ->
  item_at d i -> item_at d' i.
Proof.
  intros H Hlt Hi. unfold update_rewrap in H. cbv zeta in H. unfold item_at in *.
  destruct (ri_kind (rw_source item)) eqn:Ek; apply tx_update_rowid_Ok in H as (t & Hu%sql_update_rowid_Some & ->);
    destruct Hu as [_ ->]; destruct (ri_kind i); cbn; try done;
    intros e He Er; (by apply Hi) || (apply update_at_other in He; [by apply Hi|lia]).
Qed.

Lemma rewrap_loop_kept ring job items last d n d' :
  in_u32 (kj_target_key_version job) -> (forall item, item ∈ items -> rewrapped_ok ring job item) ->
  (forall item, item ∈ items -> last < ri_row_id (rw_source item) -> item_at d (rw_source item)) ->
  rewrap_loop job last items d = Ok (n, d') -> kept self ring d d'.
Proof.
  intros Ht. revert last d. induction items as [|item items IH]; intros last d Hr Hi H; simpl in H; minv.
  { apply kept_refl. }
  match goal with H : update_rewrap _ _ _ = Ok _ |- _ => rename H into Hu end.
  match goal with H : (_ <=? _) = false |- _ => apply Z.leb_gt in H; rename H into Hlt end.
  eapply kept_trans'.
  - eapply update_rewrap_kept; [done| |by apply Hr; left|exact Hu]. apply Hi; [by left|done].
  - eapply IH; [by intros it Hit; apply Hr; right| |done]. intros it Hit Hlater.
    eapply item_at_later; [exact Hu|done|]. apply Hi; [by right|lia].
Qed.

Lemma scan_item {A} (p : A -> bool) after out (t : table A) x :
  x ∈ scan p after out t -> exists e, e ∈ t /\ p (row e) = true /\ x = out (rid e) (row e).
Proof.
  unfold scan. intros (e & -> & He%list_elem_of_In)%list_elem_of_fmap.
  apply filter_In in He as [He%list_elem_of_In [Hp _]%andb_true_iff]. eauto.
Qed.

Lemma next_batch_Ok d job lim items :
  next_rewrap_batch d job lim = Ok items ->
  active_kek_rotation d = Ok (Some job)
  /\ result_mapM (parse_item (kj_stage job))
       (limit lim (stage_query (kj_stage job) (kj_source_key_version job) (kj_last_row_id job) d)) = Ok items.
Proof.
  unfold next_rewrap_batch. destruct (_ || _); [done|]. intros H. minv.
  match goal with H : (if ?b then _ else _) = Ok _ |- _ => destruct b eqn:E; [done|] end. bprop. destruct_and!. by subst.
Qed.

Lemma next_batch_items d job lim items i :
  tables_ok d -> next_rewrap_batch d job lim = Ok items -> i ∈ items -> item_at d i.
Proof.
  intros Hok [_ H]%next_batch_Ok Hi. destruct (result_mapM_elem _ _ _ _ H Hi) as (x & Hx%elem_of_limit & Hp).
  unfold item_at. destruct (kj_stage job); cbn in Hx; try (by apply not_elem_of_nil in Hx);
    apply scan_item in Hx as (e & He & Hpe & ->);
    cbn in Hp; unfold parse_uuid, parse_array, parse_uint in Hp; minv.
  { repeat match goal with H : (if ?b then _ else _) = Ok _ |- _ => destruct b end; by simplify_eq. }
  all: simplify_eq; cbn; intros e' He' Er;
    repeat match goal with
      | H : try_array _ _ = Some _ |- _ => apply try_array_Some in H
      | H : try_from _ _ = Some _ |- _ => apply try_from_Some in H as [-> _]
      end.
  - by rewrite (rid_unique namespaces_schema _ _ _ (ok_namespaces _ Hok) He' He Er).
  - by rewrite (rid_unique secrets_schema _ _ _ (ok_secrets _ Hok) He' He Er).
  - by rewrite (rid_unique versions_schema _ _ _ (ok_versions _ Hok) He' He Er).
Qed.
End Batch.

(** ** What is left to do *)

Lemma count_update_at {A} id (p : A -> bool) f t :
  (forall a, p (f a) = false) -> zlen (List.filter (at_rowid id p) t) = 1 ->
  count p (update_at (at_rowid id p) f t) = count p t - 1.
Proof.
  intros Hf. unfold count, select, rows, update_at.
  assert (forall l : table A, zlen (List.filter (at_rowid id p) l) = 0 ->
    (fun r => if at_rowid id p r then Rowed (rid r) (f (row r)) else r) <$> l = l) as Hnone.
  { induction l as [|x l IH]; cbn; [done|]. destruct (at_rowid id p x); [unfold zlen; cbn; lia|]. intros ?. by rewrite IH. }
  induction t as [|x t IH]; [done|]. cbn [List.filter]. rewrite !fmap_cons. destruct (at_rowid id p x) eqn:E; intros Hl.
  - rewrite Hnone by (unfold zlen in *; cbn in Hl; lia). apply andb_true_iff in E as [_ E].
    cbn [List.filter row]. rewrite Hf, E. unfold zlen. cbn [length]. lia.
  - specialize (IH Hl). cbn [List.filter]. destruct (p (row x)); [|done]. unfold zlen in *. cbn [length]. lia.
Qed.

Lemma update_rewrap_inventory job item d d' :
  kj_target_key_version job <> kj_source_key_version job -> update_rewrap job item d = Ok (1, d') ->
  source_inventory (kj_source_key_version job) d' = source_inventory (kj_source_key_version job) d - 1
  /\ db_jobs d' = db_jobs d.
Proof.
  intros Hne H. unfold update_rewrap in H. cbv zeta in H. unfold source_inventory.
  destruct (ri_kind (rw_source item)); apply tx_update_rowid_Ok in H as (t & Hu%sql_update_rowid_Some & ->);
    destruct Hu as [Hn ->]; cbn; (split; [|done]); rewrite count_update_at; try lia; try done;
    intros a; cbn; by apply Z.eqb_neq || (apply bool_decide_eq_false; congruence).
Qed.

Lemma rewrap_loop_inventory job items last d n d' :
  kj_target_key_version job <> kj_source_key_version job -> rewrap_loop job last items d = Ok (n, d') ->
  source_inventory (kj_source_key_version job) d' = source_inventory (kj_source_key_version job) d - zlen items
  /\ db_jobs d' = db_jobs d.
Proof.
  intros Hne. revert last d. induction items as [|item items IH]; intros last d H; simpl in H; minv.
  { unfold zlen; cbn. split; [lia|done]. }
  match goal with H : negb (_ =? 1) = false |- _ => apply negb_false_iff, Z.eqb_eq in H; subst end.
  match goal with H : update_rewrap _ _ _ = Ok _ |- _ => destruct (update_rewrap_inventory _ _ _ _ Hne H) as [E1 E2] end.
  match goal with H : rewrap_loop _ _ _ _ = Ok _ |- _ => apply IH in H as [E3 E4] end.
  rewrite E3, E1, E4, E2. unfold zlen. cbn [length]. split; [lia|done].
Qed.

(** Every unfinished rotation of the registry leads from [s] to [t]. *)
Definition jobs_lead (s t : Z) (d : Db) : Prop :=
  forall r, r ∈ rows (db_jobs d) -> job_kind r = "kek_rotation" -> unfinished r = true ->
  job_source_key_version r = Some s /\ job_target_key_version r = Some t.

Lemma active_job_leads s t d job :
  jobs_lead s t d -> active_kek_rotation d = Ok (Some job) ->
  kj_source_key_version job = s /\ kj_target_key_version job = t /\ in_u32 t.
Proof.
  intros Hj H. unfold active_kek_rotation in H. destruct (select_one _ _) as [r|] eqn:E; [|done].
  apply select_one_Some in E as [Hr E]. bprop. destruct E as [E1 E2]. destruct (Hj r Hr E1 E2) as [Es Et].
  cbn in H. destruct (parse_job r) as [j|] eqn:Ej; [|done]. injection H as <-.
  unfold parse_job, parse_uuid, parse_array, parse_uint in Ej. rewrite Es, Et in Ej. minv.
  repeat match goal with H : try_from _ _ = Some _ |- _ => apply try_from_Some in H as [-> ?] end. done.
Qed.

Lemma jobs_lead_update s t p f d d' :
  (forall r, job_kind (f r) = job_kind r /\ unfinished (f r) = unfinished r
     /\ job_source_key_version (f r) = job_source_key_version r
     /\ job_target_key_version (f r) = job_target_key_version r) ->
  db_jobs d' = update_rows p f (db_jobs d) -> jobs_lead s t d -> jobs_lead s t d'.
Proof.
  intros Hf E Hj r Hr. rewrite E, rows_update in Hr. apply list_elem_of_fmap in Hr as (x & -> & Hx).
  destruct (p x); [|by apply Hj]. destruct (Hf x) as (-> & -> & -> & ->). by apply Hj.
Qed.

Lemma apply_rewrap_batch_Ok job items now d j d' :
  apply_rewrap_batch job items now d = (Ok j, d') ->
  kj_source_key_version j = kj_source_key_version job /\ kj_target_key_version j = kj_target_key_version job
  /\ 1 <= zlen items /\ exists last d1, rewrap_loop job (kj_last_row_id job) items d = Ok (last, d1)
     /\ d' = set_jobs (update_rows (checkpoint_matches job) (fun r => set_checkpoint (job_stage r) last now r) (db_jobs d1)) d1.
Proof.
  intros H. unfold apply_rewrap_batch in H. txn.
  match goal with H : require_job _ _ = _ |- _ => apply require_job_Ok in H as [-> _] end.
  match goal with H : sql_update _ _ _ _ = Some _ |- _ => apply sql_update_Some in H as (_ & -> & _) end.
  bprop. destruct_and!. split_and!; try done; [pose proof (zlen_nonneg items); lia|]. eauto.
Qed.

Lemma advance_rotation_stage_Ok job now d j d' :
  advance_rotation_stage job now d = (Ok j, d') ->
  kj_source_key_version j = kj_source_key_version job /\ kj_target_key_version j = kj_target_key_version job
  /\ exists stage, d' = set_jobs (update_rows (checkpoint_matches job) (set_checkpoint stage 0 now) (db_jobs d)) d.
Proof.
  intros H. unfold advance_rotation_stage in H. txn.
  match goal with H : sql_update _ _ _ _ = Some _ |- _ => apply sql_update_Some in H as (_ & -> & _) end. eauto.
Qed.

(** The state of a key row does not count for what it wraps. *)
Lemma count_set_key_state v p state t :
  count (fun r => bool_decide (key_wrapping_kek_version r = Some v)) (update_rows p (set_key_state state) t)
  = count (fun r => bool_decide (key_wrapping_kek_version r = Some v)) t.
Proof.
  unfold count, select. rewrite rows_update. induction (rows t) as [|r l IH]; [done|]. cbn [fmap list_fmap List.filter].
  revert IH. unfold zlen. destruct (p r); cbn; (destruct (bool_decide _); cbn; lia).
Qed.

Section Run.
Context {CR : Crypto} {CL : CryptoLaws} (self : InitializedVault) (s t : Z) (ring : KeyRing) (d0 : Db).
Hypothesis Hst : t <> s.

(** A vault in the middle of a rotation that started from the database [d0]. *)
Record rotating (w : World) : Prop := {
  ro_quiet : quiet w;
  ro_ring : w_ring w = ring;
  ro_db : db_ok (w_db w);
  ro_jobs : jobs_lead s t (w_db w);
  ro_kept : kept self ring d0 (w_db w) }.

(** The job a resumption works on. *)
Definition leads (job : KekRotationJob) : Prop :=
  kj_source_key_version job = s /\ kj_target_key_version job = t /\ in_u32 t.

Lemma rewrap_items_Ok job items w rewrapped w' :
  prog_mapM (rewrap_item self job) items w = (Ok rewrapped, w') ->
  rw_source <$> rewrapped = items /\ (forall item, item ∈ rewrapped -> rewrapped_ok self (w_ring w) job item)
  /\ exists n, w' = set_w_draws n w.
Proof.
  revert w rewrapped. induction items as [|i items IH]; intros w rewrapped H; cbn in H; minv.
  { split; [done|]. split; [by intros ? ?%not_elem_of_nil|]. exists (w_draws w). by destruct w. }
  match goal with H : rewrap_item _ _ _ _ = _ |- _ => apply rewrap_item_Ok in H as (<- & Hok & n & ->) end.
  match goal with H : prog_mapM _ _ _ = _ |- _ => apply IH in H as (<- & Hrest & n' & ->) end.
  split; [done|]. split; [|by eexists]. intros item [->|Hin]%elem_of_cons; [done|by apply Hrest].
Qed.

Lemma batch_step job size items rewrapped now w n j d' :
  rotating w -> leads job -> next_rewrap_batch (w_db w) job size = Ok items ->
  rw_source <$> rewrapped = items -> (forall item, item ∈ rewrapped -> rewrapped_ok self ring job item) ->
  apply_rewrap_batch job rewrapped now (w_db w) = (Ok j, d') ->
  rotating (set_w_db d' (set_w_draws n w)) /\ leads j
  /\ source_inventory s d' <= source_inventory s (w_db w) - 1.
Proof.
  intros [Hq Hr Hok Hj Hk] (Es & Et & Hu) Hn Hsrc Hre Ha.
  pose proof (apply_rewrap_batch_safe _ _ _ _ _ _ ltac:(rewrite Et; exact Hu) Ha Hok) as [Hok' _].
  apply apply_rewrap_batch_Ok in Ha as (E1 & E2 & Hlen & last & d1 & Hloop & ->).
  pose proof (rewrap_loop_inventory job rewrapped _ _ _ _ ltac:(congruence) Hloop) as [Hinv Hjobs].
  assert (kept self ring (w_db w) d1) as Hkd.
  { eapply (rewrap_loop_kept self ring job rewrapped); [by rewrite Et|done| |exact Hloop].
    intros item Hin _. eapply next_batch_items; [by apply ok_tables|exact Hn|].
    rewrite <- Hsrc. by apply list_elem_of_fmap_2. }
  split; [|split; [|cbn; rewrite Es in Hinv; unfold source_inventory in *; cbn; lia]].
  - split; cbn; try done.
    + eapply (jobs_lead_update s t (checkpoint_matches job) (fun r => set_checkpoint (job_stage r) last now r) d1);
        [done|done|]. intros r. rewrite Hjobs. apply Hj.
    + eapply kept_trans'; [exact Hk|]. destruct Hkd. by split.
  - unfold leads. rewrite E1, E2. done.
Qed.

Lemma stage_step job now w j d' :
  rotating w -> leads job -> advance_rotation_stage job now (w_db w) = (Ok j, d') ->
  rotating (set_w_db d' w) /\ leads j /\ source_inventory s d' = source_inventory s (w_db w).
Proof.
  intros [Hq Hr Hok Hj Hk] (Es & Et & Hu) Ha.
  pose proof (advance_rotation_stage_safe _ _ _ _ _ Ha Hok) as [Hok' _].
  apply advance_rotation_stage_Ok in Ha as (E1 & E2 & stage & ->).
  split; [|split; [by unfold leads; rewrite E1, E2|done]]. split; cbn; try done.
  - by eapply (jobs_lead_update s t (checkpoint_matches job) (set_checkpoint stage 0 now) (w_db w)).
  - destruct Hk. by split.
Qed.

(** A vault whose rotation is complete. *)
Record rotated (w : World) : Prop := {
  rd_quiet : quiet w;
  rd_ring : w_ring w = {| kr_active_version := kr_active_version ring; kr_keys := delete s (kr_keys ring) |};
  rd_db : db_ok (w_db w);
  rd_inventory : source_inventory s (w_db w) = 0;
  rd_kept : kept self ring d0 (w_db w) }.

Lemma finish_kek_rotation_Ok job now a d u d' :
  finish_kek_rotation job now a d = (Ok u, d') ->
  source_inventory (kj_source_key_version job) d' = 0
  /\ db_namespaces d' = db_namespaces d /\ db_secrets d' = db_secrets d /\ db_versions d' = db_versions d
  /\ db_policies d' = db_policies d /\ db_services d' = db_services d.
Proof.
  intros H. unfold finish_kek_rotation in H. txn.
  match goal with H : require_job _ _ = _ |- _ => apply require_job_Ok in H as [-> _] end.
  match goal with H : update_installation _ _ _ = _ |- _ => apply update_installation_Ok in H end.
  destruct_or!; destruct_and?; [by subst|]. repeat minv_step. simplify_eq. cbn.
  repeat match goal with H : sql_update _ _ _ _ = Some _ |- _ => apply sql_update_Some in H as (_ & -> & _) end.
  split; [|done]. bprop. unfold source_inventory in *. cbn.
  by rewrite count_set_key_state.
Qed.

Lemma retire_kek_Ok v r r' :
  retire_kek v r = Ok r' -> r' = {| kr_active_version := kr_active_version r; kr_keys := delete v (kr_keys r) |}.
Proof. unfold retire_kek. destruct (_ || _); [done|]. by intros [= <-]. Qed.

Lemma on_ring_Ok f w u w' : on_ring f w = (Ok u, w') -> exists r, f (w_ring w) = Ok r /\ w' = set_w_ring r w.
Proof. unfold on_ring. destruct (f (w_ring w)) as [r|]; [|done]. intros [= <- <-]. eauto. Qed.

Lemma finish_step job op w u w1 a w2 v w3 :
  rotating w -> leads job -> build_audit self "key:rotate-complete" "key" None op w = (Ok a, w1) ->
  call (finish_kek_rotation job (oc_now_unix_ms op) a) w1 = (Ok u, w2) ->
  on_ring (retire_kek (kj_source_key_version job)) w2 = (Ok v, w3) -> rotated w3.
Proof.
  intros [Hq Hr Hok Hj Hk] (Es & Et & Hu) [n ->]%build_audit_Ok Hf Hret; [|done].
  apply call_Ok in Hf as (d' & Hf & ->); [|done]. apply on_ring_Ok in Hret as (r & Hret%retire_kek_Ok & ->).
  pose proof (finish_kek_rotation_preserves _ _ _ _ _ _ Hf Hok) as Hok'. cbn in *.
  apply finish_kek_rotation_Ok in Hf as (Hi & E1 & E2 & E3 & E4 & E5).
  split; cbn; [done|by rewrite Hret, Hr, Es|apply Hok'|by rewrite <- Es|].
  eapply kept_trans'; [exact Hk|]. cbn in *. split; rewrite ?E1, ?E2, ?E3; try done;
    apply along_refl; auto using kept_namespace_refl, kept_secret_refl, kept_version_refl.
Qed.

Lemma resume_loop_Ok fuel max size op job b w p w' :
  rotating w -> leads job -> resume_loop self fuel max size op job b w = (Ok (Some p), w') ->
  if rp_completed p then rotated w'
  else rotating w' /\ source_inventory s (w_db w') <= source_inventory s (w_db w) - (max - b).
Proof.
  revert job b w. induction fuel as [|fuel IH]; intros job b w Hw Hl H; cbn [resume_loop] in H; [done|].
  destruct (bool_decide (kj_stage job = Finalize)).
  { minv. cbn. by eapply finish_step. }
  destruct (b =? max) eqn:Eb; bprop; [minv; cbn; split; [done|lia]|].
  apply prog_bind_Ok in H as (items & w1 & Hn & H). apply ask_Ok in Hn as [Hn ->]; [|apply Hw].
  destruct items as [|i items].
  - apply prog_bind_Ok in H as (j & w1 & Hs & H). apply call_Ok in Hs as (d' & Hs & ->); [|apply Hw].
    destruct (stage_step job _ w j d' Hw Hl Hs) as (Hw' & Hl' & Hi).
    pose proof (IH _ _ _ Hw' Hl' H) as HIH. destruct (rp_completed p); [done|]. cbn in HIH. by rewrite <- Hi.
  - apply prog_bind_Ok in H as (rewrapped & w1 & Hm & H).
    apply rewrap_items_Ok in Hm as (Hsrc & Hre & n & ->). rewrite (ro_ring _ Hw) in Hre.
    apply prog_bind_Ok in H as (j & w1 & Hs & H). apply call_Ok in Hs as (d' & Hs & ->); [|apply Hw].
    destruct (batch_step job size _ rewrapped _ w n j d' Hw Hl Hn Hsrc Hre Hs) as (Hw' & Hl' & Hi).
    pose proof (IH _ _ _ Hw' Hl' H) as HIH. destruct (rp_completed p); [done|]. cbn in HIH.
    destruct HIH as [? ?]. split; [done|]. lia.
Qed.

Lemma resume_Ok max size op w p w' :
  rotating w -> resume_kek_rotation self max size op w = (Ok p, w') ->
  if rp_completed p then rotated w'
  else rotating w' /\ source_inventory s (w_db w') <= source_inventory s (w_db w) - max.
Proof.
  intros Hw H. unfold resume_kek_rotation in H. vinv.
  match goal with H : ask _ _ = _ |- _ => apply ask_Ok in H as [Ha ->]; [|apply Hw] end.
  match goal with H : resume_loop _ _ _ _ _ _ _ _ = _ |- _ => eapply resume_loop_Ok in H; [|done|] end.
  - destruct (rp_completed p); [done|]. by rewrite Z.sub_0_r in *.
  - eapply active_job_leads; [apply Hw|done].
Qed.
End Run.

(** ** The start *)

Lemma jobs_lead_insert s t x jobs d :
  count (fun r => bool_decide (job_kind r = "kek_rotation") && unfinished r) jobs = 0 ->
  db_jobs d = insert_row x jobs ->
  (job_kind x = "kek_rotation" -> job_source_key_version x = Some s /\ job_target_key_version x = Some t) ->
  jobs_lead s t d.
Proof.
  intros H0 E Hx r Hr Hk Hu. rewrite E, rows_insert in Hr. apply elem_of_app in Hr as [Hr|Hr%list_elem_of_singleton].
  - rewrite count_0 in H0. specialize (H0 r Hr). cbn in H0. rewrite Hk, Hu in H0. by rewrite bool_decide_true in H0.
  - subst. by apply Hx.
Qed.

Lemma begin_kek_rotation_Ok j s k now a d job d' :
  begin_kek_rotation j s k now a d = (Ok job, d') ->
  jobs_lead s (wk_version k) d'
  /\ source_inventory s d' = source_inventory s d
  /\ db_namespaces d' = db_namespaces d /\ db_secrets d' = db_secrets d /\ db_versions d' = db_versions d
  /\ db_policies d' = db_policies d /\ db_services d' = db_services d.
Proof.
  intros H. unfold begin_kek_rotation, insert_key in H. txn.
  match goal with H : update_installation _ _ _ = _ |- _ => apply update_installation_Ok in H end.
  destruct_or!; destruct_and?; repeat minv_step; simplify_eq;
  repeat match goal with
    | H : sql_update _ _ _ _ = Some _ |- _ => apply sql_update_Some in H as (_ & -> & _)
    | H : sql_insert keys_schema _ _ = Some _ |- _ => apply sql_insert_Some in H as (-> & _)
    | H : sql_insert jobs_schema _ _ = Some _ |- _ => apply sql_insert_Some in H as (-> & _)
    end;
  (split; [|split; [|done]]).
  all: bprop; destruct_and!.
  1, 3: eapply jobs_lead_insert; [|reflexivity|done]; done.
  all: unfold source_inventory; cbn; do 3 f_equal; unfold count, select; rewrite rows_insert, List.filter_app, zlen_app;
    cbn [List.filter key_row key_wrapping_kek_version]; rewrite bool_decide_false by (destruct (wk_wrapping_kek_version k); naive_solver);
    rewrite Z.add_0_r; apply count_set_key_state.
Qed.

Section Complete.
Context {CR : Crypto} {CL : CryptoLaws} (self : InitializedVault).

(** The ring a rotation works with: the next version is added and active. *)
Definition ring_with (r : KeyRing) (k : KeyMaterial) : KeyRing :=
  {| kr_active_version := kr_active_version r + 1; kr_keys := <[kr_active_version r + 1 := k]> (kr_keys r) |}.

Lemma start_kek_rotation_Ok op w job w' :
  quiet w -> db_ok (w_db w) -> start_kek_rotation self op w = (Ok job, w') ->
  exists k, kek (w_ring w) (kr_active_version (w_ring w) + 1) = None
    /\ rotating self (kr_active_version (w_ring w)) (kr_active_version (w_ring w) + 1) (ring_with (w_ring w) k) (w_db w) w'
    /\ source_inventory (kr_active_version (w_ring w)) (w_db w')
       = source_inventory (kr_active_version (w_ring w)) (w_db w).
Proof.
  intros Hq Hok H. unfold start_kek_rotation in H. vinv.
  match goal with H : (let '(_, _) := ?p in _) _ = _ |- _ => destruct p as [v key] end. vinv.
  match goal with H : build_audit _ _ _ _ _ _ = _ |- _ => apply build_audit_Ok in H as [n ->]; [|done] end. vinv.
  match goal with H : on_ring _ _ = _ |- _ => apply on_ring_Ok in H as (r & Hr & ->) end.
  match goal with H : active_kek _ = Some _ |- _ => unfold active_kek in H; apply bind_Some in H as (? & ? & [= <- _]) end.
  match goal with H : checked_add _ _ _ = Some _ |- _ => apply checked_add_Some in H as [-> ?] end. cbn in *.
  match goal with H : begin_kek_rotation _ _ _ _ _ _ = _ |- _ =>
    pose proof (begin_kek_rotation_preserves _ _ _ _ _ _ _ _ H Hok) as Hok';
    apply begin_kek_rotation_Ok in H as (Hj & Hi & E1 & E2 & E3 & E4 & E5) end.
  unfold install_active_kek in Hr. match type of Hr with (if ?b then _ else _) = _ => destruct b eqn:Ek; [done|] end.
  injection Hr as <-. bprop. destruct Ek as [Ek _].
  match goal with |- context [<[_ := ?k]> _] => exists k end. cbn. split_and!; [..|done].
  - by apply eq_None_not_Some.
  - split; cbn; try done. split; cbn; rewrite ?E1, ?E2, ?E3; try done;
      apply along_refl; auto using kept_namespace_refl, kept_secret_refl, kept_version_refl.
Qed.

Lemma inventory_nonneg v d : 0 <= source_inventory v d.
Proof.
  unfold source_inventory.
  match goal with |- 0 <= count ?p1 ?t1 + count ?p2 ?t2 + count ?p3 ?t3 + count ?p4 ?t4 =>
    pose proof (count_nonneg p1 t1); pose proof (count_nonneg p2 t2); pose proof (count_nonneg p3 t3);
    pose proof (count_nonneg p4 t4) end. lia.
Qed.

Lemma completion_settled s t ring d0 fuel extra op w :
  t <> s -> rotating self s t ring d0 w -> (Z.to_nat (source_inventory s (w_db w)) < fuel)%nat ->
  completion_loop self (fuel + extra) op w = completion_loop self fuel op w
  /\ fst (completion_loop self fuel op w) <> Ok None.
Proof.
  intros Hst. revert w. induction fuel as [|fuel IH]; intros w Hw Hf; [lia|]. cbn [completion_loop Nat.add].
  unfold prog_bind. destruct (resume_kek_rotation self 64 64 op w) as [[p|e] w'] eqn:E; [|done].
  eapply resume_Ok in E; [|done..]. destruct (rp_completed p); [done|]. destruct E as [Hw' Hi].
  apply IH; [done|]. pose proof (inventory_nonneg s (w_db w')). lia.
Qed.

Lemma completion_rotated s t ring d0 fuel op w w' :
  t <> s -> rotating self s t ring d0 w -> completion_loop self fuel op w = (Ok (Some tt), w') ->
  rotated self s ring d0 w'.
Proof.
  intros Hst. revert w. induction fuel as [|fuel IH]; intros w Hw H; cbn [completion_loop] in H; [done|].
  apply prog_bind_Ok in H as (p & w1 & E & H). eapply resume_Ok in E; [|done..].
  destruct (rp_completed p); [by minv|]. destruct E as [Hw1 _]. by eapply IH.
Qed.

Lemma rotate_Ok fuel op w w' :
  quiet w -> db_ok (w_db w) -> rotate_kek_to_completion self fuel op w = (Ok (Some tt), w') ->
  exists k, kek (w_ring w) (kr_active_version (w_ring w) + 1) = None
    /\ rotated self (kr_active_version (w_ring w)) (ring_with (w_ring w) k) (w_db w) w'.
Proof.
  intros Hq Hok H. unfold rotate_kek_to_completion in H. apply prog_bind_Ok in H as (job & w1 & Hs & H).
  destruct (start_kek_rotation_Ok op w job w1 Hq Hok Hs) as (k & Hn & Hw1 & _).
  exists k. split; [done|]. eapply completion_rotated; [|exact Hw1|exact H]. lia.
Qed.
End Complete.

(** C37. A rotation started on an otherwise idle vault runs to an end: the loop
    that resumes it takes at most one turn per record the old key still wraps,
    and one more, since every turn that does not finish rewraps records; more
    turns change nothing. *)
Theorem rotation_terminates {CR : Crypto} {CL : CryptoLaws} (self : InitializedVault) (op : OperationContext)
    (extra : nat) (w : World) (Hq : quiet w) (Hok : db_ok (w_db w)) :
  let turns := S (Z.to_nat (source_inventory (kr_active_version (w_ring w)) (w_db w))) in
  rotate_kek_to_completion self (turns + extra) op w = rotate_kek_to_completion self turns op w
  /\ fst (rotate_kek_to_completion self turns op w) <> Ok None.
Proof.
  intros turns. unfold rotate_kek_to_completion, prog_bind.
  destruct (start_kek_rotation self op w) as [[job|e] w'] eqn:E; [|done].
  destruct (start_kek_rotation_Ok self op w job w' Hq Hok E) as (k & _ & Hw & Hi).
  eapply completion_settled; [|exact Hw|unfold turns; rewrite Hi]; lia.
Qed.

(** ** What can be read after a rotation *)

Lemma parse_uint_eq max z x : parse_uint max z = Ok x -> x = z.
Proof. unfold parse_uint. intros H%ok_or_Ok. by apply try_from_Some in H as [-> _]. Qed.

(** The columns that were parsed once parse again, with the new wrapping. *)
Ltac parsed_again He :=
  repeat match goal with
    | H : parse_opt_uuid _ = Ok _ |- _ => rewrite H; clear H
    | H : parse_uuid _ = Ok _ |- _ => rewrite H; clear H
    | H : parse_array _ _ = Ok _ |- _ => rewrite H; clear H
    | H : parse_uint _ _ = Ok _ |- _ => rewrite H; clear H
    end;
  cbn; rewrite He; cbn; eexists; split; [reflexivity|]; cbn; split; [|reflexivity].

Section Readable.
Context {CR : Crypto} (self : InitializedVault).

Lemma decrypt_ring r r' e kind wrapped id v p :
  (forall k, kek r (er_kek_version e) = Some k -> kek r' (er_kek_version e) = Some k) ->
  decrypt_record self r e kind wrapped id v = Ok p -> decrypt_record self r' e kind wrapped id v = Ok p.
Proof.
  intros Hk. unfold decrypt_record. destruct (kek r (er_kek_version e)) as [k|]; [|done].
  by rewrite (Hk k eq_refl).
Qed.

Context (s : Z) (ring0 : KeyRing) (k : KeyMaterial) (d0 : Db) (w' : World).
Hypothesis Hfresh : kek ring0 (kr_active_version ring0 + 1) = None.
Hypothesis Hrot : rotated self s (ring_with ring0 k) d0 w'.

Lemma rotated_decrypts e e' kind wrapped id v p :
  kept_wrapping (ring_with ring0 k) (context_of self wrapped id v)
    (er_kek_version e, arr (er_dek_nonce e), arr (er_wrapped_dek e))
    (er_kek_version e', arr (er_dek_nonce e'), arr (er_wrapped_dek e')) ->
  er_nonce e' = er_nonce e -> er_ciphertext e' = er_ciphertext e -> er_kek_version e' <> s ->
  decrypt_record self ring0 e kind wrapped id v = Ok p ->
  decrypt_record self (w_ring w') e' kind wrapped id v = Ok p.
Proof.
  intros Hw Hn Hc Hne H. rewrite (rd_ring _ _ _ _ _ Hrot).
  apply (decrypt_ring (ring_with ring0 k)).
  { intros x. unfold kek. cbn. by rewrite lookup_delete_ne. }
  eapply kept_decrypts; [done..|]. eapply decrypt_ring; [|done]. intros x Hx. unfold kek in *. cbn.
  rewrite lookup_insert_ne; [done|]. intros E. unfold kek in Hfresh. rewrite E in Hfresh. congruence.
Qed.

Lemma not_source (A : Type) (f : A -> Z) (t : table A) a n :
  count (fun r => f r =? s) t = 0 -> a ∈ rows t -> n = f a -> n <> s.
Proof. intros H Ha ->. rewrite count_0 in H. specialize (H a Ha). by apply Z.eqb_neq. Qed.

Lemma no_source_left :
  count (fun r => ns_kek_version r =? s) (db_namespaces (w_db w')) = 0
  /\ count (fun r => sec_metadata_kek_version r =? s) (db_secrets (w_db w')) = 0
  /\ count (fun r => sv_kek_version r =? s) (db_versions (w_db w')) = 0.
Proof.
  pose proof (rd_inventory _ _ _ _ _ Hrot) as H. unfold source_inventory in H.
  match type of H with count ?p1 ?t1 + count ?p2 ?t2 + count ?p3 ?t3 + count ?p4 ?t4 = 0 =>
    pose proof (count_nonneg p1 t1); pose proof (count_nonneg p2 t2); pose proof (count_nonneg p3 t3);
    pose proof (count_nonneg p4 t4) end. lia.
Qed.

Lemma rotated_version id v e p :
  encrypted_secret_version d0 id v = Ok e -> decrypt_record self ring0 e OSecretVersion OWrappedDataKey id v = Ok p ->
  exists e', encrypted_secret_version (w_db w') id v = Ok e'
    /\ decrypt_record self (w_ring w') e' OSecretVersion OWrappedDataKey id v = Ok p.
Proof.
  unfold encrypted_secret_version, find_version. intros H Hp. minv.
  match goal with H : sql_i64 v = Ok ?x |- _ => rename H into Hv; rename x into v' end.
  match goal with H : select_one _ _ = Some ?x |- _ => rename x into a; rename H into Ha end.
  destruct (along_found _ _ _ _ _ Ha (kd_versions _ _ _ _ (rd_kept _ _ _ _ _ Hrot))) as (b & Hb & Eb & Hk).
  { intros x y [E _]. by rewrite E. }
  rewrite Hv. unfold sql_i64 in Hv. apply ok_or_Ok, try_from_Some in Hv as [-> _].
  cbn. rewrite Hb. cbn. apply select_one_Some in Ha as [_ Hid]. apply select_one_Some in Hb as [Hb _].
  apply andb_true_iff in Hid as [Hid%blob_eqb_true Hver%Z.eqb_eq].
  assert (sv_payload_nonce b = sv_payload_nonce a /\ sv_payload_ciphertext b = sv_payload_ciphertext a) as [-> ->]
    by (by rewrite Eb).
  match goal with H : parse_encrypted _ _ _ _ _ = Ok _ |- _ =>
    destruct (kept_parses _ _ _ _ _ _ _ _ _ _ _ (Hk id Hid) H) as (e' & He' & En & Ec & Ekk & Hkw) end.
  exists e'. split; [done|]. rewrite Hver in Hkw. eapply rotated_decrypts; [done..| |done].
  eapply (not_source _ sv_kek_version); [apply no_source_left|exact Hb|done].
Qed.

Lemma rotated_schedule a b :
  sec_secret_id b = sec_secret_id a -> sec_current_version b = sec_current_version a ->
  current_schedule (w_db w') b = current_schedule d0 a.
Proof.
  intros Ei Ev. unfold current_schedule. rewrite Ei, Ev.
  match goal with |- context [select_one ?p (db_versions d0)] =>
    destruct (along_select _ p _ _ (kd_versions _ _ _ _ (rd_kept _ _ _ _ _ Hrot))) as [x y [E _]|] end; [|by rewrite E|done].
  intros x y [E _]. by rewrite E.
Qed.

Lemma rotated_secret id r m :
  secret d0 id = Ok r -> decrypt_metadata self ring0 r = Ok m ->
  exists r', secret (w_db w') id = Ok r' /\ decrypt_metadata self (w_ring w') r' = Ok m
    /\ verify_secret_state self r' = verify_secret_state self r.
Proof.
  unfold secret, find_secret. intros H Hm. minv.
  match goal with H : select_one _ _ = Some ?x |- _ => rename x into a; rename H into Ha end.
  destruct (along_found _ _ _ _ _ Ha (kd_secrets _ _ _ _ (rd_kept _ _ _ _ _ Hrot))) as (b & Hb & Eb & Hk).
  { intros x y [E _]. by rewrite E. }
  rewrite Hb. cbn [ok_or result_bind]. rewrite (rotated_schedule a b) by (by rewrite Eb).
  apply select_one_Some in Ha as [_ Hid%blob_eqb_true], Hb as [Hb _]. specialize (Hk id Hid).
  unfold decrypt_metadata in Hm |- *. unfold parse_secret in *. minv. cbn in *.
  match goal with H : parse_encrypted _ _ _ _ _ = Ok _ |- _ =>
    destruct (kept_parses _ _ _ _ _ _ _ _ _ _ _ Hk H) as (e' & He' & En & Ec & Ekk & Hkw) end.
  assert (sec_metadata_kek_version b <> s) as Hne
    by (by eapply (not_source _ sec_metadata_kek_version); [apply no_source_left|exact Hb|]).
  revert Hkw Ekk Hne He'. rewrite Eb. cbn. intros Hkw Ekk Hne He'.
  match goal with H : parse_uint u64_max (sec_metadata_version a) = Ok _ |- _ => pose proof (parse_uint_eq _ _ _ H) as -> end.
  parsed_again He'. erewrite rotated_decrypts; [|done..|congruence|done]. done.
Qed.

Lemma rotated_namespace id r m :
  namespace d0 id = Ok r -> decrypt_namespace self ring0 r = Ok m ->
  exists r', namespace (w_db w') id = Ok r' /\ decrypt_namespace self (w_ring w') r' = Ok m
    /\ verify_namespace_state self r' = verify_namespace_state self r.
Proof.
  unfold namespace, find_namespace. intros H Hm. minv.
  match goal with H : select_one _ _ = Some ?x |- _ => rename x into a; rename H into Ha end.
  destruct (along_found _ _ _ _ _ Ha (kd_namespaces _ _ _ _ (rd_kept _ _ _ _ _ Hrot))) as (b & Hb & Eb & Hk).
  { intros x y [E _]. by rewrite E. }
  rewrite Hb. cbn [ok_or result_bind].
  apply select_one_Some in Ha as [_ Hid%blob_eqb_true], Hb as [Hb _]. specialize (Hk id Hid).
  unfold decrypt_namespace in Hm |- *. minv. cbn in *.
  match goal with H : parse_encrypted _ _ _ _ _ = Ok _ |- _ =>
    destruct (kept_parses _ _ _ _ _ _ _ _ _ _ _ Hk H) as (e' & He' & En & Ec & Ekk & Hkw) end.
  assert (ns_kek_version b <> s) as Hne by (by eapply (not_source _ ns_kek_version); [apply no_source_left|exact Hb|]).
  revert Hkw Ekk Hne He'. rewrite Eb. cbn. intros Hkw Ekk Hne He'.
  match goal with H : parse_uint u64_max (ns_metadata_version a) = Ok _ |- _ => pose proof (parse_uint_eq _ _ _ H) as -> end.
  parsed_again He'. erewrite rotated_decrypts; [|done..|congruence|done]. done.
Qed.
End Readable.

(** C5. A completed rotation of the key-encryption key loses no secret. On an
    otherwise idle vault, every version of every secret, and the metadata of
    every secret and namespace, that could be decrypted before the rotation
    decrypts to the same text after it; the states still verify against their
    commitments as before; and the old key is gone from the ring, so none of
    this depends on it. *)
Theorem rotation_keeps_secrets {CR : Crypto} {CL : CryptoLaws} (self : InitializedVault) (fuel : nat)
    (op : OperationContext) (w w' : World) (Hq : quiet w) (Hok : db_ok (w_db w))
    (H : rotate_kek_to_completion self fuel op w = (Ok (Some tt), w')) :
  (forall id v e p, encrypted_secret_version (w_db w) id v = Ok e ->
     decrypt_record self (w_ring w) e OSecretVersion OWrappedDataKey id v = Ok p ->
     exists e', encrypted_secret_version (w_db w') id v = Ok e'
       /\ decrypt_record self (w_ring w') e' OSecretVersion OWrappedDataKey id v = Ok p)
  /\ (forall id r m, secret (w_db w) id = Ok r -> decrypt_metadata self (w_ring w) r = Ok m ->
     exists r', secret (w_db w') id = Ok r' /\ decrypt_metadata self (w_ring w') r' = Ok m
       /\ verify_secret_state self r' = verify_secret_state self r)
  /\ (forall id r m, namespace (w_db w) id = Ok r -> decrypt_namespace self (w_ring w) r = Ok m ->
     exists r', namespace (w_db w') id = Ok r' /\ decrypt_namespace self (w_ring w') r' = Ok m
       /\ verify_namespace_state self r' = verify_namespace_state self r)
  /\ kek (w_ring w') (kr_active_version (w_ring w)) = None.
Proof.
  destruct (rotate_Ok self fuel op w w' Hq Hok H) as (k & Hfresh & Hrot). split_and!.
  - intros. by eapply rotated_version.
  - intros. by eapply rotated_secret.
  - intros. by eapply rotated_namespace.
  - rewrite (rd_ring _ _ _ _ _ Hrot). apply lookup_delete_eq.
Qed.

(** C38. The same rotation orphans the protected metadata of policies and
    service identities. It leaves their rows as they were, wrapped under the
    key that was active before, and drops that key from the ring: describing a
    policy, or reading the metadata of a service, that was written under that
    key fails as an integrity error afterwards. *)
Theorem rotation_orphans_policy_metadata {CR : Crypto} {CL : CryptoLaws} (self : InitializedVault) (fuel : nat)
    (op : OperationContext) (w w' : World) (Hq : quiet w) (Hok : db_ok (w_db w))
    (H : rotate_kek_to_completion self fuel op w = (Ok (Some tt), w')) :
  db_policies (w_db w') = db_policies (w_db w) /\ db_services (w_db w') = db_services (w_db w)
  /\ (forall p, er_kek_version (po_metadata p) = kr_active_version (w_ring w) ->
      policy_details self p w' = (Err AzIntegrity, w'))
  /\ (forall r id, verify_principal_commitment self (sid_principal r) = Ok tt ->
      er_kek_version (sid_metadata r) = kr_active_version (w_ring w) ->
      open_service_metadata self r id w' = (Err AuIntegrity, w')).
Proof.
  destruct (rotate_Ok self fuel op w w' Hq Hok H) as (k & Hfresh & Hrot).
  destruct (rd_kept _ _ _ _ _ Hrot) as [_ _ _ Hp Hs].
  assert (forall e kind wrapped id v, er_kek_version e = kr_active_version (w_ring w) ->
    decrypt_record self (w_ring w') e kind wrapped id v = Err Integrity) as Hlost.
  { intros e kind wrapped id v He. unfold decrypt_record. rewrite He, (rd_ring _ _ _ _ _ Hrot).
    unfold kek. cbn. by rewrite lookup_delete_eq. }
  split_and!; [done..| |].
  - intros p Hv. unfold policy_details, prog_bind, prog_map_err, decrypt_with, prog_read. by rewrite Hlost.
  - intros r id Hc Hv. unfold open_service_metadata, prog_bind, prog_lift, prog_map_err, decrypt_with, prog_read.
    by rewrite Hc, Hlost.
Qed.
