(* ===== verification/Archive.v ===== *)
(** Crate smcv-backup: the encrypted archive format.

    A source is a byte stream read through [std::io::Read], whose calls may
    return fewer bytes than asked for, be interrupted or fail; a destination is
    written through [std::io::Write] and may run out of room. Argon2id and
    serde_json are third-party code: the operations of the class
    [ArchiveFormats], with what is relied on of them in [ArchiveLaws]. *)
From Stdlib Require Import ZArith Lia Strings.Byte String.
From stdpp Require Import base tactics numbers option strings list.
From S2P Require Import Prelude RustStd Core Crypto.

Definition MAGIC : blob := bstr "SMCVLT01".
Definition FORMAT_VERSION : Z := 1.
Definition ALGORITHM_SUITE : Z := 1.
Definition MAX_HEADER_BYTES : Z := 256.
Definition MAX_ARCHIVE_BYTES : Z := 64 * 1024 * 1024 * 1024.
Definition MIN_CHUNK_BYTES : Z := 16 * 1024.
Definition MAX_CHUNK_BYTES : Z := 4 * 1024 * 1024.
Definition MAX_RECORDS : Z := 10000000.
Definition MIN_ARGON2_MEMORY_KIB : Z := 64 * 1024.
Definition MAX_ARGON2_MEMORY_KIB : Z := 256 * 1024.
Definition MAX_ARGON2_ITERATIONS : Z := 10.
Definition MAX_ARGON2_LANES : Z := 4.

Definition FIXED_HEADER_BYTES : nat := 54.
Definition WRAP_NONCE_BYTES : nat := 24.
Definition WRAPPED_DEK_BYTES : nat := 48.
Definition MIN_HEADER_BYTES : Z := 126.
Definition MIN_SALT_BYTES : nat := 16.
Definition MAX_SALT_BYTES : Z := 32.
Definition FRAME_HEADER_BYTES : nat := 38.
Definition AEAD_TAG_BYTES : Z := 16.
Definition MAX_MANIFEST_BYTES : Z := 64 * 1024.
Definition MAX_LOGICAL_RECORD_BYTES : Z := 32 * 1024 * 1024.

(** [(lo..=hi).contains(&z)] *)
Definition within (lo hi z : Z) : bool := (lo <=? z) && (z <=? hi).

Inductive KeyMode : Type := PassphraseArgon2id | ModeRecoveryKey.
(** [key_mode as u8] *)
Definition key_mode_code (m : KeyMode) : Z := match m with PassphraseArgon2id => 1 | ModeRecoveryKey => 2 end.

Record Argon2Parameters : Type := {
  ap_memory_kib : Z;
  ap_iterations : Z;
  ap_lanes : Z }.

Record PublicHeader : Type := {
  ph_archive_id : Uuid;
  ph_key_mode : KeyMode;
  ph_salt : blob;
  ph_argon2 : option Argon2Parameters;
  ph_chunk_bytes : Z;
  ph_record_limit : Z;
  ph_wrap_nonce : array 24;
  ph_wrapped_dek : array 48 }.

Inductive HeaderError : Type :=
| ArchiveTooLarge | Truncated | BadMagic | Unsupported | HInvalidBound | InvalidKdf.

Inductive ArchiveError : Type :=
| AHeader (e : HeaderError)
| AIo
| AInvalidKey
| AIntegrity
| AInvalidBound
| AUnavailable.

Record ArchiveMetadata : Type := {
  am_logical_vault_id : Uuid;
  am_source_installation_id : Uuid;
  am_source_recovery_epoch : Z;
  am_source_schema_version : Z;
  am_security_semantics_version : Z;
  am_created_at_unix_ms : Z }.

Record ArchiveOptions : Type := {
  ao_chunk_bytes : Z;
  ao_record_limit : Z;
  ao_argon2 : Argon2Parameters }.

(** [ArchiveOptions::default] *)
Definition default_archive_options : ArchiveOptions :=
  {| ao_chunk_bytes := 1024 * 1024; ao_record_limit := MAX_RECORDS;
     ao_argon2 := {| ap_memory_kib := 64 * 1024; ap_iterations := 3; ap_lanes := 1 |} |}.

Record ArchiveSummary : Type := {
  sum_archive_id : Uuid;
  sum_archive_bytes : Z;
  sum_record_count : Z;
  sum_logical_bytes : Z }.

Record VerifiedArchive : Type := {
  va_header : PublicHeader;
  va_metadata : ArchiveMetadata;
  va_record_count : Z;
  va_logical_bytes : Z;
  va_logical_digest : array 32 }.

Record FinalManifest : Type := {
  fm_record_count : Z;
  fm_logical_bytes : Z;
  fm_logical_digest : array 32;
  fm_data_frames : Z }.

(** The values of the Rust types. *)
Definition metadata_typed (m : ArchiveMetadata) : Prop :=
  in_u64 (am_source_recovery_epoch m) /\ in_u32 (am_source_schema_version m)
  /\ in_u32 (am_security_semantics_version m) /\ in_i64 (am_created_at_unix_ms m).
Definition manifest_typed (m : FinalManifest) : Prop :=
  in_u64 (fm_record_count m) /\ in_u64 (fm_logical_bytes m) /\ in_u64 (fm_data_frames m).

Class ArchiveFormats : Type := {
  (** [Argon2id] v0x13 with 32 bytes of output: memory, iterations, lanes,
      passphrase and salt; [None] for parameters or inputs it refuses. *)
  argon2id : Z -> Z -> Z -> blob -> blob -> option (array 32);
  (** [serde_json::to_vec] and [serde_json::from_slice] at the two types. *)
  metadata_to_json : ArchiveMetadata -> option blob;
  metadata_from_json : blob -> option ArchiveMetadata;
  manifest_to_json : FinalManifest -> option blob;
  manifest_from_json : blob -> option FinalManifest }.

(** Values of derived types survive a round trip through JSON, and the text of
    three integers and thirty-two bytes is short. *)
Class ArchiveLaws {AF : ArchiveFormats} : Prop := {
  metadata_json_round_trip m j : metadata_typed m -> metadata_to_json m = Some j -> metadata_from_json j = Some m;
  manifest_json_round_trip m j : manifest_typed m -> manifest_to_json m = Some j -> manifest_from_json j = Some m;
  manifest_json_short m j : manifest_typed m -> manifest_to_json m = Some j -> zlen j <= MAX_MANIFEST_BYTES }.

(** ** Sources and destinations *)

(** What one call of [read] does: a short read of at most [S n] bytes, an
    interruption, or another failure. Without an event it fills the buffer. *)
Inductive read_event : Type := ReadAtMost (n : nat) | ReadInterrupted | ReadFails.

Record Reader : Type := {
  rd_bytes : blob;
  rd_script : list read_event }.

(** [Read::read] into a buffer of [n] bytes; no bytes at the end. *)
Definition io_read (n : nat) : Prog Reader ArchiveError blob := fun r =>
  match rd_script r with
  | [] => (Ok (take n (rd_bytes r)), {| rd_bytes := drop n (rd_bytes r); rd_script := [] |})
  | ReadAtMost k :: script =>
      (Ok (take (n `min` S k) (rd_bytes r)),
       {| rd_bytes := drop (n `min` S k) (rd_bytes r); rd_script := script |})
  | _ :: script => (Err AIo, {| rd_bytes := rd_bytes r; rd_script := script |})
  end.

(** [Read::read_exact]: reads until [n] bytes have come, retrying when
    interrupted; the end of the stream before that is an error. *)
Fixpoint exact_loop (script : list read_event) (n : nat) (bytes acc : blob)
  : result ArchiveError blob * Reader :=
  if Nat.eqb n 0 then (Ok acc, {| rd_bytes := bytes; rd_script := script |})
  else match script with
  | [] =>
      if Nat.ltb (length bytes) n then (Err AIo, {| rd_bytes := []; rd_script := [] |})
      else (Ok (acc ++ take n bytes), {| rd_bytes := drop n bytes; rd_script := [] |})
  | ReadAtMost k :: script =>
      if Nat.eqb (length bytes) 0 then (Err AIo, {| rd_bytes := []; rd_script := script |})
      else
        let got := take (n `min` S k) bytes in
        exact_loop script (n - length got) (drop (n `min` S k) bytes) (acc ++ got)
  | ReadInterrupted :: script => exact_loop script n bytes acc
  | ReadFails :: script => (Err AIo, {| rd_bytes := bytes; rd_script := script |})
  end.
Definition read_exact (n : nat) : Prog Reader ArchiveError blob :=
  fun r => exact_loop (rd_script r) n (rd_bytes r) [].

(** A destination: what has been written, and how much more fits. *)
Record Writer : Type := {
  wr_bytes : blob;
  wr_room : option nat;
  wr_flushes : bool }.

(** [Write::write_all] *)
Definition write_all (bytes : blob) : Prog Writer ArchiveError unit := fun w =>
  match wr_room w with
  | Some room =>
      if Nat.ltb room (length bytes)
      then (Err AIo, {| wr_bytes := wr_bytes w ++ take room bytes; wr_room := Some O; wr_flushes := wr_flushes w |})
      else (Ok tt, {| wr_bytes := wr_bytes w ++ bytes; wr_room := Some (room - length bytes)%nat;
                      wr_flushes := wr_flushes w |})
  | None => (Ok tt, {| wr_bytes := wr_bytes w ++ bytes; wr_room := None; wr_flushes := wr_flushes w |})
  end.
(** [Write::flush] *)
Definition flush : Prog Writer ArchiveError unit := fun w => (if wr_flushes w then Ok tt else Err AIo, w).

(** ** Integers of the header *)

Definition read_u16 (bytes : blob) (offset : nat) : result HeaderError Z :=
  let? value := ok_or Truncated (slice bytes offset 2) in Ok (be_decode value).
Definition read_u32 (bytes : blob) (offset : nat) : result HeaderError Z :=
  let? value := ok_or Truncated (slice bytes offset 4) in Ok (be_decode value).
Definition read_u64 (bytes : blob) (offset : nat) : result HeaderError Z :=
  let? value := ok_or Truncated (slice bytes offset 8) in Ok (be_decode value).

(** [match bytes[12]] *)
Definition key_mode_of (code : Z) : result HeaderError KeyMode :=
  if code =? 1 then Ok PassphraseArgon2id
  else if code =? 2 then Ok ModeRecoveryKey
  else Err Unsupported.

(** The salt and the parameters of the key mode. *)
Definition key_parameters (mode : KeyMode) (bytes : blob) (salt_len : nat) (memory_kib iterations lanes : Z)
  : result HeaderError (blob * option Argon2Parameters) :=
  match mode with
  | PassphraseArgon2id =>
      if negb (within (Z.of_nat MIN_SALT_BYTES) MAX_SALT_BYTES (Z.of_nat salt_len))
         || negb (within MIN_ARGON2_MEMORY_KIB MAX_ARGON2_MEMORY_KIB memory_kib)
         || negb (within 1 MAX_ARGON2_ITERATIONS iterations)
         || negb (within 1 MAX_ARGON2_LANES lanes)
      then Err InvalidKdf
      else Ok (take salt_len (drop FIXED_HEADER_BYTES bytes),
               Some {| ap_memory_kib := memory_kib; ap_iterations := iterations; ap_lanes := lanes |})
  | ModeRecoveryKey =>
      if negb (Nat.eqb salt_len 0) || negb (memory_kib =? 0) || negb (iterations =? 0) || negb (lanes =? 0)
      then Err InvalidKdf
      else Ok ([], None)
  end.

(** [parse_public_header] *)
Definition parse_public_header (bytes : blob) (total_archive_bytes : Z) : result HeaderError PublicHeader :=
  if MAX_ARCHIVE_BYTES <? total_archive_bytes then Err ArchiveTooLarge
  else if Nat.ltb (length bytes) FIXED_HEADER_BYTES then Err Truncated
  else if negb (blob_eqb (take 8 bytes) MAGIC) then Err BadMagic
  else
    let? version := read_u16 bytes 8 in
    let? suite := read_u16 bytes 10 in
    if negb (version =? FORMAT_VERSION) || negb (suite =? ALGORITHM_SUITE) then Err Unsupported
    else
      let? mode := key_mode_of (byte_at bytes 12) in
      if negb (byte_at bytes 13 =? 0) then Err Unsupported
      else
        let? header_len := read_u16 bytes 14 in
        if negb (within MIN_HEADER_BYTES MAX_HEADER_BYTES header_len) || (zlen bytes <? header_len)
        then Err HInvalidBound
        else
          let? archive_id := ok_or HInvalidBound (try_array 16 (take 16 (drop 16 bytes))) in
          let salt_len := byte_at bytes 32 in
          if negb (header_len =? MIN_HEADER_BYTES + salt_len) then Err HInvalidBound
          else
            let? memory_kib := read_u32 bytes 33 in
            let? iterations := read_u32 bytes 37 in
            let lanes := byte_at bytes 41 in
            let? chunk_bytes := read_u32 bytes 42 in
            let? record_limit := read_u64 bytes 46 in
            if negb (within MIN_CHUNK_BYTES MAX_CHUNK_BYTES chunk_bytes)
               || (record_limit =? 0) || (MAX_RECORDS <? record_limit)
            then Err HInvalidBound
            else
              let salt_len := Z.to_nat salt_len in
              let? (salt, argon2) := key_parameters mode bytes salt_len memory_kib iterations lanes in
              let wrap_nonce_offset := (FIXED_HEADER_BYTES + salt_len)%nat in
              let wrapped_dek_offset := (wrap_nonce_offset + WRAP_NONCE_BYTES)%nat in
              let? wrap_nonce := ok_or HInvalidBound
                (try_array 24 (take WRAP_NONCE_BYTES (drop wrap_nonce_offset bytes))) in
              let? wrapped_dek := ok_or HInvalidBound
                (try_array 48 (take (Z.to_nat header_len - wrapped_dek_offset) (drop wrapped_dek_offset bytes))) in
              Ok {| ph_archive_id := archive_id; ph_key_mode := mode; ph_salt := salt; ph_argon2 := argon2;
                    ph_chunk_bytes := chunk_bytes; ph_record_limit := record_limit;
                    ph_wrap_nonce := wrap_nonce; ph_wrapped_dek := wrapped_dek |}.

(** [encode_header_prefix] *)
Definition encode_header_prefix (h : PublicHeader) : result ArchiveError blob :=
  let? header_len := ok_or AInvalidBound (try_from u16_max (MIN_HEADER_BYTES + zlen (ph_salt h))) in
  let? salt_len := ok_or AInvalidBound (try_from 255 (zlen (ph_salt h))) in
  let parameters := default {| ap_memory_kib := 0; ap_iterations := 0; ap_lanes := 0 |} (ph_argon2 h) in
  Ok (MAGIC ++ u16_be FORMAT_VERSION ++ u16_be ALGORITHM_SUITE ++ u8_be (key_mode_code (ph_key_mode h)) ++ [x00]
      ++ u16_be header_len ++ arr (ph_archive_id h) ++ u8_be salt_len ++ u32_be (ap_memory_kib parameters)
      ++ u32_be (ap_iterations parameters) ++ u8_be (ap_lanes parameters) ++ u32_be (ph_chunk_bytes h)
      ++ u64_be (ph_record_limit h) ++ ph_salt h ++ arr (ph_wrap_nonce h)).

(** [encode_public_header] *)
Definition encode_public_header (h : PublicHeader) : result ArchiveError blob :=
  let? bytes := encode_header_prefix h in
  Ok (bytes ++ arr (ph_wrapped_dek h)).

(** [validate_options] *)
Definition validate_options (options : ArchiveOptions) : result ArchiveError unit :=
  if negb (within MIN_CHUNK_BYTES MAX_CHUNK_BYTES (ao_chunk_bytes options))
     || (ao_record_limit options =? 0) || (MAX_RECORDS <? ao_record_limit options)
     || negb (within MIN_ARGON2_MEMORY_KIB MAX_ARGON2_MEMORY_KIB (ap_memory_kib (ao_argon2 options)))
     || negb (within 1 MAX_ARGON2_ITERATIONS (ap_iterations (ao_argon2 options)))
     || negb (within 1 MAX_ARGON2_LANES (ap_lanes (ao_argon2 options)))
  then Err AInvalidBound else Ok tt.

(** ** Record counting *)

Record RecordCounter : Type := {
  ct_header : blob;
  ct_header_used : nat;
  ct_remaining_payload : Z;
  ct_records : Z;
  ct_limit : Z }.

(** [RecordCounter::new] *)
Definition counter_new (limit : Z) : RecordCounter :=
  {| ct_header := repeat x00 8; ct_header_used := 0; ct_remaining_payload := 0; ct_records := 0; ct_limit := limit |}.

(** [u16::from_be_bytes] of the flags and [u32::from_be_bytes] of the length. *)
Definition header_flags (header : blob) : Z := be_decode (take 2 (drop 2 header)).
Definition header_length (header : blob) : Z := be_decode (take 4 (drop 4 header)).

(** A header that is complete starts a record. *)
Definition start_record (c : RecordCounter) : result ArchiveError RecordCounter :=
  if negb (Z.land (header_flags (ct_header c)) 65534 (* !1 *) =? 0)
     || (MAX_LOGICAL_RECORD_BYTES <? header_length (ct_header c))
  then Err AIntegrity
  else
    let? records := ok_or AInvalidBound (checked_add u64_max (ct_records c) 1) in
    if ct_limit c <? records then Err AInvalidBound
    else Ok {| ct_header := ct_header c; ct_header_used := 0; ct_remaining_payload := header_length (ct_header c);
               ct_records := records; ct_limit := ct_limit c |}.

(** One turn of the loop of [update], on bytes that are not empty: the counter
    and how many bytes the turn consumes. *)
Definition counter_turn (c : RecordCounter) (bytes : blob) : result ArchiveError (RecordCounter * nat) :=
  if 0 <? ct_remaining_payload c then
    let consumed := (length bytes `min` Z.to_nat (ct_remaining_payload c))%nat in
    Ok ({| ct_header := ct_header c; ct_header_used := ct_header_used c;
           ct_remaining_payload := ct_remaining_payload c - Z.of_nat consumed;
           ct_records := ct_records c; ct_limit := ct_limit c |}, consumed)
  else
    let consumed := ((8 - ct_header_used c) `min` length bytes)%nat in
    let header := take (ct_header_used c) (ct_header c) ++ take consumed bytes
                  ++ drop (ct_header_used c + consumed) (ct_header c) in
    let c := {| ct_header := header; ct_header_used := (ct_header_used c + consumed)%nat;
                ct_remaining_payload := ct_remaining_payload c; ct_records := ct_records c;
                ct_limit := ct_limit c |} in
    let? c := (if Nat.eqb (ct_header_used c) 8 then start_record c else Ok c) in
    Ok (c, consumed).

(** [RecordCounter::update]; every turn consumes a byte, so a turn per byte is
    enough. *)
Fixpoint counter_loop (fuel : nat) (c : RecordCounter) (bytes : blob) : result ArchiveError RecordCounter :=
  match bytes, fuel with
  | [], _ => Ok c
  | _, O => Err AUnavailable
  | _, S fuel =>
      let? (c, consumed) := counter_turn c bytes in
      counter_loop fuel c (drop consumed bytes)
  end.
Definition counter_update (c : RecordCounter) (bytes : blob) : result ArchiveError RecordCounter :=
  counter_loop (length bytes) c bytes.

(** [RecordCounter::finish] *)
Definition counter_finish (c : RecordCounter) : result ArchiveError Z :=
  if negb (Nat.eqb (ct_header_used c) 0) || negb (ct_remaining_payload c =? 0) then Err AIntegrity
  else Ok (ct_records c).

(** ** Recovery keys *)

Definition hex_digit (n : Z) : byte := nth (Z.to_nat n) (bstr "0123456789abcdef") x00.
(** [hex_lower] *)
Definition hex_lower (bytes : blob) : blob :=
  concat (map (fun b => [hex_digit (Z.shiftr (Z_of_byte b) 4); hex_digit (Z.land (Z_of_byte b) 15)]) bytes).

Abbreviation RecoveryKey := (array 32).

Inductive ArchiveKey : Type :=
| Passphrase (passphrase : blob)
| Recovery (key : RecoveryKey).

(** What reading an archive runs over: the archive and the consumer. *)
Abbreviation Reading C A := (Prog (Reader * C) ArchiveError A).

Section Keys.
Context {CR : Crypto}.

(** [RecoveryKey::generate] *)
Definition recovery_generate : Prog nat ArchiveError RecoveryKey :=
  prog_map_err (fun _ => AUnavailable) (fill 32).

(** [recovery_checksum] *)
Definition recovery_checksum (key : RecoveryKey) : blob :=
  hex_lower (take 4 (arr (sha256 (bstr "SMCV-BACKUP-RECOVERY-CHECK-v1" ++ arr key)))).

(** [RecoveryKey::parse] *)
Definition recovery_parse (encoded : blob) : result ArchiveError RecoveryKey :=
  match split dot encoded with
  | prefix :: rest =>
      if negb (blob_eqb prefix (bstr "smcvbrk_v1")) then Err AInvalidKey
      else match rest with
      | body :: checksum :: rest =>
          if negb (bool_decide (rest = [])) || negb (zlen checksum =? 8) then Err AInvalidKey
          else
            let? decoded := ok_or AInvalidKey (b64_decode body) in
            let? key := ok_or AInvalidKey (try_array 32 decoded) in
            if negb (blob_eqb (recovery_checksum key) checksum) then Err AInvalidKey
            else Ok key
      | _ => Err AInvalidKey
      end
  | [] => Err AInvalidKey
  end.

(** [RecoveryKey::expose_once] *)
Definition recovery_expose_once (key : RecoveryKey) : blob :=
  bstr "smcvbrk_v1." ++ b64_encode (arr key) ++ [dot] ++ recovery_checksum key.

Context {AF : ArchiveFormats}.

(** [derive_wrapping_key] *)
Definition derive_wrapping_key (key : ArchiveKey) (h : PublicHeader) : result ArchiveError (array 32) :=
  match key, ph_key_mode h with
  | Passphrase passphrase, PassphraseArgon2id =>
      if (zlen passphrase =? 0) || (1024 <? zlen passphrase) then Err AInvalidKey
      else
        let? parameters := ok_or AInvalidKey (ph_argon2 h) in
        ok_or AInvalidKey (argon2id (ap_memory_kib parameters) (ap_iterations parameters)
                             (ap_lanes parameters) passphrase (ph_salt h))
  | Recovery recovery, ModeRecoveryKey =>
      Ok (hmac_sha256 (arr recovery) (bstr "SMCV-BACKUP-WRAP-v1" ++ arr (ph_archive_id h)))
  | _, _ => Err AInvalidKey
  end.

(** ** Frames *)

(** [frame_aad] *)
Definition frame_aad (archive_id : Uuid) (sequence kind ciphertext_len : Z) : blob :=
  bstr "SMCV-FRAME-v1" ++ [x00] ++ arr archive_id ++ u64_be sequence ++ u8_be kind ++ u32_be ciphertext_len.

(** What writing an archive runs over: the logical stream, the destination
    and the random draws. *)
Record Writing : Type := {
  wg_source : Reader;
  wg_destination : Writer;
  wg_draws : nat }.

Definition from_stream {A} (m : Prog Reader ArchiveError A) : Prog Writing ArchiveError A := fun s =>
  let (a, r) := m (wg_source s) in
  (a, {| wg_source := r; wg_destination := wg_destination s; wg_draws := wg_draws s |}).
Definition to_destination {A} (m : Prog Writer ArchiveError A) : Prog Writing ArchiveError A := fun s =>
  let (a, w) := m (wg_destination s) in
  (a, {| wg_source := wg_source s; wg_destination := w; wg_draws := wg_draws s |}).
Definition drawn {A} (m : Prog nat CryptoError A) : Prog Writing ArchiveError A := fun s =>
  let (a, d) := m (wg_draws s) in
  (map_err (fun _ => AUnavailable) a,
   {| wg_source := wg_source s; wg_destination := wg_destination s; wg_draws := d |}).
Definition drawn_id : Prog Writing ArchiveError Uuid := fun s =>
  (Ok (new_v4 (wg_draws s)),
   {| wg_source := wg_source s; wg_destination := wg_destination s; wg_draws := S (wg_draws s) |}).

(** [write_frame] *)
Definition write_frame (key : array 32) (archive_id : Uuid) (sequence kind : Z) (plaintext : blob)
  : Prog Writing ArchiveError Z :=
  do! nonce := drawn (fill 24) in
  do! ciphertext_len := prog_lift (ok_or AInvalidBound (try_from u32_max (zlen plaintext + AEAD_TAG_BYTES))) in
  do! ciphertext := prog_lift (ok_or AUnavailable
    (aead_encrypt key nonce (frame_aad archive_id sequence kind ciphertext_len) plaintext)) in
  do! _ := to_destination (write_all (u32_be ciphertext_len)) in
  do! _ := to_destination (write_all (u64_be sequence)) in
  do! _ := to_destination (write_all (u8_be kind ++ [x00])) in
  do! _ := to_destination (write_all (arr nonce)) in
  do! _ := to_destination (write_all ciphertext) in
  prog_ret (Z.of_nat FRAME_HEADER_BYTES + zlen ciphertext).

Definition from_source {C A} (m : Prog Reader ArchiveError A) : Reading C A := fun s =>
  let (a, r) := m s.1 in (a, (r, s.2)).
Definition feed {C A} (m : Prog C ArchiveError A) : Reading C A := fun s =>
  let (a, c) := m s.2 in (a, (s.1, c)).

(** [read_frame] *)
Definition read_frame {C} (key : array 32) (archive_id : Uuid) (expected_sequence chunk_bytes : Z)
  : Reading C (Z * blob * Z) :=
  do! frame_header := from_source (read_exact FRAME_HEADER_BYTES) in
  let ciphertext_len := be_decode (take 4 frame_header) in
  let sequence := be_decode (take 8 (drop 4 frame_header)) in
  let kind := byte_at frame_header 12 in
  do! _ := prog_reject (negb (sequence =? expected_sequence) || negb (byte_at frame_header 13 =? 0)) AIntegrity in
  let max_plaintext := if kind =? 2 then chunk_bytes else MAX_MANIFEST_BYTES in
  do! _ := prog_reject ((ciphertext_len <? AEAD_TAG_BYTES) || (max_plaintext + AEAD_TAG_BYTES <? ciphertext_len))
             AInvalidBound in
  do! ciphertext := from_source (read_exact (Z.to_nat ciphertext_len)) in
  do! nonce := prog_lift (ok_or AIntegrity (try_array 24 (drop 14 frame_header))) in
  do! plaintext := prog_lift (ok_or AIntegrity
    (aead_decrypt key nonce (frame_aad archive_id sequence kind ciphertext_len) ciphertext)) in
  prog_ret (kind, plaintext, Z.of_nat FRAME_HEADER_BYTES + ciphertext_len).

(** ** Writing an archive *)

(** The counts kept while the logical stream passes. [tr_stream] is what the
    running SHA-256 has been given. *)
Record Transfer : Type := {
  tr_bytes : Z;
  tr_sequence : Z;
  tr_data_frames : Z;
  tr_logical_bytes : Z;
  tr_stream : blob;
  tr_counter : RecordCounter }.

Definition transfer_start (bytes record_limit : Z) : Transfer :=
  {| tr_bytes := bytes; tr_sequence := 1; tr_data_frames := 0; tr_logical_bytes := 0; tr_stream := [];
     tr_counter := counter_new record_limit |}.

Definition add_bounded (a b : Z) : result ArchiveError Z := ok_or AInvalidBound (checked_add u64_max a b).

(** The loop of [write_archive]; [None] when the fuel runs out. *)
Fixpoint write_loop (fuel : nat) (key : array 32) (archive_id : Uuid) (chunk_bytes : Z) (t : Transfer)
  : Prog Writing ArchiveError (option Transfer) :=
  match fuel with
  | O => prog_ret None
  | S fuel =>
      do! data := from_stream (io_read (Z.to_nat chunk_bytes)) in
      if Nat.eqb (length data) 0 then prog_ret (Some t)
      else
        do! counter := prog_lift (counter_update (tr_counter t) data) in
        do! logical_bytes := prog_lift (add_bounded (tr_logical_bytes t) (zlen data)) in
        do! written := write_frame key archive_id (tr_sequence t) 2 data in
        do! bytes := prog_lift (add_bounded (tr_bytes t) written) in
        do! sequence := prog_lift (add_bounded (tr_sequence t) 1) in
        do! data_frames := prog_lift (add_bounded (tr_data_frames t) 1) in
        write_loop fuel key archive_id chunk_bytes
          {| tr_bytes := bytes; tr_sequence := sequence; tr_data_frames := data_frames;
             tr_logical_bytes := logical_bytes; tr_stream := tr_stream t ++ data; tr_counter := counter |}
  end.

(** The loop; every turn reads at least a byte, so a turn for each and one for
    the end are enough. *)
Definition write_data (key : array 32) (archive_id : Uuid) (chunk_bytes : Z) (t : Transfer)
  : Prog Writing ArchiveError (option Transfer) :=
  fun s => write_loop (S (length (rd_bytes (wg_source s)))) key archive_id chunk_bytes t s.

(** The salt, key mode and parameters of a new archive. *)
Definition archive_key_setup (key : ArchiveKey) (options : ArchiveOptions)
  : Prog Writing ArchiveError (blob * KeyMode * option Argon2Parameters) :=
  match key with
  | Passphrase passphrase =>
      do! _ := prog_reject (negb (within 16 1024 (zlen passphrase))) AInvalidKey in
      do! salt := drawn (fill MIN_SALT_BYTES) in
      prog_ret (arr salt, PassphraseArgon2id, Some (ao_argon2 options))
  | Recovery _ => prog_ret ([], ModeRecoveryKey, None)
  end.

(** The header of a new archive with its data key, written to the
    destination. *)
Definition write_header (key : ArchiveKey) (options : ArchiveOptions)
  : Prog Writing ArchiveError (PublicHeader * array 32 * Z) :=
  do! archive_id := drawn_id in
  do! (salt, key_mode, argon2) := archive_key_setup key options in
  do! wrap_nonce := drawn (fill 24) in
  do! archive_dek := drawn (fill 32) in
  let with_dek wrapped_dek :=
    {| ph_archive_id := archive_id; ph_key_mode := key_mode; ph_salt := salt; ph_argon2 := argon2;
       ph_chunk_bytes := ao_chunk_bytes options; ph_record_limit := ao_record_limit options;
       ph_wrap_nonce := wrap_nonce; ph_wrapped_dek := wrapped_dek |} in
  do! wrapping_key := prog_lift (derive_wrapping_key key (with_dek (zeros 48))) in
  do! header_prefix := prog_lift (encode_header_prefix (with_dek (zeros 48))) in
  do! wrapped := prog_lift (ok_or AUnavailable (aead_encrypt wrapping_key wrap_nonce header_prefix (arr archive_dek))) in
  do! wrapped_dek := prog_lift (ok_or AUnavailable (try_array 48 wrapped)) in
  let header := with_dek wrapped_dek in
  do! encoded_header := prog_lift (encode_public_header header) in
  do! _ := to_destination (write_all encoded_header) in
  prog_ret (header, archive_dek, zlen encoded_header).

(** [write_archive] *)
Definition write_archive (key : ArchiveKey) (metadata : ArchiveMetadata) (options : ArchiveOptions)
  : Prog Writing ArchiveError ArchiveSummary :=
  do! _ := prog_lift (validate_options options) in
  do! (header, archive_dek, bytes_written) := write_header key options in
  let archive_id := ph_archive_id header in
  do! manifest := prog_lift (ok_or AInvalidBound (metadata_to_json metadata)) in
  do! _ := prog_reject (MAX_MANIFEST_BYTES <? zlen manifest) AInvalidBound in
  do! written := write_frame archive_dek archive_id 0 1 manifest in
  do! bytes_written := prog_lift (add_bounded bytes_written written) in
  do! transferred := write_data archive_dek archive_id (ao_chunk_bytes options)
                       (transfer_start bytes_written (ao_record_limit options)) in
  do! t := prog_lift (ok_or AUnavailable transferred) in
  do! record_count := prog_lift (counter_finish (tr_counter t)) in
  do! final_bytes := prog_lift (ok_or AIntegrity (manifest_to_json
    {| fm_record_count := record_count; fm_logical_bytes := tr_logical_bytes t;
       fm_logical_digest := sha256 (tr_stream t); fm_data_frames := tr_data_frames t |})) in
  do! written := write_frame archive_dek archive_id (tr_sequence t) 3 final_bytes in
  do! bytes_written := prog_lift (add_bounded (tr_bytes t) written) in
  do! _ := to_destination flush in
  prog_ret {| sum_archive_id := archive_id; sum_archive_bytes := bytes_written;
              sum_record_count := record_count; sum_logical_bytes := tr_logical_bytes t |}.

(** ** Reading an archive *)

Section Decode.
Context {C : Type} (consume : blob -> Prog C ArchiveError unit).

(** The loop of [decode_archive] up to the final manifest; [None] when the
    fuel runs out. *)
Fixpoint decode_loop (fuel : nat) (key : array 32) (archive_id : Uuid) (chunk_bytes : Z) (t : Transfer)
  : Reading C (option (Transfer * FinalManifest)) :=
  match fuel with
  | O => prog_ret None
  | S fuel =>
      do! (kind, plaintext, frame_size) := read_frame key archive_id (tr_sequence t) chunk_bytes in
      do! bytes := prog_lift (add_bounded (tr_bytes t) frame_size) in
      do! sequence := prog_lift (add_bounded (tr_sequence t) 1) in
      if kind =? 2 then
        do! counter := prog_lift (counter_update (tr_counter t) plaintext) in
        do! logical_bytes := prog_lift (add_bounded (tr_logical_bytes t) (zlen plaintext)) in
        do! data_frames := prog_lift (add_bounded (tr_data_frames t) 1) in
        do! _ := feed (consume plaintext) in
        decode_loop fuel key archive_id chunk_bytes
          {| tr_bytes := bytes; tr_sequence := sequence; tr_data_frames := data_frames;
             tr_logical_bytes := logical_bytes; tr_stream := tr_stream t ++ plaintext; tr_counter := counter |}
      else if kind =? 3 then
        do! _ := prog_reject (MAX_MANIFEST_BYTES <? zlen plaintext) AIntegrity in
        do! final_manifest := prog_lift (ok_or AIntegrity (manifest_from_json plaintext)) in
        prog_ret (Some ({| tr_bytes := bytes; tr_sequence := sequence; tr_data_frames := tr_data_frames t;
                           tr_logical_bytes := tr_logical_bytes t; tr_stream := tr_stream t;
                           tr_counter := tr_counter t |}, final_manifest))
      else prog_fail AIntegrity
  end.

(** The loop; every frame has at least a byte, so a turn for each byte and one
    more are enough. *)
Definition decode_data (key : array 32) (archive_id : Uuid) (chunk_bytes : Z) (t : Transfer)
  : Reading C (option (Transfer * FinalManifest)) :=
  fun s => decode_loop (S (length (rd_bytes s.1))) key archive_id chunk_bytes t s.

(** The header and the data key. *)
Definition read_header (total_archive_bytes : Z) (key : ArchiveKey) : Reading C (PublicHeader * array 32 * Z) :=
  do! _ := prog_reject (MAX_ARCHIVE_BYTES <? total_archive_bytes) (AHeader ArchiveTooLarge) in
  do! first := from_source (read_exact 16) in
  let header_len := be_decode (take 2 (drop 14 first)) in
  do! _ := prog_reject (negb (within MIN_HEADER_BYTES MAX_HEADER_BYTES header_len)) (AHeader HInvalidBound) in
  do! rest := from_source (read_exact (Z.to_nat header_len - 16)) in
  do! header := prog_lift (map_err AHeader (parse_public_header (first ++ rest) total_archive_bytes)) in
  do! wrapping_key := prog_lift (derive_wrapping_key key header) in
  do! header_prefix := prog_lift (encode_header_prefix header) in
  do! dek := prog_lift (ok_or AInvalidKey
    (aead_decrypt wrapping_key (ph_wrap_nonce header) header_prefix (arr (ph_wrapped_dek header)))) in
  do! archive_dek := prog_lift (ok_or AInvalidKey (try_array 32 dek)) in
  prog_ret (header, archive_dek, header_len).

(** The encrypted part of an archive, up to its final manifest. *)
Definition read_body (total_archive_bytes : Z) (key : ArchiveKey)
  : Reading C (PublicHeader * ArchiveMetadata * Transfer * FinalManifest) :=
  do! (header, archive_dek, header_len) := read_header total_archive_bytes key in
  do! (kind, manifest_bytes, frame_size) :=
    read_frame archive_dek (ph_archive_id header) 0 (ph_chunk_bytes header) in
  do! _ := prog_reject (negb (kind =? 1) || (MAX_MANIFEST_BYTES <? zlen manifest_bytes)) AIntegrity in
  do! consumed_bytes := prog_lift (add_bounded header_len frame_size) in
  do! metadata := prog_lift (ok_or AIntegrity (metadata_from_json manifest_bytes)) in
  do! decoded := decode_data archive_dek (ph_archive_id header) (ph_chunk_bytes header)
                   (transfer_start consumed_bytes (ph_record_limit header)) in
  do! (t, final_manifest) := prog_lift (ok_or AUnavailable decoded) in
  prog_ret (header, metadata, t, final_manifest).

(** [decode_archive] *)
Definition decode_archive (total_archive_bytes : Z) (key : ArchiveKey) : Reading C VerifiedArchive :=
  do! (header, metadata, t, final_manifest) := read_body total_archive_bytes key in
  do! _ := prog_reject (negb (tr_bytes t =? total_archive_bytes)) AIntegrity in
  do! extra := from_source (io_read 1) in
  do! _ := prog_reject (negb (Nat.eqb (length extra) 0)) AIntegrity in
  do! record_count := prog_lift (counter_finish (tr_counter t)) in
  let logical_digest := sha256 (tr_stream t) in
  do! _ := prog_reject (negb (fm_record_count final_manifest =? record_count)
                        || negb (fm_logical_bytes final_manifest =? tr_logical_bytes t)
                        || negb (bool_decide (fm_logical_digest final_manifest = logical_digest))
                        || negb (fm_data_frames final_manifest =? tr_data_frames t)) AIntegrity in
  prog_ret {| va_header := header; va_metadata := metadata; va_record_count := record_count;
              va_logical_bytes := tr_logical_bytes t; va_logical_digest := logical_digest |}.
End Decode.

(** [verify_archive] *)
Definition verify_archive (total_archive_bytes : Z) (key : ArchiveKey) : Prog Reader ArchiveError VerifiedArchive :=
  fun r => let (a, s) := decode_archive (fun _ => prog_ret tt) total_archive_bytes key (r, tt) in (a, s.1).
End Keys.
