(* ===== verification/ArchiveProps.v ===== *)
(** The archive format: what the record counter and the header parser accept,
    that an archive reads back as it was written, and that one is accepted only
    whole. *)
From Stdlib Require Import ZArith Lia Strings.Byte String.
From stdpp Require Import base tactics numbers option strings list.
From S2P Require Import Prelude RustStd Core Crypto Archive.

Lemma be_encode_decode_at n (l : blob) : length l = n -> be_encode n (be_decode l) = l.
Proof. intros <-. apply be_encode_decode. Qed.

(** * The record counter *)

(** The stream the counter is for: records with a kind, flags and a payload. *)
Record LogicalRecord : Type := {
  lr_kind : Z;
  lr_flags : Z;
  lr_payload : blob }.
Definition encode_record (r : LogicalRecord) : blob :=
  u16_be (lr_kind r) ++ u16_be (lr_flags r) ++ u32_be (zlen (lr_payload r)) ++ lr_payload r.
Definition record_ok (r : LogicalRecord) : Prop :=
  in_u16 (lr_kind r) /\ 0 <= lr_flags r <= 1 /\ zlen (lr_payload r) <= MAX_LOGICAL_RECORD_BYTES.
Definition encode_records (rs : list LogicalRecord) : blob := concat (map encode_record rs).

(** A stream fed in chunks. *)
Fixpoint count_chunks (c : RecordCounter) (chunks : list blob) : result ArchiveError Z :=
  match chunks with
  | [] => counter_finish c
  | chunk :: chunks => let? c := counter_update c chunk in count_chunks c chunks
  end.

Definition counter_wf (c : RecordCounter) : Prop :=
  length (ct_header c) = 8%nat /\ (ct_header_used c < 8)%nat
  /\ (0 < ct_remaining_payload c -> ct_header_used c = O).

Lemma start_record_wf c c' : length (ct_header c) = 8%nat -> start_record c = Ok c' -> counter_wf c'.
Proof.
  unfold start_record. intros Hl H. case_match; [done|]. minv. case_match; [done|]. simplify_eq.
  by repeat split; simpl; try lia.
Qed.

Lemma counter_turn_Ok c bytes c' n :
  counter_wf c -> bytes <> [] -> counter_turn c bytes = Ok (c', n) ->
  counter_wf c' /\ (1 <= n <= length bytes)%nat.
Proof.
  intros (Hl & Hu & Hr) Hb. assert (1 <= length bytes)%nat by (destruct bytes; simpl; [done|lia]).
  unfold counter_turn. destruct (Z.ltb_spec 0 (ct_remaining_payload c)).
  - intros [= <- <-]. split; [|lia]. split; [done|]. simpl. split; [lia|]. intros; by apply Hr.
  - intros E. minv. split; [|lia].
    assert (length (take (ct_header_used c) (ct_header c) ++ take ((8 - ct_header_used c) `min` length bytes) bytes
      ++ drop (ct_header_used c + (8 - ct_header_used c) `min` length bytes) (ct_header c)) = 8%nat).
    { rewrite !length_app, !length_take, length_drop. lia. }
    case_match eqn:E8; [eapply start_record_wf; [|eassumption]; done|].
    simplify_eq. apply Nat.eqb_neq in E8. simpl in E8. split; [done|]. simpl. split; [lia|]. lia.
Qed.

Lemma counter_loop_fuel f c bytes :
  counter_wf c -> (length bytes <= f)%nat -> counter_loop f c bytes = counter_update c bytes.
Proof.
  unfold counter_update. remember (length bytes) as n eqn:E. assert (length bytes <= n)%nat as Hn by lia. clear E.
  revert f c bytes Hn. induction n as [|n IH]; intros f c bytes Hn Hwf Hf.
  - destruct bytes; [|simpl in Hn; lia]. by destruct f.
  - destruct bytes as [|x s]; [by destruct f|]. destruct f as [|f]; [simpl in *; lia|].
    cbn [counter_loop]. destruct (counter_turn c (x :: s)) as [[c' k]|] eqn:T; [|done].
    cbn [result_bind]. destruct (counter_turn_Ok _ _ _ _ Hwf (not_eq_sym (@nil_cons _ x s)) T) as [Hwf' Hk].
    assert (length (drop k (x :: s)) <= n)%nat by (rewrite length_drop; simpl in *; lia).
    apply IH; [done..|]. lia.
Qed.

Lemma counter_update_step c bytes :
  counter_wf c -> bytes <> [] ->
  counter_update c bytes = let? (c', n) := counter_turn c bytes in counter_update c' (drop n bytes).
Proof.
  intros Hwf Hb. unfold counter_update at 1. destruct bytes as [|x s]; [done|]. cbn [length counter_loop].
  destruct (counter_turn c (x :: s)) as [[c' k]|] eqn:T; [|done]. cbn [result_bind].
  destruct (counter_turn_Ok _ _ _ _ Hwf (not_eq_sym (@nil_cons _ x s)) T) as [Hwf' Hk].
  apply counter_loop_fuel; [done|]. rewrite length_drop. simpl in *. lia.
Qed.

Lemma counter_update_wf c bytes c' : counter_wf c -> counter_update c bytes = Ok c' -> counter_wf c'.
Proof.
  remember (length bytes) as n eqn:E. assert (length bytes <= n)%nat as Hn by lia. clear E.
  revert c bytes Hn. induction n as [|n IH]; intros c bytes Hn Hwf H.
  - destruct bytes; [by injection H as <-|simpl in Hn; lia].
  - destruct (decide (bytes = [])) as [->|Hb]; [by injection H as <-|].
    rewrite counter_update_step in H by done. minv.
    destruct x as [c1 k]. destruct (counter_turn_Ok _ _ _ _ Hwf Hb H) as [Hwf' Hk].
    eapply IH; [|done..]. rewrite length_drop. lia.
Qed.

Lemma counter_update_nil c : counter_update c [] = Ok c.
Proof. done. Qed.

(** Writing one byte and then others is writing them all. *)
Lemma overwrite_twice (h s : blob) (u k : nat) (x : byte) :
  (u < length h)%nat ->
  take (u + 1) (take u h ++ [x] ++ drop (u + 1) h) ++ take k s ++ drop (u + 1 + k) (take u h ++ [x] ++ drop (u + 1) h)
  = take u h ++ take (S k) (x :: s) ++ drop (u + 1 + k) h.
Proof.
  intros Hu. rewrite (app_assoc (take u h) [x]).
  assert (length (take u h ++ [x]) = (u + 1)%nat) as Hl by (rewrite length_app, length_take; simpl; lia).
  rewrite take_app_length' by done. rewrite drop_app_add' by done. rewrite drop_drop, <- app_assoc. done.
Qed.

(** A turn over many bytes does what turns over the first byte and the rest do. *)
Lemma counter_update_cons c x s :
  counter_wf c -> counter_update c (x :: s) = let? c' := counter_update c [x] in counter_update c' s.
Proof.
  intros Hwf. rewrite (counter_update_step c (x :: s)), (counter_update_step c [x]) by done.
  pose proof Hwf as (Hl & Hu & Hr).
  destruct s as [|y s].
  { destruct (counter_turn c [x]) as [[c' n]|] eqn:T; [|done]. cbn [result_bind].
    destruct (counter_turn_Ok _ _ _ _ Hwf (not_eq_sym (@nil_cons _ x [])) T) as [_ Hn]. simpl in Hn.
    replace n with 1%nat by lia. done. }
  unfold counter_turn. destruct (Z.ltb_spec 0 (ct_remaining_payload c)) as [Hp|Hp].
  - replace (length [x] `min` Z.to_nat (ct_remaining_payload c))%nat with 1%nat by (cbn [length]; lia).
    cbn [result_bind drop]. destruct (decide (ct_remaining_payload c = 1)) as [E|E].
    { rewrite E. done. }
    rewrite counter_update_nil. cbn [result_bind]. rewrite (counter_update_step _ (y :: s)) by (done || split_and!; simpl; auto).
    unfold counter_turn. cbn [ct_remaining_payload ct_header ct_header_used ct_records ct_limit].
    destruct (Z.ltb_spec 0 (ct_remaining_payload c - Z.of_nat 1)); [|lia].
    replace (length (x :: y :: s) `min` Z.to_nat (ct_remaining_payload c))%nat
      with (S (length (y :: s) `min` Z.to_nat (ct_remaining_payload c - Z.of_nat 1))) by (cbn [length]; lia).
    cbn [result_bind drop]. f_equal. f_equal. lia.
  - destruct (decide (ct_header_used c = 7%nat)) as [E|E].
    { rewrite E. cbn [Nat.sub Nat.min length Nat.add take drop app Nat.eqb ct_header_used].
      by destruct (start_record _). }
    replace ((8 - ct_header_used c) `min` length [x])%nat with 1%nat by (cbn [length]; lia).
    cbn [ct_header ct_header_used].
    destruct (Nat.eqb_spec (ct_header_used c + 1) 8); [lia|]. cbn [result_bind drop].
    assert (length (take (ct_header_used c) (ct_header c)) = ct_header_used c) as Ht by (rewrite length_take; lia).
    rewrite counter_update_nil. cbn [result_bind]. rewrite (counter_update_step _ (y :: s)).
    2: { split_and!; cbn [ct_header ct_header_used ct_remaining_payload]; [|lia..].
         rewrite !length_app, Ht, length_drop. cbn [take length]. lia. }
    2: done.
    unfold counter_turn. cbn [ct_remaining_payload ct_header ct_header_used ct_records ct_limit].
    destruct (Z.ltb_spec 0 (ct_remaining_payload c)); [lia|].
    set (k := ((8 - (ct_header_used c + 1)) `min` length (y :: s))%nat).
    replace ((8 - ct_header_used c) `min` length (x :: y :: s))%nat with (S k) by (subst k; cbn [length]; lia).
    change (take 1 [x]) with [x].
    rewrite overwrite_twice by lia. replace (ct_header_used c + S k)%nat with (ct_header_used c + 1 + k)%nat by lia.
    case_match; [|done]. by destruct (start_record _).
Qed.

Lemma counter_update_app c a b :
  counter_wf c -> counter_update c (a ++ b) = let? c' := counter_update c a in counter_update c' b.
Proof.
  revert c. induction a as [|x a IH]; intros c Hwf; [done|].
  rewrite <- app_comm_cons, counter_update_cons, (counter_update_cons c x a) by done.
  destruct (counter_update c [x]) as [c'|] eqn:E; [|done]. apply IH. by eapply counter_update_wf.
Qed.

Lemma count_chunks_concat c chunks :
  counter_wf c -> count_chunks c chunks = let? c' := counter_update c (concat chunks) in counter_finish c'.
Proof.
  revert c. induction chunks as [|a chunks IH]; intros c Hwf; [done|].
  cbn [count_chunks concat]. rewrite counter_update_app by done.
  destruct (counter_update c a) as [c'|] eqn:E; [|done]. apply IH. by eapply counter_update_wf.
Qed.

(** ** Whole records *)

Definition between_records (c : RecordCounter) : Prop :=
  length (ct_header c) = 8%nat /\ ct_header_used c = O /\ ct_remaining_payload c = 0.

Lemma flags_bounded z : in_u16 z -> Z.land z 65534 = 0 <-> 0 <= z <= 1.
Proof.
  intros [Hl Hh]. unfold u16_max in Hh. split.
  - intros E. assert (z < 2 \/ 2 <= z) as [|Hz] by lia; [lia|]. exfalso.
    assert (z = Z.land z 65535) as Ez by (change 65535 with (Z.ones 16); rewrite Z.land_ones by lia; rewrite Z.mod_small; lia).
    assert (Z.land z 65535 = Z.lor (Z.land z 65534) (Z.land z 1)) as Es by (rewrite <- Z.land_lor_distr_r; done).
    rewrite E in Es. simpl in Es. change 1 with (Z.ones 1) in Es. rewrite (Z.land_ones z 1) in Es by lia.
    rewrite Z.lor_0_l in Es. pose proof (Z.mod_pos_bound z (2 ^ 1) ltac:(lia)). lia.
  - intros H. assert (z = 0 \/ z = 1) as [-> | ->] by lia; done.
Qed.

(** The first turn at a boundary takes a header. *)
Lemma counter_take_header c (header s : blob) :
  between_records c -> length header = 8%nat ->
  counter_update c (header ++ s)
  = let? c' := start_record {| ct_header := header; ct_header_used := 8; ct_remaining_payload := 0;
                               ct_records := ct_records c; ct_limit := ct_limit c |} in
    counter_update c' s.
Proof.
  intros (Hl & Hu & Hr) Hh. assert (counter_wf c) as Hwf by (split_and!; lia).
  rewrite counter_update_step; [|done|destruct header; done].
  unfold counter_turn. rewrite Hr, Hu. change (0 <? 0) with false. cbv iota.
  replace ((8 - 0) `min` length (header ++ s))%nat with 8%nat by (rewrite length_app; lia).
  rewrite take_app_length' by done. cbn [take app Nat.add ct_header_used Nat.eqb].
  rewrite drop_ge by lia. rewrite app_nil_r.
  destruct (start_record _); [|done]. cbn [result_bind]. by rewrite drop_app_length'.
Qed.

(** After the header the payload passes. *)
Lemma counter_take_payload c (payload s : blob) :
  length (ct_header c) = 8%nat -> ct_header_used c = O -> ct_remaining_payload c = zlen payload ->
  exists c', counter_update c (payload ++ s) = counter_update c' s /\ between_records c'
    /\ ct_records c' = ct_records c /\ ct_limit c' = ct_limit c.
Proof.
  intros Hl Hu Hr. destruct (decide (payload = [])) as [->|Hp].
  { exists c. by repeat split. }
  assert (1 <= length payload)%nat by (destruct payload; simpl; [done|lia]).
  eexists. rewrite counter_update_step; [|split_and!; lia|destruct payload; done].
  unfold counter_turn, zlen in *. rewrite Hr. destruct (Z.ltb_spec 0 (Z.of_nat (length payload))); [|lia].
  cbn [result_bind]. rewrite Nat2Z.id.
  replace (length (payload ++ s) `min` length payload)%nat with (length payload) by (rewrite length_app; lia).
  rewrite drop_app_length. split; [reflexivity|]. repeat split; simpl; [done|done|lia].
Qed.

(** A payload that is cut off is noticed at the end. *)
Lemma counter_short_payload c s n :
  length (ct_header c) = 8%nat -> ct_header_used c = O -> zlen s < ct_remaining_payload c ->
  (let? c' := counter_update c s in counter_finish c') <> Ok n.
Proof.
  intros Hl Hu Hr. unfold zlen in Hr. destruct (decide (s = [])) as [->|Hs].
  { rewrite counter_update_nil. unfold counter_finish. simpl in *. rewrite Hu.
    destruct (Z.eqb_spec (ct_remaining_payload c) 0); [lia|done]. }
  rewrite counter_update_step; [|split_and!; lia|done].
  unfold counter_turn. destruct (Z.ltb_spec 0 (ct_remaining_payload c)); [|lia]. cbn [result_bind].
  replace (length s `min` Z.to_nat (ct_remaining_payload c))%nat with (length s) by lia.
  rewrite drop_all, counter_update_nil. unfold counter_finish. simpl. rewrite Hu.
  destruct (Z.eqb_spec (ct_remaining_payload c - Z.of_nat (length s)) 0); [lia|done].
Qed.

Definition record_header (r : LogicalRecord) : blob :=
  u16_be (lr_kind r) ++ u16_be (lr_flags r) ++ u32_be (zlen (lr_payload r)).

Lemma length_record_header r : length (record_header r) = 8%nat.
Proof. unfold record_header. by rewrite !length_app, !length_u16_be, length_u32_be. Qed.

Lemma encode_records_cons r rs :
  encode_records (r :: rs) = record_header r ++ lr_payload r ++ encode_records rs.
Proof. unfold encode_records, encode_record, record_header. cbn [map concat]. by rewrite <- !app_assoc. Qed.

Lemma record_header_fields r :
  record_ok r -> header_flags (record_header r) = lr_flags r
    /\ header_length (record_header r) = zlen (lr_payload r).
Proof.
  intros (Hk & Hf & Hp). unfold record_header, header_flags, header_length, MAX_LOGICAL_RECORD_BYTES in *.
  pose proof (zlen_nonneg (lr_payload r)).
  rewrite drop_app_length' by (by rewrite length_u16_be). rewrite take_app_length' by (by rewrite length_u16_be).
  split; [apply be_decode_encode; lia|].
  rewrite app_assoc, drop_app_length' by (by rewrite length_app, !length_u16_be).
  rewrite take_ge by (by rewrite length_u32_be). apply be_decode_encode. lia.
Qed.

(** Eight bytes that start a record are the header of one. *)
Lemma record_of_header header payload :
  length header = 8%nat -> Z.land (header_flags header) 65534 = 0 ->
  header_length header = zlen payload -> zlen payload <= MAX_LOGICAL_RECORD_BYTES ->
  exists r, record_ok r /\ record_header r = header /\ lr_payload r = payload.
Proof.
  intros Hl Hf Hn Hp.
  exists {| lr_kind := be_decode (take 2 header); lr_flags := header_flags header; lr_payload := payload |}.
  assert (length (take 2 header) = 2%nat) as L1 by (rewrite length_take; lia).
  assert (length (take 2 (drop 2 header)) = 2%nat) as L2 by (rewrite length_take, length_drop; lia).
  assert (length (take 4 (drop 4 header)) = 4%nat) as L3 by (rewrite length_take, length_drop; lia).
  pose proof (be_decode_range (take 2 header)) as R1. pose proof (be_decode_range (take 2 (drop 2 header))) as R2.
  unfold zlen in R1, R2. rewrite L1 in R1. rewrite L2 in R2. simpl in R1, R2.
  split_and!; [| |done].
  - assert (0 <= header_flags header <= 1).
    { apply flags_bounded; [unfold in_u16, u16_max, header_flags; lia|done]. }
    split; [simpl; unfold in_u16, u16_max; lia|]. by simpl.
  - unfold record_header. cbn [lr_kind lr_flags lr_payload]. rewrite <- Hn. unfold header_flags, header_length, u16_be, u32_be.
    rewrite !be_encode_decode_at by done.
    rewrite (take_ge (drop 4 header)) by (rewrite length_drop; lia).
    change (drop 4 header) with (drop (2 + 2) header). rewrite <- drop_drop.
    by rewrite take_drop, take_drop.
Qed.

Lemma start_record_Ok header records limit c :
  start_record {| ct_header := header; ct_header_used := 8; ct_remaining_payload := 0;
                  ct_records := records; ct_limit := limit |} = Ok c
  <-> (Z.land (header_flags header) 65534 = 0 /\ header_length header <= MAX_LOGICAL_RECORD_BYTES
       /\ records + 1 <= u64_max /\ records + 1 <= limit)
      /\ c = {| ct_header := header; ct_header_used := 0; ct_remaining_payload := header_length header;
                ct_records := records + 1; ct_limit := limit |}.
Proof.
  unfold start_record, checked_add. simpl.
  destruct (Z.eqb_spec (Z.land (header_flags header) 65534) 0); [|naive_solver]. simpl.
  destruct (Z.ltb_spec MAX_LOGICAL_RECORD_BYTES (header_length header)); [naive_solver lia|].
  destruct (Z.leb_spec (records + 1) u64_max); [|naive_solver lia]. simpl.
  destruct (Z.ltb_spec limit (records + 1)); naive_solver lia.
Qed.

(** A whole record is counted. *)
Lemma counter_passes_record c r t :
  record_ok r -> between_records c -> ct_records c + 1 <= ct_limit c <= u64_max ->
  exists c', counter_update c (record_header r ++ lr_payload r ++ t) = counter_update c' t
    /\ between_records c' /\ ct_records c' = ct_records c + 1 /\ ct_limit c' = ct_limit c.
Proof.
  intros Hok Hc Hlim. destruct (record_header_fields r Hok) as [Ff Fl].
  rewrite counter_take_header by (done || apply length_record_header).
  edestruct (start_record_Ok (record_header r) (ct_records c) (ct_limit c)) as [_ E1]. rewrite E1.
  2: { split; [|reflexivity]. rewrite Ff, Fl. destruct Hok as (_ & Hf & Hp). split_and!; [|done|lia..].
    apply flags_bounded; [|done]. unfold in_u16, u16_max. lia. }
  cbn [result_bind].
  match goal with |- context [counter_update ?c1 _] => apply (counter_take_payload c1) end;
    [apply length_record_header|done..].
Qed.

(** A stream that is accepted starts with a whole record. *)
Lemma counter_accepts_record c s n :
  between_records c -> (8 <= length s)%nat -> (let? c' := counter_update c s in counter_finish c') = Ok n ->
  exists r t, record_ok r /\ s = record_header r ++ lr_payload r ++ t /\ ct_records c + 1 <= ct_limit c.
Proof.
  intros Hc Hs. rewrite <- (take_drop 8 s).
  assert (length (take 8 s) = 8%nat) as H8 by (rewrite length_take; lia).
  set (header := take 8 s) in *. set (t := drop 8 s) in *. rewrite counter_take_header by done.
  destruct (start_record _) as [c1|] eqn:E1; [|done]. cbn [result_bind].
  apply start_record_Ok in E1 as [(Hf & Hn & _ & Hk) Ec].
  set (len := Z.to_nat (header_length header)). pose proof (be_decode_range (take 4 (drop 4 header))) as [Hge _].
  destruct (decide (length t < len)%nat) as [Hlt|Hge'].
  { intros H. exfalso. revert H. apply counter_short_payload; rewrite Ec; simpl; [done..|].
    unfold zlen, header_length in *. lia. }
  intros _. destruct (record_of_header header (take len t)) as (r & Hok & Eh & Ep).
  1-4: try done; unfold zlen; rewrite ?length_take; unfold header_length in *; lia.
  exists r, (drop len t). by rewrite Eh, Ep, take_drop.
Qed.

(** Bytes too few for a header are noticed at the end. *)
Lemma counter_short_header c s n :
  between_records c -> (0 < length s < 8)%nat -> (let? c' := counter_update c s in counter_finish c') <> Ok n.
Proof.
  intros (Hl & Hu & Hr) Hs. rewrite counter_update_step; [|split_and!; lia|by destruct s; simpl in *; [lia|]].
  unfold counter_turn. rewrite Hu, Hr. change (0 <? 0) with false. cbv iota. cbn [ct_header_used].
  replace ((8 - 0) `min` length s)%nat with (length s) by lia.
  destruct (Nat.eqb_spec (0 + length s) 8); [lia|]. cbn [result_bind].
  rewrite drop_all, counter_update_nil. unfold counter_finish. simpl. destruct (length s); [lia|done].
Qed.

Lemma count_records_exact c s n :
  between_records c -> 0 <= ct_records c -> ct_limit c <= u64_max ->
  (let? c' := counter_update c s in counter_finish c') = Ok n
  <-> exists rs, s = encode_records rs /\ Forall record_ok rs /\ n = ct_records c + zlen rs
        /\ (rs = [] \/ n <= ct_limit c).
Proof.
  remember (length s) as m eqn:E. assert (length s <= m)%nat as Hm by lia. clear E.
  revert c s Hm. induction m as [m IH] using lt_wf_ind; intros c s Hm Hc Hpos Hlim.
  assert (forall r t, s = record_header r ++ lr_payload r ++ t -> (length t < m)%nat) as Hshort.
  { intros r t ->. rewrite !length_app, length_record_header in Hm. lia. }
  unfold zlen in *. split.
  - intros H. destruct (decide (s = [])) as [->|Hne].
    { destruct Hc as (_ & Hu & Hr). unfold counter_update, counter_finish in H. simpl in H. rewrite Hu, Hr in H.
      simpl in H. injection H as <-. exists []. split_and!; [done..|simpl; lia|by left]. }
    destruct (decide (length s < 8)%nat) as [Hs|Hs].
    { exfalso. eapply counter_short_header; [done| |done]. destruct s; simpl in *; [done|lia]. }
    destruct (counter_accepts_record c s n Hc ltac:(lia) H) as (r & t & Hok & Es & Hk). specialize (Hshort _ _ Es).
    destruct (counter_passes_record c r t Hok Hc ltac:(lia)) as (c2 & Eu & Hb & Hr2 & Hl2).
    rewrite Es, Eu in H. apply (IH (length t)) in H as (rs & -> & HF & -> & Hlast); [|lia..|done|lia|lia].
    exists (r :: rs). split_and!; [by rewrite encode_records_cons|by constructor|simpl; lia|right].
    destruct Hlast as [->|]; simpl in *; lia.
  - intros ([|r rs] & Es & HF & En & Hlast).
    { destruct Hc as (_ & Hu & Hr). rewrite Es. unfold counter_update, counter_finish. simpl. rewrite Hu, Hr.
      simpl in *. f_equal. lia. }
    rewrite encode_records_cons in Es. apply Forall_cons in HF as [Hok HF'].
    specialize (Hshort _ _ Es). destruct Hlast as [|Hlast]; [done|]. simpl in En.
    destruct (counter_passes_record c r (encode_records rs) Hok Hc ltac:(lia)) as (c2 & Eu & Hb & Hr2 & Hl2).
    rewrite Es, Eu. apply (IH (length (encode_records rs))); [lia..|done|lia|lia|].
    exists rs. split_and!; [done..|lia|right; lia].
Qed.

(** C32. The record counter of the archive accepts, however the stream is cut
    into chunks, exactly the concatenations of well-formed records (flags 0 or
    1, a payload of at most 32 MiB of the announced length) within the limit,
    and it counts them. *)
Theorem record_counter_exact (limit : Z) (chunks : list blob) (n : Z) (Hlimit : in_u64 limit) :
  count_chunks (counter_new limit) chunks = Ok n
  <-> exists rs, concat chunks = encode_records rs /\ Forall record_ok rs /\ n = zlen rs /\ n <= limit.
Proof.
  destruct Hlimit as [Hlo Hhi].
  rewrite count_chunks_concat by (by split_and!; simpl; lia).
  rewrite count_records_exact by (by simpl). simpl. split; intros (rs & ? & ? & ? & H); exists rs.
  - split_and!; [done..|lia|]. destruct H as [->|]; [unfold zlen in *; simpl in *; lia|lia].
  - split_and!; [done..|lia|]. by right.
Qed.

(** * The public header *)

(** What the parser accepts beyond the widths of the fields. *)
Definition parameters_ok (p : Argon2Parameters) : Prop :=
  MIN_ARGON2_MEMORY_KIB <= ap_memory_kib p <= MAX_ARGON2_MEMORY_KIB
  /\ 1 <= ap_iterations p <= MAX_ARGON2_ITERATIONS /\ 1 <= ap_lanes p <= MAX_ARGON2_LANES.
Definition header_ok (h : PublicHeader) : Prop :=
  MIN_CHUNK_BYTES <= ph_chunk_bytes h <= MAX_CHUNK_BYTES /\ 1 <= ph_record_limit h <= MAX_RECORDS
  /\ match ph_key_mode h with
     | PassphraseArgon2id =>
         16 <= zlen (ph_salt h) <= MAX_SALT_BYTES /\ exists p, ph_argon2 h = Some p /\ parameters_ok p
     | ModeRecoveryKey => ph_salt h = [] /\ ph_argon2 h = None
     end.

(** The fixed part of a header. *)
Record HeaderFields : Type := {
  f_magic : array 8; f_version : array 2; f_suite : array 2; f_mode : array 1; f_reserved : array 1;
  f_header_len : array 2; f_archive_id : array 16; f_salt_len : array 1; f_memory : array 4;
  f_iterations : array 4; f_lanes : array 1; f_chunk : array 4; f_limit : array 8 }.
Definition header_bytes (f : HeaderFields) (tail : blob) : blob :=
  arr (f_magic f) ++ arr (f_version f) ++ arr (f_suite f) ++ arr (f_mode f) ++ arr (f_reserved f)
  ++ arr (f_header_len f) ++ arr (f_archive_id f) ++ arr (f_salt_len f) ++ arr (f_memory f)
  ++ arr (f_iterations f) ++ arr (f_lanes f) ++ arr (f_chunk f) ++ arr (f_limit f) ++ tail.

Lemma length_header_bytes f tail : length (header_bytes f tail) = (54 + length tail)%nat.
Proof. unfold header_bytes. rewrite !length_app, !array_length. lia. Qed.

Lemma split_array n (l : blob) :
  (n <= length l)%nat -> exists (a : array n) (rest : blob), l = arr a ++ rest /\ length rest = (length l - n)%nat.
Proof.
  intros H. destruct (try_array n (take n l)) as [a|] eqn:E.
  - apply try_array_Some in E. exists a, (drop n l). by rewrite E, take_drop, length_drop.
  - apply try_array_None in E. rewrite length_take in E. lia.
Qed.

Lemma header_bytes_split (l : blob) : (54 <= length l)%nat -> exists f tail, l = header_bytes f tail.
Proof.
  intros H.
  destruct (split_array 8 l) as (a1 & l1 & -> & H1); [lia|].
  destruct (split_array 2 l1) as (a2 & l2 & -> & H2); [lia|].
  destruct (split_array 2 l2) as (a3 & l3 & -> & H3); [lia|].
  destruct (split_array 1 l3) as (a4 & l4 & -> & H4); [lia|].
  destruct (split_array 1 l4) as (a5 & l5 & -> & H5); [lia|].
  destruct (split_array 2 l5) as (a6 & l6 & -> & H6); [lia|].
  destruct (split_array 16 l6) as (a7 & l7 & -> & H7); [lia|].
  destruct (split_array 1 l7) as (a8 & l8 & -> & H8); [lia|].
  destruct (split_array 4 l8) as (a9 & l9 & -> & H9); [lia|].
  destruct (split_array 4 l9) as (a10 & l10 & -> & H10); [lia|].
  destruct (split_array 1 l10) as (a11 & l11 & -> & H11); [lia|].
  destruct (split_array 4 l11) as (a12 & l12 & -> & H12); [lia|].
  destruct (split_array 8 l12) as (a13 & l13 & -> & H13); [lia|].
  by exists (Build_HeaderFields a1 a2 a3 a4 a5 a6 a7 a8 a9 a10 a11 a12 a13), l13.
Qed.

Lemma slice_skip {k} (a : array k) (b : blob) off n :
  (k <= off)%nat -> slice (arr a ++ b) off n = slice b (off - k) n.
Proof. intros. rewrite slice_app_r by (by rewrite array_length). by rewrite array_length. Qed.
Lemma slice_here {n} (a : array n) (b : blob) : slice (arr a ++ b) 0 n = Some (arr a).
Proof. apply slice_app_l, array_length. Qed.
Lemma drop_skip {k} (a : array k) (b : blob) off : (k <= off)%nat -> drop off (arr a ++ b) = drop (off - k) b.
Proof. intros. rewrite drop_app_ge by (by rewrite array_length). by rewrite array_length. Qed.
Lemma take_here {n} (a : array n) (b : blob) : take n (arr a ++ b) = arr a.
Proof. by rewrite take_app_length' by (by rewrite array_length). Qed.
Lemma byte_at_skip {k} (a : array k) (b : blob) i : (k <= i)%nat -> byte_at (arr a ++ b) i = byte_at b (i - k).
Proof. intros. unfold byte_at. rewrite lookup_app_r by (by rewrite array_length). by rewrite array_length. Qed.
Lemma byte_at_here (a : array 1) (b : blob) : byte_at (arr a ++ b) 0 = be_decode (arr a).
Proof. pose proof (array_length a). destruct (arr a) as [|x [|]]; [done| |done]. done. Qed.

(** Reads a field of [header_bytes]. *)
Ltac header_field :=
  unfold header_bytes;
  repeat (first [rewrite slice_skip by lia | rewrite drop_skip by lia | rewrite byte_at_skip by lia]; cbn [Nat.sub]);
  rewrite ?drop_0; first [apply slice_here | apply take_here | apply byte_at_here | done].

Section Fields.
Context (f : HeaderFields) (tail : blob).
#[local] Abbreviation b := (header_bytes f tail).
Lemma field_magic : take 8 b = arr (f_magic f). Proof. apply take_here. Qed.
Lemma field_version : slice b 8 2 = Some (arr (f_version f)). Proof. header_field. Qed.
Lemma field_suite : slice b 10 2 = Some (arr (f_suite f)). Proof. header_field. Qed.
Lemma field_mode : byte_at b 12 = be_decode (arr (f_mode f)). Proof. header_field. Qed.
Lemma field_reserved : byte_at b 13 = be_decode (arr (f_reserved f)). Proof. header_field. Qed.
Lemma field_header_len : slice b 14 2 = Some (arr (f_header_len f)). Proof. header_field. Qed.
Lemma field_archive_id : take 16 (drop 16 b) = arr (f_archive_id f). Proof. header_field. Qed.
Lemma field_salt_len : byte_at b 32 = be_decode (arr (f_salt_len f)). Proof. header_field. Qed.
Lemma field_memory : slice b 33 4 = Some (arr (f_memory f)). Proof. header_field. Qed.
Lemma field_iterations : slice b 37 4 = Some (arr (f_iterations f)). Proof. header_field. Qed.
Lemma field_lanes : byte_at b 41 = be_decode (arr (f_lanes f)). Proof. header_field. Qed.
Lemma field_chunk : slice b 42 4 = Some (arr (f_chunk f)). Proof. header_field. Qed.
Lemma field_limit : slice b 46 8 = Some (arr (f_limit f)). Proof. header_field. Qed.
Lemma field_tail n : drop (54 + n) b = drop n tail.
Proof. rewrite <- drop_drop. f_equal. header_field. Qed.
End Fields.
Create Rewrite HintDb smcv_header.
#[export] Hint Rewrite field_version field_suite field_mode field_reserved field_header_len field_archive_id
  field_salt_len field_memory field_iterations field_lanes field_chunk field_limit : smcv_header.

(** The fields of a header that is encoded. *)
Definition fields_of (h : PublicHeader) (f : HeaderFields) : Prop :=
  let p := default {| ap_memory_kib := 0; ap_iterations := 0; ap_lanes := 0 |} (ph_argon2 h) in
  arr (f_magic f) = MAGIC /\ be_decode (arr (f_version f)) = FORMAT_VERSION
  /\ be_decode (arr (f_suite f)) = ALGORITHM_SUITE /\ be_decode (arr (f_mode f)) = key_mode_code (ph_key_mode h)
  /\ be_decode (arr (f_reserved f)) = 0 /\ be_decode (arr (f_header_len f)) = MIN_HEADER_BYTES + zlen (ph_salt h)
  /\ f_archive_id f = ph_archive_id h /\ be_decode (arr (f_salt_len f)) = zlen (ph_salt h)
  /\ be_decode (arr (f_memory f)) = ap_memory_kib p /\ be_decode (arr (f_iterations f)) = ap_iterations p
  /\ be_decode (arr (f_lanes f)) = ap_lanes p /\ be_decode (arr (f_chunk f)) = ph_chunk_bytes h
  /\ be_decode (arr (f_limit f)) = ph_record_limit h.

Lemma within_true lo hi z : within lo hi z = true <-> lo <= z <= hi.
Proof. unfold within. rewrite andb_true_iff, !Z.leb_le. done. Qed.

Lemma key_mode_of_Ok code m : key_mode_of code = Ok m <-> code = key_mode_code m.
Proof.
  unfold key_mode_of. destruct (Z.eqb_spec code 1), (Z.eqb_spec code 2), m; simpl; split; intros; simplify_eq; lia || done.
Qed.

Lemma key_parameters_Ok mode bytes n memory iterations lanes salt argon2 :
  key_parameters mode bytes n memory iterations lanes = Ok (salt, argon2)
  <-> match mode with
      | PassphraseArgon2id => 16 <= Z.of_nat n <= MAX_SALT_BYTES /\ salt = take n (drop 54 bytes)
          /\ let p := {| ap_memory_kib := memory; ap_iterations := iterations; ap_lanes := lanes |} in
             argon2 = Some p /\ parameters_ok p
      | ModeRecoveryKey => (n = 0%nat /\ memory = 0 /\ iterations = 0 /\ lanes = 0) /\ salt = [] /\ argon2 = None
      end.
Proof.
  unfold key_parameters, parameters_ok, FIXED_HEADER_BYTES. destruct mode.
  - match goal with |- context [if ?c then _ else _] => destruct c eqn:E end.
    + split; [done|]. intros (Hn & _ & _ & Hm & Hi & Hl). simpl in *. exfalso. revert E.
      by rewrite !(proj2 (within_true _ _ _)).
    + bprop. rewrite !within_true in E. simpl. split.
      * intros [= <- <-]. tauto.
      * by intros (_ & -> & -> & _).
  - match goal with |- context [if ?c then _ else _] => destruct c eqn:E end.
    + split; [done|]. by intros ((-> & -> & -> & ->) & _).
    + bprop. destruct E as [[[E1 E2] E3] E4]. apply Nat.eqb_eq in E1. split; [|by intros (_ & -> & ->)].
      intros [= <- <-]. auto.
Qed.

Lemma parse_fields_sound f tail total h :
  parse_public_header (header_bytes f tail) total = Ok h ->
  total <= MAX_ARCHIVE_BYTES /\ header_ok h /\ fields_of h f
  /\ exists rest, tail = ph_salt h ++ arr (ph_wrap_nonce h) ++ arr (ph_wrapped_dek h) ++ rest.
Proof.
  unfold parse_public_header, read_u16, read_u32, read_u64. autorewrite with smcv_header. cbn [ok_or result_bind].
  rewrite field_magic, length_header_bytes, try_array_arr. cbn [ok_or result_bind].
  intros H. repeat case_match; minv. destruct x0 as [salt argon2]. minv. bprop. rewrite within_true in *.
  apply key_mode_of_Ok in H. apply bool_decide_eq_true in H2.
  apply try_array_Some in H9, H10. unfold FIXED_HEADER_BYTES, WRAP_NONCE_BYTES in *.
  rewrite <- Nat.add_assoc, field_tail in H10. rewrite field_tail in H9.
  pose proof (be_decode_range (arr (f_salt_len f))) as [Hs _].
  set (n := Z.to_nat (be_decode (arr (f_salt_len f)))) in *.
  assert (salt = take n tail) as Es.
  { apply key_parameters_Ok in H8. destruct x; [|by destruct H8 as ((-> & _) & -> & _)].
    destruct H8 as (_ & -> & _). f_equal. apply (field_tail f tail 0). }
  destruct H5 as [H5 H5']. unfold zlen in H5'. rewrite length_header_bytes, H6 in H5'.
  rewrite H6 in H10. unfold MIN_HEADER_BYTES in *.
  assert (72 + n <= length tail)%nat as Hlen by lia.
  replace (Z.to_nat (126 + be_decode (arr (f_salt_len f))) - (54 + (n + 24)))%nat with 48%nat in H10 by lia.
  assert (zlen salt = be_decode (arr (f_salt_len f))) as Ez by (unfold zlen; rewrite Es, length_take; lia).
  pose proof (be_decode_range (arr (f_limit f))) as [Hlim _]. split_and!.
  - done.
  - split; [simpl; tauto|]. split; [simpl; lia|]. simpl. apply key_parameters_Ok in H8. destruct x.
    + split; [rewrite Ez; lia|]. eexists. by apply H8.
    + apply H8.
  - unfold fields_of. simpl. rewrite Ez, H6. apply key_parameters_Ok in H8.
    destruct x; [destruct H8 as (_ & _ & -> & _)|destruct H8 as ((_ & -> & -> & ->) & _ & ->)]; simpl; tauto.
  - exists (drop 48 (drop 24 (drop n tail))). cbn [ph_salt ph_wrap_nonce ph_wrapped_dek].
    rewrite Es, H9, H10, <- drop_drop. by rewrite !take_drop.
Qed.

Lemma parse_fields_complete f tail total h rest :
  total <= MAX_ARCHIVE_BYTES -> header_ok h -> fields_of h f ->
  tail = ph_salt h ++ arr (ph_wrap_nonce h) ++ arr (ph_wrapped_dek h) ++ rest ->
  parse_public_header (header_bytes f tail) total = Ok h.
Proof.
  intros Ht (Hc & Hl & Hm) (E1 & E2 & E3 & E4 & E5 & E6 & E7 & E8 & E9 & E10 & E11 & E12 & E13) Etail.
  unfold parse_public_header, read_u16, read_u32, read_u64. autorewrite with smcv_header. cbn [ok_or result_bind].
  rewrite field_magic, length_header_bytes, try_array_arr. cbn [ok_or result_bind].
  rewrite E1, E2, E3, E4, E5, E6, E7, E8, E9, E10, E11, E12, E13.
  rewrite (proj2 (Z.ltb_ge _ _)) by done.
  destruct (Nat.ltb_spec (54 + length tail) FIXED_HEADER_BYTES); [unfold FIXED_HEADER_BYTES in *; lia|].
  change (blob_eqb MAGIC MAGIC) with true. rewrite !Z.eqb_refl, (proj2 (key_mode_of_Ok _ _) eq_refl).
  cbn [negb orb result_bind].
  assert (0 <= zlen (ph_salt h) <= 32) as Hs.
  { pose proof (zlen_nonneg (ph_salt h)). unfold MAX_SALT_BYTES in *.
    destruct (ph_key_mode h); [lia|]. destruct Hm as [-> _]. unfold zlen. simpl. lia. }
  assert (length tail = length (ph_salt h) + 72 + length rest)%nat as Hlen.
  { rewrite Etail, !length_app, !array_length. lia. }
  rewrite (proj2 (within_true _ _ _)) by (unfold MIN_HEADER_BYTES, MAX_HEADER_BYTES; lia).
  rewrite (proj2 (Z.ltb_ge _ _)) by (unfold zlen, MIN_HEADER_BYTES in *; rewrite length_header_bytes; lia).
  rewrite (proj2 (within_true _ _ _)) by done. rewrite (proj2 (Z.eqb_neq _ _)) by lia.
  rewrite (proj2 (Z.ltb_ge _ _)) by lia. cbn [negb orb].
  replace (Z.to_nat (zlen (ph_salt h))) with (length (ph_salt h)) by (unfold zlen; lia).
  rewrite (proj2 (key_parameters_Ok _ _ _ _ _ _ (ph_salt h) (ph_argon2 h))).
  - cbn [result_bind]. unfold FIXED_HEADER_BYTES, WRAP_NONCE_BYTES.
    rewrite <- Nat.add_assoc, !field_tail, Etail, <- drop_drop, !drop_app_length, take_here, try_array_arr.
    cbn [ok_or result_bind]. rewrite drop_skip by lia. cbn [Nat.sub]. rewrite drop_0.
    replace (Z.to_nat (MIN_HEADER_BYTES + zlen (ph_salt h)) - (54 + (length (ph_salt h) + 24)))%nat with 48%nat
      by (unfold MIN_HEADER_BYTES, zlen; lia).
    rewrite take_here, try_array_arr. cbn [ok_or result_bind]. by destruct h.
  - destruct (ph_key_mode h).
    + destruct Hm as [Hsalt (p & -> & Hp)]. simpl. split_and!; [unfold zlen in *; lia..| |by destruct p|by destruct p].
      change 54%nat with (54 + 0)%nat. rewrite field_tail, drop_0, Etail. by rewrite take_app_length.
    + destruct Hm as [-> ->]. done.
Qed.

Lemma be_array n z : exists a : array n, arr a = be_encode n z.
Proof.
  destruct (try_array n (be_encode n z)) as [a|] eqn:E; [by exists a; apply try_array_Some|].
  apply try_array_None in E. by rewrite length_be_encode in E.
Qed.

Lemma header_salt_bound h : header_ok h -> 0 <= zlen (ph_salt h) <= 32.
Proof.
  intros (_ & _ & Hm). pose proof (zlen_nonneg (ph_salt h)). unfold MAX_SALT_BYTES in *.
  destruct (ph_key_mode h); [lia|]. destruct Hm as [-> _]. unfold zlen. simpl. lia.
Qed.

Lemma header_parameters_bound h :
  header_ok h -> let p := default {| ap_memory_kib := 0; ap_iterations := 0; ap_lanes := 0 |} (ph_argon2 h) in
  0 <= ap_memory_kib p < 2 ^ 32 /\ 0 <= ap_iterations p < 2 ^ 32 /\ 0 <= ap_lanes p < 2 ^ 8.
Proof.
  intros (_ & _ & Hm). unfold parameters_ok, MIN_ARGON2_MEMORY_KIB, MAX_ARGON2_MEMORY_KIB, MAX_ARGON2_ITERATIONS,
    MAX_ARGON2_LANES in *.
  destruct (ph_key_mode h); [destruct Hm as (_ & p & -> & Hp)|destruct Hm as [_ ->]]; simpl; lia.
Qed.

Lemma fields_exist h : header_ok h -> exists f, fields_of h f.
Proof.
  intros Hok. pose proof (header_salt_bound h Hok) as Hs. pose proof (header_parameters_bound h Hok) as Hp.
  destruct Hok as (Hc & Hl & _). unfold MAX_CHUNK_BYTES, MIN_CHUNK_BYTES, MAX_RECORDS in *.
  set (p := default _ _) in Hp. simpl in Hp.
  destruct (be_array 2 FORMAT_VERSION) as [a2 E2]. destruct (be_array 2 ALGORITHM_SUITE) as [a3 E3].
  destruct (be_array 1 (key_mode_code (ph_key_mode h))) as [a4 E4].
  destruct (be_array 2 (MIN_HEADER_BYTES + zlen (ph_salt h))) as [a6 E6].
  destruct (be_array 1 (zlen (ph_salt h))) as [a8 E8]. destruct (be_array 4 (ap_memory_kib p)) as [a9 E9].
  destruct (be_array 4 (ap_iterations p)) as [a10 E10]. destruct (be_array 1 (ap_lanes p)) as [a11 E11].
  destruct (be_array 4 (ph_chunk_bytes h)) as [a12 E12]. destruct (be_array 8 (ph_record_limit h)) as [a13 E13].
  destruct (try_array 8 MAGIC) as [m|] eqn:Em; [|done]. apply try_array_Some in Em.
  exists (Build_HeaderFields m a2 a3 a4 (zeros 1) a6 (ph_archive_id h) a8 a9 a10 a11 a12 a13).
  unfold fields_of. fold p. cbn [f_magic f_version f_suite f_mode f_reserved f_header_len f_archive_id f_salt_len
    f_memory f_iterations f_lanes f_chunk f_limit].
  rewrite E2, E3, E4, E6, E8, E9, E10, E11, E12, E13, !be_decode_encode; [done|..]; unfold FORMAT_VERSION,
    ALGORITHM_SUITE, MIN_HEADER_BYTES; try lia. destruct (ph_key_mode h); simpl; lia.
Qed.

Lemma fields_encode h f :
  header_ok h -> fields_of h f ->
  encode_public_header h
  = Ok (header_bytes f (ph_salt h ++ arr (ph_wrap_nonce h) ++ arr (ph_wrapped_dek h))).
Proof.
  intros Hok (E1 & E2 & E3 & E4 & E5 & E6 & E7 & E8 & E9 & E10 & E11 & E12 & E13).
  pose proof (header_salt_bound h Hok) as Hs. unfold encode_public_header, encode_header_prefix.
  assert (forall max z, 0 <= z <= max -> try_from max z = Some z) as Htry by (intros; by apply try_from_Some).
  rewrite !Htry by (unfold MIN_HEADER_BYTES, u16_max; lia).
  cbn [ok_or result_bind]. rewrite <- E2, <- E3, <- E4, <- E6, <- E8, <- E9, <- E10, <- E11, <- E12, <- E13, <- E1, <- E7.
  assert (arr (f_reserved f) = [x00]) as Er.
  { rewrite <- (be_encode_decode_at 1 (arr (f_reserved f))) by apply array_length. by rewrite E5. }
  unfold u8_be, u16_be, u32_be, u64_be. rewrite !be_encode_decode_at by apply array_length.
  unfold header_bytes. rewrite Er, <- !app_assoc. done.
Qed.

Lemma header_bytes_app f tail rest : header_bytes f tail ++ rest = header_bytes f (tail ++ rest).
Proof. unfold header_bytes. by rewrite <- !app_assoc. Qed.

Lemma parse_encoded h e rest total :
  total <= MAX_ARCHIVE_BYTES -> header_ok h -> encode_public_header h = Ok e ->
  parse_public_header (e ++ rest) total = Ok h.
Proof.
  intros Ht Hok He. destruct (fields_exist h Hok) as [f Hf].
  rewrite (fields_encode h f) in He by done. injection He as <-. rewrite header_bytes_app.
  apply (parse_fields_complete f _ total h rest); [done..|]. by rewrite <- !app_assoc.
Qed.

Lemma parse_sound bytes total h :
  parse_public_header bytes total = Ok h ->
  total <= MAX_ARCHIVE_BYTES /\ header_ok h /\ exists e rest, encode_public_header h = Ok e /\ bytes = e ++ rest.
Proof.
  intros H. assert (54 <= length bytes)%nat as Hl.
  { unfold parse_public_header in H. case_match; [done|]. unfold FIXED_HEADER_BYTES in H.
    destruct (Nat.ltb_spec (length bytes) 54); [done|lia]. }
  apply header_bytes_split in Hl as (f & tail & ->).
  apply parse_fields_sound in H as (Ht & Hok & Hf & rest & ->). split_and!; [done..|].
  eexists _, rest. split; [by apply fields_encode|]. by rewrite header_bytes_app, <- !app_assoc.
Qed.

(** The public header of an archive has one encoding: the parser accepts
    exactly the bytes that start with the encoding of a header within the
    bounds, of an archive within the size limit, and returns that header. *)
Theorem header_codec_exact (bytes : blob) (total : Z) (h : PublicHeader) :
  parse_public_header bytes total = Ok h
  <-> total <= MAX_ARCHIVE_BYTES /\ header_ok h
      /\ exists e rest, encode_public_header h = Ok e /\ bytes = e ++ rest.
Proof.
  split; [apply parse_sound|]. intros (Ht & Hok & e & rest & He & ->). by apply parse_encoded.
Qed.

(** * Recovery keys *)

Section RecoveryKeys.
Context {CR : Crypto} {CL : CryptoLaws}.

Lemma hex_digit_not_dot n : 0 <= n < 16 -> hex_digit n <> dot.
Proof.
  intros Hn. assert (exists m, n = Z.of_nat m /\ (m < 16)%nat) as (m & -> & Hm) by (exists (Z.to_nat n); lia).
  unfold hex_digit. rewrite Nat2Z.id. do 16 (destruct m as [|m]; [done|]). lia.
Qed.

Lemma hex_lower_text (l : blob) : zlen (hex_lower l) = 2 * zlen l /\ dot ∉ hex_lower l.
Proof.
  unfold hex_lower, zlen. induction l as [|b l [IH1 IH2]]; [split; [done|apply not_elem_of_nil]|]. simpl.
  split; [lia|]. pose proof (Z_of_byte_range b). rewrite !not_elem_of_cons. split_and!; [| |done]; apply not_eq_sym, hex_digit_not_dot.
  - rewrite Z.shiftr_div_pow2 by lia. split; [apply Z.div_pos; lia|apply Z.div_lt_upper_bound; lia].
  - change 15 with (Z.ones 4). rewrite Z.land_ones by lia. apply Z.mod_pos_bound. lia.
Qed.

Lemma recovery_checksum_text k : zlen (recovery_checksum k) = 8 /\ dot ∉ recovery_checksum k.
Proof.
  unfold recovery_checksum. pose proof (hex_lower_text (take 4 (arr (sha256 (bstr "SMCV-BACKUP-RECOVERY-CHECK-v1" ++ arr k)))))
    as [H1 H2]. split; [|done]. rewrite H1. unfold zlen. rewrite length_take, array_length. done.
Qed.

(** The fields of a text with two dots. *)
Lemma split_three (a b c : blob) : dot ∉ a -> dot ∉ b -> dot ∉ c -> split dot (a ++ [dot] ++ b ++ [dot] ++ c) = [a; b; c].
Proof. intros. simpl. rewrite !split_app_sep, split_no_sep by done. done. Qed.

Lemma split_three_inv (l a b c : blob) : split dot l = [a; b; c] -> l = a ++ [dot] ++ b ++ [dot] ++ c.
Proof. intros H. rewrite <- (join_split dot l), H. done. Qed.

(** The display form of a recovery key parses back to the key, and every
    text that parses to a key is the prefix, a base64 form of the key and the
    checksum of that key, so a text whose checksum does not match is refused. *)
Theorem recovery_key_codec (k : RecoveryKey) :
  recovery_parse (recovery_expose_once k) = Ok k
  /\ forall text, recovery_parse text = Ok k ->
     exists body, b64_decode body = Some (arr k)
       /\ text = bstr "smcvbrk_v1." ++ body ++ [dot] ++ recovery_checksum k.
Proof.
  destruct (recovery_checksum_text k) as [Hl Hd]. split.
  - unfold recovery_parse, recovery_expose_once.
    change (bstr "smcvbrk_v1.") with (bstr "smcvbrk_v1" ++ [dot]). rewrite <- app_assoc, split_three.
    + rewrite Hl, b64_decode_encode. simpl. rewrite try_array_arr. simpl. unfold blob_eqb. by rewrite bool_decide_true.
    + apply (bool_decide_unpack _). by vm_compute.
    + apply b64_no_dot.
    + done.
  - intros text. unfold recovery_parse. destruct (split dot text) as [|prefix [|body [|checksum rest]]] eqn:E; [done|..].
    1-2: by case_match.
    case_match eqn:Ep; [done|]. case_match eqn:Er; [done|]. intros H. minv. bprop. destruct Er as [-> Ec].
    case_match eqn:Ek; [done|]. bprop. simplify_eq. apply split_three_inv in E as ->.
    unfold blob_eqb in *. bprop. subst. apply try_array_Some in H0. exists body. split; [congruence|].
    change (bstr "smcvbrk_v1.") with (bstr "smcvbrk_v1" ++ [dot]). by rewrite <- !app_assoc.
Qed.
End RecoveryKeys.
