(* ===== verification/ArchiveRuns.v ===== *)
(** Writing and reading whole archives: an archive reads back as it was
    written, whatever the sizes of the reads, and an archive that is accepted is
    accepted only whole. *)
From Stdlib Require Import ZArith Lia Strings.Byte String.
From stdpp Require Import base tactics numbers option strings list.
From S2P Require Import Prelude RustStd Core Crypto Archive ArchiveProps.

(** * Readers *)

(** A reader none of whose calls fails. *)
Definition steady (r : Reader) : Prop :=
  Forall (fun e => match e with ReadAtMost _ => True | _ => False end) (rd_script r).

Lemma exact_loop_Ok script n bytes acc x r :
  exact_loop script n bytes acc = (Ok x, r) ->
  exists got, x = acc ++ got /\ bytes = got ++ rd_bytes r /\ length got = n
    /\ (steady {| rd_bytes := bytes; rd_script := script |} -> steady r).
Proof.
  unfold steady. cbn [rd_script]. revert n bytes acc. induction script as [|e script IH]; intros n bytes acc; cbn [exact_loop];
    (destruct (Nat.eqb_spec n 0) as [->|Hn]; [intros [= <- <-]; exists []; by rewrite app_nil_r|]).
  - destruct (Nat.ltb_spec (length bytes) n); [done|]. intros [= <- <-]. exists (take n bytes). simpl.
    rewrite take_drop, length_take. split_and!; [done..|lia|done].
  - destruct e as [k| |]; [|intros H; apply IH in H as (got & ? & ? & ? & Hs); exists got; split_and!; [done..|]|done].
    2: { intros HF. apply Forall_cons in HF as [[] _]. }
    destruct (Nat.eqb_spec (length bytes) 0); [done|]. intros H. apply IH in H as (got & -> & E & Hl & Hs).
    exists (take (n `min` S k) bytes ++ got). rewrite <- !app_assoc. split_and!; [done| | |].
    + by rewrite <- E, take_drop.
    + rewrite length_app, Hl, length_take. lia.
    + intros HF. apply Hs. by apply Forall_cons in HF as [_ HF].
Qed.

Lemma exact_loop_steady script n bytes acc :
  steady {| rd_bytes := bytes; rd_script := script |} ->
  match exact_loop script n bytes acc with
  | (Ok _, _) => (n <= length bytes)%nat
  | (Err e, _) => e = AIo /\ (length bytes < n)%nat
  end.
Proof.
  unfold steady. cbn [rd_script]. revert n bytes acc. induction script as [|e script IH]; intros n bytes acc HF; cbn [exact_loop];
    (destruct (Nat.eqb_spec n 0) as [->|Hn]; [simpl; lia|]).
  - destruct (Nat.ltb_spec (length bytes) n); simpl; [done|lia].
  - apply Forall_cons in HF as [He HF]. destruct e as [k| |]; [|done..].
    destruct (Nat.eqb_spec (length bytes) 0); [simpl; split; [done|lia]|].
    specialize (IH (n - length (take (n `min` S k) bytes))%nat (drop (n `min` S k) bytes)
      (acc ++ take (n `min` S k) bytes) HF).
    destruct (exact_loop _ _ _ _) as [[]]; rewrite length_take, length_drop in IH; [lia|].
    destruct IH. split; [done|lia].
Qed.

(** * Programs that read a prefix of the source *)

Section Reads.
Context {C : Type}.

(** On a source that starts with [p] the program reads [p] and no more; on a
    source that ends within [p] it fails for want of input. *)
Definition takes {A} (m : Reading C A) (c : C) (p : blob) (a : A) (c' : C) : Prop :=
  (forall r rest, steady r -> rd_bytes r = p ++ rest ->
    exists r', m (r, c) = (Ok a, (r', c')) /\ rd_bytes r' = rest /\ steady r')
  /\ (forall r s, steady r -> s <> [] -> p = rd_bytes r ++ s -> fst (m (r, c)) = Err AIo).

(** Every successful run is such a reading. *)
Definition parser {A} (m : Reading C A) : Prop :=
  forall r c a r' c', steady r -> m (r, c) = (Ok a, (r', c')) ->
  exists p, rd_bytes r = p ++ rd_bytes r' /\ steady r' /\ takes m c p a c'.

Lemma takes_bind {A B} (m : Reading C A) (k : A -> Reading C B) c p a c1 q b c2 :
  takes m c p a c1 -> takes (k a) c1 q b c2 -> takes (prog_bind m k) c (p ++ q) b c2.
Proof.
  intros [M1 M2] [K1 K2]. split.
  - intros r rest Hr E. rewrite <- app_assoc in E. destruct (M1 r _ Hr E) as (r1 & Em & E1 & H1).
    destruct (K1 r1 rest H1 E1) as (r2 & Ek & E2 & H2). exists r2. unfold prog_bind. rewrite Em. done.
  - intros r s Hr Hs E. apply app_eq_inv in E as [(l & Ep & Es)|(l & Ep & Es)].
    + destruct (decide (l = [])) as [->|Hl].
      * rewrite app_nil_r in Ep. destruct (M1 r [] Hr) as (r1 & Em & E1 & H1); [by rewrite Ep, app_nil_r|].
        unfold prog_bind. rewrite Em. apply (K2 r1 s); [done..|]. by rewrite E1, Es.
      * unfold prog_bind. specialize (M2 r l Hr Hl Ep). destruct (m (r, c)) as [[] ?]; simpl in *; congruence.
    + destruct (M1 r l Hr) as (r1 & Em & E1 & H1); [congruence|].
      unfold prog_bind. rewrite Em. apply (K2 r1 s); [done..|]. by rewrite E1.
Qed.

Lemma takes_Ok {A} (m : Reading C A) c a c' :
  (forall r, m (r, c) = (Ok a, (r, c'))) -> takes m c [] a c'.
Proof.
  intros H. split.
  - intros r rest Hr E. exists r. by rewrite H.
  - intros r s _ Hs E. symmetry in E. apply app_nil in E as [_ E]. done.
Qed.

Lemma takes_next {A B} (m : Reading C A) (k : A -> Reading C B) c a c1 q b c2 :
  takes m c [] a c1 -> takes (k a) c1 q b c2 -> takes (prog_bind m k) c q b c2.
Proof. apply takes_bind. Qed.

Lemma takes_ret {A} (a : A) c : takes (prog_ret a) c [] a c.
Proof. by apply takes_Ok. Qed.
Lemma takes_lift {A} (x : result ArchiveError A) a c : x = Ok a -> takes (prog_lift x) c [] a c.
Proof. intros ->. by apply takes_Ok. Qed.
Lemma takes_reject bad e c : bad = false -> takes (prog_reject bad e) c [] tt c.
Proof. intros ->. by apply takes_Ok. Qed.
Lemma takes_feed {A} (m : Prog C ArchiveError A) c a c' : m c = (Ok a, c') -> takes (feed m) c [] a c'.
Proof. intros H. apply takes_Ok. intros r. unfold feed. simpl. by rewrite H. Qed.

Lemma takes_exact n p c : length p = n -> takes (from_source (read_exact n)) c p p c.
Proof.
  intros <-. split.
  - intros r rest Hr E. unfold from_source, read_exact. simpl.
    pose proof (exact_loop_steady (rd_script r) (length p) (rd_bytes r) [] Hr) as H.
    destruct (exact_loop _ _ _ _) as [[x|e] r'] eqn:El.
    + apply exact_loop_Ok in El as (got & -> & Eb & Hl & Hs). exists r'. simpl.
      rewrite E in Eb. apply app_eq_length in Eb as [-> ->]; [|done]. split_and!; [done..|]. by apply Hs.
    + destruct H as [_ H]. rewrite E, length_app in H. lia.
  - intros r s Hr Hs E. unfold from_source, read_exact. simpl.
    pose proof (exact_loop_steady (rd_script r) (length p) (rd_bytes r) [] Hr) as H.
    destruct (exact_loop _ _ _ _) as [[x|e] r'] eqn:El; simpl; [|by destruct H as [-> _]].
    rewrite E, length_app in H. destruct s; [done|]. simpl in H. lia.
Qed.

Lemma parser_bind {A B} (m : Reading C A) (k : A -> Reading C B) :
  parser m -> (forall a, parser (k a)) -> parser (prog_bind m k).
Proof.
  intros Hm Hk r c b r2 c2 Hr H. apply prog_bind_Ok in H as (a & [r1 c1] & H1 & H2).
  apply Hm in H1 as (p & Ep & Hr1 & Mp); [|done]. apply Hk in H2 as (q & Eq & Hr2 & Mq); [|done].
  exists (p ++ q). split_and!; [by rewrite Ep, Eq, app_assoc|done|by eapply takes_bind].
Qed.

Lemma parser_Ok {A} (m : Reading C A) :
  (forall r c a r' c', m (r, c) = (Ok a, (r', c')) -> r' = r /\ forall r, m (r, c) = (Ok a, (r, c'))) -> parser m.
Proof.
  intros H r c a r' c' Hr E. destruct (H _ _ _ _ _ E) as [-> Hm]. exists []. split_and!; [done..|]. by apply takes_Ok.
Qed.

Lemma parser_ret {A} (a : A) : parser (prog_ret a).
Proof. apply parser_Ok. by intros * [= <- <- <-]. Qed.
Lemma parser_fail {A} e : parser (prog_fail (A := A) e).
Proof. apply parser_Ok. by intros * [=]. Qed.
Lemma parser_lift {A} (x : result ArchiveError A) : parser (prog_lift x).
Proof. apply parser_Ok. unfold prog_lift. by intros * [= -> <- <-]. Qed.
Lemma parser_reject bad e : parser (prog_reject bad e).
Proof. apply parser_Ok. unfold prog_reject. intros * [= E <- <-]. by rewrite E. Qed.
Lemma parser_feed {A} (m : Prog C ArchiveError A) : parser (feed m).
Proof.
  apply parser_Ok. unfold feed. simpl. intros *. destruct (m c) as [x c1]. by intros [= -> <- <-].
Qed.
Lemma parser_exact n : parser (from_source (read_exact n)).
Proof.
  intros r c x r' c' Hr. unfold from_source, read_exact. simpl. destruct (exact_loop _ _ _ _) as [y r1] eqn:E.
  intros [= -> -> <-]. apply exact_loop_Ok in E as (got & -> & Eb & Hl & Hs). exists got.
  split_and!; [done|by apply Hs|by apply takes_exact].
Qed.
End Reads.

Create HintDb parsers discriminated.
#[export] Hint Resolve parser_ret parser_fail parser_lift parser_reject parser_feed parser_exact : parsers.
#[export] Hint Constants Opaque : parsers.
Ltac parsers :=
  repeat first [ progress intros | case_match | apply parser_bind | solve [auto with parsers] ].

(** * Frames *)

Section Frames.
Context {CR : Crypto} {AF : ArchiveFormats} {C : Type}.

Lemma read_frame_parser key archive_id sequence chunk_bytes :
  parser (read_frame (C := C) key archive_id sequence chunk_bytes).
Proof. unfold read_frame. parsers. Qed.
#[local] Hint Resolve read_frame_parser : parsers.

Lemma read_exact_size n s x s' :
  from_source (C := C) (read_exact n) s = (Ok x, s') -> zlen (rd_bytes s.1) = Z.of_nat n + zlen (rd_bytes s'.1).
Proof.
  destruct s as [r c], s' as [r' c']. unfold from_source, read_exact. simpl.
  destruct (exact_loop _ _ _ _) as [y r2] eqn:E. intros [= -> -> <-].
  apply exact_loop_Ok in E as (got & -> & -> & <- & _). by rewrite zlen_app.
Qed.

Lemma from_source_consumer {A} (m : Prog Reader ArchiveError A) s a s' : from_source (C := C) m s = (a, s') -> s'.2 = s.2.
Proof. unfold from_source. destruct (m s.1). by intros [= <- <-]. Qed.

Lemma read_frame_consumer key archive_id sequence chunk_bytes s a s' :
  read_frame (C := C) key archive_id sequence chunk_bytes s = (Ok a, s') -> s'.2 = s.2.
Proof.
  unfold read_frame. intros H. minv.
  repeat match goal with Hx : from_source _ _ = _ |- _ => apply from_source_consumer in Hx end. congruence.
Qed.

(** The size of a frame is what reading it takes from the source. *)
Lemma read_frame_size key archive_id sequence chunk_bytes s kind plaintext size s' :
  read_frame (C := C) key archive_id sequence chunk_bytes s = (Ok (kind, plaintext, size), s') ->
  zlen (rd_bytes s.1) = size + zlen (rd_bytes s'.1) /\ 54 <= size.
Proof.
  unfold read_frame. intros H. minv. bprop.
  repeat match goal with Hx : from_source _ _ = _ |- _ => apply read_exact_size in Hx end.
  unfold FRAME_HEADER_BYTES, AEAD_TAG_BYTES in *. lia.
Qed.
End Frames.

(** * Reading the data *)

Section Decode.
Context {CR : Crypto} {AF : ArchiveFormats} {C : Type} (consume : blob -> Prog C ArchiveError unit).
Context (key : array 32) (archive_id : Uuid) (chunk_bytes : Z).
#[local] Abbreviation loop := (decode_loop consume).
#[local] Hint Resolve read_frame_parser : parsers.

Lemma decode_loop_parser f t : parser (loop f key archive_id chunk_bytes t).
Proof. revert t. induction f as [|f IH]; intros t; cbn [decode_loop]; parsers. Qed.

(** The result does not depend on the fuel, when it is enough. *)
Lemma decode_loop_fuel f g t s :
  (f <= g)%nat -> fst (loop f key archive_id chunk_bytes t s) <> Ok None ->
  loop g key archive_id chunk_bytes t s = loop f key archive_id chunk_bytes t s.
Proof.
  revert g t s. induction f as [|f IH]; intros g t s Hg H; [done|]. destruct g as [|g]; [lia|].
  cbn [decode_loop] in *. unfold prog_bind in *.
  destruct (read_frame _ _ _ _ s) as [[[[kind plaintext] size]|e] s1]; [|done]. cbv [prog_lift] in *.
  repeat (case_match; try done). apply IH; [lia|done].
Qed.

Lemma decode_loop_enough f t s :
  (length (rd_bytes s.1) < f)%nat -> fst (loop f key archive_id chunk_bytes t s) <> Ok None.
Proof.
  revert t s. induction f as [|f IH]; intros t s Hf; [lia|]. cbn [decode_loop]. unfold prog_bind.
  destruct (read_frame _ _ _ _ s) as [[[[kind plaintext] size]|e] s1] eqn:E; [|done].
  apply read_frame_size in E as [E Hsize]. unfold zlen in E. cbv [prog_lift prog_reject prog_ret prog_fail]. repeat (case_match; try done).
  apply IH. unfold feed in *. destruct s1 as [r1 c1]. simpl in *. repeat case_match; simplify_eq; simpl. lia.
Qed.

Lemma decode_data_loop f t s :
  fst (loop f key archive_id chunk_bytes t s) <> Ok None ->
  decode_data consume key archive_id chunk_bytes t s = loop f key archive_id chunk_bytes t s.
Proof.
  intros H. unfold decode_data. destruct (Nat.le_gt_cases f (S (length (rd_bytes s.1)))).
  - by apply decode_loop_fuel.
  - symmetry. apply decode_loop_fuel; [lia|]. apply decode_loop_enough. lia.
Qed.

Lemma decode_data_reads f t c p x c' :
  takes (loop f key archive_id chunk_bytes t) c p (Some x) c' ->
  takes (decode_data consume key archive_id chunk_bytes t) c p (Some x) c'.
Proof.
  intros [H1 H2]. split.
  - intros r rest Hr E. destruct (H1 r rest Hr E) as (r' & El & Hr'). exists r'.
    rewrite (decode_data_loop f); [done|]. by rewrite El.
  - intros r s Hr Hs E. specialize (H2 r s Hr Hs E). rewrite (decode_data_loop f); [done|]. by rewrite H2.
Qed.

Lemma decode_data_parser t : parser (decode_data consume key archive_id chunk_bytes t).
Proof.
  intros r c a r' c' Hr H.
  pose proof (decode_loop_enough (S (length (rd_bytes r))) t (r, c) ltac:(simpl; lia)) as Hn.
  unfold decode_data in H. cbn [fst] in H. rewrite H in Hn. destruct a as [x|]; [|done].
  apply decode_loop_parser in H as (p & Ep & Hr' & Hp); [|done].
  exists p. split_and!; [done..|]. by eapply decode_data_reads.
Qed.
End Decode.

Section Body.
Context {CR : Crypto} {AF : ArchiveFormats} {C : Type} (consume : blob -> Prog C ArchiveError unit).
#[local] Hint Resolve read_frame_parser decode_data_parser : parsers.

Lemma read_header_parser total key : parser (read_header (C := C) total key).
Proof. unfold read_header. parsers. Qed.
#[local] Hint Resolve read_header_parser : parsers.

Lemma read_body_parser total key : parser (read_body consume total key).
Proof. unfold read_body. parsers. Qed.
End Body.

(** * An archive is accepted only whole *)

Lemma add_bounded_Ok a b z : add_bounded a b = Ok z <-> z = a + b /\ a + b <= u64_max.
Proof. unfold add_bounded. by rewrite ok_or_Ok, checked_add_Some. Qed.

Lemma io_read_Ok n r x r' : (0 < n)%nat -> io_read n r = (Ok x, r') ->
  rd_bytes r = x ++ rd_bytes r' /\ (x = [] <-> rd_bytes r = []) /\ (length x <= n)%nat.
Proof.
  unfold io_read. intros Hn.
  assert (forall n, (0 < n)%nat -> take n (rd_bytes r) = [] <-> rd_bytes r = []) as Hnil.
  { intros m Hm. destruct (rd_bytes r), m; simpl; naive_solver lia. }
  destruct (rd_script r) as [|[k| |] script]; intros [= <- <-]; cbn [rd_bytes]; rewrite take_drop, length_take;
    (split_and!; [done|apply Hnil; lia|lia]).
Qed.

Lemma io_read_steady n r : steady r -> (0 < n)%nat ->
  exists x r', io_read n r = (Ok x, r') /\ rd_bytes r = x ++ rd_bytes r' /\ steady r' /\ (x = [] <-> rd_bytes r = []).
Proof.
  intros Hr Hn. destruct (io_read n r) as [[x|e] r'] eqn:E.
  - destruct (io_read_Ok _ _ _ _ Hn E) as (? & ? & _). exists x, r'. split_and!; try done.
    unfold steady, io_read in *. destruct (rd_script r) as [|[k| |] script]; simplify_eq/=; [done|].
    by apply Forall_cons in Hr as [_ Hr].
  - exfalso. unfold steady, io_read in *. destruct (rd_script r) as [|[k| |] script]; simplify_eq/=;
      by apply Forall_cons in Hr as [[] _].
Qed.

(** The consumer that keeps the whole stream. *)
Definition collect (chunk : blob) : Prog blob ArchiveError unit := fun acc => (Ok tt, acc ++ chunk).

(** The counts agree with the stream that has passed. *)
Definition transfer_ok (limit : Z) (t : Transfer) : Prop :=
  counter_update (counter_new limit) (tr_stream t) = Ok (tr_counter t) /\ tr_logical_bytes t = zlen (tr_stream t).

Section Accepted.
Context {CR : Crypto} {AF : ArchiveFormats}.

Lemma counter_new_wf limit : counter_wf (counter_new limit).
Proof. by split_and!; simpl; lia. Qed.

Lemma transfer_ok_start bytes limit : transfer_ok limit (transfer_start bytes limit).
Proof. done. Qed.

(** What a transfer becomes when a chunk has passed. *)
Lemma transfer_ok_next limit t data bytes sequence frames logical counter :
  transfer_ok limit t -> counter_update (tr_counter t) data = Ok counter -> logical = tr_logical_bytes t + zlen data ->
  transfer_ok limit {| tr_bytes := bytes; tr_sequence := sequence; tr_data_frames := frames;
                       tr_logical_bytes := logical; tr_stream := tr_stream t ++ data; tr_counter := counter |}.
Proof.
  intros [H1 H2] Hc ->. split; simpl; [|by rewrite zlen_app, H2].
  rewrite counter_update_app by apply counter_new_wf. by rewrite H1.
Qed.

Lemma feed_collect r acc chunk u s : feed (collect chunk) (r, acc) = (Ok u, s) -> s = (r, acc ++ chunk).
Proof. by intros [= _ <-]. Qed.

Lemma decode_loop_collects limit f key archive_id chunk_bytes t r acc t' fm r' c' :
  decode_loop collect f key archive_id chunk_bytes t (r, acc ++ tr_stream t) = (Ok (Some (t', fm)), (r', c')) ->
  transfer_ok limit t ->
  transfer_ok limit t' /\ c' = acc ++ tr_stream t' /\ tr_bytes t' + zlen (rd_bytes r') = tr_bytes t + zlen (rd_bytes r).
Proof.
  revert t r. induction f as [|f IH]; intros t r; [done|]. cbn [decode_loop]. intros H Hok.
  apply prog_bind_Ok in H as ([[kind plaintext] size] & [r1 c1] & Hf & H).
  pose proof (read_frame_consumer _ _ _ _ _ _ _ Hf) as Hc. simpl in Hc. subst c1.
  apply read_frame_size in Hf as [Hf _]. simpl in Hf. minv. rewrite !add_bounded_Ok in *. destruct_and!. subst.
  case_match.
  - minv. rewrite !add_bounded_Ok in *. destruct_and!. subst.
    match goal with Hx : feed _ _ = _ |- _ => apply feed_collect in Hx; subst end.
    match goal with Hd : decode_loop _ _ _ _ _ _ _ = _ |- _ => rewrite <- app_assoc in Hd; apply IH in Hd as (? & ? & Hb) end;
      [|by eapply transfer_ok_next].
    split_and!; [done..|]. simpl in Hb. lia.
  - case_match; [|done]. minv. split_and!; [done..|]. simpl. lia.
Qed.

Lemma read_header_Ok {C} total key (s s' : Reader * C) h dek n :
  read_header total key s = (Ok (h, dek, n), s') ->
  total <= MAX_ARCHIVE_BYTES /\ header_ok h /\ zlen (rd_bytes s.1) = n + zlen (rd_bytes s'.1) /\ s'.2 = s.2.
Proof.
  unfold read_header. intros H. minv. bprop. rewrite within_true in *.
  match goal with Hp : parse_public_header _ _ = _ |- _ => apply parse_sound in Hp as (_ & Hok & _) end.
  repeat match goal with Hx : from_source _ _ = _ |- _ =>
    pose proof (from_source_consumer _ _ _ _ Hx); apply read_exact_size in Hx end.
  unfold MIN_HEADER_BYTES in *. split_and!; [done..|lia|congruence].
Qed.

Lemma read_body_Ok total key r r' h m t fm c' :
  read_body collect total key (r, []) = (Ok (h, m, t, fm), (r', c')) ->
  total <= MAX_ARCHIVE_BYTES /\ transfer_ok (ph_record_limit h) t /\ header_ok h /\ c' = tr_stream t
  /\ tr_bytes t + zlen (rd_bytes r') = zlen (rd_bytes r).
Proof.
  unfold read_body. intros H. apply prog_bind_Ok in H as ([[h0 dek] n] & s1 & Hh & H).
  apply prog_bind_Ok in H as ([[kind manifest] size] & s2 & Hf & H). minv. destruct x7 as [t0 fm0]. injection H4 as -> -> -> -> ->.
  apply read_header_Ok in Hh as (Ht & Hok & E1 & C1).
  pose proof (read_frame_consumer _ _ _ _ _ _ _ Hf) as C2. apply read_frame_size in Hf as [E2 _].
  apply add_bounded_Ok in H0 as [-> _]. destruct s2 as [r2 c2]. simpl in *. subst c2. rewrite C1 in H2.
  unfold decode_data in H2.
  apply (decode_loop_collects (ph_record_limit h) _ _ _ _ (transfer_start (n + size) _) r2 []) in H2 as (Hok' & Hc & Hb); [|apply transfer_ok_start].
  split_and!; [done..|]. simpl in *. lia.
Qed.

Lemma prog_bind_ext {S E A B} (m m' : Prog S E A) (k k' : A -> Prog S E B) s :
  (forall s, m s = m' s) -> (forall a s, k a s = k' a s) -> prog_bind m k s = prog_bind m' k' s.
Proof. intros Hm Hk. unfold prog_bind. rewrite Hm. destruct (m' s) as [[] ?]; [apply Hk|done]. Qed.

(** The declared size matters to the header only through its limit. *)
Lemma read_body_total {C} consume total total' key (s : Reader * C) :
  total <= MAX_ARCHIVE_BYTES -> total' <= MAX_ARCHIVE_BYTES ->
  read_body consume total key s = read_body consume total' key s.
Proof.
  intros H H'. apply prog_bind_ext; [|done]. clear s. intros s. unfold read_header.
  rewrite !(proj2 (Z.ltb_ge _ _)) by done. do 4 (apply prog_bind_ext; [done|intros ? ?]).
  apply prog_bind_ext; [|done]. intros ?. unfold parse_public_header. by rewrite !(proj2 (Z.ltb_ge _ _)).
Qed.

(** What is checked after the body. *)
Lemma decode_archive_Ok total key r v r' stream :
  steady r -> decode_archive collect total key (r, []) = (Ok v, (r', stream)) ->
  exists h m t fm r1, read_body collect total key (r, []) = (Ok (h, m, t, fm), (r1, stream))
    /\ tr_bytes t = total /\ rd_bytes r1 = [] /\ counter_finish (tr_counter t) = Ok (va_record_count v)
    /\ va_header v = h /\ va_logical_bytes v = tr_logical_bytes t /\ va_logical_digest v = sha256 (tr_stream t).
Proof.
  intros Hr Hrun. unfold decode_archive in Hrun.
  apply prog_bind_Ok in Hrun as ([[[h m] t] fm] & [r1 c1] & Hb & H). minv. bprop.
  destruct (read_body_parser collect total key _ _ _ _ _ Hr Hb) as (p & _ & Hr1 & _).
  destruct (io_read_steady 1 r1 Hr1 ltac:(lia)) as (extra & r2 & Ex & _ & _ & Hx).
  unfold from_source in H0. simpl in H0. rewrite Ex in H0. simplify_eq.
  exists h, m, t, fm, r1. split_and!; try done. apply Hx. apply Nat.eqb_eq in H1. by destruct x1.
Qed.

(** Reading again on a source that starts with an accepted archive. *)
Lemma decode_extended total2 key h m t fm r2 r3 :
  read_body collect total2 key (r2, []) = (Ok (h, m, t, fm), (r3, tr_stream t)) -> steady r3 ->
  rd_bytes r3 <> [] \/ total2 <> tr_bytes t -> fst (decode_archive collect total2 key (r2, [])) = Err AIntegrity.
Proof.
  intros Hb Hr Hbad. unfold decode_archive, prog_bind at 1. rewrite Hb. unfold prog_bind at 1. simpl.
  destruct (Z.eqb_spec (tr_bytes t) total2); [|done]. simpl. destruct Hbad as [Hx|]; [|congruence].
  unfold prog_bind at 1, from_source. simpl.
  destruct (io_read_steady 1 r3 Hr ltac:(lia)) as (x & r4 & -> & _ & _ & Hn).
  unfold prog_bind at 1. simpl. destruct x; [naive_solver|done].
Qed.
(** The counter accepted a sequence of records. *)
Lemma transfer_ok_records limit t n :
  0 <= limit <= u64_max -> transfer_ok limit t -> counter_finish (tr_counter t) = Ok n ->
  exists rs, tr_stream t = encode_records rs /\ Forall record_ok rs /\ n = zlen rs /\ zlen rs <= limit.
Proof.
  intros Hl [Hc _] Hn.
  assert ((let? c' := counter_update (counter_new limit) (tr_stream t) in counter_finish c') = Ok n) as H by (by rewrite Hc).
  apply count_records_exact in H as (rs & -> & HF & En & Hlim); [|done..|simpl; lia].
  exists rs. simpl in *. split_and!; [done..|]. destruct Hlim as [->|]; [unfold zlen; simpl; lia|lia].
Qed.

End Accepted.

(** C24. An archive that is accepted is accepted only whole. The declared size
    is its size, the stream it delivers is a sequence of well-formed records
    that the result counts and digests; and with whatever declared size up to
    the limit, an extension of the archive is an integrity failure, a proper
    prefix ends in an I/O failure, and so is the archive itself under another
    size refused. *)
Theorem accepted_archive_whole {CR : Crypto} {AF : ArchiveFormats} (total : Z) (key : ArchiveKey)
    (r r' : Reader) (v : VerifiedArchive) (stream : blob) (Hr : steady r)
    (Hrun : decode_archive collect total key (r, []) = (Ok v, (r', stream))) :
  total = zlen (rd_bytes r)
  /\ (exists rs, stream = encode_records rs /\ Forall record_ok rs /\ va_record_count v = zlen rs
        /\ zlen rs <= ph_record_limit (va_header v))
  /\ va_logical_bytes v = zlen stream /\ va_logical_digest v = sha256 stream
  /\ forall r2 total2, steady r2 -> total2 <= MAX_ARCHIVE_BYTES ->
     (forall extra, rd_bytes r2 = rd_bytes r ++ extra -> extra <> [] \/ total2 <> total ->
        fst (decode_archive collect total2 key (r2, [])) = Err AIntegrity)
     /\ (forall missing, rd_bytes r = rd_bytes r2 ++ missing -> missing <> [] ->
        fst (decode_archive collect total2 key (r2, [])) = Err AIo).
Proof.
  destruct (decode_archive_Ok _ _ _ _ _ _ Hr Hrun) as (h & m & t & fm & r1 & Hb & Et & E1 & Hn & Eh & El & Ed).
  destruct (read_body_Ok _ _ _ _ _ _ _ _ _ Hb) as (Ht & Htr & Hok & Es & Esize).
  destruct (read_body_parser collect total key _ _ _ _ _ Hr Hb) as (p & Ep & _ & R1 & R2).
  rewrite E1, app_nil_r in Ep. subst p. rewrite E1 in Esize. unfold zlen at 1 in Esize. simpl in Esize.
  rewrite Eh, El, Ed, Es. split; [lia|]. split; [|split; [apply Htr|split; [done|]]].
  - eapply transfer_ok_records; [|done..]. destruct Hok as (_ & Hl & _). unfold MAX_RECORDS, u64_max in *. lia.
  - intros r2 total2 Hr2 Ht2. rewrite Es in *. split.
    + intros extra E Hbad. destruct (R1 r2 extra Hr2 E) as (r3 & Eb & E3 & H3).
      eapply decode_extended; [by rewrite (read_body_total _ _ total)|done|]. by rewrite E3, Et.
    + intros missing E Hm. specialize (R2 r2 missing Hr2 Hm E). rewrite (read_body_total _ _ total2) in R2 by done.
      unfold decode_archive, prog_bind at 1. destruct (read_body collect total2 key (r2, [])) as [[] ?]; simpl in R2; [done|]. by injection R2 as ->.
Qed.

(** * An archive reads back as it was written *)

Definition frame_header (ciphertext_len sequence kind : Z) (nonce : array 24) : blob :=
  u32_be ciphertext_len ++ u64_be sequence ++ u8_be kind ++ [x00] ++ arr nonce.

Section Written.
Context {CR : Crypto} {CL : CryptoLaws} {AF : ArchiveFormats} {AL : ArchiveLaws}.

Lemma write_all_Ok bytes s u s' :
  to_destination (write_all bytes) s = (Ok u, s') ->
  wg_source s' = wg_source s /\ wr_bytes (wg_destination s') = wr_bytes (wg_destination s) ++ bytes.
Proof.
  unfold to_destination, write_all. destruct s as [src [b room fl] d]. simpl. repeat case_match; by intros; simplify_eq/=.
Qed.

Lemma drawn_Ok {A} (m : Prog nat CryptoError A) s a s' :
  drawn m s = (Ok a, s') -> wg_source s' = wg_source s /\ wg_destination s' = wg_destination s.
Proof. unfold drawn. destruct (m (wg_draws s)). by intros [= _ <-]. Qed.

Lemma write_frame_Ok key archive_id sequence kind plaintext s n s' :
  write_frame key archive_id sequence kind plaintext s = (Ok n, s') ->
  exists nonce ciphertext,
    aead_encrypt key nonce (frame_aad archive_id sequence kind (zlen plaintext + 16)) plaintext = Some ciphertext
    /\ zlen plaintext + 16 <= u32_max /\ n = 38 + zlen ciphertext /\ wg_source s' = wg_source s
    /\ wr_bytes (wg_destination s') = wr_bytes (wg_destination s)
         ++ frame_header (zlen plaintext + 16) sequence kind nonce ++ ciphertext.
Proof.
  unfold write_frame, AEAD_TAG_BYTES. intros H. minv.
  repeat match goal with
  | Hx : drawn _ _ = _ |- _ => apply drawn_Ok in Hx as [? ?]
  | Hx : to_destination _ _ = _ |- _ => apply write_all_Ok in Hx as [? ?]
  | Hx : try_from _ _ = Some _ |- _ => apply try_from_Some in Hx as [-> ?]
  end.
  eexists _, _. split_and!; [eassumption|lia|done|congruence|].
  unfold frame_header. rewrite <- !app_assoc. repeat match goal with Hx : wr_bytes _ = _ |- _ => rewrite Hx; clear Hx end.
  rewrite <- !app_assoc. congruence.
Qed.

Lemma length_frame_header len sequence kind nonce : length (frame_header len sequence kind nonce) = 38%nat.
Proof. unfold frame_header. by rewrite !length_app, length_u32_be, length_u64_be, length_u8_be, array_length. Qed.

Lemma zlen_frame_header len sequence kind nonce : zlen (frame_header len sequence kind nonce) = 38.
Proof. unfold zlen. by rewrite length_frame_header. Qed.

Lemma frame_header_fields len sequence kind nonce :
  in_u32 len -> in_u64 sequence -> 0 <= kind < 256 ->
  let f := frame_header len sequence kind nonce in
  be_decode (take 4 f) = len /\ be_decode (take 8 (drop 4 f)) = sequence /\ byte_at f 12 = kind
  /\ byte_at f 13 = 0 /\ drop 14 f = arr nonce.
Proof.
  intros Hl Hs Hk. unfold frame_header, in_u32, in_u64, u32_max, u64_max in *.
  destruct (be_array 4 len) as [a Ea], (be_array 8 sequence) as [b Eb], (be_array 1 kind) as [k Ek].
  change (u32_be len) with (be_encode 4 len). change (u64_be sequence) with (be_encode 8 sequence).
  change (u8_be kind) with (be_encode 1 kind). change [x00] with (arr (zeros 1)). rewrite <- Ea, <- Eb, <- Ek.
  rewrite take_here, !byte_at_skip, !drop_skip by lia. cbn [Nat.sub]. rewrite !drop_0, take_here, !byte_at_here.
  rewrite Ea, Eb, Ek, !be_decode_encode by lia. done.
Qed.

(** What is written as a frame is read as it. *)
Lemma read_frame_reads {C} key archive_id sequence kind plaintext nonce ciphertext chunk_bytes (c : C) :
  aead_encrypt key nonce (frame_aad archive_id sequence kind (zlen plaintext + 16)) plaintext = Some ciphertext ->
  zlen plaintext + 16 <= u32_max -> in_u64 sequence -> 0 <= kind < 256 ->
  zlen plaintext <= (if kind =? 2 then chunk_bytes else MAX_MANIFEST_BYTES) ->
  takes (read_frame key archive_id sequence chunk_bytes) c
    (frame_header (zlen plaintext + 16) sequence kind nonce ++ ciphertext) (kind, plaintext, 38 + zlen ciphertext) c.
Proof.
  intros Henc H32 Hs Hk Hmax. pose proof (zlen_nonneg plaintext).
  destruct (frame_header_fields (zlen plaintext + 16) sequence kind nonce) as (F1 & F2 & F3 & F4 & F5);
    [split; lia|done..|].
  pose proof (aead_tag_length _ _ _ _ _ Henc) as Hlen.
  assert (zlen ciphertext = zlen plaintext + 16) as Hz by (unfold zlen in *; lia).
  unfold read_frame. eapply takes_bind; [by apply takes_exact, length_frame_header|]. rewrite F1, F2, F3, F4, F5.
  eapply takes_next; [apply takes_reject; by rewrite !Z.eqb_refl|].
  eapply takes_next; [apply takes_reject|].
  { apply orb_false_iff. unfold AEAD_TAG_BYTES. rewrite !Z.ltb_ge. lia. }
  rewrite <- (app_nil_r ciphertext) at 1. eapply takes_bind; [apply takes_exact; unfold zlen in *; lia|].
  eapply takes_next; [apply takes_lift; by rewrite try_array_arr|].
  eapply takes_next; [apply takes_lift; rewrite (aead_open_sealed _ _ _ _ _ Henc); done|].
  rewrite Hz. apply takes_ret.
Qed.

(** The counts stay within their widths, and there are fewer frames than bytes. *)
Definition transfer_wf (t : Transfer) : Prop :=
  1 <= tr_sequence t <= tr_bytes t /\ tr_bytes t <= u64_max /\ in_u64 (tr_data_frames t) /\ in_u64 (tr_logical_bytes t).

(** What a transfer becomes when a chunk has passed. *)
Definition transfer_next (t : Transfer) (data : blob) (size : Z) (counter : RecordCounter) : Transfer :=
  {| tr_bytes := tr_bytes t + size; tr_sequence := tr_sequence t + 1; tr_data_frames := tr_data_frames t + 1;
     tr_logical_bytes := tr_logical_bytes t + zlen data; tr_stream := tr_stream t ++ data; tr_counter := counter |}.

Lemma decode_loop_data key archive_id chunk_bytes t data nonce ciphertext counter g acc q x acc' :
  aead_encrypt key nonce (frame_aad archive_id (tr_sequence t) 2 (zlen data + 16)) data = Some ciphertext ->
  zlen data + 16 <= u32_max -> zlen data <= chunk_bytes -> counter_update (tr_counter t) data = Ok counter ->
  transfer_wf t -> transfer_wf (transfer_next t data (38 + zlen ciphertext) counter) ->
  takes (decode_loop collect g key archive_id chunk_bytes (transfer_next t data (38 + zlen ciphertext) counter))
    (acc ++ data) q x acc' ->
  takes (decode_loop collect (S g) key archive_id chunk_bytes t) acc
    ((frame_header (zlen data + 16) (tr_sequence t) 2 nonce ++ ciphertext) ++ q) x acc'.
Proof.
  intros Henc H32 Hmax Hc (Hs & Hb & _) (Hs' & Hb' & [_ Hf'] & [_ Hl']) Hrest.
  cbn [transfer_next tr_sequence tr_bytes tr_data_frames tr_logical_bytes] in *. cbn [decode_loop].
  eapply takes_bind; [apply read_frame_reads; [done..|split; lia|lia|done]|].
  do 2 (eapply takes_next; [apply takes_lift, add_bounded_Ok; split; [reflexivity|lia]|]).
  eapply takes_next; [by apply takes_lift|].
  do 2 (eapply takes_next; [apply takes_lift, add_bounded_Ok; split; [reflexivity|lia]|]).
  eapply takes_next; [by apply takes_feed|]. done.
Qed.

(** The reader follows the writer frame by frame. *)
Lemma write_loop_Ok limit f key archive_id chunk_bytes t s t' s' :
  0 < chunk_bytes -> write_loop f key archive_id chunk_bytes t s = (Ok (Some t'), s') ->
  transfer_wf t -> transfer_ok limit t ->
  transfer_wf t' /\ transfer_ok limit t' /\ tr_stream t' = tr_stream t ++ rd_bytes (wg_source s)
  /\ exists p k, wr_bytes (wg_destination s') = wr_bytes (wg_destination s) ++ p
       /\ tr_bytes t' = tr_bytes t + zlen p
       /\ forall acc g q x acc',
            takes (decode_loop collect g key archive_id chunk_bytes t') (acc ++ rd_bytes (wg_source s)) q x acc' ->
            takes (decode_loop collect (k + g) key archive_id chunk_bytes t) acc (p ++ q) x acc'.
Proof.
  intros Hchunk. revert t s. induction f as [|f IH]; intros t s; [done|]. cbn [write_loop]. intros H Hwf Hok.
  apply prog_bind_Ok in H as (data & s1 & Hread & H).
  unfold from_stream in Hread. destruct (io_read _ (wg_source s)) as [y r1] eqn:Er. injection Hread as -> <-.
  apply io_read_Ok in Er as (Ed & Hnil & Hmax); [|lia].
  destruct (Nat.eqb_spec (length data) 0) as [E0|E0].
  - injection H as <- <-. assert (data = []) as -> by (by destruct data). rewrite (proj1 Hnil eq_refl).
    split_and!; [done..|by rewrite app_nil_r|]. exists [], O. cbn [wg_destination app Nat.add].
    rewrite app_nil_r. split_and!; [done|unfold zlen; simpl; lia|]. intros *. by rewrite app_nil_r.
  - minv. rewrite !add_bounded_Ok in *. destruct_and!. subst.
    match goal with Hx : write_frame _ _ _ _ _ _ = _ |- _ =>
      apply write_frame_Ok in Hx as (nonce & ciphertext & Henc & H32 & -> & Esrc & Edst) end.
    change (write_loop f key archive_id chunk_bytes (transfer_next t data (38 + zlen ciphertext) x) x4
      = (Ok (Some t'), s')) in H5.
    pose proof (zlen_nonneg data). pose proof (zlen_nonneg ciphertext).
    assert (transfer_wf (transfer_next t data (38 + zlen ciphertext) x)) as Hwf'.
    { destruct Hwf as (? & ? & [? ?] & [? ?]). unfold transfer_wf, in_u64. simpl. lia. }
    destruct (IH _ _ H5 Hwf') as (? & ? & Est & p & k & Ew & Eb & Hsim); [by eapply transfer_ok_next|].
    rewrite Esrc in *. cbn [wg_source wg_destination] in *. rewrite Ed. split_and!; [done..| |].
    { rewrite Est. simpl. by rewrite <- app_assoc. }
    exists ((frame_header (zlen data + 16) (tr_sequence t) 2 nonce ++ ciphertext) ++ p), (S k). split_and!.
    + by rewrite Ew, Edst, <- !app_assoc.
    + rewrite Eb, !zlen_app, zlen_frame_header. simpl. lia.
    + intros acc g q z acc' Hq. rewrite <- app_assoc. cbn [Nat.add].
      eapply decode_loop_data; try done; [unfold zlen; lia|]. apply Hsim. by rewrite <- app_assoc.
Qed.

(** ** The header *)

Lemma encode_header_length h e f :
  header_ok h -> fields_of h f -> encode_public_header h = Ok e ->
  zlen e = MIN_HEADER_BYTES + zlen (ph_salt h) /\ be_decode (take 2 (drop 14 (take 16 e))) = zlen e.
Proof.
  intros Hok Hf He. rewrite (fields_encode h f) in He by done. injection He as <-.
  assert (zlen (header_bytes f (ph_salt h ++ arr (ph_wrap_nonce h) ++ arr (ph_wrapped_dek h)))
    = MIN_HEADER_BYTES + zlen (ph_salt h)) as El.
  { unfold zlen, MIN_HEADER_BYTES. rewrite length_header_bytes, !length_app, !array_length. lia. }
  split; [done|]. rewrite El. rewrite <- (take_drop_commute _ 2 14), take_take. cbn [Nat.min].
  pose proof (field_header_len f (ph_salt h ++ arr (ph_wrap_nonce h) ++ arr (ph_wrapped_dek h))) as H.
  unfold slice in H. case_match; [|done]. injection H as ->. apply Hf.
Qed.

(** An encoded header is read back, with the key it was sealed with. *)
Lemma read_header_reads {C} total key h e wrapping_key prefix dek (c : C) :
  total <= MAX_ARCHIVE_BYTES -> header_ok h -> encode_public_header h = Ok e ->
  derive_wrapping_key key h = Ok wrapping_key -> encode_header_prefix h = Ok prefix ->
  aead_encrypt wrapping_key (ph_wrap_nonce h) prefix (arr dek) = Some (arr (ph_wrapped_dek h)) ->
  takes (read_header total key) c e (h, dek, zlen e) c.
Proof.
  intros Ht Hok He Hk Hp Hd. destruct (fields_exist h Hok) as [f Hf].
  destruct (encode_header_length h e f Hok Hf He) as [El En]. pose proof (header_salt_bound h Hok) as Hs.
  unfold read_header. eapply takes_next; [by apply takes_reject, Z.ltb_ge|].
  rewrite <- (take_drop 16 e) at 1. unfold MIN_HEADER_BYTES, zlen in El.
  eapply takes_bind; [apply takes_exact; rewrite length_take; unfold zlen in Hs; lia|]. rewrite En.
  eapply takes_next; [apply takes_reject, negb_false_iff, within_true|].
  { unfold MIN_HEADER_BYTES, MAX_HEADER_BYTES, zlen in *. lia. }
  rewrite <- (app_nil_r (drop 16 e)) at 1.
  eapply takes_bind; [apply takes_exact; rewrite length_drop; unfold zlen; lia|]. rewrite take_drop.
  eapply takes_next; [apply takes_lift; rewrite <- (app_nil_r e), (parse_encoded h e []) by done; done|].
  eapply takes_next; [by apply takes_lift|]. eapply takes_next; [by apply takes_lift|].
  eapply takes_next; [apply takes_lift; by rewrite (aead_open_sealed _ _ _ _ _ Hd)|].
  eapply takes_next; [apply takes_lift; by rewrite try_array_arr|]. apply takes_ret.
Qed.

Lemma validate_options_Ok o : validate_options o = Ok tt <->
  MIN_CHUNK_BYTES <= ao_chunk_bytes o <= MAX_CHUNK_BYTES /\ (ao_record_limit o <> 0 /\ ao_record_limit o <= MAX_RECORDS)
  /\ parameters_ok (ao_argon2 o).
Proof.
  unfold validate_options, parameters_ok. match goal with |- context [if ?c then _ else _] => destruct c eqn:E end.
  - split; [done|]. intros (H1 & [H2 H3] & H4 & H5 & H6). exfalso. revert E.
    rewrite !(proj2 (within_true _ _ _)) by done. rewrite (proj2 (Z.eqb_neq _ _)), (proj2 (Z.ltb_ge _ _)) by done. done.
  - bprop. rewrite !within_true in E. tauto.
Qed.

Lemma archive_key_setup_Ok key options s salt mode argon2 s' :
  parameters_ok (ao_argon2 options) -> archive_key_setup key options s = (Ok (salt, mode, argon2), s') ->
  wg_source s' = wg_source s /\ wg_destination s' = wg_destination s
  /\ match mode with
     | PassphraseArgon2id => 16 <= zlen salt <= MAX_SALT_BYTES /\ exists p, argon2 = Some p /\ parameters_ok p
     | ModeRecoveryKey => salt = [] /\ argon2 = None
     end.
Proof.
  intros Hp. unfold archive_key_setup. destruct key; intros H; minv; [|done].
  match goal with Hx : drawn _ _ = _ |- _ => apply drawn_Ok in Hx as [-> ->] end. split; [done|]. split; [done|].
  split; [|by eexists]. unfold zlen. rewrite array_length. done.
Qed.

(** What the writer puts in front of the frames. *)
Lemma write_header_Ok {C} key options s h dek n s' total (c : C) :
  validate_options options = Ok tt -> 0 <= ao_record_limit options -> total <= MAX_ARCHIVE_BYTES ->
  write_header key options s = (Ok (h, dek, n), s') ->
  wg_source s' = wg_source s /\ ph_chunk_bytes h = ao_chunk_bytes options
  /\ ph_record_limit h = ao_record_limit options
  /\ exists e, n = zlen e /\ 126 <= zlen e <= 158 /\ wr_bytes (wg_destination s') = wr_bytes (wg_destination s) ++ e
       /\ takes (read_header total key) c e (h, dek, n) c.
Proof.
  intros Hv Hl Ht. apply validate_options_Ok in Hv as (Hc & Hlim & Hp). unfold write_header. intros H.
  apply prog_bind_Ok in H as (id & s1 & Hid & H). injection Hid as <- <-.
  apply prog_bind_Ok in H as ([[salt mode] argon2] & s2 & Hset & H).
  apply archive_key_setup_Ok in Hset as (Es2 & Ed2 & Hmode); [|done]. minv.
  repeat match goal with
  | Hx : drawn _ _ = _ |- _ => apply drawn_Ok in Hx as [? ?]
  | Hx : to_destination _ _ = _ |- _ => apply write_all_Ok in Hx as [? ?]
  | Hx : try_array _ _ = Some _ |- _ => apply try_array_Some in Hx; subst
  end.
  match goal with He : encode_public_header ?h = Ok _ |- _ => assert (header_ok h) as Hok; [|rename He into Henc] end.
  { unfold header_ok. simpl. split_and!; [lia..|done]. }
  destruct (fields_exist _ Hok) as [f Hf]. pose proof (header_salt_bound _ Hok).
  destruct (encode_header_length _ _ _ Hok Hf Henc) as [El _]. unfold MIN_HEADER_BYTES in El.
  split_and!; [simpl in *; congruence|done..|]. eexists. split; [reflexivity|]. split; [lia|].
  split; [simpl in *; congruence|]. by eapply read_header_reads.
Qed.

(** The final manifest ends the reading. *)
Lemma decode_loop_final key archive_id chunk_bytes t fm text nonce ciphertext acc :
  aead_encrypt key nonce (frame_aad archive_id (tr_sequence t) 3 (zlen text + 16)) text = Some ciphertext ->
  zlen text + 16 <= u32_max -> manifest_typed fm -> manifest_to_json fm = Some text ->
  transfer_wf t -> tr_bytes t + (38 + zlen ciphertext) <= u64_max ->
  takes (decode_loop collect 1 key archive_id chunk_bytes t) acc
    (frame_header (zlen text + 16) (tr_sequence t) 3 nonce ++ ciphertext)
    (Some ({| tr_bytes := tr_bytes t + (38 + zlen ciphertext); tr_sequence := tr_sequence t + 1;
              tr_data_frames := tr_data_frames t; tr_logical_bytes := tr_logical_bytes t;
              tr_stream := tr_stream t; tr_counter := tr_counter t |}, fm)) acc.
Proof.
  intros Henc H32 Hfm Hj (Hs & Hb & _) Hb'. cbn [decode_loop]. pose proof (manifest_json_short _ _ Hfm Hj) as Hshort.
  rewrite <- (app_nil_r (_ ++ ciphertext)). pose proof (zlen_nonneg ciphertext).
  eapply takes_bind; [apply read_frame_reads; [done..|split; lia|lia|done]|].
  do 2 (eapply takes_next; [apply takes_lift, add_bounded_Ok; split; [reflexivity|lia]|]).
  eapply takes_next; [by apply takes_reject, Z.ltb_ge|].
  eapply takes_next; [apply takes_lift; by rewrite (manifest_json_round_trip _ _ Hfm Hj)|]. apply takes_ret.
Qed.

(** What follows the body of an archive that was written. *)
Lemma decode_archive_checks total key h m t fm n r r1 :
  read_body collect total key (r, []) = (Ok (h, m, t, fm), (r1, tr_stream t)) ->
  rd_bytes r1 = [] -> steady r1 -> tr_bytes t = total -> counter_finish (tr_counter t) = Ok n ->
  fm = {| fm_record_count := n; fm_logical_bytes := tr_logical_bytes t;
          fm_logical_digest := sha256 (tr_stream t); fm_data_frames := tr_data_frames t |} ->
  exists r', decode_archive collect total key (r, [])
  = (Ok {| va_header := h; va_metadata := m; va_record_count := n; va_logical_bytes := tr_logical_bytes t;
           va_logical_digest := sha256 (tr_stream t) |}, (r', tr_stream t)).
Proof.
  intros Hb E1 H1 Et Hn ->. destruct (io_read_steady 1 r1 H1 ltac:(lia)) as (x & r2 & Ex & _ & _ & Hx).
  exists r2. unfold decode_archive, prog_bind at 1. rewrite Hb, Et.
  unfold prog_bind, prog_reject, prog_lift, from_source. rewrite Z.eqb_refl. simpl. rewrite Ex.
  rewrite (proj2 Hx E1). simpl. rewrite Hn, !Z.eqb_refl, bool_decide_true by done. done.
Qed.

Lemma write_data_Ok limit key archive_id chunk_bytes bytes s t s' :
  0 < chunk_bytes -> 1 <= bytes <= u64_max ->
  write_data key archive_id chunk_bytes (transfer_start bytes limit) s = (Ok (Some t), s') ->
  transfer_wf t /\ transfer_ok limit t /\ tr_stream t = rd_bytes (wg_source s)
  /\ exists p k, wr_bytes (wg_destination s') = wr_bytes (wg_destination s) ++ p
       /\ tr_bytes t = bytes + zlen p
       /\ forall g q x acc,
            takes (decode_loop collect g key archive_id chunk_bytes t) (rd_bytes (wg_source s)) q x acc ->
            takes (decode_loop collect (k + g) key archive_id chunk_bytes (transfer_start bytes limit)) [] (p ++ q) x acc.
Proof.
  intros Hc Hb H. unfold write_data in H. eapply (write_loop_Ok limit) in H as (Hwf & Hok & Es & p & k & Ew & Eb & Hsim);
    [|done|unfold transfer_wf, in_u64, u64_max in *; simpl; lia|apply transfer_ok_start].
  split_and!; [done..|]. exists p, k. split_and!; [done..|]. intros. by apply Hsim.
Qed.

Lemma read_body_reads total key h dek e metadata manifest nonce ct q t fm acc :
  takes (read_header (C := blob) total key) [] e (h, dek, zlen e) [] ->
  aead_encrypt dek nonce (frame_aad (ph_archive_id h) 0 1 (zlen manifest + 16)) manifest = Some ct ->
  zlen manifest + 16 <= u32_max -> zlen manifest <= MAX_MANIFEST_BYTES ->
  metadata_typed metadata -> metadata_to_json metadata = Some manifest ->
  zlen e + (38 + zlen ct) <= u64_max ->
  takes (decode_data collect dek (ph_archive_id h) (ph_chunk_bytes h)
    (transfer_start (zlen e + (38 + zlen ct)) (ph_record_limit h))) [] q (Some (t, fm)) acc ->
  takes (read_body collect total key) [] (e ++ (frame_header (zlen manifest + 16) 0 1 nonce ++ ct) ++ q)
    (h, metadata, t, fm) acc.
Proof.
  intros Hh Henc H32 Hshort Hm Hj Hb Hq. unfold read_body. eapply takes_bind; [exact Hh|].
  eapply takes_bind; [apply read_frame_reads; [done..|unfold in_u64, u64_max; lia|lia|done]|].
  eapply takes_next; [apply takes_reject; by rewrite (proj2 (Z.ltb_ge _ _))|].
  eapply takes_next; [by apply takes_lift, add_bounded_Ok|].
  eapply takes_next; [apply takes_lift; by rewrite (metadata_json_round_trip _ _ Hm Hj)|].
  rewrite <- (app_nil_r q). eapply takes_bind; [exact Hq|].
  eapply takes_next; [by apply takes_lift|]. apply takes_ret.
Qed.
End Written.

(** What was written reads back. *)
Lemma written_archive_reads {CR : Crypto} {CL : CryptoLaws} {AF : ArchiveFormats} {AL : ArchiveLaws}
    (key : ArchiveKey) (metadata : ArchiveMetadata) (options : ArchiveOptions) (s s' : Writing)
    (summary : ArchiveSummary) (archive : blob) (r : Reader)
    (Hmetadata : metadata_typed metadata) (Hlimit : 0 <= ao_record_limit options)
    (Hrun : write_archive key metadata options s = (Ok summary, s'))
    (Harchive : wr_bytes (wg_destination s') = wr_bytes (wg_destination s) ++ archive)
    (Hsize : zlen archive <= MAX_ARCHIVE_BYTES) (Hr : steady r) (Hbytes : rd_bytes r = archive) :
  sum_archive_bytes summary = zlen archive
  /\ exists v r', decode_archive collect (zlen archive) key (r, []) = (Ok v, (r', rd_bytes (wg_source s)))
     /\ ph_archive_id (va_header v) = sum_archive_id summary /\ va_metadata v = metadata
     /\ va_record_count v = sum_record_count summary /\ va_logical_bytes v = sum_logical_bytes summary
     /\ va_logical_digest v = sha256 (rd_bytes (wg_source s)).
Proof.
  unfold write_archive in Hrun. apply prog_bind_Ok in Hrun as ([] & s0 & Hv & H). apply prog_lift_Ok in Hv as [Hv ->].
  apply prog_bind_Ok in H as ([[h dek] n] & s1 & Hh & H).
  eapply (write_header_Ok (C := blob) key options s h dek n s1 (zlen archive) []) in Hh
    as (Es1 & Ec & El & e & -> & He & Ed1 & Hreads); [|done..].
  minv. rewrite !add_bounded_Ok in *. destruct_and!. subst. bprop.
  rename H into Hjson, H2 into Hshort, H3 into Hf0, H5 into Hdata, H7 into Hfin, H8 into Hfm, H9 into Hf3, H11 into Hflush.
  apply write_frame_Ok in Hf0 as (nonce0 & ct0 & Henc0 & H320 & -> & Es2 & Ed2).
  apply write_frame_Ok in Hf3 as (nonce3 & ct3 & Henc3 & H323 & -> & Es4 & Ed4).
  apply validate_options_Ok in Hv as (Hc & Hlim & _). unfold MIN_CHUNK_BYTES, MAX_RECORDS, u64_max in *.
  pose proof (zlen_nonneg ct0). pose proof (zlen_nonneg ct3).
  apply write_data_Ok in Hdata as (Hwf & Hok & Est & p & k & Ed3 & Eb & Hsim); [|lia|unfold u64_max; lia].
  rewrite Es2, Es1 in *.
  assert (rd_bytes r = e ++ (frame_header (zlen x + 16) 0 1 nonce0 ++ ct0) ++ p
    ++ frame_header (zlen x13 + 16) (tr_sequence x9) 3 nonce3 ++ ct3) as Ear.
  { apply (app_inv_head (wr_bytes (wg_destination s))). rewrite <- Harchive.
    unfold to_destination, flush in Hflush. simpl in Hflush. injection Hflush as _ <-. cbn [wg_destination].
    by rewrite Ed4, Ed3, Ed2, Ed1, <- !app_assoc. }
  assert (tr_bytes x9 + (38 + zlen ct3) = zlen (rd_bytes r)) as Elen.
  { rewrite Ear, Eb, !zlen_app, !zlen_frame_header. lia. }
  split; [done|].
  assert (manifest_typed {| fm_record_count := x11; fm_logical_bytes := tr_logical_bytes x9;
            fm_logical_digest := sha256 (tr_stream x9); fm_data_frames := tr_data_frames x9 |}) as Hfmt.
  { destruct (transfer_ok_records (ao_record_limit options) x9 x11) as (rs & _ & _ & -> & Hrs); [unfold u64_max; lia|done..|].
    pose proof (zlen_nonneg rs). destruct Hwf as (_ & _ & ? & ?). split_and!; [unfold in_u64, u64_max; simpl; lia|done..]. }
  pose proof (decode_loop_final dek (ph_archive_id h) (ao_chunk_bytes options) x9 _ x13 nonce3 ct3
    (rd_bytes (wg_source s)) Henc3 H323 Hfmt Hfm Hwf ltac:(unfold u64_max; lia)) as Hlast.
  eapply Hsim, (decode_data_reads collect) in Hlast.
  rewrite <- Ec, <- El in Hlast.
  pose proof (read_body_reads _ _ _ _ _ _ _ _ _ _ _ _ _ Hreads Henc0 H320 Hshort Hmetadata Hjson
    ltac:(unfold u64_max; lia) Hlast) as [Hbody _]. rewrite <- Ear in Hbody.
  destruct (Hbody r [] Hr) as (r1 & Erun & E1 & H1r); [by rewrite app_nil_r|].
  rewrite <- Est in Erun |- *. destruct (decode_archive_checks _ _ _ _ _ _ x11 _ _ Erun E1 H1r) as [r' Hdec]; [done..|].
  eexists _, r'. split; [exact Hdec|]. done.
Qed.

(** C23. An archive reads back as it was written: when [write_archive]
    succeeds with a key, reading what it wrote with that key succeeds, however
    the reads are cut, delivers the logical stream, and reports the metadata, the
    counts and the identity of the summary, as long as the archive is within the
    64 GiB the reader accepts. *)
Theorem archive_round_trips {CR : Crypto} {CL : CryptoLaws} {AF : ArchiveFormats} {AL : ArchiveLaws}
    (key : ArchiveKey) (metadata : ArchiveMetadata) (options : ArchiveOptions) (s s' : Writing)
    (summary : ArchiveSummary) (archive : blob) (r : Reader)
    (Hmetadata : metadata_typed metadata) (Hlimit : 0 <= ao_record_limit options)
    (Hrun : write_archive key metadata options s = (Ok summary, s'))
    (Harchive : wr_bytes (wg_destination s') = wr_bytes (wg_destination s) ++ archive)
    (Hsize : zlen archive <= MAX_ARCHIVE_BYTES) (Hr : steady r) (Hbytes : rd_bytes r = archive) :
  sum_archive_bytes summary = zlen archive
  /\ exists v r', decode_archive collect (zlen archive) key (r, []) = (Ok v, (r', rd_bytes (wg_source s)))
     /\ ph_archive_id (va_header v) = sum_archive_id summary /\ va_metadata v = metadata
     /\ va_record_count v = sum_record_count summary /\ va_logical_bytes v = sum_logical_bytes summary
     /\ va_logical_digest v = sha256 (rd_bytes (wg_source s)).
Proof. exact (written_archive_reads key metadata options s s' summary archive r Hmetadata Hlimit Hrun Harchive Hsize Hr Hbytes). Qed.
