(* ===== verification/VaultTree.v ===== *)
(** The namespace tree: creation bounds its depth, a move keeps it a forest. *)
From Stdlib Require Import ZArith Lia Strings.Byte String.
From stdpp Require Import base tactics numbers option strings list gmap sets.
From S2P Require Import Prelude RustStd Core Crypto ToyCrypto Sql Schema Records StoreInv RecordsOk PolicyStore RotationStore VaultStore Store RecordsProps Metadata VaultCore ToyVault VaultAudit VaultRuns VaultProps.

(** Following parents from a namespace reaches a root. *)
Inductive rooted (d : Db) : blob -> Prop :=
| rooted_root id r : find_namespace d id = Some r -> ns_parent_namespace_id r = None -> rooted d id
| rooted_child id r p : find_namespace d id = Some r -> ns_parent_namespace_id r = Some p ->
    rooted d p -> rooted d id.

(** No namespace is its own ancestor, and every ancestor exists. *)
Definition forest (d : Db) : Prop :=
  forall r, r ∈ rows (db_namespaces d) -> rooted d (ns_namespace_id r).

(** * Lemmas *)

Lemma ancestors_S d n id :
  ancestors d (S n) id
  = match find_namespace d id with
    | None => []
    | Some r => ns_namespace_id r :: match ns_parent_namespace_id r with None => [] | Some p => ancestors d n p end
    end.
Proof. done. Qed.

Lemma ancestors_length_mono d n id : (length (ancestors d n id) <= length (ancestors d (S n) id))%nat.
Proof.
  revert id. induction n as [|n IH]; intros id; [simpl; lia|].
  rewrite !(ancestors_S d _ id). destruct (find_namespace d id) as [r|]; [|simpl; lia].
  destruct (ns_parent_namespace_id r) as [p|]; cbn [length]; [|lia].
  specialize (IH p). lia.
Qed.

(** A chain of ancestors that avoids [id] is the same where only [id] differs. *)
Lemma ancestors_same d d' id n x :
  (forall y, y <> id -> find_namespace d' y = find_namespace d y) ->
  (forall y r, find_namespace d y = Some r -> ns_namespace_id r = y) ->
  id ∉ ancestors d n x -> find_namespace d id <> None -> ancestors d' n x = ancestors d n x.
Proof.
  intros Hd Hid. revert x. induction n as [|n IH]; intros x Hx Hf; cbn [ancestors] in *; [done|].
  destruct (decide (x = id)) as [->|Hne].
  - destruct (find_namespace d id) as [r|] eqn:E; [|done]. apply Hid in E. set_solver.
  - rewrite Hd by done. destruct (find_namespace d x) as [r|]; [|done]. f_equal.
    destruct (ns_parent_namespace_id r) as [p|]; [|done]. apply IH; set_solver.
Qed.

Lemma find_namespace_id d y r : tables_ok d -> find_namespace d y = Some r -> ns_namespace_id r = y.
Proof. intros Ht H. by apply find_namespace_Some in H as [_ ?]. Qed.

(** A complete chain of ancestors that avoids [id] reaches a root also where
    only [id] differs. *)
Lemma complete_chain_rooted d d' id n x :
  (forall y, y <> id -> find_namespace d' y = find_namespace d y) ->
  (forall y r, find_namespace d y = Some r -> ns_namespace_id r = y) ->
  (forall y r p, find_namespace d y = Some r -> ns_parent_namespace_id r = Some p -> find_namespace d p <> None) ->
  id ∉ ancestors d n x -> (length (ancestors d n x) < n)%nat -> find_namespace d x <> None -> rooted d' x.
Proof.
  intros Hd Hid Hfk. revert x. induction n as [|n IH]; intros x Hx Hlen Hf; cbn [ancestors] in *; [lia|].
  destruct (find_namespace d x) as [r|] eqn:E; [|done]. pose proof (Hid _ _ E) as Er.
  assert (x <> id) as Hne by set_solver.
  assert (find_namespace d' x = Some r) as E' by (rewrite Hd; done).
  destruct (ns_parent_namespace_id r) as [p|] eqn:Ep; [|by eapply rooted_root].
  eapply rooted_child; [done..|]. apply IH; [set_solver|cbn [length] in Hlen; lia|eauto].
Qed.

Lemma namespace_parent_found d y r p :
  db_ok d -> find_namespace d y = Some r -> ns_parent_namespace_id r = Some p -> find_namespace d p <> None.
Proof.
  intros Hok H Hp. apply find_namespace_Some in H as [Hr _]; [|apply Hok].
  destruct (ok_parent _ (ok_ns _ Hok) r p Hr Hp) as (n & Hn & E).
  rewrite (proj2 (find_namespace_Some d p n (ok_tables _ Hok))) by done. done.
Qed.

(** What a move of the store does to lookups. *)
Lemma move_namespace_find id rev parent i c u a d k d' :
  db_ok d -> move_namespace id rev parent i c u a d = (Ok k, d') ->
  db_ok d' /\ (forall y, y <> arr id -> find_namespace d' y = find_namespace d y)
  /\ (exists r r', find_namespace d (arr id) = Some r /\ find_namespace d' (arr id) = Some r'
        /\ ns_parent_namespace_id r' = arr <$> parent).
Proof.
  intros Hok H. pose proof (move_namespace_preserves id rev parent i c u a d k d' H Hok) as Hok'. split; [done|].
  unfold move_namespace in H. txn0.
  match goal with H : sql_update _ _ _ _ = Some _ |- _ => apply sql_update_Some in H as (Hn & Hr & _) end.
  match goal with H : insert_audit _ _ = _ |- _ => apply insert_audit_Ok in H as (_ & _ & t & _ & ->) end.
  bprop. subst x0 x7. match goal with H : context [update_rows _ ?g _] |- _ => set (f := g) in * end. split.
  - intros y Hy. unfold find_namespace, select_one. cbn. rewrite select_update_out; [done|done|].
    intros r _ [[E%blob_eqb_true _]%andb_true_iff _]%andb_true_iff.
    apply blob_eqb_false. congruence.
  - match goal with H : count ?q _ = 1 |- _ => destruct (count_pos q (db_namespaces d)) as (r & Hr & E); [lia|] end.
    assert (ns_namespace_id r = arr id) as Er 
      by (apply andb_true_iff in E as [[E%blob_eqb_true _]%andb_true_iff _]; done).
    exists r, (f r). split; [by apply find_namespace_Some; [apply Hok|]|]. split; [|done].
    apply find_namespace_Some; [apply Hok'|]. split; [|done]. cbn. apply elem_of_rows_update.
    exists r. by rewrite E.
Qed.

(** Before the store is asked to move, the new parent is known to be above
    fewer than 32 namespaces, none of them the one that moves. *)
Lemma move_checked_parent self {CR : Crypto} id rev p op w k w' :
  quiet w -> move_namespace_core self id rev (Some p) op w = (Ok k, w') ->
  p <> id /\ find_namespace (w_db w) (arr p) <> None
  /\ (length (ancestors (w_db w) ANCESTOR_ROWS (arr p)) < 32)%nat
  /\ arr id ∉ ancestors (w_db w) ANCESTOR_ROWS (arr p).
Proof.
  intros Hq H. unfold move_namespace_core, decrypt_with in H. vinv. bprop.
  split; [done|]. split; [|split].
  - unfold namespace in *. destruct (find_namespace (w_db w) (arr p)); done.
  - match goal with H : namespace_depth _ _ = Ok _ |- _ => unfold namespace_depth in H end.
    destruct (ancestors (w_db w) ANCESTOR_ROWS (arr p)) as [|x0 l0]; [simpl; lia|].
    match goal with H : parse_uint _ _ = Ok _ |- _ => apply ok_or_Ok, try_from_Some in H as [-> _] end.
    unfold zlen, MAX_NAMESPACE_DEPTH in *. lia.
  - match goal with H : namespace_ancestors_inclusive _ _ = Ok _ |- _ => unfold namespace_ancestors_inclusive in H end.
    match goal with H : result_bind _ _ = Ok _ |- _ => apply result_bind_Ok in H as (ids & Hids & Hab) end.
    apply result_mapM_Forall2 in Hids. intros Hin.
    destruct (Forall2_elem_l _ _ _ _ Hids Hin) as (u & Hu & E). rewrite parse_uuid_arr in E. injection E as <-.
    destruct ids; simplify_eq.
Qed.

Lemma move_core_store self {CR : Crypto} id rev parent op w k w' :
  quiet w -> move_namespace_core self id rev parent op w = (Ok k, w') ->
  exists i c a, move_namespace id rev parent i c (oc_now_unix_ms op) a (w_db w) = (Ok k, w_db w').
Proof.
  intros Hq H. unfold move_namespace_core, decrypt_with in H.
  destruct parent; vinv;
    match goal with H : build_audit _ _ _ _ _ _ = _ |- _ => apply build_audit_Ok in H as [? ->]; [|done] end;
    vinv; cbn in *; eauto.
Qed.

(** C34. A move keeps the namespaces a forest: if every namespace reaches a
    root through its parents, then after a successful move on a quiescent vault
    every namespace still does. The ancestor query is cut off at 33 rows, but
    the depth check before it makes it complete where it is relied on. *)
Theorem move_keeps_forest {CR : Crypto} (self : InitializedVault) (id : NamespaceId) (rev k : Z)
    (parent : option NamespaceId) (op : OperationContext) (w w' : World)
    (Hq : quiet w) (Hok : db_ok (w_db w)) (Hf : forest (w_db w))
    (Hrun : move_namespace_core self id rev parent op w = (Ok k, w')) :
  forest (w_db w').
Proof.
  destruct (move_core_store _ _ _ _ _ _ _ _ Hq Hrun) as (i & c & a & Hst).
  destruct (move_namespace_find _ _ _ _ _ _ _ _ _ _ Hok Hst) as (Hok' & Hsame & r & r' & Hr & Hr' & Hpar).
  assert (rooted (w_db w') (arr id)) as Hid.
  { destruct parent as [p|]; [|by eapply rooted_root].
    destruct (move_checked_parent _ _ _ _ _ _ _ _ Hq Hrun) as (Hne & Hp & Hlen & Hnin).
    eapply rooted_child; [done..|]. eapply complete_chain_rooted; eauto using find_namespace_id, ok_tables, namespace_parent_found.
    unfold ANCESTOR_ROWS in *. lia. }
  assert (forall x, rooted (w_db w) x -> rooted (w_db w') x) as Hall.
  { induction 1 as [x n Hn Hp|x n p Hn Hp _ IH]; (destruct (decide (x = arr id)) as [->|Hne]; [done|]).
    - eapply rooted_root; [by rewrite Hsame|done].
    - eapply rooted_child; [by rewrite Hsame|done..]. }
  intros n Hn. destruct (decide (ns_namespace_id n = arr id)) as [->|Hne]; [done|].
  assert (find_namespace (w_db w') (ns_namespace_id n) = Some n) as E by (by apply find_namespace_Some; [apply Hok'|]).
  rewrite Hsame in E by done. apply find_namespace_Some in E as [E _]; [|apply Hok]. by apply Hall, Hf.
Qed.

(** What a creation of the store does to lookups. *)
Lemma create_namespace_find n a d u d' :
  db_ok d -> er_typed (ni_metadata n) -> create_namespace n a d = (Ok u, d') ->
  db_ok d' /\ (forall y, y <> arr (ni_namespace_id n) -> find_namespace d' y = find_namespace d y)
  /\ find_namespace d (arr (ni_namespace_id n)) = None
  /\ find_namespace d' (arr (ni_namespace_id n)) = Some (namespace_row n).
Proof.
  intros Hok Ht H. pose proof (create_namespace_preserves n a Ht d u d' H Hok) as Hok'. split; [done|].
  unfold create_namespace in H. txn0.
  match goal with H : sql_insert _ _ _ = Some _ |- _ => apply sql_insert_Some in H as (-> & _ & Hc) end.
  match goal with H : insert_audit _ _ = _ |- _ => apply insert_audit_Ok in H as (_ & _ & t & _ & ->) end.
  split; [|split].
  - intros y Hy. unfold find_namespace, select_one. cbn. rewrite select_insert. cbn.
    replace (blob_eqb _ y) with false by (symmetry; apply blob_eqb_false; congruence). by rewrite app_nil_r.
  - destruct (find_namespace d _) as [r|] eqn:E; [|done]. apply find_namespace_Some in E as [Hr E]; [|apply Hok].
    exfalso. specialize (Hc r Hr). assert (clash namespaces_schema (namespace_row n) r = true); [|congruence].
    eapply (clash_at _ _ _ 0); cbn; [done|by rewrite E].
  - apply find_namespace_Some; [apply Hok'|]. split; [|done]. cbn. rewrite elem_of_rows_insert. by right.
Qed.

Lemma create_core_store {CR : Crypto} {CL : CryptoLaws} self id parent m op w x w' :
  quiet w -> in_u32 (kr_active_version (w_ring w)) ->
  create_namespace_with_id self id parent m op w = (Ok x, w') ->
  exists n a, create_namespace n a (w_db w) = (Ok tt, w_db w') /\ er_typed (ni_metadata n)
    /\ ni_namespace_id n = id /\ ni_parent_namespace_id n = parent
    /\ (forall p, parent = Some p -> find_namespace (w_db w) (arr p) <> None
          /\ (length (ancestors (w_db w) ANCESTOR_ROWS (arr p)) < 32)%nat).
Proof.
  intros Hq Hr H. unfold create_namespace_with_id in H.
  destruct parent as [p|]; vinv;
    match goal with H : encrypt_record _ _ _ _ _ _ _ = _ |- _ => apply encrypt_record_Ok in H as ([? ->] & _ & Hk & _) end;
    vinv;
    match goal with H : build_audit _ _ _ _ _ _ = _ |- _ => apply build_audit_Ok in H as [? ->]; [|done] end;
    vinv; match goal with H : create_namespace ?n ?a _ = (Ok ?u, _) |- _ => destruct u; exists n, a end;
    (split; [done|]); (split; [by eapply active_typed|]); (split; [done|]); (split; [done|]); [|done].
  intros ? [= <-]. bprop. split; [unfold namespace in *; destruct (find_namespace (w_db w) (arr p)); done|].
  match goal with H : namespace_depth _ _ = Ok _ |- _ => unfold namespace_depth in H end.
  destruct (ancestors (w_db w) ANCESTOR_ROWS (arr p)) as [|y l0]; [simpl; lia|].
  match goal with H : parse_uint _ _ = Ok _ |- _ => apply ok_or_Ok, try_from_Some in H as [-> _] end.
  unfold zlen, MAX_NAMESPACE_DEPTH in *. lia.
Qed.

(** Where [id] is new, no chain of ancestors of an older namespace meets it. *)
Lemma ancestors_unaffected d d' id n x :
  db_ok d -> (forall y, y <> id -> find_namespace d' y = find_namespace d y) ->
  find_namespace d id = None -> x <> id -> ancestors d' n x = ancestors d n x.
Proof.
  intros Hok Hd Hn. revert x. induction n as [|n IH]; intros x Hx; cbn [ancestors]; [done|].
  rewrite Hd by done. destruct (find_namespace d x) as [r|] eqn:E; [|done]. f_equal.
  destruct (ns_parent_namespace_id r) as [p|] eqn:Ep; [|done]. apply IH. intros ->.
  by eapply namespace_parent_found.
Qed.

(** Creation bounds the tree: a namespace created on a quiescent vault
    lies at a depth of at most [MAX_NAMESPACE_DEPTH] counted from one, and the
    namespaces stay a forest. *)
Theorem created_namespace_in_bounds {CR : Crypto} {CL : CryptoLaws} (self : InitializedVault)
    (id x : NamespaceId) (parent : option NamespaceId) (m : Metadata) (op : OperationContext) (w w' : World)
    (Hq : quiet w) (Hok : db_ok (w_db w)) (Hring : in_u32 (kr_active_version (w_ring w)))
    (Hf : forest (w_db w))
    (Hrun : create_namespace_with_id self id parent m op w = (Ok x, w')) :
  (exists depth, namespace_depth (w_db w') id = Ok depth /\ 1 <= depth <= MAX_NAMESPACE_DEPTH)
  /\ forest (w_db w').
Proof.
  destruct (create_core_store _ _ _ _ _ _ _ _ Hq Hring Hrun) as (n & a & Hst & Ht & <- & Hp & Hdepth).
  destruct (create_namespace_find n a _ _ _ Hok Ht Hst) as (Hok' & Hsame & Hnew & Hfind).
  split.
  - unfold namespace_depth. change ANCESTOR_ROWS with (S 32) in *. rewrite ancestors_S, Hfind.
    cbn [namespace_row ns_parent_namespace_id ns_namespace_id]. rewrite Hp. destruct parent as [p|]; cbn [fmap option_fmap option_map].
    + destruct (Hdepth p eq_refl) as [Hfp Hl].
      rewrite (ancestors_unaffected (w_db w) _ (arr (ni_namespace_id n))) by (done || intros E; congruence).
      pose proof (ancestors_length_mono (w_db w) 32 (arr p)) as Hm.
      rewrite parse_uint_Ok by (unfold zlen, u16_max; cbn [length]; lia).
      eexists. split; [done|]. unfold zlen, MAX_NAMESPACE_DEPTH. cbn [length]. lia.
    + exists 1. done.
  - assert (forall y, rooted (w_db w) y -> rooted (w_db w') y) as Hall.
    { assert (forall y r, find_namespace (w_db w) y = Some r -> find_namespace (w_db w') y = Some r) as Hkeep.
      { intros y r Hy. rewrite Hsame; [done|]. intros ->. congruence. }
      induction 1; [eapply rooted_root|eapply rooted_child]; eauto. }
    intros r Hr. destruct (decide (ns_namespace_id r = arr (ni_namespace_id n))) as [E|E].
    + rewrite E. destruct parent as [p|].
      * eapply rooted_child; [done|cbn; by rewrite Hp|]. destruct (Hdepth p eq_refl) as [Hfp _]. apply Hall.
        destruct (find_namespace (w_db w) (arr p)) as [q|] eqn:Eq; [|done].
        apply find_namespace_Some in Eq as [Hq' <-]; [|apply Hok]. by apply Hf.
      * eapply rooted_root; [done|]. cbn. by rewrite Hp.
    + apply Hall. assert (find_namespace (w_db w') (ns_namespace_id r) = Some r) as F
        by (by apply find_namespace_Some; [apply Hok'|]).
      rewrite Hsame in F by done. apply find_namespace_Some in F as [F _]; [|apply Hok]. by apply Hf.
Qed.

(** ** The depth of a moved subtree *)

#[local] Existing Instance toy_crypto.

(** A chain of 31 namespaces, and apart from it one with a child. *)
Definition deep_ops : list (VaultOp * OperationContext) :=
  ((fun k : nat => (VCreateNamespaceWithId (uid (100 + Z.of_nat k))
                      (if Nat.eqb k 1 then None else Some (uid (99 + Z.of_nat k))) (toy_metadata "level"),
                    toy_op 2000)) <$> seq 1 31)
  ++ [(VCreateNamespaceWithId (uid 201) None (toy_metadata "moved"), toy_op 3000);
      (VCreateNamespaceWithId (uid 202) (Some (uid 201)) (toy_metadata "child"), toy_op 3000)].

(** Moving bounds only the depth of the moved namespace, not of what lies
    below it: a vault with a chain of 31 namespaces and, apart from it, one
    namespace with a child accepts moving the pair below the chain, which puts
    the child at depth 33, beyond the [MAX_NAMESPACE_DEPTH] that creation
    enforces. *)
Theorem moved_subtree_exceeds_depth :
  let '(r, w') := move_namespace_core toy_vault (uid 201) 1 (Some (uid 131)) (toy_op 4000)
                    (run_all toy_vault deep_ops toy_world) in
  r = Ok 2 /\ namespace_depth (w_db w') (uid 202) = Ok 33 /\ MAX_NAMESPACE_DEPTH < 33.
Proof.
  vm_compute. split; [reflexivity|split; reflexivity].
Qed.
