(* ===== verification/Witnesses.v ===== *)
(** The theorems of the development applied at concrete inputs: a vault over the
    toy cryptography, its operations evaluated. *)
From Stdlib Require Import ZArith Lia Strings.Byte String.
From stdpp Require Import base tactics numbers option strings list gmap sets.
From S2P Require Import Prelude RustStd Core Crypto ToyCrypto Sql Schema Records StoreInv RecordsOk PolicyStore VaultStore RotationStore IdentityStore Store RecordsProps Metadata VaultCore Authentication Authorization ServiceIdentity AuthorizedVault ToyVault VaultAudit VaultRuns AppRuns VaultProps VaultTree.

#[local] Existing Instance toy_crypto.
#[local] Existing Instance toy_laws.

(** ** The vault and its runs *)

Lemma run_Ok {S E A} (m : Prog S E A) s a : fst (m s) = Ok a -> m s = (Ok a, snd (m s)).
Proof. destruct (m s). simpl. by intros ->. Qed.

Lemma run_same {S E A} (m : Prog S E A) s d :
  snd (m s) = s -> is_ok (fst (m s)) = true ->
  m s = (Ok (match fst (m s) with Ok v => v | Err _ => d end), s).
Proof. destruct (m s) as [[]]; simpl; [by intros ->|done]. Qed.

Lemma toy_world_ok : world_ok toy_vault toy_world.
Proof.
  split.
  - apply exec_all_ok; [repeat constructor|apply db_ok_empty].
  - intros r Hr. assert (rows (db_audit (w_db toy_world)) = []) as E by (vm_compute; reflexivity).
    rewrite E in Hr. by apply not_elem_of_nil in Hr.
  - constructor.
  - vm_compute. split; discriminate.
Qed.

(** An event another connection of the same vault prepares and commits before
    the first storage call of this one. *)
Definition peer_event : AuditRecord :=
  match fst (build_audit toy_vault "secret:metadata-read" "secret" (Some (uid 200)) (toy_op 2500) toy_world) with
  | Ok a => a
  | Err _ => {| ar_commitment_version := 2; ar_sequence := 1; ar_event_id := uid 0; ar_installation_id := uid 0;
                ar_recovery_epoch := 0; ar_occurred_at_unix_ms := 0; ar_request_id := uid 0;
                ar_actor_principal_id := None; ar_credential_kind := None; ar_credential_id := None;
                ar_action := "none"; ar_target_kind := "none"; ar_target_id := None; ar_outcome := "failed";
                ar_previous_commitment := zeros 32; ar_commitment := zeros 32 |}
  end.

Lemma peer_event_ok : event_ok toy_vault peer_event.
Proof.
  assert (in_i64 (oc_now_unix_ms (toy_op 2500))) as Ht by (unfold in_i64, i64_min, i64_max; cbn; lia).
  destruct (keeps_build_audit toy_vault "secret:metadata-read" "secret" (Some (uid 200)) (toy_op 2500) Ht
              toy_world toy_world_ok) as [_ H].
  assert (is_ok (fst (build_audit toy_vault "secret:metadata-read" "secret" (Some (uid 200)) (toy_op 2500) toy_world))
          = true) as Hok by (vm_compute; reflexivity).
  unfold peer_event. revert H Hok. generalize (fst (build_audit toy_vault "secret:metadata-read" "secret"
    (Some (uid 200)) (toy_op 2500) toy_world)). intros [a|e] H Hok; [by apply H|done].
Qed.

Definition busy_world : World :=
  {| w_db := w_db toy_world; w_draws := 2000; w_ring := w_ring toy_world;
     w_root_key := w_root_key toy_world; w_schedule := [[OpAppendAudit peer_event]] |}.

Lemma append_peer a : event_ok toy_vault a -> peer_op toy_vault (OpAppendAudit a).
Proof. intros Ha. split; [exact I|]. by intros ? [= <-]. Qed.

Lemma busy_world_ok : world_ok toy_vault busy_world.
Proof.
  destruct toy_world_ok as [H1 H2 _ H4]. split; [exact H1|exact H2| |exact H4].
  exact (Forall_cons_2 _ _ _ (Forall_cons_2 _ _ _ (append_peer _ peer_event_ok) (Forall_nil_2 _)) (Forall_nil_2 _)).
Qed.

Definition in_root (v : VaultOp) : VaultOp * OperationContext := (v, toy_op 3000).

Definition demo_ops : list (VaultOp * OperationContext) :=
  in_root <$> [VCreateNamespaceWithId (uid 100) None (toy_metadata "root");
               VCreateNamespaceWithId (uid 101) (Some (uid 100)) (toy_metadata "team");
               VCreateSecretWithId (uid 200) (uid 100) (toy_metadata "db") (bstr "hunter2") default_schedule].

Lemma demo_times : Forall (fun vo : VaultOp * OperationContext => in_i64 (oc_now_unix_ms vo.2)) demo_ops.
Proof.
  apply Forall_forall. intros x (v & -> & _)%list_elem_of_fmap. unfold in_i64, i64_min, i64_max. cbn. lia.
Qed.

(** The world after the three creations. *)
Definition demo_world : World := run_all toy_vault demo_ops toy_world.

Lemma demo_world_ok : world_ok toy_vault demo_world.
Proof. exact (run_all_ok toy_vault demo_ops toy_world demo_times toy_world_ok). Qed.
Lemma demo_quiet : quiet demo_world.
Proof. vm_compute. reflexivity. Qed.
Lemma demo_ring : in_u32 (kr_active_version (w_ring demo_world)).
Proof. exact (wk_ring _ _ demo_world_ok). Qed.

(** The owner enrolls, logs in and asks for a secret while an event of another
    connection commits. *)
Definition demo_apps : list (AppOp * RequestId * Z) :=
  [(AEnrollOwner (rs "correct horse battery"), uid 301, 5000);
   (ALogin (rs "correct horse battery"), uid 302, 6000);
   (AFacade (RequestService {| asv_principal_id := uid 9; asv_credential_id := uid 10 |}) (FReveal (uid 201)),
    uid 303, 7000)].

Lemma demo_apps_times : Forall (fun x => in_i64 x.2) demo_apps.
Proof. repeat constructor; unfold in_i64, i64_min, i64_max; cbn; lia. Qed.


Definition created : SecretCreated := {| scr_secret_id := uid 201; scr_version := 1; scr_revision := 1 |}.
Abbreviation create_demo :=
  (create_secret_with_id_and_schedule toy_vault (uid 201) (uid 101) (toy_metadata "api") (bstr "s3cr3t")
    default_schedule (toy_op 4000)).

Lemma create_demo_run : create_demo demo_world = (Ok created, snd (create_demo demo_world)).
Proof. apply run_Ok. vm_compute. reflexivity. Qed.

Lemma created_secret_reads_back_witness :
  read_secret_metadata toy_vault (uid 201) (snd (create_demo demo_world))
  = (Ok (toy_metadata "api"), snd (create_demo demo_world)).
Proof.
  exact (proj1 (proj2 (created_secret_reads_back toy_vault (uid 201) (uid 101) (toy_metadata "api") (bstr "s3cr3t")
    default_schedule (toy_op 4000) demo_world (snd (create_demo demo_world)) created demo_quiet
    (wk_db _ _ demo_world_ok) demo_ring create_demo_run))).
Defined.

Abbreviation update_demo :=
  (update_secret_with_schedule toy_vault (uid 200) 1 1 (bstr "hunter3") default_schedule (toy_op 5000)).

Lemma update_demo_run : update_demo demo_world = (Ok 2, snd (update_demo demo_world)).
Proof. apply run_Ok. vm_compute. reflexivity. Qed.

Lemma updated_secret_reads_back_witness :
  fst (reveal_current_secret toy_vault (uid 200) (toy_op 6000) (snd (update_demo demo_world))) = Ok (bstr "hunter3").
Proof.
  rewrite (proj1 (proj2 (updated_secret_reads_back toy_vault (uid 200) 1 1 2 (bstr "hunter3") default_schedule
    (toy_op 5000) demo_world (snd (update_demo demo_world)) demo_quiet (wk_db _ _ demo_world_ok) demo_ring
    ltac:(lia) update_demo_run))).
  vm_compute. reflexivity.
Defined.

(** ** The verified log *)

Lemma demo_sequences : sequences_i64 (w_db demo_world).
Proof.
  intros r Hr. pose proof (ok_linked _ (wk_db _ _ demo_world_ok)) as Hl. apply linked_seq in Hl.
  rewrite Forall_forall in Hl. by apply Hl.
Qed.
Lemma demo_audit_table : table_ok audit_schema (db_audit (w_db demo_world)).
Proof. apply ok_audit_table, ok_tables, (wk_db _ _ demo_world_ok). Qed.

Definition demo_report : AuditVerification :=
  match fst (verify_audit_chain toy_vault demo_world) with
  | Ok v => v
  | Err _ => verification_at origin
  end.

Lemma demo_verifies : verify_audit_chain toy_vault demo_world = (Ok demo_report, demo_world).
Proof.
  apply run_same.
  - exact (proj1 (verify_audit_chain_spec toy_vault demo_world demo_quiet demo_audit_table demo_sequences)).
  - vm_compute. reflexivity.
Qed.


Lemma anchored_history_unchanged_witness :
  exists recs, audit_log (w_db demo_world) = Ok recs
    /\ ((exists suffix, recs = recs ++ suffix) \/ hmac_collision (iv_audit_key toy_vault)).
Proof.
  destruct (audit_chain_of_ok toy_vault _ (wk_db _ _ demo_world_ok) (wk_log _ _ demo_world_ok))
    as (recs & Hl & Hc & Ht & _).
  exists recs. split; [exact Hl|].
  apply (anchored_history_unchanged toy_vault recs recs Ht Ht Hc Hc). by rewrite firstn_all.
Defined.

Definition stray_row : AuditRow :=
  {| au_sequence := 0; au_event_id := arr (uid 9); au_installation_id := arr (uid 9); au_recovery_epoch := 0;
     au_occurred_at := 0; au_request_id := arr (uid 9); au_actor_principal_id := None; au_action := "secret:purge";
     au_target_kind := "secret"; au_target_id := None; au_outcome := "allowed";
     au_previous_commitment := arr (zeros 32); au_commitment := arr (zeros 32); au_commitment_version := 2;
     au_credential_kind := None; au_credential_id := None |}.

Lemma stray_inserted :
  sql_insert audit_schema stray_row (db_audit (w_db demo_world)) = Some (insert_row stray_row (db_audit (w_db demo_world))).
Proof. vm_compute. reflexivity. Qed.
Lemma demo_report_counts : 0 < av_events_verified demo_report.
Proof. vm_compute. reflexivity. Qed.

Lemma unnumbered_row_goes_unnoticed_witness :
  let w' := set_w_db (set_audit (insert_row stray_row (db_audit (w_db demo_world))) (w_db demo_world)) demo_world in
  verify_audit_chain toy_vault w' = (Ok demo_report, w').
Proof.
  exact (unnumbered_row_goes_unnoticed toy_vault demo_world stray_row demo_report demo_quiet demo_audit_table
    demo_sequences demo_verifies demo_report_counts (Z.le_refl 0)
    (sql_insert_ok _ _ _ _ stray_inserted demo_audit_table)).
Defined.

(** ** State commitments, metadata, names and trees *)

Definition demo_state : CommittedState :=
  SecretState (uid 200) (uid 100) (fixed 32 8) "active" 1 1 1 default_schedule.
Definition demo_commitment : array 32 :=
  match commit_state toy_vault demo_state with Ok c => c | Err _ => zeros 32 end.
Lemma demo_commits : commit_state toy_vault demo_state = Ok demo_commitment.
Proof. vm_compute. reflexivity. Qed.
Lemma demo_state_typed : state_typed demo_state.
Proof. cbn. unfold in_u64, u64_max, timestamp_typed. split_and!; try lia; done. Qed.

Lemma state_commitment_binds_witness :
  demo_state = demo_state \/ hmac_collision (iv_audit_key toy_vault).
Proof.
  exact (state_commitment_binds toy_vault demo_state demo_state demo_commitment demo_state_typed demo_state_typed
           demo_commits demo_commits).
Defined.

Lemma metadata_codec_canonical_witness :
  match encode_metadata (toy_metadata "db") 2 with
  | Ok b => decode_metadata b 2 = Ok (toy_metadata "db")
  | Err _ => False
  end.
Proof.
  destruct (encode_metadata (toy_metadata "db") 2) as [b|e] eqn:E; [|vm_compute in E; discriminate E].
  apply (metadata_codec_canonical b 2 (toy_metadata "db")); [lia|]. split; [vm_compute; reflexivity|exact E].
Defined.

Lemma toy_forest : forest (w_db toy_world).
Proof.
  intros r Hr. assert (rows (db_namespaces (w_db toy_world)) = []) as E by (vm_compute; reflexivity).
  rewrite E in Hr. by apply not_elem_of_nil in Hr.
Qed.

Abbreviation root_demo := (create_namespace_with_id toy_vault (uid 100) None (toy_metadata "root") (toy_op 3000)).
Lemma root_demo_run : root_demo toy_world = (Ok (uid 100), snd (root_demo toy_world)).
Proof. apply run_Ok. vm_compute. reflexivity. Qed.

Lemma created_namespace_in_bounds_witness :
  (exists depth, namespace_depth (w_db (snd (root_demo toy_world))) (uid 100) = Ok depth
                 /\ 1 <= depth <= MAX_NAMESPACE_DEPTH)
  /\ forest (w_db (snd (root_demo toy_world))).
Proof.
  exact (created_namespace_in_bounds toy_vault (uid 100) (uid 100) None (toy_metadata "root") (toy_op 3000)
    toy_world (snd (root_demo toy_world)) eq_refl (wk_db _ _ toy_world_ok) (wk_ring _ _ toy_world_ok) toy_forest
    root_demo_run).
Defined.

Lemma demo_namespaces : ns_namespace_id <$> rows (db_namespaces (w_db demo_world)) = [arr (uid 100); arr (uid 101)].
Proof. vm_compute. reflexivity. Qed.
Lemma demo_root : rooted (w_db demo_world) (arr (uid 100)).
Proof. eapply rooted_root; [vm_compute; reflexivity|reflexivity]. Qed.
Lemma demo_child : rooted (w_db demo_world) (arr (uid 101)).
Proof.
  eapply rooted_child; [vm_compute; reflexivity| |exact demo_root]. vm_compute. reflexivity.
Qed.
Lemma demo_forest : forest (w_db demo_world).
Proof.
  intros r Hr. apply (list_elem_of_fmap_2 ns_namespace_id) in Hr. rewrite demo_namespaces in Hr.
  apply elem_of_cons in Hr as [->|Hr]; [exact demo_root|].
  apply list_elem_of_singleton in Hr as ->. exact demo_child.
Qed.

Abbreviation move_demo := (move_namespace_core toy_vault (uid 101) 1 None (toy_op 7000)).
Lemma move_demo_run : move_demo demo_world = (Ok 2, snd (move_demo demo_world)).
Proof. apply run_Ok. vm_compute. reflexivity. Qed.

Lemma move_keeps_forest_witness : forest (w_db (snd (move_demo demo_world))).
Proof.
  exact (move_keeps_forest toy_vault (uid 101) 1 2 None (toy_op 7000) demo_world (snd (move_demo demo_world))
    demo_quiet (wk_db _ _ demo_world_ok) demo_forest move_demo_run).
Defined.

Definition large_value : blob := replicate (Z.to_nat 16777201) x00.
Lemma large_value_length : MAX_SECRET_BYTES - 16 < zlen large_value <= MAX_SECRET_BYTES.
Proof.
  unfold zlen, large_value. rewrite length_replicate, Z2Nat.id by lia. unfold MAX_SECRET_BYTES. lia.
Qed.

Lemma largest_secrets_cannot_be_stored_witness :
  validate_secret large_value = Ok tt
  /\ is_ok (fst (create_secret_with_id_and_schedule toy_vault (uid 1) (uid 100) (toy_metadata "big") large_value
                   default_schedule (toy_op 1) demo_world)) = false.
Proof.
  destruct (largest_secrets_cannot_be_stored toy_vault large_value large_value_length) as (H1 & H2 & _).
  split; [exact H1|apply H2].
Defined.

(** ** The storage crate on its own *)

(** The [k]-th event of a log whose commitments are [fixed 32 k]. *)
Definition event (k : Z) : AuditRecord :=
  {| ar_commitment_version := 2; ar_sequence := k; ar_event_id := uid (500 + k); ar_installation_id := uid 2;
     ar_recovery_epoch := 0; ar_occurred_at_unix_ms := 1000 + k; ar_request_id := uid 77;
     ar_actor_principal_id := None; ar_credential_kind := None; ar_credential_id := None;
     ar_action := "secret:update"; ar_target_kind := "secret"; ar_target_id := None; ar_outcome := "allowed";
     ar_previous_commitment := if k =? 1 then zeros 32 else fixed 32 (k - 1); ar_commitment := fixed 32 k |}.

Definition sealed : EncryptedRecord :=
  {| er_nonce := fixed 24 1; er_ciphertext := bstr "0123456789abcdefXY"; er_dek_nonce := fixed 24 2;
     er_wrapped_dek := fixed 48 3; er_kek_version := 1 |}.

Definition ns_insert (id : Z) (parent : option NamespaceId) (index : Z) : NamespaceInsert :=
  {| ni_namespace_id := uid id; ni_parent_namespace_id := parent; ni_name_index := fixed 32 index;
     ni_metadata := sealed; ni_state_commitment := fixed 32 21; ni_created_at_unix_ms := 10 |}.
Definition secret_insert : SecretInsert :=
  {| sn_secret_id := uid 200; sn_namespace_id := uid 100; sn_name_index := fixed 32 33; sn_metadata := sealed;
     sn_payload := sealed; sn_schedule := default_schedule; sn_state_commitment := fixed 32 22;
     sn_created_by_principal_id := None; sn_created_at_unix_ms := 20 |}.
Definition version_insert (revision : Z) : SecretVersionInsert :=
  {| vi_secret_id := uid 200; vi_expected_current_version := 1; vi_expected_revision := revision;
     vi_payload := sealed; vi_schedule := default_schedule; vi_next_state_commitment := fixed 32 23;
     vi_created_by_principal_id := None; vi_created_at_unix_ms := 30 |}.
Definition deletion (revision : Z) : SecretLifecycleChange :=
  {| lc_secret_id := uid 200; lc_expected_revision := revision; lc_from_state := "active";
     lc_to_state := "deleted"; lc_changed_at_unix_ms := 40; lc_next_state_commitment := fixed 32 24 |}.
Definition purging (revision : Z) : SecretPurge :=
  {| sp_secret_id := uid 200; sp_expected_revision := revision; sp_retention_cutoff_unix_ms := 50;
     sp_purged_at_unix_ms := 60 |}.

Definition setup_ops : list StoreOp :=
  [OpCreateNamespace (ns_insert 100 None 31) (event 1); OpCreateSecret secret_insert (event 2)].
Definition store_db : Db := exec_all setup_ops empty_db.

Lemma sealed_typed : er_typed sealed.
Proof. unfold er_typed, u32_max. cbn. lia. Qed.
Lemma setup_typed : Forall op_typed setup_ops.
Proof. repeat constructor; exact (proj1 sealed_typed) || exact (proj2 sealed_typed). Qed.
Lemma store_db_ok : db_ok store_db.
Proof. exact (exec_all_ok setup_ops empty_db setup_typed db_ok_empty). Qed.

Lemma extends_at d k :
  match audit_head d with
  | Ok h => head_sequence h = k - 1 /\ arr (head_commitment h) = arr (ar_previous_commitment (event k))
  | Err _ => False
  end -> extends d (event k).
Proof.
  intros H. unfold extends. destruct (audit_head d) as [h|]; [|done]. destruct H as [H1 H2].
  exists h. split; [done|]. split; [cbn; lia|]. by apply array_eq.
Qed.
Lemma store_extends : extends store_db (event 3).
Proof. apply extends_at. vm_compute. split; reflexivity. Qed.

Lemma deletion_typed k : op_typed (OpChangeLifecycle (deletion 1) (event k)).
Proof. cbn. unfold to_state_ok. cbn. right. right. by left. Qed.


Definition append_op (k : Z) : StoreOp := OpAppendVersion (version_insert 1) (event k).
Lemma append_typed k : op_typed (append_op k).
Proof. exact sealed_typed. Qed.
Lemma append_run : exec (append_op 3) store_db = (Ok tt, snd (exec (append_op 3) store_db)).
Proof. apply run_Ok. vm_compute. reflexivity. Qed.

Lemma operations_atomic_and_audited_witness :
  extends store_db (event 3)
  /\ rows (db_audit (snd (exec (append_op 3) store_db))) = rows (db_audit store_db) ++ [audit_row (event 3)].
Proof.
  exact (operations_atomic_and_audited (append_op 3) store_db (Ok tt) (snd (exec (append_op 3) store_db)) append_run
    (append_typed 3) store_db_ok).
Defined.

Lemma audit_append_only_witness :
  exists evs, rows (db_audit (exec_all [append_op 3] (exec_all setup_ops empty_db)))
              = rows (db_audit (exec_all setup_ops empty_db)) ++ evs.
Proof.
  exact (audit_append_only setup_ops [append_op 3] setup_typed
    (Forall_cons_2 _ _ _ (append_typed 3) (Forall_nil_2 _))).
Defined.

Lemma prepared_operations_serialize_witness :
  exists e, exec (OpChangeLifecycle (deletion 1) (event 3)) (snd (exec (append_op 3) store_db))
            = (Err e, snd (exec (append_op 3) store_db)).
Proof.
  exact (prepared_operations_serialize (append_op 3) (OpChangeLifecycle (deletion 1) (event 3)) store_db
    (snd (exec (append_op 3) store_db)) (event 3) (event 3) store_db_ok (append_typed 3) (deletion_typed 3)
    eq_refl eq_refl store_extends append_run).
Defined.

Definition first_version : VersionRow := version_row (uid 200) 1 sealed default_schedule None 20.
Lemma first_version_stored : first_version ∈ rows (db_versions (exec_all setup_ops empty_db)).
Proof.
  assert (rows (db_versions (exec_all setup_ops empty_db)) = [first_version]) as -> by (vm_compute; reflexivity).
  by left.
Qed.

Lemma versions_immutable_witness :
  (exists v', v' ∈ rows (db_versions (exec_all [append_op 3] (exec_all setup_ops empty_db)))
              /\ version_body v' = version_body first_version)
  \/ tombstoned (exec_all [append_op 3] (exec_all setup_ops empty_db)) (sv_secret_id first_version).
Proof.
  exact (versions_immutable setup_ops [append_op 3] first_version setup_typed
    (Forall_cons_2 _ _ _ (append_typed 3) (Forall_nil_2 _)) first_version_stored).
Defined.

Definition first_secret : SecretRow := secret_row secret_insert.
Lemma first_secret_stored : first_secret ∈ rows (db_secrets (exec_all setup_ops empty_db)).
Proof.
  assert (rows (db_secrets (exec_all setup_ops empty_db)) = [first_secret]) as -> by (vm_compute; reflexivity).
  by left.
Qed.

Lemma secret_revision_monotone_witness :
  (exists s', s' ∈ rows (db_secrets (exec_all [append_op 3] (exec_all setup_ops empty_db)))
              /\ secret_later first_secret s')
  \/ tombstoned (exec_all [append_op 3] (exec_all setup_ops empty_db)) (sec_secret_id first_secret).
Proof.
  exact (secret_revision_monotone setup_ops [append_op 3] first_secret setup_typed
    (Forall_cons_2 _ _ _ (append_typed 3) (Forall_nil_2 _)) first_secret_stored).
Defined.


Lemma first_secret_found : find_secret store_db (arr (uid 200)) = Some first_secret.
Proof. vm_compute. reflexivity. Qed.

Lemma stale_revision_conflicts_witness :
  append_secret_version (version_insert 5) (event 3) store_db = (Err Conflict, store_db)
  /\ change_secret_lifecycle (deletion 5) (event 3) store_db = (Err Conflict, store_db)
  /\ purge_secret (purging 5) (event 3) store_db = (Err Conflict, store_db).
Proof.
  refine (stale_revision_conflicts store_db first_secret (uid 200) 5 (event 3) (version_insert 5) (deletion 5)
    (purging 5) store_db_ok store_extends first_secret_found _ _ eq_refl eq_refl _ eq_refl eq_refl eq_refl eq_refl).
  - discriminate.
  - unfold i64_max. lia.
  - unfold i64_max. cbn. lia.
Defined.

Definition deleted_db : Db := snd (exec (OpChangeLifecycle (deletion 1) (event 3)) store_db).
Lemma deleted_db_ok : db_ok deleted_db.
Proof.
  unfold deleted_db. destruct (exec (OpChangeLifecycle (deletion 1) (event 3)) store_db) as [r d] eqn:E.
  exact (good_ok _ _ _ _ (exec_good _ _ _ _ E (deletion_typed 3) store_db_ok)).
Qed.
Lemma purge_run : purge_secret (purging 2) (event 4) deleted_db = (Ok tt, snd (purge_secret (purging 2) (event 4) deleted_db)).
Proof. apply run_Ok. vm_compute. reflexivity. Qed.

Lemma purge_secret_exact_witness :
  (first_version ∈ rows (db_versions (snd (purge_secret (purging 2) (event 4) deleted_db)))
   <-> first_version ∈ rows (db_versions deleted_db) /\ sv_secret_id first_version <> arr (uid 200))
  /\ db_purge_enabled (snd (purge_secret (purging 2) (event 4) deleted_db)) = false.
Proof.
  destruct (purge_secret_exact (purging 2) (event 4) deleted_db _ deleted_db_ok purge_run) as (_ & _ & Hv & Hg & _).
  split; [apply Hv|exact Hg].
Defined.

(** Two namespaces of one name, one below the other's target. *)
Definition taken_ops : list StoreOp :=
  [OpCreateNamespace (ns_insert 100 None 31) (event 1);
   OpCreateNamespace (ns_insert 101 (Some (uid 100)) 32) (event 2);
   OpCreateNamespace (ns_insert 102 None 32) (event 3)].
Definition taken_db : Db := exec_all taken_ops empty_db.
Lemma taken_typed : Forall op_typed taken_ops.
Proof. repeat constructor; exact (proj1 sealed_typed) || exact (proj2 sealed_typed). Qed.
Lemma taken_db_ok : db_ok taken_db.
Proof. exact (exec_all_ok taken_ops empty_db taken_typed db_ok_empty). Qed.
Lemma taken_extends : extends taken_db (event 4).
Proof. apply extends_at. vm_compute. split; reflexivity. Qed.
Lemma moving_found : find_namespace taken_db (arr (uid 102)) = Some (namespace_row (ns_insert 102 None 32)).
Proof. vm_compute. reflexivity. Qed.
Lemma holder_stored : namespace_row (ns_insert 101 (Some (uid 100)) 32) ∈ rows (db_namespaces taken_db).
Proof.
  assert (find_namespace taken_db (arr (uid 101)) = Some (namespace_row (ns_insert 101 (Some (uid 100)) 32))) as E
    by (vm_compute; reflexivity).
  apply find_namespace_Some in E as [E _]; [exact E|exact (ok_tables _ taken_db_ok)].
Qed.

Lemma move_onto_taken_name_is_database_error_witness :
  move_namespace (uid 102) 1 (Some (uid 100)) (fixed 32 32) (fixed 32 40) 70 (event 4) taken_db = (Err Sqlite, taken_db).
Proof.
  refine (move_onto_taken_name_is_database_error taken_db (namespace_row (ns_insert 102 None 32))
    (namespace_row (ns_insert 101 (Some (uid 100)) 32)) (uid 102) (uid 100) (fixed 32 32) (fixed 32 40) 70 (event 4)
    taken_db_ok taken_extends moving_found eq_refl _ holder_stored _ eq_refl eq_refl).
  - unfold i64_max. cbn. lia.
  - vm_compute. discriminate.
Defined.

(** A service principal, to make requests. *)
Definition service : ServiceIdentityInsert :=
  {| sii_principal_id := uid 78; sii_principal_state_commitment := fixed 32 50; sii_metadata := sealed;
     sii_created_at_unix_ms := 1 |}.
Definition service_ops : list StoreOp := [OpCreateService service (event 1)].
Definition service_db : Db := exec_all service_ops empty_db.
Lemma service_typed : Forall op_typed service_ops.
Proof. by repeat constructor. Qed.
Lemma service_db_ok : db_ok service_db.
Proof. exact (exec_all_ok service_ops empty_db service_typed db_ok_empty). Qed.

Definition reservation : IdempotencyReservation := {| rsv_response_id := uid 300; rsv_reused := false |}.
Abbreviation reserve_demo := (reserve_idempotency (uid 78) (fixed 32 1) (fixed 32 2) "secret" (uid 300) 5 50).
Lemma reserve_run : reserve_demo service_db = (Ok reservation, snd (reserve_demo service_db)).
Proof. apply run_Ok. vm_compute. reflexivity. Qed.

Lemma idempotency_replay_witness :
  exists d2, reserve_idempotency (uid 78) (fixed 32 1) (fixed 32 2) "secret" (uid 301) 10 60 (snd (reserve_demo service_db))
             = (Ok {| rsv_response_id := uid 300; rsv_reused := true |}, d2).
Proof.
  refine (idempotency_replay (uid 78) (fixed 32 1) (fixed 32 2) "secret" (uid 300) 5 50 service_db reservation
    (snd (reserve_demo service_db)) (fixed 32 2) "secret" (uid 301) 10 60 reserve_run service_db_ok _ eq_refl _ _);
    [lia|lia|]. vm_compute. split; discriminate.
Defined.

(** ** The cryptographic crate *)

Definition demo_context (version : Z) : RecordContext :=
  {| rc_vault_id := uid 1; rc_installation_id := uid 2; rc_object_kind := OSecretVersion; rc_object_id := uid 200;
     rc_object_version := version |}.

Lemma demo_version_typed : in_u64 (rc_object_version (demo_context 1)).
Proof. unfold in_u64, u64_max. cbn. lia. Qed.

Lemma encode_aad_injective_witness : demo_context 1 = demo_context 1.
Proof.
  exact (encode_aad_injective (demo_context 1) (demo_context 1) demo_version_typed demo_version_typed eq_refl).
Defined.

Lemma hmac_domains_separate_witness : STATE_DOMAIN ++ bstr "x" <> TOKEN_DOMAIN ++ bstr "y".
Proof.
  exact (hmac_domains_separate 0 4 STATE_DOMAIN TOKEN_DOMAIN (bstr "x") (bstr "y") eq_refl eq_refl (O_S 3)).
Defined.

Definition demo_token : IssuedToken :=
  match fst (issue_token toy_key 5%nat) with
  | Ok t => t
  | Err _ => {| it_plaintext := []; it_lookup_id := []; it_verifier := zeros 32 |}
  end.
Lemma demo_token_run : issue_token toy_key 5%nat = (Ok demo_token, snd (issue_token toy_key 5%nat)).
Proof. apply run_Ok. vm_compute. reflexivity. Qed.

Lemma issued_token_verifies_witness :
  verify_token toy_key (it_plaintext demo_token) (it_lookup_id demo_token) (it_verifier demo_token) = Ok true.
Proof. exact (proj1 (issued_token_verifies toy_key 5%nat demo_token _ demo_token_run)). Defined.

Lemma demo_token_accepted :
  verify_token toy_key (it_plaintext demo_token) (it_lookup_id demo_token) (it_verifier demo_token) = Ok true.
Proof. vm_compute. reflexivity. Qed.

Lemma verify_token_sound_witness :
  exists lookup secret secret_text,
    it_plaintext demo_token = bstr "smcv_v1." ++ it_lookup_id demo_token ++ dot :: secret_text
    /\ b64_decode (it_lookup_id demo_token) = Some lookup /\ length lookup = 12%nat
    /\ b64_decode secret_text = Some secret /\ length secret = 32%nat
    /\ hmac_sha256 (arr toy_key) (TOKEN_DOMAIN ++ lookup ++ secret) = it_verifier demo_token.
Proof. exact (verify_token_sound toy_key _ _ _ demo_token_accepted). Defined.

Definition demo_session : IssuedSession :=
  match fst (issue_session toy_key 5%nat) with
  | Ok s => s
  | Err _ => {| is_session_token := []; is_csrf_token := []; is_lookup_id := zeros 16;
                is_session_verifier := zeros 32; is_csrf_verifier := zeros 32 |}
  end.
Lemma demo_session_run : issue_session toy_key 5%nat = (Ok demo_session, snd (issue_session toy_key 5%nat)).
Proof. apply run_Ok. vm_compute. reflexivity. Qed.

Lemma issued_session_verifies_witness :
  session_lookup_id (is_session_token demo_session) = Some (is_lookup_id demo_session)
  /\ verify_session toy_key (is_session_token demo_session) (is_lookup_id demo_session) (is_session_verifier demo_session) = Ok true
  /\ verify_csrf toy_key (is_csrf_token demo_session) (is_lookup_id demo_session) (is_csrf_verifier demo_session) = Ok true.
Proof. exact (issued_session_verifies toy_key 5%nat demo_session _ demo_session_run). Defined.
