(* ===== verification/AppWitnesses.v ===== *)
(** The theorems about authentication, policies and requests applied at a vault
    whose owner enrolls, logs in, creates a service with a credential and a
    policy, and whose service then reads a secret. *)
From Stdlib Require Import ZArith Lia Strings.Byte String.
From stdpp Require Import base tactics numbers option strings list gmap sets.
From S2P Require Import Prelude RustStd Core Crypto ToyCrypto Sql Schema Records StoreInv RecordsOk PolicyStore VaultStore RotationStore IdentityStore Store RecordsProps Metadata VaultCore Initialization Rotation Authentication Authorization ServiceIdentity AuthorizedVault ToyVault VaultAudit VaultRuns AppRuns VaultProps AuthzProps PolicyGraph PolicyChanges InitializationProps RotationProps Witnesses.

#[local] Existing Instance toy_crypto.
#[local] Existing Instance toy_laws.

(** What a run returned, or a default where it failed. *)
Definition got {E A} (r : result E A) (d : A) : A := match r with Ok a => a | Err _ => d end.

Definition shown {E} (r : result E IssuedApplicationCredential) : blob :=
  match r with Ok c => iac_plaintext c | Err _ => [] end.
Definition created_id {E} (r : result E SecretCreated) : SecretId :=
  match r with Ok c => scr_secret_id c | Err _ => uid 0 end.

Definition password : rstring := rs "correct horse battery".
Definition enrolled : World := run_app toy_vault (AEnrollOwner password) (uid 301) 5000 demo_world.
Definition logged_in : World := run_app toy_vault (ALogin password) (uid 302) 6000 enrolled.
Definition browser : BrowserSessionSecrets :=
  got (fst (login_with_password toy_vault password (uid 302) 6000 enrolled))
    {| bs_session_token := []; bs_csrf_token := []; bs_absolute_expires_at_unix_ms := 0 |}.

Abbreviation authenticate_demo :=
  (authenticate_browser_session toy_vault (bs_session_token browser) (Some (bs_csrf_token browser)) true 7000).
Definition signed_in : World :=
  run_app toy_vault (AAuthenticateSession (bs_session_token browser) (Some (bs_csrf_token browser)) true)
    (uid 303) 7000 logged_in.
Definition the_owner : AuthenticatedOwner :=
  got (fst (authenticate_demo logged_in))
    {| ao_principal_id := uid 0; ao_session_id := uid 0; ao_authenticator_id := uid 0;
       ao_recent_auth_until_unix_ms := 0; ao_valid_from_unix_ms := 0; ao_valid_until_unix_ms := 0 |}.

Definition service_metadata : ServiceIdentityMetadata := {| sm_label := rs "svc"; sm_description := None |}.
Definition with_service : World := run_app toy_vault (ACreateService the_owner service_metadata) (uid 400) 8000 signed_in.
Definition service_id : PrincipalId :=
  got (fst (vault_create_service_identity toy_vault the_owner service_metadata (uid 400) 8000 signed_in)) (uid 0).

Abbreviation issue_demo := (issue_application_credential toy_vault the_owner service_id None (uid 401) 8000).
Definition with_credential : World :=
  run_app toy_vault (AIssueCredential the_owner service_id None) (uid 401) 8000 with_service.
Definition credential : blob :=
  shown (fst (issue_demo with_service)).

Abbreviation create_policy_demo := (vault_create_policy toy_vault the_owner (rs "readers") (uid 402) 8000).
Definition with_policy : World :=
  run_app toy_vault (ACreatePolicy the_owner (rs "readers")) (uid 402) 8000 with_credential.
Definition policy_id : PolicyId := got (fst (create_policy_demo with_credential)) (uid 0).

Definition read_values : GrantSpec :=
  {| gs_policy_id := policy_id; gs_action := SecretValueRead; gs_resource_kind := KNamespace;
     gs_resource_id := uid 101; gs_include_descendants := true |}.
Definition with_grant : World := run_app toy_vault (AAddGrant the_owner read_values) (uid 403) 8000 with_policy.
Definition with_binding : World :=
  run_app toy_vault (ABindPolicy the_owner service_id policy_id) (uid 404) 8000 with_grant.

Abbreviation present_demo := (authenticate_application_credential toy_vault credential (uid 405) 9000).
Definition presented : World := run_app toy_vault (AAuthenticateCredential credential) (uid 405) 9000 with_binding.
Definition the_service : AuthenticatedService :=
  got (fst (present_demo with_binding)) {| asv_principal_id := uid 0; asv_credential_id := uid 0 |}.

Definition with_secret : World :=
  run_app toy_vault (AFacade (RequestOwner the_owner) (FCreateSecret (uid 101) (toy_metadata "api") (bstr "s3cr3t") default_schedule))
    (uid 406) 9500 presented.
Definition owner_access : AuthorizedVault :=
  {| av_principal := RequestOwner the_owner; av_request_id := uid 406; av_now_unix_ms := 9500 |}.
Definition secret_id : SecretId :=
  created_id (fst (facade_create_secret toy_vault owner_access (uid 101) (toy_metadata "api") (bstr "s3cr3t")
                     default_schedule presented)).

(** ** The worlds of the run *)

Lemma demo_time (now : Z) : (i64_min <=? now) && (now <=? i64_max) = true -> in_i64 now.
Proof. unfold in_i64. intros [?%Z.leb_le ?%Z.leb_le]%andb_true_iff. done. Qed.

Ltac step_from w H := unfold w; apply run_app_ok; [by apply demo_time|exact H].
Lemma enrolled_ok : world_ok toy_vault enrolled.
Proof. step_from enrolled demo_world_ok. Qed.
Lemma logged_in_ok : world_ok toy_vault logged_in.
Proof. step_from logged_in enrolled_ok. Qed.
Lemma signed_in_ok : world_ok toy_vault signed_in.
Proof. step_from signed_in logged_in_ok. Qed.
Lemma with_service_ok : world_ok toy_vault with_service.
Proof. step_from with_service signed_in_ok. Qed.
Lemma with_credential_ok : world_ok toy_vault with_credential.
Proof. step_from with_credential with_service_ok. Qed.
Lemma with_policy_ok : world_ok toy_vault with_policy.
Proof. step_from with_policy with_credential_ok. Qed.
Lemma with_grant_ok : world_ok toy_vault with_grant.
Proof. step_from with_grant with_policy_ok. Qed.
Lemma with_binding_ok : world_ok toy_vault with_binding.
Proof. step_from with_binding with_grant_ok. Qed.
Lemma presented_ok : world_ok toy_vault presented.
Proof. step_from presented with_binding_ok. Qed.
Lemma with_secret_ok : world_ok toy_vault with_secret.
Proof. step_from with_secret presented_ok. Qed.

#[local] Opaque enrolled logged_in signed_in with_service with_credential with_policy with_grant with_binding
  presented with_secret the_owner the_service secret_id policy_id service_id credential browser.

(** ** Decisions *)

Abbreviation decide_demo :=
  (authorize toy_vault (RequestService the_service) SecretValueRead KSecret secret_id (uid 407) 9600).
Lemma decide_demo_run : decide_demo with_secret = (Ok tt, snd (decide_demo with_secret)).
Proof. apply run_Ok. vm_compute. reflexivity. Qed.

Lemma allowed_decision_recorded_witness :
  exists log ev, rows (db_audit (w_db (snd (decide_demo with_secret)))) = log ++ [audit_row ev]
    /\ records_decision ev (RequestService the_service) SecretValueRead KSecret secret_id (uid 407) 9600 "allowed".
Proof.
  exact (proj1 (allowed_decision_recorded toy_vault (RequestService the_service) SecretValueRead KSecret secret_id
    (uid 407) 9600 with_secret _ decide_demo_run)).
Defined.

Definition demo_graph (w : World) : AuthorizationSnapshot :=
  got (fst (verified_authorization_snapshot toy_vault w))
    {| snap_state := {| as_revision := 0; as_state_commitment := zeros 32 |};
       snap_policies := []; snap_grants := []; snap_bindings := [] |}.

Lemma got_Ok {E A} (r : result E A) d : is_ok r = true -> r = Ok (got r d).
Proof. by destruct r. Qed.

Lemma ok_not_Err {E A} (r : result E A) e (P : Prop) : is_ok r = true -> r = Err e -> P.
Proof. by intros H ->. Qed.
Lemma demo_graph_Ok w :
  is_ok (fst (verified_authorization_snapshot toy_vault w)) = true ->
  fst (verified_authorization_snapshot toy_vault w) = Ok (demo_graph w).
Proof. apply got_Ok. Qed.

Lemma with_secret_quiet : quiet with_secret.
Proof. vm_compute. reflexivity. Qed.
Lemma with_secret_graph : fst (verified_authorization_snapshot toy_vault with_secret) = Ok (demo_graph with_secret).
Proof. apply demo_graph_Ok. vm_compute. reflexivity. Qed.
Lemma secret_above e : fst (resource_namespace_ancestors toy_vault KSecret secret_id with_secret) = Err e -> e = Denied.
Proof.
  apply ok_not_Err. vm_compute. reflexivity.
Qed.

Lemma service_decision_exact_witness :
  exists allowed : bool,
    (allowed = true <-> exists above, fst (resource_namespace_ancestors toy_vault KSecret secret_id with_secret) = Ok above
       /\ permits (demo_graph with_secret) above (asv_principal_id the_service) SecretValueRead KSecret secret_id)
    /\ decide_demo with_secret
       = record_and_answer toy_vault (RequestService the_service) SecretValueRead KSecret secret_id (uid 407) 9600
           (if allowed then Ok tt else Err Denied) with_secret.
Proof.
  exact (service_decision_exact toy_vault the_service SecretValueRead KSecret secret_id (uid 407) 9600 with_secret
           (demo_graph with_secret) with_secret_quiet with_secret_graph secret_above).
Defined.

Definition service_access : AuthorizedVault :=
  {| av_principal := RequestService the_service; av_request_id := uid 408; av_now_unix_ms := 9700 |}.
Abbreviation reveal_demo := (facade_reveal_current_secret toy_vault service_access secret_id).

Lemma service_access_run : authorized toy_vault (RequestService the_service) (uid 408) 9700 with_secret
  = (Ok service_access, with_secret).
Proof. vm_compute. reflexivity. Qed.
Lemma reveal_demo_run : reveal_demo with_secret = (Ok (bstr "s3cr3t"), snd (reveal_demo with_secret)).
Proof. apply run_Ok. vm_compute. reflexivity. Qed.

Lemma service_reads_only_granted_secrets_witness :
  service_live (w_db with_secret) the_service 9700
  /\ exists e1 e2, rows (db_audit (w_db (snd (reveal_demo with_secret))))
       = rows (db_audit (w_db with_secret)) ++ [audit_row e1; audit_row e2]
       /\ records_decision e1 (RequestService the_service) SecretValueRead KSecret secret_id (uid 408) 9700 "allowed".
Proof.
  destruct (service_reads_only_granted_secrets toy_vault the_service (uid 408) 9700 secret_id with_secret with_secret
              (snd (reveal_demo with_secret)) service_access (bstr "s3cr3t") with_secret_quiet service_access_run
              reveal_demo_run) as (Hlive & _ & e1 & e2 & Hr & H1 & _).
  split; [exact Hlive|]. exists e1, e2. split; [exact Hr|exact H1].
Defined.

(** ** The policy graph *)

Lemma graph_stored w :
  quiet w -> fst (verified_authorization_snapshot toy_vault w) = Ok (demo_graph w) ->
  authorization_snapshot (w_db w) = Ok (demo_graph w) /\ verify_snapshot toy_vault (demo_graph w) = Ok tt.
Proof. intros Hq H. by apply verified_snapshot_Ok with (w' := snd (verified_authorization_snapshot toy_vault w)), run_Ok. Qed.
Lemma with_secret_stored : authorization_snapshot (w_db with_secret) = Ok (demo_graph with_secret)
  /\ verify_snapshot toy_vault (demo_graph with_secret) = Ok tt.
Proof. exact (graph_stored _ with_secret_quiet with_secret_graph). Qed.
Lemma with_binding_stored : authorization_snapshot (w_db with_binding) = Ok (demo_graph with_binding)
  /\ verify_snapshot toy_vault (demo_graph with_binding) = Ok tt.
Proof.
  apply graph_stored; [vm_compute; reflexivity|]. apply demo_graph_Ok. vm_compute. reflexivity.
Qed.
Lemma same_commitment : as_state_commitment (snap_state (demo_graph with_binding))
  = as_state_commitment (snap_state (demo_graph with_secret)).
Proof. vm_compute. reflexivity. Qed.

Lemma policy_graph_binds_witness :
  (as_revision (snap_state (demo_graph with_binding)) = as_revision (snap_state (demo_graph with_secret))
   /\ snap_policies (demo_graph with_binding) ≡ₚ snap_policies (demo_graph with_secret)
   /\ snap_grants (demo_graph with_binding) ≡ₚ snap_grants (demo_graph with_secret)
   /\ snap_bindings (demo_graph with_binding) ≡ₚ snap_bindings (demo_graph with_secret))
  \/ collision toy_vault.
Proof.
  exact (policy_graph_binds toy_vault (w_db with_binding) (w_db with_secret) _ _ (wk_db _ _ with_binding_ok)
    (proj1 with_binding_stored) (proj1 with_secret_stored) (proj2 with_binding_stored) (proj2 with_secret_stored)
    same_commitment).
Defined.

Abbreviation change_demo := (run_change toy_vault the_owner (CreatePolicy (rs "readers")) (uid 402) 8000).
Lemma with_credential_quiet : quiet with_credential.
Proof. vm_compute. reflexivity. Qed.
Lemma change_demo_run : change_demo with_credential = (Ok tt, snd (change_demo with_credential)).
Proof. apply run_Ok. vm_compute. reflexivity. Qed.

Lemma policy_change_keeps_graph_witness :
  exists s s', authorization_snapshot (w_db with_credential) = Ok s /\ verify_snapshot toy_vault s = Ok tt
    /\ authorization_snapshot (w_db (snd (change_demo with_credential))) = Ok s'
    /\ graph_after the_owner (CreatePolicy (rs "readers")) 8000 s s'
    /\ verify_snapshot toy_vault s' = if MAX_AUTHORIZATION_RECORDS <? graph_size s' then Err AzUnavailable else Ok tt.
Proof.
  exact (policy_change_keeps_graph toy_vault the_owner (CreatePolicy (rs "readers")) (uid 402) 8000 with_credential
    _ with_credential_quiet (wk_db _ _ with_credential_ok) (wk_ring _ _ with_credential_ok) change_demo_run).
Defined.

(** ** Rotation *)

Definition demo_job : KekRotationJob :=
  {| kj_job_id := uid 1; kj_source_key_version := 1; kj_target_key_version := 2; kj_stage := StSecretMetadata;
     kj_last_row_id := 0 |}.

Lemma resume_terminates_witness :
  fst (resume_loop toy_vault 67 64 64 (toy_op 9000) demo_job 0 demo_world) <> Ok None.
Proof. exact (proj2 (resume_terminates toy_vault 64 64 (toy_op 9000) demo_job 0 demo_world ltac:(lia))). Defined.

Lemma rotation_terminates_witness :
  fst (rotate_kek_to_completion toy_vault
         (S (Z.to_nat (source_inventory (kr_active_version (w_ring demo_world)) (w_db demo_world))))
         (toy_op 9000) demo_world) <> Ok None.
Proof.
  exact (proj2 (rotation_terminates toy_vault (toy_op 9000) 0 demo_world demo_quiet (wk_db _ _ demo_world_ok))).
Defined.

Abbreviation rotate_demo := (rotate_kek_to_completion toy_vault 3 (toy_op 9000)).
Lemma rotate_demo_run : rotate_demo demo_world = (Ok (Some tt), snd (rotate_demo demo_world)).
Proof. apply run_Ok. vm_compute. reflexivity. Qed.
Lemma rotate_policy_run : rotate_demo with_policy = (Ok (Some tt), snd (rotate_demo with_policy)).
Proof. apply run_Ok. vm_compute. reflexivity. Qed.

Definition db_version : EncryptedRecord :=
  got (encrypted_secret_version (w_db demo_world) (uid 200) 1)
    {| er_nonce := zeros 24; er_ciphertext := []; er_dek_nonce := zeros 24; er_wrapped_dek := zeros 48; er_kek_version := 0 |}.
Lemma db_version_stored : encrypted_secret_version (w_db demo_world) (uid 200) 1 = Ok db_version.
Proof. apply got_Ok. vm_compute. reflexivity. Qed.
Lemma db_version_opens :
  decrypt_record toy_vault (w_ring demo_world) db_version OSecretVersion OWrappedDataKey (uid 200) 1 = Ok (bstr "hunter2").
Proof. vm_compute. reflexivity. Qed.

Lemma rotation_keeps_secrets_witness :
  exists e', encrypted_secret_version (w_db (snd (rotate_demo demo_world))) (uid 200) 1 = Ok e'
    /\ decrypt_record toy_vault (w_ring (snd (rotate_demo demo_world))) e' OSecretVersion OWrappedDataKey (uid 200) 1
       = Ok (bstr "hunter2").
Proof.
  exact (proj1 (rotation_keeps_secrets toy_vault 3 (toy_op 9000) demo_world _ demo_quiet (wk_db _ _ demo_world_ok)
    rotate_demo_run) (uid 200) 1 db_version (bstr "hunter2") db_version_stored db_version_opens).
Defined.

Definition the_policy : PolicyRecord :=
  List.hd (policy_of {| pi_policy_id := uid 0; pi_metadata := db_version; pi_state_commitment := zeros 32;
                        pi_created_at_unix_ms := 0 |}) (snap_policies (demo_graph with_policy)).
Lemma policy_key : er_kek_version (po_metadata the_policy) = kr_active_version (w_ring with_policy).
Proof. vm_compute. reflexivity. Qed.
Lemma with_policy_quiet : quiet with_policy.
Proof. vm_compute. reflexivity. Qed.

Lemma rotation_orphans_policy_metadata_witness :
  policy_details toy_vault the_policy (snd (rotate_demo with_policy)) = (Err AzIntegrity, snd (rotate_demo with_policy)).
Proof.
  exact (proj1 (proj2 (proj2 (rotation_orphans_policy_metadata toy_vault 3 (toy_op 9000) with_policy _
    with_policy_quiet (wk_db _ _ with_policy_ok) rotate_policy_run))) the_policy policy_key).
Defined.

(** ** A fresh host *)

Definition fresh_location (path parent : string) : location :=
  {| loc_path := path; loc_parent := Some parent; loc_dir := None; loc_canonical := Some parent; loc_creatable := true |}.
Definition fresh_host : Host :=
  {| h_database := None; h_root_file := None; h_database_at := fresh_location "/a/db" "/a";
     h_root_at := fresh_location "/b/k" "/b"; h_draws := 1000 |}.
Definition reached : VaultId * InstallationId * KeyMaterial :=
  got (fst (reach_root fresh_host)) (uid 0, uid 0, fixed 32 0).
Definition rooted_host : Host := snd (reach_root fresh_host).
Definition bootstrapped_host : Host := snd (reach_bootstrap 1000 fresh_host).

Lemma fresh_reaches_root : fst (reach_root fresh_host) = Ok (reached.1.1, reached.1.2, reached.2).
Proof. vm_compute. reflexivity. Qed.

Lemma fresh_reaches_bootstrap : fst (reach_bootstrap 1000 fresh_host) = Ok (reached.1.1, reached.1.2, reached.2).
Proof. vm_compute. reflexivity. Qed.

(** A host where initialization was interrupted after the bootstrap opens as the host it would have become. *)
Lemma initialization_resumes_witness :
  exists o h3, op_root_key o = reached.2 /\ iv_vault_id (op_vault o) = reached.1.1
    /\ iv_installation_id (op_vault o) = reached.1.2 /\ initialize_vault 1000 fresh_host = (Ok o, h3)
    /\ initialize_vault 2000 bootstrapped_host = (Ok o, h3) /\ initialize_vault 2000 h3 = (Ok o, h3).
Proof.
  apply (initialization_resumes fresh_host rooted_host bootstrapped_host 1000 2000 _ _ _
           (run_Ok _ _ _ fresh_reaches_root) (run_Ok _ _ _ fresh_reaches_bootstrap)).
  reflexivity.
Defined.
