(* ===== verification/ArchiveWitnesses.v ===== *)
(** Executable formats for archives, and the theorems about archives applied to
    an archive of two records that is written and read in pieces. *)
From Stdlib Require Import ZArith Lia Strings.Byte String.
From stdpp Require Import base tactics numbers option strings list.
From S2P Require Import Prelude RustStd Core Crypto ToyCrypto Archive ArchiveProps ArchiveRuns.

#[local] Existing Instance toy_crypto.
#[local] Existing Instance toy_laws.

(** * Formats *)

(** [i64::from_be_bytes] *)
Definition i64_of (l : blob) : Z := let z := be_decode l in if i64_max <? z then z - 2 ^ 64 else z.

Definition toy_metadata_text (m : ArchiveMetadata) : blob :=
  arr (am_logical_vault_id m) ++ arr (am_source_installation_id m) ++ u64_be (am_source_recovery_epoch m)
  ++ u32_be (am_source_schema_version m) ++ u32_be (am_security_semantics_version m) ++ i64_be (am_created_at_unix_ms m).
Definition toy_metadata_of (l : blob) : option ArchiveMetadata :=
  vault ← try_array 16 (take 16 l);
  installation ← try_array 16 (take 16 (drop 16 l));
  Some {| am_logical_vault_id := vault; am_source_installation_id := installation;
          am_source_recovery_epoch := be_decode (take 8 (drop 32 l));
          am_source_schema_version := be_decode (take 4 (drop 40 l));
          am_security_semantics_version := be_decode (take 4 (drop 44 l));
          am_created_at_unix_ms := i64_of (take 8 (drop 48 l)) |}.

Definition toy_manifest_text (m : FinalManifest) : blob :=
  arr (fm_logical_digest m) ++ u64_be (fm_record_count m) ++ u64_be (fm_logical_bytes m) ++ u64_be (fm_data_frames m).
Definition toy_manifest_of (l : blob) : option FinalManifest :=
  digest ← try_array 32 (take 32 l);
  Some {| fm_record_count := be_decode (take 8 (drop 32 l)); fm_logical_bytes := be_decode (take 8 (drop 40 l));
          fm_logical_digest := digest; fm_data_frames := be_decode (take 8 (drop 48 l)) |}.

#[export] Instance toy_formats : ArchiveFormats := {|
  argon2id memory iterations lanes passphrase salt := Some (sha256 (passphrase ++ salt));
  metadata_to_json m := Some (toy_metadata_text m);
  metadata_from_json := toy_metadata_of;
  manifest_to_json m := Some (toy_manifest_text m);
  manifest_from_json := toy_manifest_of |}.

(** Reads fields of fixed widths. *)
Ltac toy_fields :=
  repeat first [rewrite take_here | rewrite drop_skip by lia; cbn [Nat.sub] | rewrite drop_0 | rewrite try_array_arr].

Lemma i64_of_be z : in_i64 z -> i64_of (i64_be z) = z.
Proof.
  unfold in_i64, i64_min, i64_max, i64_of, i64_be. intros Hz. rewrite be_decode_encode_mod.
  change (256 ^ Z.of_nat 8) with (2 ^ 64).
  destruct (decide (0 <= z)).
  - rewrite Z.mod_small by lia. destruct (Z.ltb_spec i64_max z); unfold i64_max in *; lia.
  - rewrite <- (Z.mod_add z 1) by lia. rewrite Z.mod_small by lia.
    destruct (Z.ltb_spec i64_max (z + 1 * 2 ^ 64)); unfold i64_max in *; lia.
Qed.

#[export] Instance toy_archive_laws : ArchiveLaws.
Proof.
  constructor.
  - intros m j (He & Hs & Hv & Hc) [= <-]. unfold metadata_from_json, toy_formats, toy_metadata_of, toy_metadata_text.
    destruct (be_array 8 (am_source_recovery_epoch m)) as [e Ee], (be_array 4 (am_source_schema_version m)) as [s Es],
      (be_array 4 (am_security_semantics_version m)) as [v Ev], (be_array 8 (am_created_at_unix_ms m)) as [c Ec].
    change (u64_be ?z) with (be_encode 8 z) in *. unfold u64_be, u32_be, i64_be. rewrite <- Ee, <- Es, <- Ev, <- Ec.
    rewrite <- (app_nil_r (arr c)). toy_fields. simpl. toy_fields. simpl. toy_fields.
    rewrite Ee, Es, Ev, Ec, !be_decode_encode by (unfold in_u64, in_u32, u64_max, u32_max in *; lia).
    change (be_encode 8 (am_created_at_unix_ms m)) with (i64_be (am_created_at_unix_ms m)).
    rewrite i64_of_be by done. by destruct m.
  - intros m j (Hr & Hb & Hf) [= <-]. unfold manifest_from_json, toy_formats, toy_manifest_of, toy_manifest_text.
    destruct (be_array 8 (fm_record_count m)) as [e Ee], (be_array 8 (fm_logical_bytes m)) as [s Es],
      (be_array 8 (fm_data_frames m)) as [c Ec].
    unfold u64_be. rewrite <- Ee, <- Es, <- Ec. rewrite <- (app_nil_r (arr c)). toy_fields. simpl. toy_fields.
    rewrite Ee, Es, Ec, !be_decode_encode by (unfold in_u64, u64_max in *; lia). by destruct m.
  - intros m j _ [= <-]. unfold zlen, toy_manifest_text. by rewrite !length_app, !length_u64_be, array_length.
Qed.

(** * An archive *)

Definition demo_records : list LogicalRecord :=
  [{| lr_kind := 1; lr_flags := 0; lr_payload := bstr "label" |}; {| lr_kind := 2; lr_flags := 1; lr_payload := [] |}].
Definition demo_stream : blob := encode_records demo_records.
Definition demo_archive_key : ArchiveKey := Recovery (fixed 32 7).
Definition demo_archive_metadata : ArchiveMetadata :=
  {| am_logical_vault_id := fixed 16 1; am_source_installation_id := fixed 16 2; am_source_recovery_epoch := 3;
     am_source_schema_version := 4; am_security_semantics_version := 1; am_created_at_unix_ms := 5 |}.
Definition demo_options : ArchiveOptions :=
  {| ao_chunk_bytes := MIN_CHUNK_BYTES; ao_record_limit := 10;
     ao_argon2 := {| ap_memory_kib := MIN_ARGON2_MEMORY_KIB; ap_iterations := 3; ap_lanes := 1 |} |}.
Definition demo_writing : Writing :=
  {| wg_source := {| rd_bytes := demo_stream; rd_script := [ReadAtMost 9] |};
     wg_destination := {| wr_bytes := []; wr_room := None; wr_flushes := true |}; wg_draws := 0 |}.

Definition written : Writing := snd (write_archive demo_archive_key demo_archive_metadata demo_options demo_writing).
Definition demo_archive : blob := wr_bytes (wg_destination written).
Definition demo_summary : ArchiveSummary :=
  {| sum_archive_id := fixed 16 1; sum_archive_bytes := zlen demo_archive; sum_record_count := 2;
     sum_logical_bytes := zlen demo_stream |}.
(** A source that yields the archive in pieces. *)
Definition demo_reader : Reader := {| rd_bytes := demo_archive; rd_script := [ReadAtMost 7; ReadAtMost 200] |}.

Lemma run_of {S E A} (m : Prog S E A) s a : fst (m s) = Ok a -> m s = (Ok a, snd (m s)).
Proof. destruct (m s). simpl. by intros ->. Qed.

Lemma demo_written :
  fst (write_archive demo_archive_key demo_archive_metadata demo_options demo_writing) = Ok demo_summary.
Proof. vm_compute. reflexivity. Qed.
Lemma demo_written_run :
  write_archive demo_archive_key demo_archive_metadata demo_options demo_writing = (Ok demo_summary, written).
Proof. exact (run_of _ _ _ demo_written). Qed.
Lemma demo_archive_appended : wr_bytes (wg_destination written) = wr_bytes (wg_destination demo_writing) ++ demo_archive.
Proof. change (wr_bytes (wg_destination demo_writing)) with (@nil byte). rewrite app_nil_l. unfold demo_archive. reflexivity. Qed.
Lemma demo_archive_size : (zlen demo_archive <=? MAX_ARCHIVE_BYTES) = true.
Proof. vm_compute. reflexivity. Qed.
Lemma demo_extended_size : zlen demo_archive + 1 <= MAX_ARCHIVE_BYTES.
Proof. apply Z.leb_le. vm_compute. reflexivity. Qed.
Lemma demo_reader_steady : steady demo_reader.
Proof. by repeat constructor. Qed.
Lemma demo_metadata_typed : metadata_typed demo_archive_metadata.
Proof. by repeat split. Qed.

#[local] Opaque written demo_archive.

Lemma archive_round_trips_witness :
  sum_archive_bytes demo_summary = zlen demo_archive
  /\ exists v r', decode_archive collect (zlen demo_archive) demo_archive_key (demo_reader, [])
                  = (Ok v, (r', demo_stream))
     /\ ph_archive_id (va_header v) = fixed 16 1 /\ va_metadata v = demo_archive_metadata
     /\ va_record_count v = 2 /\ va_logical_bytes v = zlen demo_stream
     /\ va_logical_digest v = sha256 demo_stream.
Proof.
  exact (archive_round_trips demo_archive_key demo_archive_metadata demo_options demo_writing written demo_summary
    demo_archive demo_reader demo_metadata_typed ltac:(simpl; lia) demo_written_run demo_archive_appended
    (proj1 (Z.leb_le _ _) demo_archive_size) demo_reader_steady eq_refl).
Defined.

(** ** Reading it *)

Definition demo_read : result ArchiveError VerifiedArchive * (Reader * blob) :=
  decode_archive collect (zlen demo_archive) demo_archive_key (demo_reader, []).
Definition empty_verified : VerifiedArchive :=
  {| va_header := {| ph_archive_id := fixed 16 1; ph_key_mode := ModeRecoveryKey; ph_salt := []; ph_argon2 := None;
                     ph_chunk_bytes := 0; ph_record_limit := 0; ph_wrap_nonce := zeros 24; ph_wrapped_dek := zeros 48 |};
     va_metadata := demo_archive_metadata; va_record_count := 0; va_logical_bytes := 0; va_logical_digest := zeros 32 |}.
Definition verified_or {E} (r : result E VerifiedArchive) : VerifiedArchive :=
  match r with Ok v => v | Err _ => empty_verified end.
Definition demo_verified : VerifiedArchive := verified_or (fst demo_read).

Lemma verified_or_Ok {E} (r : result E VerifiedArchive) : is_ok r = true -> r = Ok (verified_or r).
Proof. by destruct r. Qed.
Lemma demo_is_accepted : is_ok (fst demo_read) = true.
Proof. vm_compute. reflexivity. Qed.
Lemma demo_accepted : fst demo_read = Ok demo_verified.
Proof. exact (verified_or_Ok _ demo_is_accepted). Qed.
Lemma demo_delivered : snd (snd demo_read) = demo_stream.
Proof. vm_compute. reflexivity. Qed.

Lemma demo_read_run :
  decode_archive collect (zlen demo_archive) demo_archive_key (demo_reader, [])
  = (Ok demo_verified, (fst (snd demo_read), demo_stream)).
Proof.
  pose proof demo_accepted. pose proof demo_delivered. unfold demo_read in *.
  destruct (decode_archive _ _ _ _) as [a [r c]]. simpl in *. congruence.
Qed.

Lemma accepted_archive_whole_witness :
  fst (decode_archive collect (zlen demo_archive + 1) demo_archive_key
         ({| rd_bytes := demo_archive ++ [x00]; rd_script := [] |}, [])) = Err AIntegrity.
Proof.
  refine (proj1 (proj2 (proj2 (proj2 (proj2 (accepted_archive_whole (zlen demo_archive) demo_archive_key demo_reader _
    demo_verified demo_stream demo_reader_steady demo_read_run)))) {| rd_bytes := demo_archive ++ [x00]; rd_script := [] |}
    (zlen demo_archive + 1) _ _) [x00] eq_refl _).
  - constructor.
  - apply demo_extended_size.
  - left. discriminate.
Defined.

Lemma record_counter_exact_witness :
  count_chunks (counter_new 10) [take 9 demo_stream; drop 9 demo_stream] = Ok 2.
Proof.
  apply (record_counter_exact 10 [take 9 demo_stream; drop 9 demo_stream] 2).
  - split; [lia|]. unfold u64_max. lia.
  - exists demo_records. split; [|split; [|split; [reflexivity|lia]]].
    + reflexivity.
    + by repeat (apply Forall_cons; split; [by repeat split|]).
Defined.

Lemma recovery_key_codec_witness : recovery_parse (recovery_expose_once (fixed 32 7)) = Ok (fixed 32 7).
Proof. exact (proj1 (recovery_key_codec (fixed 32 7))). Defined.
