(* ===== verification/Portable.v ===== *)
(** src/crates/smcv-storage/src/portable.rs: the logical snapshot of a database
    and its import into a new installation.

    A snapshot is read in one transaction and holds every durable row but
    sessions, idempotency records, maintenance jobs and the key registry. An
    import is one transaction too: it writes all rows or none, and leaves the
    installation inactive. *)
From Stdlib Require Import ZArith Lia String.
From stdpp Require Import base tactics numbers option strings list.
From S2P Require Import Prelude RustStd Core Sql Schema Records PolicyStore VaultStore IdentityStore.

Record PortableNamespace : Type := {
  pn_namespace_id : NamespaceId;
  pn_parent_namespace_id : option NamespaceId;
  pn_name_index : array 32;
  pn_metadata_version : Z;
  pn_metadata : EncryptedRecord;
  pn_lifecycle_state : string;
  pn_revision : Z;
  pn_state_commitment : array 32;
  pn_created_at_unix_ms : Z;
  pn_updated_at_unix_ms : Z }.

Record PortableSecret : Type := {
  ps_secret_id : SecretId;
  ps_namespace_id : NamespaceId;
  ps_name_index : array 32;
  ps_metadata_version : Z;
  ps_metadata : EncryptedRecord;
  ps_lifecycle_state : string;
  ps_current_version : Z;
  ps_revision : Z;
  ps_state_commitment : array 32;
  ps_created_at_unix_ms : Z;
  ps_updated_at_unix_ms : Z;
  ps_deleted_at_unix_ms : option Z }.

Record PortableSecretVersion : Type := {
  pv_secret_id : SecretId;
  pv_version : Z;
  pv_payload : EncryptedRecord;
  pv_schedule : SecretSchedule;
  pv_created_by_principal_id : option PrincipalId;
  pv_created_at_unix_ms : Z }.

Record PortableTombstone : Type := {
  pt_secret_id : SecretId;
  pt_namespace_id : NamespaceId;
  pt_name_index : array 32;
  pt_last_version : Z;
  pt_purged_at_unix_ms : Z;
  pt_retention_cutoff_unix_ms : Z }.

Record PortablePrincipal : Type := {
  pp_principal_id : PrincipalId;
  pp_kind : PrincipalKind;
  pp_state : string;
  pp_revision : Z;
  pp_state_commitment : array 32;
  pp_created_at_unix_ms : Z;
  pp_updated_at_unix_ms : Z }.

Record PortableAuthenticator : Type := {
  pa_authenticator_id : AuthenticatorId;
  pa_principal_id : PrincipalId;
  pa_kind : AuthenticatorKind;
  pa_credential_lookup : option blob;
  pa_credential_data : option blob;
  pa_password_phc : option string;
  pa_state : string;
  pa_created_at_unix_ms : Z;
  pa_last_used_at_unix_ms : option Z;
  pa_revoked_at_unix_ms : option Z;
  pa_state_commitment : array 32 }.

Record PortableServiceIdentity : Type := {
  psi_principal_id : PrincipalId;
  psi_metadata_version : Z;
  psi_metadata : EncryptedRecord }.

Record PortableApplicationCredential : Type := {
  pac_credential_id : CredentialId;
  pac_principal_id : PrincipalId;
  pac_lookup_id : array 12;
  pac_verifier : array 32;
  pac_created_at_unix_ms : Z;
  pac_expires_at_unix_ms : option Z;
  pac_last_used_at_unix_ms : option Z;
  pac_revoked_at_unix_ms : option Z;
  pac_revision : Z;
  pac_state_commitment : array 32 }.

Record PortablePolicy : Type := {
  ppo_policy_id : PolicyId;
  ppo_revision : Z;
  ppo_state : string;
  ppo_metadata_version : Z;
  ppo_metadata : EncryptedRecord;
  ppo_state_commitment : array 32;
  ppo_created_at_unix_ms : Z;
  ppo_updated_at_unix_ms : Z }.

Record PortableSnapshot : Type := {
  snp_vault_id : VaultId;
  snp_source_installation_id : InstallationId;
  snp_source_recovery_epoch : Z;
  snp_security_semantics_version : Z;
  snp_namespaces : list PortableNamespace;
  snp_secrets : list PortableSecret;
  snp_secret_versions : list PortableSecretVersion;
  snp_tombstones : list PortableTombstone;
  snp_principals : list PortablePrincipal;
  snp_authenticators : list PortableAuthenticator;
  snp_service_identities : list PortableServiceIdentity;
  snp_application_credentials : list PortableApplicationCredential;
  snp_authorization_state : AuthorizationState;
  snp_policies : list PortablePolicy;
  snp_grants : list PolicyGrantRecord;
  snp_bindings : list PolicyBindingRecord;
  snp_audit_records : list AuditRecord }.

(** ** Conversions *)

(** [encrypted] *)
Definition encrypted (nonce ciphertext dek_nonce wrapped_dek : blob) (kek_version : Z)
  : result StorageError EncryptedRecord :=
  let? nonce := parse_array 24 nonce in
  let? dek_nonce := parse_array 24 dek_nonce in
  let? wrapped_dek := parse_array 48 wrapped_dek in
  let? kek_version := parse_uint u32_max kek_version in
  Ok {| er_nonce := nonce; er_ciphertext := ciphertext; er_dek_nonce := dek_nonce;
        er_wrapped_dek := wrapped_dek; er_kek_version := kek_version |}.

(** [sql_u64] *)
Definition sql_u64 (value : Z) : result StorageError Z := ok_or InvalidData (try_from i64_max value).

(** [parse_resource_kind] *)
Definition parse_resource_kind (value : string) : result StorageError ResourceKind :=
  if String.eqb value "namespace" then Ok KNamespace
  else if String.eqb value "secret" then Ok KSecret
  else Err InvalidData.

(** [principal_kind_str] *)
Definition principal_kind_str (kind : PrincipalKind) : string :=
  match kind with Owner => "owner" | Service => "service" end.

(** ** Reading *)

(** The children of the rows of one level, by the JOIN of the recursive query. *)
Definition tree_children (all level : list NamespaceRow) : list NamespaceRow :=
  mjoin ((fun t => List.filter (fun r =>
    bool_decide (ns_parent_namespace_id r = Some (ns_namespace_id t))) all) <$> level).

(** The rows of the query [tree], grouped by depth. *)
Fixpoint tree_levels (all : list NamespaceRow) (fuel : nat) (level : list NamespaceRow)
  : list (list NamespaceRow) :=
  match fuel with
  | O => []
  | S fuel' =>
      match level with
      | [] => []
      | _ => level :: tree_levels all fuel' (tree_children all level)
      end
  end.

Definition tree_roots (all : list NamespaceRow) : list NamespaceRow :=
  List.filter (fun r => bool_decide (ns_parent_namespace_id r = None)) all.

(** ORDER BY tree.depth, n.namespace_id. No more levels than rows. *)
Definition namespace_tree (all : list NamespaceRow) : list NamespaceRow :=
  mjoin (order_by (by_blob ns_namespace_id)
           <$> tree_levels all (S (length all)) (tree_roots all)).

Definition portable_namespace (r : NamespaceRow) : result StorageError PortableNamespace :=
  let? namespace_id := parse_uuid (ns_namespace_id r) in
  let? parent := parse_opt_uuid (ns_parent_namespace_id r) in
  let? name_index := parse_array 32 (ns_name_index r) in
  let? metadata_version := parse_uint u64_max (ns_metadata_version r) in
  let? metadata := encrypted (ns_metadata_nonce r) (ns_metadata_ciphertext r) (ns_dek_nonce r)
      (ns_wrapped_dek r) (ns_kek_version r) in
  let? revision := parse_uint u64_max (ns_revision r) in
  let? state_commitment := parse_array 32 (ns_state_commitment r) in
  Ok {| pn_namespace_id := namespace_id; pn_parent_namespace_id := parent;
        pn_name_index := name_index; pn_metadata_version := metadata_version;
        pn_metadata := metadata; pn_lifecycle_state := ns_lifecycle_state r;
        pn_revision := revision; pn_state_commitment := state_commitment;
        pn_created_at_unix_ms := ns_created_at r; pn_updated_at_unix_ms := ns_updated_at r |}.

(** [read_namespaces] *)
Definition read_namespaces (d : Db) : result StorageError (list PortableNamespace) :=
  result_mapM portable_namespace (namespace_tree (rows (db_namespaces d))).

Definition portable_secret (r : SecretRow) : result StorageError PortableSecret :=
  let? secret_id := parse_uuid (sec_secret_id r) in
  let? namespace_id := parse_uuid (sec_namespace_id r) in
  let? name_index := parse_array 32 (sec_name_index r) in
  let? metadata_version := parse_uint u64_max (sec_metadata_version r) in
  let? metadata := encrypted (sec_metadata_nonce r) (sec_metadata_ciphertext r)
      (sec_metadata_dek_nonce r) (sec_metadata_wrapped_dek r) (sec_metadata_kek_version r) in
  let? current_version := parse_uint u64_max (sec_current_version r) in
  let? revision := parse_uint u64_max (sec_revision r) in
  let? state_commitment := parse_array 32 (sec_state_commitment r) in
  Ok {| ps_secret_id := secret_id; ps_namespace_id := namespace_id; ps_name_index := name_index;
        ps_metadata_version := metadata_version; ps_metadata := metadata;
        ps_lifecycle_state := sec_lifecycle_state r; ps_current_version := current_version;
        ps_revision := revision; ps_state_commitment := state_commitment;
        ps_created_at_unix_ms := sec_created_at r; ps_updated_at_unix_ms := sec_updated_at r;
        ps_deleted_at_unix_ms := sec_deleted_at r |}.

(** [read_secrets] *)
Definition read_secrets (d : Db) : result StorageError (list PortableSecret) :=
  result_mapM portable_secret (order_by (by_blob sec_secret_id) (rows (db_secrets d))).

Definition portable_version (r : VersionRow) : result StorageError PortableSecretVersion :=
  let? secret_id := parse_uuid (sv_secret_id r) in
  let? version := parse_uint u64_max (sv_version r) in
  let? payload := encrypted (sv_payload_nonce r) (sv_payload_ciphertext r) (sv_dek_nonce r)
      (sv_wrapped_dek r) (sv_kek_version r) in
  let? created_by := parse_opt_uuid (sv_created_by r) in
  Ok {| pv_secret_id := secret_id; pv_version := version; pv_payload := payload;
        pv_schedule := {| expires_at_unix_ms := sv_expires_at r;
                          rotation_due_at_unix_ms := sv_rotation_due_at r |};
        pv_created_by_principal_id := created_by; pv_created_at_unix_ms := sv_created_at r |}.

(** ORDER BY secret_id, version *)
Definition by_secret_version (a b : VersionRow) : bool :=
  blob_ltb (sv_secret_id a) (sv_secret_id b)
  || (blob_eqb (sv_secret_id a) (sv_secret_id b) && (sv_version a <=? sv_version b)).

(** [read_secret_versions] *)
Definition read_secret_versions (d : Db) : result StorageError (list PortableSecretVersion) :=
  result_mapM portable_version (order_by by_secret_version (rows (db_versions d))).

Definition portable_tombstone (r : TombstoneRow) : result StorageError PortableTombstone :=
  let? secret_id := parse_uuid (tomb_secret_id r) in
  let? namespace_id := parse_uuid (tomb_namespace_id r) in
  let? name_index := parse_array 32 (tomb_name_index r) in
  let? last_version := parse_uint u64_max (tomb_last_version r) in
  Ok {| pt_secret_id := secret_id; pt_namespace_id := namespace_id; pt_name_index := name_index;
        pt_last_version := last_version; pt_purged_at_unix_ms := tomb_purged_at r;
        pt_retention_cutoff_unix_ms := tomb_retention_cutoff r |}.

(** [read_tombstones] *)
Definition read_tombstones (d : Db) : result StorageError (list PortableTombstone) :=
  result_mapM portable_tombstone (order_by (by_blob tomb_secret_id) (rows (db_tombstones d))).

Definition portable_principal (r : PrincipalRow) : result StorageError PortablePrincipal :=
  let? principal_id := parse_uuid (pr_principal_id r) in
  let? kind := principal_kind_parse (pr_principal_kind r) in
  let? revision := parse_uint u64_max (pr_revision r) in
  let? state_commitment := parse_array 32 (pr_state_commitment r) in
  Ok {| pp_principal_id := principal_id; pp_kind := kind; pp_state := pr_state r;
        pp_revision := revision; pp_state_commitment := state_commitment;
        pp_created_at_unix_ms := pr_created_at r; pp_updated_at_unix_ms := pr_updated_at r |}.

(** [read_principals] *)
Definition read_principals (d : Db) : result StorageError (list PortablePrincipal) :=
  result_mapM portable_principal (order_by (by_blob pr_principal_id) (rows (db_principals d))).

Definition portable_authenticator (r : AuthenticatorRow) : result StorageError PortableAuthenticator :=
  let? authenticator_id := parse_uuid (oa_authenticator_id r) in
  let? principal_id := parse_uuid (oa_principal_id r) in
  let? kind := authenticator_kind_parse (oa_authenticator_kind r) in
  let? state_commitment := parse_array 32 (oa_state_commitment r) in
  Ok {| pa_authenticator_id := authenticator_id; pa_principal_id := principal_id; pa_kind := kind;
        pa_credential_lookup := oa_credential_lookup r; pa_credential_data := oa_credential_data r;
        pa_password_phc := oa_password_phc r; pa_state := oa_state r;
        pa_created_at_unix_ms := oa_created_at r; pa_last_used_at_unix_ms := oa_last_used_at r;
        pa_revoked_at_unix_ms := oa_revoked_at r; pa_state_commitment := state_commitment |}.

(** [read_authenticators] *)
Definition read_authenticators (d : Db) : result StorageError (list PortableAuthenticator) :=
  result_mapM portable_authenticator
    (order_by (by_blob oa_authenticator_id) (rows (db_authenticators d))).

Definition portable_service (r : ServiceRow) : result StorageError PortableServiceIdentity :=
  let? principal_id := parse_uuid (si_principal_id r) in
  let? metadata_version := parse_uint u64_max (si_metadata_version r) in
  let? metadata := encrypted (si_metadata_nonce r) (si_metadata_ciphertext r)
      (si_metadata_dek_nonce r) (si_metadata_wrapped_dek r) (si_metadata_kek_version r) in
  Ok {| psi_principal_id := principal_id; psi_metadata_version := metadata_version;
        psi_metadata := metadata |}.

(** [read_service_identities] *)
Definition read_service_identities (d : Db) : result StorageError (list PortableServiceIdentity) :=
  result_mapM portable_service (order_by (by_blob si_principal_id) (rows (db_services d))).

Definition portable_credential (r : CredentialRow)
  : result StorageError PortableApplicationCredential :=
  let? credential_id := parse_uuid (ac_credential_id r) in
  let? principal_id := parse_uuid (ac_principal_id r) in
  let? lookup_id := parse_array 12 (ac_lookup_id r) in
  let? verifier := parse_array 32 (ac_verifier r) in
  let? revision := parse_uint u64_max (ac_revision r) in
  let? state_commitment := parse_array 32 (ac_state_commitment r) in
  Ok {| pac_credential_id := credential_id; pac_principal_id := principal_id;
        pac_lookup_id := lookup_id; pac_verifier := verifier;
        pac_created_at_unix_ms := ac_created_at r; pac_expires_at_unix_ms := ac_expires_at r;
        pac_last_used_at_unix_ms := ac_last_used_at r; pac_revoked_at_unix_ms := ac_revoked_at r;
        pac_revision := revision; pac_state_commitment := state_commitment |}.

(** [read_application_credentials] *)
Definition read_application_credentials (d : Db)
  : result StorageError (list PortableApplicationCredential) :=
  result_mapM portable_credential (order_by (by_blob ac_credential_id) (rows (db_credentials d))).

(** [read_authorization_state] *)
Definition read_authorization_state (d : Db) : result StorageError AuthorizationState :=
  let? revision := parse_uint u64_max (db_authz_revision d) in
  let? state_commitment := parse_array 32 (db_authz_commitment d) in
  Ok {| as_revision := revision; as_state_commitment := state_commitment |}.

Definition portable_policy (r : PolicyRow) : result StorageError PortablePolicy :=
  let? policy_id := parse_uuid (pol_policy_id r) in
  let? revision := parse_uint u64_max (pol_revision r) in
  let? metadata_version := parse_uint u64_max (pol_metadata_version r) in
  let? metadata := encrypted (pol_metadata_nonce r) (pol_metadata_ciphertext r)
      (pol_metadata_dek_nonce r) (pol_metadata_wrapped_dek r) (pol_metadata_kek_version r) in
  let? state_commitment := parse_array 32 (pol_state_commitment r) in
  Ok {| ppo_policy_id := policy_id; ppo_revision := revision; ppo_state := pol_state r;
        ppo_metadata_version := metadata_version; ppo_metadata := metadata;
        ppo_state_commitment := state_commitment; ppo_created_at_unix_ms := pol_created_at r;
        ppo_updated_at_unix_ms := pol_updated_at r |}.

(** [read_policies] *)
Definition read_policies (d : Db) : result StorageError (list PortablePolicy) :=
  result_mapM portable_policy (order_by (by_blob pol_policy_id) (rows (db_policies d))).

Definition portable_grant (r : GrantRow) : result StorageError PolicyGrantRecord :=
  let? grant_id := parse_uuid (gr_grant_id r) in
  let? policy_id := parse_uuid (gr_policy_id r) in
  let? action := ok_or InvalidData (action_from_str (gr_action r)) in
  let? resource_kind := parse_resource_kind (gr_resource_kind r) in
  let? resource_id := parse_uuid (gr_resource_id r) in
  let? created_by := parse_uuid (gr_created_by r) in
  let? state_commitment := parse_array 32 (gr_state_commitment r) in
  Ok {| pg_grant_id := grant_id; pg_policy_id := policy_id; pg_action := action;
        pg_resource_kind := resource_kind; pg_resource_id := resource_id;
        pg_include_descendants := gr_include_descendants r =? 1;
        pg_created_by_principal_id := created_by; pg_created_at_unix_ms := gr_created_at r;
        pg_state_commitment := state_commitment |}.

(** [read_grants] *)
Definition read_grants (d : Db) : result StorageError (list PolicyGrantRecord) :=
  result_mapM portable_grant (order_by (by_blob gr_grant_id) (rows (db_grants d))).

(** [read_bindings] *)
Definition read_bindings (d : Db) : result StorageError (list PolicyBindingRecord) :=
  result_mapM parse_binding
    (order_by (by_blob2 bd_principal_id bd_policy_id) (rows (db_bindings d))).

(** [parse_audit] *)
Definition portable_audit (r : AuditRow) : result StorageError AuditRecord :=
  let? sequence := parse_uint u64_max (au_sequence r) in
  let? event_id := parse_uuid (au_event_id r) in
  let? installation_id := parse_uuid (au_installation_id r) in
  let? recovery_epoch := parse_uint u64_max (au_recovery_epoch r) in
  let? request_id := parse_uuid (au_request_id r) in
  let? actor := parse_opt_uuid (au_actor_principal_id r) in
  let? commitment_version := parse_uint 255 (au_commitment_version r) in
  let? credential := parse_opt_uuid (au_credential_id r) in
  let? target := parse_opt_uuid (au_target_id r) in
  let? previous := parse_array 32 (au_previous_commitment r) in
  let? commitment := parse_array 32 (au_commitment r) in
  Ok {| ar_commitment_version := commitment_version; ar_sequence := sequence;
        ar_event_id := event_id; ar_installation_id := installation_id;
        ar_recovery_epoch := recovery_epoch; ar_occurred_at_unix_ms := au_occurred_at r;
        ar_request_id := request_id; ar_actor_principal_id := actor;
        ar_credential_kind := au_credential_kind r; ar_credential_id := credential;
        ar_action := au_action r; ar_target_kind := au_target_kind r; ar_target_id := target;
        ar_outcome := au_outcome r; ar_previous_commitment := previous;
        ar_commitment := commitment |}.

(** [read_audit] *)
Definition read_audit (d : Db) : result StorageError (list AuditRecord) :=
  result_mapM portable_audit
    (order_by (fun a b => au_sequence a <=? au_sequence b) (rows (db_audit d))).

(** [SqliteStore::portable_snapshot] *)
Definition portable_snapshot (d : Db) : result StorageError PortableSnapshot :=
  let? installation := ok_or Sqlite (match db_installation d with
    | Some i => if String.eqb (inst_activation_state i) "ready" then Some i else None
    | None => None
    end) in
  let? vault_id := parse_uuid (inst_logical_vault_id installation) in
  let? source := parse_uuid (inst_installation_id installation) in
  let? epoch := parse_uint u64_max (inst_recovery_epoch installation) in
  let? semantics := parse_uint u32_max (inst_security_semantics_version installation) in
  let? namespaces := read_namespaces d in
  let? secrets := read_secrets d in
  let? secret_versions := read_secret_versions d in
  let? tombstones := read_tombstones d in
  let? principals := read_principals d in
  let? authenticators := read_authenticators d in
  let? service_identities := read_service_identities d in
  let? application_credentials := read_application_credentials d in
  let? authorization_state := read_authorization_state d in
  let? policies := read_policies d in
  let? grants := read_grants d in
  let? bindings := read_bindings d in
  let? audit_records := read_audit d in
  Ok {| snp_vault_id := vault_id; snp_source_installation_id := source;
        snp_source_recovery_epoch := epoch; snp_security_semantics_version := semantics;
        snp_namespaces := namespaces; snp_secrets := secrets; snp_secret_versions := secret_versions;
        snp_tombstones := tombstones; snp_principals := principals;
        snp_authenticators := authenticators; snp_service_identities := service_identities;
        snp_application_credentials := application_credentials;
        snp_authorization_state := authorization_state; snp_policies := policies;
        snp_grants := grants; snp_bindings := bindings; snp_audit_records := audit_records |}.

(** ** Writing *)

(** A loop of INSERT statements, each followed by its immediate foreign keys. *)
Definition insert_records {R A} (to_row : R -> result StorageError A) (sc : schema A)
    (get : Db -> table A) (set : table A -> Db -> Db) (keys_hold : A -> Db -> bool)
    (records : list R) : StoreTx unit :=
  tx_forM (fun record =>
    let! row := tx_lift (to_row record) in
    tx_insert sc get set row ;;
    tx_require (keys_hold row)) records.

Definition no_foreign_key {A} (_ : A) (_ : Db) : bool := true.

Definition principal_to_row (p : PortablePrincipal) : result StorageError PrincipalRow :=
  let? revision := sql_u64 (pp_revision p) in
  Ok {| pr_principal_id := arr (pp_principal_id p);
        pr_principal_kind := principal_kind_str (pp_kind p); pr_state := pp_state p;
        pr_revision := revision; pr_state_commitment := arr (pp_state_commitment p);
        pr_created_at := pp_created_at_unix_ms p; pr_updated_at := pp_updated_at_unix_ms p |}.

(** [insert_principals] *)
Definition insert_principals : list PortablePrincipal -> StoreTx unit :=
  insert_records principal_to_row principals_schema db_principals set_principals no_foreign_key.

Definition authenticator_to_row (a : PortableAuthenticator) : result StorageError AuthenticatorRow :=
  Ok {| oa_authenticator_id := arr (pa_authenticator_id a);
        oa_principal_id := arr (pa_principal_id a);
        oa_authenticator_kind := authenticator_kind_as_str (pa_kind a);
        oa_credential_lookup := pa_credential_lookup a; oa_credential_data := pa_credential_data a;
        oa_password_phc := pa_password_phc a; oa_state := pa_state a;
        oa_created_at := pa_created_at_unix_ms a; oa_last_used_at := pa_last_used_at_unix_ms a;
        oa_revoked_at := pa_revoked_at_unix_ms a;
        oa_state_commitment := arr (pa_state_commitment a) |}.

Definition authenticator_keys (r : AuthenticatorRow) (d : Db) : bool :=
  principal_exists (oa_principal_id r) d.

(** [insert_authenticators] *)
Definition insert_authenticators : list PortableAuthenticator -> StoreTx unit :=
  insert_records authenticator_to_row authenticators_schema db_authenticators set_authenticators
    authenticator_keys.

Definition service_to_row (s : PortableServiceIdentity) : result StorageError ServiceRow :=
  let? metadata_version := sql_u64 (psi_metadata_version s) in
  let m := psi_metadata s in
  Ok {| si_principal_id := arr (psi_principal_id s); si_metadata_version := metadata_version;
        si_metadata_nonce := arr (er_nonce m); si_metadata_ciphertext := er_ciphertext m;
        si_metadata_dek_nonce := arr (er_dek_nonce m);
        si_metadata_wrapped_dek := arr (er_wrapped_dek m);
        si_metadata_kek_version := er_kek_version m |}.

Definition service_keys (r : ServiceRow) (d : Db) : bool := principal_exists (si_principal_id r) d.

(** [insert_service_identities] *)
Definition insert_service_identities : list PortableServiceIdentity -> StoreTx unit :=
  insert_records service_to_row services_schema db_services set_services service_keys.

Definition credential_to_row (c : PortableApplicationCredential) : result StorageError CredentialRow :=
  let? revision := sql_u64 (pac_revision c) in
  Ok {| ac_credential_id := arr (pac_credential_id c); ac_principal_id := arr (pac_principal_id c);
        ac_lookup_id := arr (pac_lookup_id c); ac_verifier := arr (pac_verifier c);
        ac_created_at := pac_created_at_unix_ms c; ac_expires_at := pac_expires_at_unix_ms c;
        ac_last_used_at := pac_last_used_at_unix_ms c; ac_revoked_at := pac_revoked_at_unix_ms c;
        ac_revision := revision; ac_state_commitment := arr (pac_state_commitment c) |}.

Definition credential_keys (r : CredentialRow) (d : Db) : bool :=
  principal_exists (ac_principal_id r) d.

(** [insert_application_credentials] *)
Definition insert_application_credentials : list PortableApplicationCredential -> StoreTx unit :=
  insert_records credential_to_row credentials_schema db_credentials set_credentials
    credential_keys.

Definition namespace_to_row (n : PortableNamespace) : result StorageError NamespaceRow :=
  let? metadata_version := sql_u64 (pn_metadata_version n) in
  let? revision := sql_u64 (pn_revision n) in
  let m := pn_metadata n in
  Ok {| ns_namespace_id := arr (pn_namespace_id n);
        ns_parent_namespace_id := arr <$> pn_parent_namespace_id n;
        ns_name_index := arr (pn_name_index n); ns_metadata_version := metadata_version;
        ns_metadata_nonce := arr (er_nonce m); ns_metadata_ciphertext := er_ciphertext m;
        ns_dek_nonce := arr (er_dek_nonce m); ns_wrapped_dek := arr (er_wrapped_dek m);
        ns_kek_version := er_kek_version m; ns_lifecycle_state := pn_lifecycle_state n;
        ns_revision := revision; ns_state_commitment := arr (pn_state_commitment n);
        ns_created_at := pn_created_at_unix_ms n; ns_updated_at := pn_updated_at_unix_ms n |}.

Definition namespace_keys (r : NamespaceRow) (d : Db) : bool :=
  opt_check (fun p => namespace_exists p d) (ns_parent_namespace_id r).

(** [insert_namespaces] *)
Definition insert_namespaces : list PortableNamespace -> StoreTx unit :=
  insert_records namespace_to_row namespaces_schema db_namespaces set_namespaces namespace_keys.

Definition secret_to_row (s : PortableSecret) : result StorageError SecretRow :=
  let? metadata_version := sql_u64 (ps_metadata_version s) in
  let? current_version := sql_u64 (ps_current_version s) in
  let? revision := sql_u64 (ps_revision s) in
  let m := ps_metadata s in
  Ok {| sec_secret_id := arr (ps_secret_id s); sec_namespace_id := arr (ps_namespace_id s);
        sec_name_index := arr (ps_name_index s); sec_metadata_version := metadata_version;
        sec_metadata_nonce := arr (er_nonce m); sec_metadata_ciphertext := er_ciphertext m;
        sec_metadata_dek_nonce := arr (er_dek_nonce m);
        sec_metadata_wrapped_dek := arr (er_wrapped_dek m);
        sec_metadata_kek_version := er_kek_version m;
        sec_lifecycle_state := ps_lifecycle_state s; sec_current_version := current_version;
        sec_revision := revision; sec_state_commitment := arr (ps_state_commitment s);
        sec_created_at := ps_created_at_unix_ms s; sec_updated_at := ps_updated_at_unix_ms s;
        sec_deleted_at := ps_deleted_at_unix_ms s |}.

Definition secret_keys (r : SecretRow) (d : Db) : bool := namespace_exists (sec_namespace_id r) d.

(** [insert_secrets] *)
Definition insert_secrets : list PortableSecret -> StoreTx unit :=
  insert_records secret_to_row secrets_schema db_secrets set_secrets secret_keys.

Definition version_to_row (v : PortableSecretVersion) : result StorageError VersionRow :=
  let? version := sql_u64 (pv_version v) in
  let p := pv_payload v in
  Ok {| sv_secret_id := arr (pv_secret_id v); sv_version := version; sv_envelope_version := 1;
        sv_algorithm_suite := 1; sv_kek_version := er_kek_version p;
        sv_payload_nonce := arr (er_nonce p); sv_payload_ciphertext := er_ciphertext p;
        sv_dek_nonce := arr (er_dek_nonce p); sv_wrapped_dek := arr (er_wrapped_dek p);
        sv_expires_at := expires_at_unix_ms (pv_schedule v);
        sv_rotation_due_at := rotation_due_at_unix_ms (pv_schedule v);
        sv_created_by := arr <$> pv_created_by_principal_id v;
        sv_created_at := pv_created_at_unix_ms v |}.

Definition version_keys (r : VersionRow) (d : Db) : bool := secret_exists (sv_secret_id r) d.

(** [insert_secret_versions] *)
Definition insert_secret_versions : list PortableSecretVersion -> StoreTx unit :=
  insert_records version_to_row versions_schema db_versions set_versions version_keys.

Definition tombstone_to_row (t : PortableTombstone) : result StorageError TombstoneRow :=
  let? last_version := sql_u64 (pt_last_version t) in
  Ok {| tomb_secret_id := arr (pt_secret_id t); tomb_namespace_id := arr (pt_namespace_id t);
        tomb_name_index := arr (pt_name_index t); tomb_last_version := last_version;
        tomb_purged_at := pt_purged_at_unix_ms t;
        tomb_retention_cutoff := pt_retention_cutoff_unix_ms t |}.

(** [insert_tombstones] *)
Definition insert_tombstones : list PortableTombstone -> StoreTx unit :=
  insert_records tombstone_to_row tombstones_schema db_tombstones set_tombstones no_foreign_key.

Definition policy_to_row (p : PortablePolicy) : result StorageError PolicyRow :=
  let? revision := sql_u64 (ppo_revision p) in
  let? metadata_version := sql_u64 (ppo_metadata_version p) in
  let m := ppo_metadata p in
  Ok {| pol_policy_id := arr (ppo_policy_id p); pol_revision := revision; pol_state := ppo_state p;
        pol_metadata_version := metadata_version; pol_metadata_nonce := arr (er_nonce m);
        pol_metadata_ciphertext := er_ciphertext m; pol_metadata_dek_nonce := arr (er_dek_nonce m);
        pol_metadata_wrapped_dek := arr (er_wrapped_dek m);
        pol_metadata_kek_version := er_kek_version m;
        pol_state_commitment := arr (ppo_state_commitment p);
        pol_created_at := ppo_created_at_unix_ms p; pol_updated_at := ppo_updated_at_unix_ms p |}.

(** [insert_policies] *)
Definition insert_policies : list PortablePolicy -> StoreTx unit :=
  insert_records policy_to_row policies_schema db_policies set_policies no_foreign_key.

Definition grant_to_row (g : PolicyGrantRecord) : result StorageError GrantRow :=
  Ok {| gr_grant_id := arr (pg_grant_id g); gr_policy_id := arr (pg_policy_id g);
        gr_action := action_as_str (pg_action g);
        gr_resource_kind := resource_kind_as_str (pg_resource_kind g);
        gr_resource_id := arr (pg_resource_id g);
        gr_include_descendants := if pg_include_descendants g then 1 else 0;
        gr_created_by := arr (pg_created_by_principal_id g);
        gr_created_at := pg_created_at_unix_ms g;
        gr_state_commitment := arr (pg_state_commitment g) |}.

Definition grant_keys (r : GrantRow) (d : Db) : bool :=
  policy_exists (gr_policy_id r) d && principal_exists (gr_created_by r) d.

(** [insert_grants] *)
Definition insert_grants : list PolicyGrantRecord -> StoreTx unit :=
  insert_records grant_to_row grants_schema db_grants set_grants grant_keys.

Definition binding_to_row (b : PolicyBindingRecord) : result StorageError BindingRow :=
  Ok {| bd_principal_id := arr (pb_principal_id b); bd_policy_id := arr (pb_policy_id b);
        bd_created_by := arr (pb_created_by_principal_id b);
        bd_created_at := pb_created_at_unix_ms b;
        bd_state_commitment := arr (pb_state_commitment b) |}.

Definition binding_keys (r : BindingRow) (d : Db) : bool :=
  principal_exists (bd_principal_id r) d && policy_exists (bd_policy_id r) d
  && principal_exists (bd_created_by r) d.

(** [insert_bindings] *)
Definition insert_bindings : list PolicyBindingRecord -> StoreTx unit :=
  insert_records binding_to_row bindings_schema db_bindings set_bindings binding_keys.

Definition audit_to_row (a : AuditRecord) : result StorageError AuditRow :=
  let? sequence := sql_u64 (ar_sequence a) in
  let? recovery_epoch := sql_u64 (ar_recovery_epoch a) in
  Ok {| au_sequence := sequence; au_event_id := arr (ar_event_id a);
        au_installation_id := arr (ar_installation_id a); au_recovery_epoch := recovery_epoch;
        au_occurred_at := ar_occurred_at_unix_ms a; au_request_id := arr (ar_request_id a);
        au_actor_principal_id := arr <$> ar_actor_principal_id a; au_action := ar_action a;
        au_target_kind := ar_target_kind a; au_target_id := arr <$> ar_target_id a;
        au_outcome := ar_outcome a; au_previous_commitment := arr (ar_previous_commitment a);
        au_commitment := arr (ar_commitment a);
        au_commitment_version := ar_commitment_version a;
        au_credential_kind := ar_credential_kind a;
        au_credential_id := arr <$> ar_credential_id a |}.

(** [insert_audit_records] *)
Definition insert_audit_records : list AuditRecord -> StoreTx unit :=
  insert_records audit_to_row audit_schema db_audit set_audit no_foreign_key.

(** PRAGMA foreign_key_check finds no violation. *)
Definition foreign_key_check (d : Db) : bool :=
  forallb (fun r => namespace_keys r d) (rows (db_namespaces d))
  && forallb (fun r => secret_keys r d
                       && version_exists (sec_secret_id r) (sec_current_version r) d)
       (rows (db_secrets d))
  && forallb (fun r => version_keys r d) (rows (db_versions d))
  && forallb (fun r => authenticator_keys r d) (rows (db_authenticators d))
  && forallb (fun r => principal_exists (ss_principal_id r) d
                       && authenticator_exists (ss_authenticator_id r) d) (rows (db_sessions d))
  && forallb (fun r => service_keys r d) (rows (db_services d))
  && forallb (fun r => credential_keys r d) (rows (db_credentials d))
  && forallb (fun r => grant_keys r d) (rows (db_grants d))
  && forallb (fun r => binding_keys r d) (rows (db_bindings d))
  && forallb (fun r => principal_exists (idem_principal_id r) d) (rows (db_idempotency d)).

(** UPDATE smcv_installation_state SET recovery_epoch, security_semantics_version *)
Definition set_recovery (epoch semantics : Z) (r : InstallationRow) : InstallationRow :=
  {| inst_logical_vault_id := inst_logical_vault_id r;
     inst_installation_id := inst_installation_id r; inst_recovery_epoch := epoch;
     inst_initialized_at := inst_initialized_at r;
     inst_activation_state := inst_activation_state r;
     inst_active_kek_version := inst_active_kek_version r;
     inst_security_semantics_version := semantics |}.

Definition all_rows {A} (_ : A) : bool := true.

(** [SqliteStore::import_portable_snapshot] *)
Definition import_portable_snapshot (snapshot : PortableSnapshot) (destination_recovery_epoch : Z)
  : Store unit :=
  transact (
    let! row := tx_read (fun d => ok_or Sqlite (db_installation d)) in
    tx_reject (negb (String.eqb (inst_activation_state row) "initializing")) StateConflict ;;
    let! vault_id := tx_lift (parse_uuid (inst_logical_vault_id row)) in
    tx_reject (negb (bool_decide (vault_id = snp_vault_id snapshot))) StateConflict ;;
    let! existing := tx_read (fun d => Ok (
      count all_rows (db_namespaces d) + count all_rows (db_secrets d)
      + count all_rows (db_principals d) + count all_rows (db_audit d)
      + count all_rows (db_policies d))) in
    tx_reject (negb (existing =? 0)) StateConflict ;;
    let! epoch := tx_lift (sql_u64 destination_recovery_epoch) in
    let! _ := update_installation
      (fun r => String.eqb (inst_activation_state r) "initializing")
      (set_recovery epoch (snp_security_semantics_version snapshot)) in
    insert_principals (snp_principals snapshot) ;;
    insert_authenticators (snp_authenticators snapshot) ;;
    insert_service_identities (snp_service_identities snapshot) ;;
    insert_application_credentials (snp_application_credentials snapshot) ;;
    insert_namespaces (snp_namespaces snapshot) ;;
    insert_secrets (snp_secrets snapshot) ;;
    insert_secret_versions (snp_secret_versions snapshot) ;;
    insert_tombstones (snp_tombstones snapshot) ;;
    insert_policies (snp_policies snapshot) ;;
    insert_grants (snp_grants snapshot) ;;
    insert_bindings (snp_bindings snapshot) ;;
    let! revision := tx_lift (sql_u64 (as_revision (snp_authorization_state snapshot))) in
    tx_reject (revision <=? 0) Sqlite ;;
    tx_modify (fun d => set_authz_commitment
      (arr (as_state_commitment (snp_authorization_state snapshot))) (set_authz_revision revision d)) ;;
    insert_audit_records (snp_audit_records snapshot) ;;
    let! clean := tx_read (fun d => Ok (foreign_key_check d)) in
    tx_reject (negb clean) InvalidData ;;
    tx_commit).
