(* ===== verification/PortableTree.v ===== *)
(** The recursive query of a snapshot: the namespaces of a forest, each exactly
    once and after its parent, in an order that does not depend on the order
    they were stored in. *)
From Stdlib Require Import ZArith Lia String.
From stdpp Require Import base tactics numbers option strings list sorting sets.
From S2P Require Import Prelude RustStd Core Sql Schema Records StoreInv RecordsOk PolicyStore PolicyGraph VaultTree Portable.

(** ** Sorting by a key *)

Lemma by_blob_total {A} (key : A -> blob) a b : by_blob key a b = false -> by_blob key b a = true.
Proof. apply blob_leb_total. Qed.
Lemma by_blob_trans {A} (key : A -> blob) a b c :
  by_blob key a b = true -> by_blob key b c = true -> by_blob key a c = true.
Proof. apply blob_leb_trans. Qed.

(** Rows with distinct keys sort to one list. *)
Lemma order_by_perm_eq {A} (le : A -> A -> bool) (l l' : list A) :
  (forall a b, le a b = false -> le b a = true) ->
  (forall a b c, le a b = true -> le b c = true -> le a c = true) ->
  (forall a b, a ∈ l -> b ∈ l -> le a b = true -> le b a = true -> a = b) ->
  l ≡ₚ l' -> order_by le l = order_by le l'.
Proof.
  intros Htot Htrans Hanti Hp. apply (StronglySorted_unique_strong (fun a b => le a b = true)).
  - intros a b Ha Hb. rewrite order_by_perm in Ha, Hb. rewrite <- Hp in Hb. auto.
  - by apply order_by_sorted.
  - by apply order_by_sorted.
  - by rewrite !order_by_perm.
Qed.

Lemma order_by_idem {A} (le : A -> A -> bool) (l : list A) :
  (forall a b, le a b = false -> le b a = true) ->
  (forall a b c, le a b = true -> le b c = true -> le a c = true) ->
  order_by le (order_by le l) = order_by le l.
Proof. intros. apply order_by_id. by apply order_by_sorted. Qed.

(** ** Depth *)

Section Tree.
Variable all : list NamespaceRow.
Hypothesis unique : forall a b, a ∈ all -> b ∈ all -> ns_namespace_id a = ns_namespace_id b -> a = b.

(** The distance of a row from its root. *)
Inductive at_depth : nat -> NamespaceRow -> Prop :=
| at_root r : r ∈ all -> ns_parent_namespace_id r = None -> at_depth 0 r
| at_child k r t : r ∈ all -> at_depth k t -> ns_parent_namespace_id r = Some (ns_namespace_id t) ->
    at_depth (S k) r.

Lemma at_depth_in k r : at_depth k r -> r ∈ all.
Proof. by inversion 1. Qed.

Lemma at_depth_fun k k' r : at_depth k r -> at_depth k' r -> k = k'.
Proof.
  intros H. revert k'. induction H as [r Hr Hp|k r t Hr Ht IH Hp]; inversion 1; subst; try congruence.
  f_equal. apply IH. replace t with t0; [done|]. apply unique; [by eapply at_depth_in..|congruence].
Qed.

(** A row at depth [k] has [k] ancestors. *)
Lemma at_depth_chain k r :
  at_depth k r -> exists l, NoDup l /\ length l = S k /\ forall x, x ∈ l -> exists i, (i <= k)%nat /\ at_depth i x.
Proof.
  induction 1 as [r Hr Hp|k r t Hr Ht (l & Hnd & Hlen & Hl) Hp].
  - exists [r]. split; [apply NoDup_singleton|]. split; [done|].
    intros x ->%list_elem_of_singleton. exists 0%nat. split; [lia|by constructor].
  - assert (at_depth (S k) r) as Hd by by eapply at_child.
    exists (r :: l). split; [|split; [simpl; lia|]].
    + constructor; [|done]. intros Hrl. apply Hl in Hrl as (i & ? & Hi).
      pose proof (at_depth_fun _ _ _ Hi Hd). lia.
    + intros x [->|Hx]%elem_of_cons; [by exists (S k)|].
      apply Hl in Hx as (i & ? & ?). exists i. split; [lia|done].
Qed.

Lemma at_depth_bound k r : at_depth k r -> (k < length all)%nat.
Proof.
  intros H. apply at_depth_chain in H as (l & Hnd & Hlen & Hl).
  enough (length l <= length all)%nat by lia. apply submseteq_length, NoDup_submseteq; [done|].
  intros x Hx. apply Hl in Hx as (i & _ & Hi). by eapply at_depth_in.
Qed.

(** ** The query *)

Lemma elem_of_tree_children level r :
  r ∈ tree_children all level <->
  r ∈ all /\ exists t, t ∈ level /\ ns_parent_namespace_id r = Some (ns_namespace_id t).
Proof.
  unfold tree_children. rewrite list_elem_of_join. split.
  - intros (l & Hr & (t & -> & Ht)%list_elem_of_fmap).
    apply list_elem_of_In, filter_In in Hr as [Hr%list_elem_of_In Hp%bool_decide_eq_true]. eauto.
  - intros (Hr & t & Ht & Hp). eexists. split; [|by apply list_elem_of_fmap_2].
    apply list_elem_of_In, filter_In. split; [by apply list_elem_of_In|by apply bool_decide_eq_true].
Qed.

(** The levels of the query are the depths. *)
Definition level_at (k : nat) (level : list NamespaceRow) : Prop :=
  NoDup level /\ forall r, r ∈ level <-> at_depth k r.

Hypothesis all_once : NoDup all.

Lemma level_roots : level_at 0 (tree_roots all).
Proof.
  unfold tree_roots. split.
  - apply NoDup_ListNoDup, List.NoDup_filter, NoDup_ListNoDup, all_once.
  - intros r. rewrite list_elem_of_In, filter_In, <- list_elem_of_In, bool_decide_eq_true.
    split; [by intros []; constructor | by inversion 1].
Qed.

Lemma NoDup_children level :
  NoDup level -> (forall t, t ∈ level -> t ∈ all) -> NoDup (tree_children all level).
Proof.
  unfold tree_children. induction 1 as [|t level Ht Hnd IH]; intros Hin; simpl; [constructor|].
  apply NoDup_app. split; [|split].
  - apply NoDup_ListNoDup, List.NoDup_filter, NoDup_ListNoDup, all_once.
  - intros r Hr Hr'. apply list_elem_of_In, filter_In in Hr as [_ Hp%bool_decide_eq_true].
    apply elem_of_tree_children in Hr' as (_ & t' & Ht' & Hp'). apply Ht.
    replace t with t'; [done|]. apply unique; [apply Hin; by right|apply Hin; by left|congruence].
  - apply IH. intros. apply Hin. by right.
Qed.

Lemma level_next k level : level_at k level -> level_at (S k) (tree_children all level).
Proof.
  intros [Hnd Hl]. split.
  - apply NoDup_children; [done|]. intros t Ht. apply Hl in Ht. by eapply at_depth_in.
  - intros r. rewrite elem_of_tree_children. split.
    + intros (Hr & t & Ht & Hp). eapply at_child; [done|by apply Hl|done].
    + inversion 1 as [|k' r' t Hr Ht Hp]; subst. split; [done|]. exists t. split; [by apply Hl|done].
Qed.

Lemma tree_levels_at fuel k level :
  level_at k level ->
  (forall i level', tree_levels all fuel level !! i = Some level' -> level_at (k + i) level')
  /\ (forall i r, (i < fuel)%nat -> at_depth (k + i) r ->
        exists level', tree_levels all fuel level !! i = Some level' /\ r ∈ level').
Proof.
  revert k level. induction fuel as [|fuel IH]; intros k level Hl; [split; [done|lia]|].
  destruct (IH (S k) (tree_children all level) (level_next _ _ Hl)) as [IH1 IH2].
  cbn [tree_levels]. destruct level as [|t level].
  - split; [done|]. intros i r _ Hr. exfalso. destruct Hl as [_ Hl].
    assert (forall j x, at_depth (k + j) x -> False) as Hnone; [|by eapply Hnone].
    induction j as [|j IHj]; intros x Hx.
    + rewrite Nat.add_0_r in Hx. apply Hl in Hx. by apply not_elem_of_nil in Hx.
    + rewrite Nat.add_succ_r in Hx. inversion Hx; subst. eauto.
  - split; intros [|i]; cbn [lookup list_lookup].
    + intros level' [= <-]. by rewrite Nat.add_0_r.
    + intros level' H%IH1. by rewrite Nat.add_succ_r.
    + intros r _ Hr. rewrite Nat.add_0_r in Hr. eexists. split; [done|]. by apply Hl.
    + intros r ? Hr. apply IH2; [lia|]. by rewrite Nat.add_succ_r in Hr.
Qed.

Lemma NoDup_join_levels (levels : list (list NamespaceRow)) k :
  (forall i level, levels !! i = Some level -> level_at (k + i) level) ->
  NoDup (mjoin (order_by (by_blob ns_namespace_id) <$> levels)).
Proof.
  revert k. induction levels as [|level levels IH]; intros k Hl; simpl; [constructor|].
  apply NoDup_app. split; [|split].
  - rewrite order_by_perm. apply (Hl 0%nat). done.
  - intros r Hr Hr'. rewrite order_by_perm in Hr. apply (Hl 0%nat) in Hr; [|done].
    apply list_elem_of_join in Hr' as (l & Hr' & (level' & -> & Hlev)%list_elem_of_fmap).
    rewrite order_by_perm in Hr'. apply list_elem_of_lookup in Hlev as (i & Hi).
    apply (Hl (S i)) in Hr'; [|done]. pose proof (at_depth_fun _ _ _ Hr Hr'). lia.
  - apply (IH (S k)). intros i level' Hi. rewrite Nat.add_succ_l, <- Nat.add_succ_r. by apply Hl.
Qed.

(** Every row that has a depth is selected exactly once. *)
Lemma namespace_tree_perm :
  (forall r, r ∈ all -> exists k, at_depth k r) -> namespace_tree all ≡ₚ all.
Proof.
  intros Hall. destruct (tree_levels_at (S (length all)) 0 _ level_roots) as [H1 H2].
  apply NoDup_Permutation; [by apply (NoDup_join_levels _ 0)|done|].
  intros r. unfold namespace_tree. rewrite list_elem_of_join. split.
  - intros (l & Hr & (level & -> & Hlev)%list_elem_of_fmap). rewrite order_by_perm in Hr.
    apply list_elem_of_lookup in Hlev as (i & Hi). apply H1 in Hi as [_ Hi]. apply Hi in Hr.
    by eapply at_depth_in.
  - intros Hr. destruct (Hall r Hr) as (k & Hk). pose proof (at_depth_bound _ _ Hk).
    destruct (H2 k r ltac:(lia) Hk) as (level & Hi & Hrl).
    eexists. split; [|by eapply list_elem_of_fmap_2, list_elem_of_lookup_2]. by rewrite order_by_perm.
Qed.

(** The rows come in the order of their depth. *)
Definition not_deeper (a b : NamespaceRow) : Prop :=
  forall i j, at_depth i a -> at_depth j b -> (i <= j)%nat.

Lemma sorted_same_depth k l : (forall r, r ∈ l -> at_depth k r) -> StronglySorted not_deeper l.
Proof.
  induction l as [|a l IH]; intros Hl; constructor.
  - apply IH. intros. apply Hl. by right.
  - apply Forall_forall. intros b Hb i j Hi Hj.
    pose proof (at_depth_fun _ _ _ Hi (Hl a ltac:(left))).
    pose proof (at_depth_fun _ _ _ Hj (Hl b ltac:(by right))). lia.
Qed.

Lemma sorted_levels (levels : list (list NamespaceRow)) k :
  (forall i level, levels !! i = Some level -> level_at (k + i) level) ->
  StronglySorted not_deeper (mjoin (order_by (by_blob ns_namespace_id) <$> levels)).
Proof.
  revert k. induction levels as [|level levels IH]; intros k Hl; simpl; [constructor|].
  assert (forall r, r ∈ order_by (by_blob ns_namespace_id) level -> at_depth k r) as H0.
  { intros r Hr. rewrite order_by_perm in Hr. apply (Hl 0%nat) in Hr; [|done]. by rewrite Nat.add_0_r in Hr. }
  apply StronglySorted_app_2.
  - intros r r' Hr Hr' i j Hi Hj.
    apply list_elem_of_join in Hr' as (l & Hr' & (level' & -> & Hlev)%list_elem_of_fmap).
    rewrite order_by_perm in Hr'. apply list_elem_of_lookup in Hlev as (n & Hn).
    apply (Hl (S n)) in Hr'; [|done].
    pose proof (at_depth_fun _ _ _ Hi (H0 _ Hr)). pose proof (at_depth_fun _ _ _ Hj Hr'). lia.
  - by eapply sorted_same_depth.
  - apply (IH (S k)). intros i level' Hi. rewrite Nat.add_succ_l, <- Nat.add_succ_r. by apply Hl.
Qed.

(** The parent of a selected row is selected before it. *)
Lemma namespace_tree_parent_first l1 r l2 p :
  (forall r, r ∈ all -> exists k, at_depth k r) ->
  namespace_tree all = l1 ++ r :: l2 -> ns_parent_namespace_id r = Some p ->
  exists t, t ∈ l1 /\ ns_namespace_id t = p.
Proof.
  intros Hall E Hp. pose proof (namespace_tree_perm Hall) as Hperm. rewrite E in Hperm.
  destruct (tree_levels_at (S (length all)) 0 _ level_roots) as [H1 _].
  pose proof (sorted_levels _ 0 H1) as Hs. fold (namespace_tree all) in Hs. rewrite E in Hs.
  destruct (Hall r) as (k & Hk). { rewrite <- Hperm. set_solver. }
  inversion Hk as [|k' r' t Hr Ht Hp']; subst; [congruence|]. exists t.
  split; [|congruence]. assert (t ∈ l1 ++ r :: l2) as Hin.
  { rewrite Hperm. by eapply at_depth_in. }
  apply elem_of_app in Hin as [?|[->|Hin]%elem_of_cons]; [done|..].
  - pose proof (at_depth_fun _ _ _ Hk Ht). lia.
  - apply StronglySorted_app_1_r in Hs. inversion Hs as [|?? _ HF]; subst.
    rewrite Forall_forall in HF. pose proof (HF t Hin _ _ Hk Ht). lia.
Qed.
End Tree.

(** ** Independence of the stored order *)

Lemma filterb_perm {A} (p : A -> bool) l l' : l ≡ₚ l' -> List.filter p l ≡ₚ List.filter p l'.
Proof. apply Permutation_filterb. Qed.

Lemma tree_children_perm all all' level level' :
  all ≡ₚ all' -> level ≡ₚ level' -> tree_children all level ≡ₚ tree_children all' level'.
Proof.
  intros Ha Hl. unfold tree_children. transitivity (mjoin ((fun t => List.filter (fun r =>
    bool_decide (ns_parent_namespace_id r = Some (ns_namespace_id t))) all) <$> level')).
  - by rewrite Hl.
  - clear Hl. induction level' as [|t l IH]; simpl; [done|]. by rewrite IH, (filterb_perm _ _ _ Ha).
Qed.

Lemma tree_levels_perm all all' fuel level level' :
  all ≡ₚ all' -> level ≡ₚ level' ->
  Forall2 Permutation (tree_levels all fuel level) (tree_levels all' fuel level').
Proof.
  intros Ha. revert level level'. induction fuel as [|fuel IH]; intros level level' Hl; simpl; [constructor|].
  destruct level as [|t level], level' as [|t' level'].
  - constructor.
  - by apply Permutation_nil_l in Hl.
  - by apply Permutation_nil_r in Hl.
  - constructor; [done|]. apply IH. by apply tree_children_perm.
Qed.

Lemma namespace_tree_stable all all' :
  (forall a b, a ∈ all -> b ∈ all -> ns_namespace_id a = ns_namespace_id b -> a = b) ->
  all ≡ₚ all' -> namespace_tree all = namespace_tree all'.
Proof.
  intros Hu Hp. unfold namespace_tree. rewrite (Permutation_length Hp).
  assert (Forall2 Permutation (tree_levels all (S (length all')) (tree_roots all))
            (tree_levels all' (S (length all')) (tree_roots all'))) as HF.
  { apply tree_levels_perm; [done|]. by apply filterb_perm. }
  assert (forall level, level ∈ tree_levels all (S (length all')) (tree_roots all) ->
            forall r, r ∈ level -> r ∈ all) as Hin.
  { generalize (S (length all')). intros fuel. assert (forall r, r ∈ tree_roots all -> r ∈ all) as H0.
    { intros r Hr. apply list_elem_of_In, filter_In in Hr as [Hr _]. by apply list_elem_of_In. }
    revert H0. generalize (tree_roots all). clear HF. induction fuel as [|fuel IH]; intros level H0 l Hl; simpl in Hl.
    { by apply not_elem_of_nil in Hl. }
    destruct level as [|t level]; [by apply not_elem_of_nil in Hl|].
    apply elem_of_cons in Hl as [->|Hl]; [done|]. eapply IH; [|done].
    intros r Hr. by apply elem_of_tree_children in Hr as [? _]. }
  induction HF as [|l l' ls ls' Hl HF IH]; simpl; [done|]. f_equal; [|apply IH; intros; eapply Hin; [by right|done]].
  apply order_by_perm_eq; [apply by_blob_total|apply by_blob_trans| |done].
  intros a b Ha Hb Hab Hba. apply Hu; [by eapply Hin; [left|]..|]. by apply blob_leb_antisym.
Qed.

(** The rows of a forest have a depth. *)
Lemma forest_depth d :
  tables_ok d -> forest d -> forall r, r ∈ rows (db_namespaces d) -> exists k, at_depth (rows (db_namespaces d)) k r.
Proof.
  intros Hok Hf r Hr. specialize (Hf r Hr). remember (ns_namespace_id r) as id eqn:E.
  revert r Hr E. induction Hf as [id n Hn Hp|id n p Hn Hp Hroot IH]; intros r Hr E.
  - apply find_namespace_Some in Hn as [Hn En]; [|done]. exists 0%nat.
    replace r with n; [by constructor|]. eapply namespace_id_unique; [done..|congruence].
  - apply find_namespace_Some in Hn as [Hn En]; [|done].
    assert (r = n) as -> by (eapply namespace_id_unique; [done..|congruence]).
    assert (exists t, find_namespace d p = Some t) as (t & Ht) by (inversion Hroot; eauto).
    apply find_namespace_Some in Ht as [Ht Et]; [|done]. destruct (IH t Ht (eq_sym Et)) as (k & Hk).
    exists (S k). eapply at_child; [done..|congruence].
Qed.
