(* ===== verification/PortableProps.v ===== *)
(** A snapshot carries a database: it can always be taken, every fresh
    destination accepts it, and what is read back there is the snapshot. *)
From Stdlib Require Import ZArith Lia String.
From stdpp Require Import base tactics numbers option strings list sorting sets.
From S2P Require Import Prelude RustStd Core Sql Schema Records StoreInv RecordsOk PolicyStore VaultStore IdentityStore RecordsProps PolicyGraph InitializationProps RotationProps VaultTree Portable PortableTree.

(** * The rows a snapshot can carry *)

(** INTEGER columns hold 64-bit integers, and key versions were written from
    32-bit ones. *)
Record stored_widths (d : Db) : Prop := {
  width_tombstone t : t ∈ rows (db_tombstones d) -> tomb_last_version t <= i64_max;
  width_principal p : p ∈ rows (db_principals d) -> pr_revision p <= i64_max;
  width_service s : s ∈ rows (db_services d) ->
    si_metadata_version s <= i64_max /\ si_metadata_kek_version s <= u32_max;
  width_credential c : c ∈ rows (db_credentials d) -> ac_revision c <= i64_max;
  width_policy p : p ∈ rows (db_policies d) ->
    pol_revision p <= i64_max /\ pol_metadata_version p <= i64_max
    /\ pol_metadata_kek_version p <= u32_max;
  width_audit a : a ∈ rows (db_audit d) -> au_recovery_epoch a <= i64_max;
  width_authz : 0 < db_authz_revision d <= i64_max /\ length (db_authz_commitment d) = 32%nat }.

(** The state of a ready vault. *)
Record portable_ok (d : Db) (i : InstallationRow) : Prop := {
  port_db : db_ok d;
  port_keys : foreign_key_check d = true;
  port_forest : forest d;
  port_widths : stored_widths d;
  port_actions g : g ∈ rows (db_grants d) -> is_Some (action_from_str (gr_action g));
  port_installation : db_installation d = Some i;
  port_ready : inst_activation_state i = "ready" /\ installation_check i = true
               /\ inst_recovery_epoch i <= u64_max }.

(** The state [begin_restore_initialization] leaves. *)
Record fresh_destination (d : Db) (vault_id : VaultId) (i : InstallationRow) : Prop := {
  fresh_db : db_ok d;
  fresh_installation : db_installation d = Some i /\ installation_check i = true
    /\ inst_activation_state i = "initializing" /\ inst_logical_vault_id i = arr vault_id;
  fresh_records : db_namespaces d = [] /\ db_secrets d = [] /\ db_versions d = []
    /\ db_tombstones d = [] /\ db_audit d = [];
  fresh_identities : db_principals d = [] /\ db_authenticators d = [] /\ db_sessions d = []
    /\ db_services d = [] /\ db_credentials d = [] /\ db_idempotency d = [];
  fresh_policies : db_policies d = [] /\ db_grants d = [] /\ db_bindings d = [] }.

(** Reading the destination yields the snapshot. *)
Record holds_snapshot (s : PortableSnapshot) (d : Db) : Prop := {
  hold_namespaces : read_namespaces d = Ok (snp_namespaces s);
  hold_secrets : read_secrets d = Ok (snp_secrets s);
  hold_secret_versions : read_secret_versions d = Ok (snp_secret_versions s);
  hold_tombstones : read_tombstones d = Ok (snp_tombstones s);
  hold_principals : read_principals d = Ok (snp_principals s);
  hold_authenticators : read_authenticators d = Ok (snp_authenticators s);
  hold_service_identities : read_service_identities d = Ok (snp_service_identities s);
  hold_application_credentials :
    read_application_credentials d = Ok (snp_application_credentials s);
  hold_authorization_state : read_authorization_state d = Ok (snp_authorization_state s);
  hold_policies : read_policies d = Ok (snp_policies s);
  hold_grants : read_grants d = Ok (snp_grants s);
  hold_bindings : read_bindings d = Ok (snp_bindings s);
  hold_audit_records : read_audit d = Ok (snp_audit_records s) }.

(** * One row *)

Lemma sql_u64_in z : 0 <= z <= i64_max -> sql_u64 z = Ok z.
Proof. intros H. unfold sql_u64. by rewrite (proj2 (try_from_Some i64_max z z)). Qed.

Lemma parse_opt_uuid_len o :
  (forall b, o = Some b -> length b = 16%nat) -> exists a, parse_opt_uuid o = Ok a /\ arr <$> a = o.
Proof.
  intros H. destruct o as [b|]; [|by exists None]. unfold parse_opt_uuid. simpl.
  change (parse_uuid b) with (parse_array 16 b).
  destruct (parse_array_len 16 b (H b eq_refl)) as (a & -> & E). exists (Some a). simpl. by rewrite E.
Qed.

(** What the CHECK constraints say of lengths and signs. *)
Ltac checks :=
  repeat match goal with
  | H : sc_check _ _ = true |- _ =>
      cbn [sc_check namespaces_schema secrets_schema versions_schema tombstones_schema
           principals_schema authenticators_schema services_schema credentials_schema
           policies_schema grants_schema bindings_schema audit_schema] in H; bprop
  | H : _ /\ _ |- _ => destruct H
  | H : blob_len ?n ?b = true |- _ => apply blob_len_true in H; [|done]; simpl in H
  | H : between _ _ _ = true |- _ => unfold between in H; bprop
  end.

Lemma opt_len16 o b : opt_check (blob_len 16) o = true -> o = Some b -> length b = 16%nat.
Proof. intros H ->. simpl in H. by apply blob_len_true in H. Qed.

(** Run the parsers of one row, leaving its fields as parsed values. *)
Ltac parse_row :=
  unfold encrypted;
  repeat (first
    [ match goal with
      | |- context [parse_uuid ?b] =>
          let a := fresh "a" in let E := fresh "E" in
          destruct (parse_uuid_len b) as (a & -> & E); [assumption|]
      | |- context [parse_array ?n ?b] =>
          let a := fresh "a" in let E := fresh "E" in
          destruct (parse_array_len n b) as (a & -> & E); [assumption|]
      | |- context [parse_opt_uuid ?o] =>
          let a := fresh "a" in let E := fresh "E" in
          destruct (parse_opt_uuid_len o) as (a & -> & E); [solve [eauto using opt_len16]|]
      | |- context [parse_uint ?m ?z] =>
          rewrite (parse_uint_Ok m z) by (unfold u64_max, u32_max, i64_max in *; lia)
      end ]; cbn [result_bind]).

(** Print the parsed row back. *)
Ltac print_row :=
  eexists; split; [reflexivity|]; cbn -[sql_u64];
  repeat (rewrite sql_u64_in by (unfold i64_max, u32_max in *; lia); cbn [result_bind]);
  match goal with r : _ |- Ok _ = Ok ?r' => constr_eq r r'; destruct r; cbn in *; by subst end.

Lemma namespace_prints r :
  sc_check namespaces_schema r = true ->
  ns_revision r <= i64_max /\ ns_metadata_version r <= i64_max /\ ns_kek_version r <= u32_max ->
  (forall p, ns_parent_namespace_id r = Some p -> length p = 16%nat) ->
  exists x, portable_namespace r = Ok x /\ namespace_to_row x = Ok r.
Proof.
  intros H W HP. checks. unfold portable_namespace, namespace_to_row. parse_row. print_row.
Qed.

Lemma secret_prints r :
  sc_check secrets_schema r = true -> secret_width r -> length (sec_namespace_id r) = 16%nat ->
  exists x, portable_secret r = Ok x /\ secret_to_row x = Ok r.
Proof.
  intros H W HP. unfold secret_width in W. checks. unfold portable_secret, secret_to_row.
  parse_row. print_row.
Qed.

Lemma version_prints r :
  sc_check versions_schema r = true -> sv_version r <= i64_max -> sv_kek_version r <= u32_max ->
  length (sv_secret_id r) = 16%nat ->
  exists x, portable_version r = Ok x /\ version_to_row x = Ok r.
Proof.
  intros H W W' HP. checks. unfold portable_version, version_to_row. parse_row. print_row.
Qed.

Lemma tombstone_prints r :
  sc_check tombstones_schema r = true -> tomb_last_version r <= i64_max ->
  exists x, portable_tombstone r = Ok x /\ tombstone_to_row x = Ok r.
Proof. intros H W. checks. unfold portable_tombstone, tombstone_to_row. parse_row. print_row. Qed.

Lemma principal_kind_prints s :
  text_in ["owner"; "service"] s = true ->
  exists k, principal_kind_parse s = Ok k /\ principal_kind_str k = s.
Proof.
  unfold text_in. rewrite bool_decide_eq_true, !elem_of_cons, elem_of_nil.
  intros [->|[->|[]]]; by eexists.
Qed.

Lemma principal_prints r :
  sc_check principals_schema r = true -> pr_revision r <= i64_max ->
  exists x, portable_principal r = Ok x /\ principal_to_row x = Ok r.
Proof.
  intros H W. checks. unfold portable_principal, principal_to_row.
  destruct (principal_kind_prints (pr_principal_kind r)) as (k & -> & E); [done|]. parse_row. print_row.
Qed.

Lemma authenticator_kind_prints s :
  text_in ["password"; "passkey"; "recovery"] s = true ->
  exists k, authenticator_kind_parse s = Ok k /\ authenticator_kind_as_str k = s.
Proof.
  unfold text_in. rewrite bool_decide_eq_true, !elem_of_cons, elem_of_nil.
  intros [->|[->|[->|[]]]]; by eexists.
Qed.

Lemma authenticator_prints r :
  sc_check authenticators_schema r = true -> length (oa_principal_id r) = 16%nat ->
  exists x, portable_authenticator r = Ok x /\ authenticator_to_row x = Ok r.
Proof.
  intros H HP. checks. unfold portable_authenticator, authenticator_to_row.
  destruct (authenticator_kind_prints (oa_authenticator_kind r)) as (k & -> & E); [done|].
  parse_row. print_row.
Qed.

Lemma service_prints r :
  sc_check services_schema r = true ->
  si_metadata_version r <= i64_max /\ si_metadata_kek_version r <= u32_max ->
  length (si_principal_id r) = 16%nat ->
  exists x, portable_service r = Ok x /\ service_to_row x = Ok r.
Proof. intros H W HP. checks. unfold portable_service, service_to_row. parse_row. print_row. Qed.

Lemma credential_prints r :
  sc_check credentials_schema r = true -> ac_revision r <= i64_max ->
  length (ac_principal_id r) = 16%nat ->
  exists x, portable_credential r = Ok x /\ credential_to_row x = Ok r.
Proof. intros H W HP. checks. unfold portable_credential, credential_to_row. parse_row. print_row. Qed.

Lemma policy_prints r :
  sc_check policies_schema r = true ->
  pol_revision r <= i64_max /\ pol_metadata_version r <= i64_max
    /\ pol_metadata_kek_version r <= u32_max ->
  exists x, portable_policy r = Ok x /\ policy_to_row x = Ok r.
Proof. intros H W. checks. unfold portable_policy, policy_to_row. parse_row. print_row. Qed.

Lemma resource_kind_prints s :
  text_in ["namespace"; "secret"] s = true ->
  exists k, parse_resource_kind s = Ok k /\ resource_kind_as_str k = s.
Proof.
  unfold text_in. rewrite bool_decide_eq_true, !elem_of_cons, elem_of_nil.
  intros [->|[->|[]]]; by eexists.
Qed.

Lemma grant_prints r :
  sc_check grants_schema r = true -> is_Some (action_from_str (gr_action r)) ->
  length (gr_policy_id r) = 16%nat -> length (gr_created_by r) = 16%nat ->
  exists x, portable_grant r = Ok x /\ grant_to_row x = Ok r.
Proof.
  intros H [act Ha] HP HC. checks. apply action_from_str_Some in Ha as Hact.
  unfold portable_grant, grant_to_row. rewrite Ha.
  destruct (resource_kind_prints (gr_resource_kind r)) as (k & -> & E); [done|].
  cbn [ok_or result_bind]. parse_row. eexists. split; [reflexivity|]. cbn -[action_as_str].
  replace (if gr_include_descendants r =? 1 then 1 else 0) with (gr_include_descendants r).
  - destruct r; cbn -[action_as_str] in *; by subst.
  - destruct (Z.eqb_spec (gr_include_descendants r) 1); lia.
Qed.

Lemma binding_prints r :
  sc_check bindings_schema r = true -> length (bd_principal_id r) = 16%nat ->
  length (bd_policy_id r) = 16%nat -> length (bd_created_by r) = 16%nat ->
  exists x, parse_binding r = Ok x /\ binding_to_row x = Ok r.
Proof. intros H H1 H2 H3. checks. unfold parse_binding, binding_to_row. parse_row. print_row. Qed.

Lemma audit_prints r :
  sc_check audit_schema r = true -> 0 <= au_sequence r <= i64_max -> au_recovery_epoch r <= i64_max ->
  exists x, portable_audit r = Ok x /\ audit_to_row x = Ok r.
Proof. intros H W W'. checks. unfold portable_audit, audit_to_row. parse_row. print_row. Qed.

(** * One table *)

Lemma pairs_perm {A} (R : A -> A -> Prop) (l l' : list A) :
  (forall a b, R a b -> R b a) -> l ≡ₚ l' -> ForallOrdPairs R l -> ForallOrdPairs R l'.
Proof.
  intros Hsym Hp. induction Hp as [|a l l' Hp IH|a b l|l l' l'' H1 IH1 H2 IH2]; intros H; [done|..|auto].
  - inversion H; subst. constructor; [by rewrite <- Hp|auto].
  - inversion H as [|?? Hb Hl]; subst. inversion Hb; subst. inversion Hl; subst.
    constructor; [constructor; auto|]. by constructor.
Qed.

Lemma no_clash_sym {A} (sc : schema A) a b : no_clash sc a b -> no_clash sc b a.
Proof. unfold no_clash. by rewrite clash_sym. Qed.

(** [records] are the rows [l], read and printed back. *)
Record carried {R A} (parse : A -> result StorageError R) (to_row : R -> result StorageError A)
    (sc : schema A) (l : list A) (records : list R) : Prop := {
  car_reads : result_mapM parse l = Ok records;
  car_prints : Forall2 (fun x a => to_row x = Ok a) records l;
  car_check : Forall (fun a => sc_check sc a = true) l;
  car_unique : ForallOrdPairs (no_clash sc) l }.

Section Table.
Context {R A : Type} (parse : A -> result StorageError R) (to_row : R -> result StorageError A).
Context (sc : schema A) (get : Db -> table A) (set : table A -> Db -> Db).
Context (keys_hold : A -> Db -> bool).

Lemma carry t l :
  table_ok sc t -> l ≡ₚ rows t ->
  (forall a, a ∈ rows t -> exists x, parse a = Ok x /\ to_row x = Ok a) ->
  exists records, carried parse to_row sc l records.
Proof.
  intros [Hc Hu _] Hp Hx.
  assert (exists records, Forall2 (fun a x => parse a = Ok x /\ to_row x = Ok a) l records) as (xs & HF).
  { setoid_rewrite <- Hp in Hx. clear -Hx. induction l as [|a l IH]; [by eexists|].
    destruct (Hx a ltac:(left)) as (x & ?). destruct IH as (xs & ?); [intros; apply Hx; by right|].
    exists (x :: xs). by constructor. }
  exists xs. split.
  - apply result_mapM_Forall2. eapply Forall2_impl; [exact HF|]. by intros ?? [].
  - apply Forall2_flip. eapply Forall2_impl; [exact HF|]. by intros ?? [].
  - by rewrite Hp.
  - eapply pairs_perm; [apply no_clash_sym|by symmetry|done].
Qed.

Hypothesis get_set : forall t d, get (set t d) = t.
Hypothesis set_set : forall t t' d, set t (set t' d) = set t d.

Lemma insert_records_from records l t d :
  Forall2 (fun x a => to_row x = Ok a) records l ->
  Forall (fun a => sc_check sc a = true) l -> ForallOrdPairs (no_clash sc) (rows t ++ l) ->
  table_ok sc t ->
  (forall l1 a l2 t', l = l1 ++ a :: l2 -> rows t' = rows t ++ l1 ++ [a] -> keys_hold a (set t' d) = true) ->
  exists t', insert_records to_row sc get set keys_hold records (set t d) = Ok (tt, set t' d)
             /\ rows t' = rows t ++ l /\ table_ok sc t'.
Proof.
  intros HF. revert t. induction HF as [|x a records l Hx HF IH]; intros t Hc Hu Hok Hk.
  { exists t. by rewrite app_nil_r. }
  inversion Hc as [|?? Ha Hc']; subst.
  assert (sql_insert sc a t = Some (insert_row a t)) as Hins.
  { destruct (sql_insert sc a t) as [t'|] eqn:E; [by apply sql_insert_Some in E as (-> & _)|].
    apply sql_insert_None in E as [?|(b & Hb & Hclash)]; [congruence|].
    exfalso. clear -Hu Hb Hclash. revert Hu Hb. generalize (rows t). intros r Hu Hb.
    induction r as [|c r IHr]; [by apply not_elem_of_nil in Hb|]. simpl in Hu. inversion Hu as [|?? Hcr Hu']; subst.
    apply elem_of_cons in Hb as [->|Hb]; [|auto]. apply Forall_app in Hcr as [_ Hcr].
    inversion Hcr; subst. unfold no_clash in *. rewrite clash_sym in Hclash. congruence. }
  destruct (IH (insert_row a t)) as (t' & Hrun & Hrows & Hok').
  - done.
  - by rewrite rows_insert, <- app_assoc.
  - by eapply sql_insert_ok.
  - intros l1 b l2 t' -> Ht'. apply (Hk (a :: l1) b l2); [done|]. by rewrite Ht', rows_insert, <- app_assoc.
  - exists t'. rewrite Hrows, rows_insert, <- app_assoc. split; [|done].
    unfold insert_records in *. cbn [tx_forM]. unfold tx_bind, tx_lift, tx_insert, tx_require in *.
    rewrite Hx, get_set, Hins, set_set.
    rewrite (Hk [] a l (insert_row a t)) by (by rewrite ?rows_insert). exact Hrun.
Qed.

(** Carried rows fill an empty table. *)
Lemma insert_records_fill records l d :
  get d = [] -> set [] d = d -> carried parse to_row sc l records ->
  (forall l1 a l2 t, l = l1 ++ a :: l2 -> rows t = l1 ++ [a] -> keys_hold a (set t d) = true) ->
  exists t, insert_records to_row sc get set keys_hold records d = Ok (tt, set t d)
            /\ rows t = l /\ table_ok sc t.
Proof.
  intros Hget Hset [_ Hp Hc Hu] Hk. pose proof (insert_records_from records l [] d) as H.
  rewrite Hset in H. apply H; [done..|apply table_ok_nil|]. intros. eapply Hk; eauto.
Qed.

(** Without a reference to its own table, a row only needs its targets. *)
Lemma insert_records_fill_refs records l d :
  get d = [] -> set [] d = d -> carried parse to_row sc l records ->
  (forall a t, a ∈ l -> keys_hold a (set t d) = true) ->
  exists t, insert_records to_row sc get set keys_hold records d = Ok (tt, set t d)
            /\ rows t = l /\ table_ok sc t.
Proof.
  intros Hget Hset Hcar Hk. apply insert_records_fill; [done..|]. intros l1 a l2 t -> _.
  apply Hk. set_solver.
Qed.
End Table.

(** * Foreign keys *)

Lemma forallb_rows {A} (p : A -> bool) (l : list A) :
  forallb p l = true <-> forall a, a ∈ l -> p a = true.
Proof. rewrite forallb_forall. by setoid_rewrite list_elem_of_In. Qed.

(** Every reference of [d] has its target. *)
Record references_hold (d : Db) : Prop := {
  ref_namespace r : r ∈ rows (db_namespaces d) -> namespace_keys r d = true;
  ref_secret r : r ∈ rows (db_secrets d) -> secret_keys r d = true;
  ref_current r : r ∈ rows (db_secrets d) ->
    version_exists (sec_secret_id r) (sec_current_version r) d = true;
  ref_version r : r ∈ rows (db_versions d) -> version_keys r d = true;
  ref_authenticator r : r ∈ rows (db_authenticators d) -> authenticator_keys r d = true;
  ref_session r : r ∈ rows (db_sessions d) ->
    principal_exists (ss_principal_id r) d && authenticator_exists (ss_authenticator_id r) d = true;
  ref_service r : r ∈ rows (db_services d) -> service_keys r d = true;
  ref_credential r : r ∈ rows (db_credentials d) -> credential_keys r d = true;
  ref_grant r : r ∈ rows (db_grants d) -> grant_keys r d = true;
  ref_binding r : r ∈ rows (db_bindings d) -> binding_keys r d = true;
  ref_idempotency r : r ∈ rows (db_idempotency d) -> principal_exists (idem_principal_id r) d = true }.

Lemma foreign_key_check_true d : foreign_key_check d = true <-> references_hold d.
Proof.
  unfold foreign_key_check. rewrite !andb_true_iff, !forallb_rows.
  split.
  - intros [[[[[[[[[H1 H2] H3] H4] H5] H6] H7] H8] H9] H10]. setoid_rewrite andb_true_iff in H2.
    split; try done; intros r Hr; by apply H2.
  - intros []. repeat split; auto. intros. apply andb_true_iff. auto.
Qed.

Lemma namespace_exists_len id d : tables_ok d -> namespace_exists id d = true -> length id = 16%nat.
Proof.
  intros Hok (r & Hr & <-)%namespace_exists_true.
  pose proof (table_ok_check _ _ _ (ok_namespaces _ Hok) Hr). by checks.
Qed.
Lemma secret_exists_len id d : tables_ok d -> secret_exists id d = true -> length id = 16%nat.
Proof.
  intros Hok (r & Hr & <-)%secret_exists_true.
  pose proof (table_ok_check _ _ _ (ok_secrets _ Hok) Hr). by checks.
Qed.
Lemma principal_exists_len id d : tables_ok d -> principal_exists id d = true -> length id = 16%nat.
Proof.
  intros Hok (r & Hr & <-%blob_eqb_true)%existsb_rows.
  pose proof (table_ok_check _ _ _ (ok_principals _ Hok) Hr). by checks.
Qed.
Lemma policy_exists_len id d : tables_ok d -> policy_exists id d = true -> length id = 16%nat.
Proof.
  intros Hok (r & Hr & <-%blob_eqb_true)%existsb_rows.
  pose proof (table_ok_check _ _ _ (ok_policies _ Hok) Hr). by checks.
Qed.
#[local] Hint Resolve namespace_exists_len secret_exists_len principal_exists_len policy_exists_len : core.

(** * The snapshot of a source *)

Section Source.
Context (d : Db) (i : InstallationRow) (Hsrc : portable_ok d i).

Let Hok : tables_ok d := ok_tables _ (port_db _ _ Hsrc).
Let Href : references_hold d := proj1 (foreign_key_check_true d) (port_keys _ _ Hsrc).

Definition source_namespaces := namespace_tree (rows (db_namespaces d)).
Definition source_secrets := order_by (by_blob sec_secret_id) (rows (db_secrets d)).
Definition source_versions := order_by by_secret_version (rows (db_versions d)).
Definition source_tombstones := order_by (by_blob tomb_secret_id) (rows (db_tombstones d)).
Definition source_principals := order_by (by_blob pr_principal_id) (rows (db_principals d)).
Definition source_authenticators := order_by (by_blob oa_authenticator_id) (rows (db_authenticators d)).
Definition source_services := order_by (by_blob si_principal_id) (rows (db_services d)).
Definition source_credentials := order_by (by_blob ac_credential_id) (rows (db_credentials d)).
Definition source_policies := order_by (by_blob pol_policy_id) (rows (db_policies d)).
Definition source_grants := order_by (by_blob gr_grant_id) (rows (db_grants d)).
Definition source_bindings := order_by (by_blob2 bd_principal_id bd_policy_id) (rows (db_bindings d)).
Definition source_audit := order_by (fun a b => au_sequence a <=? au_sequence b) (rows (db_audit d)).

Lemma rows_NoDup {A} (sc : schema A) (t : table A) :
  table_ok sc t -> (forall a, sc_keys sc a !! 0%nat <> Some None /\ sc_keys sc a <> []) -> NoDup (rows t).
Proof.
  intros [_ Hu _] Hk. induction Hu as [|a l Ha Hl IH]; constructor; [|done].
  intros Hin. rewrite Forall_forall in Ha. specialize (Ha a Hin). unfold no_clash in Ha.
  destruct (Hk a) as [H1 H2]. destruct (sc_keys sc a) as [|[k|] ks] eqn:E; [done| |done].
  rewrite (clash_at sc a a 0 k) in Ha; [done|by rewrite E..].
Qed.

Lemma namespaces_once : NoDup (rows (db_namespaces d)).
Proof. eapply rows_NoDup; [by apply ok_namespaces|]. done. Qed.

Lemma source_namespaces_perm : source_namespaces ≡ₚ rows (db_namespaces d).
Proof.
  apply namespace_tree_perm; [intros a b Ha Hb; by apply (namespace_id_unique d)|apply namespaces_once|].
  apply forest_depth; [done|apply Hsrc].
Qed.

Lemma carried_namespaces : exists l,
  carried portable_namespace namespace_to_row namespaces_schema source_namespaces l.
Proof.
  eapply carry; [by apply ok_namespaces|apply source_namespaces_perm|]. intros r Hr.
  apply namespace_prints; [by eapply table_ok_check; [apply ok_namespaces|]|..].
  - by apply (ok_namespace_width _ (ok_ns _ (port_db _ _ Hsrc))).
  - intros p Hp. pose proof (ref_namespace _ Href r Hr) as H. unfold namespace_keys in H.
    rewrite Hp in H. eauto.
Qed.

Lemma carried_secrets : exists l, carried portable_secret secret_to_row secrets_schema source_secrets l.
Proof.
  eapply carry; [by apply ok_secrets|apply order_by_perm|]. intros r Hr.
  apply secret_prints; [by eapply table_ok_check; [apply ok_secrets|]|..].
  - by apply (ok_secret_width _ _ _ (ok_sec _ (port_db _ _ Hsrc))).
  - pose proof (ref_secret _ Href r Hr). eauto.
Qed.

Lemma carried_versions : exists l, carried portable_version version_to_row versions_schema source_versions l.
Proof.
  eapply carry; [by apply ok_versions|apply order_by_perm|]. intros r Hr.
  pose proof (ok_sec _ (port_db _ _ Hsrc)) as Hsec.
  apply version_prints; [by eapply table_ok_check; [apply ok_versions|]|..].
  - destruct (ok_has_secret _ _ _ Hsec r Hr) as (s & Hs & E).
    assert (1 <= sv_version r <= sec_current_version s) as Hv.
    { apply (ok_history _ _ _ Hsec s Hs). eauto. }
    destruct (ok_secret_width _ _ _ Hsec s Hs) as (_ & ? & _). lia.
  - by apply (ok_version_width _ _ _ Hsec).
  - pose proof (ref_version _ Href r Hr). eauto.
Qed.

Lemma carried_tombstones : exists l,
  carried portable_tombstone tombstone_to_row tombstones_schema source_tombstones l.
Proof.
  eapply carry; [by apply ok_tombstones|apply order_by_perm|]. intros r Hr.
  apply tombstone_prints; [by eapply table_ok_check; [apply ok_tombstones|]|].
  by apply (width_tombstone _ (port_widths _ _ Hsrc)).
Qed.

Lemma carried_principals : exists l,
  carried portable_principal principal_to_row principals_schema source_principals l.
Proof.
  eapply carry; [by apply ok_principals|apply order_by_perm|]. intros r Hr.
  apply principal_prints; [by eapply table_ok_check; [apply ok_principals|]|].
  by apply (width_principal _ (port_widths _ _ Hsrc)).
Qed.

Lemma carried_authenticators : exists l,
  carried portable_authenticator authenticator_to_row authenticators_schema source_authenticators l.
Proof.
  eapply carry; [by apply ok_authenticators|apply order_by_perm|]. intros r Hr.
  apply authenticator_prints; [by eapply table_ok_check; [apply ok_authenticators|]|].
  pose proof (ref_authenticator _ Href r Hr). eauto.
Qed.

Lemma carried_services : exists l, carried portable_service service_to_row services_schema source_services l.
Proof.
  eapply carry; [by apply ok_services|apply order_by_perm|]. intros r Hr.
  apply service_prints; [by eapply table_ok_check; [apply ok_services|]|..].
  - by apply (width_service _ (port_widths _ _ Hsrc)).
  - pose proof (ref_service _ Href r Hr). eauto.
Qed.

Lemma carried_credentials : exists l,
  carried portable_credential credential_to_row credentials_schema source_credentials l.
Proof.
  eapply carry; [by apply ok_credentials|apply order_by_perm|]. intros r Hr.
  apply credential_prints; [by eapply table_ok_check; [apply ok_credentials|]|..].
  - by apply (width_credential _ (port_widths _ _ Hsrc)).
  - pose proof (ref_credential _ Href r Hr). eauto.
Qed.

Lemma carried_policies : exists l, carried portable_policy policy_to_row policies_schema source_policies l.
Proof.
  eapply carry; [by apply ok_policies|apply order_by_perm|]. intros r Hr.
  apply policy_prints; [by eapply table_ok_check; [apply ok_policies|]|].
  by apply (width_policy _ (port_widths _ _ Hsrc)).
Qed.

Lemma carried_grants : exists l, carried portable_grant grant_to_row grants_schema source_grants l.
Proof.
  eapply carry; [by apply ok_grants|apply order_by_perm|]. intros r Hr.
  pose proof (ref_grant _ Href r Hr) as [? ?]%andb_true_iff.
  apply grant_prints; [by eapply table_ok_check; [apply ok_grants|]|by eapply port_actions|eauto..].
Qed.

Lemma carried_bindings : exists l, carried parse_binding binding_to_row bindings_schema source_bindings l.
Proof.
  eapply carry; [by apply ok_bindings|apply order_by_perm|]. intros r Hr.
  pose proof (ref_binding _ Href r Hr) as [[? ?]%andb_true_iff ?]%andb_true_iff.
  apply binding_prints; [by eapply table_ok_check; [apply ok_bindings|]|eauto..].
Qed.

Lemma carried_audit : exists l, carried portable_audit audit_to_row audit_schema source_audit l.
Proof.
  eapply carry; [by apply ok_audit_table|apply order_by_perm|]. intros r Hr.
  apply audit_prints; [by eapply table_ok_check; [apply ok_audit_table|]|..].
  - pose proof (linked_seq _ _ _ (ok_linked _ (port_db _ _ Hsrc))) as HF.
    rewrite Forall_forall in HF. specialize (HF r Hr). lia.
  - by apply (width_audit _ (port_widths _ _ Hsrc)).
Qed.
End Source.

(** What a successful snapshot read. *)
Lemma portable_snapshot_reads d i s :
  db_installation d = Some i -> portable_snapshot d = Ok s ->
  holds_snapshot s d /\ inst_activation_state i = "ready"
  /\ parse_uuid (inst_logical_vault_id i) = Ok (snp_vault_id s)
  /\ snp_security_semantics_version s = inst_security_semantics_version i.
Proof.
  intros Hi H. unfold portable_snapshot in H. rewrite Hi in H.
  destruct (String.eqb_spec (inst_activation_state i) "ready") as [Hr|]; [|done].
  minv. split; [done|]. split; [done|]. split; [done|]. by eapply parse_uint_eq.
Qed.

(** A snapshot of a ready vault can always be taken. *)
Lemma portable_snapshot_total d i : portable_ok d i -> exists s, portable_snapshot d = Ok s.
Proof.
  intros Hsrc. pose proof Hsrc as [_ _ _ Hw _ Hi (Hr & Hc & He)].
  unfold installation_check in Hc. bprop. checks. unfold portable_snapshot. rewrite Hi, Hr.
  change (String.eqb "ready" "ready") with true. cbn [ok_or result_bind]. parse_row.
  unfold read_namespaces, read_secrets, read_secret_versions, read_tombstones, read_principals,
    read_authenticators, read_service_identities, read_application_credentials, read_policies,
    read_grants, read_bindings, read_audit.
  fold (source_namespaces d) (source_secrets d) (source_versions d) (source_tombstones d)
    (source_principals d) (source_authenticators d) (source_services d) (source_credentials d)
    (source_policies d) (source_grants d) (source_bindings d) (source_audit d).
  destruct (carried_namespaces d i Hsrc) as (? & ->%car_reads). cbn [result_bind].
  destruct (carried_secrets d i Hsrc) as (? & ->%car_reads). cbn [result_bind].
  destruct (carried_versions d i Hsrc) as (? & ->%car_reads). cbn [result_bind].
  destruct (carried_tombstones d i Hsrc) as (? & ->%car_reads). cbn [result_bind].
  destruct (carried_principals d i Hsrc) as (? & ->%car_reads). cbn [result_bind].
  destruct (carried_authenticators d i Hsrc) as (? & ->%car_reads). cbn [result_bind].
  destruct (carried_services d i Hsrc) as (? & ->%car_reads). cbn [result_bind].
  destruct (carried_credentials d i Hsrc) as (? & ->%car_reads). cbn [result_bind].
  destruct (carried_policies d i Hsrc) as (? & ->%car_reads). cbn [result_bind].
  destruct (carried_grants d i Hsrc) as (? & ->%car_reads). cbn [result_bind].
  destruct (carried_bindings d i Hsrc) as (? & ->%car_reads). cbn [result_bind].
  destruct (carried_audit d i Hsrc) as (? & ->%car_reads). cbn [result_bind].
  destruct (width_authz _ Hw) as [? Hlen]. unfold read_authorization_state. parse_row. by eexists.
Qed.

(** * The import *)

Lemma tx_bind_run {S E A B} (m : Tx S E A) (k : A -> Tx S E B) s a s' :
  m s = Ok (a, s') -> tx_bind m k s = k a s'.
Proof. unfold tx_bind. by intros ->. Qed.

Lemma existsb_perm {A} (p : A -> bool) (l l' : list A) : l ≡ₚ l' -> existsb p l = existsb p l'.
Proof.
  intros Hp. apply eq_true_iff_eq. rewrite !existsb_rows. by setoid_rewrite Hp.
Qed.

Section References.
Variables d d' : Db.
Lemma namespace_exists_perm id :
  rows (db_namespaces d') ≡ₚ rows (db_namespaces d) -> namespace_exists id d' = namespace_exists id d.
Proof. apply existsb_perm. Qed.
Lemma secret_exists_perm id :
  rows (db_secrets d') ≡ₚ rows (db_secrets d) -> secret_exists id d' = secret_exists id d.
Proof. apply existsb_perm. Qed.
Lemma version_exists_perm id v :
  rows (db_versions d') ≡ₚ rows (db_versions d) -> version_exists id v d' = version_exists id v d.
Proof. apply existsb_perm. Qed.
Lemma principal_exists_perm id :
  rows (db_principals d') ≡ₚ rows (db_principals d) -> principal_exists id d' = principal_exists id d.
Proof. apply existsb_perm. Qed.
Lemma policy_exists_perm id :
  rows (db_policies d') ≡ₚ rows (db_policies d) -> policy_exists id d' = policy_exists id d.
Proof. apply existsb_perm. Qed.
End References.

(** The tables of [d'] hold the rows of [d], in the order of the snapshot. *)
Record filled (d d' : Db) : Prop := {
  fill_principals : rows (db_principals d') = source_principals d;
  fill_authenticators : rows (db_authenticators d') = source_authenticators d;
  fill_services : rows (db_services d') = source_services d;
  fill_credentials : rows (db_credentials d') = source_credentials d;
  fill_namespaces : rows (db_namespaces d') = source_namespaces d;
  fill_secrets : rows (db_secrets d') = source_secrets d;
  fill_versions : rows (db_versions d') = source_versions d;
  fill_tombstones : rows (db_tombstones d') = source_tombstones d;
  fill_policies : rows (db_policies d') = source_policies d;
  fill_grants : rows (db_grants d') = source_grants d;
  fill_bindings : rows (db_bindings d') = source_bindings d;
  fill_audit : rows (db_audit d') = source_audit d;
  fill_sessions : db_sessions d' = [];
  fill_idempotency : db_idempotency d' = [] }.

Lemma filled_references d i d' : portable_ok d i -> filled d d' -> references_hold d'.
Proof.
  intros Hsrc [Hp Ha Hs Hc Hn Hse Hv Ht Hpo Hg Hb Hau Hss Hid].
  assert (references_hold d) as [] by (apply foreign_key_check_true, Hsrc).
  assert (forall id, principal_exists id d' = principal_exists id d) as Ep.
  { intros. apply principal_exists_perm. rewrite Hp. apply order_by_perm. }
  assert (forall id, policy_exists id d' = policy_exists id d) as Epo.
  { intros. apply policy_exists_perm. rewrite Hpo. apply order_by_perm. }
  assert (forall id, namespace_exists id d' = namespace_exists id d) as En.
  { intros. apply namespace_exists_perm. rewrite Hn. by eapply source_namespaces_perm. }
  assert (forall id, secret_exists id d' = secret_exists id d) as Es.
  { intros. apply secret_exists_perm. rewrite Hse. apply order_by_perm. }
  assert (forall id v, version_exists id v d' = version_exists id v d) as Ev.
  { intros. apply version_exists_perm. rewrite Hv. apply order_by_perm. }
  split; intros r Hr; rewrite ?Hn, ?Hse, ?Hv, ?Ha, ?Hs, ?Hc, ?Hg, ?Hb, ?Hss, ?Hid in Hr;
    try (by apply not_elem_of_nil in Hr);
    unfold source_secrets, source_versions, source_authenticators, source_services,
      source_credentials, source_grants, source_bindings in Hr;
    rewrite ?order_by_perm in Hr;
    unfold namespace_keys, secret_keys, version_keys, authenticator_keys, service_keys,
      credential_keys, grant_keys, binding_keys in *; rewrite ?Ep, ?Epo, ?Es, ?Ev, ?En; auto.
  rewrite (source_namespaces_perm d i Hsrc) in Hr. specialize (ref_namespace0 r Hr).
  destruct (ns_parent_namespace_id r); simpl in *; by rewrite ?En.
Qed.

Lemma carried_known {R A} (parse : A -> result StorageError R) to_row sc l records :
  (exists l', carried parse to_row sc l l') -> result_mapM parse l = Ok records ->
  carried parse to_row sc l records.
Proof. intros (l' & H) E. pose proof (car_reads _ _ _ _ _ H) as E'. rewrite E in E'. by simplify_eq. Qed.

Section Importing.
Context (src : Db) (i : InstallationRow) (Hsrc : portable_ok src i).
Context (s : PortableSnapshot) (Hs : holds_snapshot s src).
Variable D : Db.

Let Href : references_hold src := proj1 (foreign_key_check_true src) (port_keys _ _ Hsrc).

(** The steps of one table: it is empty, and what it refers to is there. *)
Ltac fill_table carried reads :=
  eapply insert_records_fill_refs;
    [done|done|done| by destruct D; simpl in *; subst
    | eapply carried_known; [by eapply carried|exact reads]
    | intros r t Hr; unfold source_secrets, source_versions, source_authenticators, source_services,
        source_credentials, source_grants, source_bindings in Hr; rewrite ?order_by_perm in Hr].

Lemma run_principals :
  db_principals D = [] ->
  exists t, insert_principals (snp_principals s) D = Ok (tt, set_principals t D)
            /\ rows t = source_principals src /\ table_ok principals_schema t.
Proof. intros H. fill_table carried_principals (hold_principals _ _ Hs). done. Qed.

Lemma run_authenticators :
  db_authenticators D = [] -> rows (db_principals D) = source_principals src ->
  exists t, insert_authenticators (snp_authenticators s) D = Ok (tt, set_authenticators t D)
            /\ rows t = source_authenticators src /\ table_ok authenticators_schema t.
Proof.
  intros H Hp. fill_table carried_authenticators (hold_authenticators _ _ Hs). rewrite <- (ref_authenticator _ Href r Hr).
  apply (principal_exists_perm src). cbn. rewrite Hp. apply order_by_perm.
Qed.

Lemma run_services :
  db_services D = [] -> rows (db_principals D) = source_principals src ->
  exists t, insert_service_identities (snp_service_identities s) D = Ok (tt, set_services t D)
            /\ rows t = source_services src /\ table_ok services_schema t.
Proof.
  intros H Hp. fill_table carried_services (hold_service_identities _ _ Hs). rewrite <- (ref_service _ Href r Hr).
  apply (principal_exists_perm src). cbn. rewrite Hp. apply order_by_perm.
Qed.

Lemma run_credentials :
  db_credentials D = [] -> rows (db_principals D) = source_principals src ->
  exists t, insert_application_credentials (snp_application_credentials s) D = Ok (tt, set_credentials t D)
            /\ rows t = source_credentials src /\ table_ok credentials_schema t.
Proof.
  intros H Hp. fill_table carried_credentials (hold_application_credentials _ _ Hs). rewrite <- (ref_credential _ Href r Hr).
  apply (principal_exists_perm src). cbn. rewrite Hp. apply order_by_perm.
Qed.

Lemma run_namespaces :
  db_namespaces D = [] ->
  exists t, insert_namespaces (snp_namespaces s) D = Ok (tt, set_namespaces t D)
            /\ rows t = source_namespaces src /\ table_ok namespaces_schema t.
Proof.
  intros H. eapply insert_records_fill;
    [done|done|done| by destruct D; simpl in *; subst
    | eapply carried_known; [by eapply carried_namespaces|apply (hold_namespaces _ _ Hs)] |].
  intros l1 r l2 t E Ht. unfold namespace_keys.
  destruct (ns_parent_namespace_id r) as [p|] eqn:Hp; [simpl|done].
  destruct (namespace_tree_parent_first (rows (db_namespaces src))) with (l1 := l1) (r := r) (l2 := l2) (p := p)
    as (n & Hn & En); [|by eapply namespaces_once| |done|done|].
  - intros a b. apply namespace_id_unique, Hsrc.
  - apply forest_depth; apply Hsrc.
  - apply namespace_exists_true. exists n. split; [|done]. cbn. rewrite Ht. set_solver.
Qed.

Lemma run_secrets :
  db_secrets D = [] -> rows (db_namespaces D) = source_namespaces src ->
  exists t, insert_secrets (snp_secrets s) D = Ok (tt, set_secrets t D)
            /\ rows t = source_secrets src /\ table_ok secrets_schema t.
Proof.
  intros H Hp. fill_table carried_secrets (hold_secrets _ _ Hs). rewrite <- (ref_secret _ Href r Hr).
  apply (namespace_exists_perm src). cbn. rewrite Hp. by eapply source_namespaces_perm.
Qed.

Lemma run_versions :
  db_versions D = [] -> rows (db_secrets D) = source_secrets src ->
  exists t, insert_secret_versions (snp_secret_versions s) D = Ok (tt, set_versions t D)
            /\ rows t = source_versions src /\ table_ok versions_schema t.
Proof.
  intros H Hp. fill_table carried_versions (hold_secret_versions _ _ Hs). rewrite <- (ref_version _ Href r Hr).
  apply (secret_exists_perm src). cbn. rewrite Hp. apply order_by_perm.
Qed.

Lemma run_tombstones :
  db_tombstones D = [] ->
  exists t, insert_tombstones (snp_tombstones s) D = Ok (tt, set_tombstones t D)
            /\ rows t = source_tombstones src /\ table_ok tombstones_schema t.
Proof. intros H. fill_table carried_tombstones (hold_tombstones _ _ Hs). done. Qed.

Lemma run_policies :
  db_policies D = [] ->
  exists t, insert_policies (snp_policies s) D = Ok (tt, set_policies t D)
            /\ rows t = source_policies src /\ table_ok policies_schema t.
Proof. intros H. fill_table carried_policies (hold_policies _ _ Hs). done. Qed.

Lemma run_grants :
  db_grants D = [] -> rows (db_policies D) = source_policies src ->
  rows (db_principals D) = source_principals src ->
  exists t, insert_grants (snp_grants s) D = Ok (tt, set_grants t D)
            /\ rows t = source_grants src /\ table_ok grants_schema t.
Proof.
  intros H Hpo Hp. fill_table carried_grants (hold_grants _ _ Hs). rewrite <- (ref_grant _ Href r Hr).
  unfold grant_keys. f_equal; [apply (policy_exists_perm src); cbn; rewrite Hpo
    |apply (principal_exists_perm src); cbn; rewrite Hp]; apply order_by_perm.
Qed.

Lemma run_bindings :
  db_bindings D = [] -> rows (db_policies D) = source_policies src ->
  rows (db_principals D) = source_principals src ->
  exists t, insert_bindings (snp_bindings s) D = Ok (tt, set_bindings t D)
            /\ rows t = source_bindings src /\ table_ok bindings_schema t.
Proof.
  intros H Hpo Hp. fill_table carried_bindings (hold_bindings _ _ Hs). rewrite <- (ref_binding _ Href r Hr).
  unfold binding_keys. f_equal; [f_equal|]; [apply (principal_exists_perm src); cbn; rewrite Hp
    |apply (policy_exists_perm src); cbn; rewrite Hpo
    |apply (principal_exists_perm src); cbn; rewrite Hp]; apply order_by_perm.
Qed.

Lemma run_audit :
  db_audit D = [] ->
  exists t, insert_audit_records (snp_audit_records s) D = Ok (tt, set_audit t D)
            /\ rows t = source_audit src /\ table_ok audit_schema t.
Proof. intros H. fill_table carried_audit (hold_audit_records _ _ Hs). done. Qed.
End Importing.

(** What an import does not write. *)
Record kept (e : Z) (s : PortableSnapshot) (j : InstallationRow) (dst d' : Db) : Prop := {
  kept_keys : db_keys d' = db_keys dst;
  kept_jobs : db_jobs d' = db_jobs dst;
  kept_purge : db_purge_enabled d' = db_purge_enabled dst;
  kept_guard : db_restore_guard d' = db_restore_guard dst;
  kept_installation :
    db_installation d' = Some (set_recovery e (snp_security_semantics_version s) j);
  kept_authz : db_authz_revision d' = as_revision (snp_authorization_state s)
    /\ db_authz_commitment d' = arr (as_state_commitment (snp_authorization_state s)) }.

Lemma count_nil {A} (p : A -> bool) : count p [] = 0.
Proof. done. Qed.

(** The guards of the import, and the row of the installation. *)
Lemma import_starts {B} s e dst j (k : StoreTx B) :
  fresh_destination dst (snp_vault_id s) j -> 0 <= e <= i64_max ->
  snp_security_semantics_version s = 1 ->
  (let! row := tx_read (fun d => ok_or Sqlite (db_installation d)) in
   tx_reject (negb (String.eqb (inst_activation_state row) "initializing")) StateConflict ;;
   let! vault_id := tx_lift (parse_uuid (inst_logical_vault_id row)) in
   tx_reject (negb (bool_decide (vault_id = snp_vault_id s))) StateConflict ;;
   let! existing := tx_read (fun d => Ok (
      count all_rows (db_namespaces d) + count all_rows (db_secrets d)
      + count all_rows (db_principals d) + count all_rows (db_audit d)
      + count all_rows (db_policies d))) in
   tx_reject (negb (existing =? 0)) StateConflict ;;
   let! epoch := tx_lift (sql_u64 e) in
   let! _ := update_installation
      (fun r => String.eqb (inst_activation_state r) "initializing")
      (set_recovery epoch (snp_security_semantics_version s)) in
   k) dst = k (set_installation (Some (set_recovery e (snp_security_semantics_version s) j)) dst).
Proof.
  intros [_ (Hj & Hc & Ha & Hv) (H1 & H2 & _ & _ & H3) (H4 & _) (H5 & _)] He Hsem.
  unfold tx_bind, tx_read, tx_reject, tx_lift, update_installation.
  rewrite Hj. cbn [ok_or]. cbv beta iota. rewrite Ha.
  change (String.eqb "initializing" "initializing") with true. cbn [negb]. cbv beta iota.
  rewrite Hv. unfold parse_uuid. rewrite try_array_arr. cbn [ok_or]. cbv beta iota.
  rewrite bool_decide_eq_true_2 by done. cbn [negb]. cbv beta iota.
  rewrite H1, H2, H3, H4, H5, !count_nil.
  change (negb (0 + 0 + 0 + 0 + 0 =? 0)) with false. cbv beta iota.
  rewrite sql_u64_in by done. cbv beta iota. rewrite Hj, Ha.
  change (String.eqb "initializing" "initializing") with true. cbv iota.
  replace (installation_check _) with true; [done|]. symmetry.
  unfold installation_check in *. cbn [set_recovery inst_logical_vault_id inst_installation_id
    inst_recovery_epoch inst_activation_state inst_active_kek_version inst_security_semantics_version].
  rewrite Hsem. bprop. repeat split; tauto.
Qed.

(** The checks before COMMIT. *)
Lemma import_ends src i d' :
  portable_ok src i -> filled src d' ->
  (let! clean := tx_read (fun d => Ok (foreign_key_check d)) in
   tx_reject (negb clean) InvalidData ;; tx_commit) d' = Ok (tt, d').
Proof.
  intros Hsrc Hf. pose proof (filled_references _ _ _ Hsrc Hf) as Href.
  unfold tx_bind, tx_read, tx_reject, tx_commit, tx_require.
  rewrite (proj2 (foreign_key_check_true d')) by done. cbn [negb]. cbv beta iota.
  replace (deferred_keys_hold d') with true; [done|]. symmetry. apply forallb_rows.
  intros r Hr. by apply ref_current.
Qed.

Lemma authz_revision_width src i s :
  portable_ok src i -> holds_snapshot s src -> 0 < as_revision (snp_authorization_state s) <= i64_max.
Proof.
  intros Hsrc Hs. destruct (width_authz _ (port_widths _ _ Hsrc)) as [Hw _].
  pose proof (hold_authorization_state _ _ Hs) as H. unfold read_authorization_state in H. minv.
  match goal with H : _ = snp_authorization_state s |- _ => rewrite <- H end. cbn [as_revision].
  by match goal with H : parse_uint _ _ = Ok _ |- _ => apply parse_uint_eq in H as -> end.
Qed.

(** An import of a snapshot of [src] fills the destination. *)
Lemma import_runs src i s dst j e :
  portable_ok src i -> portable_snapshot src = Ok s ->
  fresh_destination dst (snp_vault_id s) j -> 0 <= e <= i64_max ->
  exists d', import_portable_snapshot s e dst = (Ok tt, d')
             /\ filled src d' /\ tables_ok d' /\ kept e s j dst d'.
Proof.
  intros Hsrc Hsnap Hdst He.
  destruct (portable_snapshot_reads _ _ _ (port_installation _ _ Hsrc) Hsnap) as (Hs & _ & _ & Hsem).
  assert (snp_security_semantics_version s = 1) as Hone.
  { destruct (port_ready _ _ Hsrc) as (_ & Hc & _). unfold installation_check in Hc. bprop. lia. }
  unfold import_portable_snapshot, transact. rewrite (import_starts s e dst j) by done.
  destruct Hdst as [Hok _ (H1 & H2 & H3 & H4 & H5) (H6 & H7 & H8 & H9 & H10 & H11) (H12 & H13 & H14)].
  set (d0 := set_installation _ dst).
  destruct (run_principals src i Hsrc s Hs d0 H6) as (tp & Rp & Fp & Kp).
  destruct (run_authenticators src i Hsrc s Hs (set_principals tp d0) H7 Fp) as (ta & Ra & Fa & Ka).
  set (d1 := set_authenticators ta (set_principals tp d0)) in *.
  destruct (run_services src i Hsrc s Hs d1 H9 Fp) as (ts & Rs & Fs & Ks).
  set (d2 := set_services ts d1) in *.
  destruct (run_credentials src i Hsrc s Hs d2 H10 Fp) as (tc & Rc & Fc & Kc).
  set (d3 := set_credentials tc d2) in *.
  destruct (run_namespaces src i Hsrc s Hs d3 H1) as (tn & Rn & Fn & Kn).
  destruct (run_secrets src i Hsrc s Hs (set_namespaces tn d3) H2 Fn) as (tse & Rse & Fse & Kse).
  set (d4 := set_secrets tse (set_namespaces tn d3)) in *.
  destruct (run_versions src i Hsrc s Hs d4 H3 Fse) as (tv & Rv & Fv & Kv).
  set (d5 := set_versions tv d4) in *.
  destruct (run_tombstones src i Hsrc s Hs d5 H4) as (tt' & Rt & Ft & Kt).
  destruct (run_policies src i Hsrc s Hs (set_tombstones tt' d5) H12) as (tpo & Rpo & Fpo & Kpo).
  set (d6 := set_policies tpo (set_tombstones tt' d5)) in *.
  destruct (run_grants src i Hsrc s Hs d6 H13 Fpo Fp) as (tg & Rg & Fg & Kg).
  set (d7 := set_grants tg d6) in *.
  destruct (run_bindings src i Hsrc s Hs d7 H14 Fpo Fp) as (tb & Rb & Fb & Kb).
  set (d8 := set_bindings tb d7) in *.
  pose proof (authz_revision_width src i s Hsrc Hs) as Hrev.
  set (rev := as_revision (snp_authorization_state s)) in *.
  set (d9 := set_authz_commitment (arr (as_state_commitment (snp_authorization_state s)))
               (set_authz_revision rev d8)).
  destruct (run_audit src i Hsrc s Hs d9 H5) as (tau & Rau & Fau & Kau).
  assert (filled src (set_audit tau d9)) as Hfill by (split; assumption).
  exists (set_audit tau d9). split; [|split; [done|split]].
  - rewrite (tx_bind_run _ _ _ _ _ Rp), (tx_bind_run _ _ _ _ _ Ra), (tx_bind_run _ _ _ _ _ Rs),
      (tx_bind_run _ _ _ _ _ Rc), (tx_bind_run _ _ _ _ _ Rn), (tx_bind_run _ _ _ _ _ Rse),
      (tx_bind_run _ _ _ _ _ Rv), (tx_bind_run _ _ _ _ _ Rt), (tx_bind_run _ _ _ _ _ Rpo),
      (tx_bind_run _ _ _ _ _ Rg), (tx_bind_run _ _ _ _ _ Rb).
    unfold tx_bind at 1. unfold tx_lift. rewrite sql_u64_in by lia. fold rev.
    unfold tx_bind at 1. unfold tx_reject at 1. rewrite (proj2 (Z.leb_gt rev 0)) by lia.
    unfold tx_bind at 1. unfold tx_modify. fold d9. rewrite (tx_bind_run _ _ _ _ _ Rau).
    by rewrite (import_ends src i) by done.
  - destruct (ok_tables _ Hok). split; assumption.
  - done.
Qed.

(** * What the destination holds *)

Lemma by_blob2_total {A} (k1 k2 : A -> blob) a b : by_blob2 k1 k2 a b = false -> by_blob2 k1 k2 b a = true.
Proof.
  unfold by_blob2. rewrite orb_false_iff, andb_false_iff, orb_true_iff, andb_true_iff, blob_eqb_true, blob_eqb_false.
  intros [H1 H2]. destruct (blob_ltb (k1 b) (k1 a)) eqn:E; [by left|]. right.
  assert (k1 a = k1 b) as Heq by by apply blob_ltb_total. split; [done|].
  destruct H2 as [?|H2]; [done|]. by apply blob_leb_total.
Qed.

Lemma by_blob2_trans {A} (k1 k2 : A -> blob) a b c :
  by_blob2 k1 k2 a b = true -> by_blob2 k1 k2 b c = true -> by_blob2 k1 k2 a c = true.
Proof.
  unfold by_blob2. rewrite !orb_true_iff, !andb_true_iff, !blob_eqb_true.
  intros [H1|[H1 H1']] [H2|[H2 H2']].
  - left. by eapply blob_ltb_trans.
  - left. by rewrite <- H2.
  - left. by rewrite H1.
  - right. split; [congruence|]. by eapply blob_leb_trans.
Qed.

Lemma by_secret_version_total a b : by_secret_version a b = false -> by_secret_version b a = true.
Proof.
  unfold by_secret_version.
  rewrite orb_false_iff, andb_false_iff, orb_true_iff, andb_true_iff, blob_eqb_true, blob_eqb_false, Z.leb_gt, Z.leb_le.
  intros [H1 H2]. destruct (blob_ltb (sv_secret_id b) (sv_secret_id a)) eqn:E; [by left|]. right.
  assert (sv_secret_id a = sv_secret_id b) as Heq by by apply blob_ltb_total.
  destruct H2 as [?|H2]; [done|]. split; [done|lia].
Qed.

Lemma by_secret_version_trans a b c :
  by_secret_version a b = true -> by_secret_version b c = true -> by_secret_version a c = true.
Proof.
  unfold by_secret_version. rewrite !orb_true_iff, !andb_true_iff, !blob_eqb_true, !Z.leb_le.
  intros [H1|[H1 H1']] [H2|[H2 H2']].
  - left. by eapply blob_ltb_trans.
  - left. by rewrite <- H2.
  - left. by rewrite H1.
  - right. split; [congruence|lia].
Qed.

(** Rows stored in the order they were read in read the same. *)
Lemma reread {R A} (parse : A -> result StorageError R) (le : A -> A -> bool) l l' records :
  (forall a b, le a b = false -> le b a = true) ->
  (forall a b c, le a b = true -> le b c = true -> le a c = true) ->
  l' = order_by le l -> result_mapM parse (order_by le l) = Ok records ->
  result_mapM parse (order_by le l') = Ok records.
Proof. intros Ht Htr -> H. by rewrite order_by_idem. Qed.

(** A filled destination reads as its source. *)
Lemma filled_reads src i s d' :
  portable_ok src i -> holds_snapshot s src -> filled src d' ->
  db_authz_revision d' = as_revision (snp_authorization_state s) ->
  db_authz_commitment d' = arr (as_state_commitment (snp_authorization_state s)) ->
  holds_snapshot s d'.
Proof.
  intros Hsrc Hs Hf Hrev Hcom. pose proof (authz_revision_width _ _ _ Hsrc Hs) as Hw.
  destruct Hs. destruct Hf as [Hp Ha Hsv Hc Hn Hse Hv Ht Hpo Hg Hb Hau _ _].
  split; try (eapply reread; [| |eassumption|eassumption];
    first [apply by_blob_total|apply by_blob_trans|apply by_blob2_total|apply by_blob2_trans
          |apply by_secret_version_total|apply by_secret_version_trans
          |intros *; rewrite ?Z.leb_le, ?Z.leb_gt; lia]).
  - etrans; [|exact hold_namespaces0]. unfold read_namespaces. rewrite Hn. f_equal.
    symmetry. apply namespace_tree_stable.
    + intros a b. apply namespace_id_unique, Hsrc.
    + symmetry. by eapply source_namespaces_perm.
  - unfold read_authorization_state. rewrite Hrev, Hcom. rewrite parse_uint_Ok by (unfold u64_max, i64_max in *; lia).
    unfold parse_array. rewrite try_array_arr. by destruct (snp_authorization_state s).
Qed.

(** The invariants of the records do not depend on the order of the rows. *)
Lemma history_ok_perm l l' r : l ≡ₚ l' -> history_ok l r -> history_ok l' r.
Proof. intros Hp H k. rewrite <- (H k). by setoid_rewrite Hp. Qed.

Lemma secrets_ok_perm n n' l l' v v' :
  n ≡ₚ n' -> l ≡ₚ l' -> v ≡ₚ v' -> secrets_ok n l v -> secrets_ok n' l' v'.
Proof.
  intros Hn Hl Hv [H1 H2 H3 H4 H5 H6].
  assert (forall r, r ∈ l' -> r ∈ l) as El by (intros r; by rewrite Hl).
  assert (forall r, r ∈ v' -> r ∈ v) as Ev by (intros r; by rewrite Hv).
  split; intros r Hr; auto.
  - setoid_rewrite <- Hn. auto.
  - setoid_rewrite <- Hl. auto.
  - eapply history_ok_perm; [done|auto].
Qed.

#[export] Instance secrets_ok_proper :
  Proper (Permutation ==> Permutation ==> Permutation ==> iff) secrets_ok.
Proof. intros n n' Hn l l' Hl v v' Hv. split; by apply secrets_ok_perm. Qed.

Lemma namespaces_ok_perm n n' : n ≡ₚ n' -> namespaces_ok n -> namespaces_ok n'.
Proof.
  intros Hn [H1 H2]. assert (forall r, r ∈ n' -> r ∈ n) as En by (intros r; by rewrite Hn).
  split; [|auto]. intros r p Hr Hp. setoid_rewrite <- Hn. eauto.
Qed.

#[export] Instance namespaces_ok_proper : Proper (Permutation ==> iff) namespaces_ok.
Proof. intros n n' Hn. split; by apply namespaces_ok_perm. Qed.

(** ... and satisfies the invariant of the database. *)
Lemma filled_ok src i e s j dst d' :
  portable_ok src i -> db_ok dst -> filled src d' -> tables_ok d' -> kept e s j dst d' -> db_ok d'.
Proof.
  intros Hsrc Hdst Hf Hok Hk. pose proof (port_db _ _ Hsrc) as [_ Hns Hsec _ Hl].
  pose proof (source_namespaces_perm src i Hsrc) as Pn.
  destruct Hf as [_ _ _ _ Hn Hse Hv _ _ _ _ Hau _ _]. split; [done|..].
  - by rewrite Hn, Pn.
  - rewrite Hn, Hse, Hv, Pn. unfold source_secrets, source_versions. by rewrite !order_by_perm.
  - rewrite (kept_purge _ _ _ _ _ Hk). apply Hdst.
  - unfold audit_linked. rewrite Hau. unfold source_audit. rewrite order_by_id; [done|].
    eapply StronglySorted_impl; [|by eapply linked_increasing]. cbn. intros. apply Z.leb_le. lia.
Qed.

(** The destination of a restore. *)
Lemma begin_restore_fresh b dst :
  begin_restore_initialization b empty_db = (Ok Begun, dst) ->
  fresh_destination dst (br_vault_id b) (bootstrap_row b) /\ db_restore_guard dst = Some true
  /\ rows (db_keys dst) = (fun k => key_row k (br_initialized_at_unix_ms b)) <$> bootstrap_keys b
  /\ db_jobs dst = [].
Proof.
  intros H. unfold begin_restore_initialization in H.
  pose proof (begin_initialization_kind_safe _ _ _ _ _ H db_ok_empty) as [Hok _].
  unfold begin_restore_initialization, begin_initialization_kind, prog_bind, prog_lift, prog_read in H.
  destruct (validate_bootstrap b); [|done]. change (installation empty_db) with (@Ok StorageError _ (@None InstallationRecord)) in H.
  cbv beta iota in H. apply transact_Ok in H. minv.
  match goal with H : insert_installation _ _ = _ |- _ => unfold insert_installation in H; cbn [empty_db db_installation] in H end.
  destruct (installation_check _) eqn:Hc; [|done]. simplify_eq.
  match goal with H : tx_forM _ _ _ = _ |- _ => apply tx_forM_insert_keys in H as (t & -> & _ & ?) end.
  unfold create_restore_guard in *. cbn in *. sinv. split; [|done]. split; try done.
Qed.

(** C25. The snapshot of any vault whose database is in order can be taken, and
    the destination of a restore accepts it: the import succeeds, every kind of
    record is read back equal (namespaces below their parents, each exactly
    once), the database satisfies its invariant and every foreign key, and the
    keys of the destination, its restore guard and its inactive state are
    untouched. *)
Theorem snapshot_import_round_trips (src : Db) (i : InstallationRow) (Hsrc : portable_ok src i)
    (b : BootstrapRecord) (dst : Db) (e : Z)
    (Hdst : begin_restore_initialization b empty_db = (Ok Begun, dst))
    (Hvault : inst_logical_vault_id i = arr (br_vault_id b)) (He : 0 <= e <= i64_max) :
  exists s dst', portable_snapshot src = Ok s
    /\ import_portable_snapshot s e dst = (Ok tt, dst')
    /\ holds_snapshot s dst' /\ db_ok dst' /\ foreign_key_check dst' = true
    /\ kept e s (bootstrap_row b) dst dst'.
Proof.
  destruct (portable_snapshot_total src i Hsrc) as (s & Hs). exists s.
  destruct (portable_snapshot_reads _ _ _ (port_installation _ _ Hsrc) Hs) as (Hhold & _ & Hv & _).
  apply begin_restore_fresh in Hdst as [Hfresh _].
  assert (snp_vault_id s = br_vault_id b) as Eid.
  { rewrite Hvault, parse_uuid_arr in Hv. by injection Hv. }
  rewrite <- Eid in Hfresh.
  destruct (import_runs src i s dst _ e Hsrc Hs Hfresh He) as (dst' & Hrun & Hf & Hok & Hk).
  destruct (kept_authz _ _ _ _ _ Hk) as [Hr Hc].
  exists dst'. split; [done|]. split; [done|]. split; [by eapply filled_reads|].
  split; [eapply filled_ok; [done|apply Hfresh|done..]|]. split; [|done].
  apply foreign_key_check_true. by eapply filled_references.
Qed.
