(* ===== verification/Logical.v ===== *)
(** The logical stream of src/crates/smcv-app/src/backup.rs: the records a backup
    carries, their framing, and the keys of the vault among them.

    A record is a kind, the critical flag and a length, each big-endian, before
    its JSON text. JSON is third-party code: a [codec] for each record type, in
    the class [LogicalJson]. Fields that hold base64 text are its bytes. *)
From Stdlib Require Import ZArith Lia Strings.Byte String.
From stdpp Require Import base tactics numbers option strings list gmap.
From S2P Require Import Prelude RustStd Core Crypto Schema Records PolicyStore IdentityStore Metadata VaultCore Initialization Archive Portable.

Definition SCHEMA_VERSION : Z := 3.
Definition SECURITY_SEMANTICS_VERSION : Z := 1.
Definition MAX_LOGICAL_STREAM_BYTES : Z := 256 * 1024 * 1024.
Definition MAX_PORTABLE_FILE_BYTES : Z := 8 * 1024 * 1024 * 1024.
Definition RECORD_FLAG_CRITICAL : Z := 1.
Definition RECORD_KEYS : Z := 1.
Definition RECORD_NAMESPACE : Z := 10.
Definition RECORD_SECRET : Z := 11.
Definition RECORD_SECRET_VERSION : Z := 12.
Definition RECORD_TOMBSTONE : Z := 13.
Definition RECORD_PRINCIPAL : Z := 20.
Definition RECORD_AUTHENTICATOR : Z := 21.
Definition RECORD_SERVICE_IDENTITY : Z := 22.
Definition RECORD_APPLICATION_CREDENTIAL : Z := 23.
Definition RECORD_AUTHORIZATION_STATE : Z := 30.
Definition RECORD_POLICY : Z := 31.
Definition RECORD_GRANT : Z := 32.
Definition RECORD_BINDING : Z := 33.
Definition RECORD_AUDIT : Z := 40.

(** [BackupError]; the payload of [Io] is never inspected. *)
Inductive BackupError : Type :=
| BArchive (e : ArchiveError)
| BStorage (e : StorageError)
| BVault (e : VaultError)
| BInvalidInput
| BIo
| BIntegrity.

(** ** Records *)

Record LogicalKeys : Type := {
  lk_blind_index : blob;
  lk_audit : blob;
  lk_token_verifier : blob }.

Record LogicalNamespace : Type := {
  ln_namespace_id : NamespaceId;
  ln_parent_namespace_id : option NamespaceId;
  ln_name_index : array 32;
  ln_metadata_version : Z;
  ln_metadata : blob;
  ln_lifecycle_state : string;
  ln_revision : Z;
  ln_state_commitment : array 32;
  ln_created_at_unix_ms : Z;
  ln_updated_at_unix_ms : Z }.

Record LogicalSecret : Type := {
  ls_secret_id : SecretId;
  ls_namespace_id : NamespaceId;
  ls_name_index : array 32;
  ls_metadata_version : Z;
  ls_metadata : blob;
  ls_lifecycle_state : string;
  ls_current_version : Z;
  ls_revision : Z;
  ls_state_commitment : array 32;
  ls_created_at_unix_ms : Z;
  ls_updated_at_unix_ms : Z;
  ls_deleted_at_unix_ms : option Z }.

Record LogicalSecretVersion : Type := {
  lv_secret_id : SecretId;
  lv_version : Z;
  lv_payload : blob;
  lv_schedule : SecretSchedule;
  lv_created_by_principal_id : option PrincipalId;
  lv_created_at_unix_ms : Z }.

Record LogicalTombstone : Type := {
  lt_secret_id : SecretId;
  lt_namespace_id : NamespaceId;
  lt_name_index : array 32;
  lt_last_version : Z;
  lt_purged_at_unix_ms : Z;
  lt_retention_cutoff_unix_ms : Z }.

Record LogicalPrincipal : Type := {
  lp_principal_id : PrincipalId;
  lp_kind : string;
  lp_state : string;
  lp_revision : Z;
  lp_state_commitment : array 32;
  lp_created_at_unix_ms : Z;
  lp_updated_at_unix_ms : Z }.

Record LogicalAuthenticator : Type := {
  la_authenticator_id : AuthenticatorId;
  la_principal_id : PrincipalId;
  la_kind : string;
  la_credential_lookup : option blob;
  la_credential_data : option blob;
  la_password_phc : option string;
  la_state : string;
  la_created_at_unix_ms : Z;
  la_last_used_at_unix_ms : option Z;
  la_revoked_at_unix_ms : option Z;
  la_state_commitment : array 32 }.

Record LogicalServiceIdentity : Type := {
  lsi_principal_id : PrincipalId;
  lsi_metadata_version : Z;
  lsi_metadata : blob }.

Record LogicalApplicationCredential : Type := {
  lac_credential_id : CredentialId;
  lac_principal_id : PrincipalId;
  lac_lookup_id : array 12;
  lac_verifier : array 32;
  lac_created_at_unix_ms : Z;
  lac_expires_at_unix_ms : option Z;
  lac_last_used_at_unix_ms : option Z;
  lac_revoked_at_unix_ms : option Z;
  lac_revision : Z;
  lac_state_commitment : array 32 }.

Record LogicalAuthorizationState : Type := {
  las_revision : Z;
  las_state_commitment : array 32 }.

Record LogicalPolicy : Type := {
  lpo_policy_id : PolicyId;
  lpo_revision : Z;
  lpo_state : string;
  lpo_metadata_version : Z;
  lpo_metadata : blob;
  lpo_state_commitment : array 32;
  lpo_created_at_unix_ms : Z;
  lpo_updated_at_unix_ms : Z }.

Record LogicalGrant : Type := {
  lg_grant_id : GrantId;
  lg_policy_id : PolicyId;
  lg_action : Action;
  lg_resource_kind : ResourceKind;
  lg_resource_id : ObjectId;
  lg_include_descendants : bool;
  lg_created_by_principal_id : PrincipalId;
  lg_created_at_unix_ms : Z;
  lg_state_commitment : array 32 }.

Record LogicalBinding : Type := {
  lb_principal_id : PrincipalId;
  lb_policy_id : PolicyId;
  lb_created_by_principal_id : PrincipalId;
  lb_created_at_unix_ms : Z;
  lb_state_commitment : array 32 }.

Record LogicalAudit : Type := {
  lau_commitment_version : Z;
  lau_sequence : Z;
  lau_event_id : AuditEventId;
  lau_installation_id : InstallationId;
  lau_recovery_epoch : Z;
  lau_occurred_at_unix_ms : Z;
  lau_request_id : RequestId;
  lau_actor_principal_id : option PrincipalId;
  lau_credential_kind : option string;
  lau_credential_id : option ObjectId;
  lau_action : string;
  lau_target_kind : string;
  lau_target_id : option ObjectId;
  lau_outcome : string;
  lau_previous_commitment : array 32;
  lau_commitment : array 32 }.

(** The result of [decode_logical_stream] while it is built. *)
Record DecodedLogical : Type := MkDecoded {
  dl_keys : option LogicalKeys;
  dl_namespaces : list LogicalNamespace;
  dl_secrets : list LogicalSecret;
  dl_secret_versions : list LogicalSecretVersion;
  dl_tombstones : list LogicalTombstone;
  dl_principals : list LogicalPrincipal;
  dl_authenticators : list LogicalAuthenticator;
  dl_service_identities : list LogicalServiceIdentity;
  dl_application_credentials : list LogicalApplicationCredential;
  dl_authorization_state : option LogicalAuthorizationState;
  dl_policies : list LogicalPolicy;
  dl_grants : list LogicalGrant;
  dl_bindings : list LogicalBinding;
  dl_audit : list LogicalAudit;
  dl_records : Z }.

(** [DecodedLogical::new] *)
Definition new_decoded : DecodedLogical :=
  MkDecoded None [] [] [] [] [] [] [] [] None [] [] [] [] 0.

(** Assignments to its fields. *)
Definition set_dl_keys (k : LogicalKeys) (d : DecodedLogical) : DecodedLogical :=
  MkDecoded
    (Some k) (dl_namespaces d) (dl_secrets d) (dl_secret_versions d) (dl_tombstones d)
    (dl_principals d) (dl_authenticators d) (dl_service_identities d)
    (dl_application_credentials d) (dl_authorization_state d) (dl_policies d) (dl_grants d)
    (dl_bindings d) (dl_audit d) (dl_records d).
Definition set_dl_records (n : Z) (d : DecodedLogical) : DecodedLogical :=
  MkDecoded
    (dl_keys d) (dl_namespaces d) (dl_secrets d) (dl_secret_versions d) (dl_tombstones d)
    (dl_principals d) (dl_authenticators d) (dl_service_identities d)
    (dl_application_credentials d) (dl_authorization_state d) (dl_policies d) (dl_grants d)
    (dl_bindings d) (dl_audit d) n.
Definition push_namespaces (x : LogicalNamespace) (d : DecodedLogical) : DecodedLogical :=
  MkDecoded
    (dl_keys d) (dl_namespaces d ++ [x]) (dl_secrets d) (dl_secret_versions d) (dl_tombstones d)
    (dl_principals d) (dl_authenticators d) (dl_service_identities d)
    (dl_application_credentials d) (dl_authorization_state d) (dl_policies d) (dl_grants d)
    (dl_bindings d) (dl_audit d) (dl_records d).
Definition push_secrets (x : LogicalSecret) (d : DecodedLogical) : DecodedLogical :=
  MkDecoded
    (dl_keys d) (dl_namespaces d) (dl_secrets d ++ [x]) (dl_secret_versions d) (dl_tombstones d)
    (dl_principals d) (dl_authenticators d) (dl_service_identities d)
    (dl_application_credentials d) (dl_authorization_state d) (dl_policies d) (dl_grants d)
    (dl_bindings d) (dl_audit d) (dl_records d).
Definition push_secret_versions (x : LogicalSecretVersion) (d : DecodedLogical) : DecodedLogical :=
  MkDecoded
    (dl_keys d) (dl_namespaces d) (dl_secrets d) (dl_secret_versions d ++ [x]) (dl_tombstones d)
    (dl_principals d) (dl_authenticators d) (dl_service_identities d)
    (dl_application_credentials d) (dl_authorization_state d) (dl_policies d) (dl_grants d)
    (dl_bindings d) (dl_audit d) (dl_records d).
Definition push_tombstones (x : LogicalTombstone) (d : DecodedLogical) : DecodedLogical :=
  MkDecoded
    (dl_keys d) (dl_namespaces d) (dl_secrets d) (dl_secret_versions d) (dl_tombstones d ++ [x])
    (dl_principals d) (dl_authenticators d) (dl_service_identities d)
    (dl_application_credentials d) (dl_authorization_state d) (dl_policies d) (dl_grants d)
    (dl_bindings d) (dl_audit d) (dl_records d).
Definition push_principals (x : LogicalPrincipal) (d : DecodedLogical) : DecodedLogical :=
  MkDecoded
    (dl_keys d) (dl_namespaces d) (dl_secrets d) (dl_secret_versions d) (dl_tombstones d)
    (dl_principals d ++ [x]) (dl_authenticators d) (dl_service_identities d)
    (dl_application_credentials d) (dl_authorization_state d) (dl_policies d) (dl_grants d)
    (dl_bindings d) (dl_audit d) (dl_records d).
Definition push_authenticators (x : LogicalAuthenticator) (d : DecodedLogical) : DecodedLogical :=
  MkDecoded
    (dl_keys d) (dl_namespaces d) (dl_secrets d) (dl_secret_versions d) (dl_tombstones d)
    (dl_principals d) (dl_authenticators d ++ [x]) (dl_service_identities d)
    (dl_application_credentials d) (dl_authorization_state d) (dl_policies d) (dl_grants d)
    (dl_bindings d) (dl_audit d) (dl_records d).
Definition push_service_identities (x : LogicalServiceIdentity) (d : DecodedLogical) : DecodedLogical :=
  MkDecoded
    (dl_keys d) (dl_namespaces d) (dl_secrets d) (dl_secret_versions d) (dl_tombstones d)
    (dl_principals d) (dl_authenticators d) (dl_service_identities d ++ [x])
    (dl_application_credentials d) (dl_authorization_state d) (dl_policies d) (dl_grants d)
    (dl_bindings d) (dl_audit d) (dl_records d).
Definition push_application_credentials (x : LogicalApplicationCredential) (d : DecodedLogical) : DecodedLogical :=
  MkDecoded
    (dl_keys d) (dl_namespaces d) (dl_secrets d) (dl_secret_versions d) (dl_tombstones d)
    (dl_principals d) (dl_authenticators d) (dl_service_identities d)
    (dl_application_credentials d ++ [x]) (dl_authorization_state d) (dl_policies d)
    (dl_grants d) (dl_bindings d) (dl_audit d) (dl_records d).
Definition set_dl_authorization_state (a : LogicalAuthorizationState) (d : DecodedLogical) : DecodedLogical :=
  MkDecoded
    (dl_keys d) (dl_namespaces d) (dl_secrets d) (dl_secret_versions d) (dl_tombstones d)
    (dl_principals d) (dl_authenticators d) (dl_service_identities d)
    (dl_application_credentials d) (Some a) (dl_policies d) (dl_grants d) (dl_bindings d)
    (dl_audit d) (dl_records d).
Definition push_policies (x : LogicalPolicy) (d : DecodedLogical) : DecodedLogical :=
  MkDecoded
    (dl_keys d) (dl_namespaces d) (dl_secrets d) (dl_secret_versions d) (dl_tombstones d)
    (dl_principals d) (dl_authenticators d) (dl_service_identities d)
    (dl_application_credentials d) (dl_authorization_state d) (dl_policies d ++ [x])
    (dl_grants d) (dl_bindings d) (dl_audit d) (dl_records d).
Definition push_grants (x : LogicalGrant) (d : DecodedLogical) : DecodedLogical :=
  MkDecoded
    (dl_keys d) (dl_namespaces d) (dl_secrets d) (dl_secret_versions d) (dl_tombstones d)
    (dl_principals d) (dl_authenticators d) (dl_service_identities d)
    (dl_application_credentials d) (dl_authorization_state d) (dl_policies d)
    (dl_grants d ++ [x]) (dl_bindings d) (dl_audit d) (dl_records d).
Definition push_bindings (x : LogicalBinding) (d : DecodedLogical) : DecodedLogical :=
  MkDecoded
    (dl_keys d) (dl_namespaces d) (dl_secrets d) (dl_secret_versions d) (dl_tombstones d)
    (dl_principals d) (dl_authenticators d) (dl_service_identities d)
    (dl_application_credentials d) (dl_authorization_state d) (dl_policies d) (dl_grants d)
    (dl_bindings d ++ [x]) (dl_audit d) (dl_records d).
Definition push_audit (x : LogicalAudit) (d : DecodedLogical) : DecodedLogical :=
  MkDecoded
    (dl_keys d) (dl_namespaces d) (dl_secrets d) (dl_secret_versions d) (dl_tombstones d)
    (dl_principals d) (dl_authenticators d) (dl_service_identities d)
    (dl_application_credentials d) (dl_authorization_state d) (dl_policies d) (dl_grants d)
    (dl_bindings d) (dl_audit d ++ [x]) (dl_records d).

(** ** JSON *)

(** [serde_json::to_vec] and [serde_json::from_slice] at a type. *)
Record codec (T : Type) : Type := {
  to_vec : T -> option blob;
  from_slice : blob -> option T }.
Arguments to_vec {T} c x.
Arguments from_slice {T} c b.

Class LogicalJson : Type := {
  json_keys : codec LogicalKeys;
  json_namespaces : codec LogicalNamespace;
  json_secrets : codec LogicalSecret;
  json_secret_versions : codec LogicalSecretVersion;
  json_tombstones : codec LogicalTombstone;
  json_principals : codec LogicalPrincipal;
  json_authenticators : codec LogicalAuthenticator;
  json_service_identities : codec LogicalServiceIdentity;
  json_application_credentials : codec LogicalApplicationCredential;
  json_authorization_state : codec LogicalAuthorizationState;
  json_policies : codec LogicalPolicy;
  json_grants : codec LogicalGrant;
  json_bindings : codec LogicalBinding;
  json_audit : codec LogicalAudit }.

(** A value that was serialized deserializes to itself. *)
Definition codec_law {T} (c : codec T) : Prop :=
  forall x b, to_vec c x = Some b -> from_slice c b = Some x.

Class LogicalJsonLaws {LJ : LogicalJson} : Prop := {
  law_keys : codec_law json_keys;
  law_namespaces : codec_law json_namespaces;
  law_secrets : codec_law json_secrets;
  law_secret_versions : codec_law json_secret_versions;
  law_tombstones : codec_law json_tombstones;
  law_principals : codec_law json_principals;
  law_authenticators : codec_law json_authenticators;
  law_service_identities : codec_law json_service_identities;
  law_application_credentials : codec_law json_application_credentials;
  law_authorization_state : codec_law json_authorization_state;
  law_policies : codec_law json_policies;
  law_grants : codec_law json_grants;
  law_bindings : codec_law json_bindings;
  law_audit : codec_law json_audit }.

(** ** Conversions of rows *)

Definition logical_namespace (row : PortableNamespace) : LogicalNamespace :=
  {| ln_namespace_id := pn_namespace_id row;
     ln_parent_namespace_id := pn_parent_namespace_id row; ln_name_index := pn_name_index row;
     ln_metadata_version := pn_metadata_version row; ln_metadata := [];
     ln_lifecycle_state := pn_lifecycle_state row; ln_revision := pn_revision row;
     ln_state_commitment := pn_state_commitment row;
     ln_created_at_unix_ms := pn_created_at_unix_ms row;
     ln_updated_at_unix_ms := pn_updated_at_unix_ms row |}.

Definition set_ln_metadata (text : blob) (v : LogicalNamespace) : LogicalNamespace :=
  {| ln_namespace_id := ln_namespace_id v; ln_parent_namespace_id := ln_parent_namespace_id v;
     ln_name_index := ln_name_index v; ln_metadata_version := ln_metadata_version v;
     ln_metadata := text; ln_lifecycle_state := ln_lifecycle_state v;
     ln_revision := ln_revision v; ln_state_commitment := ln_state_commitment v;
     ln_created_at_unix_ms := ln_created_at_unix_ms v;
     ln_updated_at_unix_ms := ln_updated_at_unix_ms v |}.

Definition logical_secret (row : PortableSecret) : LogicalSecret :=
  {| ls_secret_id := ps_secret_id row; ls_namespace_id := ps_namespace_id row;
     ls_name_index := ps_name_index row; ls_metadata_version := ps_metadata_version row;
     ls_metadata := []; ls_lifecycle_state := ps_lifecycle_state row;
     ls_current_version := ps_current_version row; ls_revision := ps_revision row;
     ls_state_commitment := ps_state_commitment row;
     ls_created_at_unix_ms := ps_created_at_unix_ms row;
     ls_updated_at_unix_ms := ps_updated_at_unix_ms row;
     ls_deleted_at_unix_ms := ps_deleted_at_unix_ms row |}.

Definition set_ls_metadata (text : blob) (v : LogicalSecret) : LogicalSecret :=
  {| ls_secret_id := ls_secret_id v; ls_namespace_id := ls_namespace_id v;
     ls_name_index := ls_name_index v; ls_metadata_version := ls_metadata_version v;
     ls_metadata := text; ls_lifecycle_state := ls_lifecycle_state v;
     ls_current_version := ls_current_version v; ls_revision := ls_revision v;
     ls_state_commitment := ls_state_commitment v;
     ls_created_at_unix_ms := ls_created_at_unix_ms v;
     ls_updated_at_unix_ms := ls_updated_at_unix_ms v;
     ls_deleted_at_unix_ms := ls_deleted_at_unix_ms v |}.

Definition logical_secret_version (row : PortableSecretVersion) : LogicalSecretVersion :=
  {| lv_secret_id := pv_secret_id row; lv_version := pv_version row; lv_payload := [];
     lv_schedule := pv_schedule row;
     lv_created_by_principal_id := pv_created_by_principal_id row;
     lv_created_at_unix_ms := pv_created_at_unix_ms row |}.

Definition set_lv_payload (text : blob) (v : LogicalSecretVersion) : LogicalSecretVersion :=
  {| lv_secret_id := lv_secret_id v; lv_version := lv_version v; lv_payload := text;
     lv_schedule := lv_schedule v; lv_created_by_principal_id := lv_created_by_principal_id v;
     lv_created_at_unix_ms := lv_created_at_unix_ms v |}.

Definition logical_tombstone (row : PortableTombstone) : LogicalTombstone :=
  {| lt_secret_id := pt_secret_id row; lt_namespace_id := pt_namespace_id row;
     lt_name_index := pt_name_index row; lt_last_version := pt_last_version row;
     lt_purged_at_unix_ms := pt_purged_at_unix_ms row;
     lt_retention_cutoff_unix_ms := pt_retention_cutoff_unix_ms row |}.

Definition logical_principal (row : PortablePrincipal) : LogicalPrincipal :=
  {| lp_principal_id := pp_principal_id row; lp_kind := principal_kind_str (pp_kind row);
     lp_state := pp_state row; lp_revision := pp_revision row;
     lp_state_commitment := pp_state_commitment row;
     lp_created_at_unix_ms := pp_created_at_unix_ms row;
     lp_updated_at_unix_ms := pp_updated_at_unix_ms row |}.

Definition logical_authenticator (row : PortableAuthenticator) : LogicalAuthenticator :=
  {| la_authenticator_id := pa_authenticator_id row; la_principal_id := pa_principal_id row;
     la_kind := authenticator_kind_as_str (pa_kind row);
     la_credential_lookup := pa_credential_lookup row;
     la_credential_data := pa_credential_data row; la_password_phc := pa_password_phc row;
     la_state := pa_state row; la_created_at_unix_ms := pa_created_at_unix_ms row;
     la_last_used_at_unix_ms := pa_last_used_at_unix_ms row;
     la_revoked_at_unix_ms := pa_revoked_at_unix_ms row;
     la_state_commitment := pa_state_commitment row |}.

Definition logical_service_identity (row : PortableServiceIdentity) : LogicalServiceIdentity :=
  {| lsi_principal_id := psi_principal_id row; lsi_metadata_version := psi_metadata_version row;
     lsi_metadata := [] |}.

Definition set_lsi_metadata (text : blob) (v : LogicalServiceIdentity) : LogicalServiceIdentity :=
  {| lsi_principal_id := lsi_principal_id v; lsi_metadata_version := lsi_metadata_version v;
     lsi_metadata := text |}.

Definition logical_application_credential (row : PortableApplicationCredential) : LogicalApplicationCredential :=
  {| lac_credential_id := pac_credential_id row; lac_principal_id := pac_principal_id row;
     lac_lookup_id := pac_lookup_id row; lac_verifier := pac_verifier row;
     lac_created_at_unix_ms := pac_created_at_unix_ms row;
     lac_expires_at_unix_ms := pac_expires_at_unix_ms row;
     lac_last_used_at_unix_ms := pac_last_used_at_unix_ms row;
     lac_revoked_at_unix_ms := pac_revoked_at_unix_ms row; lac_revision := pac_revision row;
     lac_state_commitment := pac_state_commitment row |}.

Definition logical_policy (row : PortablePolicy) : LogicalPolicy :=
  {| lpo_policy_id := ppo_policy_id row; lpo_revision := ppo_revision row;
     lpo_state := ppo_state row; lpo_metadata_version := ppo_metadata_version row;
     lpo_metadata := []; lpo_state_commitment := ppo_state_commitment row;
     lpo_created_at_unix_ms := ppo_created_at_unix_ms row;
     lpo_updated_at_unix_ms := ppo_updated_at_unix_ms row |}.

Definition set_lpo_metadata (text : blob) (v : LogicalPolicy) : LogicalPolicy :=
  {| lpo_policy_id := lpo_policy_id v; lpo_revision := lpo_revision v; lpo_state := lpo_state v;
     lpo_metadata_version := lpo_metadata_version v; lpo_metadata := text;
     lpo_state_commitment := lpo_state_commitment v;
     lpo_created_at_unix_ms := lpo_created_at_unix_ms v;
     lpo_updated_at_unix_ms := lpo_updated_at_unix_ms v |}.

Definition logical_grant (row : PolicyGrantRecord) : LogicalGrant :=
  {| lg_grant_id := pg_grant_id row; lg_policy_id := pg_policy_id row;
     lg_action := pg_action row; lg_resource_kind := pg_resource_kind row;
     lg_resource_id := pg_resource_id row; lg_include_descendants := pg_include_descendants row;
     lg_created_by_principal_id := pg_created_by_principal_id row;
     lg_created_at_unix_ms := pg_created_at_unix_ms row;
     lg_state_commitment := pg_state_commitment row |}.

Definition logical_binding (row : PolicyBindingRecord) : LogicalBinding :=
  {| lb_principal_id := pb_principal_id row; lb_policy_id := pb_policy_id row;
     lb_created_by_principal_id := pb_created_by_principal_id row;
     lb_created_at_unix_ms := pb_created_at_unix_ms row;
     lb_state_commitment := pb_state_commitment row |}.

Definition logical_audit (row : AuditRecord) : LogicalAudit :=
  {| lau_commitment_version := ar_commitment_version row; lau_sequence := ar_sequence row;
     lau_event_id := ar_event_id row; lau_installation_id := ar_installation_id row;
     lau_recovery_epoch := ar_recovery_epoch row;
     lau_occurred_at_unix_ms := ar_occurred_at_unix_ms row; lau_request_id := ar_request_id row;
     lau_actor_principal_id := ar_actor_principal_id row;
     lau_credential_kind := ar_credential_kind row; lau_credential_id := ar_credential_id row;
     lau_action := ar_action row; lau_target_kind := ar_target_kind row;
     lau_target_id := ar_target_id row; lau_outcome := ar_outcome row;
     lau_previous_commitment := ar_previous_commitment row; lau_commitment := ar_commitment row |}.

Definition restored_tombstone (row : LogicalTombstone) : PortableTombstone :=
  {| pt_secret_id := lt_secret_id row; pt_namespace_id := lt_namespace_id row;
     pt_name_index := lt_name_index row; pt_last_version := lt_last_version row;
     pt_purged_at_unix_ms := lt_purged_at_unix_ms row;
     pt_retention_cutoff_unix_ms := lt_retention_cutoff_unix_ms row |}.

Definition restored_grant (row : LogicalGrant) : PolicyGrantRecord :=
  {| pg_grant_id := lg_grant_id row; pg_policy_id := lg_policy_id row;
     pg_action := lg_action row; pg_resource_kind := lg_resource_kind row;
     pg_resource_id := lg_resource_id row; pg_include_descendants := lg_include_descendants row;
     pg_created_by_principal_id := lg_created_by_principal_id row;
     pg_created_at_unix_ms := lg_created_at_unix_ms row;
     pg_state_commitment := lg_state_commitment row |}.

Definition restored_binding (row : LogicalBinding) : PolicyBindingRecord :=
  {| pb_principal_id := lb_principal_id row; pb_policy_id := lb_policy_id row;
     pb_created_by_principal_id := lb_created_by_principal_id row;
     pb_created_at_unix_ms := lb_created_at_unix_ms row;
     pb_state_commitment := lb_state_commitment row |}.

Definition restored_audit (row : LogicalAudit) : AuditRecord :=
  {| ar_commitment_version := lau_commitment_version row; ar_sequence := lau_sequence row;
     ar_event_id := lau_event_id row; ar_installation_id := lau_installation_id row;
     ar_recovery_epoch := lau_recovery_epoch row;
     ar_occurred_at_unix_ms := lau_occurred_at_unix_ms row; ar_request_id := lau_request_id row;
     ar_actor_principal_id := lau_actor_principal_id row;
     ar_credential_kind := lau_credential_kind row; ar_credential_id := lau_credential_id row;
     ar_action := lau_action row; ar_target_kind := lau_target_kind row;
     ar_target_id := lau_target_id row; ar_outcome := lau_outcome row;
     ar_previous_commitment := lau_previous_commitment row; ar_commitment := lau_commitment row |}.

(** [AuthorizationState] has no [From]: its record is built in place. *)
Definition logical_authorization_state (a : AuthorizationState) : LogicalAuthorizationState :=
  {| las_revision := as_revision a; las_state_commitment := as_state_commitment a |}.

(** ** Writing *)

Section Stream.
Context {CR : Crypto} {LJ : LogicalJson}.

(** [append_record]; the arithmetic is that of a 64-bit [usize]. *)
Definition append_record {T} (c : codec T) (kind : Z) (value : T) (output : blob)
  : result BackupError blob :=
  let? payload := ok_or BIntegrity (to_vec c value) in
  let? length := ok_or BInvalidInput (try_from u32_max (zlen payload)) in
  let? next_length := ok_or BInvalidInput
    (size ← checked_add u64_max (zlen output) 8; checked_add u64_max size (zlen payload)) in
  if MAX_LOGICAL_STREAM_BYTES <? next_length then Err BInvalidInput
  else Ok (output ++ u16_be kind ++ u16_be RECORD_FLAG_CRITICAL ++ u32_be length ++ payload).

(** [encode_key] *)
Definition encode_key (key : KeyMaterial) : blob := b64_encode (arr key).

(** [for row in rows { .. }] over the growing output. *)
Fixpoint append_rows {R} (f : R -> blob -> result BackupError blob) (rows : list R) (output : blob)
  : result BackupError blob :=
  match rows with
  | [] => Ok output
  | row :: rows' => let? output := f row output in append_rows f rows' output
  end.

Section Encode.
Context (self : InitializedVault) (ring : KeyRing).

(** [decrypt_b64] *)
Definition decrypt_b64 (e : EncryptedRecord) (object_kind wrapped_kind : ObjectKind)
    (object_id : ObjectId) (version : Z) : result BackupError blob :=
  let? plaintext := map_err BVault
    (decrypt_record self ring e object_kind wrapped_kind object_id version) in
  Ok (b64_encode plaintext).

(** [encode_namespace] *)
Definition encode_namespace (row : PortableNamespace) (output : blob) : result BackupError blob :=
  let? metadata := decrypt_b64 (pn_metadata row) ONamespaceMetadata OWrappedNamespaceMetadataKey
      (pn_namespace_id row) (pn_metadata_version row) in
  append_record json_namespaces RECORD_NAMESPACE (set_ln_metadata metadata (logical_namespace row))
    output.

(** [encode_secret] *)
Definition encode_secret (row : PortableSecret) (output : blob) : result BackupError blob :=
  let? metadata := decrypt_b64 (ps_metadata row) OSecretMetadata OWrappedMetadataKey
      (ps_secret_id row) (ps_metadata_version row) in
  append_record json_secrets RECORD_SECRET (set_ls_metadata metadata (logical_secret row)) output.

(** [encode_secret_version] *)
Definition encode_secret_version (row : PortableSecretVersion) (output : blob)
  : result BackupError blob :=
  let? payload := decrypt_b64 (pv_payload row) OSecretVersion OWrappedDataKey (pv_secret_id row)
      (pv_version row) in
  append_record json_secret_versions RECORD_SECRET_VERSION
    (set_lv_payload payload (logical_secret_version row)) output.

(** [encode_service_identity] *)
Definition encode_service_identity (row : PortableServiceIdentity) (output : blob)
  : result BackupError blob :=
  let? metadata := decrypt_b64 (psi_metadata row) OServiceIdentityMetadata
      OWrappedServiceIdentityMetadataKey (psi_principal_id row) (psi_metadata_version row) in
  append_record json_service_identities RECORD_SERVICE_IDENTITY
    (set_lsi_metadata metadata (logical_service_identity row)) output.

(** [encode_policy] *)
Definition encode_policy (row : PortablePolicy) (output : blob) : result BackupError blob :=
  let? metadata := decrypt_b64 (ppo_metadata row) OPolicyMetadata OWrappedPolicyMetadataKey
      (ppo_policy_id row) (ppo_metadata_version row) in
  append_record json_policies RECORD_POLICY (set_lpo_metadata metadata (logical_policy row)) output.

(** [encode_logical_snapshot] *)
Definition encode_logical_snapshot (snapshot : PortableSnapshot) : result BackupError blob :=
  let keys := {| lk_blind_index := encode_key (iv_blind_index_key self);
                 lk_audit := encode_key (iv_audit_key self);
                 lk_token_verifier := encode_key (iv_token_verifier_key self) |} in
  let? output := append_record json_keys RECORD_KEYS keys [] in
  let? output := append_rows encode_namespace (snp_namespaces snapshot) output in
  let? output := append_rows encode_secret (snp_secrets snapshot) output in
  let? output := append_rows encode_secret_version (snp_secret_versions snapshot) output in
  let? output := append_rows (fun row => append_record json_tombstones RECORD_TOMBSTONE
      (logical_tombstone row)) (snp_tombstones snapshot) output in
  let? output := append_rows (fun row => append_record json_principals RECORD_PRINCIPAL
      (logical_principal row)) (snp_principals snapshot) output in
  let? output := append_rows (fun row => append_record json_authenticators RECORD_AUTHENTICATOR
      (logical_authenticator row)) (snp_authenticators snapshot) output in
  let? output := append_rows encode_service_identity (snp_service_identities snapshot) output in
  let? output := append_rows (fun row => append_record json_application_credentials
      RECORD_APPLICATION_CREDENTIAL (logical_application_credential row))
      (snp_application_credentials snapshot) output in
  let? output := append_record json_authorization_state RECORD_AUTHORIZATION_STATE
      (logical_authorization_state (snp_authorization_state snapshot)) output in
  let? output := append_rows encode_policy (snp_policies snapshot) output in
  let? output := append_rows (fun row => append_record json_grants RECORD_GRANT
      (logical_grant row)) (snp_grants snapshot) output in
  let? output := append_rows (fun row => append_record json_bindings RECORD_BINDING
      (logical_binding row)) (snp_bindings snapshot) output in
  append_rows (fun row => append_record json_audit RECORD_AUDIT (logical_audit row))
    (snp_audit_records snapshot) output.
End Encode.

(** ** Reading *)

(** [parse_record] *)
Definition parse_record {T} (c : codec T) (payload : blob) : result BackupError T :=
  ok_or BIntegrity (from_slice c payload).

(** The [match kind] of [decode_logical_stream]. *)
Definition decode_record (kind : Z) (payload : blob) (d : DecodedLogical)
  : result BackupError DecodedLogical :=
  if kind =? RECORD_KEYS then
    if bool_decide (is_Some (dl_keys d)) || negb (dl_records d =? 0) then Err BIntegrity
    else result_map (fun x => set_dl_keys x d) (parse_record json_keys payload)
  else if kind =? RECORD_NAMESPACE then result_map (fun x => push_namespaces x d) (parse_record json_namespaces payload)
  else if kind =? RECORD_SECRET then result_map (fun x => push_secrets x d) (parse_record json_secrets payload)
  else if kind =? RECORD_SECRET_VERSION then result_map (fun x => push_secret_versions x d) (parse_record json_secret_versions payload)
  else if kind =? RECORD_TOMBSTONE then result_map (fun x => push_tombstones x d) (parse_record json_tombstones payload)
  else if kind =? RECORD_PRINCIPAL then result_map (fun x => push_principals x d) (parse_record json_principals payload)
  else if kind =? RECORD_AUTHENTICATOR then result_map (fun x => push_authenticators x d) (parse_record json_authenticators payload)
  else if kind =? RECORD_SERVICE_IDENTITY then result_map (fun x => push_service_identities x d) (parse_record json_service_identities payload)
  else if kind =? RECORD_APPLICATION_CREDENTIAL then result_map (fun x => push_application_credentials x d) (parse_record json_application_credentials payload)
  else if kind =? RECORD_AUTHORIZATION_STATE then
    if bool_decide (is_Some (dl_authorization_state d)) then Err BIntegrity
    else result_map (fun x => set_dl_authorization_state x d) (parse_record json_authorization_state payload)
  else if kind =? RECORD_POLICY then result_map (fun x => push_policies x d) (parse_record json_policies payload)
  else if kind =? RECORD_GRANT then result_map (fun x => push_grants x d) (parse_record json_grants payload)
  else if kind =? RECORD_BINDING then result_map (fun x => push_bindings x d) (parse_record json_bindings payload)
  else if kind =? RECORD_AUDIT then result_map (fun x => push_audit x d) (parse_record json_audit payload)
  else Err BIntegrity.

(** The loop of [decode_logical_stream] on the bytes from the cursor on. Every
    turn takes at least the eight bytes of a header. *)
Fixpoint decode_stream_loop (fuel : nat) (rest : blob) (d : DecodedLogical)
  : result BackupError DecodedLogical :=
  match rest, fuel with
  | [], _ => Ok d
  | _, O => Err BIntegrity
  | _, S fuel' =>
      let? header := ok_or BIntegrity (slice rest 0 8) in
      let kind := be_decode (take 2 header) in
      let flags := be_decode (take 2 (drop 2 header)) in
      let length := be_decode (drop 4 header) in
      if negb (flags =? RECORD_FLAG_CRITICAL) then Err BIntegrity
      else
        let? payload := ok_or BIntegrity (slice rest 8 (Z.to_nat length)) in
        let? d := decode_record kind payload d in
        let? records := ok_or BIntegrity (checked_add u64_max (dl_records d) 1) in
        decode_stream_loop fuel' (drop (8 + Z.to_nat length) rest) (set_dl_records records d)
  end.

(** [decode_logical_stream] *)
Definition decode_logical_stream (bytes : blob) (expected_records : Z)
  : result BackupError DecodedLogical :=
  let? decoded := decode_stream_loop (length bytes) bytes new_decoded in
  if negb (dl_records decoded =? expected_records)
     || negb (bool_decide (is_Some (dl_keys decoded)))
     || negb (bool_decide (is_Some (dl_authorization_state decoded)))
  then Err BIntegrity else Ok decoded.

(** [decode_key] *)
Definition decode_key (encoded : blob) : result BackupError KeyMaterial :=
  let? bytes := ok_or BIntegrity (b64_decode encoded) in
  ok_or BIntegrity (try_array 32 bytes).

(** [decode_vault_keys] *)
Definition decode_vault_keys (keys : LogicalKeys) : result BackupError PortableVaultKeys :=
  let? blind_index := decode_key (lk_blind_index keys) in
  let? audit := decode_key (lk_audit keys) in
  let? token_verifier := decode_key (lk_token_verifier keys) in
  Ok {| pk_blind_index := blind_index; pk_audit := audit; pk_token_verifier := token_verifier |}.
End Stream.
