(* ===== verification/Backup.v ===== *)
(** src/crates/smcv-app/src/backup.rs: creating, inspecting, verifying and
    restoring backup files.

    A restore runs over the [Host] of its destination, whose files the
    [RestoreDestinationCleanup] guard removes unless the restore succeeds; a
    creation runs over the vault and the two files it writes, of which the
    destination appears only once the archive was read back and verified. Every
    file operation can fail. *)
From Stdlib Require Import ZArith Lia Strings.Byte String.
From stdpp Require Import base tactics numbers option strings list gmap.
From S2P Require Import Prelude RustStd Core Crypto Format Sql Schema Records PolicyStore VaultStore IdentityStore Store Metadata VaultCore Initialization Authentication Authorization ServiceIdentity Archive Portable Logical.

Inductive CredentialRestoreMode : Type := Preserve | Revoke.

Record BackupFileReport : Type := {
  bf_archive_id : Uuid;
  bf_archive_bytes : Z;
  bf_record_count : Z;
  bf_logical_bytes : Z;
  bf_destination : string }.

Record RestoreReport : Type := {
  rr_archive_id : Uuid;
  rr_vault_id : VaultId;
  rr_installation_id : InstallationId;
  rr_recovery_epoch : Z;
  rr_imported_records : Z;
  rr_imported_audit_events : Z;
  rr_revoked_application_credentials : Z;
  rr_disabled_source_bound_authenticators : Z }.

(** [parse_principal_kind] *)
Definition restored_principal_kind (value : string) : result BackupError PrincipalKind :=
  if String.eqb value "owner" then Ok Owner
  else if String.eqb value "service" then Ok Service
  else Err BIntegrity.

(** [parse_authenticator_kind] *)
Definition restored_authenticator_kind (value : string) : result BackupError AuthenticatorKind :=
  if String.eqb value "password" then Ok Password
  else if String.eqb value "passkey" then Ok Passkey
  else if String.eqb value "recovery" then Ok IdentityStore.Recovery
  else Err BIntegrity.

Section Backup.
Context {CR : Crypto} {PH : PasswordHashing} {LJ : LogicalJson}.

Section Restored.
Variable self : InitializedVault.

(** [portable_authorization_commitment] of authorization.rs *)
Definition portable_graph_items (policies : list PortablePolicy) (grants : list PolicyGrantRecord)
    (bindings : list PolicyBindingRecord) : list blob :=
  ((fun p => graph_item tag_P (arr (ppo_policy_id p)) (ppo_state_commitment p)) <$> policies)
  ++ (grant_item <$> grants) ++ (binding_item <$> bindings).
Definition portable_authorization_commitment (policies : list PortablePolicy)
    (grants : list PolicyGrantRecord) (bindings : list PolicyBindingRecord) (revision : Z)
  : result AuthorizationError (array 32) :=
  let items := portable_graph_items policies grants bindings in
  if Nat.eqb (length items) 0 && (revision =? 1) then commit self GRAPH_EMPTY
  else
    let? hashed := graph_bytes (order_by blob_leb items) in
    commit self (canonical_text
      [bstr "authorization-graph"; bstr "v1"; bstr "revision"; dec revision;
       hex_encode (arr (sha256 hashed))]).

Definition integrity {E A} (m : result E A) : result BackupError A := map_err (fun _ => BIntegrity) m.

(** ** Encryption under the keys of the destination *)

Abbreviation Restoring A := (Prog World BackupError A).

(** [encrypt_b64] *)
Definition encrypt_b64 (encoded : blob) (object_kind wrapped_kind : ObjectKind)
    (object_id : ObjectId) (version : Z) : Restoring EncryptedRecord :=
  do! bytes := prog_lift (ok_or BIntegrity (b64_decode encoded)) in
  prog_map_err BVault (encrypt_record self bytes object_kind wrapped_kind object_id version).

(** The loops of [transform_logical_snapshot], one row each. *)
Definition transform_namespace (row : LogicalNamespace) : Restoring PortableNamespace :=
  do! metadata := encrypt_b64 (ln_metadata row) ONamespaceMetadata OWrappedNamespaceMetadataKey
      (ln_namespace_id row) (ln_metadata_version row) in
  do! state_commitment := prog_lift (map_err BVault (namespace_state_commitment self
      (ln_namespace_id row) (ln_parent_namespace_id row) (ln_name_index row)
      (ln_lifecycle_state row) (ln_revision row) (ln_metadata_version row))) in
  prog_ret {| pn_namespace_id := ln_namespace_id row;
              pn_parent_namespace_id := ln_parent_namespace_id row;
              pn_name_index := ln_name_index row; pn_metadata_version := ln_metadata_version row;
              pn_metadata := metadata; pn_lifecycle_state := ln_lifecycle_state row;
              pn_revision := ln_revision row; pn_state_commitment := state_commitment;
              pn_created_at_unix_ms := ln_created_at_unix_ms row;
              pn_updated_at_unix_ms := ln_updated_at_unix_ms row |}.

(** The map from a version to its schedule; a later entry replaces an earlier. *)
Definition schedule_of (versions : list LogicalSecretVersion) (secret_id : SecretId) (version : Z)
  : option SecretSchedule :=
  lv_schedule <$> List.find (fun v => bool_decide (lv_secret_id v = secret_id)
                                      && (lv_version v =? version)) (rev versions).

Definition transform_secret (versions : list LogicalSecretVersion) (row : LogicalSecret)
  : Restoring PortableSecret :=
  do! metadata := encrypt_b64 (ls_metadata row) OSecretMetadata OWrappedMetadataKey
      (ls_secret_id row) (ls_metadata_version row) in
  do! schedule := prog_lift (ok_or BIntegrity
      (schedule_of versions (ls_secret_id row) (ls_current_version row))) in
  do! state_commitment := prog_lift (map_err BVault (secret_state_commitment self
      (ls_secret_id row) (ls_namespace_id row) (ls_name_index row) (ls_lifecycle_state row)
      (ls_current_version row) (ls_revision row) (ls_metadata_version row) schedule)) in
  prog_ret {| ps_secret_id := ls_secret_id row; ps_namespace_id := ls_namespace_id row;
              ps_name_index := ls_name_index row; ps_metadata_version := ls_metadata_version row;
              ps_metadata := metadata; ps_lifecycle_state := ls_lifecycle_state row;
              ps_current_version := ls_current_version row; ps_revision := ls_revision row;
              ps_state_commitment := state_commitment;
              ps_created_at_unix_ms := ls_created_at_unix_ms row;
              ps_updated_at_unix_ms := ls_updated_at_unix_ms row;
              ps_deleted_at_unix_ms := ls_deleted_at_unix_ms row |}.

Definition transform_version (row : LogicalSecretVersion) : Restoring PortableSecretVersion :=
  do! payload := encrypt_b64 (lv_payload row) OSecretVersion OWrappedDataKey (lv_secret_id row)
      (lv_version row) in
  prog_ret {| pv_secret_id := lv_secret_id row; pv_version := lv_version row; pv_payload := payload;
              pv_schedule := lv_schedule row;
              pv_created_by_principal_id := lv_created_by_principal_id row;
              pv_created_at_unix_ms := lv_created_at_unix_ms row |}.

Definition transform_principal (row : LogicalPrincipal) : result BackupError PortablePrincipal :=
  let? kind := restored_principal_kind (lp_kind row) in
  Ok {| pp_principal_id := lp_principal_id row; pp_kind := kind; pp_state := lp_state row;
        pp_revision := lp_revision row; pp_state_commitment := lp_state_commitment row;
        pp_created_at_unix_ms := lp_created_at_unix_ms row;
        pp_updated_at_unix_ms := lp_updated_at_unix_ms row |}.

(** A passkey is bound to the origin of its source and is revoked. *)
Definition transform_authenticator (now : Z) (row : LogicalAuthenticator)
  : result BackupError (PortableAuthenticator * bool) :=
  let? kind := restored_authenticator_kind (la_kind row) in
  let? _ := match kind with
            | Password | IdentityStore.Recovery =>
                let? phc := ok_or BIntegrity (la_password_phc row) in
                integrity (validate_password_phc phc)
            | Passkey => Ok tt
            end in
  let restored state revoked_at commitment :=
    {| pa_authenticator_id := la_authenticator_id row; pa_principal_id := la_principal_id row;
       pa_kind := kind; pa_credential_lookup := la_credential_lookup row;
       pa_credential_data := la_credential_data row; pa_password_phc := la_password_phc row;
       pa_state := state; pa_created_at_unix_ms := la_created_at_unix_ms row;
       pa_last_used_at_unix_ms := la_last_used_at_unix_ms row;
       pa_revoked_at_unix_ms := revoked_at; pa_state_commitment := commitment |} in
  match kind with
  | Passkey =>
      if String.eqb (la_state row) "active" then
        let? commitment := integrity (authenticator_commitment self (la_authenticator_id row)
            (la_principal_id row) kind (la_credential_lookup row) (la_credential_data row)
            (la_password_phc row) "revoked" (la_created_at_unix_ms row)
            (la_last_used_at_unix_ms row) (Some now)) in
        Ok (restored "revoked" (Some now) commitment, true)
      else Ok (restored (la_state row) (la_revoked_at_unix_ms row) (la_state_commitment row), false)
  | _ => Ok (restored (la_state row) (la_revoked_at_unix_ms row) (la_state_commitment row), false)
  end.

Definition transform_service (row : LogicalServiceIdentity) : Restoring PortableServiceIdentity :=
  do! metadata := encrypt_b64 (lsi_metadata row) OServiceIdentityMetadata
      OWrappedServiceIdentityMetadataKey (lsi_principal_id row) (lsi_metadata_version row) in
  prog_ret {| psi_principal_id := lsi_principal_id row;
              psi_metadata_version := lsi_metadata_version row; psi_metadata := metadata |}.

Definition transform_credential (mode : CredentialRestoreMode) (now : Z)
    (row : LogicalApplicationCredential) : result BackupError (PortableApplicationCredential * bool) :=
  let restored revoked_at revision commitment :=
    {| pac_credential_id := lac_credential_id row; pac_principal_id := lac_principal_id row;
       pac_lookup_id := lac_lookup_id row; pac_verifier := lac_verifier row;
       pac_created_at_unix_ms := lac_created_at_unix_ms row;
       pac_expires_at_unix_ms := lac_expires_at_unix_ms row;
       pac_last_used_at_unix_ms := lac_last_used_at_unix_ms row;
       pac_revoked_at_unix_ms := revoked_at; pac_revision := revision;
       pac_state_commitment := commitment |} in
  match mode, lac_revoked_at_unix_ms row with
  | Revoke, None =>
      let? revision := ok_or BIntegrity (checked_add u64_max (lac_revision row) 1) in
      let? commitment := integrity (application_credential_commitment self (lac_credential_id row)
          (lac_principal_id row) (lac_lookup_id row) (lac_verifier row)
          (lac_created_at_unix_ms row) (lac_expires_at_unix_ms row)
          (lac_last_used_at_unix_ms row) (Some now) revision) in
      Ok (restored (Some now) revision commitment, true)
  | _, _ => Ok (restored (lac_revoked_at_unix_ms row) (lac_revision row) (lac_state_commitment row), false)
  end.

Definition transform_policy (row : LogicalPolicy) : Restoring PortablePolicy :=
  do! metadata := encrypt_b64 (lpo_metadata row) OPolicyMetadata OWrappedPolicyMetadataKey
      (lpo_policy_id row) (lpo_metadata_version row) in
  do! state_commitment := prog_lift (integrity (policy_commitment self (lpo_policy_id row)
      (lpo_revision row) (lpo_state row) (lpo_metadata_version row) metadata
      (lpo_created_at_unix_ms row) (lpo_updated_at_unix_ms row))) in
  prog_ret {| ppo_policy_id := lpo_policy_id row; ppo_revision := lpo_revision row;
              ppo_state := lpo_state row; ppo_metadata_version := lpo_metadata_version row;
              ppo_metadata := metadata; ppo_state_commitment := state_commitment;
              ppo_created_at_unix_ms := lpo_created_at_unix_ms row;
              ppo_updated_at_unix_ms := lpo_updated_at_unix_ms row |}.

(** The counters of changed rows; more rows than a [u64] counts do not fit in memory. *)
Definition changed {A} (l : list (A * bool)) : Z := zlen (List.filter snd l).

(** [transform_logical_snapshot] *)
Definition transform_logical_snapshot (decoded : DecodedLogical) (verified : VerifiedArchive)
    (mode : CredentialRestoreMode) (now : Z) : Restoring (PortableSnapshot * Z * Z) :=
  do! namespaces := prog_mapM transform_namespace (dl_namespaces decoded) in
  do! secrets := prog_mapM (transform_secret (dl_secret_versions decoded)) (dl_secrets decoded) in
  do! secret_versions := prog_mapM transform_version (dl_secret_versions decoded) in
  do! principals := prog_lift (result_mapM transform_principal (dl_principals decoded)) in
  do! authenticators := prog_lift
      (result_mapM (transform_authenticator now) (dl_authenticators decoded)) in
  do! service_identities := prog_mapM transform_service (dl_service_identities decoded) in
  do! credentials := prog_lift
      (result_mapM (transform_credential mode now) (dl_application_credentials decoded)) in
  do! authorization := prog_lift (ok_or BIntegrity (dl_authorization_state decoded)) in
  do! policies := prog_mapM transform_policy (dl_policies decoded) in
  let grants := restored_grant <$> dl_grants decoded in
  let bindings := restored_binding <$> dl_bindings decoded in
  do! commitment := prog_lift (integrity (portable_authorization_commitment policies grants bindings
      (las_revision authorization))) in
  let metadata := va_metadata verified in
  prog_ret ({| snp_vault_id := am_logical_vault_id metadata;
               snp_source_installation_id := am_source_installation_id metadata;
               snp_source_recovery_epoch := am_source_recovery_epoch metadata;
               snp_security_semantics_version := am_security_semantics_version metadata;
               snp_namespaces := namespaces; snp_secrets := secrets;
               snp_secret_versions := secret_versions;
               snp_tombstones := restored_tombstone <$> dl_tombstones decoded;
               snp_principals := principals; snp_authenticators := fst <$> authenticators;
               snp_service_identities := service_identities;
               snp_application_credentials := fst <$> credentials;
               snp_authorization_state := {| as_revision := las_revision authorization;
                                             as_state_commitment := commitment |};
               snp_policies := policies; snp_grants := grants; snp_bindings := bindings;
               snp_audit_records := restored_audit <$> dl_audit decoded |},
            changed credentials, changed authenticators).

(** ** Verification of the destination *)

(** [self.store.op(..)?] *)
Definition bk_call {A} (m : Store A) : Restoring A := call_raw m (map_err BStorage).
Definition bk_ask {A} (f : Db -> result StorageError A) : Restoring A := bk_call (prog_read f).
Definition bk_check (m : result BackupError unit) : Restoring unit := prog_lift m.

(** A loop of checks. *)
Definition bk_for {A} (l : list A) (f : A -> Restoring unit) : Restoring unit :=
  do! _ := prog_mapM f l in prog_ret tt.

(** The map of principals to kinds; a later entry replaces an earlier. *)
Definition kind_of (principals : list PortablePrincipal) (id : PrincipalId) : option PrincipalKind :=
  pp_kind <$> List.find (fun p => bool_decide (pp_principal_id p = id)) (rev principals).

Definition has_kind (principals : list PortablePrincipal) (id : PrincipalId) (kind : PrincipalKind) : bool :=
  bool_decide (kind_of principals id = Some kind).

(** [BTreeSet::len] of the collected elements. *)
Definition set_len {A} `{EqDecision A} (l : list A) : Z := zlen (remove_dups l).

(** The versions of a secret: their number and then each of them. *)
Definition versions_complete (versions : list PortableSecretVersion) (s : PortableSecret) : bool :=
  let actual := pv_version <$> List.filter (fun v => bool_decide (pv_secret_id v = ps_secret_id s)) versions in
  if negb (set_len actual =? ps_current_version s) then false
  else forallb (fun v => bool_decide (v ∈ actual)) (seqZ 1 (ps_current_version s)).

(** The chain of a namespace ends at a root within the depth of the tree. *)
Definition verify_ancestors (n : PortableNamespace) : Restoring unit :=
  do! above := bk_ask (fun d => namespace_ancestors_inclusive d (pn_namespace_id n)) in
  do! root := prog_lift (ok_or BIntegrity (last above)) in
  do! _ := prog_reject (33 <? zlen above) BIntegrity in
  do! _ := prog_reject (negb (zlen above =? set_len above)) BIntegrity in
  do! durable := bk_ask (fun d => namespace d root) in
  prog_reject (bool_decide (is_Some (nr_parent_namespace_id durable))) BIntegrity.

Definition grant_target_exists (snapshot : PortableSnapshot) (g : PolicyGrantRecord) : bool :=
  match pg_resource_kind g with
  | KNamespace => bool_decide (pg_resource_id g ∈ pn_namespace_id <$> snp_namespaces snapshot)
  | KSecret => bool_decide (pg_resource_id g ∈ ps_secret_id <$> snp_secrets snapshot)
  end.

(** The checks of [verify_restored_relationships] that read only the snapshot,
    before and after those of the namespaces. *)
Definition unique_identities (s : PortableSnapshot) : bool :=
  (set_len (pn_namespace_id <$> snp_namespaces s) =? zlen (snp_namespaces s))
  && (set_len (ps_secret_id <$> snp_secrets s) =? zlen (snp_secrets s))
  && (set_len (pp_principal_id <$> snp_principals s) =? zlen (snp_principals s)).

Definition related_records (s : PortableSnapshot) : bool :=
  let secret_ids := ps_secret_id <$> snp_secrets s in
  let kind := has_kind (snp_principals s) in
  forallb (versions_complete (snp_secret_versions s)) (snp_secrets s)
  && forallb (fun v => bool_decide (pv_secret_id v ∈ secret_ids)) (snp_secret_versions s)
  && negb (existsb (fun t => bool_decide (pt_secret_id t ∈ secret_ids)) (snp_tombstones s))
  && forallb (fun a => kind (pa_principal_id a) Owner) (snp_authenticators s)
  && forallb (fun i => kind (psi_principal_id i) Service) (snp_service_identities s)
  && forallb (fun c => kind (pac_principal_id c) Service) (snp_application_credentials s)
  && forallb (fun g => grant_target_exists s g && kind (pg_created_by_principal_id g) Owner)
       (snp_grants s)
  && forallb (fun b => kind (pb_principal_id b) Service && kind (pb_created_by_principal_id b) Owner)
       (snp_bindings s).

(** [verify_restored_relationships] *)
Definition verify_restored_relationships (snapshot : PortableSnapshot) : Restoring unit :=
  do! _ := prog_reject (negb (unique_identities snapshot)) BIntegrity in
  do! _ := bk_for (snp_namespaces snapshot) verify_ancestors in
  prog_reject (negb (related_records snapshot)) BIntegrity.

Definition bk_decrypt (e : EncryptedRecord) (object_kind wrapped_kind : ObjectKind)
    (object_id : ObjectId) (version : Z) : Restoring unit :=
  do! _ := prog_map_err BVault (decrypt_with self e object_kind wrapped_kind object_id version) in
  prog_ret tt.

Definition verify_restored_namespace (n : PortableNamespace) : Restoring unit :=
  do! durable := bk_ask (fun d => namespace d (pn_namespace_id n)) in
  do! _ := prog_lift (map_err BVault (verify_namespace_state self durable)) in
  bk_decrypt (nr_metadata durable) ONamespaceMetadata OWrappedNamespaceMetadataKey
    (pn_namespace_id n) (pn_metadata_version n).

Definition verify_restored_secret (s : PortableSecret) : Restoring unit :=
  do! durable := bk_ask (fun d => secret d (ps_secret_id s)) in
  do! _ := prog_lift (map_err BVault (verify_secret_state self durable)) in
  bk_decrypt (sr_metadata durable) OSecretMetadata OWrappedMetadataKey (ps_secret_id s)
    (ps_metadata_version s).

Definition verify_restored_authenticator (a : PortableAuthenticator) : result BackupError unit :=
  let? expected := integrity (authenticator_commitment self (pa_authenticator_id a)
      (pa_principal_id a) (pa_kind a) (pa_credential_lookup a) (pa_credential_data a)
      (pa_password_phc a) (pa_state a) (pa_created_at_unix_ms a) (pa_last_used_at_unix_ms a)
      (pa_revoked_at_unix_ms a)) in
  if negb (bool_decide (expected = pa_state_commitment a)) then Err BIntegrity else Ok tt.

Definition empty_initial_authorization (s : PortableSnapshot) : bool :=
  Nat.eqb (length (snp_policies s)) 0 && Nat.eqb (length (snp_grants s)) 0
  && Nat.eqb (length (snp_bindings s)) 0
  && (as_revision (snp_authorization_state s) =? 1)
  && bool_decide (as_state_commitment (snp_authorization_state s) = zeros 32).

(** [verify_restored_snapshot]; [quick_check] is what PRAGMA quick_check reports
    of the database file. *)
Definition verify_restored_snapshot (quick_check : result StorageError bool)
    (snapshot : PortableSnapshot) : Restoring unit :=
  do! intact := bk_call (fun d => (quick_check, d)) in
  do! _ := prog_reject (negb intact) BIntegrity in
  do! _ := verify_restored_relationships snapshot in
  do! _ := bk_for (snp_namespaces snapshot) verify_restored_namespace in
  do! _ := bk_for (snp_secrets snapshot) verify_restored_secret in
  do! _ := bk_for (snp_secret_versions snapshot) (fun v =>
    bk_decrypt (pv_payload v) OSecretVersion OWrappedDataKey (pv_secret_id v) (pv_version v)) in
  do! _ := bk_for (snp_principals snapshot) (fun p =>
    do! durable := bk_ask (fun d => principal d (pp_principal_id p)) in
    prog_lift (integrity (verify_principal_commitment self durable))) in
  do! _ := bk_for (snp_authenticators snapshot) (fun a =>
    prog_lift (verify_restored_authenticator a)) in
  do! _ := bk_for (snp_application_credentials snapshot) (fun c =>
    do! durable := bk_ask (fun d => application_credential d (pac_credential_id c)) in
    prog_lift (integrity (verify_application_credential_commitment self durable))) in
  do! _ := (if empty_initial_authorization snapshot then prog_ret tt
            else do! _ := prog_map_err (fun _ => BIntegrity) (verified_authorization_snapshot self) in
                 prog_ret tt) in
  do! _ := prog_map_err BVault (verify_audit_chain self) in
  prog_ret tt.
End Restored.

(** ** Restoring *)

Context {AF : ArchiveFormats}.

(** A file named by a caller: whether it opens without following a link, is a
    regular file, its bytes, and how reads of it are cut. *)
Record SourceFile : Type := {
  so_opens : bool;
  so_is_file : bool;
  so_bytes : blob;
  so_script : list read_event }.

(** [open_safe_source] *)
Definition open_safe_source (source : SourceFile) : result BackupError Reader :=
  if negb (so_opens source) then Err BIo
  else if negb (so_is_file source) || (zlen (so_bytes source) =? 0)
          || (MAX_PORTABLE_FILE_BYTES <? zlen (so_bytes source)) then Err BInvalidInput
  else Ok {| rd_bytes := so_bytes source; rd_script := so_script source |}.

(** [inspect_backup_file]: one [read] of at most [MAX_HEADER_BYTES]. *)
Definition inspect_backup_file (source : SourceFile) : result BackupError PublicHeader :=
  let? r := open_safe_source source in
  let? header := map_err (fun _ => BIo) (fst (io_read (Z.to_nat MAX_HEADER_BYTES) r)) in
  map_err (fun e => BArchive (AHeader e)) (parse_public_header header (zlen (so_bytes source))).

(** [verify_backup_file] *)
Definition verify_backup_file (source : SourceFile) (key : ArchiveKey)
  : result BackupError VerifiedArchive :=
  let? r := open_safe_source source in
  map_err BArchive (fst (verify_archive (zlen (so_bytes source)) key r)).

(** The consumer of a restore: the canonical stream, bounded. *)
Definition canonical_chunk (chunk : blob) : Prog blob ArchiveError unit := fun canonical =>
  match checked_add u64_max (zlen canonical) (zlen chunk) with
  | None => (Err AInvalidBound, canonical)
  | Some next =>
      if MAX_LOGICAL_STREAM_BYTES <? next then (Err AInvalidBound, canonical)
      else (Ok tt, canonical ++ chunk)
  end.

(** What the surroundings of a restore decide: whether a file can be removed,
    and what PRAGMA quick_check reports. *)
Record RestoreEnv : Type := {
  re_database_removable : bool;
  re_root_removable : bool;
  re_quick_check : result StorageError bool }.

Abbreviation Restore A := (Prog Host BackupError A).

(** Code of the vault opened at the destination. *)
Definition with_vault {A} (o : Opened) (m : Prog World BackupError A) : Restore A :=
  fun h => let (r, w) := m (in_use o h) in (r, closed w h).

(** The body of [restore_backup_file] after the guard was made. *)
Definition restore_body (env : RestoreEnv) (source : SourceFile) (key : ArchiveKey)
    (mode : CredentialRestoreMode) (now : Z) : Restore RestoreReport :=
  do! r := prog_lift (open_safe_source source) in
  let (outcome, read) := decode_archive canonical_chunk (zlen (so_bytes source)) key (r, []) in
  let canonical := snd read in
  do! verified := prog_lift (map_err BArchive outcome) in
  let metadata := va_metadata verified in
  do! _ := prog_reject (negb (am_source_schema_version metadata =? SCHEMA_VERSION)
                        || negb (am_security_semantics_version metadata =? SECURITY_SEMANTICS_VERSION))
             BIntegrity in
  do! decoded := prog_lift (decode_logical_stream canonical (va_record_count verified)) in
  do! logical_keys := prog_lift (ok_or BIntegrity (dl_keys decoded)) in
  do! keys := prog_lift (decode_vault_keys logical_keys) in
  do! destination_epoch := prog_lift (ok_or BIntegrity
      (checked_add u64_max (am_source_recovery_epoch metadata) 1)) in
  do! o := prog_map_err (fun _ => BInvalidInput)
      (initialize_restore_staging (am_logical_vault_id metadata) keys now) in
  let self := op_vault o in
  do! (snapshot, revoked, disabled) := with_vault o (
    do! (snapshot, revoked, disabled) := transform_logical_snapshot self decoded verified mode now in
    do! _ := bk_call (import_portable_snapshot snapshot destination_epoch) in
    do! request_id := prog_map_err BVault random_id in
    do! audit := prog_map_err BVault (build_audit self "backup:restore" "vault"
        (Some (iv_vault_id self))
        {| oc_request_id := request_id; oc_actor_principal_id := None; oc_credential_kind := None;
           oc_credential_id := None; oc_now_unix_ms := now |}) in
    do! _ := bk_call (append_audit audit) in
    do! _ := verify_restored_snapshot self (re_quick_check env) snapshot in
    prog_ret (snapshot, revoked, disabled)) in
  do! _ := prog_map_err (fun _ => BIntegrity)
      (verify_restore_staging_reopen (iv_vault_id self) (iv_installation_id self)) in
  do! _ := with_vault o (bk_call (activate_restored_initialization 1)) in
  prog_ret {| rr_archive_id := ph_archive_id (va_header verified); rr_vault_id := iv_vault_id self;
              rr_installation_id := iv_installation_id self;
              rr_recovery_epoch := destination_epoch;
              rr_imported_records := va_record_count verified;
              rr_imported_audit_events := zlen (snp_audit_records snapshot);
              rr_revoked_application_credentials := revoked;
              rr_disabled_source_bound_authenticators := disabled |}.

(** [Drop for RestoreDestinationCleanup] *)
Definition remove_destination (env : RestoreEnv) (h : Host) : Host :=
  {| h_database := if re_database_removable env then None else h_database h;
     h_root_file := if re_root_removable env then None else h_root_file h;
     h_database_at := h_database_at h; h_root_at := h_root_at h; h_draws := h_draws h |}.

(** [restore_backup_file] *)
Definition restore_backup_file (env : RestoreEnv) (source : SourceFile) (key : ArchiveKey)
    (mode : CredentialRestoreMode) (now : Z) : Restore RestoreReport := fun h =>
  if (now <? 0) || match h_database h with Some _ => true | None => false end
     || bool_decide (is_Some (h_root_file h)) then (Err BInvalidInput, h)
  else
    match restore_body env source key mode now h with
    | (Ok report, h') => (Ok report, h')
    | (Err e, h') => (Err e, remove_destination env h')
    end.

(** ** Creating *)

(** The destination path: its extension and directory. *)
Record BackupPath : Type := {
  bp_path : string;
  bp_extension : option string;
  bp_at : location }.

(** The vault, the file at the destination, the temporary file of this
    creation, and the file system: the outcomes of the next operations (none
    left: success), how much it can store, how reads are cut, and whether a
    file can be removed. *)
Record Publishing : Type := {
  pu_world : World;
  pu_destination : option blob;
  pu_temporary : option blob;
  pu_outcomes : list bool;
  pu_room : option nat;
  pu_flushes : bool;
  pu_reads : list read_event;
  pu_removable : bool }.

Definition set_pu_world (w : World) (p : Publishing) : Publishing :=
  {| pu_world := w; pu_destination := pu_destination p; pu_temporary := pu_temporary p;
     pu_outcomes := pu_outcomes p; pu_room := pu_room p; pu_flushes := pu_flushes p;
     pu_reads := pu_reads p; pu_removable := pu_removable p |}.
Definition set_pu_files (destination temporary : option blob) (p : Publishing) : Publishing :=
  {| pu_world := pu_world p; pu_destination := destination; pu_temporary := temporary;
     pu_outcomes := pu_outcomes p; pu_room := pu_room p; pu_flushes := pu_flushes p;
     pu_reads := pu_reads p; pu_removable := pu_removable p |}.
Definition set_pu_outcomes (l : list bool) (p : Publishing) : Publishing :=
  {| pu_world := pu_world p; pu_destination := pu_destination p; pu_temporary := pu_temporary p;
     pu_outcomes := l; pu_room := pu_room p; pu_flushes := pu_flushes p; pu_reads := pu_reads p;
     pu_removable := pu_removable p |}.

Abbreviation Publish A := (Prog Publishing BackupError A).

(** A file operation, which can fail. *)
Definition io_operation : Publish unit := fun p =>
  match pu_outcomes p with
  | [] => (Ok tt, p)
  | ok :: l => ((if ok : bool then Ok tt else Err BIo), set_pu_outcomes l p)
  end.

Definition in_world {E A} (f : E -> BackupError) (m : Prog World E A) : Publish A := fun p =>
  let (r, w) := m (pu_world p) in (map_err f r, set_pu_world w p).

(** [remove_file_and_sync_parent_best_effort] *)
Definition remove_temporary (p : Publishing) : Publishing :=
  if pu_removable p then set_pu_files (pu_destination p) None p else p.
(** [Drop for PublishedBackupCleanup] *)
Definition remove_published (p : Publishing) : Publishing :=
  if pu_removable p then set_pu_files None (pu_temporary p) p else p.

(** [if let Err(error) = .. { cleanup; return Err(error) }] *)
Definition or_cleanup {A} (m : Publish A) (cleanup : Publishing -> Publishing) : Publish A := fun p =>
  match m p with (Ok a, p') => (Ok a, p') | (Err e, p') => (Err e, cleanup p') end.

(** [write_and_verify_backup] *)
Definition write_and_verify_backup (self : InitializedVault) (key : ArchiveKey) (now : Z)
  : Publish VerifiedArchive :=
  do! snapshot := in_world (fun e => e) (bk_ask portable_snapshot) in
  do! logical := in_world (fun e => e)
      (prog_read (fun w => encode_logical_snapshot self (w_ring w) snapshot)) in
  let metadata :=
    {| am_logical_vault_id := snp_vault_id snapshot;
       am_source_installation_id := snp_source_installation_id snapshot;
       am_source_recovery_epoch := snp_source_recovery_epoch snapshot;
       am_source_schema_version := SCHEMA_VERSION;
       am_security_semantics_version := snp_security_semantics_version snapshot;
       am_created_at_unix_ms := now |} in
  do! _ := io_operation (* create the temporary file *) in
  do! _ := (fun p =>
    let (r, s) := write_archive key metadata default_archive_options
      {| wg_source := {| rd_bytes := logical; rd_script := [] |};
         wg_destination := {| wr_bytes := []; wr_room := pu_room p; wr_flushes := pu_flushes p |};
         wg_draws := w_draws (pu_world p) |} in
    (map_err BArchive r,
     set_pu_files (pu_destination p) (Some (wr_bytes (wg_destination s)))
       (set_pu_world (set_w_draws (wg_draws s) (pu_world p)) p))) in
  do! _ := io_operation (* sync_all *) in
  do! _ := io_operation (* reopen *) in
  do! _ := io_operation (* metadata *) in
  prog_read (fun p =>
    let bytes := default [] (pu_temporary p) in
    map_err BArchive (fst (verify_archive (zlen bytes) key
      {| rd_bytes := bytes; rd_script := pu_reads p |}))).

(** [fs::hard_link], which refuses an existing destination. *)
Definition publish : Publish unit := fun p =>
  match io_operation p with
  | (Ok _, p') =>
      match pu_destination p' with
      | Some _ => (Err BIo, p')
      | None => (Ok tt, set_pu_files (pu_temporary p') (pu_temporary p') p')
      end
  | (Err e, p') => (Err e, p')
  end.

(** [fs::remove_file] of the temporary file. *)
Definition discard_temporary : Publish unit := fun p =>
  match io_operation p with
  | (Ok _, p') => (Ok tt, set_pu_files (pu_destination p') None p')
  | (Err e, p') => (Err e, p')
  end.

(** [create_backup_file] *)
Definition create_backup_file (self : InitializedVault) (path : BackupPath) (key : ArchiveKey)
    (now : Z) : Publish BackupFileReport :=
  do! _ := prog_reject ((now <? 0) || negb (bool_decide (bp_extension path = Some "smcvault")))
             BInvalidInput in
  do! _ := prog_lift (map_err (fun _ => BInvalidInput) (prepare_parent (bp_at path))) in
  do! _ := prog_read (fun p => match pu_destination p with Some _ => Err BInvalidInput | None => Ok tt end) in
  do! _ := prog_lift (ok_or BInvalidInput (loc_parent (bp_at path))) in
  do! _ := in_world BVault random_id (* the name of the temporary file *) in
  do! verified := or_cleanup (write_and_verify_backup self key now) remove_temporary in
  do! _ := or_cleanup io_operation (* metadata *) remove_temporary in
  do! archive_bytes := prog_read (fun p => Ok (zlen (default [] (pu_temporary p)))) in
  do! audit := or_cleanup (
    do! request_id := in_world BVault random_id in
    in_world BVault (build_audit self "backup:create" "archive" (Some (ph_archive_id (va_header verified)))
      {| oc_request_id := request_id; oc_actor_principal_id := None; oc_credential_kind := None;
         oc_credential_id := None; oc_now_unix_ms := now |})) remove_temporary in
  do! _ := or_cleanup (in_world (fun e => e) (bk_call (append_audit audit))) remove_temporary in
  do! _ := or_cleanup publish remove_temporary in
  or_cleanup (
    do! _ := or_cleanup discard_temporary remove_temporary in
    do! _ := io_operation (* open the directory *) in
    do! _ := io_operation (* sync it *) in
    prog_ret {| bf_archive_id := ph_archive_id (va_header verified);
                bf_archive_bytes := archive_bytes; bf_record_count := va_record_count verified;
                bf_logical_bytes := va_logical_bytes verified;
                bf_destination := bp_path path |}) remove_published.
End Backup.
