(* ===== verification/LogicalProps.v ===== *)
(** The logical stream: what [encode_logical_snapshot] writes is a sequence of
    well-formed records, and [decode_logical_stream] reads back what was put in. *)
From Stdlib Require Import ZArith Lia Strings.Byte String.
From stdpp Require Import base tactics numbers option strings list gmap.
From S2P Require Import Prelude RustStd Core Crypto Schema Records PolicyStore IdentityStore Metadata VaultCore Initialization Archive ArchiveProps Portable Logical.

(** ** Records of a stream *)

Definition critical (kind : Z) (payload : blob) : LogicalRecord :=
  {| lr_kind := kind; lr_flags := RECORD_FLAG_CRITICAL; lr_payload := payload |}.

Definition frame_ok (r : LogicalRecord) : Prop :=
  in_u16 (lr_kind r) /\ lr_flags r = RECORD_FLAG_CRITICAL /\ zlen (lr_payload r) <= u32_max.

Lemma encode_records_app rs rs' : encode_records (rs ++ rs') = encode_records rs ++ encode_records rs'.
Proof. unfold encode_records. by rewrite map_app, concat_app. Qed.

Lemma encode_records_one r : encode_records [r] = encode_record r.
Proof. apply app_nil_r. Qed.

Lemma length_encode_record r : (8 <= length (encode_record r))%nat.
Proof. unfold encode_record. rewrite !length_app, !length_u16_be, length_u32_be. lia. Qed.

Lemma zlen_encode_records rs : 8 * zlen rs <= zlen (encode_records rs).
Proof.
  induction rs as [|r rs IH]; [done|]. unfold encode_records in *. cbn [map concat].
  rewrite zlen_app. pose proof (length_encode_record r). unfold zlen in *. cbn [length]. lia.
Qed.

Section Stream.
Context {CR : Crypto} {LJ : LogicalJson}.

(** Decoding record by record. *)
Fixpoint decode_frames (rs : list LogicalRecord) (d : DecodedLogical) : result BackupError DecodedLogical :=
  match rs with
  | [] => Ok d
  | r :: rs' =>
      let? d := decode_record (lr_kind r) (lr_payload r) d in
      let? records := ok_or BIntegrity (checked_add u64_max (dl_records d) 1) in
      decode_frames rs' (set_dl_records records d)
  end.

Lemma decode_frames_app rs rs' d :
  decode_frames (rs ++ rs') d = let? d := decode_frames rs d in decode_frames rs' d.
Proof.
  revert d. induction rs as [|r rs IH]; intros d; [done|]. cbn [app decode_frames].
  destruct (decode_record _ _ d) as [d1|]; [cbn [result_bind]|done].
  destruct (checked_add _ _ _); [apply IH|done].
Qed.

(** The header of a frame reads as written. *)
Lemma decode_frame_header r rest :
  frame_ok r ->
  slice (encode_record r ++ rest) 0 8 = Some (record_header r)
  /\ be_decode (take 2 (record_header r)) = lr_kind r
  /\ be_decode (take 2 (drop 2 (record_header r))) = RECORD_FLAG_CRITICAL
  /\ Z.to_nat (be_decode (drop 4 (record_header r))) = length (lr_payload r)
  /\ slice (encode_record r ++ rest) 8 (length (lr_payload r)) = Some (lr_payload r)
  /\ drop (8 + length (lr_payload r)) (encode_record r ++ rest) = rest.
Proof.
  intros (Hk & Hf & Hl). assert (length (record_header r) = 8%nat) as H8.
  { unfold record_header. by rewrite !length_app, !length_u16_be, length_u32_be. }
  replace (encode_record r ++ rest) with (record_header r ++ lr_payload r ++ rest)
    by (unfold encode_record, record_header; by rewrite <- !app_assoc).
  split; [by apply slice_app_l|]. unfold record_header at 1 2 3.
  rewrite take_app_length' by (by rewrite length_u16_be). unfold u16_be at 1.
  rewrite be_decode_encode by (unfold in_u16, u16_max in *; change (256 ^ Z.of_nat 2) with 65536; lia).
  split; [done|]. rewrite drop_app_length' by (by rewrite length_u16_be).
  rewrite take_app_length' by (by rewrite length_u16_be). rewrite Hf. unfold u16_be at 1.
  rewrite be_decode_encode by (unfold RECORD_FLAG_CRITICAL; change (256 ^ Z.of_nat 2) with 65536; lia).
  split; [done|]. split; [|split].
  - rewrite app_assoc, drop_app_length' by (by rewrite length_app, !length_u16_be).
    unfold u32_be. pose proof (zlen_nonneg (lr_payload r)).
    rewrite be_decode_encode by (change (256 ^ Z.of_nat 4) with (u32_max + 1); lia). unfold zlen. lia.
  - rewrite slice_app_r by lia. rewrite H8. by apply slice_app_l.
  - rewrite app_assoc, drop_app_length'; [done|]. rewrite length_app. lia.
Qed.

Lemma decode_stream_frames rs fuel d :
  Forall frame_ok rs -> (length (encode_records rs) <= fuel)%nat ->
  decode_stream_loop fuel (encode_records rs) d = decode_frames rs d.
Proof.
  intros HF. revert fuel d. induction HF as [|r rs Hr HF IH]; intros fuel d Hfuel.
  { by destruct fuel. }
  change (encode_records (r :: rs)) with (encode_record r ++ encode_records rs) in *.
  rewrite length_app in Hfuel. pose proof (length_encode_record r).
  destruct (decode_frame_header r (encode_records rs) Hr) as (E1 & E2 & E3 & E4 & E5 & E6).
  destruct fuel as [|fuel]; [lia|]. cbn [decode_stream_loop].
  destruct (encode_record r ++ encode_records rs) as [|x l] eqn:E.
  { apply (f_equal length) in E. rewrite length_app in E. simpl in E. lia. }
  rewrite E1. cbn [ok_or result_bind]. rewrite E2, E3, E4. change (negb (RECORD_FLAG_CRITICAL =? RECORD_FLAG_CRITICAL)) with false.
  cbv iota. rewrite E5. cbn [ok_or result_bind decode_frames]. rewrite E6.
  destruct (decode_record _ _ d) as [d1|]; [cbn [result_bind]|done].
  destruct (checked_add _ _ _); [cbn [ok_or result_bind]|done]. apply IH. lia.
Qed.

(** ** What was written *)

(** [rs] are the records of the values [xs]. *)
Definition written {T} (c : codec T) (kind : Z) (xs : list T) (rs : list LogicalRecord) : Prop :=
  Forall2 (fun x r => exists p, to_vec c x = Some p /\ r = critical kind p) xs rs.

Lemma append_record_Ok {T} (c : codec T) kind x out out' :
  append_record c kind x out = Ok out' ->
  exists p, to_vec c x = Some p /\ zlen p <= u32_max /\ zlen out' <= MAX_LOGICAL_STREAM_BYTES
            /\ out' = out ++ encode_record (critical kind p).
Proof.
  unfold append_record. intros H. minv.
  destruct (Z.ltb_spec MAX_LOGICAL_STREAM_BYTES x2) as [|E]; [done|]. simplify_eq.
  apply try_from_Some in H0 as [-> ?]. apply bind_Some in H1 as (n & H1 & H3).
  apply checked_add_Some in H1 as [-> _]. apply checked_add_Some in H3 as [-> _].
  eexists. split; [done|]. split; [lia|]. split; [|by unfold encode_record].
  unfold zlen in *. rewrite length_app. cbn [length]. lia.
Qed.

(** [y] is the value written for the row [x], through [P]. *)
Lemma append_rows_Ok {R T} (c : codec T) kind (f : R -> blob -> result BackupError blob) (P : R -> T -> Prop) rows out out' :
  (forall row out out', f row out = Ok out' -> exists x, P row x /\ append_record c kind x out = Ok out') ->
  in_u16 kind -> append_rows f rows out = Ok out' ->
  exists xs rs, Forall2 P rows xs /\ written c kind xs rs /\ Forall frame_ok rs
    /\ out' = out ++ encode_records rs
    /\ (zlen out <= MAX_LOGICAL_STREAM_BYTES -> zlen out' <= MAX_LOGICAL_STREAM_BYTES).
Proof.
  intros Hf Hk. revert out. induction rows as [|row rows IH]; intros out H; cbn [append_rows] in H.
  { simplify_eq. exists [], []. rewrite app_nil_r. by repeat constructor. }
  apply result_bind_Ok in H as (out1 & H1 & H). apply Hf in H1 as (x & Hx & H1).
  apply append_record_Ok in H1 as (p & Hp & Hlen & Hout & ->).
  destruct (IH _ H) as (xs & rs & HP & HW & HF & -> & Hb).
  exists (x :: xs), (critical kind p :: rs). split; [by constructor|]. split; [constructor; [by exists p|done]|].
  split; [by constructor; [split_and!|]|]. split; [by rewrite <- app_assoc|]. intros _. auto.
Qed.

Lemma append_one_Ok {T} (c : codec T) kind x out out' :
  in_u16 kind -> append_record c kind x out = Ok out' ->
  exists r, written c kind [x] [r] /\ frame_ok r /\ out' = out ++ encode_records [r]
            /\ zlen out' <= MAX_LOGICAL_STREAM_BYTES.
Proof.
  intros Hk H. apply append_record_Ok in H as (p & Hp & Hlen & Hout & ->). exists (critical kind p).
  rewrite encode_records_one. split; [by repeat constructor; exists p|]. by split_and!.
Qed.

Lemma written_length {T} (c : codec T) kind xs rs : written c kind xs rs -> zlen rs = zlen xs.
Proof. intros H. apply Forall2_length in H. unfold zlen. by rewrite H. Qed.

(** ** What is read *)

Context {LL : LogicalJsonLaws}.

(** The records of one kind go to one field. *)
Ltac decode_kind law :=
  intros HW; match goal with |- 0 <= dl_records ?d -> _ => revert d end;
  induction HW as [|x r xs rs (p & Hp & ->) HW IH]; intros d H0 Hn;
  [ cbn [decode_frames zlen length]; rewrite app_nil_r, Z.add_0_r; by destruct d
  | cbn [decode_frames critical lr_kind lr_payload]; unfold decode_record, parse_record; rewrite (law _ _ Hp);
    cbn -[u64_max checked_add decode_frames];
    rewrite (proj2 (checked_add_Some u64_max (dl_records d) 1 _)) by
      (split; [reflexivity|unfold zlen in Hn; cbn [length] in Hn; lia]);
    cbn [ok_or result_bind]; rewrite IH;
      [cbn; by rewrite <- ?app_assoc; f_equal; f_equal; unfold zlen; cbn [length]; lia
      |cbn; lia|cbn; unfold zlen in *; cbn [length] in Hn; lia] ].

Lemma decode_namespaces xs rs d :
  written json_namespaces RECORD_NAMESPACE xs rs -> 0 <= dl_records d -> dl_records d + zlen xs <= u64_max ->
  decode_frames rs d = Ok (MkDecoded
    (dl_keys d) (dl_namespaces d ++ xs) (dl_secrets d) (dl_secret_versions d)
    (dl_tombstones d) (dl_principals d) (dl_authenticators d)
    (dl_service_identities d) (dl_application_credentials d) (dl_authorization_state d)
    (dl_policies d) (dl_grants d) (dl_bindings d) (dl_audit d) (dl_records d + zlen xs)).
Proof. decode_kind law_namespaces. Qed.

Lemma decode_secrets xs rs d :
  written json_secrets RECORD_SECRET xs rs -> 0 <= dl_records d -> dl_records d + zlen xs <= u64_max ->
  decode_frames rs d = Ok (MkDecoded
    (dl_keys d) (dl_namespaces d) (dl_secrets d ++ xs) (dl_secret_versions d)
    (dl_tombstones d) (dl_principals d) (dl_authenticators d)
    (dl_service_identities d) (dl_application_credentials d) (dl_authorization_state d)
    (dl_policies d) (dl_grants d) (dl_bindings d) (dl_audit d) (dl_records d + zlen xs)).
Proof. decode_kind law_secrets. Qed.

Lemma decode_secret_versions xs rs d :
  written json_secret_versions RECORD_SECRET_VERSION xs rs -> 0 <= dl_records d -> dl_records d + zlen xs <= u64_max ->
  decode_frames rs d = Ok (MkDecoded
    (dl_keys d) (dl_namespaces d) (dl_secrets d) (dl_secret_versions d ++ xs)
    (dl_tombstones d) (dl_principals d) (dl_authenticators d)
    (dl_service_identities d) (dl_application_credentials d) (dl_authorization_state d)
    (dl_policies d) (dl_grants d) (dl_bindings d) (dl_audit d) (dl_records d + zlen xs)).
Proof. decode_kind law_secret_versions. Qed.

Lemma decode_tombstones xs rs d :
  written json_tombstones RECORD_TOMBSTONE xs rs -> 0 <= dl_records d -> dl_records d + zlen xs <= u64_max ->
  decode_frames rs d = Ok (MkDecoded
    (dl_keys d) (dl_namespaces d) (dl_secrets d) (dl_secret_versions d)
    (dl_tombstones d ++ xs) (dl_principals d) (dl_authenticators d)
    (dl_service_identities d) (dl_application_credentials d) (dl_authorization_state d)
    (dl_policies d) (dl_grants d) (dl_bindings d) (dl_audit d) (dl_records d + zlen xs)).
Proof. decode_kind law_tombstones. Qed.

Lemma decode_principals xs rs d :
  written json_principals RECORD_PRINCIPAL xs rs -> 0 <= dl_records d -> dl_records d + zlen xs <= u64_max ->
  decode_frames rs d = Ok (MkDecoded
    (dl_keys d) (dl_namespaces d) (dl_secrets d) (dl_secret_versions d)
    (dl_tombstones d) (dl_principals d ++ xs) (dl_authenticators d)
    (dl_service_identities d) (dl_application_credentials d) (dl_authorization_state d)
    (dl_policies d) (dl_grants d) (dl_bindings d) (dl_audit d) (dl_records d + zlen xs)).
Proof. decode_kind law_principals. Qed.

Lemma decode_authenticators xs rs d :
  written json_authenticators RECORD_AUTHENTICATOR xs rs -> 0 <= dl_records d -> dl_records d + zlen xs <= u64_max ->
  decode_frames rs d = Ok (MkDecoded
    (dl_keys d) (dl_namespaces d) (dl_secrets d) (dl_secret_versions d)
    (dl_tombstones d) (dl_principals d) (dl_authenticators d ++ xs)
    (dl_service_identities d) (dl_application_credentials d) (dl_authorization_state d)
    (dl_policies d) (dl_grants d) (dl_bindings d) (dl_audit d) (dl_records d + zlen xs)).
Proof. decode_kind law_authenticators. Qed.

Lemma decode_service_identities xs rs d :
  written json_service_identities RECORD_SERVICE_IDENTITY xs rs -> 0 <= dl_records d -> dl_records d + zlen xs <= u64_max ->
  decode_frames rs d = Ok (MkDecoded
    (dl_keys d) (dl_namespaces d) (dl_secrets d) (dl_secret_versions d)
    (dl_tombstones d) (dl_principals d) (dl_authenticators d)
    (dl_service_identities d ++ xs) (dl_application_credentials d) (dl_authorization_state d)
    (dl_policies d) (dl_grants d) (dl_bindings d) (dl_audit d) (dl_records d + zlen xs)).
Proof. decode_kind law_service_identities. Qed.

Lemma decode_application_credentials xs rs d :
  written json_application_credentials RECORD_APPLICATION_CREDENTIAL xs rs -> 0 <= dl_records d -> dl_records d + zlen xs <= u64_max ->
  decode_frames rs d = Ok (MkDecoded
    (dl_keys d) (dl_namespaces d) (dl_secrets d) (dl_secret_versions d)
    (dl_tombstones d) (dl_principals d) (dl_authenticators d)
    (dl_service_identities d) (dl_application_credentials d ++ xs) (dl_authorization_state d)
    (dl_policies d) (dl_grants d) (dl_bindings d) (dl_audit d) (dl_records d + zlen xs)).
Proof. decode_kind law_application_credentials. Qed.

Lemma decode_policies xs rs d :
  written json_policies RECORD_POLICY xs rs -> 0 <= dl_records d -> dl_records d + zlen xs <= u64_max ->
  decode_frames rs d = Ok (MkDecoded
    (dl_keys d) (dl_namespaces d) (dl_secrets d) (dl_secret_versions d)
    (dl_tombstones d) (dl_principals d) (dl_authenticators d)
    (dl_service_identities d) (dl_application_credentials d) (dl_authorization_state d)
    (dl_policies d ++ xs) (dl_grants d) (dl_bindings d) (dl_audit d) (dl_records d + zlen xs)).
Proof. decode_kind law_policies. Qed.

Lemma decode_grants xs rs d :
  written json_grants RECORD_GRANT xs rs -> 0 <= dl_records d -> dl_records d + zlen xs <= u64_max ->
  decode_frames rs d = Ok (MkDecoded
    (dl_keys d) (dl_namespaces d) (dl_secrets d) (dl_secret_versions d)
    (dl_tombstones d) (dl_principals d) (dl_authenticators d)
    (dl_service_identities d) (dl_application_credentials d) (dl_authorization_state d)
    (dl_policies d) (dl_grants d ++ xs) (dl_bindings d) (dl_audit d) (dl_records d + zlen xs)).
Proof. decode_kind law_grants. Qed.

Lemma decode_bindings xs rs d :
  written json_bindings RECORD_BINDING xs rs -> 0 <= dl_records d -> dl_records d + zlen xs <= u64_max ->
  decode_frames rs d = Ok (MkDecoded
    (dl_keys d) (dl_namespaces d) (dl_secrets d) (dl_secret_versions d)
    (dl_tombstones d) (dl_principals d) (dl_authenticators d)
    (dl_service_identities d) (dl_application_credentials d) (dl_authorization_state d)
    (dl_policies d) (dl_grants d) (dl_bindings d ++ xs) (dl_audit d) (dl_records d + zlen xs)).
Proof. decode_kind law_bindings. Qed.

Lemma decode_audit xs rs d :
  written json_audit RECORD_AUDIT xs rs -> 0 <= dl_records d -> dl_records d + zlen xs <= u64_max ->
  decode_frames rs d = Ok (MkDecoded
    (dl_keys d) (dl_namespaces d) (dl_secrets d) (dl_secret_versions d)
    (dl_tombstones d) (dl_principals d) (dl_authenticators d)
    (dl_service_identities d) (dl_application_credentials d) (dl_authorization_state d)
    (dl_policies d) (dl_grants d) (dl_bindings d) (dl_audit d ++ xs) (dl_records d + zlen xs)).
Proof. decode_kind law_audit. Qed.

(** ** The whole stream *)

(** The output so far is a well-formed stream, and reading it gives [d]. *)
Definition stage (out : blob) (d : DecodedLogical) : Prop :=
  exists rs, out = encode_records rs /\ Forall frame_ok rs /\ zlen out <= MAX_LOGICAL_STREAM_BYTES
    /\ dl_records d = zlen rs /\ decode_frames rs new_decoded = Ok d.

Lemma stage_records out d : stage out d -> 0 <= dl_records d <= MAX_LOGICAL_STREAM_BYTES.
Proof.
  intros (rs & -> & _ & Hb & -> & _). pose proof (zlen_encode_records rs). pose proof (zlen_nonneg rs). lia.
Qed.

Lemma stage_more out d rs d' :
  stage out d -> Forall frame_ok rs -> zlen (out ++ encode_records rs) <= MAX_LOGICAL_STREAM_BYTES ->
  (dl_records d + zlen rs <= u64_max -> decode_frames rs d = Ok d') ->
  dl_records d' = dl_records d + zlen rs -> stage (out ++ encode_records rs) d'.
Proof.
  intros (rs0 & -> & HF & Hb & Hn & Hd) HF' Hb' Hd' Hn'. exists (rs0 ++ rs).
  rewrite encode_records_app in *. split; [done|]. split; [by apply Forall_app|]. split; [done|].
  rewrite zlen_app, Hn'. split; [lia|]. rewrite decode_frames_app, Hd. cbn [result_bind]. apply Hd'.
  rewrite Hn. pose proof (zlen_encode_records (rs0 ++ rs)) as H8. rewrite encode_records_app, zlen_app in H8.
  unfold MAX_LOGICAL_STREAM_BYTES, u64_max in *. lia.
Qed.

Lemma stage_rows {R T} (c : codec T) kind (f : R -> blob -> result BackupError blob) (P : R -> T -> Prop)
    (upd : DecodedLogical -> list T -> DecodedLogical) rows out out' d :
  (forall row out out', f row out = Ok out' -> exists x, P row x /\ append_record c kind x out = Ok out') ->
  in_u16 kind ->
  (forall xs rs d, written c kind xs rs -> 0 <= dl_records d -> dl_records d + zlen xs <= u64_max ->
     decode_frames rs d = Ok (upd d xs)) ->
  (forall d xs, dl_records (upd d xs) = dl_records d + zlen xs) ->
  append_rows f rows out = Ok out' -> stage out d ->
  exists xs, Forall2 P rows xs /\ stage out' (upd d xs).
Proof.
  intros Hf Hk Hupd Hrec Hrun Hst. pose proof (stage_records _ _ Hst).
  destruct (append_rows_Ok c kind f P rows out out' Hf Hk Hrun) as (xs & rs & HP & HW & HF & -> & Hb).
  exists xs. split; [done|]. pose proof (written_length _ _ _ _ HW) as Hlen.
  apply stage_more with (d := d); [done..| | |].
  - apply Hb. by destruct Hst as (? & -> & _ & ? & _).
  - intros Hn. apply Hupd; [done|lia|lia].
  - rewrite Hrec. lia.
Qed.

Lemma stage_plain {R T} (c : codec T) kind (g : R -> T) (upd : DecodedLogical -> list T -> DecodedLogical)
    rows out out' d :
  in_u16 kind ->
  (forall xs rs d, written c kind xs rs -> 0 <= dl_records d -> dl_records d + zlen xs <= u64_max ->
     decode_frames rs d = Ok (upd d xs)) ->
  (forall d xs, dl_records (upd d xs) = dl_records d + zlen xs) ->
  append_rows (fun row => append_record c kind (g row)) rows out = Ok out' -> stage out d ->
  stage out' (upd d (g <$> rows)).
Proof.
  intros Hk Hupd Hrec Hrun Hst.
  destruct (stage_rows c kind (fun row => append_record c kind (g row)) (fun row x => x = g row) upd rows out out' d) as (xs & HP & H); try done.
  { intros row o o' H. by exists (g row). }
  replace (g <$> rows) with xs; [done|]. clear -HP. induction HP; [done|]. csimpl. congruence.
Qed.

Lemma stage_keys x out' :
  append_record json_keys RECORD_KEYS x [] = Ok out' ->
  stage out' (MkDecoded (Some x) [] [] [] [] [] [] [] [] None [] [] [] [] 1).
Proof.
  intros H. apply append_one_Ok in H as (r & HW & HF & -> & Hb); [|done]. exists [r].
  split; [done|]. split; [by apply Forall_singleton|]. split; [done|]. split; [done|].
  apply Forall2_cons in HW as [(p & Hp & ->) _]. cbn. unfold decode_record, parse_record.
  by rewrite (law_keys _ _ Hp).
Qed.

Lemma stage_authorization x out out' d :
  append_record json_authorization_state RECORD_AUTHORIZATION_STATE x out = Ok out' -> stage out d ->
  dl_authorization_state d = None ->
  stage out' (set_dl_records (dl_records d + 1) (set_dl_authorization_state x d)).
Proof.
  intros H Hst Hd. pose proof (stage_records _ _ Hst).
  apply append_one_Ok in H as (r & HW & HF & -> & Hb); [|done].
  apply stage_more with (d := d); [done|by apply Forall_singleton|done| |done].
  intros Hn. apply Forall2_cons in HW as [(p & Hp & ->) _]. cbn [decode_frames critical lr_kind lr_payload].
  unfold decode_record, parse_record. rewrite (law_authorization_state _ _ Hp).
  cbn -[u64_max checked_add]. rewrite Hd. cbn -[u64_max checked_add].
  by rewrite (proj2 (checked_add_Some u64_max (dl_records d) 1 (dl_records d + 1))).
Qed.

Section Exported.
Context (self : InitializedVault) (ring : KeyRing).

(** [x] is the record of a row: its ciphertext decrypted, in base64. *)
Definition exported {R T} (g : R -> T) (set : blob -> T -> T) (e : R -> EncryptedRecord)
    (object_kind wrapped_kind : ObjectKind) (id : R -> ObjectId) (version : R -> Z) (row : R) (x : T) : Prop :=
  exists plaintext,
    decrypt_record self ring (e row) object_kind wrapped_kind (id row) (version row) = Ok plaintext
    /\ x = set (b64_encode plaintext) (g row).

Definition exported_namespace := exported logical_namespace set_ln_metadata pn_metadata
  ONamespaceMetadata OWrappedNamespaceMetadataKey pn_namespace_id pn_metadata_version.
Definition exported_secret := exported logical_secret set_ls_metadata ps_metadata
  OSecretMetadata OWrappedMetadataKey ps_secret_id ps_metadata_version.
Definition exported_version := exported logical_secret_version set_lv_payload pv_payload
  OSecretVersion OWrappedDataKey pv_secret_id pv_version.
Definition exported_service := exported logical_service_identity set_lsi_metadata psi_metadata
  OServiceIdentityMetadata OWrappedServiceIdentityMetadataKey psi_principal_id psi_metadata_version.
Definition exported_policy := exported logical_policy set_lpo_metadata ppo_metadata
  OPolicyMetadata OWrappedPolicyMetadataKey ppo_policy_id ppo_metadata_version.

(** [decoded] carries the snapshot [s] of the vault. *)
Record carries (s : PortableSnapshot) (decoded : DecodedLogical) : Prop := {
  cy_keys : exists k, dl_keys decoded = Some k
    /\ decode_vault_keys k = Ok {| pk_blind_index := iv_blind_index_key self;
                                   pk_audit := iv_audit_key self;
                                   pk_token_verifier := iv_token_verifier_key self |};
  cy_namespaces : Forall2 exported_namespace (snp_namespaces s) (dl_namespaces decoded);
  cy_secrets : Forall2 exported_secret (snp_secrets s) (dl_secrets decoded);
  cy_versions : Forall2 exported_version (snp_secret_versions s) (dl_secret_versions decoded);
  cy_tombstones : dl_tombstones decoded = logical_tombstone <$> snp_tombstones s;
  cy_principals : dl_principals decoded = logical_principal <$> snp_principals s;
  cy_authenticators : dl_authenticators decoded = logical_authenticator <$> snp_authenticators s;
  cy_services : Forall2 exported_service (snp_service_identities s) (dl_service_identities decoded);
  cy_credentials : dl_application_credentials decoded
                   = logical_application_credential <$> snp_application_credentials s;
  cy_authorization : dl_authorization_state decoded
                     = Some (logical_authorization_state (snp_authorization_state s));
  cy_policies : Forall2 exported_policy (snp_policies s) (dl_policies decoded);
  cy_grants : dl_grants decoded = logical_grant <$> snp_grants s;
  cy_bindings : dl_bindings decoded = logical_binding <$> snp_bindings s;
  cy_audit : dl_audit decoded = logical_audit <$> snp_audit_records s }.

Lemma decode_vault_keys_encoded `{!CryptoLaws} a b c :
  decode_vault_keys {| lk_blind_index := encode_key a; lk_audit := encode_key b;
                       lk_token_verifier := encode_key c |}
  = Ok {| pk_blind_index := a; pk_audit := b; pk_token_verifier := c |}.
Proof.
  assert (forall k, decode_key (encode_key k) = Ok k) as Hk.
  { intros k. unfold decode_key, encode_key. rewrite b64_decode_encode. cbn [ok_or result_bind].
    by rewrite try_array_arr. }
  unfold decode_vault_keys. cbn. by rewrite !Hk.
Qed.

(** A row with a ciphertext is written as its exported record. *)
Ltac exported_row :=
  let H := fresh in
  intros ??? H; apply result_bind_Ok in H as (? & H & ?);
  apply result_bind_Ok in H as (? & H & ?); simplify_eq; apply map_err_Ok in H;
  eexists; split; [eexists; split; [exact H|reflexivity]|eassumption].

(** The next loop of the writer advances the stage; its fields stay evaluated. *)
Ltac settle H :=
  cbn [set_dl_records set_dl_authorization_state dl_keys dl_namespaces dl_secrets dl_secret_versions
       dl_tombstones dl_principals dl_authenticators dl_service_identities dl_application_credentials
       dl_authorization_state dl_policies dl_grants dl_bindings dl_audit dl_records app] in H.
Ltac stage_cipher c k P law := match goal with
  | H : append_rows _ _ ?o = Ok _, Hst : stage ?o _ |- _ =>
      eapply (stage_rows c k _ P) in H; [|exported_row|done|exact law|done|exact Hst];
      clear Hst; let H' := fresh in destruct H as (? & ? & H'); settle H'
  end.
Ltac stage_rest law := match goal with
  | H : append_rows _ _ ?o = Ok _, Hst : stage ?o _ |- _ =>
      eapply stage_plain in H; [|done|exact law|done|exact Hst]; clear Hst; settle H
  end.

Lemma encode_logical_stage `{!CryptoLaws} s bytes :
  encode_logical_snapshot self ring s = Ok bytes -> exists d, stage bytes d /\ carries s d.
Proof.
  unfold encode_logical_snapshot. intros Hrun. minv.
  match goal with H : append_record json_keys _ _ _ = _ |- _ => apply stage_keys in H end.
  stage_cipher json_namespaces RECORD_NAMESPACE exported_namespace decode_namespaces.
  stage_cipher json_secrets RECORD_SECRET exported_secret decode_secrets.
  stage_cipher json_secret_versions RECORD_SECRET_VERSION exported_version decode_secret_versions.
  stage_rest decode_tombstones.
  stage_rest decode_principals.
  stage_rest decode_authenticators.
  stage_cipher json_service_identities RECORD_SERVICE_IDENTITY exported_service decode_service_identities.
  stage_rest decode_application_credentials.
  match goal with H : append_record json_authorization_state _ _ _ = _ |- _ =>
    eapply stage_authorization in H; [settle H|eassumption|done] end.
  stage_cipher json_policies RECORD_POLICY exported_policy decode_policies.
  stage_rest decode_grants.
  stage_rest decode_bindings.
  stage_rest decode_audit.
  eexists. split; [eassumption|]. split; try done. eexists. split; [done|]. apply decode_vault_keys_encoded.
Qed.

(** What decodes, under whatever count, is what was written. *)
Lemma encode_logical_decodes `{!CryptoLaws} s bytes n decoded :
  encode_logical_snapshot self ring s = Ok bytes -> decode_logical_stream bytes n = Ok decoded -> carries s decoded.
Proof.
  intros Hrun Hdec. destruct (encode_logical_stage _ _ Hrun) as (d & (rs & -> & HF & Hb & Hn & Hd) & Hc).
  unfold decode_logical_stream in Hdec. rewrite (decode_stream_frames _ _ _ HF), Hd in Hdec by lia. cbn [result_bind] in Hdec.
  destruct (_ || _); [done|]. by injection Hdec as <-.
Qed.

(** The logical stream round-trips: when [encode_logical_snapshot] succeeds,
    its bytes are well-formed critical records within the stream bound,
    [decode_logical_stream] with their count returns the keys of the vault and
    every row of the snapshot in order, each ciphertext as its plaintext in
    base64, and with any other count it refuses the stream. *)
Theorem logical_stream_round_trips `{!CryptoLaws} s bytes :
  encode_logical_snapshot self ring s = Ok bytes ->
  exists rs decoded,
    bytes = encode_records rs /\ Forall frame_ok rs /\ zlen bytes <= MAX_LOGICAL_STREAM_BYTES
    /\ decode_logical_stream bytes (zlen rs) = Ok decoded /\ carries s decoded
    /\ (forall n, n <> zlen rs -> decode_logical_stream bytes n = Err BIntegrity).
Proof.
  intros Hrun. destruct (encode_logical_stage _ _ Hrun) as (d & (rs & -> & HF & Hb & Hn & Hd) & Hc).
  exists rs, d. split; [done|]. split; [done|]. split; [done|].
  destruct (cy_keys _ _ Hc) as (k & Hk & _). pose proof (cy_authorization _ _ Hc) as Ha.
  unfold decode_logical_stream. rewrite (decode_stream_frames _ _ _ HF) by lia. rewrite Hd.
  cbn [result_bind]. rewrite Hk, Ha, Hn. split; [by rewrite Z.eqb_refl|]. split; [done|].
  intros n Hne. by rewrite (proj2 (Z.eqb_neq (zlen rs) n)).
Qed.
End Exported.
End Stream.
