(* ===== verification/BackupProps.v ===== *)
(** What a backup and a restore promise: a restored vault holds the records of
    the snapshot, readable under its own keys; a restore leaves a complete
    installation or nothing; a creation publishes a verified archive or nothing. *)
From Stdlib Require Import ZArith Lia Strings.Byte String.
From stdpp Require Import base tactics numbers option strings list gmap.
From S2P Require Import Prelude RustStd Core Crypto Format Sql Schema Records PolicyStore VaultStore IdentityStore Store Metadata VaultCore Initialization Authentication Authorization ServiceIdentity VaultAudit VaultRuns VaultProps Archive ArchiveProps ArchiveRuns Portable Logical Backup LogicalProps.

(** ** Rows of a restored vault *)

Definition namespace_facts (n : PortableNamespace) :=
  (pn_namespace_id n, pn_parent_namespace_id n, pn_name_index n, pn_metadata_version n,
   pn_lifecycle_state n, pn_revision n, pn_created_at_unix_ms n, pn_updated_at_unix_ms n).
Definition secret_facts (s : PortableSecret) :=
  (ps_secret_id s, ps_namespace_id s, ps_name_index s, ps_metadata_version s, ps_lifecycle_state s,
   ps_current_version s, ps_revision s, ps_created_at_unix_ms s, ps_updated_at_unix_ms s,
   ps_deleted_at_unix_ms s).
Definition version_facts (v : PortableSecretVersion) :=
  (pv_secret_id v, pv_version v, pv_schedule v, pv_created_by_principal_id v,
   pv_created_at_unix_ms v).
Definition policy_facts (p : PortablePolicy) :=
  (ppo_policy_id p, ppo_revision p, ppo_state p, ppo_metadata_version p, ppo_created_at_unix_ms p,
   ppo_updated_at_unix_ms p).
Definition service_facts (i : PortableServiceIdentity) := (psi_principal_id i, psi_metadata_version i).

(** A passkey is revoked, every other authenticator is as it was. *)
Definition restored_authenticator (now : Z) (a a' : PortableAuthenticator) : Prop :=
  match pa_kind a with
  | Passkey =>
      if String.eqb (pa_state a) "active"
      then pa_authenticator_id a' = pa_authenticator_id a /\ pa_principal_id a' = pa_principal_id a
           /\ pa_state a' = "revoked" /\ pa_revoked_at_unix_ms a' = Some now
      else a' = a
  | _ => a' = a
  end.

(** A live credential is revoked when the restore was asked to. *)
Definition restored_credential (mode : CredentialRestoreMode) (now : Z)
    (c c' : PortableApplicationCredential) : Prop :=
  match mode, pac_revoked_at_unix_ms c with
  | Revoke, None => pac_credential_id c' = pac_credential_id c /\ pac_verifier c' = pac_verifier c
      /\ pac_revoked_at_unix_ms c' = Some now /\ pac_revision c' = pac_revision c + 1
  | _, _ => c' = c
  end.

Section Restored.
Context {CR : Crypto} {CL : CryptoLaws} {PH : PasswordHashing} {LJ : LogicalJson}.

Section Rows.
Context (self : InitializedVault) (ring : KeyRing) (dest : InitializedVault) (ring' : KeyRing).

(** What the source decrypts, the destination decrypts, with its active key. *)
Definition reads_same (e e' : EncryptedRecord) (object_kind wrapped_kind : ObjectKind) (id : ObjectId)
    (version : Z) : Prop :=
  exists p, decrypt_record self ring e object_kind wrapped_kind id version = Ok p
            /\ decrypt_record dest ring' e' object_kind wrapped_kind id version = Ok p
            /\ er_kek_version e' = kr_active_version ring'.

Definition restored_namespace (n n' : PortableNamespace) : Prop :=
  namespace_facts n' = namespace_facts n
  /\ reads_same (pn_metadata n) (pn_metadata n') ONamespaceMetadata OWrappedNamespaceMetadataKey
       (pn_namespace_id n) (pn_metadata_version n).
Definition restored_secret (s s' : PortableSecret) : Prop :=
  secret_facts s' = secret_facts s
  /\ reads_same (ps_metadata s) (ps_metadata s') OSecretMetadata OWrappedMetadataKey
       (ps_secret_id s) (ps_metadata_version s).
Definition restored_version (v v' : PortableSecretVersion) : Prop :=
  version_facts v' = version_facts v
  /\ reads_same (pv_payload v) (pv_payload v') OSecretVersion OWrappedDataKey (pv_secret_id v)
       (pv_version v).
Definition restored_policy (p p' : PortablePolicy) : Prop :=
  policy_facts p' = policy_facts p
  /\ reads_same (ppo_metadata p) (ppo_metadata p') OPolicyMetadata OWrappedPolicyMetadataKey
       (ppo_policy_id p) (ppo_metadata_version p).
Definition restored_service (i i' : PortableServiceIdentity) : Prop :=
  service_facts i' = service_facts i
  /\ reads_same (psi_metadata i) (psi_metadata i') OServiceIdentityMetadata
       OWrappedServiceIdentityMetadataKey (psi_principal_id i) (psi_metadata_version i).

(** [s'] is what the destination makes of the snapshot [s]. *)
Record restored_snapshot (mode : CredentialRestoreMode) (now : Z) (s s' : PortableSnapshot) : Prop := {
  rs_namespaces : Forall2 restored_namespace (snp_namespaces s) (snp_namespaces s');
  rs_secrets : Forall2 restored_secret (snp_secrets s) (snp_secrets s');
  rs_versions : Forall2 restored_version (snp_secret_versions s) (snp_secret_versions s');
  rs_tombstones : snp_tombstones s' = snp_tombstones s;
  rs_principals : snp_principals s' = snp_principals s;
  rs_authenticators :
    Forall2 (restored_authenticator now) (snp_authenticators s) (snp_authenticators s');
  rs_services : Forall2 restored_service (snp_service_identities s) (snp_service_identities s');
  rs_credentials : Forall2 (restored_credential mode now) (snp_application_credentials s)
    (snp_application_credentials s');
  rs_policies : Forall2 restored_policy (snp_policies s) (snp_policies s');
  rs_grants : snp_grants s' = snp_grants s;
  rs_bindings : snp_bindings s' = snp_bindings s;
  rs_audit : snp_audit_records s' = snp_audit_records s;
  rs_revision : as_revision (snp_authorization_state s') = as_revision (snp_authorization_state s) }.
End Rows.

(** ** Encrypting again *)

(** A step that only draws random numbers. *)
Definition draws {E A} (m : Prog World E A) (Q : KeyRing -> A -> Prop) : Prop :=
  forall w a w', m w = (Ok a, w') -> (exists n, w' = set_w_draws n w) /\ Q (w_ring w) a.

Lemma draws_mapM {E A B} (f : A -> Prog World E B) (Q : KeyRing -> A -> B -> Prop) l :
  (forall a, draws (f a) (fun r => Q r a)) -> draws (prog_mapM f l) (fun r => Forall2 (Q r) l).
Proof.
  intros Hf. induction l as [|a l IH]; intros w bs w' H; cbn [prog_mapM] in H; minv.
  { split; [|constructor]. exists (w_draws w). by destruct w. }
  match goal with H : f a _ = _ |- _ => apply Hf in H as [[n ->] Hq] end.
  match goal with H : prog_mapM _ _ _ = _ |- _ => apply IH in H as [[m ->] HF] end.
  split; [by exists m|]. by constructor.
Qed.

Lemma encrypt_b64_draws dest encoded kind wrapped id version :
  draws (encrypt_b64 dest encoded kind wrapped id version) (fun r e =>
    exists p, b64_decode encoded = Some p /\ decrypt_record dest r e kind wrapped id version = Ok p
              /\ er_kek_version e = kr_active_version r).
Proof.
  intros w e w' H. unfold encrypt_b64 in H. minv.
  match goal with H : encrypt_record _ _ _ _ _ _ _ = _ |- _ => apply encrypt_record_Ok in H as (? & ? & ? & _) end.
  eauto 10.
Qed.

Section Transform.
Context (self : InitializedVault) (ring : KeyRing) (dest : InitializedVault).

(** Encrypting an exported record again. *)
Ltac restored_row :=
  intros w y w' H;
  match type of H with ?f _ _ = _ => unfold f in H | ?f _ _ _ = _ => unfold f in H
    | ?f _ _ _ _ = _ => unfold f in H | ?f _ _ _ _ _ = _ => unfold f in H end; minv;
  match goal with H : encrypt_b64 _ _ _ _ _ _ _ = _ |- _ =>
    apply encrypt_b64_draws in H as (? & ? & ? & ? & ?) end;
  split; [done|]; intros n (? & ? & ->);
  match goal with H : b64_decode _ = Some _ |- _ => cbn in H; rewrite b64_decode_encode in H end;
  simplify_eq; split; [done|]; eexists; split; [|split]; eassumption.

Lemma transform_namespace_draws row :
  draws (transform_namespace dest row)
    (fun r n' => forall n, exported_namespace self ring n row -> restored_namespace self ring dest r n n').
Proof. restored_row. Qed.

Lemma transform_secret_draws versions row :
  draws (transform_secret dest versions row)
    (fun r n' => forall n, exported_secret self ring n row -> restored_secret self ring dest r n n').
Proof. restored_row. Qed.

Lemma transform_version_draws row :
  draws (transform_version dest row)
    (fun r n' => forall n, exported_version self ring n row -> restored_version self ring dest r n n').
Proof. restored_row. Qed.

Lemma transform_service_draws row :
  draws (transform_service dest row)
    (fun r n' => forall n, exported_service self ring n row -> restored_service self ring dest r n n').
Proof. restored_row. Qed.

Lemma transform_policy_draws row :
  draws (transform_policy dest row)
    (fun r n' => forall n, exported_policy self ring n row -> restored_policy self ring dest r n n').
Proof. restored_row. Qed.

Lemma fmap_again {A B} (f : A -> B) (g : B -> A) (l : list A) : (forall a, g (f a) = a) -> g <$> (f <$> l) = l.
Proof. intros H. induction l as [|a l IH]; [done|]. csimpl. by rewrite H, IH. Qed.

Lemma tombstones_again (l : list _) : restored_tombstone <$> (logical_tombstone <$> l) = l.
Proof. apply fmap_again. by intros []. Qed.
Lemma grants_again (l : list _) : restored_grant <$> (logical_grant <$> l) = l.
Proof. apply fmap_again. by intros []. Qed.
Lemma bindings_again (l : list _) : restored_binding <$> (logical_binding <$> l) = l.
Proof. apply fmap_again. by intros []. Qed.
Lemma audit_again (l : list _) : restored_audit <$> (logical_audit <$> l) = l.
Proof. apply fmap_again. by intros []. Qed.

Lemma principals_again (l : list _) l' :
  result_mapM transform_principal (logical_principal <$> l) = Ok l' -> l' = l.
Proof.
  intros H%result_mapM_Forall2. apply Forall2_fmap_l in H. induction H as [|x y l l' Hxy H IH]; [done|].
  rewrite IH. f_equal. unfold transform_principal in Hxy. destruct x as [id [] st re sc cr up]; cbn in Hxy; congruence.
Qed.

Lemma restored_authenticators now (l : list _) l' :
  result_mapM (transform_authenticator dest now) (logical_authenticator <$> l) = Ok l' ->
  Forall2 (restored_authenticator now) l (fst <$> l').
Proof.
  intros H%result_mapM_Forall2. apply Forall2_fmap_l in H. apply Forall2_fmap_r. eapply Forall2_impl; [exact H|].
  intros a [a' b] Ha. unfold transform_authenticator in Ha. unfold restored_authenticator.
  destruct a as [id pr [] lk da ph st cr lu re sc]; cbn in *; minv; try done.
  destruct (String.eqb st "active"); minv; simplify_eq; by split_and?.
Qed.

Lemma restored_credentials mode now (l : list _) l' :
  result_mapM (transform_credential dest mode now) (logical_application_credential <$> l) = Ok l' ->
  Forall2 (restored_credential mode now) l (fst <$> l').
Proof.
  intros H%result_mapM_Forall2. apply Forall2_fmap_l in H. apply Forall2_fmap_r. eapply Forall2_impl; [exact H|].
  intros c [c' b] Hc. unfold transform_credential in Hc. unfold restored_credential.
  destruct c as [id pr lk ve cr ex lu [re|] rv sc], mode; cbn in Hc; minv; simplify_eq; try done.
  match goal with H : checked_add _ _ _ = Some _ |- _ => apply checked_add_Some in H as [-> _] end. by split_and!.
Qed.

Lemma Forall2_chain {A B C} (P : A -> B -> Prop) (Q : B -> C -> Prop) (R : A -> C -> Prop) l k m :
  (forall a b c, P a b -> Q b c -> R a c) -> Forall2 P l k -> Forall2 Q k m -> Forall2 R l m.
Proof. intros H H1. revert m. induction H1; inversion 1; subst; constructor; eauto. Qed.

(** Transforming the exported snapshot. *)
Lemma transform_restores decoded verified mode now w s' revoked disabled w' :
  transform_logical_snapshot dest decoded verified mode now w = (Ok (s', revoked, disabled), w') ->
  (exists n, w' = set_w_draws n w)
  /\ forall s, carries self ring s decoded -> restored_snapshot self ring dest (w_ring w) mode now s s'.
Proof.
  intros H. unfold transform_logical_snapshot in H. minv. cbn in *.
  repeat match goal with H : prog_mapM ?f ?l _ = (Ok _, _) |- _ =>
    eapply draws_mapM in H;
      [destruct H as [[? ->] ?]
      |first [apply transform_namespace_draws|apply transform_secret_draws|apply transform_version_draws
             |apply transform_service_draws|apply transform_policy_draws]] end.
  split; [by eexists|]. intros s [_ C1 C2 C3 C4 C5 C6 C7 C8 C9 C10 C11 C12 C13].
  rewrite C5, C6, C8, C9 in *. simplify_eq.
  split; cbn; try (eapply Forall2_chain; [|eassumption|eassumption]; cbn; eauto; fail).
  - rewrite C4. apply tombstones_again.
  - by apply principals_again.
  - by apply restored_authenticators.
  - by apply restored_credentials.
  - rewrite C11. apply grants_again.
  - rewrite C12. apply bindings_again.
  - rewrite C13. apply audit_again.
  - done.
Qed.
End Transform.
End Restored.
