(* ===== verification/RestoreProps.v ===== *)
(** The restore of a backup, from the archive to the activated installation. *)
From Stdlib Require Import ZArith Lia Strings.Byte String.
From stdpp Require Import base tactics numbers option strings list gmap.
From S2P Require Import Prelude RustStd Core Crypto Format Sql Schema Records StoreInv RecordsOk PolicyStore VaultStore RotationStore IdentityStore Store Metadata VaultCore Initialization Authentication Authorization ServiceIdentity VaultAudit VaultRuns VaultProps AuthzProps InitializationProps Archive ArchiveProps ArchiveRuns Portable PortableProps Logical Backup LogicalProps BackupProps.

(** ** The imported rows *)

(** A table holds the rows of [l], in order. *)
Definition stores {R A} (to_row : R -> result StorageError A) (l : list R) (t : table A) : Prop :=
  Forall2 (fun x a => to_row x = Ok a) l (rows t).

Lemma insert_records_Ok {R A} (to_row : R -> result StorageError A) (sc : schema A) get set keys_hold records d u d' :
  (forall t d, get (set t d) = t) -> (forall t t' d, set t (set t' d) = set t d) -> (forall d, set (get d) d = d) ->
  insert_records to_row sc get set keys_hold records d = Ok (u, d') ->
  exists t l, d' = set t d /\ rows t = rows (get d) ++ l /\ Forall2 (fun x a => to_row x = Ok a) records l
    /\ (table_ok sc (get d) -> table_ok sc t).
Proof.
  intros Hgs Hss Hsg. unfold insert_records. revert d. induction records as [|x records IH]; intros d H; cbn [tx_forM] in H.
  { minv. exists (get d), []. by rewrite Hsg, app_nil_r. }
  sinv. match goal with H : sql_insert _ _ _ = Some _ |- _ =>
    pose proof (sql_insert_ok _ _ _ _ H); apply sql_insert_Some in H as (-> & _) end.
  match goal with H : tx_forM _ _ _ = _ |- _ => apply IH in H as (t & l & -> & Hr & HF & Hok) end.
  exists t, (x2 :: l). rewrite Hss. rewrite Hgs in *. rewrite rows_insert, <- app_assoc in Hr.
  split_and!; [done|done|by constructor|auto].
Qed.

Lemma insert_records_stores {R A} (to_row : R -> result StorageError A) (sc : schema A) get set keys_hold records d u d' :
  (forall t d, get (set t d) = t) -> (forall t t' d, set t (set t' d) = set t d) -> (forall d, set (get d) d = d) ->
  get d = [] -> insert_records to_row sc get set keys_hold records d = Ok (u, d') ->
  exists t, d' = set t d /\ stores to_row records t /\ table_ok sc t.
Proof.
  intros ? ? ? Hn H. apply insert_records_Ok in H as (t & l & -> & Hr & HF & Hok); [|done..].
  rewrite Hn in *. exists t. split; [done|]. unfold stores. rewrite Hr. split; [done|]. apply Hok, table_ok_nil.
Qed.

(** [d] holds the rows of the snapshot [s], and after its audit records [later]. *)
Record holds_rows (s : PortableSnapshot) (later : list AuditRow) (d : Db) : Prop := {
  hr_tables : tables_ok d;
  hr_namespaces : stores namespace_to_row (snp_namespaces s) (db_namespaces d);
  hr_secrets : stores secret_to_row (snp_secrets s) (db_secrets d);
  hr_versions : stores version_to_row (snp_secret_versions s) (db_versions d);
  hr_tombstones : stores tombstone_to_row (snp_tombstones s) (db_tombstones d);
  hr_principals : stores principal_to_row (snp_principals s) (db_principals d);
  hr_authenticators : stores authenticator_to_row (snp_authenticators s) (db_authenticators d);
  hr_services : stores service_to_row (snp_service_identities s) (db_services d);
  hr_credentials : stores credential_to_row (snp_application_credentials s) (db_credentials d);
  hr_policies : stores policy_to_row (snp_policies s) (db_policies d);
  hr_grants : stores grant_to_row (snp_grants s) (db_grants d);
  hr_bindings : stores binding_to_row (snp_bindings s) (db_bindings d);
  hr_audit : exists l, Forall2 (fun x a => audit_to_row x = Ok a) (snp_audit_records s) l
                       /\ rows (db_audit d) = l ++ later }.

(** The database stays a record of its tables. *)
Ltac db_simpl :=
  cbn [db_installation db_keys db_namespaces db_secrets db_versions db_tombstones db_audit db_jobs
       db_purge_enabled db_principals db_authenticators db_sessions db_services db_credentials db_policies
       db_grants db_bindings db_authz_revision db_authz_commitment db_idempotency db_restore_guard
       set_installation set_keys set_namespaces set_secrets set_versions set_tombstones set_audit set_jobs
       set_purge_enabled set_principals set_authenticators set_sessions set_services set_credentials
       set_policies set_grants set_bindings set_authz_revision set_authz_commitment set_idempotency
       set_restore_guard] in *.

Lemma sql_u64_Ok z c : sql_u64 z = Ok c -> c = z /\ 0 <= z <= i64_max.
Proof. unfold sql_u64. intros H%ok_or_Ok. by apply try_from_Some in H. Qed.

Lemma tx_commit_Ok d u d' : tx_commit d = Ok (u, d') -> d' = d.
Proof. unfold tx_commit. intros H. by sinv. Qed.

(** The next insertion. *)
Ltac import_step ins := match goal with
  | H : ins _ _ = Ok (_, _) |- _ => unfold ins in H;
      apply insert_records_stores in H as (? & -> & ? & ?); [db_simpl|done|done|by intros []|done] end.

Lemma import_stores s e dst v j u d' :
  fresh_destination dst v j -> import_portable_snapshot s e dst = (Ok u, d') ->
  holds_rows s [] d' /\ kept e s j dst d' /\ foreign_key_check d' = true /\ 0 <= e <= i64_max.
Proof.
  intros [Hok (Hi & _ & Hst & _) (? & ? & ? & ? & ?) (? & ? & ? & ? & ? & ?) (? & ? & ?)] Himp.
  unfold import_portable_snapshot in Himp. apply transact_Ok in Himp. minv.
  match goal with H : update_installation _ _ _ = _ |- _ => unfold update_installation in H; rewrite Hi, Hst in H end.
  change (String.eqb "initializing" "initializing") with true in *. cbv iota in *.
  destruct (installation_check (set_recovery _ _ _)); [|done]. destruct dst; db_simpl; simplify_eq; db_simpl.
  import_step @insert_principals. import_step @insert_authenticators. import_step @insert_service_identities.
  import_step @insert_application_credentials. import_step @insert_namespaces. import_step @insert_secrets.
  import_step @insert_secret_versions. import_step @insert_tombstones. import_step @insert_policies.
  import_step @insert_grants. import_step @insert_bindings. import_step @insert_audit_records.
  repeat match goal with H : sql_u64 _ = Ok _ |- _ => apply sql_u64_Ok in H as [-> ?] end.
  match goal with H : tx_commit _ = Ok _ |- _ => apply tx_commit_Ok in H as -> end.
  match goal with H : negb (foreign_key_check _) = false |- _ => apply negb_false_iff in H end.
  apply ok_tables in Hok as [].
  split; [|split; [|done]]; split; db_simpl; try done. eexists. rewrite app_nil_r. split; [eassumption|done].
Qed.

(** ** The checks of the destination only read *)

Section Checks.
Context {CR : Crypto} {PH : PasswordHashing} (self : InitializedVault).

Lemma reads_prog_read {E A} (f : World -> result E A) : reads (prog_read f).
Proof. by intros w Hq. Qed.

Lemma reads_Ok {E A} (m : Prog World E A) w a w' : reads m -> quiet w -> m w = (Ok a, w') -> w' = w.
Proof. intros Hm Hq H. specialize (Hm w Hq). by rewrite H in Hm. Qed.

Lemma reads_bk_for {A} (l : list A) f : (forall a, reads (f a)) -> reads (bk_for l f).
Proof. intros Hf. unfold bk_for. by read_only. Qed.

Lemma reads_verify_pages fuel at_ : reads (verify_pages self fuel at_).
Proof.
  revert at_. induction fuel as [|fuel IH]; intros at_; [done|]. cbn [verify_pages].
  unfold ask, call. read_only.
Qed.

Lemma reads_verify_audit_chain : reads (verify_audit_chain self).
Proof.
  intros w Hq. unfold verify_audit_chain. pose proof (reads_verify_pages (verify_fuel w)) as H.
  generalize (verify_fuel w) H. intros fuel Hf.
  refine ((_ : reads _) w Hq). apply reads_bind; [done|]. intros at_. unfold ask, call. read_only.
Qed.

Lemma reads_verify_restored quick_check s : reads (verify_restored_snapshot self quick_check s).
Proof.
  unfold verify_restored_snapshot, verify_restored_relationships, verify_ancestors.
  unfold verify_restored_namespace, verify_restored_secret, bk_decrypt, decrypt_with, bk_ask, bk_call.
  pose proof reads_verify_audit_chain. pose proof (reads_snapshot self).
  pose proof @reads_prog_read. read_only; apply reads_bk_for; intros; read_only.
Qed.

Lemma verify_restored_related quick_check s w u w' :
  verify_restored_snapshot self quick_check s w = (Ok u, w') -> related_records s = true.
Proof.
  unfold verify_restored_snapshot. intros H. apply prog_bind_Ok in H as (? & ? & _ & H).
  apply prog_bind_Ok in H as (? & ? & _ & H). apply prog_bind_Ok in H as (? & ? & Hr & _).
  unfold verify_restored_relationships in Hr. apply prog_bind_Ok in Hr as (? & ? & _ & Hr).
  apply prog_bind_Ok in Hr as (? & ? & _ & Hr). apply prog_reject_Ok in Hr as [Hr _]. by apply negb_false_iff in Hr.
Qed.
End Checks.

(** ** The steps of a restore *)

Section Restore.
Context {CR : Crypto} {CL : CryptoLaws} {PH : PasswordHashing} {LJ : LogicalJson} {AF : ArchiveFormats}.

Lemma with_vault_Ok {A} o (m : Prog World BackupError A) h a h' :
  with_vault o m h = (Ok a, h') <-> exists w', m (in_use o h) = (Ok a, w') /\ h' = closed w' h.
Proof. unfold with_vault. destruct (m (in_use o h)) as [[b|e] w']; naive_solver. Qed.

Lemma bk_call_Ok {A} (m : Store A) w a w' :
  quiet w -> bk_call m w = (Ok a, w') -> exists d, m (w_db w) = (Ok a, d) /\ w' = set_w_db d w.
Proof. apply call_raw_quiet_Ok. Qed.

(** The directories of both files are ready and apart. *)
Record prepared (h : Host) : Prop := {
  pp_database : prepare_parent (h_database_at h) = Ok (h_database_at h);
  pp_root : prepare_parent (h_root_at h) = Ok (h_root_at h);
  pp_apart : ensure_separate_parents (h_database_at h) (h_root_at h) = Ok tt }.

Lemma prepare_paths_Ok h u h' :
  prepare_paths h = (Ok u, h') -> exists a b, h' = set_h_locations a b h /\ prepared h'.
Proof.
  unfold prepare_paths. intros H. destruct (prepare_parent (h_database_at h)) as [a|] eqn:Ea; [|done].
  cbn in H. destruct (prepare_parent (h_root_at h)) as [b|] eqn:Eb; [|done]. injection H as H <-.
  exists a, b. destruct u. split; [done|]. split; cbn; eauto using prepare_parent_again.
Qed.

Lemma prepare_paths_again h : prepared h -> prepare_paths h = (Ok tt, h).
Proof.
  intros [E1 E2 E3]. unfold prepare_paths. rewrite E1. cbn [set_h_locations h_root_at]. rewrite E2. cbn. rewrite E3.
  by destruct h.
Qed.

Lemma on_store_Ok {A} (m : Store A) h a h' :
  on_store m h = (Ok a, h') -> exists d, m (h_db h) = (Ok a, d) /\ h' = set_h_database d h.
Proof. unfold on_store. destruct (m (h_db h)) as [[b|] d]; [|done]. intros [= <- <-]. eauto. Qed.

(** What [initialize_restore_staging] leaves. *)
Record staged (v : VaultId) (keys : PortableVaultKeys) (o : Opened) (h : Host) : Prop := {
  sg_ids : exists i root key, o = opened_with v i root key keys
    /\ load_root_key_file (h_root_file h) = Ok {| rk_vault_id := v; rk_installation_id := i; rk_key := root |}
    /\ exists b dst, bootstrap_wraps v i root key keys b /\ br_vault_id b = v /\ br_installation_id b = i
        /\ h_database h = Some dst /\ begin_restore_initialization b empty_db = (Ok Begun, dst);
  sg_prepared : prepared h }.

Lemma staging_Ok v keys now h o h' :
  initialize_restore_staging v keys now h = (Ok o, h') -> staged v keys o h'.
Proof.
  unfold initialize_restore_staging. intros H. minv.
  match goal with H : prepare_paths _ = _ |- _ => apply prepare_paths_Ok in H as (a & b & -> & Hp) end.
  match goal with H : conflict_if ?c = _ |- _ => destruct c eqn:Hc; [done|clear H] end.
  match goal with H : draw_id _ = _ |- _ => injection H as ? <- end.
  match goal with H : draw (create_root_key_file _ _ _) _ = (Ok ?x, _) |- _ => destruct x as [root file];
    unfold draw in H; destruct (create_root_key_file _ _ _ _) as [[[k f]|] n] eqn:Ec; [|done] end.
  simplify_eq/=. minv. apply create_root_key_file_loads in Ec.
  match goal with H : draw key_generate _ = _ |- _ => apply draws_draw in H as [m ->] end.
  match goal with H : open_store _ = _ |- _ => injection H as ? <- end.
  match goal with H : create_bootstrap_with_keys _ _ _ _ _ _ _ = (Ok ?y, _) |- _ =>
    pose proof (create_bootstrap_with_keys_Ok _ _ _ _ _ _ _ _ _ H);
    pose proof (create_bootstrap_with_keys_ids _ _ _ _ _ _ _ _ _ H) as [??];
    apply create_bootstrap_with_keys_draws in H as [m' ->] end.
  match goal with H : conflict_if (match ?y with _ => _ end) = _ |- _ => destruct y; [|done|done] end.
  bprop. destruct Hc as [_ Hn]. destruct (h_database h) eqn:Hd; [done|].
  match goal with H : on_store _ ?hs = _ |- _ =>
    assert (h_db hs = empty_db) as Hdb by (unfold h_db; cbn; by rewrite Hd);
    apply on_store_Ok in H as (dst & Hb & ->); rewrite Hdb in Hb end.
  split; [|by destruct Hp]. eexists _, _, _. split; [done|]. split; [done|]. eexists _, _. by split_and!.
Qed.

Lemma reopen_Ok v i h u h' :
  prepared h -> is_Some (h_database h) -> verify_restore_staging_reopen v i h = (Ok u, h') -> h' = h.
Proof.
  intros Hp Hd H. unfold verify_restore_staging_reopen in H.
  unfold prog_bind at 1 in H. rewrite prepare_paths_again in H by done.
  unfold prog_bind at 1, open_store in H. rewrite set_database_same in H by done. minv.
  repeat match goal with H : ask_store _ _ = _ |- _ => unfold ask_store in H; injection H as ? <- end. done.
Qed.

Lemma append_audit_Ok a d u d' :
  append_audit a d = (Ok u, d') -> exists t, d' = set_audit t d /\ rows t = rows (db_audit d) ++ [audit_row a]
    /\ (table_ok audit_schema (db_audit d) -> table_ok audit_schema t).
Proof.
  unfold append_audit. intros H. apply transact_Ok in H. unfold require_audit_head, insert_audit in H. sinv.
  eexists. split; [done|]. match goal with H : sql_insert _ _ _ = Some _ |- _ =>
    pose proof (sql_insert_ok _ _ _ _ H); apply sql_insert_Some in H as (-> & _) end.
  split; [apply rows_insert|done].
Qed.

Lemma activate_restored_Ok d row u d' :
  db_installation d = Some row -> inst_activation_state row = "initializing" ->
  activate_restored_initialization 1 d = (Ok u, d') ->
  d' = set_restore_guard (Some false) (set_installation (Some (set_activation "ready" (Some 1) row)) d)
  /\ installation_check (set_activation "ready" (Some 1) row) = true.
Proof.
  intros Hi Hs H. unfold activate_restored_initialization, activate_initialization_kind in H.
  apply transact_Ok in H. sinv. rewrite Hs in *. cbn [String.eqb Ascii.eqb Bool.eqb] in *. sinv.
  match goal with H : update_installation _ _ _ = _ |- _ => unfold update_installation in H; rewrite Hi, Hs in H end.
  cbn [String.eqb Ascii.eqb Bool.eqb] in *. destruct (installation_check _); [|done]. by simplify_eq.
Qed.

(** ** A restored installation *)

(** The installation opens as [o], holds the rows of [s] and the audit event of
    the restore, and is ready, in recovery epoch [epoch], out of its guard. *)
Record restored_installation (o : Opened) (s : PortableSnapshot) (epoch : Z) (h : Host) : Prop := {
  ri_opens : forall later, initialize_vault later h = (Ok o, h);
  ri_rows : exists a, holds_rows s [audit_row a] (h_db h) /\ ar_action a = "backup:restore";
  ri_row : exists row, db_installation (h_db h) = Some row /\ inst_activation_state row = "ready"
    /\ inst_recovery_epoch row = epoch;
  ri_guard : db_restore_guard (h_db h) = Some false }.

(** The work of a restore on the staged vault. *)
Definition fill_vault (env : RestoreEnv) (o : Opened) (decoded : DecodedLogical) (verified : VerifiedArchive)
    (mode : CredentialRestoreMode) (now epoch : Z) : Prog World BackupError (PortableSnapshot * Z * Z) :=
  let self := op_vault o in
  do! (snapshot, revoked, disabled) := transform_logical_snapshot self decoded verified mode now in
  do! _ := bk_call (import_portable_snapshot snapshot epoch) in
  do! request_id := prog_map_err BVault random_id in
  do! audit := prog_map_err BVault (build_audit self "backup:restore" "vault"
      (Some (iv_vault_id self))
      {| oc_request_id := request_id; oc_actor_principal_id := None; oc_credential_kind := None;
         oc_credential_id := None; oc_now_unix_ms := now |}) in
  do! _ := bk_call (append_audit audit) in
  do! _ := verify_restored_snapshot self (re_quick_check env) snapshot in
  prog_ret (snapshot, revoked, disabled).

Lemma build_audit_action self action kind target op w a w' :
  build_audit self action kind target op w = (Ok a, w') -> ar_action a = action.
Proof. unfold build_audit, build_audit_outcome. intros H. by minv. Qed.

Lemma fill_vault_Ok env o decoded verified mode now epoch h dst v j s rv ds w' :
  h_database h = Some dst -> fresh_destination dst v j ->
  fill_vault env o decoded verified mode now epoch (in_use o h) = (Ok (s, rv, ds), w') ->
  (exists n, transform_logical_snapshot (op_vault o) decoded verified mode now (in_use o h)
    = (Ok (s, rv, ds), set_w_draws n (in_use o h)))
  /\ (exists a, holds_rows s [audit_row a] (w_db w') /\ ar_action a = "backup:restore")
  /\ kept epoch s j dst (w_db w') /\ 0 <= epoch <= i64_max /\ related_records s = true.
Proof.
  intros Hd Hf H. unfold fill_vault in H. apply prog_bind_Ok in H as ([[s1 r1] d1] & w1 & Ht & H).
  destruct (transform_restores (op_vault o) (op_ring o) _ _ _ _ _ _ _ _ _ _ Ht) as [[n ->] _].
  apply prog_bind_Ok in H as ([] & w2 & Hi & H). apply bk_call_Ok in Hi as (d2 & Hi & ->); [|done].
  change (w_db (set_w_draws n (in_use o h))) with (h_db h) in Hi. unfold h_db in Hi. rewrite Hd in Hi. cbn [default] in Hi.
  eapply import_stores in Hi as (Hrows & Hk & _ & He); [|done].
  apply prog_bind_Ok in H as (rid & w3 & Hr & H). apply prog_map_err_Ok, random_id_Ok in Hr as [_ ->].
  apply prog_bind_Ok in H as (a & w4 & Ha & H). apply prog_map_err_Ok in Ha.
  pose proof (build_audit_action _ _ _ _ _ _ _ _ Ha) as Hact.
  unfold build_audit in Ha. apply build_audit_outcome_Ok in Ha as [m ->]; [|done].
  apply prog_bind_Ok in H as ([] & w5 & Happ & H). apply bk_call_Ok in Happ as (d5 & Happ & ->); [|done].
  apply append_audit_Ok in Happ as (t & -> & Hrt & Hta). cbn in Hrt, Hta.
  apply prog_bind_Ok in H as ([] & w6 & Hv & H). apply prog_ret_Ok in H as [[= -> -> ->] ->].
  pose proof (verify_restored_related _ _ _ _ _ _ Hv).
  apply (reads_Ok _ _ _ _ (reads_verify_restored _ _ _)) in Hv as ->; [|done].
  split; [by exists n|]. split; [|split; [|done]].
  - exists a. split; [|done]. destruct Hrows as [[] R1 R2 R3 R4 R5 R6 R7 R8 R9 R10 R11 (l & HF & Hl)].
    split; try done; [split; auto|].
    exists l. split; [done|]. cbn. by rewrite Hrt, Hl, app_nil_r.
  - by destruct Hk.
Qed.

(** The installation row of an activated restore, as it reads. *)
Lemma restored_row_reads b epoch semantics d :
  0 <= epoch <= i64_max ->
  installation_check (set_activation "ready" (Some 1) (set_recovery epoch semantics (bootstrap_row b))) = true ->
  db_installation d = Some (set_activation "ready" (Some 1) (set_recovery epoch semantics (bootstrap_row b))) ->
  exists e, installation d = Ok (Some e) /\ ir_vault_id e = br_vault_id b
    /\ ir_installation_id e = br_installation_id b /\ ir_activation_state e = Ready
    /\ ir_active_kek_version e = Some 1.
Proof.
  intros He Hc Hi. assert (semantics = 1) as -> by (unfold installation_check in Hc; bprop; cbn in Hc; lia).
  unfold installation. rewrite Hi. cbn [fmap option_fmap option_map transpose]. unfold parse_installation.
  cbn [bootstrap_row set_activation set_recovery inst_logical_vault_id inst_installation_id inst_recovery_epoch].
  rewrite !parse_uuid_arr, (parse_uint_Ok u64_max epoch) by (unfold i64_max, u64_max in *; lia). cbn. eexists. by split_and!.
Qed.

(** A filled and activated destination is a restored installation. *)
Lemma activated_installation v keys o h dst b s epoch d d' n a :
  prepared h -> (exists i root key, o = opened_with v i root key keys
    /\ load_root_key_file (h_root_file h) = Ok {| rk_vault_id := v; rk_installation_id := i; rk_key := root |}
    /\ bootstrap_wraps v i root key keys b /\ br_vault_id b = v /\ br_installation_id b = i) ->
  begin_restore_initialization b empty_db = (Ok Begun, dst) ->
  kept epoch s (bootstrap_row b) dst d ->
  holds_rows s [audit_row a] d -> ar_action a = "backup:restore" -> 0 <= epoch <= i64_max ->
  activate_restored_initialization 1 d = (Ok tt, d') ->
  restored_installation o s epoch (set_h_draws n (set_h_database d' h)).
Proof.
  intros Hp (i & root & key & -> & Hload & Hw & Ev & Ei) Hdst Hk Hrows Hact He Hd.
  apply activate_restored_Ok with (row := set_recovery epoch (snp_security_semantics_version s) (bootstrap_row b))
    in Hd as [-> Hck]; [|apply Hk|done].
  set (h' := set_h_draws n _). set (d' := h_db h').
  destruct (restored_row_reads b epoch _ d' He Hck eq_refl) as (e & Hinst & E1 & E2 & E3 & E4).
  destruct (begin_restore_fresh _ _ Hdst) as (_ & _ & Hkeys & Hjobs).
  assert (good_registry v i root key keys d') as Hg.
  { apply (fresh_registry v i root key keys b d' Hw).
    - change (db_keys d') with (db_keys d). by rewrite (kept_keys _ _ _ _ _ Hk).
    - change (db_jobs d') with (db_jobs d). by rewrite (kept_jobs _ _ _ _ _ Hk). }
  split.
  - intros later. rewrite (settled_opens later v i root h' e); [|destruct Hp; split; try done|done].
    + rewrite (open_good v i root key keys h' e d' e); [done|done|done|]. by left.
    + eexists. split; [exact Hinst|]. intros e' [= <-]. split; congruence.
  - exists a. split; [|done]. destruct Hrows as [[]]. by split; [split|..].
  - by eexists.
  - done.
Qed.

(** The run of a successful restore. *)
Record restore_run (source : SourceFile) (key : ArchiveKey) (mode : CredentialRestoreMode) (now : Z)
    (report : RestoreReport) (verified : VerifiedArchive) (canonical : blob) (decoded : DecodedLogical)
    (keys : PortableVaultKeys) (o : Opened) (s : PortableSnapshot) : Prop := {
  rn_read : exists r r', open_safe_source source = Ok r
    /\ decode_archive canonical_chunk (zlen (so_bytes source)) key (r, []) = (Ok verified, (r', canonical));
  rn_decoded : decode_logical_stream canonical (va_record_count verified) = Ok decoded;
  rn_keys : exists k, dl_keys decoded = Some k /\ decode_vault_keys k = Ok keys;
  rn_vault : exists i root kek, o = opened_with (am_logical_vault_id (va_metadata verified)) i root kek keys;
  rn_transform : exists rv ds w n, w_ring w = op_ring o
    /\ transform_logical_snapshot (op_vault o) decoded verified mode now w = (Ok (s, rv, ds), set_w_draws n w);
  rn_related : related_records s = true;
  rn_report : rr_vault_id report = iv_vault_id (op_vault o)
    /\ rr_installation_id report = iv_installation_id (op_vault o)
    /\ rr_recovery_epoch report = am_source_recovery_epoch (va_metadata verified) + 1 }.

Lemma restore_body_Ok env source key mode now h report h' :
  restore_body env source key mode now h = (Ok report, h') ->
  exists verified canonical decoded keys o s,
    restore_run source key mode now report verified canonical decoded keys o s
    /\ restored_installation o s (rr_recovery_epoch report) h'.
Proof.
  unfold restore_body. intros H. apply prog_bind_Ok in H as (r & h0 & Hr & H). apply prog_lift_Ok in Hr as [Hr ->].
  destruct (decode_archive canonical_chunk _ key (r, [])) as [outcome [r' canonical]] eqn:Ed.
  apply prog_bind_Ok in H as (verified & h1 & Ho & H). apply prog_lift_Ok in Ho as [Ho ->]. apply map_err_Ok in Ho as ->.
  apply prog_bind_Ok in H as ([] & h1 & _ & H). apply prog_bind_Ok in H as (decoded & h2 & Hdec & H).
  apply prog_lift_Ok in Hdec as [Hdec ->]. apply prog_bind_Ok in H as (k & h3 & Hk & H).
  apply prog_lift_Ok in Hk as [Hk ->]. apply ok_or_Ok in Hk. apply prog_bind_Ok in H as (keys & h4 & Hkeys & H).
  apply prog_lift_Ok in Hkeys as [Hkeys ->]. apply prog_bind_Ok in H as (epoch & h5 & He & H).
  apply prog_lift_Ok in He as [He ->]. apply ok_or_Ok, checked_add_Some in He as [-> _].
  apply prog_bind_Ok in H as (o & h6 & Hst & H). apply prog_map_err_Ok, staging_Ok in Hst.
  apply prog_bind_Ok in H as ([[s rv] ds] & h7 & Hfill & H). apply with_vault_Ok in Hfill as (w' & Hfill & ->).
  destruct Hst as [(i & root & kek & Eo & Hload & b & dst & Hw & Ev & Ei & Hd & Hdst) Hp].
  destruct (begin_restore_fresh _ _ Hdst) as (Hfresh & _).
  apply (fill_vault_Ok env o decoded verified mode now _ h6 dst (br_vault_id b) (bootstrap_row b)) in Hfill
    as ((n & Ht) & (a & Hrows & Hact) & Hkept & He & Hrel); [|done..].
  apply prog_bind_Ok in H as ([] & h8 & Hre & H). apply prog_map_err_Ok, reopen_Ok in Hre as ->; [|by destruct Hp|done].
  apply prog_bind_Ok in H as ([] & h9 & Hact' & H). apply with_vault_Ok in Hact' as (w9 & Hact' & ->).
  apply bk_call_Ok in Hact' as (d9 & Hact' & ->); [|done]. apply prog_ret_Ok in H as [-> ->].
  exists verified, canonical, decoded, keys, o, s. split; [split; eauto 10|].
  - by exists rv, ds, (in_use o h6), n.
  - apply (activated_installation (am_logical_vault_id (va_metadata verified)) keys o h6 dst b s _ (w_db w') d9 (w_draws w') a);
      eauto 10.
Qed.
End Restore.

(** C21. A restore leaves a complete installation or nothing. A negative time or
    a destination that already has a database or a root key is refused and
    untouched. A restore that fails, at whatever step, leaves neither a database
    nor a root key, as long as the file system removes files. A restore that
    succeeds leaves an installation that opens as the reported vault, out of its
    guard, ready, in the reported epoch, with the audit event of the restore. *)
Theorem restore_all_or_nothing {CR : Crypto} {CL : CryptoLaws} {PH : PasswordHashing} {LJ : LogicalJson}
    {AF : ArchiveFormats} (env : RestoreEnv) (source : SourceFile) (key : ArchiveKey)
    (mode : CredentialRestoreMode) (now : Z) (h : Host) :
  let unusable := now < 0 \/ is_Some (h_database h) \/ is_Some (h_root_file h) in
  match restore_backup_file env source key mode now h with
  | (Ok report, h') => ~ unusable
      /\ exists o s, restored_installation o s (rr_recovery_epoch report) h'
         /\ iv_vault_id (op_vault o) = rr_vault_id report
         /\ iv_installation_id (op_vault o) = rr_installation_id report
  | (Err e, h') =>
      (unusable -> e = BInvalidInput /\ h' = h)
      /\ (~ unusable -> (re_database_removable env = true -> h_database h' = None)
                        /\ (re_root_removable env = true -> h_root_file h' = None))
  end.
Proof.
  intros unusable. unfold restore_backup_file.
  destruct ((now <? 0) || _ || _) eqn:E.
  - split; [done|]. intros Hn. exfalso. apply Hn. rewrite !orb_true_iff in E. destruct E as [[E|E]|E].
    + left. by apply Z.ltb_lt.
    + right; left. by destruct (h_database h).
    + right; right. by apply bool_decide_eq_true in E.
  - assert (~ unusable) as Hn.
    { rewrite !orb_false_iff in E. destruct E as [[E1 E2] E3]. intros [H|[[d H]|H]]; [by apply Z.ltb_ge in E1; lia| |].
      - by rewrite H in E2.
      - by apply bool_decide_eq_false in E3. }
    destruct (restore_body env source key mode now h) as [[report|e] h'] eqn:Eb.
    + split; [done|]. apply restore_body_Ok in Eb as (v & c & d & k & o & s & [_ _ _ _ _ _ (Rv & Ri & _)] & Hi).
      exists o, s. by split_and!.
    + split; [done|]. intros _. unfold remove_destination. cbn. split; by intros ->.
Qed.
