(* ===== verification/BackupRuns.v ===== *)
(** Creating a backup publishes a verified archive of the vault or nothing, and
    restoring what was published gives the vault back. *)
From Stdlib Require Import ZArith Lia Strings.Byte String.
From stdpp Require Import base tactics numbers option strings list gmap.
From S2P Require Import Prelude RustStd Core Crypto Format Sql Schema Records StoreInv RecordsOk PolicyStore VaultStore RotationStore IdentityStore Store Metadata VaultCore Initialization Authentication Authorization ServiceIdentity VaultAudit VaultRuns VaultProps AuthzProps InitializationProps Archive ArchiveProps ArchiveRuns RecordsProps Portable PortableProps Logical Backup LogicalProps BackupProps RestoreProps.

Section Create.
Context {CR : Crypto} {CL : CryptoLaws} {PH : PasswordHashing} {LJ : LogicalJson} {AF : ArchiveFormats}.

(** ** Steps *)

Lemma or_cleanup_Ok {A} (m : Prog Publishing BackupError A) f p a p' :
  or_cleanup m f p = (Ok a, p') <-> m p = (Ok a, p').
Proof. unfold or_cleanup. destruct (m p) as [[]]; naive_solver. Qed.

Lemma in_world_Ok {E A} (f : E -> BackupError) (m : Prog World E A) p a p' :
  in_world f m p = (Ok a, p') <-> exists w, m (pu_world p) = (Ok a, w) /\ p' = set_pu_world w p.
Proof. unfold in_world. destruct (m (pu_world p)) as [[] w]; cbn; naive_solver. Qed.

Lemma io_operation_Ok p u p' : io_operation p = (Ok u, p') -> exists l, p' = set_pu_outcomes l p.
Proof.
  unfold io_operation. destruct (pu_outcomes p) as [|[] l] eqn:E; intros H; simplify_eq.
  - exists []. destruct p'. cbn in *. by subst.
  - by exists l.
Qed.

(** The metadata of the archive of a snapshot. *)
Definition backup_metadata (s : PortableSnapshot) (now : Z) : ArchiveMetadata :=
  {| am_logical_vault_id := snp_vault_id s; am_source_installation_id := snp_source_installation_id s;
     am_source_recovery_epoch := snp_source_recovery_epoch s; am_source_schema_version := SCHEMA_VERSION;
     am_security_semantics_version := snp_security_semantics_version s; am_created_at_unix_ms := now |}.

(** [archive] is the archive of the vault's snapshot [s] under [key]. *)
Definition archive_of (self : InitializedVault) (ring : KeyRing) (d : Db) (key : ArchiveKey) (now : Z)
    (s : PortableSnapshot) (archive : blob) : Prop :=
  portable_snapshot d = Ok s
  /\ exists logical writing summary writing',
       encode_logical_snapshot self ring s = Ok logical
       /\ rd_bytes (wg_source writing) = logical /\ wr_bytes (wg_destination writing) = []
       /\ write_archive key (backup_metadata s now) default_archive_options writing = (Ok summary, writing')
       /\ wr_bytes (wg_destination writing') = archive.

Lemma write_and_verify_Ok self key now p v p' :
  quiet (pu_world p) -> write_and_verify_backup self key now p = (Ok v, p') ->
  exists s archive n,
    archive_of self (w_ring (pu_world p)) (w_db (pu_world p)) key now s archive
    /\ pu_temporary p' = Some archive /\ pu_destination p' = pu_destination p
    /\ pu_world p' = set_w_draws n (pu_world p)
    /\ fst (verify_archive (zlen archive) key {| rd_bytes := archive; rd_script := pu_reads p |}) = Ok v.
Proof.
  intros Hq H. unfold write_and_verify_backup in H.
  apply prog_bind_Ok in H as (s & p1 & Hs & H). apply in_world_Ok in Hs as (w1 & Hs & ->).
  apply bk_call_Ok in Hs as (d1 & Hs & ->); [|done]. injection Hs as Hs <-. rewrite set_w_db_same in H.
  apply prog_bind_Ok in H as (logical & p2 & Hl & H). apply in_world_Ok in Hl as (w2 & Hl & ->).
  apply prog_read_Ok in Hl as [Hl ->]. apply prog_bind_Ok in H as ([] & p3 & H3 & H). apply io_operation_Ok in H3 as [l3 ->].
  apply prog_bind_Ok in H as (summary & p4 & H4 & H).
  match type of H4 with context [write_archive _ _ _ ?w] => set (writing := w) in H4 end.
  destruct (write_archive _ _ _ writing) as [[x|] writing'] eqn:Ew; [|done]. injection H4 as <- <-.
  apply prog_bind_Ok in H as ([] & p5 & H5 & H). apply io_operation_Ok in H5 as [l5 ->].
  apply prog_bind_Ok in H as ([] & p6 & H6 & H). apply io_operation_Ok in H6 as [l6 ->].
  apply prog_bind_Ok in H as ([] & p7 & H7 & H). apply io_operation_Ok in H7 as [l7 ->].
  apply prog_read_Ok in H as [Hv ->]. apply map_err_Ok in Hv.
  exists s, (wr_bytes (wg_destination writing')), (wg_draws writing'). split_and!; try done.
  split; [done|]. by exists logical, writing, x, writing'.
Qed.

Lemma publish_Ok p u p' :
  publish p = (Ok u, p') ->
  pu_destination p' = pu_temporary p /\ pu_world p' = pu_world p /\ pu_removable p' = pu_removable p.
Proof.
  unfold publish. intros H. destruct (io_operation p) as [[[]|] p1] eqn:E; [|done]. apply io_operation_Ok in E as [l ->].
  destruct (pu_destination _); [done|]. by injection H as <- <-.
Qed.

Lemma discard_temporary_Ok p u p' :
  discard_temporary p = (Ok u, p') ->
  pu_destination p' = pu_destination p /\ pu_temporary p' = None /\ pu_world p' = pu_world p.
Proof.
  unfold discard_temporary. intros H. destruct (io_operation p) as [[[]|] p1] eqn:E; [|done].
  apply io_operation_Ok in E as [l ->]. by injection H as <- <-.
Qed.

Lemma build_audit_target self action kind target op w a w' :
  build_audit self action kind target op w = (Ok a, w') -> ar_target_id a = target.
Proof. unfold build_audit, build_audit_outcome. intros H. by minv. Qed.

(** What a successful creation leaves. *)
Record published (self : InitializedVault) (key : ArchiveKey) (now : Z) (p : Publishing)
    (report : BackupFileReport) (s : PortableSnapshot) (archive : blob) (p' : Publishing) : Prop := {
  pb_absent : pu_destination p = None;
  pb_archive : archive_of self (w_ring (pu_world p)) (w_db (pu_world p)) key now s archive;
  pb_verified : exists v, fst (verify_archive (zlen archive) key {| rd_bytes := archive; rd_script := pu_reads p |}) = Ok v
    /\ bf_archive_id report = ph_archive_id (va_header v) /\ bf_record_count report = va_record_count v
    /\ bf_logical_bytes report = va_logical_bytes v /\ bf_archive_bytes report = zlen archive;
  pb_files : pu_destination p' = Some archive /\ pu_temporary p' = None;
  pb_audit : exists a t n, pu_world p' = set_w_draws n (set_w_db (set_audit t (w_db (pu_world p))) (pu_world p))
    /\ rows t = rows (db_audit (w_db (pu_world p))) ++ [audit_row a] /\ ar_action a = "backup:create"
    /\ ar_target_id a = Some (bf_archive_id report) }.

Lemma create_Ok self path key now p report p' :
  quiet (pu_world p) -> create_backup_file self path key now p = (Ok report, p') ->
  exists s archive, published self key now p report s archive p' /\ 0 <= now.
Proof.
  intros Hq H. unfold create_backup_file in H.
  apply prog_bind_Ok in H as ([] & p0 & Hg & H). apply prog_reject_Ok in Hg as [Hg ->]. bprop.
  apply prog_bind_Ok in H as (? & p0 & Hg1 & H). apply prog_lift_Ok in Hg1 as [_ ->].
  apply prog_bind_Ok in H as ([] & p0 & Hg2 & H). apply prog_read_Ok in Hg2 as [Hg2 ->].
  apply prog_bind_Ok in H as (? & p0 & Hg3 & H). apply prog_lift_Ok in Hg3 as [_ ->].
  apply prog_bind_Ok in H as (? & p0 & Hid & H). apply in_world_Ok in Hid as (w0 & Hid & ->).
  apply random_id_Ok in Hid as [_ ->].
  apply prog_bind_Ok in H as (v & p1 & H1 & H). apply or_cleanup_Ok, write_and_verify_Ok in H1
    as (s & archive & n & Hof & Ht & Hd & Hw & Hv); [|done].
  apply prog_bind_Ok in H as ([] & p2 & H2 & H). apply or_cleanup_Ok, io_operation_Ok in H2 as [l2 ->].
  apply prog_bind_Ok in H as (bytes & p3 & H3 & H). apply prog_read_Ok in H3 as [H3 ->].
  apply prog_bind_Ok in H as (a & p4 & H4 & H). apply or_cleanup_Ok, prog_bind_Ok in H4 as (rid & p5 & H5 & H4).
  apply in_world_Ok in H5 as (w5 & H5 & ->). apply random_id_Ok in H5 as [_ ->].
  apply in_world_Ok in H4 as (w4 & Ha & ->).
  pose proof (build_audit_action _ _ _ _ _ _ _ _ Ha) as Hact. pose proof (build_audit_target _ _ _ _ _ _ _ _ Ha) as Htgt.
  apply build_audit_outcome_Ok in Ha as [m ->]; [|cbn; rewrite Hw; exact Hq].
  apply prog_bind_Ok in H as ([] & p6 & H6 & H). apply or_cleanup_Ok, in_world_Ok in H6 as (w6 & H6 & ->).
  apply bk_call_Ok in H6 as (d6 & H6 & ->); [|cbn; rewrite Hw; exact Hq].
  apply append_audit_Ok in H6 as (t & -> & Hrt & _).
  apply prog_bind_Ok in H as ([] & p7 & H7 & H). apply or_cleanup_Ok, publish_Ok in H7 as (D7 & W7 & _).
  apply or_cleanup_Ok, prog_bind_Ok in H as ([] & p8 & H8 & H).
  apply or_cleanup_Ok, discard_temporary_Ok in H8 as (D8 & T8 & W8).
  apply prog_bind_Ok in H as ([] & p9 & H9 & H). apply io_operation_Ok in H9 as [l9 ->].
  apply prog_bind_Ok in H as ([] & p10 & H10 & H). apply io_operation_Ok in H10 as [l10 ->].
  apply prog_ret_Ok in H as [-> ->]. cbn in *. rewrite Hw in *. rewrite Ht in *. cbn in *.
  exists s, archive. split; [|tauto]. split; cbn.
  - by destruct (pu_destination p).
  - done.
  - exists v. injection H3 as <-. by split_and!.
  - by rewrite D8, D7.
  - exists a, t, m. rewrite W8, W7. by split_and!.
Qed.

(** ** Failures *)

Lemma prog_bind_Err {S E A B} (m : Prog S E A) (k : A -> Prog S E B) s e s'' :
  prog_bind m k s = (Err e, s'') <->
  m s = (Err e, s'') \/ exists a s', m s = (Ok a, s') /\ k a s' = (Err e, s'').
Proof. unfold prog_bind. destruct (m s) as [[a|x] s'] eqn:E1; naive_solver. Qed.

(** A step that leaves the destination alone. *)
Definition spares {A} (m : Prog Publishing BackupError A) : Prop :=
  forall p, pu_destination (snd (m p)) = pu_destination p /\ pu_removable (snd (m p)) = pu_removable p.

Lemma spares_bind {A B} (m : Prog Publishing BackupError A) (k : A -> Prog Publishing BackupError B) :
  spares m -> (forall a, spares (k a)) -> spares (prog_bind m k).
Proof.
  intros Hm Hk p. unfold prog_bind. destruct (Hm p) as [H1 H2]. destruct (m p) as [[a|e] p']; cbn in *; [|done].
  destruct (Hk a p') as [H3 H4]. split; congruence.
Qed.
Lemma spares_in_world {E A} (f : E -> BackupError) (m : Prog World E A) : spares (in_world f m).
Proof. intros p. unfold in_world. by destruct (m (pu_world p)). Qed.
Lemma spares_read {A} (f : Publishing -> result BackupError A) : spares (prog_read f).
Proof. done. Qed.
Lemma spares_io : spares io_operation.
Proof. intros p. unfold io_operation. by destruct (pu_outcomes p). Qed.

Lemma spares_write self key now : spares (write_and_verify_backup self key now).
Proof.
  unfold write_and_verify_backup.
  repeat (apply spares_bind; [auto using spares_in_world, spares_io|intros]); [|apply spares_read].
  intros p. by destruct (write_archive _ _ _ _).
Qed.

Lemma cleaned {A} (m : Prog Publishing BackupError A) p e p' :
  spares m -> pu_removable p = true -> or_cleanup m remove_temporary p = (Err e, p') ->
  pu_destination p' = pu_destination p /\ pu_temporary p' = None.
Proof.
  intros Hm Hr H. unfold or_cleanup in H. destruct (Hm p) as [H1 H2]. destruct (m p) as [[a|x] p1]; [done|].
  injection H as -> <-. cbn in *. unfold remove_temporary. rewrite H2, Hr. done.
Qed.

Lemma spared {A} (m : Prog Publishing BackupError A) p a p' :
  spares m -> or_cleanup m remove_temporary p = (Ok a, p') ->
  pu_destination p' = pu_destination p /\ pu_removable p' = pu_removable p.
Proof. intros Hm H. apply or_cleanup_Ok in H. specialize (Hm p). by rewrite H in Hm. Qed.

(** After the link was made, a failure removes both names. *)
Lemma published_cleaned (report : BackupFileReport) p e p' :
  pu_removable p = true ->
  or_cleanup (do! _ := or_cleanup discard_temporary remove_temporary in
              do! _ := io_operation in do! _ := io_operation in prog_ret report) remove_published p = (Err e, p') ->
  pu_destination p' = None /\ pu_temporary p' = None.
Proof.
  intros Hr H. unfold or_cleanup, discard_temporary, io_operation, remove_temporary, remove_published, prog_bind, prog_ret in H.
  repeat (case_match; simplify_eq/=; try congruence); done.
Qed.

Lemma publish_Err p e p' :
  pu_removable p = true -> or_cleanup publish remove_temporary p = (Err e, p') ->
  pu_destination p' = pu_destination p /\ pu_temporary p' = None.
Proof.
  intros Hr H. unfold or_cleanup, publish, io_operation, remove_temporary in H.
  repeat (case_match; simplify_eq/=; try congruence); done.
Qed.

Lemma create_Err self path key now p e p' :
  pu_temporary p = None -> pu_removable p = true -> create_backup_file self path key now p = (Err e, p') ->
  pu_destination p' = pu_destination p /\ pu_temporary p' = None.
Proof.
  intros Ht Hr H. unfold create_backup_file in H.
  apply prog_bind_Err in H as [[= _ <-]|([] & p0 & Hg & H)]; [done|]. apply prog_reject_Ok in Hg as [_ ->].
  apply prog_bind_Err in H as [[= _ <-]|(? & p0 & Hg & H)]; [done|]. apply prog_lift_Ok in Hg as [_ ->].
  apply prog_bind_Err in H as [[= _ <-]|([] & p0 & Hg & H)]; [done|]. apply prog_read_Ok in Hg as [Hg ->].
  apply prog_bind_Err in H as [[= _ <-]|(? & p0 & Hg1 & H)]; [done|]. apply prog_lift_Ok in Hg1 as [_ ->].
  apply prog_bind_Err in H as [[=]|(? & p0 & Hid & H)]. apply in_world_Ok in Hid as (w0 & _ & ->).
  apply prog_bind_Err in H as [H|(v & p1 & H1 & H)]; [by eapply cleaned in H; [|apply spares_write|]|].
  apply spared in H1 as [D1 R1]; [|apply spares_write]. cbn in D1, R1. rewrite Hr in R1. rewrite <- D1.
  apply prog_bind_Err in H as [H|([] & p2 & H2 & H)]; [by eapply cleaned in H; [|apply spares_io|]|].
  apply spared in H2 as [D2 R2]; [|apply spares_io]. rewrite R1 in R2. rewrite <- D2.
  apply prog_bind_Err in H as [[=]|(bytes & p3 & H3 & H)]. apply prog_read_Ok in H3 as [_ ->].
  apply prog_bind_Err in H as [H|(a & p4 & H4 & H)];
    [by eapply cleaned in H; [|apply spares_bind; intros; apply spares_in_world|]|].
  apply spared in H4 as [D4 R4]; [|apply spares_bind; intros; apply spares_in_world]. rewrite R2 in R4. rewrite <- D4.
  apply prog_bind_Err in H as [H|([] & p5 & H5 & H)]; [by eapply cleaned in H; [|apply spares_in_world|]|].
  apply spared in H5 as [D5 R5]; [|apply spares_in_world]. rewrite R4 in R5. rewrite <- D5.
  apply prog_bind_Err in H as [H|([] & p6 & H6 & H)]; [by eapply publish_Err in H|].
  apply or_cleanup_Ok, publish_Ok in H6 as (_ & _ & R6). rewrite R5 in R6.
  apply published_cleaned in H as [-> ->]; [|done]. rewrite D5, D4, D2, D1. by destruct (pu_destination p).
Qed.

(** C22. Creating a backup publishes a verified archive or nothing. On success
    the destination, which did not exist, holds an archive of the snapshot of the
    vault, it was read back and verified, the temporary name is gone, and the
    audit log has gained the event of the archive. On any failure, at whatever
    step, the destination is as it was and no temporary file is left, as long as
    the file system removes files. *)
Theorem backup_published_or_nothing (self : InitializedVault) (path : BackupPath) (key : ArchiveKey) (now : Z)
    (p : Publishing) (Hq : quiet (pu_world p)) (Htemporary : pu_temporary p = None)
    (Hremovable : pu_removable p = true) :
  match create_backup_file self path key now p with
  | (Ok report, p') => exists s archive, published self key now p report s archive p'
  | (Err _, p') => pu_destination p' = pu_destination p /\ pu_temporary p' = None
  end.
Proof.
  destruct (create_backup_file self path key now p) as [[report|e] p'] eqn:E.
  - apply create_Ok in E as (s & archive & H & _); eauto.
  - by eapply create_Err.
Qed.
End Create.

(** ** Reading an archive into a bounded stream *)

Section Consumer.
Context {CR : Crypto} {AF : ArchiveFormats}.

(** What [m] returns, [m'] returns. *)
Definition within_run {S E A} (m m' : Prog S E A) : Prop :=
  forall s a s', m s = (Ok a, s') -> m' s = (Ok a, s').

Lemma within_bind {S E A B} (m m' : Prog S E A) (k k' : A -> Prog S E B) :
  within_run m m' -> (forall a, within_run (k a) (k' a)) -> within_run (prog_bind m k) (prog_bind m' k').
Proof.
  intros Hm Hk s b s'' H. apply prog_bind_Ok in H as (a & s' & H1 & H2). unfold prog_bind.
  rewrite (Hm _ _ _ H1). by apply Hk.
Qed.

Lemma within_same {S E A} (m : Prog S E A) : within_run m m.
Proof. by intros s a s'. Qed.

Lemma within_feed chunk : within_run (feed (canonical_chunk chunk)) (feed (collect chunk)).
Proof.
  intros [r c] u s'. unfold feed, canonical_chunk, collect. cbn.
  repeat (case_match; simplify_eq/=; try done).
Qed.

Lemma within_loop fuel key archive_id chunk_bytes t :
  within_run (decode_loop canonical_chunk fuel key archive_id chunk_bytes t)
             (decode_loop collect fuel key archive_id chunk_bytes t).
Proof.
  revert t. induction fuel as [|fuel IH]; intros t; [apply within_same|]. cbn [decode_loop].
  apply within_bind; [apply within_same|]. intros [[kind plaintext] size].
  do 2 (apply within_bind; [apply within_same|intros]). destruct (kind =? 2); [|apply within_same].
  do 3 (apply within_bind; [apply within_same|intros]). apply within_bind; [apply within_feed|intros []]. apply IH.
Qed.

Lemma within_archive total key :
  within_run (decode_archive canonical_chunk total key) (decode_archive collect total key).
Proof.
  unfold decode_archive. apply within_bind; [|intros [[[h m] t] fm]; apply within_same].
  unfold read_body. apply within_bind; [apply within_same|intros [[h dek] n]].
  apply within_bind; [apply within_same|intros [[kind bytes] size]].
  do 3 (apply within_bind; [apply within_same|intros]). apply within_bind; [|intros; apply within_same].
  intros s x s'. unfold decode_data. apply within_loop.
Qed.
End Consumer.

(** ** The round trip *)

Section RoundTrip.
Context {CR : Crypto} {CL : CryptoLaws} {PH : PasswordHashing} {LJ : LogicalJson} {LL : LogicalJsonLaws}
  {AF : ArchiveFormats} {AL : ArchiveLaws}.

Lemma snapshot_widths d s : portable_snapshot d = Ok s ->
  in_u64 (snp_source_recovery_epoch s) /\ in_u32 (snp_security_semantics_version s).
Proof.
  unfold portable_snapshot. intros H. minv. unfold parse_uint in *. minv. cbn.
  repeat match goal with H : try_from _ _ = Some _ |- _ => apply try_from_Some in H as [-> ?] end. done.
Qed.

(** A restore reads the stream that a creation wrote. *)
Lemma restored_stream self ring d key now s archive source r r' v canonical :
  archive_of self ring d key now s archive -> in_i64 now -> so_bytes source = archive ->
  Forall (fun e => match e with ReadAtMost _ => True | _ => False end) (so_script source) ->
  open_safe_source source = Ok r ->
  decode_archive canonical_chunk (zlen (so_bytes source)) key (r, []) = (Ok v, (r', canonical)) ->
  encode_logical_snapshot self ring s = Ok canonical /\ va_metadata v = backup_metadata s now.
Proof.
  intros [Hs (logical & wr & summary & wr' & Hl & E1 & E2 & Hw & E3)] Hnow Hb Hst Ho Hrun.
  apply within_archive in Hrun. unfold open_safe_source in Ho.
  repeat match type of Ho with (if ?b then _ else _) = _ => destruct b eqn:?; [done|] end. injection Ho as <-.
  bprop. destruct_and!. rewrite Hb in *.
  destruct (written_archive_reads key (backup_metadata s now) default_archive_options wr wr' summary archive
    {| rd_bytes := archive; rd_script := so_script source |}) as [_ (v' & r'' & Hrun' & _ & Hm & _)]; try done.
  - destruct (snapshot_widths _ _ Hs). split_and!; done.
  - by rewrite E2.
  - unfold MAX_PORTABLE_FILE_BYTES, MAX_ARCHIVE_BYTES in *. lia.
  - rewrite Hrun in Hrun'. injection Hrun' as <- _ ->. by rewrite E1.
Qed.

(** A stored version is read as it was restored. *)
Lemma stored_version_reads s later d v :
  holds_rows s later d -> v ∈ snp_secret_versions s -> er_typed (pv_payload v) ->
  encrypted_secret_version d (pv_secret_id v) (pv_version v) = Ok (pv_payload v).
Proof.
  intros Hd Hv Ht. pose proof (hr_versions _ _ _ Hd) as HF. unfold stores in HF.
  apply list_elem_of_lookup_1 in Hv as [n Hn]. destruct (Forall2_lookup_l _ _ _ _ _ HF Hn) as (a & Ha & Hrow).
  apply list_elem_of_lookup_2 in Ha. unfold version_to_row in Hrow. minv.
  apply sql_u64_Ok in H as [-> Hw]. pose proof (hr_tables _ _ _ Hd) as Ht'.
  unfold encrypted_secret_version. rewrite sql_i64_Ok by done. cbn [result_bind].
  rewrite (proj2 (find_version_Some d (arr (pv_secret_id v)) (pv_version v) _ Ht') (conj Ha (conj eq_refl eq_refl))). cbn [ok_or result_bind].
  apply parse_encrypted_stored; [|done].
  pose proof (table_ok_check _ _ _ (ok_versions _ Ht') Ha) as Hc. cbn in Hc. unfold between in Hc.
  rewrite !andb_true_iff in Hc. destruct_and!. lia.
Qed.

Lemma restored_versions_read self ring o mode later s s' d tail v :
  restored_snapshot self ring (op_vault o) (op_ring o) mode later s s' -> holds_rows s' tail d ->
  in_u32 (kr_active_version (op_ring o)) -> v ∈ snp_secret_versions s ->
  exists plaintext e,
    decrypt_record self ring (pv_payload v) OSecretVersion OWrappedDataKey (pv_secret_id v) (pv_version v)
      = Ok plaintext
    /\ encrypted_secret_version d (pv_secret_id v) (pv_version v) = Ok e
    /\ decrypt_record (op_vault o) (op_ring o) e OSecretVersion OWrappedDataKey (pv_secret_id v) (pv_version v)
       = Ok plaintext.
Proof.
  intros Hs Hd Hk Hv. pose proof (rs_versions _ _ _ _ _ _ _ _ Hs) as HF.
  apply list_elem_of_lookup_1 in Hv as [n Hn]. destruct (Forall2_lookup_l _ _ _ _ _ HF Hn) as (v' & Hv' & Hf & p & H1 & H2 & H3).
  apply list_elem_of_lookup_2 in Hv'. injection Hf as E1 E2 _ _ _. exists p, (pv_payload v'). split; [done|]. split; [|done].
  rewrite <- E1, <- E2. eapply stored_version_reads; [done..|]. unfold er_typed. by rewrite H3.
Qed.

(** C20. A restored backup gives the vault back. When a backup was created and
    restoring the published file with its key succeeds, the new installation
    opens as a vault with the identity and the keys of the source, ready and one
    recovery epoch later. It holds the snapshot of the source: every secret
    version that the source held is read from it and decrypts to the plaintext
    the source decrypts it to, every other record is restored with its facts
    and plaintext, active passkeys are revoked, and live credentials when the
    restore asks for it. *)
Theorem restored_backup_reads_back (self : InitializedVault) (path : BackupPath) (key : ArchiveKey)
    (now later : Z) (p p' : Publishing) (created : BackupFileReport) (env : RestoreEnv) (source : SourceFile)
    (mode : CredentialRestoreMode) (h h' : Host) (report : RestoreReport)
    (Hq : quiet (pu_world p)) (Hnow : in_i64 now)
    (Hcreate : create_backup_file self path key now p = (Ok created, p'))
    (Hfile : pu_destination p' = Some (so_bytes source))
    (Hsteady : Forall (fun e => match e with ReadAtMost _ => True | _ => False end) (so_script source))
    (Hrestore : restore_backup_file env source key mode later h = (Ok report, h')) :
  exists s s' o,
    portable_snapshot (w_db (pu_world p)) = Ok s
    /\ op_vault o = {| iv_vault_id := snp_vault_id s; iv_installation_id := rr_installation_id report;
                       iv_blind_index_key := iv_blind_index_key self; iv_audit_key := iv_audit_key self;
                       iv_token_verifier_key := iv_token_verifier_key self |}
    /\ restored_installation o s' (snp_source_recovery_epoch s + 1) h'
    /\ restored_snapshot self (w_ring (pu_world p)) (op_vault o) (op_ring o) mode later s s'
    /\ forall v, v ∈ snp_secret_versions s -> exists plaintext e,
         decrypt_record self (w_ring (pu_world p)) (pv_payload v) OSecretVersion OWrappedDataKey
           (pv_secret_id v) (pv_version v) = Ok plaintext
         /\ encrypted_secret_version (h_db h') (pv_secret_id v) (pv_version v) = Ok e
         /\ decrypt_record (op_vault o) (op_ring o) e OSecretVersion OWrappedDataKey
              (pv_secret_id v) (pv_version v) = Ok plaintext.
Proof.
  apply create_Ok in Hcreate as (s & archive & Hp & _); [|done].
  destruct (pb_files _ _ _ _ _ _ _ _ Hp) as [Hd _]. rewrite Hd in Hfile. injection Hfile as ->.
  pose proof (pb_archive _ _ _ _ _ _ _ _ Hp) as Hof.
  unfold restore_backup_file in Hrestore. destruct (_ || _); [done|].
  destruct (restore_body env source key mode later h) as [[x|] h1] eqn:Eb; [|done]. injection Hrestore as -> ->.
  apply restore_body_Ok in Eb as (v & canonical & decoded & keys & o & s' & Hrun & Hi).
  destruct Hrun as [(r & r' & Ho & Hdec) Hl (k & Hk & Hkeys) (i & root & kek & ->) (rv & ds & w & n & Hw & Ht) _ (Rv & Ri & Re)].
  destruct (restored_stream _ _ _ _ _ _ _ _ _ _ _ _ Hof Hnow eq_refl Hsteady Ho Hdec) as [Hl' Hm].
  pose proof (encode_logical_decodes _ _ _ _ _ _ Hl' Hl) as Hc.
  destruct (cy_keys _ _ _ _ Hc) as (k' & Hk' & Hkeys').
  rewrite Hk in Hk'. injection Hk' as <-. rewrite Hkeys in Hkeys'. injection Hkeys' as ->.
  destruct (transform_restores self (w_ring (pu_world p)) _ _ _ _ _ _ _ _ _ _ Ht) as [_ Hs]. specialize (Hs s Hc).
  rewrite Hw, Hm in Hs. rewrite Re, Hm in Hi.
  match type of Hi with restored_installation ?o _ _ _ => exists s, s', o end.
  split; [by destruct Hof|]. split; [by rewrite Ri|]. split; [exact Hi|]. split; [exact Hs|].
  intros u Hu. destruct (ri_rows _ _ _ _ Hi) as (a & Hrows & _). by eapply restored_versions_read.
Qed.

(** ** Grants on purged secrets *)

(** A purge removes the secret and keeps every grant. *)
Lemma purge_keeps_grants q a d u d' :
  purge_secret q a d = (Ok u, d') ->
  db_grants d' = db_grants d
  /\ forall r, r ∈ rows (db_secrets d') -> sec_secret_id r <> arr (sp_secret_id q).
Proof.
  intros H. unfold purge_secret in H. txn_purge. cbn. split; [done|]. intros r Hr.
  by apply elem_of_rows_delete in Hr as [_ Hr%blob_eqb_false].
Qed.

(** The snapshot of a database with a grant on a secret that it does not hold. *)
Lemma dangling_grant_read d s g (id : SecretId) :
  portable_snapshot d = Ok s -> g ∈ rows (db_grants d) -> gr_resource_kind g = "secret" ->
  gr_resource_id g = arr id -> (forall r, r ∈ rows (db_secrets d) -> sec_secret_id r <> arr id) ->
  exists pg, pg ∈ snp_grants s /\ grant_target_exists s pg = false.
Proof.
  intros Hs Hg Hk Hid Hno. unfold portable_snapshot in Hs. minv. unfold read_grants, read_secrets in *.
  match goal with H : result_mapM portable_grant _ = Ok ?l |- _ => rename l into gs; apply result_mapM_Forall2 in H as HG end.
  match goal with H : result_mapM portable_secret _ = Ok ?l |- _ => rename l into ss; rename H into HS end.
  rewrite <- (order_by_perm (by_blob gr_grant_id)) in Hg. apply list_elem_of_lookup_1 in Hg as [n Hn].
  destruct (Forall2_lookup_l _ _ _ _ _ HG Hn) as (pg & Hpg & Hrow). apply list_elem_of_lookup_2 in Hpg.
  exists pg. split; [done|]. unfold portable_grant in Hrow. minv. unfold grant_target_exists. cbn.
  rewrite Hk in *. rewrite Hid, parse_uuid_arr in *. unfold parse_resource_kind in *. simplify_eq/=.
  apply bool_decide_eq_false. intros Hin. apply list_elem_of_fmap in Hin as (sx & -> & Hx).
  destruct (result_mapM_elem _ _ _ _ HS Hx) as (r & Hr & Hps). rewrite order_by_perm in Hr.
  apply (Hno r Hr). unfold portable_secret in Hps. minv. cbn. unfold parse_uuid in *. minv.
  by match goal with H : try_array 16 (sec_secret_id r) = Some _ |- _ => apply try_array_Some in H end.
Qed.

(** A restored snapshot has the objects of its source. *)
Lemma restored_targets self ring dest ring' mode now s s' g :
  restored_snapshot self ring dest ring' mode now s s' -> grant_target_exists s' g = grant_target_exists s g.
Proof.
  intros [HN HS _ _ _ _ _ _ _ _ _ _ _]. unfold grant_target_exists.
  assert (pn_namespace_id <$> snp_namespaces s' = pn_namespace_id <$> snp_namespaces s) as ->.
  { clear -HN. induction HN as [|x y ? ? [Hf _] ? IH]; [done|]. csimpl. injection Hf. intros. congruence. }
  assert (ps_secret_id <$> snp_secrets s' = ps_secret_id <$> snp_secrets s) as ->; [|done].
  clear -HS. induction HS as [|x y ? ? [Hf _] ? IH]; [done|]. csimpl. injection Hf. intros. congruence.
Qed.

(** C39. The code does not restore what it may have written: a purge keeps the
    grants on the purged secret, so from then on the backups of the vault are
    created and verified, and the restore of each of them fails. *)
Theorem purged_grant_blocks_restore (q : SecretPurge) (a : AuditRecord) (d d' : Db) (g : GrantRow)
    (Hpurge : purge_secret q a d = (Ok tt, d')) (Hgrant : g ∈ rows (db_grants d))
    (Hkind : gr_resource_kind g = "secret") (Hresource : gr_resource_id g = arr (sp_secret_id q))
    (self : InitializedVault) (path : BackupPath) (key : ArchiveKey) (now : Z) (p p' : Publishing)
    (created : BackupFileReport) (source : SourceFile)
    (Hq : quiet (pu_world p)) (Hdb : w_db (pu_world p) = d') (Hnow : in_i64 now)
    (Hcreate : create_backup_file self path key now p = (Ok created, p'))
    (Hfile : pu_destination p' = Some (so_bytes source))
    (Hsteady : Forall (fun e => match e with ReadAtMost _ => True | _ => False end) (so_script source)) :
  forall env mode later h, exists e, fst (restore_backup_file env source key mode later h) = Err e.
Proof.
  intros env mode later h. apply create_Ok in Hcreate as (s & archive & Hp & _); [|done].
  destruct (pb_files _ _ _ _ _ _ _ _ Hp) as [Hd _]. rewrite Hd in Hfile. injection Hfile as ->.
  pose proof (pb_archive _ _ _ _ _ _ _ _ Hp) as Hof. rewrite Hdb in Hof.
  unfold restore_backup_file. destruct (_ || _); [by eexists|].
  destruct (restore_body env source key mode later h) as [[x|] h1] eqn:Eb; [exfalso|by eexists].
  apply restore_body_Ok in Eb as (v & canonical & decoded & keys & o & s' & Hrun & _).
  destruct Hrun as [(r & r' & Ho & Hdec) Hl _ _ (rv & ds & w & n & Hw & Ht) Hrel _].
  destruct (restored_stream _ _ _ _ _ _ _ _ _ _ _ _ Hof Hnow eq_refl Hsteady Ho Hdec) as [Hl' _].
  pose proof (encode_logical_decodes _ _ _ _ _ _ Hl' Hl) as Hc.
  destruct (transform_restores self (w_ring (pu_world p)) _ _ _ _ _ _ _ _ _ _ Ht) as [_ Hs]. specialize (Hs s Hc).
  destruct (purge_keeps_grants _ _ _ _ _ Hpurge) as [Eg Hno]. rewrite <- Eg in Hgrant.
  destruct (dangling_grant_read d' s g _ (proj1 Hof) Hgrant Hkind Hresource Hno) as (pg & Hpg & Hbad).
  rewrite <- (restored_targets _ _ _ _ _ _ _ _ pg Hs) in Hbad. rewrite <- (rs_grants _ _ _ _ _ _ _ _ Hs) in Hpg.
  unfold related_records in Hrel. rewrite !andb_true_iff in Hrel. destruct_and!.
  match goal with H : forallb (fun g => grant_target_exists _ _ && _) _ = true |- _ => rewrite forallb_forall in H;
    specialize (H pg (proj1 (list_elem_of_In _ _) Hpg)); apply andb_true_iff in H as [? _] end. congruence.
Qed.
End RoundTrip.
