(* ===== verification/BackupWitnesses.v ===== *)
(** The snapshot of a concrete vault, imported into a restore destination; an
    executable serialization, and the theorems about backups applied to a vault
    that is backed up and restored. *)
From Stdlib Require Import ZArith Lia Strings.Byte String.
From stdpp Require Import base tactics numbers option strings list gmap.
From S2P Require Import Prelude RustStd Core Crypto Format ToyCrypto Sql Schema Records StoreInv PolicyStore VaultStore IdentityStore Store Metadata VaultCore Initialization Authentication Authorization ServiceIdentity ToyVault VaultAudit VaultRuns InitializationProps Archive ArchiveProps ArchiveRuns VaultTree Witnesses ArchiveWitnesses Portable PortableProps Logical Backup LogicalProps BackupProps RestoreProps BackupRuns.

#[local] Existing Instance toy_crypto.

Abbreviation source_db := (w_db demo_world).
Definition source_row : InstallationRow := set_activation "ready" (Some 1) (bootstrap_row toy_bootstrap).

Lemma empty_rows {A} (P : A -> Prop) (l : list A) a : l = [] -> a ∈ l -> P a.
Proof. intros -> H. by apply not_elem_of_nil in H. Qed.

Lemma source_epochs : forallb (fun a => au_recovery_epoch a <=? i64_max) (rows (db_audit source_db)) = true.
Proof. vm_compute. reflexivity. Qed.

Lemma source_widths : stored_widths source_db.
Proof.
  split.
  - intros t. by apply (empty_rows (fun t => tomb_last_version t <= i64_max)); vm_compute.
  - intros t. by apply (empty_rows (fun t => pr_revision t <= i64_max)); vm_compute.
  - intros t. by apply (empty_rows (fun t => si_metadata_version t <= i64_max /\ si_metadata_kek_version t <= u32_max)); vm_compute.
  - intros t. by apply (empty_rows (fun t => ac_revision t <= i64_max)); vm_compute.
  - intros t. by apply (empty_rows (fun t => pol_revision t <= i64_max /\ pol_metadata_version t <= i64_max
      /\ pol_metadata_kek_version t <= u32_max)); vm_compute.
  - intros a Ha. apply Z.leb_le. exact (proj1 (forallb_rows _ _) source_epochs a Ha).
  - vm_compute. by repeat split.
Qed.

Lemma source_installation : db_installation source_db = Some source_row.
Proof. vm_compute. reflexivity. Qed.
Lemma source_references : foreign_key_check source_db = true.
Proof. vm_compute. reflexivity. Qed.
Lemma source_grants : rows (db_grants source_db) = [].
Proof. vm_compute. reflexivity. Qed.

Lemma source_portable : portable_ok source_db source_row.
Proof.
  split; [exact (wk_db _ _ demo_world_ok)|exact source_references|exact demo_forest|exact source_widths
    | |exact source_installation|vm_compute; by repeat split].
  intros g. apply (empty_rows (fun g => is_Some (Core.action_from_str (gr_action g)))). exact source_grants.
Qed.

Definition destination_db : Db := snd (begin_restore_initialization toy_bootstrap empty_db).
Lemma destination_begun : begin_restore_initialization toy_bootstrap empty_db = (Ok Begun, destination_db).
Proof. vm_compute. reflexivity. Qed.

Lemma snapshot_import_round_trips_witness :
  exists s dst', portable_snapshot source_db = Ok s
    /\ import_portable_snapshot s 1 destination_db = (Ok tt, dst')
    /\ holds_snapshot s dst' /\ db_ok dst' /\ foreign_key_check dst' = true
    /\ kept 1 s (bootstrap_row toy_bootstrap) destination_db dst'.
Proof.
  exact (snapshot_import_round_trips source_db source_row source_portable toy_bootstrap destination_db 1
    destination_begun eq_refl ltac:(unfold i64_max; lia)).
Defined.

#[local] Existing Instance toy_crypto.
#[local] Existing Instance toy_laws.

(** * A serialization *)

(** The text of a value is its position among the known ones. *)
Definition position_of {T} `{EqDecision T} (l : list T) (x : T) : option blob :=
  p ← list_find (eq x) l;
  if Nat.ltb p.1 256 then Some [byte_of_Z (Z.of_nat p.1)] else None.
Definition value_at {T} (l : list T) (b : blob) : option T :=
  match b with [c] => l !! Z.to_nat (Z_of_byte c) | _ => None end.
Definition dictionary {T} `{EqDecision T} (l : list T) : codec T :=
  {| to_vec := position_of l; from_slice := value_at l |}.

Lemma dictionary_law {T} `{EqDecision T} (l : list T) : codec_law (dictionary l).
Proof.
  intros x b H. change (position_of l x = Some b) in H. unfold position_of in H.
  apply bind_Some in H as ([i y] & Hf & H). apply list_find_Some in Hf as (Hi & <- & _).
  cbn [fst] in H. destruct (Nat.ltb_spec i 256); [|done]. injection H as <-.
  change (l !! Z.to_nat (Z_of_byte (byte_of_Z (Z.of_nat i))) = Some x).
  rewrite Z_of_byte_of_Z, Z.mod_small by lia. by rewrite Nat2Z.id.
Qed.

Instance LogicalKeys_eq : EqDecision LogicalKeys. Proof. solve_decision. Defined.
Instance LogicalNamespace_eq : EqDecision LogicalNamespace. Proof. solve_decision. Defined.
Instance LogicalSecret_eq : EqDecision LogicalSecret. Proof. solve_decision. Defined.
Instance LogicalSecretVersion_eq : EqDecision LogicalSecretVersion. Proof. solve_decision. Defined.
Instance LogicalTombstone_eq : EqDecision LogicalTombstone. Proof. solve_decision. Defined.
Instance LogicalAuthorizationState_eq : EqDecision LogicalAuthorizationState. Proof. solve_decision. Defined.
Instance LogicalGrant_eq : EqDecision LogicalGrant. Proof. solve_decision. Defined.
Instance LogicalAudit_eq : EqDecision LogicalAudit. Proof. solve_decision. Defined.

(** * The vaults *)

(** A vault of two namespaces and a secret, and a snapshot of it. *)
Definition source_world : World := Eval vm_compute in demo_world.

Definition no_snapshot : PortableSnapshot :=
  {| snp_vault_id := uid 0; snp_source_installation_id := uid 0; snp_source_recovery_epoch := 0;
     snp_security_semantics_version := 0; snp_namespaces := []; snp_secrets := [];
     snp_secret_versions := []; snp_tombstones := []; snp_principals := []; snp_authenticators := [];
     snp_service_identities := []; snp_application_credentials := [];
     snp_authorization_state := {| as_revision := 0; as_state_commitment := zeros 32 |};
     snp_policies := []; snp_grants := []; snp_bindings := []; snp_audit_records := [] |}.
Definition snapshot_or {E} (r : result E PortableSnapshot) : PortableSnapshot :=
  match r with Ok s => s | Err _ => no_snapshot end.

(** The same vault after its secret was deleted, with a grant on it, and then
    purged. *)
Definition deleted_world : World :=
  Eval vm_compute in run_all toy_vault [(VDelete (uid 200) 1, toy_op 4000)] source_world.
Definition the_grant : GrantRow :=
  {| gr_grant_id := arr (uid 301); gr_policy_id := arr (uid 302); gr_action := "secret:value-read";
     gr_resource_kind := "secret"; gr_resource_id := arr (uid 200); gr_include_descendants := 0;
     gr_created_by := arr (uid 303); gr_created_at := 3500; gr_state_commitment := arr (zeros 32) |}.
Definition granted_db : Db := set_grants (insert_row the_grant []) (w_db deleted_world).
Definition the_purge : SecretPurge :=
  {| sp_secret_id := uid 200; sp_expected_revision := 2; sp_retention_cutoff_unix_ms := 9000;
     sp_purged_at_unix_ms := 9000 |}.
Definition no_event : AuditRecord := peer_event.
Definition purge_event : AuditRecord :=
  Eval vm_compute in
    match fst (build_audit toy_vault "secret:purge" "secret" (Some (uid 200)) (toy_op 9000) deleted_world) with
    | Ok a => a
    | Err _ => no_event
    end.
Definition purged_world : World :=
  Eval vm_compute in set_w_db (snd (purge_secret the_purge purge_event granted_db)) deleted_world.

(** * The values to serialize *)

(** The exported records of some rows. *)
Definition exported_rows {R T} (g : R -> T) (set : blob -> T -> T) (e : R -> EncryptedRecord)
    (object_kind wrapped_kind : ObjectKind) (id : R -> ObjectId) (version : R -> Z) (rows : list R) : list T :=
  (fun row => set (b64_encode (match decrypt_record toy_vault (w_ring source_world) (e row) object_kind wrapped_kind
                                       (id row) (version row) with Ok p => p | Err _ => [] end)) (g row)) <$> rows.

Definition source_snapshot : PortableSnapshot := Eval vm_compute in snapshot_or (portable_snapshot (w_db source_world)).
Definition purged_snapshot : PortableSnapshot := Eval vm_compute in snapshot_or (portable_snapshot (w_db purged_world)).
Definition in_both {R T} (f : PortableSnapshot -> list R) (g : list R -> list T) : list T :=
  g (f source_snapshot) ++ g (f purged_snapshot).

Definition known_namespaces : list LogicalNamespace := Eval vm_compute in in_both snp_namespaces
  (exported_rows logical_namespace set_ln_metadata pn_metadata ONamespaceMetadata OWrappedNamespaceMetadataKey
     pn_namespace_id pn_metadata_version).
Definition known_secrets : list LogicalSecret := Eval vm_compute in in_both snp_secrets
  (exported_rows logical_secret set_ls_metadata ps_metadata OSecretMetadata OWrappedMetadataKey
     ps_secret_id ps_metadata_version).
Definition known_versions : list LogicalSecretVersion := Eval vm_compute in in_both snp_secret_versions
  (exported_rows logical_secret_version set_lv_payload pv_payload OSecretVersion OWrappedDataKey
     pv_secret_id pv_version).
Definition known_tombstones : list LogicalTombstone :=
  Eval vm_compute in in_both snp_tombstones (fmap logical_tombstone).
Definition known_grants : list LogicalGrant := Eval vm_compute in in_both snp_grants (fmap logical_grant).
Definition known_audit : list LogicalAudit := Eval vm_compute in in_both snp_audit_records (fmap logical_audit).
Definition known_authorization : list LogicalAuthorizationState :=
  Eval vm_compute in [logical_authorization_state (snp_authorization_state source_snapshot)].
Definition known_keys : list LogicalKeys :=
  Eval vm_compute in [{| lk_blind_index := encode_key (iv_blind_index_key toy_vault);
                         lk_audit := encode_key (iv_audit_key toy_vault);
                         lk_token_verifier := encode_key (iv_token_verifier_key toy_vault) |}].

(** No value of the type is known. *)
Definition unknown {T} : codec T := {| to_vec _ := None; from_slice _ := None |}.

#[export] Instance toy_json : LogicalJson := {|
  json_keys := dictionary known_keys; json_namespaces := dictionary known_namespaces;
  json_secrets := dictionary known_secrets; json_secret_versions := dictionary known_versions;
  json_tombstones := dictionary known_tombstones; json_principals := unknown;
  json_authenticators := unknown; json_service_identities := unknown;
  json_application_credentials := unknown;
  json_authorization_state := dictionary known_authorization; json_policies := unknown;
  json_grants := dictionary known_grants; json_bindings := unknown;
  json_audit := dictionary known_audit |}.

#[export] Instance toy_json_laws : LogicalJsonLaws.
Proof. split; solve [apply dictionary_law|by intros x b]. Qed.

Definition source_stream : blob :=
  Eval vm_compute in match encode_logical_snapshot toy_vault (w_ring source_world) source_snapshot with
                     | Ok b => b | Err _ => [] end.
Lemma source_stream_run :
  encode_logical_snapshot toy_vault (w_ring source_world) source_snapshot = Ok source_stream.
Proof. vm_compute. reflexivity. Qed.

(** * Creating *)

Definition demo_path : BackupPath :=
  {| bp_path := "/backups/vault.smcvault"; bp_extension := Some "smcvault";
     bp_at := {| loc_path := "/backups/vault.smcvault"; loc_parent := Some "/backups"; loc_dir := None;
                 loc_canonical := Some "/backups"; loc_creatable := true |} |}.
Definition publishing (w : World) : Publishing :=
  {| pu_world := w; pu_destination := None; pu_temporary := None; pu_outcomes := []; pu_room := None;
     pu_flushes := true; pu_reads := []; pu_removable := true |}.
Abbreviation back_up w := (create_backup_file toy_vault demo_path demo_archive_key 5000 (publishing w)).

Definition restore_env : RestoreEnv :=
  {| re_database_removable := true; re_root_removable := true; re_quick_check := Ok true |}.
Definition new_location (path parent : string) : location :=
  {| loc_path := path; loc_parent := Some parent; loc_dir := None; loc_canonical := Some parent; loc_creatable := true |}.
Definition new_host : Host :=
  {| h_database := None; h_root_file := None; h_database_at := new_location "/a/db" "/a";
     h_root_at := new_location "/b/k" "/b"; h_draws := 5000 |}.
Definition archive_in (p : Publishing) : blob := default [] (pu_destination p).
Definition source_of (archive : blob) : SourceFile :=
  {| so_opens := true; so_is_file := true; so_bytes := archive; so_script := [ReadAtMost 100] |}.

Definition report_or {E} (r : result E BackupFileReport) : BackupFileReport :=
  match r with
  | Ok b => b
  | Err _ => {| bf_archive_id := uid 0; bf_archive_bytes := 0; bf_record_count := 0; bf_logical_bytes := 0;
                bf_destination := "" |}
  end.
Definition source_created : BackupFileReport := Eval vm_compute in report_or (fst (back_up source_world)).
Definition source_published : Publishing := Eval vm_compute in snd (back_up source_world).
Lemma source_created_run : back_up source_world = (Ok source_created, source_published).
Proof. vm_compute. reflexivity. Qed.
Definition purged_created : BackupFileReport := Eval vm_compute in report_or (fst (back_up purged_world)).
Definition purged_published : Publishing := Eval vm_compute in snd (back_up purged_world).
Lemma purged_created_run : back_up purged_world = (Ok purged_created, purged_published).
Proof. vm_compute. reflexivity. Qed.

Definition source_file : SourceFile := Eval vm_compute in source_of (archive_in source_published).
Definition purged_file : SourceFile := Eval vm_compute in source_of (archive_in purged_published).
Lemma source_file_steady (archive : blob) :
  Forall (fun e => match e with ReadAtMost _ => True | _ => False end) (so_script (source_of archive)).
Proof. by repeat constructor. Qed.

Lemma logical_stream_round_trips_witness :
  exists rs decoded, source_stream = encode_records rs /\ Forall frame_ok rs
    /\ zlen source_stream <= MAX_LOGICAL_STREAM_BYTES
    /\ decode_logical_stream source_stream (zlen rs) = Ok decoded
    /\ carries toy_vault (w_ring source_world) source_snapshot decoded
    /\ (forall n, n <> zlen rs -> decode_logical_stream source_stream n = Err BIntegrity).
Proof.
  exact (logical_stream_round_trips toy_vault (w_ring source_world) source_snapshot source_stream source_stream_run).
Defined.

Lemma backup_published_or_nothing_witness :
  match back_up source_world with
  | (Ok report, p') => exists s archive, published toy_vault demo_archive_key 5000 (publishing source_world) report s archive p'
  | (Err _, p') => pu_destination p' = pu_destination (publishing source_world) /\ pu_temporary p' = None
  end.
Proof.
  exact (@backup_published_or_nothing toy_crypto toy_json toy_formats toy_vault demo_path demo_archive_key 5000 (publishing source_world)
    eq_refl eq_refl eq_refl).
Defined.

Lemma purge_granted_run : purge_secret the_purge purge_event granted_db = (Ok tt, w_db purged_world).
Proof. vm_compute. reflexivity. Qed.
Lemma the_grant_stored : the_grant ∈ rows (db_grants granted_db).
Proof. apply list_elem_of_singleton. reflexivity. Qed.

Lemma purged_grant_blocks_restore_witness :
  exists e, fst (restore_backup_file restore_env purged_file demo_archive_key Preserve 6000 new_host) = Err e.
Proof.
  exact (purged_grant_blocks_restore the_purge purge_event granted_db (w_db purged_world) the_grant purge_granted_run
    the_grant_stored eq_refl eq_refl toy_vault demo_path demo_archive_key 5000 (publishing purged_world)
    purged_published purged_created purged_file eq_refl eq_refl ltac:(by split) purged_created_run eq_refl
    (source_file_steady _) restore_env Preserve 6000 new_host).
Defined.

Lemma restore_all_or_nothing_witness :
  match restore_backup_file restore_env source_file demo_archive_key Revoke 6000 new_host with
  | (Ok report, h') => ~ (6000 < 0 \/ is_Some (h_database new_host) \/ is_Some (h_root_file new_host))
      /\ exists o s, restored_installation o s (rr_recovery_epoch report) h'
         /\ iv_vault_id (op_vault o) = rr_vault_id report
         /\ iv_installation_id (op_vault o) = rr_installation_id report
  | (Err e, h') =>
      (6000 < 0 \/ is_Some (h_database new_host) \/ is_Some (h_root_file new_host) -> e = BInvalidInput /\ h' = new_host)
      /\ (~ (6000 < 0 \/ is_Some (h_database new_host) \/ is_Some (h_root_file new_host)) ->
          (re_database_removable restore_env = true -> h_database h' = None)
          /\ (re_root_removable restore_env = true -> h_root_file h' = None))
  end.
Proof.
  exact (@restore_all_or_nothing toy_crypto toy_laws toy_passwords toy_json toy_formats restore_env source_file
    demo_archive_key Revoke 6000 new_host).
Defined.

(** * Restoring *)

(** The steps of a restore, one after the other. *)
Lemma restore_in_steps env source key mode now h r v r' canonical decoded k keys epoch o h1 s rv ds w2 w3 a w4 w5 h2 h3 :
  open_safe_source source = Ok r ->
  decode_archive canonical_chunk (zlen (so_bytes source)) key (r, []) = (Ok v, (r', canonical)) ->
  (am_source_schema_version (va_metadata v), am_security_semantics_version (va_metadata v))
    = (SCHEMA_VERSION, SECURITY_SEMANTICS_VERSION) ->
  decode_logical_stream canonical (va_record_count v) = Ok decoded -> dl_keys decoded = Some k ->
  decode_vault_keys k = Ok keys ->
  checked_add u64_max (am_source_recovery_epoch (va_metadata v)) 1 = Some epoch ->
  initialize_restore_staging (am_logical_vault_id (va_metadata v)) keys now h = (Ok o, h1) ->
  transform_logical_snapshot (op_vault o) decoded v mode now (in_use o h1) = (Ok (s, rv, ds), w2) ->
  bk_call (import_portable_snapshot s epoch) w2 = (Ok tt, w3) ->
  build_audit (op_vault o) "backup:restore" "vault" (Some (iv_vault_id (op_vault o)))
    {| oc_request_id := new_v4 (w_draws w3); oc_actor_principal_id := None; oc_credential_kind := None;
       oc_credential_id := None; oc_now_unix_ms := now |} (set_w_draws (S (w_draws w3)) w3) = (Ok a, w4) ->
  bk_call (append_audit a) w4 = (Ok tt, w5) ->
  verify_restored_snapshot (op_vault o) (re_quick_check env) s w5 = (Ok tt, w5) ->
  verify_restore_staging_reopen (iv_vault_id (op_vault o)) (iv_installation_id (op_vault o)) (closed w5 h1) = (Ok tt, h2) ->
  with_vault o (bk_call (activate_restored_initialization 1)) h2 = (Ok tt, h3) ->
  restore_body env source key mode now h
  = (Ok {| rr_archive_id := ph_archive_id (va_header v); rr_vault_id := iv_vault_id (op_vault o);
           rr_installation_id := iv_installation_id (op_vault o); rr_recovery_epoch := epoch;
           rr_imported_records := va_record_count v; rr_imported_audit_events := zlen (snp_audit_records s);
           rr_revoked_application_credentials := rv; rr_disabled_source_bound_authenticators := ds |}, h3).
Proof.
  intros E1 E2 E3 E4 E5 E6 E7 E8 E9 E10 E11 E12 E13 E14 E15. injection E3 as E3 E3'.
  unfold restore_body. unfold prog_bind at 1, prog_lift at 1. rewrite E1, E2. cbn [fst snd].
  unfold prog_bind at 1, prog_lift at 1. cbn [map_err]. unfold prog_bind at 1, prog_reject at 1. rewrite E3, E3'.
  rewrite !Z.eqb_refl. cbn [negb orb]. unfold prog_bind at 1, prog_lift at 1. rewrite E4.
  unfold prog_bind at 1, prog_lift at 1. rewrite E5. cbn [ok_or]. unfold prog_bind at 1, prog_lift at 1. rewrite E6.
  unfold prog_bind at 1, prog_lift at 1. rewrite E7. cbn [ok_or]. unfold prog_bind at 1, prog_map_err at 1. rewrite E8.
  cbn [map_err]. unfold prog_bind at 1, with_vault at 1. unfold prog_bind at 1. rewrite E9.
  unfold prog_bind at 1. rewrite E10. unfold prog_bind at 1, prog_map_err at 1, random_id. cbn [map_err].
  unfold prog_bind at 1, prog_map_err at 1. rewrite E11. cbn [map_err]. unfold prog_bind at 1. rewrite E12.
  unfold prog_bind at 1. rewrite E13. unfold prog_ret at 1. unfold prog_bind at 1, prog_map_err at 1. rewrite E14.
  cbn [map_err]. unfold prog_bind at 1. rewrite E15. done.
Qed.

Definition ok_or_else {E A S} (x : result E A * S) (d : A) : A := match fst x with Ok a => a | Err _ => d end.

Definition st_reader : Reader := Eval vm_compute in {| rd_bytes := so_bytes source_file; rd_script := so_script source_file |}.
Definition st_read := Eval vm_compute in
  decode_archive canonical_chunk (zlen (so_bytes source_file)) demo_archive_key (st_reader, []).
Definition st_verified : VerifiedArchive := Eval vm_compute in ok_or_else st_read empty_verified.
Definition st_decoded : DecodedLogical := Eval vm_compute in
  match decode_logical_stream source_stream 9 with Ok d => d | Err _ => new_decoded end.
Definition st_logical_keys : LogicalKeys := Eval vm_compute in
  {| lk_blind_index := encode_key (iv_blind_index_key toy_vault); lk_audit := encode_key (iv_audit_key toy_vault);
     lk_token_verifier := encode_key (iv_token_verifier_key toy_vault) |}.
Definition st_keys : PortableVaultKeys := Eval vm_compute in
  match decode_vault_keys st_logical_keys with
  | Ok k => k
  | Err _ => {| pk_blind_index := zeros 32; pk_audit := zeros 32; pk_token_verifier := zeros 32 |}
  end.
Definition st_staging := Eval vm_compute in initialize_restore_staging (am_logical_vault_id (va_metadata st_verified)) st_keys 6000 new_host.
Definition st_opened : Opened := Eval vm_compute in
  ok_or_else st_staging {| op_vault := toy_vault; op_ring := w_ring source_world; op_root_key := toy_root |}.
Definition st_transform := Eval vm_compute in
  transform_logical_snapshot (op_vault st_opened) st_decoded st_verified Revoke 6000 (in_use st_opened (snd st_staging)).
Definition st_snapshot : PortableSnapshot := Eval vm_compute in fst (fst (ok_or_else st_transform (no_snapshot, 0, 0))).
Definition st_imported := Eval vm_compute in bk_call (import_portable_snapshot st_snapshot 1) (snd st_transform).
Definition st_audited := Eval vm_compute in
  build_audit (op_vault st_opened) "backup:restore" "vault" (Some (iv_vault_id (op_vault st_opened)))
    {| oc_request_id := new_v4 (w_draws (snd st_imported)); oc_actor_principal_id := None; oc_credential_kind := None;
       oc_credential_id := None; oc_now_unix_ms := 6000 |}
    (set_w_draws (S (w_draws (snd st_imported))) (snd st_imported)).
Definition st_event : AuditRecord := Eval vm_compute in ok_or_else st_audited no_event.
Definition st_appended := Eval vm_compute in bk_call (append_audit st_event) (snd st_audited).
Definition st_closed : Host := Eval vm_compute in closed (snd st_appended) (snd st_staging).
Definition st_reopened := Eval vm_compute in
  verify_restore_staging_reopen (iv_vault_id (op_vault st_opened)) (iv_installation_id (op_vault st_opened)) st_closed.
Definition restored_host : Host := Eval vm_compute in
  snd (with_vault st_opened (bk_call (activate_restored_initialization 1)) (snd st_reopened)).
Definition restored_report : RestoreReport :=
  {| rr_archive_id := ph_archive_id (va_header st_verified); rr_vault_id := iv_vault_id (op_vault st_opened);
     rr_installation_id := iv_installation_id (op_vault st_opened); rr_recovery_epoch := 1;
     rr_imported_records := va_record_count st_verified;
     rr_imported_audit_events := zlen (snp_audit_records st_snapshot);
     rr_revoked_application_credentials := 0; rr_disabled_source_bound_authenticators := 0 |}.

Lemma restored_run :
  restore_backup_file restore_env source_file demo_archive_key Revoke 6000 new_host = (Ok restored_report, restored_host).
Proof.
  unfold restore_backup_file.
  change ((6000 <? 0) || _ || _) with false. cbv iota.
  rewrite (restore_in_steps restore_env source_file demo_archive_key Revoke 6000 new_host st_reader st_verified
    (fst (snd st_read)) source_stream st_decoded st_logical_keys st_keys 1 st_opened (snd st_staging)
    st_snapshot 0 0 (snd st_transform) (snd st_imported) st_event (snd st_audited) (snd st_appended) (snd st_reopened)
    restored_host); [reflexivity|vm_compute; reflexivity..].
Qed.

Lemma restored_backup_reads_back_witness :
  exists s s' o,
    portable_snapshot (w_db (pu_world (publishing source_world))) = Ok s
    /\ op_vault o = {| iv_vault_id := snp_vault_id s; iv_installation_id := rr_installation_id restored_report;
                       iv_blind_index_key := iv_blind_index_key toy_vault; iv_audit_key := iv_audit_key toy_vault;
                       iv_token_verifier_key := iv_token_verifier_key toy_vault |}
    /\ restored_installation o s' (snp_source_recovery_epoch s + 1) restored_host
    /\ restored_snapshot toy_vault (w_ring (pu_world (publishing source_world))) (op_vault o) (op_ring o) Revoke 6000 s s'
    /\ forall v, v ∈ snp_secret_versions s -> exists plaintext e,
         decrypt_record toy_vault (w_ring (pu_world (publishing source_world))) (pv_payload v) OSecretVersion
           OWrappedDataKey (pv_secret_id v) (pv_version v) = Ok plaintext
         /\ encrypted_secret_version (h_db restored_host) (pv_secret_id v) (pv_version v) = Ok e
         /\ decrypt_record (op_vault o) (op_ring o) e OSecretVersion OWrappedDataKey
              (pv_secret_id v) (pv_version v) = Ok plaintext.
Proof.
  exact (restored_backup_reads_back toy_vault demo_path demo_archive_key 5000 6000 (publishing source_world)
    source_published source_created restore_env source_file Revoke new_host restored_host restored_report
    eq_refl ltac:(by split) source_created_run eq_refl (source_file_steady _) restored_run).
Defined.
