(* ===== verification/Passkeys.v ===== *)
(** src/crates/smcv-app/src/passkeys.rs: WebAuthn ceremonies of the owner.

    A challenge is answered within five minutes, once, and by the request that
    names the ceremony it was started under; pending ceremonies are kept in the
    memory of the process behind one lock.  The model runs over the vault's
    [World], the pending ceremonies, and a schedule of what other requests of
    the process do to them between two acquisitions of the lock.

    webauthn-rs and the JSON of its passkeys are third-party code: the
    operations of the class [WebAuthn], and in [WebAuthnLaws] what is relied on
    of them. *)
From Stdlib Require Import ZArith Lia Strings.Byte String.
From stdpp Require Import base tactics numbers option strings list gmap.
From S2P Require Import Prelude RustStd Core Crypto Sql Schema Records VaultStore IdentityStore Store Metadata VaultCore Authentication Authorization.

Abbreviation CeremonyId := Uuid.

Definition CEREMONY_LIFETIME_MS : Z := 5 * 60 * 1000.
Definition MAX_PENDING_CEREMONIES : Z := 32.

#[export] Instance byte_countable : Countable byte.
Proof. by apply (inj_countable Byte.to_N Byte.of_N), Byte.of_to_N. Defined.
#[export] Instance array_countable n : Countable (array n).
Proof. apply (inj_countable (@arr n) (try_array n)), try_array_arr. Defined.

(** * webauthn-rs *)

Class WebAuthn : Type := {
  Webauthn : Type;
  PasskeyRegistration : Type;
  PasskeyAuthentication : Type;
  CreationChallengeResponse : Type;
  RequestChallengeResponse : Type;
  RegisterPublicKeyCredential : Type;
  PublicKeyCredential : Type;
  AuthenticationResult : Type;
  StoredPasskey : Type;
  Url : Type;
  url_parse : string -> option Url;
  (** [WebauthnBuilder::new(rp_id, origin)?.rp_name(..).timeout(secs).build()] *)
  webauthn_build : string -> Url -> string -> Z -> option Webauthn;
  (** The first argument after the site is the draw the challenge is made of. *)
  start_passkey_registration : Webauthn -> nat -> Uuid -> string -> string -> option (list blob) ->
    option (CreationChallengeResponse * PasskeyRegistration);
  finish_passkey_registration : Webauthn -> RegisterPublicKeyCredential -> PasskeyRegistration ->
    option StoredPasskey;
  start_passkey_authentication : Webauthn -> nat -> list StoredPasskey ->
    option (RequestChallengeResponse * PasskeyAuthentication);
  finish_passkey_authentication : Webauthn -> PublicKeyCredential -> PasskeyAuthentication ->
    option AuthenticationResult;
  passkey_cred_id : StoredPasskey -> blob;
  result_cred_id : AuthenticationResult -> blob;
  (** [Passkey::update_credential]: none for the result of another credential,
      else the passkey with its counter and backup state brought up to date. *)
  update_credential : StoredPasskey -> AuthenticationResult -> option StoredPasskey;
  (** [serde_json::to_vec] and [from_slice] on a passkey *)
  passkey_to_vec : StoredPasskey -> option blob;
  passkey_from_slice : blob -> option StoredPasskey }.

(** What the documentation of [Passkey] promises. *)
Class WebAuthnLaws {WA : WebAuthn} : Prop := {
  passkey_json p l : passkey_to_vec p = Some l -> passkey_from_slice l = Some p;
  passkey_serializes p : is_Some (passkey_to_vec p);
  update_same_credential p r :
    is_Some (update_credential p r) <-> passkey_cred_id p = result_cred_id r;
  update_keeps_credential p r p' :
    update_credential p r = Some p' -> passkey_cred_id p' = passkey_cred_id p }.

(** * Ceremonies *)

Section Ceremonies.
Context {WA : WebAuthn}.

Record PasskeyChallenge {T : Type} : Type := {
  ch_ceremony_id : CeremonyId;
  ch_options : T;
  ch_expires_at_unix_ms : Z }.
#[global] Arguments PasskeyChallenge : clear implicits.

Record RegistrationCeremony : Type := {
  rc_principal_id : PrincipalId;
  rc_session_id : SessionId;
  rc_created_at_unix_ms : Z;
  rc_expires_at_unix_ms : Z;
  rc_state : PasskeyRegistration }.

Record AuthenticationCeremony : Type := {
  ac_created_at_unix_ms : Z;
  ac_expires_at_unix_ms : Z;
  ac_state : PasskeyAuthentication }.

Record CeremonyState : Type := {
  cs_registrations : gmap CeremonyId RegistrationCeremony;
  cs_authentications : gmap CeremonyId AuthenticationCeremony }.

(** [CeremonyState::default] *)
Definition no_ceremonies : CeremonyState := {| cs_registrations := ∅; cs_authentications := ∅ |}.

(** [HashMap::len] *)
Definition map_len {K A} `{Countable K} (m : gmap K A) : Z := Z.of_nat (size m).

(** [ceremony_count]; [saturating_add] on usize *)
Definition ceremony_count (c : CeremonyState) : Z :=
  Z.min u64_max (map_len (cs_registrations c) + map_len (cs_authentications c)).

(** [cleanup] *)
Definition cleanup (now : Z) (c : CeremonyState) : CeremonyState :=
  {| cs_registrations := filter (fun kv => rc_created_at_unix_ms kv.2 <= now
                                           /\ now <= rc_expires_at_unix_ms kv.2) (cs_registrations c);
     cs_authentications := filter (fun kv => ac_created_at_unix_ms kv.2 <= now
                                             /\ now <= ac_expires_at_unix_ms kv.2) (cs_authentications c) |}.

(** What the process does to the ceremonies under one acquisition of the lock. *)
Inductive CeremonyStep : Type :=
| AddRegistration (id : CeremonyId) (r : RegistrationCeremony) (now : Z)
| AddAuthentication (id : CeremonyId) (a : AuthenticationCeremony) (now : Z)
| TakeRegistration (id : CeremonyId)
| TakeAuthentication (id : CeremonyId).

(** The end of [start_registration]: expired ceremonies make room, and a full
    table refuses the new one. *)
Definition add_registration (id : CeremonyId) (r : RegistrationCeremony) (now : Z)
  : Prog CeremonyState AuthenticationError unit := fun c =>
  let c := cleanup now c in
  if MAX_PENDING_CEREMONIES <=? ceremony_count c then (Err AuUnavailable, c)
  else (Ok tt, {| cs_registrations := <[id := r]> (cs_registrations c);
                  cs_authentications := cs_authentications c |}).

(** The end of [start_authentication] *)
Definition add_authentication (id : CeremonyId) (a : AuthenticationCeremony) (now : Z)
  : Prog CeremonyState AuthenticationError unit := fun c =>
  let c := cleanup now c in
  if MAX_PENDING_CEREMONIES <=? ceremony_count c then (Err AuUnavailable, c)
  else (Ok tt, {| cs_registrations := cs_registrations c;
                  cs_authentications := <[id := a]> (cs_authentications c) |}).

(** [take_registration] *)
Definition take_registration (id : CeremonyId)
  : Prog CeremonyState AuthenticationError RegistrationCeremony := fun c =>
  (ok_or Rejected (cs_registrations c !! id),
   {| cs_registrations := delete id (cs_registrations c);
      cs_authentications := cs_authentications c |}).

(** [take_authentication] *)
Definition take_authentication (id : CeremonyId)
  : Prog CeremonyState AuthenticationError AuthenticationCeremony := fun c =>
  (ok_or Rejected (cs_authentications c !! id),
   {| cs_registrations := cs_registrations c;
      cs_authentications := delete id (cs_authentications c) |}).

Definition ceremony_step (s : CeremonyStep) (c : CeremonyState) : CeremonyState :=
  match s with
  | AddRegistration id r now => snd (add_registration id r now c)
  | AddAuthentication id a now => snd (add_authentication id a now c)
  | TakeRegistration id => snd (take_registration id c)
  | TakeAuthentication id => snd (take_authentication id c)
  end.

Definition ceremony_steps (l : list CeremonyStep) (c : CeremonyState) : CeremonyState :=
  foldl (fun c s => ceremony_step s c) c l.

(** ** The state of the service *)

Record PasskeyWorld : Type := {
  pw_world : World;
  pw_ceremonies : CeremonyState;
  pw_schedule : list (list CeremonyStep) }.

Abbreviation Passkeys A := (Prog PasskeyWorld AuthenticationError A).

(** A program of the vault. *)
Definition in_vault {A} (m : Auth A) : Passkeys A := fun p =>
  let (r, w) := m (pw_world p) in
  (r, {| pw_world := w; pw_ceremonies := pw_ceremonies p; pw_schedule := pw_schedule p |}).

(** [self.ceremonies.lock()]: other requests held the lock before. *)
Definition locked {A} (m : Prog CeremonyState AuthenticationError A) : Passkeys A := fun p =>
  let '(before, later) := match pw_schedule p with [] => ([], []) | s :: l => (s, l) end in
  let (r, c) := m (ceremony_steps before (pw_ceremonies p)) in
  (r, {| pw_world := pw_world p; pw_ceremonies := c; pw_schedule := later |}).

(** A call of webauthn-rs that draws a challenge. *)
Definition with_challenge {A} (f : nat -> option A) : Auth A := fun w =>
  (ok_or Rejected (f (w_draws w)), set_w_draws (S (w_draws w)) w).
End Ceremonies.
Abbreviation Passkeys A := (Prog PasskeyWorld AuthenticationError A).

(** [map_authorization] *)
Definition map_authorization (e : AuthorizationError) : AuthenticationError :=
  match e with
  | Denied | RecentAuthenticationRequired => Rejected
  | AzInvalidInput => AuInvalidInput
  | AzIntegrity => AuIntegrity
  | AzUnavailable => AuUnavailable
  end.

(** [PasskeyService::new] *)
Definition new_passkey_service {WA : WebAuthn} (rp_id origin : string)
  : result AuthenticationError (Webauthn * CeremonyState) :=
  let? origin := ok_or AuInvalidInput (url_parse origin) in
  let? webauthn := ok_or AuInvalidInput (webauthn_build rp_id origin "SMCV" 300) in
  Ok (webauthn, no_ceremonies).

Section Service.
Context {CR : Crypto} {WA : WebAuthn} (self : InitializedVault) (webauthn : Webauthn).

(** [self.authorize(RequestPrincipal::Owner(owner), Action::IdentityManage, ..)] after
    the checks of the owner's session, as both registration calls begin. *)
Definition authorize_enrollment (owner : AuthenticatedOwner) (request_id : RequestId) (now : Z) : Auth unit :=
  do! _ := verify_owner_context_active self owner now in
  do! _ := prog_reject (negb (is_recent_at owner now)) Rejected in
  prog_map_err map_authorization
    (authorize self (RequestOwner owner) IdentityManage KNamespace (iv_vault_id self) request_id now).

(** [for record in records { .. excluded.push(..) }] *)
Definition excluded_credential (record : OwnerAuthenticatorRecord) : result AuthenticationError blob :=
  let? _ := verify_authenticator_commitment self record in
  ok_or AuIntegrity (or_credential_lookup record).

(** [for record in records { .. passkeys.push(..) }] *)
Definition stored_passkey (record : OwnerAuthenticatorRecord) : result AuthenticationError StoredPasskey :=
  let? _ := verify_authenticator_commitment self record in
  let? data := ok_or AuIntegrity (or_credential_data record) in
  ok_or AuIntegrity (passkey_from_slice data).

(** [PasskeyService::start_registration] *)
Definition start_registration (owner : AuthenticatedOwner) (request_id : RequestId) (now : Z)
  : Passkeys (PasskeyChallenge CreationChallengeResponse) :=
  do! _ := in_vault (authorize_enrollment owner request_id now) in
  do! records := in_vault (auth_ask (fun d => owner_authenticators d Passkey)) in
  do! excluded := prog_lift (result_mapM excluded_credential records) in
  let exclusions := match excluded with [] => None | _ => Some excluded end in
  do! (options, state) := in_vault (with_challenge (fun draw =>
    start_passkey_registration webauthn draw (ao_principal_id owner) "owner" "SMCV owner" exclusions)) in
  do! expires_at := prog_lift (ok_or AuUnavailable (i64_checked_add now CEREMONY_LIFETIME_MS)) in
  do! ceremony_id := in_vault auth_random_id in
  do! _ := locked (add_registration ceremony_id
    {| rc_principal_id := ao_principal_id owner; rc_session_id := ao_session_id owner;
       rc_created_at_unix_ms := now; rc_expires_at_unix_ms := expires_at; rc_state := state |} now) in
  prog_ret {| ch_ceremony_id := ceremony_id; ch_options := options; ch_expires_at_unix_ms := expires_at |}.

(** The rest of [finish_registration], once the client's answer is accepted. *)
Definition store_passkey (owner : AuthenticatedOwner) (passkey : StoredPasskey) (request_id : RequestId)
    (now : Z) : Auth AuthenticatorId :=
  let lookup := passkey_cred_id passkey in
  do! serialized := prog_lift (ok_or AuIntegrity (passkey_to_vec passkey)) in
  do! _ := prog_reject ((zlen lookup =? 0) || (1024 <? zlen lookup) || (65536 <? zlen serialized))
             AuInvalidInput in
  do! authenticator_id := auth_random_id in
  do! commitment := prog_lift (authenticator_commitment self authenticator_id (ao_principal_id owner)
    Passkey (Some lookup) (Some serialized) None "active" now None None) in
  do! audit := auth_audit self "passkey:register" "authenticator" (Some authenticator_id)
    (session_operation (ao_principal_id owner) (ao_session_id owner) request_id now) in
  do! _ := auth_call (add_owner_authenticator (ao_principal_id owner)
    {| oi_authenticator_id := authenticator_id; oi_kind := Passkey;
       oi_credential_lookup := Some lookup; oi_credential_data := Some serialized;
       oi_password_phc := None; oi_state_commitment := commitment |} now audit) in
  prog_ret authenticator_id.

(** [PasskeyService::finish_registration] *)
Definition finish_registration (owner : AuthenticatedOwner) (ceremony_id : CeremonyId)
    (response : RegisterPublicKeyCredential) (request_id : RequestId) (now : Z)
  : Passkeys AuthenticatorId :=
  do! _ := in_vault (authorize_enrollment owner request_id now) in
  do! ceremony := locked (take_registration ceremony_id) in
  do! _ := prog_reject ((now <? rc_created_at_unix_ms ceremony) || (rc_expires_at_unix_ms ceremony <? now)
                        || negb (bool_decide (rc_principal_id ceremony = ao_principal_id owner))
                        || negb (bool_decide (rc_session_id ceremony = ao_session_id owner))) Rejected in
  do! passkey := prog_lift (ok_or Rejected
    (finish_passkey_registration webauthn response (rc_state ceremony))) in
  in_vault (store_passkey owner passkey request_id now).

(** [PasskeyService::start_authentication] *)
Definition start_authentication (now : Z) : Passkeys (PasskeyChallenge RequestChallengeResponse) :=
  do! records := in_vault (auth_ask (fun d => owner_authenticators d Passkey)) in
  do! passkeys := prog_lift (result_mapM stored_passkey records) in
  do! _ := prog_reject (Nat.eqb (length passkeys) 0) Rejected in
  do! (options, state) := in_vault (with_challenge (fun draw =>
    start_passkey_authentication webauthn draw passkeys)) in
  do! expires_at := prog_lift (ok_or AuUnavailable (i64_checked_add now CEREMONY_LIFETIME_MS)) in
  do! ceremony_id := in_vault auth_random_id in
  do! _ := locked (add_authentication ceremony_id
    {| ac_created_at_unix_ms := now; ac_expires_at_unix_ms := expires_at; ac_state := state |} now) in
  prog_ret {| ch_ceremony_id := ceremony_id; ch_options := options; ch_expires_at_unix_ms := expires_at |}.

(** The credential as the assertion leaves it. *)
Definition updated_passkey (record : OwnerAuthenticatorRecord) (assertion : AuthenticationResult)
  : result AuthenticationError blob :=
  let? data := ok_or AuIntegrity (or_credential_data record) in
  let? passkey := ok_or AuIntegrity (passkey_from_slice data) in
  let? passkey := ok_or Rejected (update_credential passkey assertion) in
  ok_or AuIntegrity (passkey_to_vec passkey).

(** [for record in records] of [finish_authentication] *)
Fixpoint login_with_assertion (assertion : AuthenticationResult) (records : list OwnerAuthenticatorRecord)
    (request_id : RequestId) (now : Z) : Auth BrowserSessionSecrets :=
  match records with
  | [] => prog_fail Rejected
  | record :: rest =>
      do! _ := prog_lift (verify_authenticator_commitment self record) in
      if negb (bool_decide (or_credential_lookup record = Some (result_cred_id assertion)))
      then login_with_assertion assertion rest request_id now
      else
        do! updated := prog_lift (updated_passkey record assertion) in
        do! owner := auth_ask (fun d => principal d (or_principal_id record)) in
        do! _ := prog_lift (verify_principal_commitment self owner) in
        do! _ := prog_reject (negb (bool_decide (pc_state owner = "active"))) Rejected in
        create_browser_session self owner record (Some updated) request_id now
  end.

(** [PasskeyService::finish_authentication] *)
Definition finish_authentication (ceremony_id : CeremonyId) (response : PublicKeyCredential)
    (request_id : RequestId) (now : Z) : Passkeys BrowserSessionSecrets :=
  do! ceremony := locked (take_authentication ceremony_id) in
  do! _ := prog_reject ((now <? ac_created_at_unix_ms ceremony) || (ac_expires_at_unix_ms ceremony <? now))
             Rejected in
  do! result := prog_lift (ok_or Rejected
    (finish_passkey_authentication webauthn response (ac_state ceremony))) in
  do! records := in_vault (auth_ask (fun d => owner_authenticators d Passkey)) in
  in_vault (login_with_assertion result records request_id now).

(** ** Requests *)

Inductive PasskeyRequest : Type :=
| StartRegistration (owner : AuthenticatedOwner)
| FinishRegistration (owner : AuthenticatedOwner) (id : CeremonyId) (response : RegisterPublicKeyCredential)
| StartAuthentication
| FinishAuthentication (id : CeremonyId) (response : PublicKeyCredential).

(** The state a request leaves, whatever its outcome. *)
Definition run_passkey (q : PasskeyRequest) (request : RequestId) (now : Z) (p : PasskeyWorld) : PasskeyWorld :=
  match q with
  | StartRegistration owner => snd (start_registration owner request now p)
  | FinishRegistration owner id response => snd (finish_registration owner id response request now p)
  | StartAuthentication => snd (start_authentication now p)
  | FinishAuthentication id response => snd (finish_authentication id response request now p)
  end.

Definition run_passkeys (l : list (PasskeyRequest * RequestId * Z)) (p : PasskeyWorld) : PasskeyWorld :=
  foldl (fun p '(q, request, now) => run_passkey q request now p) p l.
End Service.
