(* ===== verification/LoginProps.v ===== *)
(** Browser sessions, what a login stores, what a presented session token is
    accepted for and until when; and the owner's password, what enrollment stores
    and which logins it admits. *)
From Stdlib Require Import ZArith Lia Strings.Byte String.
From stdpp Require Import base tactics numbers option strings list gmap.
From S2P Require Import Prelude RustStd Core Crypto Format Sql Schema Records StoreInv RecordsOk PolicyStore VaultStore IdentityStore Store RecordsProps Metadata VaultCore Authentication VaultAudit VaultProps AuthzProps.

(** * Stored sessions *)

(** The row that holds a session. *)
Definition row_of_session (s : SessionRecord) : SessionRow :=
  {| ss_session_id := arr (ses_session_id s); ss_lookup_id := arr (ses_lookup_id s);
     ss_verifier := arr (ses_verifier s); ss_csrf_verifier := arr (ses_csrf_verifier s);
     ss_principal_id := arr (ses_principal_id s); ss_authenticator_id := arr (ses_authenticator_id s);
     ss_auth_method := authenticator_kind_as_str (ses_auth_method s);
     ss_created_at := ses_created_at_unix_ms s; ss_last_used_at := ses_last_used_at_unix_ms s;
     ss_idle_expires_at := ses_idle_expires_at_unix_ms s;
     ss_absolute_expires_at := ses_absolute_expires_at_unix_ms s;
     ss_recent_auth_at := ses_recent_auth_at_unix_ms s; ss_revoked_at := ses_revoked_at_unix_ms s;
     ss_state_commitment := arr (ses_state_commitment s) |}.

Definition holds_session (d : Db) (s : SessionRecord) : Prop := row_of_session s ∈ rows (db_sessions d).

(** A session at another moment of its life. *)
Definition session_at (s : SessionRecord) (used idle recent : Z) (revoked : option Z) (c : array 32)
  : SessionRecord :=
  {| ses_session_id := ses_session_id s; ses_lookup_id := ses_lookup_id s; ses_verifier := ses_verifier s;
     ses_csrf_verifier := ses_csrf_verifier s; ses_principal_id := ses_principal_id s;
     ses_authenticator_id := ses_authenticator_id s; ses_auth_method := ses_auth_method s;
     ses_created_at_unix_ms := ses_created_at_unix_ms s; ses_last_used_at_unix_ms := used;
     ses_idle_expires_at_unix_ms := idle;
     ses_absolute_expires_at_unix_ms := ses_absolute_expires_at_unix_ms s;
     ses_recent_auth_at_unix_ms := recent; ses_revoked_at_unix_ms := revoked; ses_state_commitment := c |}.

(** The session that [create_session] stores. *)
Definition session_of (s : SessionInsert) : SessionRecord :=
  {| ses_session_id := sin_session_id s; ses_lookup_id := sin_lookup_id s; ses_verifier := sin_verifier s;
     ses_csrf_verifier := sin_csrf_verifier s; ses_principal_id := sin_principal_id s;
     ses_authenticator_id := sin_authenticator_id s; ses_auth_method := sin_auth_method s;
     ses_created_at_unix_ms := sin_created_at_unix_ms s; ses_last_used_at_unix_ms := sin_created_at_unix_ms s;
     ses_idle_expires_at_unix_ms := sin_idle_expires_at_unix_ms s;
     ses_absolute_expires_at_unix_ms := sin_absolute_expires_at_unix_ms s;
     ses_recent_auth_at_unix_ms := sin_recent_auth_at_unix_ms s; ses_revoked_at_unix_ms := None;
     ses_state_commitment := sin_state_commitment s |}.

Lemma authenticator_kind_parse_as_str k : authenticator_kind_parse (authenticator_kind_as_str k) = Ok k.
Proof. by destruct k. Qed.

Lemma parse_session_row s : parse_session (row_of_session s) = Ok s.
Proof.
  unfold parse_session, row_of_session, parse_uuid, parse_array.
  cbn [ss_session_id ss_lookup_id ss_verifier ss_csrf_verifier ss_principal_id ss_authenticator_id ss_auth_method
       ss_state_commitment]. rewrite !try_array_arr. cbn [ok_or result_bind].
  rewrite authenticator_kind_parse_as_str. by destruct s.
Qed.

Lemma session_row_eq s : session_row s = row_of_session (session_of s).
Proof. done. Qed.

Lemma session_rows_unique d a b :
  db_ok d -> a ∈ rows (db_sessions d) -> b ∈ rows (db_sessions d) ->
  ss_session_id a = ss_session_id b \/ ss_lookup_id a = ss_lookup_id b -> a = b.
Proof.
  intros Hok Ha Hb E. eapply unique_row; [exact (ok_sessions _ (ok_tables _ Hok))|done..|].
  destruct E as [E|E]; [apply (clash_at sessions_schema a b 0 [VBlob (ss_session_id a)])
                       |apply (clash_at sessions_schema a b 1 [VBlob (ss_lookup_id a)])]; cbn; by rewrite ?E.
Qed.

Lemma session_found d s :
  db_ok d -> holds_session d s ->
  session d (ses_session_id s) = Ok s /\ session_by_lookup d (ses_lookup_id s) = Ok (Some s).
Proof.
  intros Hok Hs. unfold session, session_by_lookup.
  assert (forall p : SessionRow -> bool, p (row_of_session s) = true ->
    (forall a, a ∈ rows (db_sessions d) -> p a = true -> a = row_of_session s) ->
    select_one p (db_sessions d) = Some (row_of_session s)) as Hone.
  { intros p Hp Hu. destruct (select_one p (db_sessions d)) as [a|] eqn:E.
    - apply select_one_Some in E as [Ha Ep]. by rewrite (Hu a).
    - apply select_one_None with (a := row_of_session s) in E; [congruence|done]. }
  rewrite !Hone; cbn [ss_session_id ss_lookup_id row_of_session]; rewrite ?blob_eqb_refl; try done.
  - cbn [ok_or result_bind fmap option_fmap option_map transpose]. by rewrite parse_session_row.
  - intros a Ha E%blob_eqb_true. eapply session_rows_unique; eauto.
  - intros a Ha E%blob_eqb_true. eapply session_rows_unique; eauto.
Qed.

(** ** Operations on them *)

Lemma create_session_stores s a d d' :
  create_session s a d = (Ok tt, d') ->
  holds_session d' (session_of s) /\ db_principals d' = db_principals d
  /\ let p r := blob_eqb (oa_authenticator_id r) (arr (sin_authenticator_id s))
                && blob_eqb (oa_principal_id r) (arr (sin_principal_id s))
                && bool_decide (oa_state r = "active") && bool_decide (oa_revoked_at r = None)
                && blob_eqb (oa_state_commitment r) (arr (sin_expected_authenticator_state_commitment s)) in
     count p (db_authenticators d) = 1
     /\ db_authenticators d' = update_rows p (use_authenticator (sin_created_at_unix_ms s)
          (arr (sin_authenticator_state_commitment s)) (sin_authenticator_credential_data s)) (db_authenticators d).
Proof.
  intros H. unfold create_session in H. txn.
  match goal with H : sql_insert sessions_schema _ _ = Some _ |- _ => apply sql_insert_Some in H as (-> & _) end.
  match goal with H : sql_update authenticators_schema _ _ _ = Some _ |- _ => apply sql_update_Some in H as (-> & -> & _) end.
  match goal with H : negb (_ =? 1) = false |- _ => apply negb_false_iff, Z.eqb_eq in H end.
  split; [|done]. apply elem_of_rows_insert. by right.
Qed.

Lemma touch_session_stores d s now idle recent c :
  db_ok d -> holds_session d s -> ses_revoked_at_unix_ms s = None ->
  now <= ses_idle_expires_at_unix_ms s -> now <= ses_absolute_expires_at_unix_ms s ->
  idle <= ses_absolute_expires_at_unix_ms s ->
  exists d', touch_session (ses_session_id s) (ses_last_used_at_unix_ms s) now idle recent c d = (Ok tt, d')
    /\ db_ok d' /\ holds_session d' (session_at s now idle recent None c)
    /\ d' = set_sessions (db_sessions d') d.
Proof.
  intros Hok Hs Hrev H1 H2 H3. unfold touch_session, transact, tx_bind, tx_update.
  set (p := fun r => blob_eqb _ _ && _ && _ && _ && _ && _). set (f := touch_session_row now idle recent (arr c)).
  assert (p (row_of_session s) = true) as Hp.
  { unfold p. cbn. rewrite Hrev, blob_eqb_refl, Z.eqb_refl, bool_decide_true by done.
    rewrite !andb_true_l, !andb_true_iff, !Z.leb_le. auto. }
  assert (forall a, a ∈ rows (db_sessions d) -> p a = true -> a = row_of_session s) as Hu.
  { intros a Ha E. unfold p in E. rewrite !andb_true_iff, blob_eqb_true in E. eapply session_rows_unique; eauto. left. naive_solver. }
  pose proof (ok_sessions _ (ok_tables _ Hok)) as Ht.
  assert (forall a, a ∈ rows (db_sessions d) -> p a = true -> sc_update_raises sessions_schema a (f a) = false
    /\ sc_check sessions_schema (f a) = true /\ sc_keys sessions_schema (f a) = sc_keys sessions_schema a) as Hf.
  { intros a Ha E. split_and!; [done| |done]. pose proof (table_ok_check _ _ _ Ht Ha) as Hc.
    rewrite (Hu a Ha E) in *. clear -Hc H3. revert Hc. cbn. rewrite !andb_true_iff, !Z.leb_le.
    unfold blob_len, zlen. rewrite !array_length. naive_solver. }
  rewrite (sql_update_total _ _ _ _ Ht Hf).
  assert (count p (db_sessions d) = 1) as ->.
  { unfold count. rewrite (select_unique sessions_schema p _ (row_of_session s)); [done|done| |done|done].
    intros a b Ha Hb Ea Eb. rewrite (Hu a Ha Ea), (Hu b Hb Eb).
    by apply (clash_at sessions_schema _ _ 0 [VBlob (arr (ses_session_id s))]). }
  eexists. split; [reflexivity|]. split_and!; [| |done].
  - apply (db_ok_frame d); [done| |done..]. destruct (ok_tables _ Hok). split; try done.
    cbn [db_sessions set_sessions]. eapply sql_update_ok; [|done]. by apply sql_update_total.
  - unfold holds_session. cbn [db_sessions set_sessions]. apply elem_of_rows_update.
    exists (row_of_session s). split; [done|]. rewrite Hp. unfold f, touch_session_row. cbn. by rewrite Hrev.
Qed.

Lemma revoke_session_stores d s at_ c a d' :
  holds_session d s -> revoke_session (ses_session_id s) (ses_last_used_at_unix_ms s) at_ c a d = (Ok tt, d') ->
  ses_revoked_at_unix_ms s = None ->
  holds_session d' (session_at s (ses_last_used_at_unix_ms s) (ses_idle_expires_at_unix_ms s)
                      (ses_recent_auth_at_unix_ms s) (Some at_) c)
  /\ db_principals d' = db_principals d.
Proof.
  intros Hs H Hrev. unfold revoke_session in H. txn.
  match goal with H : sql_update _ _ _ _ = Some _ |- _ => apply sql_update_Some in H as (-> & -> & _) end.
  split; [|done]. unfold holds_session. apply elem_of_rows_update. exists (row_of_session s). split; [done|].
  cbn. by rewrite Hrev, blob_eqb_refl, Z.eqb_refl, bool_decide_true.
Qed.

(** * Presenting a session *)

Section Present.
Context {CR : Crypto} {CL : CryptoLaws} (self : InitializedVault).

Record session_times_i64 (s : SessionRecord) : Prop := {
  st_created : in_i64 (ses_created_at_unix_ms s);
  st_absolute : in_i64 (ses_absolute_expires_at_unix_ms s) }.

Lemma session_commitment_total s used idle recent revoked :
  session_times_i64 s -> in_i64 used -> in_i64 idle -> in_i64 recent -> from_option in_i64 True revoked ->
  exists c, session_commitment self s used idle recent revoked = Ok c.
Proof.
  intros [H1 H2] H3 H4 H5 H6. unfold session_commitment, auth_commit, state_commitment.
  rewrite zlen_canonical_text. cbn [foldr].
  assert (forall u, zlen (uuid_text u) = 36) as Hu by (intros; unfold zlen; by rewrite uuid_length).
  assert (forall n (b : array n), zlen (hex_encode (arr b)) = 2 * Z.of_nat n) as Hh
    by (intros; unfold zlen; rewrite hex_length, array_length; lia).
  rewrite !Hu, !Hh. change (zlen (bstr "session")) with 7.
  assert (zlen (bstr (authenticator_kind_as_str (ses_auth_method s))) <= 8) as Hm by (by destruct (ses_auth_method s)).
  pose proof (dec_length _ H1). pose proof (dec_length _ H2). pose proof (dec_length _ H3).
  pose proof (dec_length _ H4). pose proof (dec_length _ H5). pose proof (debug_opt_length _ H6).
  assert (zlen (dec (zlen (arr (ses_state_commitment s)))) <= 20) as Hl.
  { apply dec_length. unfold zlen, in_i64, i64_min, i64_max. rewrite array_length. lia. }
  repeat match goal with |- context [zlen ?l] =>
    lazymatch goal with H : 0 <= zlen l |- _ => fail | _ => pose proof (zlen_nonneg l) end end.
  rewrite (proj2 (Z.eqb_neq _ 0)) by lia. rewrite (proj2 (Z.ltb_ge 4096 _)) by lia. cbn. eauto.
Qed.

Lemma session_at_verifies s used idle recent revoked c :
  session_commitment self s used idle recent revoked = Ok c ->
  verify_session_commitment self (session_at s used idle recent revoked c) = Ok tt.
Proof.
  intros H. unfold verify_session_commitment.
  assert (session_commitment self (session_at s used idle recent revoked c) used idle recent revoked = Ok c) as E.
  { rewrite <- H. unfold session_commitment. cbn. unfold zlen. by rewrite !array_length. }
  cbn [session_at ses_last_used_at_unix_ms ses_idle_expires_at_unix_ms ses_recent_auth_at_unix_ms
       ses_revoked_at_unix_ms ses_state_commitment]. rewrite E. cbn. by rewrite bool_decide_true.
Qed.

(** A stored session of an active owner, and tokens that open it. *)
Record opens (w : World) (token csrf : blob) (s : SessionRecord) : Prop := {
  op_quiet : quiet w;
  op_ok : db_ok (w_db w);
  op_held : holds_session (w_db w) s;
  op_verified : verify_session_commitment self s = Ok tt;
  op_times : session_times_i64 s;
  op_lookup : session_lookup_id token = Some (ses_lookup_id s);
  op_token : verify_session (iv_token_verifier_key self) token (ses_lookup_id s) (ses_verifier s) = Ok true;
  op_csrf : verify_csrf (iv_token_verifier_key self) csrf (ses_lookup_id s) (ses_csrf_verifier s) = Ok true;
  op_owner : exists p, principal (w_db w) (ses_principal_id s) = Ok p
             /\ verify_principal_commitment self p = Ok tt /\ pc_state p = "active" }.

Lemma bind_auth_ask {A B} (f : Db -> result StorageError A) (k : A -> Auth B) w :
  quiet w -> prog_bind (auth_ask f) k w
             = match f (w_db w) with Ok a => k a w | Err e => (Err (auth_map_storage e), w) end.
Proof. intros Hq. unfold prog_bind, auth_ask, auth_call. rewrite call_read_quiet by done. by destruct (f (w_db w)). Qed.

(** Outside its window or revoked, a session is refused and nothing changes. *)
Lemma presented_outside w token csrf require s t :
  opens w token csrf s ->
  is_Some (ses_revoked_at_unix_ms s) \/ t < ses_created_at_unix_ms s \/ t < ses_last_used_at_unix_ms s
  \/ ses_idle_expires_at_unix_ms s < t \/ ses_absolute_expires_at_unix_ms s < t ->
  authenticate_browser_session self token (Some csrf) require t w = (Err Rejected, w).
Proof.
  intros [Hq Hok Hs Hv _ Hl _ _ _] Hout. unfold authenticate_browser_session.
  rewrite Hl. cbn [ok_or]. unfold prog_bind at 1. cbn [prog_lift].
  rewrite bind_auth_ask by done. rewrite (proj2 (session_found _ _ Hok Hs)).
  cbn [ok_or prog_lift prog_bind]. unfold prog_bind at 1. cbn [prog_lift]. unfold prog_bind at 1. cbn [prog_lift].
  rewrite Hv. unfold prog_bind at 1, prog_reject. 
  replace (_ || _ || _ || _ || _) with true; [done|]. symmetry. rewrite !orb_true_iff, !Z.ltb_lt, bool_decide_eq_true. tauto.
Qed.

(** What a request is told of the session it presented. *)
Definition presented_as (s : SessionRecord) (t idle : Z) : AuthenticatedOwner :=
  {| ao_principal_id := ses_principal_id s; ao_session_id := ses_session_id s;
     ao_authenticator_id := ses_authenticator_id s;
     ao_recent_auth_until_unix_ms := ses_recent_auth_at_unix_ms s + RECENT_AUTH_MS;
     ao_valid_from_unix_ms := t; ao_valid_until_unix_ms := idle |}.

Lemma i64_checked_add_Ok a b : in_i64 (a + b) -> i64_checked_add a b = Some (a + b).
Proof. unfold in_i64, i64_checked_add. intros [H1 H2]. by rewrite (proj2 (Z.leb_le _ _) H1), (proj2 (Z.leb_le _ _) H2). Qed.

Lemma bind_lift_Ok {S E A B} (r : result E A) (k : A -> Prog S E B) (x : A) w :
  r = Ok x -> prog_bind (prog_lift r) k w = k x w.
Proof. by intros ->. Qed.
Lemma bind_reject_false {S E B} (b : bool) (e : E) (k : unit -> Prog S E B) w :
  b = false -> prog_bind (prog_reject b e) k w = k tt w.
Proof. by intros ->. Qed.

(** Inside its window a session is accepted, and the window moves on. *)
Lemma presented_inside w token csrf require s t :
  opens w token csrf s -> ses_revoked_at_unix_ms s = None ->
  ses_created_at_unix_ms s <= t -> ses_last_used_at_unix_ms s <= t ->
  t <= ses_idle_expires_at_unix_ms s -> t <= ses_absolute_expires_at_unix_ms s ->
  in_i64 (t + SESSION_IDLE_MS) -> in_i64 (ses_recent_auth_at_unix_ms s + RECENT_AUTH_MS) ->
  in_i64 (ses_recent_auth_at_unix_ms s) ->
  let idle := Z.min (t + SESSION_IDLE_MS) (ses_absolute_expires_at_unix_ms s) in
  exists w' c, authenticate_browser_session self token (Some csrf) require t w = (Ok (presented_as s t idle), w')
    /\ opens w' token csrf (session_at s t idle (ses_recent_auth_at_unix_ms s) None c).
Proof.
  intros [Hq Hok Hs Hv Ht Hl Htok Hcsrf (p & Hp & Hpv & Hpa)] Hr H1 H2 H3 H4 H5 H6 H7 idle.
  assert (in_i64 t) as Hti by (destruct Ht as [[? _] [_ ?]]; split; lia).
  assert (in_i64 idle) as Hid by (destruct Ht as [_ [? ?]]; destruct H5; unfold idle, in_i64; lia).
  destruct (session_commitment_total s t idle (ses_recent_auth_at_unix_ms s) None) as [c Hc]; [done..|].
  destruct (touch_session_stores (w_db w) s t idle (ses_recent_auth_at_unix_ms s) c) as (d' & Hrun & Hok' & Hs' & Hd');
    [done..|unfold idle; lia|].
  exists (set_w_db d' w), c. split.
  - unfold authenticate_browser_session. rewrite (bind_lift_Ok _ _ _ _ (f_equal (ok_or Rejected) Hl)).
    rewrite bind_auth_ask by done. rewrite (proj2 (session_found _ _ Hok Hs)).
    rewrite (bind_lift_Ok _ _ s) by done. rewrite (bind_lift_Ok _ _ tt) by done.
    rewrite bind_reject_false.
    2:{ rewrite !orb_false_iff, !Z.ltb_ge, bool_decide_eq_false, Hr. split_and!; try lia. by intros [? ?]. }
    rewrite (bind_lift_Ok _ _ true) by (by rewrite Htok). rewrite bind_reject_false by done.
    unfold prog_bind at 1.
    match goal with |- context [match ?x w with _ => _ end] => assert (x w = (Ok tt, w)) as -> end.
    { destruct require; [|done]. rewrite (bind_lift_Ok _ _ csrf) by done.
      rewrite (bind_lift_Ok _ _ true) by (by rewrite Hcsrf). done. }
    rewrite bind_auth_ask by done. rewrite Hp. rewrite (bind_lift_Ok _ _ tt) by done.
    rewrite bind_reject_false by (by rewrite Hpa).
    rewrite (bind_lift_Ok _ _ (t + SESSION_IDLE_MS)) by (by rewrite i64_checked_add_Ok).
    rewrite (bind_lift_Ok _ _ c) by done. unfold prog_bind at 1. rewrite call_raw_quiet by done.
    fold idle. rewrite Hrun. cbn [fst snd map_err].
    rewrite (bind_lift_Ok _ _ (ses_recent_auth_at_unix_ms s + RECENT_AUTH_MS)) by (by rewrite i64_checked_add_Ok).
    reflexivity.
  - split; cbn [session_at ses_lookup_id ses_verifier ses_csrf_verifier ses_principal_id w_db set_w_db]; try done.
    + by apply session_at_verifies.
    + destruct Ht. by split.
    + exists p. split; [|done]. rewrite Hd'. unfold principal in *. by cbn [db_principals set_sessions].
Qed.

(** ** The window of a session

    A session lasts half an hour from its last use and at most twelve hours in
    all: what is accepted of presentations at some times, as one function of
    the times; the second component is until when the request may rely on it. *)
Fixpoint sliding_window (last idle absolute : Z) (times : list Z) : list (option (Z * Z)) :=
  match times with
  | [] => []
  | t :: rest =>
      if (last <=? t) && (t <=? idle) && (t <=? absolute)
      then let idle' := Z.min (t + SESSION_IDLE_MS) absolute in
           Some (t, idle') :: sliding_window t idle' absolute rest
      else None :: sliding_window last idle absolute rest
  end.

(** The answers to a session presented again and again, each time with or
    without the demand for its CSRF token. *)
Fixpoint present_all (token csrf : blob) (presentations : list (bool * Z)) (w : World)
  : list (result AuthenticationError AuthenticatedOwner) * World :=
  match presentations with
  | [] => ([], w)
  | (require, t) :: rest =>
      let (r, w) := authenticate_browser_session self token (Some csrf) require t w in
      let (rs, w) := present_all token csrf rest w in (r :: rs, w)
  end.

Definition told (principal session authenticator : Uuid) (recent : Z) (o : option (Z * Z))
  : result AuthenticationError AuthenticatedOwner :=
  match o with
  | None => Err Rejected
  | Some (t, idle) => Ok {| ao_principal_id := principal; ao_session_id := session;
                            ao_authenticator_id := authenticator;
                            ao_recent_auth_until_unix_ms := recent + RECENT_AUTH_MS;
                            ao_valid_from_unix_ms := t; ao_valid_until_unix_ms := idle |}
  end.
Definition told_of (s : SessionRecord) : option (Z * Z) -> result AuthenticationError AuthenticatedOwner :=
  told (ses_principal_id s) (ses_session_id s) (ses_authenticator_id s) (ses_recent_auth_at_unix_ms s).

Lemma present_all_window l w token csrf s :
  opens w token csrf s -> ses_revoked_at_unix_ms s = None ->
  ses_created_at_unix_ms s <= ses_last_used_at_unix_ms s ->
  ses_absolute_expires_at_unix_ms s + SESSION_IDLE_MS <= i64_max ->
  in_i64 (ses_recent_auth_at_unix_ms s + RECENT_AUTH_MS) -> in_i64 (ses_recent_auth_at_unix_ms s) ->
  exists s' w', present_all token csrf l w
      = (told_of s <$> sliding_window (ses_last_used_at_unix_ms s) (ses_idle_expires_at_unix_ms s)
                         (ses_absolute_expires_at_unix_ms s) l.*2, w')
    /\ opens w' token csrf s' /\ ses_session_id s' = ses_session_id s /\ ses_revoked_at_unix_ms s' = None.
Proof.
  revert w s. induction l as [|[require t] l IH]; intros w s Ho Hr Hc Hab Hrec Hrec'; [by exists s, w|].
  pose proof (op_times _ _ _ _ Ho) as Hti.
  cbn [present_all fmap list_fmap snd sliding_window].
  destruct ((ses_last_used_at_unix_ms s <=? t) && (t <=? ses_idle_expires_at_unix_ms s)
            && (t <=? ses_absolute_expires_at_unix_ms s)) eqn:E.
  - bprop. destruct E as [[E1 E2] E3].
    destruct (presented_inside w token csrf require s t) as (w' & c & Hrun & Ho'); [done..|lia|lia|lia|lia| |done|done|].
    { destruct Hti as [[? ?] [? ?]]. unfold in_i64, SESSION_IDLE_MS in *. lia. }
    rewrite Hrun. edestruct IH as (s' & w2 & Hrest & Ho2 & Hid & Hr2); [exact Ho'|done|cbn; lia|done..|].
    exists s', w2. rewrite Hrest. done.
  - rewrite (presented_outside w token csrf require s t).
    + destruct (IH w s) as (s' & w2 & Hrest & ?); [done..|]. exists s', w2. by rewrite Hrest.
    + done.
    + rewrite !andb_false_iff, !Z.leb_gt in E. tauto.
Qed.

(** After logging out, every presentation is refused and changes nothing. *)
Lemma logged_out_refused w token csrf s who request t w' l :
  opens w token csrf s -> ao_session_id who = ses_session_id s ->
  logout_browser_session self who request t w = (Ok tt, w') ->
  present_all token csrf l w' = (const (Err Rejected) <$> l, w').
Proof.
  intros Ho Hid H. pose proof Ho as [Hq Hok Hs Hv Hti Hl Htok Hcsrf (p & Hp & Hpv & Hpa)].
  unfold logout_browser_session in H. minv.
  match goal with H : auth_ask _ _ = _ |- _ => unfold auth_ask, auth_call in H; rewrite call_read_quiet in H by done;
    rewrite Hid, (proj1 (session_found _ _ Hok Hs)) in H; cbn in H; injection H as <- <- end.
  unfold auth_audit, auth_call in *. minv.
  match goal with H : build_audit _ _ _ _ _ _ = _ |- _ => apply build_audit_Ok in H as [n ->]; [|done] end.
  match goal with H : call_raw _ _ _ = _ |- _ => apply call_raw_quiet_Ok in H as (d' & Hrun & ->); [|done] end.
  cbn [w_db set_w_draws] in Hrun.
  match goal with H : _ || _ = false |- _ => apply orb_false_iff in H as [_ Hrev] end.
  rewrite bool_decide_eq_false in Hrev. destruct (ses_revoked_at_unix_ms s) eqn:Er; [by destruct Hrev|].
  pose proof (revoke_session_preserves _ _ _ _ _ _ _ _ Hrun Hok) as Hok'.
  pose proof (revoke_session_stores _ _ _ _ _ _ Hs Hrun Er) as [Hs' Hpr].
  match goal with H : session_commitment _ _ _ _ _ _ = Ok ?x |- _ => rename x into c; apply session_at_verifies in H as Hv' end.
  induction l as [|[require t'] l IH]; [done|]. cbn [present_all].
  rewrite (presented_outside _ token csrf require (session_at s (ses_last_used_at_unix_ms s)
    (ses_idle_expires_at_unix_ms s) (ses_recent_auth_at_unix_ms s) (Some t) c)); [by rewrite IH| |left; by eexists].
  split; try done; [by destruct Hti|]. exists p. split; [|done]. unfold principal in *. cbn. by rewrite Hpr.
Qed.

(** ** Logging in *)

(** What a login leaves: tokens that open a session of the owner which is
    accepted in its window and, once logged out, never again. *)
Definition session_opened (w : World) (secrets : BrowserSessionSecrets) (owner authenticator : Uuid)
    (now : Z) : Prop :=
  bs_absolute_expires_at_unix_ms secrets = now + SESSION_ABSOLUTE_MS /\
  exists session_id, forall l : list (bool * Z),
    let '(answers, w') := present_all (bs_session_token secrets) (bs_csrf_token secrets) l w in
    answers = told owner session_id authenticator now
                <$> sliding_window now (now + SESSION_IDLE_MS) (now + SESSION_ABSOLUTE_MS) l.*2
    /\ forall who request t w2, ao_session_id who = session_id ->
         logout_browser_session self who request t w' = (Ok tt, w2) ->
         forall l', present_all (bs_session_token secrets) (bs_csrf_token secrets) l' w2
                    = (const (Err Rejected) <$> l', w2).

Lemma i64_checked_add_Some a b c : i64_checked_add a b = Some c -> c = a + b /\ in_i64 c.
Proof. unfold i64_checked_add, in_i64. case_match; [|done]. bprop. intros [= <-]. auto. Qed.

(** The authenticator row a login with it replaces. *)
Definition used_row (owner : PrincipalRecord) (a : OwnerAuthenticatorRecord) (r : AuthenticatorRow) : bool :=
  blob_eqb (oa_authenticator_id r) (arr (or_authenticator_id a))
  && blob_eqb (oa_principal_id r) (arr (pc_principal_id owner))
  && bool_decide (oa_state r = "active") && bool_decide (oa_revoked_at r = None)
  && blob_eqb (oa_state_commitment r) (arr (or_state_commitment a)).

Lemma create_browser_session_opens owner a data request now w secrets w' :
  quiet w -> db_ok (w_db w) -> in_i64 now -> principal (w_db w) (pc_principal_id owner) = Ok owner ->
  verify_principal_commitment self owner = Ok tt -> pc_state owner = "active" ->
  create_browser_session self owner a data request now w = (Ok secrets, w') ->
  exists session_id lookup v cv c,
    let s := {| ses_session_id := session_id; ses_lookup_id := lookup; ses_verifier := v; ses_csrf_verifier := cv;
                ses_principal_id := pc_principal_id owner; ses_authenticator_id := or_authenticator_id a;
                ses_auth_method := or_kind a; ses_created_at_unix_ms := now; ses_last_used_at_unix_ms := now;
                ses_idle_expires_at_unix_ms := now + SESSION_IDLE_MS;
                ses_absolute_expires_at_unix_ms := now + SESSION_ABSOLUTE_MS; ses_recent_auth_at_unix_ms := now;
                ses_revoked_at_unix_ms := None; ses_state_commitment := c |} in
    opens w' (bs_session_token secrets) (bs_csrf_token secrets) s
    /\ bs_absolute_expires_at_unix_ms secrets = now + SESSION_ABSOLUTE_MS
    /\ exists c2, authenticator_commitment self (or_authenticator_id a) (or_principal_id a) (or_kind a)
         (or_credential_lookup a) (match data with Some _ => data | None => or_credential_data a end)
         (or_password_phc a) (or_state a) (or_created_at_unix_ms a) (Some now) (or_revoked_at_unix_ms a) = Ok c2
       /\ count (used_row owner a) (db_authenticators (w_db w)) = 1
       /\ db_authenticators (w_db w')
          = update_rows (used_row owner a) (use_authenticator now (arr c2) data) (db_authenticators (w_db w)).
Proof.
  intros Hq Hok Hn Hp Hpv Hpa H. unfold create_browser_session, auth_random_id, auth_audit, auth_call in H. vinv.
  match goal with H : build_audit _ _ _ _ _ _ = _ |- _ => apply build_audit_Ok in H as [n ->]; [|done] end.
  match goal with H : call_raw _ _ _ = _ |- _ => apply call_raw_quiet_Ok in H as (d' & Hrun & ->); [|done] end.
  repeat match goal with H : i64_checked_add _ _ = Some _ |- _ => apply i64_checked_add_Some in H as [-> ?] end.
  cbn [w_db set_w_draws w_draws] in *. match goal with x : () |- _ => destruct x end.
  match goal with H : issue_session _ _ = (Ok ?i, _) |- _ => apply issued_session_verifies in H as (Hl & Hs & Hc) end.
  pose proof (create_session_preserves _ _ _ _ _ Hrun Hok) as Hok'.
  pose proof (create_session_stores _ _ _ _ Hrun) as (Hh & Hpr & Hcount & Hau).
  eexists _, _, _, _, _. split; [|split; [done|eexists; split; [eassumption|]; split; [exact Hcount|exact Hau]]].
  split; [done|exact Hok'|exact Hh|..]; try done.
  - match goal with H : session_commitment _ _ _ _ _ _ = Ok _ |- _ => exact (session_at_verifies _ _ _ _ _ _ H) end.
  - exists owner. split; [|done]. unfold principal in *. cbn. by rewrite Hpr.
Qed.

Lemma opened_session w secrets s now :
  opens w (bs_session_token secrets) (bs_csrf_token secrets) s ->
  ses_created_at_unix_ms s = now -> ses_last_used_at_unix_ms s = now -> ses_recent_auth_at_unix_ms s = now ->
  ses_revoked_at_unix_ms s = None -> ses_idle_expires_at_unix_ms s = now + SESSION_IDLE_MS ->
  ses_absolute_expires_at_unix_ms s = now + SESSION_ABSOLUTE_MS ->
  bs_absolute_expires_at_unix_ms secrets = now + SESSION_ABSOLUTE_MS ->
  now + SESSION_ABSOLUTE_MS + SESSION_IDLE_MS <= i64_max ->
  session_opened w secrets (ses_principal_id s) (ses_authenticator_id s) now.
Proof.
  intros Ho H1 H2 H3 H4 H5 H6 H7 Hclock. split; [done|]. exists (ses_session_id s). intros l.
  destruct (op_times _ _ _ _ Ho) as [Hc _]. rewrite H1 in Hc.
  destruct (present_all_window l w (bs_session_token secrets) (bs_csrf_token secrets) s) as (s' & w' & Hall & Ho' & Hid & Hr);
    [done..|lia|lia| | |].
  - rewrite H3. unfold in_i64, RECENT_AUTH_MS, SESSION_ABSOLUTE_MS, SESSION_IDLE_MS in *. lia.
  - by rewrite H3.
  - rewrite Hall. split; [by rewrite H2, H5, H6, <- H3|].
    intros who request t w2 Hw Hout l'. eapply logged_out_refused; [exact Ho'| |exact Hout]. congruence.
Qed.
End Present.

(** Argon2id as the code configures it: what is hashed verifies, and its PHC
    string states version 19, 64 MiB, 3 passes, 1 lane, a salt and 32 bytes. *)
Class PasswordLaws {PH : PasswordHashing} : Prop := {
  hashed_verifies d p phc : argon2_hash d p = Some phc -> argon2_verify p phc = true;
  hashed_parses d p phc : argon2_hash d p = Some phc ->
    phc_parse phc = Some {| ph_algorithm := "argon2id"; ph_version := Some 19;
                            ph_params := Some (64 * 1024, 3, 1, Some 32); ph_has_salt := true;
                            ph_hash_length := Some 32 |} }.

(** * Stored owners and authenticators *)

Definition enrolled_owner (id : PrincipalId) (c : array 32) : PrincipalRecord :=
  {| pc_principal_id := id; pc_kind := Owner; pc_state := "active"; pc_revision := 1; pc_state_commitment := c |}.

Definition authenticator_of (p : PrincipalId) (a : OwnerAuthenticatorInsert) (now : Z) : OwnerAuthenticatorRecord :=
  {| or_authenticator_id := oi_authenticator_id a; or_principal_id := p; or_kind := oi_kind a;
     or_credential_lookup := oi_credential_lookup a; or_credential_data := oi_credential_data a;
     or_password_phc := oi_password_phc a; or_state := "active"; or_created_at_unix_ms := now;
     or_last_used_at_unix_ms := None; or_revoked_at_unix_ms := None;
     or_state_commitment := oi_state_commitment a |}.

(** The row that holds an authenticator. *)
Definition row_of_authenticator (a : OwnerAuthenticatorRecord) : AuthenticatorRow :=
  {| oa_authenticator_id := arr (or_authenticator_id a); oa_principal_id := arr (or_principal_id a);
     oa_authenticator_kind := authenticator_kind_as_str (or_kind a);
     oa_credential_lookup := or_credential_lookup a; oa_credential_data := or_credential_data a;
     oa_password_phc := or_password_phc a; oa_state := or_state a; oa_created_at := or_created_at_unix_ms a;
     oa_last_used_at := or_last_used_at_unix_ms a; oa_revoked_at := or_revoked_at_unix_ms a;
     oa_state_commitment := arr (or_state_commitment a) |}.

Lemma parse_authenticator_row a : parse_authenticator (row_of_authenticator a) = Ok a.
Proof.
  unfold parse_authenticator, row_of_authenticator, parse_uuid, parse_array.
  cbn [oa_authenticator_id oa_principal_id oa_authenticator_kind oa_state_commitment].
  rewrite !try_array_arr. cbn [ok_or result_bind]. rewrite authenticator_kind_parse_as_str. by destruct a.
Qed.

Lemma insert_authenticator_Ok p a now d u d' :
  insert_authenticator p a now d = Ok (u, d') ->
  d' = set_authenticators (insert_row (row_of_authenticator (authenticator_of p a now)) (db_authenticators d)) d.
Proof.
  unfold insert_authenticator. intros H. sinv.
  match goal with H : sql_insert _ _ _ = Some _ |- _ => apply sql_insert_Some in H as (-> & _) end. done.
Qed.

Lemma enroll_owner_stores p pc az a now audit d d' :
  enroll_owner p pc az a now audit d = (Ok tt, d') ->
  rows (db_principals d') = rows (db_principals d) ++ [new_principal_row (arr p) "owner" (arr pc) now]
  /\ rows (db_authenticators d') = rows (db_authenticators d) ++ [row_of_authenticator (authenticator_of p a now)]
  /\ (forall r, r ∈ rows (db_principals d) -> pr_principal_kind r <> "owner")
  /\ (forall r, r ∈ rows (db_principals d) -> pr_principal_id r <> arr p).
Proof.
  intros H. unfold enroll_owner in H. txn.
  match goal with H : insert_authenticator _ _ _ _ = _ |- _ => apply insert_authenticator_Ok in H as -> end.
  match goal with H : sql_insert principals_schema _ _ = Some _ |- _ => apply sql_insert_Some in H as (-> & _ & Hu) end.
  match goal with H : negb (_ =? 0) = false |- _ => apply negb_false_iff, Z.eqb_eq in H; rename H into Hc end.
  cbn. rewrite !rows_insert. split_and!; try done.
  - intros r Hr E. pose proof (proj1 (count_0 _ _) Hc r Hr) as Hr'. cbn in Hr'. by rewrite bool_decide_true in Hr'.
  - intros r Hr E. specialize (Hu r Hr). assert (clash principals_schema (new_principal_row (arr p) "owner" (arr pc) now) r = true); [|congruence].
    apply (clash_at principals_schema _ _ 0 [VBlob (arr p)]); cbn; by rewrite ?E.
Qed.

(** The owner's row, once enrolled, is the one that is read. *)
Lemma enrolled_owner_found d d' p pc now :
  rows (db_principals d') = rows (db_principals d) ++ [new_principal_row (arr p) "owner" (arr pc) now] ->
  (forall r, r ∈ rows (db_principals d) -> pr_principal_kind r <> "owner") ->
  (forall r, r ∈ rows (db_principals d) -> pr_principal_id r <> arr p) ->
  owner_principal d' = Ok (Some (enrolled_owner p pc)) /\ principal d' p = Ok (enrolled_owner p pc).
Proof.
  intros Hrows Hk Hi.
  assert (parse_principal (new_principal_row (arr p) "owner" (arr pc) now) = Ok (enrolled_owner p pc)) as Hparse.
  { unfold parse_principal, new_principal_row, parse_uuid, parse_array, parse_uint.
    cbn [pr_principal_id pr_principal_kind pr_revision pr_state_commitment]. by rewrite !try_array_arr. }
  assert (forall q : PrincipalRow -> bool, q (new_principal_row (arr p) "owner" (arr pc) now) = true ->
    (forall r, r ∈ rows (db_principals d) -> q r = false) ->
    select_one q (db_principals d') = Some (new_principal_row (arr p) "owner" (arr pc) now)) as Hone.
  { intros q Hq Hn. unfold select_one, select. rewrite Hrows, List.filter_app. cbn [List.filter]. rewrite Hq.
    pose proof (proj2 (select_nil q (db_principals d)) Hn) as E. unfold select in E. by rewrite E. }
  unfold owner_principal, principal. rewrite !Hone.
  - cbn [fmap option_fmap option_map transpose ok_or result_bind]. by rewrite Hparse.
  - cbn. apply blob_eqb_refl.
  - intros r Hr. apply blob_eqb_false. auto.
  - done.
  - intros r Hr. apply bool_decide_eq_false. auto.
Qed.

(** * Password logins *)

Section Passwords.
Context {CR : Crypto} {CL : CryptoLaws} {PH : PasswordHashing} {PL : PasswordLaws} (self : InitializedVault).

(** The authenticator [enroll_local_owner] stores. *)
Definition enrolled_password (owner : PrincipalId) (id : AuthenticatorId) (phc : string) (c : array 32) (now : Z)
  : OwnerAuthenticatorRecord :=
  authenticator_of owner (password_authenticator id phc c) now.

Lemma enroll_local_owner_Ok password request now w p w' :
  quiet w -> db_ok (w_db w) -> rows (db_authenticators (w_db w)) = [] ->
  enroll_local_owner self password request now w = (Ok p, w') ->
  exists pc phc id c,
    argon2_hash (w_draws w) (rs_bytes password) = Some phc /\ quiet w' /\ db_ok (w_db w')
    /\ principal_commitment self p "owner" "active" 1 = Ok pc
    /\ authenticator_commitment self id p Password None None (Some phc) "active" now None None = Ok c
    /\ owner_principal (w_db w') = Ok (Some (enrolled_owner p pc)) /\ principal (w_db w') p = Ok (enrolled_owner p pc)
    /\ owner_authenticators (w_db w') Password = Ok [enrolled_password p id phc c now].
Proof.
  intros Hq Hok Hno H. unfold enroll_local_owner, auth_random_id, auth_audit, auth_call, hash_password in H. vinv.
  match goal with H : build_audit _ _ _ _ _ _ = _ |- _ => apply build_audit_Ok in H as [n ->]; [|done] end.
  match goal with H : call_raw _ _ _ = _ |- _ => apply call_raw_quiet_Ok in H as (d' & Hrun & ->); [|done] end.
  cbn [w_db set_w_draws w_draws] in *. match goal with x : () |- _ => destruct x end.
  pose proof (enroll_owner_preserves _ _ _ _ _ _ _ _ _ Hrun Hok) as Hok'.
  pose proof (enroll_owner_stores _ _ _ _ _ _ _ _ Hrun) as (Hp & Ha & Hk & Hi).
  destruct (enrolled_owner_found _ _ _ _ _ Hp Hk Hi) as [Ho Hf].
  eexists _, _, _, _. split_and!; try done; try eassumption.
  unfold owner_authenticators, select. cbn [w_db set_w_db]. rewrite Ha, Hno. cbn [app List.filter].
  unfold row_of_authenticator at 1 2. cbn -[parse_authenticator].
  exact (f_equal (fun r => let? b := r in Ok [b]) (parse_authenticator_row _)).
Qed.

(** The password that was hashed, or one Argon2id cannot tell from it. *)
Definition password_accepted (phc : string) (q : rstring) : bool :=
  (rs_len q <=? MAX_PASSWORD_BYTES) && argon2_verify (rs_bytes q) phc.

Lemma login_decides w owner a phc d password q request now :
  quiet w -> owner_principal (w_db w) = Ok (Some owner) -> verify_principal_commitment self owner = Ok tt ->
  pc_state owner = "active" -> owner_authenticators (w_db w) Password = Ok [a] ->
  verify_authenticator_commitment self a = Ok tt -> or_password_phc a = Some phc ->
  argon2_hash d password = Some phc ->
  login_with_password self q request now w
  = if password_accepted phc q then create_browser_session self owner a None request now w
    else (Err Rejected, w).
Proof.
  intros Hq Ho Hv Ha Hau Hav Hphc Hh. unfold login_with_password, password_accepted.
  destruct (Z.leb_spec (rs_len q) MAX_PASSWORD_BYTES) as [Hl|Hl]; cbn [andb].
  2:{ unfold prog_bind at 1, prog_reject. by rewrite (proj2 (Z.ltb_lt _ _) Hl). }
  rewrite bind_reject_false by (by apply Z.ltb_ge).
  rewrite bind_auth_ask by done. rewrite Ho. rewrite (bind_lift_Ok _ _ owner) by done.
  rewrite (bind_lift_Ok _ _ tt) by done. rewrite bind_reject_false by (by rewrite Ha).
  rewrite bind_auth_ask by done. rewrite Hau. cbn [match_password].
  unfold verify_password_record. rewrite Hav, Hphc. cbn [result_bind ok_or].
  unfold validate_password_phc. rewrite (hashed_parses _ _ _ Hh). cbn [result_bind ok_or ph_params].
  cbn -[create_browser_session argon2_verify]. by destruct (argon2_verify (rs_bytes q) phc).
Qed.
End Passwords.

(** C7. The password decides who logs in: after the owner of a new vault is
    enrolled, a login is refused as rejected, with nothing changed, exactly for
    the passwords that are too long or that Argon2id does not verify; the
    enrolled password reaches the creation of a session; and a login that
    succeeds returns tokens of the owner that are accepted, with the answer the
    sliding window prescribes, however often and whenever they are presented
    (half an hour from the last use, twelve hours at most, never before the
    login), until the session is logged out, and never after. *)
Theorem enrolled_password_decides_login {CR : Crypto} {CL : CryptoLaws} {PH : PasswordHashing} {PL : PasswordLaws}
    (self : InitializedVault) (password : rstring) (request : RequestId) (now : Z) (w w' : World) (p : PrincipalId)
    (Hq : quiet w) (Hok : db_ok (w_db w)) (Hnew : rows (db_authenticators (w_db w)) = [])
    (H : enroll_local_owner self password request now w = (Ok p, w')) :
  exists phc id owner a,
    argon2_hash (w_draws w) (rs_bytes password) = Some phc
    /\ pc_principal_id owner = p /\ or_authenticator_id a = id
    /\ password_accepted phc password = true
    /\ forall q request2 now2, in_i64 now2 -> now2 + SESSION_ABSOLUTE_MS + SESSION_IDLE_MS <= i64_max ->
         login_with_password self q request2 now2 w'
         = (if password_accepted phc q then create_browser_session self owner a None request2 now2 w'
            else (Err Rejected, w'))
         /\ forall secrets w2, login_with_password self q request2 now2 w' = (Ok secrets, w2) ->
              session_opened self w2 secrets p id now2.
Proof.
  assert (rs_len password <= MAX_PASSWORD_BYTES) as Hlen.
  { unfold enroll_local_owner, validate_password in H. minv. case_match eqn:E; [done|]. bprop. tauto. }
  destruct (enroll_local_owner_Ok self password request now w p w' Hq Hok Hnew H)
    as (pc & phc & id & c & Hphc & Hq' & Hok' & Hpc & Hc & Ho & Hp & Hau).
  assert (verify_principal_commitment self (enrolled_owner p pc) = Ok tt) as Hv.
  { unfold verify_principal_commitment. cbn. rewrite Hpc. cbn. by rewrite bool_decide_true. }
  assert (verify_authenticator_commitment self (enrolled_password p id phc c now) = Ok tt) as Hav.
  { unfold verify_authenticator_commitment. cbn. rewrite Hc. cbn. by rewrite bool_decide_true. }
  exists phc, id, (enrolled_owner p pc), (enrolled_password p id phc c now).
  split_and!; try done.
  { unfold password_accepted. by rewrite (proj2 (Z.leb_le _ _) Hlen), (hashed_verifies _ _ _ Hphc). }
  intros q request2 now2 Hnow Hclock.
  assert (Hlogin := login_decides self w' (enrolled_owner p pc) (enrolled_password p id phc c now) phc _ _
    q request2 now2 Hq' Ho Hv eq_refl Hau Hav eq_refl Hphc).
  split; [exact Hlogin|]. intros secrets w2 Hrun. rewrite Hlogin in Hrun.
  destruct (password_accepted phc q); [|done].
  destruct (create_browser_session_opens self (enrolled_owner p pc) _ _ _ _ _ _ _ Hq' Hok' Hnow Hp Hv eq_refl Hrun)
    as (sid & l & v & cv & c' & Hopen & Habs & _).
  exact (opened_session self w2 secrets _ now2 Hopen eq_refl eq_refl eq_refl eq_refl eq_refl eq_refl Habs Hclock).
Qed.
