(* ===== verification/PasskeyProps.v ===== *)
(** Passkey ceremonies: how many are pending, that each is answered once and in
    time, and what registration and login with a passkey do. *)
From Stdlib Require Import ZArith Lia Strings.Byte String.
From stdpp Require Import base tactics numbers option strings list gmap.
From S2P Require Import Prelude RustStd Core Crypto Format Sql Schema Records StoreInv RecordsOk PolicyStore VaultStore IdentityStore Store RecordsProps Metadata VaultCore Authentication Authorization VaultAudit VaultRuns AppRuns VaultProps AuthzProps LoginProps Passkeys.

(** * Pending ceremonies *)

Section Ceremonies.
Context {WA : WebAuthn}.

(** At most 32 ceremonies, each of five minutes. *)
Record ceremonies_ok (c : CeremonyState) : Prop := {
  ck_bounded : map_len (cs_registrations c) + map_len (cs_authentications c) <= MAX_PENDING_CEREMONIES;
  ck_registrations : map_Forall (fun _ r => rc_expires_at_unix_ms r = rc_created_at_unix_ms r + CEREMONY_LIFETIME_MS)
                       (cs_registrations c);
  ck_authentications : map_Forall (fun _ a => ac_expires_at_unix_ms a = ac_created_at_unix_ms a + CEREMONY_LIFETIME_MS)
                         (cs_authentications c) }.

(** The steps other requests take start ceremonies of five minutes. *)
Definition step_ok (s : CeremonyStep) : Prop :=
  match s with
  | AddRegistration _ r _ => rc_expires_at_unix_ms r = rc_created_at_unix_ms r + CEREMONY_LIFETIME_MS
  | AddAuthentication _ a _ => ac_expires_at_unix_ms a = ac_created_at_unix_ms a + CEREMONY_LIFETIME_MS
  | _ => True
  end.

Lemma map_len_filter {K A} `{Countable K} (P : K * A -> Prop) `{forall x, Decision (P x)} (m : gmap K A) :
  map_len (filter P m) <= map_len m.
Proof. unfold map_len. apply Nat2Z.inj_le, map_subseteq_size, map_filter_subseteq. Qed.
Lemma map_len_delete {K A} `{Countable K} i (m : gmap K A) : map_len (delete i m) <= map_len m.
Proof. unfold map_len. apply Nat2Z.inj_le, map_subseteq_size, delete_subseteq. Qed.
Lemma map_len_insert {K A} `{Countable K} i x (m : gmap K A) : map_len (<[i := x]> m) <= map_len m + 1.
Proof. unfold map_len. rewrite map_size_insert. case_match; unfold id; lia. Qed.

Lemma ceremony_count_lt c :
  (MAX_PENDING_CEREMONIES <=? ceremony_count c) = false ->
  map_len (cs_registrations c) + map_len (cs_authentications c) < MAX_PENDING_CEREMONIES.
Proof. unfold ceremony_count, MAX_PENDING_CEREMONIES, u64_max. rewrite Z.leb_gt. lia. Qed.

Lemma cleanup_ok now c : ceremonies_ok c -> ceremonies_ok (cleanup now c).
Proof.
  intros [H1 H2 H3]. split; unfold cleanup; cbn [cs_registrations cs_authentications].
  - etrans; [apply Z.add_le_mono; apply map_len_filter|done].
  - intros i x [Hx _]%map_lookup_filter_Some. by apply (H2 i).
  - intros i x [Hx _]%map_lookup_filter_Some. by apply (H3 i).
Qed.

Lemma ceremony_step_ok s c : step_ok s -> ceremonies_ok c -> ceremonies_ok (ceremony_step s c).
Proof.
  intros Hs Hc. destruct s as [id r now|id a now|id|id]; cbn [ceremony_step].
  - unfold add_registration. case_match eqn:E; cbn [snd]; [by apply cleanup_ok|].
    apply ceremony_count_lt in E. destruct (cleanup_ok now c Hc) as [H1 H2 H3].
    split; cbn [cs_registrations cs_authentications]; [|by apply map_Forall_insert_2|done].
    pose proof (map_len_insert id r (cs_registrations (cleanup now c))). lia.
  - unfold add_authentication. case_match eqn:E; cbn [snd]; [by apply cleanup_ok|].
    apply ceremony_count_lt in E. destruct (cleanup_ok now c Hc) as [H1 H2 H3].
    split; cbn [cs_registrations cs_authentications]; [|done|by apply map_Forall_insert_2].
    pose proof (map_len_insert id a (cs_authentications (cleanup now c))). lia.
  - destruct Hc as [H1 H2 H3]. split; cbn; [|by apply map_Forall_delete|done].
    pose proof (map_len_delete id (cs_registrations c)). lia.
  - destruct Hc as [H1 H2 H3]. split; cbn; [|done|by apply map_Forall_delete].
    pose proof (map_len_delete id (cs_authentications c)). lia.
Qed.

Lemma ceremony_steps_ok l c : Forall step_ok l -> ceremonies_ok c -> ceremonies_ok (ceremony_steps l c).
Proof. intros HF. revert c. induction HF as [|s l Hs HF IH]; intros c Hc; [done|]. by apply IH, ceremony_step_ok. Qed.
End Ceremonies.

(** * What requests preserve *)

(** [triple I m Q]: whatever its outcome [m] keeps [I], and a result satisfies [Q]. *)
Definition triple {WA : WebAuthn} (I : PasskeyWorld -> Prop) {A} (m : Passkeys A) (Q : A -> Prop) : Prop :=
  forall p, I p -> I (snd (m p)) /\ forall a, fst (m p) = Ok a -> Q a.

Section Triples.
Context {WA : WebAuthn} (I : PasskeyWorld -> Prop).

Lemma triple_bind {A B} (m : Passkeys A) (k : A -> Passkeys B) Q R :
  triple I m Q -> (forall a, Q a -> triple I (k a) R) -> triple I (prog_bind m k) R.
Proof.
  intros Hm Hk p Hp. destruct (Hm p Hp) as [H1 H2]. unfold prog_bind.
  destruct (m p) as [[a|e] p']; cbn [fst snd] in *; [by apply Hk; auto|]. split; [done|discriminate].
Qed.
Lemma triple_lift {A} (r : result AuthenticationError A) : triple I (prog_lift r) (fun a => r = Ok a).
Proof. by intros p Hp. Qed.
Lemma triple_reject b e : triple I (prog_reject b e) (fun _ => True).
Proof. by intros p Hp. Qed.
Lemma triple_ret {A} (a : A) : triple I (prog_ret a) (eq a).
Proof. intros p Hp. split; [done|]. by intros ? [= <-]. Qed.
Lemma triple_weaken {A} (m : Passkeys A) (Q : A -> Prop) : triple I m Q -> triple I m (fun _ => True).
Proof. intros H p Hp. split; [by apply H|done]. Qed.
End Triples.

(** ** The invariant of the service *)

Section Invariant.
Context {CR : Crypto} {WA : WebAuthn} (self : InitializedVault) (webauthn : Webauthn).

Record service_ok (p : PasskeyWorld) : Prop := {
  so_world : world_ok self (pw_world p);
  so_ceremonies : ceremonies_ok (pw_ceremonies p);
  so_schedule : Forall (Forall step_ok) (pw_schedule p) }.

Lemma triple_in_vault {A} (m : Auth A) Q : keeps self m Q -> triple service_ok (in_vault m) Q.
Proof.
  intros Hm p [Hw Hc Hs]. destruct (Hm _ Hw) as [H1 H2]. unfold in_vault.
  destruct (m (pw_world p)) as [r w]. by split.
Qed.

Lemma triple_locked {A} (m : Prog CeremonyState AuthenticationError A) :
  (forall c, ceremonies_ok c -> ceremonies_ok (snd (m c))) -> triple service_ok (locked m) (fun _ => True).
Proof.
  intros Hm p [Hw Hc Hs]. split; [|done]. unfold locked.
  destruct (pw_schedule p) as [|s l]; [specialize (Hm (ceremony_steps [] (pw_ceremonies p)) Hc)
    |apply Forall_cons in Hs as [Hs1 Hs2]; specialize (Hm _ (ceremony_steps_ok s _ Hs1 Hc))];
    destruct (m _) as [r c]; by split.
Qed.

Lemma keeps_with_challenge {A} (f : nat -> option A) : keeps self (with_challenge f) (fun _ => True).
Proof. intros w Hw. split; [|done]. by apply set_draws_ok. Qed.

Lemma keeps_random : keeps self auth_random_id (fun _ => True).
Proof. unfold auth_random_id. app_keep. Qed.

Lemma keeps_authorize_enrollment owner request now :
  in_i64 now -> keeps self (authorize_enrollment self owner request now) (fun _ => True).
Proof.
  intros Hn. unfold authorize_enrollment. pose proof (keeps_owner_context self now owner).
  pose proof (keeps_authorize self request now Hn (RequestOwner owner)). app_keep.
Qed.

Lemma keeps_store_passkey owner k request now :
  in_i64 now -> keeps self (store_passkey self owner k request now) (fun _ => True).
Proof. intros Hn. unfold store_passkey. app_keep. Qed.

Lemma keeps_login_with_assertion assertion records request now :
  in_i64 now -> keeps self (login_with_assertion self assertion records request now) (fun _ => True).
Proof.
  intros Hn. induction records as [|r records IH]; cbn [login_with_assertion]; [by intros w Hw|].
  pose proof (keeps_browser_session self request now Hn). app_keep.
Qed.

Lemma keeps_passkeys_read : keeps self (auth_ask (fun d => owner_authenticators d Passkey)) (fun _ => True).
Proof. app_keep. Qed.

Lemma lifetime now t : ok_or AuUnavailable (i64_checked_add now CEREMONY_LIFETIME_MS) = Ok t -> t = now + CEREMONY_LIFETIME_MS.
Proof. intros H%ok_or_Ok%i64_checked_add_Some. tauto. Qed.

#[local] Hint Resolve keeps_with_challenge keeps_random keeps_authorize_enrollment keeps_store_passkey
  keeps_login_with_assertion keeps_passkeys_read : keeps.

Ltac serve :=
  repeat lazymatch goal with
  | |- triple _ (prog_bind (prog_lift _) _) _ => eapply triple_bind; [apply triple_lift|cbv beta; intros]
  | |- triple _ (prog_bind (prog_reject _ _) _) _ => eapply triple_bind; [apply triple_reject|cbv beta; intros]
  | |- triple _ (prog_bind (in_vault _) _) _ =>
      eapply (triple_bind _ _ _ (fun _ => True)); [apply triple_in_vault; eauto with keeps|cbv beta; intros]
  | |- triple _ (prog_bind (locked _) _) _ =>
      eapply (triple_bind _ _ _ (fun _ => True)); [apply triple_locked|cbv beta; intros]
  | |- triple _ (in_vault _) _ => apply triple_in_vault; eauto with keeps
  | |- triple _ (prog_ret _) _ => eapply triple_weaken, triple_ret
  | |- triple _ (let (_, _) := ?x in _) _ => destruct x
  end.

Lemma service_ok_run q request now p :
  in_i64 now -> service_ok p -> service_ok (run_passkey self webauthn q request now p).
Proof.
  intros Hn Hp.
  assert (forall A (m : Passkeys A), triple service_ok m (fun _ => True) -> service_ok (snd (m p))) as Hrun
    by (intros A m Hm; by apply Hm).
  destruct q as [owner|owner id r| |id r]; cbn [run_passkey]; apply Hrun.
  - unfold start_registration. serve. match goal with H : ok_or _ _ = Ok _ |- _ => apply lifetime in H as -> end.
    intros cs. by apply (ceremony_step_ok (AddRegistration _ _ _)).
  - unfold finish_registration. serve. intros cs. by apply (ceremony_step_ok (TakeRegistration id)).
  - unfold start_authentication. serve. match goal with H : ok_or _ _ = Ok _ |- _ => apply lifetime in H as -> end.
    intros cs. by apply (ceremony_step_ok (AddAuthentication _ _ _)).
  - unfold finish_authentication. serve. intros cs. by apply (ceremony_step_ok (TakeAuthentication id)).
Qed.
End Invariant.

Lemma service_ok_runs {CR : Crypto} {WA : WebAuthn} (self : InitializedVault) (webauthn : Webauthn) l p :
  Forall (fun x => in_i64 x.2) l -> service_ok self p -> service_ok self (run_passkeys self webauthn l p).
Proof.
  intros HF. revert p. induction HF as [|[[q request] now] l Hn HF IH]; intros p Hp; [done|].
  apply IH. by apply service_ok_run.
Qed.

(** * Each ceremony is answered once *)

Inductive CeremonyKind : Type := Registering | Authenticating.
#[export] Instance CeremonyKind_eq_decision : EqDecision CeremonyKind.
Proof. solve_decision. Defined.

Section Once.
Context {CR : Crypto} {WA : WebAuthn} (self : InitializedVault) (webauthn : Webauthn) (kind : CeremonyKind) (id : CeremonyId).

Definition pending (c : CeremonyState) : Prop :=
  match kind with
  | Registering => is_Some (cs_registrations c !! id)
  | Authenticating => is_Some (cs_authentications c !! id)
  end.

Definition adds (s : CeremonyStep) : Prop :=
  match kind, s with
  | Registering, AddRegistration i _ _ | Authenticating, AddAuthentication i _ _ => i = id
  | _, _ => False
  end.

(** The ceremony is not pending, and no other request is about to draw its identity. *)
Record spent (p : PasskeyWorld) : Prop := {
  sp_gone : ~ pending (pw_ceremonies p);
  sp_never : Forall (Forall (fun s => ~ adds s)) (pw_schedule p) }.

(** The ceremony a request starts. *)
Definition issued (q : PasskeyRequest) (request : RequestId) (now : Z) (p : PasskeyWorld) : option CeremonyId :=
  match kind, q with
  | Registering, StartRegistration owner =>
      match fst (start_registration self webauthn owner request now p) with
      | Ok ch => Some (ch_ceremony_id ch) | Err _ => None end
  | Authenticating, StartAuthentication =>
      match fst (start_authentication self webauthn now p) with
      | Ok ch => Some (ch_ceremony_id ch) | Err _ => None end
  | _, _ => None
  end.

(** No request of a sequence draws the identity again. *)
Fixpoint not_issued (l : list (PasskeyRequest * RequestId * Z)) (p : PasskeyWorld) : Prop :=
  match l with
  | [] => True
  | (q, request, now) :: rest =>
      issued q request now p <> Some id /\ not_issued rest (run_passkey self webauthn q request now p)
  end.

Lemma step_keeps_gone s c : ~ adds s -> ~ pending c -> ~ pending (ceremony_step s c).
Proof.
  unfold adds, pending. intros Ha Hp Hx. apply Hp. clear Hp. revert Hx.
  destruct kind, s as [i r now|i a now|i|i]; cbn [ceremony_step]; try done.
  - unfold add_registration. case_match; cbn.
    + intros [x Hx]. apply map_lookup_filter_Some in Hx as [Hx _]. eauto.
    + rewrite lookup_insert_ne by done. intros [x Hx]. apply map_lookup_filter_Some in Hx as [Hx _]. eauto.
  - unfold add_authentication. case_match; cbn; intros [x Hx]; apply map_lookup_filter_Some in Hx as [Hx _]; eauto.
  - cbn. intros [x Hx]. apply lookup_delete_Some in Hx as [_ Hx]. eauto.
  - unfold add_registration. case_match; cbn; intros [x Hx]; apply map_lookup_filter_Some in Hx as [Hx _]; eauto.
  - unfold add_authentication. case_match; cbn.
    + intros [x Hx]. apply map_lookup_filter_Some in Hx as [Hx _]. eauto.
    + rewrite lookup_insert_ne by done. intros [x Hx]. apply map_lookup_filter_Some in Hx as [Hx _]. eauto.
  - cbn. intros [x Hx]. apply lookup_delete_Some in Hx as [_ Hx]. eauto.
Qed.

Lemma steps_keep_gone l c : Forall (fun s => ~ adds s) l -> ~ pending c -> ~ pending (ceremony_steps l c).
Proof. intros HF. revert c. induction HF as [|s l Hs HF IH]; intros c Hc; [done|]. by apply IH, step_keeps_gone. Qed.

(** Acquiring the lock: the steps before, then the request's own. *)
Lemma locked_run {A} (m : Prog CeremonyState AuthenticationError A) p :
  Forall (Forall (fun s => ~ adds s)) (pw_schedule p) -> ~ pending (pw_ceremonies p) ->
  exists c later, ~ pending c /\ Forall (Forall (fun s => ~ adds s)) later
    /\ locked m p = (fst (m c), {| pw_world := pw_world p; pw_ceremonies := snd (m c); pw_schedule := later |}).
Proof.
  intros Hs Hp. unfold locked. destruct (pw_schedule p) as [|s l].
  - exists (ceremony_steps [] (pw_ceremonies p)), []. split_and!; [done|done|]. by destruct (m _).
  - apply Forall_cons in Hs as [Hs Hl]. exists (ceremony_steps s (pw_ceremonies p)), l.
    split_and!; [by apply steps_keep_gone|done|]. by destruct (m _).
Qed.

Lemma spent_in_vault {A} (m : Auth A) : triple spent (in_vault m) (fun _ => True).
Proof. intros p [H1 H2]. split; [|done]. unfold in_vault. by destruct (m (pw_world p)). Qed.

Lemma spent_locked {A} (m : Prog CeremonyState AuthenticationError A) s :
  (forall c, snd (m c) = ceremony_step s c) -> ~ adds s -> triple spent (locked m) (fun _ => True).
Proof.
  intros Hm Hs p [H1 H2]. split; [|done].
  destruct (locked_run m p H2 H1) as (c & later & Hc & Hl & ->). cbn [snd]. split; [|done].
  cbn. rewrite Hm. by apply step_keeps_gone.
Qed.

(** [m] keeps the ceremony spent, unless it succeeds with a result in [Q]. *)
Definition spent_unless {A} (m : Passkeys A) (Q : A -> Prop) : Prop :=
  forall p, spent p -> spent (snd (m p)) \/ exists a, fst (m p) = Ok a /\ Q a.

Lemma spent_unless_bind {A B} (m : Passkeys A) (k : A -> Passkeys B) R Q :
  triple spent m R -> (forall a, spent_unless (k a) Q) -> spent_unless (prog_bind m k) Q.
Proof.
  intros Hm Hk p Hp. destruct (Hm p Hp) as [H1 _]. unfold prog_bind.
  destruct (m p) as [[a|e] p']; [by apply Hk|by left].
Qed.

Lemma spent_unless_triple {A} (m : Passkeys A) Q R : triple spent m R -> spent_unless m Q.
Proof. intros Hm p Hp. left. by apply Hm. Qed.

Lemma cleanup_keeps_gone now c : ~ pending c -> ~ pending (cleanup now c).
Proof.
  unfold pending. intros Hp Hx. apply Hp. revert Hx.
  destruct kind; cbn; intros [x Hx]; apply map_lookup_filter_Some in Hx as [Hx _]; eauto.
Qed.

Lemma start_registration_spends x r now {T} (ch : PasskeyChallenge T) :
  ch_ceremony_id ch = x ->
  spent_unless (do! _ := locked (add_registration x r now) in prog_ret ch)
    (fun a => kind = Registering /\ ch_ceremony_id a = id).
Proof.
  intros <- p Hp. destruct (decide (kind = Registering /\ ch_ceremony_id ch = id)) as [Hx|Hx].
  - unfold prog_bind. destruct Hp as [H1 H2].
    destruct (locked_run (add_registration (ch_ceremony_id ch) r now) p H2 H1) as (c & later & Hc & Hl & ->).
    unfold add_registration. destruct (MAX_PENDING_CEREMONIES <=? _); cbn [fst snd]; [|right; by exists ch].
    left. split; [by apply cleanup_keeps_gone|done].
  - left. refine (proj1 (triple_bind _ _ _ (fun _ => True) (fun _ => True) _ _ p Hp)).
    + eapply (spent_locked _ (AddRegistration (ch_ceremony_id ch) r now)); [done|].
      unfold adds. destruct kind; [|tauto]. intros E. by apply Hx.
    + intros _ _. eapply triple_weaken, triple_ret.
Qed.

Lemma start_authentication_spends x r now {T} (ch : PasskeyChallenge T) :
  ch_ceremony_id ch = x ->
  spent_unless (do! _ := locked (add_authentication x r now) in prog_ret ch)
    (fun a => kind = Authenticating /\ ch_ceremony_id a = id).
Proof.
  intros <- p Hp. destruct (decide (kind = Authenticating /\ ch_ceremony_id ch = id)) as [Hx|Hx].
  - unfold prog_bind. destruct Hp as [H1 H2].
    destruct (locked_run (add_authentication (ch_ceremony_id ch) r now) p H2 H1) as (c & later & Hc & Hl & ->).
    unfold add_authentication. destruct (MAX_PENDING_CEREMONIES <=? _); cbn [fst snd]; [|right; by exists ch].
    left. split; [by apply cleanup_keeps_gone|done].
  - left. refine (proj1 (triple_bind _ _ _ (fun _ => True) (fun _ => True) _ _ p Hp)).
    + eapply (spent_locked _ (AddAuthentication (ch_ceremony_id ch) r now)); [done|].
      unfold adds. destruct kind; [tauto|]. intros E. by apply Hx.
    + intros _ _. eapply triple_weaken, triple_ret.
Qed.

Ltac spends :=
  repeat lazymatch goal with
  | |- spent_unless (prog_bind (locked _) (fun _ => prog_ret _)) _ => fail
  | |- spent_unless (prog_bind (prog_lift _) _) _ => eapply spent_unless_bind; [apply triple_lift|intros]
  | |- spent_unless (prog_bind (prog_reject _ _) _) _ => eapply spent_unless_bind; [apply triple_reject|intros]
  | |- spent_unless (prog_bind (in_vault _) _) _ => eapply spent_unless_bind; [apply spent_in_vault|intros]
  | |- spent_unless (prog_bind (locked _) _) _ => eapply spent_unless_bind; [|intros]
  | |- spent_unless (in_vault _) _ => eapply spent_unless_triple, spent_in_vault
  | |- spent_unless (let (_, _) := ?x in _) _ => destruct x
  end.

Lemma run_keeps_spent q request now p :
  spent p -> issued q request now p <> Some id -> spent (run_passkey self webauthn q request now p).
Proof.
  intros Hp Hq. destruct q as [owner|owner i r| |i r]; cbn [run_passkey].
  - assert (spent_unless (start_registration self webauthn owner request now)
      (fun a => kind = Registering /\ ch_ceremony_id a = id)) as H.
    { unfold start_registration. spends. by apply start_registration_spends. }
    destruct (H p Hp) as [?|(a & Ha & Hk & Hi)]; [done|]. destruct Hq. unfold issued. rewrite Hk, Ha. by rewrite Hi.
  - assert (spent_unless (finish_registration self webauthn owner i r request now) (fun _ => False)) as H.
    { unfold finish_registration. spends. apply (spent_locked _ (TakeRegistration i)); [done|]. unfold adds; destruct kind; by intros []. }
    destruct (H p Hp) as [?|(? & _ & [])]. done.
  - assert (spent_unless (start_authentication self webauthn now)
      (fun a => kind = Authenticating /\ ch_ceremony_id a = id)) as H.
    { unfold start_authentication. spends. by apply start_authentication_spends. }
    destruct (H p Hp) as [?|(a & Ha & Hk & Hi)]; [done|]. destruct Hq. unfold issued. rewrite Hk, Ha. by rewrite Hi.
  - assert (spent_unless (finish_authentication self webauthn i r request now) (fun _ => False)) as H.
    { unfold finish_authentication. spends. apply (spent_locked _ (TakeAuthentication i)); [done|]. unfold adds; destruct kind; by intros []. }
    destruct (H p Hp) as [?|(? & _ & [])]. done.
Qed.

Lemma run_passkeys_cons q request now l p :
  run_passkeys self webauthn ((q, request, now) :: l) p
  = run_passkeys self webauthn l (run_passkey self webauthn q request now p).
Proof. unfold run_passkeys. cbn [foldl]. reflexivity. Qed.

Lemma runs_keep_spent l p : spent p -> not_issued l p -> spent (run_passkeys self webauthn l p).
Proof.
  revert p. induction l as [|[[q request] now] l IH]; intros p Hp Hn; [done|]. destruct Hn as [H1 H2].
  rewrite run_passkeys_cons. apply IH; [exact (run_keeps_spent _ _ _ _ Hp H1)|exact H2].
Qed.
End Once.

Section SingleUse.
Context {CR : Crypto} {WA : WebAuthn} (self : InitializedVault) (webauthn : Webauthn).

(** No other request is about to draw the identity. *)
Definition never_added (kind : CeremonyKind) (id : CeremonyId) (p : PasskeyWorld) : Prop :=
  Forall (Forall (fun s => ~ adds kind id s)) (pw_schedule p).

Lemma locked_spends kind id {A} (m : Prog CeremonyState AuthenticationError A) p :
  (forall c, ~ pending kind id (snd (m c))) -> never_added kind id p -> spent kind id (snd (locked m p)).
Proof.
  intros Hm Hs. unfold never_added, locked in *. destruct (pw_schedule p) as [|s l].
  - specialize (Hm (ceremony_steps [] (pw_ceremonies p))). destruct (m _). by split.
  - apply Forall_cons in Hs as [_ Hl]. specialize (Hm (ceremony_steps s (pw_ceremonies p))). destruct (m _). by split.
Qed.

Lemma spent_after {kind id A B} (m : Passkeys A) (k : A -> Passkeys B) Q p :
  spent kind id (snd (m p)) -> (forall a, triple (spent kind id) (k a) Q) -> spent kind id (snd (prog_bind m k p)).
Proof.
  intros Hm Hk. unfold prog_bind. destruct (m p) as [[a|e] p']; [|done]. by apply (Hk a p').
Qed.

Lemma finish_authentication_spends id response request now p :
  never_added Authenticating id p -> spent Authenticating id (snd (finish_authentication self webauthn id response request now p)).
Proof.
  intros Hs. unfold finish_authentication. eapply spent_after.
  - apply locked_spends; [|done]. intros c. cbn. rewrite lookup_delete_eq. by intros [? ?].
  - intros a. eapply triple_bind; [apply triple_reject|intros]. eapply triple_bind; [apply triple_lift|intros].
    eapply triple_bind; [apply spent_in_vault|intros]. apply spent_in_vault.
Qed.

Lemma in_vault_never_added kind id {A} (m : Auth A) p : never_added kind id p -> never_added kind id (snd (in_vault m p)).
Proof. unfold in_vault, never_added. by destruct (m (pw_world p)). Qed.

Lemma finish_registration_spends owner id response request now p a p' :
  never_added Registering id p -> finish_registration self webauthn owner id response request now p = (Ok a, p') ->
  spent Registering id p'.
Proof.
  intros Hs H. unfold finish_registration in H. unfold prog_bind in H at 1.
  pose proof (in_vault_never_added Registering id (authorize_enrollment self owner request now) p Hs) as Hs1.
  destruct (in_vault _ p) as [[u|e] p1]; [|done]. cbn [snd] in Hs1.
  replace p' with (snd (Ok (E := AuthenticationError) a, p')) by done. rewrite <- H. eapply spent_after.
  - apply locked_spends; [|done]. intros c. cbn. rewrite lookup_delete_eq. by intros [? ?].
  - intros r. eapply triple_bind; [apply triple_reject|intros]. eapply triple_bind; [apply triple_lift|intros].
    apply spent_in_vault.
Qed.

Lemma spent_authentication_refused id response request now p :
  spent Authenticating id p ->
  fst (finish_authentication self webauthn id response request now p) = Err Rejected
  /\ pw_world (snd (finish_authentication self webauthn id response request now p)) = pw_world p.
Proof.
  intros [H1 H2]. unfold finish_authentication, prog_bind.
  destruct (locked_run Authenticating id (take_authentication id) p H2 H1) as (c & later & Hc & _ & ->).
  cbn [take_authentication fst snd]. destruct (cs_authentications c !! id) eqn:E; [|done].
  destruct Hc. unfold pending. eauto.
Qed.

Lemma spent_registration_refused owner id response request now p a :
  spent Registering id p -> fst (finish_registration self webauthn owner id response request now p) <> Ok a.
Proof.
  intros Hp. unfold finish_registration, prog_bind.
  destruct (spent_in_vault Registering id (authorize_enrollment self owner request now) p Hp) as [[H1 H2] _].
  destruct (in_vault _ p) as [[u|e] p1]; [|done]. cbn [snd] in *.
  destruct (locked_run Registering id (take_registration id) p1 H2 H1) as (c & later & Hc & _ & ->).
  cbn [take_registration fst snd]. destruct (cs_registrations c !! id) eqn:E; [|done].
  destruct Hc. unfold pending. eauto.
Qed.
End SingleUse.

