(* ===== verification/PasskeyRuns.v ===== *)
(** What registering a passkey stores, and that it logs in afterwards. *)
From Stdlib Require Import ZArith Lia Strings.Byte String.
From stdpp Require Import base tactics numbers option strings list gmap.
From S2P Require Import Prelude RustStd Core Crypto Format Sql Schema Records StoreInv RecordsOk PolicyStore VaultStore IdentityStore Store RecordsProps Metadata VaultCore Authentication Authorization VaultAudit VaultRuns VaultProps AuthzProps PolicyChanges LoginProps Passkeys PasskeyProps.

Section Registered.
Context {CR : Crypto} {CL : CryptoLaws} {WA : WebAuthn} {WL : WebAuthnLaws} (self : InitializedVault) (webauthn : Webauthn).

(** Nothing else runs. *)
Definition alone (p : PasskeyWorld) : Prop := quiet (pw_world p) /\ pw_schedule p = [].

Lemma enrollment_authorized owner request now w u w' :
  quiet w -> db_ok (w_db w) -> authorize_enrollment self owner request now w = (Ok u, w') ->
  quiet w' /\ db_ok (w_db w') /\ is_recent_at owner now = true /\ exists t, w_db w' = set_audit t (w_db w).
Proof.
  intros Hq Hok H. unfold authorize_enrollment in H. minv.
  match goal with H : verify_owner_context_active _ _ _ _ = _ |- _ =>
    unfold verify_owner_context_active, auth_ask, auth_call in H end. minv.
  match goal with H : call_raw (prog_read _) _ _ = _ |- _ => apply call_read_Ok in H as [_ ->]; [|done] end.
  unfold authorize, az_call in *. minv.
  match goal with H : build_audit_outcome _ _ _ _ _ _ _ = _ |- _ => apply build_audit_outcome_Ok in H as [n ->]; [|done] end.
  match goal with H : call_raw (append_audit _) _ _ = _ |- _ => apply call_raw_quiet_Ok in H as (d & H & ->); [|done] end.
  match goal with H : negb (is_recent_at _ _) = false |- _ => apply negb_false_iff in H as Hr end.
  match goal with H : append_audit _ _ = _ |- _ => pose proof (append_audit_preserves _ _ _ _ H Hok) end.
  unfold append_audit in *. txn. cbn. eauto.
Qed.

Lemma in_vault_Ok {A} (m : Auth A) p a p' :
  in_vault m p = (Ok a, p') ->
  exists w, m (pw_world p) = (Ok a, w)
    /\ p' = {| pw_world := w; pw_ceremonies := pw_ceremonies p; pw_schedule := pw_schedule p |}.
Proof. unfold in_vault. destruct (m (pw_world p)) as [r w]. intros [= -> <-]. eauto. Qed.

Lemma locked_alone {A} (m : Prog CeremonyState AuthenticationError A) p :
  pw_schedule p = [] ->
  locked m p = (fst (m (pw_ceremonies p)),
                {| pw_world := pw_world p; pw_ceremonies := snd (m (pw_ceremonies p)); pw_schedule := [] |}).
Proof. intros H. unfold locked. rewrite H. cbn [ceremony_steps foldl]. by destruct (m (pw_ceremonies p)). Qed.

Lemma add_owner_authenticator_stores p a now audit d d' :
  add_owner_authenticator p a now audit d = (Ok tt, d') ->
  rows (db_authenticators d') = rows (db_authenticators d) ++ [row_of_authenticator (authenticator_of p a now)]
  /\ db_principals d' = db_principals d.
Proof.
  intros H. unfold add_owner_authenticator in H. txn.
  match goal with H : insert_authenticator _ _ _ _ = _ |- _ => apply insert_authenticator_Ok in H as -> end.
  cbn. by rewrite rows_insert.
Qed.

(** The authenticator a registered passkey is stored as. *)
Definition passkey_record (owner : PrincipalId) (id : AuthenticatorId) (k : StoredPasskey) (data : blob)
    (c : array 32) (now : Z) : OwnerAuthenticatorRecord :=
  authenticator_of owner {| oi_authenticator_id := id; oi_kind := Passkey;
    oi_credential_lookup := Some (passkey_cred_id k); oi_credential_data := Some data;
    oi_password_phc := None; oi_state_commitment := c |} now.

Record passkey_stored (owner : PrincipalId) (id : AuthenticatorId) (k : StoredPasskey) (now : Z)
    (data : blob) (c : array 32) (d d' : Db) : Prop := {
  ps_data : passkey_to_vec k = Some data;
  ps_commitment : authenticator_commitment self id owner Passkey (Some (passkey_cred_id k)) (Some data) None
                    "active" now None None = Ok c;
  ps_rows : rows (db_authenticators d')
            = rows (db_authenticators d) ++ [row_of_authenticator (passkey_record owner id k data c now)];
  ps_principals : db_principals d' = db_principals d }.

Lemma store_passkey_Ok owner k request now w id w' :
  quiet w -> db_ok (w_db w) -> store_passkey self owner k request now w = (Ok id, w') ->
  quiet w' /\ db_ok (w_db w')
  /\ exists data c, passkey_stored (ao_principal_id owner) id k now data c (w_db w) (w_db w').
Proof.
  intros Hq Hok H. unfold store_passkey, auth_random_id, auth_audit, auth_call in H. vinv.
  match goal with H : build_audit _ _ _ _ _ _ = _ |- _ => apply build_audit_Ok in H as [n ->]; [|done] end.
  match goal with H : call_raw _ _ _ = _ |- _ => apply call_raw_quiet_Ok in H as (d' & Hrun & ->); [|done] end.
  cbn [w_db set_w_draws w_draws] in *. match goal with x : () |- _ => destruct x end.
  pose proof (add_owner_authenticator_preserves _ _ _ _ _ _ _ Hrun Hok) as Hok'.
  pose proof (add_owner_authenticator_stores _ _ _ _ _ _ Hrun) as [Ha Hp].
  split; [done|]. split; [done|]. eexists _, _. by split.
Qed.

(** A registration that succeeds answers a ceremony that is pending and was
    started for the same session, and stores the passkey. *)
Lemma finish_registration_Ok owner cid response request now p id p' :
  alone p -> db_ok (w_db (pw_world p)) ->
  finish_registration self webauthn owner cid response request now p = (Ok id, p') ->
  alone p' /\ db_ok (w_db (pw_world p')) /\ pw_ceremonies p' = snd (take_registration cid (pw_ceremonies p))
  /\ exists ceremony k data c,
       cs_registrations (pw_ceremonies p) !! cid = Some ceremony
       /\ rc_created_at_unix_ms ceremony <= now <= rc_expires_at_unix_ms ceremony
       /\ rc_principal_id ceremony = ao_principal_id owner /\ rc_session_id ceremony = ao_session_id owner
       /\ is_recent_at owner now = true
       /\ finish_passkey_registration webauthn response (rc_state ceremony) = Some k
       /\ exists t, passkey_stored (ao_principal_id owner) id k now data c (set_audit t (w_db (pw_world p))) (w_db (pw_world p')).
Proof.
  intros [Hq Hs] Hok H. unfold finish_registration in H. minv.
  repeat match goal with H : in_vault _ _ = (Ok _, _) |- _ => apply in_vault_Ok in H as (? & H & ->) end.
  match goal with H : authorize_enrollment _ _ _ _ _ = _ |- _ =>
    apply enrollment_authorized in H as (Hq1 & Hok1 & Hrecent & t & Hdb); [|done|done] end.
  match goal with H : locked _ _ = _ |- _ => rewrite locked_alone in H by done; injection H as Htake <- end.
  match goal with H : store_passkey _ _ _ _ _ _ = _ |- _ =>
    apply store_passkey_Ok in H as (Hq2 & Hok2 & data & c & Hst); [|done|done] end.
  cbn [pw_world pw_ceremonies pw_schedule take_registration fst snd] in *. apply ok_or_Ok in Htake.
  match goal with H : _ || _ = false |- _ => bprop; destruct H as [[[? ?] ?] ?] end.
  split; [done|]. split; [done|]. split; [done|].
  eexists _, _, data, c. split_and!; [eassumption|lia|lia|done..|]. exists t. by rewrite <- Hdb.
Qed.

(** ** The stored passkeys *)

(** The active passkeys of a database, all of them genuine and readable. *)
Definition passkeys_read (d : Db) (records : list OwnerAuthenticatorRecord) (ks : list StoredPasskey) : Prop :=
  owner_authenticators d Passkey = Ok records /\ result_mapM (stored_passkey self) records = Ok ks.

Lemma passkey_record_stored owner id k data c now :
  passkey_to_vec k = Some data ->
  authenticator_commitment self id owner Passkey (Some (passkey_cred_id k)) (Some data) None "active" now None None = Ok c ->
  stored_passkey self (passkey_record owner id k data c now) = Ok k.
Proof.
  intros Hd Hc. unfold stored_passkey, verify_authenticator_commitment. cbn. rewrite Hc. cbn.
  rewrite bool_decide_true by done. cbn. by rewrite (passkey_json _ _ Hd).
Qed.

Lemma stored_passkey_read owner id k now data c t d d' records ks :
  passkeys_read d records ks -> passkey_stored owner id k now data c (set_audit t d) d' ->
  exists records' ks', passkeys_read d' records' ks'
    /\ records' ≡ₚ passkey_record owner id k data c now :: records /\ ks' ≡ₚ k :: ks.
Proof.
  intros [Hr Hk] [Hdata Hc Hrows _]. unfold owner_authenticators in Hr.
  set (r := passkey_record owner id k data c now) in *.
  set (le := fun a b => (oa_created_at a <? oa_created_at b) || _) in Hr.
  set (act := fun r => bool_decide _ && bool_decide _) in Hr.
  assert (select act (db_authenticators d') = select act (db_authenticators d) ++ [row_of_authenticator r]) as Hsel.
  { unfold select. rewrite Hrows, List.filter_app. f_equal. }
  assert (row_of_authenticator r :: order_by le (select act (db_authenticators d))
          ≡ₚ order_by le (select act (db_authenticators d'))) as Hp.
  { rewrite !order_by_perm, Hsel. apply Permutation_cons_append. }
  assert (result_mapM parse_authenticator (row_of_authenticator r :: order_by le (select act (db_authenticators d)))
          = Ok (r :: records)) as Hm.
  { cbn [result_mapM]. rewrite parse_authenticator_row. cbn [result_bind]. by rewrite Hr. }
  destruct (mapM_perm _ _ _ _ Hp Hm) as (records' & Hr' & Hperm).
  assert (result_mapM (stored_passkey self) (r :: records) = Ok (k :: ks)) as Hm2.
  { cbn [result_mapM]. unfold r. rewrite passkey_record_stored by done. cbn [result_bind]. by rewrite Hk. }
  destruct (mapM_perm _ _ _ _ Hperm Hm2) as (ks' & Hk' & Hperm2).
  exists records', ks'. split; [by split|]. by split.
Qed.

Lemma principal_id_read d id o : principal d id = Ok o -> pc_principal_id o = id.
Proof.
  unfold principal, parse_principal, parse_uuid. intros H. minv.
  match goal with H : select_one _ _ = Some _ |- _ => apply select_one_Some in H as [_ E%blob_eqb_true] end.
  match goal with H : try_array 16 _ = Some _ |- _ => apply try_array_Some in H end.
  cbn. apply array_eq. congruence.
Qed.

(** ** Logging in with one of them *)

Lemma login_finds assertion records new request now :
  Forall (fun r => verify_authenticator_commitment self r = Ok tt) records -> new ∈ records ->
  or_credential_lookup new = Some (result_cred_id assertion) ->
  (forall r, r ∈ records -> or_credential_lookup r = or_credential_lookup new -> r = new) ->
  forall w, login_with_assertion self assertion records request now w
            = (do! updated := prog_lift (updated_passkey new assertion) in
               do! owner := auth_ask (fun d => principal d (or_principal_id new)) in
               do! _ := prog_lift (verify_principal_commitment self owner) in
               do! _ := prog_reject (negb (bool_decide (pc_state owner = "active"))) Rejected in
               create_browser_session self owner new (Some updated) request now) w.
Proof.
  intros HF Hin Hl Hu w. induction HF as [|r records Hr HF IH]; [by apply not_elem_of_nil in Hin|].
  cbn [login_with_assertion]. rewrite (bind_lift_Ok _ _ tt) by done.
  case_bool_decide as E; cbn [negb].
  - rewrite (Hu r); [done|left|congruence].
  - apply IH; [|intros x Hx; apply Hu; by right].
    apply elem_of_cons in Hin as [->|?]; [by rewrite Hl in E|done].
Qed.

Lemma read_passkeys_unique d records ks r r' :
  db_ok d -> passkeys_read d records ks -> r ∈ records -> r' ∈ records ->
  or_credential_lookup r = or_credential_lookup r' -> is_Some (or_credential_lookup r) -> r = r'.
Proof.
  intros Hok [Hr _] H1 H2 E [l Hl]. apply result_mapM_Forall2 in Hr.
  assert (forall x, x ∈ records -> exists y, y ∈ rows (db_authenticators d) /\ parse_authenticator y = Ok x
            /\ oa_credential_lookup y = or_credential_lookup x) as Hrow.
  { intros x [i Hx]%list_elem_of_lookup. destruct (Forall2_lookup_r _ _ _ _ _ Hr Hx) as (y & Hy & Hp).
    exists y. split; [|split; [done|]].
    - apply list_elem_of_lookup_2 in Hy. rewrite order_by_perm in Hy. by apply elem_of_select in Hy as [? _].
    - unfold parse_authenticator in Hp. by minv. }
  destruct (Hrow r H1) as (y & Hy & Hp & Hyl). destruct (Hrow r' H2) as (y' & Hy' & Hp' & Hyl').
  assert (y = y') as <-; [|congruence].
  eapply unique_row; [exact (ok_authenticators _ (ok_tables _ Hok))|done..|].
  apply (clash_at authenticators_schema y y' 1 [VBlob l]); cbn; [by rewrite Hyl, Hl|by rewrite Hyl', <- E, Hl].
Qed.

Lemma stored_passkeys_verified records ks :
  result_mapM (stored_passkey self) records = Ok ks ->
  Forall (fun r => verify_authenticator_commitment self r = Ok tt) records.
Proof.
  intros H%result_mapM_Forall2. induction H as [|r k records ks Hr _ IH]; constructor; [|done].
  unfold stored_passkey in Hr. minv. by match goal with u : () |- _ => destruct u end.
Qed.

Lemma start_authentication_Ok now p ch p2 records ks :
  alone p -> passkeys_read (w_db (pw_world p)) records ks -> start_authentication self webauthn now p = (Ok ch, p2) ->
  alone p2 /\ w_db (pw_world p2) = w_db (pw_world p) /\ ch_expires_at_unix_ms ch = now + CEREMONY_LIFETIME_MS
  /\ exists state, start_passkey_authentication webauthn (w_draws (pw_world p)) ks = Some (ch_options ch, state)
       /\ cs_authentications (pw_ceremonies p2) !! ch_ceremony_id ch
          = Some {| ac_created_at_unix_ms := now; ac_expires_at_unix_ms := now + CEREMONY_LIFETIME_MS; ac_state := state |}.
Proof.
  intros [Hq Hs] [Hr Hk] H. unfold start_authentication in H. minv.
  match goal with x : _ * _ |- _ => destruct x as [options state] end. minv.
  repeat match goal with H : in_vault _ _ = (Ok _, _) |- _ => apply in_vault_Ok in H as (? & H & ->) end.
  match goal with H : auth_ask _ _ = _ |- _ => apply call_read_Ok in H as [H ->]; [|done] end.
  cbn [pw_world pw_ceremonies pw_schedule] in *.
  match goal with H : owner_authenticators _ _ = Ok _ |- _ => rewrite Hr in H; injection H as <- end.
  match goal with H : result_mapM _ _ = Ok _ |- _ => rewrite Hk in H; injection H as <- end.
  unfold with_challenge, auth_random_id in *. minv.
  match goal with H : random_id _ = _ |- _ => apply random_id_Ok in H as [-> ->] end.
  match goal with H : i64_checked_add _ _ = Some _ |- _ => apply i64_checked_add_Some in H as [-> _] end.
  match goal with H : locked _ _ = _ |- _ => rewrite locked_alone in H by done; injection H as Hadd <- end.
  cbn [pw_world pw_ceremonies pw_schedule] in *. unfold add_authentication in *.
  destruct (MAX_PENDING_CEREMONIES <=? _); [done|]. cbn [fst snd cs_authentications] in *.
  split; [done|]. split; [done|]. split; [done|]. eexists. split; [eassumption|]. by rewrite lookup_insert_eq.
Qed.

Lemma updated_passkey_Ok owner id k data c now assertion :
  passkey_to_vec k = Some data -> result_cred_id assertion = passkey_cred_id k ->
  exists k' updated, update_credential k assertion = Some k' /\ passkey_to_vec k' = Some updated
    /\ updated_passkey (passkey_record owner id k data c now) assertion = Ok updated.
Proof.
  intros Hd Hc. destruct (proj2 (update_same_credential k assertion)) as [k' Hk']; [done|].
  destruct (passkey_serializes k') as [updated Hu]. exists k', updated. split; [done|]. split; [done|].
  unfold updated_passkey. cbn. rewrite (passkey_json _ _ Hd). cbn. rewrite Hk'. cbn. by rewrite Hu.
Qed.

Lemma finish_authentication_runs cid answer request now p ceremony assertion records ks new updated o :
  alone p -> db_ok (w_db (pw_world p)) -> cs_authentications (pw_ceremonies p) !! cid = Some ceremony ->
  ac_created_at_unix_ms ceremony <= now <= ac_expires_at_unix_ms ceremony ->
  finish_passkey_authentication webauthn answer (ac_state ceremony) = Some assertion ->
  passkeys_read (w_db (pw_world p)) records ks -> new ∈ records ->
  or_credential_lookup new = Some (result_cred_id assertion) -> updated_passkey new assertion = Ok updated ->
  principal (w_db (pw_world p)) (or_principal_id new) = Ok o -> verify_principal_commitment self o = Ok tt ->
  pc_state o = "active" ->
  finish_authentication self webauthn cid answer request now p
  = in_vault (create_browser_session self o new (Some updated) request now)
      {| pw_world := pw_world p; pw_ceremonies := snd (take_authentication cid (pw_ceremonies p)); pw_schedule := [] |}.
Proof.
  intros [Hq Hs] Hok Hc Hw Hf Hread Hin Hl Hup Ho Hv Ha. unfold finish_authentication.
  unfold prog_bind at 1. rewrite locked_alone by done. cbn [take_authentication fst snd]. rewrite Hc. cbn [ok_or].
  rewrite bind_reject_false by (rewrite orb_false_iff, !Z.ltb_ge; lia).
  rewrite (bind_lift_Ok _ _ assertion) by (by rewrite Hf).
  unfold prog_bind at 1, in_vault at 1, auth_ask, auth_call. cbn [pw_world].
  rewrite call_read_quiet by done. destruct Hread as [Hr Hk] eqn:E. rewrite Hr. cbn [map_err].
  unfold in_vault. cbn [pw_world pw_ceremonies pw_schedule]. rewrite login_finds with (new := new); [|by eapply stored_passkeys_verified|done|done|].
  - rewrite (bind_lift_Ok _ _ updated) by done. rewrite bind_auth_ask by done. rewrite Ho.
    rewrite (bind_lift_Ok _ _ tt) by done. by rewrite bind_reject_false by (by rewrite Ha).
  - intros r Hr' El. by eapply read_passkeys_unique; [| |exact Hr'|exact Hin|..]; [done|split; eassumption| |rewrite El, Hl].
Qed.
End Registered.

(** C8. A registered passkey logs in. When the registration of a passkey
    succeeds, it answered a pending challenge of the same principal and session
    within its five minutes, the owner had recently authenticated, and webauthn
    accepted the answer; the stored passkeys are then those before and the new
    one, all genuine and readable. A login started later offers the new passkey
    among them, and when webauthn accepts an answer for that credential within
    the time of the challenge, the login is exactly the creation of a session
    for that authenticator with its updated credential; where it succeeds, its
    tokens open a session of the owner with the window of every session. *)
Theorem registered_passkey_logs_in {CR : Crypto} {CL : CryptoLaws} {WA : WebAuthn} {WL : WebAuthnLaws}
    (self : InitializedVault) (webauthn : Webauthn) (owner : AuthenticatedOwner) (cid : CeremonyId)
    (response : RegisterPublicKeyCredential) (request : RequestId) (now : Z) (p p' : PasskeyWorld)
    (id : AuthenticatorId) (records : list OwnerAuthenticatorRecord) (ks : list StoredPasskey) (o : PrincipalRecord)
    (Halone : alone p) (Hok : db_ok (w_db (pw_world p)))
    (Hread : passkeys_read self (w_db (pw_world p)) records ks)
    (Ho : principal (w_db (pw_world p)) (ao_principal_id owner) = Ok o)
    (Hv : verify_principal_commitment self o = Ok tt) (Ha : pc_state o = "active")
    (H : finish_registration self webauthn owner cid response request now p = (Ok id, p')) :
  exists ceremony k new records' ks',
    cs_registrations (pw_ceremonies p) !! cid = Some ceremony
    /\ rc_created_at_unix_ms ceremony <= now <= rc_expires_at_unix_ms ceremony
    /\ rc_principal_id ceremony = ao_principal_id owner /\ rc_session_id ceremony = ao_session_id owner
    /\ is_recent_at owner now = true
    /\ finish_passkey_registration webauthn response (rc_state ceremony) = Some k
    /\ passkeys_read self (w_db (pw_world p')) records' ks'
    /\ records' ≡ₚ new :: records /\ ks' ≡ₚ k :: ks /\ or_authenticator_id new = id
    /\ forall now2 ch p2, start_authentication self webauthn now2 p' = (Ok ch, p2) ->
         exists state, start_passkey_authentication webauthn (w_draws (pw_world p')) ks' = Some (ch_options ch, state)
         /\ forall answer assertion request3 now3,
              finish_passkey_authentication webauthn answer state = Some assertion ->
              result_cred_id assertion = passkey_cred_id k ->
              now2 <= now3 <= ch_expires_at_unix_ms ch -> in_i64 now3 ->
              now3 + SESSION_ABSOLUTE_MS + SESSION_IDLE_MS <= i64_max ->
              exists k2 updated, update_credential k assertion = Some k2 /\ passkey_to_vec k2 = Some updated
              /\ finish_authentication self webauthn (ch_ceremony_id ch) answer request3 now3 p2
                 = in_vault (create_browser_session self o new (Some updated) request3 now3)
                     {| pw_world := pw_world p2;
                        pw_ceremonies := snd (take_authentication (ch_ceremony_id ch) (pw_ceremonies p2));
                        pw_schedule := [] |}
              /\ forall secrets p3,
                   finish_authentication self webauthn (ch_ceremony_id ch) answer request3 now3 p2 = (Ok secrets, p3) ->
                   session_opened self (pw_world p3) secrets (ao_principal_id owner) id now3.
Proof.
  destruct (finish_registration_Ok self webauthn _ _ _ _ _ _ _ _ Halone Hok H)
    as (Halone' & Hok' & _ & ceremony & k & data & c & Hcer & Hwin & Hpr & Hse & Hrec & Hfin & t & Hst).
  destruct (stored_passkey_read self _ _ _ _ _ _ _ _ _ _ _ Hread Hst) as (records' & ks' & Hread' & Hperm & Hperm2).
  set (new := passkey_record (ao_principal_id owner) id k data c now) in *.
  exists ceremony, k, new, records', ks'. destruct Hwin. split_and!; [done..|].
  intros now2 ch p2 Hstart.
  destruct (start_authentication_Ok self webauthn _ _ _ _ _ _ Halone' Hread' Hstart) as (Hal2 & Hdb2 & Hexp & state & Hstate & Hpend).
  exists state. split; [done|]. intros answer assertion request3 now3 Hans Hcred Hin3 Hi3 Hclock.
  destruct (updated_passkey_Ok (ao_principal_id owner) id k data c now assertion) as (k2 & updated & Hk2 & Hu & Hup);
    [by destruct Hst|done|].
  assert (principal (w_db (pw_world p')) (ao_principal_id owner) = Ok o) as Ho'.
  { unfold principal in *. by rewrite (ps_principals _ _ _ _ _ _ _ _ _ Hst). }
  assert (Hrun := finish_authentication_runs self webauthn (ch_ceremony_id ch) answer request3 now3 p2 _ assertion
    records' ks' new updated o Hal2 ltac:(by rewrite Hdb2) Hpend ltac:(cbn; lia) Hans ltac:(by rewrite Hdb2)
    ltac:(rewrite Hperm; left) ltac:(cbn; by rewrite Hcred) Hup ltac:(by rewrite Hdb2) Hv Ha).
  exists k2, updated. split_and!; [done..|]. intros secrets p3 Hsec. rewrite Hrun in Hsec.
  apply in_vault_Ok in Hsec as (w3 & Hsec & ->). cbn [pw_world] in *.
  assert (pc_principal_id o = ao_principal_id owner) as Hpid by (by eapply principal_id_read).
  destruct (create_browser_session_opens self o _ _ _ _ _ _ _ (proj1 Hal2) ltac:(by rewrite Hdb2) Hi3
    ltac:(by rewrite Hdb2, Hpid) Hv Ha Hsec) as (sid & l & v & cv & c' & Hopen & Habs & _).
  rewrite <- Hpid. exact (opened_session self _ secrets _ now3 Hopen eq_refl eq_refl eq_refl eq_refl eq_refl eq_refl Habs Hclock).
Qed.

(** * Large passkeys *)

Lemma passkey_text_length {CR : Crypto} {CL : CryptoLaws} (self : InitializedVault) id owner lookup data now :
  1991 <= zlen lookup + zlen data ->
  authenticator_commitment self id owner Passkey (Some lookup) (Some data) None "active" now None None = Err AuIntegrity.
Proof.
  intros Hl. unfold authenticator_commitment, auth_commit, state_commitment.
  rewrite zlen_canonical_text. cbn [foldr fmap option_fmap option_map default from_option Datatypes.id debug_opt authenticator_kind_as_str].
  assert (forall u, zlen (uuid_text u) = 36) as Hu by (intros; unfold zlen; by rewrite uuid_length).
  assert (forall b, zlen (hex_encode b) = 2 * zlen b) as Hh by (intros; unfold zlen; rewrite hex_length; lia).
  pose proof (zlen_nonneg (dec now)).
  rewrite !Hu, !Hh.
  change (zlen (bstr "authenticator")) with 13. change (zlen (bstr "passkey")) with 7.
  change (zlen (bstr "active")) with 6. change (zlen (bstr "None")) with 4. change (zlen (bstr "")) with 0.
  rewrite (proj2 (Z.ltb_lt 4096 _)) by lia. by rewrite orb_true_r.
Qed.

(** A passkey whose credential identifier and JSON together reach 1991
    bytes cannot be registered, although up to 1024 and 65536 bytes are
    admitted by the registration and by the table: on every vault, at every
    time, storing it passes the size checks and then fails as an integrity
    error, with nothing written but a draw, because the text that is committed
    to contains both in hexadecimal and is limited to 4096 bytes. So whatever
    is registered, under any interleaving, is smaller. *)
Theorem large_passkey_cannot_be_registered {CR : Crypto} {CL : CryptoLaws} {WA : WebAuthn} (self : InitializedVault)
    (webauthn : Webauthn) (k : StoredPasskey) (data : blob) (Hdata : passkey_to_vec k = Some data)
    (Hlookup : 1 <= zlen (passkey_cred_id k) <= 1024) (Hsize : zlen data <= 65536)
    (Hlarge : 1991 <= zlen (passkey_cred_id k) + zlen data) :
  (forall owner request now w,
     store_passkey self owner k request now w = (Err AuIntegrity, set_w_draws (S (w_draws w)) w))
  /\ (forall owner cid response request now p id p',
       finish_registration self webauthn owner cid response request now p = (Ok id, p') ->
       exists state registered json, finish_passkey_registration webauthn response state = Some registered
         /\ passkey_to_vec registered = Some json /\ zlen (passkey_cred_id registered) + zlen json < 1991
         /\ registered <> k).
Proof.
  assert (forall owner request now w, store_passkey self owner k request now w
            = (Err AuIntegrity, set_w_draws (S (w_draws w)) w)) as Hstore.
  { intros owner request now w. unfold store_passkey.
    rewrite (bind_lift_Ok _ _ data) by (by rewrite Hdata).
    rewrite bind_reject_false by (rewrite !orb_false_iff, Z.eqb_neq, !Z.ltb_ge; lia).
    unfold prog_bind at 1, auth_random_id, prog_map_err, random_id. cbn [map_err].
    unfold prog_bind, prog_lift. by rewrite passkey_text_length. }
  split; [exact Hstore|]. intros owner cid response request now p id p' H. unfold finish_registration in H. minv.
  match goal with H : finish_passkey_registration _ _ ?s = Some ?r |- _ => exists s, r; rename r into got, H into Hgot end.
  match goal with H : in_vault (store_passkey _ _ _ _ _) _ = _ |- _ => apply in_vault_Ok in H as (w2 & Hrun & ->) end.
  destruct (passkey_to_vec got) as [json|] eqn:Ej.
  - exists json. split_and!; [done..| |].
    + destruct (Z.lt_ge_cases (zlen (passkey_cred_id got) + zlen json) 1991) as [?|Hge]; [done|].
      unfold store_passkey in Hrun. rewrite Ej in Hrun. minv. by rewrite passkey_text_length in * by done.
    + intros ->. by rewrite Hstore in Hrun.
  - unfold store_passkey in Hrun. rewrite Ej in Hrun. by minv.
Qed.
