(* ===== verification/PasskeyWitnesses.v ===== *)
(** The theorems about logins and passkeys applied at a vault whose owner has
    enrolled and signed in, with a toy WebAuthn in which an answer repeats the
    number of its challenge. *)
From Stdlib Require Import ZArith Lia Strings.Byte String.
From stdpp Require Import base tactics numbers option strings list gmap.
From S2P Require Import Prelude RustStd Core Crypto ToyCrypto Sql Schema Records StoreInv RecordsOk PolicyStore VaultStore IdentityStore Store RecordsProps Metadata VaultCore Authentication Authorization ToyVault VaultAudit VaultRuns AppRuns VaultProps AuthzProps Witnesses AppWitnesses LoginProps Passkeys PasskeyProps PasskeyRuns.

#[local] Existing Instance toy_crypto.
#[local] Existing Instance toy_laws.

Lemma toy_password_laws : PasswordLaws.
Proof.
  split.
  - intros d p phc [= <-]. cbn. by apply bool_decide_true.
  - intros d p phc _. reflexivity.
Qed.
#[local] Existing Instance toy_password_laws.

(** ** A toy WebAuthn *)

Record ToyPasskey : Type := { tp_cred : blob; tp_counter : nat }.

Fixpoint toy_read_passkey (n : nat) (l : blob) : option ToyPasskey :=
  match l with
  | [] => None
  | b :: l' => if Byte.eqb b x00 then Some {| tp_cred := l'; tp_counter := n |} else toy_read_passkey (S n) l'
  end.

#[local] Instance toy_webauthn : WebAuthn := {|
  Webauthn := unit;
  PasskeyRegistration := nat;
  PasskeyAuthentication := nat * list blob;
  CreationChallengeResponse := nat;
  RequestChallengeResponse := nat;
  RegisterPublicKeyCredential := nat * blob;
  PublicKeyCredential := nat * blob * nat;
  AuthenticationResult := blob * nat;
  StoredPasskey := ToyPasskey;
  Url := string;
  url_parse := Some;
  webauthn_build := fun _ _ _ _ => Some tt;
  start_passkey_registration := fun _ draw _ _ _ _ => Some (draw, draw);
  finish_passkey_registration := fun _ r draw =>
    if Nat.eqb (fst r) draw then Some {| tp_cred := snd r; tp_counter := 0 |} else None;
  start_passkey_authentication := fun _ draw ks => Some (draw, (draw, tp_cred <$> ks));
  finish_passkey_authentication := fun _ r s =>
    if Nat.eqb (r.1.1) s.1 && bool_decide (r.1.2 ∈ s.2) then Some (r.1.2, r.2) else None;
  passkey_cred_id := tp_cred;
  result_cred_id := fst;
  update_credential := fun k r =>
    if bool_decide (tp_cred k = fst r) then Some {| tp_cred := tp_cred k; tp_counter := snd r |} else None;
  passkey_to_vec := fun k => Some (repeat x01 (tp_counter k) ++ x00 :: tp_cred k);
  passkey_from_slice := toy_read_passkey 0 |}.


Lemma toy_webauthn_laws : @WebAuthnLaws toy_webauthn.
Proof.
  split.
  - intros p l [= <-]. cbn. assert (forall n m c, toy_read_passkey n (repeat x01 m ++ x00 :: c)
      = Some {| tp_cred := c; tp_counter := n + m |}) as H.
    { intros n m c. revert n. induction m as [|m IH]; intros n; cbn; [by rewrite Nat.add_0_r|].
      rewrite IH. by rewrite Nat.add_succ_r. }
    rewrite H. by destruct p.
  - intros p. by eexists.
  - intros p r. cbn. case_bool_decide; split; try done.
  - intros p r p' H. cbn in *. case_bool_decide; [|done]. by injection H as <-.
Qed.
#[local] Existing Instance toy_webauthn_laws.

Definition site : @Webauthn toy_webauthn := tt.

(** ** Logging in *)

Abbreviation enroll_demo := (enroll_local_owner toy_vault password (uid 301) 5000).
Definition owner_id : PrincipalId := got (fst (enroll_demo demo_world)) (uid 0).
Lemma enrolled_eq : enrolled = snd (enroll_demo demo_world).
Proof. unfold enrolled, run_app, leaves. reflexivity. Qed.
Lemma enroll_demo_run : enroll_demo demo_world = (Ok owner_id, enrolled).
Proof. rewrite enrolled_eq. apply run_Ok. vm_compute. reflexivity. Qed.

Abbreviation login_demo := (login_with_password toy_vault password (uid 302) 6000).
Lemma logged_in_eq : logged_in = snd (login_demo enrolled).
Proof. unfold logged_in, run_app, leaves. reflexivity. Qed.
Lemma login_demo_run : login_demo enrolled = (Ok browser, logged_in).
Proof. rewrite logged_in_eq. apply run_Ok. vm_compute. reflexivity. Qed.

#[local] Opaque enrolled logged_in signed_in the_owner browser owner_id.

Lemma no_authenticators : rows (db_authenticators (w_db demo_world)) = [].
Proof. vm_compute. reflexivity. Qed.

Lemma enrolled_password_decides_login_witness :
  exists id, session_opened toy_vault logged_in browser owner_id id 6000.
Proof.
  destruct (enrolled_password_decides_login toy_vault password (uid 301) 5000 demo_world enrolled owner_id
    demo_quiet (wk_db _ _ demo_world_ok) no_authenticators enroll_demo_run)
    as (phc & id & owner & a & _ & _ & _ & _ & H).
  exists id. apply (proj2 (H password (uid 302) 6000 ltac:(by apply demo_time) ltac:(by apply Z.leb_le))).
  exact login_demo_run.
Defined.

(** ** Passkeys *)

Definition service_start : PasskeyWorld := {| pw_world := signed_in; pw_ceremonies := no_ceremonies; pw_schedule := [] |}.

Lemma no_ceremonies_ok : ceremonies_ok no_ceremonies.
Proof. split; [done|exact (map_Forall_empty _)..]. Qed.
Lemma service_start_ok : service_ok toy_vault service_start.
Proof. split; [exact signed_in_ok|exact no_ceremonies_ok|constructor]. Qed.


Abbreviation start_registration_demo := (start_registration toy_vault site the_owner (uid 420) 7100).
Definition registering : PasskeyWorld :=
  run_passkey toy_vault site (StartRegistration the_owner) (uid 420) 7100 service_start.
Definition registration_id : CeremonyId :=
  match fst (start_registration_demo service_start) with Ok ch => ch_ceremony_id ch | Err _ => uid 0 end.
Definition registration_answer : nat * blob :=
  (match fst (start_registration_demo service_start) with Ok ch => ch_options ch | Err _ => 0%nat end, bstr "cred").

Lemma registering_ok : service_ok toy_vault registering.
Proof. unfold registering. apply service_ok_run; [by apply demo_time|exact service_start_ok]. Qed.
#[local] Opaque registering registration_id registration_answer.
Lemma registering_alone : alone registering.
Proof. split; vm_compute; reflexivity. Qed.

Abbreviation finish_registration_demo :=
  (finish_registration toy_vault site the_owner registration_id registration_answer (uid 421) 7200).
Definition passkey_id : AuthenticatorId := got (fst (finish_registration_demo registering)) (uid 0).
#[local] Opaque passkey_id.
Lemma finish_registration_demo_run :
  finish_registration_demo registering = (Ok passkey_id, snd (finish_registration_demo registering)).
Proof. apply run_Ok. vm_compute. reflexivity. Qed.

Lemma no_passkeys : passkeys_read toy_vault (w_db (pw_world registering)) [] [].
Proof. split; vm_compute; reflexivity. Qed.

Definition owner_record : PrincipalRecord :=
  got (principal (w_db (pw_world registering)) (ao_principal_id the_owner))
    {| pc_principal_id := uid 0; pc_kind := Owner; pc_state := "active"; pc_revision := 1; pc_state_commitment := zeros 32 |}.
Lemma owner_record_read : principal (w_db (pw_world registering)) (ao_principal_id the_owner) = Ok owner_record.
Proof. apply got_Ok. vm_compute. reflexivity. Qed.
Lemma owner_record_ok : verify_principal_commitment toy_vault owner_record = Ok tt /\ pc_state owner_record = "active".
Proof. split; vm_compute; reflexivity. Qed.

Lemma registered_passkey_logs_in_witness :
  exists ceremony k records' ks',
    cs_registrations (pw_ceremonies registering) !! registration_id = Some ceremony
    /\ finish_passkey_registration site registration_answer (rc_state ceremony) = Some k
    /\ passkeys_read toy_vault (w_db (pw_world (snd (finish_registration_demo registering)))) records' ks'
    /\ ks' ≡ₚ [k].
Proof.
  destruct (registered_passkey_logs_in toy_vault site the_owner registration_id registration_answer (uid 421) 7200
    registering _ passkey_id [] [] owner_record registering_alone (wk_db _ _ (so_world _ _ registering_ok))
    no_passkeys owner_record_read (proj1 owner_record_ok) (proj2 owner_record_ok) finish_registration_demo_run)
    as (ceremony & k & new & records' & ks' & H1 & _ & _ & _ & _ & H2 & H3 & _ & H4 & _).
  exists ceremony, k, records', ks'. auto.
Defined.

Definition large_passkey : ToyPasskey := {| tp_cred := repeat x01 1000; tp_counter := 0 |}.
Lemma large_passkey_cannot_be_registered_witness :
  fst (store_passkey toy_vault the_owner large_passkey (uid 430) 7400 signed_in) = Err AuIntegrity.
Proof.
  rewrite (proj1 (large_passkey_cannot_be_registered toy_vault site large_passkey (x00 :: repeat x01 1000) eq_refl
    ltac:(by vm_compute) ltac:(by vm_compute) ltac:(by vm_compute)) the_owner (uid 430) 7400 signed_in).
  reflexivity.
Defined.
