(* ===== verification/Migrations.v ===== *)
(** The life of a database file, src/crates/smcv-storage/src/lib.rs: preparing
    the file, recognizing whose database it is, configuring the connection,
    applying the schema migrations, and the online snapshot of a database.

    The model sees of a database what decides these: the identity and version
    in its header, the rows of the migration table and the names of the other
    schema objects.  What a migration's SQL does to the names is SQLite's: the
    parameter [execute_batch].  Every statement and every file operation can
    fail; the state carries the schedule of which do, and keeps what was
    committed before, so that a failure stands for a crash at that point too. *)
From Stdlib Require Import ZArith Lia Strings.Byte String.
From stdpp Require Import base tactics numbers option strings list.
From S2P Require Import Prelude RustStd Core Crypto Sql Schema.

Definition APPLICATION_ID : Z := 0x534d4356.

Record SqliteSettings : Type := {
  journal_mode : string;
  synchronous : Z;
  foreign_keys : bool;
  application_id : Z }.

Record Migration : Type := {
  mg_version : Z;
  mg_checksum : blob;
  mg_sql : string }.

(** What is stored of a database. *)
Record DbHeader : Type := {
  hd_application_id : Z;
  hd_user_version : Z;
  (** The rows of smcv_schema_migrations, where the table exists. *)
  hd_migrations : option (list (Z * blob));
  (** The other objects of sqlite_schema not named like sqlite_%. *)
  hd_objects : list string }.

Definition empty_header : DbHeader :=
  {| hd_application_id := 0; hd_user_version := 0; hd_migrations := None; hd_objects := [] |}.
Definition set_application_id (i : Z) (h : DbHeader) : DbHeader :=
  {| hd_application_id := i; hd_user_version := hd_user_version h; hd_migrations := hd_migrations h;
     hd_objects := hd_objects h |}.

(** What is at a path: nothing, a regular file with its permission bits, or
    something else, such as a symbolic link or a directory. *)
Inductive FileNode : Type :=
| Missing
| Regular (mode : Z) (h : DbHeader)
| Irregular.

(** The connection settings a process has made, the file, and which of the
    statements and file operations to come fail. *)
Record Opening : Type := {
  op_file : FileNode;
  op_settings : SqliteSettings;
  op_faults : list bool }.

Definition set_op_file (f : FileNode) (s : Opening) : Opening :=
  {| op_file := f; op_settings := op_settings s; op_faults := op_faults s |}.
Definition set_op_settings (c : SqliteSettings) (s : Opening) : Opening :=
  {| op_file := op_file s; op_settings := c; op_faults := op_faults s |}.

Abbreviation Open A := (Prog Opening StorageError A).

(** SQLite's defaults on a new connection. *)
Definition default_settings : SqliteSettings :=
  {| journal_mode := "delete"; synchronous := 2; foreign_keys := false; application_id := 0 |}.

(** An operation that the system may refuse, and then does nothing. *)
Definition attempt {A} (m : Open A) : Open A := fun s =>
  match op_faults s with
  | [] => m s
  | failed :: later =>
      let s := {| op_file := op_file s; op_settings := op_settings s; op_faults := later |} in
      if failed : bool then (Err Sqlite, s) else m s
  end.

(** The database behind the connection. *)
Definition header_of (s : Opening) : DbHeader :=
  match op_file s with Regular _ h => h | _ => empty_header end.
Definition query {A} (f : DbHeader -> A) : Open A := attempt (fun s => (Ok (f (header_of s)), s)).
Definition write (f : DbHeader -> DbHeader) : Open unit := attempt (fun s =>
  (Ok tt, set_op_file (match op_file s with Regular m h => Regular m (f h) | n => n end) s)).
(** [pragma_update] of a setting of the connection *)
Definition set_pragma (f : SqliteSettings -> SqliteSettings) : Open unit :=
  attempt (fun s => (Ok tt, set_op_settings (f (op_settings s)) s)).
(** A call that changes nothing the model sees. *)
Definition silent : Open unit := attempt (fun s => (Ok tt, s)).

(** * Files *)

(** The permission bits 0o600 and 0o077. *)
Definition RESTRICTIVE_MODE : Z := 384.
Definition OTHERS_MODE : Z := 63.

(** [sync_new_file_and_parent] *)
Definition sync_new_file_and_parent : Open unit :=
  do! _ := silent in silent.

(** [create_restrictive_file(path, false)] *)
Definition create_restrictive_file : Open unit :=
  do! _ := attempt (fun s => match op_file s with
                             | Missing => (Ok tt, set_op_file (Regular RESTRICTIVE_MODE empty_header) s)
                             | _ => (Err Sqlite, s)
                             end) in
  sync_new_file_and_parent.

(** [prepare_database_file] *)
Definition prepare_database_file : Open unit :=
  do! node := attempt (fun s => (Ok (op_file s), s)) in
  match node with
  | Regular mode _ => prog_reject (negb (Z.land mode OTHERS_MODE =? 0)) UnsafePath
  | Irregular => prog_fail UnsafePath
  | Missing => create_restrictive_file
  end.

(** * Identity and migrations *)

(** [MIGRATIONS], with the texts of their SQL: what they create is the schema
    of Schema.v. *)
Definition MIGRATIONS (sql : Z -> string) : list Migration :=
  [ {| mg_version := 1; mg_sql := sql 1;
       mg_checksum := bstr "sha256:e279f6be347da07e482e11884680b3e7f249acb9e9c1a4a5b8244c11e2c8ff44" |};
    {| mg_version := 2; mg_sql := sql 2;
       mg_checksum := bstr "sha256:5f5638c43abb9744e53871ea50587c580186bcc7e3e96076eb4c537b2e5986da" |};
    {| mg_version := 3; mg_sql := sql 3;
       mg_checksum := bstr "sha256:5e944e456736d5c0c6b478b92b5915b12b327db8a5e8f67fc66d8dd973a927a1" |} ].

Section Database.
Context {CR : Crypto} (execute_batch : string -> list string -> option (list string))
  (migrations : list Migration).

Definition by_version (a b : Z * blob) : bool := a.1 <=? b.1.
Definition applied_rows (h : DbHeader) : list (Z * blob) := order_by by_version (default [] (hd_migrations h)).

Definition INSTALLATION_TABLE : string := "smcv_installation_state".

(** [is_recognized_legacy_database] *)
Definition is_recognized_legacy_database : Open bool :=
  do! migration_table := query (fun h => match hd_migrations h with Some _ => 1 | None => 0 end) in
  do! unexpected_objects := query (fun h =>
    zlen (List.filter (fun n => negb (String.eqb n INSTALLATION_TABLE)) (hd_objects h))) in
  if negb (migration_table =? 1) || negb (unexpected_objects =? 0) then prog_ret false
  else
    do! applied := query applied_rows in
    prog_ret (match applied, migrations with
              | [(version, checksum)], m :: _ =>
                  (version =? mg_version m) && blob_eqb checksum (mg_checksum m)
              | _, _ => false
              end).

(** [validate_database_identity] *)
Definition validate_database_identity : Open unit :=
  do! application_id := query hd_application_id in
  if application_id =? APPLICATION_ID then prog_ret tt
  else if negb (application_id =? 0) then prog_fail MigrationMismatch
  else
    do! existing_objects := query (fun h =>
      zlen (hd_objects h) + match hd_migrations h with Some _ => 1 | None => 0 end) in
    do! recognized := (if existing_objects =? 0 then prog_ret true else is_recognized_legacy_database) in
    do! _ := prog_reject (negb recognized) MigrationMismatch in
    write (set_application_id APPLICATION_ID).

(** [migration_checksum] *)
Definition migration_checksum (sql : string) : blob := bstr "sha256:" ++ hex_encode (arr (sha256 (bstr sql))).

(** [applied.iter().zip(MIGRATIONS)] with its comparison *)
Fixpoint history_matches (applied : list (Z * blob)) (expected : list Migration) : bool :=
  match applied, expected with
  | (version, checksum) :: applied, m :: expected =>
      (version =? mg_version m) && blob_eqb checksum (mg_checksum m) && history_matches applied expected
  | _, _ => true
  end.

(** The database with one more migration. *)
Definition migrated_by (m : Migration) (objects : list string) (h : DbHeader) : DbHeader :=
  {| hd_application_id := hd_application_id h; hd_user_version := mg_version m;
     hd_migrations := Some (default [] (hd_migrations h) ++ [(mg_version m, mg_checksum m)]);
     hd_objects := objects |}.

(** The transaction of one migration: all of it, at the commit, or nothing. *)
Definition migration_transaction (m : Migration) : Open unit :=
  do! _ := silent in
  do! objects := query (fun h => execute_batch (mg_sql m) (hd_objects h)) in
  do! objects := prog_lift (ok_or Sqlite objects) in
  do! _ := silent in
  do! _ := silent in
  write (migrated_by m objects).

(** One turn of [for migration in MIGRATIONS] *)
Definition apply_migration (m : Migration) : Open unit :=
  do! _ := prog_reject (negb (blob_eqb (migration_checksum (mg_sql m)) (mg_checksum m))) MigrationMismatch in
  do! found := query (fun h => snd <$> head (List.filter (fun r => fst r =? mg_version m)
                                               (default [] (hd_migrations h)))) in
  match found with
  | Some checksum => prog_reject (negb (blob_eqb checksum (mg_checksum m))) MigrationMismatch
  | None => migration_transaction m
  end.

Fixpoint apply_each (l : list Migration) : Open unit :=
  match l with
  | [] => prog_ret tt
  | m :: l => do! _ := apply_migration m in apply_each l
  end.

(** [apply_migrations] *)
Definition apply_migrations : Open unit :=
  do! applied := query applied_rows in
  do! _ := prog_reject (zlen migrations <? zlen applied) MigrationMismatch in
  do! _ := prog_reject (negb (history_matches applied migrations)) MigrationMismatch in
  do! user_version := query hd_user_version in
  do! _ := prog_reject (negb (user_version =? match last applied with Some r => fst r | None => 0 end))
             MigrationMismatch in
  apply_each migrations.

(** [configure] *)
Definition configure : Open unit :=
  do! _ := silent in
  do! _ := validate_database_identity in
  do! _ := set_pragma (fun c => {| journal_mode := journal_mode c; synchronous := synchronous c;
                                   foreign_keys := true; application_id := application_id c |}) in
  do! _ := set_pragma (fun c => {| journal_mode := "wal"; synchronous := synchronous c;
                                   foreign_keys := foreign_keys c; application_id := application_id c |}) in
  do! _ := set_pragma (fun c => {| journal_mode := journal_mode c; synchronous := 2;
                                   foreign_keys := foreign_keys c; application_id := application_id c |}) in
  do! _ := silent in
  do! _ := silent in
  do! _ := silent in
  do! _ := write (fun h => {| hd_application_id := hd_application_id h; hd_user_version := hd_user_version h;
                              hd_migrations := Some (default [] (hd_migrations h)); hd_objects := hd_objects h |}) in
  apply_migrations.

(** [SqliteStore::open] *)
Definition open_store : Open unit :=
  do! _ := prepare_database_file in
  do! _ := attempt (fun s => (Ok tt, set_op_settings default_settings s)) in
  configure.

(** [read_settings], behind [SqliteStore::settings] *)
Definition read_settings : Open SqliteSettings :=
  do! journal := attempt (fun s => (Ok (journal_mode (op_settings s)), s)) in
  do! sync := attempt (fun s => (Ok (synchronous (op_settings s)), s)) in
  do! keys := attempt (fun s => (Ok (foreign_keys (op_settings s)), s)) in
  do! id := query hd_application_id in
  prog_ret {| journal_mode := journal; synchronous := sync; foreign_keys := keys; application_id := id |}.
End Database.

(** * Snapshots *)

Section Snapshot.
Context {A : Type}.

(** The destination of a snapshot and its temporary file, what another process
    puts at the destination before it is published, which operations fail, and
    whether files can be removed. *)
Record Snapshotting : Type := {
  sn_source : A;
  sn_destination : option A;
  sn_temporary : option (option A);
  sn_rival : option A;
  sn_faults : list bool;
  sn_removable : bool }.

Definition set_sn_files (destination : option A) (temporary : option (option A)) (s : Snapshotting) : Snapshotting :=
  {| sn_source := sn_source s; sn_destination := destination; sn_temporary := temporary; sn_rival := sn_rival s;
     sn_faults := sn_faults s; sn_removable := sn_removable s |}.

Abbreviation Snap B := (Prog Snapshotting StorageError B).

Definition sn_attempt {B} (m : Snap B) : Snap B := fun s =>
  match sn_faults s with
  | [] => m s
  | failed :: later =>
      let s := {| sn_source := sn_source s; sn_destination := sn_destination s; sn_temporary := sn_temporary s;
                  sn_rival := sn_rival s; sn_faults := later; sn_removable := sn_removable s |} in
      if failed : bool then (Err Sqlite, s) else m s
  end.
Definition sn_silent : Snap unit := sn_attempt (fun s => (Ok tt, s)).

(** [PartialSnapshotCleanup::drop] *)
Definition drop_partial (s : Snapshotting) : Snapshotting :=
  if sn_removable s then set_sn_files (sn_destination s) None s else s.
(** [PublishedSnapshotCleanup::drop] while armed *)
Definition drop_published (s : Snapshotting) : Snapshotting :=
  if sn_removable s then set_sn_files None (sn_temporary s) s else s.

(** The copy: [create_restrictive_file(&temporary, true)], the online backup
    and the synchronization of the file. *)
Definition copy_to_temporary : Snap unit :=
  do! _ := sn_attempt (fun s => (Ok tt, set_sn_files (sn_destination s) (Some None) s)) in
  do! _ := sn_silent in
  do! _ := sn_silent in
  do! _ := sn_silent in
  do! _ := sn_silent in
  do! _ := sn_attempt (fun s => (Ok tt, set_sn_files (sn_destination s) (Some (Some (sn_source s))) s)) in
  do! _ := sn_silent in
  sn_silent.

(** [fs::hard_link]: whatever is at the destination by now is kept. *)
Definition link_destination : Snap unit :=
  sn_attempt (fun s =>
    match sn_destination s, sn_rival s with
    | Some _, _ => (Err DestinationExists, s)
    | None, Some other => (Err DestinationExists, set_sn_files (Some other) (sn_temporary s) s)
    | None, None => (Ok tt, set_sn_files (mjoin (sn_temporary s)) (sn_temporary s) s)
    end).

(** From the link on, an error removes the destination again. *)
Definition settle_destination : Snap unit := fun s =>
  match (do! _ := sn_attempt (fun s => (if sn_removable s then Ok tt else Err Sqlite, drop_partial s)) in sn_silent) s with
  | (Ok u, s) => (Ok u, s)
  | (Err e, s) => (Err e, drop_published s)
  end.

(** [SqliteStore::backup_to] *)
Definition backup_to : Snap unit :=
  do! _ := (fun s => (match sn_destination s with Some _ => Err DestinationExists | None => Ok tt end, s)) in
  fun s =>
    let (r, s) := (do! _ := copy_to_temporary in do! _ := link_destination in settle_destination) s in
    (r, drop_partial s).
End Snapshot.
Arguments Snapshotting : clear implicits.
