(* ===== verification/MigrationsProps.v ===== *)
(** Opening a database: that it is migrated all the way or left where a later
    opening goes on from, and that no other database is touched. *)
From Stdlib Require Import ZArith Lia Strings.Byte String.
From stdpp Require Import base tactics numbers option strings list sorting.
From S2P Require Import Prelude RustStd Core Crypto Sql Schema StoreInv Migrations.

(** * Programs that may be refused at any step *)

(** From [P], [m] ends in [Q], or is refused by the system, which it never is
    without faults, and then leaves [R]. *)
Definition guarded (P : FileNode -> SqliteSettings -> Prop) {A} (m : Open A)
    (Q : A -> FileNode -> SqliteSettings -> Prop) (R : FileNode -> Prop) : Prop :=
  forall s, P (op_file s) (op_settings s) ->
  match m s with
  | (Ok a, s') => Q a (op_file s') (op_settings s') /\ (op_faults s = [] -> op_faults s' = [])
  | (Err e, s') => e = Sqlite /\ op_faults s <> [] /\ R (op_file s')
  end.

Lemma guarded_bind {A B} P (m : Open A) (k : A -> Open B) Q Q' R :
  guarded P m Q R -> (forall a, guarded (Q a) (k a) Q' R) -> guarded P (prog_bind m k) Q' R.
Proof.
  intros Hm Hk s Hs. specialize (Hm s Hs). unfold prog_bind. destruct (m s) as [[a|e] s1]; [|done].
  destruct Hm as [Hq Hf]. specialize (Hk a s1 Hq). destruct (k a s1) as [[b|e] s2].
  - destruct Hk as [? Hf2]. auto.
  - destruct Hk as (? & Hne & ?). split; [done|]. split; [|done]. intros E. by apply Hne, Hf.
Qed.

Lemma guarded_attempt {A} P (m : Open A) Q R :
  (forall f c fs, P f c -> exists a f' c', m {| op_file := f; op_settings := c; op_faults := fs |}
     = (Ok a, {| op_file := f'; op_settings := c'; op_faults := fs |}) /\ Q a f' c') ->
  (forall f c, P f c -> R f) -> guarded P (attempt m) Q R.
Proof.
  intros Hm HR [f c fs] Hs. unfold attempt. cbn [op_file op_settings op_faults] in *.
  destruct fs as [|[] fs].
  - destruct (Hm f c [] Hs) as (a & f' & c' & -> & Hq). cbn. auto.
  - cbn. split; [done|]. split; [done|]. by eapply HR.
  - destruct (Hm f c fs Hs) as (a & f' & c' & -> & Hq). cbn. by split.
Qed.

Lemma guarded_ret {A} (a : A) (P : FileNode -> SqliteSettings -> Prop) (Q : A -> FileNode -> SqliteSettings -> Prop) R :
  (forall f c, P f c -> Q a f c) -> guarded P (prog_ret a) Q R.
Proof. intros H s Hs. cbn. auto. Qed.

Lemma guarded_reject b e P R : b = false -> guarded P (prog_reject b e) (fun _ => P) R.
Proof. intros -> s Hs. by cbn. Qed.

Lemma guarded_weaken {A} (P P' : FileNode -> SqliteSettings -> Prop) (m : Open A)
    (Q Q' : A -> FileNode -> SqliteSettings -> Prop) R :
  guarded P m Q R -> (forall f c, P' f c -> P f c) -> (forall a f c, Q a f c -> Q' a f c) -> guarded P' m Q' R.
Proof.
  intros H HP HQ s Hs. specialize (H s (HP _ _ Hs)). destruct (m s) as [[a|e] s']; [|done].
  destruct H. auto.
Qed.

(** Reading the database, and writing to it. *)
Lemma guarded_query {A} (f : DbHeader -> A) mode h (I : SqliteSettings -> Prop) (R : FileNode -> Prop) :
  R (Regular mode h) ->
  guarded (fun n c => n = Regular mode h /\ I c) (query f)
    (fun a n c => a = f h /\ n = Regular mode h /\ I c) R.
Proof.
  intros HR. apply guarded_attempt.
  - intros n c fs [-> Hc]. exists (f h), (Regular mode h), c. by cbn.
  - by intros n c [-> _].
Qed.

Lemma guarded_write (f : DbHeader -> DbHeader) mode h (I : SqliteSettings -> Prop) (R : FileNode -> Prop) :
  R (Regular mode h) ->
  guarded (fun n c => n = Regular mode h /\ I c) (write f) (fun _ n c => n = Regular mode (f h) /\ I c) R.
Proof.
  intros HR. apply guarded_attempt.
  - intros n c fs [-> Hc]. exists tt, (Regular mode (f h)), c. by cbn.
  - by intros n c [-> _].
Qed.

Lemma guarded_silent mode h (I : SqliteSettings -> Prop) (R : FileNode -> Prop) :
  R (Regular mode h) ->
  guarded (fun n c => n = Regular mode h /\ I c) silent (fun _ n c => n = Regular mode h /\ I c) R.
Proof.
  intros HR. apply guarded_attempt.
  - intros n c fs [-> Hc]. by exists tt, (Regular mode h), c.
  - by intros n c [-> _].
Qed.

Lemma guarded_pragma f mode h (I J : SqliteSettings -> Prop) (R : FileNode -> Prop) :
  R (Regular mode h) -> (forall c, I c -> J (f c)) ->
  guarded (fun n c => n = Regular mode h /\ I c) (set_pragma f) (fun _ n c => n = Regular mode h /\ J c) R.
Proof.
  intros HR HJ. apply guarded_attempt.
  - intros n c fs [-> Hc]. exists tt, (Regular mode h), (f c). cbn. auto.
  - by intros n c [-> _].
Qed.

Lemma guarded_fact {A} (X : Prop) (P : FileNode -> SqliteSettings -> Prop) (m : Open A) Q R :
  (X -> guarded P m Q R) -> guarded (fun n c => X /\ P n c) m Q R.
Proof. intros H s [Hx Hs]. by apply (H Hx). Qed.

Lemma query_then {A B} (f : DbHeader -> A) (k : A -> Open B) mode h (I : SqliteSettings -> Prop) Q (R : FileNode -> Prop) :
  R (Regular mode h) -> guarded (fun n c => n = Regular mode h /\ I c) (k (f h)) Q R ->
  guarded (fun n c => n = Regular mode h /\ I c) (prog_bind (query f) k) Q R.
Proof.
  intros HR Hk. eapply guarded_bind; [by apply guarded_query|]. intros a. apply guarded_fact. by intros ->.
Qed.
Lemma silent_then {B} (k : unit -> Open B) mode h (I : SqliteSettings -> Prop) Q (R : FileNode -> Prop) :
  R (Regular mode h) -> guarded (fun n c => n = Regular mode h /\ I c) (k tt) Q R ->
  guarded (fun n c => n = Regular mode h /\ I c) (prog_bind silent k) Q R.
Proof. intros HR Hk. eapply guarded_bind; [by apply guarded_silent|]. by intros []. Qed.
Lemma write_then {B} (f : DbHeader -> DbHeader) (k : unit -> Open B) mode h (I : SqliteSettings -> Prop) Q (R : FileNode -> Prop) :
  R (Regular mode h) -> guarded (fun n c => n = Regular mode (f h) /\ I c) (k tt) Q R ->
  guarded (fun n c => n = Regular mode h /\ I c) (prog_bind (write f) k) Q R.
Proof. intros HR Hk. eapply guarded_bind; [by apply guarded_write|]. by intros []. Qed.
Lemma lift_then {A B} (r : result StorageError A) (x : A) (k : A -> Open B) P Q R :
  r = Ok x -> guarded P (k x) Q R -> guarded P (prog_bind (prog_lift r) k) Q R.
Proof. intros -> Hk s Hs. exact (Hk s Hs). Qed.
Lemma reject_then {B} (b : bool) e (k : unit -> Open B) P Q R :
  b = false -> guarded P (k tt) Q R -> guarded P (prog_bind (prog_reject b e) k) Q R.
Proof. intros -> Hk s Hs. exact (Hk s Hs). Qed.

(** * The states of a database of this program *)

Section Migrating.
Context {CR : Crypto} (execute_batch : string -> list string -> option (list string)) (migrations : list Migration).

Fixpoint run_batches (l : list Migration) (objects : list string) : option (list string) :=
  match l with
  | [] => Some objects
  | m :: l => objects ← execute_batch (mg_sql m) objects; run_batches l objects
  end.

Definition row_of (m : Migration) : Z * blob := (mg_version m, mg_checksum m).
Definition history (k : nat) : list (Z * blob) := row_of <$> take k migrations.
Definition version_of (rows : list (Z * blob)) : Z := match last rows with Some r => fst r | None => 0 end.

(** What is relied on of the migrations: their versions ascend, their checksums
    are those of their texts, they run one after the other on an empty
    database, and the first creates the installation table alone. *)
Record migrations_ok : Prop := {
  mo_sorted : StronglySorted Z.lt (mg_version <$> migrations);
  mo_checksums : Forall (fun m => migration_checksum (mg_sql m) = mg_checksum m) migrations;
  mo_runs : is_Some (run_batches migrations []);
  mo_first : run_batches (take 1 migrations) [] = Some [INSTALLATION_TABLE] }.

(** The first [k] migrations have been applied. *)
Record at_version (k : nat) (h : DbHeader) : Prop := {
  av_known : (k <= length migrations)%nat;
  av_rows : hd_migrations h = Some (history k);
  av_version : hd_user_version h = version_of (history k);
  av_objects : run_batches (take k migrations) [] = Some (hd_objects h) }.

(** A file this program made, or may have left at some point of an opening, and
    how many migrations it has. *)
Inductive resumable : FileNode -> nat -> Prop :=
| resumable_missing : resumable Missing 0
| resumable_new mode h :
    Z.land mode OTHERS_MODE = 0 -> hd_application_id h = 0 \/ hd_application_id h = APPLICATION_ID ->
    hd_user_version h = 0 -> hd_migrations h = None -> hd_objects h = [] -> resumable (Regular mode h) 0
| resumable_at mode h k :
    Z.land mode OTHERS_MODE = 0 -> hd_application_id h = APPLICATION_ID -> at_version k h ->
    resumable (Regular mode h) k
| resumable_legacy mode h :
    Z.land mode OTHERS_MODE = 0 -> hd_application_id h = 0 -> at_version 1 h -> resumable (Regular mode h) 1.

(** At least [k] migrations, and an opening can go on. *)
Definition goes_on (k : nat) (n : FileNode) : Prop := exists j, (k <= j)%nat /\ resumable n j.

Hypothesis Hm : migrations_ok.

Lemma run_batches_app l1 l2 o :
  run_batches (l1 ++ l2) o = run_batches l1 o ≫= run_batches l2.
Proof. revert o. induction l1 as [|m l1 IH]; intros o; [done|]. cbn. destruct (execute_batch _ _); cbn; auto. Qed.

Lemma history_sorted k : StronglySorted (fun a b : Z * blob => a.1 < b.1) (history k).
Proof.
  destruct Hm as [Hs _ _ _]. unfold history. revert k. induction migrations as [|m l IH]; intros [|k]; cbn in *; try constructor.
  - apply IH. by inversion Hs.
  - inversion Hs as [|? ? Hl Hx]; subst. apply Forall_forall. intros r (m' & -> & Hm')%list_elem_of_fmap.
    rewrite Forall_forall in Hx. apply Hx. apply list_elem_of_fmap. exists m'. split; [done|].
    apply elem_of_take in Hm' as (i & Hi & _). by eapply list_elem_of_lookup_2.
Qed.

Lemma applied_at k h : at_version k h -> applied_rows h = history k.
Proof.
  intros Hk. unfold applied_rows. rewrite (av_rows _ _ Hk). cbn. apply order_by_id.
  eapply StronglySorted_impl; [|apply history_sorted]. cbn. intros a b Hab. apply Z.leb_le. lia.
Qed.

Lemma history_matches_prefix k : history_matches (history k) migrations = true.
Proof.
  unfold history. revert k. induction migrations as [|m l IH]; intros [|k]; cbn; try done.
  rewrite Z.eqb_refl. unfold blob_eqb. rewrite bool_decide_true by done. apply IH.
Qed.

Lemma row_found k i m rest :
  drop i migrations = m :: rest -> (i < k)%nat ->
  head (List.filter (fun r => fst r =? mg_version m) (history k)) = Some (row_of m).
Proof.
  intros Hd Hi. pose proof (history_sorted k) as Hs.
  assert (row_of m ∈ history k) as Hin.
  { apply list_elem_of_fmap. exists m. split; [done|]. apply elem_of_take. exists i. split; [|done].
    rewrite <- (Nat.add_0_r i), <- lookup_drop, Hd. done. }
  revert Hs Hin. generalize (history k). induction 1 as [|r l Hl IH Hr]; [by intros ?%not_elem_of_nil|].
  intros [<-|Hin]%elem_of_cons; [cbn; by rewrite Z.eqb_refl|]. cbn.
  rewrite Forall_forall in Hr. specialize (Hr _ Hin). cbn in Hr.
  rewrite (proj2 (Z.eqb_neq _ _)) by lia. auto.
Qed.

Lemma row_not_found k m rest :
  drop k migrations = m :: rest -> List.filter (fun r => fst r =? mg_version m) (history k) = [].
Proof.
  intros Hd. destruct Hm as [Hs _ _ _].
  assert (forall r, r ∈ history k -> fst r < mg_version m) as Hlt.
  { intros r (m' & -> & Hm')%list_elem_of_fmap. cbn.
    rewrite <- (take_drop k migrations), Hd, fmap_app in Hs. cbn in Hs.
    eapply StronglySorted_app_1_elem_of with (1 := Hs); [by apply list_elem_of_fmap_2|left]. }
  induction (history k) as [|r l IH]; [done|]. cbn. rewrite (proj2 (Z.eqb_neq _ _)).
  - apply IH. intros x Hx. apply Hlt. by right.
  - specialize (Hlt r ltac:(left)). lia.
Qed.

Lemma history_S k m rest : drop k migrations = m :: rest -> history (S k) = history k ++ [row_of m].
Proof.
  intros Hd. unfold history. rewrite (take_S_r migrations k m), fmap_app; [done|].
  rewrite <- (Nat.add_0_r k), <- lookup_drop, Hd. done.
Qed.

Lemma migrated_at k h m rest objects :
  at_version k h -> drop k migrations = m :: rest ->
  execute_batch (mg_sql m) (hd_objects h) = Some objects -> at_version (S k) (migrated_by m objects h).
Proof.
  intros [H1 H2 H3 H4] Hd He.
  assert (migrations !! k = Some m) as Hl by (rewrite <- (Nat.add_0_r k), <- lookup_drop, Hd; done).
  split.
  - apply lookup_lt_Some in Hl. lia.
  - cbn. rewrite H2. cbn. by rewrite (history_S k m rest).
  - cbn. rewrite (history_S k m rest) by done. unfold version_of. by rewrite last_snoc.
  - rewrite (take_S_r migrations k m) by done. rewrite run_batches_app, H4. cbn. by rewrite He.
Qed.

Lemma next_batch_runs k h m rest :
  at_version k h -> drop k migrations = m :: rest -> is_Some (execute_batch (mg_sql m) (hd_objects h)).
Proof.
  intros [_ _ _ H4] Hd. destruct Hm as [_ _ [o Ho] _].
  rewrite <- (take_drop k migrations), run_batches_app, H4, Hd in Ho. cbn in Ho.
  destruct (execute_batch _ _); [by eexists|done].
Qed.

(** ** Migrating *)

(** At least [i] migrations, with the settings of the connection. *)
Definition migrated (mode : Z) (I : SqliteSettings -> Prop) (k0 i : nat) (n : FileNode) (c : SqliteSettings) : Prop :=
  exists h j, n = Regular mode h /\ I c /\ hd_application_id h = APPLICATION_ID /\ at_version j h
    /\ (k0 <= j)%nat /\ (i <= j)%nat.

Lemma at_goes_on mode h j k0 :
  Z.land mode OTHERS_MODE = 0 -> hd_application_id h = APPLICATION_ID -> at_version j h -> (k0 <= j)%nat ->
  goes_on k0 (Regular mode h).
Proof. intros. exists j. split; [done|]. by apply resumable_at. Qed.

Lemma apply_migration_guarded mode I k0 i m rest :
  Z.land mode OTHERS_MODE = 0 -> drop i migrations = m :: rest ->
  guarded (migrated mode I k0 i) (apply_migration execute_batch m) (fun _ => migrated mode I k0 (S i)) (goes_on k0).
Proof.
  intros Hmode Hd s (h & j & Hf & Hc & Ha & Hj & Hk & Hi).
  assert (guarded (fun n c => n = Regular mode h /\ I c) (apply_migration execute_batch m)
    (fun _ => migrated mode I k0 (S i)) (goes_on k0)) as H; [|by apply H].
  pose proof (at_goes_on mode h j k0 Hmode Ha Hj Hk) as Hr.
  unfold apply_migration. apply reject_then.
  { apply negb_false_iff. unfold blob_eqb. apply bool_decide_true.
    pose proof (mo_checksums Hm) as HF. rewrite Forall_forall in HF. apply HF.
    apply list_elem_of_lookup_2 with i. rewrite <- (Nat.add_0_r i), <- lookup_drop, Hd. done. }
  apply query_then; [done|]. rewrite (av_rows _ _ Hj). cbn [default from_option Datatypes.id].
  destruct (decide (i < j)%nat) as [Hlt|Hge].
  - rewrite (row_found j i m rest Hd Hlt). cbn.
    eapply guarded_weaken; [apply (guarded_reject _ _ (fun n c => n = Regular mode h /\ I c))|done|].
    + apply negb_false_iff. unfold blob_eqb. by apply bool_decide_true.
    + intros _ f c [-> HI]. exists h, j. split_and!; try done; lia.
  - assert (i = j) as -> by lia. rewrite (row_not_found j m rest Hd). cbn.
    destruct (next_batch_runs j h m rest Hj Hd) as [objects Ho].
    unfold migration_transaction. apply silent_then; [done|]. apply query_then; [done|]. rewrite Ho.
    apply (lift_then _ objects); [done|]. apply silent_then; [done|]. apply silent_then; [done|].
    eapply guarded_weaken; [by apply (guarded_write _ mode h I)|done|].
    intros _ f c [-> HI]. exists (migrated_by m objects h), (S j). split_and!; try done; try lia.
    by eapply migrated_at.
Qed.

Lemma apply_each_guarded mode I k0 l i :
  Z.land mode OTHERS_MODE = 0 -> drop i migrations = l ->
  guarded (migrated mode I k0 i) (apply_each execute_batch l) (fun _ => migrated mode I k0 (length migrations)) (goes_on k0).
Proof.
  intros Hmode. revert i. induction l as [|m l IH]; intros i Hd; cbn [apply_each].
  - apply guarded_ret. intros f c (h & j & -> & Hc & Ha & Hj & Hk & Hi). exists h, j. split_and!; try done.
    apply (f_equal length) in Hd. rewrite length_drop in Hd. cbn in Hd. lia.
  - eapply guarded_bind; [by eapply apply_migration_guarded|]. intros a. apply IH.
    rewrite <- Nat.add_1_r, <- drop_drop, Hd. done.
Qed.

Lemma apply_migrations_guarded mode (I : SqliteSettings -> Prop) k0 h j :
  Z.land mode OTHERS_MODE = 0 -> hd_application_id h = APPLICATION_ID -> at_version j h -> (k0 <= j)%nat ->
  guarded (fun n c => n = Regular mode h /\ I c) (apply_migrations execute_batch migrations)
    (fun _ => migrated mode I k0 (length migrations)) (goes_on k0).
Proof.
  intros Hmode Ha Hj Hk. pose proof (at_goes_on mode h j k0 Hmode Ha Hj Hk) as Hr.
  unfold apply_migrations. apply query_then; [done|]. rewrite (applied_at j h Hj).
  apply reject_then.
  { apply Z.ltb_ge. unfold zlen, history. rewrite length_fmap, length_take. lia. }
  apply reject_then; [by rewrite history_matches_prefix|].
  apply query_then; [done|]. apply reject_then; [by rewrite (av_version _ _ Hj), Z.eqb_refl|].
  eapply guarded_weaken; [apply (apply_each_guarded mode I k0 migrations 0); [done|by rewrite drop_0]| |done].
  intros f c [-> HI]. exists h, j. split_and!; try done. lia.
Qed.

(** ** Recognizing the database *)

Lemma set_same_application_id h : hd_application_id h = APPLICATION_ID -> set_application_id APPLICATION_ID h = h.
Proof. destruct h. cbn. by intros ->. Qed.

Lemma legacy_recognized mode h (I : SqliteSettings -> Prop) k0 :
  at_version 1 h -> goes_on k0 (Regular mode h) ->
  guarded (fun n c => n = Regular mode h /\ I c) (is_recognized_legacy_database migrations)
    (fun a n c => a = true /\ n = Regular mode h /\ I c) (goes_on k0).
Proof.
  intros Hv Hr. pose proof (mo_first Hm) as Hfirst. pose proof Hv as [H1 H2 H3 H4].
  rewrite H4 in Hfirst. injection Hfirst as Hobj. unfold is_recognized_legacy_database.
  apply query_then; [done|]. apply query_then; [done|]. rewrite H2, Hobj. cbn.
  apply query_then; [done|]. rewrite (applied_at 1 h Hv). unfold history.
  destruct migrations as [|m l] eqn:E; [cbn in H1; lia|]. cbn. apply guarded_ret. intros f c [-> HI].
  split; [|done]. rewrite Z.eqb_refl. unfold blob_eqb. by rewrite bool_decide_true.
Qed.

Lemma identity_guarded mode h (I : SqliteSettings -> Prop) k :
  resumable (Regular mode h) k ->
  guarded (fun n c => n = Regular mode h /\ I c) (validate_database_identity migrations)
    (fun _ n c => n = Regular mode (set_application_id APPLICATION_ID h) /\ I c) (goes_on k).
Proof.
  intros Hres. assert (goes_on k (Regular mode h)) as Hr by (by exists k).
  unfold validate_database_identity. apply query_then; [done|].
  destruct (hd_application_id h =? APPLICATION_ID) eqn:E.
  { apply Z.eqb_eq in E. apply guarded_ret. by rewrite set_same_application_id. }
  apply Z.eqb_neq in E. assert (hd_application_id h = 0) as ->.
  { inversion Hres; subst; try done. by destruct H2. }
  cbn [negb Z.eqb]. apply query_then; [done|].
  eapply guarded_bind with (Q := fun a n c => a = true /\ n = Regular mode h /\ I c).
  - inversion Hres as [|? ? _ _ _ Hn Ho|? ? ? _ Ha _|? ? _ _ Hv]; subst; [|done|].
    + rewrite Hn, Ho. cbn. apply guarded_ret. by intros f c [-> HI].
    + rewrite (av_rows _ _ Hv), (proj2 (Z.eqb_neq _ 0)); [by apply legacy_recognized|].
      pose proof (zlen_nonneg (hd_objects h)). lia.
  - intros a. apply guarded_fact. intros ->. apply reject_then; [done|]. by apply guarded_write.
Qed.

(** ** Opening *)

(** Write-ahead logging, full synchronization, foreign keys. *)
Definition settings_ok (c : SqliteSettings) : Prop :=
  journal_mode c = "wal" /\ synchronous c = 2 /\ foreign_keys c = true.

Definition with_table (h : DbHeader) : DbHeader :=
  {| hd_application_id := hd_application_id h; hd_user_version := hd_user_version h;
     hd_migrations := Some (default [] (hd_migrations h)); hd_objects := hd_objects h |}.

Lemma identified_resumable mode h k :
  resumable (Regular mode h) k -> resumable (Regular mode (set_application_id APPLICATION_ID h)) k
  /\ at_version k (with_table (set_application_id APPLICATION_ID h)) /\ Z.land mode OTHERS_MODE = 0.
Proof.
  intros Hres. inversion Hres as [|? ? H1 H2 H3 H4 H5|? ? ? H1 H2 H3|? ? H1 H2 H3]; subst.
  - split; [|split; [|done]]; [apply resumable_new; auto|].
    split; cbn; rewrite ?H3, ?H4, ?H5; try done. lia.
  - split; [|split; [|done]]; destruct H3 as [G1 G2 G3 G4]; [apply resumable_at; try done; by split|].
    split; cbn; rewrite ?G2; done.
  - split; [|split; [|done]]; destruct H3 as [G1 G2 G3 G4]; [apply resumable_at; try done; by split|].
    split; cbn; rewrite ?G2; done.
Qed.

Lemma pragma_then {B} f (k : unit -> Open B) mode h (I J : SqliteSettings -> Prop) Q (R : FileNode -> Prop) :
  R (Regular mode h) -> (forall c, I c -> J (f c)) ->
  guarded (fun n c => n = Regular mode h /\ J c) (k tt) Q R ->
  guarded (fun n c => n = Regular mode h /\ I c) (prog_bind (set_pragma f) k) Q R.
Proof. intros HR HJ Hk. eapply guarded_bind; [by apply guarded_pragma|]. by intros []. Qed.

Lemma configure_guarded mode h k :
  resumable (Regular mode h) k ->
  guarded (fun n c => n = Regular mode h /\ True) (configure execute_batch migrations)
    (fun _ => migrated mode settings_ok k (length migrations)) (goes_on k).
Proof.
  intros Hres. destruct (identified_resumable mode h k Hres) as (Hres1 & Hat & Hmode).
  assert (goes_on k (Regular mode h)) as Hr by (by exists k).
  assert (goes_on k (Regular mode (set_application_id APPLICATION_ID h))) as Hr1 by (by exists k).
  unfold configure. apply silent_then; [done|].
  eapply guarded_bind; [by apply identity_guarded|]. intros _u. cbv beta.
  apply (pragma_then _ _ _ _ _ (fun c => foreign_keys c = true)); [done|done|].
  apply (pragma_then _ _ _ _ _ (fun c => foreign_keys c = true /\ journal_mode c = "wal")); [done|done|].
  apply (pragma_then _ _ _ _ _ settings_ok); [done|by intros c [? ?]|].
  apply silent_then; [done|]. apply silent_then; [done|]. apply silent_then; [done|].
  apply write_then; [done|]. eapply apply_migrations_guarded; [done|done|exact Hat|done].
Qed.

Lemma prepare_guarded n k :
  resumable n k ->
  guarded (fun f _ => f = n) prepare_database_file
    (fun _ f _ => exists mode h, f = Regular mode h /\ resumable f k) (goes_on k).
Proof.
  intros Hres. assert (goes_on k n) as Hr by (by exists k).
  unfold prepare_database_file. eapply guarded_bind with (Q := fun a f _ => a = n /\ f = n).
  { apply guarded_attempt; [|by intros f c ->]. intros f c fs ->. by exists n, n, c. }
  intros a. apply guarded_fact. intros ->. destruct n as [|mode h|].
  - inversion Hres; subst. assert (resumable (Regular RESTRICTIVE_MODE empty_header) 0) as Hnew
      by (apply resumable_new; auto).
    assert (goes_on 0 (Regular RESTRICTIVE_MODE empty_header)) as Hr' by (by exists 0%nat).
    unfold create_restrictive_file, sync_new_file_and_parent.
    eapply guarded_bind with (Q := fun _ f c => f = Regular RESTRICTIVE_MODE empty_header /\ True).
    { apply guarded_attempt; [|by intros f c ->]. intros f c fs ->.
      by exists tt, (Regular RESTRICTIVE_MODE empty_header), c. }
    intros u. cbv beta. apply silent_then; [done|].
    eapply guarded_weaken; [by apply (guarded_silent RESTRICTIVE_MODE empty_header (fun _ => True))|done|]. intros _ f c [-> _]. eauto.
  - assert (Z.land mode OTHERS_MODE = 0) as Hmode by (by inversion Hres).
    eapply guarded_weaken; [apply (guarded_reject _ _ (fun f _ => f = Regular mode h))|done|].
    + by rewrite Hmode.
    + intros _ f c ->. eauto.
  - inversion Hres.
Qed.

Lemma open_guarded n k :
  resumable n k ->
  guarded (fun f _ => f = n) (open_store execute_batch migrations)
    (fun _ f c => exists mode, Z.land mode OTHERS_MODE = 0 /\ migrated mode settings_ok k (length migrations) f c) (goes_on k).
Proof.
  intros Hres. unfold open_store. eapply guarded_bind; [by apply prepare_guarded|].
  intros u s (mode & h & Hf & Hres'). rewrite Hf in Hres'.
  assert (goes_on k (Regular mode h)) as Hr by (by exists k).
  assert (guarded (fun f _ => f = Regular mode h)
    (do! _ := attempt (fun s => (Ok tt, set_op_settings default_settings s)) in configure execute_batch migrations)
    (fun _ f c => exists mode, Z.land mode OTHERS_MODE = 0 /\ migrated mode settings_ok k (length migrations) f c) (goes_on k)) as H; [|by apply H].
  eapply guarded_bind with (Q := fun _ f c => f = Regular mode h /\ True).
  - apply guarded_attempt; [|by intros f c ->]. intros f c fs ->. by exists tt, (Regular mode h), default_settings.
  - intros v. eapply guarded_weaken; [by apply configure_guarded|done|]. intros w f c Hx.
    exists mode. split; [|done]. by destruct (identified_resumable mode h k Hres') as (_ & _ & ?).
Qed.

(** Openings that are all cut short somewhere, or not. *)
Fixpoint openings (schedules : list (list bool)) (n : FileNode) : FileNode :=
  match schedules with
  | [] => n
  | faults :: rest =>
      openings rest (op_file (snd (open_store execute_batch migrations
        {| op_file := n; op_settings := default_settings; op_faults := faults |})))
  end.

Lemma openings_go_on schedules n k : resumable n k -> goes_on k (openings schedules n).
Proof.
  revert n k. induction schedules as [|fs rest IH]; intros n k Hres; cbn [openings]; [by exists k|].
  pose proof (open_guarded n k Hres {| op_file := n; op_settings := default_settings; op_faults := fs |} eq_refl) as H.
  destruct (open_store _ _ _) as [[u|e] s']; cbn [snd].
  - destruct H as [(mode & Hmode & h & j & -> & _ & Ha & Hj & Hk & _) _].
    destruct (IH _ j (resumable_at mode h j Hmode Ha Hj)) as (j' & ? & ?). exists j'. split; [lia|done].
  - destruct H as (_ & _ & j & Hj & Hres'). destruct (IH _ j Hres') as (j' & ? & ?). exists j'. split; [lia|done].
Qed.
End Migrating.

(** C10. Opening a database ends, however often it is cut short. From no file,
    or from a database of this program in any state an opening can leave it in
    (one from before the program marked its databases included),
    let any number of openings fail at any statement or file operation: none
    loses a migration that was applied, and the next opening that is not
    disturbed succeeds, with exactly the migrations of this build in order,
    applied once each on one another, their version in the header, the identity
    of the program, and write-ahead logging, full synchronization and foreign
    keys on. Whenever an opening reports success, disturbed or not, it has done
    all of this. *)
Theorem database_opening_resumes {CR : Crypto} (execute_batch : string -> list string -> option (list string))
    (migrations : list Migration) (n : FileNode) (k : nat) (schedules : list (list bool))
    (Hm : migrations_ok execute_batch migrations) (Hn : resumable execute_batch migrations n k) :
  let n' := openings execute_batch migrations schedules n in
  goes_on execute_batch migrations k n'
  /\ forall faults,
       let '(r, s) := open_store execute_batch migrations
                        {| op_file := n'; op_settings := default_settings; op_faults := faults |} in
       (faults = [] -> r = Ok tt)
       /\ (r = Ok tt -> exists mode h,
             op_file s = Regular mode h /\ Z.land mode OTHERS_MODE = 0
             /\ hd_migrations h = Some (row_of <$> migrations)
             /\ hd_user_version h = version_of (row_of <$> migrations)
             /\ run_batches execute_batch migrations [] = Some (hd_objects h)
             /\ (op_faults s = [] -> fst (read_settings s)
                  = Ok {| journal_mode := "wal"; synchronous := 2; foreign_keys := true;
                          application_id := APPLICATION_ID |})).
Proof.
  intros n'. destruct (openings_go_on execute_batch migrations Hm schedules n k Hn) as (j & Hj & Hres).
  split; [by exists j|]. intros faults. fold n' in Hres.
  pose proof (open_guarded execute_batch migrations Hm n' j Hres
    {| op_file := n'; op_settings := default_settings; op_faults := faults |} eq_refl) as H.
  destruct (open_store _ _ _) as [[[]|e] s].
  - destruct H as [(mode & Hmode & h & i & Hf & (Hc1 & Hc2 & Hc3) & Ha & Hi & _ & Hall) _]. split; [done|]. intros _.
    assert (i = length migrations) as -> by (destruct Hi; lia). destruct Hi as [_ H1 H2 H3].
    unfold history in *. rewrite take_ge in * by lia. exists mode, h. split_and!; try done.
    intros Hnf. unfold read_settings, query, attempt, prog_bind. rewrite !Hnf, Hc1, Hc2, Hc3. unfold header_of. by rewrite Hf, Ha.
  - destruct H as (_ & Hne & _). split; [|done]. intros ->. by destruct Hne.
Qed.

(** * Databases of others *)

(** [m] refuses [n] with [e], or is refused by the system before it does, and
    leaves the file as it is. *)
Definition refuses (n : FileNode) {A} (m : Open A) (e : StorageError) : Prop :=
  forall s, op_file s = n ->
  exists e' s', m s = (Err e', s') /\ op_file s' = n /\ (op_faults s = [] -> e' = e).

Section Refusing.
Context {CR : Crypto} (n : FileNode).

Lemma refuses_attempt {A B} (m : Open A) (x : A) (k : A -> Open B) e :
  (forall s, op_file s = n -> exists c, m s = (Ok x, {| op_file := n; op_settings := c; op_faults := op_faults s |})) ->
  refuses n (k x) e -> refuses n (prog_bind (attempt m) k) e.
Proof.
  intros Hm Hk [f c fs] Hs. cbn in Hs. subst f. unfold prog_bind, attempt. cbn [op_file op_settings op_faults].
  destruct fs as [|[] fs].
  - destruct (Hm {| op_file := n; op_settings := c; op_faults := [] |} eq_refl) as [c' ->].
    exact (Hk {| op_file := n; op_settings := c'; op_faults := [] |} eq_refl).
  - by exists Sqlite, {| op_file := n; op_settings := c; op_faults := fs |}.
  - destruct (Hm {| op_file := n; op_settings := c; op_faults := fs |} eq_refl) as [c' ->].
    destruct (Hk {| op_file := n; op_settings := c'; op_faults := fs |} eq_refl) as (e' & s' & Hrun & Hf & _).
    exists e', s'. by split_and!.
Qed.

Lemma refuses_query {A B} (f : DbHeader -> A) (k : A -> Open B) e :
  refuses n (k (f (match n with Regular _ h => h | _ => empty_header end))) e -> refuses n (prog_bind (query f) k) e.
Proof.
  apply refuses_attempt. intros [g c fs] Hs. cbn in *. subst g. by exists c.
Qed.
Lemma refuses_silent {B} (k : unit -> Open B) e : refuses n (k tt) e -> refuses n (prog_bind silent k) e.
Proof. apply refuses_attempt. intros [g c fs] Hs. cbn in *. subst g. by exists c. Qed.
Lemma refuses_pragma {B} f (k : unit -> Open B) e : refuses n (k tt) e -> refuses n (prog_bind (set_pragma f) k) e.
Proof. apply refuses_attempt. intros [g c fs] Hs. cbn in *. subst g. by exists (f c). Qed.
Lemma refuses_write {B} f (k : unit -> Open B) e :
  (forall mode h, n = Regular mode h -> f h = h) -> refuses n (k tt) e -> refuses n (prog_bind (write f) k) e.
Proof.
  intros Hf. apply refuses_attempt. intros [g c fs] Hs. cbn in *. subst g. exists c. unfold set_op_file. cbn.
  destruct n as [|mode h|]; [done| |done]. by rewrite (Hf mode h eq_refl).
Qed.
Lemma refuses_fail {A} e : refuses n (prog_fail (A := A) e) e.
Proof. intros s Hs. by exists e, s. Qed.
Lemma refuses_reject {B} b (k : unit -> Open B) e :
  (b = false -> refuses n (k tt) e) -> refuses n (prog_bind (prog_reject b e) k) e.
Proof. intros H s Hs. destruct b; [by exists e, s|]. exact (H eq_refl s Hs). Qed.
Lemma refuses_first {A B} (m : Open A) (k : A -> Open B) e : refuses n m e -> refuses n (prog_bind m k) e.
Proof.
  intros H s Hs. destruct (H s Hs) as (e' & s' & Hrun & ?). exists e', s'. unfold prog_bind. by rewrite Hrun.
Qed.
End Refusing.

Lemma refuses_assoc n {A B C} (a : Open A) (b : A -> Open B) (k : B -> Open C) e :
  refuses n (prog_bind a (fun x => prog_bind (b x) k)) e -> refuses n (prog_bind (prog_bind a b) k) e.
Proof.
  intros H s Hs. destruct (H s Hs) as (e' & s' & Hrun & ?). exists e', s'. split; [|done].
  rewrite <- Hrun. unfold prog_bind. by destruct (a s) as [[x|x] s1].
Qed.

Section Foreign.
Context {CR : Crypto} (execute_batch : string -> list string -> option (list string)) (migrations : list Migration).

(** An unmarked database with the first migration and nothing else. *)
Definition legacy (h : DbHeader) : Prop :=
  exists m rest, migrations = m :: rest /\ hd_migrations h = Some [row_of m]
    /\ Forall (fun o => o = INSTALLATION_TABLE) (hd_objects h).

(** Files that are not databases of this program, or of another build of it. *)
Inductive foreign : FileNode -> StorageError -> Prop :=
| foreign_irregular : foreign Irregular UnsafePath
| foreign_shared mode h : Z.land mode OTHERS_MODE <> 0 -> foreign (Regular mode h) UnsafePath
| foreign_identity mode h :
    Z.land mode OTHERS_MODE = 0 -> hd_application_id h <> 0 -> hd_application_id h <> APPLICATION_ID ->
    foreign (Regular mode h) MigrationMismatch
| foreign_unmarked mode h :
    Z.land mode OTHERS_MODE = 0 -> hd_application_id h = 0 -> hd_objects h <> [] \/ is_Some (hd_migrations h) ->
    ~ legacy h -> foreign (Regular mode h) MigrationMismatch
| foreign_history mode h rows :
    Z.land mode OTHERS_MODE = 0 -> hd_application_id h = APPLICATION_ID -> hd_migrations h = Some rows ->
    (length migrations < length rows)%nat \/ history_matches (applied_rows h) migrations = false
    \/ hd_user_version h <> version_of (applied_rows h) ->
    foreign (Regular mode h) MigrationMismatch.

Lemma unmarked_refused mode h :
  hd_application_id h = 0 -> hd_objects h <> [] \/ is_Some (hd_migrations h) -> ~ legacy h ->
  refuses (Regular mode h) (validate_database_identity migrations) MigrationMismatch.
Proof.
  intros Ha He Hl. unfold validate_database_identity. apply refuses_query. rewrite Ha. cbn [Z.eqb negb APPLICATION_ID].
  apply refuses_query. rewrite (proj2 (Z.eqb_neq _ 0)).
  2:{ destruct He as [He|[r Hr]]; [|rewrite Hr; pose proof (zlen_nonneg (hd_objects h)); lia].
      destruct (hd_objects h); [done|]. unfold zlen. cbn [length]. destruct (hd_migrations h); lia. }
  unfold is_recognized_legacy_database. apply refuses_assoc, refuses_query, refuses_assoc, refuses_query.
  destruct (negb _ || negb _) eqn:E.
  { intros s Hs. by exists MigrationMismatch, s. }
  apply orb_false_iff in E as [E1%negb_false_iff E2%negb_false_iff].
  apply refuses_assoc, refuses_query.
  match goal with |- refuses _ (prog_bind (prog_ret ?b) _) _ => destruct b eqn:Eb end;
    [|intros s Hs; by exists MigrationMismatch, s].
  destruct Hl. destruct (hd_migrations h) as [rows|] eqn:Er; [|done].
  unfold applied_rows in Eb. rewrite Er in Eb. cbn [default from_option Datatypes.id] in Eb.
  pose proof (order_by_perm by_version rows) as Hp. revert Eb Hp.
  destruct (order_by by_version rows) as [|[v c] [|]]; [done| |done]. intros Eb Hp.
  apply Permutation_singleton_l in Hp. subst rows. destruct migrations as [|m rest] eqn:Em; [done|].
  apply andb_true_iff in Eb as [Ev%Z.eqb_eq Ec]. unfold blob_eqb in Ec. apply bool_decide_eq_true in Ec. subst.
  exists m, rest. split_and!; [done|done|]. apply Z.eqb_eq in E2. clear -E2.
  induction (hd_objects h) as [|o l IH]; constructor; cbn in E2.
  - destruct (String.eqb_spec o INSTALLATION_TABLE); [done|]. unfold zlen in E2. cbn [negb length] in E2. lia.
  - apply IH. destruct (String.eqb o INSTALLATION_TABLE); [done|]. unfold zlen in *. cbn [negb length] in E2. lia.
Qed.

Lemma history_refused mode h rows :
  hd_application_id h = APPLICATION_ID -> hd_migrations h = Some rows ->
  (length migrations < length rows)%nat \/ history_matches (applied_rows h) migrations = false
  \/ hd_user_version h <> version_of (applied_rows h) ->
  refuses (Regular mode h) (configure execute_batch migrations) MigrationMismatch.
Proof.
  intros Ha Hr Hx. unfold configure. apply refuses_silent. unfold validate_database_identity.
  apply refuses_assoc, refuses_query. rewrite Ha. cbn [Z.eqb Pos.eqb APPLICATION_ID].
  intros s Hs. unfold prog_bind at 1. cbn [prog_ret]. revert s Hs.
  apply refuses_pragma, refuses_pragma, refuses_pragma, refuses_silent, refuses_silent, refuses_silent.
  apply refuses_write. { intros mode' h' [= <- <-]. rewrite Hr. cbn. rewrite <- Hr. by destruct h. }
  unfold apply_migrations. apply refuses_query, refuses_reject. intros E1. apply refuses_reject. intros E2.
  apply refuses_query, refuses_reject. intros E3. exfalso.
  apply Z.ltb_ge in E1. apply negb_false_iff in E2, E3. apply Z.eqb_eq in E3.
  destruct Hx as [Hx|[Hx|Hx]]; [|congruence|done].
  unfold applied_rows, zlen in E1. rewrite order_by_perm, Hr in E1. cbn in E1. lia.
Qed.

Lemma passed_refused mode h (m : Open unit) e :
  Z.land mode OTHERS_MODE = 0 -> refuses (Regular mode h) m e ->
  refuses (Regular mode h) (do! _ := prepare_database_file in
                            do! _ := attempt (fun s => (Ok tt, set_op_settings default_settings s)) in m) e.
Proof.
  intros Hmode Hm. unfold prepare_database_file. apply refuses_assoc.
  apply (refuses_attempt _ _ (Regular mode h)). { intros [g c fs] Hs. cbn in *. subst g. by exists c. }
  intros s Hs. unfold prog_bind at 1, prog_reject. rewrite Hmode. cbn [Z.eqb negb]. revert s Hs.
  apply (refuses_attempt _ _ tt); [|done]. intros [g c fs] Hs. cbn in *. subst g. by exists default_settings.
Qed.

Lemma foreign_refused n e : foreign n e -> refuses n (open_store execute_batch migrations) e.
Proof.
  unfold open_store. destruct 1 as [|mode h Hmode|mode h Hmode H0 H1|mode h Hmode H0 He Hl|mode h rows Hmode Ha Hr Hx].
  - apply refuses_first. unfold prepare_database_file.
    apply (refuses_attempt _ _ Irregular); [|apply refuses_fail]. intros [g c fs] Hs. cbn in *. subst g. by exists c.
  - apply refuses_first. unfold prepare_database_file.
    apply (refuses_attempt _ _ (Regular mode h)).
    + intros [g c fs] Hs. cbn in *. subst g. by exists c.
    + intros s Hs. exists UnsafePath, s. unfold prog_reject. by rewrite (proj2 (Z.eqb_neq _ 0) Hmode).
  - apply passed_refused; [done|]. unfold configure. apply refuses_silent, refuses_first.
    unfold validate_database_identity. apply refuses_query.
    rewrite (proj2 (Z.eqb_neq _ _) H1), (proj2 (Z.eqb_neq _ _) H0). apply refuses_fail.
  - apply passed_refused; [done|]. unfold configure. apply refuses_silent, refuses_first. by apply unmarked_refused.
  - apply passed_refused; [done|]. by eapply history_refused.
Qed.
End Foreign.


(** * Snapshots *)

(** A snapshot is published whole or not at all. If the destination is
    free, a snapshot that succeeds leaves there exactly the content of the
    source, and one that fails at whatever operation leaves it free, or with
    what another process put there meanwhile; a destination in use is refused
    and kept. In every case no temporary file remains, where files can be
    removed; and undisturbed, a snapshot to a free destination succeeds. *)
Theorem snapshot_published_or_nothing {A : Type} (s : Snapshotting A)
    (Htemporary : sn_temporary s = None) (Hremovable : sn_removable s = true) :
  let (r, s') := backup_to s in
  sn_temporary s' = None
  /\ match r with
     | Ok _ => sn_destination s = None /\ sn_rival s = None /\ sn_destination s' = Some (sn_source s)
     | Err e => sn_destination s' = sn_destination s
                \/ (e = DestinationExists /\ sn_destination s = None /\ is_Some (sn_rival s)
                    /\ sn_destination s' = sn_rival s)
     end
  /\ (sn_faults s = [] -> sn_destination s = None -> sn_rival s = None -> r = Ok tt).
Proof.
  destruct s as [source destination temporary rival faults removable]. cbn in *. subst.
  destruct destination as [used|]; [cbn; naive_solver|].
  unfold backup_to, copy_to_temporary, link_destination, settle_destination, sn_silent, sn_attempt, prog_bind.
  destruct rival as [other|].
  - do 9 (destruct faults as [|[] faults]; cbn; [naive_solver|naive_solver|]). naive_solver.
  - do 11 (destruct faults as [|[] faults]; cbn; [naive_solver|naive_solver|]). naive_solver.
Qed.
