(* ===== verification/MigrationsWitnesses.v ===== *)
(** The theorems about database files applied to the migrations of this build,
    with a hash that knows their texts. *)
From Stdlib Require Import ZArith Lia Strings.Byte String.
From stdpp Require Import base tactics numbers option strings list sorting.
From S2P Require Import Prelude RustStd Core Crypto ToyCrypto Sql Schema StoreInv Migrations MigrationsProps.

(** ** The migrations *)

Definition hex_value (b : byte) : Z :=
  let v := Z_of_byte b in if v <? 58 then v - 48 else v - 87.
Fixpoint unhex (l : blob) : blob :=
  match l with
  | a :: b :: l => byte_of_Z (16 * hex_value a + hex_value b) :: unhex l
  | _ => []
  end.
Definition digest (text : string) : array 32 := default (zeros 32) (try_array 32 (unhex (bstr text))).

Definition sql_text (version : Z) : string := if version =? 1 then "one" else if version =? 2 then "two" else "three".

(** SHA-256 as far as the three texts go. *)
#[local] Instance listed_hash : Crypto := {|
  hmac_sha256 := fun k m => zeros 32;
  sha256 := fun l =>
    if blob_eqb l (bstr "one") then digest "e279f6be347da07e482e11884680b3e7f249acb9e9c1a4a5b8244c11e2c8ff44"
    else if blob_eqb l (bstr "two") then digest "5f5638c43abb9744e53871ea50587c580186bcc7e3e96076eb4c537b2e5986da"
    else digest "5e944e456736d5c0c6b478b92b5915b12b327db8a5e8f67fc66d8dd973a927a1";
  aead_encrypt := fun _ _ _ _ => None;
  aead_decrypt := fun _ _ _ _ => None;
  getrandom := fun _ _ => None;
  new_v4 := fun _ => zeros 16;
  b64_encode := fun l => l;
  b64_decode := Some;
  nfc := fun s => s;
  hex_encode := toy_hex;
  uuid_text := fun _ => [] |}.

Definition toy_batch (sql : string) (objects : list string) : option (list string) :=
  Some (objects ++ [if String.eqb sql "one" then INSTALLATION_TABLE
                    else if String.eqb sql "two" then "smcv_secrets" else "smcv_principals"]).

Definition build : list Migration := MIGRATIONS sql_text.

Lemma build_ok : migrations_ok toy_batch build.
Proof.
  split.
  - repeat constructor.
  - repeat constructor; vm_compute; reflexivity.
  - by eexists.
  - reflexivity.
Qed.

(** Three openings of a new database are cut short, the second in the middle of
    the first migration. *)
Definition disturbed : list (list bool) :=
  [ [false; false; true]; repeat false 20 ++ [true]; repeat false 24 ++ [true] ].

Lemma database_opening_resumes_witness :
  exists mode h,
    op_file (snd (open_store toy_batch build {| op_file := openings toy_batch build disturbed Missing;
                                                op_settings := default_settings; op_faults := [] |})) = Regular mode h
    /\ hd_migrations h = Some (row_of <$> build) /\ hd_user_version h = 3.
Proof.
  pose proof (proj2 (database_opening_resumes toy_batch build Missing 0 disturbed build_ok
    (resumable_missing toy_batch build)) []) as H. cbv beta in H.
  destruct (open_store toy_batch build _) as [r s]. destruct H as [H1 H2].
  destruct (H2 (H1 eq_refl)) as (mode & h & Hf & _ & Hr & Hv & _). exists mode, h. auto.
Defined.

(** A database of another program. *)
Definition other_database : FileNode :=
  Regular 384 {| hd_application_id := 7; hd_user_version := 1; hd_migrations := None; hd_objects := ["books"] |}.

