(* ===== verification/Http.v ===== *)
(** The HTTP adapter of src/crates/smcv-server/src/lib.rs, before its handlers:
    headers, errors, cookies and bearer tokens, the security headers of every
    response, the login rate limiter, and the assets of web.rs.

    A header map is the list of its entries; the bytes of a value are read as
    text where they are visible ASCII.  The text forms of UUIDs, standard
    base64 and hexadecimal decoding are third-party code, the class
    [HttpText]. *)
From Stdlib Require Import ZArith Lia Strings.Byte String.
From stdpp Require Import base tactics numbers option strings countable list gmap.
From S2P Require Import Prelude RustStd Core Crypto Format Authentication AuthorizedVault Passkeys.

Class HttpText : Type := {
  (** [Uuid::parse_str] *)
  parse_str : blob -> option Uuid;
  (** base64's [STANDARD] *)
  std_encode : blob -> blob;
  std_decode : blob -> option blob;
  (** [hex::decode] *)
  hex_decode : blob -> option blob }.

Class HttpTextLaws {CR : Crypto} {HT : HttpText} : Prop := {
  parse_uuid_text u : parse_str (uuid_text u) = Some u;
  std_decode_encode l : std_decode (std_encode l) = Some l;
  hex_decode_encode l : hex_decode (hex_encode l) = Some l;
  (** The URL-safe alphabet, without padding. *)
  b64_url_safe l :
    b64_encode l ⊆ bstr "ABCDEFGHIJKLMNOPQRSTUVWXYZabcdefghijklmnopqrstuvwxyz0123456789-_" }.

(** * Texts and numbers *)

Definition digit (b : byte) : option Z :=
  let z := Z_of_byte b in if (48 <=? z) && (z <=? 57) then Some (z - 48) else None.
Fixpoint digits_value (acc : Z) (l : blob) : option Z :=
  match l with
  | [] => Some acc
  | b :: l => match digit b with Some d => digits_value (acc * 10 + d) l | None => None end
  end.
(** [str::parse] of an unsigned integer: a sign [+] is allowed. *)
Definition parse_uint (max : Z) (l : blob) : option Z :=
  let l := match l with x2b :: rest => rest | _ => l end in
  match l with
  | [] => None
  | _ => match digits_value 0 l with Some z => if z <=? max then Some z else None | None => None end
  end.

(** [str::trim] on ASCII text *)
Definition ascii_space (b : byte) : bool :=
  let z := Z_of_byte b in ((9 <=? z) && (z <=? 13)) || (z =? 32).
Fixpoint trim_start (l : blob) : blob :=
  match l with b :: l' => if ascii_space b then trim_start l' else l | [] => [] end.
Definition trim (l : blob) : blob := rev (trim_start (rev (trim_start l))).

(** [str::trim]: the encodings of the characters of Unicode's White_Space *)
Definition white_space : list blob :=
  [[x09]; [x0a]; [x0b]; [x0c]; [x0d]; [x20]; [xc2; x85]; [xc2; xa0]; [xe1; x9a; x80]; [xe2; x80; x80];
   [xe2; x80; x81]; [xe2; x80; x82]; [xe2; x80; x83]; [xe2; x80; x84]; [xe2; x80; x85]; [xe2; x80; x86];
   [xe2; x80; x87]; [xe2; x80; x88]; [xe2; x80; x89]; [xe2; x80; x8a]; [xe2; x80; xa8]; [xe2; x80; xa9];
   [xe2; x80; xaf]; [xe2; x81; x9f]; [xe3; x80; x80]].
Fixpoint find_map {A B} (f : A -> option B) (l : list A) : option B :=
  match l with [] => None | a :: l => match f a with Some b => Some b | None => find_map f l end end.
(** Every turn takes a character away: the length is fuel enough. *)
Fixpoint strip_any (fuel : nat) (patterns : list blob) (l : blob) : blob :=
  match fuel with
  | O => l
  | S fuel => match find_map (fun p => strip_prefix p l) patterns with
              | Some rest => strip_any fuel patterns rest
              | None => l
              end
  end.
Definition trim_text (l : blob) : blob :=
  let l := strip_any (length l) white_space l in
  rev (strip_any (length l) ((@rev byte) <$> white_space) (rev l)).

(** [str::split_once] *)
Fixpoint split_once (c : byte) (l : blob) : option (blob * blob) :=
  match l with
  | [] => None
  | b :: l => if Byte.eqb b c then Some ([], l)
              else match split_once c l with Some (k, v) => Some (b :: k, v) | None => None end
  end.

(** [starts_with] and [ends_with] *)
Definition starts_with (p l : blob) : bool := blob_eqb (take (length p) l) p.
Definition ends_with (p l : blob) : bool := starts_with (rev p) (rev l).

(** [i64::saturating_add] and [saturating_sub] *)
Definition clamp_i64 (z : Z) : Z := Z.max i64_min (Z.min i64_max z).
Definition i64_saturating_add (a b : Z) : Z := clamp_i64 (a + b).
Definition i64_saturating_sub (a b : Z) : Z := clamp_i64 (a - b).

(** [now_unix_ms], of a reading of the clock in milliseconds since the epoch *)
Definition now_unix_ms (reading : Z) : Z := default 0 (try_from i64_max reading).

(** * Headers *)

Definition HeaderMap : Type := list (string * blob).

(** [HeaderMap::get]: the first value of a name *)
Definition header_get (headers : HeaderMap) (name : string) : option blob :=
  snd <$> List.find (fun h => String.eqb h.1 name) headers.
(** [HeaderMap::insert] *)
Definition header_insert (name : string) (value : blob) (headers : HeaderMap) : HeaderMap :=
  List.filter (fun h => negb (String.eqb h.1 name)) headers ++ [(name, value)].

Definition visible_ascii (b : byte) : bool :=
  let z := Z_of_byte b in ((32 <=? z) && (z <? 127)) || (z =? 9).
(** [HeaderValue::to_str] *)
Definition to_str (value : blob) : option blob := if forallb visible_ascii value then Some value else None.
(** [headers.get(name).and_then(|value| value.to_str().ok())] *)
Definition header_text (headers : HeaderMap) (name : string) : option blob :=
  header_get headers name ≫= to_str.

Definition SESSION_COOKIE : blob := bstr "__Host-smcv_session".

(** The closure of [cookie]'s [find_map] *)
Definition cookie_field (name field : blob) : option blob :=
  '(candidate, value) ← split_once x3d (trim field);
  if blob_eqb candidate name && negb (Nat.eqb (length value) 0) && (zlen value <=? 128)
  then Some value else None.
Definition cookie (headers : HeaderMap) (name : blob) : option blob :=
  value ← header_text headers "cookie";
  if 4096 <? zlen value then None else find_map (cookie_field name) (split x3b value).

Definition bearer (headers : HeaderMap) : option blob :=
  value ← header_text headers "authorization";
  token ← strip_prefix (bstr "Bearer ") value;
  if negb (Nat.eqb (length token) 0) && (zlen token <=? 128) then Some token else None.

(** * Errors and responses *)

Record ApiError : Type := {
  ae_status : Z;
  ae_code : string;
  ae_message : string;
  ae_request_id : RequestId }.

Definition authentication (request_id : RequestId) : ApiError :=
  {| ae_status := 401; ae_code := "authentication_failed"; ae_message := "Authentication failed.";
     ae_request_id := request_id |}.
Definition not_found (request_id : RequestId) : ApiError :=
  {| ae_status := 404; ae_code := "resource_unavailable";
     ae_message := "The requested resource is unavailable."; ae_request_id := request_id |}.
Definition invalid (request_id : RequestId) : ApiError :=
  {| ae_status := 400; ae_code := "invalid_request"; ae_message := "The request is invalid.";
     ae_request_id := request_id |}.
Definition unavailable (request_id : RequestId) : ApiError :=
  {| ae_status := 503; ae_code := "service_unavailable";
     ae_message := "The service is temporarily unavailable."; ae_request_id := request_id |}.
Definition rate_limited (request_id : RequestId) : ApiError :=
  {| ae_status := 429; ae_code := "rate_limited"; ae_message := "Try again later.";
     ae_request_id := request_id |}.

(** [map_vault_error]: the cause of a refusal is not told. *)
Definition map_vault_error (e : AuthorizedVaultError) (request_id : RequestId) : ApiError := not_found request_id.

(** [idempotency_input] *)
Definition idempotency_input (headers : HeaderMap) (canonical_request : blob) (request_id : RequestId)
  : result ApiError IdempotencyInput :=
  let? key := ok_or (invalid request_id)
    (value ← header_text headers "idempotency-key";
     if negb (Nat.eqb (length value) 0) && (zlen value <=? 128) then Some value else None) in
  Ok {| idi_key := key; idi_canonical_request := canonical_request |}.

(** [apply_security_headers] *)
Definition API_CSP : blob := bstr "default-src 'none'; frame-ancestors 'none'; base-uri 'none'".
Definition insert_absent (name : string) (value : blob) (headers : HeaderMap) : HeaderMap :=
  if bool_decide (is_Some (header_get headers name)) then headers else header_insert name value headers.
Definition apply_security_headers (headers : HeaderMap) : HeaderMap :=
  header_insert "strict-transport-security" (bstr "max-age=31536000")
  (header_insert "cross-origin-resource-policy" (bstr "same-origin")
  (header_insert "cross-origin-opener-policy" (bstr "same-origin")
  (header_insert "permissions-policy" (bstr "camera=(), microphone=(), geolocation=(), payment=(), usb=()")
  (header_insert "x-frame-options" (bstr "DENY")
  (header_insert "referrer-policy" (bstr "no-referrer")
  (insert_absent "content-security-policy" API_CSP
  (header_insert "x-content-type-options" (bstr "nosniff")
  (header_insert "pragma" (bstr "no-cache")
  (header_insert "cache-control" (bstr "no-store") headers))))))))).

(** * web.rs *)

Definition WEB_CSP : blob := bstr
  "default-src 'none'; script-src 'self'; style-src 'self'; connect-src 'self'; img-src 'self' data:; font-src 'self'; frame-ancestors 'none'; base-uri 'none'; form-action 'self'".

(** The headers of [asset_response] *)
Definition asset_headers (content_type : string) (document : bool) : HeaderMap :=
  (if document then header_insert "content-security-policy" WEB_CSP else fun h => h)
    (header_insert "content-type" (bstr content_type) []).

(** * The rate limiter *)

Definition LOGIN_WINDOW_MS : Z := 60000.
Definition LOGIN_ATTEMPTS_PER_WINDOW : Z := 10.
Definition PASSKEY_ATTEMPTS_PER_WINDOW : Z := 20.
Definition BEARER_ATTEMPTS_PER_WINDOW : Z := 120.
Definition MAX_LOGIN_SOURCES : Z := 4096.

Record LoginWindow : Type := {
  lw_started_at_unix_ms : Z;
  lw_attempts : Z }.

Inductive IpAddr : Type := V4 (octets : array 4) | V6 (octets : array 16).
Definition LOCALHOST : array 4 := Array (n:=4) [x7f; x00; x00; x01] eq_refl.

Inductive AuthenticationRateKey : Type :=
| Peer (address : IpAddr)
| ApplicationCredential (lookup : array 12).

#[export] Instance IpAddr_eq : EqDecision IpAddr. Proof. solve_decision. Defined.
#[export] Instance AuthenticationRateKey_eq : EqDecision AuthenticationRateKey.
Proof. solve_decision. Defined.
#[export] Instance IpAddr_countable : Countable IpAddr.
Proof.
  by refine (inj_countable' (fun a => match a with V4 o => inl o | V6 o => inr o end)
    (fun s => match s with inl o => V4 o | inr o => V6 o end) _); intros [].
Defined.
#[export] Instance AuthenticationRateKey_countable : Countable AuthenticationRateKey.
Proof.
  by refine (inj_countable' (fun k => match k with Peer a => inl a | ApplicationCredential l => inr l end)
    (fun s => match s with inl a => Peer a | inr l => ApplicationCredential l end) _); intros [].
Defined.

Abbreviation LoginRateLimiter := (gmap AuthenticationRateKey LoginWindow).

Definition window_open (now : Z) (w : LoginWindow) : bool :=
  i64_saturating_sub now (lw_started_at_unix_ms w) <? LOGIN_WINDOW_MS.

(** [LoginRateLimiter::allow], which holds the lock throughout *)
Definition allow (source : AuthenticationRateKey) (now limit : Z) (sources : LoginRateLimiter)
  : bool * LoginRateLimiter :=
  let fresh := {| lw_started_at_unix_ms := now; lw_attempts := 1 |} in
  let sources := filter (fun kv => window_open now kv.2 = true) sources in
  match sources !! source with
  | Some window =>
      if negb (window_open now window) then (true, <[source := fresh]> sources)
      else if limit <=? lw_attempts window then (false, sources)
      else (true, <[source := {| lw_started_at_unix_ms := lw_started_at_unix_ms window;
                                 lw_attempts := Z.min u16_max (lw_attempts window + 1) |}]> sources)
  | None =>
      if MAX_LOGIN_SOURCES <=? map_len sources then (false, sources)
      else (true, <[source := fresh]> sources)
  end.
