(* ===== verification/BackupJobs.v ===== *)
(** The durable registry of backup jobs, src/crates/smcv-server/src/backup_jobs.rs:
    status files and encrypted artifacts in one directory, and the map of jobs
    in memory.

    Every file operation can fail, and the process can stop at any of them; the
    state carries the schedule of which do.  A directory lists its names in any
    order.  The map is only used under its lock, in sections that do not panic.
    The JSON of a status is serde_json's, the class [JobJson]. *)
From Stdlib Require Import ZArith Lia Strings.Byte String.
From stdpp Require Import base tactics numbers option strings list gmap.
From S2P Require Import Prelude RustStd Core Crypto Format Sql Archive Passkeys Http.

Definition MAX_JOBS : Z := 32.
Definition JOB_TTL_MS : Z := 15 * 60 * 1000.
Definition MAX_STATUS_BYTES : Z := 64 * 1024.

Inductive JobState : Type := JPending | JRunning | JCompleted | JFailed.
#[export] Instance JobState_eq : EqDecision JobState. Proof. solve_decision. Defined.

Record BackupJobRecord : Type := {
  bj_job_id : Uuid;
  bj_state : JobState;
  bj_created_at_unix_ms : Z;
  bj_updated_at_unix_ms : Z;
  bj_expires_at_unix_ms : Z;
  bj_archive_id : option Uuid;
  bj_format_version : option Z;
  bj_logical_vault_id : option Uuid;
  bj_source_recovery_epoch : option Z;
  bj_archive_bytes : option Z;
  bj_artifact_sha256 : option blob;
  bj_record_count : option Z;
  bj_download_started : bool;
  bj_error_code : option string }.

Definition set_bj_state (x : JobState) (r : BackupJobRecord) : BackupJobRecord :=
  {| bj_job_id := bj_job_id r; bj_state := x; bj_created_at_unix_ms := bj_created_at_unix_ms r;
     bj_updated_at_unix_ms := bj_updated_at_unix_ms r; bj_expires_at_unix_ms := bj_expires_at_unix_ms r;
     bj_archive_id := bj_archive_id r; bj_format_version := bj_format_version r;
     bj_logical_vault_id := bj_logical_vault_id r; bj_source_recovery_epoch := bj_source_recovery_epoch r;
     bj_archive_bytes := bj_archive_bytes r; bj_artifact_sha256 := bj_artifact_sha256 r;
     bj_record_count := bj_record_count r; bj_download_started := bj_download_started r;
     bj_error_code := bj_error_code r |}.
Definition set_bj_updated (x : Z) (r : BackupJobRecord) : BackupJobRecord :=
  {| bj_job_id := bj_job_id r; bj_state := bj_state r; bj_created_at_unix_ms := bj_created_at_unix_ms r;
     bj_updated_at_unix_ms := x; bj_expires_at_unix_ms := bj_expires_at_unix_ms r;
     bj_archive_id := bj_archive_id r; bj_format_version := bj_format_version r;
     bj_logical_vault_id := bj_logical_vault_id r; bj_source_recovery_epoch := bj_source_recovery_epoch r;
     bj_archive_bytes := bj_archive_bytes r; bj_artifact_sha256 := bj_artifact_sha256 r;
     bj_record_count := bj_record_count r; bj_download_started := bj_download_started r;
     bj_error_code := bj_error_code r |}.
Definition set_bj_expires (x : Z) (r : BackupJobRecord) : BackupJobRecord :=
  {| bj_job_id := bj_job_id r; bj_state := bj_state r; bj_created_at_unix_ms := bj_created_at_unix_ms r;
     bj_updated_at_unix_ms := bj_updated_at_unix_ms r; bj_expires_at_unix_ms := x;
     bj_archive_id := bj_archive_id r; bj_format_version := bj_format_version r;
     bj_logical_vault_id := bj_logical_vault_id r; bj_source_recovery_epoch := bj_source_recovery_epoch r;
     bj_archive_bytes := bj_archive_bytes r; bj_artifact_sha256 := bj_artifact_sha256 r;
     bj_record_count := bj_record_count r; bj_download_started := bj_download_started r;
     bj_error_code := bj_error_code r |}.
Definition set_bj_error (x : option string) (r : BackupJobRecord) : BackupJobRecord :=
  {| bj_job_id := bj_job_id r; bj_state := bj_state r; bj_created_at_unix_ms := bj_created_at_unix_ms r;
     bj_updated_at_unix_ms := bj_updated_at_unix_ms r; bj_expires_at_unix_ms := bj_expires_at_unix_ms r;
     bj_archive_id := bj_archive_id r; bj_format_version := bj_format_version r;
     bj_logical_vault_id := bj_logical_vault_id r; bj_source_recovery_epoch := bj_source_recovery_epoch r;
     bj_archive_bytes := bj_archive_bytes r; bj_artifact_sha256 := bj_artifact_sha256 r;
     bj_record_count := bj_record_count r; bj_download_started := bj_download_started r;
     bj_error_code := x |}.
Definition set_bj_download_started (r : BackupJobRecord) : BackupJobRecord :=
  {| bj_job_id := bj_job_id r; bj_state := bj_state r; bj_created_at_unix_ms := bj_created_at_unix_ms r;
     bj_updated_at_unix_ms := bj_updated_at_unix_ms r; bj_expires_at_unix_ms := bj_expires_at_unix_ms r;
     bj_archive_id := bj_archive_id r; bj_format_version := bj_format_version r;
     bj_logical_vault_id := bj_logical_vault_id r; bj_source_recovery_epoch := bj_source_recovery_epoch r;
     bj_archive_bytes := bj_archive_bytes r; bj_artifact_sha256 := bj_artifact_sha256 r;
     bj_record_count := bj_record_count r; bj_download_started := true;
     bj_error_code := bj_error_code r |}.

Definition terminal (r : BackupJobRecord) : bool :=
  match bj_state r with JCompleted | JFailed => true | JPending | JRunning => false end.

Class JobJson : Type := {
  (** [serde_json::to_writer] and [from_reader] on a record *)
  job_to_json : BackupJobRecord -> blob;
  job_from_json : blob -> option BackupJobRecord }.

(** What the integers of a record are. *)
Definition job_typed (r : BackupJobRecord) : Prop :=
  in_i64 (bj_created_at_unix_ms r) /\ in_i64 (bj_updated_at_unix_ms r) /\ in_i64 (bj_expires_at_unix_ms r)
  /\ (forall z, bj_format_version r = Some z -> in_u16 z)
  /\ (forall z, bj_source_recovery_epoch r = Some z -> in_u64 z)
  /\ (forall z, bj_archive_bytes r = Some z -> in_u64 z)
  /\ (forall z, bj_record_count r = Some z -> in_u64 z).

Definition text_bytes (r : BackupJobRecord) : Z :=
  zlen (default [] (bj_artifact_sha256 r)) + zlen (bstr (default ""%string (bj_error_code r))).

(** A record reads back from its text and a line end; the text is the names of
    the fields, three UUIDs, seven numbers and two strings, of whose bytes each
    is escaped to at most six. *)
Class JobJsonLaws {JJ : JobJson} : Prop := {
  job_json_round_trip r : job_typed r -> job_from_json (job_to_json r ++ [x0a]) = Some r;
  job_json_length r : job_typed r -> zlen (job_to_json r) <= 1024 + 6 * text_bytes r }.

(** * The directory *)

Inductive NodeKind : Type := RegularNode | DirectoryNode | LinkNode | OtherNode.
#[export] Instance NodeKind_eq : EqDecision NodeKind. Proof. solve_decision. Defined.

Record Node : Type := {
  nd_kind : NodeKind;
  nd_mode : Z;
  nd_uid : Z;
  nd_bytes : blob }.

Inductive IoError : Type := IoNotFound | IoPermissionDenied | IoInvalidData | IoOther.

(** What happens to a file operation: it works, fails, or is the last one of
    the process; of a write [n] bytes are stored then. *)
Inductive Outcome : Type := Works | Fails (n : nat) | Stops (n : nat).

(** The directory itself and what it contains, the jobs in memory, and the
    surroundings: the random draws made, the clock, what happens to the file
    operations to come, and whether the process still runs. *)
Record Registry : Type := {
  rg_directory : option Node;
  rg_files : gmap blob Node;
  rg_jobs : gmap Uuid BackupJobRecord;
  rg_draws : nat;
  rg_clock : nat -> Z;
  rg_ticks : nat;
  rg_outcomes : list Outcome;
  rg_running : bool }.

Definition set_rg_directory (x : option Node) (s : Registry) : Registry :=
  {| rg_directory := x; rg_files := rg_files s; rg_jobs := rg_jobs s; rg_draws := rg_draws s;
     rg_clock := rg_clock s; rg_ticks := rg_ticks s; rg_outcomes := rg_outcomes s; rg_running := rg_running s |}.
Definition set_rg_files (x : gmap blob Node) (s : Registry) : Registry :=
  {| rg_directory := rg_directory s; rg_files := x; rg_jobs := rg_jobs s; rg_draws := rg_draws s;
     rg_clock := rg_clock s; rg_ticks := rg_ticks s; rg_outcomes := rg_outcomes s; rg_running := rg_running s |}.
Definition set_rg_jobs (x : gmap Uuid BackupJobRecord) (s : Registry) : Registry :=
  {| rg_directory := rg_directory s; rg_files := rg_files s; rg_jobs := x; rg_draws := rg_draws s;
     rg_clock := rg_clock s; rg_ticks := rg_ticks s; rg_outcomes := rg_outcomes s; rg_running := rg_running s |}.
Definition set_rg_draws (x : nat) (s : Registry) : Registry :=
  {| rg_directory := rg_directory s; rg_files := rg_files s; rg_jobs := rg_jobs s; rg_draws := x;
     rg_clock := rg_clock s; rg_ticks := rg_ticks s; rg_outcomes := rg_outcomes s; rg_running := rg_running s |}.
Definition set_rg_ticks (x : nat) (s : Registry) : Registry :=
  {| rg_directory := rg_directory s; rg_files := rg_files s; rg_jobs := rg_jobs s; rg_draws := rg_draws s;
     rg_clock := rg_clock s; rg_ticks := x; rg_outcomes := rg_outcomes s; rg_running := rg_running s |}.
Definition set_rg_outcomes (x : list Outcome) (s : Registry) : Registry :=
  {| rg_directory := rg_directory s; rg_files := rg_files s; rg_jobs := rg_jobs s; rg_draws := rg_draws s;
     rg_clock := rg_clock s; rg_ticks := rg_ticks s; rg_outcomes := x; rg_running := rg_running s |}.
Definition set_rg_running (x : bool) (s : Registry) : Registry :=
  {| rg_directory := rg_directory s; rg_files := rg_files s; rg_jobs := rg_jobs s; rg_draws := rg_draws s;
     rg_clock := rg_clock s; rg_ticks := rg_ticks s; rg_outcomes := rg_outcomes s; rg_running := x |}.

Abbreviation Jobs A := (Prog Registry IoError A).

(** A file operation; [partial] is what a write leaves when it fails. *)
Definition fs_op {A} (partial : nat -> Registry -> Registry) (m : Jobs A) : Jobs A := fun s =>
  if negb (rg_running s) then (Err IoOther, s)
  else match rg_outcomes s with
  | [] => m s
  | Works :: l => m (set_rg_outcomes l s)
  | Fails n :: l => (Err IoOther, partial n (set_rg_outcomes l s))
  | Stops n :: l => (Err IoOther, set_rg_running false (partial n (set_rg_outcomes l s)))
  end.
Definition fs {A} (m : Jobs A) : Jobs A := fs_op (fun _ s => s) m.
(** An operation on a file that changes nothing the model sees. *)
Definition fs_silent : Jobs unit := fs (prog_ret tt).

(** [now_unix_ms()] *)
Definition clock_now : Jobs Z := fun s =>
  (Ok (now_unix_ms (rg_clock s (rg_ticks s))), set_rg_ticks (S (rg_ticks s)) s).

(** [symlink_metadata] *)
Definition lstat (name : blob) : Jobs Node := fs (prog_read (fun s => ok_or IoNotFound (rg_files s !! name))).

(** [fs::remove_file] *)
Definition remove_file (name : blob) : Jobs unit := fs (fun s =>
  match rg_files s !! name with
  | None => (Err IoNotFound, s)
  | Some n => if bool_decide (nd_kind n = DirectoryNode) then (Err IoOther, s)
              else (Ok tt, set_rg_files (delete name (rg_files s)) s)
  end).
(** [remove_if_exists] *)
Definition remove_if_exists (name : blob) : Jobs unit := fun s =>
  match remove_file name s with
  | (Err IoNotFound, s') => (Ok tt, s')
  | r => r
  end.
(** [fs::remove_dir_all] *)
Definition remove_dir_all (name : blob) : Jobs unit := fs (fun s =>
  (Ok tt, set_rg_files (delete name (rg_files s)) s)).

(** [file.write_all]: at the end of the file *)
Definition append_bytes (name bytes : blob) (s : Registry) : Registry :=
  set_rg_files (alter (fun n => {| nd_kind := nd_kind n; nd_mode := nd_mode n; nd_uid := nd_uid n;
                                   nd_bytes := nd_bytes n ++ bytes |}) name (rg_files s)) s.
Definition write_all (name bytes : blob) : Jobs unit :=
  fs_op (fun n => append_bytes name (take n bytes)) (fun s => (Ok tt, append_bytes name bytes s)).

(** [fs::rename], which does not replace a directory *)
Definition rename (from to : blob) : Jobs unit := fs (fun s =>
  match rg_files s !! from with
  | None => (Err IoNotFound, s)
  | Some n => if bool_decide (nd_kind <$> rg_files s !! to = Some DirectoryNode) then (Err IoOther, s)
              else (Ok tt, set_rg_files (<[to := n]> (delete from (rg_files s))) s)
  end).

(** [Drop for RemoveFileOnDrop], after the guarded code *)
Definition drop_removes {A} (name : blob) (m : Jobs A) : Jobs A := fun s =>
  let (r, s') := m s in (r, snd (remove_if_exists name s')).

(** The text of /proc/self/status, and the owner of the files created. *)
Record Process : Type := {
  pr_uid : Z;
  pr_status : option blob }.

(** [split_whitespace]; the line is ASCII *)
Fixpoint split_where (p : byte -> bool) (l : blob) : list blob :=
  match l with
  | [] => [[]]
  | b :: l => if p b then [] :: split_where p l
              else match split_where p l with [] => [[b]] | w :: ws => (b :: w) :: ws end
  end.
Definition split_whitespace (l : blob) : list blob :=
  List.filter (fun w => negb (Nat.eqb (length w) 0)) (split_where ascii_space l).
(** [current_effective_uid] *)
Definition current_effective_uid (p : Process) : result IoError Z :=
  let? status := ok_or IoOther (pr_status p ≫= fun l => if utf8_valid l then Some l else None) in
  ok_or IoOther (values ← find_map (strip_prefix (bstr "Uid:")) (split x0a status);
                 value ← split_whitespace values !! 1%nat;
                 parse_uint u32_max value).

Definition OTHERS_BITS : Z := 63.
Definition FILE_BITS : Z := 384.
Definition DIRECTORY_BITS : Z := 448.

Section Registry.
Context {CR : Crypto} {HT : HttpText} {JJ : JobJson} (process : Process)
  (read_order : nat -> list blob -> list blob).

(** [artifact_path], [status_path] and the other names of the directory *)
Definition artifact_path (id : Uuid) : blob := uuid_text id ++ bstr ".smcvault".
Definition status_path (id : Uuid) : blob := uuid_text id ++ bstr ".json".
Definition status_temporary (id : Uuid) : blob := bstr ".status-" ++ uuid_text id ++ bstr ".tmp".

(** [OpenOptions::create_new(true).mode(0o600)] *)
Definition create_new (name : blob) : Jobs unit := fs (fun s =>
  match rg_files s !! name with
  | Some _ => (Err IoOther, s)
  | None => (Ok tt, set_rg_files (<[name := {| nd_kind := RegularNode; nd_mode := FILE_BITS;
                                               nd_uid := pr_uid process; nd_bytes := [] |}]> (rg_files s)) s)
  end).

(** [Uuid::new_v4] *)
Definition draw_uuid : Jobs Uuid := fun s => (Ok (new_v4 (rg_draws s)), set_rg_draws (S (rg_draws s)) s).

(** [BackupJobRegistry::persist] *)
Definition persist (record : BackupJobRecord) : Jobs unit :=
  do! id := draw_uuid in
  let temporary := status_temporary id in
  drop_removes temporary (
    do! _ := create_new temporary in
    do! _ := write_all temporary (job_to_json record) in
    do! _ := write_all temporary [x0a] in
    do! _ := fs_silent (* sync_all *) in
    do! _ := rename temporary (status_path (bj_job_id record)) in
    do! _ := fs_silent (* open the directory *) in
    fs_silent (* sync_all *)).

(** Whether a node is out of this process's custody; the identity is only read
    where the type and the mode are right. *)
Definition unrestrictive (n : Node) (right_kind : bool) : Jobs bool :=
  if negb right_kind || negb (Z.land (nd_mode n) OTHERS_BITS =? 0) then prog_ret true
  else do! uid := prog_lift (current_effective_uid process) in prog_ret (negb (nd_uid n =? uid)).

(** [open_restrictive_artifact]: the file opened, which keeps its bytes *)
Definition open_restrictive_artifact (name : blob) (expected_bytes : Z) : Jobs blob :=
  do! n := fs (prog_read (fun s =>
    match rg_files s !! name with
    | None => Err IoNotFound
    | Some n => if bool_decide (nd_kind n = LinkNode) then Err IoOther else Ok n
    end)) in
  do! _ := fs_silent (* metadata *) in
  do! unsafe := unrestrictive n (bool_decide (nd_kind n = RegularNode)) in
  do! _ := prog_reject (unsafe || negb (zlen (nd_bytes n) =? expected_bytes)) IoPermissionDenied in
  prog_ret (nd_bytes n).

(** [open_and_digest_artifact]; the reads of the loop as one *)
Definition open_and_digest_artifact (name : blob) (expected_bytes : Z) (expected_sha256 : option blob)
  : Jobs (blob * blob) :=
  do! bytes := open_restrictive_artifact name expected_bytes in
  do! _ := fs_silent (* read *) in
  do! _ := fs_silent (* rewind *) in
  let actual := hex_encode (arr (sha256 bytes)) in
  do! _ := prog_reject (is_some_and expected_sha256 (fun expected => negb (blob_eqb expected actual)))
             IoInvalidData in
  prog_ret (bytes, actual).

(** [completed_artifact_metadata_is_valid] *)
Definition completed_artifact_metadata_is_valid (record : BackupJobRecord) : Jobs bool :=
  match bj_archive_bytes record, bj_artifact_sha256 record ≫= hex_decode with
  | Some expected_bytes, Some decoded_digest =>
      if (zlen decoded_digest =? 32) && bool_decide (is_Some (bj_archive_id record))
         && bool_decide (bj_format_version record = Some FORMAT_VERSION)
         && bool_decide (is_Some (bj_logical_vault_id record))
         && bool_decide (is_Some (bj_source_recovery_epoch record))
         && bool_decide (is_Some (bj_record_count record))
      then do! opened := prog_try (open_restrictive_artifact (artifact_path (bj_job_id record)) expected_bytes) in
           prog_ret match opened with Ok _ => true | Err _ => false end
      else prog_ret false
  | _, _ => prog_ret false
  end.

(** [Path::extension] of a name *)
Definition extension (name : blob) : option blob :=
  match split_once x2e (rev name) with
  | Some (reversed, stem) => if Nat.eqb (length stem) 0 then None else Some (rev reversed)
  | None => None
  end.

Definition stale_temporary (name : blob) : bool :=
  (starts_with (bstr ".verify-") name && ends_with (bstr ".smcvault") name)
  || (starts_with (bstr ".status-") name && ends_with (bstr ".tmp") name).

(** The record of a job that ends in failure when the registry is opened. *)
Definition failed_at (now : Z) (code : string) (record : BackupJobRecord) : BackupJobRecord :=
  let record := set_bj_error (Some code) (set_bj_state JFailed record) in
  let record := set_bj_updated (Z.max (bj_updated_at_unix_ms record) now) record in
  set_bj_expires (Z.max (i64_saturating_add (bj_updated_at_unix_ms record) JOB_TTL_MS)
                        (i64_saturating_add (bj_created_at_unix_ms record) 1)) record.

(** The two transitions to failure of [load_statuses] *)
Definition fail_loaded (now : Z) (code : string) (record : BackupJobRecord) : Jobs BackupJobRecord :=
  let record := failed_at now code record in
  do! _ := remove_if_exists (artifact_path (bj_job_id record)) in
  do! _ := persist record in
  prog_ret record.

Definition record_invalid (name : blob) (record : BackupJobRecord) : bool :=
  negb (blob_eqb name (status_path (bj_job_id record)))
  || (bj_created_at_unix_ms record <? 0)
  || (bj_updated_at_unix_ms record <? bj_created_at_unix_ms record)
  || (bj_expires_at_unix_ms record <=? bj_created_at_unix_ms record).

(** A status file: its record, or none where it was expired *)
Definition load_status (now : Z) (name : blob) : Jobs (option BackupJobRecord) :=
  do! n := lstat name (* file_type *) in
  do! _ := fs_silent (* metadata *) in
  do! _ := prog_reject (negb (bool_decide (nd_kind n = RegularNode)) || (MAX_STATUS_BYTES <? zlen (nd_bytes n))) IoOther in
  do! _ := fs_silent (* open and read *) in
  do! record := prog_lift (ok_or IoOther (job_from_json (nd_bytes n))) in
  do! _ := prog_reject (record_invalid name record) IoOther in
  if terminal record && (bj_expires_at_unix_ms record <=? now) then
    do! _ := remove_if_exists (artifact_path (bj_job_id record)) in
    do! _ := remove_if_exists name in
    prog_ret None
  else
    do! record := (if terminal record then prog_ret record else fail_loaded now "interrupted" record) in
    do! valid := (if bool_decide (bj_state record = JCompleted)
                  then completed_artifact_metadata_is_valid record else prog_ret true) in
    do! record := (if valid then prog_ret record else fail_loaded now "artifact_integrity_failed" record) in
    prog_ret (Some record).

(** One turn of the first loop of [load_statuses] *)
Definition load_entry (now : Z) (loaded : gmap Uuid BackupJobRecord) (name : blob)
  : Jobs (gmap Uuid BackupJobRecord) :=
  do! _ := fs_silent (* entry? *) in
  if stale_temporary name then do! _ := remove_if_exists name in prog_ret loaded
  else
    do! drill := (if starts_with (bstr ".restore-drill-") name
                  then do! n := lstat name in prog_ret (bool_decide (nd_kind n = DirectoryNode))
                  else prog_ret false) in
    if drill then do! _ := remove_dir_all name in prog_ret loaded
    else if negb (bool_decide (extension name = Some (bstr "json"))) then prog_ret loaded
    else
      do! found := load_status now name in
      match found with
      | None => prog_ret loaded
      | Some record =>
          do! _ := prog_reject (MAX_JOBS <=? map_len loaded) IoOther in
          prog_ret (<[bj_job_id record := record]> loaded)
      end.

(** [strip_suffix] *)
Definition strip_suffix (suffix l : blob) : option blob := (@rev byte) <$> strip_prefix (rev suffix) (rev l).

(** One turn of the second loop *)
Definition sweep_entry (loaded : gmap Uuid BackupJobRecord) (name : blob) : Jobs unit :=
  do! _ := fs_silent (* entry? *) in
  match strip_suffix (bstr ".smcvault") name ≫= parse_str with
  | None => prog_ret tt
  | Some job_id =>
      if bool_decide (bj_state <$> loaded !! job_id = Some JCompleted) then prog_ret tt
      else remove_if_exists name
  end.

Fixpoint prog_foldM {S E A B} (f : B -> A -> Prog S E B) (b : B) (l : list A) : Prog S E B :=
  match l with
  | [] => prog_ret b
  | a :: l => prog_bind (f b a) (fun b => prog_foldM f b l)
  end.

(** [fs::read_dir]: the names there when it is called *)
Definition read_dir : Jobs (list blob) := fs (fun s =>
  (Ok (read_order (rg_draws s) (fst <$> map_to_list (rg_files s))), s)).

(** [BackupJobRegistry::load_statuses] *)
Definition load_statuses : Jobs unit :=
  do! now := clock_now in
  do! names := read_dir in
  do! loaded := prog_foldM (load_entry now) ∅ names in
  do! names := read_dir in
  do! _ := prog_mapM (sweep_entry loaded) names in
  fun s => (Ok tt, set_rg_jobs loaded s).

(** [BackupJobRegistry::open] *)
Definition open_registry : Jobs unit :=
  do! found := prog_try (fs (prog_read (fun s => ok_or IoNotFound (rg_directory s)))) in
  do! _ := match found with
           | Ok _ => prog_ret tt
           | Err IoNotFound => fs (fun s =>
               (Ok tt, set_rg_directory (Some {| nd_kind := DirectoryNode; nd_mode := DIRECTORY_BITS;
                                                 nd_uid := pr_uid process; nd_bytes := [] |}) s))
           | Err e => prog_fail e
           end in
  do! n := fs (prog_read (fun s => ok_or IoNotFound (rg_directory s))) in
  do! unsafe := unrestrictive n (bool_decide (nd_kind n = DirectoryNode)) in
  do! _ := prog_reject unsafe IoPermissionDenied in
  do! _ := (fun s => (Ok tt, set_rg_jobs ∅ s)) in
  load_statuses.

(** [BackupJobRegistry::cleanup_expired] *)
Definition job_expired (now : Z) (job : BackupJobRecord) : bool :=
  terminal job && (bj_expires_at_unix_ms job <=? now).
Definition remove_files (id : Uuid) : Jobs unit :=
  do! _ := remove_if_exists (artifact_path id) in
  remove_if_exists (status_path id).
Definition cleanup_expired (now : Z) : Jobs unit :=
  do! jobs := prog_read (fun s => Ok (rg_jobs s)) in
  let expired := fst <$> List.filter (fun kv => job_expired now kv.2) (map_to_list jobs) in
  do! _ := prog_mapM remove_files expired in
  fun s => (Ok tt, set_rg_jobs (foldr delete (rg_jobs s) expired) s).

(** [BackupJobRegistry::create] *)
Definition create_job (now : Z) : Jobs BackupJobRecord :=
  do! _ := cleanup_expired now in
  do! full := prog_read (fun s => Ok (MAX_JOBS <=? map_len (rg_jobs s))) in
  do! _ := prog_reject full IoOther in
  do! job_id := draw_uuid in
  let record := {| bj_job_id := job_id; bj_state := JPending; bj_created_at_unix_ms := now;
                   bj_updated_at_unix_ms := now; bj_expires_at_unix_ms := i64_saturating_add now JOB_TTL_MS;
                   bj_archive_id := None; bj_format_version := None; bj_logical_vault_id := None;
                   bj_source_recovery_epoch := None; bj_archive_bytes := None; bj_artifact_sha256 := None;
                   bj_record_count := None; bj_download_started := false; bj_error_code := None |} in
  do! _ := persist record in
  fun s => (Ok record, set_rg_jobs (<[job_id := record]> (rg_jobs s)) s).

(** [BackupJobRegistry::update] *)
Definition update_job (job_id : Uuid) (update : BackupJobRecord -> Jobs BackupJobRecord) : Jobs unit :=
  do! candidate := prog_read (fun s => ok_or IoOther (rg_jobs s !! job_id)) in
  do! candidate := update candidate in
  do! now := clock_now in
  let candidate := set_bj_updated (Z.max (bj_updated_at_unix_ms candidate) now) candidate in
  do! _ := persist candidate in
  fun s => (Ok tt, set_rg_jobs (<[job_id := candidate]> (rg_jobs s)) s).

(** [BackupJobRegistry::get] *)
Definition get_job (job_id : Uuid) : Jobs (option BackupJobRecord) := prog_read (fun s => Ok (rg_jobs s !! job_id)).

(** [BackupJobRegistry::list]: the latest first *)
Definition job_before (a b : BackupJobRecord) : bool :=
  (bj_created_at_unix_ms b <? bj_created_at_unix_ms a)
  || ((bj_created_at_unix_ms a =? bj_created_at_unix_ms b)
      && blob_leb (arr (bj_job_id b)) (arr (bj_job_id a))).
Definition list_jobs : Jobs (list BackupJobRecord) :=
  prog_read (fun s => Ok (order_by job_before (snd <$> map_to_list (rg_jobs s)))).

(** [BackupJobRegistry::remove] *)
Definition remove_job (job_id : Uuid) : Jobs unit :=
  do! _ := remove_files job_id in
  fun s => (Ok tt, set_rg_jobs (delete job_id (rg_jobs s)) s).

(** The expiry a job gets where it ends: [now_unix_ms().max(created).saturating_add(TTL)] *)
Definition end_expiry (record : BackupJobRecord) : Jobs BackupJobRecord :=
  do! now := clock_now in
  prog_ret (set_bj_expires (i64_saturating_add (Z.max now (bj_created_at_unix_ms record)) JOB_TTL_MS) record).
(** The closures that end a job in failure *)
Definition mark_failed (code : string) (record : BackupJobRecord) : Jobs BackupJobRecord :=
  do! record := end_expiry (set_bj_state JFailed record) in
  prog_ret (set_bj_error (Some code) record).
End Registry.
