(* ===== verification/Server.v ===== *)
(** The state of the HTTP server, [ApiState] of src/crates/smcv-server/src/lib.rs,
    the bodies of its responses, and what its handlers share: the identity of a
    request, authentication by cookie or bearer token, readiness and the
    operational counters.

    A handler is a program over the state that ends in a response or an
    [ApiError].  Bodies are the values that serde_json writes.  The limiters,
    slots and counters are locked or atomic and used once per request; between
    the calls of a handler other connections reach the store as the schedule of
    its [World] says. *)
From Stdlib Require Import ZArith Lia Strings.Byte String.
From stdpp Require Import base tactics numbers option strings list gmap.
From S2P Require Import Prelude RustStd Core Crypto Format Schema Records Metadata VaultCore Authentication Authorization ServiceIdentity AuthorizedVault Archive Passkeys Http BackupJobs.

(** * Bodies *)

Record NamespaceListEntryResponse : Type := {
  nle_id : blob;
  nle_metadata : Metadata;
  nle_revision : Z }.
Record AccessDeltaResponse : Type := {
  adr_service_principal_id : blob;
  adr_action : string }.
Record SecretListEntryResponse : Type := {
  sle_id : blob;
  sle_metadata : Metadata;
  sle_current_version : Z;
  sle_revision : Z;
  sle_lifecycle_state : string;
  sle_deleted_at_unix_ms : option Z }.
Record SecretVersionMetadataResponse : Type := {
  svm_version : Z;
  svm_expires_at_unix_ms : option Z;
  svm_rotation_due_at_unix_ms : option Z;
  svm_created_by_principal_id : option blob;
  svm_created_at_unix_ms : Z }.
Record ServiceIdentityListEntryResponse : Type := {
  sie_id : blob;
  sie_label : rstring;
  sie_description : option rstring;
  sie_state : string;
  sie_revision : Z }.
Record CredentialSummaryResponse : Type := {
  csr_id : blob;
  csr_created_at_unix_ms : Z;
  csr_expires_at_unix_ms : option Z;
  csr_last_used_at_unix_ms : option Z;
  csr_revoked_at_unix_ms : option Z;
  csr_revision : Z }.
Record PolicyResponse : Type := {
  plr_id : blob;
  plr_label : rstring;
  plr_state : string;
  plr_revision : Z }.
Record PolicyGrantResponse : Type := {
  pgr_id : blob;
  pgr_action : string;
  pgr_resource_kind : string;
  pgr_resource_id : blob;
  pgr_include_descendants : bool }.
Record AuditEventResponse : Type := {
  aer_sequence : Z;
  aer_event_id : blob;
  aer_occurred_at_unix_ms : Z;
  aer_request_id : blob;
  aer_actor_principal_id : option blob;
  aer_credential_kind : option string;
  aer_credential_id : option blob;
  aer_action : string;
  aer_target_kind : string;
  aer_target_id : option blob;
  aer_outcome : string }.
Record BackupStatusResponse : Type := {
  bsr_job_id : Uuid;
  bsr_state : JobState;
  bsr_created_at_unix_ms : Z;
  bsr_updated_at_unix_ms : Z;
  bsr_expires_at_unix_ms : Z;
  bsr_archive_id : option Uuid;
  bsr_format_version : option Z;
  bsr_logical_vault_id : option Uuid;
  bsr_source_recovery_epoch : option Z;
  bsr_archive_bytes : option Z;
  bsr_artifact_sha256 : option blob;
  bsr_record_count : option Z;
  bsr_download_started : bool;
  bsr_error_code : option string }.
Record BackupVerificationResponse : Type := {
  bvr_archive_id : Uuid;
  bvr_format_version : Z;
  bvr_logical_vault_id : Uuid;
  bvr_source_recovery_epoch : Z;
  bvr_created_at_unix_ms : Z;
  bvr_archive_bytes : Z;
  bvr_record_count : Z;
  bvr_logical_bytes : Z;
  bvr_integrity_verified : bool;
  bvr_restore_tested : bool;
  bvr_staged_recovery_epoch : Z }.

(** The response structs, each by the constructor of its name. *)
Inductive Body : Type :=
| NoBody
| ErrorBody (code message : string) (request_id : blob)
| StatusResponse (status : string)
| SessionResponse (csrf_token : blob) (absolute_expires_at_unix_ms : Z)
| SessionStatusResponse (authenticated recent : bool)
| ChallengeResponse (ceremony_id : blob) (expires_at_unix_ms : Z) (options : blob)
| IdResponse (id : blob)
| NamespacePageResponse (namespaces : list NamespaceListEntryResponse) (next_after : option blob)
| DeltaResponse (deltas : list AccessDeltaResponse)
| RevisionResponse (revision : Z)
| SecretPageResponse (secrets : list SecretListEntryResponse) (next_after : option blob)
| SecretCreatedResponse (id : blob) (version revision : Z)
| VersionResponse (version : Z)
| MetadataResponse (metadata : Metadata)
| SecretValueResponse (value_base64 : blob)
| SecretVersionPageResponse (versions : list SecretVersionMetadataResponse) (next_after_version : option Z)
| ServiceIdentityPageResponse (applications : list ServiceIdentityListEntryResponse) (next_after : option blob)
| ServiceIdentityResponse (id : blob) (label : rstring) (description : option rstring)
| EffectiveAccessResponse (service_principal_id : blob) (resource_kind : string) (resource_id : blob)
    (actions : list string)
| CredentialPageResponse (credentials : list CredentialSummaryResponse) (next_after : option blob)
| IssuedCredentialResponse (id credential : blob) (expires_at_unix_ms : option Z)
| PolicyPageResponse (policies : list PolicyResponse) (next_after : option blob)
| PolicyBody (policy : PolicyResponse)
| PolicyRulesResponse (authorization_revision : Z) (grants : list PolicyGrantResponse)
    (bound_service_principal_ids : list blob)
| AuditPageResponse (events : list AuditEventResponse) (next_after_sequence : option Z)
| BackupPageResponse (backups : list BackupStatusResponse)
| BackupBody (backup : BackupStatusResponse)
| CreateBackupResponse (job_id : Uuid) (recovery_key : option blob) (expires_at_unix_ms : Z)
| BackupVerificationBody (verification : BackupVerificationResponse)
| FileBody (bytes : blob)
| AssetBody (asset : string)
| OpenApiDocument.

Record Response : Type := {
  rs_status : Z;
  rs_headers : HeaderMap;
  rs_body : Body }.

(** [Json(body).into_response()] with a status *)
Definition json_response (status : Z) (body : Body) : Response :=
  {| rs_status := status; rs_headers := [("content-type", bstr "application/json")]; rs_body := body |}.
Definition status_only (status : Z) : Response := {| rs_status := status; rs_headers := []; rs_body := NoBody |}.
Definition with_header (name : string) (value : blob) (r : Response) : Response :=
  {| rs_status := rs_status r; rs_headers := header_insert name value (rs_headers r); rs_body := rs_body r |}.
Definition secured (r : Response) : Response :=
  {| rs_status := rs_status r; rs_headers := apply_security_headers (rs_headers r); rs_body := rs_body r |}.

(** [IntoResponse for ApiError] *)
Definition error_response {CR : Crypto} (e : ApiError) : Response :=
  secured (json_response (ae_status e) (ErrorBody (ae_code e) (ae_message e) (uuid_text (ae_request_id e)))).

(** [session_response]; a value that is no header value is left out *)
Definition session_response (issued : BrowserSessionSecrets) : Response :=
  let value := SESSION_COOKIE ++ bstr "=" ++ bs_session_token issued
               ++ bstr "; Path=/; Secure; HttpOnly; SameSite=Strict" in
  let r := json_response 200 (SessionResponse (bs_csrf_token issued) (bs_absolute_expires_at_unix_ms issued)) in
  secured (if forallb visible_ascii value then with_header "set-cookie" value r else r).

(** * The state *)

Record OperationalMetrics : Type := {
  om_requests : Z;
  om_responses_success : Z;
  om_responses_client_error : Z;
  om_responses_server_error : Z;
  om_timeouts : Z;
  om_rate_limited : Z;
  om_readiness_checks : Z;
  om_readiness_failures : Z }.

Inductive Counter : Type :=
| CRequests | CSuccess | CClientError | CServerError | CTimeouts | CRateLimited | CReadinessChecks
| CReadinessFailures.

(** [AtomicU64::fetch_add(1)], which wraps *)
Definition next_count (z : Z) : Z := (z + 1) mod (u64_max + 1).
Definition fetch_add (c : Counter) (m : OperationalMetrics) : OperationalMetrics :=
  let on (c' : Counter) (z : Z) :=
    match c, c' with
    | CRequests, CRequests | CSuccess, CSuccess | CClientError, CClientError | CServerError, CServerError
    | CTimeouts, CTimeouts | CRateLimited, CRateLimited | CReadinessChecks, CReadinessChecks
    | CReadinessFailures, CReadinessFailures => next_count z
    | _, _ => z
    end in
  {| om_requests := on CRequests (om_requests m);
     om_responses_success := on CSuccess (om_responses_success m);
     om_responses_client_error := on CClientError (om_responses_client_error m);
     om_responses_server_error := on CServerError (om_responses_server_error m);
     om_timeouts := on CTimeouts (om_timeouts m);
     om_rate_limited := on CRateLimited (om_rate_limited m);
     om_readiness_checks := on CReadinessChecks (om_readiness_checks m);
     om_readiness_failures := on CReadinessFailures (om_readiness_failures m) |}.

(** What the closure of a running backup job holds. *)
Record BackupWorker : Type := {
  bw_job_id : Uuid;
  bw_key : ArchiveKey;
  bw_logical_vault_id : Uuid;
  bw_source_recovery_epoch : Z }.

Section State.
Context {WA : WebAuthn}.

(** The vault with its passkey ceremonies, the backup registry with the clock of
    the process, the limiters, whether a slot for a password and the slot for
    an archive are free, the job that runs, the last readiness check, and the
    counters. *)
Record Server : Type := {
  sv_passkeys : PasskeyWorld;
  sv_jobs : Registry;
  sv_login_rate : LoginRateLimiter;
  sv_passkey_rate : LoginRateLimiter;
  sv_bearer_rate : LoginRateLimiter;
  sv_password_slot : bool;
  sv_archive_slot : bool;
  sv_worker : option BackupWorker;
  sv_readiness : option (Z * bool);
  sv_metrics : OperationalMetrics }.

Definition set_sv_passkeys (x : PasskeyWorld) (s : Server) : Server :=
  {| sv_passkeys := x; sv_jobs := sv_jobs s; sv_login_rate := sv_login_rate s;
     sv_passkey_rate := sv_passkey_rate s; sv_bearer_rate := sv_bearer_rate s;
     sv_password_slot := sv_password_slot s; sv_archive_slot := sv_archive_slot s;
     sv_worker := sv_worker s; sv_readiness := sv_readiness s; sv_metrics := sv_metrics s |}.
Definition set_sv_jobs (x : Registry) (s : Server) : Server :=
  {| sv_passkeys := sv_passkeys s; sv_jobs := x; sv_login_rate := sv_login_rate s;
     sv_passkey_rate := sv_passkey_rate s; sv_bearer_rate := sv_bearer_rate s;
     sv_password_slot := sv_password_slot s; sv_archive_slot := sv_archive_slot s;
     sv_worker := sv_worker s; sv_readiness := sv_readiness s; sv_metrics := sv_metrics s |}.
Definition set_sv_rates (login passkey bearer : LoginRateLimiter) (s : Server) : Server :=
  {| sv_passkeys := sv_passkeys s; sv_jobs := sv_jobs s; sv_login_rate := login;
     sv_passkey_rate := passkey; sv_bearer_rate := bearer;
     sv_password_slot := sv_password_slot s; sv_archive_slot := sv_archive_slot s;
     sv_worker := sv_worker s; sv_readiness := sv_readiness s; sv_metrics := sv_metrics s |}.
Definition set_sv_worker (x : option BackupWorker) (s : Server) : Server :=
  {| sv_passkeys := sv_passkeys s; sv_jobs := sv_jobs s; sv_login_rate := sv_login_rate s;
     sv_passkey_rate := sv_passkey_rate s; sv_bearer_rate := sv_bearer_rate s;
     sv_password_slot := sv_password_slot s; sv_archive_slot := sv_archive_slot s;
     sv_worker := x; sv_readiness := sv_readiness s; sv_metrics := sv_metrics s |}.
Definition set_sv_archive_slot (x : bool) (s : Server) : Server :=
  {| sv_passkeys := sv_passkeys s; sv_jobs := sv_jobs s; sv_login_rate := sv_login_rate s;
     sv_passkey_rate := sv_passkey_rate s; sv_bearer_rate := sv_bearer_rate s;
     sv_password_slot := sv_password_slot s; sv_archive_slot := x;
     sv_worker := sv_worker s; sv_readiness := sv_readiness s; sv_metrics := sv_metrics s |}.
Definition set_sv_readiness (x : option (Z * bool)) (s : Server) : Server :=
  {| sv_passkeys := sv_passkeys s; sv_jobs := sv_jobs s; sv_login_rate := sv_login_rate s;
     sv_passkey_rate := sv_passkey_rate s; sv_bearer_rate := sv_bearer_rate s;
     sv_password_slot := sv_password_slot s; sv_archive_slot := sv_archive_slot s;
     sv_worker := sv_worker s; sv_readiness := x; sv_metrics := sv_metrics s |}.
Definition set_sv_metrics (x : OperationalMetrics) (s : Server) : Server :=
  {| sv_passkeys := sv_passkeys s; sv_jobs := sv_jobs s; sv_login_rate := sv_login_rate s;
     sv_passkey_rate := sv_passkey_rate s; sv_bearer_rate := sv_bearer_rate s;
     sv_password_slot := sv_password_slot s; sv_archive_slot := sv_archive_slot s;
     sv_worker := sv_worker s; sv_readiness := sv_readiness s; sv_metrics := x |}.

Definition sv_world (s : Server) : World := pw_world (sv_passkeys s).
Definition set_sv_world (w : World) (s : Server) : Server :=
  set_sv_passkeys {| pw_world := w; pw_ceremonies := pw_ceremonies (sv_passkeys s);
                     pw_schedule := pw_schedule (sv_passkeys s) |} s.

Definition bump (c : Counter) (s : Server) : Server := set_sv_metrics (fetch_add c (sv_metrics s)) s.
End State.

Abbreviation Api A := (Prog Server ApiError A).

Section Adapter.
Context {CR : Crypto} {WA : WebAuthn} {HT : HttpText} (self : InitializedVault).

(** A call of the vault, of the passkey service and of the registry, whose
    errors are mapped; the random draws are those of one process. *)
Definition of_vault {E F A} (f : E -> F) (m : Prog World E A) : Prog Server F A := fun s =>
  let (r, w) := m (sv_world s) in (map_err f r, set_sv_world w s).
Definition of_passkeys {E F A} (f : E -> F) (m : Prog PasskeyWorld E A) : Prog Server F A := fun s =>
  let (r, p) := m (sv_passkeys s) in (map_err f r, set_sv_passkeys p s).
Definition of_jobs {E F A} (f : E -> F) (m : Prog Registry E A) : Prog Server F A := fun s =>
  let (r, g) := m (set_rg_draws (w_draws (sv_world s)) (sv_jobs s)) in
  (map_err f r, set_sv_jobs g (set_sv_world (set_w_draws (rg_draws g) (sv_world s)) s)).

(** [now_unix_ms()] *)
Definition api_now : Api Z := fun s =>
  let g := sv_jobs s in
  (Ok (now_unix_ms (rg_clock g (rg_ticks g))), set_sv_jobs (set_rg_ticks (S (rg_ticks g)) g) s).

(** [RequestId::random()] *)
Definition random_request_id : Api RequestId := fun s =>
  (Ok (new_v4 (w_draws (sv_world s))), set_sv_world (set_w_draws (S (w_draws (sv_world s))) (sv_world s)) s).

(** [request_id] *)
Definition request_id (headers : HeaderMap) : Api RequestId :=
  match header_text headers "x-request-id" ≫= parse_str with
  | Some id => prog_ret id
  | None => random_request_id
  end.

(** [authenticate_owner] *)
Definition authenticate_owner (headers : HeaderMap) (require_csrf : bool) (now : Z) : Api AuthenticatedOwner :=
  do! request := request_id headers in
  do! session := prog_lift (ok_or (authentication request) (cookie headers SESSION_COOKIE)) in
  let csrf := header_text headers "x-smcv-csrf" in
  of_vault (fun _ => authentication request) (authenticate_browser_session self session csrf require_csrf now).

(** [authenticate_principal] *)
Definition authenticate_principal (headers : HeaderMap) (state_changing : bool) (now : Z)
  : Api RequestPrincipal :=
  do! request := request_id headers in
  match bearer headers with
  | Some token =>
      do! service := of_vault (fun _ => authentication request)
        (authenticate_application_credential self token request now) in
      prog_ret (RequestService service)
  | None =>
      do! owner := authenticate_owner headers state_changing now in
      prog_ret (RequestOwner owner)
  end.

(** [state.vault.authorized(principal, request_id, now)
      .map_err(|_| ApiError::authentication(request_id))?] *)
Definition as_principal (p : RequestPrincipal) (request : RequestId) (now : Z) : Api AuthorizedVault :=
  of_vault (fun _ => authentication request) (authorized self p request now).
(** [.operation(..).map_err(|error| map_vault_error(error, request_id))?] *)
Definition facade_call {A} (request : RequestId) (m : Facade A) : Api A :=
  of_vault (fun e => map_vault_error e request) m.
(** [.operation(..).map_err(|_| ApiError::not_found(request_id))?] *)
Definition vault_call {E A} (request : RequestId) (m : Prog World E A) : Api A :=
  of_vault (fun _ => not_found request) m.

(** [parse_uuid], [namespace_id], [secret_id] and the like *)
Definition path_id (request : RequestId) (value : blob) : Api Uuid :=
  prog_lift (ok_or (not_found request) (parse_str value)).
Definition query_id (request : RequestId) (value : blob) : Api Uuid :=
  prog_lift (ok_or (invalid request) (parse_str value)).
(** [.as_deref().map(id).transpose().map_err(|()| ApiError::invalid(request_id))?] *)
Definition optional_id (request : RequestId) (value : option blob) : Api (option Uuid) :=
  match value with
  | None => prog_ret None
  | Some text => do! id := query_id request text in prog_ret (Some id)
  end.

(** [(records.len() == usize::from(limit)).then(|| records.last().map(key)).flatten()] *)
Definition next_after {A B} (records : list A) (limit : Z) (key : A -> B) : option B :=
  if zlen records =? limit then key <$> last records else None.

(** * Readiness *)

Definition READINESS_CACHE_TTL : Z := 5000.

(** [ApiState::is_ready] at an instant in milliseconds; [quick_check] is what
    the integrity check of the store returns *)
Definition is_ready (instant : Z) (quick_check : result StorageError bool) : Api bool := fun s =>
  let check := match quick_check with Ok b => b | Err _ => false end in
  match sv_readiness s with
  | Some (checked_at, value) =>
      if instant - checked_at <? READINESS_CACHE_TTL then (Ok value, s)
      else (Ok check, set_sv_readiness (Some (instant, check)) s)
  | None => (Ok check, set_sv_readiness (Some (instant, check)) s)
  end.

(** * The source of a request *)

(** [peer.map_or(IpAddr::V4(Ipv4Addr::LOCALHOST), |peer| peer.0.0.ip())] *)
Definition source_of (peer : option IpAddr) : AuthenticationRateKey := Peer (default (V4 LOCALHOST) peer).

(** [if !state.limiter.allow(..) { rate_limited += 1; return Err(rate_limited) }] *)
Definition limit_login (source : AuthenticationRateKey) (now : Z) (request : RequestId) : Api unit := fun s =>
  let (allowed, rate) := allow source now LOGIN_ATTEMPTS_PER_WINDOW (sv_login_rate s) in
  let s := set_sv_rates rate (sv_passkey_rate s) (sv_bearer_rate s) s in
  if allowed then (Ok tt, s) else (Err (rate_limited request), bump CRateLimited s).
Definition limit_passkey (source : AuthenticationRateKey) (now : Z) (request : RequestId) : Api unit := fun s =>
  let (allowed, rate) := allow source now PASSKEY_ATTEMPTS_PER_WINDOW (sv_passkey_rate s) in
  let s := set_sv_rates (sv_login_rate s) rate (sv_bearer_rate s) s in
  if allowed then (Ok tt, s) else (Err (rate_limited request), bump CRateLimited s).
End Adapter.
