(* ===== verification/Api.v ===== *)
(** The handlers of src/crates/smcv-server/src/lib.rs, in the order of the
    source: sessions and passkeys, namespaces and secrets, applications and
    their credentials, policies, and the audit trail.

    A handler takes what axum extracted of the request: the headers, the parts
    of the path and the query, and the deserialized body.  Its calls keep the
    order in which the source evaluates them. *)
From Stdlib Require Import ZArith Lia Strings.Byte String.
From stdpp Require Import base tactics numbers option strings list gmap.
From S2P Require Import Prelude RustStd Core Crypto Format Schema Records Metadata VaultCore Authentication Authorization ServiceIdentity AuthorizedVault Passkeys Http BackupJobs Server.

(** * Requests *)

Record CreateNamespaceRequest : Type := {
  cnr_parent_namespace_id : option blob;
  cnr_metadata : Metadata }.
Record NamespacePageQuery : Type := {
  npq_parent_namespace_id : option blob;
  npq_after : option blob;
  npq_limit : Z }.
Record MoveNamespaceRequest : Type := {
  mnr_expected_revision : Z;
  mnr_new_parent_namespace_id : option blob;
  mnr_confirmed_delta : list (blob * string) }.
Record CreateSecretRequest : Type := {
  csq_namespace_id : blob;
  csq_metadata : Metadata;
  csq_value_base64 : blob;
  csq_expires_at_unix_ms : option Z;
  csq_rotation_due_at_unix_ms : option Z }.
Record SecretPageQuery : Type := {
  spq_namespace_id : blob;
  spq_after : option blob;
  spq_limit : Z }.
Record UpdateSecretRequest : Type := {
  usr_expected_current_version : Z;
  usr_expected_revision : Z;
  usr_value_base64 : blob;
  usr_expires_at_unix_ms : option Z;
  usr_rotation_due_at_unix_ms : option Z }.
Record PageQuery : Type := {
  pq_after : option blob;
  pq_limit : Z }.
Record AddGrantRequest : Type := {
  agr_action : string;
  agr_resource_kind : string;
  agr_resource_id : blob;
  agr_include_descendants : bool }.

(** What serde_json makes of the values that are serialized on the way. *)
Class ApiJson {WA : WebAuthn} : Type := {
  namespace_to_vec : CreateNamespaceRequest -> option blob;
  secret_to_vec : CreateSecretRequest -> option blob;
  creation_to_value : CreationChallengeResponse -> option blob;
  request_to_value : RequestChallengeResponse -> option blob }.

Section Handlers.
Context {CR : Crypto} {PH : PasswordHashing} {WA : WebAuthn} {HT : HttpText} {AJ : ApiJson}
  (self : InitializedVault) (webauthn : Webauthn).

(** * Sessions *)

Definition api_live : Api Response := prog_ret (json_response 200 (StatusResponse "ok")).

Definition api_ready (instant : Z) (quick_check : result StorageError bool) : Api Response :=
  do! _ := (fun s => (Ok tt, bump CReadinessChecks s)) in
  do! ready := is_ready instant quick_check in
  if ready then prog_ret (json_response 200 (StatusResponse "ready"))
  else
    do! _ := (fun s => (Ok tt, bump CReadinessFailures s)) in
    do! request := random_request_id in
    prog_fail (unavailable request).

Definition api_password_login (peer : option IpAddr) (headers : HeaderMap) (password : rstring) : Api Response :=
  do! request := request_id headers in
  do! now := api_now in
  do! _ := limit_login (source_of peer) now request in
  do! slot := prog_read (fun s => Ok (sv_password_slot s)) in
  do! _ := prog_reject (negb slot) (rate_limited request) in
  do! issued := of_vault (fun _ => authentication request) (login_with_password self password request now) in
  prog_ret (session_response issued).

Definition api_session_status (headers : HeaderMap) : Api Response :=
  do! now := api_now in
  do! owner := authenticate_owner self headers false now in
  prog_ret (json_response 200 (SessionStatusResponse true (is_recent_at owner now))).

Definition api_logout (headers : HeaderMap) : Api Response :=
  do! now := api_now in
  do! request := request_id headers in
  do! _ := prog_reject (negb (bool_decide (header_text headers "x-smcv-session-lock" = Some (bstr "1"))))
             (authentication request) in
  do! owner := authenticate_owner self headers false now in
  do! _ := of_vault (fun _ => authentication request) (logout_browser_session self owner request now) in
  prog_ret (secured (with_header "set-cookie"
    (bstr "__Host-smcv_session=; Path=/; Secure; HttpOnly; SameSite=Strict; Max-Age=0") (status_only 204))).

Definition challenge_response (request : RequestId) (ceremony_id : CeremonyId) (expires : Z)
    (options : option blob) : Api Response :=
  do! options := prog_lift (ok_or (unavailable request) options) in
  prog_ret (json_response 200 (ChallengeResponse (uuid_text ceremony_id) expires options)).

Definition api_start_passkey_registration (headers : HeaderMap) : Api Response :=
  do! now := api_now in
  do! request := request_id headers in
  do! owner := authenticate_owner self headers true now in
  do! challenge := of_passkeys (fun _ => authentication request)
    (start_registration self webauthn owner request now) in
  challenge_response request (ch_ceremony_id challenge) (ch_expires_at_unix_ms challenge)
    (creation_to_value (ch_options challenge)).

Definition api_finish_passkey_registration (headers : HeaderMap) (ceremony_id : blob)
    (response : RegisterPublicKeyCredential) : Api Response :=
  do! now := api_now in
  do! request := request_id headers in
  do! owner := authenticate_owner self headers true now in
  do! ceremony := query_id request ceremony_id in
  do! id := of_passkeys (fun _ => authentication request)
    (finish_registration self webauthn owner ceremony response request now) in
  prog_ret (json_response 201 (IdResponse (uuid_text id))).

Definition api_start_passkey_authentication (peer : option IpAddr) (headers : HeaderMap) : Api Response :=
  do! request := request_id headers in
  do! now := api_now in
  do! _ := limit_passkey (source_of peer) now request in
  do! challenge := of_passkeys (fun _ => authentication request) (start_authentication self webauthn now) in
  challenge_response request (ch_ceremony_id challenge) (ch_expires_at_unix_ms challenge)
    (request_to_value (ch_options challenge)).

Definition api_finish_passkey_authentication (peer : option IpAddr) (headers : HeaderMap) (ceremony_id : blob)
    (response : PublicKeyCredential) : Api Response :=
  do! request := request_id headers in
  do! now := api_now in
  do! _ := limit_passkey (source_of peer) now request in
  do! ceremony := query_id request ceremony_id in
  do! issued := of_passkeys (fun _ => authentication request)
    (finish_authentication self webauthn ceremony response request now) in
  prog_ret (session_response issued).

(** * Namespaces *)

Definition api_list_namespaces (headers : HeaderMap) (query : NamespacePageQuery) : Api Response :=
  do! request := request_id headers in
  do! now := api_now in
  do! p := authenticate_principal self headers false now in
  do! av := as_principal self p request now in
  do! parent := optional_id request (npq_parent_namespace_id query) in
  do! after := optional_id request (npq_after query) in
  do! records := facade_call request (facade_list_namespaces self av parent after (npq_limit query)) in
  prog_ret (json_response 200 (NamespacePageResponse
    ((fun r => {| nle_id := uuid_text (nli_namespace_id r); nle_metadata := nli_metadata r;
                  nle_revision := nli_revision r |}) <$> records)
    (next_after records (npq_limit query) (fun r => uuid_text (nli_namespace_id r))))).

Definition api_create_namespace (headers : HeaderMap) (input : CreateNamespaceRequest) : Api Response :=
  do! request := request_id headers in
  do! now := api_now in
  do! p := authenticate_principal self headers true now in
  do! canonical := prog_lift (ok_or (invalid request) (namespace_to_vec input)) in
  do! idempotency := prog_lift (idempotency_input headers canonical request) in
  do! parent := optional_id request (cnr_parent_namespace_id input) in
  do! av := as_principal self p request now in
  do! id := facade_call request (create_namespace_idempotent self av parent (cnr_metadata input) idempotency) in
  prog_ret (json_response 201 (IdResponse (uuid_text id))).

Definition api_preview_namespace_move (headers : HeaderMap) (id : blob) (new_parent : option blob) : Api Response :=
  do! now := api_now in
  do! request := request_id headers in
  do! owner := authenticate_owner self headers true now in
  do! new_parent := optional_id request new_parent in
  do! namespace_id := path_id request id in
  do! delta := vault_call request (preview_namespace_move self owner namespace_id new_parent request now) in
  prog_ret (json_response 200 (DeltaResponse
    ((fun d => {| adr_service_principal_id := uuid_text (ead_principal_id d);
                  adr_action := action_as_str (ead_action d) |}) <$> delta))).

Definition confirmed_delta (item : blob * string) : option EffectiveAccessDelta :=
  principal_id ← parse_str item.1;
  action ← action_from_str item.2;
  Some {| ead_principal_id := principal_id; ead_action := action |}.

Definition api_move_namespace (headers : HeaderMap) (id : blob) (input : MoveNamespaceRequest) : Api Response :=
  do! now := api_now in
  do! request := request_id headers in
  do! owner := authenticate_owner self headers true now in
  do! new_parent := optional_id request (mnr_new_parent_namespace_id input) in
  do! confirmed := prog_lift (ok_or (invalid request) (mapM confirmed_delta (mnr_confirmed_delta input))) in
  do! namespace_id := path_id request id in
  do! revision := vault_call request (vault_move_namespace self owner namespace_id
    (mnr_expected_revision input) new_parent confirmed request now) in
  prog_ret (json_response 200 (RevisionResponse revision)).

(** * Secrets *)

Definition secret_entry (r : SecretListItem) : SecretListEntryResponse :=
  {| sle_id := uuid_text (sli_secret_id r); sle_metadata := sli_metadata r;
     sle_current_version := sli_current_version r; sle_revision := sli_revision r;
     sle_lifecycle_state := sli_lifecycle_state r; sle_deleted_at_unix_ms := sli_deleted_at_unix_ms r |}.
Definition secret_page (records : list SecretListItem) (limit : Z) : Response :=
  json_response 200 (SecretPageResponse (secret_entry <$> records)
    (next_after records limit (fun r => uuid_text (sli_secret_id r)))).

Definition api_list_secrets (headers : HeaderMap) (query : SecretPageQuery) : Api Response :=
  do! request := request_id headers in
  do! now := api_now in
  do! p := authenticate_principal self headers false now in
  do! av := as_principal self p request now in
  do! namespace_id := query_id request (spq_namespace_id query) in
  do! after := optional_id request (spq_after query) in
  do! records := facade_call request (facade_list_secrets self av namespace_id after (spq_limit query)) in
  prog_ret (secret_page records (spq_limit query)).

Definition api_list_secret_lifecycle (headers : HeaderMap) (query : SecretPageQuery) (lifecycle_state : string)
  : Api Response :=
  do! request := request_id headers in
  do! now := api_now in
  do! p := authenticate_principal self headers false now in
  do! av := as_principal self p request now in
  do! namespace_id := query_id request (spq_namespace_id query) in
  do! after := optional_id request (spq_after query) in
  do! records := facade_call request
    (facade_list_secrets_in_lifecycle self av namespace_id lifecycle_state after (spq_limit query)) in
  prog_ret (secret_page records (spq_limit query)).

Definition api_create_secret (headers : HeaderMap) (input : CreateSecretRequest) : Api Response :=
  do! request := request_id headers in
  do! now := api_now in
  do! p := authenticate_principal self headers true now in
  do! canonical := prog_lift (ok_or (invalid request) (secret_to_vec input)) in
  do! idempotency := prog_lift (idempotency_input headers canonical request) in
  do! namespace_id := query_id request (csq_namespace_id input) in
  do! value := prog_lift (ok_or (invalid request) (std_decode (csq_value_base64 input))) in
  do! av := as_principal self p request now in
  do! created := facade_call request (create_secret_idempotent self av namespace_id (csq_metadata input) value
    {| expires_at_unix_ms := csq_expires_at_unix_ms input;
       rotation_due_at_unix_ms := csq_rotation_due_at_unix_ms input |} idempotency) in
  prog_ret (json_response 201 (SecretCreatedResponse (uuid_text (scr_secret_id created)) (scr_version created)
    (scr_revision created))).

Definition api_update_secret (headers : HeaderMap) (id : blob) (input : UpdateSecretRequest) : Api Response :=
  do! now := api_now in
  do! request := request_id headers in
  do! p := authenticate_principal self headers true now in
  do! value := prog_lift (ok_or (invalid request) (std_decode (usr_value_base64 input))) in
  do! av := as_principal self p request now in
  do! secret_id := path_id request id in
  do! version := facade_call request (facade_update_secret self av secret_id
    (usr_expected_current_version input) (usr_expected_revision input) value
    {| expires_at_unix_ms := usr_expires_at_unix_ms input;
       rotation_due_at_unix_ms := usr_rotation_due_at_unix_ms input |}) in
  prog_ret (json_response 200 (VersionResponse version)).

(** [archive_secret], [restore_secret] and [delete_secret], which differ in the
    operation of the facade *)
Definition secret_transition (operation : AuthorizedVault -> SecretId -> Z -> Facade Z) (headers : HeaderMap)
    (id : blob) (expected_revision : Z) : Api Response :=
  do! now := api_now in
  do! request := request_id headers in
  do! p := authenticate_principal self headers true now in
  do! av := as_principal self p request now in
  do! secret_id := path_id request id in
  do! revision := facade_call request (operation av secret_id expected_revision) in
  prog_ret (json_response 200 (RevisionResponse revision)).
Definition api_archive_secret : HeaderMap -> blob -> Z -> Api Response :=
  secret_transition (fun av => facade_archive_secret self av).
Definition api_restore_secret : HeaderMap -> blob -> Z -> Api Response :=
  secret_transition (fun av => facade_restore_archived_secret self av).
Definition api_delete_secret : HeaderMap -> blob -> Z -> Api Response :=
  secret_transition (fun av => facade_delete_secret self av).

Definition api_purge_secret (headers : HeaderMap) (id : blob) (expected_revision retention_cutoff : Z)
  : Api Response :=
  do! now := api_now in
  do! request := request_id headers in
  do! p := authenticate_principal self headers true now in
  do! av := as_principal self p request now in
  do! secret_id := path_id request id in
  do! _ := facade_call request (facade_purge_secret self av secret_id expected_revision retention_cutoff) in
  prog_ret (status_only 204).

Definition api_read_secret_metadata (headers : HeaderMap) (id : blob) : Api Response :=
  do! request := request_id headers in
  do! now := api_now in
  do! p := authenticate_principal self headers false now in
  do! av := as_principal self p request now in
  do! secret_id := path_id request id in
  do! metadata := facade_call request (facade_read_secret_metadata self av secret_id) in
  prog_ret (json_response 200 (MetadataResponse metadata)).

Definition api_reveal_secret (headers : HeaderMap) (id : blob) : Api Response :=
  do! request := request_id headers in
  do! now := api_now in
  do! p := authenticate_principal self headers false now in
  do! av := as_principal self p request now in
  do! secret_id := path_id request id in
  do! value := facade_call request (facade_reveal_current_secret self av secret_id) in
  prog_ret (secured (json_response 200 (SecretValueResponse (std_encode value)))).

Definition api_secret_versions (headers : HeaderMap) (id : blob) (after limit : Z) : Api Response :=
  do! request := request_id headers in
  do! now := api_now in
  do! p := authenticate_principal self headers false now in
  do! av := as_principal self p request now in
  do! secret_id := path_id request id in
  do! records := facade_call request (facade_secret_version_history self av secret_id after limit) in
  prog_ret (json_response 200 (SecretVersionPageResponse
    ((fun r => {| svm_version := svr_version r;
                  svm_expires_at_unix_ms := expires_at_unix_ms (svr_schedule r);
                  svm_rotation_due_at_unix_ms := rotation_due_at_unix_ms (svr_schedule r);
                  svm_created_by_principal_id := uuid_text <$> svr_created_by_principal_id r;
                  svm_created_at_unix_ms := svr_created_at_unix_ms r |}) <$> records)
    (next_after records limit svr_version))).

Definition api_reveal_secret_version (headers : HeaderMap) (id : blob) (version : Z) : Api Response :=
  do! request := request_id headers in
  do! now := api_now in
  do! p := authenticate_principal self headers false now in
  do! av := as_principal self p request now in
  do! secret_id := path_id request id in
  do! value := facade_call request (facade_reveal_secret_version self av secret_id version) in
  prog_ret (json_response 200 (SecretValueResponse (std_encode value))).

(** * Applications *)

Definition api_list_service_identities (headers : HeaderMap) (query : PageQuery) : Api Response :=
  do! now := api_now in
  do! request := request_id headers in
  do! owner := authenticate_owner self headers false now in
  do! after := optional_id request (pq_after query) in
  do! records := vault_call request (service_identities self owner after (pq_limit query) request now) in
  prog_ret (json_response 200 (ServiceIdentityPageResponse
    ((fun r => {| sie_id := uuid_text (sis_principal_id r); sie_label := sm_label (sis_metadata r);
                  sie_description := sm_description (sis_metadata r); sie_state := sis_state r;
                  sie_revision := sis_revision r |}) <$> records)
    (next_after records (pq_limit query) (fun r => uuid_text (sis_principal_id r))))).

Definition api_create_service_identity (headers : HeaderMap) (label : rstring) (description : option rstring)
  : Api Response :=
  do! now := api_now in
  do! request := request_id headers in
  do! owner := authenticate_owner self headers true now in
  do! id := vault_call request (vault_create_service_identity self owner
    {| sm_label := label; sm_description := description |} request now) in
  prog_ret (json_response 201 (IdResponse (uuid_text id))).

Definition api_read_service_identity (headers : HeaderMap) (id : blob) : Api Response :=
  do! now := api_now in
  do! request := request_id headers in
  do! owner := authenticate_owner self headers false now in
  do! principal_id := path_id request id in
  do! metadata := vault_call request (read_service_identity_metadata self owner principal_id request now) in
  prog_ret (json_response 200 (ServiceIdentityResponse id (sm_label metadata) (sm_description metadata))).

(** The two resource kinds of a request *)
Definition request_kind (request : RequestId) (kind : string) : Api ResourceKind :=
  if String.eqb kind "namespace" then prog_ret KNamespace
  else if String.eqb kind "secret" then prog_ret KSecret
  else prog_fail (invalid request).

Definition api_effective_access (headers : HeaderMap) (id : blob) (resource_kind : string) (resource_id : blob)
  : Api Response :=
  do! now := api_now in
  do! request := request_id headers in
  do! owner := authenticate_owner self headers false now in
  do! service := path_id request id in
  do! kind := request_kind request resource_kind in
  do! object := path_id request resource_id in
  do! actions := vault_call request (effective_service_actions self owner service kind object request now) in
  prog_ret (json_response 200 (EffectiveAccessResponse id resource_kind resource_id (action_as_str <$> actions))).

Definition api_list_credentials (headers : HeaderMap) (id : blob) (query : PageQuery) : Api Response :=
  do! now := api_now in
  do! request := request_id headers in
  do! owner := authenticate_owner self headers false now in
  do! service := path_id request id in
  do! after := optional_id request (pq_after query) in
  do! records := vault_call request
    (application_credentials self owner service after (pq_limit query) request now) in
  prog_ret (json_response 200 (CredentialPageResponse
    ((fun r => {| csr_id := uuid_text (acs_credential_id r); csr_created_at_unix_ms := acs_created_at_unix_ms r;
                  csr_expires_at_unix_ms := acs_expires_at_unix_ms r;
                  csr_last_used_at_unix_ms := acs_last_used_at_unix_ms r;
                  csr_revoked_at_unix_ms := acs_revoked_at_unix_ms r; csr_revision := acs_revision r |}) <$> records)
    (next_after records (pq_limit query) (fun r => uuid_text (acs_credential_id r))))).

Definition api_issue_credential (headers : HeaderMap) (id : blob) (expires_at : option Z) : Api Response :=
  do! now := api_now in
  do! request := request_id headers in
  do! owner := authenticate_owner self headers true now in
  do! service := path_id request id in
  do! issued := vault_call request (issue_application_credential self owner service expires_at request now) in
  prog_ret (json_response 201 (IssuedCredentialResponse (uuid_text (iac_credential_id issued))
    (iac_plaintext issued) (iac_expires_at_unix_ms issued))).

Definition api_revoke_credential (headers : HeaderMap) (service_id credential_id : blob) (expected_revision : Z)
  : Api Response :=
  do! now := api_now in
  do! request := request_id headers in
  do! owner := authenticate_owner self headers true now in
  do! service := path_id request service_id in
  do! credential := path_id request credential_id in
  do! revision := vault_call request
    (vault_revoke_application_credential self owner service credential expected_revision request now) in
  prog_ret (json_response 200 (RevisionResponse revision)).

(** * Policies *)

Definition policy_response (id : blob) (d : PolicyDetails) : PolicyResponse :=
  {| plr_id := id; plr_label := pd_label d; plr_state := pd_state d; plr_revision := pd_revision d |}.

Definition api_list_policies (headers : HeaderMap) (query : PageQuery) : Api Response :=
  do! now := api_now in
  do! request := request_id headers in
  do! owner := authenticate_owner self headers false now in
  do! after := optional_id request (pq_after query) in
  do! records := vault_call request (policies self owner after (pq_limit query) request now) in
  prog_ret (json_response 200 (PolicyPageResponse
    ((fun r => policy_response (uuid_text (pd_policy_id r)) r) <$> records)
    (next_after records (pq_limit query) (fun r => uuid_text (pd_policy_id r))))).

Definition api_create_policy (headers : HeaderMap) (label : rstring) : Api Response :=
  do! now := api_now in
  do! request := request_id headers in
  do! owner := authenticate_owner self headers true now in
  do! id := vault_call request (vault_create_policy self owner label request now) in
  prog_ret (json_response 201 (IdResponse (uuid_text id))).

Definition api_policy_rules (headers : HeaderMap) (id : blob) : Api Response :=
  do! now := api_now in
  do! request := request_id headers in
  do! owner := authenticate_owner self headers false now in
  do! policy_id := path_id request id in
  do! rules := vault_call request (policy_rules self owner policy_id request now) in
  prog_ret (json_response 200 (PolicyRulesResponse (prs_authorization_revision rules)
    ((fun g => {| pgr_id := uuid_text (gsm_grant_id g); pgr_action := action_as_str (gsm_action g);
                  pgr_resource_kind := resource_kind_as_str (gsm_resource_kind g);
                  pgr_resource_id := uuid_text (gsm_resource_id g);
                  pgr_include_descendants := gsm_include_descendants g |}) <$> prs_grants rules)
    (uuid_text <$> prs_bindings rules))).

Definition api_read_policy (headers : HeaderMap) (id : blob) : Api Response :=
  do! now := api_now in
  do! request := request_id headers in
  do! owner := authenticate_owner self headers false now in
  do! policy_id := path_id request id in
  do! details := vault_call request (read_policy self owner policy_id request now) in
  prog_ret (json_response 200 (PolicyBody (policy_response id details))).

Definition api_archive_policy (headers : HeaderMap) (id : blob) (expected_revision : Z) : Api Response :=
  do! now := api_now in
  do! request := request_id headers in
  do! owner := authenticate_owner self headers true now in
  do! policy_id := path_id request id in
  do! revision := vault_call request (vault_archive_policy self owner policy_id expected_revision request now) in
  prog_ret (json_response 200 (RevisionResponse revision)).

Definition api_add_grant (headers : HeaderMap) (id : blob) (input : AddGrantRequest) : Api Response :=
  do! now := api_now in
  do! request := request_id headers in
  do! owner := authenticate_owner self headers true now in
  do! kind := request_kind request (agr_resource_kind input) in
  do! policy_id := path_id request id in
  do! action := prog_lift (ok_or (invalid request) (action_from_str (agr_action input))) in
  do! resource_id := path_id request (agr_resource_id input) in
  do! grant := vault_call request (vault_add_policy_grant self owner
    {| gs_policy_id := policy_id; gs_action := action; gs_resource_kind := kind; gs_resource_id := resource_id;
       gs_include_descendants := agr_include_descendants input |} request now) in
  prog_ret (json_response 201 (IdResponse (uuid_text grant))).

Definition api_bind_policy (headers : HeaderMap) (id service_principal_id : blob) : Api Response :=
  do! now := api_now in
  do! request := request_id headers in
  do! owner := authenticate_owner self headers true now in
  do! service := path_id request service_principal_id in
  do! policy_id := path_id request id in
  do! _ := vault_call request (bind_policy_to_service self owner service policy_id request now) in
  prog_ret (status_only 204).

(** * Audit *)

(** [headers.get(name).and_then(to_str).map(str::parse).transpose()?.unwrap_or(default)] *)
Definition header_number (headers : HeaderMap) (name : string) (max unset : Z) (request : RequestId) : Api Z :=
  match header_text headers name with
  | None => prog_ret unset
  | Some value => prog_lift (ok_or (invalid request) (parse_uint max value))
  end.

Definition audit_event_response (r : AuditRecord) : AuditEventResponse :=
  {| aer_sequence := ar_sequence r; aer_event_id := uuid_text (ar_event_id r);
     aer_occurred_at_unix_ms := ar_occurred_at_unix_ms r; aer_request_id := uuid_text (ar_request_id r);
     aer_actor_principal_id := uuid_text <$> ar_actor_principal_id r;
     aer_credential_kind := ar_credential_kind r; aer_credential_id := uuid_text <$> ar_credential_id r;
     aer_action := ar_action r; aer_target_kind := ar_target_kind r;
     aer_target_id := uuid_text <$> ar_target_id r; aer_outcome := ar_outcome r |}.

Definition api_audit_events (headers : HeaderMap) : Api Response :=
  do! now := api_now in
  do! request := request_id headers in
  do! owner := authenticate_owner self headers false now in
  do! after := header_number headers "x-smcv-after-sequence" u64_max 0 request in
  do! limit := header_number headers "x-smcv-page-size" u16_max 100 request in
  do! av := as_principal self (RequestOwner owner) request now in
  do! records := facade_call request (audit_events self av after limit) in
  prog_ret (json_response 200 (AuditPageResponse (audit_event_response <$> records)
    (next_after records limit ar_sequence))).

(** [not_found], the fallback *)
Definition api_not_found (headers : HeaderMap) : Api Response :=
  do! request := request_id headers in
  prog_fail (not_found request).
End Handlers.
