(* ===== verification/BackupApi.v ===== *)
(** The handlers of src/crates/smcv-server/src/backup_jobs.rs: admitting a backup
    job and running it, its status, download and deletion, and the verification
    of an uploaded archive with a restore drill.

    The closure of a job is the program [backup_worker], which starts where the
    handler has answered; it writes the archive with [create_backup_file] of
    Backup.v into the directory of the registry. *)
From Stdlib Require Import ZArith Lia Strings.Byte String.
From stdpp Require Import base tactics numbers option strings list gmap.
From S2P Require Import Prelude RustStd Core Crypto Format Schema Records VaultStore Store Metadata VaultCore Initialization Authentication Authorization ServiceIdentity AuthorizedVault Archive Portable Logical Backup Passkeys Http BackupJobs Server.

Definition MAX_VERIFICATION_ARCHIVE_BYTES : Z := 8 * 1024 * 1024 * 1024.
Definition MAX_KEY_FIELD_BYTES : Z := 4 * 1024.

Record CreateBackupRequest : Type := {
  cbr_key_mode : string;
  cbr_passphrase : option rstring }.

(** [status_response] *)
Definition status_response (job : BackupJobRecord) : BackupStatusResponse :=
  {| bsr_job_id := bj_job_id job; bsr_state := bj_state job; bsr_created_at_unix_ms := bj_created_at_unix_ms job;
     bsr_updated_at_unix_ms := bj_updated_at_unix_ms job; bsr_expires_at_unix_ms := bj_expires_at_unix_ms job;
     bsr_archive_id := bj_archive_id job; bsr_format_version := bj_format_version job;
     bsr_logical_vault_id := bj_logical_vault_id job; bsr_source_recovery_epoch := bj_source_recovery_epoch job;
     bsr_archive_bytes := bj_archive_bytes job; bsr_artifact_sha256 := bj_artifact_sha256 job;
     bsr_record_count := bj_record_count job; bsr_download_started := bj_download_started job;
     bsr_error_code := bj_error_code job |}.

(** What surrounds a worker: the file system of its archive, as for
    [Publishing], and whether the process stops before the status is written. *)
Record WorkerEnv : Type := {
  we_outcomes : list bool;
  we_room : option nat;
  we_flushes : bool;
  we_reads : list read_event;
  we_removable : bool;
  we_stops : bool }.

(** A part of a multipart body: its name and its chunks, of which one can fail. *)
Record Field : Type := {
  fd_name : option blob;
  fd_chunks : list (option blob) }.

(** What surrounds a verification: how reads of the archive are cut, and the
    restore in the drill directory. *)
Record VerifyEnv : Type := {
  ve_script : nat -> list read_event;
  ve_restore : RestoreEnv;
  ve_database_at : location;
  ve_root_at : location }.

Section BackupHandlers.
Context {CR : Crypto} {PH : PasswordHashing} {LJ : LogicalJson} {AF : ArchiveFormats} {WA : WebAuthn}
  {HT : HttpText} {JJ : JobJson} (self : InitializedVault) (process : Process).

(** [authorize_inspect] *)
Definition authorize_inspect (headers : HeaderMap) (request : RequestId) : Api unit :=
  do! now := api_now in
  do! owner := authenticate_owner self headers false now in
  do! av := as_principal self (RequestOwner owner) request now in
  facade_call request (authorize_backup_inspect self av).

Definition registry_call {A} (request : RequestId) (m : Jobs A) : Api A := of_jobs (fun _ => unavailable request) m.

Definition api_list_backups (headers : HeaderMap) : Api Response :=
  do! request := request_id headers in
  do! _ := authorize_inspect headers request in
  do! now := api_now in
  do! _ := registry_call request (cleanup_expired now) in
  do! jobs := registry_call request list_jobs in
  prog_ret (json_response 200 (BackupPageResponse (status_response <$> jobs))).

(** The key of the archive, and the text of a generated one *)
Definition backup_key (input : CreateBackupRequest) (request : RequestId) : Api (ArchiveKey * option blob) :=
  if String.eqb (cbr_key_mode input) "generated_recovery" && negb (bool_decide (is_Some (cbr_passphrase input))) then
    fun s =>
      let (r, n) := recovery_generate (w_draws (sv_world s)) in
      (let? key := map_err (fun _ => unavailable request) r in
       Ok (Recovery key, Some (recovery_expose_once key)), set_sv_world (set_w_draws n (sv_world s)) s)
  else if String.eqb (cbr_key_mode input) "passphrase" then
    do! passphrase := prog_lift (ok_or (invalid request) (cbr_passphrase input)) in
    do! _ := prog_reject (rs_len passphrase <? 16) (invalid request) in
    prog_ret (Passphrase (rs_bytes passphrase), None)
  else prog_fail (invalid request).

(** [archive_slots.try_acquire_owned()] *)
Definition acquire_slot (request : RequestId) : Api unit := fun s =>
  if sv_archive_slot s then (Ok tt, set_sv_archive_slot false s) else (Err (rate_limited request), s).
(** The permit is dropped where the code that holds it ends. *)
Definition holding_slot {A} (m : Api A) : Api A := fun s =>
  let (r, s') := m s in (r, set_sv_archive_slot true s').

Definition set_running (record : BackupJobRecord) : Jobs BackupJobRecord := prog_ret (set_bj_state JRunning record).

(** [create_backup], up to the spawned closure; without one the slot is free
    again. *)
Definition admit_job (now : Z) (request : RequestId) : Api BackupJobRecord := fun s =>
  match (do! job := registry_call request (create_job process now) in
         do! _ := registry_call request (update_job process (bj_job_id job) set_running) in
         prog_ret job) s with
  | (Ok job, s') => (Ok job, s')
  | (Err e, s') => (Err e, set_sv_archive_slot true s')
  end.
Definition api_create_backup (headers : HeaderMap) (input : CreateBackupRequest) : Api Response :=
  do! now := api_now in
  do! request := request_id headers in
  do! owner := authenticate_owner self headers true now in
  do! av := as_principal self (RequestOwner owner) request now in
  do! _ := facade_call request (authorize_backup_create self av) in
  do! (key, recovery_key) := backup_key input request in
  do! installation := of_vault (fun _ => unavailable request) (call_raw (prog_read installation) (fun r => r)) in
  do! installation := prog_lift (ok_or (unavailable request) installation) in
  do! _ := acquire_slot request in
  do! job := admit_job now request in
  fun s =>
    (Ok (json_response 202 (CreateBackupResponse (bj_job_id job) recovery_key (bj_expires_at_unix_ms job))),
     set_sv_worker (Some {| bw_job_id := bj_job_id job; bw_key := key; bw_logical_vault_id := iv_vault_id self;
                            bw_source_recovery_epoch := ir_recovery_epoch installation |}) s).

(** * The closure of a job *)

Definition partial_path (id : Uuid) : blob := bstr ".smcvault-" ++ uuid_text id ++ bstr ".partial".

(** The directory of the artifact, as [prepare_parent] finds it *)
Definition artifact_location (g : Registry) : location :=
  {| loc_path := ""; loc_parent := Some ""%string;
     loc_dir := (fun n => {| dir_is_dir := bool_decide (nd_kind n = DirectoryNode);
                             dir_is_symlink := bool_decide (nd_kind n = LinkNode);
                             dir_mode := nd_mode n |}) <$> rg_directory g;
     loc_canonical := Some ""%string; loc_creatable := true |}.

Definition publishing_of (env : WorkerEnv) (id : Uuid) (s : Server) : Publishing :=
  {| pu_world := sv_world s; pu_destination := nd_bytes <$> rg_files (sv_jobs s) !! artifact_path id;
     pu_temporary := None; pu_outcomes := we_outcomes env; pu_room := we_room env;
     pu_flushes := we_flushes env; pu_reads := we_reads env; pu_removable := we_removable env |}.

Definition archive_node (bytes : blob) : Node :=
  {| nd_kind := RegularNode; nd_mode := FILE_BITS; nd_uid := pr_uid process; nd_bytes := bytes |}.
(** The files after a creation at [name] whose temporary file was named by [temporary] *)
Definition placed_files (name : blob) (temporary : Uuid) (p : Publishing) (files : gmap blob Node) : gmap blob Node :=
  let files := match pu_destination p with
               | Some bytes => match files !! name with
                               | Some _ => files
                               | None => <[name := archive_node bytes]> files
                               end
               | None => delete name files
               end in
  match pu_temporary p with
  | Some bytes => <[partial_path temporary := archive_node bytes]> files
  | None => files
  end.
Definition published_files (id temporary : Uuid) (p : Publishing) (files : gmap blob Node) : gmap blob Node :=
  placed_files (artifact_path id) temporary p files.

(** [vault.create_backup_file(&artifact, key.borrowed(), now)] *)
Definition create_artifact (env : WorkerEnv) (id : Uuid) (key : ArchiveKey) (now : Z)
  : Prog Server IoError (result BackupError BackupFileReport) := fun s =>
  let path := {| bp_path := String.string_of_list_byte (artifact_path id); bp_extension := Some "smcvault"%string;
                 bp_at := artifact_location (sv_jobs s) |} in
  let temporary := new_v4 (w_draws (sv_world s)) in
  let (r, p) := create_backup_file self path key now (publishing_of env id s) in
  (Ok r, set_sv_jobs (set_rg_running (rg_running (sv_jobs s) && negb (we_stops env))
           (set_rg_files (published_files id temporary p (rg_files (sv_jobs s))) (sv_jobs s)))
         (set_sv_world (pu_world p) s)).

Definition set_archive (w : BackupWorker) (report : BackupFileReport) (sha256 : blob) (r : BackupJobRecord)
  : BackupJobRecord :=
  {| bj_job_id := bj_job_id r; bj_state := bj_state r; bj_created_at_unix_ms := bj_created_at_unix_ms r;
     bj_updated_at_unix_ms := bj_updated_at_unix_ms r; bj_expires_at_unix_ms := bj_expires_at_unix_ms r;
     bj_archive_id := Some (bf_archive_id report); bj_format_version := Some FORMAT_VERSION;
     bj_logical_vault_id := Some (bw_logical_vault_id w);
     bj_source_recovery_epoch := Some (bw_source_recovery_epoch w);
     bj_archive_bytes := Some (bf_archive_bytes report); bj_artifact_sha256 := Some sha256;
     bj_record_count := Some (bf_record_count report); bj_download_started := bj_download_started r;
     bj_error_code := bj_error_code r |}.
Definition mark_completed (w : BackupWorker) (report : BackupFileReport) (sha256 : blob) (r : BackupJobRecord)
  : Jobs BackupJobRecord :=
  do! r := end_expiry (set_bj_state JCompleted r) in
  prog_ret (set_archive w report sha256 r).

Definition worker_jobs {A} (m : Jobs A) : Prog Server IoError A := of_jobs (fun e => e) m.
(** [let _cleanup = remove_if_exists(&artifact); let _failed = jobs.update(..)] *)
Definition abandon_job (id : Uuid) (code : string) : Prog Server IoError unit :=
  do! _ := prog_try (F:=IoError) (worker_jobs (remove_if_exists (artifact_path id))) in
  do! _ := prog_try (F:=IoError) (worker_jobs (update_job process id (mark_failed code))) in
  prog_ret tt.

(** The report and digest of a good archive *)
Definition archive_result (env : WorkerEnv) (w : BackupWorker)
  : Prog Server IoError (option (BackupFileReport * blob)) :=
  do! now := worker_jobs clock_now in
  do! created := create_artifact env (bw_job_id w) (bw_key w) now in
  match created with
  | Err _ => prog_ret None
  | Ok report =>
      do! opened := prog_try (F:=IoError) (worker_jobs (open_and_digest_artifact process
        (artifact_path (bw_job_id w)) (bf_archive_bytes report) None)) in
      prog_ret match opened with Ok (_, sha256) => Some (report, sha256) | Err _ => None end
  end.

(** The closure of [spawn_blocking] *)
Definition backup_worker (env : WorkerEnv) (w : BackupWorker) : Prog Server IoError unit :=
  do! archive := archive_result env w in
  match archive with
  | Some (report, sha256) =>
      do! completed := prog_try (F:=IoError) (worker_jobs
        (update_job process (bw_job_id w) (mark_completed w report sha256))) in
      match completed with
      | Ok _ => prog_ret tt
      | Err _ => abandon_job (bw_job_id w) "status_persistence_failed"
      end
  | None => abandon_job (bw_job_id w) "backup_failed"
  end.
Definition run_worker (env : WorkerEnv) (s : Server) : Server :=
  match sv_worker s with
  | None => s
  | Some w => set_sv_worker None (set_sv_archive_slot true (snd (backup_worker env w s)))
  end.

(** * Status, download, deletion *)

(** [parse_job_id] is [path_id]. [get(job_id).filter(|job| job.expires > now)]
    reads the clock where there is a job. *)
Definition unexpired_job (id : Uuid) (request : RequestId) : Api BackupJobRecord :=
  do! found := registry_call request (get_job id) in
  do! job := prog_lift (ok_or (not_found request) found) in
  do! now := api_now in
  do! _ := prog_reject (bj_expires_at_unix_ms job <=? now) (not_found request) in
  prog_ret job.

Definition api_backup_status (headers : HeaderMap) (id : blob) : Api Response :=
  do! request := request_id headers in
  do! _ := authorize_inspect headers request in
  do! now := api_now in
  do! _ := registry_call request (cleanup_expired now) in
  do! job_id := path_id request id in
  do! job := unexpired_job job_id request in
  prog_ret (json_response 200 (BackupBody (status_response job))).

(** The response of a download *)
Definition download_response (job_id : Uuid) (expected_bytes : Z) (bytes : blob) : Response :=
  secured (with_header "content-disposition" (bstr "attachment; filename=" ++ [x22] ++ artifact_path job_id ++ [x22])
    (with_header "content-length" (dec expected_bytes)
    (with_header "content-type" (bstr "application/octet-stream")
      {| rs_status := 200; rs_headers := []; rs_body := FileBody bytes |}))).

Definition set_download_started (record : BackupJobRecord) : Jobs BackupJobRecord :=
  prog_ret (set_bj_download_started record).

Definition api_download_backup (headers : HeaderMap) (id : blob) : Api Response :=
  do! request := request_id headers in
  do! _ := authorize_inspect headers request in
  do! now := api_now in
  do! _ := registry_call request (cleanup_expired now) in
  do! job_id := path_id request id in
  do! job := unexpired_job job_id request in
  do! _ := prog_reject (negb (bool_decide (bj_state job = JCompleted))) (not_found request) in
  do! expected_bytes := prog_lift (ok_or (unavailable request) (bj_archive_bytes job)) in
  do! expected_sha256 := prog_lift (ok_or (unavailable request) (bj_artifact_sha256 job)) in
  do! _ := acquire_slot request in
  do! opened := holding_slot (prog_try (registry_call request
    (open_and_digest_artifact process (artifact_path job_id) expected_bytes (Some expected_sha256)))) in
  match opened with
  | Err _ =>
      do! _ := registry_call request (update_job process job_id (mark_failed "artifact_integrity_failed")) in
      do! _ := registry_call request (remove_if_exists (artifact_path job_id)) in
      prog_fail (unavailable request)
  | Ok (bytes, _) =>
      do! _ := registry_call request (update_job process job_id set_download_started) in
      prog_ret (download_response job_id expected_bytes bytes)
  end.

Definition api_delete_backup (headers : HeaderMap) (id : blob) : Api Response :=
  do! request := request_id headers in
  do! _ := authorize_inspect headers request in
  do! job_id := path_id request id in
  do! found := registry_call request (get_job job_id) in
  do! job := prog_lift (ok_or (not_found request) found) in
  do! _ := prog_reject (negb (terminal job)) (invalid request) in
  do! _ := registry_call request (remove_job job_id) in
  prog_ret (status_only 204).

(** * Verification of an upload *)

Definition verify_path (id : Uuid) : blob := bstr ".verify-" ++ uuid_text id ++ bstr ".smcvault".
Definition drill_path (id : Uuid) : blob := bstr ".restore-drill-" ++ uuid_text id.

Abbreviation Upload A := (Prog Registry ApiError A).

(** The loop over the chunks of a key field *)
Fixpoint key_chunks (request : RequestId) (value : blob) (chunks : list (option blob)) : result ApiError blob :=
  match chunks with
  | [] => Ok value
  | None :: _ => Err (invalid request)
  | Some chunk :: chunks =>
      if MAX_KEY_FIELD_BYTES <? Z.min u64_max (zlen value + zlen chunk) then Err (invalid request)
      else key_chunks request (value ++ chunk) chunks
  end.

(** The loop over the chunks of the archive *)
Fixpoint archive_chunks (request : RequestId) (name : blob) (total : Z) (chunks : list (option blob)) : Upload Z :=
  match chunks with
  | [] => prog_ret total
  | None :: _ => prog_fail (invalid request)
  | Some chunk :: chunks =>
      do! total := prog_lift (ok_or (invalid request) (checked_add u64_max total (zlen chunk))) in
      do! _ := prog_reject (MAX_VERIFICATION_ARCHIVE_BYTES <? total) (invalid request) in
      do! _ := prog_map_err (fun _ => unavailable request) (write_all name chunk) in
      archive_chunks request name total chunks
  end.

Record Received : Type := {
  rv_key_mode : option rstring;
  rv_key : option rstring;
  rv_archive_bytes : option Z }.

(** One turn of [receive_verification_upload]; [protected_utf8] is
    [String::from_utf8] with the rejected bytes wiped *)
Definition receive_field (request : RequestId) (name : blob) (got : Received) (f : Field) : Upload Received :=
  let field := default [] (fd_name f) in
  if blob_eqb field (bstr "key_mode") || blob_eqb field (bstr "key") then
    do! value := prog_lift (key_chunks request [] (fd_chunks f)) in
    do! text := prog_lift (ok_or (invalid request) (string_from_utf8 value)) in
    if blob_eqb field (bstr "key_mode") then
      do! _ := prog_reject (bool_decide (is_Some (rv_key_mode got))) (invalid request) in
      prog_ret {| rv_key_mode := Some text; rv_key := rv_key got; rv_archive_bytes := rv_archive_bytes got |}
    else
      do! _ := prog_reject (bool_decide (is_Some (rv_key got))) (invalid request) in
      prog_ret {| rv_key_mode := rv_key_mode got; rv_key := Some text; rv_archive_bytes := rv_archive_bytes got |}
  else if blob_eqb field (bstr "archive") then
    do! _ := prog_reject (bool_decide (is_Some (rv_archive_bytes got))) (invalid request) in
    do! _ := prog_map_err (fun _ => unavailable request) (create_new process name) in
    do! total := archive_chunks request name 0 (fd_chunks f) in
    do! _ := prog_map_err (fun _ => unavailable request) fs_silent (* sync_all *) in
    prog_ret {| rv_key_mode := rv_key_mode got; rv_key := rv_key got; rv_archive_bytes := Some total |}
  else prog_fail (invalid request).

Fixpoint receive_fields (request : RequestId) (name : blob) (got : Received) (fields : list (option Field))
  : Upload Received :=
  match fields with
  | [] => prog_ret got
  | None :: _ => prog_fail (invalid request)
  | Some f :: fields =>
      do! got := receive_field request name got f in
      receive_fields request name got fields
  end.

(** [receive_verification_upload] *)
Definition receive_verification_upload (request : RequestId) (name : blob) (fields : list (option Field))
  : Upload (rstring * rstring * Z) :=
  do! got := receive_fields request name {| rv_key_mode := None; rv_key := None; rv_archive_bytes := None |} fields in
  match rv_key_mode got, rv_key got, rv_archive_bytes got with
  | Some mode, Some key, Some bytes => if 0 <? bytes then prog_ret (mode, key, bytes) else prog_fail (invalid request)
  | _, _, _ => prog_fail (invalid request)
  end.

(** A file of the directory as a source *)
Definition stored_source (script : list read_event) (name : blob) (g : Registry) : SourceFile :=
  match rg_files g !! name with
  | Some n => {| so_opens := negb (bool_decide (nd_kind n = LinkNode));
                 so_is_file := bool_decide (nd_kind n = RegularNode);
                 so_bytes := nd_bytes n; so_script := script |}
  | None => {| so_opens := false; so_is_file := false; so_bytes := []; so_script := [] |}
  end.
(** The uploaded file *)
Definition uploaded_source (env : VerifyEnv) (use : nat) (name : blob) (g : Registry) : SourceFile :=
  stored_source (ve_script env use) name g.

(** The key that the mode of the archive and the supplied one name *)
Definition supplied_archive_key (mode : KeyMode) (supplied_mode supplied_key : rstring) : result unit ArchiveKey :=
  match mode with
  | PassphraseArgon2id =>
      if blob_eqb (rs_bytes supplied_mode) (bstr "passphrase") then Ok (Passphrase (rs_bytes supplied_key)) else Err tt
  | ModeRecoveryKey =>
      if blob_eqb (rs_bytes supplied_mode) (bstr "generated_recovery")
         || blob_eqb (rs_bytes supplied_mode) (bstr "recovery_key")
      then let? key := map_err (fun _ => tt) (recovery_parse (trim_text (rs_bytes supplied_key))) in Ok (Recovery key)
      else Err tt
  end.

Definition anyway {E A} (r : result E A) : result unit A := map_err (fun _ => tt) r.

(** [DirBuilder::recursive(true).mode(0o700).create] *)
Definition create_dir (name : blob) : Jobs unit := fs (fun s =>
  match rg_files s !! name with
  | Some n => ((if bool_decide (nd_kind n = DirectoryNode) then Ok tt else Err IoOther), s)
  | None => (Ok tt, set_rg_files (<[name := {| nd_kind := DirectoryNode; nd_mode := DIRECTORY_BITS;
                                               nd_uid := pr_uid process; nd_bytes := [] |}]> (rg_files s)) s)
  end).

(** [verify_and_restore_test] *)
Definition verify_and_restore_test (env : VerifyEnv) (archive drill : blob) (supplied_mode supplied_key : rstring)
    (archive_bytes : Z) : Prog Registry unit BackupVerificationResponse :=
  do! _ := prog_map_err (fun _ => tt) (create_dir drill) in
  do! header := prog_read (fun g => anyway (inspect_backup_file (uploaded_source env 0 archive g))) in
  do! key := prog_lift (supplied_archive_key (ph_key_mode header) supplied_mode supplied_key) in
  do! verified := prog_read (fun g => anyway (verify_backup_file (uploaded_source env 1 archive g) key)) in
  do! now := prog_map_err (fun _ => tt) clock_now in
  do! restored := (fun g =>
    let (r, h) := restore_backup_file (ve_restore env) (uploaded_source env 2 archive g) key Preserve now
      {| h_database := None; h_root_file := None; h_database_at := ve_database_at env;
         h_root_at := ve_root_at env; h_draws := rg_draws g |} in
    (anyway r, set_rg_draws (h_draws h) g)) in
  prog_ret {| bvr_archive_id := ph_archive_id (va_header verified); bvr_format_version := FORMAT_VERSION;
              bvr_logical_vault_id := am_logical_vault_id (va_metadata verified);
              bvr_source_recovery_epoch := am_source_recovery_epoch (va_metadata verified);
              bvr_created_at_unix_ms := am_created_at_unix_ms (va_metadata verified);
              bvr_archive_bytes := archive_bytes; bvr_record_count := va_record_count verified;
              bvr_logical_bytes := va_logical_bytes verified; bvr_integrity_verified := true;
              bvr_restore_tested := true; bvr_staged_recovery_epoch := rr_recovery_epoch restored |}.

(** The body after the slot: the guard of the archive removes it at the end,
    and the drill directory is removed before *)
Definition verify_received (env : VerifyEnv) (request : RequestId) (upload_id : Uuid)
    (fields : option (list (option Field))) : Upload BackupVerificationResponse := fun g =>
  let archive := verify_path upload_id in
  let drill := drill_path upload_id in
  let (r, g') := (
    do! fields := prog_lift (ok_or (invalid request) fields) in
    do! (mode, key, bytes) := receive_verification_upload request archive fields in
    fun g =>
      let (r, g) := verify_and_restore_test env archive drill mode key bytes g in
      (map_err (fun _ => invalid request) r, snd (remove_dir_all drill g))) g in
  (r, snd (remove_if_exists archive g')).

Definition api_verify_uploaded_backup (env : VerifyEnv) (headers : HeaderMap)
    (fields : option (list (option Field))) : Api Response :=
  do! request := request_id headers in
  do! now := api_now in
  do! owner := authenticate_owner self headers true now in
  do! av := as_principal self (RequestOwner owner) request now in
  do! _ := facade_call request (authorize_backup_inspect self av) in
  do! _ := acquire_slot request in
  holding_slot (
    do! upload_id := random_request_id in
    do! verification := of_jobs (fun e => e) (verify_received env request upload_id fields) in
    prog_ret (json_response 200 (BackupVerificationBody verification))).
End BackupHandlers.
