(* ===== verification/Router.v ===== *)
(** The closed route catalog and the layers around it, [router] of
    src/crates/smcv-server/src/lib.rs, and the static assets of web.rs.

    A request reaches, from the outside in, the identity of the request, the
    bearer rate limit, the header limits, the counters, and its handler.  axum's
    matching of paths, extraction and body limits decide which [Route] a request
    is, if any; deadlines and the bound on concurrent requests are tower's. *)
From Stdlib Require Import ZArith Lia Strings.Byte String.
From stdpp Require Import base tactics numbers option strings list gmap.
From S2P Require Import Prelude RustStd Core Crypto Format Schema Records Metadata VaultCore Authentication Authorization ServiceIdentity AuthorizedVault Archive Logical Backup Passkeys Http BackupJobs Server Api BackupApi.

(** * web.rs *)

(** [asset_response]; the content is named by its file *)
Definition asset_response (file content_type : string) (document : bool) : Response :=
  {| rs_status := 200; rs_headers := asset_headers content_type document; rs_body := AssetBody file |}.
Definition web_index : Response := asset_response "index.html" "text/html; charset=utf-8" true.
Definition web_styles : Response := asset_response "styles.css" "text/css; charset=utf-8" false.
Definition web_app : Response := asset_response "app.js" "text/javascript; charset=utf-8" false.
Definition web_api : Response := asset_response "api.js" "text/javascript; charset=utf-8" false.

(** * Routes *)

Section Routes.
Context {WA : WebAuthn}.

(** A method and path of the catalog, with what its handler extracts. *)
Inductive Route : Type :=
| GetIndex | GetStyles | GetApp | GetApi
| GetLive
| GetReady (instant : Z) (quick_check : result StorageError bool)
| PostPassword (password : rstring)
| GetSession
| DeleteSession
| PostRegistrationOptions
| PostRegistrationVerify (ceremony_id : blob) (response : RegisterPublicKeyCredential)
| PostAuthenticationOptions
| PostAuthenticationVerify (ceremony_id : blob) (response : PublicKeyCredential)
| GetNamespaces (query : NamespacePageQuery)
| PostNamespaces (input : CreateNamespaceRequest)
| PostMoveImpact (id : blob) (new_parent : option blob)
| PostMove (id : blob) (input : MoveNamespaceRequest)
| GetSecrets (query : SecretPageQuery)
| PostSecrets (input : CreateSecretRequest)
| GetSecret (id : blob)
| PutSecret (id : blob) (input : UpdateSecretRequest)
| GetSecretValue (id : blob)
| GetSecretVersions (id : blob) (after limit : Z)
| GetSecretVersionValue (id : blob) (version : Z)
| PostArchiveSecret (id : blob) (expected_revision : Z)
| PostRestoreSecret (id : blob) (expected_revision : Z)
| GetSecretLifecycle (query : SecretPageQuery) (lifecycle_state : string)
| PostDeleteSecret (id : blob) (expected_revision : Z)
| PostPurgeSecret (id : blob) (expected_revision retention_cutoff : Z)
| GetServices (query : PageQuery)
| PostServices (label : rstring) (description : option rstring)
| GetService (id : blob)
| GetEffectiveAccess (id : blob) (resource_kind : string) (resource_id : blob)
| GetCredentials (id : blob) (query : PageQuery)
| PostCredentials (id : blob) (expires_at : option Z)
| PostRevokeCredential (service_id credential_id : blob) (expected_revision : Z)
| GetPolicies (query : PageQuery)
| PostPolicies (label : rstring)
| GetPolicy (id : blob)
| GetPolicyRules (id : blob)
| PostArchivePolicy (id : blob) (expected_revision : Z)
| PostGrants (id : blob) (input : AddGrantRequest)
| PostBindings (id service_principal_id : blob)
| GetAuditEvents
| GetBackups
| PostBackups (input : CreateBackupRequest)
| GetBackup (id : blob)
| DeleteBackup (id : blob)
| GetDownload (id : blob)
| PostVerification (env : VerifyEnv) (fields : option (list (option Field)))
| GetOpenApi
| NoRoute.

Record HttpRequest : Type := {
  rq_route : Route;
  rq_headers : HeaderMap;
  rq_peer : option IpAddr }.
End Routes.

Section Router.
Context {CR : Crypto} {PH : PasswordHashing} {LJ : LogicalJson} {AF : ArchiveFormats} {WA : WebAuthn}
  {HT : HttpText} {JJ : JobJson} {AJ : ApiJson} (self : InitializedVault) (webauthn : Webauthn)
  (process : Process).

(** [Router::route]: the handler of a route *)
Definition handler (route : Route) (headers : HeaderMap) (peer : option IpAddr) : Api Response :=
  match route with
  | GetIndex => prog_ret web_index
  | GetStyles => prog_ret web_styles
  | GetApp => prog_ret web_app
  | GetApi => prog_ret web_api
  | GetLive => api_live
  | GetReady instant quick_check => api_ready instant quick_check
  | PostPassword password => api_password_login self peer headers password
  | GetSession => api_session_status self headers
  | DeleteSession => api_logout self headers
  | PostRegistrationOptions => api_start_passkey_registration self webauthn headers
  | PostRegistrationVerify id response => api_finish_passkey_registration self webauthn headers id response
  | PostAuthenticationOptions => api_start_passkey_authentication self webauthn peer headers
  | PostAuthenticationVerify id response => api_finish_passkey_authentication self webauthn peer headers id response
  | GetNamespaces query => api_list_namespaces self headers query
  | PostNamespaces input => api_create_namespace self headers input
  | PostMoveImpact id new_parent => api_preview_namespace_move self headers id new_parent
  | PostMove id input => api_move_namespace self headers id input
  | GetSecrets query => api_list_secrets self headers query
  | PostSecrets input => api_create_secret self headers input
  | GetSecret id => api_read_secret_metadata self headers id
  | PutSecret id input => api_update_secret self headers id input
  | GetSecretValue id => api_reveal_secret self headers id
  | GetSecretVersions id after limit => api_secret_versions self headers id after limit
  | GetSecretVersionValue id version => api_reveal_secret_version self headers id version
  | PostArchiveSecret id revision => api_archive_secret self headers id revision
  | PostRestoreSecret id revision => api_restore_secret self headers id revision
  | GetSecretLifecycle query state => api_list_secret_lifecycle self headers query state
  | PostDeleteSecret id revision => api_delete_secret self headers id revision
  | PostPurgeSecret id revision cutoff => api_purge_secret self headers id revision cutoff
  | GetServices query => api_list_service_identities self headers query
  | PostServices label description => api_create_service_identity self headers label description
  | GetService id => api_read_service_identity self headers id
  | GetEffectiveAccess id kind resource => api_effective_access self headers id kind resource
  | GetCredentials id query => api_list_credentials self headers id query
  | PostCredentials id expires_at => api_issue_credential self headers id expires_at
  | PostRevokeCredential service credential revision => api_revoke_credential self headers service credential revision
  | GetPolicies query => api_list_policies self headers query
  | PostPolicies label => api_create_policy self headers label
  | GetPolicy id => api_read_policy self headers id
  | GetPolicyRules id => api_policy_rules self headers id
  | PostArchivePolicy id revision => api_archive_policy self headers id revision
  | PostGrants id input => api_add_grant self headers id input
  | PostBindings id service => api_bind_policy self headers id service
  | GetAuditEvents => api_audit_events self headers
  | GetBackups => api_list_backups self headers
  | PostBackups input => api_create_backup self process headers input
  | GetBackup id => api_backup_status self headers id
  | DeleteBackup id => api_delete_backup self headers id
  | GetDownload id => api_download_backup self process headers id
  | PostVerification env fields => api_verify_uploaded_backup self process env headers fields
  | GetOpenApi => prog_ret (json_response 200 OpenApiDocument)
  | NoRoute => api_not_found headers
  end.

(** * The layers *)

(** A service: every request gets a response. *)
Definition Serves : Type := Server -> Response * Server.

(** [Result<Response, ApiError>::into_response] *)
Definition respond (m : Api Response) : Serves := fun s =>
  match m s with (Ok r, s') => (r, s') | (Err e, s') => (error_response e, s') end.

(** [record_operational_metrics] *)
Definition status_counter (status : Z) : Counter :=
  let class := status / 100 in
  if (class =? 2) || (class =? 3) then CSuccess else if class =? 4 then CClientError else CServerError.
Definition record_operational_metrics (next : Serves) : Serves := fun s =>
  let (response, s') := next (bump CRequests s) in
  (response, bump (status_counter (rs_status response)) s').

(** [enforce_header_limits] *)
Definition header_bytes (headers : HeaderMap) : Z :=
  foldl (fun sum h => Z.min u64_max (Z.min u64_max (sum + Z.of_nat (String.length h.1)) + zlen h.2)) 0 headers.
Definition enforce_header_limits (headers : HeaderMap) (next : Serves) : Serves := fun s =>
  if (64 <? zlen headers) || (32 * 1024 <? header_bytes headers) then
    respond (do! request := request_id headers in prog_fail (invalid request)) s
  else let (response, s') := next s in (secured response, s').

(** [enforce_bearer_rate_limit] *)
Definition bearer_rate_key (headers : HeaderMap) (peer : option IpAddr) : Prog Server IoError AuthenticationRateKey :=
  match header_text headers "authorization" ≫= strip_prefix (bstr "Bearer ") with
  | Some token =>
      do! known := prog_try (of_vault (fun e => e) (known_application_credential_lookup token)) in
      prog_ret match known with Ok (Some lookup) => ApplicationCredential lookup | _ => source_of peer end
  | None => prog_ret (source_of peer)
  end.
Definition limit_bearer (headers : HeaderMap) (peer : option IpAddr) : Prog Server IoError bool :=
  do! key := bearer_rate_key headers peer in
  do! now := of_jobs (fun e => e) clock_now in
  fun s =>
    let (allowed, rate) := allow key now BEARER_ATTEMPTS_PER_WINDOW (sv_bearer_rate s) in
    (Ok allowed, set_sv_rates (sv_login_rate s) (sv_passkey_rate s) rate s).
Definition enforce_bearer_rate_limit (headers : HeaderMap) (peer : option IpAddr) (next : Serves) : Serves := fun s =>
  if is_some_and (header_text headers "authorization") (starts_with (bstr "Bearer ")) then
    match limit_bearer headers peer s with
    | (Ok false, s') =>
        respond (do! request := request_id headers in prog_fail (rate_limited request)) (bump CRateLimited s')
    | (_, s') => next s'
    end
  else next s.

(** [SetRequestIdLayer] with [MakeRequestUuid], and [PropagateRequestIdLayer] *)
Definition REQUEST_ID_HEADER : string := "x-request-id".
Definition with_request_id (headers : HeaderMap) (next : HeaderMap -> Serves) : Serves := fun s =>
  let '(headers, s) :=
    match header_get headers REQUEST_ID_HEADER with
    | Some _ => (headers, s)
    | None => (headers ++ [(REQUEST_ID_HEADER, uuid_text (new_v4 (w_draws (sv_world s))))],
               set_sv_world (set_w_draws (S (w_draws (sv_world s))) (sv_world s)) s)
    end in
  let (response, s') := next headers s in
  (match header_get headers REQUEST_ID_HEADER, header_get (rs_headers response) REQUEST_ID_HEADER with
   | Some id, None => with_header REQUEST_ID_HEADER id response
   | _, _ => response
   end, s').

(** [router(state).call(request)] *)
Definition serve (q : HttpRequest) : Serves :=
  with_request_id (rq_headers q) (fun headers =>
    enforce_bearer_rate_limit headers (rq_peer q)
      (enforce_header_limits headers
        (record_operational_metrics
          (respond (handler (rq_route q) headers (rq_peer q)))))).
End Router.
