(* ===== verification/HttpProps.v ===== *)
(** The rate limiter bounds what it admits, the security headers are on every
    response, and a session cookie is read back. *)
From Stdlib Require Import ZArith Lia Strings.Byte String Sorting.Sorted.
From stdpp Require Import base tactics numbers option strings countable list gmap.
From S2P Require Import Prelude RustStd Core Crypto Format Authentication AuthorizedVault Passkeys PasskeyProps Http.

(** * The rate limiter *)

(** The attempts of all sources in order, and of one of them the times it was
    admitted at. *)
Fixpoint admissions (limit : Z) (source : AuthenticationRateKey) (l : list (AuthenticationRateKey * Z))
    (m : LoginRateLimiter) : list Z * LoginRateLimiter :=
  match l with
  | [] => ([], m)
  | (k, now) :: l =>
      let (allowed, m') := allow k now limit m in
      let (times, m'') := admissions limit source l m' in
      (if allowed && bool_decide (k = source) then now :: times else times, m'')
  end.

Definition within (t : Z) (times : list Z) : Z := zlen (List.filter (fun x => (t <=? x) && (x <? t + LOGIN_WINDOW_MS)) times).

(** How many of the attempts to come from [now] on can be admitted within the
    window's length from [t], given the window of the source. *)
Definition room (limit t now : Z) (o : option LoginWindow) : Z :=
  match o with
  | Some w =>
      let s := lw_started_at_unix_ms w in
      if t <=? s then limit - lw_attempts w
      else if t <? s + LOGIN_WINDOW_MS then 2 * limit - lw_attempts w else 2 * limit
  | None => if t <=? now then limit else 2 * limit
  end.

Definition window_ok (limit now : Z) (o : option LoginWindow) : Prop :=
  match o with
  | Some w => 1 <= lw_attempts w <= limit /\ 0 <= lw_started_at_unix_ms w <= now
  | None => True
  end.

Lemma window_open_at now w :
  0 <= lw_started_at_unix_ms w <= now -> now <= i64_max ->
  window_open now w = (now <? lw_started_at_unix_ms w + LOGIN_WINDOW_MS).
Proof.
  unfold window_open, i64_saturating_sub, clamp_i64, i64_max, i64_min, LOGIN_WINDOW_MS. intros.
  apply Bool.eq_iff_eq_true. rewrite !Z.ltb_lt. lia.
Qed.

Definition retained (now : Z) (m : LoginRateLimiter) : LoginRateLimiter :=
  filter (fun kv => window_open now kv.2 = true) m.
Lemma retained_lookup now (m : LoginRateLimiter) k :
  retained now m !! k = match m !! k with Some w => if window_open now w then Some w else None | None => None end.
Proof.
  unfold retained. rewrite map_lookup_filter. destruct (m !! k) as [w|]; cbn; [|done].
  destruct (window_open now w) eqn:E; cbn; case_guard; cbn in *; congruence.
Qed.

Lemma retained_open now (m : LoginRateLimiter) k w :
  retained now m !! k = Some w -> 0 <= lw_started_at_unix_ms w <= now -> now <= i64_max ->
  now < lw_started_at_unix_ms w + LOGIN_WINDOW_MS.
Proof.
  rewrite retained_lookup. destruct (m !! k) as [w'|]; [|done]. destruct (window_open now w') eqn:E; [|done].
  intros [= ->] Hs Hn. rewrite window_open_at in E by done. by apply Z.ltb_lt.
Qed.

(** An attempt of another source keeps the window or lets it lapse; one of this
    source opens a window, is counted in it, or is refused. *)
Lemma allow_spec k now limit m source :
  let (allowed, m') := allow k now limit m in
  let before := retained now m !! source in
  if bool_decide (k = source) then
    match before with
    | Some w => if limit <=? lw_attempts w then allowed = false /\ m' !! source = Some w
                else allowed = true /\ m' !! source = Some {| lw_started_at_unix_ms := lw_started_at_unix_ms w;
                                             lw_attempts := Z.min u16_max (lw_attempts w + 1) |}
    | None => if allowed then m' !! source = Some {| lw_started_at_unix_ms := now; lw_attempts := 1 |}
              else m' !! source = None
    end
  else m' !! source = before.
Proof.
  unfold allow. fold (retained now m). cbv zeta.
  destruct (retained now m !! k) as [w|] eqn:E.
  - pose proof E as Ho. rewrite retained_lookup in Ho. destruct (m !! k) as [w0|]; [|done].
    destruct (window_open now w0) eqn:Eo; [|done]. injection Ho as ->. rewrite Eo. cbn [negb].
    case_bool_decide as Hk.
    + subst. rewrite E. destruct (limit <=? lw_attempts w); [done|]. by rewrite lookup_insert_eq.
    + destruct (limit <=? lw_attempts w); [done|]. by rewrite lookup_insert_ne.
  - destruct (MAX_LOGIN_SOURCES <=? map_len (retained now m)); case_bool_decide as Hk; subst.
    + by rewrite E.
    + done.
    + rewrite E. by rewrite lookup_insert_eq.
    + by rewrite lookup_insert_ne.
Qed.

Lemma allow_size k now limit m :
  map_len m <= MAX_LOGIN_SOURCES -> map_len (snd (allow k now limit m)) <= MAX_LOGIN_SOURCES.
Proof.
  intros Hm. unfold allow. fold (retained now m). cbv zeta.
  assert (map_len (retained now m) <= MAX_LOGIN_SOURCES) as Hr by (unfold retained; etrans; [apply map_len_filter|done]).
  destruct (retained now m !! k) as [w|] eqn:E.
  - assert (forall x, map_len (<[k := x]> (retained now m)) <= MAX_LOGIN_SOURCES) as Hi.
    { intros x. unfold map_len in *. rewrite map_size_insert, E. unfold id. lia. }
    destruct (negb _); [apply Hi|]. destruct (limit <=? _); [done|apply Hi].
  - destruct (Z.leb_spec MAX_LOGIN_SOURCES (map_len (retained now m))); [done|].
    cbn. etrans; [apply map_len_insert|lia].
Qed.

Lemma within_cons t x times :
  within t (x :: times) = (if (t <=? x) && (x <? t + LOGIN_WINDOW_MS) then 1 else 0) + within t times.
Proof. unfold within, zlen. cbn [List.filter]. destruct (_ && _); cbn [length]; lia. Qed.
Lemma within_nonneg t times : 0 <= within t times.
Proof. apply zlen_nonneg. Qed.
Lemma within_late t now times :
  t + LOGIN_WINDOW_MS <= now -> Forall (fun x => now <= x) times -> within t times = 0.
Proof.
  intros Ht. induction 1 as [|x times Hx H IH]; [done|]. rewrite within_cons, IH.
  destruct (Z.ltb_spec x (t + LOGIN_WINDOW_MS)); [lia|]. by rewrite andb_false_r.
Qed.

Definition ordered (now : Z) (l : list (AuthenticationRateKey * Z)) : Prop :=
  Forall (fun a => now <= a.2 <= i64_max) l /\ StronglySorted (fun a b => a.2 <= b.2) l.

Lemma ordered_cons now a l : ordered now (a :: l) -> now <= a.2 <= i64_max /\ ordered a.2 l.
Proof.
  intros [Hf Hs]. apply Forall_cons in Hf as [Ha Hf]. inversion Hs as [|? ? Hs' Hb]; subst.
  split; [done|]. split; [|done]. apply Forall_forall. intros x Hx.
  rewrite Forall_forall in Hb, Hf. split; [by apply Hb|]. by apply Hf in Hx as [_ ?].
Qed.

Lemma admissions_late limit source now l m :
  ordered now l -> Forall (fun x => now <= x) (fst (admissions limit source l m)).
Proof.
  revert now m. induction l as [|[k x] l IH]; intros now m Ho; cbn; [constructor|].
  apply ordered_cons in Ho as [Hx Ho]. cbn in *. destruct (allow k x limit m) as [allowed m'].
  specialize (IH x m' Ho). destruct (admissions limit source l m') as [times m'']. cbn in *.
  assert (Forall (fun y => now <= y) times) by (eapply Forall_impl; [exact IH|cbn; lia]).
  destruct (allowed && _); [|done]. constructor; [lia|done].
Qed.

Section Bound.
Context (limit : Z) (Hlimit : 1 <= limit <= u16_max) (source : AuthenticationRateKey) (t : Z).

(** Letting time pass, with the window retained or lapsed, makes no more room. *)
Lemma room_passes (now now' : Z) (m : LoginRateLimiter) :
  0 <= now <= now' -> now' <= i64_max -> window_ok limit now (m !! source) ->
  window_ok limit now' (retained now' m !! source)
  /\ (now' < t + LOGIN_WINDOW_MS -> room limit t now' (retained now' m !! source) <= room limit t now (m !! source))
  /\ 0 <= room limit t now (m !! source).
Proof.
  intros Hn Hi Hw. rewrite retained_lookup. destruct (m !! source) as [w|]; cbn in *.
  - destruct Hw as [Ha Hs]. rewrite window_open_at by lia.
    destruct (Z.ltb_spec now' (lw_started_at_unix_ms w + LOGIN_WINDOW_MS)); cbn.
    + repeat split; try lia. repeat (case_match; bprop); lia.
    + split; [done|]. split; repeat (case_match; bprop); unfold LOGIN_WINDOW_MS in *; lia.
  - split; [done|]. split; repeat (case_match; bprop); lia.
Qed.

Lemma admitted_bounded l now m :
  0 <= now -> ordered now l -> window_ok limit now (m !! source) ->
  within t (fst (admissions limit source l m)) <= room limit t now (m !! source).
Proof.
  revert now m. induction l as [|[k x] l IH]; intros now m Hn Ho Hw.
  { change (within t _) with 0. destruct (m !! source) as [w|]; cbn in *; repeat (case_match; bprop); lia. }
  pose proof (admissions_late limit source now ((k, x) :: l) m Ho) as Hlate.
  apply ordered_cons in Ho as [Hx Ho]. cbn [snd] in *.
  destruct (room_passes now x m ltac:(lia) ltac:(lia) Hw) as (Hw' & Hr & Hpos).
  cbn [admissions] in *. pose proof (allow_spec k x limit m source) as Hspec.
  destruct (allow k x limit m) as [allowed m']. specialize (IH x m' ltac:(lia) Ho).
  pose proof (admissions_late limit source x l m' Ho) as Hl'.
  destruct (admissions limit source l m') as [times m'']. cbn [fst] in *. cbv zeta in Hspec.
  destruct (Z.leb_spec (t + LOGIN_WINDOW_MS) x) as [Hpast|Hin].
  { rewrite (within_late t x); [lia|done|].
    destruct (allowed && _); [constructor; [lia|done]|done]. }
  specialize (Hr Hin). destruct (bool_decide (k = source)) eqn:Ek; rewrite ?andb_true_r, ?andb_false_r.
  2: { rewrite Hspec in IH. specialize (IH Hw'). lia. }
  destruct (retained x m !! source) as [w|] eqn:Er.
  - cbn in Hw'. pose proof (retained_open x m source w Er ltac:(lia) ltac:(lia)) as Hopen. destruct (Z.leb_spec limit (lw_attempts w)); destruct Hspec as [-> E]; rewrite E in IH; cbn [andb].
    + specialize (IH Hw'). lia.
    + rewrite within_cons. rewrite Z.min_r in IH by lia. cbn in IH, Hr. specialize (IH ltac:(lia)).
      revert IH Hr. destruct (Z.leb_spec t x), (Z.ltb_spec x (t + LOGIN_WINDOW_MS)); cbn [andb]; try lia.
      all: repeat (case_match; bprop); unfold LOGIN_WINDOW_MS in *; lia.
  - cbn in Hr. destruct allowed; rewrite Hspec in IH; cbn [andb].
    + rewrite within_cons. cbn in IH. specialize (IH ltac:(lia)).
      revert IH Hr. destruct (Z.leb_spec t x), (Z.ltb_spec x (t + LOGIN_WINDOW_MS)); cbn [andb]; try lia.
      all: repeat (case_match; bprop); unfold LOGIN_WINDOW_MS in *; lia.
    + specialize (IH I). cbn in IH. lia.
Qed.
End Bound.

Lemma admissions_size limit source l m :
  map_len m <= MAX_LOGIN_SOURCES -> map_len (snd (admissions limit source l m)) <= MAX_LOGIN_SOURCES.
Proof.
  revert m. induction l as [|[k x] l IH]; intros m Hm; cbn; [done|].
  pose proof (allow_size k x limit m Hm) as H. destruct (allow k x limit m) as [allowed m'].
  specialize (IH m' H). by destruct (admissions limit source l m').
Qed.

(** C33. The rate limiter bounds guessing. Whatever the attempts of all sources
    are, as long as the clock does not run backwards, of the attempts of one
    source at most twice the limit are admitted within any span of one window's
    length, wherever the span starts, and never are more than 4,096 windows
    kept. *)
Theorem attempts_rate_limited (limit : Z) (source : AuthenticationRateKey) (t : Z)
    (l : list (AuthenticationRateKey * Z)) (Hlimit : 1 <= limit <= u16_max) (Hordered : ordered 0 l) :
  within t (fst (admissions limit source l ∅)) <= 2 * limit
  /\ map_len (snd (admissions limit source l ∅)) <= MAX_LOGIN_SOURCES.
Proof.
  split.
  - etrans; [eapply (admitted_bounded limit Hlimit source t l 0 ∅); [done|done|by rewrite lookup_empty]|].
    rewrite lookup_empty. cbn. destruct (t <=? 0); lia.
  - by apply admissions_size.
Qed.
