(* ===== verification/ApiProps.v ===== *)
(** Who reaches what: every route of the catalog but the public ones answers only
    to the credentials that its row of the access table names; and the security
    headers of every response. *)
From Stdlib Require Import ZArith Lia Strings.Byte String.
From stdpp Require Import base tactics numbers option strings list gmap.
From S2P Require Import Prelude RustStd Core Crypto Format Schema Records IdentityStore Store Metadata VaultCore Authentication Authorization ServiceIdentity AuthorizedVault VaultAudit AuthzProps Archive Logical Backup Passkeys LoginProps Http BackupJobs Server Api BackupApi Router HttpProps.

(** * The access table *)

(** Open to everyone, to the owner's session, or to the session or an
    application; a flag says whether a session needs its CSRF token. *)
Inductive Access : Type := Everyone | OwnerSession (csrf : bool) | AnyPrincipal (csrf : bool).

Definition route_access {WA : WebAuthn} (route : Route) : Access :=
  match route with
  | GetIndex | GetStyles | GetApp | GetApi | GetLive | GetReady _ _ | PostPassword _
  | PostAuthenticationOptions | PostAuthenticationVerify _ _ | GetOpenApi | NoRoute => Everyone
  | GetNamespaces _ | GetSecrets _ | GetSecret _ | GetSecretValue _ | GetSecretVersions _ _ _
  | GetSecretVersionValue _ _ | GetSecretLifecycle _ _ => AnyPrincipal false
  | PostNamespaces _ | PostSecrets _ | PutSecret _ _ | PostArchiveSecret _ _ | PostRestoreSecret _ _
  | PostDeleteSecret _ _ | PostPurgeSecret _ _ _ => AnyPrincipal true
  | GetSession | DeleteSession | GetServices _ | GetService _ | GetEffectiveAccess _ _ _ | GetCredentials _ _
  | GetPolicies _ | GetPolicy _ | GetPolicyRules _ | GetAuditEvents | GetBackups | GetBackup _
  | DeleteBackup _ | GetDownload _ => OwnerSession false
  | PostRegistrationOptions | PostRegistrationVerify _ _ | PostMoveImpact _ _ | PostMove _ _ | PostServices _ _
  | PostCredentials _ _ | PostRevokeCredential _ _ _ | PostPolicies _ | PostArchivePolicy _ _ | PostGrants _ _
  | PostBindings _ _ | PostBackups _ | PostVerification _ _ => OwnerSession true
  end.

(** * Steps that change nothing of the vault or the registry *)

Section Steps.
Context {WA : WebAuthn}.

(** Only the random draws and the readings of the clock move on. *)
Definition idle_step (s s' : Server) : Prop :=
  exists n k, s' = set_sv_jobs (set_rg_ticks k (sv_jobs s)) (set_sv_world (set_w_draws n (sv_world s)) s).

Lemma idle_step_refl s : idle_step s s.
Proof.
  exists (w_draws (sv_world s)), (rg_ticks (sv_jobs s)). destruct s as [p g ? ? ? ? ? ? ? ?]. cbn.
  destruct p as [w ? ?]. cbn. unfold sv_world, set_sv_world. cbn. by destruct w, g.
Qed.
Lemma idle_step_trans s1 s2 s3 : idle_step s1 s2 -> idle_step s2 s3 -> idle_step s1 s3.
Proof. intros (n & k & ->) (n' & k' & ->). by exists n', k'. Qed.
End Steps.

Section Access.
Context {CR : Crypto} {PH : PasswordHashing} {LJ : LogicalJson} {AF : ArchiveFormats} {WA : WebAuthn}
  {HT : HttpText} {JJ : JobJson} {AJ : ApiJson} (self : InitializedVault) (webauthn : Webauthn)
  (process : Process).

Lemma api_now_step s : exists now s', api_now s = (Ok now, s') /\ idle_step s s'.
Proof.
  eexists _, _. split; [done|]. exists (w_draws (sv_world s)), (S (rg_ticks (sv_jobs s))).
  destruct s as [p g ? ? ? ? ? ? ? ?]. destruct p as [w ? ?]. by destruct w.
Qed.
Lemma request_id_step headers s : exists id s', request_id headers s = (Ok id, s') /\ idle_step s s'.
Proof.
  unfold request_id. destruct (_ ≫= _) as [id|].
  - exists id, s. split; [done|apply idle_step_refl].
  - eexists _, _. split; [done|]. exists (S (w_draws (sv_world s))), (rg_ticks (sv_jobs s)).
    destruct s as [p g ? ? ? ? ? ? ? ?]. by destruct g.
Qed.

(** A program that answers with the authentication error and changes nothing. *)
Definition refuses {A} (m : Api A) (s : Server) : Prop :=
  exists id s', m s = (Err (authentication id), s') /\ idle_step s s'.

Lemma refuses_bind {A B} (m : Api A) (k : A -> Api B) s : refuses m s -> refuses (prog_bind m k) s.
Proof. intros (id & s' & H & Hs). exists id, s'. unfold prog_bind. by rewrite H. Qed.
Lemma refuses_after {A B} (m : Api A) (k : A -> Api B) s :
  (exists a s', m s = (Ok a, s') /\ idle_step s s' /\ refuses (k a) s') -> refuses (prog_bind m k) s.
Proof.
  intros (a & s1 & H & Hs & id & s2 & H2 & Hs2). exists id, s2. unfold prog_bind. rewrite H.
  split; [done|]. by eapply idle_step_trans.
Qed.
Lemma refuses_if_rejected {B} (bad : bool) id (k : unit -> Api B) s :
  refuses (k tt) s -> refuses (prog_bind (prog_reject bad (authentication id)) k) s.
Proof.
  intros H. destruct bad; [|done]. exists id, s. split; [done|apply idle_step_refl].
Qed.

(** From here on, whatever the clock says, authentication fails. *)
Definition denied (b : bool) (headers : HeaderMap) (s : Server) : Prop :=
  forall s' now, idle_step s s' -> refuses (authenticate_owner self headers b now) s'.
Definition denied_principal (b : bool) (headers : HeaderMap) (s : Server) : Prop :=
  forall s' now, idle_step s s' -> refuses (authenticate_principal self headers b now) s'.

Lemma denied_step b headers s s' : denied b headers s -> idle_step s s' -> denied b headers s'.
Proof. intros H Hs s'' now Hs'. apply H. by eapply idle_step_trans. Qed.
Lemma denied_principal_step b headers s s' :
  denied_principal b headers s -> idle_step s s' -> denied_principal b headers s'.
Proof. intros H Hs s'' now Hs'. apply H. by eapply idle_step_trans. Qed.

Lemma after_now {B} b headers (k : Z -> Api B) s :
  denied b headers s -> (forall now s', denied b headers s' -> refuses (k now) s') -> refuses (prog_bind api_now k) s.
Proof.
  intros Hd Hk. apply refuses_after. destruct (api_now_step s) as (now & s' & E & Hs).
  exists now, s'. split_and!; [done..|]. apply Hk. by eapply denied_step.
Qed.
Lemma after_id {B} b headers (k : RequestId -> Api B) s :
  denied b headers s -> (forall id s', denied b headers s' -> refuses (k id) s') ->
  refuses (prog_bind (request_id headers) k) s.
Proof.
  intros Hd Hk. apply refuses_after. destruct (request_id_step headers s) as (id & s' & E & Hs).
  exists id, s'. split_and!; [done..|]. apply Hk. by eapply denied_step.
Qed.
Lemma principal_after_now {B} b headers (k : Z -> Api B) s :
  denied_principal b headers s -> (forall now s', denied_principal b headers s' -> refuses (k now) s') ->
  refuses (prog_bind api_now k) s.
Proof.
  intros Hd Hk. apply refuses_after. destruct (api_now_step s) as (now & s' & E & Hs).
  exists now, s'. split_and!; [done..|]. apply Hk. by eapply denied_principal_step.
Qed.
Lemma principal_after_id {B} b headers (k : RequestId -> Api B) s :
  denied_principal b headers s -> (forall id s', denied_principal b headers s' -> refuses (k id) s') ->
  refuses (prog_bind (request_id headers) k) s.
Proof.
  intros Hd Hk. apply refuses_after. destruct (request_id_step headers s) as (id & s' & E & Hs).
  exists id, s'. split_and!; [done..|]. apply Hk. by eapply denied_principal_step.
Qed.
Lemma at_owner {B} b headers now (k : AuthenticatedOwner -> Api B) s :
  denied b headers s -> refuses (prog_bind (authenticate_owner self headers b now) k) s.
Proof. intros Hd. apply refuses_bind, Hd, idle_step_refl. Qed.
Lemma at_principal {B} b headers now (k : RequestPrincipal -> Api B) s :
  denied_principal b headers s -> refuses (prog_bind (authenticate_principal self headers b now) k) s.
Proof. intros Hd. apply refuses_bind, Hd, idle_step_refl. Qed.

Ltac refuse_owner := repeat
  match goal with
  | |- refuses (prog_bind api_now _) _ => eapply after_now; [eassumption|intros ? ? ?]
  | |- refuses (prog_bind (request_id _) _) _ => eapply after_id; [eassumption|intros ? ? ?]
  | |- refuses (prog_bind (prog_reject _ _) _) _ => apply refuses_if_rejected
  | |- refuses (prog_bind (authenticate_owner _ _ _ _) _) _ => apply at_owner; assumption
  end.
Ltac refuse_principal := repeat
  match goal with
  | |- refuses (prog_bind api_now _) _ => eapply principal_after_now; [eassumption|intros ? ? ?]
  | |- refuses (prog_bind (request_id _) _) _ => eapply principal_after_id; [eassumption|intros ? ? ?]
  | |- refuses (prog_bind (authenticate_principal _ _ _ _) _) _ => apply at_principal; assumption
  end.

Lemma inspect_refused headers request s :
  denied false headers s -> refuses (authorize_inspect self headers request) s.
Proof. intros Hd. unfold authorize_inspect. refuse_owner. Qed.

Lemma owner_route_refused route headers peer b s :
  route_access route = OwnerSession b -> denied b headers s ->
  refuses (handler self webauthn process route headers peer) s.
Proof.
  intros Ha Hd. destruct route; cbn in Ha; simplify_eq; unfold handler.
  all: first
    [ unfold api_session_status, api_logout, api_start_passkey_registration, api_finish_passkey_registration,
        api_preview_namespace_move, api_move_namespace, api_list_service_identities, api_create_service_identity,
        api_read_service_identity, api_effective_access, api_list_credentials, api_issue_credential,
        api_revoke_credential, api_list_policies, api_create_policy, api_policy_rules, api_read_policy,
        api_archive_policy, api_add_grant, api_bind_policy, api_audit_events, api_create_backup,
        api_verify_uploaded_backup; solve [refuse_owner]
    | unfold api_list_backups, api_backup_status, api_download_backup, api_delete_backup;
      eapply after_id; [eassumption|intros ? ? ?]; by apply refuses_bind, inspect_refused ].
Qed.

Lemma principal_route_refused route headers peer b s :
  route_access route = AnyPrincipal b -> denied_principal b headers s ->
  refuses (handler self webauthn process route headers peer) s.
Proof.
  intros Ha Hd. destruct route; cbn in Ha; simplify_eq; unfold handler.
  all: unfold api_list_namespaces, api_create_namespace, api_list_secrets, api_list_secret_lifecycle,
    api_create_secret, api_update_secret, api_archive_secret, api_restore_secret, api_delete_secret,
    secret_transition, api_purge_secret, api_read_secret_metadata, api_reveal_secret, api_secret_versions,
    api_reveal_secret_version; refuse_principal.
Qed.

(** * Credentials *)

(** The session of the cookie, unrevoked and with its secret, and where asked
    for its CSRF token. *)
Definition presents_session (b : bool) (d : Db) (headers : HeaderMap) : Prop :=
  exists token lookup session,
    cookie headers SESSION_COOKIE = Some token /\ session_lookup_id token = Some lookup
    /\ session_by_lookup d lookup = Ok (Some session) /\ ses_revoked_at_unix_ms session = None
    /\ verify_session (iv_token_verifier_key self) token lookup (ses_verifier session) = Ok true
    /\ (b = true -> exists csrf, header_text headers "x-smcv-csrf" = Some csrf
          /\ verify_csrf (iv_token_verifier_key self) csrf lookup (ses_csrf_verifier session) = Ok true).
(** An application credential of the vault in the authorization header. *)
Definition presents_credential (d : Db) (headers : HeaderMap) : Prop :=
  exists token lookup record,
    bearer headers = Some token /\ token_lookup_id token = Some lookup
    /\ application_credential_by_lookup d lookup = Ok (Some record).

Definition presents (a : Access) (d : Db) (headers : HeaderMap) : Prop :=
  match a with
  | Everyone => True
  | OwnerSession b => presents_session b d headers
  | AnyPrincipal b => presents_session b d headers \/ presents_credential d headers
  end.

Lemma session_denied b d headers token csrf now w :
  cookie headers SESSION_COOKIE = Some token -> csrf = header_text headers "x-smcv-csrf" ->
  quiet w -> w_db w = d -> ~ presents_session b d headers ->
  exists e, authenticate_browser_session self token csrf b now w = (Err e, w).
Proof.
  intros Hc -> Hq <- Hn. unfold authenticate_browser_session.
  destruct (session_lookup_id token) as [lookup|] eqn:El; [|by eexists].
  erewrite bind_lift_Ok by done; rewrite bind_auth_ask by done.
  destruct (session_by_lookup (w_db w) lookup) as [[x|]|e] eqn:Es; [|by eexists..].
  erewrite bind_lift_Ok by done. unfold prog_bind at 1, prog_lift at 1.
  destruct (verify_session_commitment self x) as [[]|]; [|by eexists].
  unfold prog_bind at 1, prog_reject at 1. destruct (bool_decide (is_Some (ses_revoked_at_unix_ms x))) eqn:Er; [by eexists|].
  destruct (_ || _); [by eexists|].
  unfold prog_bind at 1, prog_lift at 1.
  destruct (verify_session (iv_token_verifier_key self) token lookup (ses_verifier x)) as [[]|] eqn:Ev; [|by eexists..].
  cbn [map_err]. rewrite bind_reject_false by done.
  assert (ses_revoked_at_unix_ms x = None) as Hr.
  { apply bool_decide_eq_false in Er. by destruct (ses_revoked_at_unix_ms x); [destruct Er|]. }
  destruct b; [|destruct Hn; by exists token, lookup, x].
  unfold prog_bind at 1. unfold prog_bind at 1, prog_lift at 1.
  destruct (header_text headers "x-smcv-csrf") as [csrf|] eqn:Eh; [|by eexists]. cbn [ok_or].
  unfold prog_bind at 1, prog_lift at 1.
  destruct (verify_csrf (iv_token_verifier_key self) csrf lookup (ses_csrf_verifier x)) as [[]|] eqn:Ex; [|by eexists..].
  destruct Hn. exists token, lookup, x. split_and!; [done..|]. intros _. by exists csrf.
Qed.

Lemma of_vault_refuses {E A} (m : Prog World E A) id e s :
  m (sv_world s) = (Err e, sv_world s) -> refuses (of_vault (fun _ => authentication id) m) s.
Proof.
  intros H. exists id, s. unfold of_vault. rewrite H. split; [|apply idle_step_refl].
  cbn. do 2 f_equal. by destruct s as [[] ? ? ? ? ? ? ? ? ?].
Qed.

Lemma idle_step_world s s' :
  idle_step s s' -> quiet (sv_world s) -> quiet (sv_world s') /\ w_db (sv_world s') = w_db (sv_world s).
Proof. by intros (n & k & ->) H. Qed.

Lemma denied_unless b headers s :
  quiet (sv_world s) -> ~ presents_session b (w_db (sv_world s)) headers -> denied b headers s.
Proof.
  intros Hq Hn s' now Hs. destruct (idle_step_world s s' Hs Hq) as [Hq' Ed]. unfold authenticate_owner.
  apply refuses_after. destruct (request_id_step headers s') as (id & s2 & E & Hs2). exists id, s2.
  split_and!; [done..|]. destruct (idle_step_world s' s2 Hs2 Hq') as [Hq2 Ed2].
  destruct (cookie headers SESSION_COOKIE) as [token|] eqn:Ec.
  2: { exists id, s2. split; [done|apply idle_step_refl]. }
  rewrite <- Ed, <- Ed2 in Hn.
  destruct (session_denied b _ headers token _ now (sv_world s2) Ec eq_refl Hq2 eq_refl Hn) as [e He].
  cbn [ok_or]. unfold prog_bind, prog_lift. by eapply of_vault_refuses.
Qed.

Lemma credential_denied d headers token request now w :
  bearer headers = Some token -> quiet w -> w_db w = d -> ~ presents_credential d headers ->
  exists e, authenticate_application_credential self token request now w = (Err e, w).
Proof.
  intros Hb Hq <- Hn. unfold authenticate_application_credential.
  destruct (token_lookup_id token) as [lookup|] eqn:El; [|by eexists].
  erewrite bind_lift_Ok by done; rewrite bind_auth_ask by done.
  destruct (application_credential_by_lookup (w_db w) lookup) as [[r|]|e] eqn:Er; [|..|by eexists].
  { destruct Hn. by exists token, lookup, r. }
  unfold prog_bind, prog_lift. destruct (verify_token _ _ _ _); by eexists.
Qed.

Lemma denied_principal_unless b headers s :
  quiet (sv_world s) -> ~ presents_session b (w_db (sv_world s)) headers ->
  ~ presents_credential (w_db (sv_world s)) headers -> denied_principal b headers s.
Proof.
  intros Hq Hn Hc s' now Hs. unfold authenticate_principal. apply refuses_after.
  destruct (request_id_step headers s') as (id & s2 & E & Hs2). exists id, s2. split_and!; [done..|].
  pose proof (idle_step_trans _ _ _ Hs Hs2) as Hs3. destruct (idle_step_world s s2 Hs3 Hq) as [Hq2 Ed].
  destruct (bearer headers) as [token|] eqn:Eb; apply refuses_bind.
  - rewrite <- Ed in Hc.
    destruct (credential_denied _ headers token id now (sv_world s2) Eb Hq2 eq_refl Hc) as [e He].
    by eapply of_vault_refuses.
  - by apply (denied_unless b headers s Hq Hn s2 now).
Qed.

Lemma route_refused route headers peer s :
  quiet (sv_world s) -> ~ presents (route_access route) (w_db (sv_world s)) headers ->
  refuses (handler self webauthn process route headers peer) s.
Proof.
  intros Hq Hn. destruct (route_access route) as [|b|b] eqn:Ea; cbn in Hn; [by destruct Hn|..].
  - eapply owner_route_refused; [done|]. by apply denied_unless.
  - eapply principal_route_refused; [done|]. apply denied_principal_unless; [done|..]; intros ?; apply Hn; by auto.
Qed.

(** * Through the layers *)

(** What is durable, or held for later requests, is as it was. *)
Definition untouched (s s' : Server) : Prop :=
  w_db (sv_world s') = w_db (sv_world s) /\ w_schedule (sv_world s') = w_schedule (sv_world s)
  /\ pw_ceremonies (sv_passkeys s') = pw_ceremonies (sv_passkeys s)
  /\ rg_files (sv_jobs s') = rg_files (sv_jobs s) /\ rg_jobs (sv_jobs s') = rg_jobs (sv_jobs s)
  /\ sv_worker s' = sv_worker s /\ sv_archive_slot s' = sv_archive_slot s.

#[local] Instance untouched_preorder : PreOrder untouched.
Proof. split; [by intros s|]. intros s1 s2 s3 (?&?&?&?&?&?&?) (?&?&?&?&?&?&?). repeat split; congruence. Qed.

Lemma untouched_idle s s' : idle_step s s' -> untouched s s'.
Proof. by intros (n & k & ->). Qed.
Lemma untouched_bump c s : untouched s (bump c s).
Proof. done. Qed.
Lemma untouched_quiet s s' : untouched s s' -> quiet (sv_world s) -> quiet (sv_world s').
Proof. intros (_ & E & _) H. unfold quiet in *. congruence. Qed.

Lemma header_get_app headers name value n :
  n <> name -> header_get (headers ++ [(name, value)]) n = header_get headers n.
Proof.
  intros H. unfold header_get. induction headers as [|[k v] l IH]; cbn.
  - destruct (String.eqb_spec name n); [congruence|done].
  - by destruct (String.eqb k n).
Qed.
Lemma header_text_app headers name value n :
  n <> name -> header_text (headers ++ [(name, value)]) n = header_text headers n.
Proof. intros H. unfold header_text. by rewrite header_get_app. Qed.
Lemma presents_app headers value a d :
  presents a d (headers ++ [(REQUEST_ID_HEADER, value)]) -> presents a d headers.
Proof.
  destruct a as [|b|b]; unfold presents, presents_session, presents_credential, cookie, bearer;
    by rewrite ?header_text_app.
Qed.

(** A refusal of the handler is one of the server. *)
Definition refusal (r : Response) : Prop :=
  rs_status r ∈ [400; 401; 429] /\ exists code message id, rs_body r = ErrorBody code message id.

Lemma error_refusal e : ae_status e ∈ [400; 401; 429] -> refusal (error_response e).
Proof. intros H. split; [done|]. eexists _, _, _. done. Qed.
Lemma respond_error headers (f : RequestId -> ApiError) s :
  (forall id, ae_status (f id) ∈ [400; 401; 429]) ->
  let (r, s') := respond (do! request := request_id headers in prog_fail (f request)) s in
  refusal r /\ untouched s s'.
Proof.
  intros Hf. destruct (request_id_step headers s) as (id & s' & E & Hs). unfold respond, prog_bind. rewrite E.
  split; [by apply error_refusal|by apply untouched_idle].
Qed.

Lemma limit_bearer_untouched headers peer s :
  quiet (sv_world s) -> untouched s (snd (limit_bearer headers peer s)).
Proof.
  intros Hq. unfold limit_bearer, prog_bind.
  assert (exists key s', bearer_rate_key headers peer s = (Ok key, s') /\ untouched s s') as (key & s' & E & Hs).
  { unfold bearer_rate_key. destruct (_ ≫= _) as [token|]; [|by eexists _, s].
    unfold prog_bind, prog_try, of_vault, known_application_credential_lookup.
    destruct (token_lookup_id token) as [lookup|]; [|by eexists _, _].
    unfold prog_bind, prog_try, auth_ask, auth_call. rewrite AuthzProps.call_read_quiet by done. by eexists _, _. }
  rewrite E. cbn. destruct (allow _ _ _ _) as [allowed rate]. cbn. by etrans; [exact Hs|].
Qed.

Lemma serve_refused q s :
  quiet (sv_world s) -> ~ presents (route_access (rq_route q)) (w_db (sv_world s)) (rq_headers q) ->
  let (r, s') := serve self webauthn process q s in refusal r /\ untouched s s'.
Proof.
  intros Hq Hn. unfold serve, with_request_id.
  set (first := match header_get (rq_headers q) REQUEST_ID_HEADER with Some _ => _ | None => _ end).
  assert (exists headers s1, first = (headers, s1) /\ untouched s s1
    /\ ~ presents (route_access (rq_route q)) (w_db (sv_world s)) headers) as (headers & s1 & -> & H1 & Hn1).
  { subst first. destruct (header_get _ _); eexists _, _; split_and!; [done..|].
    intros H. by apply Hn, (presents_app _ _ _ _ H). }
  clear Hn. cbv beta iota.
  assert (forall s2, untouched s s2 ->
    let (r, s') := enforce_header_limits headers (record_operational_metrics
      (respond (handler self webauthn process (rq_route q) headers (rq_peer q)))) s2 in
    refusal r /\ untouched s s') as Hinner.
  { intros s2 H2. unfold enforce_header_limits. destruct (_ || _).
    - pose proof (respond_error headers invalid s2) as H. destruct (respond _ s2) as [r s3].
      destruct H as [Hr Hs]; [intros; cbn; set_solver|]. split; [done|]. by etrans.
    - unfold record_operational_metrics.
      destruct (route_refused (rq_route q) headers (rq_peer q) (bump CRequests s2)) as (id & s3 & E & Hs).
      { by eapply untouched_quiet. } { change (w_db (sv_world (bump CRequests s2))) with (w_db (sv_world s2)). by rewrite (proj1 H2). }
      unfold respond at 1. rewrite E. split.
      + destruct (error_refusal (authentication id)) as [Ha Hb]; [cbn; set_solver|]. by split.
      + etrans; [exact H2|]. etrans; [apply (untouched_bump CRequests)|]. etrans; [by apply untouched_idle|]. done. }
  assert (let (r, s') := enforce_bearer_rate_limit headers (rq_peer q) (enforce_header_limits headers
      (record_operational_metrics (respond (handler self webauthn process (rq_route q) headers (rq_peer q))))) s1 in
    refusal r /\ untouched s s') as H.
  { unfold enforce_bearer_rate_limit. destruct (is_some_and _ _); [|by apply Hinner].
    pose proof (limit_bearer_untouched headers (rq_peer q) s1 ltac:(by eapply untouched_quiet)) as Hl.
    destruct (limit_bearer headers (rq_peer q) s1) as [[[]|] s2]; cbn [snd] in Hl.
    1, 3: by apply Hinner; etrans.
    pose proof (respond_error headers rate_limited (bump CRateLimited s2)) as H. destruct (respond _ _) as [r s3].
    destruct H as [Hr Hs]; [intros; cbn; set_solver|]. split; [done|]. by etrans; [exact H1|etrans; [exact Hl|]]. }
  destruct (enforce_bearer_rate_limit _ _ _ s1) as [r s2]. destruct H as [[Ha Hb] Hs].
  cbv beta iota. split; [|done]. unfold refusal. by destruct (header_get headers REQUEST_ID_HEADER), (header_get (rs_headers r) REQUEST_ID_HEADER).
Qed.
End Access.

(** * Header maps *)

Lemma header_get_insert name value headers : header_get (header_insert name value headers) name = Some value.
Proof.
  unfold header_get, header_insert. induction headers as [|[k v] l IH]; cbn.
  - by rewrite String.eqb_refl.
  - destruct (String.eqb k name) eqn:E; cbn; [done|]. by rewrite E.
Qed.
Lemma header_get_insert_ne name value headers n :
  n <> name -> header_get (header_insert name value headers) n = header_get headers n.
Proof.
  intros H. unfold header_insert. rewrite header_get_app by done. unfold header_get.
  induction headers as [|[k v] l IH]; cbn; [done|].
  destruct (String.eqb_spec k name); cbn; [|by destruct (String.eqb k n)].
  subst. by destruct (String.eqb_spec name n).
Qed.
Create Rewrite HintDb smcv_headers.
#[export] Hint Rewrite header_get_insert : smcv_headers.
#[export] Hint Rewrite header_get_insert_ne using discriminate : smcv_headers.

(** * Security headers *)

Definition SECURITY_HEADERS : list (string * blob) :=
  [("cache-control"%string, bstr "no-store"); ("pragma"%string, bstr "no-cache");
   ("x-content-type-options"%string, bstr "nosniff"); ("referrer-policy"%string, bstr "no-referrer");
   ("x-frame-options"%string, bstr "DENY");
   ("permissions-policy"%string, bstr "camera=(), microphone=(), geolocation=(), payment=(), usb=()");
   ("cross-origin-opener-policy"%string, bstr "same-origin");
   ("cross-origin-resource-policy"%string, bstr "same-origin");
   ("strict-transport-security"%string, bstr "max-age=31536000")].

Definition csp (headers : HeaderMap) : option blob := header_get headers "content-security-policy".
Definition protected_headers (headers : HeaderMap) : Prop :=
  Forall (fun h => header_get headers h.1 = Some h.2) SECURITY_HEADERS.

Lemma insert_absent_ne name value headers n :
  n <> name -> header_get (insert_absent name value headers) n = header_get headers n.
Proof. intros H. unfold insert_absent. case_bool_decide; [done|]. by rewrite header_get_insert_ne. Qed.
#[export] Hint Rewrite insert_absent_ne using discriminate : smcv_headers.

Lemma applied_headers headers : protected_headers (apply_security_headers headers).
Proof.
  unfold protected_headers, SECURITY_HEADERS, apply_security_headers.
  repeat (apply Forall_cons; split; [cbn [fst snd]; by autorewrite with smcv_headers|]). by apply Forall_nil.
Qed.
Lemma applied_csp headers : csp (apply_security_headers headers) = Some (default API_CSP (csp headers)).
Proof.
  unfold csp, apply_security_headers. autorewrite with smcv_headers.
  unfold insert_absent. case_bool_decide as H; autorewrite with smcv_headers in *.
  - destruct H as [v ->]. done.
  - rewrite <- eq_None_not_Some in H. by rewrite H.
Qed.

(** A response without a policy of its own. *)
Definition plain (r : Response) : Prop := csp (rs_headers r) = None \/ csp (rs_headers r) = Some API_CSP.

Lemma plain_json status body : plain (json_response status body).
Proof. by left. Qed.
Lemma plain_status status : plain (status_only status).
Proof. by left. Qed.
Lemma plain_secured r : plain r -> plain (secured r).
Proof. intros H. right. unfold secured. cbn [rs_headers]. rewrite applied_csp. by destruct H as [-> | ->]. Qed.
Lemma plain_header name value r : name <> "content-security-policy"%string -> plain r -> plain (with_header name value r).
Proof.
  intros Hn H. unfold plain, csp, with_header in *. cbn [rs_headers].
  rewrite header_get_insert_ne by congruence. done.
Qed.
Lemma plain_error {CR : Crypto} e : plain (error_response e).
Proof. apply plain_secured, plain_json. Qed.
Lemma error_headers {CR : Crypto} e :
  protected_headers (rs_headers (error_response e)) /\ csp (rs_headers (error_response e)) = Some API_CSP.
Proof.
  unfold error_response, secured. cbn [rs_headers].
  split; [apply applied_headers|]. by rewrite applied_csp.
Qed.
Lemma plain_session issued : plain (session_response issued).
Proof. unfold session_response. apply plain_secured. case_match; [apply plain_header; [done|]|]; apply plain_json. Qed.

Section Yields.
Context {WA : WebAuthn}.
(** What the responses of a handler are like. *)
Definition yields (m : Api Response) : Prop := forall s r s', m s = (Ok r, s') -> plain r.

Lemma yields_bind {A} (m : Api A) (k : A -> Api Response) : (forall a, yields (k a)) -> yields (prog_bind m k).
Proof. intros Hk s r s' H. apply prog_bind_Ok in H as (a & s1 & _ & H). by eapply Hk. Qed.
Lemma yields_ret r : plain r -> yields (prog_ret r).
Proof. intros Hr s r' s' H. by apply prog_ret_Ok in H as [-> _]. Qed.
Lemma yields_fail e : yields (prog_fail e).
Proof. by intros s r s' H. Qed.
Lemma yields_holding m : yields m -> yields (holding_slot m).
Proof. intros Hm s r s' H. unfold holding_slot in H. destruct (m s) as [[r1|] s1] eqn:E; simplify_eq. by eapply Hm. Qed.
End Yields.

Create HintDb smcv_plain.
#[export] Hint Resolve plain_json plain_status plain_secured plain_session : smcv_plain.

Ltac yield := repeat
  match goal with
  | |- yields (prog_bind _ _) => apply yields_bind; intros ?
  | |- yields (match ?x with _ => _ end) => destruct x
  | |- yields (prog_ret _) => apply yields_ret; auto with smcv_plain
  | |- yields (prog_fail _) => apply yields_fail
  | |- yields (holding_slot _) => apply yields_holding
  end.

Section Responses.
Context {CR : Crypto} {PH : PasswordHashing} {LJ : LogicalJson} {AF : ArchiveFormats} {WA : WebAuthn}
  {HT : HttpText} {JJ : JobJson} {AJ : ApiJson} (self : InitializedVault) (webauthn : Webauthn)
  (process : Process).

Lemma plain_download id expected bytes : plain (download_response id expected bytes).
Proof. unfold download_response. apply plain_secured. do 3 (apply plain_header; [done|]). by left. Qed.
#[local] Hint Resolve plain_download : smcv_plain.
Lemma plain_cleared value : plain (secured (with_header "set-cookie" value (status_only 204))).
Proof. apply plain_secured, plain_header; [done|apply plain_status]. Qed.
#[local] Hint Resolve plain_cleared : smcv_plain.

Lemma asset_plain content_type file : plain (asset_response file content_type false).
Proof. by left. Qed.
#[local] Hint Resolve asset_plain : smcv_plain.

Lemma handler_plain route headers peer : route <> GetIndex -> yields (handler self webauthn process route headers peer).
Proof.
  intros Hr. destruct route; [done|..]; unfold handler.
  all: unfold web_styles, web_app, web_api, api_live, api_ready, api_password_login, api_session_status, api_logout,
    api_start_passkey_registration, api_finish_passkey_registration, api_start_passkey_authentication,
    api_finish_passkey_authentication, challenge_response, api_list_namespaces, api_create_namespace,
    api_preview_namespace_move, api_move_namespace, api_list_secrets, api_list_secret_lifecycle, secret_page,
    api_create_secret, api_update_secret, api_archive_secret, api_restore_secret, api_delete_secret,
    secret_transition, api_purge_secret, api_read_secret_metadata, api_reveal_secret, api_secret_versions,
    api_reveal_secret_version.
  all: unfold api_list_service_identities, api_create_service_identity, api_read_service_identity,
    api_effective_access, api_list_credentials, api_issue_credential, api_revoke_credential, api_list_policies,
    api_create_policy, api_policy_rules, api_read_policy, api_archive_policy, api_add_grant, api_bind_policy,
    api_audit_events, api_not_found, api_list_backups, api_create_backup, api_backup_status, api_delete_backup,
    api_download_backup, api_verify_uploaded_backup.
  all: yield.
  intros s r s' H. injection H as <- _. apply plain_json.
Qed.

Lemma respond_csp q headers s :
  let r := fst (respond (handler self webauthn process (rq_route q) headers (rq_peer q)) s) in
  plain r \/ (rq_route q = GetIndex /\ csp (rs_headers r) = Some WEB_CSP).
Proof.
  cbv zeta. unfold respond. destruct (handler _ _ _ _ _ _ s) as [[r|e] s'] eqn:E; cbn [fst].
  2: { left. apply plain_error. }
  destruct (rq_route q) eqn:Eq; try (left; by eapply handler_plain; [|exact E]).
  injection E as <- _. by right.
Qed.

(** What the layers inside the identity of the request answer. *)
Lemma limited_response q headers s :
  let r := fst (enforce_bearer_rate_limit headers (rq_peer q) (enforce_header_limits headers
      (record_operational_metrics (respond (handler self webauthn process (rq_route q) headers (rq_peer q))))) s) in
  protected_headers (rs_headers r)
  /\ (csp (rs_headers r) = Some API_CSP \/ (rq_route q = GetIndex /\ csp (rs_headers r) = Some WEB_CSP)).
Proof.
  assert (forall f s, let r := fst (respond (do! request := request_id headers in prog_fail (f request)) s) in
    protected_headers (rs_headers r) /\ csp (rs_headers r) = Some API_CSP) as He.
  { intros f s'. destruct (request_id_step headers s') as (id & s2 & E & _). unfold respond, prog_bind. rewrite E.
    apply error_headers. }
  assert (forall s, let r := fst (enforce_header_limits headers (record_operational_metrics
      (respond (handler self webauthn process (rq_route q) headers (rq_peer q)))) s) in
    protected_headers (rs_headers r)
    /\ (csp (rs_headers r) = Some API_CSP \/ (rq_route q = GetIndex /\ csp (rs_headers r) = Some WEB_CSP))) as Hi.
  { intros s'. unfold enforce_header_limits. destruct (_ || _).
    - destruct (He invalid s') as [H1 H2]. split; [done|by left].
    - unfold record_operational_metrics. pose proof (respond_csp q headers (bump CRequests s')) as H.
      destruct (respond _ _) as [r s2]. cbn [fst secured rs_headers] in *. split; [apply applied_headers|].
      rewrite applied_csp. destruct H as [[-> | ->]|[Hg ->]]; [by left..|by right]. }
  cbv zeta. unfold enforce_bearer_rate_limit. destruct (is_some_and _ _); [|apply Hi].
  destruct (limit_bearer headers (rq_peer q) s) as [[[]|] s']; [apply Hi| |apply Hi].
  destruct (He rate_limited (bump CRateLimited s')) as [H1 H2]. split; [done|by left].
Qed.

(** Every response of the server carries the security headers: no store,
    no sniffing, no framing, no referrer, same-origin isolation and strict
    transport, whatever the route and however it ends, refusals by the limits
    included; its content policy is the closed one of the API, or that of the
    document where the page itself is served. *)
Theorem every_response_secured (q : HttpRequest) (s : Server) :
  let r := fst (serve self webauthn process q s) in
  protected_headers (rs_headers r)
  /\ (csp (rs_headers r) = Some API_CSP \/ (rq_route q = GetIndex /\ csp (rs_headers r) = Some WEB_CSP)).
Proof.
  cbv zeta. unfold serve, with_request_id.
  set (first := match header_get (rq_headers q) REQUEST_ID_HEADER with Some _ => _ | None => _ end).
  destruct first as [headers s1]. cbv beta iota. pose proof (limited_response q headers s1) as [H1 H2].
  destruct (enforce_bearer_rate_limit _ _ _ s1) as [r s2]. cbn [fst] in *.
  destruct (header_get headers REQUEST_ID_HEADER) as [id|]; [|done].
  destruct (header_get (rs_headers r) REQUEST_ID_HEADER); [done|]. unfold with_header. cbn [rs_headers].
  unfold csp, protected_headers in *. split; [|by rewrite header_get_insert_ne].
  unfold SECURITY_HEADERS in *. repeat (apply Forall_cons in H1 as [? H1]; apply Forall_cons;
    split; [cbn [fst snd] in *; by rewrite header_get_insert_ne|]). done.
Qed.


(** A backup is deleted without a CSRF token: what the handler of the
    deletion does is the same whatever that header says, although the request
    changes state and the API design asks for the token on every state-changing
    browser request but the logout. *)
Theorem backup_deletion_ignores_csrf (id value : blob) (headers : HeaderMap) (peer : option IpAddr) (s : Server) :
  handler self webauthn process (DeleteBackup id) (header_insert "x-smcv-csrf" value headers) peer s
  = handler self webauthn process (DeleteBackup id) headers peer s.
Proof.
  assert (forall n, n <> "x-smcv-csrf"%string ->
    header_text (header_insert "x-smcv-csrf" value headers) n = header_text headers n) as E.
  { intros n Hn. unfold header_text. by rewrite header_get_insert_ne. }
  unfold handler, api_delete_backup, authorize_inspect, authenticate_owner, request_id, cookie.
  rewrite !E by done. done.
Qed.
End Responses.
