(* ===== verification/BrowserProps.v ===== *)
(** The session a login opens reaches the browser: what the response sets, sent
    back as a browser sends it, authenticates the owner. *)
From Stdlib Require Import ZArith Lia Strings.Byte String.
From stdpp Require Import base tactics numbers option strings list gmap.
From S2P Require Import Prelude RustStd Core Crypto Format Sql Schema Records StoreInv IdentityStore Store Metadata VaultCore Authentication Authorization ServiceIdentity AuthorizedVault VaultAudit AuthzProps LoginProps Archive Logical Backup Passkeys Http BackupJobs Server Api BackupApi Router HttpProps ApiProps.

(** * Cookie texts *)

(** A byte that a cookie value may hold. *)
Definition cookie_byte (b : byte) : bool := visible_ascii b && negb (ascii_space b) && negb (Byte.eqb b x3b).

(** What a browser keeps of a Set-Cookie header. *)
Definition browser_cookie (set_cookie : blob) : blob := default [] (head (split x3b set_cookie)).

Lemma cookie_byte_no_semicolon l : forallb cookie_byte l = true -> x3b ∉ l.
Proof.
  intros H Hin. rewrite forallb_forall in H. apply list_elem_of_In in Hin. by apply H in Hin.
Qed.
Lemma split_once_first c k v : c ∉ k -> split_once c (k ++ c :: v) = Some (k, v).
Proof.
  induction k as [|x k IH]; intros H; cbn.
  - by rewrite (byte_eqb_spec c c), bool_decide_true.
  - apply not_elem_of_cons in H as [Hx H]. rewrite (byte_eqb_spec x c), bool_decide_false by congruence. by rewrite IH.
Qed.
Lemma trim_start_cookie l : forallb cookie_byte l = true -> trim_start l = l.
Proof.
  destruct l as [|x l]; [done|]. cbn. unfold cookie_byte. intros H. apply andb_true_iff in H as [H _].
  apply andb_true_iff in H as [H _]. apply andb_true_iff in H as [_ H]. apply negb_true_iff in H. by rewrite H.
Qed.
Lemma forallb_rev {A} (p : A -> bool) l : forallb p l = true -> forallb p (rev l) = true.
Proof. rewrite !forallb_forall. intros H x Hx. apply H. by apply in_rev in Hx. Qed.
Lemma trim_cookie l : forallb cookie_byte l = true -> trim l = l.
Proof.
  intros H. unfold trim. rewrite (trim_start_cookie l) by done.
  rewrite trim_start_cookie by (by apply forallb_rev). apply rev_involutive.
Qed.
Lemma cookie_to_str l : forallb cookie_byte l = true -> to_str l = Some l.
Proof.
  intros H. unfold to_str. rewrite (proj2 (forallb_forall _ _)); [done|]. intros x Hx.
  rewrite forallb_forall in H. specialize (H x Hx). unfold cookie_byte in H.
  apply andb_true_iff in H as [H _]. by apply andb_true_iff in H as [H _].
Qed.

(** A value that fits is read back from the header a browser sends. *)
Lemma cookie_read_back headers token :
  forallb cookie_byte token = true -> 0 < zlen token <= 128 ->
  header_get headers "cookie" = Some (SESSION_COOKIE ++ x3d :: token) -> cookie headers SESSION_COOKIE = Some token.
Proof.
  intros Ht Hl Hh. unfold cookie, header_text. rewrite Hh. cbn [mbind option_bind].
  assert (forallb cookie_byte (SESSION_COOKIE ++ x3d :: token) = true) as Hc.
  { rewrite forallb_app. cbn [forallb]. by rewrite Ht. }
  rewrite cookie_to_str by done. cbn [mbind option_bind].
  rewrite zlen_app. change (x3d :: token) with ([x3d] ++ token). rewrite zlen_app.
  change (zlen SESSION_COOKIE) with 19. change (zlen [x3d]) with 1.
  destruct (Z.ltb_spec 4096 (19 + (1 + zlen token))); [lia|].
  change ([x3d] ++ token) with (x3d :: token).
  rewrite split_no_sep by (by apply cookie_byte_no_semicolon). cbn [find_map]. unfold cookie_field.
  rewrite trim_cookie by done. rewrite split_once_first by (by apply (bool_decide_unpack (x3d ∉ SESSION_COOKIE))).
  cbn [mbind option_bind]. unfold blob_eqb. rewrite bool_decide_true by done.
  destruct (Nat.eqb_spec (length token) 0); [unfold zlen in *; lia|].
  by rewrite (proj2 (Z.leb_le _ _) (proj2 Hl)).
Qed.

(** * The tokens of a session *)

Section Browser.
Context {CR : Crypto} {CL : CryptoLaws} {PH : PasswordHashing} {WA : WebAuthn} {HT : HttpText} {HL : HttpTextLaws}
  (self : InitializedVault).

Lemma b64_cookie_bytes l : forallb cookie_byte (b64_encode l) = true.
Proof.
  apply forallb_forall. intros x Hx. apply list_elem_of_In, b64_url_safe in Hx.
  assert (Forall (fun b => cookie_byte b = true)
    (bstr "ABCDEFGHIJKLMNOPQRSTUVWXYZabcdefghijklmnopqrstuvwxyz0123456789-_")) as H
    by (apply (bool_decide_unpack _); by vm_compute).
  rewrite Forall_forall in H. by apply H.
Qed.

Lemma session_tokens owner a data request now w secrets w' :
  create_browser_session self owner a data request now w = (Ok secrets, w') ->
  forallb cookie_byte (bs_session_token secrets) = true /\ zlen (bs_session_token secrets) = 75
  /\ forallb cookie_byte (bs_csrf_token secrets) = true.
Proof.
  intros H. unfold create_browser_session in H. apply prog_bind_Ok in H as (? & w1 & _ & H).
  apply prog_bind_Ok in H as (issued & w2 & Hi & H). apply prog_map_err_Ok in Hi.
  assert (exists n n', issue_session (iv_token_verifier_key self) n = (Ok issued, n')) as (n & n' & Hs).
  { unfold randomly in Hi. destruct (issue_session _ (w_draws w1)) as [[i|] n'] eqn:E; cbn in Hi; simplify_eq. by eexists _, _. }
  assert (bs_session_token secrets = is_session_token issued /\ bs_csrf_token secrets = is_csrf_token issued) as [-> ->].
  { repeat (apply prog_bind_Ok in H as (? & ? & _ & H)). by apply prog_ret_Ok in H as [-> _]. }
  unfold issue_session in Hs. do 3 (apply prog_bind_Ok in Hs as (? & ? & _ & Hs)). apply prog_ret_Ok in Hs as [-> _].
  cbn [is_session_token is_csrf_token]. rewrite !forallb_app, !b64_cookie_bytes. split_and!; [done| |done].
  by rewrite !zlen_app, !b64_array_length.
Qed.

(** * The login *)

Lemma opens_draws w token csrf x n : opens self w token csrf x -> opens self (set_w_draws n w) token csrf x.
Proof. by intros [? ? ? ? ? ? ? ? ?]. Qed.

(** A session that is open is reached by the headers of a browser. *)
Lemma browser_authenticates s token csrf x now t browser :
  opens self (sv_world s) token csrf x -> ses_revoked_at_unix_ms x = None ->
  ses_created_at_unix_ms x = now -> ses_last_used_at_unix_ms x = now -> ses_recent_auth_at_unix_ms x = now ->
  ses_idle_expires_at_unix_ms x = now + SESSION_IDLE_MS ->
  ses_absolute_expires_at_unix_ms x = now + SESSION_ABSOLUTE_MS ->
  0 <= now -> now + SESSION_ABSOLUTE_MS + SESSION_IDLE_MS <= i64_max -> now <= t <= now + SESSION_IDLE_MS ->
  forallb cookie_byte token = true -> 0 < zlen token <= 128 -> forallb cookie_byte csrf = true ->
  header_get browser "cookie" = Some (SESSION_COOKIE ++ x3d :: token) ->
  header_get browser "x-smcv-csrf" = Some csrf ->
  exists owner s', authenticate_owner self browser true t s = (Ok owner, s')
    /\ ao_principal_id owner = ses_principal_id x /\ is_valid_at owner t = true.
Proof.
  intros Ho Hr H1 H2 H3 H4 H5 Hn Hi Ht Htok Hl Hcs Hc Hx. unfold authenticate_owner, prog_bind at 1.
  destruct (request_id_step browser s) as (id & s1 & -> & n & k & E).
  rewrite (cookie_read_back browser token) by done. cbn [ok_or]. unfold prog_bind, prog_lift.
  assert (header_text browser "x-smcv-csrf" = Some csrf) as ->.
  { unfold header_text. rewrite Hx. cbn [mbind option_bind]. by apply cookie_to_str. }
  assert (opens self (sv_world s1) token csrf x) as Ho1 by (subst s1; by apply opens_draws).
  unfold SESSION_IDLE_MS, SESSION_ABSOLUTE_MS, i64_max in *.
  edestruct (presented_inside self (sv_world s1) token csrf true x t Ho1 Hr) as (w' & c & Ha & _);
    try (unfold in_i64, SESSION_IDLE_MS, RECENT_AUTH_MS, i64_min, i64_max; lia).
  unfold of_vault. rewrite Ha. eexists _, _. split; [done|]. split; [done|].
  unfold is_valid_at, presented_as. cbn. apply andb_true_iff. rewrite !Z.leb_le. unfold SESSION_IDLE_MS. lia.
Qed.

(** A response that carries a session *)
Lemma session_response_set issued :
  forallb cookie_byte (bs_session_token issued) = true ->
  header_get (rs_headers (session_response issued)) "set-cookie"
  = Some (SESSION_COOKIE ++ x3d :: bs_session_token issued ++ bstr "; Path=/; Secure; HttpOnly; SameSite=Strict").
Proof.
  intros H. unfold session_response.
  assert (forallb visible_ascii (SESSION_COOKIE ++ bstr "=" ++ bs_session_token issued
            ++ bstr "; Path=/; Secure; HttpOnly; SameSite=Strict") = true) as ->.
  { rewrite !forallb_app. apply cookie_to_str in H. unfold to_str in H.
    destruct (forallb visible_ascii (bs_session_token issued)); done. }
  unfold secured, with_header. cbn [rs_headers]. unfold apply_security_headers.
  by autorewrite with smcv_headers.
Qed.
Lemma browser_keeps token :
  forallb cookie_byte token = true ->
  browser_cookie (SESSION_COOKIE ++ x3d :: token ++ bstr "; Path=/; Secure; HttpOnly; SameSite=Strict")
  = SESSION_COOKIE ++ x3d :: token.
Proof.
  intros H. unfold browser_cookie.
  change (bstr "; Path=/; Secure; HttpOnly; SameSite=Strict")
    with (x3b :: bstr " Path=/; Secure; HttpOnly; SameSite=Strict").
  change (SESSION_COOKIE ++ x3d :: token ++ x3b :: ?r) with (SESSION_COOKIE ++ (x3d :: token) ++ x3b :: r).
  rewrite app_assoc, split_app_sep; [done|]. apply cookie_byte_no_semicolon.
  rewrite forallb_app. cbn [forallb]. by rewrite H.
Qed.

Lemma login_Ok peer headers attempt s r s' :
  api_password_login self peer headers attempt s = (Ok r, s') ->
  exists request n secrets w',
    login_with_password self attempt request (now_unix_ms (rg_clock (sv_jobs s) (rg_ticks (sv_jobs s))))
      (set_w_draws n (sv_world s)) = (Ok secrets, w')
    /\ r = session_response secrets /\ sv_world s' = w'.
Proof.
  intros H. unfold api_password_login, prog_bind at 1 in H.
  destruct (request_id_step headers s) as (request & s1 & E1 & n & k & ->).
  assert (rg_ticks (sv_jobs (set_sv_jobs (set_rg_ticks k (sv_jobs s))
            (set_sv_world (set_w_draws n (sv_world s)) s))) = rg_ticks (sv_jobs s)) as Hk.
  { apply (f_equal (fun p => rg_ticks (sv_jobs (snd p)))) in E1. cbn [snd] in E1. rewrite <- E1.
    unfold request_id. by destruct (_ ≫= _). }
  rewrite E1 in H. cbn in Hk. subst k. cbv beta iota in H.
  apply prog_bind_Ok in H as (now & s2 & Hnow & H). injection Hnow as <- <-.
  apply prog_bind_Ok in H as (u & s3 & Hlim & H).
  assert (sv_world s3 = set_w_draws n (sv_world s)) as Hw.
  { unfold limit_login in Hlim. destruct (allow _ _ _ _) as [[] rate]; by simplify_eq/=. }
  apply prog_bind_Ok in H as (slot & s4 & Hs & H). apply prog_read_Ok in Hs as [_ ->].
  apply prog_bind_Ok in H as (u' & s5 & Hs & H). apply prog_reject_Ok in Hs as [_ ->].
  apply prog_bind_Ok in H as (secrets & s6 & Hs & H). apply prog_ret_Ok in H as [-> ->].
  unfold of_vault in Hs. rewrite Hw in Hs. destruct (login_with_password _ _ _ _ _) as [[x|] w'] eqn:El; [|done].
  injection Hs as -> <-. by exists request, n, secrets, w'.
Qed.

Context {PL : PasswordLaws}.

(** C13. What a login answers is a session for the browser. After the owner was
    enrolled, whenever a password login is answered with success, its response
    sets a cookie and tells a CSRF token, and a request that sends both back as
    a browser does, within the next half hour, is authenticated as the enrolled
    owner. *)
Theorem login_reaches_browser (password : rstring) (request : RequestId) (enrolled_at : Z) (w : World) (p : PrincipalId)
    (peer : option IpAddr) (headers : HeaderMap) (attempt : rstring) (s s' : Server) (r : Response)
    (Hquiet : quiet w) (Hok : db_ok (w_db w)) (Hnew : rows (db_authenticators (w_db w)) = [])
    (Henroll : enroll_local_owner self password request enrolled_at w = (Ok p, sv_world s))
    (Hlogin : api_password_login self peer headers attempt s = (Ok r, s'))
    (now := now_unix_ms (rg_clock (sv_jobs s) (rg_ticks (sv_jobs s))))
    (Hclock : now + SESSION_ABSOLUTE_MS + SESSION_IDLE_MS <= i64_max) :
  exists set_cookie csrf,
    header_get (rs_headers r) "set-cookie" = Some set_cookie
    /\ rs_body r = SessionResponse csrf (now + SESSION_ABSOLUTE_MS)
    /\ forall t browser, now <= t <= now + SESSION_IDLE_MS ->
         header_get browser "cookie" = Some (browser_cookie set_cookie) ->
         header_get browser "x-smcv-csrf" = Some csrf ->
         exists owner s'', authenticate_owner self browser true t s' = (Ok owner, s'')
           /\ ao_principal_id owner = p /\ is_valid_at owner t = true.
Proof.
  destruct (enroll_local_owner_Ok self password request enrolled_at w p _ Hquiet Hok Hnew Henroll)
    as (pc & phc & id & c & Hphc & Hq' & Hok' & Hpc & Hc & Ho & Hp & Hau).
  assert (verify_principal_commitment self (enrolled_owner p pc) = Ok tt) as Hv.
  { unfold verify_principal_commitment. cbn. rewrite Hpc. cbn. by rewrite bool_decide_true. }
  assert (verify_authenticator_commitment self (enrolled_password p id phc c enrolled_at) = Ok tt) as Hav.
  { unfold verify_authenticator_commitment. cbn. rewrite Hc. cbn. by rewrite bool_decide_true. }
  assert (0 <= now <= i64_max) as Hnow.
  { unfold now, now_unix_ms, try_from. destruct (_ && _) eqn:E; cbn; [|by unfold i64_max].
    bprop. lia. }
  assert (in_i64 now) as Hin by (split; [unfold i64_min; lia|lia]).
  apply login_Ok in Hlogin as (request2 & n & secrets & w2 & Hrun & -> & <-). fold now in Hrun.
  rewrite (login_decides self (set_w_draws n (sv_world s)) (enrolled_owner p pc)
    (enrolled_password p id phc c enrolled_at) phc _ _ attempt request2 now Hq' Ho Hv eq_refl Hau Hav eq_refl Hphc) in Hrun.
  destruct (password_accepted phc attempt); [|done].
  destruct (session_tokens _ _ _ _ _ _ _ _ Hrun) as (Ht & Hl & Hcs).
  destruct (create_browser_session_opens self (enrolled_owner p pc) _ _ _ _ (set_w_draws n (sv_world s)) _ _ Hq' Hok'
    Hin Hp Hv eq_refl Hrun) as (sid & l & v & cv & c' & Hopen & Habs & _).
  eexists _, _. split; [by apply session_response_set|]. split.
  { unfold session_response. destruct (forallb visible_ascii _); unfold secured, with_header, json_response;
      cbn [rs_body]; by rewrite Habs. }
  intros t browser Hti Hck Hx. rewrite browser_keeps in Hck by done.
  eapply (browser_authenticates s' _ _ _ now t browser Hopen); try done; try lia.
Qed.
End Browser.
