(* ===== verification/JobProps.v ===== *)
(** The registry of backup jobs stays sound: the families of names in its
    directory, a Hoare logic for programs on it, and the theorem that whatever
    operations fail and wherever the process stops, every name is of a known
    family and every status file holds a whole record. *)
From Stdlib Require Import ZArith Lia Strings.Byte String.
From stdpp Require Import base tactics numbers option strings list gmap.
From S2P Require Import Prelude RustStd Core Crypto Format Sql Initialization Authentication Archive Portable Logical Backup Passkeys PasskeyProps Http BackupJobs Server BackupApi.

Section Names.
Context {CR : Crypto} {CL : CryptoLaws} {HT : HttpText} {HL : HttpTextLaws}.

Definition uuid_byte (b : byte) : bool := bool_decide (b ∈ bstr "0123456789abcdef-").
Lemma uuid_bytes u b : b ∈ uuid_text u -> uuid_byte b = true.
Proof. intros H. apply bool_decide_true. by apply uuid_digits in H. Qed.
Lemma uuid_text_cons u : exists b l, uuid_text u = b :: l /\ uuid_byte b = true.
Proof.
  pose proof (uuid_length u) as H. pose proof (uuid_bytes u) as Hb. destruct (uuid_text u) as [|b l]; [done|].
  exists b, l. split; [done|]. apply Hb. by left.
Qed.

(** The first byte of a name tells the artifacts and status files apart from
    the rest, and the last ones tell them apart. *)
Lemma status_head u : exists b l, status_path u = b :: l /\ uuid_byte b = true.
Proof. destruct (uuid_text_cons u) as (b & l & E & Hb). unfold status_path. rewrite E. by eexists _, _. Qed.
Lemma artifact_head u : exists b l, artifact_path u = b :: l /\ uuid_byte b = true.
Proof. destruct (uuid_text_cons u) as (b & l & E & Hb). unfold artifact_path. rewrite E. by eexists _, _. Qed.

Lemma starts_with_app p l : starts_with p (p ++ l) = true.
Proof. unfold starts_with, blob_eqb. rewrite take_app_length. by rewrite bool_decide_true. Qed.
Lemma starts_with_head p x b l : starts_with (x :: p) (b :: l) = true -> x = b.
Proof. unfold starts_with, blob_eqb. rewrite bool_decide_eq_true. cbn. by intros [= ->]. Qed.
Lemma ends_with_app p l : ends_with p (l ++ p) = true.
Proof. unfold ends_with. rewrite rev_app_distr. apply starts_with_app. Qed.
Lemma ends_with_spec p l : ends_with p l = true -> exists k, l = k ++ p.
Proof.
  unfold ends_with, starts_with, blob_eqb. rewrite bool_decide_eq_true. intros H.
  exists (rev (drop (length (rev p)) (rev l))). rewrite <- (rev_involutive l) at 1.
  rewrite <- (take_drop (length (rev p)) (rev l)) at 1. by rewrite H, rev_app_distr, rev_involutive.
Qed.
Lemma last_app_cons (k : blob) p x : last (k ++ p ++ [x]) = Some x.
Proof. rewrite app_assoc. apply last_snoc. Qed.

Definition dotted (name : blob) : bool := match name with x2e :: _ => true | _ => false end.
Lemma status_dotted u : dotted (status_path u) = false.
Proof. destruct (status_head u) as (b & l & -> & Hb). destruct b; try done. Qed.
Lemma artifact_dotted u : dotted (artifact_path u) = false.
Proof. destruct (artifact_head u) as (b & l & -> & Hb). destruct b; try done. Qed.

Lemma stale_dotted name : stale_temporary name = true -> dotted name = true.
Proof.
  unfold stale_temporary. destruct name as [|b l]; [done|]. intros H.
  apply orb_true_iff in H as [[H _]%andb_true_iff|[H _]%andb_true_iff]; apply starts_with_head in H as <-; done.
Qed.
Lemma drill_dotted name : starts_with (bstr ".restore-drill-") name = true -> dotted name = true.
Proof. destruct name as [|b l]; [done|]. intros H. by apply starts_with_head in H as <-. Qed.

Lemma split_once_app k v : x2e ∉ k -> split_once x2e (k ++ x2e :: v) = Some (k, v).
Proof.
  induction k as [|x k IH]; intros H; cbn; [done|].
  apply not_elem_of_cons in H as [Hx H]. rewrite (byte_eqb_spec x x2e), bool_decide_false by congruence.
  by rewrite IH.
Qed.
Lemma in_rev_elem (b : byte) l : b ∈ l <-> b ∈ rev l.
Proof. rewrite !list_elem_of_In. apply in_rev. Qed.
(** The extension of a name that ends in a dot and a text without one. *)
Lemma extension_app stem ext :
  x2e ∉ ext -> stem <> [] -> extension (stem ++ x2e :: ext) = Some ext.
Proof.
  intros He Hs. unfold extension. rewrite rev_app_distr. cbn [rev]. rewrite <- app_assoc. cbn [app].
  rewrite split_once_app.
  - destruct (Nat.eqb_spec (length (rev stem)) 0) as [E|]; [|by rewrite rev_involutive].
    rewrite length_rev in E. by destruct stem.
  - by rewrite <- in_rev_elem.
Qed.
Lemma uuid_text_nonempty u : uuid_text u <> [].
Proof. by destruct (uuid_text_cons u) as (b & l & -> & _). Qed.

Lemma status_extension u : extension (status_path u) = Some (bstr "json").
Proof.
  unfold status_path. change (bstr ".json") with (x2e :: bstr "json").
  apply extension_app; [by apply (bool_decide_unpack _)|apply uuid_text_nonempty].
Qed.
Lemma artifact_extension u : extension (artifact_path u) = Some (bstr "smcvault").
Proof.
  unfold artifact_path. change (bstr ".smcvault") with (x2e :: bstr "smcvault").
  apply extension_app; [by apply (bool_decide_unpack _)|apply uuid_text_nonempty].
Qed.
Lemma partial_extension u : extension (partial_path u) = Some (bstr "partial").
Proof.
  unfold partial_path. change (bstr ".partial") with (x2e :: bstr "partial"). rewrite app_assoc.
  apply extension_app; [by apply (bool_decide_unpack _)|done].
Qed.

Lemma temporary_extension u : extension (status_temporary u) = Some (bstr "tmp").
Proof.
  unfold status_temporary. change (bstr ".tmp") with (x2e :: bstr "tmp"). rewrite app_assoc.
  apply extension_app; [by apply (bool_decide_unpack _)|done].
Qed.
Lemma upload_extension u : extension (verify_path u) = Some (bstr "smcvault").
Proof.
  unfold verify_path. change (bstr ".smcvault") with (x2e :: bstr "smcvault"). rewrite app_assoc.
  apply extension_app; [by apply (bool_decide_unpack _)|done].
Qed.
(** The only dot of a drill is its first byte. *)
Lemma drill_extension u : extension (drill_path u) = None.
Proof.
  unfold extension, drill_path. change (bstr ".restore-drill-") with (x2e :: bstr "restore-drill-").
  cbn [app rev]. rewrite split_once_app; [done|]. rewrite <- in_rev_elem. intros H. apply elem_of_app in H as [H|H].
  - revert H. by apply (bool_decide_unpack _).
  - by apply uuid_bytes in H.
Qed.

Lemma status_inj u v : status_path u = status_path v -> u = v.
Proof. unfold status_path. intros H. apply app_inv_tail in H. by apply uuid_inj. Qed.
Lemma artifact_inj u v : artifact_path u = artifact_path v -> u = v.
Proof. unfold artifact_path. intros H. apply app_inv_tail in H. by apply uuid_inj. Qed.
Lemma status_not_artifact u v : status_path u <> artifact_path v.
Proof. intros H. pose proof (status_extension u) as E. rewrite H, artifact_extension in E. done. Qed.

Lemma temporary_stale u : stale_temporary (status_temporary u) = true.
Proof.
  unfold stale_temporary, status_temporary. apply orb_true_iff. right. rewrite starts_with_app. cbn [andb].
  rewrite app_assoc. apply ends_with_app.
Qed.
Lemma upload_stale u : stale_temporary (verify_path u) = true.
Proof.
  unfold stale_temporary, verify_path. rewrite starts_with_app, app_assoc, ends_with_app. done.
Qed.
Lemma ends_last p x name : ends_with (p ++ [x]) name = true -> last name = Some x.
Proof. intros H. apply ends_with_spec in H as [k ->]. apply last_app_cons. Qed.
Lemma partial_not_stale u : stale_temporary (partial_path u) = false.
Proof.
  unfold stale_temporary. apply not_true_iff_false. intros H.
  apply orb_true_iff in H as [[H _]%andb_true_iff|[H _]%andb_true_iff]; by vm_compute in H.
Qed.
Lemma partial_not_drill u : starts_with (bstr ".restore-drill-") (partial_path u) = false.
Proof. apply not_true_iff_false. intros H. by vm_compute in H. Qed.
Lemma drill_starts u : starts_with (bstr ".restore-drill-") (drill_path u) = true.
Proof. unfold drill_path. apply starts_with_app. Qed.
Lemma drill_not_stale u : stale_temporary (drill_path u) = false.
Proof.
  unfold stale_temporary. apply not_true_iff_false. intros H.
  apply orb_true_iff in H as [[H _]%andb_true_iff|[H _]%andb_true_iff]; by vm_compute in H.
Qed.
Lemma temporary_not_drill u : starts_with (bstr ".restore-drill-") (status_temporary u) = false.
Proof. apply not_true_iff_false. intros H. by vm_compute in H. Qed.
Lemma upload_not_drill u : starts_with (bstr ".restore-drill-") (verify_path u) = false.
Proof. apply not_true_iff_false. intros H. by vm_compute in H. Qed.

Lemma strip_suffix_app suffix l : strip_suffix suffix (l ++ suffix) = Some l.
Proof.
  unfold strip_suffix. rewrite rev_app_distr, strip_prefix_app. cbn. by rewrite rev_involutive.
Qed.
Lemma strip_suffix_spec suffix l k : strip_suffix suffix l = Some k -> l = k ++ suffix.
Proof.
  unfold strip_suffix. intros H. apply fmap_Some in H as (r & H & ->). apply strip_prefix_Some in H.
  rewrite <- (rev_involutive l), H, rev_app_distr. by rewrite rev_involutive.
Qed.
Lemma artifact_id u : strip_suffix (bstr ".smcvault") (artifact_path u) ≫= parse_str = Some u.
Proof. unfold artifact_path. rewrite strip_suffix_app. cbn. apply parse_uuid_text. Qed.
Lemma smcvault_last name k : strip_suffix (bstr ".smcvault") name = Some k -> last name = Some x74.
Proof.
  intros H. apply strip_suffix_spec in H as ->.
  change (bstr ".smcvault") with (bstr ".smcvaul" ++ [x74]). apply last_app_cons.
Qed.
Lemma status_not_suffixed u : strip_suffix (bstr ".smcvault") (status_path u) = None.
Proof.
  destruct (strip_suffix _ _) as [k|] eqn:E; [|done]. apply smcvault_last in E. unfold status_path in E.
  change (bstr ".json") with (bstr ".jso" ++ [x6e]) in E. by rewrite last_app_cons in E.
Qed.
End Names.

(** * Sound records and directories *)

(** A record that loads again. *)
Record record_ok (r : BackupJobRecord) : Prop := {
  ro_typed : job_typed r;
  ro_times : 0 <= bj_created_at_unix_ms r <= bj_updated_at_unix_ms r;
  ro_expiry : bj_created_at_unix_ms r < bj_expires_at_unix_ms r;
  ro_digest : zlen (default [] (bj_artifact_sha256 r)) <= 64;
  ro_code : zlen (bstr (default ""%string (bj_error_code r))) <= 64 }.

Section Sound.
Context {CR : Crypto} {CL : CryptoLaws} {HT : HttpText} {HL : HttpTextLaws} {JJ : JobJson} {JL : JobJsonLaws}
  (process : Process) (read_order : nat -> list blob -> list blob).

Definition status_text (r : BackupJobRecord) : blob := job_to_json r ++ [x0a].

Definition file_ok (name : blob) (n : Node) : Prop :=
  (exists id, name = artifact_path id /\ nd_kind n = RegularNode)
  \/ (exists r, name = status_path (bj_job_id r) /\ record_ok r /\ nd_kind n = RegularNode /\ nd_bytes n = status_text r)
  \/ (exists id, (name = status_temporary id \/ name = verify_path id \/ name = partial_path id)
                 /\ nd_kind n = RegularNode)
  \/ (exists id, name = drill_path id /\ nd_kind n = DirectoryNode).

Definition disk_ok (files : gmap blob Node) : Prop := map_Forall file_ok files.
Definition memory_ok (jobs : gmap Uuid BackupJobRecord) : Prop :=
  map_Forall (fun id r => bj_job_id r = id /\ record_ok r) jobs /\ map_len jobs <= MAX_JOBS.
Definition sound (s : Registry) : Prop := disk_ok (rg_files s) /\ memory_ok (rg_jobs s).

Lemma disk_insert files name n : disk_ok files -> file_ok name n -> disk_ok (<[name := n]> files).
Proof. intros. by apply map_Forall_insert_2. Qed.
Lemma disk_delete files name : disk_ok files -> disk_ok (delete name files).
Proof. intros. by apply map_Forall_delete. Qed.
Lemma sound_files s files : sound s -> disk_ok files -> sound (set_rg_files files s).
Proof. by intros [_ ?] ?. Qed.
Lemma sound_jobs s jobs : sound s -> memory_ok jobs -> sound (set_rg_jobs jobs s).
Proof. by intros [? _] ?. Qed.

(** A temporary file may hold anything. *)
Lemma stale_any name n n' :
  file_ok name n -> stale_temporary name = true -> nd_kind n' = nd_kind n ->
  nd_kind n = RegularNode /\ file_ok name n'.
Proof.
  intros [(u & -> & _)|[(r & -> & _)|[(u & Hn & Hk)|(u & -> & _)]]] Hstale E.
  - apply stale_dotted in Hstale. by rewrite artifact_dotted in Hstale.
  - apply stale_dotted in Hstale. by rewrite status_dotted in Hstale.
  - split; [done|]. right; right; left. exists u. by rewrite E.
  - by rewrite drill_not_stale in Hstale.
Qed.

(** * Programs that keep the registry sound *)

(** A program on the files: it leaves the jobs in memory alone. *)
Definition hoare {E A} (P : Registry -> Prop) (m : Prog Registry E A) (Q : A -> Registry -> Prop) : Prop :=
  forall s, sound s -> P s ->
    (sound (snd (m s)) /\ rg_jobs (snd (m s)) = rg_jobs s)
    /\ match m s with (Ok a, s') => Q a s' | (Err _, _) => True end.
Definition safe {E A} (m : Prog Registry E A) : Prop := hoare (fun _ => True) m (fun _ _ => True).

Lemma hoare_bind {E A B} P (m : Prog Registry E A) (k : A -> Prog Registry E B) R Q :
  hoare P m R -> (forall a, hoare (R a) (k a) Q) -> hoare P (prog_bind m k) Q.
Proof.
  intros Hm Hk s Hs HP. destruct (Hm s Hs HP) as [[Hs1 Hj] HR]. unfold prog_bind.
  destruct (m s) as [[a|e] s1]; [|done]. cbn in *. rewrite <- Hj. by apply Hk.
Qed.
Lemma hoare_ret {E A} P (a : A) Q : (forall s, sound s -> P s -> Q a s) -> hoare (E:=E) P (prog_ret a) Q.
Proof. intros H s Hs HP. split; [done|]. by apply H. Qed.
Lemma hoare_reject {E} P bad (e : E) : hoare P (prog_reject bad e) (fun _ s => P s /\ bad = false).
Proof. intros s Hs HP. by destruct bad. Qed.
Lemma hoare_read {E A} P (f : Registry -> result E A) : hoare P (prog_read f) (fun a s => P s /\ f s = Ok a).
Proof. intros s Hs HP. split; [done|]. unfold prog_read. by destruct (f s). Qed.
Lemma hoare_lift {E A} P (r : result E A) : hoare P (prog_lift r) (fun a s => P s /\ r = Ok a).
Proof. intros s Hs HP. split; [done|]. unfold prog_lift. by destruct r. Qed.
Lemma hoare_weaken {E A} (P P' : Registry -> Prop) (m : Prog Registry E A) (Q Q' : A -> Registry -> Prop) :
  hoare P m Q -> (forall s, P' s -> P s) -> (forall a s, Q a s -> Q' a s) -> hoare P' m Q'.
Proof.
  intros H HP HQ s Hs Hs'. destruct (H s Hs (HP s Hs')) as [H1 H2]. split; [done|].
  destruct (m s) as [[a|]]; [|done]. by apply HQ.
Qed.
Lemma hoare_assume {E A} (X : Prop) (m : Prog Registry E A) Q : (X -> hoare (fun _ => True) m Q) -> hoare (fun _ => X) m Q.
Proof. intros H s Hs HX. by apply (H HX). Qed.
Lemma hoare_try {E F A} P (m : Prog Registry E A) Q : hoare P m Q -> hoare P (prog_try (F:=F) m) (fun _ _ => True).
Proof. intros H s Hs HP. destruct (H s Hs HP) as [H1 _]. unfold prog_try. by destruct (m s). Qed.
Lemma hoare_fs_op {A} P partial (m : Jobs A) Q :
  (forall s l, P s -> P (set_rg_outcomes l s)) ->
  (forall n s, sound s -> P s -> sound (partial n s) /\ rg_jobs (partial n s) = rg_jobs s) ->
  hoare P m Q -> hoare P (fs_op partial m) Q.
Proof.
  intros Ho Hp Hm s Hs HP. unfold fs_op. destruct (rg_running s); [|done]. cbn [negb].
  destruct (rg_outcomes s) as [|[|n|n] l]; [by apply Hm|..].
  - apply (Hm (set_rg_outcomes l s)); [done|by apply Ho].
  - split; [apply (Hp n (set_rg_outcomes l s)); [done|by apply Ho]|done].
  - destruct (Hp n (set_rg_outcomes l s)) as [H1 H2]; [done|by apply Ho|]. split; [|done]. by split.
Qed.
Lemma hoare_fs {A} P (m : Jobs A) Q :
  (forall s l, P s -> P (set_rg_outcomes l s)) -> hoare P m Q -> hoare P (fs m) Q.
Proof. intros Ho Hm. by apply hoare_fs_op. Qed.
Lemma safe_fs {A} (m : Jobs A) : safe m -> safe (fs m).
Proof. intros H. by apply hoare_fs. Qed.
Lemma hoare_silent P : (forall s l, P s -> P (set_rg_outcomes l s)) -> hoare P fs_silent (fun _ s => P s).
Proof. intros Ho. apply hoare_fs; [done|]. by apply hoare_ret. Qed.

Lemma safe_bind {E A B} (m : Prog Registry E A) (k : A -> Prog Registry E B) : safe m -> (forall a, safe (k a)) -> safe (prog_bind m k).
Proof. intros Hm Hk. by eapply hoare_bind. Qed.
Lemma safe_ret {E A} (a : A) : safe (E:=E) (prog_ret a).
Proof. by apply hoare_ret. Qed.
Lemma safe_reject {E} bad (e : E) : safe (prog_reject bad e).
Proof. by intros s Hs; destruct bad. Qed.
Lemma safe_read {E A} (f : Registry -> result E A) : safe (prog_read f).
Proof. intros s Hs _. split; [done|]. unfold prog_read. by destruct (f s). Qed.
Lemma safe_lift {E A} (r : result E A) : safe (prog_lift r).
Proof. intros s Hs _. split; [done|]. unfold prog_lift. by destruct r. Qed.
Lemma safe_try {E F A} (m : Prog Registry E A) : safe m -> safe (prog_try (F:=F) m).
Proof. intros H. by eapply hoare_try. Qed.
Lemma safe_fail {E A} (e : E) : safe (A:=A) (prog_fail e).
Proof. done. Qed.

Lemma safe_silent : safe fs_silent.
Proof. by apply hoare_silent. Qed.
Lemma safe_lstat name : safe (lstat name).
Proof. apply safe_fs, safe_read. Qed.
Lemma safe_remove_file name : safe (remove_file name).
Proof.
  apply safe_fs. intros s Hs _. destruct (rg_files s !! name) as [n|]; [|done].
  case_bool_decide; [done|]. split; [|done]. split; [|done]. apply sound_files; [done|]. apply disk_delete, Hs.
Qed.
Lemma safe_remove name : safe (remove_if_exists name).
Proof.
  intros s Hs _. destruct (safe_remove_file name s Hs I) as [H _]. unfold remove_if_exists.
  destruct (remove_file name s) as [[|[]] s']; done.
Qed.
Lemma safe_remove_dir name : safe (remove_dir_all name).
Proof. apply safe_fs. intros s Hs _. split; [|done]. split; [|done]. apply sound_files; [done|]. apply disk_delete, Hs. Qed.
Lemma safe_drop {A} name (m : Jobs A) : safe m -> safe (drop_removes name m).
Proof.
  intros H s Hs _. destruct (H s Hs I) as [[H1 H2] _]. unfold drop_removes.
  destruct (m s) as [r s1]. cbn [snd] in *. rewrite <- H2. split; [by apply safe_remove|by destruct r].
Qed.
Lemma safe_draw : safe draw_uuid.
Proof. by intros s Hs. Qed.
Lemma hoare_clock : hoare (fun _ => True) clock_now (fun z _ => 0 <= z <= i64_max).
Proof.
  intros s Hs _. split; [done|]. cbn. unfold now_unix_ms, try_from. destruct (_ && _) eqn:E; bprop; cbn; [lia|].
  unfold i64_max. lia.
Qed.

(** * Writing a status *)

Definition holds (name : blob) (bytes : blob) (s : Registry) : Prop :=
  exists n, rg_files s !! name = Some n /\ nd_bytes n = bytes.

Lemma append_sound name bytes s : stale_temporary name = true -> sound s -> sound (append_bytes name bytes s).
Proof.
  intros Hstale Hs. apply sound_files; [done|]. destruct Hs as [Hd _].
  intros name' n Hn. destruct (decide (name' = name)) as [->|Hne].
  - rewrite lookup_alter_eq in Hn. destruct (rg_files s !! name) as [n0|] eqn:E; [|done].
    injection Hn as <-. by apply (stale_any name n0); [apply Hd| |].
  - rewrite lookup_alter_ne in Hn by done. by apply Hd.
Qed.
Lemma write_all_holds name before bytes :
  stale_temporary name = true ->
  hoare (holds name before) (write_all name bytes) (fun _ s => holds name (before ++ bytes) s).
Proof.
  intros Hstale. apply hoare_fs_op; [done|..].
  - intros n s Hs _. split; [by apply append_sound|done].
  - intros s Hs (n & Hn & <-). split; [split; [by apply append_sound|done]|]. cbn.
    unfold holds, append_bytes. cbn. rewrite lookup_alter_eq, Hn. cbn. by eexists.
Qed.
Lemma safe_write name bytes : stale_temporary name = true -> safe (write_all name bytes).
Proof.
  intros Hstale. apply hoare_fs_op; [done|..].
  - intros n s Hs _. split; [by apply append_sound|done].
  - intros s Hs _. split; [split; [by apply append_sound|done]|done].
Qed.
Lemma create_new_holds name :
  (forall n, nd_kind n = RegularNode -> file_ok name n) ->
  hoare (fun _ => True) (create_new process name) (fun _ s => holds name [] s).
Proof.
  intros Hname. apply hoare_fs; [done|]. intros s Hs _. destruct (rg_files s !! _); [done|]. split.
  - split; [|done]. apply sound_files; [done|]. apply disk_insert; [apply Hs|]. by apply Hname.
  - cbn. unfold holds. cbn. rewrite lookup_insert_eq. by eexists.
Qed.
Lemma temporary_ok id n : nd_kind n = RegularNode -> file_ok (status_temporary id) n.
Proof. intros. right; right; left. exists id. split; [by left|done]. Qed.
Lemma upload_ok id n : nd_kind n = RegularNode -> file_ok (verify_path id) n.
Proof. intros. right; right; left. exists id. split; [by right; left|done]. Qed.
Lemma rename_status id r :
  record_ok r ->
  hoare (holds (status_temporary id) (status_text r)) (rename (status_temporary id) (status_path (bj_job_id r)))
        (fun _ _ => True).
Proof.
  intros Hr. apply hoare_fs; [done|]. intros s Hs (n & Hn & Hb). rewrite Hn. case_bool_decide; [done|].
  split; [|done]. split; [|done]. apply sound_files; [done|]. apply disk_insert; [apply disk_delete, Hs|].
  right; left. exists r. split_and!; [done..| |done]. destruct Hs as [Hd _]. apply (stale_any _ n n (Hd _ _ Hn)); [apply temporary_stale|done].
Qed.

Lemma safe_persist r : record_ok r -> safe (persist process r).
Proof.
  intros Hr. unfold persist. apply safe_bind; [apply safe_draw|intros id]. apply safe_drop.
  eapply hoare_bind; [apply create_new_holds, temporary_ok|intros ?; cbn beta].
  eapply hoare_bind; [apply write_all_holds, temporary_stale|intros ?; cbn beta]. cbn [app].
  eapply hoare_bind; [apply write_all_holds, temporary_stale|intros ?; cbn beta].
  eapply hoare_bind; [by apply hoare_silent|intros ?; cbn beta].
  eapply hoare_bind; [by apply rename_status|intros ?; cbn beta].
  apply safe_bind; [apply safe_silent|intros _]. apply safe_silent.
Qed.

(** * The operations *)

Lemma saturating_range a b : in_i64 (i64_saturating_add a b).
Proof. unfold in_i64, i64_saturating_add, clamp_i64, i64_min, i64_max. lia. Qed.
Lemma saturating_above a b c : in_i64 a -> a < i64_max -> a <= b -> 0 < c -> a < i64_saturating_add b c.
Proof. unfold in_i64, i64_saturating_add, clamp_i64, i64_min, i64_max. lia. Qed.

Lemma record_range r : record_ok r -> in_i64 (bj_created_at_unix_ms r) /\ bj_created_at_unix_ms r < i64_max.
Proof. intros [(H1 & H2 & H3 & _) _ ? _ _]. unfold in_i64 in *. lia. Qed.

(** Changes of a record that leave it one that loads. *)
Lemma record_state x r : record_ok r -> record_ok (set_bj_state x r).
Proof. by intros [? ? ? ? ?]. Qed.
Lemma record_error code r : record_ok r -> zlen (bstr code) <= 64 -> record_ok (set_bj_error (Some code) r).
Proof. by intros [? ? ? ? ?] ?. Qed.
Lemma record_updated now r :
  record_ok r -> 0 <= now <= i64_max -> record_ok (set_bj_updated (Z.max (bj_updated_at_unix_ms r) now) r).
Proof.
  intros [(H1 & H2 & H3 & H4) Ht He Hd Hc] Hn. split; cbn; try done; [|lia].
  split_and!; cbn; try apply H4; unfold in_i64 in *; try done. unfold i64_min. lia.
Qed.
Lemma record_expires x r :
  record_ok r -> in_i64 x -> bj_created_at_unix_ms r < x -> record_ok (set_bj_expires x r).
Proof. intros [(H1 & H2 & H3 & H4) Ht He Hd Hc] Hx Hb. by split. Qed.
Lemma record_fails now code r :
  record_ok r -> 0 <= now <= i64_max -> zlen (bstr code) <= 64 -> record_ok (failed_at now code r).
Proof.
  intros Hr Hn Hc. unfold failed_at. apply record_expires.
  - apply record_updated; [|done]. by apply record_error; [apply record_state|].
  - unfold in_i64, i64_saturating_add, clamp_i64, i64_min, i64_max. lia.
  - destruct (record_range r Hr) as [H1 H2]. apply Z.max_lt_iff. right.
    apply saturating_above; cbn; unfold in_i64 in *; lia.
Qed.
Lemma failed_id now code r : bj_job_id (failed_at now code r) = bj_job_id r.
Proof. done. Qed.

(** The closures the handlers and the worker give to [update]. *)
Inductive transition : (BackupJobRecord -> Jobs BackupJobRecord) -> Prop :=
  | Starts : transition set_running
  | Completes w report sha :
      in_u64 (bw_source_recovery_epoch w) -> in_u64 (bf_archive_bytes report) -> in_u64 (bf_record_count report) ->
      zlen sha <= 64 -> transition (mark_completed w report sha)
  | Fails_with code :
      code ∈ ["backup_failed"%string; "status_persistence_failed"%string; "artifact_integrity_failed"%string] ->
      transition (mark_failed code)
  | Downloads : transition set_download_started.

Definition good_result (r r' : BackupJobRecord) : Prop := record_ok r' /\ bj_job_id r' = bj_job_id r.

Lemma hoare_end_expiry r :
  record_ok r -> hoare (fun _ => True) (end_expiry r) (fun r' _ => good_result r r').
Proof.
  intros Hr. eapply hoare_bind; [apply hoare_clock|intros now]. apply hoare_ret. intros s _ Hn. split; [|done].
  destruct (record_range r Hr) as [H1 H2]. apply record_expires; [done|apply saturating_range|].
  by apply saturating_above; [| |lia|].
Qed.
Lemma archive_typed w report sha r :
  job_typed r -> in_u64 (bw_source_recovery_epoch w) -> in_u64 (bf_archive_bytes report) ->
  in_u64 (bf_record_count report) -> job_typed (set_archive w report sha r).
Proof.
  intros (H1 & H2 & H3 & H4) Hw Hb Hc. do 3 (split; [done|]).
  split_and!; cbn; intros z [= <-]; done.
Qed.
Lemma transition_ok f r :
  transition f -> record_ok r -> hoare (fun _ => True) (f r) (fun r' _ => good_result r r').
Proof.
  intros Hf Hr. destruct Hf as [|w report sha Hw Hb Hc Hs|code Hc|].
  - apply hoare_ret. intros s _ _. split; [by apply record_state|done].
  - eapply hoare_bind; [by apply hoare_end_expiry, record_state|intros r']. apply hoare_ret.
    intros s _ [[Ht ? ? ? ?] Hid]. split; [|done]. split; try done. by apply archive_typed.
  - eapply hoare_bind; [by apply hoare_end_expiry, record_state|intros r']. apply hoare_ret.
    intros s _ [Hr' Hid]. split; [|done]. apply record_error; [done|].
    repeat (apply elem_of_cons in Hc as [->|Hc]; [done|]). by apply elem_of_nil in Hc.
  - apply hoare_ret. intros s _ _. split; [|done]. by destruct Hr.
Qed.

(** Operations that change the jobs in memory, at their end. *)
Definition preserves {E A} (m : Prog Registry E A) : Prop := forall s, sound s -> sound (snd (m s)).

Lemma hoare_preserves {E A} (m : Prog Registry E A) Q : hoare (fun _ => True) m Q -> preserves m.
Proof. intros H s Hs. by apply (H s Hs I). Qed.
Lemma preserves_bind {E A B} (m : Prog Registry E A) (k : A -> Prog Registry E B) :
  preserves m -> (forall a, preserves (k a)) -> preserves (prog_bind m k).
Proof.
  intros Hm Hk s Hs. specialize (Hm s Hs). unfold prog_bind. destruct (m s) as [[a|e] s1]; [|done]. by apply Hk.
Qed.
Lemma hoare_then {E A B} (P : Registry -> Prop) (m : Prog Registry E A) (k : A -> Prog Registry E B) Q s :
  hoare P m Q -> sound s -> P s ->
  (forall a s', sound s' -> rg_jobs s' = rg_jobs s -> Q a s' -> sound (snd (k a s'))) -> sound (snd (prog_bind m k s)).
Proof.
  intros Hm Hs HP Hk. destruct (Hm s Hs HP) as [[H1 H2] H3]. unfold prog_bind.
  destruct (m s) as [[a|e] s1]; [|done]. by apply Hk.
Qed.

Lemma memory_insert jobs id r :
  memory_ok jobs -> record_ok r -> bj_job_id r = id -> map_len jobs < MAX_JOBS \/ is_Some (jobs !! id) ->
  memory_ok (<[id := r]> jobs).
Proof.
  intros [Hj Hl] Hr Hid Hroom. split; [by apply map_Forall_insert_2|]. unfold map_len in *.
  destruct Hroom as [H|[x Hx]].
  - rewrite map_size_insert. destruct (jobs !! _); unfold Datatypes.id; lia.
  - by rewrite map_size_insert, Hx.
Qed.
Lemma memory_delete jobs ids : memory_ok jobs -> memory_ok (foldr delete jobs ids).
Proof.
  intros Hm. induction ids as [|u ids IH]; [done|]. cbn. destruct IH as [H1 H2].
  split; [by apply map_Forall_delete|]. unfold map_len in *. rewrite map_size_delete.
  destruct (_ !! u); unfold id; lia.
Qed.

Lemma safe_mapM {E A B} (f : A -> Prog Registry E B) l : (forall a, safe (f a)) -> safe (prog_mapM f l).
Proof.
  intros Hf. induction l as [|a l IH]; [apply safe_ret|]. cbn [prog_mapM].
  apply safe_bind; [apply Hf|intros b]. apply safe_bind; [done|intros bs]. apply safe_ret.
Qed.
Lemma safe_remove_files id : safe (remove_files id).
Proof. apply safe_bind; [apply safe_remove|intros _]. apply safe_remove. Qed.

Lemma cleanup_sound now : preserves (cleanup_expired now).
Proof.
  intros s Hs. eapply (hoare_then (fun _ => True)); [apply safe_read|done|done|intros jobs s1 Hs1 _ _].
  eapply (hoare_then (fun _ => True)); [|done|done|intros l s2 Hs2 _ _].
  - apply safe_mapM, safe_remove_files.
  - apply sound_jobs; [done|]. apply memory_delete, Hs2.
Qed.
Lemma remove_sound id : preserves (remove_job id).
Proof.
  intros s Hs. eapply (hoare_then (fun _ => True)); [apply safe_remove_files|done|done|intros l s2 Hs2 _ _].
  apply sound_jobs; [done|]. apply (memory_delete _ [id]), Hs2.
Qed.

Lemma pending_ok now id :
  0 <= now < i64_max ->
  record_ok {| bj_job_id := id; bj_state := JPending; bj_created_at_unix_ms := now;
               bj_updated_at_unix_ms := now; bj_expires_at_unix_ms := i64_saturating_add now JOB_TTL_MS;
               bj_archive_id := None; bj_format_version := None; bj_logical_vault_id := None;
               bj_source_recovery_epoch := None; bj_archive_bytes := None; bj_artifact_sha256 := None;
               bj_record_count := None; bj_download_started := false; bj_error_code := None |}.
Proof.
  intros Hn. assert (in_i64 now) by (unfold in_i64, i64_min; lia). split; cbn; try done; [|lia|].
  - split_and!; cbn; try done. apply saturating_range.
  - by apply saturating_above; [|lia..|].
Qed.
Lemma create_sound now : 0 <= now < i64_max -> preserves (create_job process now).
Proof.
  intros Hn. apply preserves_bind; [apply cleanup_sound|intros _ s Hs].
  eapply (hoare_then (fun _ => True)); [apply hoare_read|done|done|intros full s1 Hs1 E1 [_ [= <-]]].
  eapply (hoare_then (fun _ => True)); [apply hoare_reject|done|done|intros _ s2 Hs2 E2 [_ Hroom]].
  eapply (hoare_then (fun _ => True)); [apply safe_draw|done|done|intros id s3 Hs3 E3 _].
  eapply (hoare_then (fun _ => True)); [by apply safe_persist, pending_ok|done|done|intros _ s4 Hs4 E4 _].
  apply sound_jobs; [done|]. apply memory_insert; [apply Hs4|by apply pending_ok|done|left].
  rewrite E4, E3, E2. by apply Z.leb_gt.
Qed.
Lemma update_sound id f : transition f -> preserves (update_job process id f).
Proof.
  intros Hf s Hs.
  eapply (hoare_then (fun _ => True)); [apply hoare_read|done|done|intros r s1 Hs1 E1 [_ Hr]].
  destruct (rg_jobs s1 !! id) as [r1|] eqn:Hget; [injection Hr as ->|done].
  destruct (proj1 (proj2 Hs1) _ _ Hget) as [Hid Hrok].
  eapply (hoare_then (fun _ => True)); [by apply transition_ok|done|done|intros r' s2 Hs2 E2 [Hok Hsame]].
  eapply (hoare_then (fun _ => True)); [apply hoare_clock|done|done|intros now s3 Hs3 E3 Hnow].
  assert (Hup : record_ok (set_bj_updated (Z.max (bj_updated_at_unix_ms r') now) r')) by by apply record_updated.
  eapply (hoare_then (fun _ => True)); [by apply safe_persist|done|done|intros _ s4 Hs4 E4 _].
  apply sound_jobs; [done|]. apply memory_insert; [apply Hs4|done|by cbn; congruence|right].
  rewrite E4, E3, E2, Hget. by eexists.
Qed.

(** * Loading *)

Lemma json_status name n :
  file_ok name n -> extension name = Some (bstr "json") ->
  exists r, name = status_path (bj_job_id r) /\ record_ok r /\ nd_kind n = RegularNode /\ nd_bytes n = status_text r.
Proof.
  intros [(u & -> & _)|[H|[(u & [->|[->| ->]] & _)|(u & -> & _)]]] He; try done.
  - by rewrite artifact_extension in He.
  - by rewrite temporary_extension in He.
  - by rewrite upload_extension in He.
  - by rewrite partial_extension in He.
  - by rewrite drill_extension in He.
Qed.
Lemma status_reads r : record_ok r -> job_from_json (status_text r) = Some r.
Proof. intros [? _ _ _ _]. by apply job_json_round_trip. Qed.

Lemma safe_custody n right_kind : safe (unrestrictive process n right_kind).
Proof.
  unfold unrestrictive. destruct (_ || _); [apply safe_ret|]. apply safe_bind; [apply safe_lift|intros uid].
  apply safe_ret.
Qed.
Lemma safe_open name expected : safe (open_restrictive_artifact process name expected).
Proof.
  apply safe_bind; [apply safe_fs, safe_read|intros n]. apply safe_bind; [apply safe_silent|intros _].
  apply safe_bind; [apply safe_custody|intros unsafe]. apply safe_bind; [apply safe_reject|intros _].
  apply safe_ret.
Qed.
Lemma safe_validity r : safe (completed_artifact_metadata_is_valid process r).
Proof.
  unfold completed_artifact_metadata_is_valid. repeat case_match; try apply safe_ret.
  apply safe_bind; [apply safe_try, safe_open|intros opened]. apply safe_ret.
Qed.

Lemma hoare_fail_loaded now code r :
  record_ok r -> 0 <= now <= i64_max -> zlen (bstr code) <= 64 ->
  hoare (fun _ => True) (fail_loaded process now code r) (fun r' _ => record_ok r').
Proof.
  intros Hr Hn Hc. assert (record_ok (failed_at now code r)) by by apply record_fails.
  eapply hoare_bind; [apply safe_remove|intros ?; cbn beta].
  eapply hoare_bind; [by apply safe_persist|intros ?; cbn beta]. by apply hoare_ret.
Qed.
Lemma hoare_lstat name :
  hoare (fun _ => True) (lstat name) (fun n s => file_ok name n).
Proof.
  apply hoare_fs; [done|]. intros s Hs _. split; [done|]. unfold prog_read.
  destruct (rg_files s !! name) eqn:E; [|done]. cbn. by apply Hs.
Qed.
Definition loaded_ok (found : option BackupJobRecord) : Prop := forall r, found = Some r -> record_ok r.
Lemma hoare_load_status now name :
  extension name = Some (bstr "json") -> 0 <= now <= i64_max ->
  hoare (fun _ => True) (load_status process now name) (fun found _ => loaded_ok found).
Proof.
  intros He Hn. eapply hoare_bind; [apply hoare_lstat|intros n; cbn beta; apply hoare_assume; intros Hfile].
  destruct (json_status name n Hfile He) as (r & -> & Hr & Hk & Hb). rewrite Hb, status_reads by done.
  eapply hoare_bind; [apply safe_silent|intros ?; cbn beta].
  eapply hoare_bind; [apply safe_reject|intros ?; cbn beta].
  eapply hoare_bind; [apply safe_silent|intros ?; cbn beta].
  eapply hoare_bind; [apply hoare_lift|intros r0; cbn beta; apply hoare_assume; intros [_ [= <-]]].
  eapply hoare_bind; [apply safe_reject|intros ?; cbn beta].
  destruct (terminal r && _).
  - eapply hoare_bind; [apply safe_remove|intros ?; cbn beta].
    eapply hoare_bind; [apply safe_remove|intros ?; cbn beta]. by apply hoare_ret.
  - eapply (hoare_bind _ _ _ (fun r' _ => record_ok r')); [|intros r1; cbn beta; apply hoare_assume; intros Hr1].
    { destruct (terminal r); [by apply hoare_ret|by apply hoare_fail_loaded]. }
    eapply (hoare_bind _ _ _ (fun _ _ => True)); [|intros valid; cbn beta].
    { case_bool_decide; [apply safe_validity|by apply hoare_ret]. }
    eapply (hoare_bind _ _ _ (fun r' _ => record_ok r')); [|intros r2; cbn beta; apply hoare_assume; intros Hr2].
    { destruct valid; [by apply hoare_ret|by apply hoare_fail_loaded]. }
    apply hoare_ret. by intros _ _ _ r' [= <-].
Qed.

Lemma hoare_load_entry now loaded name :
  memory_ok loaded -> 0 <= now <= i64_max ->
  hoare (fun _ => True) (load_entry process now loaded name) (fun loaded' _ => memory_ok loaded').
Proof.
  intros Hl Hn. eapply hoare_bind; [apply safe_silent|intros ?; cbn beta].
  destruct (stale_temporary name).
  { eapply hoare_bind; [apply safe_remove|intros ?; cbn beta]. by apply hoare_ret. }
  eapply (hoare_bind _ _ _ (fun _ _ => True)); [|intros drill; cbn beta].
  { destruct (starts_with _ name); [|by apply hoare_ret].
    eapply hoare_bind; [apply safe_lstat|intros n]. by apply hoare_ret. }
  destruct drill.
  { eapply hoare_bind; [apply safe_remove_dir|intros ?; cbn beta]. by apply hoare_ret. }
  case_bool_decide as He; cbn [negb]; [|by apply hoare_ret].
  eapply hoare_bind; [by apply hoare_load_status|intros found; cbn beta; apply hoare_assume; intros Hf].
  destruct found as [r|]; [|by apply hoare_ret].
  eapply hoare_bind; [apply hoare_reject|intros ?; cbn beta; apply hoare_assume; intros [_ Hroom]].
  apply hoare_ret. intros s _ _. apply memory_insert; [done|by apply Hf|done|left]. by apply Z.leb_gt.
Qed.
Lemma hoare_foldM {E A B} (P : B -> Prop) (f : B -> A -> Prog Registry E B) l b :
  (forall b a, P b -> hoare (fun _ => True) (f b a) (fun b' _ => P b')) -> P b ->
  hoare (fun _ => True) (prog_foldM f b l) (fun b' _ => P b').
Proof.
  intros Hf. revert b. induction l as [|a l IH]; intros b Hb; [by apply hoare_ret|].
  eapply hoare_bind; [by apply Hf|intros b'; cbn beta; apply hoare_assume; intros Hb']. by apply IH.
Qed.
Lemma safe_read_dir : safe (read_dir read_order).
Proof. apply safe_fs. by intros s Hs. Qed.
Lemma safe_sweep loaded name : safe (sweep_entry loaded name).
Proof.
  apply safe_bind; [apply safe_silent|intros _]. repeat case_match; try apply safe_ret. apply safe_remove.
Qed.
Lemma memory_empty : memory_ok ∅.
Proof. by split; [apply map_Forall_empty|]. Qed.

Lemma load_sound : preserves (load_statuses process read_order).
Proof.
  intros s Hs. eapply (hoare_then (fun _ => True)); [apply hoare_clock|done|done|intros now s1 Hs1 _ Hn].
  eapply (hoare_then (fun _ => True)); [apply safe_read_dir|done|done|intros names s2 Hs2 _ _].
  eapply (hoare_then (fun _ => True)); [|done|done|intros loaded s3 Hs3 _ Hl].
  { apply (hoare_foldM memory_ok); [|apply memory_empty]. intros b a Hb. by apply hoare_load_entry. }
  eapply (hoare_then (fun _ => True)); [apply safe_read_dir|done|done|intros names' s4 Hs4 _ _].
  eapply (hoare_then (fun _ => True)); [apply safe_mapM; intros; apply safe_sweep|done|done|intros l s5 Hs5 _ _].
  by apply sound_jobs.
Qed.
Lemma open_sound : preserves (open_registry process read_order).
Proof.
  apply preserves_bind; [apply (hoare_preserves _ (fun _ _ => True)), safe_try, safe_fs, safe_read|intros found].
  apply preserves_bind; [|intros _].
  { apply (hoare_preserves _ (fun _ _ => True)). destruct found as [n|[]]; try apply safe_ret; try apply safe_fail.
    apply safe_fs. by intros s Hs. }
  apply preserves_bind; [apply (hoare_preserves _ (fun _ _ => True)), safe_fs, safe_read|intros n].
  apply preserves_bind; [apply (hoare_preserves _ (fun _ _ => True)), safe_custody|intros unsafe].
  apply preserves_bind; [apply (hoare_preserves _ (fun _ _ => True)), safe_reject|intros _].
  apply preserves_bind; [|intros _; apply load_sound]. intros s Hs. apply sound_jobs; [done|apply memory_empty].
Qed.

(** * The verification of an upload *)

Lemma safe_map_err {E F A} (f : E -> F) (m : Prog Registry E A) : safe m -> safe (prog_map_err f m).
Proof. intros H s Hs _. destruct (H s Hs I) as [H1 _]. unfold prog_map_err. destruct (m s) as [[a|e] s']; done. Qed.
Lemma safe_archive_chunks request name total chunks :
  stale_temporary name = true -> safe (archive_chunks request name total chunks).
Proof.
  intros Hn. revert total. induction chunks as [|[c|] chunks IH]; intros total; [apply safe_ret| |apply safe_fail].
  apply safe_bind; [apply safe_lift|intros t]. apply safe_bind; [apply safe_reject|intros _].
  apply safe_bind; [by apply safe_map_err, safe_write|intros _]. apply IH.
Qed.
Lemma safe_create name :
  (forall n, nd_kind n = RegularNode -> file_ok name n) -> safe (create_new process name).
Proof.
  intros Hname. apply (hoare_weaken (fun _ => True) _ _ (fun _ s => holds name [] s)); [|done..].
  by apply create_new_holds.
Qed.
Lemma safe_receive_field request id got f : safe (receive_field process request (verify_path id) got f).
Proof.
  unfold receive_field. destruct (_ || _).
  - apply safe_bind; [apply safe_lift|intros value]. apply safe_bind; [apply safe_lift|intros text].
    destruct (blob_eqb _ _); (apply safe_bind; [apply safe_reject|intros _]); apply safe_ret.
  - destruct (blob_eqb _ _); [|apply safe_fail]. apply safe_bind; [apply safe_reject|intros _].
    apply safe_bind; [apply safe_map_err, safe_create, upload_ok|intros _].
    apply safe_bind; [apply safe_archive_chunks, upload_stale|intros total].
    apply safe_bind; [apply safe_map_err, safe_silent|intros _]. apply safe_ret.
Qed.
Lemma safe_receive request id fields :
  safe (receive_verification_upload process request (verify_path id) fields).
Proof.
  apply safe_bind.
  - generalize {| rv_key_mode := None; rv_key := None; rv_archive_bytes := None |}.
    induction fields as [|[f|] fields IH]; intros got; [apply safe_ret| |apply safe_fail].
    apply safe_bind; [apply safe_receive_field|intros got']. apply IH.
  - intros got. repeat case_match; try apply safe_ret; apply safe_fail.
Qed.
Lemma safe_create_dir id : safe (create_dir process (drill_path id)).
Proof.
  apply safe_fs. intros s Hs _. destruct (rg_files s !! _) as [n|]; [by case_bool_decide|]. split; [|done].
  split; [|done]. apply sound_files; [done|]. apply disk_insert; [apply Hs|]. right; right; right. by exists id.
Qed.

End Sound.

Section Runs.
Context {CR : Crypto} {CL : CryptoLaws} {PH : PasswordHashing} {LJ : LogicalJson} {AF : ArchiveFormats}
  {HT : HttpText} {HL : HttpTextLaws} {JJ : JobJson} {JL : JobJsonLaws}
  (process : Process) (read_order : nat -> list blob -> list blob).

(** A process that starts on the directory [s] left, with nothing in memory. *)
Definition restarted (draws : nat) (clock : nat -> Z) (outcomes : list Outcome) (s : Registry) : Registry :=
  {| rg_directory := rg_directory s; rg_files := rg_files s; rg_jobs := ∅; rg_draws := draws;
     rg_clock := clock; rg_ticks := 0; rg_outcomes := outcomes; rg_running := true |}.

Inductive registry_step : Registry -> Registry -> Prop :=
  | Creates now s : 0 <= now < i64_max -> registry_step s (snd (create_job process now s))
  | Updates id f s : transition f -> registry_step s (snd (update_job process id f s))
  | Cleans now s : registry_step s (snd (cleanup_expired now s))
  | Removes id s : registry_step s (snd (remove_job id s))
  | Drops_artifact id s : registry_step s (snd (remove_if_exists (artifact_path id) s))
  (** What [create_artifact] does to the registry: a worker publishes an
      archive, or leaves a partial one, or stops. *)
  | Publishes id temporary p running s :
      registry_step s (set_rg_running (rg_running s && running)
                        (set_rg_files (published_files process id temporary p (rg_files s)) s))
  | Verifies env request id fields s : registry_step s (snd (verify_received process env request id fields s))
  | Restarts draws clock outcomes s :
      registry_step s (snd (open_registry process read_order (restarted draws clock outcomes s))).

Lemma safe_drill env archive id mode key bytes :
  safe (verify_and_restore_test process env archive (drill_path id) mode key bytes).
Proof.
  apply safe_bind; [apply safe_map_err, safe_create_dir|intros _].
  apply safe_bind; [apply safe_read|intros header]. apply safe_bind; [apply safe_lift|intros k].
  apply safe_bind; [apply safe_read|intros verified].
  apply safe_bind; [by apply safe_map_err; intros s Hs|intros now].
  apply safe_bind; [|intros restored; apply safe_ret].
  intros s Hs _. destruct (restore_backup_file _ _ _ _ _ _) as [[r|e] h]; (split; [split; [exact Hs|done]|done]).
Qed.
Lemma verify_sound env request id fields : preserves (verify_received process env request id fields).
Proof.
  intros s Hs. unfold verify_received.
  match goal with |- context[let (_, _) := ?m s in _] => assert (Hm : safe m); [|destruct (Hm s Hs I) as [[H1 _] _]] end.
  - apply safe_bind; [apply safe_lift|intros l]. apply safe_bind; [apply safe_receive|intros [[mode key] bytes]].
    intros g Hg _. destruct (safe_drill env (verify_path id) id mode key bytes g Hg I) as [[H1 H2] _].
    destruct (verify_and_restore_test _ _ _ _ _ _ _ g) as [r g1]. cbn [snd] in *. rewrite <- H2.
    split; [by apply safe_remove_dir|by destruct r].
  - match type of H1 with sound (snd ?m) => destruct m as [r g] end. cbn [snd] in *. by apply safe_remove.
Qed.
Lemma published_ok id temporary p files :
  disk_ok files -> disk_ok (published_files process id temporary p files).
Proof.
  intros Hd. unfold published_files, placed_files.
  assert (disk_ok match pu_destination p with
                  | Some bytes => match files !! artifact_path id with
                                  | Some _ => files
                                  | None => <[artifact_path id := archive_node process bytes]> files
                                  end
                  | None => delete (artifact_path id) files
                  end) as H.
  { destruct (pu_destination p) as [bytes|]; [|by apply disk_delete]. destruct (files !! _); [done|].
    apply disk_insert; [done|]. left. by exists id. }
  destruct (pu_temporary p); [|done]. apply disk_insert; [done|]. right; right; left.
  exists temporary. split; [by right; right|done].
Qed.

Lemma step_sound s s' : registry_step s s' -> sound s -> sound s'.
Proof.
  intros H Hs. destruct H.
  - by apply create_sound.
  - by apply update_sound.
  - by apply cleanup_sound.
  - by apply remove_sound.
  - by apply safe_remove.
  - split; [apply published_ok|]; apply Hs.
  - by apply verify_sound.
  - apply open_sound. split; [apply Hs|apply memory_empty].
Qed.
Lemma run_sound s s' : rtc registry_step s s' -> sound s -> sound s'.
Proof. intros H. induction H as [|s1 s2 s3 H12 _ IH]; [done|]. intros Hs. apply IH. by eapply step_sound. Qed.

(** A status file that [load_statuses] accepts. *)
Definition loadable (name : blob) (n : Node) : Prop :=
  nd_kind n = RegularNode /\ zlen (nd_bytes n) <= MAX_STATUS_BYTES
  /\ exists r, job_from_json (nd_bytes n) = Some r /\ record_invalid name r = false.

Lemma status_loadable name n : file_ok name n -> extension name = Some (bstr "json") -> loadable name n.
Proof.
  intros Hf He. destruct (json_status name n Hf He) as (r & -> & Hr & Hk & Hb). split; [done|]. rewrite Hb. split.
  - unfold status_text. pose proof (job_json_length r (ro_typed r Hr)) as Hl. unfold zlen in *. rewrite length_app.
    destruct Hr as [_ _ _ H1 H2]. unfold text_bytes, zlen, MAX_STATUS_BYTES in *. cbn [length] in *. lia.
  - exists r. split; [by apply status_reads|]. unfold record_invalid, blob_eqb. destruct Hr as [_ Ht He' _ _].
    rewrite bool_decide_true by done. cbn [negb orb]. apply orb_false_iff. split; [apply orb_false_iff; split|]; lia.
Qed.

(** C15. Status files are written whole: from an empty directory, after any
    sequence of operations, workers, uploads and restarts, whichever file
    operations failed and wherever the process stopped, every status file in the
    directory is one that the next start accepts (a regular file within its
    limit, whose record is of the job its name says and whose times are in
    order), every other name is of a known family, and the jobs in memory are
    at most 32, each under its identity. *)
Theorem statuses_survive_faults s s' :
  rg_files s = ∅ -> rg_jobs s = ∅ -> rtc registry_step s s' ->
  map_Forall (fun name n => extension name = Some (bstr "json") -> loadable name n) (rg_files s')
  /\ map_Forall (fun name n =>
       (exists id, name ∈ [status_path id; artifact_path id; status_temporary id; partial_path id; verify_path id]
                   /\ nd_kind n = RegularNode)
       \/ (exists id, name = drill_path id /\ nd_kind n = DirectoryNode)) (rg_files s')
  /\ map_Forall (fun id r => bj_job_id r = id) (rg_jobs s') /\ map_len (rg_jobs s') <= MAX_JOBS.
Proof.
  intros Hf Hj Hrun. destruct (run_sound s s' Hrun) as [Hd [Hm Hl]].
  { split; [rewrite Hf; by apply map_Forall_empty|rewrite Hj; apply memory_empty]. }
  split_and!; [..|done].
  - intros name n Hn. apply status_loadable. by apply Hd.
  - intros name n Hn. destruct (Hd _ _ Hn) as [(u & -> & Hk)|[(r & -> & _ & Hk & _)|[(u & Hnm & Hk)|H]]]; [left..|by right].
    + exists u. split; [set_solver|done].
    + exists (bj_job_id r). split; [set_solver|done].
    + exists u. split; [|done]. destruct Hnm as [->|[->| ->]]; set_solver.
  - intros id r Hr. by apply (Hm id r).
Qed.
End Runs.
