(* ===== verification/JobReopen.v ===== *)
(** Reopening the backup registry: on a directory that any run has left, where
    no operation fails, [open_registry] is the recovery [recovered] of every
    status file at once. *)
From Stdlib Require Import ZArith Lia Strings.Byte String.
From stdpp Require Import base tactics numbers option strings list gmap.
From S2P Require Import Prelude RustStd Core Crypto Format Sql Initialization Authentication Archive Portable Logical Backup Passkeys PasskeyProps Http BackupJobs Server BackupApi JobProps PolicyGraph.

Section Reopen.
Context {CR : Crypto} {CL : CryptoLaws} {PH : PasswordHashing} {LJ : LogicalJson} {AF : ArchiveFormats}
  {HT : HttpText} {HL : HttpTextLaws} {JJ : JobJson} {JL : JobJsonLaws}
  (process : Process) (read_order : nat -> list blob -> list blob).

(** * What is recovered *)

(** The artifact a completed record is about is there, in this process's
    custody and of the recorded length. *)
Definition in_custody (n : Node) : bool :=
  bool_decide (nd_kind n = RegularNode) && (Z.land (nd_mode n) OTHERS_BITS =? 0)
  && match current_effective_uid process with Ok uid => nd_uid n =? uid | Err _ => false end.
Definition artifact_intact (files : gmap blob Node) (r : BackupJobRecord) : bool :=
  match bj_archive_bytes r, bj_artifact_sha256 r ≫= hex_decode with
  | Some expected, Some digest =>
      (zlen digest =? 32) && bool_decide (is_Some (bj_archive_id r))
      && bool_decide (bj_format_version r = Some FORMAT_VERSION) && bool_decide (is_Some (bj_logical_vault_id r))
      && bool_decide (is_Some (bj_source_recovery_epoch r)) && bool_decide (is_Some (bj_record_count r))
      && match files !! artifact_path (bj_job_id r) with
         | Some n => in_custody n && (zlen (nd_bytes n) =? expected)
         | None => false
         end
  | _, _ => false
  end.

(** What becomes of a record: an ended job whose time has passed is gone, a job
    that was waiting or running has failed, and so has a completed one without
    its artifact. *)
Definition recovered (now : Z) (files : gmap blob Node) (r : BackupJobRecord) : option BackupJobRecord :=
  if terminal r && (bj_expires_at_unix_ms r <=? now) then None
  else if negb (terminal r) then Some (failed_at now "interrupted" r)
  else if bool_decide (bj_state r = JCompleted) && negb (artifact_intact files r)
  then Some (failed_at now "artifact_integrity_failed" r)
  else Some r.

Definition status_on (files : gmap blob Node) (id : Uuid) : option BackupJobRecord :=
  n ← files !! status_path id; job_from_json (nd_bytes n).
Definition target (now : Z) (files : gmap blob Node) (id : Uuid) : option BackupJobRecord :=
  status_on files id ≫= recovered now files.

Definition json_name (name : blob) : bool := bool_decide (extension name = Some (bstr "json")).

(** * Runs where every operation works *)

Definition calm (s : Registry) : Prop := rg_running s = true /\ rg_outcomes s = [].

Lemma fs_calm {A} (m : Jobs A) s : calm s -> fs m s = m s.
Proof. intros [H1 H2]. unfold fs, fs_op. by rewrite H1, H2. Qed.
Lemma silent_calm s : calm s -> fs_silent s = (Ok tt, s).
Proof. intros H. by apply fs_calm. Qed.
Lemma bind_silent {B} (k : unit -> Jobs B) s : calm s -> prog_bind fs_silent k s = k tt s.
Proof. intros H. unfold prog_bind. by rewrite silent_calm. Qed.
Lemma remove_calm name s :
  calm s -> nd_kind <$> rg_files s !! name <> Some DirectoryNode ->
  remove_if_exists name s = (Ok tt, set_rg_files (delete name (rg_files s)) s).
Proof.
  intros Hc Hk. unfold remove_if_exists, remove_file. rewrite fs_calm by done.
  destruct (rg_files s !! name) as [n|] eqn:E.
  - cbn in Hk. by rewrite bool_decide_false by congruence.
  - rewrite delete_id by done. by destruct s.
Qed.

(** A file this process has written [bytes] to. *)
Definition own_node (bytes : blob) : Node :=
  {| nd_kind := RegularNode; nd_mode := FILE_BITS; nd_uid := pr_uid process; nd_bytes := bytes |}.
Definition status_node (r : BackupJobRecord) : Node := own_node (status_text r).

Lemma create_calm name s :
  calm s -> rg_files s !! name = None ->
  create_new process name s = (Ok tt, set_rg_files (<[name := own_node []]> (rg_files s)) s).
Proof. intros Hc E. unfold create_new. by rewrite fs_calm, E. Qed.
Lemma write_calm name before bytes files s :
  calm s -> rg_files s = <[name := own_node before]> files ->
  write_all name bytes s = (Ok tt, set_rg_files (<[name := own_node (before ++ bytes)]> files) s).
Proof.
  intros [H1 H2] E. unfold write_all, fs_op, append_bytes. rewrite H1, H2, E. cbn [negb].
  by rewrite alter_insert_eq.
Qed.
Lemma rename_calm from to n files s :
  calm s -> rg_files s = <[from := n]> files -> files !! from = None -> from <> to ->
  nd_kind <$> files !! to <> Some DirectoryNode ->
  rename from to s = (Ok tt, set_rg_files (<[to := n]> files) s).
Proof.
  intros Hc E Hf Hne Hk. unfold rename. rewrite fs_calm, E, lookup_insert_eq by done.
  rewrite lookup_insert_ne, bool_decide_false by done. by rewrite delete_insert_id.
Qed.

Lemma temporary_not_status u v : status_temporary u <> status_path v.
Proof. intros E. pose proof (temporary_extension u) as H. by rewrite E, status_extension in H. Qed.

Lemma bind_ok {E A B} (m : Prog Registry E A) (k : A -> Prog Registry E B) s a s' :
  m s = (Ok a, s') -> prog_bind m k s = k a s'.
Proof. intros H. unfold prog_bind. by rewrite H. Qed.

Lemma persist_calm r s :
  calm s -> rg_files s !! status_temporary (new_v4 (rg_draws s)) = None ->
  nd_kind <$> rg_files s !! status_path (bj_job_id r) <> Some DirectoryNode ->
  persist process r s
  = (Ok tt, set_rg_files (<[status_path (bj_job_id r) := status_node r]> (rg_files s))
              (set_rg_draws (S (rg_draws s)) s)).
Proof.
  intros Hc Hfree Hkind. unfold persist. erewrite bind_ok by done. cbn beta.
  set (t := status_temporary (new_v4 (rg_draws s))) in *.
  assert (Hts : t <> status_path (bj_job_id r)) by apply temporary_not_status.
  unfold drop_removes. erewrite bind_ok by by apply create_calm. cbn beta.
  erewrite bind_ok by by apply write_calm. cbn beta. erewrite bind_ok by by apply write_calm. cbn beta.
  rewrite bind_silent by done. erewrite bind_ok by by eapply rename_calm. cbn beta.
  rewrite bind_silent, silent_calm by done. rewrite remove_calm; [|done|].
  - cbn. rewrite delete_id; [done|]. by rewrite lookup_insert_ne.
  - cbn. by rewrite lookup_insert_ne, Hfree by done.
Qed.

(** * One status file *)

Lemma custody_calm n expected s :
  prog_try (F:=IoError) (do! unsafe := unrestrictive process n (bool_decide (nd_kind n = RegularNode)) in
            do! _ := prog_reject (unsafe || negb (zlen (nd_bytes n) =? expected)) IoPermissionDenied in
            prog_ret (nd_bytes n)) s
  = (Ok (if in_custody n && (zlen (nd_bytes n) =? expected) then Ok (nd_bytes n)
         else match current_effective_uid process with
              | Err e => if bool_decide (nd_kind n = RegularNode) && (Z.land (nd_mode n) OTHERS_BITS =? 0)
                         then Err e else Err IoPermissionDenied
              | Ok _ => Err IoPermissionDenied
              end), s).
Proof.
  unfold unrestrictive, in_custody, prog_try, prog_bind, prog_reject, prog_ret, prog_lift.
  destruct (bool_decide (nd_kind n = RegularNode)), (Z.land (nd_mode n) OTHERS_BITS =? 0),
    (current_effective_uid process) as [uid|e]; cbn; try done;
    destruct (zlen (nd_bytes n) =? expected); cbn; try done; by destruct (nd_uid n =? uid).
Qed.
Lemma opened_calm name expected s :
  calm s ->
  exists r, prog_try (F:=IoError) (open_restrictive_artifact process name expected) s = (Ok r, s)
    /\ match r with Ok _ => true | Err _ => false end
       = match rg_files s !! name with Some n => in_custody n && (zlen (nd_bytes n) =? expected) | None => false end.
Proof.
  intros Hc. unfold open_restrictive_artifact. unfold prog_try, prog_bind at 1. rewrite fs_calm by done. unfold prog_read.
  destruct (rg_files s !! name) as [n|]; [|by eexists]. case_bool_decide as Hk.
  { eexists. split; [done|]. unfold in_custody. by rewrite bool_decide_false by congruence. }
  rewrite bind_silent by done. pose proof (custody_calm n expected s) as H.
  unfold prog_try in H. rewrite H. eexists. split; [done|]. by repeat case_match.
Qed.
Lemma validity_calm r s :
  calm s -> completed_artifact_metadata_is_valid process r s = (Ok (artifact_intact (rg_files s) r), s).
Proof.
  intros Hc. unfold completed_artifact_metadata_is_valid, artifact_intact.
  destruct (bj_archive_bytes r) as [expected|]; [|done]. destruct (bj_artifact_sha256 r ≫= hex_decode) as [d|]; [|done].
  destruct (_ && bool_decide (is_Some (bj_record_count r))); [|done]. cbn [andb].
  destruct (opened_calm (artifact_path (bj_job_id r)) expected s Hc) as (o & Ho & <-).
  by erewrite bind_ok by exact Ho.
Qed.

(** The names no temporary file to come has. *)
Definition fresh (s : Registry) : Prop :=
  forall k, (rg_draws s <= k)%nat -> rg_files s !! status_temporary (new_v4 k) = None.

(** What handling the status of [id] does. *)
Record handled (id : Uuid) (r' : option BackupJobRecord) (s s' : Registry) : Prop := {
  ha_calm : calm s';
  ha_draws : (rg_draws s <= rg_draws s')%nat;
  ha_disk : disk_ok (rg_files s');
  ha_other name : name <> status_path id -> name <> artifact_path id -> rg_files s' !! name = rg_files s !! name;
  ha_status : nd_bytes <$> rg_files s' !! status_path id = status_text <$> r';
  ha_artifact : bj_state <$> r' = Some JCompleted -> rg_files s' !! artifact_path id = rg_files s !! artifact_path id }.

Lemma artifact_file files id : disk_ok files -> nd_kind <$> files !! artifact_path id <> Some DirectoryNode.
Proof.
  intros Hd. destruct (files !! artifact_path id) as [n|] eqn:E; [|done]. cbn.
  destruct (Hd _ _ E) as [(u & _ & ->)|[(r & _ & _ & -> & _)|[(u & _ & ->)|(u & H & _)]]]; try done.
  pose proof (artifact_dotted id) as Hx. rewrite H in Hx. by vm_compute in Hx.
Qed.
Lemma status_file files id : disk_ok files -> nd_kind <$> files !! status_path id <> Some DirectoryNode.
Proof.
  intros Hd. destruct (files !! status_path id) as [n|] eqn:E; [|done]. cbn.
  destruct (Hd _ _ E) as [(u & _ & ->)|[(r & _ & _ & -> & _)|[(u & _ & ->)|(u & H & _)]]]; try done.
  pose proof (status_dotted id) as Hx. rewrite H in Hx. by vm_compute in Hx.
Qed.

Lemma fail_calm now code r s :
  calm s -> fresh s -> disk_ok (rg_files s) -> record_ok r -> 0 <= now <= i64_max -> zlen (bstr code) <= 64 ->
  exists s', fail_loaded process now code r s = (Ok (failed_at now code r), s')
    /\ handled (bj_job_id r) (Some (failed_at now code r)) s s'.
Proof.
  intros Hc Hf Hd Hr Hn Hcode. assert (Hok : record_ok (failed_at now code r)) by by apply record_fails.
  unfold fail_loaded. erewrite bind_ok by by apply remove_calm, artifact_file. cbn beta.
  erewrite bind_ok; [eexists; split; [done|]|apply persist_calm; [done|..]]; cbn [rg_files rg_draws set_rg_files].
  - split; cbn; [done|lia| | | |done].
    + apply disk_insert; [by apply disk_delete|]. right; left. by exists (failed_at now code r).
    + intros name H1 H2. by rewrite lookup_insert_ne, lookup_delete_ne.
    + by rewrite lookup_insert_eq.
  - apply lookup_delete_None. right. by apply Hf.
  - by apply status_file, disk_delete.
Qed.

Lemma load_calm now id n r s :
  calm s -> fresh s -> disk_ok (rg_files s) -> 0 <= now <= i64_max -> rg_files s !! status_path id = Some n ->
  bj_job_id r = id -> record_ok r -> nd_kind n = RegularNode -> nd_bytes n = status_text r ->
  exists s', load_status process now (status_path id) s = (Ok (recovered now (rg_files s) r), s')
    /\ handled id (recovered now (rg_files s) r) s s'.
Proof.
  intros Hc Hf Hd Hn Hfile <- Hr Hk Hb.
  destruct (status_loadable _ n (Hd _ _ Hfile) (status_extension _)) as (_ & Hsize & r0 & Hr0 & Hvalid).
  rewrite Hb, status_reads in Hr0 by done. injection Hr0 as <-.
  unfold load_status, lstat. erewrite bind_ok; [|rewrite fs_calm by done; unfold prog_read; by rewrite Hfile]. cbn beta.
  rewrite bind_silent by done. rewrite bool_decide_true, (proj2 (Z.ltb_ge _ _)) by done. cbn [negb orb].
  erewrite bind_ok by done. cbn beta. rewrite bind_silent by done. rewrite Hb, status_reads by done.
  erewrite bind_ok by done. cbn beta. erewrite bind_ok by by rewrite Hvalid. cbn beta.
  unfold recovered. destruct (terminal r && _) eqn:Eexp.
  { erewrite bind_ok by by apply remove_calm, artifact_file. cbn beta.
    erewrite bind_ok; [|apply remove_calm; [done|by apply status_file, disk_delete]].
    eexists. split; [done|]. split; cbn; [done|lia|by apply disk_delete, disk_delete| | |done].
    - intros name H1 H2. by rewrite !lookup_delete_ne.
    - by rewrite lookup_delete_eq. }
  destruct (terminal r) eqn:Et; cbn [negb].
  - erewrite bind_ok by done. cbn beta. case_bool_decide as Hcomp; cbn [andb].
    + erewrite bind_ok by by apply validity_calm. cbn beta. destruct (artifact_intact (rg_files s) r); cbn [negb].
      * erewrite bind_ok by done. eexists. split; [done|]. by split; rewrite ?Hfile; cbn; rewrite ?Hb.
      * destruct (fail_calm now "artifact_integrity_failed" r s) as (s' & H1 & H2); try done.
        erewrite bind_ok by exact H1. by eexists.
    + do 2 erewrite bind_ok by done. eexists. split; [done|]. by split; rewrite ?Hfile; cbn; rewrite ?Hb.
  - destruct (fail_calm now "interrupted" r s) as (s' & H1 & H2); try done.
    erewrite bind_ok by exact H1. cbn beta. rewrite bool_decide_false by done. do 2 erewrite bind_ok by done.
    by eexists.
Qed.

(** * The first loop *)

Definition temporary_name (name : blob) : bool :=
  stale_temporary name || starts_with (bstr ".restore-drill-") name.
Lemma temporary_name_dotted name : temporary_name name = true -> dotted name = true.
Proof. intros [H|H]%orb_true_iff; [by apply stale_dotted|by apply drill_dotted]. Qed.
Lemma status_not_temporary id : temporary_name (status_path id) = false.
Proof. apply not_true_iff_false. intros H%temporary_name_dotted. by rewrite status_dotted in H. Qed.
Lemma artifact_not_temporary id : temporary_name (artifact_path id) = false.
Proof. apply not_true_iff_false. intros H%temporary_name_dotted. by rewrite artifact_dotted in H. Qed.
Lemma partial_not_temporary id : temporary_name (partial_path id) = false.
Proof. unfold temporary_name. by rewrite partial_not_stale, partial_not_drill. Qed.
Lemma partial_not_status u v : partial_path u <> status_path v.
Proof. intros E. pose proof (partial_extension u) as H. by rewrite E, status_extension in H. Qed.
Lemma partial_not_artifact u v : partial_path u <> artifact_path v.
Proof. intros E. pose proof (partial_extension u) as H. by rewrite E, artifact_extension in H. Qed.

Lemma elem_cons_eq (x : blob) l : bool_decide (x ∈ x :: l) = true.
Proof. by apply bool_decide_true, list_elem_of_here. Qed.
Lemma elem_cons_ne (x y : blob) l : x <> y -> bool_decide (x ∈ y :: l) = bool_decide (x ∈ l).
Proof. intros H. apply bool_decide_ext. rewrite elem_of_cons. naive_solver. Qed.
Lemma not_elem_cons (x y : blob) l : x ∉ y :: l <-> x <> y /\ x ∉ l.
Proof. apply not_elem_of_cons. Qed.

Lemma recovered_ext now files files' r :
  files !! artifact_path (bj_job_id r) = files' !! artifact_path (bj_job_id r) ->
  recovered now files r = recovered now files' r.
Proof. intros E. unfold recovered, artifact_intact. by rewrite E. Qed.

Section Loop.
Context (now : Z) (before : gmap blob Node).
Hypothesis Hbefore : disk_ok before.
Hypothesis Hnow : 0 <= now <= i64_max.

(** What holds when the names [seen] have been handled. *)
Record progress (seen : list blob) (loaded : gmap Uuid BackupJobRecord) (s : Registry) : Prop := {
  pg_calm : calm s;
  pg_fresh : fresh s;
  pg_disk : disk_ok (rg_files s);
  pg_loaded id : loaded !! id = if bool_decide (status_path id ∈ seen) then target now before id else None;
  pg_unseen id : status_path id ∉ seen ->
    rg_files s !! status_path id = before !! status_path id
    /\ rg_files s !! artifact_path id = before !! artifact_path id;
  pg_status id : status_path id ∈ seen ->
    nd_bytes <$> rg_files s !! status_path id = status_text <$> target now before id;
  pg_artifact id : bj_state <$> target now before id = Some JCompleted ->
    rg_files s !! artifact_path id = before !! artifact_path id;
  pg_temporary name : temporary_name name = true ->
    rg_files s !! name = if bool_decide (name ∈ seen) then None else before !! name;
  pg_partial id : rg_files s !! partial_path id = before !! partial_path id;
  pg_few : map_len loaded <= zlen (List.filter json_name seen) }.

Lemma few_cons name seen (loaded : gmap Uuid BackupJobRecord) :
  map_len loaded <= zlen (List.filter json_name seen) -> map_len loaded <= zlen (List.filter json_name (name :: seen)).
Proof. unfold zlen. cbn [List.filter]. destruct (json_name name); cbn [length]; lia. Qed.

(** A name that is neither a status nor temporary is passed over. *)
Lemma progress_skip name seen loaded s :
  (forall id, name <> status_path id) -> temporary_name name = false ->
  progress seen loaded s -> progress (name :: seen) loaded s.
Proof.
  intros Hs Ht [H1 H2 H3 H4 H5 H6 H7 H8 H9 H10]. split; try done.
  - intros id. by rewrite elem_cons_ne.
  - intros id Hid. apply H5. by apply not_elem_cons in Hid as [_ ?].
  - intros id Hid. apply H6. by apply elem_of_cons in Hid as [E|?]; [destruct (Hs id)|].
  - intros x Hx. rewrite elem_cons_ne by congruence. by apply H8.
  - by apply few_cons.
Qed.
Lemma progress_delete name seen loaded s :
  temporary_name name = true -> progress seen loaded s ->
  progress (name :: seen) loaded (set_rg_files (delete name (rg_files s)) s).
Proof.
  intros Ht [H1 H2 H3 H4 H5 H6 H7 H8 H9 H10].
  assert (Hs : forall id, status_path id <> name) by (intros id <-; by rewrite status_not_temporary in Ht).
  assert (Ha : forall id, artifact_path id <> name) by (intros id <-; by rewrite artifact_not_temporary in Ht).
  assert (Hp : forall id, partial_path id <> name) by (intros id <-; by rewrite partial_not_temporary in Ht).
  split; cbn [rg_files set_rg_files]; try done.
  - intros k Hk. apply lookup_delete_None. right. by apply H2.
  - by apply disk_delete.
  - intros id. by rewrite elem_cons_ne.
  - intros id [_ Hid]%not_elem_cons. rewrite !lookup_delete_ne by done. by apply H5.
  - intros id Hid. rewrite lookup_delete_ne by done. apply H6. by apply elem_of_cons in Hid as [E|?]; [destruct (Hs id)|].
  - intros id Hid. rewrite lookup_delete_ne by done. by apply H7.
  - intros x Hx. destruct (decide (x = name)) as [->|Hne].
    + by rewrite elem_cons_eq, lookup_delete_eq.
    + rewrite elem_cons_ne, lookup_delete_ne by done. by apply H8.
  - intros id. by rewrite lookup_delete_ne.
  - by apply few_cons.
Qed.
Lemma progress_status id seen loaded s s' :
  status_path id ∉ seen -> progress seen loaded s -> handled id (target now before id) s s' ->
  progress (status_path id :: seen)
    (match target now before id with Some r => <[id := r]> loaded | None => loaded end) s'.
Proof.
  intros Hnew [H1 H2 H3 H4 H5 H6 H7 H8 H9 H10] [G1 G2 G3 G4 G5 G6].
  assert (Hold : loaded !! id = None) by by rewrite H4, bool_decide_false.
  split; try done.
  - intros k Hk. rewrite G4; [apply H2; lia|apply temporary_not_status|].
    intros E. pose proof (temporary_extension (new_v4 k)) as H. by rewrite E, artifact_extension in H.
  - intros u. destruct (decide (u = id)) as [->|Hne].
    + rewrite elem_cons_eq. destruct (target now before id); [apply lookup_insert_eq|done].
    + rewrite elem_cons_ne by (by intros ?%status_inj). rewrite <- H4.
      destruct (target now before id); [by apply lookup_insert_ne|done].
  - intros u [Hne Hu]%not_elem_cons. assert (u <> id) by congruence.
    rewrite !G4; [by apply H5|apply not_eq_sym, status_not_artifact| | |apply status_not_artifact].
    all: try (by intros ?%artifact_inj); try (by intros ?%status_inj).
  - intros u Hu. destruct (decide (u = id)) as [->|Hne]; [done|].
    rewrite G4; [apply H6|by intros ?%status_inj|apply status_not_artifact].
    apply elem_of_cons in Hu as [E|?]; [by apply status_inj in E|done].
  - intros u Hu. destruct (decide (u = id)) as [->|Hne].
    + rewrite G6 by done. by apply H5.
    + rewrite G4; [by apply H7| |by intros ?%artifact_inj]. intros E. by destruct (status_not_artifact id u).
  - intros x Hx. assert (x <> status_path id) by (intros ->; by rewrite status_not_temporary in Hx).
    rewrite elem_cons_ne, G4; [by apply H8|done| |done]. intros ->. by rewrite artifact_not_temporary in Hx.
  - intros u. rewrite G4; [apply H9|apply partial_not_status|apply partial_not_artifact].
  - unfold zlen, map_len in *. cbn [List.filter]. unfold json_name at 1.
    rewrite bool_decide_true by apply status_extension. cbn [length].
    destruct (target now before id); [rewrite map_size_insert_None by done|]; lia.
Qed.

Lemma entry_temporary name seen loaded s :
  stale_temporary name = true -> progress seen loaded s ->
  nd_kind <$> rg_files s !! name <> Some DirectoryNode ->
  exists s', load_entry process now loaded name s = (Ok loaded, s') /\ progress (name :: seen) loaded s'.
Proof.
  intros Hst Hp Hk. pose proof (pg_calm _ _ _ Hp) as Hc. unfold load_entry. rewrite bind_silent by done. rewrite Hst.
  erewrite bind_ok by by apply remove_calm. eexists. split; [done|]. apply progress_delete; [|done].
  unfold temporary_name. by rewrite Hst.
Qed.
Lemma entry_other name seen loaded s :
  temporary_name name = false -> json_name name = false -> (forall id, name <> status_path id) ->
  progress seen loaded s ->
  exists s', load_entry process now loaded name s = (Ok loaded, s') /\ progress (name :: seen) loaded s'.
Proof.
  intros Ht Hj Hs Hp. pose proof (pg_calm _ _ _ Hp) as Hc. exists s. split; [|by apply progress_skip].
  unfold temporary_name in Ht. apply orb_false_iff in Ht as [H1 H2]. unfold load_entry. rewrite bind_silent by done.
  rewrite H1, H2. erewrite bind_ok by done. cbn beta. unfold json_name in Hj. by rewrite Hj.
Qed.
Lemma entry_drill id n seen loaded s :
  progress seen loaded s -> rg_files s !! drill_path id = Some n -> nd_kind n = DirectoryNode ->
  exists s', load_entry process now loaded (drill_path id) s = (Ok loaded, s')
    /\ progress (drill_path id :: seen) loaded s'.
Proof.
  intros Hp Hn Hk. pose proof (pg_calm _ _ _ Hp) as Hc. unfold load_entry. rewrite bind_silent by done.
  rewrite drill_not_stale, drill_starts. unfold lstat, remove_dir_all.
  erewrite bind_ok; [|erewrite bind_ok; [done|rewrite fs_calm by done; unfold prog_read; by rewrite Hn]]. cbn beta.
  rewrite bool_decide_true by done. erewrite bind_ok by by rewrite fs_calm. eexists. split; [done|].
  apply progress_delete; [|done]. unfold temporary_name. by rewrite drill_starts, orb_true_r.
Qed.
Lemma target_of r n :
  before !! status_path (bj_job_id r) = Some n -> record_ok r -> nd_bytes n = status_text r ->
  target now before (bj_job_id r) = recovered now before r.
Proof. intros Hn Hr Hb. unfold target, status_on. rewrite Hn. cbn. by rewrite Hb, status_reads. Qed.
Lemma entry_status r n seen loaded s :
  progress seen loaded s -> before !! status_path (bj_job_id r) = Some n -> status_path (bj_job_id r) ∉ seen ->
  record_ok r -> nd_kind n = RegularNode -> nd_bytes n = status_text r ->
  zlen (List.filter json_name (status_path (bj_job_id r) :: seen)) <= MAX_JOBS ->
  exists loaded' s', load_entry process now loaded (status_path (bj_job_id r)) s = (Ok loaded', s')
    /\ progress (status_path (bj_job_id r) :: seen) loaded' s'.
Proof.
  intros Hp Hn Hnew Hr Hk Hb Hfew. destruct (pg_unseen _ _ _ Hp _ Hnew) as [Es Ea].
  destruct (load_calm now (bj_job_id r) n r s) as (s' & Hload & Hh); try done; [apply Hp..|by rewrite Es|].
  rewrite (recovered_ext now _ before) in Hload, Hh by done. rewrite <- (target_of r n) in Hload, Hh by done.
  pose proof (progress_status _ _ _ _ _ Hnew Hp Hh) as Hp'.
  unfold load_entry. rewrite bind_silent by apply Hp.
  pose proof (status_not_temporary (bj_job_id r)) as Ht. apply orb_false_iff in Ht as [H1 H2]. rewrite H1, H2.
  erewrite bind_ok by done. cbn beta. rewrite bool_decide_true by apply status_extension. cbn [negb].
  erewrite bind_ok by exact Hload. cbn beta. destruct (target now before (bj_job_id r)) as [r'|] eqn:Et; [|by eexists _, _].
  assert (Hid : bj_job_id r' = bj_job_id r).
  { rewrite (target_of r n) in Et by done. unfold recovered in Et. repeat case_match; by simplify_eq. }
  rewrite Hid. exists (<[bj_job_id r := r']> loaded), s'. split; [|done].
  rewrite (proj2 (Z.leb_gt _ _)); [done|]. pose proof (pg_few _ _ _ Hp) as Hl. revert Hfew Hl.
  unfold zlen. cbn [List.filter]. unfold json_name at 1. rewrite bool_decide_true by apply status_extension.
  cbn [length]. lia.
Qed.

Lemma entry_calm name n seen loaded s :
  progress seen loaded s -> before !! name = Some n -> name ∉ seen ->
  zlen (List.filter json_name (name :: seen)) <= MAX_JOBS ->
  exists loaded' s', load_entry process now loaded name s = (Ok loaded', s') /\ progress (name :: seen) loaded' s'.
Proof.
  intros Hp Hn Hnew Hfew. pose proof (pg_temporary _ _ _ Hp name) as Htmp. rewrite bool_decide_false in Htmp by done.
  destruct (Hbefore _ _ Hn) as [(u & -> & _)|[(r & -> & Hr & Hk & Hb)|[(u & Hname & Hk)|(u & -> & Hk)]]].
  - exists loaded. apply entry_other; [apply artifact_not_temporary| | |done].
    + apply bool_decide_false. by rewrite artifact_extension.
    + intros id. apply not_eq_sym, status_not_artifact.
  - by eapply entry_status.
  - exists loaded. destruct Hname as [->|[->| ->]].
    + apply entry_temporary; [apply temporary_stale|done|]. rewrite Htmp by (unfold temporary_name; by rewrite temporary_stale).
      rewrite Hn. cbn. congruence.
    + apply entry_temporary; [apply upload_stale|done|]. rewrite Htmp by (unfold temporary_name; by rewrite upload_stale).
      rewrite Hn. cbn. congruence.
    + apply entry_other; [apply partial_not_temporary| |apply partial_not_status|done].
      apply bool_decide_false. by rewrite partial_extension.
  - exists loaded. apply (entry_drill u n); [done| |done]. rewrite <- Hn. apply Htmp.
    unfold temporary_name. by rewrite drill_starts, orb_true_r.
Qed.

(** The loop ends, with every name handled. *)
Lemma loop_calm names seen loaded s :
  progress seen loaded s -> NoDup (names ++ seen) -> (forall name, name ∈ names -> is_Some (before !! name)) ->
  zlen (List.filter json_name (names ++ seen)) <= MAX_JOBS ->
  exists loaded' s', prog_foldM (load_entry process now) loaded names s = (Ok loaded', s')
    /\ progress (rev names ++ seen) loaded' s'.
Proof.
  revert seen loaded s. induction names as [|name names IH]; intros seen loaded s Hp Hnd Hin Hfew; [by eexists _, _|].
  cbn in Hnd. apply NoDup_cons in Hnd as [Hnew Hnd]. apply not_elem_of_app in Hnew as [Hn1 Hn2].
  destruct (Hin name) as [n Hn]; [by left|].
  assert (Hperm : name :: names ++ seen ≡ₚ names ++ name :: seen) by by rewrite Permutation_middle.
  destruct (entry_calm name n seen loaded s) as (l1 & s1 & H1 & Hp1); try done.
  { revert Hfew. unfold zlen. cbn [app List.filter]. rewrite List.filter_app.
    destruct (json_name name); cbn [length]; rewrite length_app; lia. }
  destruct (IH (name :: seen) l1 s1) as (l2 & s2 & H2 & Hp2); [done| | | |].
  - rewrite <- Hperm. apply NoDup_cons. split; [|done]. rewrite not_elem_of_app. done.
  - intros x Hx. apply Hin. by right.
  - revert Hfew. unfold zlen. cbn [app List.filter]. rewrite !List.filter_app. cbn [List.filter].
    destruct (json_name name); cbn [length]; rewrite !length_app; cbn [length]; lia.
  - exists l2, s2. cbn [prog_foldM]. erewrite bind_ok by exact H1. split; [done|]. cbn [rev]. by rewrite <- app_assoc.
Qed.
End Loop.

(** * The second loop *)

(** An artifact without a completed job. *)
Definition unwanted (loaded : gmap Uuid BackupJobRecord) (name : blob) : bool :=
  match strip_suffix (bstr ".smcvault") name ≫= parse_str with
  | Some id => negb (bool_decide (bj_state <$> loaded !! id = Some JCompleted))
  | None => false
  end.
Lemma sweep_calm loaded name s :
  calm s -> nd_kind <$> rg_files s !! name <> Some DirectoryNode ->
  sweep_entry loaded name s
  = (Ok tt, if unwanted loaded name then set_rg_files (delete name (rg_files s)) s else s).
Proof.
  intros Hc Hk. unfold sweep_entry, unwanted. rewrite bind_silent by done.
  destruct (strip_suffix _ _ ≫= parse_str) as [id|]; [|done]. case_bool_decide; [done|]. by apply remove_calm.
Qed.
Lemma sweeps_calm loaded names s :
  calm s -> disk_ok (rg_files s) -> (forall id, rg_files s !! drill_path id = None) ->
  exists l s', prog_mapM (sweep_entry loaded) names s = (Ok l, s')
    /\ forall name, rg_files s' !! name
         = if bool_decide (name ∈ names) && unwanted loaded name then None else rg_files s !! name.
Proof.
  revert s. induction names as [|x names IH]; intros s Hc Hd Hdrill; [by exists [], s|].
  assert (Hk : nd_kind <$> rg_files s !! x <> Some DirectoryNode).
  { destruct (rg_files s !! x) as [n|] eqn:E; [|done]. cbn.
    destruct (Hd _ _ E) as [(u & _ & ->)|[(r & _ & _ & -> & _)|[(u & _ & ->)|(u & -> & _)]]]; try done.
    by rewrite Hdrill in E. }
  destruct (IH (if unwanted loaded x then set_rg_files (delete x (rg_files s)) s else s)) as (l & s' & H1 & H2).
  { by destruct (unwanted loaded x). }
  { destruct (unwanted loaded x); [by apply disk_delete|done]. }
  { intros id. destruct (unwanted loaded x); [apply lookup_delete_None; by right|apply Hdrill]. }
  exists (tt :: l), s'. split.
  - cbn [prog_mapM]. erewrite bind_ok by by apply sweep_calm. cbn beta. by erewrite bind_ok by exact H1.
  - intros name. rewrite H2. destruct (decide (name = x)) as [->|Hne].
    + rewrite elem_cons_eq. cbn [andb].
      destruct (unwanted loaded x); [|by rewrite andb_false_r]. cbn. rewrite lookup_delete_eq. by destruct (_ && _).
    + rewrite elem_cons_ne by done. destruct (unwanted loaded x); [|done]. cbn. by rewrite lookup_delete_ne.
Qed.
Lemma all_names files (name : blob) (n : Node) : files !! name = Some n -> name ∈ fst <$> map_to_list files.
Proof. intros H. apply list_elem_of_fmap. exists (name, n). split; [done|]. by apply elem_of_map_to_list. Qed.

Lemma partial_wanted loaded id : unwanted loaded (partial_path id) = false.
Proof.
  unfold unwanted. destruct (strip_suffix _ _) as [k|] eqn:E; [|done]. apply smcvault_last in E.
  unfold partial_path in E. change (bstr ".partial") with (bstr ".partia" ++ [x6c]) in E.
  by rewrite app_assoc, last_app_cons in E.
Qed.
Lemma status_wanted loaded id : unwanted loaded (status_path id) = false.
Proof. unfold unwanted. by rewrite status_not_suffixed. Qed.

(** * The whole *)

Hypothesis Hread : forall k l, read_order k l ≡ₚ l.

Definition reopened (now : Z) (before : gmap blob Node) (s' : Registry) : Prop := forall id,
  rg_jobs s' !! id = target now before id
  /\ nd_bytes <$> rg_files s' !! status_path id = status_text <$> rg_jobs s' !! id
  /\ rg_files s' !! artifact_path id
     = (if bool_decide (bj_state <$> rg_jobs s' !! id = Some JCompleted) then before !! artifact_path id else None)
  /\ rg_files s' !! status_temporary id = None /\ rg_files s' !! verify_path id = None
  /\ rg_files s' !! drill_path id = None /\ rg_files s' !! partial_path id = before !! partial_path id.

Lemma target_absent now before id : before !! status_path id = None -> target now before id = None.
Proof. intros H. unfold target, status_on. by rewrite H. Qed.

(** What the second loop leaves, where the first has handled every name. *)
Lemma swept_reopened now before seen loaded s :
  progress now before seen loaded s -> (forall name, before !! name <> None -> name ∈ seen) ->
  exists s', (do! _ := prog_mapM (sweep_entry loaded) (read_order (rg_draws s) (fst <$> map_to_list (rg_files s))) in
              fun s => (Ok tt, set_rg_jobs loaded s)) s = (Ok tt, s') /\ reopened now before s'.
Proof.
  intros Hp Hseen.
  assert (Htmp : forall x, temporary_name x = true -> rg_files s !! x = None).
  { intros x Hx. rewrite (pg_temporary _ _ _ _ _ Hp) by done. case_bool_decide as Hin; [done|].
    destruct (before !! x) eqn:E; [|done]. destruct Hin. apply Hseen. by rewrite E. }
  assert (Hdrill : forall id, rg_files s !! drill_path id = None).
  { intros id. apply Htmp. unfold temporary_name. by rewrite drill_starts, orb_true_r. }
  destruct (sweeps_calm loaded (read_order (rg_draws s) (fst <$> map_to_list (rg_files s))) s) as (l & s' & H1 & H2);
    [apply Hp..|done|].
  assert (H3 : forall x, rg_files s' !! x = if unwanted loaded x then None else rg_files s !! x).
  { intros x. rewrite H2. case_bool_decide as Hin; [done|]. cbn [andb].
    destruct (rg_files s !! x) eqn:E; [|by destruct (unwanted loaded x)].
    destruct Hin. rewrite Hread. by eapply all_names. }
  assert (Hl : forall id, loaded !! id = target now before id).
  { intros id. rewrite (pg_loaded _ _ _ _ _ Hp). case_bool_decide as Hin; [done|]. symmetry. apply target_absent.
    destruct (before !! status_path id) eqn:E; [|done]. destruct Hin. apply Hseen. by rewrite E. }
  erewrite bind_ok by exact H1. eexists. split; [done|]. intros id. cbn [rg_jobs rg_files set_rg_jobs].
  rewrite !H3, status_wanted, partial_wanted, Hl. split_and!; [done|..|apply Hp].
  - destruct (before !! status_path id) eqn:E; [apply Hp, Hseen; by rewrite E|].
    rewrite target_absent by done. destruct (decide (status_path id ∈ seen)) as [Hin|Hin].
    + rewrite (pg_status _ _ _ _ _ Hp) by done. by rewrite target_absent.
    + destruct (pg_unseen _ _ _ _ _ Hp id Hin) as [-> _]. by rewrite E.
  - unfold unwanted. rewrite artifact_id, Hl. case_bool_decide as Hst; cbn [negb]; [|done]. by apply (pg_artifact _ _ _ _ _ Hp).
  - rewrite Htmp by (unfold temporary_name; by rewrite temporary_stale). by destruct (unwanted _ _).
  - rewrite Htmp by (unfold temporary_name; by rewrite upload_stale). by destruct (unwanted _ _).
  - rewrite Hdrill. by destruct (unwanted _ _).
Qed.
Lemma load_statuses_calm s :
  calm s -> fresh s -> disk_ok (rg_files s) ->
  zlen (List.filter json_name (fst <$> map_to_list (rg_files s))) <= MAX_JOBS ->
  exists s', load_statuses process read_order s = (Ok tt, s')
    /\ reopened (now_unix_ms (rg_clock s (rg_ticks s))) (rg_files s) s'.
Proof.
  intros Hc Hf Hd Hfew. set (now := now_unix_ms _). set (before := rg_files s) in *.
  assert (Hnow : 0 <= now <= i64_max).
  { unfold now, now_unix_ms, try_from. destruct (_ && _) eqn:E; bprop; cbn; [lia|unfold i64_max; lia]. }
  unfold load_statuses. erewrite bind_ok by done. cbn beta. fold now. set (s1 := set_rg_ticks _ s).
  erewrite bind_ok by by unfold read_dir; rewrite fs_calm. cbn beta.
  set (names := read_order (rg_draws s1) (fst <$> map_to_list (rg_files s1))).
  assert (Hnames : names ≡ₚ fst <$> map_to_list before) by apply Hread.
  destruct (loop_calm now before Hd Hnow names [] ∅ s1) as (loaded & s2 & H2 & Hp).
  - split; try done. by intros id Hid%elem_of_nil.
  - rewrite app_nil_r, Hnames. apply NoDup_fst_map_to_list.
  - intros x Hx. rewrite Hnames in Hx. apply list_elem_of_fmap in Hx as ([y n] & -> & Hy).
    apply elem_of_map_to_list in Hy. by eexists.
  - rewrite app_nil_r. unfold zlen in *. by rewrite (Permutation_length (Permutation_filterb json_name _ _ Hnames)).
  - erewrite bind_ok by exact H2. cbn beta. pose proof (pg_calm _ _ _ _ _ Hp) as Hc2.
    erewrite bind_ok by by unfold read_dir; rewrite fs_calm. cbn beta. rewrite app_nil_r in Hp.
    assert (Hseen : forall x, before !! x <> None -> x ∈ rev names).
    { intros x Hx. apply list_elem_of_In, in_rev. rewrite rev_involutive. apply list_elem_of_In. rewrite Hnames.
      destruct (before !! x) as [n|] eqn:E; [|done]. by eapply all_names. }
    apply (swept_reopened now before (rev names) loaded s2 Hp Hseen).
Qed.

(** The directory is this process's own. *)
Definition directory_ours (s : Registry) : Prop := forall n, rg_directory s = Some n ->
  nd_kind n = DirectoryNode /\ Z.land (nd_mode n) OTHERS_BITS = 0 /\ nd_uid n = pr_uid process.

Lemma open_calm s :
  current_effective_uid process = Ok (pr_uid process) -> directory_ours s -> calm s ->
  exists s1, open_registry process read_order s = load_statuses process read_order s1
    /\ calm s1 /\ rg_files s1 = rg_files s /\ rg_draws s1 = rg_draws s /\ rg_clock s1 = rg_clock s
    /\ rg_ticks s1 = rg_ticks s.
Proof.
  intros Huid Hours Hc. unfold open_registry, directory_ours in *.
  set (made := {| nd_kind := DirectoryNode; nd_mode := DIRECTORY_BITS; nd_uid := pr_uid process; nd_bytes := [] |}).
  erewrite bind_ok by by unfold prog_try; rewrite fs_calm. cbn beta.
  assert (exists n s1, match ok_or IoNotFound (rg_directory s) with
      | Ok _ => prog_ret tt
      | Err IoNotFound => fs (fun s0 => (Ok tt, set_rg_directory (Some made) s0))
      | Err e => prog_fail e
      end s = (Ok tt, s1) /\ rg_directory s1 = Some n /\ nd_kind n = DirectoryNode
      /\ Z.land (nd_mode n) OTHERS_BITS = 0 /\ nd_uid n = pr_uid process
      /\ (s1 = s \/ s1 = set_rg_directory (Some made) s)) as (n & s1 & H1 & Hn & Hk & Hm & Hu & Hs1).
  { destruct (rg_directory s) as [n|] eqn:E; cbn [ok_or].
    - exists n, s. destruct (Hours n eq_refl) as (? & ? & ?). split_and!; try done. by left.
    - exists made, (set_rg_directory (Some made) s). rewrite fs_calm by done. split_and!; try done. by right. }
  assert (calm s1) by (by destruct Hs1 as [->| ->]).
  erewrite bind_ok by exact H1. cbn beta.
  erewrite bind_ok; [|rewrite fs_calm by done; unfold prog_read; by rewrite Hn]. cbn beta.
  unfold unrestrictive. rewrite bool_decide_true, Hm by done. cbn [negb orb Z.eqb].
  erewrite bind_ok; [|by erewrite bind_ok; [|unfold prog_lift; by rewrite Huid]]. cbn beta. rewrite Hu, Z.eqb_refl.
  do 2 erewrite bind_ok by done. eexists. split; [done|]. by destruct Hs1 as [->| ->].
Qed.
End Reopen.

Section Reopening.
Context {CR : Crypto} {CL : CryptoLaws} {PH : PasswordHashing} {LJ : LogicalJson} {AF : ArchiveFormats}
  {HT : HttpText} {HL : HttpTextLaws} {JJ : JobJson} {JL : JobJsonLaws}
  (process : Process) (read_order : nat -> list blob -> list blob).

End Reopening.
