(* ===== verification/DownloadProps.v ===== *)
(** From the vault to the browser: the archive a worker publishes is the one
    that a download serves. *)
From Stdlib Require Import ZArith Lia Strings.Byte String.
From stdpp Require Import base tactics numbers option strings list gmap.
From S2P Require Import Prelude RustStd Core Crypto Format Sql Initialization VaultCore Authentication Authorization ServiceIdentity AuthorizedVault VaultAudit VaultRuns AuthzProps Archive Portable Logical Backup BackupRuns Passkeys PasskeyProps Http BackupJobs Server BackupApi JobProps.

(** * Programs that leave the jobs and the artifacts alone *)

Section Frames.
Context {CR : Crypto} {CL : CryptoLaws} {HT : HttpText} {HL : HttpTextLaws} {JJ : JobJson} (process : Process).

Definition same_artifacts (s s' : Registry) : Prop :=
  rg_jobs s' = rg_jobs s /\ forall id, rg_files s' !! artifact_path id = rg_files s !! artifact_path id.
Definition frames {E A} (m : Prog Registry E A) : Prop := forall s, same_artifacts s (snd (m s)).

Lemma frames_bind {E A B} (m : Prog Registry E A) (k : A -> Prog Registry E B) :
  frames m -> (forall a, frames (k a)) -> frames (prog_bind m k).
Proof.
  intros Hm Hk s. destruct (Hm s) as [H1 H2]. unfold prog_bind. destruct (m s) as [[a|e] s1]; [|done].
  destruct (Hk a s1) as [H3 H4]. cbn in *. split; [congruence|]. intros id. by rewrite H4.
Qed.
Lemma frames_ret {E A} (a : A) : frames (E:=E) (prog_ret a).
Proof. done. Qed.
Lemma frames_read {E A} (f : Registry -> result E A) : frames (prog_read f).
Proof. done. Qed.
Lemma frames_lift {E A} (r : result E A) : frames (prog_lift r).
Proof. done. Qed.
Lemma frames_reject {E} bad (e : E) : frames (prog_reject bad e).
Proof. by destruct bad. Qed.
Lemma frames_fs_op {A} partial (m : Jobs A) :
  (forall n s, same_artifacts s (partial n s)) -> frames m -> frames (fs_op partial m).
Proof.
  intros Hp Hm s. unfold fs_op. destruct (rg_running s); [|done]. cbn [negb].
  destruct (rg_outcomes s) as [|[|n|n] l]; [apply Hm|apply (Hm (set_rg_outcomes l s))|..];
    apply (Hp n (set_rg_outcomes l s)).
Qed.
Lemma frames_fs {A} (m : Jobs A) : frames m -> frames (fs m).
Proof. by apply frames_fs_op. Qed.
Lemma frames_silent : frames fs_silent.
Proof. by apply frames_fs. Qed.

Definition no_artifact (name : blob) : Prop := forall id, name <> artifact_path id.
Lemma temporary_no_artifact id : no_artifact (status_temporary id).
Proof. intros u E. pose proof (temporary_extension id) as H. by rewrite E, artifact_extension in H. Qed.
Lemma status_no_artifact id : no_artifact (status_path id).
Proof. intros u. apply status_not_artifact. Qed.

Lemma frames_write name bytes : no_artifact name -> frames (write_all name bytes).
Proof.
  intros Hn. assert (forall b s, same_artifacts s (append_bytes name b s)) as H.
  { intros b s. split; [done|]. intros id. cbn. by rewrite lookup_alter_ne. }
  apply frames_fs_op; [intros n s; apply H|intros s; apply H].
Qed.
Lemma frames_create name : no_artifact name -> frames (create_new process name).
Proof.
  intros Hn. apply frames_fs. intros s. destruct (rg_files s !! name); [done|]. split; [done|]. intros id.
  cbn. by rewrite lookup_insert_ne.
Qed.
Lemma frames_rename from to : no_artifact from -> no_artifact to -> frames (rename from to).
Proof.
  intros Hf Ht. apply frames_fs. intros s. destruct (rg_files s !! from); [|done]. case_bool_decide; [done|].
  split; [done|]. intros id. cbn. by rewrite lookup_insert_ne, lookup_delete_ne.
Qed.
Lemma frames_remove name : no_artifact name -> frames (remove_if_exists name).
Proof.
  intros Hn s. assert (frames (remove_file name)) as H.
  { apply frames_fs. intros s1. destruct (rg_files s1 !! name); [|done]. case_bool_decide; [done|].
    split; [done|]. intros id. cbn. by rewrite lookup_delete_ne. }
  unfold remove_if_exists. specialize (H s). by destruct (remove_file name s) as [[|[]] s1].
Qed.
Lemma frames_persist r : frames (persist process r).
Proof.
  apply frames_bind; [done|intros id]. intros s. unfold drop_removes.
  match goal with |- context [let (_, _) := ?m s in _] => assert (Hm : frames m) end.
  { apply frames_bind; [apply frames_create, temporary_no_artifact|intros _].
    do 2 (apply frames_bind; [apply frames_write, temporary_no_artifact|intros _]).
    apply frames_bind; [apply frames_silent|intros _].
    apply frames_bind; [apply frames_rename; [apply temporary_no_artifact|apply status_no_artifact]|intros _].
    apply frames_bind; [apply frames_silent|intros _]. apply frames_silent. }
  specialize (Hm s). destruct (_ : result IoError unit * Registry) as [r1 s1]. cbn in *.
  pose proof (frames_remove (status_temporary id) (temporary_no_artifact id) s1) as [H1 H2].
  destruct Hm as [H3 H4]. split; [congruence|]. intros u. by rewrite H2.
Qed.

(** A change of a record that only reads the clock. *)
Definition changes (f : BackupJobRecord -> Jobs BackupJobRecord) (g : Z -> BackupJobRecord -> BackupJobRecord) : Prop :=
  forall r s, exists k s', f r s = (Ok (g k r), s') /\ same_artifacts s s'.
Lemma update_frames id f g r s :
  changes f g -> rg_jobs s !! id = Some r ->
  exists k n, let r' := set_bj_updated n (g k r) in
    match update_job process id f s with
    | (Ok _, s') => rg_jobs s' = <[id := r']> (rg_jobs s)
                    /\ forall u, rg_files s' !! artifact_path u = rg_files s !! artifact_path u
    | (Err _, s') => same_artifacts s s'
    end.
Proof.
  intros Hf Hr. destruct (Hf r s) as (k & s1 & E1 & [J1 F1]). unfold update_job, prog_bind, prog_read. rewrite Hr.
  cbn [ok_or]. rewrite E1. unfold clock_now.
  match goal with |- context [persist process ?r' ?s'] => pose proof (frames_persist r' s') as [J2 F2];
    destruct (persist process r' s') as [[u|e] s2] end.
  - cbn in *. eexists k, _. split; [by rewrite J2, J1|]. intros v. by rewrite F2, F1.
  - exists k, 0. cbn in *. split; [congruence|]. intros v. by rewrite F2, F1.
Qed.
End Frames.

(** * The worker *)

Section Worker.
Context {CR : Crypto} {CL : CryptoLaws} {PH : PasswordHashing} {LJ : LogicalJson} {AF : ArchiveFormats} {WA : WebAuthn}
  {HT : HttpText} {HL : HttpTextLaws} {JJ : JobJson} (self : InitializedVault) (process : Process).

Lemma worker_jobs_run {A} (m : Jobs A) (s : Server) :
  worker_jobs m s = (fst (m (set_rg_draws (w_draws (sv_world s)) (sv_jobs s))),
                     snd (worker_jobs m s))
  /\ sv_jobs (snd (worker_jobs m s)) = snd (m (set_rg_draws (w_draws (sv_world s)) (sv_jobs s))).
Proof.
  unfold worker_jobs, of_jobs. destruct (m _) as [[a|e] g]; done.
Qed.
Lemma try_run {A} (m : Prog Server IoError A) s : prog_try (F:=IoError) m s = (Ok (fst (m s)), snd (m s)).
Proof. unfold prog_try. by destruct (m s). Qed.

Definition failed_record (code : string) (k : Z) (r : BackupJobRecord) : BackupJobRecord :=
  set_bj_error (Some code) (set_bj_expires k (set_bj_state JFailed r)).
Lemma failed_changes code : changes (mark_failed code) (failed_record code).
Proof. intros r s. eexists _, _. split; [done|]. done. Qed.
Definition completed_record (w : BackupWorker) report sha (k : Z) (r : BackupJobRecord) : BackupJobRecord :=
  set_archive w report sha (set_bj_expires k (set_bj_state JCompleted r)).
Lemma completed_changes w report sha : changes (mark_completed w report sha) (completed_record w report sha).
Proof. intros r s. eexists _, _. split; [done|]. done. Qed.

(** A job that is abandoned is not completed. *)
Lemma abandoned id code r s :
  rg_jobs (sv_jobs s) !! id = Some r -> bj_state r <> JCompleted ->
  exists r', rg_jobs (sv_jobs (snd (abandon_job process id code s))) !! id = Some r' /\ bj_state r' <> JCompleted.
Proof.
  intros Hr Hst. unfold abandon_job. unfold prog_bind at 1. rewrite try_run.
  destruct (worker_jobs_run (remove_if_exists (artifact_path id)) s) as [_ E1].
  set (s1 := snd (worker_jobs (remove_if_exists (artifact_path id)) s)) in *.
  assert (rg_jobs (sv_jobs s1) = rg_jobs (sv_jobs s)) as J1.
  { rewrite E1. unfold remove_if_exists, remove_file, fs, fs_op.
    destruct (rg_running _); [|done]. cbn [negb]. cbn [rg_outcomes set_rg_draws].
    repeat (case_match; simplify_eq/=); done. }
  unfold prog_bind at 1. rewrite try_run. cbn [snd prog_ret].
  destruct (worker_jobs_run (update_job process id (mark_failed code)) s1) as [_ E2]. rewrite E2.
  edestruct (update_frames process id (mark_failed code) (failed_record code) r
    (set_rg_draws (w_draws (sv_world s1)) (sv_jobs s1))) as (k & n & H); [apply failed_changes|cbn; by rewrite J1|].
  cbv zeta in H. destruct (update_job process id (mark_failed code) _) as [[u|e] g]; cbn [snd].
  - destruct H as [-> _]. eexists. split; [apply lookup_insert_eq|done].
  - destruct H as [-> _]. cbn. rewrite J1. by exists r.
Qed.

Definition registry_now (s : Server) : Z := now_unix_ms (rg_clock (sv_jobs s) (rg_ticks (sv_jobs s))).

Lemma frames_digest name expected digest : frames (open_and_digest_artifact process name expected digest).
Proof.
  apply frames_bind.
  - apply frames_bind; [apply frames_fs, frames_read|intros n]. apply frames_bind; [apply frames_silent|intros _].
    apply frames_bind; [|intros unsafe; apply frames_bind; [apply frames_reject|intros _; apply frames_ret]].
    unfold unrestrictive. destruct (_ || _); [apply frames_ret|]. apply frames_bind; [apply frames_lift|intros uid].
    apply frames_ret.
  - intros bytes. do 2 (apply frames_bind; [apply frames_silent|intros _]).
    apply frames_bind; [apply frames_reject|intros _]. apply frames_ret.
Qed.
Lemma fs_read_Ok {A} (f : Registry -> result IoError A) s a s' :
  fs (prog_read f) s = (Ok a, s') -> exists l, s' = set_rg_outcomes l s /\ f s' = Ok a.
Proof.
  unfold fs, fs_op, prog_read. destruct (rg_running s); [|done]. cbn [negb].
  destruct (rg_outcomes s) as [|[|n|n] l] eqn:E; intros [= H <-]; [exists []|exists l]; split; try done.
  destruct s. cbn in *. by subst.
Qed.
Lemma silent_Ok s u s' : fs_silent s = (Ok u, s') -> exists l, s' = set_rg_outcomes l s.
Proof.
  unfold fs_silent, fs, fs_op. destruct (rg_running s); [|done]. cbn [negb].
  destruct (rg_outcomes s) as [|[|n|n] l] eqn:E; intros [= <-]; [exists []|by exists l].
  destruct s. cbn in *. by subst.
Qed.
Lemma custody_Ok n right_kind s b s' :
  unrestrictive process n right_kind s = (Ok b, s') ->
  s' = s /\ (b = false -> right_kind = true /\ Z.land (nd_mode n) OTHERS_BITS = 0).
Proof.
  unfold unrestrictive. destruct (negb right_kind || _) eqn:E.
  - intros H. by apply prog_ret_Ok in H as [-> ->].
  - intros H. apply prog_bind_Ok in H as (uid & s1 & H1 & H). apply prog_lift_Ok in H1 as [_ ->].
    apply prog_ret_Ok in H as [-> ->]. split; [done|]. intros _. apply orb_false_iff in E as [E1 E2].
    destruct right_kind; [|done]. split; [done|]. by apply negb_false_iff, Z.eqb_eq in E2.
Qed.
(** What a digest that succeeds has read. *)
Lemma digest_Ok name expected digest s bytes sha s' :
  open_and_digest_artifact process name expected digest s = (Ok (bytes, sha), s') ->
  exists n, rg_files s !! name = Some n /\ nd_bytes n = bytes /\ nd_kind n = RegularNode
    /\ Z.land (nd_mode n) OTHERS_BITS = 0 /\ zlen bytes = expected /\ sha = hex_encode (arr (sha256 bytes))
    /\ forall d, digest = Some d -> d = sha.
Proof.
  intros H. apply prog_bind_Ok in H as (b & s1 & Ho & H).
  apply prog_bind_Ok in Ho as (n & s2 & Hn & Ho). apply fs_read_Ok in Hn as (l & -> & Hn). cbn in Hn.
  destruct (rg_files s !! name) as [n'|]; [|done]. destruct (bool_decide (nd_kind n' = LinkNode)); [done|]. injection Hn as ->.
  apply prog_bind_Ok in Ho as (u & s3 & H3 & Ho). apply silent_Ok in H3 as [l3 ->].
  apply prog_bind_Ok in Ho as (unsafe & s4 & H4 & Ho). apply custody_Ok in H4 as [-> H4].
  apply prog_bind_Ok in Ho as (u' & s5 & H5 & Ho). apply prog_reject_Ok in H5 as [H5 ->].
  apply prog_ret_Ok in Ho as [-> ->]. apply orb_false_iff in H5 as [-> H5]. destruct (H4 eq_refl) as [Hk Hm].
  apply bool_decide_eq_true in Hk.
  apply prog_bind_Ok in H as (v & s6 & _ & H). apply prog_bind_Ok in H as (v' & s7 & _ & H).
  apply prog_bind_Ok in H as (v'' & s8 & H8 & H). apply prog_reject_Ok in H8 as [H8 _].
  apply prog_ret_Ok in H as [E _]. injection E as -> ->. exists n. split_and!; try done.
  - by apply negb_false_iff, Z.eqb_eq in H5.
  - intros d ->. cbn in H8. unfold blob_eqb in H8. by case_bool_decide.
Qed.

(** The archive of the vault, at its place and with its digest. *)
Record archived (w : BackupWorker) (s : Server) (report : BackupFileReport) (sha : blob) (files : gmap blob Node)
    (archive : blob) : Prop := {
  ac_archive : exists snapshot, archive_of self (w_ring (sv_world s)) (w_db (sv_world s)) (bw_key w) (registry_now s)
                                  snapshot archive;
  ac_bytes : bf_archive_bytes report = zlen archive;
  ac_digest : sha = hex_encode (arr (sha256 archive));
  ac_file : files !! artifact_path (bw_job_id w) = Some (archive_node process archive) }.

Lemma archive_result_run env w s :
  quiet (sv_world s) ->
  exists o s', archive_result self process env w s = (Ok o, s') /\ rg_jobs (sv_jobs s') = rg_jobs (sv_jobs s)
    /\ match o with
       | Some (report, sha) => exists archive, archived w s report sha (rg_files (sv_jobs s')) archive
       | None => True
       end.
Proof.
  intros Hq. unfold archive_result. unfold prog_bind at 1.
  change (worker_jobs clock_now s) with (Ok (E:=IoError) (registry_now s),
    set_sv_jobs (set_rg_ticks (S (rg_ticks (sv_jobs s))) (set_rg_draws (w_draws (sv_world s)) (sv_jobs s)))
      (set_sv_world (set_w_draws (w_draws (sv_world s)) (sv_world s)) s)). cbv beta iota.
  set (s1 := set_sv_jobs _ _). unfold prog_bind at 1, create_artifact.
  destruct (create_backup_file self _ (bw_key w) (registry_now s) (publishing_of env (bw_job_id w) s1)) as [[report|e] p]
    eqn:Ec; cbv beta iota; [|by eexists _, _].
  apply create_Ok in Ec as (snapshot & archive & Hp & _); [|exact Hq]. destruct (pb_files _ _ _ _ _ _ _ _ Hp) as [Hd Ht].
  pose proof (pb_absent _ _ _ _ _ _ _ _ Hp) as Habs. cbn in Habs. apply fmap_None in Habs.
  set (s2 := set_sv_jobs _ _).
  assert (rg_files (sv_jobs s2) !! artifact_path (bw_job_id w) = Some (archive_node process archive)) as Hf.
  { cbn. unfold published_files, placed_files. rewrite Hd, Ht, Habs. apply lookup_insert_eq. }
  unfold prog_bind. rewrite try_run.
  destruct (worker_jobs_run (open_and_digest_artifact process (artifact_path (bw_job_id w)) (bf_archive_bytes report) None) s2)
    as [Ew E2]. rewrite Ew. cbn [fst snd].
  set (m := open_and_digest_artifact process _ _ _) in *.
  pose proof (frames_digest (artifact_path (bw_job_id w)) (bf_archive_bytes report) None
    (set_rg_draws (w_draws (sv_world s2)) (sv_jobs s2))) as [J F]. fold m in J, F.
  eexists _, _. split; [done|]. rewrite E2. split; [by rewrite J|].
  destruct (m _) as [[[bytes sha]|e] g] eqn:Em; cbn [fst snd]; [|done].
  apply digest_Ok in Em as (n & Hn & <- & _ & _ & Hl & -> & _). cbn [rg_files set_rg_draws] in Hn. rewrite Hf in Hn.
  injection Hn as <-. exists archive. destruct (pb_verified _ _ _ _ _ _ _ _ Hp) as (v & _ & _ & _ & _ & Hb).
  split; try done.
  - exists snapshot. apply (pb_archive _ _ _ _ _ _ _ _ Hp).
  - cbn [snd] in F. rewrite F. done.
Qed.

(** A job the worker completes has its archive. *)
Lemma worker_completes env w s r0 r :
  quiet (sv_world s) -> sv_worker s = Some w -> rg_jobs (sv_jobs s) !! bw_job_id w = Some r0 ->
  bj_state r0 <> JCompleted -> rg_jobs (sv_jobs (run_worker self process env s)) !! bw_job_id w = Some r ->
  bj_state r = JCompleted ->
  exists report sha archive,
    archived w s report sha (rg_files (sv_jobs (run_worker self process env s))) archive
    /\ bj_archive_bytes r = Some (zlen archive) /\ bj_artifact_sha256 r = Some sha.
Proof.
  intros Hq Hw Hr0 Hst Hr Hc. unfold run_worker in *. rewrite Hw in *. cbn [sv_jobs set_sv_worker set_sv_archive_slot] in *.
  unfold backup_worker, prog_bind at 1 in Hr. unfold backup_worker, prog_bind at 1.
  destruct (archive_result_run env w s Hq) as (o & s1 & E1 & J1 & Ho). rewrite E1 in *. rewrite <- J1 in Hr0.
  destruct o as [[report sha]|].
  2: { destruct (abandoned (bw_job_id w) "backup_failed" r0 s1 Hr0 Hst) as (r' & Hr' & Hn). congruence. }
  destruct Ho as [archive Ha]. unfold prog_bind at 1 in Hr. unfold prog_bind at 1. rewrite try_run in *.
  set (m := update_job process (bw_job_id w) (mark_completed w report sha)) in *.
  destruct (worker_jobs_run m s1) as [Em Es].
  edestruct (update_frames process (bw_job_id w) (mark_completed w report sha) (completed_record w report sha) r0
    (set_rg_draws (w_draws (sv_world s1)) (sv_jobs s1))) as (k & n & H); [apply completed_changes|done|]. cbv zeta in H. fold m in H.
  rewrite Em in Hr. rewrite Em. cbn [fst snd] in *.
  destruct (m _) as [[u|e] g]; cbn [fst snd] in *.
  - destruct H as [J F]. cbn [snd prog_ret] in *. rewrite Es, J, lookup_insert_eq in Hr. injection Hr as <-.
    exists report, sha, archive. split; [|by rewrite <- (ac_bytes _ _ _ _ _ _ Ha)].
    destruct Ha as [? ? ? Hf]. split; try done. by rewrite Es, F.
  - destruct H as [J F]. cbn in J. rewrite <- J, <- Es in Hr0.
    destruct (abandoned (bw_job_id w) "status_persistence_failed" r0 _ Hr0 Hst) as (r' & Hr' & Hn). congruence.
Qed.
End Worker.

(** * The download *)

Section Download.
Context {CR : Crypto} {CL : CryptoLaws} {PH : PasswordHashing} {LJ : LogicalJson} {AF : ArchiveFormats} {WA : WebAuthn}
  {HT : HttpText} {HL : HttpTextLaws} {JJ : JobJson} (self : InitializedVault) (process : Process).

(** Files and jobs may go, and none is added or changed. *)
Definition shrinks (g g' : Registry) : Prop := rg_files g' ⊆ rg_files g /\ rg_jobs g' ⊆ rg_jobs g.
Lemma shrinks_trans g1 g2 g3 : shrinks g1 g2 -> shrinks g2 g3 -> shrinks g1 g3.
Proof. intros [H1 H2] [H3 H4]. split; by etrans. Qed.
Lemma shrinks_refl g : shrinks g g.
Proof. done. Qed.

Definition shrinking {E A} (m : Prog Registry E A) : Prop := forall g, shrinks g (snd (m g)).
Lemma shrinking_bind {E A B} (m : Prog Registry E A) (k : A -> Prog Registry E B) :
  shrinking m -> (forall a, shrinking (k a)) -> shrinking (prog_bind m k).
Proof.
  intros Hm Hk g. specialize (Hm g). unfold prog_bind. destruct (m g) as [[a|e] g1]; [|done].
  eapply shrinks_trans; [done|apply Hk].
Qed.
Lemma shrinking_remove name : shrinking (remove_if_exists name).
Proof.
  intros g. unfold remove_if_exists, remove_file, fs, fs_op. destruct (rg_running g); [|done]. cbn [negb].
  destruct (rg_outcomes g) as [|[] l]; repeat (case_match; simplify_eq/=); try done; split; try done; apply delete_subseteq.
Qed.
Lemma foldr_delete_subseteq (jobs : gmap Uuid BackupJobRecord) ids : foldr delete jobs ids ⊆ jobs.
Proof. induction ids as [|id ids IH]; [done|]. cbn. etrans; [apply delete_subseteq|done]. Qed.
Lemma shrinking_cleanup now : shrinking (cleanup_expired now).
Proof.
  apply shrinking_bind; [done|intros jobs]. apply shrinking_bind.
  - generalize (fst <$> List.filter (fun kv => job_expired now kv.2) (map_to_list jobs)) as l.
    induction l as [|id l IH]; [done|]. cbn [prog_mapM]. apply shrinking_bind.
    + apply shrinking_bind; [apply shrinking_remove|intros _; apply shrinking_remove].
    + intros u. apply shrinking_bind; [done|done].
  - intros l g. split; [done|]. apply foldr_delete_subseteq.
Qed.

Lemma of_jobs_Ok {E F A} (f : E -> F) (m : Prog Registry E A) s a s' :
  of_jobs f m s = (Ok a, s') ->
  exists g, m (set_rg_draws (w_draws (sv_world s)) (sv_jobs s)) = (Ok a, g) /\ sv_jobs s' = g.
Proof. unfold of_jobs. destruct (m _) as [[x|e] g]; intros H; simplify_eq/=. by eexists. Qed.
Lemma of_vault_Ok {E F A} (f : E -> F) (m : Prog World E A) (s : Server) a s' :
  of_vault f m s = (Ok a, s') -> sv_jobs s' = sv_jobs s.
Proof. unfold of_vault. destruct (m _) as [[x|e] w]; intros H; by simplify_eq/=. Qed.
Lemma now_Ok (s : Server) now s' : api_now s = (Ok now, s') -> shrinks (sv_jobs s) (sv_jobs s').
Proof. by intros [= _ <-]. Qed.
Lemma request_Ok headers (s : Server) id s' : request_id headers s = (Ok id, s') -> sv_jobs s' = sv_jobs s.
Proof. unfold request_id. destruct (_ ≫= _); by intros [= _ <-]. Qed.

Lemma inspect_shrinks headers request s u s' :
  authorize_inspect self headers request s = (Ok u, s') -> shrinks (sv_jobs s) (sv_jobs s').
Proof.
  intros H. unfold authorize_inspect in H. apply prog_bind_Ok in H as (now & s1 & H1 & H). apply now_Ok in H1.
  apply prog_bind_Ok in H as (owner & s2 & H2 & H). apply prog_bind_Ok in H as (av & s3 & H3 & H).
  apply of_vault_Ok in H3, H. apply prog_bind_Ok in H2 as (id & s4 & H4 & H2). apply request_Ok in H4.
  apply prog_bind_Ok in H2 as (session & s5 & H5 & H2). apply prog_lift_Ok in H5 as [_ ->]. apply of_vault_Ok in H2.
  by rewrite H, H3, H2, H4.
Qed.

(** What a download that succeeds has served. *)
Lemma download_Ok headers id s resp s' :
  api_download_backup self process headers id s = (Ok resp, s') ->
  exists job_id r n,
    parse_str id = Some job_id /\ rg_jobs (sv_jobs s) !! job_id = Some r /\ bj_state r = JCompleted
    /\ rg_files (sv_jobs s) !! artifact_path job_id = Some n
    /\ nd_kind n = RegularNode /\ Z.land (nd_mode n) OTHERS_BITS = 0
    /\ bj_archive_bytes r = Some (zlen (nd_bytes n))
    /\ bj_artifact_sha256 r = Some (hex_encode (arr (sha256 (nd_bytes n))))
    /\ resp = download_response job_id (zlen (nd_bytes n)) (nd_bytes n).
Proof.
  intros H. unfold api_download_backup in H.
  apply prog_bind_Ok in H as (request & s1 & H1 & H). apply request_Ok in H1.
  apply prog_bind_Ok in H as (u2 & s2 & H2 & H). apply inspect_shrinks in H2.
  apply prog_bind_Ok in H as (now & s3 & H3 & H). apply now_Ok in H3.
  apply prog_bind_Ok in H as (u4 & s4 & H4 & H). apply of_jobs_Ok in H4 as (g4 & H4 & E4).
  pose proof (shrinking_cleanup now (set_rg_draws (w_draws (sv_world s3)) (sv_jobs s3))) as S4. rewrite H4 in S4. cbn [snd] in S4.
  assert (shrinks (sv_jobs s) (sv_jobs s4)) as S.
  { rewrite E4, <- H1. eapply shrinks_trans; [exact H2|]. eapply shrinks_trans; [exact H3|exact S4]. }
  apply prog_bind_Ok in H as (job_id & s5 & H5 & H). apply prog_lift_Ok in H5 as [Hid ->].
  destruct (parse_str id) as [id'|]; [|done]. injection Hid as ->.
  apply prog_bind_Ok in H as (r & s6 & H6 & H). unfold unexpired_job in H6.
  apply prog_bind_Ok in H6 as (found & s7 & H7 & H6). apply of_jobs_Ok in H7 as (g7 & H7 & E7). injection H7 as <- <-.
  apply prog_bind_Ok in H6 as (job & s8 & H8 & H6). apply prog_lift_Ok in H8 as [Hjob ->]. cbn in Hjob.
  destruct (rg_jobs (sv_jobs s4) !! job_id) as [r'|] eqn:Er; [|done]. injection Hjob as ->.
  apply prog_bind_Ok in H6 as (now' & s9 & H9 & H6). apply now_Ok in H9.
  apply prog_bind_Ok in H6 as (u10 & s10 & H10 & H6). apply prog_reject_Ok in H10 as [_ ->].
  apply prog_ret_Ok in H6 as [-> ->].
  apply prog_bind_Ok in H as (u11 & s11 & H11 & H). apply prog_reject_Ok in H11 as [Hst ->].
  apply negb_false_iff, bool_decide_eq_true in Hst.
  apply prog_bind_Ok in H as (expected & s12 & H12 & H). apply prog_lift_Ok in H12 as [Hb ->].
  destruct (bj_archive_bytes job) as [b'|] eqn:Eb; [|done]. injection Hb as ->.
  apply prog_bind_Ok in H as (sha & s13 & H13 & H). apply prog_lift_Ok in H13 as [Hd ->].
  destruct (bj_artifact_sha256 job) as [d'|] eqn:Ed; [|done]. injection Hd as ->.
  apply prog_bind_Ok in H as (u14 & s14 & H14 & H). unfold acquire_slot in H14.
  destruct (sv_archive_slot s9); [|done]. injection H14 as <- <-.
  apply prog_bind_Ok in H as (opened & s15 & H15 & H). unfold holding_slot, prog_try in H15.
  destruct opened as [[bytes sha']|e].
  2: { apply prog_bind_Ok in H as (? & ? & _ & H). by apply prog_bind_Ok in H as (? & ? & _ & H). }
  apply prog_bind_Ok in H as (u16 & s16 & _ & H). apply prog_ret_Ok in H as [-> _].
  destruct (registry_call request _ _) as [rr s17] eqn:E17. injection H15 as -> _.
  apply of_jobs_Ok in E17 as (g17 & H17 & _). apply digest_Ok in H17 as (n & Hn & <- & Hk & Hm & <- & -> & Hsha).
  rewrite (Hsha _ eq_refl) in Ed. exists job_id, job, n. split_and!; try done.
  - eapply lookup_weaken; [exact Er|apply S].
  - cbn in Hn. eapply lookup_weaken; [exact Hn|]. etrans; [apply H9|]. rewrite E7. apply S.
Qed.

Lemma digest_inj (a b : array 32) : hex_encode (arr a) = hex_encode (arr b) -> a = b.
Proof.
  intros H. apply (f_equal hex_decode) in H. rewrite !hex_decode_encode in H. injection H as H. by apply array_eq.
Qed.

(** C16. A download serves the backup that was made. When the worker of a job
    that was not completed has left it completed, the vault had a snapshot whose
    archive under the key of the job is at the place of the artifact, in a file
    only this process reads. Whenever a download of a job with that recorded
    length and digest is answered with success, its body has this length and
    digest; it is that archive where the file is still the same. *)
Theorem downloaded_archive_is_the_backup (env : WorkerEnv) (w : BackupWorker) (s s2 s3 : Server)
    (r0 r r2 : BackupJobRecord) (headers : HeaderMap) (resp : Response)
    (Hquiet : quiet (sv_world s)) (Hworker : sv_worker s = Some w)
    (Hbefore : rg_jobs (sv_jobs s) !! bw_job_id w = Some r0 /\ bj_state r0 <> JCompleted)
    (s1 := run_worker self process env s)
    (Hafter : rg_jobs (sv_jobs s1) !! bw_job_id w = Some r /\ bj_state r = JCompleted)
    (Hlater : rg_jobs (sv_jobs s2) !! bw_job_id w = Some r2)
    (Hrecorded : bj_archive_bytes r2 = bj_archive_bytes r /\ bj_artifact_sha256 r2 = bj_artifact_sha256 r)
    (Hdownload : api_download_backup self process headers (uuid_text (bw_job_id w)) s2 = (Ok resp, s3)) :
  exists snapshot archive bytes,
    archive_of self (w_ring (sv_world s)) (w_db (sv_world s)) (bw_key w) (registry_now s) snapshot archive
    /\ rg_files (sv_jobs s1) !! artifact_path (bw_job_id w) = Some (archive_node process archive)
    /\ rs_body resp = FileBody bytes /\ zlen bytes = zlen archive /\ sha256 bytes = sha256 archive
    /\ (rg_files (sv_jobs s2) !! artifact_path (bw_job_id w) = rg_files (sv_jobs s1) !! artifact_path (bw_job_id w) ->
        bytes = archive).
Proof.
  destruct Hbefore as [Hr0 Hst0], Hafter as [Hr Hst].
  destruct (worker_completes self process env w s r0 r) as (report & sha & archive & [[snapshot Ha] Hb -> Hf] & Hl & Hd);
    try done.
  apply download_Ok in Hdownload as (job_id & r2' & n & Hid & Hr2 & _ & Hn & _ & _ & Hlen & Hsha & ->).
  rewrite parse_uuid_text in Hid. injection Hid as <-. rewrite Hlater in Hr2. injection Hr2 as <-.
  destruct Hrecorded as [E1 E2]. rewrite E1, Hl in Hlen. rewrite E2, Hd in Hsha. injection Hlen as Hlen. injection Hsha as Hsha.
  exists snapshot, archive, (nd_bytes n). split_and!; try done.
  - by apply digest_inj.
  - intros E. unfold s1 in E. rewrite Hn, Hf in E. by injection E as ->.
Qed.
End Download.
