(* ===== verification/Recovery.v ===== *)
(** The recovery channel of src/crates/smcv-cli/src/recovery_web.rs: a local web
    server of one operator, through which one archive is uploaded, verified and
    restored into a new installation.

    Its handlers run side by side.  A handler is a [Task] that is cut where the
    code touches what handlers share (the three flags, the session digest and the
    staged archive) and where it waits; an [Event] lets a request arrive, one task
    make one step, or a waiting task be dropped, which is what happens when its
    client disconnects.  The workspace is a directory as in BackupJobs.v, whose
    operations can fail; the closures of [spawn_blocking] do not panic, but may
    not be started.  The JSON of the requests is serde_json's, the class
    [RecoveryJson]; axum decides the route of a request and parses multipart
    bodies. *)
From Stdlib Require Import ZArith Lia Strings.Byte String.
From stdpp Require Import base tactics numbers option strings list gmap.
From S2P Require Import Prelude RustStd Core Crypto Format Initialization Authentication Archive Logical Backup Passkeys Http BackupJobs Server BackupApi.

Definition CHANNEL_TTL : Z := 10 * 60 * 1000.
Definition MAX_STAGED_BYTES : Z := 8 * 1024 * 1024 * 1024.
Definition MAX_KEY_BYTES : Z := 4 * 1024.

Record ActivateRequest : Type := {
  ar_archive_id : Uuid;
  ar_credential_mode : rstring }.

Class RecoveryJson : Type := {
  (** [serde_json::from_slice] of a [ClaimRequest] and an [ActivateRequest] *)
  claim_from_slice : blob -> option rstring;
  activate_from_slice : blob -> option ActivateRequest }.

(** * Responses *)

Record VerificationResponse : Type := {
  vr_archive_id : Uuid;
  vr_format_version : Z;
  vr_logical_vault_id : Uuid;
  vr_source_recovery_epoch : Z;
  vr_created_at_unix_ms : Z;
  vr_record_count : Z;
  vr_logical_bytes : Z;
  vr_expires_at_unix_ms : Z }.

Record ActivationResponse : Type := {
  ac_archive_id : Uuid;
  ac_vault_id : blob;
  ac_installation_id : blob;
  ac_recovery_epoch : Z;
  ac_imported_records : Z;
  ac_imported_audit_events : Z;
  ac_revoked_application_credentials : Z;
  ac_disabled_source_bound_authenticators : Z;
  ac_status : string }.

(** [INDEX], [STYLES] and [SCRIPT] are named by their files. *)
Inductive LocalBody : Type :=
| EmptyBody
| StaticBody (file : string)
| LocalProblem (message : string)
| ClaimResponse (claimed : bool)
| VerificationBody (v : VerificationResponse)
| ActivationBody (a : ActivationResponse).

Record LocalResponse : Type := {
  lr_status : Z;
  lr_headers : HeaderMap;
  lr_body : LocalBody }.

Inductive RecoveryError : Type := RecoveryFailure (status : Z) (message : string).

(** [Json(..).into_response()] *)
Definition local_json (status : Z) (body : LocalBody) : LocalResponse :=
  {| lr_status := status; lr_headers := [("content-type"%string, bstr "application/json")]; lr_body := body |}.
Definition problem_response (e : RecoveryError) : LocalResponse :=
  match e with RecoveryFailure status message => local_json status (LocalProblem message) end.

(** [static_asset] over the content type a [&str] has *)
Definition static_asset (file content_type : string) : LocalResponse :=
  {| lr_status := 200;
     lr_headers := header_insert "content-type" (bstr content_type)
                     [("content-type"%string, bstr "text/plain; charset=utf-8")];
     lr_body := StaticBody file |}.
Definition recovery_index : LocalResponse :=
  {| lr_status := 200; lr_headers := [("content-type"%string, bstr "text/html; charset=utf-8")];
     lr_body := StaticBody "index.html" |}.
Definition recovery_styles : LocalResponse := static_asset "styles.css" "text/css; charset=utf-8".
Definition recovery_script : LocalResponse := static_asset "app.js" "text/javascript; charset=utf-8".

(** [security_headers] *)
Definition RECOVERY_CSP : blob := bstr
  "default-src 'none'; script-src 'self'; style-src 'self'; connect-src 'self'; frame-ancestors 'none'; base-uri 'none'; form-action 'self'".
Definition security_headers (r : LocalResponse) : LocalResponse :=
  {| lr_status := lr_status r;
     lr_headers :=
       header_insert "cross-origin-resource-policy" (bstr "same-origin")
       (header_insert "cross-origin-opener-policy" (bstr "same-origin")
       (header_insert "permissions-policy" (bstr "camera=(), microphone=(), geolocation=(), payment=(), usb=()")
       (header_insert "x-frame-options" (bstr "DENY")
       (header_insert "x-content-type-options" (bstr "nosniff")
       (header_insert "referrer-policy" (bstr "no-referrer")
       (header_insert "cache-control" (bstr "no-store")
       (header_insert "content-security-policy" RECOVERY_CSP (lr_headers r))))))));
     lr_body := lr_body r |}.

(** * The state *)

Record PendingRestore : Type := {
  pn_archive_path : blob;
  pn_key : ArchiveKey;
  pn_verified : VerifiedArchive }.

(** What was done, which the program does not keep: a claim with its code and
    the session it was given, and an attempt to restore. *)
Record Claim : Type := {
  cl_code : blob;
  cl_session : blob }.
Record Restoration : Type := {
  rn_headers : HeaderMap;
  rn_confirmed : Uuid;
  rn_pending : PendingRestore;
  rn_mode : CredentialRestoreMode;
  rn_now : Z;
  rn_source : SourceFile;
  rn_result : result BackupError RestoreReport }.

(** [RecoveryState], with the workspace and the destination its paths name *)
Record RecoveryState : Type := {
  rc_claim_digest : array 32;
  rc_session_digest : option (array 32);
  rc_origin : blob;
  rc_expires_at_unix_ms : Z;
  rc_claimed : bool;
  rc_reserved : bool;
  rc_consumed : bool;
  rc_pending : option PendingRestore;
  rc_shutdown : bool;
  rc_workspace : Registry;
  rc_host : Host;
  rc_claims : list Claim;
  rc_restorations : list Restoration }.

Definition set_rc_session (session : option (array 32)) (claims : list Claim) (s : RecoveryState) : RecoveryState :=
  {| rc_claim_digest := rc_claim_digest s; rc_session_digest := session; rc_origin := rc_origin s;
     rc_expires_at_unix_ms := rc_expires_at_unix_ms s; rc_claimed := rc_claimed s; rc_reserved := rc_reserved s;
     rc_consumed := rc_consumed s; rc_pending := rc_pending s; rc_shutdown := rc_shutdown s;
     rc_workspace := rc_workspace s; rc_host := rc_host s; rc_claims := claims;
     rc_restorations := rc_restorations s |}.
Definition set_rc_flags (claimed reserved consumed : bool) (s : RecoveryState) : RecoveryState :=
  {| rc_claim_digest := rc_claim_digest s; rc_session_digest := rc_session_digest s; rc_origin := rc_origin s;
     rc_expires_at_unix_ms := rc_expires_at_unix_ms s; rc_claimed := claimed; rc_reserved := reserved;
     rc_consumed := consumed; rc_pending := rc_pending s; rc_shutdown := rc_shutdown s;
     rc_workspace := rc_workspace s; rc_host := rc_host s; rc_claims := rc_claims s;
     rc_restorations := rc_restorations s |}.
Definition set_rc_pending (pending : option PendingRestore) (s : RecoveryState) : RecoveryState :=
  {| rc_claim_digest := rc_claim_digest s; rc_session_digest := rc_session_digest s; rc_origin := rc_origin s;
     rc_expires_at_unix_ms := rc_expires_at_unix_ms s; rc_claimed := rc_claimed s; rc_reserved := rc_reserved s;
     rc_consumed := rc_consumed s; rc_pending := pending; rc_shutdown := rc_shutdown s;
     rc_workspace := rc_workspace s; rc_host := rc_host s; rc_claims := rc_claims s;
     rc_restorations := rc_restorations s |}.
Definition set_rc_shutdown (s : RecoveryState) : RecoveryState :=
  {| rc_claim_digest := rc_claim_digest s; rc_session_digest := rc_session_digest s; rc_origin := rc_origin s;
     rc_expires_at_unix_ms := rc_expires_at_unix_ms s; rc_claimed := rc_claimed s; rc_reserved := rc_reserved s;
     rc_consumed := rc_consumed s; rc_pending := rc_pending s; rc_shutdown := true;
     rc_workspace := rc_workspace s; rc_host := rc_host s; rc_claims := rc_claims s;
     rc_restorations := rc_restorations s |}.
Definition set_rc_workspace (workspace : Registry) (s : RecoveryState) : RecoveryState :=
  {| rc_claim_digest := rc_claim_digest s; rc_session_digest := rc_session_digest s; rc_origin := rc_origin s;
     rc_expires_at_unix_ms := rc_expires_at_unix_ms s; rc_claimed := rc_claimed s; rc_reserved := rc_reserved s;
     rc_consumed := rc_consumed s; rc_pending := rc_pending s; rc_shutdown := rc_shutdown s;
     rc_workspace := workspace; rc_host := rc_host s; rc_claims := rc_claims s;
     rc_restorations := rc_restorations s |}.
Definition set_rc_host (host : Host) (restorations : list Restoration) (s : RecoveryState) : RecoveryState :=
  {| rc_claim_digest := rc_claim_digest s; rc_session_digest := rc_session_digest s; rc_origin := rc_origin s;
     rc_expires_at_unix_ms := rc_expires_at_unix_ms s; rc_claimed := rc_claimed s; rc_reserved := rc_reserved s;
     rc_consumed := rc_consumed s; rc_pending := rc_pending s; rc_shutdown := rc_shutdown s;
     rc_workspace := rc_workspace s; rc_host := host; rc_claims := rc_claims s;
     rc_restorations := restorations |}.

Abbreviation Recovering A := (Prog RecoveryState RecoveryError A).

(** An operation on the workspace *)
Definition in_workspace {E F A} (f : E -> F) (m : Prog Registry E A) : Prog RecoveryState F A := fun s =>
  let (r, g) := m (rc_workspace s) in (map_err f r, set_rc_workspace g s).

(** What a request finds: how reads of the archive are cut, what surrounds a
    restore, and whether a closure is started. *)
Record StepEnv : Type := {
  se_started : bool;
  se_script : nat -> list read_event;
  se_restore : RestoreEnv }.

(** ** Tasks *)

(** The handlers behind [authorize] *)
Inductive Privileged : Type :=
| VerifyArchive (upload : option (list (option Field)))
| ActivateRestore (body : list (option blob)).

Inductive Task : Type :=
| ClaimBody (body : list (option blob))
| ClaimSession (code : blob)
| Authorizing (headers : HeaderMap) (handler : Privileged)
| Reserving (upload : option (list (option Field)))
| Receiving (path : blob) (upload : option (list (option Field)))
| Verifying (path : blob) (mode key : rstring)
| Discarding (path : blob) (error : RecoveryError)
| Confirming (headers : HeaderMap) (body : list (option blob))
| Restoring (headers : HeaderMap) (confirmed : Uuid) (pending : PendingRestore) (mode : CredentialRestoreMode)
    (attended : bool).

Inductive Progress : Type :=
| Next (t : Task)
| Answer (r : LocalResponse)
| Ends.

Section Handlers.
Context {CR : Crypto} {PH : PasswordHashing} {LJ : LogicalJson} {AF : ArchiveFormats} {HT : HttpText}
  {JJ : JobJson} {RJ : RecoveryJson} (process : Process).

(** [now_unix_ms()], which does not fail *)
Definition recovery_now : Recovering Z :=
  in_workspace (fun _ => RecoveryFailure 503 "Recovery state is unavailable.") clock_now.

(** [generate_token] *)
Definition generate_token : Prog Registry CryptoError blob := fun g =>
  let (r, n) := fill 32 (rg_draws g) in
  (let? bytes := r in Ok (hex_encode (arr bytes)), set_rg_draws n g).

(** [digest] *)
Definition digest (value : blob) : array 32 := sha256 value.

(** [axum::body::to_bytes] *)
Fixpoint to_bytes (limit : Z) (got : blob) (body : list (option blob)) : option blob :=
  match body with
  | [] => Some got
  | None :: _ => None
  | Some chunk :: body => if limit <? zlen got + zlen chunk then None else to_bytes limit (got ++ chunk) body
  end.

(** [validate_origin] *)
Definition validate_origin (headers : HeaderMap) : Recovering unit :=
  fun s => prog_reject (negb (bool_decide (header_text headers "origin" = Some (rc_origin s))))
             (RecoveryFailure 403 "Recovery request rejected.") s.

Definition channel_gone : RecoveryError := RecoveryFailure 410 "The recovery channel is no longer available.".
Definition state_unavailable : RecoveryError := RecoveryFailure 503 "Recovery state is unavailable.".

(** ** claim_channel *)

Definition enter_claim (headers : HeaderMap) (body : list (option blob)) : Recovering Progress :=
  do! now := recovery_now in
  do! _ := (fun s => prog_reject ((rc_expires_at_unix_ms s <=? now) || rc_claimed s) channel_gone s) in
  do! _ := validate_origin headers in
  prog_ret (Next (ClaimBody body)).

Definition claim_invalid (status : Z) : RecoveryError := RecoveryFailure status "Recovery authorization is invalid.".
(** The body, the comparison of digests and the exchange of [claimed] *)
Definition exchange_claim (body : list (option blob)) : Recovering Progress :=
  do! bytes := prog_lift (ok_or (claim_invalid 400) (to_bytes (4 * 1024) [] body)) in
  do! claim := prog_lift (ok_or (claim_invalid 400) (claim_from_slice bytes)) in
  let code := trim_text (rs_bytes claim) in
  fun s =>
    if negb (bool_decide (digest code = rc_claim_digest s)) || rc_claimed s then (Err (claim_invalid 401), s)
    else (Ok (Next (ClaimSession code)), set_rc_flags true (rc_reserved s) (rc_consumed s) s).

Definition session_cookie (session : blob) : blob :=
  bstr "smcv_recovery_session=" ++ session ++ bstr "; Path=/; HttpOnly; SameSite=Strict".
Definition authorization_unavailable : RecoveryError :=
  RecoveryFailure 503 "Recovery authorization is unavailable.".
Definition store_session (code : blob) : Recovering Progress :=
  do! session := in_workspace (fun _ => authorization_unavailable) generate_token in
  do! _ := (fun s => (Ok tt, set_rc_session (Some (digest session))
                               (rc_claims s ++ [{| cl_code := code; cl_session := session |}]) s)) in
  do! value := prog_lift (ok_or authorization_unavailable (to_str (session_cookie session))) in
  prog_ret (Answer {| lr_status := 200;
                      lr_headers := header_insert "set-cookie" value
                        [("content-type"%string, bstr "application/json")];
                      lr_body := ClaimResponse true |}).

(** ** authorize *)

Definition enter_privileged (headers : HeaderMap) (handler : Privileged) : Recovering Progress :=
  do! now := recovery_now in
  do! _ := (fun s => prog_reject ((rc_expires_at_unix_ms s <=? now) || rc_consumed s) channel_gone s) in
  do! _ := validate_origin headers in
  prog_ret (Next (Authorizing headers handler)).

Definition recovery_cookie (field : blob) : option blob :=
  '(name, value) ← split_once x3d (trim field);
  if blob_eqb name (bstr "smcv_recovery_session") then Some value else None.
Definition supplied_session (headers : HeaderMap) : option blob :=
  cookies ← header_text headers "cookie"; find_map recovery_cookie (split x3b cookies).

Definition authorization_missing : RecoveryError := RecoveryFailure 401 "Recovery authorization is missing.".
Definition check_session (headers : HeaderMap) (handler : Privileged) : Recovering Progress :=
  do! supplied := prog_lift (ok_or authorization_missing (supplied_session headers)) in
  do! expected := prog_read (fun s => ok_or authorization_missing (rc_session_digest s)) in
  do! _ := prog_reject (negb (bool_decide (digest supplied = expected))) (claim_invalid 401) in
  prog_ret (Next match handler with
                 | VerifyArchive upload => Reserving upload
                 | ActivateRestore body => Confirming headers body
                 end).

(** ** receive_upload *)

Definition upload_invalid : RecoveryError := RecoveryFailure 400 "The recovery upload is invalid.".
Definition storage_unavailable : RecoveryError :=
  RecoveryFailure 503 "Temporary recovery storage is unavailable.".
Definition field_repeated : RecoveryError := RecoveryFailure 400 "A recovery field was repeated.".

Fixpoint field_chunks (value : blob) (chunks : list (option blob)) : result RecoveryError blob :=
  match chunks with
  | [] => Ok value
  | None :: _ => Err upload_invalid
  | Some chunk :: chunks =>
      if MAX_KEY_BYTES <? Z.min u64_max (zlen value + zlen chunk)
      then Err (RecoveryFailure 400 "A recovery field is too large.")
      else field_chunks (value ++ chunk) chunks
  end.

Fixpoint staged_chunks (name : blob) (total : Z) (chunks : list (option blob)) : Prog Registry RecoveryError Z :=
  match chunks with
  | [] => prog_ret total
  | None :: _ => prog_fail upload_invalid
  | Some chunk :: chunks =>
      do! total := prog_lift (ok_or (RecoveryFailure 400 "The archive is too large.")
                                    (checked_add u64_max total (zlen chunk))) in
      do! _ := prog_reject (MAX_STAGED_BYTES <? total) (RecoveryFailure 413 "The archive is too large.") in
      do! _ := prog_map_err (fun _ => storage_unavailable) (write_all name chunk) in
      staged_chunks name total chunks
  end.

Record Staged : Type := {
  sg_key_mode : option rstring;
  sg_key : option rstring;
  sg_archive_seen : bool }.

(** One turn of the loop *)
Definition stage_field (name : blob) (got : Staged) (f : Field) : Prog Registry RecoveryError Staged :=
  let field := default [] (fd_name f) in
  if blob_eqb field (bstr "key_mode") || blob_eqb field (bstr "key") then
    do! value := prog_lift (field_chunks [] (fd_chunks f)) in
    do! text := prog_lift (ok_or (RecoveryFailure 400 "A recovery field is invalid.") (string_from_utf8 value)) in
    if blob_eqb field (bstr "key_mode") then
      do! _ := prog_reject (bool_decide (is_Some (sg_key_mode got))) field_repeated in
      prog_ret {| sg_key_mode := Some text; sg_key := sg_key got; sg_archive_seen := sg_archive_seen got |}
    else
      do! _ := prog_reject (bool_decide (is_Some (sg_key got))) field_repeated in
      prog_ret {| sg_key_mode := sg_key_mode got; sg_key := Some text; sg_archive_seen := sg_archive_seen got |}
  else if blob_eqb field (bstr "archive") && negb (sg_archive_seen got) then
    do! _ := prog_map_err (fun _ => storage_unavailable) (create_new process name) in
    do! total := staged_chunks name 0 (fd_chunks f) in
    do! _ := prog_map_err (fun _ => storage_unavailable) fs_silent (* sync_all *) in
    do! _ := prog_reject (total =? 0) (RecoveryFailure 400 "The archive is empty.") in
    prog_ret {| sg_key_mode := sg_key_mode got; sg_key := sg_key got; sg_archive_seen := true |}
  else prog_fail (RecoveryFailure 400 "The recovery upload contains an unsupported field.").

Fixpoint stage_fields (name : blob) (got : Staged) (fields : list (option Field))
  : Prog Registry RecoveryError Staged :=
  match fields with
  | [] => prog_ret got
  | None :: _ => prog_fail upload_invalid
  | Some f :: fields => do! got := stage_field name got f in stage_fields name got fields
  end.

Definition nothing_staged : Staged := {| sg_key_mode := None; sg_key := None; sg_archive_seen := false |}.
Definition receive_upload (name : blob) (fields : list (option Field)) : Prog Registry RecoveryError (rstring * rstring) :=
  do! got := stage_fields name nothing_staged fields in
  match sg_key_mode got, sg_key got, sg_archive_seen got with
  | Some mode, Some key, true => prog_ret (mode, key)
  | _, _, _ => prog_fail (RecoveryFailure 400 "The recovery upload is incomplete.")
  end.

(** ** verify_archive *)

Definition staged_path (id : Uuid) : blob := uuid_text id ++ bstr ".smcvault".

(** The exchange of [reserved], and the name of the archive *)
Definition reserve (upload : option (list (option Field))) : Recovering Progress :=
  do! _ := (fun s =>
    if rc_reserved s then (Err (RecoveryFailure 409 "A recovery archive is already staged."), s)
    else (Ok tt, set_rc_flags (rc_claimed s) true (rc_consumed s) s)) in
  do! id := in_workspace (fun _ => state_unavailable) draw_uuid in
  prog_ret (Next (Receiving (staged_path id) upload)).

(** [state.reserved.store(false, ..)], before the file is removed *)
Definition release (path : blob) (e : RecoveryError) : Recovering Progress := fun s =>
  (Ok (Next (Discarding path e)), set_rc_flags (rc_claimed s) false (rc_consumed s) s).

(** A request that is no multipart body is refused as it is. *)
Definition receive (path : blob) (upload : option (list (option Field))) : Recovering Progress :=
  do! fields := prog_lift (ok_or upload_invalid upload) in
  do! received := prog_try (in_workspace (fun e => e) (receive_upload path fields)) in
  match received with
  | Ok (mode, key) => prog_ret (Next (Verifying path mode key))
  | Err error => release path error
  end.

(** [prepare_key_and_verify] *)
Definition prepare_key_and_verify (env : StepEnv) (path : blob) (mode key : rstring)
  : Prog Registry unit (VerifiedArchive * ArchiveKey) :=
  do! header := prog_read (fun g => anyway (inspect_backup_file (stored_source (se_script env 0) path g))) in
  do! key := prog_lift (supplied_archive_key (ph_key_mode header) mode key) in
  do! verified := prog_read (fun g => anyway (verify_backup_file (stored_source (se_script env 1) path g) key)) in
  prog_ret (verified, key).

Definition verification_response (verified : VerifiedArchive) (expires_at : Z) : VerificationResponse :=
  {| vr_archive_id := ph_archive_id (va_header verified); vr_format_version := FORMAT_VERSION;
     vr_logical_vault_id := am_logical_vault_id (va_metadata verified);
     vr_source_recovery_epoch := am_source_recovery_epoch (va_metadata verified);
     vr_created_at_unix_ms := am_created_at_unix_ms (va_metadata verified);
     vr_record_count := va_record_count verified; vr_logical_bytes := va_logical_bytes verified;
     vr_expires_at_unix_ms := expires_at |}.

(** The closure, and the staging of what it verified *)
Definition verify_staged (env : StepEnv) (path : blob) (mode key : rstring) : Recovering Progress :=
  if negb (se_started env) then release path (RecoveryFailure 503 "Recovery verification is unavailable.")
  else
    do! verified := prog_try (in_workspace (fun e => e) (prepare_key_and_verify env path mode key)) in
    match verified with
    | Err _ => release path (RecoveryFailure 400 "The archive or separate key could not be verified.")
    | Ok (verified, key) => fun s =>
        (Ok (Answer (local_json 200 (VerificationBody (verification_response verified (rc_expires_at_unix_ms s))))),
         set_rc_pending (Some {| pn_archive_path := path; pn_key := key; pn_verified := verified |}) s)
    end.

(** [let _cleanup = fs::remove_file(..)] *)
Definition discard (path : blob) : Recovering unit :=
  do! _ := prog_try (in_workspace (fun e => e) (remove_file path)) in prog_ret tt.
Definition refuse_upload (path : blob) (e : RecoveryError) : Recovering Progress :=
  do! _ := discard path in prog_fail e.

(** ** activate_restore *)

Definition confirmation_invalid : RecoveryError := RecoveryFailure 400 "Activation confirmation is invalid.".
Definition credential_mode (text : blob) : result RecoveryError CredentialRestoreMode :=
  if blob_eqb text (bstr "preserve") then Ok Preserve
  else if blob_eqb text (bstr "revoke") then Ok Revoke
  else Err (RecoveryFailure 400 "Select an application credential recovery mode.").

(** The section under the lock of [pending] *)
Definition take_pending (archive_id : Uuid) : Recovering PendingRestore := fun s =>
  match rc_pending s with
  | None => (Err (RecoveryFailure 409 "No verified archive is staged."), s)
  | Some pending =>
      if negb (bool_decide (ph_archive_id (va_header (pn_verified pending)) = archive_id))
      then (Err (RecoveryFailure 409 "The staged archive confirmation does not match."), s)
      else
        let consumed := rc_consumed s in
        let s := set_rc_flags (rc_claimed s) (rc_reserved s) true s in
        if consumed then (Err channel_gone, s) else (Ok pending, set_rc_pending None s)
  end.

Definition confirm (headers : HeaderMap) (body : list (option blob)) : Recovering Progress :=
  do! bytes := prog_lift (ok_or confirmation_invalid (to_bytes (64 * 1024) [] body)) in
  do! input := prog_lift (ok_or confirmation_invalid (activate_from_slice bytes)) in
  do! mode := prog_lift (credential_mode (rs_bytes (ar_credential_mode input))) in
  do! pending := take_pending (ar_archive_id input) in
  prog_ret (Next (Restoring headers (ar_archive_id input) pending mode true)).

(** The closure of the activation *)
Definition restore_staged (env : StepEnv) (headers : HeaderMap) (confirmed : Uuid) (pending : PendingRestore)
    (mode : CredentialRestoreMode) : Recovering (result BackupError RestoreReport) :=
  do! now := recovery_now in
  do! report := (fun s =>
    let g := rc_workspace s in
    let source := stored_source (se_script env 2) (pn_archive_path pending) g in
    let h := rc_host s in
    let (r, h') := restore_backup_file (se_restore env) source (pn_key pending) mode now
      {| h_database := h_database h; h_root_file := h_root_file h; h_database_at := h_database_at h;
         h_root_at := h_root_at h; h_draws := rg_draws g |} in
    (Ok r, set_rc_host h' (rc_restorations s ++
             [{| rn_headers := headers; rn_confirmed := confirmed; rn_pending := pending; rn_mode := mode;
                 rn_now := now; rn_source := source; rn_result := r |}])
             (set_rc_workspace (set_rg_draws (h_draws h') g) s))) in
  do! _ := discard (pn_archive_path pending) in
  prog_ret report.

Definition activation_response (report : RestoreReport) : LocalResponse :=
  {| lr_status := 200;
     lr_headers := header_insert "set-cookie"
       (bstr "smcv_recovery_session=; Path=/; HttpOnly; SameSite=Strict; Max-Age=0")
       [("content-type"%string, bstr "application/json")];
     lr_body := ActivationBody
       {| ac_archive_id := rr_archive_id report; ac_vault_id := uuid_text (rr_vault_id report);
          ac_installation_id := uuid_text (rr_installation_id report);
          ac_recovery_epoch := rr_recovery_epoch report; ac_imported_records := rr_imported_records report;
          ac_imported_audit_events := rr_imported_audit_events report;
          ac_revoked_application_credentials := rr_revoked_application_credentials report;
          ac_disabled_source_bound_authenticators := rr_disabled_source_bound_authenticators report;
          ac_status := "ready" |} |}.

(** [tokio::spawn] of the task that ends the server *)
Definition notify_shutdown : Recovering unit := fun s => (Ok tt, set_rc_shutdown s).
(** A closure that was not started restores nothing; a handler that was dropped
    does not see what its closure did. *)
Definition activate (env : StepEnv) (headers : HeaderMap) (confirmed : Uuid) (pending : PendingRestore)
    (mode : CredentialRestoreMode) (attended : bool) : Recovering Progress :=
  do! report := (if se_started env
                 then do! r := restore_staged env headers confirmed pending mode in prog_ret (Some r)
                 else prog_ret None) in
  if negb attended then prog_ret Ends
  else
    do! _ := notify_shutdown in
    do! report := prog_lift (ok_or (RecoveryFailure 503 "Recovery activation is unavailable.") report) in
    do! report := prog_lift (map_err (fun _ =>
      RecoveryFailure 400 "Recovery activation failed without making a ready partial vault.") report) in
    do! _ := discard (pn_archive_path pending) in
    prog_ret (Answer (activation_response report)).

(** * The channel *)

Definition step_task (env : StepEnv) (t : Task) : Recovering Progress :=
  match t with
  | ClaimBody body => exchange_claim body
  | ClaimSession code => store_session code
  | Authorizing headers handler => check_session headers handler
  | Reserving upload => reserve upload
  | Receiving path upload => receive path upload
  | Verifying path mode key => verify_staged env path mode key
  | Discarding path error => refuse_upload path error
  | Confirming headers body => confirm headers body
  | Restoring headers confirmed pending mode attended => activate env headers confirmed pending mode attended
  end.

(** A handler is dropped where it waits.  An upload has been received in part
    then; a closure that restores goes on. *)
Definition drop_task (received : list (option Field)) (t : Task) (s : RecoveryState) : option (option Task * RecoveryState) :=
  match t with
  | ClaimBody _ | Verifying _ _ _ | Confirming _ _ => Some (None, s)
  | Receiving path _ => Some (None, snd (in_workspace (fun e => e) (receive_upload path received) s))
  | Restoring headers confirmed pending mode _ => Some (Some (Restoring headers confirmed pending mode false), s)
  | ClaimSession _ | Authorizing _ _ | Reserving _ | Discarding _ _ => None
  end.

(** The routes of [recovery_router] *)
Inductive LocalRoute : Type :=
| GetIndexPage | GetStyleSheet | GetScript
| PostClaim (body : list (option blob))
| PostVerify (upload : option (list (option Field)))
| PostActivate (body : list (option blob))
| NoLocalRoute.

Definition enter (route : LocalRoute) (headers : HeaderMap) : Recovering Progress :=
  match route with
  | GetIndexPage => prog_ret (Answer recovery_index)
  | GetStyleSheet => prog_ret (Answer recovery_styles)
  | GetScript => prog_ret (Answer recovery_script)
  | PostClaim body => enter_claim headers body
  | PostVerify upload => enter_privileged headers (VerifyArchive upload)
  | PostActivate body => enter_privileged headers (ActivateRestore body)
  | NoLocalRoute => prog_ret (Answer {| lr_status := 404; lr_headers := []; lr_body := EmptyBody |})
  end.

Record Channel : Type := {
  ch_state : RecoveryState;
  ch_tasks : gmap nat Task;
  ch_answers : list (nat * LocalResponse);
  ch_listening : bool }.

Definition settle (i : nat) (m : Recovering Progress) (c : Channel) : Channel :=
  let (r, s) := m (ch_state c) in
  match r with
  | Ok (Next t) => {| ch_state := s; ch_tasks := <[i := t]> (ch_tasks c); ch_answers := ch_answers c;
                      ch_listening := ch_listening c |}
  | Ok (Answer a) => {| ch_state := s; ch_tasks := delete i (ch_tasks c);
                        ch_answers := ch_answers c ++ [(i, security_headers a)]; ch_listening := ch_listening c |}
  | Ok Ends => {| ch_state := s; ch_tasks := delete i (ch_tasks c); ch_answers := ch_answers c;
                  ch_listening := ch_listening c |}
  | Err e => {| ch_state := s; ch_tasks := delete i (ch_tasks c);
                ch_answers := ch_answers c ++ [(i, security_headers (problem_response e))];
                ch_listening := ch_listening c |}
  end.

(** The server stops listening after an activation, after [CHANNEL_TTL], or when
    it is interrupted, and removes the workspace once its requests are done. *)
Inductive Event : Type :=
| Arrives (i : nat) (route : LocalRoute) (headers : HeaderMap)
| Runs (i : nat) (env : StepEnv)
| Dropped (i : nat) (received : list (option Field))
| Closes
| Cleans.

Definition attended (t : Task) : bool := match t with Restoring _ _ _ _ a => a | _ => true end.
Definition remove_workspace (g : Registry) : Registry :=
  snd (fs (fun g => (Ok tt, set_rg_directory None (set_rg_files ∅ g))) g).

Definition happen (e : Event) (c : Channel) : Channel :=
  match e with
  | Arrives i route headers =>
      if negb (ch_listening c) || bool_decide (is_Some (ch_tasks c !! i)) then c
      else settle i (enter route headers) c
  | Runs i env =>
      match ch_tasks c !! i with Some t => settle i (step_task env t) c | None => c end
  | Dropped i received =>
      match ch_tasks c !! i ≫= fun t => drop_task received t (ch_state c) with
      | Some (t, s) => {| ch_state := s; ch_tasks := partial_alter (fun _ => t) i (ch_tasks c);
                          ch_answers := ch_answers c; ch_listening := ch_listening c |}
      | None => c
      end
  | Closes => {| ch_state := ch_state c; ch_tasks := ch_tasks c; ch_answers := ch_answers c; ch_listening := false |}
  | Cleans =>
      if ch_listening c || bool_decide (map_Exists (fun _ t => attended t = true) (ch_tasks c)) then c
      else {| ch_state := set_rc_workspace (remove_workspace (rc_workspace (ch_state c))) (ch_state c);
              ch_tasks := ch_tasks c; ch_answers := ch_answers c; ch_listening := false |}
  end.
Definition happens (l : list Event) (c : Channel) : Channel := foldl (fun c e => happen e c) c l.

(** [run], until it listens *)
Definition create_workspace : Jobs unit := fs (fun g =>
  (Ok tt, set_rg_files ∅ (set_rg_directory (Some {| nd_kind := DirectoryNode; nd_mode := DIRECTORY_BITS;
                                                    nd_uid := pr_uid process; nd_bytes := [] |}) g))).
Definition whatever {E A} (m : Prog Registry E A) : Prog Registry unit A := prog_map_err (fun _ => tt) m.
Definition open_channel (host : Host) (port : option Z) : Prog Registry unit (blob * RecoveryState) :=
  do! _ := prog_reject (match h_database host with Some _ => true | None => false end
                        || bool_decide (is_Some (h_root_file host))
                        || String.eqb (loc_path (h_database_at host)) (loc_path (h_root_at host))) tt in
  do! _ := prog_lift (ok_or tt (loc_parent (h_database_at host))) in
  do! _ := whatever fs_silent (* the parent directory *) in
  do! _ := whatever draw_uuid in
  do! _ := whatever create_workspace in
  do! port := prog_lift (ok_or tt port) in
  do! token := whatever generate_token in
  do! now := whatever clock_now in
  fun g => (Ok (token, {| rc_claim_digest := digest token; rc_session_digest := None;
                          rc_origin := bstr "http://127.0.0.1:" ++ dec port;
                          rc_expires_at_unix_ms := i64_saturating_add now CHANNEL_TTL;
                          rc_claimed := false; rc_reserved := false; rc_consumed := false; rc_pending := None;
                          rc_shutdown := false; rc_workspace := g; rc_host := host; rc_claims := [];
                          rc_restorations := [] |}), g).
Definition opened_channel (s : RecoveryState) : Channel :=
  {| ch_state := s; ch_tasks := ∅; ch_answers := []; ch_listening := true |}.
End Handlers.
