(* ===== verification/RecoveryProps.v ===== *)
(** What the recovery channel can do: its handlers, however they interleave,
    refine a few moves of who claimed the channel, who holds the reservation and
    what is staged; at most one archive is restored, and only as verified. *)
From Stdlib Require Import ZArith Lia Strings.Byte String.
From stdpp Require Import base tactics numbers option strings list gmap.
From S2P Require Import Prelude RustStd Core Crypto Format Initialization Authentication Archive ArchiveRuns Portable Logical Backup RestoreProps Passkeys Http BackupJobs Server BackupApi Recovery.

(** * Files of the workspace *)

Definition untouched {E A} (name : blob) (m : Prog Registry E A) : Prop :=
  forall g, rg_files (snd (m g)) !! name = rg_files g !! name.
Definition shrinks {E A} (m : Prog Registry E A) : Prop := forall g, rg_files (snd (m g)) ⊆ rg_files g.

Lemma untouched_bind {E A B} name (m : Prog Registry E A) (k : A -> Prog Registry E B) :
  untouched name m -> (forall a, untouched name (k a)) -> untouched name (prog_bind m k).
Proof.
  intros Hm Hk g. specialize (Hm g). unfold prog_bind. destruct (m g) as [[a|e] g1]; [|done].
  rewrite (Hk a g1). done.
Qed.
Lemma untouched_fs_op {A} name partial (m : Jobs A) :
  (forall n g, rg_files (partial n g) !! name = rg_files g !! name) -> untouched name m -> untouched name (fs_op partial m).
Proof.
  intros Hp Hm g. unfold fs_op. destruct (rg_running g); [|done]. cbn [negb].
  destruct (rg_outcomes g) as [|[|n|n] l]; [apply Hm|apply (Hm (set_rg_outcomes l g))|..]; apply (Hp n (set_rg_outcomes l g)).
Qed.
Lemma untouched_map_err {E F A} name (f : E -> F) (m : Prog Registry E A) : untouched name m -> untouched name (prog_map_err f m).
Proof. intros H g. specialize (H g). unfold prog_map_err. by destruct (m g). Qed.
Lemma untouched_pure {E A} name (m : Prog Registry E A) : (forall g, snd (m g) = g) -> untouched name m.
Proof. intros H g. by rewrite H. Qed.
Lemma untouched_reject {E} name bad (e : E) : untouched name (prog_reject bad e).
Proof. by apply untouched_pure. Qed.
Lemma untouched_lift {E A} name (r : result E A) : untouched name (prog_lift r).
Proof. by apply untouched_pure. Qed.
Lemma untouched_ret {E A} name (a : A) : untouched (E:=E) name (prog_ret a).
Proof. by apply untouched_pure. Qed.
Lemma untouched_fail {E A} name (e : E) : untouched (A:=A) name (prog_fail e).
Proof. by apply untouched_pure. Qed.
Lemma untouched_silent name : untouched name fs_silent.
Proof. by apply untouched_fs_op. Qed.
Lemma untouched_write name path bytes : name <> path -> untouched name (write_all path bytes).
Proof. intros Hn. apply untouched_fs_op; [intros n g|intros g]; cbn; by rewrite lookup_alter_ne. Qed.
Create HintDb untouched.
#[export] Hint Resolve untouched_bind untouched_map_err untouched_reject untouched_lift untouched_ret untouched_fail untouched_silent
  untouched_write : untouched.

Lemma shrinks_remove path : shrinks (remove_file path).
Proof.
  intros g. unfold remove_file, fs, fs_op. destruct (rg_running g); [|done]. cbn [negb].
  destruct (rg_outcomes g) as [|[|n|n] l]; try reflexivity;
    cbn [rg_files set_rg_outcomes]; destruct (rg_files g !! path) as [x|]; try reflexivity;
    destruct (bool_decide _); try reflexivity; apply delete_subseteq.
Qed.

Section Props.
Context {CR : Crypto} {CL : CryptoLaws} {PH : PasswordHashing} {LJ : LogicalJson} {AF : ArchiveFormats} {HT : HttpText}
  {JJ : JobJson} {RJ : RecoveryJson} (process : Process).

Lemma untouched_create name path : name <> path -> untouched name (create_new process path).
Proof. intros Hn. apply untouched_fs_op; [done|]. intros g. case_match; [done|]. cbn. by rewrite lookup_insert_ne. Qed.
Lemma untouched_chunks name path total chunks : name <> path -> untouched name (staged_chunks path total chunks).
Proof.
  intros Hn. revert total. induction chunks as [|[chunk|] chunks IH]; intros total; cbn [staged_chunks];
    auto 6 with untouched.
Qed.
(** An upload writes the file it was given. *)
Lemma untouched_receive name path fields : name <> path -> untouched name (receive_upload process path fields).
Proof.
  intros Hn. unfold receive_upload. apply untouched_bind; [|intros got; repeat case_match; auto with untouched].
  generalize nothing_staged. induction fields as [|[f|] fields IH]; intros got; cbn [stage_fields]; auto with untouched.
  apply untouched_bind; [|done]. unfold stage_field.
  pose proof (untouched_create name path Hn). pose proof (untouched_chunks name path 0 (fd_chunks f) Hn).
  repeat (case_match; auto 8 with untouched).
Qed.

(** * Moves *)

(** A task that holds the reservation, with the file it writes *)
Definition writes (t : Task) : option blob :=
  match t with Receiving path _ | Verifying path _ _ => Some path | _ => None end.
Definition accepts (path : blob) (g : Registry) (key : ArchiveKey) (v : VerifiedArchive) : Prop :=
  exists script, verify_backup_file (stored_source script path g) key = Ok v.
Definition at_draw (n : nat) (h : Host) : Host :=
  {| h_database := h_database h; h_root_file := h_root_file h; h_database_at := h_database_at h;
     h_root_at := h_root_at h; h_draws := n |}.

(** The effect of one step of a task on what handlers share, and the task after
    it.  [writing] changes at most the file of a holder; [g] is the workspace. *)
Definition writing (t : Task) (g g' : Registry) : Prop :=
  match writes t with
  | Some path => forall name, name <> path -> rg_files g' !! name = rg_files g !! name
  | None => rg_files g' ⊆ rg_files g
  end.
Definition shutting (notified : bool) (s : RecoveryState) : RecoveryState :=
  if notified then set_rc_shutdown s else s.
Inductive moves (t : Task) (s : RecoveryState) : option Task -> RecoveryState -> Prop :=
| moves_claim body code :
    t = ClaimBody body -> digest code = rc_claim_digest s -> rc_claimed s = false ->
    moves t s (Some (ClaimSession code)) (set_rc_flags true (rc_reserved s) (rc_consumed s) s)
| moves_session code session g :
    t = ClaimSession code -> rg_files g = rg_files (rc_workspace s) ->
    moves t s None (set_rc_session (Some (digest session))
      (rc_claims s ++ [{| cl_code := code; cl_session := session |}]) (set_rc_workspace g s))
| moves_authorized headers handler supplied :
    t = Authorizing headers handler -> supplied_session headers = Some supplied ->
    rc_session_digest s = Some (digest supplied) ->
    moves t s (Some match handler with
                    | VerifyArchive upload => Reserving upload
                    | ActivateRestore body => Confirming headers body
                    end) s
| moves_reserve upload path g :
    t = Reserving upload -> rc_reserved s = false -> rg_files g = rg_files (rc_workspace s) ->
    moves t s (Some (Receiving path upload))
      (set_rc_workspace g (set_rc_flags (rc_claimed s) true (rc_consumed s) s))
| moves_received path fields mode key g :
    t = Receiving path (Some fields) -> writing t (rc_workspace s) g ->
    moves t s (Some (Verifying path mode key)) (set_rc_workspace g s)
| moves_release path e g :
    writes t = Some path -> writing t (rc_workspace s) g ->
    moves t s (Some (Discarding path e))
      (set_rc_flags (rc_claimed s) false (rc_consumed s) (set_rc_workspace g s))
| moves_stage path mode key archive_key v g :
    t = Verifying path mode key -> rg_files g = rg_files (rc_workspace s) -> accepts path g archive_key v ->
    moves t s None (set_rc_pending (Some {| pn_archive_path := path; pn_key := archive_key; pn_verified := v |})
      (set_rc_workspace g s))
| moves_confirm headers body pending mode :
    t = Confirming headers body -> rc_pending s = Some pending -> rc_consumed s = false ->
    moves t s (Some (Restoring headers (ph_archive_id (va_header (pn_verified pending))) pending mode true))
      (set_rc_pending None (set_rc_flags (rc_claimed s) (rc_reserved s) true s))
| moves_restore headers confirmed pending mode attended notified env script now draws r h g :
    let source := stored_source script (pn_archive_path pending) (rc_workspace s) in
    t = Restoring headers confirmed pending mode attended ->
    restore_backup_file env source (pn_key pending) mode now (at_draw draws (rc_host s)) = (r, h) ->
    rg_files g ⊆ rg_files (rc_workspace s) ->
    moves t s None (shutting notified (set_rc_host h (rc_restorations s ++
      [{| rn_headers := headers; rn_confirmed := confirmed; rn_pending := pending; rn_mode := mode; rn_now := now;
          rn_source := source; rn_result := r |}]) (set_rc_workspace g s)))
| moves_unattended headers confirmed pending mode attended :
    t = Restoring headers confirmed pending mode attended ->
    moves t s (Some (Restoring headers confirmed pending mode false)) s
| moves_end notified g :
    writing t (rc_workspace s) g ->
    moves t s None (shutting notified (set_rc_workspace g s)).

Lemma writing_same t g g' : rg_files g' = rg_files g -> writing t g g'.
Proof. intros H. unfold writing. destruct (writes t); [by intros; rewrite H|by rewrite H]. Qed.
Lemma moves_stop t s : moves t s None s.
Proof.
  replace s with (shutting false (set_rc_workspace (rc_workspace s) s)) at 2 by by destruct s.
  by apply moves_end, writing_same.
Qed.
Lemma in_workspace_run {E F A} (f : E -> F) (m : Prog Registry E A) s :
  in_workspace f m s = (map_err f (fst (m (rc_workspace s))), set_rc_workspace (snd (m (rc_workspace s))) s).
Proof. unfold in_workspace. by destruct (m (rc_workspace s)). Qed.
Lemma discard_run path s :
  exists g, discard path s = (Ok tt, set_rc_workspace g s) /\ rg_files g ⊆ rg_files (rc_workspace s).
Proof.
  exists (snd (remove_file path (rc_workspace s))). split; [|apply shrinks_remove].
  unfold discard, prog_bind, prog_try. by rewrite in_workspace_run.
Qed.

(** A step of a handler is a move. *)
Definition stepped (t : Task) (s : RecoveryState) (x : result RecoveryError Progress * RecoveryState) : Prop :=
  moves t s match x.1 with Ok (Next u) => Some u | _ => None end x.2.

Lemma exchange_moves body s : stepped (ClaimBody body) s (exchange_claim body s).
Proof.
  unfold exchange_claim, prog_bind, prog_lift. destruct (to_bytes _ _ _); [|apply moves_stop].
  cbn [ok_or]. destruct (claim_from_slice _) as [c|]; [|apply moves_stop]. cbn [ok_or].
  destruct (negb _ || rc_claimed s) eqn:E; [apply moves_stop|]. apply orb_false_iff in E as [E1 E2].
  apply negb_false_iff, bool_decide_eq_true in E1. by eapply moves_claim.
Qed.
Lemma session_moves code s : stepped (ClaimSession code) s (store_session code s).
Proof.
  unfold store_session, prog_bind at 1. rewrite in_workspace_run. unfold generate_token.
  destruct (fill 32 _) as [[bytes|e] n]; cbn [fst snd result_bind map_err].
  - unfold prog_bind, prog_lift. destruct (to_str _); cbn [ok_or];
      by apply (moves_session (ClaimSession code) s code _ (set_rg_draws n (rc_workspace s))).
  - apply (moves_end (ClaimSession code) s false (set_rg_draws n (rc_workspace s))). by apply writing_same.
Qed.
Lemma check_moves headers handler s : stepped (Authorizing headers handler) s (check_session headers handler s).
Proof.
  unfold check_session, prog_bind, prog_lift, prog_read, prog_reject.
  destruct (supplied_session headers) as [supplied|] eqn:E1; [|apply moves_stop]. cbn [ok_or].
  destruct (rc_session_digest s) as [expected|] eqn:E2; [|apply moves_stop]. cbn [ok_or].
  destruct (negb _) eqn:E3; [apply moves_stop|]. apply negb_false_iff, bool_decide_eq_true in E3. subst.
  by eapply moves_authorized.
Qed.
Lemma reserve_moves upload s : stepped (Reserving upload) s (reserve upload s).
Proof.
  unfold reserve, prog_bind. destruct (rc_reserved s) eqn:E; [apply moves_stop|]. rewrite in_workspace_run.
  cbn [fst snd draw_uuid map_err]. by apply moves_reserve.
Qed.
Lemma receive_moves path upload s : stepped (Receiving path upload) s (receive process path upload s).
Proof.
  unfold receive, prog_bind, prog_lift. destruct upload as [fields|]; [|apply moves_stop]. cbn [ok_or].
  unfold prog_try. rewrite in_workspace_run.
  assert (writing (Receiving path (Some fields)) (rc_workspace s) (snd (receive_upload process path fields (rc_workspace s)))).
  { intros name Hn. by apply untouched_receive. }
  destruct (fst _) as [[mode key]|e]; [by eapply moves_received|].
  by apply (moves_release (Receiving path (Some fields)) s path e _ eq_refl).
Qed.
Lemma prepare_Ok env path mode key g v k g' :
  prepare_key_and_verify env path mode key g = (Ok (v, k), g') -> g' = g /\ accepts path g k v.
Proof.
  intros H. unfold prepare_key_and_verify in H. minv. split; [done|]. exists (se_script env 1).
  unfold anyway in *. minv. done.
Qed.
Lemma verify_moves env path mode key s : stepped (Verifying path mode key) s (verify_staged env path mode key s).
Proof.
  assert (writing (Verifying path mode key) (rc_workspace s) (rc_workspace s)) as Hw by done.
  assert (forall e, stepped (Verifying path mode key) s (release path e s)) as Hr.
  { intros e. pose proof (moves_release (Verifying path mode key) s path e _ eq_refl Hw) as H. unfold stepped. cbn. by destruct s. }
  unfold verify_staged. destruct (se_started env); [|apply Hr]. cbn [negb].
  unfold prog_bind, prog_try. rewrite in_workspace_run.
  destruct (prepare_key_and_verify _ _ _ _ _) as [[[v k]|e] g] eqn:E; cbn [fst snd map_err].
  - apply prepare_Ok in E as [-> Ha]. by eapply moves_stage.
  - assert (g = rc_workspace s) as ->.
    { revert E. unfold prepare_key_and_verify, prog_bind, prog_read, prog_lift. repeat case_match; by intros [= _ <-]. }
    specialize (Hr (RecoveryFailure 400 "The archive or separate key could not be verified.")).
    unfold stepped in *. cbn in *. by destruct s.
Qed.
Lemma refuse_moves path e s : stepped (Discarding path e) s (refuse_upload path e s).
Proof.
  unfold refuse_upload, prog_bind at 1. destruct (discard_run path s) as (g & -> & Hg). by apply (moves_end _ _ false).
Qed.
Lemma confirm_moves headers body s : stepped (Confirming headers body) s (confirm headers body s).
Proof.
  unfold confirm, prog_bind, prog_lift. destruct (to_bytes _ _ _); [|apply moves_stop]. cbn [ok_or].
  destruct (activate_from_slice _) as [input|]; [|apply moves_stop]. cbn [ok_or].
  destruct (credential_mode _) as [mode|e]; [|apply moves_stop]. unfold take_pending.
  destruct (rc_pending s) as [pending|] eqn:Ep; [|apply moves_stop].
  destruct (negb _) eqn:E1; [apply moves_stop|]. apply negb_false_iff, bool_decide_eq_true in E1.
  destruct (rc_consumed s) eqn:E2.
  - replace (set_rc_flags (rc_claimed s) (rc_reserved s) true s) with s by (destruct s; cbn in *; by subst).
    apply moves_stop.
  - rewrite <- E1. by eapply moves_confirm.
Qed.
Lemma activate_moves env headers confirmed pending mode attended s :
  stepped (Restoring headers confirmed pending mode attended) s (activate env headers confirmed pending mode attended s).
Proof.
  unfold activate. unfold prog_bind at 1. destruct (se_started env).
  - unfold prog_bind at 1, restore_staged. unfold prog_bind at 1, recovery_now. rewrite in_workspace_run.
    cbn [fst snd clock_now map_err]. unfold prog_bind at 1. cbn [rc_workspace set_rc_workspace rc_host].
    destruct (restore_backup_file _ _ _ _ _ _) as [r h] eqn:E. cbn [fst snd].
    pose proof (fun notified g => moves_restore _ s headers confirmed pending mode attended notified _ (se_script env 2)
      _ _ _ _ g eq_refl E) as K.
    unfold prog_bind at 1. match goal with |- context [discard ?p ?s] => destruct (discard_run p s) as (g & -> & Hg) end.
    cbn [prog_ret].
    destruct attended; cbn [negb]; [|exact (K false g Hg)].
    unfold prog_bind, notify_shutdown, prog_lift. cbn [ok_or].
    destruct r as [report|e]; cbn [map_err]; [|exact (K true g Hg)].
    match goal with |- context [discard ?p ?s] => destruct (discard_run p s) as (g2 & -> & Hg2) end.
    exact (K true g2 (transitivity Hg2 Hg)).
  - cbn [prog_ret]. destruct attended; cbn [negb]; [|apply moves_stop].
    unfold prog_bind, notify_shutdown, prog_lift. cbn [ok_or].
    replace (set_rc_shutdown s) with (shutting true (set_rc_workspace (rc_workspace s) s)) by by destruct s.
    by apply moves_end, writing_same.
Qed.

Lemma step_moves env t s : stepped t s (step_task process env t s).
Proof.
  destruct t; cbn [step_task]; auto using exchange_moves, session_moves, check_moves, reserve_moves, receive_moves,
    verify_moves, refuse_moves, confirm_moves, activate_moves.
Qed.
Lemma drop_moves received t s u s' : drop_task process received t s = Some (u, s') -> moves t s u s'.
Proof.
  destruct t; intros [= <- <-]; try apply moves_stop; [|by eapply moves_unattended].
  rewrite in_workspace_run. apply (moves_end _ _ false). intros name Hn. by apply untouched_receive.
Qed.

(** * The invariant *)

(** The cookie of a request is the session of the one claim. *)
Definition presented (headers : HeaderMap) (s : RecoveryState) : Prop :=
  exists supplied claim, supplied_session headers = Some supplied /\ rc_claims s = [claim]
    /\ digest supplied = digest (cl_session claim).
(** The staged file is the one that was verified, or is gone. *)
Definition staged (p : PendingRestore) (s : RecoveryState) : Prop :=
  exists source, verify_backup_file source (pn_key p) = Ok (pn_verified p)
    /\ forall n, rg_files (rc_workspace s) !! pn_archive_path p = Some n -> nd_bytes n = so_bytes source.
(** An attempt to restore is of a verified archive, which the operator confirmed. *)
Definition genuine (host : Host) (s : RecoveryState) (r : Restoration) : Prop :=
  presented (rn_headers r) s
  /\ ph_archive_id (va_header (pn_verified (rn_pending r))) = rn_confirmed r
  /\ (exists source, verify_backup_file source (pn_key (rn_pending r)) = Ok (pn_verified (rn_pending r))
       /\ (so_opens (rn_source r) = true -> so_bytes (rn_source r) = so_bytes source))
  /\ exists env draws, restore_backup_file env (rn_source r) (pn_key (rn_pending r)) (rn_mode r) (rn_now r)
                         (at_draw draws host) = (rn_result r, rc_host s).

Section Invariant.
Context (token : blob) (host : Host).

Record state_ok (s : RecoveryState) : Prop := {
  so_digest : rc_claim_digest s = digest token;
  so_claims : (rc_claims s = [] /\ rc_session_digest s = None)
    \/ exists claim, rc_claims s = [claim] /\ rc_session_digest s = Some (digest (cl_session claim))
         /\ digest (cl_code claim) = digest token /\ rc_claimed s = true;
  so_pending : forall p, rc_pending s = Some p -> rc_reserved s = true /\ rc_consumed s = false /\ staged p s;
  so_consumed : rc_consumed s = true -> rc_reserved s = true;
  so_restored : (rc_restorations s = [] /\ rc_host s = host)
    \/ exists r, rc_restorations s = [r] /\ rc_consumed s = true /\ genuine host s r }.

Definition task_ok (s : RecoveryState) (t : Task) : Prop :=
  match t with
  | ClaimSession code => rc_claimed s = true /\ rc_claims s = [] /\ digest code = digest token
  | Receiving _ _ | Verifying _ _ _ => rc_reserved s = true /\ rc_consumed s = false /\ rc_pending s = None
  | Confirming headers _ => presented headers s
  | Restoring headers confirmed p _ _ =>
      rc_consumed s = true /\ rc_restorations s = [] /\ presented headers s /\ staged p s
      /\ ph_archive_id (va_header (pn_verified p)) = confirmed
  | _ => True
  end.

(** What only one task at a time can be *)
Inductive Role : Type := Claimant | Holder | Restorer.
Definition role (t : Task) : option Role :=
  match t with
  | ClaimSession _ => Some Claimant
  | Receiving _ _ | Verifying _ _ _ => Some Holder
  | Restoring _ _ _ _ _ => Some Restorer
  | _ => None
  end.

Lemma holder_writes t path : writes t = Some path -> role t = Some Holder.
Proof. by destruct t. Qed.
Lemma staged_mono p s s' :
  rg_files (rc_workspace s') ⊆ rg_files (rc_workspace s) -> staged p s -> staged p s'.
Proof. intros Hg (source & Hv & Hn). exists source. split; [done|]. intros n H. apply Hn. by eapply lookup_weaken. Qed.
Lemma presented_same headers s s' : rc_claims s' = rc_claims s -> presented headers s -> presented headers s'.
Proof. unfold presented. by intros ->. Qed.
Lemma genuine_same s s' r :
  rc_claims s' = rc_claims s -> rc_host s' = rc_host s -> genuine host s r -> genuine host s' r.
Proof. unfold genuine, presented. by intros -> ->. Qed.

(** A move that leaves the claim, the host and the attempts alone. *)
Lemma state_ok_same s s' :
  state_ok s -> rc_claim_digest s' = rc_claim_digest s -> rc_claims s' = rc_claims s ->
  rc_session_digest s' = rc_session_digest s -> (rc_claimed s = true -> rc_claimed s' = true) ->
  (rc_consumed s = true -> rc_consumed s' = true) ->
  rc_host s' = rc_host s -> rc_restorations s' = rc_restorations s ->
  (forall p, rc_pending s' = Some p -> rc_reserved s' = true /\ rc_consumed s' = false /\ staged p s') ->
  (rc_consumed s' = true -> rc_reserved s' = true) -> state_ok s'.
Proof.
  intros [H1 H2 H3 H4 H5] E1 E2 E3 E4 E5 E6 E7 Hp Hc. split; rewrite ?E1, ?E2, ?E3, ?E6, ?E7; try done.
  - destruct H2 as [?|(claim & ? & ? & ? & ?)]; [by left|right]. exists claim. auto.
  - destruct H5 as [?|(r & ? & ? & ?)]; [by left|right]. exists r. split_and!; auto. by eapply genuine_same.
Qed.

(** A holder writes only while nothing is staged. *)
Lemma writing_staged t s g p :
  task_ok s t -> writing t (rc_workspace s) g -> staged p s -> rc_consumed s = true \/ rc_pending s = Some p ->
  staged p (set_rc_workspace g s).
Proof.
  intros Ht Hw Hp Hs. unfold writing in Hw. destruct (writes t) as [path|] eqn:E.
  - destruct t; try done; destruct Ht as (_ & H1 & H2); destruct Hs; congruence.
  - by eapply staged_mono.
Qed.
Lemma shutting_fields b s :
  rc_claim_digest (shutting b s) = rc_claim_digest s /\ rc_claims (shutting b s) = rc_claims s
  /\ rc_session_digest (shutting b s) = rc_session_digest s /\ rc_claimed (shutting b s) = rc_claimed s
  /\ rc_reserved (shutting b s) = rc_reserved s /\ rc_consumed (shutting b s) = rc_consumed s
  /\ rc_pending (shutting b s) = rc_pending s /\ rc_host (shutting b s) = rc_host s
  /\ rc_restorations (shutting b s) = rc_restorations s /\ rc_workspace (shutting b s) = rc_workspace s.
Proof. by destruct b. Qed.
Lemma state_ok_shutting b s : state_ok s -> state_ok (shutting b s).
Proof. destruct b; [|done]. intros [H1 H2 H3 H4 H5]. by split. Qed.
Lemma task_ok_shutting b s t : task_ok s t -> task_ok (shutting b s) t.
Proof. by destruct b, t. Qed.

Lemma restoring_source script path g source :
  (forall n, rg_files g !! path = Some n -> nd_bytes n = so_bytes source) ->
  so_opens (stored_source script path g) = true -> so_bytes (stored_source script path g) = so_bytes source.
Proof. unfold stored_source. intros H. destruct (rg_files g !! path) as [n|]; [|done]. intros _. by apply H. Qed.

Lemma moves_state t s u s' : moves t s u s' -> state_ok s -> task_ok s t -> state_ok s'.
Proof.
  intros Hm Hs Ht. pose proof Hs as [H1 H2 H3 H4 H5].
  destruct Hm as [body code -> Hd Hc|code session g -> Hg| |upload path g -> Hr Hg|path fields mode key g -> Hw
    |path e g Hh Hw|path mode key k v g -> Hg Ha|headers body p mode -> Hp Hc
    |headers confirmed p mode att notified env script now draws r h g source -> Hr Hg| |notified g Hw]; try done.
  - eapply state_ok_same; try done.
  - destruct Ht as (Hc & Hn & Hd). destruct H2 as [[_ H2]|(claim & H & _)]; [|congruence]. split; try done.
    + right. eexists. rewrite Hn. split_and!; try done; cbn; congruence.
    + intros p Hp. destruct (H3 p Hp) as (? & ? & ?). split_and!; try done. eapply staged_mono; [|done]. cbn. by rewrite Hg.
    + destruct H5 as [?|(r & _ & _ & (supplied & claim & _ & H & _) & _)]; [by left|congruence].
  - eapply state_ok_same; try done. intros p Hp. cbn in *. destruct (H3 p Hp) as (? & ? & ?). congruence.
  - eapply state_ok_same; try done. intros p Hp. cbn in *. destruct Ht as (? & ? & ?). congruence.
  - assert (rc_consumed s = false /\ rc_pending s = None) as [E1 E2] by by destruct t; try done; destruct Ht as (? & ? & ?).
    eapply state_ok_same; try done; cbn; congruence.
  - destruct Ht as (E1 & E2 & E3). eapply state_ok_same; try done. intros p [= <-]. split_and!; try done.
    destruct Ha as [script Ha]. eexists. split; [exact Ha|]. cbn. unfold stored_source. by intros n ->.
  - destruct (H3 p Hp) as (E1 & E2 & E3). eapply state_ok_same; try done.
  - destruct Ht as (E1 & E2 & E3 & (source0 & V1 & V2) & E5). apply state_ok_shutting. split; try done.
    + intros q Hq. cbn in *. destruct (H3 q Hq) as (? & ? & ?). congruence.
    + right. eexists. cbn. rewrite E2. split_and!; try done. destruct H5 as [[_ H5]|(r' & H & _)]; [|congruence]. split_and!; try done.
      * exists source0. split; [done|]. by apply restoring_source.
      * exists env, draws. by rewrite <- H5.
  - apply state_ok_shutting. eapply state_ok_same; try done. intros p Hp. cbn in *.
    destruct (H3 p Hp) as (? & ? & ?). split_and!; try done. eapply writing_staged; eauto.
Qed.

Lemma moves_next t s u s' : moves t s (Some u) s' -> state_ok s -> task_ok s t -> task_ok s' u.
Proof.
  intros Hm [H1 H2 H3 H4 H5] Ht. inversion Hm; subst; cbn in *; try done.
  - split_and!; try congruence. destruct H2 as [[? _]|(claim & _ & _ & _ & H)]; [done|congruence].
  - destruct handler; [done|]. destruct H2 as [[_ ?]|(claim & Hc & Hs & _)]; [congruence|]. exists supplied, claim.
    split_and!; try done. congruence.
  - split_and!; try done.
    + destruct (rc_consumed s); [|done]. by rewrite H4 in * by done.
    + destruct (rc_pending s) as [p|]; [|done]. destruct (H3 p eq_refl). congruence.
  - match goal with H : rc_pending s = Some _ |- _ => destruct (H3 _ H) as (E1 & E2 & E3) end. split_and!; try done.
    destruct H5 as [[? _]|(r & _ & H5 & _)]; [done|congruence].
Qed.

Lemma moves_others t s u s' v :
  moves t s u s' -> state_ok s -> task_ok s t -> (forall r, role v = Some r -> role t <> Some r) ->
  task_ok s v -> task_ok s' v.
Proof.
  intros Hm [H1 H2 H3 H4 H5] Ht Hrole Hv.
  destruct Hm as [body code -> Hd Hc|code session g -> Hg| |upload path g -> Hr Hg|path fields mode key g -> Hw
    |path e g Hh Hw|path mode key k x g -> Hg Ha|headers body p mode -> Hp Hc
    |headers confirmed p mode att notified env script now draws r h g source -> Hr Hg| |notified g Hw];
    try apply task_ok_shutting; try done;
    try (apply holder_writes in Hh; assert (rc_consumed s = false) as Hnc by by destruct t; try done; destruct Ht as (? & ? & ?));
    destruct v; try done; cbn [task_ok role] in *;
    try (by exfalso; eapply Hrole); try (by destruct Hv as (? & ? & ?); cbn in *; split_and!; congruence).
  all: try (destruct Hv as (supplied & claim & _ & Hv & _); destruct Ht as (_ & Ht & _); congruence).
  all: try (destruct Hv as (V1 & V2 & V3 & V4 & V5); cbn in *; split_and!; try done;
    first [ congruence | eapply staged_mono; [|done]; cbn; by rewrite ?Hg | eapply writing_staged; eauto
          | destruct Ht as (? & ? & ?); congruence ]).
  destruct Hv as (_ & _ & (supplied & claim & _ & Hv & _) & _). destruct Ht as (_ & Ht & _). congruence.
Qed.
Lemma moves_role t s u s' r v :
  moves t s (Some u) s' -> state_ok s -> role u = Some r -> role t = Some r \/ (task_ok s v -> role v <> Some r).
Proof.
  intros Hm [H1 H2 H3 H4 H5] Hu. inversion Hm; subst; cbn in *; simplify_eq/=; try (by left); try (by destruct handler);
    right; intros Hv; destruct v; try done; cbn in *; intros _; destruct_and?; congruence.
Qed.

(** * Channels *)

Record channel_ok (c : Channel) : Prop := {
  co_state : state_ok (ch_state c);
  co_tasks : forall i t, ch_tasks c !! i = Some t -> task_ok (ch_state c) t;
  co_roles : forall i j t u r, ch_tasks c !! i = Some t -> ch_tasks c !! j = Some u -> role t = Some r ->
               role u = Some r -> i = j }.

Lemma moved c i t u s :
  channel_ok c -> ch_tasks c !! i = Some t -> moves t (ch_state c) u s ->
  forall answers listening,
  channel_ok {| ch_state := s; ch_tasks := partial_alter (fun _ => u) i (ch_tasks c); ch_answers := answers;
                ch_listening := listening |}.
Proof.
  intros [Hs Ht Hr] Hi Hm answers listening. pose proof (Ht i t Hi) as Hti.
  assert (Hother : forall j v r, ch_tasks c !! j = Some v -> j <> i -> role v = Some r -> role t <> Some r).
  { intros j v r Hj Hn H1 H2. by apply Hn, (Hr j i v t r). }
  assert (Hlook : forall j v, partial_alter (fun _ => u) i (ch_tasks c) !! j = Some v ->
            (j = i /\ u = Some v) \/ (j <> i /\ ch_tasks c !! j = Some v)).
  { intros j v. destruct (decide (i = j)) as [->|Hn]; rewrite ?lookup_partial_alter_eq, ?lookup_partial_alter_ne by done; auto. }
  split; cbn.
  - by eapply moves_state.
  - intros j v [[-> ->]|[Hn Hj]]%Hlook; [by eapply moves_next|]. eapply moves_others; eauto.
  - intros j k v w r [[-> ->]|[Hn Hj]]%Hlook [[-> E]|[Hn' Hk]]%Hlook H1 H2; try done; simplify_eq.
    + exfalso. destruct (moves_role _ _ _ _ _ w Hm Hs H1) as [H|H]; [by apply (Hother k w r)|by apply H; eauto].
    + exfalso. destruct (moves_role _ _ _ _ _ v Hm Hs H2) as [H|H]; [by apply (Hother j v r)|by apply H; eauto].
    + by eapply Hr.
Qed.

(** A request that arrives starts a task without a role, and only reads the clock. *)
Definition only_reads (s : RecoveryState) (x : result RecoveryError Progress * RecoveryState) : Prop :=
  rg_files (rc_workspace x.2) = rg_files (rc_workspace s) /\ x.2 = set_rc_workspace (rc_workspace x.2) s
  /\ forall t, x.1 = Ok (Next t) -> (exists body, t = ClaimBody body) \/ exists h q, t = Authorizing h q.
Lemma enter_reads route headers s : only_reads s (enter route headers s).
Proof.
  destruct route; cbn [enter]; try (by split; [done|split; [by destruct s|done]]);
    unfold enter_claim, enter_privileged, prog_bind, recovery_now; rewrite in_workspace_run; cbn [fst snd clock_now map_err];
    unfold validate_origin, prog_reject; destruct (_ || _); try (by split; [done|split; [by destruct s|done]]);
    cbn [rc_origin set_rc_workspace]; destruct (negb _);
    (split; [done|split; [by destruct s|]]; intros t [= <-]; eauto).
Qed.
Lemma entered c i route headers :
  channel_ok c -> ch_tasks c !! i = None -> channel_ok (settle i (enter route headers) c).
Proof.
  intros [Hs Ht Hr] Hi. unfold settle. pose proof (enter_reads route headers (ch_state c)) as (Hg & E & Hn).
  destruct (enter route headers (ch_state c)) as [x s]. cbn in *.
  assert (state_ok s) as Hs'.
  { destruct Hs as [H1 H2 H3 H4 H5]. rewrite E. eapply state_ok_same; try done. intros p Hp.
    destruct (H3 p Hp) as (? & ? & ?). split_and!; try done. eapply staged_mono; [|done]. cbn. by rewrite Hg. }
  assert (forall t, task_ok (ch_state c) t -> task_ok s t) as Ht'.
  { intros t H. rewrite E. destruct t; try done. destruct H as (? & ? & ? & ? & ?). split_and!; try done.
    eapply staged_mono; [|done]. cbn. by rewrite Hg. }
  assert (forall answers, channel_ok {| ch_state := s; ch_tasks := delete i (ch_tasks c); ch_answers := answers;
            ch_listening := ch_listening c |}) as Hd.
  { intros answers. rewrite delete_id by done. split; cbn; eauto. }
  destruct x as [[t|a|]|e]; try done.
  assert (role t = None /\ task_ok s t) as [Hrole Hok] by by destruct (Hn t eq_refl) as [[body ->]|(h & q & ->)].
  split; cbn; [done| |].
  - intros j u [[<- <-]|[_ ?]]%lookup_insert_Some; eauto.
  - intros j k u v r [[<- <-]|[_ ?]]%lookup_insert_Some [[<- <-]|[_ ?]]%lookup_insert_Some; eauto; congruence.
Qed.

Lemma settle_moved c i t m :
  channel_ok c -> ch_tasks c !! i = Some t -> stepped t (ch_state c) (m (ch_state c)) -> channel_ok (settle i m c).
Proof.
  intros Hc Hi Hm. unfold stepped in Hm. unfold settle. destruct (m (ch_state c)) as [[[u|a|]|e] s]; cbn in Hm;
    by eapply moved in Hm.
Qed.
Lemma happen_ok e c : channel_ok c -> channel_ok (happen process e c).
Proof.
  intros Hc. destruct e as [i route headers|i env|i received| |]; cbn [happen].
  - destruct (negb _ || _) eqn:E; [done|]. apply orb_false_iff in E as [_ E]. apply bool_decide_eq_false in E.
    apply entered; [done|]. by apply eq_None_not_Some.
  - destruct (ch_tasks c !! i) as [t|] eqn:Hi; [|done]. eapply settle_moved; [done..|]. apply step_moves.
  - destruct (ch_tasks c !! i) as [t|] eqn:Hi; [|done]. cbn [mbind option_bind].
    destruct (drop_task _ _ _ _) as [[u s]|] eqn:E; [|done]. apply drop_moves in E. by eapply moved.
  - destruct Hc as [H1 H2 H3]. by split.
  - destruct (_ || _); [done|]. destruct Hc as [Hs Ht Hr].
    assert (rg_files (remove_workspace (rc_workspace (ch_state c))) ⊆ rg_files (rc_workspace (ch_state c))) as Hg.
    { unfold remove_workspace, fs, fs_op. destruct (rg_running _); [|done]. cbn [negb].
      destruct (rg_outcomes _) as [|[]]; try reflexivity; apply map_empty_subseteq. }
    assert (forall p, staged p (ch_state c) -> staged p (set_rc_workspace (remove_workspace (rc_workspace (ch_state c))) (ch_state c))).
    { intros p. by apply staged_mono. }
    split; cbn; [| |done].
    + pose proof Hs as [H1 H2 H3 H4 H5]. eapply state_ok_same; try done. intros p Hp. destruct (H3 p Hp) as (? & ? & ?). auto.
    + intros i t Hi. specialize (Ht i t Hi). destruct t; try done. destruct Ht as (? & ? & ? & ? & ?). by split_and!; auto.
Qed.
Lemma happens_ok l c : channel_ok c -> channel_ok (happens process l c).
Proof. revert c. induction l as [|e l IH]; intros c Hc; [done|]. by apply IH, happen_ok. Qed.
End Invariant.

Lemma open_Ok h port g token s g' :
  open_channel process h port g = (Ok (token, s), g') -> channel_ok token h (opened_channel s).
Proof.
  intros H. unfold open_channel in H. minv. split; cbn; [|by intros *; rewrite lookup_empty..].
  split; cbn; try done; by left.
Qed.

(** * The archive that is restored *)

(** The header of an archive is in its first bytes, however they are read. *)
Lemma exact_prefix {C} n (r : Reader) (c : C) x s' :
  from_source (read_exact n) (r, c) = (Ok x, s') -> x = take n (rd_bytes r) /\ rd_bytes s'.1 = drop n (rd_bytes r).
Proof.
  unfold from_source, read_exact. cbn [fst snd]. destruct (exact_loop _ _ _ _) as [y r'] eqn:E. intros [= -> <-].
  apply exact_loop_Ok in E as (got & -> & -> & <- & _). cbn [fst app]. by rewrite take_app_length, drop_app_length.
Qed.
Lemma decoded_header {C} (consume : blob -> Prog C ArchiveError unit) total key r c v s' :
  decode_archive consume total key (r, c) = (Ok v, s') ->
  parse_public_header (take (Z.to_nat (be_decode (take 2 (drop 14 (take 16 (rd_bytes r)))))) (rd_bytes r)) total
  = Ok (va_header v).
Proof.
  intros H. unfold decode_archive in H. apply prog_bind_Ok in H as ([[[h m] t] f] & s1 & Hb & H).
  assert (va_header v = h) as ->.
  { repeat match goal with H : prog_bind _ _ _ = (Ok _, _) |- _ => apply prog_bind_Ok in H as (? & ? & _ & H) end.
    by apply prog_ret_Ok in H as [-> _]. }
  clear H. unfold read_body in Hb. apply prog_bind_Ok in Hb as ([[h' dek] len] & s2 & Hh & Hb).
  assert (h' = h) as ->.
  { apply prog_bind_Ok in Hb as ([[kind bytes] size] & s3 & _ & Hb).
    do 3 (apply prog_bind_Ok in Hb as (? & ? & _ & Hb)). apply prog_bind_Ok in Hb as (d & s7 & _ & Hb).
    apply prog_bind_Ok in Hb as ([t' f'] & s8 & _ & Hb). apply prog_ret_Ok in Hb as [Hb _]. by injection Hb. }
  unfold read_header in Hh. apply prog_bind_Ok in Hh as (u & s3 & H3 & Hh). apply prog_reject_Ok in H3 as [_ ->].
  apply prog_bind_Ok in Hh as (first & [r4 c4] & H4 & Hh). apply exact_prefix in H4 as [-> E4].
  apply prog_bind_Ok in Hh as (u5 & s5 & H5 & Hh). apply prog_reject_Ok in H5 as [H5 ->].
  apply prog_bind_Ok in Hh as (rest & [r6 c6] & H6 & Hh). apply exact_prefix in H6 as [-> E6].
  apply prog_bind_Ok in Hh as (h7 & s7 & H7 & Hh). apply prog_lift_Ok in H7 as [H7 ->]. apply map_err_Ok in H7.
  assert (h7 = h) as ->.
  { do 4 (apply prog_bind_Ok in Hh as (? & ? & _ & Hh)). apply prog_ret_Ok in Hh as [Hh _]. by injection Hh. }
  rewrite <- H7. cbn [fst] in E4. rewrite E4. set (n := Z.to_nat (be_decode _)) in *. f_equal.
  assert (n = 16 + (n - 16))%nat as Hn.
  { unfold n. unfold within in H5. apply negb_false_iff, andb_true_iff in H5 as [H5 _]. apply Z.leb_le in H5.
    unfold MIN_HEADER_BYTES in H5. lia. }
  rewrite Hn at 1. by rewrite take_take_drop.
Qed.

Lemma opened_source source r : open_safe_source source = Ok r -> so_opens source = true /\ rd_bytes r = so_bytes source.
Proof. unfold open_safe_source. destruct (so_opens source); [|done]. cbn. destruct (_ || _); [done|]. by intros [= <-]. Qed.
Lemma verified_header source key v :
  verify_backup_file source key = Ok v ->
  parse_public_header (take (Z.to_nat (be_decode (take 2 (drop 14 (take 16 (so_bytes source)))))) (so_bytes source))
    (zlen (so_bytes source)) = Ok (va_header v).
Proof.
  intros H. unfold verify_backup_file in H. apply result_bind_Ok in H as (r & Hr & H). apply map_err_Ok in H.
  apply opened_source in Hr as [_ Hb]. rewrite <- Hb in *. unfold verify_archive in H.
  destruct (decode_archive _ _ _ _) as [x [r' u]] eqn:E. cbn in H. subst. by apply decoded_header in E.
Qed.
Lemma restored_header env source key mode now h report h' :
  restore_backup_file env source key mode now h = (Ok report, h') ->
  so_opens source = true
  /\ (exists o snapshot, restored_installation o snapshot (rr_recovery_epoch report) h')
  /\ exists v, rr_archive_id report = ph_archive_id (va_header v)
       /\ parse_public_header (take (Z.to_nat (be_decode (take 2 (drop 14 (take 16 (so_bytes source)))))) (so_bytes source))
            (zlen (so_bytes source)) = Ok (va_header v).
Proof.
  unfold restore_backup_file. destruct (_ || _); [done|].
  destruct (restore_body env source key mode now h) as [[x|] h1] eqn:Eb; [|done]. intros [= -> ->].
  split_and!; [| |].
  - unfold restore_body in Eb. apply prog_bind_Ok in Eb as (r & h0 & Hr & _). apply prog_lift_Ok in Hr as [Hr _].
    by apply opened_source in Hr as [? _].
  - apply restore_body_Ok in Eb as (? & ? & ? & ? & o & s & _ & Hi). eauto.
  - unfold restore_body in Eb. apply prog_bind_Ok in Eb as (r & h0 & Hr & H). apply prog_lift_Ok in Hr as [Hr ->].
    apply opened_source in Hr as [_ Hb]. rewrite <- Hb in *.
    destruct (decode_archive canonical_chunk _ key (r, [])) as [outcome [r' canonical]] eqn:Ed.
    apply prog_bind_Ok in H as (v & h1 & Ho & H). apply prog_lift_Ok in Ho as [Ho ->]. apply map_err_Ok in Ho as ->.
    exists v. split; [|by apply decoded_header in Ed].
    do 6 (apply prog_bind_Ok in H as (? & ? & _ & H)). apply prog_bind_Ok in H as ([[sn rv] ds] & ? & _ & H).
    do 2 (apply prog_bind_Ok in H as (? & ? & _ & H)). by apply prog_ret_Ok in H as [-> _].
Qed.

(** C17. The recovery channel restores at most once, and only what its operator
    had verified and confirmed. Whatever requests arrive and however their
    handlers interleave, fail or are dropped, either nothing was restored and the
    destination is as it was, or exactly one attempt was made. It was made by a
    request with the session of the only claim of the channel, which was made
    with the printed code; it used the key and the file that a verification had
    accepted, unless the file is gone, under the archive identity the request
    confirmed; and when it succeeded, the destination is the restored
    installation of the archive so identified. *)
Theorem recovery_restores_verified_once (host : Host) (port : option Z) (g g' : Registry) (token : blob)
    (s : RecoveryState) (events : list Event)
    (Hopen : open_channel process host port g = (Ok (token, s), g')) :
  let s' := ch_state (happens process events (opened_channel s)) in
  (rc_restorations s' = [] /\ rc_host s' = host)
  \/ exists claim r,
       rc_claims s' = [claim] /\ digest (cl_code claim) = digest token
       /\ rc_restorations s' = [r] /\ genuine host s' r
       /\ forall report, rn_result r = Ok report ->
            rr_archive_id report = rn_confirmed r
            /\ exists o snapshot, restored_installation o snapshot (rr_recovery_epoch report) (rc_host s').
Proof.
  intros s'. pose proof (happens_ok token host events _ (open_Ok _ _ _ _ _ _ Hopen)) as [[_ Hc _ _ Hr] _ _].
  fold s' in Hc, Hr. destruct Hr as [?|(r & Hr & _ & Hg)]; [by left|right].
  pose proof Hg as ((supplied & claim & _ & Hcl & _) & Hid & (source & Hv & Hb) & env & draws & Hrun).
  destruct Hc as [[? _]|(claim' & Hcl' & _ & Hd & _)]; [congruence|]. simplify_eq. rewrite Hcl in Hcl'.
  injection Hcl' as <-. exists claim, r. split_and!; try done. intros report Hok. rewrite Hok in Hrun.
  apply restored_header in Hrun as (Ho & Hi & v & -> & Hp). split; [|done].
  apply verified_header in Hv. rewrite (Hb Ho), Hv in Hp. injection Hp as <-. done.
Qed.
End Props.
