(* ===== verification/RecoveryRuns.v ===== *)
(** Runs of the recovery channel: a request that is no upload leaves it unable to
    restore, and an operator who does what the page asks gets the restore. *)
From Stdlib Require Import ZArith Lia Strings.Byte String.
From stdpp Require Import base tactics numbers option strings list gmap.
From S2P Require Import Prelude RustStd Core Crypto Format Initialization Authentication Archive Logical Backup Passkeys Http BackupJobs Server BackupApi BrowserProps Recovery RecoveryProps.

Section Runs.
Context {CR : Crypto} {CL : CryptoLaws} {PH : PasswordHashing} {LJ : LogicalJson} {AF : ArchiveFormats} {HT : HttpText}
  {JJ : JobJson} {RJ : RecoveryJson} (process : Process).

(** * Steps of a channel *)

Definition with_task (s : RecoveryState) (i : nat) (t : Task) (c : Channel) : Channel :=
  {| ch_state := s; ch_tasks := <[i := t]> (ch_tasks c); ch_answers := ch_answers c; ch_listening := ch_listening c |}.
Definition answered (s : RecoveryState) (i : nat) (r : LocalResponse) (c : Channel) : Channel :=
  {| ch_state := s; ch_tasks := delete i (ch_tasks c); ch_answers := ch_answers c ++ [(i, security_headers r)];
     ch_listening := ch_listening c |}.
Definition outcome (x : result RecoveryError Progress) (s : RecoveryState) (i : nat) (c : Channel) : Channel :=
  match x with
  | Ok (Next t) => with_task s i t c
  | Ok (Answer r) => answered s i r c
  | Ok Ends => {| ch_state := s; ch_tasks := delete i (ch_tasks c); ch_answers := ch_answers c; ch_listening := ch_listening c |}
  | Err e => answered s i (problem_response e) c
  end.
Lemma runs i env t x s c :
  ch_tasks c !! i = Some t -> step_task process env t (ch_state c) = (x, s) -> happen process (Runs i env) c = outcome x s i c.
Proof. intros Hi Hs. cbn [happen]. rewrite Hi. unfold settle. rewrite Hs. by destruct x as [[]|]. Qed.
Lemma arrives i route headers x s c :
  ch_listening c = true -> ch_tasks c !! i = None -> enter route headers (ch_state c) = (x, s) ->
  happen process (Arrives i route headers) c = outcome x s i c.
Proof.
  intros Hl Hi He. cbn [happen]. rewrite Hl, Hi. cbn [negb orb]. unfold settle. rewrite He. by destruct x as [[]|].
Qed.
Lemma runs_cons i env t x s c l :
  ch_tasks c !! i = Some t -> step_task process env t (ch_state c) = (x, s) ->
  happens process (Runs i env :: l) c = happens process l (outcome x s i c).
Proof. intros Hi Hs. unfold happens. cbn [foldl]. by rewrite (runs i env t x s c Hi Hs). Qed.
Lemma arrives_cons i route headers x s c l :
  ch_listening c = true -> ch_tasks c !! i = None -> enter route headers (ch_state c) = (x, s) ->
  happens process (Arrives i route headers :: l) c = happens process l (outcome x s i c).
Proof. intros Hl Hi He. unfold happens. cbn [foldl]. by rewrite (arrives i route headers x s c Hl Hi He). Qed.

(** * A reservation without a holder *)

Record stuck (host : Host) (c : Channel) : Prop := {
  sk_reserved : rc_reserved (ch_state c) = true;
  sk_pending : rc_pending (ch_state c) = None;
  sk_restorations : rc_restorations (ch_state c) = [];
  sk_host : rc_host (ch_state c) = host;
  sk_tasks : forall i t, ch_tasks c !! i = Some t -> role t <> Some Holder /\ role t <> Some Restorer }.

Lemma stuck_moved host c i t u s :
  stuck host c -> ch_tasks c !! i = Some t -> moves t (ch_state c) u s ->
  forall answers listening,
  stuck host {| ch_state := s; ch_tasks := partial_alter (fun _ => u) i (ch_tasks c); ch_answers := answers;
                ch_listening := listening |}.
Proof.
  intros [H1 H2 H3 H4 H5] Hi Hm answers listening. destruct (H5 i t Hi) as [N1 N2].
  assert (Hnew : forall v, u = Some v -> role v <> Some Holder /\ role v <> Some Restorer).
  { intros v ->. inversion Hm; subst; try done; try congruence; by destruct handler. }
  assert (Htasks : forall j v, partial_alter (fun _ => u) i (ch_tasks c) !! j = Some v ->
            role v <> Some Holder /\ role v <> Some Restorer).
  { intros j v Hj. destruct (decide (i = j)) as [->|Hn].
    - rewrite lookup_partial_alter_eq in Hj. by apply Hnew.
    - rewrite lookup_partial_alter_ne in Hj by done. by eapply H5. }
  destruct Hm as [| | | | |path e g Hh| | | | |notified g Hw]; subst; try done; try congruence.
  - by apply holder_writes in Hh.
  - split; try done; by destruct notified.
Qed.
Lemma stuck_happen host e c : stuck host c -> stuck host (happen process e c).
Proof.
  intros Hc. destruct e as [i route headers|i env|i received| |]; cbn [happen].
  - destruct (negb _ || _); [done|]. unfold settle.
    pose proof (enter_reads route headers (ch_state c)) as (_ & E & Hn).
    destruct (enter route headers (ch_state c)) as [x s]. cbn in *. destruct Hc as [H1 H2 H3 H4 H5].
    assert (forall a, stuck host {| ch_state := s; ch_tasks := delete i (ch_tasks c); ch_answers := a;
                                    ch_listening := ch_listening c |}) as Hd.
    { intros a. split; cbn; try by rewrite E. intros j t [_ ?]%lookup_delete_Some. eauto. }
    destruct x as [[t|a|]|e]; try done. split; cbn; try by rewrite E.
    intros j u [[_ <-]|[_ ?]]%lookup_insert_Some; [|eauto].
    by destruct (Hn t eq_refl) as [[body ->]|(h & q & ->)].
  - destruct (ch_tasks c !! i) as [t|] eqn:Hi; [|done]. pose proof (step_moves process env t (ch_state c)) as Hm.
    unfold stepped in Hm. unfold settle. destruct (step_task process env t (ch_state c)) as [[[u|a|]|e] s]; cbn in Hm;
      by eapply stuck_moved in Hm.
  - destruct (ch_tasks c !! i) as [t|] eqn:Hi; [|done]. cbn [mbind option_bind].
    destruct (drop_task _ _ _ _) as [[u s]|] eqn:E; [|done]. apply drop_moves in E. by eapply stuck_moved.
  - destruct Hc. by split.
  - destruct (_ || _); [done|]. destruct Hc. by split.
Qed.
Lemma stuck_happens host l c : stuck host c -> stuck host (happens process l c).
Proof. revert c. induction l as [|e l IH]; intros c Hc; [done|]. by apply IH, stuck_happen. Qed.

(** C40. A request that reaches the reservation with a body that is no multipart
    upload ends the recovery: it is refused and keeps the reservation, so that
    afterwards, whatever happens, every upload is refused as one already staged,
    nothing is ever staged or restored, and the destination stays as it was. *)
Theorem unparsed_upload_ends_recovery (host : Host) (port : option Z) (g g' : Registry) (token : blob)
    (s : RecoveryState) (before after : list Event) (i : nat) (env env' : StepEnv)
    (Hopen : open_channel process host port g = (Ok (token, s), g'))
    (Htask : ch_tasks (happens process before (opened_channel s)) !! i = Some (Reserving None))
    (Hfree : rc_reserved (ch_state (happens process before (opened_channel s))) = false) :
  let s' := ch_state (happens process (before ++ Runs i env :: Runs i env' :: after) (opened_channel s)) in
  rc_restorations s' = [] /\ rc_host s' = host /\ rc_pending s' = None
  /\ forall upload, fst (reserve upload s') = Err (RecoveryFailure 409 "A recovery archive is already staged.").
Proof.
  assert (happens process (before ++ Runs i env :: Runs i env' :: after) (opened_channel s)
    = happens process after (happen process (Runs i env') (happen process (Runs i env) (happens process before (opened_channel s)))))
    as -> by by unfold happens; rewrite foldl_app.
  pose proof (happens_ok process token host before _ (open_Ok process _ _ _ _ _ _ Hopen)) as [Hs Ht Hr].
  set (c := happens process before (opened_channel s)) in *.
  assert (stuck host (happen process (Runs i env') (happen process (Runs i env) c))) as Hc.
  { destruct Hs as [_ _ Hp Hco Hre].
    assert (rc_consumed (ch_state c) = false) as Hn by (destruct (rc_consumed _); [by rewrite Hco in Hfree|done]).
    erewrite (runs i env _ _ _ c Htask)
      by (cbn [step_task]; unfold reserve, prog_bind; rewrite Hfree, in_workspace_run; reflexivity).
    erewrite (runs i env') by (first [apply lookup_insert_eq|reflexivity]).
    split; cbn; try done.
    - destruct (rc_pending (ch_state c)) as [p|]; [|done]. destruct (Hp p eq_refl). congruence.
    - destruct Hre as [[? _]|(r & _ & ? & _)]; [done|congruence].
    - destruct Hre as [[_ ?]|(r & _ & ? & _)]; [done|congruence].
    - intros j t [Hj Hl]%lookup_delete_Some. rewrite lookup_insert_ne in Hl by done. specialize (Ht j t Hl).
      destruct t; try done; destruct Ht as (? & ? & ?); congruence. }
  apply (stuck_happens host after) in Hc as [H1 H2 H3 H4 _]. split_and!; try done.
  intros upload. unfold reserve, prog_bind. by rewrite H1.
Qed.

(** * A ceremony without trouble *)

Definition calm (g : Registry) : Prop := rg_outcomes g = [] /\ rg_running g = true.
Lemma calm_fs_op {A} partial (m : Jobs A) g : calm g -> fs_op partial m g = m g.
Proof. intros [H1 H2]. unfold fs_op. by rewrite H1, H2. Qed.

Definition holding (path bytes : blob) (g : Registry) : Registry :=
  set_rg_files (<[path := archive_node process bytes]> (rg_files g)) g.
Lemma calm_create path g : calm g -> rg_files g !! path = None -> create_new process path g = (Ok tt, holding path [] g).
Proof. intros Hg Hn. unfold create_new, fs. rewrite calm_fs_op by done. by rewrite Hn. Qed.
Lemma calm_write path bytes more g :
  calm g -> write_all path more (holding path bytes g) = (Ok tt, holding path (bytes ++ more) g).
Proof.
  intros Hg. unfold write_all. rewrite calm_fs_op by done. unfold append_bytes, holding. cbn [rg_files set_rg_files].
  by rewrite alter_insert_eq.
Qed.
Lemma calm_chunks path chunks bytes g :
  calm g -> zlen bytes + zlen (concat chunks) <= MAX_STAGED_BYTES ->
  staged_chunks path (zlen bytes) (Some <$> chunks) (holding path bytes g)
  = (Ok (zlen (bytes ++ concat chunks)), holding path (bytes ++ concat chunks) g).
Proof.
  intros Hg. revert bytes. induction chunks as [|chunk chunks IH]; intros bytes Hl; cbn [fmap list_fmap staged_chunks concat].
  { cbn. by rewrite app_nil_r. }
  cbn [concat] in Hl. rewrite zlen_app in Hl.
  pose proof (zlen_nonneg bytes). pose proof (zlen_nonneg chunk). pose proof (zlen_nonneg (concat chunks)).
  unfold prog_bind at 1, prog_lift. unfold checked_add. unfold MAX_STAGED_BYTES, u64_max in *.
  rewrite (proj2 (Z.leb_le _ _)) by lia. cbn [ok_or]. unfold prog_bind at 1, prog_reject.
  rewrite (proj2 (Z.ltb_ge _ _)) by lia. unfold prog_bind at 1, prog_map_err. rewrite calm_write by done. cbn [map_err].
  rewrite <- zlen_app. rewrite app_assoc. apply IH. rewrite zlen_app. lia.
Qed.
Lemma field_single value : zlen value <= MAX_KEY_BYTES -> field_chunks [] [Some value] = Ok value.
Proof.
  intros Hl. cbn [field_chunks]. pose proof (zlen_nonneg value). unfold MAX_KEY_BYTES in *.
  rewrite (proj2 (Z.ltb_ge _ _)) by (change (zlen (@nil byte)) with 0; lia). done.
Qed.
Lemma from_utf8_bytes (m : rstring) : string_from_utf8 (rs_bytes m) = Some m.
Proof.
  by apply string_from_utf8_Some.
Qed.

(** The form of the page: a mode, a key and the archive. *)
Definition form_fields (mode key : rstring) (chunks : list blob) : list (option Field) :=
  [Some {| fd_name := Some (bstr "key_mode"); fd_chunks := [Some (rs_bytes mode)] |};
   Some {| fd_name := Some (bstr "key"); fd_chunks := [Some (rs_bytes key)] |};
   Some {| fd_name := Some (bstr "archive"); fd_chunks := Some <$> chunks |}].
Lemma stage_mode path mode g :
  zlen (rs_bytes mode) <= MAX_KEY_BYTES ->
  stage_field process path nothing_staged {| fd_name := Some (bstr "key_mode"); fd_chunks := [Some (rs_bytes mode)] |} g
  = (Ok {| sg_key_mode := Some mode; sg_key := None; sg_archive_seen := false |}, g).
Proof.
  intros Hm. unfold stage_field. cbn [fd_name fd_chunks].
  change (blob_eqb (default [] (Some (bstr "key_mode"))) (bstr "key_mode")) with true. cbn [orb].
  rewrite field_single by done. unfold prog_bind, prog_lift. by rewrite from_utf8_bytes.
Qed.
Lemma stage_key path mode key g :
  zlen (rs_bytes key) <= MAX_KEY_BYTES ->
  stage_field process path {| sg_key_mode := Some mode; sg_key := None; sg_archive_seen := false |}
    {| fd_name := Some (bstr "key"); fd_chunks := [Some (rs_bytes key)] |} g
  = (Ok {| sg_key_mode := Some mode; sg_key := Some key; sg_archive_seen := false |}, g).
Proof.
  intros Hm. unfold stage_field. cbn [fd_name fd_chunks].
  change (blob_eqb (default [] (Some (bstr "key"))) (bstr "key")) with true.
  change (blob_eqb (default [] (Some (bstr "key"))) (bstr "key_mode")) with false. cbn [orb].
  rewrite field_single by done. unfold prog_bind, prog_lift. by rewrite from_utf8_bytes.
Qed.
Lemma stage_archive path mode key chunks g :
  calm g -> rg_files g !! path = None -> 0 < zlen (concat chunks) <= MAX_STAGED_BYTES ->
  stage_field process path {| sg_key_mode := Some mode; sg_key := Some key; sg_archive_seen := false |}
    {| fd_name := Some (bstr "archive"); fd_chunks := Some <$> chunks |} g
  = (Ok {| sg_key_mode := Some mode; sg_key := Some key; sg_archive_seen := true |}, holding path (concat chunks) g).
Proof.
  intros Hg Hn Hl. unfold stage_field. cbn [fd_name fd_chunks].
  change (blob_eqb (default [] (Some (bstr "archive"))) (bstr "archive")) with true.
  change (blob_eqb (default [] (Some (bstr "archive"))) (bstr "key_mode")) with false.
  change (blob_eqb (default [] (Some (bstr "archive"))) (bstr "key")) with false. cbn [orb andb negb sg_archive_seen].
  unfold prog_bind at 1, prog_map_err at 1. rewrite calm_create by done. cbn [map_err]. unfold prog_bind at 1.
  change 0 with (zlen (@nil byte)) at 1. rewrite calm_chunks by (done || change (zlen (@nil byte)) with 0; lia). cbn [app].
  unfold prog_bind at 1, prog_map_err, fs_silent, fs. rewrite calm_fs_op by done. cbn [prog_ret map_err].
  unfold prog_bind, prog_reject. by rewrite (proj2 (Z.eqb_neq _ _)) by lia.
Qed.
Lemma calm_receive path mode key chunks g :
  calm g -> rg_files g !! path = None ->
  zlen (rs_bytes mode) <= MAX_KEY_BYTES -> zlen (rs_bytes key) <= MAX_KEY_BYTES ->
  0 < zlen (concat chunks) <= MAX_STAGED_BYTES ->
  receive_upload process path (form_fields mode key chunks) g = (Ok (mode, key), holding path (concat chunks) g).
Proof.
  intros Hg Hn Hm Hk Hl. unfold receive_upload, form_fields. cbn [stage_fields]. unfold prog_bind at 1.
  unfold prog_bind at 1. rewrite stage_mode by done. unfold prog_bind at 1. rewrite stage_key by done.
  unfold prog_bind at 1. by rewrite stage_archive.
Qed.

(** ** The three requests *)

Definition in_time (s : RecoveryState) : Prop :=
  now_unix_ms (rg_clock (rc_workspace s) (rg_ticks (rc_workspace s))) < rc_expires_at_unix_ms s.
Definition ticked (s : RecoveryState) : RecoveryState :=
  set_rc_workspace (set_rg_ticks (S (rg_ticks (rc_workspace s))) (rc_workspace s)) s.
Definition idle (c : Channel) : Prop := ch_listening c = true /\ ch_tasks c = ∅.
Definition from_page (s : RecoveryState) (headers : HeaderMap) : Prop :=
  header_text headers "origin" = Some (rc_origin s).
Definition quiet_channel (s : RecoveryState) (answers : list (nat * LocalResponse)) : Channel :=
  {| ch_state := s; ch_tasks := ∅; ch_answers := answers; ch_listening := true |}.

Lemma privileged_enters headers handler s :
  in_time s -> from_page s headers -> rc_consumed s = false ->
  enter_privileged headers handler s = (Ok (Next (Authorizing headers handler)), ticked s).
Proof.
  intros Ht Ho Hc. unfold enter_privileged, prog_bind at 1, recovery_now. rewrite in_workspace_run.
  cbn [fst snd clock_now map_err]. unfold prog_bind, prog_reject, validate_origin. cbn [rc_expires_at_unix_ms rc_consumed set_rc_workspace rc_origin].
  unfold in_time in Ht. rewrite Hc, (proj2 (Z.leb_gt _ _)) by lia. cbn [orb]. unfold prog_reject.
  by rewrite bool_decide_true.
Qed.
Lemma claim_enters headers body s :
  in_time s -> from_page s headers -> rc_claimed s = false ->
  enter_claim headers body s = (Ok (Next (ClaimBody body)), ticked s).
Proof.
  intros Ht Ho Hc. unfold enter_claim, prog_bind at 1, recovery_now. rewrite in_workspace_run.
  cbn [fst snd clock_now map_err]. unfold prog_bind, prog_reject, validate_origin. cbn [rc_expires_at_unix_ms rc_claimed set_rc_workspace rc_origin].
  unfold in_time in Ht. rewrite Hc, (proj2 (Z.leb_gt _ _)) by lia. cbn [orb]. unfold prog_reject.
  by rewrite bool_decide_true.
Qed.
Lemma whole_body limit bytes : zlen bytes <= limit -> to_bytes limit [] [Some bytes] = Some bytes.
Proof. intros H. cbn [to_bytes]. rewrite (proj2 (Z.ltb_ge _ _)); [done|]. change (zlen (@nil byte)) with 0. lia. Qed.

Lemma hex_cookie l : forallb cookie_byte (hex_encode l) = true.
Proof.
  apply forallb_forall. intros x Hx. apply list_elem_of_In, (hex_digits l), list_elem_of_In in Hx.
  cbn in Hx. repeat destruct Hx as [<-|Hx]; done.
Qed.
Lemma session_cookie_text l : to_str (session_cookie (hex_encode l)) = Some (session_cookie (hex_encode l)).
Proof.
  unfold to_str, session_cookie. rewrite !forallb_app.
  assert (forallb visible_ascii (hex_encode l) = true) as ->; [|done].
  pose proof (hex_cookie l) as H. rewrite !forallb_forall in *. intros x Hx. specialize (H x Hx). unfold cookie_byte in H.
  by apply andb_true_iff in H as [[H _]%andb_true_iff _].
Qed.
(** The cookie of the claim, as a browser sends it back. *)
Lemma session_read_back headers l :
  header_get headers "cookie" = Some (bstr "smcv_recovery_session=" ++ hex_encode l) ->
  supplied_session headers = Some (hex_encode l).
Proof.
  intros H. unfold supplied_session, header_text. rewrite H. cbn [mbind option_bind].
  assert (forallb cookie_byte (bstr "smcv_recovery_session=" ++ hex_encode l) = true) as Hc.
  { rewrite forallb_app, hex_cookie. done. }
  rewrite cookie_to_str by done. cbn [mbind option_bind]. rewrite split_no_sep by by apply cookie_byte_no_semicolon.
  cbn [find_map]. unfold recovery_cookie. rewrite trim_cookie by done.
  change (bstr "smcv_recovery_session=" ++ hex_encode l) with (bstr "smcv_recovery_session" ++ x3d :: hex_encode l).
  rewrite split_once_first by (by apply (bool_decide_unpack (x3d ∉ bstr "smcv_recovery_session"))). done.
Qed.

Definition claimed_state (code session : blob) (s : RecoveryState) : RecoveryState :=
  set_rc_session (Some (digest session)) (rc_claims s ++ [{| cl_code := code; cl_session := session |}])
    (set_rc_workspace (set_rg_draws (S (rg_draws (rc_workspace s))) (set_rg_ticks (S (rg_ticks (rc_workspace s))) (rc_workspace s)))
      (set_rc_flags true (rc_reserved s) (rc_consumed s) s)).
Definition claim_response (session : blob) : LocalResponse :=
  {| lr_status := 200;
     lr_headers := header_insert "set-cookie" (session_cookie session) [("content-type"%string, bstr "application/json")];
     lr_body := ClaimResponse true |}.
Lemma claim_exchanged s claim code :
  rc_claimed s = false -> zlen claim <= 4096 -> claim_from_slice claim = Some code ->
  digest (trim_text (rs_bytes code)) = rc_claim_digest s ->
  exchange_claim [Some claim] s
  = (Ok (Next (ClaimSession (trim_text (rs_bytes code)))), set_rc_flags true (rc_reserved s) (rc_consumed s) s).
Proof.
  intros Hc Hl Hj Hd. unfold exchange_claim, prog_bind, prog_lift. rewrite whole_body by done. cbn [ok_or].
  rewrite Hj. cbn [ok_or]. by rewrite Hd, bool_decide_true, Hc.
Qed.
Lemma session_stored s code bytes :
  getrandom (rg_draws (rc_workspace s)) 32 = Some bytes ->
  store_session code s
  = (Ok (Answer (claim_response (hex_encode (arr bytes)))),
     set_rc_session (Some (digest (hex_encode (arr bytes))))
       (rc_claims s ++ [{| cl_code := code; cl_session := hex_encode (arr bytes) |}])
       (set_rc_workspace (set_rg_draws (S (rg_draws (rc_workspace s))) (rc_workspace s)) s)).
Proof.
  intros Hr. unfold store_session, prog_bind. rewrite in_workspace_run. unfold generate_token, fill. rewrite Hr.
  cbn [ok_or result_bind fst snd map_err]. unfold prog_lift. by rewrite session_cookie_text.
Qed.
Lemma claim_phase s answers env headers claim code bytes :
  in_time s -> from_page s headers -> rc_claimed s = false ->
  zlen claim <= 4096 -> claim_from_slice claim = Some code -> digest (trim_text (rs_bytes code)) = rc_claim_digest s ->
  getrandom (rg_draws (rc_workspace s)) 32 = Some bytes ->
  happens process [Arrives 0 (PostClaim [Some claim]) headers; Runs 0 env; Runs 0 env] (quiet_channel s answers)
  = quiet_channel (claimed_state (trim_text (rs_bytes code)) (hex_encode (arr bytes)) s)
      (answers ++ [(0%nat, security_headers (claim_response (hex_encode (arr bytes))))]).
Proof.
  intros Ht Ho Hc Hl Hj Hd Hr.
  rewrite (arrives_cons 0 (PostClaim [Some claim]) headers _ _ (quiet_channel s answers) _ eq_refl eq_refl
    (claim_enters headers [Some claim] s Ht Ho Hc)). cbn [outcome].
  erewrite (runs_cons 0 env (ClaimBody [Some claim])); [|apply lookup_insert_eq
    |exact (claim_exchanged (ticked s) claim code Hc Hl Hj Hd)]. cbn [outcome].
  erewrite (runs_cons 0 env (ClaimSession (trim_text (rs_bytes code)))); [|apply lookup_insert_eq|apply (session_stored (set_rc_flags true (rc_reserved s) (rc_consumed s) (ticked s)) _ bytes Hr)]. cbn [outcome].
  reflexivity.
Qed.

Lemma session_checked headers handler s session :
  supplied_session headers = Some session -> rc_session_digest s = Some (digest session) ->
  check_session headers handler s
  = (Ok (Next match handler with
              | VerifyArchive upload => Reserving upload
              | ActivateRestore body => Confirming headers body
              end), s).
Proof.
  intros H1 H2. unfold check_session, prog_bind, prog_lift, prog_read, prog_reject. rewrite H1, H2. cbn [ok_or].
  by rewrite bool_decide_true.
Qed.

(** The archive in a file *)
Definition archive_source (script : list read_event) (bytes : blob) : SourceFile :=
  {| so_opens := true; so_is_file := true; so_bytes := bytes; so_script := script |}.
Lemma held_source script path bytes g : stored_source script path (holding path bytes g) = archive_source script bytes.
Proof. unfold stored_source, holding. cbn [rg_files set_rg_files]. by rewrite lookup_insert_eq. Qed.

Definition reserved_state (s : RecoveryState) : RecoveryState :=
  set_rc_workspace (set_rg_draws (S (rg_draws (rc_workspace s))) (rc_workspace s))
    (set_rc_flags (rc_claimed s) true (rc_consumed s) s).
Definition held_state (path archive : blob) (s : RecoveryState) : RecoveryState :=
  set_rc_workspace (holding path archive (rc_workspace s)) s.
Lemma upload_reserved s upload :
  rc_reserved s = false ->
  reserve upload s = (Ok (Next (Receiving (staged_path (new_v4 (rg_draws (rc_workspace s)))) upload)), reserved_state s).
Proof. intros H. unfold reserve, prog_bind. rewrite H. by rewrite in_workspace_run. Qed.
Lemma upload_received s path mode key chunks :
  calm (rc_workspace s) -> rg_files (rc_workspace s) !! path = None ->
  zlen (rs_bytes mode) <= MAX_KEY_BYTES -> zlen (rs_bytes key) <= MAX_KEY_BYTES ->
  0 < zlen (concat chunks) <= MAX_STAGED_BYTES ->
  receive process path (Some (form_fields mode key chunks)) s
  = (Ok (Next (Verifying path mode key)), held_state path (concat chunks) s).
Proof.
  intros. unfold receive, prog_bind, prog_lift. cbn [ok_or]. unfold prog_try. rewrite in_workspace_run.
  by rewrite calm_receive.
Qed.

(** What is known of the archive of a ceremony and its key *)
Record acceptable (env : StepEnv) (archive : blob) (mode key : rstring) (k : ArchiveKey) (v : VerifiedArchive) : Prop := {
  ac_started : se_started env = true;
  ac_key : exists header, inspect_backup_file (archive_source (se_script env 0) archive) = Ok header
             /\ supplied_archive_key (ph_key_mode header) mode key = Ok k;
  ac_verified : verify_backup_file (archive_source (se_script env 1) archive) k = Ok v }.
Lemma upload_verified env s path archive mode key k v :
  acceptable env archive mode key k v ->
  verify_staged env path mode key (held_state path archive s)
  = (Ok (Answer (local_json 200 (VerificationBody (verification_response v (rc_expires_at_unix_ms s))))),
     set_rc_pending (Some {| pn_archive_path := path; pn_key := k; pn_verified := v |}) (held_state path archive s)).
Proof.
  intros [H1 (header & H2 & H3) H4]. unfold verify_staged. rewrite H1. cbn [negb]. unfold prog_bind at 1, prog_try.
  rewrite in_workspace_run. unfold prepare_key_and_verify, prog_bind, prog_read, prog_lift.
  cbn [rc_workspace held_state set_rc_workspace]. rewrite !held_source, H2. cbn [anyway map_err]. rewrite H3, H4.
  reflexivity.
Qed.

Definition staged_state (path archive : blob) (k : ArchiveKey) (v : VerifiedArchive) (s : RecoveryState) : RecoveryState :=
  set_rc_pending (Some {| pn_archive_path := path; pn_key := k; pn_verified := v |})
    (held_state path archive (reserved_state (ticked s))).
Lemma verify_phase s answers env headers session mode key chunks k v :
  in_time s -> from_page s headers -> rc_consumed s = false -> rc_reserved s = false ->
  supplied_session headers = Some session -> rc_session_digest s = Some (digest session) ->
  calm (rc_workspace s) -> rg_files (rc_workspace s) = ∅ ->
  zlen (rs_bytes mode) <= MAX_KEY_BYTES -> zlen (rs_bytes key) <= MAX_KEY_BYTES ->
  0 < zlen (concat chunks) <= MAX_STAGED_BYTES -> acceptable env (concat chunks) mode key k v ->
  happens process [Arrives 1 (PostVerify (Some (form_fields mode key chunks))) headers; Runs 1 env; Runs 1 env; Runs 1 env;
                   Runs 1 env] (quiet_channel s answers)
  = quiet_channel (staged_state (staged_path (new_v4 (rg_draws (rc_workspace s)))) (concat chunks) k v s)
      (answers ++ [(1%nat, security_headers (local_json 200
                     (VerificationBody (verification_response v (rc_expires_at_unix_ms s)))))]).
Proof.
  intros Ht Ho Hc Hr Hs Hd Hg Hf Hm Hk Hl Ha. set (upload := Some (form_fields mode key chunks)).
  rewrite (arrives_cons 1 (PostVerify upload) headers _ _ (quiet_channel s answers) _ eq_refl eq_refl
    (privileged_enters headers (VerifyArchive upload) s Ht Ho Hc)). cbn [outcome].
  erewrite (runs_cons 1 env (Authorizing headers (VerifyArchive upload)));
    [|apply lookup_insert_eq|exact (session_checked headers (VerifyArchive upload) (ticked s) session Hs Hd)]. cbn [outcome].
  erewrite (runs_cons 1 env (Reserving upload)); [|apply lookup_insert_eq|exact (upload_reserved (ticked s) upload Hr)]. cbn [outcome].
  set (path := staged_path (new_v4 (rg_draws (rc_workspace (ticked s))))).
  assert (rg_files (rc_workspace (reserved_state (ticked s))) !! path = None) as Hn by (cbn; rewrite Hf; apply lookup_empty).
  erewrite (runs_cons 1 env (Receiving path upload)); [|apply lookup_insert_eq
    |exact (upload_received (reserved_state (ticked s)) path mode key chunks Hg Hn Hm Hk Hl)]. cbn [outcome].
  erewrite (runs_cons 1 env (Verifying path mode key)); [|apply lookup_insert_eq
    |exact (upload_verified env (reserved_state (ticked s)) path (concat chunks) mode key k v Ha)]. cbn [outcome].
  reflexivity.
Qed.

Definition without (path : blob) (s : RecoveryState) : RecoveryState :=
  set_rc_workspace (set_rg_files (delete path (rg_files (rc_workspace s))) (rc_workspace s)) s.
Lemma calm_discard path bytes s :
  calm (rc_workspace s) -> rg_files (rc_workspace s) !! path = Some (archive_node process bytes) ->
  discard path s = (Ok tt, without path s).
Proof.
  intros Hg Hn. unfold discard, prog_bind, prog_try. rewrite in_workspace_run. unfold remove_file, fs.
  rewrite calm_fs_op by done. by rewrite Hn.
Qed.
Lemma discard_again path s :
  calm (rc_workspace s) -> discard path (without path s) = (Ok tt, without path s).
Proof.
  intros Hg. unfold discard, prog_bind, prog_try. rewrite in_workspace_run. unfold remove_file, fs.
  rewrite calm_fs_op by done. cbn. by rewrite lookup_delete_eq.
Qed.

Definition report_response (r : result BackupError RestoreReport) : LocalResponse :=
  match r with
  | Ok report => activation_response report
  | Err _ => problem_response (RecoveryFailure 400 "Recovery activation failed without making a ready partial vault.")
  end.
Lemma restore_activated env headers confirmed p mode s bytes r h :
  let now := now_unix_ms (rg_clock (rc_workspace s) (rg_ticks (rc_workspace s))) in
  se_started env = true -> calm (rc_workspace s) ->
  rg_files (rc_workspace s) = {[pn_archive_path p := archive_node process bytes]} ->
  restore_backup_file (se_restore env) (archive_source (se_script env 2) bytes) (pn_key p) mode now
    (at_draw (rg_draws (rc_workspace s)) (rc_host s)) = (r, h) ->
  exists x s', activate env headers confirmed p mode true s = (x, s')
    /\ match x with Ok (Answer a) => a = report_response r | Err e => problem_response e = report_response r | _ => False end
    /\ rc_host s' = h /\ rg_files (rc_workspace s') = ∅ /\ rc_consumed s' = rc_consumed s /\ rc_pending s' = rc_pending s
    /\ rc_shutdown s' = true.
Proof.
  intros now He Hg Hf Hr. unfold activate. rewrite He. unfold prog_bind at 1. unfold prog_bind at 1, restore_staged.
  unfold prog_bind at 1, recovery_now. rewrite in_workspace_run. cbn [fst snd clock_now map_err]. unfold prog_bind at 1.
  assert (forall script, stored_source script (pn_archive_path p) (rc_workspace (ticked s)) = archive_source script bytes) as Hs.
  { intros script. unfold stored_source. cbn. by rewrite Hf, lookup_singleton_eq. }
  fold (ticked s). rewrite Hs. fold (at_draw (rg_draws (rc_workspace s)) (rc_host s)).
  change (at_draw (rg_draws (rc_workspace (ticked s))) (rc_host (ticked s))) with (at_draw (rg_draws (rc_workspace s)) (rc_host s)).
  fold now. unfold at_draw in Hr. cbn [rc_workspace rc_host ticked set_rc_workspace rg_draws set_rg_ticks]. rewrite Hr. clear Hr.
  unfold prog_bind at 1. erewrite calm_discard; [|done|cbn; rewrite Hf; apply lookup_singleton_eq].
  cbn [prog_ret negb]. unfold prog_bind at 1, notify_shutdown. unfold prog_bind at 1, prog_lift at 1. cbn [ok_or].
  unfold prog_bind at 1, prog_lift at 1. destruct r as [report|e]; cbn [map_err].
  - unfold prog_bind at 1. match goal with |- context [set_rc_shutdown (without ?p ?s)] =>
      change (set_rc_shutdown (without p s)) with (without p (set_rc_shutdown s)) end.
    rewrite discard_again by done. eexists _, _. split; [reflexivity|]. split_and!; try done.
    cbn. rewrite Hf. apply delete_singleton_eq.
  - eexists _, _. split; [reflexivity|]. split_and!; try done. cbn. rewrite Hf. apply delete_singleton_eq.
Qed.

Lemma confirmed s headers confirmation input mode p :
  zlen confirmation <= 64 * 1024 -> activate_from_slice confirmation = Some input ->
  credential_mode (rs_bytes (ar_credential_mode input)) = Ok mode ->
  rc_pending s = Some p -> ph_archive_id (va_header (pn_verified p)) = ar_archive_id input -> rc_consumed s = false ->
  confirm headers [Some confirmation] s
  = (Ok (Next (Restoring headers (ar_archive_id input) p mode true)),
     set_rc_pending None (set_rc_flags (rc_claimed s) (rc_reserved s) true s)).
Proof.
  intros Hl Hj Hm Hp Hi Hc. unfold confirm, prog_bind, prog_lift. rewrite whole_body by done. cbn [ok_or]. rewrite Hj. cbn [ok_or].
  rewrite Hm. unfold take_pending. rewrite Hp, bool_decide_true by done. cbn [negb]. by rewrite Hc.
Qed.

Lemma activate_phase s answers env headers session confirmation input mode path bytes k v r h :
  in_time s -> from_page s headers -> rc_consumed s = false ->
  supplied_session headers = Some session -> rc_session_digest s = Some (digest session) ->
  calm (rc_workspace s) -> rg_files (rc_workspace s) = {[path := archive_node process bytes]} ->
  rc_pending s = Some {| pn_archive_path := path; pn_key := k; pn_verified := v |} ->
  zlen confirmation <= 64 * 1024 -> activate_from_slice confirmation = Some input ->
  ph_archive_id (va_header v) = ar_archive_id input ->
  credential_mode (rs_bytes (ar_credential_mode input)) = Ok mode -> se_started env = true ->
  restore_backup_file (se_restore env) (archive_source (se_script env 2) bytes) k mode
    (now_unix_ms (rg_clock (rc_workspace s) (S (rg_ticks (rc_workspace s)))))
    (at_draw (rg_draws (rc_workspace s)) (rc_host s)) = (r, h) ->
  exists s', happens process [Arrives 2 (PostActivate [Some confirmation]) headers; Runs 2 env; Runs 2 env; Runs 2 env]
               (quiet_channel s answers) = quiet_channel s' (answers ++ [(2%nat, security_headers (report_response r))])
    /\ rc_host s' = h /\ rg_files (rc_workspace s') = ∅ /\ rc_consumed s' = true /\ rc_shutdown s' = true.
Proof.
  intros Ht Ho Hc Hs Hd Hg Hf Hp Hl Hj Hi Hm He Hr. set (body := [Some confirmation]).
  rewrite (arrives_cons 2 (PostActivate body) headers _ _ (quiet_channel s answers) _ eq_refl eq_refl
    (privileged_enters headers (ActivateRestore body) s Ht Ho Hc)). cbn [outcome].
  erewrite (runs_cons 2 env (Authorizing headers (ActivateRestore body)));
    [|apply lookup_insert_eq|exact (session_checked headers (ActivateRestore body) (ticked s) session Hs Hd)]. cbn [outcome].
  set (p := {| pn_archive_path := path; pn_key := k; pn_verified := v |}) in *.
  erewrite (runs_cons 2 env (Confirming headers body)); [|apply lookup_insert_eq
    |exact (confirmed (ticked s) headers confirmation input mode p Hl Hj Hm Hp Hi Hc)]. cbn [outcome].
  set (s1 := set_rc_pending None _).
  destruct (restore_activated env headers (ar_archive_id input) p mode s1 bytes r h He Hg Hf Hr)
    as (x & s' & Hx & Hout & H1 & H2 & H3 & _ & H5).
  exists s'. split; [|by rewrite H3].
  erewrite (runs_cons 2 env); [|apply lookup_insert_eq|exact Hx].
  destruct x as [[]|]; cbn [outcome]; try done; by rewrite <- Hout.
Qed.

Lemma opened_state host port g token s g' :
  open_channel process host port g = (Ok (token, s), g') ->
  rc_claim_digest s = digest token /\ rc_claimed s = false /\ rc_reserved s = false /\ rc_consumed s = false
  /\ rc_claims s = [] /\ rc_host s = host /\ rc_workspace s = g' /\ rg_files g' = ∅.
Proof.
  intros H. unfold open_channel in H.
  do 4 (apply prog_bind_Ok in H as (? & ? & _ & H)). apply prog_bind_Ok in H as (u & g1 & Hw & H).
  assert (rg_files g1 = ∅) as Hf.
  { unfold whatever in Hw. apply prog_map_err_Ok in Hw. unfold create_workspace, fs, fs_op in Hw.
    destruct (rg_running _); [|done]. cbn [negb] in Hw. destruct (rg_outcomes _) as [|[] ?]; by simplify_eq/=. }
  apply prog_bind_Ok in H as (p & g2 & Hp & H). apply prog_lift_Ok in Hp as [_ ->].
  apply prog_bind_Ok in H as (t & g3 & Ht & H). apply prog_bind_Ok in H as (now & g4 & Hn & H).
  assert (rg_files g4 = ∅) as Hf4.
  { unfold whatever in *. apply prog_map_err_Ok in Ht, Hn. unfold generate_token, fill in Ht. unfold clock_now in Hn.
    injection Ht as _ <-. injection Hn as _ <-. done. }
  injection H as <- <- <-. by split_and!.
Qed.

Definition ceremony (env : StepEnv) (claim_headers headers : HeaderMap) (claim confirmation : blob) (mode key : rstring)
    (chunks : list blob) : list Event :=
  [Arrives 0 (PostClaim [Some claim]) claim_headers; Runs 0 env; Runs 0 env;
   Arrives 1 (PostVerify (Some (form_fields mode key chunks))) headers; Runs 1 env; Runs 1 env; Runs 1 env; Runs 1 env;
   Arrives 2 (PostActivate [Some confirmation]) headers; Runs 2 env; Runs 2 env; Runs 2 env].

(** C18. An operator who does what the page asks gets the archive restored. When
    the printed code is claimed in time from the page, the browser returns the
    cookie it was given, the form has an archive its key verifies, and the
    confirmation names that archive, then the destination is what restoring
    exactly these bytes with this key gives, the three requests are answered
    with the session, the verification and the outcome of the restore, and
    neither the archive nor a second activation is left. *)
Theorem recovery_ceremony_completes (host : Host) (port : option Z) (g g' : Registry) (token : blob) (s : RecoveryState)
    (env : StepEnv) (claim_headers headers : HeaderMap) (claim confirmation : blob) (code mode key : rstring)
    (chunks : list blob) (secret : array 32) (k : ArchiveKey) (v : VerifiedArchive) (input : ActivateRequest)
    (credentials : CredentialRestoreMode)
    (Hopen : open_channel process host port g = (Ok (token, s), g'))
    (Hcalm : calm g') (Htime : forall n, (n < 3)%nat -> now_unix_ms (rg_clock g' (n + rg_ticks g')) < rc_expires_at_unix_ms s)
    (Hrandom : getrandom (rg_draws g') 32 = Some secret)
    (Hpage : from_page s claim_headers /\ from_page s headers)
    (Hcookie : header_get headers "cookie" = Some (bstr "smcv_recovery_session=" ++ hex_encode (arr secret)))
    (Hclaim : zlen claim <= 4096 /\ claim_from_slice claim = Some code /\ trim_text (rs_bytes code) = token)
    (Hsizes : zlen (rs_bytes mode) <= MAX_KEY_BYTES /\ zlen (rs_bytes key) <= MAX_KEY_BYTES
              /\ 0 < zlen (concat chunks) <= MAX_STAGED_BYTES)
    (Harchive : acceptable env (concat chunks) mode key k v)
    (Hconfirm : zlen confirmation <= 64 * 1024 /\ activate_from_slice confirmation = Some input
                /\ ph_archive_id (va_header v) = ar_archive_id input
                /\ credential_mode (rs_bytes (ar_credential_mode input)) = Ok credentials) :
  let c := happens process (ceremony env claim_headers headers claim confirmation mode key chunks) (opened_channel s) in
  let (r, h) := restore_backup_file (se_restore env) (archive_source (se_script env 2) (concat chunks)) k credentials
                  (now_unix_ms (rg_clock g' (3 + rg_ticks g'))) (at_draw (2 + rg_draws g') host) in
  rc_host (ch_state c) = h
  /\ ch_answers c =
       [(0%nat, security_headers (claim_response (hex_encode (arr secret))));
        (1%nat, security_headers (local_json 200 (VerificationBody (verification_response v (rc_expires_at_unix_ms s)))));
        (2%nat, security_headers (report_response r))]
  /\ rg_files (rc_workspace (ch_state c)) = ∅ /\ rc_consumed (ch_state c) = true /\ rc_shutdown (ch_state c) = true.
Proof.
  destruct (opened_state _ _ _ _ _ _ Hopen) as (D1 & D2 & D3 & D4 & D5 & D6 & D7 & D8). cbv zeta.
  destruct Hpage as [P1 P2]. destruct Hclaim as (C1 & C2 & C3). destruct Hsizes as (Z1 & Z2 & Z3).
  destruct Hconfirm as (F1 & F2 & F3 & F4). apply session_read_back in Hcookie.
  destruct (restore_backup_file _ _ _ _ _ _) as [r h] eqn:Hr. subst g'. rewrite <- D6 in Hr.
  change (ceremony env claim_headers headers claim confirmation mode key chunks) with
    ([Arrives 0 (PostClaim [Some claim]) claim_headers; Runs 0 env; Runs 0 env]
     ++ [Arrives 1 (PostVerify (Some (form_fields mode key chunks))) headers; Runs 1 env; Runs 1 env; Runs 1 env; Runs 1 env]
     ++ [Arrives 2 (PostActivate [Some confirmation]) headers; Runs 2 env; Runs 2 env; Runs 2 env]).
  unfold happens. rewrite !foldl_app. fold (happens process [Arrives 0 (PostClaim [Some claim]) claim_headers; Runs 0 env; Runs 0 env] (opened_channel s)).
  change (opened_channel s) with (quiet_channel s []).
  rewrite (claim_phase s [] env claim_headers claim code secret (Htime 0%nat ltac:(lia)) P1 D2 C1 C2 ltac:(by rewrite C3) Hrandom).
  set (s1 := claimed_state _ _ _). pose proof (verify_phase s1) as Hv. unfold happens in Hv.
  rewrite (Hv _ env headers (hex_encode (arr secret)) mode key chunks k v (Htime 1%nat ltac:(lia)) P2 D4 D3 Hcookie eq_refl Hcalm D8 Z1 Z2 Z3 Harchive).
  set (path := staged_path _). set (s2 := staged_state path _ _ _ s1).
  edestruct (activate_phase s2) as (s' & Hs & H1 & H2 & H3 & H4); [exact (Htime 2%nat ltac:(lia))|exact P2|exact D4|exact Hcookie|exact eq_refl
    |exact Hcalm| |reflexivity|exact F1|exact F2|exact F3|exact F4|apply Harchive|exact Hr|].
  - cbn. by rewrite D8.
  - unfold happens in Hs. rewrite Hs. cbn [quiet_channel ch_state ch_answers app]. by split_and!.
Qed.
End Runs.
