(* ===== verification/Operations.v ===== *)
(** The scheduled operations of src/crates/smcv-cli/src/operations.rs, a backup
    with retention and a restore drill, and how the command line of main.rs reads
    the keys they use.

    The output directory is a directory as in BackupJobs.v, whose operations can
    fail and which lists its names in any order; [modified] is the time of the
    last change of a file.  A drill restores into files of a temporary
    directory, which it removes. *)
From Stdlib Require Import ZArith Lia Strings.Byte String.
From stdpp Require Import base tactics numbers option strings list gmap.
From S2P Require Import Prelude RustStd Core Crypto Format Sql Schema Records Initialization VaultCore Authentication Archive Portable Logical Backup Passkeys Http BackupJobs Server BackupApi.

Inductive OperationError : Type :=
| OIo
| OBackup (e : BackupError)
| OInitialization
| OKey
| ORefused (message : string).

Record RetentionReport : Type := {
  rt_archive_id : Uuid;
  rt_verified_copies : Z;
  rt_removed_verified_copies : Z;
  rt_unverified_files_retained : Z }.

Record DrillReport : Type := {
  dr_archive_id : Uuid;
  dr_recovery_epoch : Z;
  dr_disabled_source_bound_authenticators : Z }.

(** The vault and the output directory *)
Record Keeper : Type := {
  kp_world : World;
  kp_directory : Registry }.

Definition in_directory {A} (m : Jobs A) : Prog Keeper OperationError A := fun k =>
  let (r, g) := m (kp_directory k) in
  (map_err (fun _ => OIo) r, {| kp_world := kp_world k; kp_directory := g |}).

(** What the loop over the directory has found *)
Record Inventory : Type := {
  nv_verified : list (Z * blob);
  nv_unverified : Z;
  nv_candidates : Z }.
Definition nothing_found : Inventory := {| nv_verified := []; nv_unverified := 0; nv_candidates := 0 |}.
Definition usize_next (z : Z) : Z := Z.min u64_max (z + 1).

Section Operations.
Context {CR : Crypto} {PH : PasswordHashing} {LJ : LogicalJson} {AF : ArchiveFormats} {HT : HttpText} {JJ : JobJson}
  (self : InitializedVault) (process : Process) (read_order : nat -> list blob -> list blob)
  (modified : blob -> option Z) (script : blob -> list read_event) (env : WorkerEnv).

(** [validate_restrictive_directory] *)
Definition validate_restrictive_directory : Jobs unit :=
  do! n := fs (prog_read (fun g => ok_or IoNotFound (rg_directory g))) in
  prog_reject (negb (bool_decide (nd_kind n = DirectoryNode)) || negb (Z.land (nd_mode n) OTHERS_BITS =? 0))
    IoPermissionDenied.
(** [prepare_restrictive_directory] *)
Definition prepare_restrictive_directory : Jobs unit :=
  do! found := prog_try (F:=IoError) (fs (prog_read (fun g => ok_or IoNotFound (rg_directory g)))) in
  do! _ := match found with
           | Ok _ => prog_ret tt
           | Err _ => fs (fun g =>
               match rg_directory g with
               | Some _ => (Err IoOther, g)
               | None => (Ok tt, set_rg_directory (Some {| nd_kind := DirectoryNode; nd_mode := DIRECTORY_BITS;
                                                           nd_uid := pr_uid process; nd_bytes := [] |}) g)
               end)
           end in
  validate_restrictive_directory.

(** * maintain_backups *)

Definition copy_name (id : Uuid) : blob := bstr "backup-" ++ uuid_text id ++ bstr ".smcvault".
Definition draw_copy_name : Prog Keeper OperationError blob := fun k =>
  (Ok (copy_name (new_v4 (w_draws (kp_world k)))),
   {| kp_world := set_w_draws (S (w_draws (kp_world k))) (kp_world k); kp_directory := kp_directory k |}).

Definition copy_publishing (name : blob) (k : Keeper) : Publishing :=
  {| pu_world := kp_world k; pu_destination := nd_bytes <$> rg_files (kp_directory k) !! name; pu_temporary := None;
     pu_outcomes := we_outcomes env; pu_room := we_room env; pu_flushes := we_flushes env; pu_reads := we_reads env;
     pu_removable := we_removable env |}.
(** [vault.create_backup_file(&output, key, now_unix_ms)] *)
Definition create_copy (name : blob) (key : ArchiveKey) (now : Z) : Prog Keeper OperationError BackupFileReport := fun k =>
  let g := kp_directory k in
  let path := {| bp_path := String.string_of_list_byte name; bp_extension := Some "smcvault"%string;
                 bp_at := artifact_location g |} in
  let (r, p) := create_backup_file self path key now (copy_publishing name k) in
  (map_err OBackup r,
   {| kp_world := pu_world p;
      kp_directory := set_rg_files (placed_files process name (new_v4 (w_draws (kp_world k))) p (rg_files g)) g |}).

(** One turn of the loop over [fs::read_dir] *)
Definition inspect_entry (key : ArchiveKey) (found : Inventory) (name : blob) : Jobs Inventory :=
  do! _ := fs_silent (* entry? *) in
  if negb (bool_decide (extension name = Some (bstr "smcvault"))) then prog_ret found
  else
    let candidates := usize_next (nv_candidates found) in
    do! n := lstat name in
    do! good := prog_read (fun g => Ok (bool_decide (nd_kind n = RegularNode)
                                        && is_ok (verify_backup_file (stored_source (script name) name g) key))) in
    prog_ret (if good : bool
              then {| nv_verified := nv_verified found ++ [(default 0 (modified name), name)];
                      nv_unverified := nv_unverified found; nv_candidates := candidates |}
              else {| nv_verified := nv_verified found; nv_unverified := usize_next (nv_unverified found);
                      nv_candidates := candidates |}).

(** [left.0.cmp(&right.0).then_with(|| left.1.cmp(&right.1))] *)
Definition older (a b : Z * blob) : bool := (a.1 <? b.1) || ((a.1 =? b.1) && blob_leb a.2 b.2).

(** One turn of the loop that removes *)
Definition remove_copy (copy : Z * blob) : Jobs unit :=
  do! n := lstat copy.2 in
  do! _ := prog_reject (negb (bool_decide (nd_kind n = RegularNode))) IoOther in
  remove_file copy.2.

Definition maintain_backups (key : ArchiveKey) (retain now : Z) : Prog Keeper OperationError RetentionReport :=
  do! _ := prog_reject ((retain =? 0) || (365 <? retain))
             (ORefused "backup retention count must be between 1 and 365") in
  do! _ := in_directory prepare_restrictive_directory in
  do! output := draw_copy_name in
  do! created := create_copy output key now in
  do! names := in_directory (read_dir read_order) in
  do! found := in_directory (prog_foldM (inspect_entry key) nothing_found (take (Z.to_nat 4097) names)) in
  do! _ := prog_reject ((4096 <? nv_candidates found)
                        || negb (existsb (fun c => blob_eqb c.2 output) (nv_verified found)))
             (ORefused "backup directory inventory is unsafe or newly created archive is missing") in
  let verified_count := zlen (nv_verified found) in
  let verified := order_by older (List.filter (fun c => negb (blob_eqb c.2 output)) (nv_verified found)) in
  let removal_count := Z.max 0 (verified_count - retain) in
  do! _ := prog_reject (zlen verified <? removal_count)
             (ORefused "retention would remove the newly created verified backup") in
  do! _ := in_directory (prog_mapM remove_copy (take (Z.to_nat removal_count) verified)) in
  prog_ret {| rt_archive_id := bf_archive_id created;
              rt_verified_copies := Z.max 0 (verified_count - removal_count);
              rt_removed_verified_copies := removal_count;
              rt_unverified_files_retained := nv_unverified found |}.

(** * restore_drill *)

(** [database] and [root_key] in the temporary directory, what surrounds the
    restore, and what the integrity check of the reopened store reports *)
Record DrillEnv : Type := {
  de_restore : RestoreEnv;
  de_database_at : location;
  de_root_at : location;
  de_quick_check : result StorageError bool }.
Definition drill_host (drill : DrillEnv) (draws : nat) : Host :=
  {| h_database := None; h_root_file := None; h_database_at := de_database_at drill; h_root_at := de_root_at drill;
     h_draws := draws |}.
Definition restore_and_reopen (drill : DrillEnv) (archive : SourceFile) (key : ArchiveKey) (now : Z)
  : Prog Host OperationError DrillReport :=
  do! restored := prog_map_err OBackup (restore_backup_file (de_restore drill) archive key Preserve now) in
  do! reopened := prog_map_err (fun _ => OInitialization) (initialize_vault (i64_saturating_add now 1)) in
  do! intact := prog_lift (map_err (fun _ => OIo) (de_quick_check drill)) in
  do! _ := prog_reject (negb intact) (ORefused "restore drill integrity check failed") in
  prog_ret {| dr_archive_id := rr_archive_id restored; dr_recovery_epoch := rr_recovery_epoch restored;
              dr_disabled_source_bound_authenticators := rr_disabled_source_bound_authenticators restored |}.
Definition restore_drill (drill : DrillEnv) (archive : SourceFile) (key : ArchiveKey) (now : Z)
  : Prog Registry OperationError DrillReport :=
  do! _ := prog_map_err (fun _ => OIo) validate_restrictive_directory in
  do! _ := prog_map_err (fun _ => OIo) fs_silent (* tempdir_in *) in
  fun g =>
    let (r, h) := restore_and_reopen drill archive key now (drill_host drill (rg_draws g)) in
    (r, set_rg_draws (h_draws h) g).

(** * Keys on the command line *)

(** An inherited descriptor: the size of its metadata, and what it yields *)
Record Descriptor : Type := {
  ds_len : Z;
  ds_bytes : option blob }.

(** [while protected.ends_with(['\r', '\n']) { protected.pop(); }] *)
Fixpoint pop_line_ends (reversed : blob) : blob :=
  match reversed with
  | x0d :: rest | x0a :: rest => pop_line_ends rest
  | _ => reversed
  end.
(** [read_key_fd] *)
Definition read_key_fd (descriptor : Z) (fd : option Descriptor) : result OperationError blob :=
  if descriptor <=? 2 then Err (ORefused "protected key descriptor must be greater than 2")
  else
    let? fd := ok_or OIo fd in
    if 4096 <? ds_len fd then Err (ORefused "protected key input is too large")
    else
      let? bytes := ok_or OIo (ds_bytes fd) in
      let protected := take (Z.to_nat 4097) bytes in
      if negb (utf8_valid protected) then Err OIo
      else if 4096 <? zlen protected then Err (ORefused "protected key input is too large")
      else Ok (rev (pop_line_ends (rev protected))).

(** [obtain_existing_key]; [prompted] is what the terminal gave *)
Definition obtain_existing_key (mode : KeyMode) (descriptor : option (Z * option Descriptor)) (prompted : option blob)
  : result OperationError ArchiveKey :=
  let? protected := match descriptor with
                    | Some (number, fd) => read_key_fd number fd
                    | None => ok_or OIo prompted
                    end in
  match mode with
  | PassphraseArgon2id => Ok (Passphrase protected)
  | ModeRecoveryKey =>
      let? key := map_err (fun _ => OKey) (recovery_parse (trim_text protected)) in Ok (Recovery key)
  end.

(** [prompt_confirmed_passphrase], of the two answers *)
Definition prompt_confirmed_passphrase (first second : option blob) : result OperationError blob :=
  let? first := ok_or OIo first in
  let? second := ok_or OIo second in
  if negb (blob_eqb first second) || (zlen first <? 16)
  then Err (ORefused "passphrase confirmation or minimum length failed") else Ok first.

(** [reject_known_fixture_key] *)
Definition COMMITTED_FIXTURE_KEY : blob := bstr "smcvbrk_v1.M6_qs6hHm50zrqXxU3vlWWCdK8FWcnIhAkiuqMnITp0.83d973d9".
Definition reject_known_fixture_key (encoded : blob) : result OperationError unit :=
  if blob_eqb encoded COMMITTED_FIXTURE_KEY
  then Err (ORefused "the committed compatibility-fixture key cannot protect a new backup") else Ok tt.

(** The arm [BackupMaintain] of [main], for an initialized vault *)
Definition backup_maintain (descriptor : Z) (fd : option Descriptor) (retain now : Z)
  : Prog Keeper OperationError RetentionReport :=
  do! encoded := prog_lift (read_key_fd descriptor fd) in
  do! _ := prog_lift (reject_known_fixture_key encoded) in
  do! recovery := prog_lift (map_err (fun _ => OKey) (recovery_parse encoded)) in
  do! report := maintain_backups (Recovery recovery) retain now in
  do! _ := prog_reject (0 <? rt_unverified_files_retained report)
             (ORefused "one or more backup files failed verification and were retained") in
  prog_ret report.
End Operations.
