(* ===== verification/OperationsProps.v ===== *)
(** Retention removes only what a newer verified backup replaces: the theorem
    about [maintain_backups], and the text of a key as the command line reads
    it. *)
From Stdlib Require Import ZArith Lia Strings.Byte String Sorting.Sorted.
From stdpp Require Import base tactics numbers option strings list gmap.
From S2P Require Import Prelude RustStd Core Crypto Format Sql Schema Records Initialization VaultCore Authentication VaultAudit VaultRuns PolicyGraph Archive ArchiveProps Portable Logical Backup BackupRuns Passkeys Http BackupJobs Server BackupApi JobProps Operations.

(** * Programs that change no file *)

Definition still {E A} (m : Prog Registry E A) : Prop := forall g, rg_files (snd (m g)) = rg_files g.
Lemma still_bind {E A B} (m : Prog Registry E A) (k : A -> Prog Registry E B) :
  still m -> (forall a, still (k a)) -> still (prog_bind m k).
Proof. intros Hm Hk g. specialize (Hm g). unfold prog_bind. destruct (m g) as [[a|e] g1]; [|done]. by rewrite (Hk a g1). Qed.
Lemma still_pure {E A} (m : Prog Registry E A) : (forall g, snd (m g) = g) -> still m.
Proof. intros H g. by rewrite H. Qed.
Lemma still_fs {A} (m : Jobs A) : still m -> still (fs m).
Proof.
  intros Hm g. unfold fs, fs_op. destruct (rg_running g); [|done]. cbn [negb].
  destruct (rg_outcomes g) as [|[|n|n] l]; [apply Hm|apply (Hm (set_rg_outcomes l g))|done..].
Qed.
Lemma still_try {E F A} (m : Prog Registry E A) : still m -> still (prog_try (F:=F) m).
Proof. intros H g. specialize (H g). unfold prog_try. by destruct (m g). Qed.
Lemma still_read {E A} (f : Registry -> result E A) : still (prog_read f).
Proof. by apply still_pure. Qed.
Lemma still_ret {E A} (a : A) : still (E:=E) (prog_ret a).
Proof. by apply still_pure. Qed.
Lemma still_reject {E} bad (e : E) : still (prog_reject bad e).
Proof. by apply still_pure. Qed.
Create HintDb still.
#[export] Hint Resolve still_bind still_fs still_try still_read still_ret still_reject : still.

Lemma fs_Ok {A} (m : Jobs A) g a g' : fs m g = (Ok a, g') -> exists l, m (set_rg_outcomes l g) = (Ok a, g').
Proof.
  unfold fs, fs_op. destruct (rg_running g); [|done]. cbn [negb].
  destruct (rg_outcomes g) as [|[|n|n] l] eqn:E; intros H; simplify_eq; [exists []|by exists l]. rewrite <- E. by destruct g.
Qed.

Section Retention.
Context {CR : Crypto} {CL : CryptoLaws} {PH : PasswordHashing} {LJ : LogicalJson} {AF : ArchiveFormats} {HT : HttpText}
  {JJ : JobJson} (self : InitializedVault) (process : Process) (read_order : nat -> list blob -> list blob)
  (modified : blob -> option Z) (script : blob -> list read_event) (env : WorkerEnv).

Lemma still_lstat name : still (lstat name).
Proof. apply still_fs, still_read. Qed.
Lemma still_silent : still fs_silent.
Proof. apply still_fs, still_ret. Qed.
Lemma still_prepare : still (prepare_restrictive_directory process).
Proof.
  unfold prepare_restrictive_directory, validate_restrictive_directory.
  apply still_bind; [auto with still|]. intros found. apply still_bind; [|auto with still].
  destruct found; [auto with still|]. apply still_fs. intros g. by destruct (rg_directory g).
Qed.

(** * The inventory *)

(** An archive that the loop verifies *)
Definition good (key : ArchiveKey) (g : Registry) (name : blob) : bool :=
  bool_decide (extension name = Some (bstr "smcvault"))
  && match rg_files g !! name with
     | Some n => bool_decide (nd_kind n = RegularNode) && is_ok (verify_backup_file (stored_source (script name) name g) key)
     | None => false
     end.
Definition age (name : blob) : Z := default 0 (modified name).

Lemma good_local key g g' name : rg_files g !! name = rg_files g' !! name -> good key g name = good key g' name.
Proof. intros H. unfold good, stored_source. by rewrite H. Qed.
Lemma still_inspect key found name : still (inspect_entry modified script key found name).
Proof.
  unfold inspect_entry. pose proof still_silent. pose proof (still_lstat name).
  apply still_bind; [done|]. intros _. destruct (negb _); auto with still.
Qed.
Lemma inspect_verified key found name g found' g' :
  inspect_entry modified script key found name g = (Ok found', g') ->
  nv_verified found' = nv_verified found ++ (if good key g name then [(age name, name)] else []).
Proof.
  unfold inspect_entry, good. intros H. apply prog_bind_Ok in H as (u & g1 & H1 & H).
  assert (rg_files g1 = rg_files g) as E1 by (pose proof (still_silent g) as Hs; by rewrite H1 in Hs).
  case_bool_decide as Hx; cbn [negb andb] in *; [|apply prog_ret_Ok in H as [-> _]; by rewrite app_nil_r].
  apply prog_bind_Ok in H as (n & g2 & H2 & H). apply fs_Ok in H2 as [l H2]. apply prog_read_Ok in H2 as [H2 ->].
  apply ok_or_Ok in H2. cbn in H2. rewrite E1 in H2. rewrite H2.
  apply prog_bind_Ok in H as (b & g3 & H3 & H). apply prog_read_Ok in H3 as [[= <-] ->]. apply prog_ret_Ok in H as [-> _].
  assert (stored_source (script name) name (set_rg_outcomes l g1) = stored_source (script name) name g) as ->
    by (unfold stored_source; cbn; by rewrite E1).
  destruct (_ && _); [done|]. cbn. by rewrite app_nil_r.
Qed.
Lemma inventory_verified key names found g :
  match prog_foldM (inspect_entry modified script key) found names g with
  | (Ok found', g') => rg_files g' = rg_files g
      /\ nv_verified found' = nv_verified found ++ ((fun n => (age n, n)) <$> List.filter (good key g) names)
  | (Err _, g') => rg_files g' = rg_files g
  end.
Proof.
  revert found g. induction names as [|name names IH]; intros found g; cbn [prog_foldM].
  { split; [done|]. cbn. by rewrite app_nil_r. }
  unfold prog_bind at 1. pose proof (still_inspect key found name g) as Hs.
  destruct (inspect_entry modified script key found name g) as [[found1|e] g1] eqn:E; [|done]. cbn in Hs.
  apply inspect_verified in E. specialize (IH found1 g1).
  assert (Hf : List.filter (good key g1) names = List.filter (good key g) names).
  { apply filter_ext. intros x. apply good_local. by rewrite Hs. }
  destruct (prog_foldM _ _ _ _) as [[found2|e2] g2]; [|by rewrite IH].
  destruct IH as [-> ->]. split; [done|]. rewrite Hf, E, <- app_assoc. f_equal. cbn [List.filter].
  by destruct (good key g name).
Qed.

(** * The removal *)

Lemma remove_copy_run c g :
  match remove_copy c g with
  | (Ok _, g') => rg_files g' = delete c.2 (rg_files g)
  | (Err _, g') => rg_files g' = rg_files g
  end.
Proof.
  unfold remove_copy, prog_bind. pose proof (still_lstat c.2 g) as Hs.
  destruct (lstat c.2 g) as [[n|e] g1]; [|done]. cbn in Hs. unfold prog_reject. destruct (negb _); [done|].
  rewrite <- Hs. unfold remove_file, fs, fs_op. destruct (rg_running g1); [|done]. cbn [negb].
  destruct (rg_outcomes g1) as [|[|k|k] l]; try done; cbn [rg_files set_rg_outcomes];
    destruct (rg_files g1 !! c.2) as [x|] eqn:E; try done; by destruct (bool_decide _).
Qed.
Lemma removal_run l g :
  match prog_mapM remove_copy l g with
  | (Ok _, g') => forall name, rg_files g' !! name = if decide (name ∈ l.*2) then None else rg_files g !! name
  | (Err _, g') => forall name, rg_files g' !! name = rg_files g !! name \/ (name ∈ l.*2 /\ rg_files g' !! name = None)
  end.
Proof.
  revert g. induction l as [|c l IH]; intros g; cbn [prog_mapM].
  { intros name. by rewrite decide_False by apply not_elem_of_nil. }
  unfold prog_bind at 1. pose proof (remove_copy_run c g) as Hc.
  destruct (remove_copy c g) as [[u|e] g1]; [|left; by rewrite Hc].
  specialize (IH g1). unfold prog_bind. rewrite Hc in IH.
  destruct (prog_mapM remove_copy l g1) as [[us|e] g2]; cbn.
  - intros name. rewrite IH. cbn [fmap list_fmap]. destruct (decide (name = c.2)) as [->|Hn].
    + rewrite (decide_True (P := c.2 ∈ c.2 :: l.*2)) by (by left). rewrite lookup_delete_eq. by destruct (decide _).
    + rewrite lookup_delete_ne by done. destruct (decide (name ∈ l.*2)) as [H|H].
      * by rewrite decide_True by (by right).
      * rewrite decide_False; [done|]. by rewrite elem_of_cons; intros [?|?].
  - intros name. destruct (decide (name = c.2)) as [->|Hn].
    + right. split; [by left|]. destruct (IH c.2) as [->|[_ ->]]; [apply lookup_delete_eq|done].
    + destruct (IH name) as [H|[H H']]; [left; by rewrite H, lookup_delete_ne|right; split; [by right|done]].
Qed.

(** * The new copy *)

Lemma create_copy_run name key now k :
  quiet (kp_world k) ->
  match create_copy self process env name key now k with
  | (Ok report, k') => exists snapshot archive,
      archive_of self (w_ring (kp_world k)) (w_db (kp_world k)) key now snapshot archive
      /\ rg_files (kp_directory k) !! name = None
      /\ rg_files (kp_directory k') = <[name := archive_node process archive]> (rg_files (kp_directory k))
  | (Err _, k') => forall x, x <> name -> extension x = Some (bstr "smcvault") ->
      rg_files (kp_directory k') !! x = rg_files (kp_directory k) !! x
  end.
Proof.
  intros Hq. unfold create_copy. destruct (create_backup_file self _ key now _) as [[report|e] p] eqn:E; cbn [map_err].
  - apply create_Ok in E as (s & archive & [Ha Hof _ [Hd Ht] _] & _); [|done]. exists s, archive. split; [exact Hof|].
    assert (rg_files (kp_directory k) !! name = None) as Hn by (cbn in Ha; by destruct (rg_files (kp_directory k) !! name)).
    split; [done|]. cbn. unfold placed_files. by rewrite Hd, Ht, Hn.
  - intros x Hx He. cbn. unfold placed_files.
    assert (x <> partial_path (new_v4 (w_draws (kp_world k)))) as Hp.
    { intros ->. by rewrite partial_extension in He. }
    destruct (pu_temporary p); rewrite ?lookup_insert_ne by done;
      (destruct (pu_destination p); [destruct (rg_files (kp_directory k) !! name)|]);
      rewrite ?lookup_insert_ne, ?lookup_delete_ne by done; done.
Qed.

Lemma older_total a b : older a b = false -> older b a = true.
Proof.
  unfold older. rewrite orb_false_iff, orb_true_iff, !andb_true_iff, Z.ltb_lt, Z.ltb_ge, Z.eqb_eq. intros [H1 H2].
  destruct (Z.eqb_spec a.1 b.1) as [E|E]; [|left; lia]. right. split; [done|]. by apply blob_leb_total.
Qed.
Lemma older_trans a b c : older a b = true -> older b c = true -> older a c = true.
Proof.
  unfold older. rewrite !orb_true_iff, !andb_true_iff, !Z.ltb_lt, !Z.eqb_eq.
  intros [?|[E1 L1]] [?|[E2 L2]]; [left; lia..|]. right. split; [congruence|]. by eapply blob_leb_trans.
Qed.
Lemma older_age a b : older a b = true -> a.1 <= b.1.
Proof. unfold older. rewrite orb_true_iff, andb_true_iff, Z.ltb_lt, Z.eqb_eq. intros [?|[? _]]; lia. Qed.

Lemma sorted_between {A} (R : A -> A -> Prop) l1 l2 a b :
  StronglySorted R (l1 ++ l2) -> a ∈ l1 -> b ∈ l2 -> R a b.
Proof.
  induction l1 as [|x l1 IH]; intros Hs Ha Hb; [by apply not_elem_of_nil in Ha|]. inversion Hs as [|? ? Hl Hx]; subst.
  apply elem_of_cons in Ha as [->|Ha]; [|by apply IH]. rewrite Forall_forall in Hx. apply Hx, elem_of_app. by right.
Qed.

(** The others of the inventory, oldest first. *)
Definition others (key : ArchiveKey) (g : Registry) (output : blob) (names : list blob) : list (Z * blob) :=
  order_by older (List.filter (fun c => negb (blob_eqb c.2 output)) ((fun n => (age n, n)) <$> List.filter (good key g) names)).
Lemma others_elem key g output names c :
  c ∈ others key g output names <-> c.1 = age c.2 /\ c.2 ∈ names /\ good key g c.2 = true /\ c.2 <> output.
Proof.
  unfold others. rewrite order_by_perm, list_elem_of_In, filter_In, <- list_elem_of_In, list_elem_of_fmap, negb_true_iff.
  unfold blob_eqb. rewrite bool_decide_eq_false. split.
  - intros [(n & -> & Hn) Hc]. rewrite list_elem_of_In, filter_In, <- list_elem_of_In in Hn. cbn in *. by destruct Hn.
  - intros (E & Hn & Hg & Hc). split; [|done]. exists c.2. destruct c as [a n]. cbn in *. split; [by subst|].
    by rewrite list_elem_of_In, filter_In, <- list_elem_of_In.
Qed.
Lemma NoDup_keyed (f : blob -> Z) (l : list blob) (p : Z * blob -> bool) :
  NoDup l -> NoDup (List.filter p ((fun n => (f n, n)) <$> l)).*2.
Proof.
  induction 1 as [|x l Hx Hl IH]; cbn; [constructor|]. destruct (p _); [|done]. cbn. constructor; [|done].
  intros H. apply Hx. apply list_elem_of_fmap in H as (c & -> & H). rewrite list_elem_of_In, filter_In, <- list_elem_of_In in H.
  destruct H as [H _]. by apply list_elem_of_fmap in H as (n & -> & H).
Qed.
Lemma others_NoDup key g output names : NoDup names -> NoDup (others key g output names).*2.
Proof.
  intros H. unfold others. rewrite order_by_perm. apply NoDup_keyed. apply NoDup_ListNoDup, List.NoDup_filter. by apply NoDup_ListNoDup.
Qed.
Lemma others_length key g output names :
  NoDup names -> output ∈ names -> good key g output = true ->
  zlen ((fun n => (age n, n)) <$> List.filter (good key g) names) = 1 + zlen (others key g output names).
Proof.
  intros Hn Ho Hg. unfold others, zlen. rewrite (Permutation_length (order_by_perm _ _)), length_fmap.
  assert (output ∈ List.filter (good key g) names) as Hin by by rewrite list_elem_of_In, filter_In, <- list_elem_of_In.
  assert (NoDup (List.filter (good key g) names)) as Hd by (apply NoDup_ListNoDup, List.NoDup_filter; by apply NoDup_ListNoDup).
  generalize dependent (List.filter (good key g) names). intros l Hin Hd.
  assert (forall l, output ∉ l -> length (List.filter (fun c => negb (blob_eqb c.2 output)) ((fun n => (age n, n)) <$> l)) = length l) as Hall.
  { clear. induction l as [|x l IH]; intros H; [done|]. apply not_elem_of_cons in H as [H1 H2].
    rewrite fmap_cons. cbn [List.filter snd]. unfold blob_eqb at 1. rewrite bool_decide_false by congruence.
    cbn [negb length]. by rewrite IH. }
  induction Hd as [|x l Hx Hl IH]; [by apply not_elem_of_nil in Hin|].
  rewrite fmap_cons. cbn [List.filter snd]. unfold blob_eqb at 1. case_bool_decide as E; cbn [negb length].
  - subst. rewrite Hall by done. lia.
  - apply elem_of_cons in Hin as [?|Hin]; [congruence|]. specialize (IH Hin). lia.
Qed.

Lemma in_directory_run {A} (m : Jobs A) k :
  in_directory m k = (map_err (fun _ => OIo) (fst (m (kp_directory k))),
                      {| kp_world := kp_world k; kp_directory := snd (m (kp_directory k)) |}).
Proof. unfold in_directory. by destruct (m (kp_directory k)). Qed.
Lemma still_read_dir : still (read_dir read_order).
Proof. by apply still_fs. Qed.
Lemma read_dir_Ok g names g' :
  (forall n l, read_order n l ≡ₚ l) -> read_dir read_order g = (Ok names, g') ->
  NoDup names /\ forall x, x ∈ names <-> is_Some (rg_files g !! x).
Proof.
  intros Hp H. apply fs_Ok in H as [l H]. injection H as <- <-. cbn [rg_files set_rg_outcomes rg_draws]. rewrite Hp.
  split; [apply NoDup_fst_map_to_list|]. intros x. rewrite Hp, list_elem_of_fmap. split.
  - intros ([y n] & -> & H). apply elem_of_map_to_list in H. by exists n.
  - intros [n Hn]. exists (x, n). split; [done|]. by apply elem_of_map_to_list.
Qed.

(** The last part of [maintain_backups], after the inventory [l]. *)
Definition retention (l : list (Z * blob)) (unverified : Z) (output : blob) (retain : Z) (id : Uuid)
  : Prog Keeper OperationError RetentionReport :=
  let verified := order_by older (List.filter (fun c => negb (blob_eqb c.2 output)) l) in
  let removal_count := Z.max 0 (zlen l - retain) in
  do! _ := prog_reject (zlen verified <? removal_count)
             (ORefused "retention would remove the newly created verified backup") in
  do! _ := in_directory (prog_mapM remove_copy (take (Z.to_nat removal_count) verified)) in
  prog_ret {| rt_archive_id := id; rt_verified_copies := Z.max 0 (zlen l - removal_count);
              rt_removed_verified_copies := removal_count; rt_unverified_files_retained := unverified |}.

(** What retention leaves of the directory [g] in which the copy was placed. *)
Definition retained (key : ArchiveKey) (g : Registry) (output : blob) (names : list blob) (retain : Z)
    (x : result OperationError RetentionReport * Keeper) : Prop :=
  let files' := rg_files (kp_directory x.2) in
  files' !! output = rg_files g !! output
  /\ match x.1 with
     | Ok report => exists removed kept,
         removed ++ kept = others key g output names
         /\ (forall name, name <> output -> files' !! name = if decide (name ∈ removed.*2) then None else rg_files g !! name)
         /\ 1 + zlen kept = Z.min retain (1 + zlen (removed ++ kept))
         /\ rt_verified_copies report = 1 + zlen kept /\ rt_removed_verified_copies report = zlen removed
     | Err _ => forall name, files' !! name = rg_files g !! name
                  \/ (files' !! name = None /\ name ∈ (others key g output names).*2)
     end.
Lemma retention_run key output names retain id unverified k g :
  NoDup names -> output ∈ names -> good key g output = true -> 1 <= retain -> rg_files (kp_directory k) = rg_files g ->
  retained key g output names retain
    (retention ((fun n => (age n, n)) <$> List.filter (good key g) names) unverified output retain id k).
Proof.
  intros Hn Ho Hg Hr Hk. pose proof (others_length key g output names Hn Ho Hg) as Hl.
  unfold retention. set (l := (fun n => (age n, n)) <$> _) in *. set (v := order_by older _).
  assert (v = others key g output names) as Ev by done. rewrite <- Ev in Hl. clearbody v. set (c := Z.max 0 (zlen l - retain)).
  assert (output ∉ v.*2) as Hv.
  { intros H. apply list_elem_of_fmap in H as (x & -> & H). rewrite Ev in H. apply others_elem in H. naive_solver. }
  unfold prog_bind at 1, prog_reject. destruct (Z.ltb_spec (zlen v) c) as [|Hc].
  { split; cbn; [by rewrite Hk|]. intros name. left. by rewrite Hk. }
  unfold prog_bind. rewrite in_directory_run. pose proof (removal_run (take (Z.to_nat c) v) (kp_directory k)) as Hrun.
  assert (forall x, x ∈ (take (Z.to_nat c) v).*2 -> x ∈ v.*2) as Hsub.
  { intros x Hx. rewrite fmap_take in Hx. apply elem_of_take in Hx as (i & Hi & _). by eapply list_elem_of_lookup_2. }
  destruct (prog_mapM _ _ _) as [[u|e] g']; cbn [fst snd map_err].
  - split; cbn.
    + rewrite Hrun, decide_False, Hk; [done|]. intros H. by apply Hv, Hsub.
    + exists (take (Z.to_nat c) v), (drop (Z.to_nat c) v). rewrite take_drop. split; [by rewrite Ev|].
      split; [intros name _; by rewrite Hrun, Hk|].
      unfold zlen in *. rewrite length_take, length_drop. unfold c in *. lia.
  - split; cbn.
    + destruct (Hrun output) as [->|[H _]]; [by rewrite Hk|]. by apply Hsub in H.
    + intros name. destruct (Hrun name) as [->|[H ->]]; [left; by rewrite Hk|right]. split; [done|]. rewrite <- Ev. by apply Hsub.
Qed.

(** The steps of [maintain_backups] before the retention change no other archive. *)
Definition maintained (key : ArchiveKey) (retain now : Z) (k : Keeper)
    (x : result OperationError RetentionReport * Keeper) : Prop :=
  let output := copy_name (new_v4 (w_draws (kp_world k))) in
  let files := rg_files (kp_directory k) in
  (exists e, x.1 = Err e /\ forall name, name <> output -> extension name = Some (bstr "smcvault") ->
     rg_files (kp_directory x.2) !! name = files !! name)
  \/ exists snapshot archive g names,
       archive_of self (w_ring (kp_world k)) (w_db (kp_world k)) key now snapshot archive
       /\ files !! output = None /\ rg_files g = <[output := archive_node process archive]> files
       /\ NoDup names /\ (forall y, y ∈ names -> is_Some (rg_files g !! y))
       /\ ((size files < 4097)%nat -> forall y, is_Some (rg_files g !! y) -> y ∈ names)
       /\ output ∈ names /\ good key g output = true /\ 1 <= retain
       /\ retained key g output names retain x.
Lemma maintained_Err key retain now k e k' :
  (forall name, name <> copy_name (new_v4 (w_draws (kp_world k))) -> extension name = Some (bstr "smcvault") ->
     rg_files (kp_directory k') !! name = rg_files (kp_directory k) !! name) ->
  maintained key retain now k (Err e, k').
Proof. intros H. left. by exists e. Qed.
Lemma maintain_steps key retain now k :
  quiet (kp_world k) -> 0 <= retain -> (forall n l, read_order n l ≡ₚ l) ->
  maintained key retain now k (maintain_backups self process read_order modified script env key retain now k).
Proof.
  intros Hq Hr Hp. set (output := copy_name (new_v4 (w_draws (kp_world k)))). set (files := rg_files (kp_directory k)).
  unfold maintain_backups.
  unfold prog_bind at 1, prog_reject at 1. destruct ((retain =? 0) || _) eqn:E0; [by apply maintained_Err|].
  apply orb_false_iff in E0 as [E0 _]. apply Z.eqb_neq in E0.
  unfold prog_bind at 1. rewrite in_directory_run. pose proof (still_prepare (kp_directory k)) as H1.
  destruct (prepare_restrictive_directory process (kp_directory k)) as [[u|e] g1]; cbn [fst snd map_err] in *;
    [|apply maintained_Err; intros name _ _; cbn; by rewrite H1].
  unfold prog_bind at 1, draw_copy_name. cbn [kp_world kp_directory]. fold output.
  unfold prog_bind at 1. set (k2 := {| kp_world := _; kp_directory := g1 |}).
  pose proof (create_copy_run output key now k2 Hq) as H2.
  destruct (create_copy self process env output key now k2) as [[created|e] k3].
  2: { apply maintained_Err. intros name Hn Hx. cbn. rewrite H2 by done. cbn. by rewrite H1. }
  destruct H2 as (snapshot & archive & Hof & Hnone & Hf). cbn in Hof, Hnone, Hf. rewrite H1 in Hnone, Hf.
  fold files in Hnone, Hf.
  assert (Hold : forall g', rg_files g' = rg_files (kp_directory k3) -> forall name, name <> output -> rg_files g' !! name = files !! name).
  { intros g' -> name Hn. by rewrite Hf, lookup_insert_ne. }
  unfold prog_bind at 1. rewrite in_directory_run. pose proof (still_read_dir (kp_directory k3)) as H4.
  destruct (read_dir read_order (kp_directory k3)) as [[names|e] g4] eqn:E4; cbn [fst snd map_err] in *;
    [|apply maintained_Err; intros name Hn _; cbn; by apply Hold].
  apply read_dir_Ok in E4 as [Hnd Hin]; [|done].
  unfold prog_bind at 1. rewrite in_directory_run. cbn [kp_directory kp_world].
  pose proof (inventory_verified key (take (Z.to_nat 4097) names) nothing_found g4) as H5.
  destruct (prog_foldM _ _ _ g4) as [[found|e] g5]; cbn [fst snd map_err] in *;
    [|apply maintained_Err; intros name Hn _; cbn; apply Hold; [by rewrite H5|done]].
  destruct H5 as [H5 Hv]. cbn [nothing_found nv_verified app] in Hv.
  unfold prog_bind at 1, prog_reject at 1. destruct ((4096 <? _) || _) eqn:E6;
    [apply maintained_Err; intros name Hn _; cbn; apply Hold; [by rewrite H5|done]|].
  apply orb_false_iff in E6 as [_ E6]. apply negb_false_iff, existsb_exists in E6 as (c & Hc & Ec).
  unfold blob_eqb in Ec. apply bool_decide_eq_true in Ec. rewrite Hv, <- list_elem_of_In in Hc.
  apply list_elem_of_fmap in Hc as (n & -> & Hc). cbn in Ec. subst n.
  rewrite list_elem_of_In, filter_In, <- list_elem_of_In in Hc. destruct Hc as [Ho Hg].
  right. exists snapshot, archive, g4, (take (Z.to_nat 4097) names). split_and!; try done.
  - by rewrite H4.
  - rewrite <- (take_drop (Z.to_nat 4097) names) in Hnd. by apply NoDup_app in Hnd as [? _].
  - intros y Hy. apply elem_of_take in Hy as (i & Hi & _). rewrite H4. apply Hin. by eapply list_elem_of_lookup_2.
  - intros Hsize y Hy. rewrite take_ge; [rewrite Hin; by rewrite <- H4|].
    assert (list_to_set names ⊆@{gset blob} dom (rg_files (kp_directory k3))) as Hsub.
    { intros y'. rewrite elem_of_list_to_set, elem_of_dom. by rewrite Hin. }
    apply subseteq_size in Hsub. rewrite size_list_to_set, size_dom in Hsub by done.
    rewrite Hf, map_size_insert_None in Hsub by done. fold files in Hsize. lia.
  - lia.
  - rewrite Hv. apply (retention_run key output (take (Z.to_nat 4097) names) retain (bf_archive_id created) (nv_unverified found)
      {| kp_world := kp_world k3; kp_directory := g5 |} g4); try done; [|lia].
    rewrite <- (take_drop (Z.to_nat 4097) names) in Hnd. by apply NoDup_app in Hnd as [? _].
Qed.

(** C19. Maintenance keeps the latest verified backups. When it succeeds in a
    directory whose entries it can list, the new archive of the vault is in
    place, and of the archives that were there and verify under the key exactly
    the oldest are gone: as many as exceed the number to retain, no other file is
    touched, and the report counts them. When it fails, at whatever step, an
    archive that was there is still there, or it was a verified one and the new
    archive is in place. *)
Theorem maintenance_keeps_latest (key : ArchiveKey) (retain now : Z) (k : Keeper)
    (Hquiet : quiet (kp_world k)) (Hretain : 0 <= retain) (Horder : forall n l, read_order n l ≡ₚ l)
    (Hroom : (size (rg_files (kp_directory k)) < 4097)%nat) :
  let output := copy_name (new_v4 (w_draws (kp_world k))) in
  let files := rg_files (kp_directory k) in
  let new archive := exists snapshot, archive_of self (w_ring (kp_world k)) (w_db (kp_world k)) key now snapshot archive in
  match maintain_backups self process read_order modified script env key retain now k with
  | (Ok report, k') => exists archive removed kept,
      new archive /\ rg_files (kp_directory k') !! output = Some (archive_node process archive)
      /\ (forall name, name <> output ->
            rg_files (kp_directory k') !! name = if decide (name ∈ removed) then None else files !! name)
      /\ NoDup (removed ++ kept)
      /\ (forall name, name ∈ removed ++ kept <-> good key (kp_directory k) name = true)
      /\ (forall a b, a ∈ removed -> b ∈ kept -> age a <= age b)
      /\ 1 + zlen kept = Z.min retain (1 + zlen (removed ++ kept))
      /\ rt_verified_copies report = 1 + zlen kept /\ rt_removed_verified_copies report = zlen removed
  | (Err _, k') => forall name, name <> output -> extension name = Some (bstr "smcvault") ->
      rg_files (kp_directory k') !! name = files !! name
      \/ (rg_files (kp_directory k') !! name = None /\ good key (kp_directory k) name = true
          /\ exists archive, new archive /\ rg_files (kp_directory k') !! output = Some (archive_node process archive))
  end.
Proof.
  cbv zeta. pose proof (maintain_steps key retain now k Hquiet Hretain Horder) as H. unfold maintained in H. cbv zeta in H.
  set (output := copy_name _) in *. set (files := rg_files (kp_directory k)) in *.
  destruct (maintain_backups _ _ _ _ _ _ _ _ _ k) as [x k']. cbn [fst snd] in H.
  destruct H as [(e & -> & H)|(snapshot & archive & g & names & Hof & Hnone & Hg & Hnd & Hin & Hall & Ho & Hgood & _ & Hout & H)].
  { intros name Hn Hx. left. by apply H. }
  cbn [fst snd] in Hout, H. specialize (Hall Hroom).
  assert (forall name, name <> output -> good key g name = good key (kp_directory k) name) as Hlocal.
  { intros name Hn. apply good_local. by rewrite Hg, lookup_insert_ne. }
  assert (Hthe : forall name, name ∈ (others key g output names).*2 <-> good key (kp_directory k) name = true).
  { intros name. rewrite list_elem_of_fmap. split.
    - intros (c & -> & Hc). apply others_elem in Hc as (_ & _ & Hc & Hn). by rewrite <- Hlocal.
    - intros Hk. assert (is_Some (files !! name)) as Hs.
      { unfold good in Hk. apply andb_true_iff in Hk as [_ Hk]. fold files in Hk. by destruct (files !! name). }
      assert (name <> output) as Hn by (intros ->; rewrite Hnone in Hs; by destruct Hs).
      exists (age name, name). split; [done|]. apply others_elem. cbn. split_and!; try done; [|by rewrite Hlocal].
      apply Hall. by rewrite Hg, lookup_insert_ne. }
  rewrite Hg, lookup_insert_eq in Hout. destruct x as [report|e].
  - destruct H as (removed & kept & E & Hfiles & Hcount & H1 & H2). exists archive, removed.*2, kept.*2.
    assert (zlen kept.*2 = zlen kept /\ zlen removed.*2 = zlen removed) as [-> ->] by (unfold zlen; by rewrite !length_fmap).
    rewrite <- fmap_app, E. split_and!; try done.
    + by exists snapshot.
    + intros name Hn. rewrite Hfiles, Hg, lookup_insert_ne by done. done.
    + by apply others_NoDup.
    + intros a b Ha Hb. apply list_elem_of_fmap in Ha as (ca & -> & Ha). apply list_elem_of_fmap in Hb as (cb & -> & Hb).
      assert (ca.1 = age ca.2 /\ cb.1 = age cb.2) as [<- <-].
      { split; [apply (others_elem key g output names ca)|apply (others_elem key g output names cb)]; rewrite <- E, elem_of_app; auto. }
      apply older_age. pose proof (order_by_sorted older (List.filter (fun c => negb (blob_eqb c.2 output))
        ((fun n => (age n, n)) <$> List.filter (good key g) names)) older_total older_trans) as Hs.
      fold (others key g output names) in Hs. rewrite <- E in Hs.
      exact (sorted_between _ _ _ _ _ Hs Ha Hb).
    + rewrite <- E in *. unfold zlen in *. by rewrite length_fmap.
  - intros name Hn Hx. destruct (H name) as [->|[-> Hr]]; [left; by rewrite Hg, lookup_insert_ne|right].
    split_and!; try done; [by apply Hthe|]. exists archive. split; [by exists snapshot|done].
Qed.
End Retention.

(** * The text of a key *)

Definition graphic (b : byte) : bool := let z := Z_of_byte b in (33 <=? z) && (z <=? 126).
Lemma graphic_valid l : forallb graphic l = true -> utf8_valid l = true /\ utf8_valid (l ++ [x0a]) = true.
Proof.
  intros H. assert (forall r, is_Some (utf8_chars r) -> is_Some (utf8_chars (l ++ r))) as K.
  { intros r Hr. induction l as [|b l IH]; [done|]. cbn [forallb] in H. apply andb_true_iff in H as [Hb Hl].
    unfold graphic in Hb. apply andb_true_iff in Hb as [_ Hb]. apply Z.leb_le in Hb.
    cbn [app utf8_chars]. rewrite (proj2 (Z.ltb_lt _ _)) by lia. destruct (IH Hl) as [x Hx]. rewrite Hx. by eexists. }
  unfold utf8_valid. split.
  - destruct (K [] ltac:(by eexists)) as [x Hx]. rewrite app_nil_r in Hx. by rewrite Hx.
  - destruct (K [x0a] ltac:(by eexists)) as [x Hx]. by rewrite Hx.
Qed.
(** No white space begins or ends with a graphic byte. *)
Lemma strip_graphic n b l patterns :
  forallb (fun p => match p with x :: _ => negb (graphic x) | [] => false end) patterns = true -> graphic b = true ->
  strip_any n patterns (b :: l) = b :: l.
Proof.
  intros Hp Hb. destruct n as [|n]; [done|]. cbn [strip_any].
  assert (find_map (fun p => strip_prefix p (b :: l)) patterns = None) as ->; [|done].
  induction patterns as [|p patterns IH]; [done|]. cbn [forallb] in Hp. apply andb_true_iff in Hp as [Hx Hp].
  destruct p as [|x p]; [done|]. cbn [find_map strip_prefix]. rewrite (byte_eqb_spec x b), bool_decide_false; [by apply IH|].
  intros ->. by rewrite Hb in Hx.
Qed.
Lemma trim_graphic l : forallb graphic l = true -> trim_text l = l.
Proof.
  intros H. unfold trim_text. destruct l as [|b l]; [done|].
  rewrite (strip_graphic _ b l) by (first [by vm_compute|by apply andb_true_iff in H as [H _]]).
  assert (forallb graphic (rev (b :: l)) = true) as Hr.
  { apply forallb_forall. intros x Hx. rewrite <- in_rev in Hx. by eapply forallb_forall in H. }
  destruct (rev (b :: l)) as [|x r] eqn:E; [by apply (f_equal (@length byte)) in E; rewrite length_rev in E|].
  rewrite (strip_graphic _ x r) by (first [by vm_compute|by apply andb_true_iff in Hr as [Hr _]]).
  by rewrite <- E, rev_involutive.
Qed.

Section Keys.
Context {CR : Crypto} {CL : CryptoLaws} {HT : HttpText} {HL : HttpTextLaws}.

Lemma graphic_hex l : forallb graphic (hex_lower l) = true.
Proof.
  induction l as [|b l IH]; [done|]. unfold hex_lower in *. cbn [map concat app forallb]. rewrite IH, andb_true_r.
  assert (forall n, 0 <= n < 16 -> graphic (hex_digit n) = true) as Hd.
  { intros n Hn. assert (exists m, n = Z.of_nat m /\ (m < 16)%nat) as (m & -> & Hm) by (exists (Z.to_nat n); lia).
    unfold hex_digit. rewrite Nat2Z.id. do 16 (destruct m as [|m]; [done|]). lia. }
  pose proof (Z_of_byte_range b). rewrite !Hd; [done| |].
  - change 15 with (Z.ones 4). rewrite Z.land_ones by lia. apply Z.mod_pos_bound. lia.
  - rewrite Z.shiftr_div_pow2 by lia. split; [apply Z.div_pos; lia|apply Z.div_lt_upper_bound; lia].
Qed.
Lemma graphic_key key : forallb graphic (recovery_expose_once key) = true.
Proof.
  unfold recovery_expose_once, recovery_checksum. rewrite !forallb_app, graphic_hex, andb_true_r.
  assert (forallb graphic (b64_encode (arr key)) = true) as ->; [|done].
  apply forallb_forall. intros x Hx. apply list_elem_of_In, b64_url_safe in Hx.
  assert (Forall (fun b => graphic b = true)
    (bstr "ABCDEFGHIJKLMNOPQRSTUVWXYZabcdefghijklmnopqrstuvwxyz0123456789-_")) as H
    by (apply (bool_decide_unpack _); by vm_compute).
  rewrite Forall_forall in H. by apply H.
Qed.
Lemma key_length key : zlen (recovery_expose_once key) = 63.
Proof.
  unfold recovery_expose_once. rewrite !zlen_app, b64_array_length. destruct (recovery_checksum_text key) as [-> _]. done.
Qed.
Lemma pop_graphic b l : graphic b = true -> pop_line_ends (b :: l) = b :: l.
Proof. by destruct b. Qed.

(** A generated key that was redirected to a file, with the line end [println!]
    adds, is read back through a descriptor, for a new backup and for an
    existing archive. *)
Theorem printed_key_reads_back (key : RecoveryKey) (descriptor : Z) (Hd : 2 < descriptor) :
  let text := recovery_expose_once key ++ [x0a] in
  let fd := Some {| ds_len := zlen text; ds_bytes := Some text |} in
  read_key_fd descriptor fd = Ok (recovery_expose_once key)
  /\ recovery_parse (recovery_expose_once key) = Ok key
  /\ forall prompted, obtain_existing_key ModeRecoveryKey (Some (descriptor, fd)) prompted = Ok (Recovery key).
Proof.
  intros text fd. assert (zlen text = 64) as Hl by (unfold text; rewrite zlen_app, key_length; done).
  assert (read_key_fd descriptor fd = Ok (recovery_expose_once key)) as Hr.
  { unfold read_key_fd, fd. rewrite (proj2 (Z.leb_gt _ _)) by lia. cbn [ok_or result_bind ds_len ds_bytes]. rewrite Hl.
    cbv iota. change (4096 <? 64) with false. rewrite take_ge by (unfold zlen in Hl; lia).
    pose proof (proj2 (graphic_valid _ (graphic_key key))) as Hu. fold text in Hu. rewrite Hu. cbn [negb]. rewrite Hl. change (4096 <? 64) with false.
    unfold text. rewrite rev_app_distr. cbn [rev app pop_line_ends].
    pose proof (graphic_key key) as Hg. apply forallb_forall with (x := default x00 (head (rev (recovery_expose_once key)))) in Hg.
    - destruct (rev (recovery_expose_once key)) as [|b r] eqn:E.
      + by apply (f_equal (@rev byte)) in E; rewrite rev_involutive in E; rewrite E.
      + cbn in Hg. by rewrite pop_graphic, <- E, rev_involutive.
    - rewrite in_rev. destruct (rev (recovery_expose_once key)) as [|b r] eqn:E; [|by left].
      apply (f_equal (@length byte)) in E. rewrite length_rev in E. pose proof (key_length key) as K. unfold zlen in K. cbn in E. lia. }
  destruct (recovery_key_codec key) as [Hk _]. split_and!; [done|done|]. intros prompted. unfold obtain_existing_key. rewrite Hr.
  cbn [result_bind]. rewrite trim_graphic by apply graphic_key. by rewrite Hk.
Qed.
End Keys.
