(* ===== verification/ToyServer.v ===== *)
(** Executable instances of what the server takes from other packages: the texts
    of UUIDs and bytes, and a serialization of the records of backup jobs. *)
From Stdlib Require Import ZArith Lia Strings.Byte String.
From stdpp Require Import base tactics numbers option strings list gmap.
From S2P Require Import Prelude RustStd Core Crypto ToyCrypto Archive ArchiveWitnesses Passkeys Http BackupJobs.

#[local] Existing Instance toy_crypto.
#[local] Existing Instance toy_laws.

(** * Texts *)

Definition hex_value (b : byte) : option Z := (fun p => Z.of_nat p.1) <$> list_find (fun x => x = b) hex_alphabet.
Fixpoint toy_unhex (l : blob) : option blob :=
  match l with
  | [] => Some []
  | [_] => None
  | a :: b :: l => a ← hex_value a; b ← hex_value b; l ← toy_unhex l; Some (byte_of_Z (a * 16 + b) :: l)
  end.
Definition not_dash (b : byte) : bool := negb (Byte.eqb b x2d).

#[export] Instance toy_texts : HttpText := {|
  parse_str l := toy_unhex (List.filter not_dash l) ≫= try_array 16;
  std_encode := toy_hex;
  std_decode := toy_unhex;
  hex_decode := toy_unhex |}.

Lemma unhex_hex l : toy_unhex (toy_hex l) = Some l.
Proof.
  induction l as [|b l IH]; [done|]. cbn [toy_hex toy_unhex]. unfold hex_value. pose proof (Z_of_byte_range b).
  rewrite !hex_char_find by (Z.to_euclidean_division_equations; lia). cbn [fmap option_fmap option_map mbind option_bind].
  rewrite IH. cbn [mbind option_bind fst]. do 2 f_equal. rewrite !Z2Nat.id by (Z.to_euclidean_division_equations; lia).
  apply Z_of_byte_inj. rewrite Z_of_byte_of_Z. Z.to_euclidean_division_equations; lia.
Qed.
Lemma hex_not_dash l : l ⊆ hex_alphabet -> List.filter not_dash l = l.
Proof.
  induction l as [|b l IH]; intros H; [done|]. cbn. assert (not_dash b = true) as ->.
  { assert (b ∈ hex_alphabet) as Hb by (apply H; by left). unfold not_dash.
    apply list_elem_of_In in Hb. by repeat (destruct Hb as [<-|Hb]; [done|]). }
  f_equal. apply IH. intros x Hx. apply H. by right.
Qed.
Lemma toy_parse_text u : parse_str (uuid_text u) = Some u.
Proof.
  cbn [parse_str uuid_text toy_texts toy_crypto]. unfold toy_uuid_text.
  pose proof (toy_hex_digits (arr u)) as H. set (h := toy_hex (arr u)) in *.
  assert (Hsub : forall k n, take k (drop n h) ⊆ hex_alphabet).
  { intros k n x Hx. apply H. apply elem_of_take in Hx as (i & Hi & _). rewrite lookup_drop in Hi.
    by eapply list_elem_of_lookup_2. }
  assert (Hend : drop 20 h ⊆ hex_alphabet).
  { intros x [i Hi]%list_elem_of_lookup. rewrite lookup_drop in Hi. apply H. by eapply list_elem_of_lookup_2. }
  pose proof (Hsub 8%nat 0%nat) as H0. rewrite drop_0 in H0.
  rewrite !List.filter_app. change (List.filter not_dash [x2d]) with (@nil byte). cbn [app].
  rewrite !hex_not_dash by done. rewrite <- (hex_groups h). unfold h. rewrite unhex_hex. cbn. apply try_array_arr.
Qed.
Lemma b64_char_safe v : 0 <= v < 64 -> b64_char v ∈ b64_alphabet.
Proof.
  intros Hv. unfold b64_char. destruct (lookup_lt_is_Some_2 b64_alphabet (Z.to_nat v)) as [x Hx].
  - change (length b64_alphabet) with 64%nat. lia.
  - rewrite Hx. by eapply list_elem_of_lookup_2.
Qed.
Lemma toy_b64_safe l x : x ∈ toy_b64_encode l -> x ∈ b64_alphabet.
Proof.
  induction l as [|a|a b|a b c r IH] using blob_ind3; cbn [toy_b64_encode]; byte_bounds;
    rewrite ?elem_of_cons, ?elem_of_nil; intros Hx; try done;
    repeat destruct Hx as [->|Hx]; try done; try (by apply IH);
    apply b64_char_safe; Z.to_euclidean_division_equations; lia.
Qed.
#[export] Instance toy_text_laws : HttpTextLaws.
Proof.
  split; [exact toy_parse_text|exact unhex_hex|exact unhex_hex|]. intros l x. apply toy_b64_safe.
Qed.

(** * Records of jobs *)

(** A serialization of what satisfies [ok], read back from the front. *)
Record form (A : Type) : Type := {
  put : A -> blob;
  get : blob -> option (A * blob) }.
Arguments put {A}.
Arguments get {A}.
Definition form_law {A} (ok : A -> Prop) (f : form A) : Prop :=
  forall a rest, ok a -> get f (put f a ++ rest) = Some (a, rest).

Definition pair_form {A B} (f : form A) (g : form B) : form (A * B) := {|
  put p := put f p.1 ++ put g p.2;
  get l := '(a, l) ← get f l; '(b, l) ← get g l; Some ((a, b), l) |}.
Lemma pair_law {A B} P Q (f : form A) (g : form B) :
  form_law P f -> form_law Q g -> form_law (fun p => P p.1 /\ Q p.2) (pair_form f g).
Proof.
  intros Hf Hg [a b] rest [HP HQ]. cbn in *. rewrite <- app_assoc, Hf by done. cbn. by rewrite Hg.
Qed.
Definition option_form {A} (f : form A) : form (option A) := {|
  put o := match o with Some a => x01 :: put f a | None => [x00] end;
  get l := match l with
           | x00 :: l => Some (None, l)
           | x01 :: l => '(a, l) ← get f l; Some (Some a, l)
           | _ => None
           end |}.
Lemma option_law {A} (P : A -> Prop) (f : form A) :
  form_law P f -> form_law (fun o => forall a, o = Some a -> P a) (option_form f).
Proof. intros Hf [a|] rest H; cbn; [|done]. by rewrite Hf by by apply H. Qed.
Definition array_form (n : nat) : form (array n) := {|
  put := arr;
  get l := a ← try_array n (take n l); Some (a, drop n l) |}.
Lemma array_law n : form_law (fun _ => True) (array_form n).
Proof.
  intros a rest _. cbn. rewrite take_app_length', drop_app_length' by by rewrite array_length. by rewrite try_array_arr.
Qed.
Definition u64_form : form Z := {| put := u64_be; get l := Some (be_decode (take 8 l), drop 8 l) |}.
Lemma u64_law : form_law in_u64 u64_form.
Proof.
  intros z rest Hz. cbn. rewrite take_app_length', drop_app_length' by by rewrite length_u64_be.
  unfold u64_be. by rewrite be_decode_encode by (unfold in_u64, u64_max in *; lia).
Qed.
Definition i64_form : form Z := {| put := i64_be; get l := Some (i64_of (take 8 l), drop 8 l) |}.
Lemma i64_law : form_law in_i64 i64_form.
Proof.
  intros z rest Hz. cbn. rewrite take_app_length', drop_app_length' by by unfold i64_be; rewrite length_be_encode. by rewrite i64_of_be.
Qed.
(** Each byte is announced; a zero ends the text. *)
Fixpoint put_text (l : blob) : blob := match l with [] => [x00] | b :: l => x01 :: b :: put_text l end.
Fixpoint get_text (l : blob) : option (blob * blob) :=
  match l with
  | x00 :: l => Some ([], l)
  | x01 :: b :: l => '(t, l) ← get_text l; Some (b :: t, l)
  | _ => None
  end.
Definition text_form : form blob := {| put := put_text; get := get_text |}.
Lemma text_law : form_law (fun _ => True) text_form.
Proof. intros l rest _. cbn. induction l as [|b l IH]; [done|]. cbn. by rewrite IH. Qed.
Definition string_form : form string := {|
  put s := put_text (bstr s);
  get l := '(t, l) ← get_text l; Some (String.string_of_list_byte t, l) |}.
Lemma string_law : form_law (fun _ => True) string_form.
Proof.
  intros s rest _. cbn. pose proof (text_law (bstr s) rest I) as H. cbn in H. rewrite H. cbn.
  unfold bstr. by rewrite String.string_of_list_byte_of_string.
Qed.
Definition state_form : form JobState := {|
  put s := [match s with JPending => x00 | JRunning => x01 | JCompleted => x02 | JFailed => x03 end];
  get l := match l with
           | x00 :: l => Some (JPending, l) | x01 :: l => Some (JRunning, l)
           | x02 :: l => Some (JCompleted, l) | x03 :: l => Some (JFailed, l) | _ => None
           end |}.
Lemma state_law : form_law (fun _ => True) state_form.
Proof. by intros [] rest _. Qed.
Definition bool_form : form bool := {|
  put (b : bool) := [if b then x01 else x00];
  get l := match l with x00 :: l => Some (false, l) | x01 :: l => Some (true, l) | _ => None end |}.
Lemma bool_law : form_law (fun _ => True) bool_form.
Proof. by intros [] rest _. Qed.

Abbreviation job_tuple := (Uuid * JobState * Z * Z * Z * option Uuid * option Z * option Uuid * option Z * option Z
  * option blob * option Z * bool * option string)%type.
Definition job_form : form job_tuple :=
  pair_form (pair_form (pair_form (pair_form (pair_form (pair_form (pair_form (pair_form (pair_form (pair_form
    (pair_form (pair_form (pair_form (array_form 16) state_form) i64_form) i64_form) i64_form)
    (option_form (array_form 16))) (option_form u64_form)) (option_form (array_form 16))) (option_form u64_form))
    (option_form u64_form)) (option_form text_form)) (option_form u64_form)) bool_form) (option_form string_form).
Definition job_of (r : BackupJobRecord) : job_tuple :=
  (bj_job_id r, bj_state r, bj_created_at_unix_ms r, bj_updated_at_unix_ms r, bj_expires_at_unix_ms r,
   bj_archive_id r, bj_format_version r, bj_logical_vault_id r, bj_source_recovery_epoch r, bj_archive_bytes r,
   bj_artifact_sha256 r, bj_record_count r, bj_download_started r, bj_error_code r).
Definition of_job (t : job_tuple) : BackupJobRecord :=
  let '(a, b, c, d, e, f, g, h, i, j, k, l, m, n) := t in
  {| bj_job_id := a; bj_state := b; bj_created_at_unix_ms := c; bj_updated_at_unix_ms := d;
     bj_expires_at_unix_ms := e; bj_archive_id := f; bj_format_version := g; bj_logical_vault_id := h;
     bj_source_recovery_epoch := i; bj_archive_bytes := j; bj_artifact_sha256 := k; bj_record_count := l;
     bj_download_started := m; bj_error_code := n |}.

#[export] Instance toy_jobs : JobJson := {|
  job_to_json r := put job_form (job_of r);
  job_from_json l := '(t, l) ← get job_form l; if blob_eqb l [x0a] then Some (of_job t) else None |}.

Lemma length_option_form {A} (f : form A) o (n : Z) :
  (forall a, o = Some a -> zlen (put f a) <= n) -> 0 <= n -> zlen (put (option_form f) o) <= n + 1.
Proof. intros H Hn. destruct o as [a|]; cbn; [|unfold zlen; cbn; lia]. specialize (H a eq_refl). unfold zlen in *. cbn [length]. lia. Qed.
Lemma length_put_text l : zlen (put_text l) = 2 * zlen l + 1.
Proof. unfold zlen. induction l as [|b l IH]; [done|]. cbn [put_text length] in *. lia. Qed.
#[export] Instance toy_job_laws : JobJsonLaws.
Proof.
  split.
  - intros r (H1 & H2 & H3 & H4 & H5 & H6 & H7). cbn [job_to_json job_from_json toy_jobs].
    pose proof (pair_law _ _ _ _ (pair_law _ _ _ _ (pair_law _ _ _ _ (pair_law _ _ _ _ (pair_law _ _ _ _ (pair_law _ _ _ _
      (pair_law _ _ _ _ (pair_law _ _ _ _ (pair_law _ _ _ _ (pair_law _ _ _ _ (pair_law _ _ _ _ (pair_law _ _ _ _ (pair_law _ _ _ _
      (array_law 16) state_law) i64_law) i64_law) i64_law) (option_law _ _ (array_law 16))) (option_law _ _ u64_law))
      (option_law _ _ (array_law 16))) (option_law _ _ u64_law)) (option_law _ _ u64_law)) (option_law _ _ text_law))
      (option_law _ _ u64_law)) bool_law) (option_law _ _ string_law)) as H.
    fold job_form in H. rewrite (H (job_of r) [x0a]).
    + cbn [mbind option_bind]. change (blob_eqb [x0a] [x0a]) with true. by destruct r.
    + cbn [job_of fst snd]. unfold in_u16, in_u64, u16_max, u64_max in *. split_and!; try done.
      intros z Hz. specialize (H4 z Hz). lia.
  - intros r _. cbn [job_to_json toy_jobs]. unfold job_form, pair_form. cbn [put job_of fst snd].
    unfold text_bytes.
    assert (forall o, zlen (put (option_form (array_form 16)) o) <= 17) as Ha.
    { intros o. apply (length_option_form _ _ 16); [|lia]. intros a _. cbn. unfold zlen. by rewrite array_length. }
    assert (forall o, zlen (put (option_form u64_form) o) <= 9) as Hu.
    { intros o. apply (length_option_form _ _ 8); [|lia]. intros a _. cbn. unfold zlen. by rewrite length_u64_be. }
    assert (zlen (put (option_form text_form) (bj_artifact_sha256 r))
            <= 2 * zlen (default [] (bj_artifact_sha256 r)) + 2) as Ht.
    { destruct (bj_artifact_sha256 r) as [t|]; [|done]. cbn [put option_form text_form default]. unfold zlen at 1. cbn [length].
      pose proof (length_put_text t) as H. unfold zlen in *. cbn. lia. }
    assert (zlen (put (option_form string_form) (bj_error_code r))
            <= 2 * zlen (bstr (default ""%string (bj_error_code r))) + 2) as Hs.
    { destruct (bj_error_code r) as [t|]; [|done]. cbn [put option_form string_form default]. unfold zlen at 1. cbn [length].
      pose proof (length_put_text (bstr t)) as H. unfold zlen in *. cbn. lia. }
    pose proof (Ha (bj_archive_id r)). pose proof (Ha (bj_logical_vault_id r)).
    pose proof (Hu (bj_format_version r)). pose proof (Hu (bj_source_recovery_epoch r)).
    pose proof (Hu (bj_archive_bytes r)). pose proof (Hu (bj_record_count r)).
    revert Ht Hs. unfold zlen in *. rewrite !length_app. cbn [put array_form state_form i64_form bool_form length].
    unfold i64_be. rewrite !length_be_encode, array_length. intros. lia.
Qed.
