(* ===== verification/ServerWitnesses.v ===== *)
(** The theorems about the server applied: a limiter, a request without a
    session, a login, a registry that is interrupted and reopened, and a backup
    that is made and downloaded. *)
From Stdlib Require Import ZArith Lia Strings.Byte String Sorting.Sorted.
From stdpp Require Import base tactics numbers option strings list gmap.
From S2P Require Import Prelude RustStd Core Crypto ToyCrypto Format Sql Schema Records StoreInv RecordsOk VaultStore IdentityStore Store RecordsProps Metadata VaultCore Initialization Authentication Authorization ServiceIdentity AuthorizedVault ToyVault VaultAudit VaultRuns AppRuns VaultProps AuthzProps Witnesses AppWitnesses LoginProps Archive Portable Logical Backup ArchiveWitnesses BackupRuns BackupWitnesses Passkeys PasskeyProps PasskeyRuns PasskeyWitnesses Http BackupJobs Server Api BackupApi Router HttpProps ApiProps BrowserProps JobProps JobReopen DownloadProps ToyServer.

#[local] Existing Instance toy_crypto.
#[local] Existing Instance toy_laws.
#[local] Existing Instance toy_webauthn.
#[local] Existing Instance toy_password_laws.
#[local] Instance toy_api_json : ApiJson := {|
  namespace_to_vec _ := Some []; secret_to_vec _ := Some []; creation_to_value _ := Some [];
  request_to_value _ := Some [] |}.

(** * A server *)

Definition demo_process : Process := {|
  pr_uid := 1000;
  pr_status := Some (bstr "Name:" ++ [x09] ++ bstr "smcv" ++ [x0a] ++ bstr "Uid:" ++ [x09] ++ bstr "1000" ++ [x09]
                     ++ bstr "1000" ++ [x09] ++ bstr "1000" ++ [x09] ++ bstr "1000" ++ [x0a]) |}.
Definition demo_directory : Node :=
  {| nd_kind := DirectoryNode; nd_mode := DIRECTORY_BITS; nd_uid := 1000; nd_bytes := [] |}.
Definition empty_registry (outcomes : list Outcome) (from : Z) : Registry :=
  {| rg_directory := Some demo_directory; rg_files := ∅; rg_jobs := ∅; rg_draws := 0;
     rg_clock := fun k => from + Z.of_nat k; rg_ticks := 0; rg_outcomes := outcomes; rg_running := true |}.
Definition no_metrics : OperationalMetrics :=
  {| om_requests := 0; om_responses_success := 0; om_responses_client_error := 0; om_responses_server_error := 0;
     om_timeouts := 0; om_rate_limited := 0; om_readiness_checks := 0; om_readiness_failures := 0 |}.
Definition server (w : World) (g : Registry) : Server :=
  {| sv_passkeys := {| pw_world := w; pw_ceremonies := no_ceremonies; pw_schedule := [] |}; sv_jobs := g;
     sv_login_rate := ∅; sv_passkey_rate := ∅; sv_bearer_rate := ∅; sv_password_slot := true;
     sv_archive_slot := true; sv_worker := None; sv_readiness := None; sv_metrics := no_metrics |}.

(** * The limiter *)

Definition attacker : AuthenticationRateKey := Peer (V4 LOCALHOST).
Definition attempts : list (AuthenticationRateKey * Z) := [(attacker, 1000); (attacker, 1000); (attacker, 2000); (attacker, 61001)].
Lemma attempts_rate_limited_witness :
  within 1000 (fst (admissions 2 attacker attempts ∅)) <= 2 * 2
  /\ map_len (snd (admissions 2 attacker attempts ∅)) <= MAX_LOGIN_SOURCES.
Proof.
  apply (attempts_rate_limited 2 attacker 1000 attempts).
  - unfold u16_max. lia.
  - split; [repeat constructor; cbn; unfold i64_max; lia|]. repeat constructor; cbn; lia.
Defined.
Example attempts_admitted : fst (admissions 2 attacker attempts ∅) = [1000; 1000; 61001].
Proof. vm_compute. reflexivity. Qed.

(** * A request without a session *)

Definition anonymous : HttpRequest := {| rq_route := GetSecretValue (uuid_text (uid 200)); rq_headers := []; rq_peer := None |}.

(** * A login *)

Definition login_server : Server := server enrolled (empty_registry [] 6000).
Definition no_response : Response := status_only 0.
Abbreviation sign_in := (api_password_login toy_vault None [] password).
Definition login_answer : Response := got (fst (sign_in login_server)) no_response.
Lemma login_answer_run : sign_in login_server = (Ok login_answer, snd (sign_in login_server)).
Proof. apply run_Ok. unfold login_answer. vm_compute. reflexivity. Qed.
#[local] Opaque login_answer enrolled owner_id demo_world.
Lemma login_reaches_browser_witness :
  exists set_cookie csrf,
    header_get (rs_headers login_answer) "set-cookie" = Some set_cookie
    /\ rs_body login_answer = SessionResponse csrf (6000 + SESSION_ABSOLUTE_MS)
    /\ forall t browser, 6000 <= t <= 6000 + SESSION_IDLE_MS ->
         header_get browser "cookie" = Some (browser_cookie set_cookie) ->
         header_get browser "x-smcv-csrf" = Some csrf ->
         exists owner s'', authenticate_owner toy_vault browser true t (snd (sign_in login_server)) = (Ok owner, s'')
           /\ ao_principal_id owner = owner_id /\ is_valid_at owner t = true.
Proof.
  exact (login_reaches_browser toy_vault password (uid 301) 5000 demo_world owner_id None [] password login_server
    (snd (sign_in login_server)) login_answer demo_quiet (wk_db _ _ demo_world_ok) no_authenticators enroll_demo_run
    login_answer_run ltac:(vm_compute; discriminate)).
Defined.

(** * The registry *)

Definition in_order (k : nat) (l : list blob) : list blob := l.

(** A creation that stops in the middle of writing its status, and a start. *)
Definition torn : Registry :=
  snd (create_job demo_process 5000 (empty_registry [Works; Stops 9] 5000)).
Definition after_torn : Registry :=
  snd (open_registry demo_process in_order (restarted 0 (fun _ => 6000) [] torn)).
Lemma torn_run : rtc (registry_step demo_process in_order) (empty_registry [Works; Stops 9] 5000) after_torn.
Proof.
  apply (rtc_l _ _ torn); [by apply (Creates demo_process in_order 5000)|].
  apply rtc_once. apply (Restarts demo_process in_order).
Qed.
Example torn_leaves_a_piece : fst <$> map_to_list (rg_files torn) = [status_temporary (new_v4 1)].
Proof. vm_compute. reflexivity. Qed.
Lemma statuses_survive_faults_witness :
  map_Forall (fun name n => extension name = Some (bstr "json") -> loadable name n) (rg_files after_torn)
  /\ map_Forall (fun name n =>
       (exists id, name ∈ [status_path id; artifact_path id; status_temporary id; partial_path id; verify_path id]
                   /\ nd_kind n = RegularNode)
       \/ (exists id, name = drill_path id /\ nd_kind n = DirectoryNode)) (rg_files after_torn)
  /\ map_Forall (fun id r => bj_job_id r = id) (rg_jobs after_torn) /\ map_len (rg_jobs after_torn) <= MAX_JOBS.
Proof.
  exact (statuses_survive_faults demo_process in_order (empty_registry [Works; Stops 9] 5000) after_torn
    eq_refl eq_refl torn_run).
Defined.

(** A job that runs when the process ends. *)
Definition job_id : Uuid := new_v4 0.
Definition interrupted : Registry :=
  snd (update_job demo_process job_id set_running (snd (create_job demo_process 5000 (empty_registry [] 5000)))).
Lemma interrupted_run : rtc (registry_step demo_process in_order) (empty_registry [] 5000) interrupted.
Proof.
  eapply rtc_l; [by apply (Creates demo_process in_order 5000)|].
  apply rtc_once. apply (Updates demo_process in_order). constructor.
Qed.
#[local] Opaque interrupted.
Definition no_temporaries (files : gmap blob Node) : bool :=
  forallb (fun name => negb (stale_temporary name)) (fst <$> map_to_list files).
Lemma no_temporaries_fresh files id : no_temporaries files = true -> files !! status_temporary id = None.
Proof.
  intros H. destruct (files !! status_temporary id) as [n|] eqn:E; [|done]. apply all_names in E.
  unfold no_temporaries in H. rewrite forallb_forall in H. apply list_elem_of_In in E. apply H in E.
  by rewrite temporary_stale in E.
Qed.
Lemma interrupted_fresh k : (10 <= k)%nat -> rg_files interrupted !! status_temporary (new_v4 k) = None.
Proof. intros _. apply no_temporaries_fresh. vm_compute. reflexivity. Qed.
Lemma demo_process_uid : current_effective_uid demo_process = Ok (pr_uid demo_process).
Proof. vm_compute. reflexivity. Qed.
Lemma interrupted_ours : directory_ours demo_process interrupted.
Proof.
  intros n Hn. assert (rg_directory interrupted = Some demo_directory) as E by (vm_compute; reflexivity).
  rewrite E in Hn. injection Hn as <-. clear E. split_and!; reflexivity.
Qed.
Example interrupted_has_failed :
  bj_error_code <$> target demo_process 9000 (rg_files interrupted) job_id = Some (Some "interrupted"%string).
Proof. vm_compute. reflexivity. Qed.

(** * A backup and its download *)

Definition demo_worker : BackupWorker :=
  {| bw_job_id := job_id; bw_key := demo_archive_key; bw_logical_vault_id := uid 1; bw_source_recovery_epoch := 0 |}.
Definition calm_env : WorkerEnv :=
  {| we_outcomes := []; we_room := None; we_flushes := true; we_reads := []; we_removable := true; we_stops := false |}.
Definition working : Server := set_sv_worker (Some demo_worker) (server source_world interrupted).
Definition worked : Server := run_worker toy_vault demo_process calm_env working.
Definition worked_registry : Registry := sv_jobs worked.
Example worked_completes :
  bj_state <$> rg_jobs worked_registry !! job_id = Some JCompleted.
Proof. vm_compute. reflexivity. Qed.

Lemma some_default {A} (o : option A) d : bool_decide (is_Some o) = true -> o = Some (default d o).
Proof. intros H. apply bool_decide_eq_true in H as [x ->]. done. Qed.
Definition blank : BackupJobRecord :=
  of_job (job_id, JPending, 0, 0, 0, None, None, None, None, None, None, None, false, None).
Definition running_record : BackupJobRecord := default blank (rg_jobs interrupted !! job_id).
Definition completed_demo : BackupJobRecord := default blank (rg_jobs worked_registry !! job_id).
Lemma running_before : rg_jobs (sv_jobs working) !! job_id = Some running_record /\ bj_state running_record <> JCompleted.
Proof. split; [apply some_default; vm_compute; reflexivity|vm_compute; discriminate]. Qed.
Lemma completed_after :
  rg_jobs (sv_jobs (run_worker toy_vault demo_process calm_env working)) !! job_id = Some completed_demo
  /\ bj_state completed_demo = JCompleted.
Proof. split; [apply some_default; vm_compute; reflexivity|vm_compute; reflexivity]. Qed.

(** The owner's browser, a second after the login. *)
Definition downloading : Server :=
  server logged_in
    {| rg_directory := rg_directory worked_registry; rg_files := rg_files worked_registry;
       rg_jobs := rg_jobs worked_registry; rg_draws := 0; rg_clock := fun k => 7000 + Z.of_nat k; rg_ticks := 0;
       rg_outcomes := []; rg_running := true |}.
Definition owner_headers : HeaderMap := [("cookie"%string, SESSION_COOKIE ++ x3d :: bs_session_token browser)].
Abbreviation download := (api_download_backup toy_vault demo_process owner_headers (uuid_text job_id)).
Definition download_answer : Response := got (fst (download downloading)) no_response.
Lemma download_run : download downloading = (Ok download_answer, snd (download downloading)).
Proof. apply run_Ok. unfold download_answer. vm_compute. reflexivity. Qed.
Lemma recorded_later : rg_jobs (sv_jobs downloading) !! job_id = Some completed_demo.
Proof. apply some_default. vm_compute. reflexivity. Qed.
Lemma working_quiet : quiet (sv_world working).
Proof. vm_compute. reflexivity. Qed.
Lemma working_worker : sv_worker working = Some demo_worker.
Proof. reflexivity. Qed.
#[local] Opaque working worked worked_registry downloading download_answer running_record completed_demo.
Lemma downloaded_archive_is_the_backup_witness :
  exists snapshot archive bytes,
    archive_of toy_vault (w_ring (sv_world working)) (w_db (sv_world working)) demo_archive_key (registry_now working)
      snapshot archive
    /\ rg_files (sv_jobs (run_worker toy_vault demo_process calm_env working)) !! artifact_path job_id
       = Some (archive_node demo_process archive)
    /\ rs_body download_answer = FileBody bytes /\ zlen bytes = zlen archive /\ sha256 bytes = sha256 archive
    /\ (rg_files (sv_jobs downloading) !! artifact_path job_id
        = rg_files (sv_jobs (run_worker toy_vault demo_process calm_env working)) !! artifact_path job_id ->
        bytes = archive).
Proof.
  exact (downloaded_archive_is_the_backup toy_vault demo_process calm_env demo_worker working downloading
    (snd (download downloading)) running_record completed_demo completed_demo owner_headers download_answer
    working_quiet working_worker running_before completed_after recorded_later (conj eq_refl eq_refl) download_run).
Defined.
