(* ===== verification/CliWitnesses.v ===== *)
(** The theorems about the command line applied: a recovery channel that is
    opened, a ceremony that restores the demonstration archive, an upload that is
    none, and scheduled maintenance of a directory with two verified archives, a
    broken one and a note. *)
From Stdlib Require Import ZArith Lia Strings.Byte String.
From stdpp Require Import base tactics numbers option strings list gmap.
From S2P Require Import Prelude RustStd Core Crypto Format ToyCrypto Sql Schema Records VaultCore Initialization Authentication ToyVault VaultAudit Archive AppWitnesses ArchiveWitnesses Portable Logical Backup RestoreProps BackupRuns BackupWitnesses Passkeys PasskeyWitnesses Http BackupJobs Server BackupApi BrowserProps Recovery RecoveryProps RecoveryRuns Operations OperationsProps ToyServer ServerWitnesses.

#[local] Existing Instance toy_crypto.
#[local] Existing Instance toy_laws.

(** The requests: a code as it is, and an identity with a mode. *)
#[local] Instance toy_requests : RecoveryJson := {|
  claim_from_slice := string_from_utf8;
  activate_from_slice l :=
    id ← try_array 16 (take 16 l); mode ← string_from_utf8 (drop 16 l);
    Some {| ar_archive_id := id; ar_credential_mode := mode |} |}.

(** * The channel *)

Definition text (l : blob) : rstring := default (RString [] eq_refl) (string_from_utf8 l).
Abbreviation opening := (open_channel demo_process new_host (Some 40123) (empty_registry [] 5000)).
Lemma opening_works : is_ok (fst opening) = true.
Proof. vm_compute. reflexivity. Qed.
Definition no_state : RecoveryState :=
  {| rc_claim_digest := zeros 32; rc_session_digest := None; rc_origin := []; rc_expires_at_unix_ms := 0;
     rc_claimed := false; rc_reserved := false; rc_consumed := false; rc_pending := None; rc_shutdown := false;
     rc_workspace := empty_registry [] 0; rc_host := new_host; rc_claims := []; rc_restorations := [] |}.
Definition printed : blob := (got (fst opening) ([], no_state)).1.
Definition waiting : RecoveryState := (got (fst opening) ([], no_state)).2.
Definition workspace : Registry := snd opening.
Lemma opening_run : opening = (Ok (printed, waiting), workspace).
Proof.
  unfold printed, waiting, workspace. pose proof opening_works as H. destruct opening as [[[t s]|e] g]; [done|discriminate].
Qed.

(** * The requests *)

Definition page_headers : HeaderMap := [("origin"%string, bstr "http://127.0.0.1:40123")].
Definition session_bytes : array 32 := default (zeros 32) (getrandom (rg_draws workspace) 32).
Definition cookie_headers : HeaderMap :=
  page_headers ++ [("cookie"%string, bstr "smcv_recovery_session=" ++ hex_encode (arr session_bytes))].
Definition demo_env : StepEnv := {| se_started := true; se_script := fun _ => []; se_restore := restore_env |}.
Definition demo_mode : rstring := text (bstr "recovery_key").
Definition demo_key : rstring := text (recovery_expose_once (fixed 32 7)).
Definition demo_chunks : list blob := [take 100 (so_bytes source_file); drop 100 (so_bytes source_file)].
Definition demo_header : PublicHeader :=
  got (inspect_backup_file (archive_source [] (concat demo_chunks))) (va_header empty_verified).
Definition demo_verified : VerifiedArchive :=
  got (verify_backup_file (archive_source [] (concat demo_chunks)) demo_archive_key) empty_verified.
Definition demo_confirmation : blob := arr (ph_archive_id (va_header demo_verified)) ++ bstr "revoke".
Definition demo_input : ActivateRequest :=
  {| ar_archive_id := ph_archive_id (va_header demo_verified); ar_credential_mode := text (bstr "revoke") |}.

Lemma workspace_calm : calm workspace.
Proof. by split; vm_compute. Qed.
Lemma calls_in_time n : (n < 3)%nat -> now_unix_ms (rg_clock workspace (n + rg_ticks workspace)) < rc_expires_at_unix_ms waiting.
Proof. intros Hn. do 3 (destruct n as [|n]; [vm_compute; reflexivity|]). lia. Qed.
Lemma on_page : from_page waiting page_headers /\ from_page waiting cookie_headers.
Proof. by split; vm_compute. Qed.
Lemma session_drawn : getrandom (rg_draws workspace) 32 = Some session_bytes.
Proof. reflexivity. Qed.
Lemma session_sent :
  header_get cookie_headers "cookie" = Some (bstr "smcv_recovery_session=" ++ hex_encode (arr session_bytes)).
Proof. reflexivity. Qed.
Lemma code_claimed :
  zlen printed <= 4096 /\ claim_from_slice printed = Some (text printed) /\ trim_text (rs_bytes (text printed)) = printed.
Proof. split_and!; [by vm_compute|apply string_from_utf8_Some; vm_compute; reflexivity|vm_compute; reflexivity]. Qed.
Lemma form_sizes :
  zlen (rs_bytes demo_mode) <= MAX_KEY_BYTES /\ zlen (rs_bytes demo_key) <= MAX_KEY_BYTES
  /\ 0 < zlen (concat demo_chunks) <= MAX_STAGED_BYTES.
Proof. by split_and!; vm_compute. Qed.
Lemma key_supplied : supplied_archive_key (ph_key_mode demo_header) demo_mode demo_key = Ok demo_archive_key.
Proof.
  assert (match supplied_archive_key (ph_key_mode demo_header) demo_mode demo_key with
          | Ok (Recovery k) => bool_decide (k = fixed 32 7)
          | _ => false
          end = true) as H by (vm_compute; reflexivity).
  destruct (supplied_archive_key _ _ _) as [[p|k]|e]; try discriminate. apply bool_decide_eq_true in H. by subst.
Qed.
Lemma archive_acceptable : acceptable demo_env (concat demo_chunks) demo_mode demo_key demo_archive_key demo_verified.
Proof.
  split; [done| |].
  - exists demo_header. split; [apply got_Ok; vm_compute; reflexivity|exact key_supplied].
  - apply got_Ok. vm_compute. reflexivity.
Qed.
Lemma archive_confirmed :
  zlen demo_confirmation <= 64 * 1024 /\ activate_from_slice demo_confirmation = Some demo_input
  /\ ph_archive_id (va_header demo_verified) = ar_archive_id demo_input
  /\ credential_mode (rs_bytes (ar_credential_mode demo_input)) = Ok Revoke.
Proof.
  split_and!; [by vm_compute| |reflexivity|vm_compute; reflexivity].
  cbn [activate_from_slice toy_requests]. unfold demo_confirmation. rewrite take_app_length', drop_app_length' by by rewrite array_length.
  by rewrite try_array_arr.
Qed.

Definition demo_ceremony : list Event :=
  ceremony demo_env page_headers cookie_headers printed demo_confirmation demo_mode demo_key demo_chunks.
(** All three requests succeed. *)
Example ceremony_restores :
  (fun a => lr_status a.2) <$> ch_answers (happens demo_process demo_ceremony (opened_channel waiting)) = [200; 200; 200].
Proof. vm_compute. reflexivity. Qed.

(** A request from the page whose body is no form *)
Definition formless : list Event :=
  [Arrives 0 (PostClaim [Some printed]) page_headers; Runs 0 demo_env; Runs 0 demo_env;
   Arrives 1 (PostVerify None) cookie_headers; Runs 1 demo_env].
Lemma formless_reserves :
  ch_tasks (happens demo_process formless (opened_channel waiting)) !! 1%nat = Some (Reserving None)
  /\ rc_reserved (ch_state (happens demo_process formless (opened_channel waiting))) = false.
Proof. split; vm_compute; reflexivity. Qed.
(** The same archive is refused afterwards. *)
Definition afterwards : list Event :=
  [Arrives 2 (PostVerify (Some (form_fields demo_mode demo_key demo_chunks))) cookie_headers; Runs 2 demo_env;
   Runs 2 demo_env].
Example formless_ends :
  (fun a => lr_status a.2) <$> ch_answers (happens demo_process (formless ++ Runs 1 demo_env :: Runs 1 demo_env :: afterwards)
    (opened_channel waiting)) = [200; 400; 409].
Proof. vm_compute. reflexivity. Qed.

#[local] Opaque waiting workspace printed session_bytes demo_env demo_mode demo_key demo_chunks demo_verified demo_confirmation
  demo_input cookie_headers page_headers.

Lemma recovery_restores_verified_once_witness :
  let s' := ch_state (happens demo_process demo_ceremony (opened_channel waiting)) in
  (rc_restorations s' = [] /\ rc_host s' = new_host)
  \/ exists claim r,
       rc_claims s' = [claim] /\ digest (cl_code claim) = digest printed
       /\ rc_restorations s' = [r] /\ genuine new_host s' r
       /\ forall report, rn_result r = Ok report ->
            rr_archive_id report = rn_confirmed r
            /\ exists o snapshot, restored_installation o snapshot (rr_recovery_epoch report) (rc_host s').
Proof.
  exact (recovery_restores_verified_once demo_process new_host (Some 40123) (empty_registry [] 5000) workspace printed waiting
    demo_ceremony opening_run).
Defined.

Lemma unparsed_upload_ends_recovery_witness :
  let s' := ch_state (happens demo_process (formless ++ Runs 1 demo_env :: Runs 1 demo_env :: demo_ceremony) (opened_channel waiting)) in
  rc_restorations s' = [] /\ rc_host s' = new_host /\ rc_pending s' = None
  /\ forall upload, fst (reserve upload s') = Err (RecoveryFailure 409 "A recovery archive is already staged.").
Proof.
  exact (unparsed_upload_ends_recovery demo_process new_host (Some 40123) (empty_registry [] 5000) workspace printed waiting
    formless demo_ceremony 1 demo_env demo_env opening_run (proj1 formless_reserves) (proj2 formless_reserves)).
Defined.

Lemma recovery_ceremony_completes_witness :
  let c := happens demo_process demo_ceremony (opened_channel waiting) in
  let (r, h) := restore_backup_file (se_restore demo_env) (archive_source (se_script demo_env 2) (concat demo_chunks))
                  demo_archive_key Revoke (now_unix_ms (rg_clock workspace (3 + rg_ticks workspace)))
                  (at_draw (2 + rg_draws workspace) new_host) in
  rc_host (ch_state c) = h
  /\ ch_answers c =
       [(0%nat, security_headers (claim_response (hex_encode (arr session_bytes))));
        (1%nat, security_headers (local_json 200
                  (VerificationBody (verification_response demo_verified (rc_expires_at_unix_ms waiting)))));
        (2%nat, security_headers (report_response r))]
  /\ rg_files (rc_workspace (ch_state c)) = ∅ /\ rc_consumed (ch_state c) = true /\ rc_shutdown (ch_state c) = true.
Proof.
  exact (recovery_ceremony_completes demo_process new_host (Some 40123) (empty_registry [] 5000) workspace printed waiting
    demo_env page_headers cookie_headers printed demo_confirmation (text printed) demo_mode demo_key demo_chunks session_bytes
    demo_archive_key demo_verified demo_input Revoke opening_run workspace_calm calls_in_time session_drawn on_page session_sent
    code_claimed form_sizes archive_acceptable archive_confirmed).
Defined.

#[local] Existing Instance toy_crypto.
#[local] Existing Instance toy_laws.

Definition stored (bytes : blob) : Node :=
  {| nd_kind := RegularNode; nd_mode := FILE_BITS; nd_uid := 1000; nd_bytes := bytes |}.
Definition first_copy : blob := bstr "first.smcvault".
Definition second_copy : blob := bstr "second.smcvault".
Definition broken_copy : blob := bstr "broken.smcvault".
Definition shelf : gmap blob Node :=
  <[first_copy := stored (so_bytes source_file)]> (<[second_copy := stored (so_bytes source_file)]>
  (<[broken_copy := stored (bstr "SMCV")]> (<[bstr "note.txt" := stored (bstr "rotate the key")]> ∅))).
Definition shelf_registry : Registry :=
  {| rg_directory := Some demo_directory; rg_files := shelf; rg_jobs := ∅; rg_draws := 0; rg_clock := Z.of_nat;
     rg_ticks := 0; rg_outcomes := []; rg_running := true |}.
Definition keeper : Keeper := {| kp_world := source_world; kp_directory := shelf_registry |}.
Definition in_order (n : nat) (l : list blob) : list blob := l.
Definition changed_at (name : blob) : option Z :=
  if blob_eqb name first_copy then Some 100 else if blob_eqb name second_copy then Some 200 else Some 300.
Definition whole (name : blob) : list read_event := [].
Abbreviation maintenance :=
  (maintain_backups toy_vault demo_process in_order changed_at whole calm_env demo_archive_key 2 5000 keeper).

(** The older of the two is removed for the new one. *)
Example maintenance_removes_oldest :
  match maintenance with
  | (Ok report, k') => rt_verified_copies report = 2 /\ rt_removed_verified_copies report = 1
      /\ rt_unverified_files_retained report = 1
      /\ bool_decide (is_Some (rg_files (kp_directory k') !! first_copy)) = false
      /\ bool_decide (is_Some (rg_files (kp_directory k') !! second_copy)) = true
  | (Err _, _) => False
  end.
Proof. vm_compute. repeat split. Qed.

Lemma shelf_room : (size (rg_files (kp_directory keeper)) < 4097)%nat.
Proof. apply (bool_decide_unpack _). vm_compute. exact I. Qed.
Lemma keeper_quiet : quiet (kp_world keeper).
Proof. reflexivity. Qed.
Lemma in_order_perm (n : nat) (l : list blob) : in_order n l ≡ₚ l.
Proof. reflexivity. Qed.
#[local] Opaque keeper calm_env source_world.

Lemma maintenance_keeps_latest_witness :
  let output := copy_name (new_v4 (w_draws (kp_world keeper))) in
  let files := rg_files (kp_directory keeper) in
  let new archive := exists snapshot,
    archive_of toy_vault (w_ring (kp_world keeper)) (w_db (kp_world keeper)) demo_archive_key 5000 snapshot archive in
  match maintenance with
  | (Ok report, k') => exists archive removed kept,
      new archive /\ rg_files (kp_directory k') !! output = Some (archive_node demo_process archive)
      /\ (forall name, name <> output ->
            rg_files (kp_directory k') !! name = if decide (name ∈ removed) then None else files !! name)
      /\ NoDup (removed ++ kept)
      /\ (forall name, name ∈ removed ++ kept <-> good whole demo_archive_key (kp_directory keeper) name = true)
      /\ (forall a b, a ∈ removed -> b ∈ kept -> age changed_at a <= age changed_at b)
      /\ 1 + zlen kept = Z.min 2 (1 + zlen (removed ++ kept))
      /\ rt_verified_copies report = 1 + zlen kept /\ rt_removed_verified_copies report = zlen removed
  | (Err _, k') => forall name, name <> output -> extension name = Some (bstr "smcvault") ->
      rg_files (kp_directory k') !! name = files !! name
      \/ (rg_files (kp_directory k') !! name = None /\ good whole demo_archive_key (kp_directory keeper) name = true
          /\ exists archive, new archive /\ rg_files (kp_directory k') !! output = Some (archive_node demo_process archive))
  end.
Proof.
  exact (maintenance_keeps_latest toy_vault demo_process in_order changed_at whole calm_env demo_archive_key 2 5000 keeper
    keeper_quiet ltac:(lia) in_order_perm shelf_room).
Defined.
